(* ===== verification/_CoqProject ===== *)
-Q . S2P
Prelude.v
Errno.v
Pmm.v
Links.v
Sched.v
SchedSpec.v
SchedProps.v
SchedTheorems.v
Fd.v
FdProps.v
FdTheorems.v
Pipe.v
PipeProps.v
PipeTheorems.v
Elf.v
ElfProps.v
ElfLoad.v
ElfTheorems.v
Block.v
BlockProps.v
BlockTheorems.v
Strings.v
Sha256.v
Sha256Spec.v
Sha256Theorems.v
Bytes.v
Heap.v
HeapMem.v
HeapProps.v
HeapOps.v
HeapCalls.v
HeapRealloc.v
HeapTheorems.v
Frames.v
Vmm.v
VmmTree.v
VmmBits.v
VmmProps.v
VmmWalk.v
VmmOps.v
VmmSpace.v
VmmRanges.v
VmmAlloc.v
VmmUser.v
VmmCopy.v
VmmLife.v
VmmSystem.v
UserCopy.v
HeapVmm.v
VmmTheorems.v
NetTypes.v
NetSum.v
Net.v
NetBytes.v
NetProps.v
NetSafe.v
NetSafeIp.v
NetReceive.v
NetRegistry.v
NetLink.v
NetDeliver.v
NetCalls.v
NetRoutes.v
NetTheorems.v
Udp.v
UdpProps.v
UdpSockets.v
UdpCalls.v
UdpNet.v
UdpTheorems.v
