(* ===== verification/Prelude.v ===== *)
(** * NorthstarOS: a verification development

    NorthstarOS is a small x86-64 operating system in C (src/kernel, with its
    headers in src/include/northstar).  This library models its memory
    management, scheduler, open files and pipes, program loader, block devices
    and network stack, and proves what each part promises to the others.

    ** How the code is modelled

    - Integers are [Z]; every operation that can leave the range of its C type
      is wrapped with [u8], [u16], [u32] or [u64].  Bit operations are those of
      [Z].
    - Stateful code is in the monad [M S A], a function from a state to an
      optional result: [None] is code without a defined result (an access
      outside an object, a null pointer, a spin on a lock nobody releases).
      The judgement [wp m Q s] says that [m] does return from [s], with a
      result that satisfies [Q]; every theorem about a call is stated with it
      or with an equation, so it includes that the call returns.
    - Objects that are reached through pointers live in finite maps keyed by
      address, and lists are threaded through the real link fields.  The heap
      and the page tables live in byte memory (Bytes.v): a map from the mapped
      virtual addresses to bytes.
    - Callbacks and drivers that a component calls are functions on a world
      [W]; what the component relies on is a hypothesis that states the
      documented contract, and each theorem with such a hypothesis has a
      witness in which it holds (the modules [...Toy]).
    - A loop that is not bounded by its structure takes fuel that is computed
      from the state, and the theorems show that it suffices: the number of
      threads plus one for the scheduler's lists, the number of blocks that fit
      in the heap plus one, the number of pages of a range plus one ([page_fuel],
      [copy_fuel]), the length of a buffer.  Running out is [None], so a theorem
      that a call returns also says that the fuel was enough.
    - Spin locks are fields.  Code between two points at which another thread
      can run is atomic, so locks are uncontended there; pipes, which let go of
      their lock in the middle of a call, are modelled as interleaved critical
      sections.

    ** The parts and their files

    - Prelude.v: integers, memory, record update, the monad and its rules,
      loops.  Errno.v: error numbers.  Links.v: linked lists in memory.
    - Pmm.v (kernel/mm/pmm.c): boot information, the two frame bitmaps,
      allocation, release and reservation of frames.  Frames.v is the view of
      the allocator its clients use.
    - Sched.v, SchedSpec.v, SchedProps.v, SchedTheorems.v
      (kernel/proc/scheduler.c): the code refines a specification on three
      plain lists; safety in every reachable state, round-robin order,
      deadlines, no lost wake-up.
    - Fd.v, FdProps.v, FdTheorems.v (kernel/fs/vfs.c, the descriptor layer):
      reference counts are exact along every sequence of calls within their
      contract; a call outside it that writes past the end of a table.
    - Pipe.v, PipeProps.v, PipeTheorems.v (kernel/proc/pipe.c): interleavings
      of reads, writes and closes are free of faults, first in first out, and
      lose no wake-up, as long as no other thread is let into two windows; what
      goes wrong when one is.
    - Elf.v, ElfProps.v, ElfLoad.v, ElfTheorems.v (kernel/proc/elf_loader.c):
      bounds of an accepted plan, the loaded image, rollback.
    - Block.v, BlockProps.v, BlockTheorems.v (kernel/fs/block.c, block_slice.c,
      block_mem.c): requests through nested slices stay in their windows.
    - Strings.v (kernel/core/string.c); Sha256.v, Sha256Spec.v,
      Sha256Theorems.v (kernel/core/sha256.c): equivalence with their
      reference definitions.
    - Bytes.v, Heap.v, HeapMem.v, HeapProps.v, HeapOps.v, HeapCalls.v,
      HeapRealloc.v, HeapTheorems.v (kernel/mm/heap.c): the heap implements a
      map of disjoint allocations.  HeapVmm.v has its page callbacks on top of
      the virtual memory manager.
    - Vmm.v, VmmTree.v, VmmBits.v, VmmProps.v, VmmWalk.v, VmmOps.v, VmmSpace.v,
      VmmRanges.v, VmmAlloc.v, VmmUser.v, VmmCopy.v, VmmLife.v, VmmSystem.v,
      VmmTheorems.v (kernel/mm/vmm.c): page tables in memory implement a map
      from pages to frames and flags under calls within their contract ([op_ok]
      in VmmSystem.v); spaces are isolated from each other; the life of a space
      leaks no frame; an entry of the kernel's half that stays behind in older
      spaces.  UserCopy.v (kernel/proc/usercopy.c, with
      the callbacks of kernel/proc/runtime.c): copies are all or nothing.
      Kernel buffers and the direct map are different virtual addresses; the
      model has no alias between them.
    - NetTypes.v, NetSum.v (include/northstar/net_types.h,
      kernel/net/net_checksum.c): addresses, bytes of a packet, and the
      streaming checksum, which is that of RFC 1071 for messages of up to
      128 KiB, and not beyond.
    - Net.v (kernel/net/net_device.c, net_ethernet.c, net_arp.c, net_ipv4.c,
      net_icmp.c): the static tables of the five files, the devices and the
      world are one state.  NetBytes.v has the bytes of frames, datagrams and
      echo messages, NetProps.v the invariant of the tables, NetSafe.v,
      NetSafeIp.v, NetReceive.v and NetRegistry.v that every call keeps it,
      NetLink.v and NetDeliver.v exactly what two hosts do with each other's
      frames, NetCalls.v sequences of calls, NetRoutes.v the choice of a route,
      NetTheorems.v the theorems: safety for any calls and any received bytes,
      what an ARP packet can change, longest prefix match, delivery of a
      datagram through address resolution, echo.  Drivers and the handlers of
      other protocols are parameters; uninitialised arrays hold arbitrary bytes
      (class [Garbage]), and no frame that is sent depends on them.
    - Udp.v (kernel/net/net_udp.c), UdpProps.v, UdpSockets.v, UdpCalls.v,
      UdpNet.v (the adapters of kernel/net/net_stack.c), UdpTheorems.v: the
      stack refines an abstract machine of sockets under any calls, callbacks
      included, and a datagram sent from a socket of one host is read from a
      socket of another.

    ** What callers have to respect

    The theorems about sequences of calls hold for calls within a contract, which
    is a definition that the statements name.  Where the code itself does not
    enforce a clause, the development has a theorem that shows what happens
    without it.

    - Address spaces ([op_ok], VmmSystem.v): the caller does not hand a frame over
      with [NS_VMM_PAGE_OWNED], does not take an owned page away without
      releasing its frame, does not mark borrowed pages as owned by changing
      their protection ([vmm_protect_takes_ownership]), and does not protect a
      range that spans the hole between the halves ([vmm_range_spans_hole]).
    - Descriptors ([fd_legal], FdTheorems.v): tables exist, a duplicate is asked for
      at a minimum within the table and for a file of the table's own
      namespace, and reference counts have room to grow.
    - Pipes ([fragile], PipeProps.v): no other thread runs while a close is
      between its critical section and its end, or a writer between its two looks
      at a full pipe.  System calls run on one processor with interrupts
      disabled, which keeps these windows closed.
    - Checksums (NetSum.v): at most 128 KiB ([net_checksum_overflows]); a packet
      has at most 64 KiB.
    - Executables ([mapping_ok], ElfLoad.v): what the mapper's callbacks do with
      whole pages.
    - Frames: a run of free frames across the search hint is not found (Pmm.v);
      the theorem on allocation says which runs are.

    ** Not modelled

    - The assembly of the boot loader, entry points, interrupt stubs and context
      switch, and the C code that only programs hardware (kernel/arch, the ATA
      and RTL8139 drivers): the model has no processor or device registers.  The
      drivers appear as callbacks.
    - The file systems (kernel/fs/nsfs.c, nsfs_vfs.c, initramfs.c), path
      resolution and mounts of vfs.c, process life cycle and the system-call
      table (kernel/proc/process.c, image.c, runtime.c, syscall.c, fd.c),
      TCP, the DHCP and DNS clients, socket handles and the wiring of the
      network stack (kernel/net/net_tcp.c, net_dhcp.c, net_dns.c, socket_api.c,
      socket_net_backend.c, and most of net_stack.c),
      and the boot phases in
      kernel/core/m2.c to m5.c, which are self tests and wiring.
    - User programs and their C library (src/user) and the host tools
      (src/tools). *)

From Stdlib Require Export ZArith Lia.
From stdpp Require Export prelude gmap.

#[global] Set Default Goal Selector "!".

Declare Scope ns_scope.
Delimit Scope ns_scope with ns.
Global Open Scope Z_scope.

(** ** Machine integers

    A [w]-bit unsigned C integer is a [Z]; an operation that can leave the
    range is wrapped explicitly with the conversion of its C type. *)
Definition u8 (z : Z) : Z := z mod 2 ^ 8.
Definition u16 (z : Z) : Z := z mod 2 ^ 16.
Definition u32 (z : Z) : Z := z mod 2 ^ 32.
Definition u64 (z : Z) : Z := z mod 2 ^ 64.

Definition UINT32_MAX : Z := 2 ^ 32 - 1.
Definition UINT64_MAX : Z := 2 ^ 64 - 1.
Definition SIZE_MAX : Z := UINT64_MAX.

Abbreviation is_u8 z := (0 <= z < 2 ^ 8) (only parsing).
Abbreviation is_u16 z := (0 <= z < 2 ^ 16) (only parsing).
Abbreviation is_u32 z := (0 <= z < 2 ^ 32) (only parsing).
Abbreviation is_u64 z := (0 <= z < 2 ^ 64) (only parsing).

(** C's [~mask] at 64 bits. *)
Definition not64 (z : Z) : Z := u64 (Z.lnot z).

Create HintDb ns.
#[export] Hint Extern 3 (_ <= _) => lia : ns.
#[export] Hint Extern 3 (_ < _) => lia : ns.

Lemma u64_small z : is_u64 z -> u64 z = z.
Proof. apply Z.mod_small. Qed.
Lemma u32_small z : is_u32 z -> u32 z = z.
Proof. apply Z.mod_small. Qed.
Lemma u16_small z : is_u16 z -> u16 z = z.
Proof. apply Z.mod_small. Qed.
Lemma u8_small z : is_u8 z -> u8 z = z.
Proof. apply Z.mod_small. Qed.
Lemma u64_range z : is_u64 (u64 z).
Proof. apply Z.mod_pos_bound. lia. Qed.
Lemma u32_range z : is_u32 (u32 z).
Proof. apply Z.mod_pos_bound. lia. Qed.
Lemma u16_range z : is_u16 (u16 z).
Proof. apply Z.mod_pos_bound. lia. Qed.
Lemma u8_range z : is_u8 (u8 z).
Proof. apply Z.mod_pos_bound. lia. Qed.
Lemma u32_add_l x y : u32 (u32 x + y) = u32 (x + y).
Proof. apply Zplus_mod_idemp_l. Qed.
Lemma u32_add_r x y : u32 (x + u32 y) = u32 (x + y).
Proof. apply Zplus_mod_idemp_r. Qed.
#[export] Hint Resolve u64_range u32_range u16_range u8_range : ns.

(** [lia] with quotients and remainders by constants. *)
Ltac zdiv := Z.to_euclidean_division_equations; lia.

(** The overflow test [a + b < a] that the sources use is exact. *)
Lemma add_wraps a b :
  is_u64 a -> is_u64 b -> (u64 (a + b) <? a) = (2 ^ 64 <=? a + b).
Proof.
  intros Ha Hb. unfold u64. destruct (Z.leb_spec (2 ^ 64) (a + b)).
  - rewrite (Z.mod_eq _ (2^64)) by lia.
    assert ((a + b) / 2 ^ 64 = 1) as ->; [|apply Z.ltb_lt; lia].
    symmetry. apply Z.div_unique with (a + b - 2^64); lia.
  - rewrite Z.mod_small by lia. apply Z.ltb_ge. lia.
Qed.

(** ** Powers of two and alignment *)

Definition pow2b (v : Z) : bool := negb (v =? 0) && (Z.land v (v - 1) =? 0).

Lemma pow2b_spec v : 0 <= v -> pow2b v = true -> exists k, 0 <= k /\ v = 2 ^ k.
Proof.
  intros Hv Hp. unfold pow2b in Hp. apply andb_prop in Hp as [Hnz Hl].
  apply negb_true_iff, Z.eqb_neq in Hnz. apply Z.eqb_eq in Hl.
  exists (Z.log2 v). split; [apply Z.log2_nonneg|].
  destruct (Z.log2_spec v ltac:(lia)) as [Hlo Hhi].
  destruct (Z.eq_dec v (2 ^ Z.log2 v)) as [|Hne]; [done|exfalso].
  set (k := Z.log2 v) in *.
  assert (Hb1 : Z.testbit v k = true) by (apply Z.bit_log2; lia).
  assert (Hb2 : Z.testbit (v - 1) k = true).
  { assert (Hk : Z.log2 (v - 1) = k).
    { apply Z.log2_unique; [apply Z.log2_nonneg|]. lia. }
    rewrite <- Hk. apply Z.bit_log2.
    assert (0 < 2 ^ k) by (apply Z.pow_pos_nonneg; [lia|apply Z.log2_nonneg]). lia. }
  assert (Hc : Z.testbit (Z.land v (v - 1)) k = true)
    by (rewrite Z.land_spec, Hb1, Hb2; done).
  rewrite Hl, Z.bits_0 in Hc. done.
Qed.

Lemma pow2b_pow2 k : 0 <= k -> pow2b (2 ^ k) = true.
Proof.
  intros Hk. unfold pow2b. apply andb_true_intro. split.
  - apply negb_true_iff, Z.eqb_neq. assert (0 < 2 ^ k) by (apply Z.pow_pos_nonneg; lia). lia.
  - apply Z.eqb_eq. replace (2 ^ k - 1) with (Z.ones k) by (rewrite Z.ones_equiv; lia).
    rewrite Z.land_ones by lia. apply Z.mod_same.
    assert (0 < 2 ^ k) by (apply Z.pow_pos_nonneg; lia). lia.
Qed.

Lemma land_mask v k : 0 <= k -> Z.land v (2 ^ k - 1) = v mod 2 ^ k.
Proof.
  intros Hk. replace (2 ^ k - 1) with (Z.ones k) by (rewrite Z.ones_equiv; lia).
  by apply Z.land_ones.
Qed.

Lemma land_not64 v k :
  is_u64 v -> 0 <= k -> Z.land v (not64 (2 ^ k - 1)) = v / 2 ^ k * 2 ^ k.
Proof.
  intros Hv Hk. unfold not64, u64.
  rewrite <- (Z.land_ones (Z.lnot _) 64) by lia.
  rewrite (Z.land_comm (Z.lnot _)), Z.land_assoc, Z.land_ones, Z.mod_small by lia.
  replace (2 ^ k - 1) with (Z.ones k) by (rewrite Z.ones_equiv; lia).
  rewrite <- Z.ldiff_land, Z.ldiff_ones_r by lia.
  rewrite Z.shiftr_div_pow2, Z.shiftl_mul_pow2 by lia. done.
Qed.

(** [ceil_to v a] is the least multiple of [a] that is at least [v]. *)
Definition ceil_to (v a : Z) : Z := (v + (a - 1)) / a * a.

Lemma ceil_to_ge v a : 0 < a -> v <= ceil_to v a < v + a.
Proof.
  intros Ha. unfold ceil_to.
  pose proof (Z.div_mod (v + (a - 1)) a ltac:(lia)) as Hd.
  pose proof (Z.mod_pos_bound (v + (a - 1)) a Ha). lia.
Qed.

Lemma ceil_to_divide v a : 0 < a -> (a | ceil_to v a).
Proof. intros Ha. exists ((v + (a - 1)) / a). done. Qed.

Lemma ceil_to_least v a w : 0 < a -> v <= w -> (a | w) -> ceil_to v a <= w.
Proof.
  intros Ha Hle [q ->]. unfold ceil_to. apply Z.mul_le_mono_nonneg_r; [lia|].
  apply Z.lt_succ_r. apply Z.div_lt_upper_bound; lia.
Qed.
#[export] Hint Resolve ceil_to_divide : ns.

(** ** Memory as a list of bytes

    A C object accessed by index is a list of byte values; a read or a write
    outside it has no defined result and is [None]. *)
Definition rd {A} (m : list A) (i : Z) : option A :=
  if 0 <=? i then m !! Z.to_nat i else None.

Definition wr {A} (m : list A) (i : Z) (v : A) : option (list A) :=
  if (0 <=? i) && (i <? Z.of_nat (length m)) then Some (<[Z.to_nat i := v]> m) else None.

Lemma rd_Some {A} (m : list A) i :
  0 <= i < Z.of_nat (length m) -> exists v, rd m i = Some v.
Proof.
  intros Hi. unfold rd. rewrite (proj2 (Z.leb_le 0 i)) by lia.
  apply lookup_lt_is_Some_2. lia.
Qed.

Lemma rd_lookup {A} (m : list A) i v : rd m i = Some v <-> 0 <= i /\ m !! Z.to_nat i = Some v.
Proof. unfold rd. destruct (Z.leb_spec 0 i); split; [done|by intros []|done|intros []; lia]. Qed.

Lemma rd_range {A} (m : list A) i v : rd m i = Some v -> 0 <= i < Z.of_nat (length m).
Proof. intros [Hi Hl]%rd_lookup. apply lookup_lt_Some in Hl. lia. Qed.

Lemma wr_Some {A} (m : list A) i v :
  0 <= i < Z.of_nat (length m) -> wr m i v = Some (<[Z.to_nat i := v]> m).
Proof.
  intros Hi. unfold wr.
  by rewrite (proj2 (Z.leb_le 0 i)), (proj2 (Z.ltb_lt i _)) by lia.
Qed.

Lemma rd_insert_eq {A} (m : list A) i v :
  0 <= i < Z.of_nat (length m) -> rd (<[Z.to_nat i := v]> m) i = Some v.
Proof.
  intros Hi. unfold rd. rewrite (proj2 (Z.leb_le 0 i)) by lia.
  apply list_lookup_insert_eq. lia.
Qed.

Lemma rd_insert_ne {A} (m : list A) i j v :
  0 <= i -> i <> j -> rd (<[Z.to_nat i := v]> m) j = rd m j.
Proof.
  intros Hi Hne. unfold rd. destruct (Z.leb_spec 0 j); [|done].
  apply list_lookup_insert_ne. lia.
Qed.

(** Positions of a ring. *)
Lemma mod_inj cap hd i j :
  0 < cap -> 0 <= i < cap -> 0 <= j < cap -> (hd + i) mod cap = (hd + j) mod cap -> i = j.
Proof.
  intros Hc Hi Hj E. assert (Hd : (i - j) mod cap = 0).
  { replace (i - j) with ((hd + i) - (hd + j)) by lia. rewrite Zminus_mod, E, Z.sub_diag. by apply Z.mod_0_l; lia. }
  apply Z.mod_divide in Hd; [|lia]. destruct Hd as [k Hk]. assert (k = 0) by nia. lia.
Qed.

(** Little-endian integers of [n] bytes in memory. *)
Fixpoint le_encode (n : nat) (v : Z) : list Z :=
  match n with
  | O => []
  | S n' => u8 v :: le_encode n' (Z.shiftr v 8)
  end.

Fixpoint le_decode (l : list Z) : Z :=
  match l with
  | [] => 0
  | b :: l' => b + 2 ^ 8 * le_decode l'
  end.

(** The [n] bytes at offset [o], when all of them are in the object. *)
Definition slice {A} (m : list A) (o : Z) (n : nat) : option (list A) :=
  if (0 <=? o) && (o + Z.of_nat n <=? Z.of_nat (length m))
  then Some (take n (drop (Z.to_nat o) m)) else None.

Definition le_load (m : list Z) (o : Z) (n : nat) : option Z :=
  le_decode <$> slice m o n.

Lemma length_le_encode n v : length (le_encode n v) = n.
Proof. revert v. induction n as [|n IH]; intros v; cbn; [done|]. by rewrite IH. Qed.

Lemma le_encode_bytes n v : Forall (fun b => is_u8 b) (le_encode n v).
Proof. revert v. induction n as [|n IH]; intros v; cbn; constructor; auto with ns. Qed.

Lemma le_decode_encode n v : le_decode (le_encode n v) = v mod 2 ^ (8 * Z.of_nat n).
Proof.
  revert v. induction n as [|n IH]; intros v; cbn [le_encode le_decode].
  - by rewrite Z.mod_1_r.
  - rewrite IH. unfold u8. rewrite Z.shiftr_div_pow2 by lia.
    replace (8 * Z.of_nat (S n)) with (8 + 8 * Z.of_nat n) by lia.
    rewrite Z.pow_add_r, Z.rem_mul_r by (lia || apply Z.pow_nonzero; lia). lia.
Qed.

Lemma le_decode_range l :
  Forall (fun b => is_u8 b) l -> 0 <= le_decode l < 2 ^ (8 * Z.of_nat (length l)).
Proof.
  induction 1 as [|b l Hb Hl IH]; cbn [le_decode length]; [lia|].
  replace (8 * Z.of_nat (S (length l))) with (8 + 8 * Z.of_nat (length l)) by lia.
  rewrite Z.pow_add_r by lia. lia.
Qed.

(** ** Record update

    [r <| f := v |>] is [r] with the field [f] set to [v]. *)
Class Setter {R T : Type} (proj : R -> T) := set_field : T -> R -> R.
#[export] Hint Mode Setter - - ! : typeclass_instances.
Arguments set_field {R T} proj {_} v r /.
Notation "r <| f := v |>" := (set_field f v r)
  (at level 1, f at level 10, v at level 200, left associativity) : ns_scope.
Global Open Scope ns_scope.

(** Builds the setter of a field from the record's eta expansion. *)
Ltac mk_setter eta f :=
  intros v r;
  let t := eval cbv beta delta [eta] in (eta r) in
  let t' := eval pattern (f r) in t in
  lazymatch t' with
  | ?g _ => let u := eval cbv beta in (g v) in exact u
  end.

(** The same for a record with one type parameter. *)
Ltac mk_setter1 eta f :=
  intros v r;
  let t := eval cbv beta delta [eta] in (eta _ r) in
  let t' := eval pattern (f r) in t in
  lazymatch t' with
  | ?g _ => let u := eval cbv beta in (g v) in exact u
  end.

(** ** Stateful code

    A function over a mutable state of type [S] that may have no defined
    result; sequencing is stdpp's [x ← m; k]. *)
Definition M (S A : Type) : Type := S -> option (A * S).
#[export] Instance M_ret S : MRet (M S) := fun A x s => Some (x, s).
#[export] Instance M_bind S : MBind (M S) := fun A B k m s => '(x, s') ← m s; k x s'.

(** The state itself, and a part of it. *)
Definition get {S} : M S S := fun s => Some (s, s).
Definition gets {S A} (f : S -> A) : M S A := fun s => Some (f s, s).
Definition modify {S} (f : S -> S) : M S unit := fun s => Some (tt, f s).
(** The computation with no defined result. *)
Definition stuck {S A} : M S A := fun _ => None.
(** Goes on only in a state that satisfies [P]. *)
Definition check {S} (P : S -> Prop) `{!forall s, Decision (P s)} : M S unit :=
  fun s => if decide (P s) then Some (tt, s) else None.
Definition when {S} (b : bool) (m : M S unit) : M S unit := if b then m else mret tt.

(** Total correctness: [m] has a result from [s], and it satisfies [Q]. *)
Definition wp {S A} (m : M S A) (Q : A -> S -> Prop) (s : S) : Prop :=
  exists x s', m s = Some (x, s') /\ Q x s'.

Lemma wp_ret {S A} (x : A) Q (s : S) : Q x s -> wp (mret x) Q s.
Proof. intros H. by exists x, s. Qed.

Lemma wp_bind {S A B} (m : M S A) (f : A -> M S B) Q s :
  wp m (fun x => wp (f x) Q) s -> wp (m ≫= f) Q s.
Proof.
  intros (x & s1 & Hm & y & s2 & Hf & HQ). exists y, s2. split; [|done].
  unfold mbind, M_bind. rewrite Hm. exact Hf.
Qed.

Lemma wp_mono {S A} (m : M S A) (Q R : A -> S -> Prop) s :
  wp m Q s -> (forall x s', Q x s' -> R x s') -> wp m R s.
Proof. intros (x & s' & Hm & HQ) HR. exists x, s'. auto. Qed.

Lemma wp_result {S A} (m : M S A) Q s x s' : wp m Q s -> m s = Some (x, s') -> Q x s'.
Proof. intros (y & s2 & E & HQ) E'. by simplify_eq. Qed.
Lemma wp_modify {S} (f : S -> S) Q s : Q tt (f s) -> wp (modify f) Q s.
Proof. intros H. by exists tt, (f s). Qed.

Lemma wp_gets {S A} (f : S -> A) Q s : Q (f s) s -> wp (gets f) Q s.
Proof. intros H. by exists (f s), s. Qed.

Lemma wp_check {S} (P : S -> Prop) `{!forall s, Decision (P s)} Q s :
  P s -> Q tt s -> wp (check P) Q s.
Proof. intros HP HQ. exists tt, s. split; [|done]. unfold check. by rewrite decide_True. Qed.

Lemma wp_when {S} (b : bool) (m : M S unit) Q s :
  (b = true -> wp m Q s) -> (b = false -> Q tt s) -> wp (when b m) Q s.
Proof. destruct b; intros Ht Hf; [by apply Ht|]. by apply wp_ret, Hf. Qed.

(** Sequencing is associative. *)
Lemma wp_assoc {S A B C} (m : M S A) (f : A -> M S B) (g : B -> M S C) Q s :
  wp ((x ← m; f x) ≫= g) Q s -> wp (x ← m; f x ≫= g) Q s.
Proof.
  intros (z & s3 & E & HQ). exists z, s3. split; [|done]. rewrite <- E. unfold mbind, M_bind.
  by destruct (m s) as [[x s1]|].
Qed.

(** A computation that goes wrong after its first step. *)
Lemma stuck_after {S A B} (m : M S A) (f : A -> M S B) s x s' :
  m s = Some (x, s') -> f x s' = None -> (m ≫= f) s = None.
Proof. intros Hm Hf. unfold mbind, M_bind. rewrite Hm. exact Hf. Qed.
Lemma stuck_here {S A B} (m : M S A) (f : A -> M S B) s : m s = None -> (m ≫= f) s = None.
Proof. intros Hm. unfold mbind, M_bind. by rewrite Hm. Qed.

(** *** Objects in memory

    A state keeps the objects of one C type in a finite map from addresses.  An
    access through a pointer that names no object has no defined result. *)
Definition load {S R A} (m : S -> gmap Z R) (p : Z) (f : R -> A) : M S A :=
  fun s => match m s !! p with Some r => Some (f r, s) | None => None end.
Definition store {S R T} (m : S -> gmap Z R) `{!Setter m} (p : Z) (f : R -> T) `{!Setter f} (v : T)
  : M S unit :=
  fun s => match m s !! p with
           | Some r => Some (tt, s <| m := <[p := r <| f := v |>]> (m s) |>)
           | None => None
           end.
(** Code that sees one component of the state only. *)
Definition zoom {S T A} (c : S -> T) `{!Setter c} (m : M T A) : M S A :=
  fun s => match m (c s) with Some (x, t) => Some (x, s <| c := t |>) | None => None end.

Lemma load_run {S R A} (m : S -> gmap Z R) p (f : R -> A) s r :
  m s !! p = Some r -> load m p f s = Some (f r, s).
Proof. intros Hp. unfold load. by rewrite Hp. Qed.
Lemma store_run {S R T} (m : S -> gmap Z R) `{!Setter m} p (f : R -> T) `{!Setter f} v s r :
  m s !! p = Some r -> store m p f v s = Some (tt, s <| m := <[p := r <| f := v |>]> (m s) |>).
Proof. intros Hp. unfold store. by rewrite Hp. Qed.

Lemma wp_load {S R A} (m : S -> gmap Z R) p (f : R -> A) Q s r :
  m s !! p = Some r -> Q (f r) s -> wp (load m p f) Q s.
Proof. intros Hp HQ. exists (f r), s. unfold load. by rewrite Hp. Qed.

Lemma wp_store {S R T} (m : S -> gmap Z R) `{!Setter m} p (f : R -> T) `{!Setter f} v Q s r :
  m s !! p = Some r -> Q tt (s <| m := <[p := r <| f := v |>]> (m s) |>) ->
  wp (store m p f v) Q s.
Proof. intros Hp HQ. eexists tt, _. unfold store. by rewrite Hp. Qed.

Lemma wp_zoom {S T A} (c : S -> T) `{!Setter c} (m : M T A) Q s :
  wp m (fun x t => Q x (s <| c := t |>)) (c s) -> wp (zoom c m) Q s.
Proof. intros (x & t & Hm & HQ). exists x. eexists. split; [|exact HQ]. unfold zoom. by rewrite Hm. Qed.

(** Elements of an array that is a part of the state, and code on plain values. *)
Definition elem {S A} (arr : S -> list A) (i : Z) : M S A :=
  fun s => match rd (arr s) i with Some x => Some (x, s) | None => None end.
Definition update {S A} (arr : S -> list A) `{!Setter arr} (i : Z) (f : A -> A) : M S unit :=
  fun s => match rd (arr s) i with
           | Some x => Some (tt, s <| arr := <[Z.to_nat i := f x]> (arr s) |>)
           | None => None
           end.
Definition of_option {S A} (o : option A) : M S A :=
  fun s => match o with Some x => Some (x, s) | None => None end.

Lemma wp_elem {S A} (arr : S -> list A) i Q s x :
  rd (arr s) i = Some x -> Q x s -> wp (elem arr i) Q s.
Proof. intros Hi HQ. exists x, s. unfold elem. by rewrite Hi. Qed.
Lemma wp_update {S A} (arr : S -> list A) `{!Setter arr} i f Q s x :
  rd (arr s) i = Some x -> Q tt (s <| arr := <[Z.to_nat i := f x]> (arr s) |>) -> wp (update arr i f) Q s.
Proof. intros Hi HQ. eexists tt, _. unfold update. by rewrite Hi. Qed.
Lemma wp_of_option {S A} (o : option A) Q (s : S) x : o = Some x -> Q x s -> wp (of_option o) Q s.
Proof. intros -> HQ. by exists x, s. Qed.

(** One step of a computation whose memory accesses are known. *)
Ltac mlook := cbn; rewrite ?lookup_insert_eq; first [reflexivity | eassumption].
Ltac mstep :=
  lazymatch goal with
  | |- wp (mbind _ _) _ _ => apply wp_bind
  | |- wp (mret _) _ _ => apply wp_ret
  | |- wp (load _ _ _) _ _ => eapply wp_load; [mlook|]
  | |- wp (store _ _ _ _) _ _ => eapply wp_store; [mlook|]
  | |- wp (modify _) _ _ => apply wp_modify
  | |- wp (if false then _ else _) _ _ => cbn iota
  | |- wp (if true then _ else _) _ _ => cbn iota
  end; cbn beta.
Ltac msteps := repeat mstep.

(** ** Counted loops

    [for_ n body i s] is the C loop [for (k = i; k < i + n; ++k) s = body k s;]
    whose body may have no defined result. *)
Fixpoint for_ {S} (n : nat) (body : Z -> S -> option S) (i : Z) (s : S) : option S :=
  match n with
  | O => Some s
  | Datatypes.S n' => body i s ≫= for_ n' body (i + 1)
  end.

Lemma for_inv {S} (P : Z -> S -> Prop) body n i s :
  (forall j t, i <= j < i + Z.of_nat n -> P j t ->
     exists t', body j t = Some t' /\ P (j + 1) t') ->
  P i s ->
  exists s', for_ n body i s = Some s' /\ P (i + Z.of_nat n) s'.
Proof.
  revert i s. induction n as [|n IH]; intros i s Hstep HP; cbn [for_].
  - exists s. split; [done|]. by rewrite Nat2Z.inj_0, Z.add_0_r.
  - destruct (Hstep i s ltac:(lia) HP) as (t & -> & HP'). cbn.
    destruct (IH (i + 1) t) as (s' & Hs & HP''); [|done|].
    + intros j u Hj. apply Hstep. lia.
    + exists s'. split; [done|].
      by replace (i + Z.of_nat (Datatypes.S n)) with (i + 1 + Z.of_nat n) by lia.
Qed.

(** Two loops whose bodies agree on the range run alike. *)
Lemma for_ext {S} (f g : Z -> S -> option S) n i s :
  (forall j t, i <= j < i + Z.of_nat n -> f j t = g j t) -> for_ n f i s = for_ n g i s.
Proof.
  revert i s. induction n as [|n IH]; intros i s Heq; cbn; [done|].
  rewrite Heq by lia. destruct (g i s); cbn; [|done]. apply IH. intros. apply Heq. lia.
Qed.

(** The stateful loop [for (k = i; k < i + n; ++k) x = body k x;]. *)
Fixpoint for_m {S A} (n : nat) (body : Z -> A -> M S A) (i : Z) (x : A) : M S A :=
  match n with
  | O => mret x
  | Datatypes.S n' => y ← body i x; for_m n' body (i + 1) y
  end.

Lemma wp_for_m {S A} (P : Z -> A -> S -> Prop) (body : Z -> A -> M S A) n i x s :
  (forall j y t, i <= j < i + Z.of_nat n -> P j y t -> wp (body j y) (P (j + 1)) t) ->
  P i x s -> wp (for_m n body i x) (P (i + Z.of_nat n)) s.
Proof.
  revert i x s. induction n as [|n IH]; intros i x s Hstep HP; cbn [for_m].
  - apply wp_ret. by rewrite Nat2Z.inj_0, Z.add_0_r.
  - apply wp_bind. eapply wp_mono; [apply Hstep; [lia|done]|]. intros y t Ht. cbn beta.
    replace (i + Z.of_nat (Datatypes.S n)) with (i + 1 + Z.of_nat n) by lia.
    apply IH; [|done]. intros j z u Hj. apply Hstep. lia.
Qed.

(** ** Bitmaps *)

(** Bit [f] of a byte-array bitmap; total, [false] outside the array. *)
Definition bit (bm : list Z) (f : Z) : bool :=
  Z.testbit (default 0 (rd bm (Z.shiftr f 3))) (Z.land f 7).

Definition bytes_ok (bm : list Z) : Prop := Forall (fun b => is_u8 b) bm.

(** Clear bits among the first [n]. *)
Fixpoint clear_count (p : Z -> bool) (n : nat) : Z :=
  match n with
  | O => 0
  | S n' => clear_count p n' + (if p (Z.of_nat n') then 0 else 1)
  end.

Lemma clear_count_ext p q n :
  (forall i, 0 <= i < Z.of_nat n -> p i = q i) -> clear_count p n = clear_count q n.
Proof.
  induction n as [|n IH]; intros Heq; cbn; [done|].
  rewrite Heq by lia. rewrite IH by (intros; apply Heq; lia). done.
Qed.

Lemma clear_count_update p q i n :
  0 <= i < Z.of_nat n -> p i = false -> q i = true ->
  (forall j, 0 <= j -> j <> i -> q j = p j) ->
  clear_count q n = clear_count p n - 1.
Proof.
  intros Hi Hp Hq Ho. induction n as [|n IH]; [lia|]. cbn.
  destruct (Z.eq_dec i (Z.of_nat n)) as [->|Hne].
  - rewrite Hp, Hq, (clear_count_ext q p) by (intros; apply Ho; lia). lia.
  - rewrite (Ho (Z.of_nat n)), IH by lia. lia.
Qed.

Lemma clear_count_bounds p n : 0 <= clear_count p n <= Z.of_nat n.
Proof. induction n as [|n IH]; cbn; [lia|]. destruct (p (Z.of_nat n)); lia. Qed.

Lemma clear_count_all p n :
  (forall i, 0 <= i < Z.of_nat n -> p i = true) -> clear_count p n = 0.
Proof.
  induction n as [|n IH]; intros H; cbn; [done|].
  rewrite H by lia. rewrite IH by (intros; apply H; lia). done.
Qed.

Lemma clear_count_pos p n i :
  0 <= i < Z.of_nat n -> p i = false -> 0 < clear_count p n.
Proof.
  intros Hi Hp. induction n as [|n IH]; [lia|]. cbn.
  destruct (Z.eq_dec i (Z.of_nat n)) as [->|]; [rewrite Hp; pose proof (clear_count_bounds p n); lia|].
  assert (0 < clear_count p n) by (apply IH; lia).
  destruct (p (Z.of_nat n)); lia.
Qed.

Lemma clear_count_exists p n :
  0 < clear_count p n -> exists i, 0 <= i < Z.of_nat n /\ p i = false.
Proof.
  induction n as [|n IH]; cbn; [lia|]. destruct (p (Z.of_nat n)) eqn:E; intros H.
  - destruct IH as (i & Hi & Hp); [lia|]. exists i. split; [lia|done].
  - exists (Z.of_nat n). split; [lia|done].
Qed.

(** Setting a run of clear bits lowers the count by its length. *)
Lemma clear_count_run p q c k n :
  0 <= c -> c + Z.of_nat k <= Z.of_nat n ->
  (forall g, c <= g < c + Z.of_nat k -> p g = false /\ q g = true) ->
  (forall g, 0 <= g -> ~ (c <= g < c + Z.of_nat k) -> q g = p g) ->
  clear_count q n = clear_count p n - Z.of_nat k.
Proof.
  revert q. induction k as [|k IH]; intros q Hc Hn Hin Hout.
  - rewrite (clear_count_ext q p); [lia|]. intros i Hi. apply Hout; lia.
  - set (m := fun g => if g =? c + Z.of_nat k then false else q g).
    assert (Hm : clear_count m n = clear_count p n - Z.of_nat k).
    { apply IH; [lia|lia| |]; intros g Hg; unfold m;
        destruct (Z.eqb_spec g (c + Z.of_nat k)); try lia.
      - apply Hin. lia.
      - intros _. subst. symmetry. apply Hin. lia.
      - intros Hr. apply Hout; lia. }
    rewrite (clear_count_update m q (c + Z.of_nat k)); [lia|lia| | |].
    + unfold m. by rewrite Z.eqb_refl.
    + apply Hin. lia.
    + intros j _ Hj. unfold m. by rewrite (proj2 (Z.eqb_neq _ _)).
Qed.

(** The byte and the bit of a bitmap index. *)
Lemma bit_index f : 0 <= f -> f = 8 * Z.shiftr f 3 + Z.land f 7 /\ 0 <= Z.land f 7 < 8 /\ 0 <= Z.shiftr f 3.
Proof.
  intros Hf. change 7 with (2 ^ 3 - 1). rewrite land_mask, Z.shiftr_div_pow2 by lia.
  pose proof (Z.div_mod f (2 ^ 3) ltac:(lia)). pose proof (Z.mod_pos_bound f (2 ^ 3) ltac:(lia)).
  split_and!; lia.
Qed.

Lemma bit_index_lt f n : 0 <= f < 8 * n -> 0 <= Z.shiftr f 3 < n.
Proof. intros Hf. pose proof (bit_index f ltac:(lia)). lia. Qed.

Lemma u8_bit k : 0 <= k < 8 -> u8 (Z.shiftl 1 k) = 2 ^ k.
Proof.
  intros Hk. rewrite Z.shiftl_1_l. apply u8_small. split; [apply Z.pow_nonneg; lia|].
  apply Z.pow_lt_mono_r; lia.
Qed.

Lemma bit_test b k : 0 <= k < 8 -> negb (Z.land b (u8 (Z.shiftl 1 k)) =? 0) = Z.testbit b k.
Proof.
  intros Hk. rewrite u8_bit by done.
  assert (Hl : Z.land b (2 ^ k) = if Z.testbit b k then 2 ^ k else 0).
  { apply Z.bits_inj'. intros n Hn. rewrite Z.land_spec, Z.pow2_bits_eqb by lia.
    destruct (Z.eqb_spec k n) as [->|Hne].
    - destruct (Z.testbit b n); [by rewrite Z.pow2_bits_true|by rewrite Z.bits_0].
    - rewrite andb_false_r. destruct (Z.testbit b k); [|by rewrite Z.bits_0].
      by rewrite Z.pow2_bits_false. }
  rewrite Hl. destruct (Z.testbit b k); [|done].
  apply negb_true_iff, Z.eqb_neq. apply Z.pow_nonzero; lia.
Qed.

Lemma bit_set_byte b k n :
  0 <= k < 8 -> 0 <= n ->
  Z.testbit (Z.lor b (u8 (Z.shiftl 1 k))) n = (n =? k) || Z.testbit b n.
Proof.
  intros Hk Hn. rewrite u8_bit, Z.lor_spec, Z.pow2_bits_eqb, orb_comm, (Z.eqb_sym n) by lia. done.
Qed.

Lemma bit_clear_byte b k n :
  is_u8 b -> 0 <= k < 8 -> 0 <= n < 8 ->
  Z.testbit (Z.land b (u8 (Z.lnot (Z.shiftl 1 k)))) n = negb (n =? k) && Z.testbit b n.
Proof.
  intros Hb Hk Hn. unfold u8.
  rewrite Z.land_spec, Z.mod_pow2_bits_low, Z.lnot_spec, Z.shiftl_1_l, Z.pow2_bits_eqb by lia.
  by rewrite andb_comm, (Z.eqb_sym n).
Qed.

Lemma lor_u8 a b : is_u8 a -> is_u8 b -> is_u8 (Z.lor a b).
Proof.
  intros Ha Hb. split; [apply Z.lor_nonneg; lia|].
  destruct (Z.eq_dec (Z.lor a b) 0) as [->|Hz]; [lia|].
  apply Z.log2_lt_pow2; [assert (0 <= Z.lor a b) by (apply Z.lor_nonneg; lia); lia|].
  rewrite Z.log2_lor by lia.
  assert (Hl : forall x, is_u8 x -> Z.log2 x < 8).
  { intros x Hx. destruct (Z.eq_dec x 0) as [->|]; [done|]. apply Z.log2_lt_pow2; lia. }
  pose proof (Hl a Ha). pose proof (Hl b Hb). lia.
Qed.

Lemma land_u8 a b : is_u8 a -> 0 <= b -> is_u8 (Z.land a b).
Proof.
  intros Ha Hb. split; [apply Z.land_nonneg; lia|].
  destruct (Z.eq_dec (Z.land a b) 0) as [->|Hz]; [lia|].
  assert (0 <= Z.land a b) by (apply Z.land_nonneg; lia).
  apply Z.log2_lt_pow2; [lia|].
  pose proof (Z.log2_land a b ltac:(lia) ltac:(lia)).
  assert (Z.log2 a < 8); [|lia].
  destruct (Z.eq_dec a 0) as [->|]; [done|]. apply Z.log2_lt_pow2; lia.
Qed.

Lemma bytes_ok_rd bm i b : bytes_ok bm -> rd bm i = Some b -> is_u8 b.
Proof.
  intros Hok Hr. unfold rd in Hr. destruct (0 <=? i); [|done].
  by eapply (Forall_lookup_1 (fun b => is_u8 b)).
Qed.

Lemma slice_Some {A} (m : list A) o n :
  0 <= o -> o + Z.of_nat n <= Z.of_nat (length m) ->
  exists s, slice m o n = Some s /\ length s = n.
Proof.
  intros Ho Hle. unfold slice.
  rewrite (proj2 (Z.leb_le 0 o)), (proj2 (Z.leb_le (o + _) _)) by lia.
  eexists. split; [done|]. rewrite length_take, length_drop. lia.
Qed.

Lemma le_load_range m o n :
  bytes_ok m -> 0 <= o -> o + Z.of_nat n <= Z.of_nat (length m) ->
  exists v, le_load m o n = Some v /\ 0 <= v < 2 ^ (8 * Z.of_nat n).
Proof.
  intros Hok Ho Hle. unfold le_load, slice.
  rewrite (proj2 (Z.leb_le 0 o)), (proj2 (Z.leb_le (o + _) _)) by lia. cbn.
  eexists. split; [done|].
  pose proof (le_decode_range (take n (drop (Z.to_nat o) m))) as Hr.
  rewrite length_take, length_drop in Hr.
  replace (n `min` (length m - Z.to_nat o))%nat with n in Hr by lia.
  apply Hr. by apply Forall_take, Forall_drop.
Qed.

(** Bits of a bitmap with one byte replaced. *)
Lemma bit_insert bm f v g :
  0 <= f -> 0 <= g -> Z.shiftr f 3 < Z.of_nat (length bm) ->
  bit (<[Z.to_nat (Z.shiftr f 3) := v]> bm) g =
  if Z.shiftr g 3 =? Z.shiftr f 3 then Z.testbit v (Z.land g 7) else bit bm g.
Proof.
  intros Hf Hg Hlen. pose proof (bit_index f Hf). unfold bit.
  destruct (Z.eqb_spec (Z.shiftr g 3) (Z.shiftr f 3)) as [E|E].
  - rewrite E, rd_insert_eq by lia. done.
  - by rewrite rd_insert_ne by lia.
Qed.

(** Running an option without unfolding what it computes. *)
Lemma opt_bind {A B} (m : option A) x (f : A -> option B) : m = Some x -> m ≫= f = f x.
Proof. by intros ->. Qed.

(** ** Windows of a list *)

(** [l] with the bytes from [o] on replaced by [b]. *)
Definition splice {A} (l : list A) (o : nat) (b : list A) : list A := take o l ++ b ++ drop (o + length b) l.

Definition window_of {A} (l : list A) (o n : nat) : list A := take n (drop o l).

Lemma splice_nil {A} (l : list A) o : splice l o [] = l.
Proof. unfold splice. cbn [app length]. by rewrite Nat.add_0_r, take_drop. Qed.

Lemma length_splice {A} (l : list A) o b : (o + length b <= length l)%nat -> length (splice l o b) = length l.
Proof. intros H. unfold splice. rewrite !length_app, length_take, length_drop. lia. Qed.

Lemma lookup_splice_out {A} (l : list A) o b i :
  (o + length b <= length l)%nat -> (i < o \/ o + length b <= i)%nat -> splice l o b !! i = l !! i.
Proof.
  intros Hl [Hi|Hi]; unfold splice.
  - rewrite lookup_app_l, lookup_take_lt by (rewrite ?length_take; lia). done.
  - rewrite !lookup_app_r, lookup_drop, length_take by (rewrite ?length_take, ?length_app; lia). f_equal. lia.
Qed.

Lemma window_splice {A} (l : list A) o b : (o + length b <= length l)%nat -> window_of (splice l o b) o (length b) = b.
Proof.
  intros Hl. unfold window_of, splice.
  assert (Ho : length (take o l) = o) by (rewrite length_take; lia).
  rewrite drop_app_length', take_app_length by done. done.
Qed.

Lemma splice_window {A} (l : list A) o n : (o + n <= length l)%nat -> splice l o (window_of l o n) = l.
Proof.
  intros Hl. unfold splice, window_of. rewrite length_take, length_drop.
  replace (n `min` (length l - o))%nat with n by lia.
  rewrite <- drop_drop, take_drop, take_drop. done.
Qed.

Lemma lookup_splice_in {A} (l : list A) o b i :
  (o <= length l)%nat -> (o <= i < o + length b)%nat -> splice l o b !! i = b !! (i - o)%nat.
Proof.
  intros Hl Hi. unfold splice.
  rewrite lookup_app_r, lookup_app_l, length_take by (rewrite length_take; lia). f_equal. lia.
Qed.

(** A list that agrees with a spliced one everywhere. *)
Lemma splice_ext {A} (l l' : list A) o b :
  (o + length b <= length l)%nat -> length l' = length l ->
  (forall i, (o <= i < o + length b)%nat -> l' !! i = b !! (i - o)%nat) ->
  (forall i, (i < o \/ o + length b <= i)%nat -> l' !! i = l !! i) -> l' = splice l o b.
Proof.
  intros Hl Hlen Hin Hout. apply list_eq. intros i.
  destruct (decide (o <= i < o + length b)%nat).
  - by rewrite Hin, lookup_splice_in by lia.
  - by rewrite Hout, lookup_splice_out by lia.
Qed.

Lemma lookup_window {A} (l : list A) o n i : (i < n)%nat -> window_of l o n !! i = l !! (o + i)%nat.
Proof. intros Hi. unfold window_of. by rewrite lookup_take_lt, lookup_drop by done. Qed.

Lemma length_window {A} (l : list A) o n : (o + n <= length l)%nat -> length (window_of l o n) = n.
Proof. intros H. unfold window_of. rewrite length_take, length_drop. lia. Qed.

Lemma window_app {A} (l : list A) o n m : window_of l o n ++ window_of l (o + n) m = window_of l o (n + m).
Proof. unfold window_of. rewrite <- drop_drop. apply take_take_drop. Qed.

Lemma take_splice {A} (l : list A) o b : (o <= length l)%nat -> take (o + length b) (splice l o b) = take o l ++ b.
Proof.
  intros Hl. unfold splice. rewrite app_assoc. rewrite take_app_le by (rewrite length_app, length_take; lia).
  apply take_ge. rewrite length_app, length_take. lia.
Qed.

Lemma splice_insert {A} (l : list A) o x : (o < length l)%nat -> <[o := x]> l = splice l o [x].
Proof.
  intros Ho. apply splice_ext; cbn [length]; rewrite ?length_insert; [lia|done| |].
  - intros i Hi. replace i with o by lia. rewrite list_lookup_insert_eq, Nat.sub_diag by done. done.
  - intros i Hi. apply list_lookup_insert_ne. lia.
Qed.

(** Neighbouring splices are one, in either order. *)
Lemma splice_splice {A} (l : list A) o a b :
  (o + length a + length b <= length l)%nat ->
  splice (splice l o a) (o + length a) b = splice l o (a ++ b) /\
  splice (splice l (o + length a) b) o a = splice l o (a ++ b).
Proof.
  intros Hl. split; (apply splice_ext; rewrite ?length_app, ?length_splice by (rewrite ?length_splice; lia); [lia|done| |]);
    intros i Hi.
  - destruct (decide (i < o + length a)%nat).
    + rewrite lookup_splice_out, lookup_splice_in, lookup_app_l by (rewrite ?length_splice; lia). done.
    + rewrite lookup_splice_in, lookup_app_r by (rewrite ?length_splice; lia). f_equal. lia.
  - rewrite !lookup_splice_out by (rewrite ?length_splice; lia). done.
  - destruct (decide (i < o + length a)%nat).
    + rewrite lookup_splice_in, lookup_app_l by (rewrite ?length_splice; lia). done.
    + rewrite lookup_splice_out, lookup_splice_in, lookup_app_r by (rewrite ?length_splice; lia). f_equal. lia.
  - rewrite !lookup_splice_out by (rewrite ?length_splice; lia). done.
Qed.

(** A splice that reaches the end. *)
Lemma splice_end {A} (l : list A) o b : (o + length b = length l)%nat -> splice l o b = take o l ++ b.
Proof. intros Hl. unfold splice. by rewrite drop_ge, app_nil_r by lia. Qed.

Lemma lxor_range a b k : 0 <= k -> 0 <= a < 2 ^ k -> 0 <= b < 2 ^ k -> 0 <= Z.lxor a b < 2 ^ k.
Proof.
  intros Hk Ha Hb. assert (H0 : 0 <= Z.lxor a b) by (apply Z.lxor_nonneg; lia). split; [done|].
  destruct (Z.eq_dec (Z.lxor a b) 0) as [->|Hne]; [lia|]. apply Z.log2_lt_pow2; [lia|].
  destruct (Z.eq_dec a 0) as [->|]; [rewrite Z.lxor_0_l in *; apply Z.log2_lt_pow2; lia|].
  destruct (Z.eq_dec b 0) as [->|]; [rewrite Z.lxor_0_r in *; apply Z.log2_lt_pow2; lia|].
  pose proof (Z.log2_lxor a b ltac:(lia) ltac:(lia)). pose proof (proj1 (Z.log2_lt_pow2 a k ltac:(lia)) ltac:(lia)).
  pose proof (proj1 (Z.log2_lt_pow2 b k ltac:(lia)) ltac:(lia)). lia.
Qed.

Lemma lor_bound a b k : 0 <= k -> 0 <= a < 2 ^ k -> 0 <= b < 2 ^ k -> 0 <= Z.lor a b < 2 ^ k.
Proof.
  intros Hk Ha Hb. assert (H0 : 0 <= Z.lor a b) by (apply Z.lor_nonneg; lia). split; [done|].
  rewrite <- (Z.mod_small a (2 ^ k)), <- (Z.mod_small b (2 ^ k)) by done.
  rewrite <- !Z.land_ones, <- Z.land_lor_distr_l, Z.land_ones by done. apply Z.mod_pos_bound. lia.
Qed.

(** Bit or of parts that do not overlap is addition. *)
Lemma lor_bytes a b k : 0 <= k -> 0 <= b < 2 ^ k -> Z.lor (a * 2 ^ k) b = a * 2 ^ k + b.
Proof.
  intros Hk Hb. assert (E : Z.land (a * 2 ^ k) b = 0); [|by rewrite <- Z.lxor_lor, <- Z.add_nocarry_lxor by done].
  apply Z.bits_inj'. intros n Hn. rewrite Z.land_spec, Z.bits_0. destruct (Z.lt_ge_cases n k).
  - by rewrite Z.mul_pow2_bits_low by lia.
  - assert (Z.testbit b n = false) as ->; [|by rewrite andb_false_r].
    apply Z.testbit_false; [lia|]. rewrite Z.div_small; [done|].
    split; [lia|]. apply Z.lt_le_trans with (2 ^ k); [lia|]. apply Z.pow_le_mono_r; lia.
Qed.
