(* ===== verification/Errno.v ===== *)
(** * Error numbers and null pointers

    The part of include/northstar/errno.h the modelled code returns.  A kernel
    function reports an error as the negated number. *)

From S2P Require Import Prelude.

(** Pointers are addresses; no object lives at the null pointer. *)
Definition NULL : Z := 0.

Definition NS_EIO : Z := 5.
Abbreviation NS_EBADF := (9) (only parsing).
Abbreviation NS_EAGAIN := (11) (only parsing).
Abbreviation NS_ENOMEM := (12) (only parsing).
Abbreviation NS_EFAULT := (14) (only parsing).
Abbreviation NS_EBUSY := (16) (only parsing).
Abbreviation NS_ENODEV := (19) (only parsing).
Definition NS_EINVAL : Z := 22.
Abbreviation NS_EMFILE := (24) (only parsing).
Abbreviation NS_ESPIPE := (29) (only parsing).
Definition NS_EROFS : Z := 30.
Definition NS_EPIPE : Z := 32.
Abbreviation NS_ERANGE := (34) (only parsing).
Abbreviation NS_ENAMETOOLONG := (36) (only parsing).
Abbreviation NS_ENOSYS := (38) (only parsing).
Definition NS_EPROTO : Z := 71.
Definition NS_EOVERFLOW : Z := 75.
Abbreviation NS_EMSGSIZE := (90) (only parsing).

(** Conversion of a 64-bit unsigned value to [int64_t], as GCC defines it. *)
Definition s64 (z : Z) : Z := if u64 z <? 2 ^ 63 then u64 z else u64 z - 2 ^ 64.
Definition INT64_MAX : Z := 2 ^ 63 - 1.

Lemma s64_small z : 0 <= z < 2 ^ 63 -> s64 z = z.
Proof.
  intros Hz. unfold s64. rewrite u64_small by lia.
  by rewrite (proj2 (Z.ltb_lt _ _)) by lia.
Qed.
