(* ===== verification/Pmm.v ===== *)
(** * The physical memory manager: kernel/mm/pmm.c

    Boot-information validation, the two frame bitmaps and the frame
    allocator.  A function's result is [None] exactly where the C code has no
    defined result: an access outside a bitmap or outside the E820 table, or a
    spin on a lock that is never released. *)

From S2P Require Import Prelude.

(** ** Data *)

Definition NS_PAGE_SHIFT : Z := 12.
Definition NS_PAGE_SIZE : Z := 4096.
Abbreviation NS_INVALID_PHYS := UINT64_MAX (only parsing).
Definition NS_PMM_LOW_MEMORY_RESERVE : Z := 0x100000.

Definition NS_PMM_OK : Z := 0.
Abbreviation NS_PMM_EINVAL := (-1) (only parsing).
Abbreviation NS_PMM_ECORRUPT := (-2) (only parsing).
Abbreviation NS_PMM_ENOSPC := (-3) (only parsing).
Abbreviation NS_PMM_ERANGE := (-4) (only parsing).
Abbreviation NS_PMM_EPERM := (-5) (only parsing).
Abbreviation NS_PMM_EDOUBLEFREE := (-6) (only parsing).

Abbreviation NORTHSTAR_BOOT_MAGIC := 0x544f4f425254534e (only parsing).
Abbreviation NORTHSTAR_BOOT_VERSION := 1 (only parsing).
Abbreviation NORTHSTAR_BOOT_F_E820 := (Z.shiftl 1 0) (only parsing).
Abbreviation NORTHSTAR_BOOT_F_FRAMEBUFFER := (Z.shiftl 1 1) (only parsing).
Abbreviation NORTHSTAR_BOOT_F_INITRD := (Z.shiftl 1 2) (only parsing).
Abbreviation NORTHSTAR_BOOT_F_CHECKSUM := (Z.shiftl 1 4) (only parsing).
Abbreviation NORTHSTAR_E820_USABLE := 1 (only parsing).
Abbreviation NORTHSTAR_E820_ATTR_ENABLED := (Z.shiftl 1 0) (only parsing).
Abbreviation NORTHSTAR_BOOT_INFO_SIZE := 192 (only parsing).

(** The boot-information block, in the order of its packed layout. *)
Record northstar_boot_info := mk_boot_info {
  magic : Z;
  version : Z;
  bi_size : Z;
  checksum : Z;
  flags : Z;
  boot_drive : Z;
  reserved0 : list Z;
  e820_entries_phys : Z;
  e820_entry_count : Z;
  e820_entry_size : Z;
  kernel_phys_base : Z;
  kernel_virt_base : Z;
  kernel_size : Z;
  pml4_phys : Z;
  initrd_phys_base : Z;
  initrd_size : Z;
  direct_map_base : Z;
  bootloader_phys_base : Z;
  bootloader_size : Z;
  page_tables_phys_base : Z;
  page_tables_size : Z;
  boot_info_phys : Z;
  framebuffer_phys_base : Z;
  framebuffer_size : Z;
  rsdp_phys : Z;
  direct_map_size : Z;
  filesystem_lba : Z;
  filesystem_sectors : Z }.

(** The object representation of the block: 192 packed little-endian bytes. *)
Definition boot_info_bytes (b : northstar_boot_info) : list Z :=
  le_encode 8 (magic b) ++ le_encode 4 (version b) ++ le_encode 4 (bi_size b) ++
  le_encode 4 (checksum b) ++ le_encode 4 (flags b) ++ le_encode 1 (boot_drive b) ++
  take 7 (reserved0 b ++ replicate 7 0) ++
  le_encode 8 (e820_entries_phys b) ++ le_encode 4 (e820_entry_count b) ++
  le_encode 4 (e820_entry_size b) ++ le_encode 8 (kernel_phys_base b) ++
  le_encode 8 (kernel_virt_base b) ++ le_encode 8 (kernel_size b) ++
  le_encode 8 (pml4_phys b) ++ le_encode 8 (initrd_phys_base b) ++
  le_encode 8 (initrd_size b) ++ le_encode 8 (direct_map_base b) ++
  le_encode 8 (bootloader_phys_base b) ++ le_encode 8 (bootloader_size b) ++
  le_encode 8 (page_tables_phys_base b) ++ le_encode 8 (page_tables_size b) ++
  le_encode 8 (boot_info_phys b) ++ le_encode 8 (framebuffer_phys_base b) ++
  le_encode 8 (framebuffer_size b) ++ le_encode 8 (rsdp_phys b) ++
  le_encode 8 (direct_map_size b) ++ le_encode 8 (filesystem_lba b) ++
  le_encode 8 (filesystem_sectors b).

Record northstar_e820_entry := mk_e820 {
  base : Z;
  length_ : Z;
  type_ : Z;
  attributes : Z }.

Record ns_pmm := mk_pmm {
  allocated_bitmap : list Z;
  reserved_bitmap : list Z;
  bytes_per_bitmap : Z;
  frame_count : Z;
  usable_frames : Z;
  free_frames : Z;
  next_hint : Z;
  managed_limit : Z;
  lock : Z;
  initialized : Z }.

Definition eta_pmm (p : ns_pmm) : ns_pmm :=
  mk_pmm (allocated_bitmap p) (reserved_bitmap p) (bytes_per_bitmap p)
    (frame_count p) (usable_frames p) (free_frames p) (next_hint p)
    (managed_limit p) (lock p) (initialized p).

#[export] Instance set_allocated_bitmap : Setter allocated_bitmap.
Proof. mk_setter eta_pmm allocated_bitmap. Defined.
#[export] Instance set_reserved_bitmap : Setter reserved_bitmap.
Proof. mk_setter eta_pmm reserved_bitmap. Defined.
#[export] Instance set_usable_frames : Setter usable_frames.
Proof. mk_setter eta_pmm usable_frames. Defined.
#[export] Instance set_free_frames : Setter free_frames.
Proof. mk_setter eta_pmm free_frames. Defined.
#[export] Instance set_next_hint : Setter next_hint.
Proof. mk_setter eta_pmm next_hint. Defined.
#[export] Instance set_lock : Setter lock.
Proof. mk_setter eta_pmm lock. Defined.
#[export] Instance set_initialized : Setter initialized.
Proof. mk_setter eta_pmm initialized. Defined.

Record ns_pmm_stats := mk_stats {
  tracked_frames : Z;
  stat_usable_frames : Z;
  stat_free_frames : Z;
  allocated_frames : Z;
  permanently_reserved_frames : Z;
  highest_physical_address : Z }.

(** ** Helpers *)

(** The lock word of a single-threaded run: taking a lock that is held spins. *)
Definition pmm_lock (p : ns_pmm) : option ns_pmm :=
  if lock p =? 0 then Some (p <| lock := 1 |>) else None.

Definition pmm_unlock (p : ns_pmm) : ns_pmm := p <| lock := 0 |>.

Definition pmm_memset (destination : list Z) (value length : Z) : option (list Z) :=
  for_ (Z.to_nat length) (fun i bytes => wr bytes i value) 0 destination.

Definition load_le32 (m : list Z) (p : Z) : option Z :=
  p0 ← rd m p; p1 ← rd m (p + 1); p2 ← rd m (p + 2); p3 ← rd m (p + 3);
  Some (Z.lor (Z.lor (Z.lor p0 (u32 (Z.shiftl p1 8))) (u32 (Z.shiftl p2 16)))
              (u32 (Z.shiftl p3 24))).

Definition add_overflow_u64 (a b : Z) : bool * Z :=
  let out := u64 (a + b) in (out <? a, out).

Definition align_down_page (value : Z) : Z :=
  Z.land value (not64 (NS_PAGE_SIZE - 1)).

Definition align_up_page_saturating (value : Z) : Z :=
  if UINT64_MAX - (NS_PAGE_SIZE - 1) <? value
  then Z.land UINT64_MAX (not64 (NS_PAGE_SIZE - 1))
  else Z.land (value + NS_PAGE_SIZE - 1) (not64 (NS_PAGE_SIZE - 1)).

Definition bitmap_get (bitmap : list Z) (frame : Z) : option bool :=
  b ← rd bitmap (Z.shiftr frame 3);
  Some (negb (Z.land b (u8 (Z.shiftl 1 (Z.land frame 7))) =? 0)).

Definition bitmap_set (bitmap : list Z) (frame : Z) : option (list Z) :=
  b ← rd bitmap (Z.shiftr frame 3);
  wr bitmap (Z.shiftr frame 3) (Z.lor b (u8 (Z.shiftl 1 (Z.land frame 7)))).

Definition bitmap_clear (bitmap : list Z) (frame : Z) : option (list Z) :=
  b ← rd bitmap (Z.shiftr frame 3);
  wr bitmap (Z.shiftr frame 3) (Z.land b (u8 (Z.lnot (Z.shiftl 1 (Z.land frame 7))))).

(** The E820 table is the memory at [entries]; entries are [e820_entry_size]
    bytes apart and are read through a 24-byte structure. *)
Definition entry_at (boot : northstar_boot_info) (entries : list Z) (index : Z)
  : option northstar_e820_entry :=
  let o := index * e820_entry_size boot in
  b ← le_load entries o 8; l ← le_load entries (o + 8) 8;
  t ← le_load entries (o + 16) 4; a ← le_load entries (o + 20) 4;
  Some (mk_e820 b l t a).

Definition entry_enabled (entry : northstar_e820_entry) : bool :=
  (attributes entry =? 0)
  || negb (Z.land (attributes entry) NORTHSTAR_E820_ATTR_ENABLED =? 0).

(** ** Boot information *)

Definition ns_boot_info_validate (boot : option northstar_boot_info) : option Z :=
  match boot with
  | None => Some NS_PMM_ECORRUPT
  | Some b =>
    if negb (magic b =? NORTHSTAR_BOOT_MAGIC)
       || negb (version b =? NORTHSTAR_BOOT_VERSION)
       || negb (bi_size b =? NORTHSTAR_BOOT_INFO_SIZE)
    then Some NS_PMM_ECORRUPT
    else if (Z.land (flags b) NORTHSTAR_BOOT_F_E820 =? 0)
       || (e820_entries_phys b =? 0) || (e820_entry_count b =? 0)
       || (4096 <? e820_entry_count b)
       || (e820_entry_size b <? 20) || (64 <? e820_entry_size b)
    then Some NS_PMM_ECORRUPT
    else
    let e820_bytes := u64 (e820_entry_count b * e820_entry_size b) in
    let '(phys_overflow, kernel_phys_end) :=
      add_overflow_u64 (kernel_phys_base b) (kernel_size b) in
    let '(virt_overflow, kernel_virt_end) :=
      add_overflow_u64 (kernel_virt_base b) (kernel_size b) in
    let direct_last := u64 (direct_map_base b + direct_map_size b - 1) in
    if (kernel_size b =? 0)
       || negb (Z.land (kernel_phys_base b) (NS_PAGE_SIZE - 1) =? 0)
       || negb (Z.land (kernel_virt_base b) (NS_PAGE_SIZE - 1) =? 0)
       || phys_overflow || virt_overflow
       || (kernel_virt_base b <? 0xffff800000000000)
       || (kernel_virt_end <? 0xffff800000000000)
       || (direct_map_size b =? 0)
       || negb (Z.land (direct_map_size b) (NS_PAGE_SIZE - 1) =? 0)
       || (UINT64_MAX - (direct_map_size b - 1) <? direct_map_base b)
       || (direct_last <? 0xffff800000000000)
       || (direct_map_size b <? kernel_phys_end)
       || (pml4_phys b =? 0)
       || negb (Z.land (pml4_phys b) (NS_PAGE_SIZE - 1) =? 0)
       || (direct_map_size b - NS_PAGE_SIZE <? pml4_phys b)
       || negb (Z.land (direct_map_base b) (NS_PAGE_SIZE - 1) =? 0)
       || (direct_map_base b <? 0xffff800000000000)
       || (direct_map_size b <=? e820_entries_phys b)
       || (direct_map_size b - e820_entries_phys b <? e820_bytes)
       || (direct_map_size b <=? boot_info_phys b)
       || (direct_map_size b - boot_info_phys b <? bi_size b)
    then Some NS_PMM_ECORRUPT
    else if negb (page_tables_size b =? 0)
       && (negb (Z.land (page_tables_phys_base b) (NS_PAGE_SIZE - 1) =? 0)
           || negb (Z.land (page_tables_size b) (NS_PAGE_SIZE - 1) =? 0)
           || (direct_map_size b <=? page_tables_phys_base b)
           || (direct_map_size b - page_tables_phys_base b <? page_tables_size b)
           || (pml4_phys b <? page_tables_phys_base b)
           || (page_tables_size b <=? pml4_phys b - page_tables_phys_base b))
    then Some NS_PMM_ECORRUPT
    else if negb (Z.land (flags b) NORTHSTAR_BOOT_F_CHECKSUM =? 0) then
      sum ← for_ (Z.to_nat ((bi_size b + 3) / 4))
              (fun i sum => w ← load_le32 (boot_info_bytes b) (4 * i);
                            Some (u32 (sum + w))) 0 0;
      if negb (sum =? 0) then Some NS_PMM_ECORRUPT else Some NS_PMM_OK
    else Some NS_PMM_OK
  end.

Definition discover_limit (boot : northstar_boot_info) (entries : list Z) : option Z :=
  highest ← for_ (Z.to_nat (e820_entry_count boot))
    (fun i highest =>
       entry ← entry_at boot entries i;
       if negb (entry_enabled entry) || (length_ entry =? 0) then Some highest
       else
         let '(overflow, sum) := add_overflow_u64 (base entry) (length_ entry) in
         let end_ := if overflow : bool then UINT64_MAX else sum in
         Some (if highest <? end_ then end_ else highest)) 0 0;
  let highest :=
    if negb (direct_map_size boot =? 0) && (direct_map_size boot <? highest)
    then direct_map_size boot else highest in
  Some (align_up_page_saturating highest).

Definition ns_pmm_storage_required (boot : option northstar_boot_info)
    (entries : option (list Z)) : option Z :=
  status ← ns_boot_info_validate boot;
  match boot, entries with
  | Some b, Some e =>
    if negb (status =? NS_PMM_OK) then Some 0
    else
      limit ← discover_limit b e;
      let frames := Z.shiftr limit NS_PAGE_SHIFT in
      let bytes := Z.shiftr (u64 (frames + 7)) 3 in
      if SIZE_MAX / 2 <? bytes then Some 0 else Some (u64 (bytes * 2))
  | _, _ => Some 0
  end.

(** ** Initialisation *)

Definition mark_frame_free_initial (p : ns_pmm) (frame : Z) : option ns_pmm :=
  if frame_count p <=? frame then Some p
  else
    r ← bitmap_get (reserved_bitmap p) frame;
    if negb r then Some p
    else
      reserved ← bitmap_clear (reserved_bitmap p) frame;
      allocated ← bitmap_clear (allocated_bitmap p) frame;
      Some (p <| reserved_bitmap := reserved |> <| allocated_bitmap := allocated |>
              <| usable_frames := u64 (usable_frames p + 1) |>
              <| free_frames := u64 (free_frames p + 1) |>).

Definition mark_frame_permanent (p : ns_pmm) (frame : Z) : option ns_pmm :=
  if frame_count p <=? frame then Some p
  else
    a ← bitmap_get (allocated_bitmap p) frame;
    p ← (if negb a then
           allocated ← bitmap_set (allocated_bitmap p) frame;
           let p := p <| allocated_bitmap := allocated |> in
           Some (if negb (free_frames p =? 0)
                 then p <| free_frames := free_frames p - 1 |> else p)
         else Some p);
    reserved ← bitmap_set (reserved_bitmap p) frame;
    Some (p <| reserved_bitmap := reserved |>).

Definition reserve_range_unlocked (p : ns_pmm) (base length : Z) : option ns_pmm :=
  if (length =? 0) || (managed_limit p <=? base) then Some p
  else
    let '(overflow, sum) := add_overflow_u64 base length in
    let end_ := if overflow || (managed_limit p <? sum) then managed_limit p else sum in
    let first := Z.shiftr (align_down_page base) NS_PAGE_SHIFT in
    let last := Z.shiftr (align_up_page_saturating end_) NS_PAGE_SHIFT in
    let last := if frame_count p <? last then frame_count p else last in
    for_ (Z.to_nat (last - first)) (fun frame p => mark_frame_permanent p frame) first p.

Definition reserve_boot_regions (p : ns_pmm) (boot : northstar_boot_info)
    (bitmap_phys bitmap_size : Z) : option ns_pmm :=
  p ← reserve_range_unlocked p 0 NS_PMM_LOW_MEMORY_RESERVE;
  p ← reserve_range_unlocked p (kernel_phys_base boot) (kernel_size boot);
  p ← reserve_range_unlocked p (bootloader_phys_base boot) (bootloader_size boot);
  p ← reserve_range_unlocked p (page_tables_phys_base boot) (page_tables_size boot);
  p ← reserve_range_unlocked p (pml4_phys boot) NS_PAGE_SIZE;
  p ← reserve_range_unlocked p (boot_info_phys boot) (bi_size boot);
  p ← reserve_range_unlocked p (e820_entries_phys boot)
        (u64 (e820_entry_count boot * e820_entry_size boot));
  p ← reserve_range_unlocked p bitmap_phys bitmap_size;
  p ← (if negb (Z.land (flags boot) NORTHSTAR_BOOT_F_INITRD =? 0)
       then reserve_range_unlocked p (initrd_phys_base boot) (initrd_size boot)
       else Some p);
  (if negb (Z.land (flags boot) NORTHSTAR_BOOT_F_FRAMEBUFFER =? 0)
   then reserve_range_unlocked p (framebuffer_phys_base boot) (framebuffer_size boot)
   else Some p).

(** The consistency loop: counts clear allocation bits, stopping at a frame
    that is reserved and not allocated. *)
Fixpoint check_loop (n : nat) (p : ns_pmm) (frame free : Z) : option (option Z) :=
  match n with
  | O => Some (Some free)
  | S n' =>
    allocated ← bitmap_get (allocated_bitmap p) frame;
    reserved ← bitmap_get (reserved_bitmap p) frame;
    if reserved && negb allocated then Some None
    else check_loop n' p (frame + 1) (if negb allocated then u64 (free + 1) else free)
  end.

Definition ns_pmm_check_invariants (pmm : option ns_pmm) : option (Z * option ns_pmm) :=
  match pmm with
  | None => Some (NS_PMM_ECORRUPT, pmm)
  | Some p =>
    if (frame_count p =? 0)
       || negb (bytes_per_bitmap p =? Z.shiftr (u64 (frame_count p + 7)) 3)
    then Some (NS_PMM_ECORRUPT, pmm)
    else
      p ← pmm_lock p;
      r ← check_loop (Z.to_nat (frame_count p)) p 0 0;
      match r with
      | None => Some (NS_PMM_ECORRUPT, Some (pmm_unlock p))
      | Some free =>
        Some (if free =? free_frames p then NS_PMM_OK else NS_PMM_ECORRUPT,
              Some (pmm_unlock p))
      end
  end.

(** One usable E820 entry of the first pass of [ns_pmm_init]. *)
Definition expose_entry (limit : Z) (entry : northstar_e820_entry) (p : ns_pmm)
  : option ns_pmm :=
  if negb (entry_enabled entry) || negb (type_ entry =? NORTHSTAR_E820_USABLE)
     || (length_ entry =? 0)
  then Some p
  else
    let '(overflow, sum) := add_overflow_u64 (base entry) (length_ entry) in
    let end_ := if overflow || (limit <? sum) then limit else sum in
    let start := align_up_page_saturating (base entry) in
    let end_ := align_down_page end_ in
    for_ (Z.to_nat ((end_ - start + (NS_PAGE_SIZE - 1)) / NS_PAGE_SIZE))
      (fun k p => mark_frame_free_initial p
                    (Z.shiftr (start + NS_PAGE_SIZE * k) NS_PAGE_SHIFT)) 0 p.

(** One entry of the second pass: a reserved entry wins. *)
Definition withdraw_entry (entry : northstar_e820_entry) (p : ns_pmm) : option ns_pmm :=
  if negb (entry_enabled entry) || (type_ entry =? NORTHSTAR_E820_USABLE) then Some p
  else reserve_range_unlocked p (base entry) (length_ entry).

Definition ns_pmm_init (pmm : option ns_pmm) (boot : option northstar_boot_info)
    (entries bitmap_storage : option (list Z)) (bitmap_phys bitmap_storage_size : Z)
  : option (Z * option ns_pmm) :=
  match pmm, entries, bitmap_storage with
  | Some _, Some e, Some storage =>
    if negb (Z.land bitmap_phys (NS_PAGE_SIZE - 1) =? 0) then Some (NS_PMM_EINVAL, pmm)
    else
    status ← ns_boot_info_validate boot;
    match boot with
    | None => Some (NS_PMM_EINVAL, pmm)
    | Some b =>
      if negb (status =? NS_PMM_OK) then Some (NS_PMM_EINVAL, pmm)
      else
      required ← ns_pmm_storage_required boot entries;
      if (required =? 0) || (bitmap_storage_size <? required)
      then Some (NS_PMM_ENOSPC, pmm)
      else
      limit ← discover_limit b e;
      let frames := Z.shiftr limit NS_PAGE_SHIFT in
      let bytes := Z.shiftr (u64 (frames + 7)) 3 in
      allocated ← slice storage 0 (Z.to_nat bytes);
      reserved ← slice storage bytes (Z.to_nat bytes);
      allocated ← pmm_memset allocated 0xff bytes;
      reserved ← pmm_memset reserved 0xff bytes;
      let p := {| allocated_bitmap := allocated; reserved_bitmap := reserved;
                  bytes_per_bitmap := bytes; frame_count := frames;
                  usable_frames := 0; free_frames := 0; next_hint := 0;
                  managed_limit := limit; lock := 0; initialized := 0 |} in
      p ← for_ (Z.to_nat (e820_entry_count b))
            (fun i p => entry ← entry_at b e i; expose_entry limit entry p) 0 p;
      p ← for_ (Z.to_nat (e820_entry_count b))
            (fun i p => entry ← entry_at b e i; withdraw_entry entry p) 0 p;
      p ← reserve_boot_regions p b bitmap_phys required;
      let hint := Z.shiftr NS_PMM_LOW_MEMORY_RESERVE NS_PAGE_SHIFT in
      let p := p <| next_hint := if frame_count p <=? hint then 0 else hint |>
                 <| initialized := 1 |> in
      ns_pmm_check_invariants (Some p)
    end
  | _, _, _ => Some (NS_PMM_EINVAL, pmm)
  end.

(** ** Allocation and release *)

Definition align_frame (frame alignment : Z) : Z :=
  let mask := u64 (alignment - 1) in
  if UINT64_MAX - mask <? frame then UINT64_MAX
  else Z.land (frame + mask) (not64 mask).

Fixpoint span_loop (n : nat) (bitmap : list Z) (frame : Z) : option bool :=
  match n with
  | O => Some true
  | S n' =>
    b ← bitmap_get bitmap frame;
    if (b : bool) then Some false else span_loop n' bitmap (frame + 1)
  end.

Definition span_is_free (p : ns_pmm) (first count limit : Z) : option bool :=
  if (limit <? first) || (limit - first <? count) then Some false
  else span_loop (Z.to_nat count) (allocated_bitmap p) first.

(** The distance past the first occupied frame of the candidate. *)
Fixpoint skip_loop (n : nat) (bitmap : list Z) (frame i : Z) : option Z :=
  match n with
  | O => Some 1
  | S n' =>
    b ← bitmap_get bitmap (frame + i);
    if (b : bool) then Some (i + 1) else skip_loop n' bitmap frame (i + 1)
  end.

Fixpoint find_run_loop (fuel : nat) (p : ns_pmm) (frame end_ count alignment : Z)
  : option (option Z) :=
  match fuel with
  | O => None
  | S fuel' =>
    if (frame <? end_) && (count <=? end_ - frame) then
      free ← span_is_free p frame count end_;
      if (free : bool) then Some (Some frame)
      else
        skip ← skip_loop (Z.to_nat count) (allocated_bitmap p) frame 0;
        find_run_loop fuel' p (align_frame (frame + skip) alignment) end_ count alignment
    else Some None
  end.

(** The loop advances by at least one frame, so [end_ - begin] turns suffice. *)
Definition find_run (p : ns_pmm) (begin end_ count alignment : Z) : option (option Z) :=
  find_run_loop (S (Z.to_nat (end_ - begin))) p (align_frame begin alignment)
    end_ count alignment.

Definition ns_pmm_alloc_pages (pmm : option ns_pmm)
    (count alignment_pages max_phys_exclusive : Z) (out_phys : option Z)
  : option (Z * option ns_pmm * option Z) :=
  match pmm, out_phys with
  | Some p, Some _ =>
    if (initialized p =? 0) || (count =? 0) || (alignment_pages =? 0)
       || negb (Z.land alignment_pages (alignment_pages - 1) =? 0)
    then Some (NS_PMM_EINVAL, pmm, out_phys)
    else
      let out_phys := Some NS_INVALID_PHYS in
      p ← pmm_lock p;
      if free_frames p <? count
      then Some (NS_PMM_ENOSPC, Some (pmm_unlock p), out_phys)
      else
        let requested_limit := Z.shiftr max_phys_exclusive NS_PAGE_SHIFT in
        let limit := if negb (max_phys_exclusive =? 0) && (requested_limit <? frame_count p)
                     then requested_limit else frame_count p in
        let hint := if next_hint p <? limit then next_hint p else 0 in
        found ← find_run p hint limit count alignment_pages;
        found ← (match found with
                 | None => if negb (hint =? 0)
                           then find_run p 0 hint count alignment_pages else Some None
                 | Some _ => Some found
                 end);
        match found with
        | None => Some (NS_PMM_ENOSPC, Some (pmm_unlock p), out_phys)
        | Some candidate =>
          allocated ← for_ (Z.to_nat count) (fun i bm => bitmap_set bm (candidate + i))
                        0 (allocated_bitmap p);
          let hint := candidate + count in
          let p := p <| allocated_bitmap := allocated |>
                     <| free_frames := free_frames p - count |>
                     <| next_hint := if frame_count p <=? hint then 0 else hint |> in
          Some (NS_PMM_OK, Some (pmm_unlock p),
                Some (u64 (Z.shiftl candidate NS_PAGE_SHIFT)))
        end
  | _, _ => Some (NS_PMM_EINVAL, pmm, out_phys)
  end.

Definition ns_pmm_alloc_page (pmm : option ns_pmm) (out_phys : option Z)
  : option (Z * option ns_pmm * option Z) :=
  ns_pmm_alloc_pages pmm 1 1 0 out_phys.

(** The checking pass of [ns_pmm_free_pages]: the first offending frame decides. *)
Fixpoint free_check (n : nat) (p : ns_pmm) (frame : Z) : option Z :=
  match n with
  | O => Some NS_PMM_OK
  | S n' =>
    reserved ← bitmap_get (reserved_bitmap p) frame;
    if (reserved : bool) then Some NS_PMM_EPERM
    else
      allocated ← bitmap_get (allocated_bitmap p) frame;
      if negb allocated then Some NS_PMM_EDOUBLEFREE
      else free_check n' p (frame + 1)
  end.

Definition ns_pmm_free_pages (pmm : option ns_pmm) (phys count : Z)
  : option (Z * option ns_pmm) :=
  match pmm with
  | None => Some (NS_PMM_EINVAL, pmm)
  | Some p =>
    if (initialized p =? 0) || (count =? 0)
       || negb (Z.land phys (NS_PAGE_SIZE - 1) =? 0)
    then Some (NS_PMM_EINVAL, pmm)
    else
      let first := Z.shiftr phys NS_PAGE_SHIFT in
      if (frame_count p <=? first) || (frame_count p - first <? count)
      then Some (NS_PMM_ERANGE, pmm)
      else
        p ← pmm_lock p;
        status ← free_check (Z.to_nat count) p first;
        if negb (status =? NS_PMM_OK) then Some (status, Some (pmm_unlock p))
        else
          allocated ← for_ (Z.to_nat count) (fun i bm => bitmap_clear bm (first + i))
                        0 (allocated_bitmap p);
          let p := p <| allocated_bitmap := allocated |>
                     <| free_frames := u64 (free_frames p + count) |> in
          let p := if first <? next_hint p then p <| next_hint := first |> else p in
          Some (NS_PMM_OK, Some (pmm_unlock p))
  end.

Definition ns_pmm_free_page (pmm : option ns_pmm) (phys : Z) : option (Z * option ns_pmm) :=
  ns_pmm_free_pages pmm phys 1.

Definition ns_pmm_reserve_range (pmm : option ns_pmm) (base length : Z)
  : option (Z * option ns_pmm) :=
  match pmm with
  | None => Some (NS_PMM_EINVAL, pmm)
  | Some p =>
    if (initialized p =? 0) || (length =? 0) then Some (NS_PMM_EINVAL, pmm)
    else if managed_limit p <=? base then Some (NS_PMM_ERANGE, pmm)
    else
      p ← pmm_lock p;
      p ← reserve_range_unlocked p base length;
      Some (NS_PMM_OK, Some (pmm_unlock p))
  end.

(** ** Queries *)

Definition ns_pmm_is_allocated (pmm : option ns_pmm) (phys : Z)
  : option (bool * option ns_pmm) :=
  match pmm with
  | None => Some (true, pmm)
  | Some p =>
    if (initialized p =? 0) || negb (Z.land phys (NS_PAGE_SIZE - 1) =? 0)
       || (managed_limit p <=? phys)
    then Some (true, pmm)
    else
      p ← pmm_lock p;
      allocated ← bitmap_get (allocated_bitmap p) (Z.shiftr phys NS_PAGE_SHIFT);
      Some (allocated, Some (pmm_unlock p))
  end.

Definition ns_pmm_is_permanently_reserved (pmm : option ns_pmm) (phys : Z)
  : option (bool * option ns_pmm) :=
  match pmm with
  | None => Some (true, pmm)
  | Some p =>
    if (initialized p =? 0) || negb (Z.land phys (NS_PAGE_SIZE - 1) =? 0)
       || (managed_limit p <=? phys)
    then Some (true, pmm)
    else
      p ← pmm_lock p;
      reserved ← bitmap_get (reserved_bitmap p) (Z.shiftr phys NS_PAGE_SHIFT);
      Some (reserved, Some (pmm_unlock p))
  end.

Definition ns_pmm_get_stats (pmm : option ns_pmm) (out : option ns_pmm_stats)
  : option (option ns_pmm * option ns_pmm_stats) :=
  match pmm, out with
  | Some p, Some _ =>
    p ← pmm_lock p;
    counts ← for_ (Z.to_nat (frame_count p))
      (fun frame '(reserved, allocated) =>
         r ← bitmap_get (reserved_bitmap p) frame;
         if (r : bool) then Some (u64 (reserved + 1), allocated)
         else
           a ← bitmap_get (allocated_bitmap p) frame;
           Some (reserved, if (a : bool) then u64 (allocated + 1) else allocated))
      0 (0, 0);
    let '(reserved, allocated) := counts in
    Some (Some (pmm_unlock p),
          Some (mk_stats (frame_count p) (usable_frames p) (free_frames p)
                  allocated reserved (managed_limit p)))
  | _, _ => Some (pmm, out)
  end.

(** ** Bitmap lemmas *)

(** [bm] has room for every frame below [n]. *)
Definition covers (bm : list Z) (n : Z) : Prop :=
  bytes_ok bm /\ n <= 8 * Z.of_nat (length bm).

Lemma bitmap_get_bit bm n f :
  covers bm n -> 0 <= f < n -> bitmap_get bm f = Some (bit bm f).
Proof.
  intros [Hok Hlen] Hf. unfold bitmap_get, bit.
  destruct (rd_Some bm (Z.shiftr f 3)) as [b Hb]; [apply bit_index_lt; lia|].
  rewrite Hb. cbn. pose proof (bit_index f ltac:(lia)). by rewrite bit_test by lia.
Qed.

Lemma bitmap_set_bit bm n f :
  covers bm n -> 0 <= f < n ->
  exists bm', bitmap_set bm f = Some bm' /\ covers bm' n /\
    length bm' = length bm /\
    forall g, 0 <= g -> bit bm' g = (g =? f) || bit bm g.
Proof.
  intros [Hok Hlen] Hf. unfold bitmap_set.
  pose proof (bit_index_lt f (Z.of_nat (length bm)) ltac:(lia)) as Hi.
  destruct (rd_Some bm (Z.shiftr f 3)) as [b Hb]; [done|].
  rewrite Hb. cbn. rewrite wr_Some by lia. eexists. split; [done|].
  pose proof (bit_index f ltac:(lia)) as (Hdec & Hk & _).
  rewrite length_insert. split_and!; [|done|].
  - split; [|by rewrite length_insert]. apply Forall_insert; [done|].
    apply lor_u8; [by eapply bytes_ok_rd|]. rewrite u8_bit by lia.
    rewrite <- (u8_bit (Z.land f 7)) by lia. apply u8_range.
  - intros g Hg. pose proof (bit_index g Hg) as (Hdg & Hkg & _).
    rewrite bit_insert by lia. destruct (Z.eqb_spec (Z.shiftr g 3) (Z.shiftr f 3)) as [E|E].
    + rewrite bit_set_byte by lia. unfold bit. rewrite E, Hb. cbn. f_equal.
      destruct (Z.eqb_spec (Z.land g 7) (Z.land f 7)), (Z.eqb_spec g f); lia || done.
    + rewrite (proj2 (Z.eqb_neq g f)) by (intros ->; done). done.
Qed.

Lemma bitmap_clear_bit bm n f :
  covers bm n -> 0 <= f < n ->
  exists bm', bitmap_clear bm f = Some bm' /\ covers bm' n /\
    length bm' = length bm /\
    forall g, 0 <= g -> bit bm' g = negb (g =? f) && bit bm g.
Proof.
  intros [Hok Hlen] Hf. unfold bitmap_clear.
  pose proof (bit_index_lt f (Z.of_nat (length bm)) ltac:(lia)) as Hi.
  destruct (rd_Some bm (Z.shiftr f 3)) as [b Hb]; [done|].
  rewrite Hb. cbn. rewrite wr_Some by lia. eexists. split; [done|].
  pose proof (bit_index f ltac:(lia)) as (Hdec & Hk & _).
  pose proof (bytes_ok_rd _ _ _ Hok Hb) as Hbu.
  rewrite length_insert. split_and!; [|done|].
  - split; [|by rewrite length_insert]. apply Forall_insert; [done|].
    apply land_u8; [done|]. apply u8_range.
  - intros g Hg. pose proof (bit_index g Hg) as (Hdg & Hkg & _).
    rewrite bit_insert by lia. destruct (Z.eqb_spec (Z.shiftr g 3) (Z.shiftr f 3)) as [E|E].
    + rewrite bit_clear_byte by lia || done. unfold bit. rewrite E, Hb. cbn. f_equal.
      destruct (Z.eqb_spec (Z.land g 7) (Z.land f 7)), (Z.eqb_spec g f); lia || done.
    + rewrite (proj2 (Z.eqb_neq g f)) by (intros ->; done). done.
Qed.

(** [g] is one of the [n] frames from [c] on. *)
Definition in_run (c n g : Z) : bool := (c <=? g) && (g <? c + n).

Lemma in_run_spec c n g : in_run c n g = true <-> c <= g < c + n.
Proof. unfold in_run. rewrite andb_true_iff, Z.leb_le, Z.ltb_lt. done. Qed.

Lemma in_run_false c n g : in_run c n g = false <-> ~ (c <= g < c + n).
Proof. rewrite <- in_run_spec. by destruct (in_run c n g). Qed.

Lemma in_run_succ c n g : 0 <= n -> in_run c (n + 1) g = (g =? c + n) || in_run c n g.
Proof.
  intros Hn. unfold in_run.
  destruct (Z.leb_spec c g), (Z.ltb_spec g (c + (n + 1))), (Z.ltb_spec g (c + n)),
    (Z.eqb_spec g (c + n)); cbn; lia || done.
Qed.

Lemma set_run bm n c count :
  covers bm n -> 0 <= c -> 0 <= count -> c + count <= n ->
  exists bm', for_ (Z.to_nat count) (fun i bm => bitmap_set bm (c + i)) 0 bm = Some bm' /\
    covers bm' n /\ length bm' = length bm /\
    forall g, 0 <= g -> bit bm' g = in_run c count g || bit bm g.
Proof.
  intros Hcov Hc Hcnt Hle.
  destruct (for_inv (fun i bm' => covers bm' n /\ length bm' = length bm /\
      forall g, 0 <= g -> bit bm' g = in_run c i g || bit bm g)
    (fun i bm => bitmap_set bm (c + i)) (Z.to_nat count) 0 bm) as (bm' & Hrun & HP).
  - intros j t Hj (Ht & Hl & Hb).
    destruct (bitmap_set_bit t n (c + j)) as (t' & Hs & Hc' & Hl' & Hb'); [done|lia|].
    exists t'. split_and!; [done|done|congruence|].
    intros g Hg. rewrite Hb', Hb, in_run_succ by lia. by rewrite orb_assoc.
  - split_and!; [done|done|]. intros g Hg.
    by rewrite (proj2 (in_run_false c 0 g)) by lia.
  - exists bm'. by rewrite Z.add_0_l, Z2Nat.id in HP by lia.
Qed.

Lemma clear_run bm n c count :
  covers bm n -> 0 <= c -> 0 <= count -> c + count <= n ->
  exists bm', for_ (Z.to_nat count) (fun i bm => bitmap_clear bm (c + i)) 0 bm = Some bm' /\
    covers bm' n /\ length bm' = length bm /\
    forall g, 0 <= g -> bit bm' g = negb (in_run c count g) && bit bm g.
Proof.
  intros Hcov Hc Hcnt Hle.
  destruct (for_inv (fun i bm' => covers bm' n /\ length bm' = length bm /\
      forall g, 0 <= g -> bit bm' g = negb (in_run c i g) && bit bm g)
    (fun i bm => bitmap_clear bm (c + i)) (Z.to_nat count) 0 bm) as (bm' & Hrun & HP).
  - intros j t Hj (Ht & Hl & Hb).
    destruct (bitmap_clear_bit t n (c + j)) as (t' & Hs & Hc' & Hl' & Hb'); [done|lia|].
    exists t'. split_and!; [done|done|congruence|].
    intros g Hg. rewrite Hb', Hb, in_run_succ by lia.
    by rewrite negb_orb, andb_assoc.
  - split_and!; [done|done|]. intros g Hg.
    by rewrite (proj2 (in_run_false c 0 g)) by lia.
  - exists bm'. by rewrite Z.add_0_l, Z2Nat.id in HP by lia.
Qed.

(** ** Well-formed allocators *)

(** The bookkeeping invariant, which also holds while the lock is held. *)
Record pmm_core (p : ns_pmm) : Prop := {
  wf_frames : 0 < frame_count p <= 2 ^ 52 - 1;
  wf_bytes : bytes_per_bitmap p = Z.shiftr (frame_count p + 7) 3;
  wf_allocated : covers (allocated_bitmap p) (frame_count p);
  wf_reserved : covers (reserved_bitmap p) (frame_count p);
  wf_sub : forall f, 0 <= f < frame_count p ->
    bit (reserved_bitmap p) f = true -> bit (allocated_bitmap p) f = true;
  wf_free : free_frames p = clear_count (bit (allocated_bitmap p)) (Z.to_nat (frame_count p));
  wf_hint : 0 <= next_hint p < frame_count p;
  wf_limit : managed_limit p = frame_count p * NS_PAGE_SIZE }.

(** The allocator's state between two calls: the lock is free. *)
Definition pmm_wf (p : ns_pmm) : Prop := pmm_core p /\ lock p = 0.

(** Frame [f] can be handed out. *)
Definition frame_free (p : ns_pmm) (f : Z) : Prop :=
  0 <= f < frame_count p /\ bit (allocated_bitmap p) f = false.

Definition run_free (p : ns_pmm) (c count : Z) : Prop :=
  forall g, c <= g < c + count -> bit (allocated_bitmap p) g = false.

(** ** The search for a run *)

Lemma align_frame_ceil frame alignment :
  0 <= frame <= 2 ^ 52 -> is_u64 alignment -> pow2b alignment = true ->
  align_frame frame alignment = ceil_to frame alignment.
Proof.
  intros Hf Ha Hp. destruct (pow2b_spec alignment) as (k & Hk & ->); [lia|done|].
  assert (Hk64 : k < 64) by (apply (Z.pow_lt_mono_r_iff 2); lia).
  assert (2 ^ k <= 2 ^ 63) by (apply Z.pow_le_mono_r; lia).
  assert (0 < 2 ^ k) by (apply Z.pow_pos_nonneg; lia).
  unfold align_frame. rewrite u64_small by lia. unfold UINT64_MAX.
  rewrite (proj2 (Z.ltb_ge _ _)) by lia.
  rewrite land_not64 by lia. done.
Qed.

Section search.
Context (p : ns_pmm) (Hcov : covers (allocated_bitmap p) (frame_count p)).
Context (Hfc : 0 < frame_count p <= 2 ^ 52 - 1).
Context (count alignment : Z) (Hcount : 0 < count).
Context (Hal : is_u64 alignment) (Hp2 : pow2b alignment = true).
#[local] Set Default Proof Using "All".

Lemma span_loop_spec n frame :
  0 <= frame -> frame + Z.of_nat n <= frame_count p ->
  exists b, span_loop n (allocated_bitmap p) frame = Some b /\
    (b = true <-> run_free p frame (Z.of_nat n)).
Proof.
  revert frame. induction n as [|n IH]; intros frame Hf Hle; cbn [span_loop].
  - exists true. split; [done|]. split; [|done]. intros _ g Hg. lia.
  - rewrite (bitmap_get_bit _ (frame_count p)) by (done || lia). cbn.
    destruct (bit (allocated_bitmap p) frame) eqn:E.
    + exists false. split; [done|]. split; [done|].
      intros Hr. rewrite (Hr frame) in E by lia. done.
    + destruct (IH (frame + 1)) as (b & -> & Hb); [lia|lia|].
      exists b. split; [done|]. rewrite Hb. unfold run_free. split; intros Hr g Hg.
      * destruct (Z.eq_dec g frame) as [->|]; [done|]. apply Hr. lia.
      * apply Hr. lia.
Qed.

Lemma span_is_free_spec frame end_ :
  0 <= frame -> frame + count <= end_ -> end_ <= frame_count p ->
  exists b, span_is_free p frame count end_ = Some b /\
    (b = true <-> run_free p frame count).
Proof.
  intros Hf Hle Hend. unfold span_is_free.
  rewrite (proj2 (Z.ltb_ge _ _)), (proj2 (Z.ltb_ge _ _)) by lia. cbn.
  destruct (span_loop_spec (Z.to_nat count) frame) as (b & Hb & Hiff); [lia|lia|].
  exists b. by rewrite Z2Nat.id in Hiff by lia.
Qed.

Lemma skip_loop_spec n frame i :
  0 <= frame -> 0 <= i -> frame + i + Z.of_nat n <= frame_count p ->
  run_free p frame i -> ~ run_free p frame (i + Z.of_nat n) ->
  exists skip, skip_loop n (allocated_bitmap p) frame i = Some skip /\
    i < skip <= i + Z.of_nat n /\ bit (allocated_bitmap p) (frame + (skip - 1)) = true.
Proof.
  revert i. induction n as [|n IH]; intros i Hf Hi Hle Hr Hn; cbn [skip_loop].
  - rewrite Nat2Z.inj_0, Z.add_0_r in Hn. done.
  - rewrite (bitmap_get_bit _ (frame_count p)) by (done || lia). cbn.
    destruct (bit (allocated_bitmap p) (frame + i)) eqn:E.
    + exists (i + 1). split_and!; [done|lia|lia|].
      by replace (frame + (i + 1 - 1)) with (frame + i) by lia.
    + destruct (IH (i + 1)) as (s & -> & Hs & Hb); [lia|lia|lia| | |].
      * intros g Hg. destruct (Z.eq_dec g (frame + i)) as [->|]; [done|]. apply Hr. lia.
      * by replace (i + 1 + Z.of_nat n) with (i + Z.of_nat (S n)) by lia.
      * exists s. split_and!; [done|lia|lia|done].
Qed.

(** What the search promises for candidates from [lo] on. *)
Definition found_in (lo end_ : Z) (r : option Z) : Prop :=
  match r with
  | Some c => lo <= c /\ (alignment | c) /\ c + count <= end_ /\ run_free p c count
  | None => forall c, lo <= c -> (alignment | c) -> c + count <= end_ -> ~ run_free p c count
  end.

Lemma find_run_loop_spec fuel frame end_ :
  0 <= frame <= 2 ^ 52 -> (alignment | frame) -> end_ <= frame_count p ->
  Z.max 0 (end_ - frame) < Z.of_nat fuel ->
  exists r, find_run_loop fuel p frame end_ count alignment = Some r /\
    found_in frame end_ r.
Proof.
  assert (Hpos : 0 < alignment)
    by (destruct (pow2b_spec alignment) as (k & ? & ->); [lia|done|apply Z.pow_pos_nonneg; lia]).
  revert frame. induction fuel as [|fuel IH]; intros frame Hf Hdiv Hend Hfuel; cbn [find_run_loop].
  { lia. }
  destruct (Z.ltb_spec frame end_), (Z.leb_spec count (end_ - frame)); cbn;
    try (exists None; split; [done|]; intros c ???; lia).
  destruct (span_is_free_spec frame end_) as (b & -> & Hb); [lia|lia|lia|]. cbn.
  destruct b.
  - exists (Some frame). split; [done|]. cbn. split_and!; [lia|done|lia|by apply Hb].
  - assert (Hnot : ~ run_free p frame count) by (rewrite <- Hb; done).
    destruct (skip_loop_spec (Z.to_nat count) frame 0) as (s & -> & Hs & Hocc);
      [lia|lia|lia|intros g ?; lia|by rewrite Z.add_0_l, Z2Nat.id by lia|].
    rewrite Z.add_0_l, Z2Nat.id in Hs by lia. cbn.
    rewrite align_frame_ceil by (done || lia).
    pose proof (ceil_to_ge (frame + s) alignment Hpos) as Hge.
    set (frame' := ceil_to (frame + s) alignment) in *.
    assert (Hskip : forall c, frame <= c -> (alignment | c) -> c + count <= end_ ->
      run_free p c count -> frame' <= c).
    { intros c Hc Hdc Hce Hrf. apply ceil_to_least; [done| |done].
      destruct (Z.le_gt_cases (frame + s) c); [done|].
      rewrite (Hrf (frame + (s - 1))) in Hocc by lia. done. }
    destruct (Z.le_gt_cases frame' (2 ^ 52)) as [Hle|Hgt].
    + destruct (IH frame') as (r & Hr & Hfound);
        [lia|by apply ceil_to_divide|done|lia|].
      exists r. split; [done|]. destruct r as [c|]; cbn in *.
      * destruct Hfound as (? & ? & ? & ?). split_and!; [lia|done|lia|done].
      * intros c Hc Hdc Hce Hrf. by apply (Hfound c (Hskip c Hc Hdc Hce Hrf)).
    + exists None. split.
      * destruct fuel as [|fuel]; [lia|]. cbn [find_run_loop].
        rewrite (proj2 (Z.ltb_ge frame' end_)) by lia. done.
      * intros c Hc Hdc Hce Hrf. specialize (Hskip c Hc Hdc Hce Hrf). lia.
Qed.

Lemma find_run_spec begin end_ :
  0 <= begin <= frame_count p -> end_ <= frame_count p ->
  exists r, find_run p begin end_ count alignment = Some r /\ found_in begin end_ r.
Proof.
  intros Hb Hend.
  assert (Hpos : 0 < alignment)
    by (destruct (pow2b_spec alignment) as (k & ? & ->); [lia|done|apply Z.pow_pos_nonneg; lia]).
  unfold find_run. rewrite align_frame_ceil by (done || lia).
  pose proof (ceil_to_ge begin alignment Hpos) as Hge.
  set (frame := ceil_to begin alignment) in *.
  assert (Hweak : forall r, found_in frame end_ r -> found_in begin end_ r).
  { intros [c|]; cbn.
    - intros (? & ? & ? & ?). split_and!; [lia|done|done|done].
    - intros Hn c Hc Hdc. apply Hn; [|done]. by apply ceil_to_least. }
  destruct (Z.le_gt_cases frame (2 ^ 52)) as [Hle|Hgt].
  - destruct (find_run_loop_spec (S (Z.to_nat (end_ - begin))) frame end_)
      as (r & -> & Hr); [lia|by apply ceil_to_divide|done|lia|]. eauto.
  - exists None. split.
    + cbn [find_run_loop]. rewrite (proj2 (Z.ltb_ge frame end_)) by lia. done.
    + apply Hweak. intros c ???. lia.
Qed.
End search.

(** ** Locking *)

Lemma pmm_lock_free p :
  lock p = 0 -> pmm_lock p = Some (p <| lock := 1 |>) /\ pmm_unlock (p <| lock := 1 |>) = p.
Proof.
  intros Hl. unfold pmm_lock, pmm_unlock. rewrite Hl. split; [done|].
  destruct p; cbn in *. by subst.
Qed.

(** A run of free frames is counted by [free_frames]. *)
Lemma run_free_count p c count :
  pmm_core p -> 0 <= c -> 0 <= count -> c + count <= frame_count p ->
  run_free p c count -> count <= free_frames p.
Proof.
  intros Hw Hc Hcnt Hle Hr.
  set (q := fun g => in_run c count g || bit (allocated_bitmap p) g).
  pose proof (clear_count_bounds q (Z.to_nat (frame_count p))).
  rewrite (clear_count_run (bit (allocated_bitmap p)) q c (Z.to_nat count)) in H;
    [rewrite (wf_free p Hw); lia|done|lia| |].
  - intros g Hg. split; [apply Hr; lia|]. unfold q.
    by rewrite (proj2 (in_run_spec c count g)) by lia.
  - intros g Hg Hn. unfold q. by rewrite (proj2 (in_run_false c count g)) by lia.
Qed.

(** ** Allocation *)

(** The first frame number that a request may not reach. *)
Definition alloc_limit (p : ns_pmm) (max_phys_exclusive : Z) : Z :=
  if max_phys_exclusive =? 0 then frame_count p
  else Z.min (frame_count p) (max_phys_exclusive / NS_PAGE_SIZE).

(** The search hint under that limit. *)
Definition alloc_hint (p : ns_pmm) (limit : Z) : Z :=
  if next_hint p <? limit then next_hint p else 0.

(** An aligned free run inside the frames [lo, hi). *)
Definition window_free (p : ns_pmm) (lo hi count alignment : Z) : Prop :=
  exists c, lo <= c /\ (alignment | c) /\ c + count <= hi /\ run_free p c count.

(** What a successful allocation does to the allocator. *)
Record allocated_run (p p' : ns_pmm) (c count alignment limit : Z) : Prop := {
  ar_wf : pmm_wf p';
  ar_range : 0 <= c /\ c + count <= limit;
  ar_aligned : (alignment | c);
  ar_was_free : run_free p c count;
  ar_bits : forall g, 0 <= g ->
    bit (allocated_bitmap p') g = in_run c count g || bit (allocated_bitmap p) g;
  ar_reserved : reserved_bitmap p' = reserved_bitmap p;
  ar_frames : frame_count p' = frame_count p;
  ar_init : initialized p' = initialized p;
  ar_count : free_frames p' = free_frames p - count }.

(** The state update after a run was found. *)
Definition take_run (p : ns_pmm) (c count : Z) : option ns_pmm :=
  allocated ← for_ (Z.to_nat count) (fun i bm => bitmap_set bm (c + i)) 0 (allocated_bitmap p);
  Some (p <| allocated_bitmap := allocated |>
          <| free_frames := free_frames p - count |>
          <| next_hint := if frame_count p <=? c + count then 0 else c + count |>).

Lemma take_run_spec p c count alignment limit :
  pmm_wf p -> 0 <= c -> 0 < count -> c + count <= limit -> limit <= frame_count p ->
  (alignment | c) -> run_free p c count ->
  exists p', take_run p c count = Some p' /\ allocated_run p p' c count alignment limit.
Proof.
  intros [Hw Hl] Hc Hcnt Hlim Hfc Hal Hr. unfold take_run.
  destruct (set_run (allocated_bitmap p) (frame_count p) c count) as (bm & -> & Hcov & Hlen & Hbit);
    [apply Hw|lia|lia|lia|]. cbn. eexists. split; [done|].
  constructor; cbn; try done.
  split; [|done]. destruct Hw. constructor; cbn; try done.
  - intros f Hf Hres. rewrite Hbit by lia. rewrite wf_sub0 by done. apply orb_true_r.
  - rewrite wf_free0. symmetry.
    rewrite (clear_count_run (bit (allocated_bitmap p)) _ c (Z.to_nat count)); [lia|lia|lia| |].
    + intros g Hg. split; [apply Hr; lia|]. rewrite Hbit by lia.
      by rewrite (proj2 (in_run_spec c count g)) by lia.
    + intros g Hg Hn. rewrite Hbit by lia. by rewrite (proj2 (in_run_false c count g)) by lia.
  - destruct (Z.leb_spec (frame_count p) (c + count)); lia.
Qed.

(** The request guard of [ns_pmm_alloc_pages]. *)
Definition alloc_request_ok (p : ns_pmm) (count alignment max_phys_exclusive : Z) : Prop :=
  initialized p <> 0 /\ 0 < count < 2 ^ 64 /\ is_u64 alignment /\
  pow2b alignment = true /\ is_u64 max_phys_exclusive.

Lemma alloc_guard p count alignment m :
  alloc_request_ok p count alignment m ->
  (initialized p =? 0) || (count =? 0) || (alignment =? 0)
  || negb (Z.land alignment (alignment - 1) =? 0) = false.
Proof.
  intros (Hi & Hc & Ha & Hp & _). unfold pow2b in Hp. apply andb_prop in Hp as [Hz Hl].
  apply negb_true_iff in Hz. rewrite Hz, Hl.
  rewrite (proj2 (Z.eqb_neq _ _) Hi), (proj2 (Z.eqb_neq count 0)) by lia. done.
Qed.

Lemma alloc_limit_code p m :
  is_u64 m ->
  (if negb (m =? 0) && (Z.shiftr m NS_PAGE_SHIFT <? frame_count p)
   then Z.shiftr m NS_PAGE_SHIFT else frame_count p) = alloc_limit p m.
Proof.
  intros Hm. unfold alloc_limit, NS_PAGE_SHIFT, NS_PAGE_SIZE.
  rewrite Z.shiftr_div_pow2 by lia. change (2 ^ 12) with 4096.
  destruct (m =? 0); cbn; [done|].
  destruct (Z.ltb_spec (m / 4096) (frame_count p)); lia.
Qed.

(** The two searches of an allocation, from the hint up and then below it. *)
Lemma alloc_search p hint limit count alignment :
  pmm_core p -> 0 < count -> is_u64 alignment -> pow2b alignment = true ->
  0 <= hint <= limit -> limit <= frame_count p ->
  exists r,
    (found ← find_run p hint limit count alignment;
     match found with
     | None => if negb (hint =? 0) then find_run p 0 hint count alignment else Some None
     | Some _ => Some found
     end) = Some r /\
    match r with
    | Some c => 0 <= c /\ (alignment | c) /\ c + count <= limit /\ run_free p c count
    | None => ~ window_free p hint limit count alignment /\ ~ window_free p 0 hint count alignment
    end.
Proof.
  intros Hw Hcnt Hal Hp2 Hh Hl.
  pose proof (find_run_spec p (wf_allocated p Hw) (wf_frames p Hw) count alignment Hcnt Hal Hp2) as Hfind.
  destruct (Hfind hint limit) as (r1 & -> & Hr1); [lia|lia|]. cbn [mbind option_bind].
  destruct r1 as [c|]; cbn in Hr1.
  { exists (Some c). split; [done|]. destruct Hr1 as (? & ? & ? & ?). split_and!; try done; lia. }
  assert (Hw1 : ~ window_free p hint limit count alignment)
    by (intros (c & ? & ? & ? & Hr); by eapply Hr1).
  destruct (Z.eqb_spec hint 0) as [Hz|Hz]; cbn [negb].
  { exists None. split; [done|]. split; [done|]. intros (c & ? & ? & ? & Hr). lia. }
  destruct (Hfind 0 hint) as (r2 & -> & Hr2); [lia|lia|].
  exists r2. split; [done|]. destruct r2 as [c|]; cbn in Hr2.
  - destruct Hr2 as (? & ? & ? & ?). split_and!; try done; lia.
  - split; [done|]. intros (c & ? & ? & ? & Hr). by eapply Hr2.
Qed.

Lemma alloc_window p m :
  pmm_core p -> is_u64 m ->
  0 <= alloc_hint p (alloc_limit p m) <= alloc_limit p m /\ alloc_limit p m <= frame_count p.
Proof.
  intros Hw Hm. pose proof (wf_frames p Hw). pose proof (wf_hint p Hw).
  assert (Hlim : 0 <= alloc_limit p m <= frame_count p).
  { unfold alloc_limit, NS_PAGE_SIZE. destruct (m =? 0); zdiv. }
  unfold alloc_hint. destruct (Z.ltb_spec (next_hint p) (alloc_limit p m)); lia.
Qed.

(** Every allocation request either succeeds with a run from one of the two
    windows, or fails with the allocator unchanged and both windows full. *)
Lemma alloc_pages_cases p count alignment m old :
  pmm_wf p -> alloc_request_ok p count alignment m ->
  let limit := alloc_limit p m in
  let hint := alloc_hint p limit in
  (exists p' c,
     ns_pmm_alloc_pages (Some p) count alignment m (Some old)
       = Some (NS_PMM_OK, Some p', Some (c * NS_PAGE_SIZE)) /\
     allocated_run p p' c count alignment limit) \/
  (ns_pmm_alloc_pages (Some p) count alignment m (Some old)
     = Some (NS_PMM_ENOSPC, Some p, Some NS_INVALID_PHYS) /\
   ~ window_free p hint limit count alignment /\ ~ window_free p 0 hint count alignment).
Proof.
  intros [Hw Hl] Hreq limit hint.
  destruct (alloc_window p m Hw) as [Hhint Hlim]; [apply Hreq|]. fold limit hint in Hhint, Hlim.
  unfold ns_pmm_alloc_pages. rewrite (alloc_guard _ _ _ m) by done.
  destruct (pmm_lock_free p Hl) as [-> Hun]. cbn [mbind option_bind].
  destruct Hreq as (Hi & Hcnt & Hal & Hp2 & Hm). pose proof (wf_frames p Hw) as Hfc.
  destruct (Z.ltb_spec (free_frames (p <| lock := 1 |>)) count) as [Hlt|_].
  { right. rewrite Hun. cbn in Hlt. split; [done|]. split; intros (c & ? & ? & ? & Hr);
      apply run_free_count in Hr; try lia; done. }
  change (frame_count (p <| lock := 1 |>)) with (frame_count p).
  rewrite alloc_limit_code by done. fold limit.
  change (if next_hint (p <| lock := 1 |>) <? limit then _ else _) with hint.
  destruct (alloc_search (p <| lock := 1 |>) hint limit count alignment)
    as (r & Hs & Hr); [by destruct Hw|lia|done|done|lia|cbn; lia|].
  destruct (find_run _ hint limit count alignment) as [r1|]; [|done].
  cbn [mbind option_bind] in Hs |- *. rewrite Hs. cbn [mbind option_bind].
  destruct r as [c|]; [left|right; by rewrite Hun].
  destruct Hr as (Hc0 & Hdc & Hce & Hfree).
  destruct (take_run_spec p c count alignment limit) as (p' & Htake & Har);
    [done|lia|lia|lia|lia|done|done|].
  exists p', c. split; [|done]. unfold take_run in Htake.
  change (allocated_bitmap (p <| lock := 1 |>)) with (allocated_bitmap p).
  destruct (for_ _ _ _ _) as [bm|]; [|done]. cbn in Htake |- *.
  injection Htake as <-. unfold pmm_unlock, NS_PAGE_SHIFT, NS_PAGE_SIZE. cbn.
  rewrite Z.shiftl_mul_pow2, u64_small by lia.
  destruct p; cbn in *. by subst.
Qed.

(** ** Release *)

(** The frames of a run that may be released. *)
Definition releasable (p : ns_pmm) (c count : Z) : Prop :=
  forall g, c <= g < c + count ->
    bit (reserved_bitmap p) g = false /\ bit (allocated_bitmap p) g = true.

(** [free_check] reports the first frame of the run that may not be released. *)
Definition free_verdict (p : ns_pmm) (c count status : Z) : Prop :=
  (status = NS_PMM_OK /\ releasable p c count) \/
  exists g, c <= g < c + count /\ releasable p c (g - c) /\
    ((status = NS_PMM_EPERM /\ bit (reserved_bitmap p) g = true) \/
     (status = NS_PMM_EDOUBLEFREE /\ bit (reserved_bitmap p) g = false /\
      bit (allocated_bitmap p) g = false)).

Lemma free_check_spec p n c :
  covers (allocated_bitmap p) (frame_count p) -> covers (reserved_bitmap p) (frame_count p) ->
  0 <= c -> c + Z.of_nat n <= frame_count p ->
  exists status, free_check n p c = Some status /\ free_verdict p c (Z.of_nat n) status.
Proof.
  intros Ha Hr. revert c. induction n as [|n IH]; intros c Hc Hle; cbn [free_check].
  - exists NS_PMM_OK. split; [done|]. left. split; [done|]. intros g Hg. lia.
  - rewrite !(bitmap_get_bit _ (frame_count p)) by (done || lia). cbn.
    destruct (bit (reserved_bitmap p) c) eqn:Er.
    { exists NS_PMM_EPERM. split; [done|]. right. exists c. split_and!; [lia|lia| |by left].
      intros g Hg. lia. }
    destruct (bit (allocated_bitmap p) c) eqn:Ea; cbn.
    2:{ exists NS_PMM_EDOUBLEFREE. split; [done|]. right. exists c.
        split_and!; [lia|lia| |by right]. intros g Hg. lia. }
    destruct (IH (c + 1)) as (status & -> & Hv); [lia|lia|].
    exists status. split; [done|].
    assert (Hext : forall k, releasable p (c + 1) k -> releasable p c (k + 1)).
    { intros k Hk g Hg. destruct (Z.eq_dec g c) as [->|]; [done|]. apply Hk. lia. }
    destruct Hv as [[-> Hok]|(g & Hg & Hrel & Hbad)].
    + left. split; [done|]. rewrite Nat2Z.inj_succ. by apply Hext.
    + right. exists g. split_and!; [lia|lia| |done].
      replace (g - c) with (g - (c + 1) + 1) by lia. by apply Hext.
Qed.

(** What a successful release does to the allocator. *)
Record released_run (p p' : ns_pmm) (c count : Z) : Prop := {
  rr_wf : pmm_wf p';
  rr_bits : forall g, 0 <= g ->
    bit (allocated_bitmap p') g = negb (in_run c count g) && bit (allocated_bitmap p) g;
  rr_reserved : reserved_bitmap p' = reserved_bitmap p;
  rr_frames : frame_count p' = frame_count p;
  rr_init : initialized p' = initialized p;
  rr_count : free_frames p' = free_frames p + count }.

Definition drop_run (p : ns_pmm) (c count : Z) : option ns_pmm :=
  allocated ← for_ (Z.to_nat count) (fun i bm => bitmap_clear bm (c + i)) 0 (allocated_bitmap p);
  let p := p <| allocated_bitmap := allocated |>
             <| free_frames := u64 (free_frames p + count) |> in
  Some (if c <? next_hint p then p <| next_hint := c |> else p).

Lemma drop_run_spec p c count :
  pmm_wf p -> 0 <= c -> 0 < count -> c + count <= frame_count p -> releasable p c count ->
  exists p', drop_run p c count = Some p' /\ released_run p p' c count.
Proof.
  intros [Hw Hl] Hc Hcnt Hle Hrel. unfold drop_run.
  destruct (clear_run (allocated_bitmap p) (frame_count p) c count) as (bm & -> & Hcov & Hlen & Hbit);
    [apply Hw|lia|lia|lia|]. cbn [mbind option_bind].
  assert (Hcl : clear_count (bit bm) (Z.to_nat (frame_count p)) = free_frames p + count).
  { rewrite (wf_free p Hw).
    rewrite (clear_count_run (bit bm) (bit (allocated_bitmap p)) c (Z.to_nat count)); [lia|lia|lia| |].
    - intros g Hg. rewrite Hbit, (proj2 (in_run_spec c count g)) by lia.
      split; [done|]. apply Hrel. lia.
    - intros g Hg Hn. by rewrite Hbit, (proj2 (in_run_false c count g)) by lia. }
  pose proof (clear_count_bounds (bit bm) (Z.to_nat (frame_count p))) as Hb.
  pose proof (wf_frames p Hw) as Hfc. pose proof (wf_hint p Hw) as Hh.
  rewrite u64_small by lia. eexists. split; [done|].
  assert (Hsub : forall f, 0 <= f < frame_count p ->
    bit (reserved_bitmap p) f = true -> bit bm f = true).
  { intros f Hf Hr. rewrite Hbit by lia. rewrite (wf_sub p Hw f Hf Hr), andb_true_r.
    apply negb_true_iff, in_run_false. intros Hin. destruct (Hrel f Hin) as [Hr' _]. congruence. }
  cbn. destruct Hw. destruct (Z.ltb_spec c (next_hint p));
    (constructor; cbn; try done).
  split; [constructor; cbn; try done; lia|done].
Qed.

Definition free_request_ok (p : ns_pmm) (phys count : Z) : Prop :=
  initialized p <> 0 /\ 0 < count < 2 ^ 64 /\ is_u64 phys /\ phys mod NS_PAGE_SIZE = 0.

Lemma page_mask v : Z.land v (NS_PAGE_SIZE - 1) = v mod NS_PAGE_SIZE.
Proof. apply (land_mask v 12). lia. Qed.

Lemma page_shift v : Z.shiftr v NS_PAGE_SHIFT = v / NS_PAGE_SIZE.
Proof. by rewrite Z.shiftr_div_pow2. Qed.

(** Every release request: refused out of range, refused by the first bad frame
    with the allocator unchanged, or carried out in full. *)
Lemma free_pages_cases p phys count :
  pmm_wf p -> free_request_ok p phys count ->
  let c := phys / NS_PAGE_SIZE in
  (frame_count p < c + count /\
   ns_pmm_free_pages (Some p) phys count = Some (NS_PMM_ERANGE, Some p)) \/
  (c + count <= frame_count p /\ releasable p c count /\
   exists p', ns_pmm_free_pages (Some p) phys count = Some (NS_PMM_OK, Some p') /\
              released_run p p' c count) \/
  (c + count <= frame_count p /\ exists status,
   status <> NS_PMM_OK /\ free_verdict p c count status /\
   ns_pmm_free_pages (Some p) phys count = Some (status, Some p)).
Proof.
  intros [Hw Hl] (Hi & Hcnt & Hph & Hmod) c.
  assert (Hc : 0 <= c) by (unfold c, NS_PAGE_SIZE; zdiv).
  unfold ns_pmm_free_pages. rewrite page_mask, page_shift, Hmod. fold c.
  rewrite (proj2 (Z.eqb_neq _ _) Hi), (proj2 (Z.eqb_neq count 0)) by lia. cbn [orb negb Z.eqb].
  destruct (Z.leb_spec (frame_count p) c); cbn [orb]; [left; split; [lia|done]|].
  destruct (Z.ltb_spec (frame_count p - c) count); cbn [orb]; [left; split; [lia|done]|].
  right. destruct (pmm_lock_free p Hl) as [-> Hun]. cbn [mbind option_bind].
  destruct (free_check_spec (p <| lock := 1 |>) (Z.to_nat count) c) as (status & -> & Hv);
    [apply Hw|apply Hw|lia|cbn; lia|].
  cbn [mbind option_bind]. rewrite Z2Nat.id in Hv by lia.
  destruct (Z.eqb_spec status NS_PMM_OK) as [Hs|Hs]; cbn [negb].
  - left. split; [lia|].
    assert (Hrel : releasable p c count).
    { destruct Hv as [[_ Hok]|(g & _ & _ & [[-> _]|[-> _]])]; [exact Hok|done|done]. }
    split; [done|].
    destruct (drop_run_spec p c count) as (p' & Hd & Hrr); [done|lia|lia|lia|done|].
    exists p'. split; [|done]. unfold drop_run in Hd.
    change (allocated_bitmap (p <| lock := 1 |>)) with (allocated_bitmap p).
    destruct (for_ _ _ _ _) as [bm|]; [|done]. cbn [mbind option_bind] in Hd |- *.
    injection Hd as <-. clear Hrr Hun. destruct p; cbn in *. subst.
    by destruct (c <? _).
  - right. split; [lia|]. exists status. rewrite Hun. done.
Qed.

(** ** Permanent reservation *)

(** Frame [g] shares at least one byte with the physical range. *)
Definition overlaps (g base length : Z) : bool :=
  (base <? (g + 1) * NS_PAGE_SIZE) && (g * NS_PAGE_SIZE <? base + length) && (0 <? length).

(** Frame [g] lies entirely in the physical range. *)
Definition inside (g base length : Z) : bool :=
  (base <=? g * NS_PAGE_SIZE) && ((g + 1) * NS_PAGE_SIZE <=? base + length).

(** The allocator after some frames were withdrawn for good. *)
Record withdrawn (p p' : ns_pmm) (w : Z -> bool) : Prop := {
  wd_core : pmm_core p';
  wd_frames : frame_count p' = frame_count p;
  wd_limit : managed_limit p' = managed_limit p;
  wd_lock : lock p' = lock p;
  wd_init : initialized p' = initialized p;
  wd_hint : next_hint p' = next_hint p;
  wd_reserved : forall g, 0 <= g < frame_count p ->
    bit (reserved_bitmap p') g = w g || bit (reserved_bitmap p) g;
  wd_allocated : forall g, 0 <= g < frame_count p ->
    bit (allocated_bitmap p') g = w g || bit (allocated_bitmap p) g }.

Lemma withdrawn_refl p : pmm_core p -> withdrawn p p (fun _ => false).
Proof. intros H. by constructor. Qed.

Lemma withdrawn_trans p1 p2 p3 w v :
  withdrawn p1 p2 w -> withdrawn p2 p3 v -> withdrawn p1 p3 (fun g => w g || v g).
Proof.
  intros H1 H2. destruct H1, H2. constructor; try done; try congruence.
  - intros g Hg. rewrite wd_reserved1, wd_reserved0 by lia.
    by rewrite orb_assoc, (orb_comm (v g)).
  - intros g Hg. rewrite wd_allocated1, wd_allocated0 by lia.
    by rewrite orb_assoc, (orb_comm (v g)).
Qed.

Lemma withdrawn_ext p p' w v :
  (forall g, 0 <= g < frame_count p -> w g = v g) -> withdrawn p p' w -> withdrawn p p' v.
Proof.
  intros Heq H. destruct H. constructor; try done.
  - intros g Hg. by rewrite wd_reserved0, Heq.
  - intros g Hg. by rewrite wd_allocated0, Heq.
Qed.

Lemma mark_frame_permanent_spec p f :
  pmm_core p -> 0 <= f ->
  exists p', mark_frame_permanent p f = Some p' /\ withdrawn p p' (fun g => g =? f).
Proof.
  intros Hw Hf. unfold mark_frame_permanent.
  destruct (Z.leb_spec (frame_count p) f).
  { exists p. split; [done|]. apply (withdrawn_ext p p (fun _ => false)); [|by apply withdrawn_refl].
    intros g Hg. symmetry. apply Z.eqb_neq. lia. }
  rewrite (bitmap_get_bit _ (frame_count p)) by (apply Hw || lia). cbn [mbind option_bind].
  destruct (bitmap_set_bit (reserved_bitmap p) (frame_count p) f)
    as (rb & Hrb & Hrcov & _ & Hrbit); [apply Hw|lia|].
  destruct (bit (allocated_bitmap p) f) eqn:Ea; cbn [negb mbind option_bind].
  - rewrite Hrb. cbn [mbind option_bind]. eexists. split; [done|].
    destruct Hw. constructor; cbn; try done.
    + constructor; cbn; try done. intros g Hg. rewrite Hrbit by lia.
      destruct (Z.eqb_spec g f) as [->|]; cbn; [done|]. by apply wf_sub0.
    + intros g Hg. apply Hrbit. lia.
    + intros g Hg. destruct (Z.eqb_spec g f) as [->|]; done.
  - destruct (bitmap_set_bit (allocated_bitmap p) (frame_count p) f)
      as (ab & -> & Hacov & _ & Habit); [apply Hw|lia|]. cbn [mbind option_bind].
    assert (Hcl : clear_count (bit ab) (Z.to_nat (frame_count p)) = free_frames p - 1).
    { rewrite (wf_free p Hw). apply (clear_count_update _ _ f); [lia|done| |].
      - by rewrite Habit, Z.eqb_refl by lia.
      - intros j Hj Hne. by rewrite Habit, (proj2 (Z.eqb_neq j f)) by lia. }
    pose proof (clear_count_bounds (bit ab) (Z.to_nat (frame_count p))).
    cbn. rewrite (proj2 (Z.eqb_neq (free_frames p) 0)) by lia. cbn. rewrite Hrb. cbn.
    eexists. split; [done|]. destruct Hw. constructor; cbn; try done.
    + constructor; cbn; try done. intros g Hg. rewrite Hrbit, Habit by lia.
      destruct (Z.eqb_spec g f) as [->|]; cbn; [done|]. by apply wf_sub0.
    + intros g Hg. apply Hrbit. lia.
    + intros g Hg. apply Habit. lia.
Qed.

(** A loop of withdrawals withdraws the union. *)
Lemma for_withdrawn (body : Z -> ns_pmm -> option ns_pmm) (w : Z -> Z -> bool) n i p :
  (forall j q, i <= j < i + Z.of_nat n -> pmm_core q -> frame_count q = frame_count p ->
     managed_limit q = managed_limit p ->
     exists q', body j q = Some q' /\ withdrawn q q' (w j)) ->
  pmm_core p ->
  exists p', for_ n body i p = Some p' /\
    withdrawn p p' (fun g => existsb (fun j => w j g) (seqZ i (Z.of_nat n))).
Proof.
  revert i p. induction n as [|n IH]; intros i p Hbody Hw; cbn [for_].
  - exists p. split; [done|]. by apply withdrawn_refl.
  - destruct (Hbody i p) as (q & -> & Hq); [lia|done|done|done|]. cbn.
    destruct (IH (i + 1) q) as (p' & Hp' & Hwd).
    + intros j r Hj Hr Hfr Hlr. apply Hbody; [lia|done| |].
      * by rewrite Hfr, (wd_frames _ _ _ Hq).
      * by rewrite Hlr, (wd_limit _ _ _ Hq).
    + apply Hq.
    + exists p'. split; [done|]. rewrite seqZ_cons by lia. cbn.
      replace (Z.pred (Z.of_nat (S n))) with (Z.of_nat n) by lia.
      rewrite Z.add_1_r in Hwd. by apply (withdrawn_trans _ q).
Qed.

Lemma existsb_shift (k i n g : Z) :
  existsb (fun j => g =? k + j) (seqZ i n) = in_run (k + i) n g.
Proof.
  apply eq_true_iff_eq. rewrite existsb_exists, in_run_spec. split.
  - intros (j & Hj & Heq). apply Z.eqb_eq in Heq.
    apply list_elem_of_In, elem_of_seqZ in Hj. lia.
  - intros Hg. exists (g - k). split; [|apply Z.eqb_eq; lia].
    apply list_elem_of_In, elem_of_seqZ. lia.
Qed.

Lemma existsb_seqZ (i n g : Z) : existsb (fun j => g =? j) (seqZ i n) = in_run i n g.
Proof. apply (existsb_shift 0). Qed.

Lemma align_down_page_div v : is_u64 v -> align_down_page v = v / NS_PAGE_SIZE * NS_PAGE_SIZE.
Proof. intros Hv. by apply (land_not64 v 12). Qed.

Lemma align_up_page_ceil v :
  0 <= v <= UINT64_MAX - (NS_PAGE_SIZE - 1) -> align_up_page_saturating v = ceil_to v NS_PAGE_SIZE.
Proof.
  unfold UINT64_MAX, NS_PAGE_SIZE. intros Hv. unfold align_up_page_saturating, UINT64_MAX, NS_PAGE_SIZE.
  rewrite (proj2 (Z.ltb_ge _ _)) by lia.
  replace (v + 4096 - 1) with (v + (4096 - 1)) by lia.
  by rewrite (land_not64 _ 12) by lia.
Qed.

Lemma align_up_page_bounds v :
  is_u64 v -> exists k, align_up_page_saturating v = k * NS_PAGE_SIZE /\ 0 <= k <= 2 ^ 52 - 1.
Proof.
  intros Hv. unfold align_up_page_saturating. destruct (Z.ltb_spec (UINT64_MAX - (NS_PAGE_SIZE - 1)) v).
  - exists (2 ^ 52 - 1). split; [done|lia].
  - exists ((v + NS_PAGE_SIZE - 1) / NS_PAGE_SIZE). unfold UINT64_MAX, NS_PAGE_SIZE in *.
    rewrite (land_not64 _ 12) by lia. split; [done|]. zdiv.
Qed.

Lemma reserve_range_unlocked_spec p base length :
  pmm_core p -> is_u64 base -> is_u64 length ->
  exists p', reserve_range_unlocked p base length = Some p' /\
    withdrawn p p' (fun g => overlaps g base length).
Proof.
  intros Hw Hb Hl. unfold reserve_range_unlocked.
  pose proof (wf_frames p Hw) as Hfc. pose proof (wf_limit p Hw) as Hlim.
  assert (Hnone : length = 0 \/ managed_limit p <= base ->
    withdrawn p p (fun g => overlaps g base length)).
  { intros Hc. apply (withdrawn_ext p p (fun _ => false)); [|by apply withdrawn_refl].
    intros g Hg. symmetry. unfold overlaps, NS_PAGE_SIZE in *.
    rewrite !andb_false_iff, !Z.ltb_ge. lia. }
  destruct (Z.eqb_spec length 0); cbn [orb]; [exists p; split; [done|]; auto|].
  destruct (Z.leb_spec (managed_limit p) base); [exists p; split; [done|]; auto|].
  unfold add_overflow_u64. rewrite add_wraps by lia.
  set (end_ := if (2 ^ 64 <=? base + length) || (managed_limit p <? u64 (base + length))
               then managed_limit p else u64 (base + length)).
  assert (Hend : end_ = Z.min (managed_limit p) (base + length)).
  { unfold end_. destruct (Z.leb_spec (2 ^ 64) (base + length)); cbn [orb].
    - unfold NS_PAGE_SIZE in *. lia.
    - rewrite u64_small by lia. destruct (Z.ltb_spec (managed_limit p) (base + length)); lia. }
  rewrite align_down_page_div, align_up_page_ceil, !page_shift
    by (lia || unfold UINT64_MAX, NS_PAGE_SIZE in *; lia).
  set (first := base / NS_PAGE_SIZE * NS_PAGE_SIZE / NS_PAGE_SIZE).
  set (last := ceil_to end_ NS_PAGE_SIZE / NS_PAGE_SIZE).
  assert (Hfirst : first = base / NS_PAGE_SIZE) by (unfold first; by rewrite Z.div_mul).
  assert (Hlast : last = (end_ + (NS_PAGE_SIZE - 1)) / NS_PAGE_SIZE)
    by (unfold last, ceil_to; by rewrite Z.div_mul).
  assert (Hle : last <= frame_count p) by (rewrite Hlast; unfold NS_PAGE_SIZE in *; zdiv).
  rewrite (proj2 (Z.ltb_ge (frame_count p) last)) by done.
  destruct (for_withdrawn (fun f p => mark_frame_permanent p f) (fun f g => g =? f)
    (Z.to_nat (last - first)) first p) as (p' & Hp' & Hwd).
  - intros j q Hj Hq _ _. apply mark_frame_permanent_spec; [done|].
    rewrite Hfirst in Hj. unfold NS_PAGE_SIZE in *. zdiv.
  - done.
  - exists p'. split; [done|]. eapply withdrawn_ext, Hwd. intros g Hg. cbn beta.
    rewrite existsb_seqZ. apply eq_true_iff_eq. rewrite in_run_spec. unfold overlaps.
    rewrite !andb_true_iff, !Z.ltb_lt, Hfirst. unfold NS_PAGE_SIZE in *. zdiv.
Qed.

(** ** Initialisation *)

(** The bitmaps while the usable ranges are being exposed: exactly the exposed
    frames [x] are neither reserved nor allocated. *)
Record exposing (p : ns_pmm) (x : Z -> bool) : Prop := {
  ex_core : pmm_core p;
  ex_bits : forall g, 0 <= g < frame_count p ->
    bit (reserved_bitmap p) g = negb (x g) /\ bit (allocated_bitmap p) g = negb (x g) }.

Lemma exposing_ext p x y :
  (forall g, 0 <= g < frame_count p -> x g = y g) -> exposing p x -> exposing p y.
Proof. intros Heq [Hc Hb]. split; [done|]. intros g Hg. rewrite <- Heq by done. by apply Hb. Qed.

(** The fields that initialisation no longer changes. *)
Definition same_shape (p p' : ns_pmm) : Prop :=
  frame_count p' = frame_count p /\ managed_limit p' = managed_limit p /\
  lock p' = lock p /\ next_hint p' = next_hint p.

Lemma same_shape_trans p q r : same_shape p q -> same_shape q r -> same_shape p r.
Proof. unfold same_shape. intuition congruence. Qed.

Lemma mark_frame_free_initial_spec p x f :
  exposing p x -> 0 <= f ->
  exists p', mark_frame_free_initial p f = Some p' /\ same_shape p p' /\
    exposing p' (fun g => x g || (g =? f)).
Proof.
  intros [Hw Hx] Hf. unfold mark_frame_free_initial.
  assert (Hkeep : forall g, 0 <= g < frame_count p -> x f = true \/ frame_count p <= f ->
    x g = x g || (g =? f)).
  { intros g Hg Hc. destruct (Z.eqb_spec g f) as [->|]; [|by rewrite orb_false_r].
    destruct Hc as [->|]; [done|lia]. }
  destruct (Z.leb_spec (frame_count p) f).
  { exists p. split_and!; [done..|]. by eapply (exposing_ext p x); [auto|]. }
  destruct (Hx f) as [Hrf Haf]; [lia|].
  rewrite (bitmap_get_bit _ (frame_count p)) by (apply Hw || lia). rewrite Hrf. cbn [mbind option_bind].
  destruct (x f) eqn:Exf; cbn [negb].
  { exists p. split_and!; [done..|]. by eapply (exposing_ext p x); [auto|]. }
  destruct (bitmap_clear_bit (reserved_bitmap p) (frame_count p) f)
    as (rb & -> & Hrcov & _ & Hrbit); [apply Hw|lia|]. cbn [mbind option_bind].
  destruct (bitmap_clear_bit (allocated_bitmap p) (frame_count p) f)
    as (ab & -> & Hacov & _ & Habit); [apply Hw|lia|]. cbn [mbind option_bind].
  assert (Hcl : clear_count (bit ab) (Z.to_nat (frame_count p)) = free_frames p + 1).
  { rewrite (wf_free p Hw).
    rewrite (clear_count_update (bit ab) (bit (allocated_bitmap p)) f); [lia|lia| |done|].
    - by rewrite Habit, Z.eqb_refl by lia.
    - intros j Hj Hne. by rewrite Habit, (proj2 (Z.eqb_neq j f)) by lia. }
  pose proof (clear_count_bounds (bit ab) (Z.to_nat (frame_count p))).
  pose proof (wf_frames p Hw). eexists. split; [done|]. split; [done|].
  assert (Hbits : forall g, 0 <= g < frame_count p ->
    bit rb g = negb (x g || (g =? f)) /\ bit ab g = negb (x g || (g =? f))).
  { intros g Hg. rewrite Hrbit, Habit by lia. destruct (Hx g Hg) as [-> ->].
    by rewrite negb_orb, andb_comm. }
  split; [|done]. destruct Hw. constructor; cbn; try done.
  - intros g Hg. destruct (Hbits g Hg) as [-> ->]. done.
  - by rewrite u64_small by lia.
Qed.

(** Frames that an entry of the memory map makes usable, and those it withdraws. *)
Definition exposes (entry : northstar_e820_entry) (g : Z) : bool :=
  entry_enabled entry && (type_ entry =? NORTHSTAR_E820_USABLE)
  && inside g (base entry) (length_ entry) && (0 <? length_ entry).

Definition withdraws (entry : northstar_e820_entry) (g : Z) : bool :=
  entry_enabled entry && negb (type_ entry =? NORTHSTAR_E820_USABLE)
  && overlaps g (base entry) (length_ entry).

Lemma for_exposing (body : Z -> ns_pmm -> option ns_pmm) (w : Z -> Z -> bool) n i p x :
  (forall j q y, i <= j < i + Z.of_nat n -> exposing q y -> same_shape p q ->
     exists q', body j q = Some q' /\ same_shape q q' /\ exposing q' (fun g => y g || w j g)) ->
  exposing p x ->
  exists p', for_ n body i p = Some p' /\ same_shape p p' /\
    exposing p' (fun g => x g || existsb (fun j => w j g) (seqZ i (Z.of_nat n))).
Proof.
  revert i p x. induction n as [|n IH]; intros i p x Hbody Hx; cbn [for_].
  - exists p. split_and!; [done..|]. eapply exposing_ext, Hx. intros g _. by rewrite orb_false_r.
  - destruct (Hbody i p x) as (q & -> & Hs & Hq); [lia|done|done|]. cbn.
    destruct (IH (i + 1) q (fun g => x g || w i g)) as (p' & Hp' & Hs' & Hx').
    + intros j r y Hj Hr Hsr. apply Hbody; [lia|done|]. by eapply same_shape_trans.
    + done.
    + exists p'. split_and!; [done|by eapply same_shape_trans|].
      rewrite seqZ_cons by lia.
      replace (Z.pred (Z.of_nat (S n))) with (Z.of_nat n) by lia.
      eapply exposing_ext, Hx'. intros g _. rewrite Z.add_1_r. cbn. by rewrite orb_assoc.
Qed.

Definition entry_ok (e : northstar_e820_entry) : Prop := is_u64 (base e) /\ is_u64 (length_ e).

(** The end of an entry, cut off at the managed limit. *)
Lemma entry_end limit b l : 0 <= b < 2 ^ 64 -> 0 <= l < 2 ^ 64 -> limit < 2 ^ 64 ->
  (if (2 ^ 64 <=? b + l) || (limit <? u64 (b + l)) then limit else u64 (b + l)) = Z.min limit (b + l).
Proof.
  intros Hb Hl Hlim. destruct (Z.leb_spec (2 ^ 64) (b + l)); cbn [orb]; [lia|]. rewrite u64_small by lia.
  destruct (Z.ltb_spec limit (b + l)); lia.
Qed.

(** The frames from the aligned start of an entry to its end are those inside it. *)
Lemma entry_frames limit b l k g : is_u64 b -> 0 <= l -> align_up_page_saturating b = k * NS_PAGE_SIZE -> 0 <= k < 2 ^ 52 ->
  0 <= g < limit -> limit <= 2 ^ 52 - 1 ->
  in_run k (Z.max 0 (Z.min (limit * NS_PAGE_SIZE) (b + l) / NS_PAGE_SIZE - k)) g = inside g b l.
Proof.
  intros Hb Hl Hk Hkr Hg Hlim. apply eq_true_iff_eq. rewrite in_run_spec. unfold inside. rewrite andb_true_iff, !Z.leb_le.
  destruct (Z.le_gt_cases b (UINT64_MAX - (NS_PAGE_SIZE - 1))).
  - rewrite align_up_page_ceil in Hk by lia. unfold ceil_to, UINT64_MAX, NS_PAGE_SIZE in *. zdiv.
  - assert (k = 2 ^ 52 - 1).
    { unfold align_up_page_saturating in Hk. rewrite (proj2 (Z.ltb_lt _ _)) in Hk by lia.
      apply (Z.mul_reg_r _ _ NS_PAGE_SIZE); [done|]. by rewrite <- Hk. }
    unfold UINT64_MAX, NS_PAGE_SIZE in *. zdiv.
Qed.

Lemma expose_entry_spec p x entry :
  exposing p x -> entry_ok entry ->
  exists p', expose_entry (managed_limit p) entry p = Some p' /\ same_shape p p' /\
    exposing p' (fun g => x g || exposes entry g).
Proof.
  intros Hx [Hb Hl]. unfold expose_entry.
  assert (Hskip : (forall g, 0 <= g < frame_count p -> exposes entry g = false) ->
    exposing p (fun g => x g || exposes entry g)).
  { intros Hn. eapply exposing_ext, Hx. intros g Hg. by rewrite (Hn g Hg), orb_false_r. }
  destruct (entry_enabled entry) eqn:Een; cbn [negb orb].
  2:{ exists p. split_and!; [done..|]. apply Hskip. intros. unfold exposes. by rewrite Een. }
  destruct (Z.eqb_spec (type_ entry) NORTHSTAR_E820_USABLE) as [Ht|Ht]; cbn [negb orb].
  2:{ exists p. split_and!; [done..|]. apply Hskip. intros. unfold exposes.
      by rewrite (proj2 (Z.eqb_neq _ _) Ht), andb_false_r. }
  destruct (Z.eqb_spec (length_ entry) 0) as [Hz|Hz]; cbn [orb].
  { exists p. split_and!; [done..|]. apply Hskip. intros. unfold exposes.
    by rewrite Hz, andb_false_r. }
  pose proof (wf_frames p (ex_core p x Hx)) as Hfc.
  pose proof (wf_limit p (ex_core p x Hx)) as Hlim.
  unfold add_overflow_u64. rewrite add_wraps by lia.
  rewrite entry_end by (unfold NS_PAGE_SIZE in *; lia). set (end_ := Z.min (managed_limit p) (base entry + length_ entry)).
  assert (He64 : is_u64 end_) by (unfold end_, NS_PAGE_SIZE in *; lia).
  rewrite (align_down_page_div end_) by done.
  destruct (align_up_page_bounds (base entry) Hb) as (k & Hk & Hkr). rewrite Hk.
  set (n := Z.to_nat _).
  destruct (for_exposing (fun i p => mark_frame_free_initial p
      (Z.shiftr (k * NS_PAGE_SIZE + NS_PAGE_SIZE * i) NS_PAGE_SHIFT))
    (fun i g => g =? k + i) n 0 p x) as (p' & Hp' & Hs & Hx').
  - intros j q y Hj Hq Hsq. rewrite page_shift.
    replace (k * NS_PAGE_SIZE + NS_PAGE_SIZE * j) with ((k + j) * NS_PAGE_SIZE) by lia.
    rewrite Z.div_mul by done. apply mark_frame_free_initial_spec; [done|lia].
  - done.
  - exists p'. split_and!; [done|done|]. eapply exposing_ext, Hx'. intros g Hg. cbn beta. f_equal.
    destruct Hs as [Hfr _]. rewrite Hfr in Hg.
    assert (Hn : Z.of_nat n = Z.max 0 (end_ / NS_PAGE_SIZE - k)).
    { unfold n, NS_PAGE_SIZE. zdiv. }
    transitivity (in_run k (Z.of_nat n) g).
    + rewrite existsb_shift. unfold in_run. by rewrite Z.add_0_r.
    + unfold exposes. rewrite Een, (proj2 (Z.eqb_eq _ _) Ht), (proj2 (Z.ltb_lt 0 (length_ entry))) by lia. cbn [andb]. rewrite andb_true_r.
      rewrite Hn. unfold end_. rewrite Hlim. apply entry_frames; try done; lia.
Qed.

(** The self-check accepts exactly the states whose bitmaps and counter agree. *)
Lemma check_loop_spec p n i free :
  covers (allocated_bitmap p) (frame_count p) -> covers (reserved_bitmap p) (frame_count p) ->
  0 <= i -> i + Z.of_nat n = frame_count p -> frame_count p <= 2 ^ 52 ->
  free = clear_count (bit (allocated_bitmap p)) (Z.to_nat i) ->
  exists r, check_loop n p i free = Some r /\
    match r with
    | Some c => c = clear_count (bit (allocated_bitmap p)) (Z.to_nat (frame_count p)) /\
        (forall g, i <= g < frame_count p ->
           bit (reserved_bitmap p) g = true -> bit (allocated_bitmap p) g = true)
    | None => exists g, i <= g < frame_count p /\
        bit (reserved_bitmap p) g = true /\ bit (allocated_bitmap p) g = false
    end.
Proof.
  intros Ha Hr. revert i free. induction n as [|n IH]; intros i free Hi Hn Hfc Hfree; cbn [check_loop].
  - exists (Some free). split; [done|]. replace (frame_count p) with i by lia.
    split; [done|]. intros g Hg. lia.
  - rewrite !(bitmap_get_bit _ (frame_count p)) by (done || lia). cbn [mbind option_bind].
    destruct (bit (reserved_bitmap p) i && negb (bit (allocated_bitmap p) i)) eqn:Ebad.
    { exists None. split; [done|]. exists i. apply andb_prop in Ebad as [? ?%negb_true_iff].
      split; [lia|done]. }
    destruct (IH (i + 1) (if negb (bit (allocated_bitmap p) i) then u64 (free + 1) else free))
      as (r & -> & Hres); [lia|lia|done| |].
    + replace (Z.to_nat (i + 1)) with (S (Z.to_nat i)) by lia. cbn [clear_count].
      rewrite Z2Nat.id by lia. pose proof (clear_count_bounds (bit (allocated_bitmap p)) (Z.to_nat i)).
      destruct (bit (allocated_bitmap p) i); cbn [negb]; [lia|]. rewrite u64_small by lia. lia.
    + exists r. split; [done|]. destruct r as [c|].
      * destruct Hres as [-> Hsub]. split; [done|]. intros g Hg Hrg.
        destruct (Z.eq_dec g i) as [->|]; [|apply Hsub; lia || done].
        rewrite Hrg in Ebad. by destruct (bit (allocated_bitmap p) i).
      * destruct Hres as (g & Hg & ?). exists g. split; [lia|done].
Qed.

Lemma check_invariants_ok p :
  pmm_wf p -> ns_pmm_check_invariants (Some p) = Some (NS_PMM_OK, Some p).
Proof.
  intros [Hw Hl]. unfold ns_pmm_check_invariants.
  pose proof (wf_frames p Hw) as Hfc.
  rewrite (proj2 (Z.eqb_neq (frame_count p) 0)), u64_small, (wf_bytes p Hw), Z.eqb_refl by lia.
  cbn [orb negb]. destruct (pmm_lock_free p Hl) as [-> Hun]. cbn [mbind option_bind].
  destruct (check_loop_spec (p <| lock := 1 |>) (Z.to_nat (frame_count p)) 0 0)
    as (r & Hc & Hr); [apply Hw|apply Hw|lia|cbn; lia|cbn; lia|done|].
  change (frame_count (p <| lock := 1 |>)) with (frame_count p) in *. rewrite Hc.
  cbn [mbind option_bind]. rewrite Hun. destruct r as [c|].
  - destruct Hr as [-> _]. change (free_frames (p <| lock := 1 |>)) with (free_frames p).
    by rewrite (wf_free p Hw), Z.eqb_refl.
  - destruct Hr as (g & Hg & Hres & Hal). cbn in *. rewrite (wf_sub p Hw g) in Hal by done. done.
Qed.

(** *** The memory map *)

Definition table_ok (b : northstar_boot_info) (e : list Z) : Prop :=
  bytes_ok e /\ 20 <= e820_entry_size b /\ 0 < e820_entry_count b /\
  (e820_entry_count b - 1) * e820_entry_size b + 24 <= Z.of_nat (length e).

Lemma entry_at_ok b e i :
  table_ok b e -> 0 <= i < e820_entry_count b ->
  exists entry, entry_at b e i = Some entry /\ entry_ok entry.
Proof.
  intros (Hok & Hs & Hc & Hlen) Hi. unfold entry_at.
  assert (0 <= i * e820_entry_size b /\ i * e820_entry_size b + 24 <= Z.of_nat (length e)) by nia.
  destruct (le_load_range e (i * e820_entry_size b) 8) as (v1 & -> & H1); [done|lia|lia|].
  destruct (le_load_range e (i * e820_entry_size b + 8) 8) as (v2 & -> & H2); [done|lia|lia|].
  destruct (le_load_range e (i * e820_entry_size b + 16) 4) as (v3 & -> & H3); [done|lia|lia|].
  destruct (le_load_range e (i * e820_entry_size b + 20) 4) as (v4 & -> & H4); [done|lia|lia|].
  cbn. eexists. split; [done|]. split; cbn; lia.
Qed.

(** Entry [i] of the table. *)
Definition entry_of (b : northstar_boot_info) (e : list Z) (i : Z) : northstar_e820_entry :=
  default (mk_e820 0 0 0 0) (entry_at b e i).

Lemma discover_limit_spec b e :
  table_ok b e -> is_u64 (direct_map_size b) ->
  exists k, discover_limit b e = Some (k * NS_PAGE_SIZE) /\ 0 <= k <= 2 ^ 52 - 1.
Proof.
  intros Ht Hd. unfold discover_limit.
  match goal with |- context [for_ ?n ?body 0 0] =>
    destruct (for_inv (fun _ h => is_u64 h) body n 0 0) as (h & -> & Hh) end.
  - intros j t Hj Htr. rewrite Z2Nat.id in Hj by (destruct Ht as (_ & _ & ? & _); lia).
    destruct (entry_at_ok b e j) as (entry & -> & Hb & Hl); [done|lia|]. cbn.
    destruct (_ || _); [by exists t|].
    eexists. split; [done|].
    pose proof (u64_range (base entry + length_ entry)). unfold UINT64_MAX.
    repeat case_match; lia.
  - lia.
  - cbn. match goal with |- context [align_up_page_saturating ?v] =>
      destruct (align_up_page_bounds v) as (k & -> & Hk) end; [by case_match|eauto].
Qed.

Lemma pmm_memset_spec m v :
  pmm_memset m v (Z.of_nat (length m)) = Some (replicate (length m) v).
Proof.
  unfold pmm_memset. rewrite Nat2Z.id.
  destruct (for_inv (fun i t => length t = length m /\
      forall j, (Z.of_nat j < i) -> (j < length m)%nat -> t !! j = Some v)
    (fun i bytes => wr bytes i v) (length m) 0 m) as (t & -> & Hlen & Ht).
  - intros j t Hj (Hl & Hv). rewrite wr_Some by lia. eexists. split; [done|].
    rewrite length_insert. split; [done|]. intros k Hk Hkl.
    destruct (Nat.eq_dec k (Z.to_nat j)) as [->|].
    + apply list_lookup_insert_eq. lia.
    + rewrite list_lookup_insert_ne by lia. apply Hv; lia.
  - split; [done|]. intros j Hj. lia.
  - f_equal. apply list_eq. intros j. destruct (decide (j < length m)%nat).
    + rewrite Ht, lookup_replicate_2 by lia. done.
    + rewrite !lookup_ge_None_2; [done|rewrite length_replicate; lia|lia].
Qed.

Lemma covers_ones n frames :
  frames <= 8 * Z.of_nat n -> covers (replicate n 0xff) frames.
Proof. intros H. split; [apply Forall_replicate; lia|by rewrite length_replicate]. Qed.

Lemma bit_ones n g : 0 <= g < 8 * Z.of_nat n -> bit (replicate n 0xff) g = true.
Proof.
  intros Hg. pose proof (bit_index g ltac:(lia)) as (Hdec & Hk & Hj). unfold bit, rd.
  rewrite (proj2 (Z.leb_le 0 _)), lookup_replicate_2 by lia. cbn [default].
  assert (Hcase : Z.land g 7 = 0 \/ Z.land g 7 = 1 \/ Z.land g 7 = 2 \/ Z.land g 7 = 3 \/
    Z.land g 7 = 4 \/ Z.land g 7 = 5 \/ Z.land g 7 = 6 \/ Z.land g 7 = 7) by lia.
  by destruct Hcase as [->|[->|[->|[->|[->|[->|[->| ->]]]]]]].
Qed.

(** The boot-critical ranges, as frames. *)
Definition boot_region (b : northstar_boot_info) (bitmap_phys bitmap_size g : Z) : bool :=
  overlaps g 0 NS_PMM_LOW_MEMORY_RESERVE
  || overlaps g (kernel_phys_base b) (kernel_size b)
  || overlaps g (bootloader_phys_base b) (bootloader_size b)
  || overlaps g (page_tables_phys_base b) (page_tables_size b)
  || overlaps g (pml4_phys b) NS_PAGE_SIZE
  || overlaps g (boot_info_phys b) (bi_size b)
  || overlaps g (e820_entries_phys b) (u64 (e820_entry_count b * e820_entry_size b))
  || overlaps g bitmap_phys bitmap_size
  || (negb (Z.land (flags b) NORTHSTAR_BOOT_F_INITRD =? 0)
      && overlaps g (initrd_phys_base b) (initrd_size b))
  || (negb (Z.land (flags b) NORTHSTAR_BOOT_F_FRAMEBUFFER =? 0)
      && overlaps g (framebuffer_phys_base b) (framebuffer_size b)).

(** The address and size fields hold values of their C types. *)
Record boot_typed (b : northstar_boot_info) : Prop := {
  bt_kernel : is_u64 (kernel_phys_base b) /\ is_u64 (kernel_size b);
  bt_bootloader : is_u64 (bootloader_phys_base b) /\ is_u64 (bootloader_size b);
  bt_tables : is_u64 (page_tables_phys_base b) /\ is_u64 (page_tables_size b);
  bt_pml4 : is_u64 (pml4_phys b);
  bt_info : is_u64 (boot_info_phys b) /\ is_u64 (bi_size b);
  bt_e820 : is_u64 (e820_entries_phys b);
  bt_initrd : is_u64 (initrd_phys_base b) /\ is_u64 (initrd_size b);
  bt_framebuffer : is_u64 (framebuffer_phys_base b) /\ is_u64 (framebuffer_size b);
  bt_direct : is_u64 (direct_map_size b) }.

Lemma withdrawn_core p p' w : withdrawn p p' w -> pmm_core p'.
Proof. by intros []. Qed.
#[local] Hint Resolve withdrawn_core : ns.

(** A conditional withdrawal. *)
Lemma cond_withdrawn (c : bool) p base length :
  pmm_core p -> is_u64 base -> is_u64 length ->
  exists p', (if c then reserve_range_unlocked p base length else Some p) = Some p' /\
    withdrawn p p' (fun g => c && overlaps g base length).
Proof.
  intros Hw Hb Hl. destruct c; [by apply reserve_range_unlocked_spec|].
  exists p. split; [done|]. by apply withdrawn_refl.
Qed.

Lemma reserve_boot_regions_spec p b bitmap_phys bitmap_size :
  pmm_core p -> boot_typed b -> is_u64 bitmap_phys -> is_u64 bitmap_size ->
  exists p', reserve_boot_regions p b bitmap_phys bitmap_size = Some p' /\
    withdrawn p p' (boot_region b bitmap_phys bitmap_size).
Proof.
  intros Hw [] Hbp Hbs. unfold reserve_boot_regions.
  pose proof (u64_range (e820_entry_count b * e820_entry_size b)) as He.
  unfold NS_PMM_LOW_MEMORY_RESERVE, NS_PAGE_SIZE.
  destruct (reserve_range_unlocked_spec p 0 0x100000) as (p1 & -> & H1); [done|lia|lia|].
  cbn [mbind option_bind].
  do 7 (match goal with H : withdrawn p ?q _ |- context [reserve_range_unlocked ?q ?x ?y] =>
    let p' := fresh "q" in let H' := fresh "H" in
    destruct (reserve_range_unlocked_spec q x y) as (p' & -> & H');
      [eauto with ns|lia|lia|]; cbn [mbind option_bind];
    pose proof (withdrawn_trans _ _ _ _ _ H H'); clear H H' end).
  do 2 (match goal with H : withdrawn p ?q _ |-
      context [if ?c then reserve_range_unlocked ?q ?x ?y else Some ?q] =>
    let p' := fresh "q" in let H' := fresh "H" in
    destruct (cond_withdrawn c q x y) as (p' & -> & H');
      [eauto with ns|lia|lia|]; cbn [mbind option_bind];
    pose proof (withdrawn_trans _ _ _ _ _ H H'); clear H H' end).
  eexists. split; [done|]. eapply withdrawn_ext; [|eassumption]. done.
Qed.

(** The state right after the two bitmaps were filled with ones. *)
Lemma fresh_exposing frames limit n rest :
  0 < frames <= 2 ^ 52 - 1 -> n = Z.to_nat (Z.shiftr (frames + 7) 3) -> limit = frames * NS_PAGE_SIZE ->
  rest = {| allocated_bitmap := replicate n 0xff; reserved_bitmap := replicate n 0xff;
            bytes_per_bitmap := Z.shiftr (frames + 7) 3; frame_count := frames;
            usable_frames := 0; free_frames := 0; next_hint := 0;
            managed_limit := limit; lock := 0; initialized := 0 |} ->
  exposing rest (fun _ => false).
Proof.
  intros Hf -> -> ->. rewrite Z.shiftr_div_pow2 by lia. change (2 ^ 3) with 8.
  assert (Hcov : frames <= 8 * Z.of_nat (Z.to_nat ((frames + 7) / 8))) by zdiv.
  split; cbn.
  - constructor; cbn; try done.
    + by rewrite Z.shiftr_div_pow2.
    + by apply covers_ones.
    + by apply covers_ones.
    + symmetry. apply clear_count_all. intros i Hi. apply bit_ones. lia.
    + lia.
  - intros g Hg. by rewrite !bit_ones by lia.
Qed.

Lemma existsb_table (f : northstar_e820_entry -> Z -> bool) b e g :
  existsb (fun j => f (entry_of b e j) g) (seqZ 0 (e820_entry_count b)) = true <->
  exists i, 0 <= i < e820_entry_count b /\ f (entry_of b e i) g = true.
Proof.
  rewrite existsb_exists. split; intros (i & Hi & Hf); exists i; (split; [|done]).
  - by apply list_elem_of_In, elem_of_seqZ in Hi.
  - by apply list_elem_of_In, elem_of_seqZ.
Qed.

(** The three passes of [ns_pmm_init] over freshly filled bitmaps. *)
Definition populate (b : northstar_boot_info) (e : list Z) (limit bitmap_phys required : Z)
    (p : ns_pmm) : option ns_pmm :=
  p ← for_ (Z.to_nat (e820_entry_count b))
        (fun i p => entry ← entry_at b e i; expose_entry limit entry p) 0 p;
  p ← for_ (Z.to_nat (e820_entry_count b))
        (fun i p => entry ← entry_at b e i; withdraw_entry entry p) 0 p;
  reserve_boot_regions p b bitmap_phys required.

(** The frames that initialisation leaves to the allocator. *)
Definition initially_free (b : northstar_boot_info) (e : list Z) (bitmap_phys required g : Z) : Prop :=
  (exists i, 0 <= i < e820_entry_count b /\ exposes (entry_of b e i) g = true) /\
  ~ (exists i, 0 <= i < e820_entry_count b /\ withdraws (entry_of b e i) g = true) /\
  boot_region b bitmap_phys required g = false.

Lemma populate_spec b e bitmap_phys required p :
  exposing p (fun _ => false) -> boot_typed b -> table_ok b e ->
  is_u64 bitmap_phys -> is_u64 required ->
  exists p', populate b e (managed_limit p) bitmap_phys required p = Some p' /\
    pmm_core p' /\ same_shape p p' /\
    forall g, 0 <= g < frame_count p ->
      bit (reserved_bitmap p') g = bit (allocated_bitmap p') g /\
      (bit (allocated_bitmap p') g = false <-> initially_free b e bitmap_phys required g).
Proof.
  intros Hx Hb Ht Hbp Hreq. unfold populate.
  assert (Hcnt : 0 < e820_entry_count b) by apply Ht.
  destruct (for_exposing (fun i p0 => entry ← entry_at b e i; expose_entry (managed_limit p) entry p0)
    (fun i => exposes (entry_of b e i)) (Z.to_nat (e820_entry_count b)) 0 p (fun _ => false))
    as (p1 & -> & Hs1 & Hx1).
  { intros j q y Hj Hq Hsq. destruct (entry_at_ok b e j) as (entry & Hen & Hok); [done|lia|].
    unfold entry_of. rewrite Hen. cbn. destruct Hsq as (_ & <- & _). by apply expose_entry_spec. }
  { done. }
  cbn [mbind option_bind].
  destruct (for_withdrawn (fun i p0 => entry ← entry_at b e i; withdraw_entry entry p0)
    (fun i => withdraws (entry_of b e i)) (Z.to_nat (e820_entry_count b)) 0 p1)
    as (p2 & -> & Hwd2).
  { intros j q Hj Hq _ _. destruct (entry_at_ok b e j) as (entry & Hen & Hok); [done|lia|].
    unfold entry_of, withdraws, withdraw_entry. rewrite Hen. cbn.
    destruct (entry_enabled entry); cbn; [|exists q; split; [done|by apply withdrawn_refl]].
    destruct (type_ entry =? _); cbn; [exists q; split; [done|by apply withdrawn_refl]|].
    apply reserve_range_unlocked_spec; [done|apply Hok|apply Hok]. }
  { apply Hx1. }
  cbn [mbind option_bind].
  destruct (reserve_boot_regions_spec p2 b bitmap_phys required) as (p3 & -> & Hwd3);
    [apply Hwd2|done|done|done|].
  pose proof (withdrawn_trans _ _ _ _ _ Hwd2 Hwd3) as Hwd. clear Hwd2 Hwd3.
  exists p3. split_and!; [done|apply Hwd| |].
  { destruct Hwd, Hs1 as (? & ? & ? & ?). unfold same_shape. split_and!; congruence. }
  intros g Hg. destruct Hs1 as (Hfr & _). rewrite <- Hfr in Hg.
  rewrite (wd_reserved _ _ _ Hwd), (wd_allocated _ _ _ Hwd) by done.
  destruct (ex_bits _ _ Hx1 g Hg) as [-> ->]. split; [done|].
  rewrite Z2Nat.id by lia. cbn [orb]. unfold initially_free.
  rewrite !orb_false_iff, negb_false_iff, <- !existsb_table, not_true_iff_false.
  tauto.
Qed.

Lemma bytes_of_frames k :
  0 <= k <= 2 ^ 52 - 1 ->
  Z.shiftr (u64 (k + 7)) 3 = Z.shiftr (k + 7) 3 /\ 0 <= Z.shiftr (k + 7) 3 < 2 ^ 50.
Proof.
  intros Hk. rewrite u64_small by lia. split; [done|].
  rewrite Z.shiftr_div_pow2 by lia. zdiv.
Qed.

Lemma storage_required_spec b e req :
  table_ok b e -> is_u64 (direct_map_size b) ->
  ns_boot_info_validate (Some b) = Some NS_PMM_OK ->
  ns_pmm_storage_required (Some b) (Some e) = Some req ->
  exists k, discover_limit b e = Some (k * NS_PAGE_SIZE) /\ 0 <= k <= 2 ^ 52 - 1 /\
    req = 2 * Z.shiftr (k + 7) 3.
Proof.
  intros Ht Hd Hv Hreq. unfold ns_pmm_storage_required in Hreq. rewrite Hv in Hreq.
  destruct (discover_limit_spec b e Ht Hd) as (k & Hk & Hr). exists k. split_and!; [done|lia|lia|].
  cbn [mbind option_bind negb Z.eqb] in Hreq. rewrite Hk in Hreq. cbn [mbind option_bind] in Hreq.
  change (negb (NS_PMM_OK =? NS_PMM_OK)) with false in Hreq. cbn iota in Hreq.
  rewrite page_shift, Z.div_mul in Hreq by done.
  destruct (bytes_of_frames k Hr) as [Heq Hb]. rewrite Heq in Hreq.
  unfold SIZE_MAX, UINT64_MAX in Hreq.
  rewrite (proj2 (Z.ltb_ge _ _)) in Hreq by zdiv.
  rewrite u64_small in Hreq by lia. injection Hreq. lia.
Qed.

(** C22 Initialisation.  For a boot block that passes validation, a readable
    memory map and enough bitmap storage, [ns_pmm_init] succeeds; the allocator
    is well formed, and a frame is free exactly when it lies entirely in an
    enabled usable E820 range, shares no byte with an enabled range of another
    type, and shares no byte with the low megabyte, the kernel, the boot loader,
    the page tables, the boot data, the bitmaps, the initial ramdisk or the
    framebuffer. *)
Theorem pmm_init_correct p0 b e storage bitmap_phys storage_size req :
  boot_typed b -> table_ok b e -> is_u64 bitmap_phys -> bitmap_phys mod NS_PAGE_SIZE = 0 ->
  ns_boot_info_validate (Some b) = Some NS_PMM_OK ->
  ns_pmm_storage_required (Some b) (Some e) = Some req -> req <> 0 ->
  req <= storage_size <= Z.of_nat (length storage) ->
  exists p, ns_pmm_init (Some p0) (Some b) (Some e) (Some storage) bitmap_phys storage_size
              = Some (NS_PMM_OK, Some p) /\
    pmm_wf p /\ initialized p = 1 /\
    forall g, 0 <= g < frame_count p ->
      bit (reserved_bitmap p) g = bit (allocated_bitmap p) g /\
      (frame_free p g <-> initially_free b e bitmap_phys req g).
Proof.
  intros Hb Ht Hbp Hmod Hv Hreq Hnz Hst.
  destruct (storage_required_spec b e req) as (k & Hk & Hkr & Hrv); [done|apply Hb|done|done|].
  destruct (bytes_of_frames k Hkr) as [Hbytes Hbr].
  set (n := Z.shiftr (k + 7) 3) in *.
  unfold ns_pmm_init. rewrite page_mask, Hmod, Hv. cbn [mbind option_bind negb Z.eqb].
  change (negb (NS_PMM_OK =? NS_PMM_OK)) with false. cbn iota.
  rewrite Hreq. cbn [mbind option_bind].
  rewrite (proj2 (Z.eqb_neq req 0) Hnz), (proj2 (Z.ltb_ge storage_size req)) by lia. cbn [orb].
  rewrite Hk. cbn [mbind option_bind].
  rewrite (page_shift (k * NS_PAGE_SIZE)), Z.div_mul, Hbytes by done.
  destruct (slice_Some storage 0 (Z.to_nat n)) as (s1 & -> & Hs1); [lia|lia|].
  destruct (slice_Some storage n (Z.to_nat n)) as (s2 & -> & Hs2); [lia|lia|].
  cbn [mbind option_bind].
  assert (Hm : forall s, length s = Z.to_nat n ->
    pmm_memset s 0xff n = Some (replicate (Z.to_nat n) 0xff)).
  { intros s Hs. pose proof (pmm_memset_spec s 0xff) as Hm.
    by rewrite Hs, Z2Nat.id in Hm by lia. }
  rewrite !Hm by done. cbn [mbind option_bind]. set (p1 := mk_pmm _ _ _ _ _ _ _ _ _ _).
  assert (Hx : exposing p1 (fun _ => false)).
  { eapply (fresh_exposing k _ _ p1); [|reflexivity|reflexivity|reflexivity].
    assert (k <> 0) by (intros ->; done). lia. }
  destruct (populate_spec b e bitmap_phys req p1) as (p2 & Hp2 & Hc2 & (Hf2 & Hl2 & Hlk2 & _) & Hbits);
    [done|done|done|done|lia|].
  unfold populate in Hp2. change (managed_limit p1) with (k * NS_PAGE_SIZE) in Hp2.
  destruct (for_ _ _ 0 p1) as [q1|]; [|done]. cbn [mbind option_bind] in Hp2 |- *.
  destruct (for_ _ _ 0 q1) as [q2|]; [|done]. cbn [mbind option_bind] in Hp2 |- *.
  rewrite Hp2. cbn [mbind option_bind].
  set (p3 := p2 <| next_hint := _ |> <| initialized := 1 |>).
  assert (Hw3 : pmm_wf p3).
  { split; [|exact Hlk2]. pose proof (wf_frames p2 Hc2). destruct Hc2. constructor; try done.
    cbn -[Z.shiftr]. destruct (Z.leb_spec (frame_count p2) (Z.shiftr NS_PMM_LOW_MEMORY_RESERVE NS_PAGE_SHIFT)); [lia|].
    split; [|lia]. by apply Z.shiftr_nonneg. }
  exists p3. rewrite check_invariants_ok by done. split_and!; [done|done|done|].
  intros g Hg. change (frame_count p3) with (frame_count p2) in Hg. rewrite Hf2 in Hg.
  destruct (Hbits g Hg) as [Heq Hiff]. split; [exact Heq|].
  unfold frame_free. change (frame_count p3) with (frame_count p2). rewrite Hf2.
  change (allocated_bitmap p3) with (allocated_bitmap p2). tauto.
Qed.

(** C23 Allocation.  A well-formed request either succeeds with an aligned run of
    frames below the requested limit that were all free, marks exactly those
    frames, lowers the free count and keeps the allocator well formed with its
    lock released; or fails with [NS_PMM_ENOSPC], leaves the allocator unchanged,
    and then no aligned free run lies between the search hint and the limit, nor
    between frame 0 and the hint. *)
Theorem pmm_alloc_pages_correct p count alignment m old :
  pmm_wf p -> alloc_request_ok p count alignment m ->
  let limit := alloc_limit p m in
  let hint := alloc_hint p limit in
  (exists p' c,
     ns_pmm_alloc_pages (Some p) count alignment m (Some old)
       = Some (NS_PMM_OK, Some p', Some (c * NS_PAGE_SIZE)) /\
     allocated_run p p' c count alignment limit) \/
  (ns_pmm_alloc_pages (Some p) count alignment m (Some old)
     = Some (NS_PMM_ENOSPC, Some p, Some NS_INVALID_PHYS) /\
   ~ window_free p hint limit count alignment /\ ~ window_free p 0 hint count alignment).
Proof. apply alloc_pages_cases. Qed.

(** Completeness of single-frame allocation: [ns_pmm_alloc_page] succeeds
    exactly when some frame is free, whatever the search hint is. *)
Theorem pmm_alloc_page_complete p old :
  pmm_wf p -> initialized p <> 0 ->
  (exists p' c, ns_pmm_alloc_page (Some p) (Some old)
                  = Some (NS_PMM_OK, Some p', Some (c * NS_PAGE_SIZE)) /\ frame_free p c)
  <-> 0 < free_frames p.
Proof.
  intros Hw Hi.
  assert (Hreq : alloc_request_ok p 1 1 0) by (unfold alloc_request_ok; split_and!; done).
  pose proof (wf_hint p (proj1 Hw)) as Hh.
  split.
  - intros (p' & c & _ & Hc & Hfree). destruct Hw as [Hw _]. rewrite (wf_free p Hw).
    apply (clear_count_pos _ _ c); [lia|done].
  - intros Hpos. unfold ns_pmm_alloc_page.
    destruct (alloc_pages_cases p 1 1 0 old Hw Hreq) as [(p' & c & Hal & Har)|(_ & Hn1 & Hn2)].
    + exists p', c. split; [done|]. destruct Har as [_ [Hc Hle] _ Hfree _ _ _ _ _].
      change (alloc_limit p 0) with (frame_count p) in Hle.
      split; [lia|]. apply Hfree. lia.
    + exfalso. destruct Hw as [Hw _]. rewrite (wf_free p Hw) in Hpos.
      apply clear_count_exists in Hpos as (i & Hir & Hif).
      change (alloc_limit p 0) with (frame_count p) in *.
      destruct (Z.lt_ge_cases i (alloc_hint p (frame_count p))).
      * apply Hn2. exists i. split_and!; [lia|apply Z.divide_1_l|lia|].
        intros g Hg. replace g with i by lia. done.
      * apply Hn1. exists i. split_and!; [lia|apply Z.divide_1_l|lia|].
        intros g Hg. replace g with i by lia. done.
Qed.

(** C24 Release.  A request outside the managed frames is refused; a request
    whose run contains a frame that is permanently reserved or not allocated is
    refused by the first such frame with [NS_PMM_EPERM] or [NS_PMM_EDOUBLEFREE]
    and the allocator is unchanged; otherwise exactly the run becomes free. *)
Theorem pmm_free_pages_correct p phys count :
  pmm_wf p -> free_request_ok p phys count ->
  let c := phys / NS_PAGE_SIZE in
  (frame_count p < c + count /\
   ns_pmm_free_pages (Some p) phys count = Some (NS_PMM_ERANGE, Some p)) \/
  (c + count <= frame_count p /\ releasable p c count /\
   exists p', ns_pmm_free_pages (Some p) phys count = Some (NS_PMM_OK, Some p') /\
              released_run p p' c count) \/
  (c + count <= frame_count p /\ exists status,
   status <> NS_PMM_OK /\ free_verdict p c count status /\
   ns_pmm_free_pages (Some p) phys count = Some (status, Some p)).
Proof. apply free_pages_cases. Qed.

(** Allocating a run and releasing it again succeeds and restores every
    allocation bit and the free count. *)
Theorem pmm_alloc_free_roundtrip p count alignment m old p' phys :
  pmm_wf p -> alloc_request_ok p count alignment m ->
  ns_pmm_alloc_pages (Some p) count alignment m (Some old)
    = Some (NS_PMM_OK, Some p', Some phys) ->
  exists p'', ns_pmm_free_pages (Some p') phys count = Some (NS_PMM_OK, Some p'') /\
    pmm_wf p'' /\ free_frames p'' = free_frames p /\
    forall g, 0 <= g -> bit (allocated_bitmap p'') g = bit (allocated_bitmap p) g.
Proof.
  intros Hw Hreq Hal.
  destruct (alloc_pages_cases p count alignment m old Hw Hreq)
    as [(p1 & c & Hal' & Har)|(Hal' & _)]; rewrite Hal in Hal'; [|done].
  injection Hal' as <- ->. destruct Hreq as (Hi & Hcnt & Hal64 & Hp2 & Hm).
  assert (Hc : 0 <= c /\ c + count <= frame_count p).
  { destruct (ar_range _ _ _ _ _ _ Har) as [? Hle]. split; [done|].
    unfold alloc_limit, NS_PAGE_SIZE in Hle. destruct (m =? 0); lia. }
  pose proof (wf_frames p (proj1 Hw)) as Hfc.
  assert (Hdiv : c * NS_PAGE_SIZE / NS_PAGE_SIZE = c) by (by rewrite Z.div_mul).
  assert (Hfreq : free_request_ok p' (c * NS_PAGE_SIZE) count).
  { unfold free_request_ok. rewrite (ar_init _ _ _ _ _ _ Har).
    split_and!; try done; try lia; unfold NS_PAGE_SIZE; try lia. by rewrite Z.mod_mul. }
  assert (Hrel : releasable p' c count).
  { intros g Hg. rewrite (ar_reserved _ _ _ _ _ _ Har), (ar_bits _ _ _ _ _ _ Har) by lia.
    rewrite (proj2 (in_run_spec c count g)) by done. split; [|done].
    destruct (bit (reserved_bitmap p) g) eqn:E; [|done].
    apply (wf_sub p (proj1 Hw)) in E; [|lia].
    rewrite (ar_was_free _ _ _ _ _ _ Har g Hg) in E. done. }
  destruct (free_pages_cases p' (c * NS_PAGE_SIZE) count (ar_wf _ _ _ _ _ _ Har) Hfreq)
    as [[Hbad _]|[(_ & _ & p'' & Hf & Hrr)|(_ & st & Hst & Hv & _)]].
  - rewrite Hdiv, (ar_frames _ _ _ _ _ _ Har) in Hbad. lia.
  - rewrite Hdiv in Hrr. exists p''. split_and!; [done|apply Hrr| |].
    + rewrite (rr_count _ _ _ _ Hrr), (ar_count _ _ _ _ _ _ Har). lia.
    + intros g Hg. rewrite (rr_bits _ _ _ _ Hrr), (ar_bits _ _ _ _ _ _ Har) by done.
      destruct (in_run c count g) eqn:E; cbn; [|done].
      apply in_run_spec in E. by rewrite (ar_was_free _ _ _ _ _ _ Har g E).
  - rewrite Hdiv in Hv. exfalso.
    destruct Hv as [[? _]|(g & Hg & _ & [[_ Hr]|(_ & _ & Ha)])]; [done| |];
      destruct (Hrel g Hg) as [Hr' Ha']; congruence.
Qed.

(** ** Sequences of calls *)

(** One call on an initialised allocator, with arguments of their C types. *)
Inductive pmm_step (p : ns_pmm) : ns_pmm -> Prop :=
| step_alloc count alignment m old status out p' :
    is_u64 count -> is_u64 alignment -> is_u64 m ->
    ns_pmm_alloc_pages (Some p) count alignment m (Some old) = Some (status, Some p', out) ->
    pmm_step p p'
| step_free phys count status p' :
    is_u64 phys -> is_u64 count ->
    ns_pmm_free_pages (Some p) phys count = Some (status, Some p') -> pmm_step p p'
| step_reserve base length status p' :
    is_u64 base -> is_u64 length ->
    ns_pmm_reserve_range (Some p) base length = Some (status, Some p') -> pmm_step p p'.

(** What every call guarantees about permanently reserved frames. *)
Definition keeps_reserved (p q : ns_pmm) : Prop :=
  pmm_wf q /\ initialized q = initialized p /\ frame_count q = frame_count p /\
  forall g, 0 <= g < frame_count p ->
    bit (reserved_bitmap p) g = true -> bit (reserved_bitmap q) g = true.

Lemma keeps_reserved_refl p : pmm_wf p -> keeps_reserved p p.
Proof. intros Hw. by split_and!. Qed.

Lemma alloc_keeps p count alignment m old status out p' :
  pmm_wf p -> initialized p <> 0 -> is_u64 count -> is_u64 alignment -> is_u64 m ->
  ns_pmm_alloc_pages (Some p) count alignment m (Some old) = Some (status, Some p', out) ->
  keeps_reserved p p'.
Proof.
  intros Hw Hi Hc Ha Hm Hrun.
  destruct ((initialized p =? 0) || (count =? 0) || (alignment =? 0)
    || negb (Z.land alignment (alignment - 1) =? 0)) eqn:Eg.
  { unfold ns_pmm_alloc_pages in Hrun. rewrite Eg in Hrun. injection Hrun as _ <- _.
    by apply keeps_reserved_refl. }
  apply orb_false_iff in Eg as [[[_ Hcz]%orb_false_iff Haz]%orb_false_iff Hp2].
  apply Z.eqb_neq in Hcz.
  assert (Hreq : alloc_request_ok p count alignment m).
  { unfold alloc_request_ok, pow2b. rewrite Haz. apply negb_false_iff in Hp2. rewrite Hp2.
    split_and!; done || lia. }
  destruct (alloc_pages_cases p count alignment m old Hw Hreq)
    as [(q & c & Hq & Har)|(Hq & _)]; rewrite Hrun in Hq; injection Hq as -> -> ->.
  - destruct Har. split_and!; try done. intros g Hg. by rewrite ar_reserved0.
  - by apply keeps_reserved_refl.
Qed.

Lemma free_keeps p phys count status p' :
  pmm_wf p -> initialized p <> 0 -> is_u64 phys -> is_u64 count ->
  ns_pmm_free_pages (Some p) phys count = Some (status, Some p') -> keeps_reserved p p'.
Proof.
  intros Hw Hi Hp Hc Hrun.
  destruct ((initialized p =? 0) || (count =? 0)
    || negb (Z.land phys (NS_PAGE_SIZE - 1) =? 0)) eqn:Eg.
  { unfold ns_pmm_free_pages in Hrun. rewrite Eg in Hrun. injection Hrun as _ <-.
    by apply keeps_reserved_refl. }
  apply orb_false_iff in Eg as [[_ Hcz]%orb_false_iff Hal].
  apply Z.eqb_neq in Hcz. rewrite page_mask in Hal. apply negb_false_iff, Z.eqb_eq in Hal.
  assert (Hreq : free_request_ok p phys count).
  { unfold free_request_ok. split_and!; done || lia. }
  destruct (free_pages_cases p phys count Hw Hreq)
    as [[_ Hq]|[(_ & _ & q & Hq & Hrr)|(_ & st & _ & _ & Hq)]]; rewrite Hrun in Hq;
    injection Hq as -> ->; [by apply keeps_reserved_refl| |by apply keeps_reserved_refl].
  destruct Hrr. split_and!; try done. intros g Hg. by rewrite rr_reserved0.
Qed.

Lemma reserve_keeps p base length status p' :
  pmm_wf p -> initialized p <> 0 -> is_u64 base -> is_u64 length ->
  ns_pmm_reserve_range (Some p) base length = Some (status, Some p') -> keeps_reserved p p'.
Proof.
  intros [Hw Hl] Hi Hb Hlen Hrun. unfold ns_pmm_reserve_range in Hrun.
  destruct ((initialized p =? 0) || (length =? 0)).
  { injection Hrun as _ <-. by apply keeps_reserved_refl. }
  destruct (managed_limit p <=? base).
  { injection Hrun as _ <-. by apply keeps_reserved_refl. }
  destruct (pmm_lock_free p Hl) as [Hlk _]. rewrite Hlk in Hrun. cbn [mbind option_bind] in Hrun.
  destruct (reserve_range_unlocked_spec (p <| lock := 1 |>) base length) as (q & Hq & Hwd);
    [by destruct Hw|done|done|].
  rewrite Hq in Hrun. cbn [mbind option_bind] in Hrun. injection Hrun as _ <-.
  destruct Hwd. split_and!; try done.
  - split; [|done]. by destruct wd_core0.
  - intros g Hg Hr. unfold pmm_unlock. cbn. rewrite wd_reserved0 by done. cbn. rewrite Hr.
    apply orb_true_r.
Qed.

(** Permanent reservation.  Over any sequence of allocations, releases and
    reservations with any arguments, the allocator stays well formed, a
    permanently reserved frame stays reserved and allocated, and so no later
    allocation hands it out. *)
Theorem pmm_reserved_forever p q g :
  pmm_wf p -> initialized p <> 0 -> rtc pmm_step p q ->
  0 <= g < frame_count p -> bit (reserved_bitmap p) g = true ->
  pmm_wf q /\ bit (reserved_bitmap q) g = true /\
  forall count alignment m old q' phys,
    alloc_request_ok q count alignment m ->
    ns_pmm_alloc_pages (Some q) count alignment m (Some old)
      = Some (NS_PMM_OK, Some q', Some phys) ->
    ~ (phys / NS_PAGE_SIZE <= g < phys / NS_PAGE_SIZE + count).
Proof.
  intros Hw Hi Hsteps Hg Hr.
  assert (Hkeep : keeps_reserved p q).
  { clear Hg Hr. induction Hsteps as [p|p r q Hs Hsteps IH]; [by apply keeps_reserved_refl|].
    assert (Hk : keeps_reserved p r).
    { destruct Hs as [count al m old|phys count|base len].
      - by eapply (alloc_keeps _ count al m old).
      - by eapply (free_keeps _ phys count).
      - by eapply (reserve_keeps _ base len). }
    destruct Hk as (Hwr & Hir & Hfr & Hbr).
    destruct IH as (Hwq & Hiq & Hfq & Hbq); [done|congruence|].
    split_and!; [done|congruence|congruence|]. intros h Hh Hh'.
    apply Hbq; [by rewrite Hfr|]. by apply Hbr. }
  destruct Hkeep as (Hwq & Hiq & Hfq & Hbq). split_and!; [done|by apply Hbq|].
  intros count alignment m old q' phys Hreq Hal Hin.
  destruct (alloc_pages_cases q count alignment m old Hwq Hreq)
    as [(q1 & c & Hal' & Har)|(Hal' & _)]; rewrite Hal in Hal'; [|done].
  injection Hal' as _ ->. rewrite Z.div_mul in Hin by done.
  pose proof (ar_was_free _ _ _ _ _ _ Har g Hin) as Hfree.
  rewrite (wf_sub q (proj1 Hwq) g) in Hfree; [done|lia|by apply Hbq].
Qed.

(** ** Concrete allocators *)

(** A boolean form of [pmm_wf], for closed states. *)
Definition pmm_wfb (p : ns_pmm) : bool :=
  let bytesb := forallb (fun b => (0 <=? b) && (b <? 2 ^ 8)) in
  (0 <? frame_count p) && (frame_count p <=? 2 ^ 52 - 1)
  && (bytes_per_bitmap p =? Z.shiftr (frame_count p + 7) 3)
  && bytesb (allocated_bitmap p) && (frame_count p <=? 8 * Z.of_nat (length (allocated_bitmap p)))
  && bytesb (reserved_bitmap p) && (frame_count p <=? 8 * Z.of_nat (length (reserved_bitmap p)))
  && forallb (fun f => implb (bit (reserved_bitmap p) f) (bit (allocated_bitmap p) f))
       (seqZ 0 (frame_count p))
  && (free_frames p =? clear_count (bit (allocated_bitmap p)) (Z.to_nat (frame_count p)))
  && (0 <=? next_hint p) && (next_hint p <? frame_count p)
  && (managed_limit p =? frame_count p * NS_PAGE_SIZE) && (lock p =? 0).

Lemma bytesb_ok bm :
  forallb (fun b => (0 <=? b) && (b <? 2 ^ 8)) bm = true -> bytes_ok bm.
Proof.
  intros H. apply List.Forall_forall. intros x Hx.
  rewrite forallb_forall in H. apply H in Hx. lia.
Qed.

Lemma pmm_wfb_ok p : pmm_wfb p = true -> pmm_wf p.
Proof.
  unfold pmm_wfb. rewrite !andb_true_iff. intros H. destruct_and! H.
  split; [|lia]. constructor; try lia.
  - split; [by apply bytesb_ok|lia].
  - split; [by apply bytesb_ok|lia].
  - intros f Hf Hr. rewrite forallb_forall in H6.
    specialize (H6 f ltac:(apply list_elem_of_In, elem_of_seqZ; lia)). by rewrite Hr in H6.
Qed.

(** Sixteen frames: two permanently reserved, two more in use. *)
Definition pmm16 : ns_pmm :=
  mk_pmm [0x0f; 0x00] [0x03; 0x00] 2 16 14 12 4 0x10000 0 1.

Lemma pmm16_wf : pmm_wf pmm16.
Proof. apply pmm_wfb_ok. vm_compute. reflexivity. Defined.

Lemma pmm_alloc_pages_correct_witness :
  exists p' c, ns_pmm_alloc_pages (Some pmm16) 2 4 0 (Some 7)
                 = Some (NS_PMM_OK, Some p', Some (c * NS_PAGE_SIZE)) /\
    allocated_run pmm16 p' c 2 4 16.
Proof.
  assert (Hreq : alloc_request_ok pmm16 2 4 0).
  { unfold alloc_request_ok. split_and!; try done; vm_compute; congruence. }
  destruct (pmm_alloc_pages_correct pmm16 2 4 0 7 pmm16_wf Hreq) as [H|[H _]]; [exact H|].
  vm_compute in H. discriminate H.
Defined.

Lemma pmm_alloc_page_complete_witness :
  exists p' c, ns_pmm_alloc_page (Some pmm16) (Some 7)
                 = Some (NS_PMM_OK, Some p', Some (c * NS_PAGE_SIZE)) /\ frame_free pmm16 c.
Proof. apply (pmm_alloc_page_complete pmm16 7 pmm16_wf); [done|reflexivity]. Defined.

Lemma pmm_free_pages_correct_witness :
  exists p', ns_pmm_free_pages (Some pmm16) 0x2000 2 = Some (NS_PMM_OK, Some p') /\
    released_run pmm16 p' 2 2.
Proof.
  assert (Hreq : free_request_ok pmm16 0x2000 2).
  { unfold free_request_ok. split_and!; try done; vm_compute; congruence. }
  destruct (pmm_free_pages_correct pmm16 0x2000 2 pmm16_wf Hreq)
    as [[H _]|[(_ & _ & H)|(_ & st & Hst & _ & H)]].
  - vm_compute in H. discriminate H.
  - exact H.
  - vm_compute in H. injection H as <-. done.
Defined.

Lemma pmm_alloc_free_roundtrip_witness :
  exists p' p'', ns_pmm_alloc_pages (Some pmm16) 2 4 0 (Some 7)
      = Some (NS_PMM_OK, Some p', Some 0x4000) /\
    ns_pmm_free_pages (Some p') 0x4000 2 = Some (NS_PMM_OK, Some p'') /\
    free_frames p'' = free_frames pmm16.
Proof.
  assert (Hreq : alloc_request_ok pmm16 2 4 0).
  { unfold alloc_request_ok. split_and!; try done; vm_compute; congruence. }
  eexists. eassert (Hal : ns_pmm_alloc_pages (Some pmm16) 2 4 0 (Some 7) = Some (NS_PMM_OK, Some _, Some 0x4000))
    by (vm_compute; reflexivity).
  destruct (pmm_alloc_free_roundtrip pmm16 2 4 0 7 _ 0x4000 pmm16_wf Hreq Hal)
    as (p'' & Hf & _ & Hcnt & _).
  exists p''. split_and!; [exact Hal|exact Hf|exact Hcnt].
Defined.

Lemma pmm_reserved_forever_witness :
  exists q, rtc pmm_step pmm16 q /\ pmm_wf q /\ bit (reserved_bitmap q) 1 = true.
Proof.
  eexists. eassert (Hs : rtc pmm_step pmm16 _).
  { eapply rtc_once, (step_alloc _ 1 1 0 7); [done..|]. vm_compute. reflexivity. }
  destruct (pmm_reserved_forever pmm16 _ 1 pmm16_wf ltac:(done) Hs ltac:(done) ltac:(done))
    as (Hw & Hr & _).
  split_and!; [exact Hs|exact Hw|exact Hr].
Defined.

(** A two-megabyte machine with the memory map of a PC. *)
Definition boot_2m : northstar_boot_info :=
  {| magic := NORTHSTAR_BOOT_MAGIC; version := 1; bi_size := 192; checksum := 0;
     flags := 5; boot_drive := 0x80; reserved0 := replicate 7 0;
     e820_entries_phys := 0x8000; e820_entry_count := 4; e820_entry_size := 24;
     kernel_phys_base := 0x100000; kernel_virt_base := 0xffffffff80000000;
     kernel_size := 0x10000; pml4_phys := 0x110000; initrd_phys_base := 0x140000;
     initrd_size := 0x8000; direct_map_base := 0xffff800000000000;
     bootloader_phys_base := 0x7c00; bootloader_size := 0x8000;
     page_tables_phys_base := 0x110000; page_tables_size := 0x10000;
     boot_info_phys := 0x7000; framebuffer_phys_base := 0; framebuffer_size := 0;
     rsdp_phys := 0; direct_map_size := 0x200000; filesystem_lba := 0;
     filesystem_sectors := 0 |}.

Definition e820_bytes_of (e : northstar_e820_entry) : list Z :=
  le_encode 8 (base e) ++ le_encode 8 (length_ e) ++ le_encode 4 (type_ e) ++
  le_encode 4 (attributes e).

Definition table_2m : list Z :=
  e820_bytes_of (mk_e820 0 0xa0000 1 1) ++ e820_bytes_of (mk_e820 0xa0000 0x60000 2 1) ++
  e820_bytes_of (mk_e820 0x100000 0x100000 1 1) ++ e820_bytes_of (mk_e820 0x180000 0x10000 2 1).

Lemma boot_2m_typed : boot_typed boot_2m.
Proof. constructor; vm_compute; repeat split; congruence. Defined.

Lemma table_2m_ok : table_ok boot_2m table_2m.
Proof.
  split; [apply bytesb_ok; vm_compute; reflexivity|].
  split_and!; vm_compute; congruence.
Defined.

Lemma pmm_init_correct_witness :
  exists p, ns_pmm_init (Some pmm16) (Some boot_2m) (Some table_2m)
              (Some (replicate 256 0)) 0x130000 256 = Some (NS_PMM_OK, Some p) /\
    pmm_wf p /\ frame_free p 300 /\ ~ frame_free p 256.
Proof.
  destruct (pmm_init_correct pmm16 boot_2m table_2m (replicate 256 0) 0x130000 256 128)
    as (p & Hi & Hw & _ & Hfree).
  - apply boot_2m_typed.
  - apply table_2m_ok.
  - done.
  - done.
  - vm_compute. reflexivity.
  - vm_compute. reflexivity.
  - done.
  - done.
  - exists p. split_and!; [exact Hi|exact Hw| |].
    + vm_compute in Hi. injection Hi as <-. done.
    + vm_compute in Hi. injection Hi as <-. intros [_ H]. vm_compute in H. discriminate H.
Defined.

(** *** A free run across the search hint *)

(** A static object before its initialisation. *)
Definition zero_pmm : ns_pmm := mk_pmm [] [] 0 0 0 0 0 0 0 0.

(** C25 Incomplete search.  On a two-megabyte machine, [ns_pmm_init] succeeds, and
    ordinary calls lead from there to a state in which frames 0x120 and 0x121 are
    free and adjacent, [free_frames] is 2, and a request for two contiguous frames
    is refused: the first search starts at the hint (frame 0x121) and the second
    one ends there, so the run that crosses the hint is in neither window. *)
Theorem pmm_run_across_hint_refused :
  exists p0 p, ns_pmm_init (Some zero_pmm) (Some boot_2m) (Some table_2m) (Some (replicate 256 0)) 0x130000 256
      = Some (NS_PMM_OK, Some p0) /\
    rtc pmm_step p0 p /\ free_frames p = 2 /\ run_free p 0x120 2 /\
    ns_pmm_alloc_pages (Some p) 2 1 0 (Some 0) = Some (NS_PMM_ENOSPC, Some p, Some NS_INVALID_PHYS).
Proof.
  eexists _, _. split_and!.
  - vm_compute. reflexivity.
  - eapply rtc_l; [eapply (step_alloc _ 112 1 0 0); [done..|vm_compute; reflexivity]|].
    eapply rtc_l; [eapply (step_alloc _ 16 1 0 0); [done..|vm_compute; reflexivity]|].
    eapply rtc_l; [eapply (step_alloc _ 15 1 0 0); [done..|vm_compute; reflexivity]|].
    eapply rtc_l; [eapply (step_alloc _ 54 1 0 0); [done..|vm_compute; reflexivity]|].
    eapply rtc_l; [eapply (step_free _ 0x120000 1); [done..|vm_compute; reflexivity]|].
    eapply rtc_l; [eapply (step_alloc _ 2 1 0 0); [done..|vm_compute; reflexivity]|].
    eapply rtc_l; [eapply (step_free _ 0x121000 1); [done..|vm_compute; reflexivity]|].
    apply rtc_refl.
  - reflexivity.
  - intros g Hg. assert (g = 0x120 \/ g = 0x121) as [-> | ->] by lia; vm_compute; reflexivity.
  - vm_compute. reflexivity.
Qed.
