(* ===== verification/Links.v ===== *)
(** * Linked lists in memory

    The shapes the kernel threads its objects through, as predicates on link
    functions: [sll] is a null-terminated singly-linked list and [ring] a
    circular doubly-linked list.  The lemmas say how the shapes change when
    one link is rewritten, which is all the list code of the sources does. *)

From S2P Require Import Prelude.

(** A link function with the link of [p] set to [v]. *)
Definition upd (f : Z -> Z) (p v : Z) (q : Z) : Z := if decide (q = p) then v else f q.

Lemma upd_eq f p v : upd f p v p = v.
Proof. unfold upd. by rewrite decide_True. Qed.
Lemma upd_ne f p v q : q <> p -> upd f p v q = f q.
Proof. intros. unfold upd. by rewrite decide_False. Qed.

(** ** Removing an element *)

Definition without (t : Z) (l : list Z) : list Z := filter (fun x => x <> t) l.

Lemma elem_of_without t l x : x ∈ without t l <-> x <> t /\ x ∈ l.
Proof. unfold without. by rewrite list_elem_of_filter. Qed.

#[export] Instance set_unfold_without t l x P :
  SetUnfoldElemOf x l P -> SetUnfoldElemOf x (without t l) (x <> t /\ P).
Proof. intros [H]. constructor. by rewrite elem_of_without, H. Qed.

Lemma without_notin t l : t ∉ l -> without t l = l.
Proof.
  induction l as [|x l IH]; intros Hn; [done|]. apply not_elem_of_cons in Hn as [Hx Hl].
  unfold without in *. rewrite filter_cons_True by done. by rewrite IH.
Qed.

Lemma without_split t l1 l2 :
  t ∉ l1 -> t ∉ l2 -> without t (l1 ++ t :: l2) = l1 ++ l2.
Proof.
  intros H1 H2. unfold without. rewrite filter_app, filter_cons_False by (by intros []).
  f_equal; by apply without_notin.
Qed.

Lemma without_NoDup t l : NoDup l -> NoDup (without t l).
Proof. apply NoDup_filter. Qed.

Lemma without_sublist t l : without t l `sublist_of` l.
Proof. apply sublist_filter. Qed.

(** ** Singly-linked lists *)

Fixpoint sll (nx : Z -> Z) (l : list Z) (h : Z) : Prop :=
  match l with
  | [] => h = 0
  | x :: l' => h = x /\ x <> 0 /\ sll nx l' (nx x)
  end.

Lemma sll_ext nx nx' l h :
  (forall x, x ∈ l -> nx' x = nx x) -> sll nx l h -> sll nx' l h.
Proof.
  revert h. induction l as [|x l IH]; intros h Heq; cbn; [done|].
  intros (-> & Hnz & Hl). rewrite Heq by left. split_and!; [done|done|].
  apply IH; [|done]. intros y Hy. apply Heq. by right.
Qed.

Lemma sll_upd nx l h p v : p ∉ l -> sll nx l h -> sll (upd nx p v) l h.
Proof. intros Hp. apply sll_ext. intros x Hx. apply upd_ne. by intros ->. Qed.

Lemma sll_hd nx l h : sll nx l h -> h = hd 0 l.
Proof. by destruct l; cbn; [|intros (-> & _)]. Qed.

Lemma sll_nonnull nx l h x : sll nx l h -> x ∈ l -> x <> 0.
Proof.
  revert h. induction l as [|y l IH]; intros h; cbn; [by intros _ ?%elem_of_nil|].
  intros (_ & Hy & Hl) [->|Hx]%elem_of_cons; [done|]. by eapply IH.
Qed.

(** The link of an element starts the rest of the list. *)
Lemma sll_at nx l1 p l2 h : sll nx (l1 ++ p :: l2) h -> sll nx l2 (nx p).
Proof.
  revert h. induction l1 as [|x l1 IH]; intros h; cbn; [by intros (_ & _ & ?)|].
  intros (_ & _ & H). by eapply IH.
Qed.

(** Redirecting the link of an element replaces the rest of the list. *)
Lemma sll_redirect nx l1 p l2 l2' h v :
  sll nx (l1 ++ p :: l2) h -> p ∉ l1 -> p ∉ l2' -> sll nx l2' v ->
  sll (upd nx p v) (l1 ++ p :: l2') h.
Proof.
  revert h. induction l1 as [|x l1 IH]; intros h; cbn.
  - intros (-> & Hp & _) _ Hn Hv. rewrite upd_eq. split_and!; [done|done|by apply sll_upd].
  - intros (-> & Hx & H) [Hne Hn]%not_elem_of_cons Hn' Hv. rewrite upd_ne by done.
    split_and!; [done|done|]. by apply IH.
Qed.

(** ** Circular doubly-linked lists *)

(** [chain nx pv l z]: consecutive elements of [l] are linked both ways, and the
    last one is linked to [z]. *)
Fixpoint chain (nx pv : Z -> Z) (l : list Z) (z : Z) : Prop :=
  match l with
  | [] => True
  | x :: l' => let y := hd z l' in nx x = y /\ pv y = x /\ chain nx pv l' z
  end.

Definition ring (nx pv : Z -> Z) (l : list Z) (h : Z) : Prop :=
  match l with
  | [] => h = 0
  | x :: _ => h = x /\ chain nx pv l x
  end.

Lemma chain_app nx pv l1 l2 z :
  chain nx pv (l1 ++ l2) z <-> chain nx pv l1 (hd z l2) /\ chain nx pv l2 z.
Proof.
  induction l1 as [|x l1 IH]; cbn; [tauto|].
  rewrite IH. replace (hd z (l1 ++ l2)) with (hd (hd z l2) l1) by by destruct l1. tauto.
Qed.

Lemma chain_snoc nx pv l p z :
  chain nx pv (l ++ [p]) z <-> chain nx pv l p /\ nx p = z /\ pv z = p.
Proof. rewrite chain_app. cbn. tauto. Qed.

Lemma chain_ext nx pv nx' pv' l z :
  (forall x, x ∈ l -> nx' x = nx x) ->
  (forall y, y ∈ tail l -> pv' y = pv y) -> (l <> [] -> pv' z = pv z) ->
  chain nx pv l z -> chain nx' pv' l z.
Proof.
  induction l as [|x l IH]; intros Hn Hp Hz; cbn; [done|]. cbn in Hp.
  intros (Hx & Hy & Hl). rewrite Hn by left. split_and!; [done| |].
  - destruct l as [|y l]; cbn in *; [by rewrite Hz|]. by rewrite Hp by left.
  - apply IH; [| |by auto|done].
    + intros y Hin. apply Hn. by right.
    + intros y Hin. apply Hp. destruct l; [done|]. by right.
Qed.

(** Rewriting the two links between [p] and [n] leaves a chain alone when [p]
    is not one of its elements and [n] not a target of it. *)
Lemma chain_upd nx pv l z p n v w :
  p ∉ l -> n ∉ tail l -> (l = [] \/ n <> z) ->
  chain nx pv l z -> chain (upd nx p v) (upd pv n w) l z.
Proof.
  intros Hp Hn Hz. apply chain_ext.
  - intros x Hx. apply upd_ne. by intros ->.
  - intros y Hy. apply upd_ne. by intros ->.
  - intros Hl. apply upd_ne. destruct Hz; congruence.
Qed.

Lemma ring_ext nx pv nx' pv' l h :
  (forall x, nx' x = nx x) -> (forall x, pv' x = pv x) -> ring nx pv l h -> ring nx' pv' l h.
Proof.
  intros Hn Hp. destruct l; cbn -[chain]; [done|]. intros [-> Hc]. split; [done|].
  by apply (chain_ext nx pv).
Qed.

Lemma tail_notin {A} (x : A) l : NoDup l -> hd_error l = Some x -> x ∉ tail l.
Proof. destruct l as [|y l]; cbn; [done|]. by intros [? ?]%NoDup_cons [= ->]. Qed.

Lemma ring_prev_in nx pv h l : ring nx pv (h :: l) h -> pv h ∈ h :: l.
Proof.
  intros [_ Hc]. destruct (List.exists_last (l := h :: l)) as (l' & p & Hl); [done|].
  rewrite Hl in Hc |- *. apply chain_snoc in Hc as (_ & _ & ->). set_solver.
Qed.

(** Insertion of [t] before the head, which is at the tail of the queue. *)
Lemma ring_insert nx pv h l t q :
  NoDup (h :: l) -> t ∉ h :: l -> ring nx pv (h :: l) h -> pv h = q ->
  ring (upd (upd nx q t) t h) (upd (upd pv t q) h t) ((h :: l) ++ [t]) h.
Proof.
  intros Hnd Ht [_ Hc] Hq. split; [done|].
  destruct (List.exists_last (l := h :: l)) as (l' & p & Hl); [done|].
  rewrite Hl in *. apply chain_snoc in Hc as (Hc & Hnp & Hpv).
  assert (p = q) as -> by congruence.
  rewrite !chain_snoc. assert (t <> q /\ t ∉ l') as [Htq Htl'].
  { split; intros H; apply Ht, elem_of_app; [right; subst; by left|by left]. }
  assert (t <> h) by (intros ->; apply Ht; rewrite <- Hl; left).
  apply NoDup_app in Hnd as (Hnd & Hdis & _).
  split_and!.
  - destruct l' as [|y l']; [done|]. injection Hl as <- Hl.
    apply (chain_upd _ _ _ _ t h); [done|by eapply tail_notin| |].
    + right. intros ->. apply (Hdis q); left.
    + apply (chain_upd _ _ _ _ q t); [by intros ?%Hdis; set_solver|set_solver|by right|done].
  - by rewrite upd_ne, upd_eq.
  - by rewrite upd_ne, upd_eq.
  - by rewrite upd_eq.
  - by rewrite upd_eq.
Qed.

(** Removal of [t]: its neighbours are linked to each other.  First the head,
    then an element with a predecessor. *)
Lemma ring_remove_head nx pv l t h n q :
  NoDup (t :: l) -> ring nx pv (t :: l) h -> l <> [] -> nx t = n -> pv t = q ->
  ring (upd nx q n) (upd pv n q) l n /\ n ∈ l /\ q ∈ l.
Proof.
  intros Hnd [-> Hc] Hl <- <-.
  destruct (List.exists_last Hl) as (l' & p & ->).
  destruct Hc as (Hn & _ & Hc). apply chain_snoc in Hc as (Hc & Hp & Hq).
  rewrite Hq. assert (Hin : nx t ∈ l' ++ [p]) by (rewrite Hn; destruct l'; left).
  apply NoDup_cons in Hnd as [_ Hnd]. split_and!; [|done|set_solver].
  set (n := nx t) in *. assert (Hring : chain (upd nx p n) (upd pv n p) (l' ++ [p]) n).
  { apply chain_snoc. rewrite !upd_eq. split_and!; [|done|done].
    apply NoDup_app in Hnd as (Hnd & Hdis & _). destruct l' as [|y l']; [done|]. cbn in Hn.
    apply chain_upd; [intros ?%Hdis; set_solver|subst n; rewrite Hn; by apply tail_notin| |done].
    right. subst n. rewrite Hn. intros ->. apply (Hdis p); left. }
  subst n. destruct l'; cbn [app hd] in Hn; rewrite Hn in *; by split.
Qed.

Lemma ring_remove_inner nx pv l1 p l2 t h n q :
  NoDup ((l1 ++ [p]) ++ t :: l2) -> ring nx pv ((l1 ++ [p]) ++ t :: l2) h ->
  nx t = n -> pv t = q ->
  ring (upd nx q n) (upd pv n q) ((l1 ++ [p]) ++ l2) h /\ n ∈ (l1 ++ [p]) ++ l2 /\ q = p.
Proof.
  intros Hnd Hr <- <-.
  assert (h = hd 0 (l1 ++ [p]) /\ chain nx pv ((l1 ++ [p]) ++ t :: l2) h) as [Hh Hc].
  { destruct l1; by destruct Hr as [-> Hr]. }
  rewrite chain_app, chain_snoc in Hc. cbn in Hc.
  destruct Hc as [(Hc & _ & ->) (Hn & Hn' & Hc2)]. set (n := nx t) in *.
  assert (Hin : h ∈ l1 ++ [p]) by (rewrite Hh; destruct l1; left).
  assert (Hn_in : n ∈ (l1 ++ [p]) ++ l2).
  { subst n. rewrite Hn. destruct l2; cbn; set_solver. }
  rewrite <- app_assoc in Hnd. apply NoDup_app in Hnd as (Hd1 & Hdis & Hd2). cbn in Hd2, Hdis.
  apply NoDup_cons in Hd2 as [Hp Hd2]. apply NoDup_cons in Hd2 as [Ht Hd2].
  assert (Hp1 : p ∉ l1) by (intros H; apply (Hdis p H); left).
  split_and!; [|done|done].
  assert (Hring : chain (upd nx p n) (upd pv n p) ((l1 ++ [p]) ++ l2) h).
  { rewrite chain_app, chain_snoc, <- Hn, !upd_eq. split_and!; [|done|done|].
    - destruct l1 as [|y l1]; [done|]. cbn in Hh.
      apply chain_upd; [done| | |done].
      + subst n. rewrite Hn. destruct l2 as [|z l2]; cbn [hd tail].
        * subst h. by apply (tail_notin y (y :: l1)).
        * intros H. apply (Hdis z); [by right|set_solver].
      + right. subst n. rewrite Hn. destruct l2 as [|z l2]; cbn [hd]; set_solver.
    - destruct l2 as [|z l2]; [done|]. cbn in Hn. rewrite Hn in *.
      apply chain_upd; [set_solver|by apply (tail_notin z (z :: l2))| |done].
      right. intros ->. apply elem_of_app in Hin as [Hin|Hin]; [|set_solver].
      apply (Hdis h Hin). set_solver. }
  destruct l1; cbn in Hh; subst h; by split.
Qed.

Lemma ring_remove nx pv l1 l2 t h n q :
  NoDup (l1 ++ t :: l2) -> ring nx pv (l1 ++ t :: l2) h -> l1 ++ l2 <> [] ->
  nx t = n -> pv t = q ->
  ring (upd nx q n) (upd pv n q) (l1 ++ l2) (if decide (h = t) then n else h) /\
  n ∈ l1 ++ l2 /\ q ∈ l1 ++ l2.
Proof.
  intros Hnd Hr Hne Hn Hq. destruct l1 as [|x l1].
  - rewrite decide_True by apply Hr. by eapply ring_remove_head.
  - assert (h <> t).
    { destruct Hr as [-> _]. intros ->. cbn in Hnd. apply NoDup_cons in Hnd as [H _]. set_solver. }
    rewrite decide_False by done.
    destruct (List.exists_last (l := x :: l1)) as (l' & p & Hl); [done|]. rewrite Hl in *.
    destruct (ring_remove_inner nx pv l' p l2 t h n q) as (Hr' & Hin & ->); [done..|]. split_and!; [done|done|].
    rewrite elem_of_app, elem_of_app. left. right. by left.
Qed.

(** The links of a thread outside the ring do not matter. *)
Lemma ring_upd nx pv l h t v w :
  t ∉ l -> ring nx pv l h -> ring (upd nx t v) (upd pv t w) l h.
Proof.
  intros Ht. destruct l as [|x l]; cbn -[chain]; [done|]. intros [-> Hc]. split; [done|].
  apply chain_upd; [done|set_solver|set_solver|done].
Qed.

Lemma ring_single nx pv t h : ring nx pv [t] h -> h = t /\ nx t = t.
Proof. by intros (-> & ? & _). Qed.

(** ** Moving one element

    Membership after [t] joined or left a list, in the form
    "the others as before, and [t] if [P]". *)

Lemma mem_same (t : Z) (l : list Z) x (P : Prop) : t ∉ l -> ~ P -> x ∈ l <-> x <> t /\ x ∈ l \/ x = t /\ P.
Proof.
  intros Ht HP. split; [|by intros [[_ ?]|[_ ?]]].
  intros Hx. left. split; [by intros ->|done].
Qed.

Lemma mem_snoc (t : Z) (l : list Z) x (P : Prop) :
  t ∉ l -> P -> x ∈ l ++ [t] <-> x <> t /\ x ∈ l \/ x = t /\ P.
Proof.
  intros Ht HP. rewrite elem_of_app, list_elem_of_singleton. split.
  - intros [Hx| ->]; [left; split; [by intros ->|done]|by right].
  - intros [[_ Hx]|[-> _]]; auto.
Qed.

Lemma mem_cons (t : Z) (l : list Z) x (P : Prop) :
  t ∉ l -> P -> x ∈ t :: l <-> x <> t /\ x ∈ l \/ x = t /\ P.
Proof.
  intros Ht HP. rewrite elem_of_cons. split.
  - intros [->|Hx]; [by right|left; split; [by intros ->|done]].
  - intros [[_ Hx]|[-> _]]; auto.
Qed.

Lemma mem_tail (t : Z) (l : list Z) x (P : Prop) :
  t ∉ l -> ~ P -> x ∈ l <-> x <> t /\ x ∈ t :: l \/ x = t /\ P.
Proof.
  intros Ht HP. rewrite elem_of_cons. split.
  - intros Hx. left. split; [by intros ->|by right].
  - intros [[? [?|Hx]]|[_ ?]]; done.
Qed.

Lemma mem_without (t : Z) (l : list Z) x (P : Prop) :
  ~ P -> x ∈ without t l <-> x <> t /\ x ∈ l \/ x = t /\ P.
Proof. intros HP. rewrite elem_of_without. split; [by left|by intros [?|[_ ?]]]. Qed.

Lemma nodup_snoc (t : Z) l : NoDup l -> t ∉ l -> NoDup (l ++ [t]).
Proof.
  intros Hl Ht. apply NoDup_app. split_and!; [done| |apply NoDup_singleton].
  intros x Hx ->%list_elem_of_singleton. done.
Qed.
