(* ===== verification/Sched.v ===== *)
(** * The round-robin scheduler (kernel/proc/scheduler.c)

    Threads live in a finite map from addresses; the ready queue is a circular
    doubly-linked list through [run_prev]/[run_next], the blocked and sleeping
    threads are singly-linked lists through [wait_next] and [sleep_next].  The
    operations are translated pointer by pointer in the monad [M (kstate E)].

    SchedSpec gives the operations a specification in which the three queues are
    plain lists and proves that the code refines it; SchedProps and SchedTheorems
    prove the scheduler's properties. *)

From S2P Require Import Prelude Errno.

(** ** Data *)

Inductive ns_thread_state :=
  | NS_THREAD_EMBRYO
  | NS_THREAD_READY
  | NS_THREAD_RUNNING
  | NS_THREAD_BLOCKED
  | NS_THREAD_SLEEPING
  | NS_THREAD_ZOMBIE.

Abbreviation NS_THREAD_KERNEL := (Z.shiftl 1 0) (only parsing).
Abbreviation NS_THREAD_IDLE := (Z.shiftl 1 1) (only parsing).

Inductive ns_wait_kind :=
  | NS_WAIT_NONE
  | NS_WAIT_CHILD
  | NS_WAIT_PIPE_READ
  | NS_WAIT_PIPE_WRITE
  | NS_WAIT_IO.

#[export] Instance ns_thread_state_eq : EqDecision ns_thread_state.
Proof. solve_decision. Defined.
#[export] Instance ns_wait_kind_eq : EqDecision ns_wait_kind.
Proof. solve_decision. Defined.

Record ns_arch_context := mk_context {
  rsp : Z; rip : Z; rflags : Z; rbx : Z; rbp : Z; r12 : Z; r13 : Z; r14 : Z;
  r15 : Z; cr3 : Z; fs_base : Z }.

Record ns_thread := mk_thread {
  tid : Z;
  state : ns_thread_state;
  flags : Z;
  quantum_left : Z;
  switches : Z;
  runtime_ticks : Z;
  wake_deadline_ns : Z;
  wait_kind : ns_wait_kind;
  wait_key : Z;
  wait_pid : Z;
  context : ns_arch_context;
  kernel_stack : Z;
  kernel_stack_size : Z;
  process : Z;
  process_next : Z;
  all_next : Z;
  run_prev : Z;
  run_next : Z;
  wait_next : Z;
  sleep_next : Z;
  on_run_queue : Z }.

Definition eta_thread (t : ns_thread) : ns_thread :=
  mk_thread (tid t) (state t) (flags t) (quantum_left t) (switches t) (runtime_ticks t)
    (wake_deadline_ns t) (wait_kind t) (wait_key t) (wait_pid t) (context t)
    (kernel_stack t) (kernel_stack_size t) (process t) (process_next t) (all_next t)
    (run_prev t) (run_next t) (wait_next t) (sleep_next t) (on_run_queue t).

#[export] Instance set_tid : Setter tid.
Proof. mk_setter eta_thread tid. Defined.
#[export] Instance set_state : Setter state.
Proof. mk_setter eta_thread state. Defined.
#[export] Instance set_flags : Setter flags.
Proof. mk_setter eta_thread flags. Defined.
#[export] Instance set_quantum_left : Setter quantum_left.
Proof. mk_setter eta_thread quantum_left. Defined.
#[export] Instance set_switches : Setter switches.
Proof. mk_setter eta_thread switches. Defined.
#[export] Instance set_runtime_ticks : Setter runtime_ticks.
Proof. mk_setter eta_thread runtime_ticks. Defined.
#[export] Instance set_wake_deadline_ns : Setter wake_deadline_ns.
Proof. mk_setter eta_thread wake_deadline_ns. Defined.
#[export] Instance set_wait_kind : Setter wait_kind.
Proof. mk_setter eta_thread wait_kind. Defined.
#[export] Instance set_wait_key : Setter wait_key.
Proof. mk_setter eta_thread wait_key. Defined.
#[export] Instance set_run_prev : Setter run_prev.
Proof. mk_setter eta_thread run_prev. Defined.
#[export] Instance set_run_next : Setter run_next.
Proof. mk_setter eta_thread run_next. Defined.
#[export] Instance set_wait_next : Setter wait_next.
Proof. mk_setter eta_thread wait_next. Defined.
#[export] Instance set_sleep_next : Setter sleep_next.
Proof. mk_setter eta_thread sleep_next. Defined.
#[export] Instance set_on_run_queue : Setter on_run_queue.
Proof. mk_setter eta_thread on_run_queue. Defined.

(** The callbacks of the architecture layer act on an environment [E] of their
    own; a null function pointer is [None].  They do not touch the scheduler. *)
Record ns_scheduler_ops (E : Type) := mk_ops {
  critical_enter : option (E -> Z * E);
  critical_leave : option (E -> Z -> E);
  switch_context : option (E -> Z -> Z -> Z -> E) }.
Arguments mk_ops {E}.
Arguments critical_enter {E}.
Arguments critical_leave {E}.
Arguments switch_context {E}.

Record ns_scheduler_stats := mk_sched_stats {
  ticks : Z; context_switches : Z; idle_ticks : Z; wakeups : Z }.

Definition eta_stats (t : ns_scheduler_stats) : ns_scheduler_stats :=
  mk_sched_stats (ticks t) (context_switches t) (idle_ticks t) (wakeups t).
#[export] Instance set_ticks : Setter ticks.
Proof. mk_setter eta_stats ticks. Defined.
#[export] Instance set_context_switches : Setter context_switches.
Proof. mk_setter eta_stats context_switches. Defined.
#[export] Instance set_idle_ticks : Setter idle_ticks.
Proof. mk_setter eta_stats idle_ticks. Defined.
#[export] Instance set_wakeups : Setter wakeups.
Proof. mk_setter eta_stats wakeups. Defined.

Record ns_scheduler (E : Type) := mk_scheduler {
  ops : ns_scheduler_ops E;
  current : Z;
  idle : Z;
  ready_head : Z;
  blocked_head : Z;
  sleep_head : Z;
  quantum_ticks : Z;
  preempt_disable_depth : Z;
  reschedule_pending : Z;
  stats : ns_scheduler_stats }.
Arguments mk_scheduler {E}.
Arguments ops {E}.
Arguments current {E}.
Arguments idle {E}.
Arguments ready_head {E}.
Arguments blocked_head {E}.
Arguments sleep_head {E}.
Arguments quantum_ticks {E}.
Arguments preempt_disable_depth {E}.
Arguments reschedule_pending {E}.
Arguments stats {E}.

Definition eta_scheduler {E} (t : ns_scheduler E) : ns_scheduler E :=
  mk_scheduler (ops t) (current t) (idle t) (ready_head t) (blocked_head t) (sleep_head t)
    (quantum_ticks t) (preempt_disable_depth t) (reschedule_pending t) (stats t).
#[export] Instance set_current {E} : Setter (@current E).
Proof. mk_setter1 (@eta_scheduler) (@current E). Defined.
#[export] Instance set_idle {E} : Setter (@idle E).
Proof. mk_setter1 (@eta_scheduler) (@idle E). Defined.
#[export] Instance set_ready_head {E} : Setter (@ready_head E).
Proof. mk_setter1 (@eta_scheduler) (@ready_head E). Defined.
#[export] Instance set_blocked_head {E} : Setter (@blocked_head E).
Proof. mk_setter1 (@eta_scheduler) (@blocked_head E). Defined.
#[export] Instance set_sleep_head {E} : Setter (@sleep_head E).
Proof. mk_setter1 (@eta_scheduler) (@sleep_head E). Defined.
#[export] Instance set_preempt_disable_depth {E} : Setter (@preempt_disable_depth E).
Proof. mk_setter1 (@eta_scheduler) (@preempt_disable_depth E). Defined.
#[export] Instance set_reschedule_pending {E} : Setter (@reschedule_pending E).
Proof. mk_setter1 (@eta_scheduler) (@reschedule_pending E). Defined.
#[export] Instance set_stats {E} : Setter (@stats E).
Proof. mk_setter1 (@eta_scheduler) (@stats E). Defined.

(** The memory the scheduler works on: the scheduler object, the threads, the
    address space of every process, and the callbacks' environment. *)
Record kstate (E : Type) := mk_kstate {
  sched : ns_scheduler E;
  threads : gmap Z ns_thread;
  spaces : gmap Z Z;
  env : E }.
Arguments mk_kstate {E}.
Arguments sched {E}.
Arguments threads {E}.
Arguments spaces {E}.
Arguments env {E}.

Definition eta_kstate {E} (k : kstate E) : kstate E :=
  mk_kstate (sched k) (threads k) (spaces k) (env k).
#[export] Instance set_sched {E} : Setter (@sched E).
Proof. mk_setter1 (@eta_kstate) (@sched E). Defined.
#[export] Instance set_threads {E} : Setter (@threads E).
Proof. mk_setter1 (@eta_kstate) (@threads E). Defined.
#[export] Instance set_env {E} : Setter (@env E).
Proof. mk_setter1 (@eta_kstate) (@env E). Defined.

(** ** Memory access *)

Section scheduler.
Context {E : Type}.
Implicit Types (p thread : Z).

(** Fields of the scheduler object. *)
Definition gs {A} (f : ns_scheduler E -> A) : M (kstate E) A := gets (fun k => f (sched k)).
Definition ss {T} (f : ns_scheduler E -> T) `{!Setter f} (v : T) : M (kstate E) unit :=
  modify (fun k => k <| sched := (sched k) <| f := v |> |>).
(** [++scheduler->stats.f], a 64-bit counter. *)
Definition bump (f : ns_scheduler_stats -> Z) `{!Setter f} : M (kstate E) unit :=
  st ← gs stats; ss stats (st <| f := u64 (f st + 1) |>).

(** Fields of a thread; a pointer to no thread has no defined access. *)
Definition ld {A} p (f : ns_thread -> A) : M (kstate E) A :=
  fun k => t ← threads k !! p; Some (f t, k).
Definition st {T} p (f : ns_thread -> T) `{!Setter f} (v : T) : M (kstate E) unit :=
  fun k => match threads k !! p with
           | Some _ => Some (tt, k <| threads := alter (set_field f v) p (threads k) |>)
           | None => None
           end.

(** A [struct ns_thread **]: the address of a list head, or of the link field
    of a thread. *)
Inductive cursor := at_head | at_next (t : Z).

Definition rd_cursor (hd : ns_scheduler E -> Z) (nx : ns_thread -> Z) (c : cursor)
  : M (kstate E) Z :=
  match c with at_head => gs hd | at_next t => ld t nx end.
Definition wr_cursor (hd : ns_scheduler E -> Z) (nx : ns_thread -> Z)
    `{!Setter hd} `{!Setter nx} (c : cursor) (v : Z) : M (kstate E) unit :=
  match c with at_head => ss hd v | at_next t => st t nx v end.

(** Iterations enough to walk a list of distinct threads to its end. *)
Definition walk_fuel : M (kstate E) nat := gets (fun k => S (size (threads k))).

(** ** Operations *)

Definition enter_critical : M (kstate E) Z :=
  fun k => match critical_enter (ops (sched k)) with
           | Some f => let '(token, e) := f (env k) in Some (token, k <| env := e |>)
           | None => Some (0, k)
           end.

Definition leave_critical (token : Z) : M (kstate E) unit :=
  fun k => match critical_leave (ops (sched k)) with
           | Some f => Some (tt, k <| env := f (env k) token |>)
           | None => Some (tt, k)
           end.

Definition ready_insert_tail thread : M (kstate E) unit :=
  head ← gs ready_head;
  (if head =? NULL then
     st thread run_prev thread;;
     st thread run_next thread;;
     ss ready_head thread
   else
     tail ← ld head run_prev;
     st tail run_next thread;;
     st thread run_prev tail;;
     st thread run_next head;;
     st head run_prev thread);;
  st thread on_run_queue 1.

Definition ready_remove thread : M (kstate E) unit :=
  queued ← ld thread on_run_queue;
  if queued =? 0 then mret tt
  else
    next ← ld thread run_next;
    (if next =? thread then ss ready_head NULL
     else
       prev ← ld thread run_prev;
       next ← ld thread run_next;
       st prev run_next next;;
       next ← ld thread run_next;
       prev ← ld thread run_prev;
       st next run_prev prev;;
       head ← gs ready_head;
       if head =? thread then (next ← ld thread run_next; ss ready_head next) else mret tt);;
    st thread run_prev NULL;;
    st thread run_next NULL;;
    st thread on_run_queue 0.

Definition ready_pop : M (kstate E) Z :=
  thread ← gs ready_head;
  (if negb (thread =? NULL) then ready_remove thread else mret tt);;
  mret thread.

(** The loop of [blocked_remove] and [sleep_remove], which differ in the list
    head and the link field only. *)
Fixpoint remove_loop (hd : ns_scheduler E -> Z) (nx : ns_thread -> Z)
    `{!Setter hd} `{!Setter nx} (fuel : nat) (target : Z) (c : cursor) : M (kstate E) unit :=
  match fuel with
  | O => stuck
  | S fuel' =>
    node ← rd_cursor hd nx c;
    if node =? NULL then mret tt
    else if node =? target then
      next ← ld target nx;
      wr_cursor hd nx c next;;
      st target nx NULL
    else remove_loop hd nx fuel' target (at_next node)
  end.

Definition blocked_remove (target : Z) : M (kstate E) unit :=
  fuel ← walk_fuel; remove_loop blocked_head wait_next fuel target at_head.

Definition sleep_remove (target : Z) : M (kstate E) unit :=
  fuel ← walk_fuel; remove_loop sleep_head sleep_next fuel target at_head.

(** The call of [switch_context]: the previous context, the next one and the
    next address space.  A context is identified by its thread. *)
Definition call_switch (previous next space : Z) : M (kstate E) unit :=
  fun k => match switch_context (ops (sched k)) with
           | Some f => Some (tt, k <| env := f (env k) previous next space |>)
           | None => Some (tt, k)
           end.

Definition address_space_of (proc : Z) : M (kstate E) Z :=
  fun k => if proc =? NULL then Some (NULL, k) else a ← spaces k !! proc; Some (a, k).

Definition switch_to (next : Z) : M (kstate E) unit :=
  previous ← gs current;
  idl ← gs idle;
  let next := if next =? NULL then idl else next in
  if next =? NULL then mret tt
  else
    quantum ← gs quantum_ticks;
    if next =? previous then
      st next state NS_THREAD_RUNNING;;
      st next quantum_left quantum
    else
      proc ← ld next process;
      space ← address_space_of proc;
      st next state NS_THREAD_RUNNING;;
      st next quantum_left quantum;;
      n ← ld next switches;
      st next switches (u64 (n + 1));;
      ss current next;;
      bump context_switches;;
      call_switch previous next space.

(** [scheduler] is [NULL] or the address of the scheduler object. *)
Definition ns_sched_init (scheduler : Z) (operations : option (ns_scheduler_ops E))
    (quantum : Z) : M (kstate E) Z :=
  match operations with
  | Some o =>
    if (scheduler =? NULL) || (quantum =? 0) then mret (- NS_EINVAL)
    else
      modify (fun k => k <| sched :=
        mk_scheduler o NULL NULL NULL NULL NULL quantum 0 0 (mk_sched_stats 0 0 0 0) |>);;
      mret 0
  | None => mret (- NS_EINVAL)
  end.

Definition ns_sched_set_idle (scheduler idle_thread : Z) : M (kstate E) Z :=
  if (scheduler =? NULL) || (idle_thread =? NULL) then mret (- NS_EINVAL)
  else
    token ← enter_critical;
    idl ← gs idle;
    queued ← (if negb (idl =? NULL) then mret 1 else ld idle_thread on_run_queue);
    if negb (queued =? 0) then leave_critical token;; mret (- NS_EBUSY)
    else
      fl ← ld idle_thread flags;
      st idle_thread flags (Z.lor fl (Z.lor NS_THREAD_IDLE NS_THREAD_KERNEL));;
      st idle_thread state NS_THREAD_READY;;
      quantum ← gs quantum_ticks;
      st idle_thread quantum_left quantum;;
      ss idle idle_thread;;
      leave_critical token;;
      mret 0.

Definition ns_sched_add (scheduler thread : Z) : M (kstate E) Z :=
  if (scheduler =? NULL) || (thread =? NULL) then mret (- NS_EINVAL)
  else
    token ← enter_critical;
    queued ← ld thread on_run_queue;
    stt ← ld thread state;
    fl ← ld thread flags;
    if negb (queued =? 0) || bool_decide (stt = NS_THREAD_RUNNING)
       || bool_decide (stt = NS_THREAD_ZOMBIE) || negb (Z.land fl NS_THREAD_IDLE =? 0)
    then leave_critical token;; mret (- NS_EINVAL)
    else
      blocked_remove thread;;
      sleep_remove thread;;
      st thread wait_kind NS_WAIT_NONE;;
      st thread wait_key 0;;
      st thread state NS_THREAD_READY;;
      ready_insert_tail thread;;
      leave_critical token;;
      mret 0.

Definition ns_sched_remove (scheduler thread : Z) : M (kstate E) Z :=
  if (scheduler =? NULL) || (thread =? NULL) then mret (- NS_EINVAL)
  else
    token ← enter_critical;
    ready_remove thread;;
    blocked_remove thread;;
    sleep_remove thread;;
    cur ← gs current;
    when (cur =? thread) (ss reschedule_pending 1);;
    leave_critical token;;
    mret 0.

Definition ns_sched_reschedule (scheduler : Z) : M (kstate E) unit :=
  if scheduler =? NULL then mret tt
  else
    token ← enter_critical;
    depth ← gs preempt_disable_depth;
    if negb (depth =? 0) then
      ss reschedule_pending 1;;
      leave_critical token
    else
      previous ← gs current;
      idl ← gs idle;
      running ← (if negb (previous =? NULL) && negb (previous =? idl)
                 then stt ← ld previous state; mret (bool_decide (stt = NS_THREAD_RUNNING))
                 else mret false);
      (if (running : bool) then
         st previous state NS_THREAD_READY;;
         ready_insert_tail previous
       else if previous =? idl then st previous state NS_THREAD_READY
       else mret tt);;
      next ← ready_pop;
      idl ← gs idle;
      let next := if next =? NULL then idl else next in
      ss reschedule_pending 0;;
      switch_to next;;
      leave_critical token.

(** The [while] loop of [ns_sched_tick]. *)
Fixpoint tick_loop (fuel : nat) (now_ns : Z) : M (kstate E) unit :=
  match fuel with
  | O => stuck
  | S fuel' =>
    thread ← gs sleep_head;
    if thread =? NULL then mret tt
    else
      deadline ← ld thread wake_deadline_ns;
      if deadline <=? now_ns then
        next ← ld thread sleep_next;
        ss sleep_head next;;
        st thread sleep_next NULL;;
        st thread wake_deadline_ns 0;;
        st thread state NS_THREAD_READY;;
        ready_insert_tail thread;;
        bump wakeups;;
        tick_loop fuel' now_ns
      else mret tt
  end.

(** The accounting part of [ns_sched_tick]. *)
Definition tick_account : M (kstate E) unit :=
  cur ← gs current;
  idl ← gs idle;
  head ← gs ready_head;
  when ((cur =? idl) && negb (head =? NULL)) (ss reschedule_pending 1);;
  if cur =? idl then bump idle_ticks
  else if negb (cur =? NULL) then
    r ← ld cur runtime_ticks;
    st cur runtime_ticks (u64 (r + 1));;
    q ← ld cur quantum_left;
    when (negb (q =? 0)) (st cur quantum_left (u32 (q - 1)));;
    q ← ld cur quantum_left;
    when (q =? 0) (ss reschedule_pending 1)
  else mret tt.

Definition ns_sched_tick (scheduler now_ns : Z) : M (kstate E) unit :=
  if scheduler =? NULL then mret tt
  else
    token ← enter_critical;
    bump ticks;;
    fuel ← walk_fuel;
    tick_loop fuel now_ns;;
    tick_account;;
    leave_critical token;;
    pending ← gs reschedule_pending;
    depth ← gs preempt_disable_depth;
    when (negb (pending =? 0) && (depth =? 0)) (ns_sched_reschedule scheduler).

Definition ns_sched_yield (scheduler : Z) : M (kstate E) unit :=
  if scheduler =? NULL then mret tt
  else
    ss reschedule_pending 1;;
    depth ← gs preempt_disable_depth;
    when (depth =? 0) (ns_sched_reschedule scheduler).

Definition ns_sched_prepare_block (scheduler : Z) (kind : ns_wait_kind) (key : Z)
  : M (kstate E) unit :=
  if scheduler =? NULL then mret tt
  else
    cur ← gs current;
    if (cur =? NULL) || bool_decide (kind = NS_WAIT_NONE) then mret tt
    else
      token ← enter_critical;
      thread ← gs current;
      idl ← gs idle;
      if thread =? idl then leave_critical token
      else
        st thread state NS_THREAD_BLOCKED;;
        st thread wait_kind kind;;
        st thread wait_key key;;
        head ← gs blocked_head;
        st thread wait_next head;;
        ss blocked_head thread;;
        leave_critical token.

Definition ns_sched_commit_block (scheduler : Z) : M (kstate E) unit :=
  if scheduler =? NULL then mret tt
  else
    cur ← gs current;
    if cur =? NULL then mret tt
    else
      token ← enter_critical;
      thread ← gs current;
      stt ← ld thread state;
      switch_required ←
        (if bool_decide (stt = NS_THREAD_BLOCKED) then
           ss reschedule_pending 1;;
           depth ← gs preempt_disable_depth;
           mret (depth =? 0)
         else
           queued ← (if bool_decide (stt = NS_THREAD_READY) then ld thread on_run_queue
                     else mret 0);
           (if negb (queued =? 0) then
              ready_remove thread;;
              st thread state NS_THREAD_RUNNING
            else mret tt);;
           mret false);
      leave_critical token;;
      when switch_required (ns_sched_reschedule scheduler).

Definition ns_sched_block (scheduler : Z) (kind : ns_wait_kind) (key : Z) : M (kstate E) unit :=
  ns_sched_prepare_block scheduler kind key;;
  ns_sched_commit_block scheduler.

(** The [while] loop of [ns_sched_sleep_until], which stops at the insertion
    point. *)
Fixpoint sleep_search (fuel : nat) (deadline_ns : Z) (c : cursor) : M (kstate E) cursor :=
  match fuel with
  | O => stuck
  | S fuel' =>
    node ← rd_cursor sleep_head sleep_next c;
    if node =? NULL then mret c
    else
      d ← ld node wake_deadline_ns;
      if d <=? deadline_ns then sleep_search fuel' deadline_ns (at_next node) else mret c
  end.

Definition ns_sched_sleep_until (scheduler deadline_ns : Z) : M (kstate E) unit :=
  if scheduler =? NULL then mret tt
  else
    cur ← gs current;
    if cur =? NULL then mret tt
    else
      token ← enter_critical;
      thread ← gs current;
      idl ← gs idle;
      if thread =? idl then leave_critical token
      else
        st thread state NS_THREAD_SLEEPING;;
        st thread wake_deadline_ns deadline_ns;;
        fuel ← walk_fuel;
        c ← sleep_search fuel deadline_ns at_head;
        next ← rd_cursor sleep_head sleep_next c;
        st thread sleep_next next;;
        wr_cursor sleep_head sleep_next c thread;;
        ss reschedule_pending 1;;
        leave_critical token;;
        depth ← gs preempt_disable_depth;
        when (depth =? 0) (ns_sched_reschedule scheduler).

(** The [while] loop of [ns_sched_wake]. *)
Fixpoint wake_loop (fuel : nat) (kind : ns_wait_kind) (key maximum count : Z) (c : cursor)
  : M (kstate E) Z :=
  match fuel with
  | O => stuck
  | S fuel' =>
    thread ← rd_cursor blocked_head wait_next c;
    if negb (thread =? NULL) && (count <? maximum) then
      k ← ld thread wait_kind;
      ky ← ld thread wait_key;
      if bool_decide (k = kind) && (ky =? key) then
        next ← ld thread wait_next;
        wr_cursor blocked_head wait_next c next;;
        st thread wait_next NULL;;
        st thread wait_kind NS_WAIT_NONE;;
        st thread wait_key 0;;
        st thread state NS_THREAD_READY;;
        ready_insert_tail thread;;
        bump wakeups;;
        wake_loop fuel' kind key maximum (u64 (count + 1)) c
      else wake_loop fuel' kind key maximum count (at_next thread)
    else mret count
  end.

Definition ns_sched_wake (scheduler : Z) (kind : ns_wait_kind) (key maximum : Z)
  : M (kstate E) Z :=
  if (scheduler =? NULL) || bool_decide (kind = NS_WAIT_NONE) || (maximum =? 0) then mret 0
  else
    token ← enter_critical;
    fuel ← walk_fuel;
    count ← wake_loop fuel kind key maximum 0 at_head;
    leave_critical token;;
    mret count.

Definition ns_sched_wake_thread (scheduler thread : Z) : M (kstate E) Z :=
  if (scheduler =? NULL) || (thread =? NULL) then mret (- NS_EINVAL)
  else
    token ← enter_critical;
    stt ← ld thread state;
    if negb (bool_decide (stt = NS_THREAD_BLOCKED)) && negb (bool_decide (stt = NS_THREAD_SLEEPING))
    then leave_critical token;; mret (- NS_EINVAL)
    else
      blocked_remove thread;;
      sleep_remove thread;;
      st thread wait_kind NS_WAIT_NONE;;
      st thread wait_key 0;;
      st thread wake_deadline_ns 0;;
      st thread state NS_THREAD_READY;;
      ready_insert_tail thread;;
      bump wakeups;;
      leave_critical token;;
      mret 0.

Definition ns_sched_terminate_current (scheduler : Z) : M (kstate E) unit :=
  if scheduler =? NULL then mret tt
  else
    cur ← gs current;
    idl ← gs idle;
    if (cur =? NULL) || (cur =? idl) then mret tt
    else
      token ← enter_critical;
      cur ← gs current;
      st cur state NS_THREAD_ZOMBIE;;
      ss reschedule_pending 1;;
      leave_critical token;;
      depth ← gs preempt_disable_depth;
      when (depth =? 0) (ns_sched_reschedule scheduler).

Definition ns_sched_preempt_disable (scheduler : Z) : M (kstate E) unit :=
  if scheduler =? NULL then mret tt
  else
    token ← enter_critical;
    depth ← gs preempt_disable_depth;
    ss preempt_disable_depth (u32 (depth + 1));;
    leave_critical token.

Definition ns_sched_preempt_enable (scheduler : Z) : M (kstate E) unit :=
  if scheduler =? NULL then mret tt
  else
    token ← enter_critical;
    depth ← gs preempt_disable_depth;
    when (negb (depth =? 0)) (ss preempt_disable_depth (u32 (depth - 1)));;
    depth ← gs preempt_disable_depth;
    pending ← gs reschedule_pending;
    let should_reschedule := (depth =? 0) && negb (pending =? 0) in
    leave_critical token;;
    when should_reschedule (ns_sched_reschedule scheduler).

End scheduler.
