(* ===== verification/SchedSpec.v ===== *)
(** * Specification of the scheduler and its refinement

    [asched] is the scheduler with its three queues as lists of threads; the
    abstraction relation [rep] ties it to the pointer structures of [Sched].
    [refines] is forward simulation of stateful code; each operation of
    kernel/proc/scheduler.c refines its list-level counterpart. *)

From S2P Require Import Prelude Errno Links Sched.

(** ** The abstract state *)

(** A thread, and a scheduler, without the links of the queues. *)
Definition erase_t (t : ns_thread) : ns_thread :=
  t <| run_prev := 0 |> <| run_next := 0 |> <| wait_next := 0 |> <| sleep_next := 0 |>
    <| on_run_queue := 0 |>.
Definition erase_s {E} (s : ns_scheduler E) : ns_scheduler E :=
  s <| ready_head := 0 |> <| blocked_head := 0 |> <| sleep_head := 0 |>.
Definition erase {E} (k : kstate E) : kstate E :=
  mk_kstate (erase_s (sched k)) (erase_t <$> threads k) (spaces k) (env k).

Record asched (E : Type) := mk_asched {
  kernel : kstate E;
  ready : list Z;
  blocked : list Z;
  sleeping : list Z }.
Arguments mk_asched {E}.
Arguments kernel {E}.
Arguments ready {E}.
Arguments blocked {E}.
Arguments sleeping {E}.

Definition eta_asched {E} (a : asched E) : asched E :=
  mk_asched (kernel a) (ready a) (blocked a) (sleeping a).
#[export] Instance set_kernel {E} : Setter (@kernel E).
Proof. mk_setter1 (@eta_asched) (@kernel E). Defined.
#[export] Instance set_ready {E} : Setter (@ready E).
Proof. mk_setter1 (@eta_asched) (@ready E). Defined.
#[export] Instance set_blocked {E} : Setter (@blocked E).
Proof. mk_setter1 (@eta_asched) (@blocked E). Defined.
#[export] Instance set_sleeping {E} : Setter (@sleeping E).
Proof. mk_setter1 (@eta_asched) (@sleeping E). Defined.

(** ** The links of the concrete state *)

Definition links (t : ns_thread) : Z * Z * Z * Z * Z :=
  (run_prev t, run_next t, wait_next t, sleep_next t, on_run_queue t).
Definition no_context : ns_arch_context := mk_context 0 0 0 0 0 0 0 0 0 0 0.
Definition no_thread : ns_thread :=
  mk_thread 0 NS_THREAD_EMBRYO 0 0 0 0 0 NS_WAIT_NONE 0 0 no_context 0 0 0 0 0 0 0 0 0 0.

(** The field [f] of the thread at an address. *)
Definition fld {A} (f : ns_thread -> A) (m : gmap Z ns_thread) (p : Z) : A :=
  f (default no_thread (m !! p)).

Definition valid (m : gmap Z ns_thread) (p : Z) : Prop := is_Some (m !! p).

Definition b2z (b : bool) : Z := if b then 1 else 0.

Record linked {E} (k : kstate E) (r b l : list Z) : Prop := {
  lk_null : threads k !! NULL = None;
  lk_ring : ring (fld run_next (threads k)) (fld run_prev (threads k)) r (ready_head (sched k));
  lk_queue : forall t, valid (threads k) t ->
    fld on_run_queue (threads k) t = b2z (bool_decide (t ∈ r));
  lk_blocked : sll (fld wait_next (threads k)) b (blocked_head (sched k));
  lk_sleep : sll (fld sleep_next (threads k)) l (sleep_head (sched k));
  lk_valid : forall t, t ∈ r \/ t ∈ b \/ t ∈ l -> valid (threads k) t;
  lk_nodup_r : NoDup r;
  lk_nodup_b : NoDup b;
  lk_nodup_l : NoDup l }.

Definition rep {E} (k : kstate E) (a : asched E) : Prop :=
  kernel a = erase k /\ linked k (ready a) (blocked a) (sleeping a).

(** Forward simulation: whatever the specification does, the code does. *)
Definition refines {E A} (m : M (kstate E) A) (am : M (asched E) A) : Prop :=
  forall k a x a', rep k a -> am a = Some (x, a') -> exists k', m k = Some (x, k') /\ rep k' a'.

(** A step of the specification that does not touch the queues. *)
Definition lift {E A} (m : M (kstate E) A) : M (asched E) A :=
  fun a => '(x, k) ← m (kernel a); Some (x, a <| kernel := k |>).

(** ** Operations of the specification on the queues *)

Section spec.
Context {E : Type}.
Implicit Types (t : Z) (a : asched E).

Definition a_valid t : M (asched E) unit :=
  check (fun a => valid (threads (kernel a)) t).

Definition a_queued t : M (asched E) Z :=
  a_valid t;; gets (fun a => b2z (bool_decide (t ∈ ready a))).

Definition a_insert t : M (asched E) unit :=
  a_valid t;;
  check (fun a => t ∉ ready a);;
  modify (fun a => a <| ready := ready a ++ [t] |>).

Definition a_ready_remove t : M (asched E) unit :=
  a_valid t;; modify (fun a => a <| ready := without t (ready a) |>).

Definition a_head : M (asched E) Z := gets (fun a => hd NULL (ready a)).

Definition a_pop : M (asched E) Z :=
  fun a => Some (hd NULL (ready a), a <| ready := tail (ready a) |>).

Definition a_blocked_remove t : M (asched E) unit :=
  modify (fun a => a <| blocked := without t (blocked a) |>).

Definition a_sleep_remove t : M (asched E) unit :=
  modify (fun a => a <| sleeping := without t (sleeping a) |>).

Definition a_block_push t : M (asched E) unit :=
  a_valid t;;
  check (fun a => t ∉ blocked a);;
  modify (fun a => a <| blocked := t :: blocked a |>).

(** [t] goes behind every sleeper whose deadline is not later. *)
Definition deadline_of a t : Z := fld wake_deadline_ns (threads (kernel a)) t.
Definition due a (now t : Z) : bool := deadline_of a t <=? now.

Fixpoint insert_by (p : Z -> bool) (t : Z) (l : list Z) : list Z :=
  match l with
  | [] => [t]
  | x :: l' => if p x then x :: insert_by p t l' else t :: l
  end.

Definition a_sleep_insert t (deadline : Z) : M (asched E) unit :=
  a_valid t;;
  check (fun a => t ∉ sleeping a);;
  modify (fun a => a <| sleeping := insert_by (due a deadline) t (sleeping a) |>).

(** The wake-up of every due sleeper, from the front of the list. *)
Fixpoint a_tick_loop (l : list Z) (now : Z) : M (asched E) unit :=
  check (fun a => sleeping a = l);;
  match l with
  | [] => mret tt
  | t :: l' =>
    deadline ← lift (ld t wake_deadline_ns);
    if deadline <=? now then
      modify (fun a => a <| sleeping := l' |>);;
      lift (st t wake_deadline_ns 0);;
      lift (st t state NS_THREAD_READY);;
      a_insert t;;
      lift (bump wakeups);;
      a_tick_loop l' now
    else mret tt
  end.

(** The wake-up of at most [maximum] waiters: [l1] has been passed over. *)
Fixpoint a_wake_loop (l1 l2 : list Z) (kind : ns_wait_kind) (key maximum count : Z)
  : M (asched E) Z :=
  check (fun a => blocked a = l1 ++ l2);;
  match l2 with
  | [] => mret count
  | t :: l2' =>
    if count <? maximum then
      k ← lift (ld t wait_kind);
      ky ← lift (ld t wait_key);
      if bool_decide (k = kind) && (ky =? key) then
        modify (fun a => a <| blocked := l1 ++ l2' |>);;
        lift (st t wait_kind NS_WAIT_NONE);;
        lift (st t wait_key 0);;
        lift (st t state NS_THREAD_READY);;
        a_insert t;;
        lift (bump wakeups);;
        a_wake_loop l1 l2' kind key maximum (u64 (count + 1))
      else a_wake_loop (l1 ++ [t]) l2' kind key maximum count
    else mret count
  end.

(** ** The operations of the specification

    The same decisions as the code, with the queues as lists. *)

Definition a_set_idle (scheduler idle_thread : Z) : M (asched E) Z :=
  if (scheduler =? NULL) || (idle_thread =? NULL) then mret (- NS_EINVAL)
  else
    token ← lift enter_critical;
    idl ← lift (gs idle);
    queued ← (if negb (idl =? NULL) then mret 1 else a_queued idle_thread);
    if negb (queued =? 0) then lift (leave_critical token);; mret (- NS_EBUSY)
    else
      fl ← lift (ld idle_thread flags);
      lift (st idle_thread flags (Z.lor fl (Z.lor NS_THREAD_IDLE NS_THREAD_KERNEL)));;
      lift (st idle_thread state NS_THREAD_READY);;
      quantum ← lift (gs quantum_ticks);
      lift (st idle_thread quantum_left quantum);;
      lift (ss idle idle_thread);;
      lift (leave_critical token);;
      mret 0.

Definition a_add (scheduler thread : Z) : M (asched E) Z :=
  if (scheduler =? NULL) || (thread =? NULL) then mret (- NS_EINVAL)
  else
    token ← lift enter_critical;
    queued ← a_queued thread;
    stt ← lift (ld thread state);
    fl ← lift (ld thread flags);
    if negb (queued =? 0) || bool_decide (stt = NS_THREAD_RUNNING)
       || bool_decide (stt = NS_THREAD_ZOMBIE) || negb (Z.land fl NS_THREAD_IDLE =? 0)
    then lift (leave_critical token);; mret (- NS_EINVAL)
    else
      a_blocked_remove thread;;
      a_sleep_remove thread;;
      lift (st thread wait_kind NS_WAIT_NONE);;
      lift (st thread wait_key 0);;
      lift (st thread state NS_THREAD_READY);;
      a_insert thread;;
      lift (leave_critical token);;
      mret 0.

Definition a_remove (scheduler thread : Z) : M (asched E) Z :=
  if (scheduler =? NULL) || (thread =? NULL) then mret (- NS_EINVAL)
  else
    token ← lift enter_critical;
    a_ready_remove thread;;
    a_blocked_remove thread;;
    a_sleep_remove thread;;
    cur ← lift (gs current);
    when (cur =? thread) (lift (ss reschedule_pending 1));;
    lift (leave_critical token);;
    mret 0.

Definition a_reschedule (scheduler : Z) : M (asched E) unit :=
  if scheduler =? NULL then mret tt
  else
    token ← lift enter_critical;
    depth ← lift (gs preempt_disable_depth);
    if negb (depth =? 0) then
      lift (ss reschedule_pending 1);;
      lift (leave_critical token)
    else
      previous ← lift (gs current);
      idl ← lift (gs idle);
      running ← (if negb (previous =? NULL) && negb (previous =? idl)
                 then stt ← lift (ld previous state); mret (bool_decide (stt = NS_THREAD_RUNNING))
                 else mret false);
      (if (running : bool) then
         lift (st previous state NS_THREAD_READY);;
         a_insert previous
       else if previous =? idl then lift (st previous state NS_THREAD_READY)
       else mret tt);;
      next ← a_pop;
      idl ← lift (gs idle);
      let next := if next =? NULL then idl else next in
      lift (ss reschedule_pending 0);;
      lift (switch_to next);;
      lift (leave_critical token).

Definition a_account : M (asched E) unit :=
  cur ← lift (gs current);
  idl ← lift (gs idle);
  head ← a_head;
  when ((cur =? idl) && negb (head =? NULL)) (lift (ss reschedule_pending 1));;
  if cur =? idl then lift (bump idle_ticks)
  else if negb (cur =? NULL) then
    r ← lift (ld cur runtime_ticks);
    lift (st cur runtime_ticks (u64 (r + 1)));;
    q ← lift (ld cur quantum_left);
    when (negb (q =? 0)) (lift (st cur quantum_left (u32 (q - 1))));;
    q ← lift (ld cur quantum_left);
    when (q =? 0) (lift (ss reschedule_pending 1))
  else mret tt.

Definition a_tick (scheduler now_ns : Z) : M (asched E) unit :=
  if scheduler =? NULL then mret tt
  else
    token ← lift enter_critical;
    lift (bump ticks);;
    l ← gets sleeping;
    a_tick_loop l now_ns;;
    a_account;;
    lift (leave_critical token);;
    pending ← lift (gs reschedule_pending);
    depth ← lift (gs preempt_disable_depth);
    when (negb (pending =? 0) && (depth =? 0)) (a_reschedule scheduler).

Definition a_yield (scheduler : Z) : M (asched E) unit :=
  if scheduler =? NULL then mret tt
  else
    lift (ss reschedule_pending 1);;
    depth ← lift (gs preempt_disable_depth);
    when (depth =? 0) (a_reschedule scheduler).

Definition a_prepare_block (scheduler : Z) (kind : ns_wait_kind) (key : Z) : M (asched E) unit :=
  if scheduler =? NULL then mret tt
  else
    cur ← lift (gs current);
    if (cur =? NULL) || bool_decide (kind = NS_WAIT_NONE) then mret tt
    else
      token ← lift enter_critical;
      thread ← lift (gs current);
      idl ← lift (gs idle);
      if thread =? idl then lift (leave_critical token)
      else
        lift (st thread state NS_THREAD_BLOCKED);;
        lift (st thread wait_kind kind);;
        lift (st thread wait_key key);;
        a_block_push thread;;
        lift (leave_critical token).

Definition a_commit_block (scheduler : Z) : M (asched E) unit :=
  if scheduler =? NULL then mret tt
  else
    cur ← lift (gs current);
    if cur =? NULL then mret tt
    else
      token ← lift enter_critical;
      thread ← lift (gs current);
      stt ← lift (ld thread state);
      switch_required ←
        (if bool_decide (stt = NS_THREAD_BLOCKED) then
           lift (ss reschedule_pending 1);;
           depth ← lift (gs preempt_disable_depth);
           mret (depth =? 0)
         else
           queued ← (if bool_decide (stt = NS_THREAD_READY) then a_queued thread else mret 0);
           (if negb (queued =? 0) then
              a_ready_remove thread;;
              lift (st thread state NS_THREAD_RUNNING)
            else mret tt);;
           mret false);
      lift (leave_critical token);;
      when switch_required (a_reschedule scheduler).

Definition a_block (scheduler : Z) (kind : ns_wait_kind) (key : Z) : M (asched E) unit :=
  a_prepare_block scheduler kind key;;
  a_commit_block scheduler.

Definition a_sleep_until (scheduler deadline_ns : Z) : M (asched E) unit :=
  if scheduler =? NULL then mret tt
  else
    cur ← lift (gs current);
    if cur =? NULL then mret tt
    else
      token ← lift enter_critical;
      thread ← lift (gs current);
      idl ← lift (gs idle);
      if thread =? idl then lift (leave_critical token)
      else
        lift (st thread state NS_THREAD_SLEEPING);;
        lift (st thread wake_deadline_ns deadline_ns);;
        a_sleep_insert thread deadline_ns;;
        lift (ss reschedule_pending 1);;
        lift (leave_critical token);;
        depth ← lift (gs preempt_disable_depth);
        when (depth =? 0) (a_reschedule scheduler).

Definition a_wake (scheduler : Z) (kind : ns_wait_kind) (key maximum : Z) : M (asched E) Z :=
  if (scheduler =? NULL) || bool_decide (kind = NS_WAIT_NONE) || (maximum =? 0) then mret 0
  else
    token ← lift enter_critical;
    l ← gets blocked;
    count ← a_wake_loop [] l kind key maximum 0;
    lift (leave_critical token);;
    mret count.

Definition a_wake_thread (scheduler thread : Z) : M (asched E) Z :=
  if (scheduler =? NULL) || (thread =? NULL) then mret (- NS_EINVAL)
  else
    token ← lift enter_critical;
    stt ← lift (ld thread state);
    if negb (bool_decide (stt = NS_THREAD_BLOCKED)) && negb (bool_decide (stt = NS_THREAD_SLEEPING))
    then lift (leave_critical token);; mret (- NS_EINVAL)
    else
      a_blocked_remove thread;;
      a_sleep_remove thread;;
      lift (st thread wait_kind NS_WAIT_NONE);;
      lift (st thread wait_key 0);;
      lift (st thread wake_deadline_ns 0);;
      lift (st thread state NS_THREAD_READY);;
      a_insert thread;;
      lift (bump wakeups);;
      lift (leave_critical token);;
      mret 0.

Definition a_terminate_current (scheduler : Z) : M (asched E) unit :=
  if scheduler =? NULL then mret tt
  else
    cur ← lift (gs current);
    idl ← lift (gs idle);
    if (cur =? NULL) || (cur =? idl) then mret tt
    else
      token ← lift enter_critical;
      cur ← lift (gs current);
      lift (st cur state NS_THREAD_ZOMBIE);;
      lift (ss reschedule_pending 1);;
      lift (leave_critical token);;
      depth ← lift (gs preempt_disable_depth);
      when (depth =? 0) (a_reschedule scheduler).

Definition a_preempt_disable (scheduler : Z) : M (asched E) unit :=
  lift (ns_sched_preempt_disable scheduler).

Definition a_preempt_enable (scheduler : Z) : M (asched E) unit :=
  if scheduler =? NULL then mret tt
  else
    token ← lift enter_critical;
    depth ← lift (gs preempt_disable_depth);
    when (negb (depth =? 0)) (lift (ss preempt_disable_depth (u32 (depth - 1))));;
    depth ← lift (gs preempt_disable_depth);
    pending ← lift (gs reschedule_pending);
    let should_reschedule := (depth =? 0) && negb (pending =? 0) in
    lift (leave_critical token);;
    when should_reschedule (a_reschedule scheduler).

End spec.

(** ** Simulation, step by step *)

Section refinement.
Context {E : Type}.
Implicit Types (k : kstate E) (a : asched E) (m : gmap Z ns_thread) (t p : Z).

Lemma refines_ret {A} (x : A) : refines (E := E) (mret x) (mret x).
Proof. intros k a y a' Hr [= <- <-]. by exists k. Qed.

Lemma refines_bind {A B} (m : M (kstate E) A) am (f : A -> M (kstate E) B) af :
  refines m am -> (forall x, refines (f x) (af x)) -> refines (m ≫= f) (am ≫= af).
Proof.
  intros Hm Hf k a y a' Hr. unfold mbind, M_bind.
  destruct (am a) as [[x a1]|] eqn:Ha; cbn; [|done]. intros Hy.
  destruct (Hm _ _ _ _ Hr Ha) as (k1 & -> & Hr1). cbn. by eapply Hf.
Qed.

Lemma refines_if {A} (b : bool) (m1 m2 : M (kstate E) A) am1 am2 :
  refines m1 am1 -> refines m2 am2 -> refines (if b then m1 else m2) (if b then am1 else am2).
Proof. by destruct b. Qed.

Lemma refines_when b (m : M (kstate E) unit) am :
  refines m am -> refines (when b m) (when b am).
Proof. intros. destruct b; [done|apply refines_ret]. Qed.

Lemma fld_alter {A} (f : ns_thread -> A) g m p q :
  fld f (alter g p m) q = if decide (q = p /\ valid m p) then f (g (default no_thread (m !! p)))
                          else fld f m q.
Proof.
  unfold fld, valid. destruct (decide (q = p)) as [->|Hne].
  - rewrite lookup_alter_eq. destruct (m !! p) eqn:H; cbn.
    + rewrite decide_True by (split; [done|by eexists]). done.
    + rewrite decide_False; [done|]. intros [_ [? ?]]. congruence.
  - rewrite lookup_alter_ne, decide_False by (congruence || intros []; done). done.
Qed.

Lemma valid_alter g m p q : valid (alter g p m) q <-> valid m q.
Proof. unfold valid. apply lookup_alter_is_Some. Qed.

Lemma fld_same {A} (f : ns_thread -> A) `{!Setter f} v m p q :
  (forall x : ns_thread, f (set_field f v x) = v) -> valid m p ->
  fld f (alter (set_field f v) p m) q = if decide (q = p) then v else fld f m q.
Proof.
  intros Hf Hp. rewrite fld_alter. destruct (decide (q = p)) as [->|Hne].
  - by rewrite decide_True, Hf.
  - by rewrite decide_False by (intros []; done).
Qed.

Lemma fld_other {A B} (f : ns_thread -> A) (g : ns_thread -> B) `{!Setter g} v m p q :
  (forall x : ns_thread, f (set_field g v x) = f x) ->
  fld f (alter (set_field g v) p m) q = fld f m q.
Proof.
  intros Hf. rewrite fld_alter. case_decide as H; [|done]. destruct H as [-> _]. apply Hf.
Qed.

(** Reads of link fields after a sequence of writes. *)
Ltac fields :=
  repeat first [rewrite fld_same by (done || by rewrite ?valid_alter)
               |rewrite fld_other by done].

(** The link structure depends on the link fields and the heads only. *)
Lemma linked_ext k k' r b l :
  linked k r b l -> (forall t, links <$> threads k' !! t = links <$> threads k !! t) ->
  ready_head (sched k') = ready_head (sched k) ->
  blocked_head (sched k') = blocked_head (sched k) ->
  sleep_head (sched k') = sleep_head (sched k) ->
  linked k' r b l.
Proof.
  intros [] Hl Hr Hb Hs.
  assert (Hf : forall t, links (default no_thread (threads k' !! t))
                         = links (default no_thread (threads k !! t))).
  { intros t. specialize (Hl t). destruct (threads k' !! t), (threads k !! t); cbn in *; congruence. }
  assert (Hv : forall t, valid (threads k') t <-> valid (threads k) t).
  { intros t. unfold valid. by rewrite <- (fmap_is_Some links), Hl, fmap_is_Some. }
  unfold fld, links in *. constructor.
  - apply eq_None_not_Some. intros H%Hv. destruct H. congruence.
  - rewrite Hr. eapply ring_ext; [..|done]; intros x; unfold fld; specialize (Hf x); congruence.
  - intros t Ht%Hv. rewrite <- lk_queue0 by done. unfold fld. specialize (Hf t). congruence.
  - rewrite Hb. eapply sll_ext; [|done]; intros x _; unfold fld; specialize (Hf x); congruence.
  - rewrite Hs. eapply sll_ext; [|done]; intros x _; unfold fld; specialize (Hf x); congruence.
  - intros t Ht. by apply Hv, lk_valid0.
  - done.
  - done.
  - done.
Qed.

Lemma erase_alter (g g' : ns_thread -> ns_thread) m p :
  (forall x, erase_t (g x) = g' (erase_t x)) ->
  erase_t <$> alter g p m = alter g' p (erase_t <$> m).
Proof.
  intros Hg. apply map_eq. intros q. rewrite lookup_fmap. destruct (decide (q = p)) as [->|Hne].
  - rewrite !lookup_alter_eq, lookup_fmap. destruct (m !! p); cbn; by rewrite ?Hg.
  - by rewrite !lookup_alter_ne, lookup_fmap by done.
Qed.

(** A write of a link field is invisible in the abstract state. *)
Lemma erase_alter_id (g : ns_thread -> ns_thread) m p :
  (forall x, erase_t (g x) = erase_t x) -> erase_t <$> alter g p m = erase_t <$> m.
Proof.
  intros Hg. apply map_eq. intros q. rewrite !lookup_fmap. destruct (decide (q = p)) as [->|Hne].
  - rewrite lookup_alter_eq. destruct (m !! p); cbn; by rewrite ?Hg.
  - by rewrite lookup_alter_ne by done.
Qed.

Lemma valid_nonnull k r b l t : linked k r b l -> valid (threads k) t -> t <> NULL.
Proof. intros Hl [x Hx] ->. by rewrite (lk_null _ _ _ _ Hl) in Hx. Qed.

(** *** Steps outside the queues *)

Lemma refines_gs {A} (f : ns_scheduler E -> A) :
  (forall s, f (erase_s s) = f s) -> refines (gs f) (lift (gs f)).
Proof.
  intros Hf k a x a' [Hk Hl] [= <- <-]. exists k. unfold gs, gets. rewrite Hk.
  cbn. rewrite Hf. split; [done|]. split; [done|exact Hl].
Qed.

Lemma refines_ss {T} (f : ns_scheduler E -> T) `{!Setter f} v :
  (forall s, erase_s (set_field f v s) = set_field f v (erase_s s)) ->
  (forall s, (ready_head (set_field f v s), blocked_head (set_field f v s),
              sleep_head (set_field f v s)) = (ready_head s, blocked_head s, sleep_head s)) ->
  refines (ss f v) (lift (ss f v)).
Proof.
  intros Hf Hh k a x a' [Hk Hl] [= <- <-]. eexists. split; [done|].
  specialize (Hh (sched k)). injection Hh as Hr Hb Hs. split.
  - cbn. rewrite Hk. cbn. unfold erase. cbn. by rewrite Hf.
  - by eapply linked_ext.
Qed.

Lemma refines_ld {A} p (f : ns_thread -> A) :
  (forall x, f (erase_t x) = f x) -> refines (E := E) (ld p f) (lift (ld p f)).
Proof.
  intros Hf k a x a' [Hk Hl]. unfold lift, ld. rewrite Hk. cbn. rewrite lookup_fmap.
  destruct (threads k !! p) as [t|]; cbn; [|done]. intros [= <- <-]. exists k.
  rewrite Hf. split; [done|]. by split.
Qed.

Lemma refines_st {T} p (f : ns_thread -> T) `{!Setter f} v :
  (forall x, erase_t (set_field f v x) = set_field f v (erase_t x)) ->
  (forall x, links (set_field f v x) = links x) ->
  refines (E := E) (st p f v) (lift (st p f v)).
Proof.
  intros Hf Hh k a x a' [Hk Hl]. unfold lift, st. rewrite Hk. cbn. rewrite lookup_fmap.
  destruct (threads k !! p) as [t|] eqn:Hp; cbn; [|done]. intros [= <- <-]. eexists.
  split; [done|]. split.
  - cbn. unfold erase. cbn. f_equal. by rewrite (erase_alter _ (set_field f v)).
  - eapply linked_ext; [done| |done..]. intros q. cbn. destruct (decide (q = p)) as [->|Hne].
    + rewrite lookup_alter_eq, Hp. cbn. by rewrite Hh.
    + by rewrite lookup_alter_ne.
Qed.

Lemma refines_bump (f : ns_scheduler_stats -> Z) `{!Setter f} :
  refines (E := E) (bump f) (lift (bump f)).
Proof.
  intros k a x a' [Hk Hl] [= <- <-]. eexists. split; [done|]. split; [cbn; by rewrite Hk|].
  by eapply linked_ext.
Qed.

Lemma refines_enter : refines (E := E) enter_critical (lift enter_critical).
Proof.
  intros k a x a' [Hk Hl]. unfold lift, enter_critical. rewrite Hk. cbn.
  destruct (critical_enter _) as [f|]; [destruct (f (env k)) as [token e]|];
    cbn; intros [= <- <-]; eexists; (split; [done|]; by split; [|eapply linked_ext]).
Qed.

Lemma refines_leave token : refines (E := E) (leave_critical token) (lift (leave_critical token)).
Proof.
  intros k a x a' [Hk Hl]. unfold lift, leave_critical. rewrite Hk. cbn.
  destruct (critical_leave _) as [f|];
    cbn; intros [= <- <-]; eexists; (split; [done|]; by split; [|eapply linked_ext]).
Qed.

Lemma refines_call_switch p q r :
  refines (E := E) (call_switch p q r) (lift (call_switch p q r)).
Proof.
  intros k a x a' [Hk Hl]. unfold lift, call_switch. rewrite Hk. cbn.
  destruct (switch_context _) as [f|];
    cbn; intros [= <- <-]; eexists; (split; [done|]; by split; [|eapply linked_ext]).
Qed.

Lemma refines_space p : refines (E := E) (address_space_of p) (lift (address_space_of p)).
Proof.
  intros k a x a' [Hk Hl]. unfold lift, address_space_of. rewrite Hk. cbn.
  destruct (p =? NULL); [|destruct (spaces k !! p)];
    cbn; try done; intros [= <- <-]; eexists; (split; [done|]; by split).
Qed.

(** *** Running the code *)

Lemma valid_erase m p : valid (erase_t <$> m) p <-> valid m p.
Proof. unfold valid. rewrite lookup_fmap. apply fmap_is_Some. Qed.

Lemma ld_run {A} p (f : ns_thread -> A) k :
  valid (threads k) p -> ld p f k = Some (fld f (threads k) p, k).
Proof. intros [t Ht]. unfold ld, fld. by rewrite Ht. Qed.

Lemma st_run {T} p (f : ns_thread -> T) `{!Setter f} v k :
  valid (threads k) p ->
  st p f v k = Some (tt, k <| threads := alter (set_field f v) p (threads k) |>).
Proof. intros [t Ht]. unfold st. by rewrite Ht. Qed.

Lemma bind_run {S A B} (m : M S A) (f : A -> M S B) s :
  (m ≫= f) s = match m s with Some (x, s') => f x s' | None => None end.
Proof. by unfold mbind, M_bind, mbind, option_bind; destruct (m s) as [[]|]. Qed.

Lemma ret_run {S A} (x : A) (s : S) : (mret x : M S A) s = Some (x, s).
Proof. done. Qed.

Lemma check_run {S} (P : S -> Prop) `{!forall s, Decision (P s)} s x s' :
  check P s = Some (x, s') -> P s /\ s' = s.
Proof. unfold check. case_decide; [|done]. by intros [= <- <-]. Qed.

Lemma gs_run {A} (f : ns_scheduler E -> A) k : gs f k = Some (f (sched k), k).
Proof. done. Qed.

Lemma ss_run {T} (f : ns_scheduler E -> T) `{!Setter f} v k :
  ss f v k = Some (tt, k <| sched := set_field f v (sched k) |>).
Proof. done. Qed.

(** Runs loads and stores at valid addresses. *)
Ltac solve_valid :=
  cbn [threads set_field set_threads set_sched]; rewrite ?valid_alter; done.
Ltac step :=
  first [rewrite bind_run | rewrite ret_run | rewrite gs_run | rewrite ss_run
        |rewrite ld_run by solve_valid | rewrite st_run by solve_valid].
Ltac run :=
  repeat (step; cbn [threads sched set_threads set_sched set_field
                     ready_head blocked_head sleep_head]).

Lemma a_insert_inv t a x a' :
  a_insert t a = Some (x, a') ->
  valid (threads (kernel a)) t /\ (t ∉ ready a) /\ a' = (a <| ready := ready a ++ [t] |>).
Proof.
  unfold a_insert, a_valid. rewrite bind_run. destruct (check _ a) as [[[] a1]|] eqn:H1; [|done].
  apply check_run in H1 as [Hv ->]. rewrite bind_run.
  destruct (check _ a) as [[[] a1]|] eqn:H1; [|done]. apply check_run in H1 as [Hn ->].
  by intros [= <- <-].
Qed.

(** *** The ready queue *)

(** Only the ready queue changed. *)
Lemma linked_ready k k' r r' b l :
  linked k r b l ->
  (forall t, valid (threads k') t <-> valid (threads k) t) ->
  (forall t, fld wait_next (threads k') t = fld wait_next (threads k) t) ->
  (forall t, fld sleep_next (threads k') t = fld sleep_next (threads k) t) ->
  blocked_head (sched k') = blocked_head (sched k) ->
  sleep_head (sched k') = sleep_head (sched k) ->
  ring (fld run_next (threads k')) (fld run_prev (threads k')) r' (ready_head (sched k')) ->
  (forall t, valid (threads k) t ->
     fld on_run_queue (threads k') t = b2z (bool_decide (t ∈ r'))) ->
  (forall t, t ∈ r' -> valid (threads k) t) -> NoDup r' ->
  linked k' r' b l.
Proof.
  intros [] Hv Hw Hs Hbh Hsh Hr Hq Hval Hnd. constructor; try done.
  - apply eq_None_not_Some. intros H%Hv. destruct H. congruence.
  - intros t H%Hv. by apply Hq.
  - rewrite Hbh. eapply sll_ext; [|done]; intros; apply Hw.
  - rewrite Hsh. eapply sll_ext; [|done]; intros; apply Hs.
  - intros t [Ht|Ht]; apply Hv; [by apply Hval|]. apply lk_valid0. by right.
Qed.

(** The side conditions of a change of links. *)
Ltac links_only :=
  match goal with
  | |- forall t, valid _ t <-> valid _ t => intros ?; cbn; by rewrite ?valid_alter
  | |- forall t, fld _ _ t = fld _ _ t => intros ?; cbn; by fields
  | |- _ = erase _ => unfold erase; cbn; by rewrite ?erase_alter_id by done
  | |- _ => done
  end.

Lemma bool_decide_b2z_snoc t x r :
  b2z (bool_decide (x ∈ r ++ [t])) = if decide (x = t) then 1 else b2z (bool_decide (x ∈ r)).
Proof.
  case_decide as H; [subst; by rewrite bool_decide_eq_true_2 by set_solver|].
  f_equal. apply bool_decide_ext. set_solver.
Qed.

Lemma refines_insert t : refines (E := E) (ready_insert_tail t) (a_insert t).
Proof.
  intros k a [] a' [Hk Hl] (Hv & Hn & ->)%a_insert_inv. rewrite Hk in Hv.
  apply (proj1 (valid_erase (threads k) t)) in Hv.
  assert (Hnd : NoDup (ready a ++ [t])).
  { apply NoDup_app. split_and!; [apply Hl|set_solver|apply NoDup_singleton]. }
  assert (Hval : forall x, x ∈ ready a ++ [t] -> valid (threads k) x).
  { intros x [Hx| ->%list_elem_of_singleton]%elem_of_app; [|done]. apply Hl. by left. }
  destruct (ready a) as [|h r] eqn:Hr; pose proof (lk_ring _ _ _ _ Hl) as Hring.
  - cbn in Hring. unfold ready_insert_tail. run. rewrite Hring. cbn [Z.eqb NULL]. run.
    eexists. split; [done|]. split; [refine (eq_trans Hk _); links_only|].
    cbn [ready blocked sleeping set_field set_ready].
    eapply linked_ready; [done|links_only..| | |done|done].
    + cbn -[set_field]. fields. by rewrite !decide_True by done.
    + intros x Hx. rewrite bool_decide_b2z_snoc. cbn -[set_field]. fields.
      by rewrite (lk_queue _ _ _ _ Hl).
  - assert (Hh : ready_head (sched k) = h) by apply Hring. rewrite Hh in Hring.
    assert (Hvh : valid (threads k) h) by (apply Hval; left).
    assert (Hnz : h <> NULL) by by eapply valid_nonnull.
    assert (Hvq : valid (threads k) (fld run_prev (threads k) h)).
    { apply Hval, elem_of_app. left. by eapply ring_prev_in. }
    unfold ready_insert_tail. run. rewrite Hh, (proj2 (Z.eqb_neq h NULL) Hnz). run.
    eexists. split; [done|]. split; [refine (eq_trans Hk _); links_only|].
    cbn [ready blocked sleeping set_field set_ready].
    eapply linked_ready; [done|links_only..| | |done|done].
    + cbn -[set_field app ring]. rewrite Hh. eapply ring_ext; [| |eapply (ring_insert _ _ h r t); [apply Hl|done..]];
        intros x; cbn -[set_field]; fields; by unfold upd.
    + intros x Hx. rewrite bool_decide_b2z_snoc. cbn -[set_field]. fields.
      by rewrite (lk_queue _ _ _ _ Hl).
Qed.

Lemma a_valid_inv {A} t (am : M (asched E) A) a x a' :
  (a_valid t;; am) a = Some (x, a') -> valid (threads (kernel a)) t /\ am a = Some (x, a').
Proof.
  unfold a_valid. rewrite bind_run. destruct (check _ a) as [[[] a1]|] eqn:H; [|done].
  apply check_run in H as [Hv ->]. done.
Qed.

(** A thread on the queue, and its neighbours. *)
Lemma ring_neighbours k r b l l1 t l2 :
  linked k r b l -> r = l1 ++ t :: l2 -> l1 ++ l2 <> [] ->
  let n := fld run_next (threads k) t in
  let q := fld run_prev (threads k) t in
  n <> t /\ q <> t /\ valid (threads k) n /\ valid (threads k) q /\
  ring (upd (upd (fld run_next (threads k)) q n) t NULL)
       (upd (upd (fld run_prev (threads k)) n q) t NULL) (l1 ++ l2)
       (if decide (ready_head (sched k) = t) then n else ready_head (sched k)).
Proof.
  intros Hl -> Hne n q. pose proof (lk_nodup_r _ _ _ _ Hl) as Hnd.
  destruct (ring_remove _ _ l1 l2 t _ n q Hnd (lk_ring _ _ _ _ Hl) Hne) as (Hr & Hn & Hq);
    [done|done|].
  assert (Ht : t ∉ l1 ++ l2).
  { apply NoDup_app in Hnd as (_ & Hd & [Ht _]%NoDup_cons). intros [H|H]%elem_of_app; [|done].
    apply (Hd t H). left. }
  assert (Hv : forall x, x ∈ l1 ++ l2 -> valid (threads k) x).
  { intros x Hx. apply Hl. left. set_solver. }
  split_and!; [congruence|congruence|by apply Hv|by apply Hv|by apply ring_upd].
Qed.

Lemma bool_decide_b2z_without t x r :
  b2z (bool_decide (x ∈ without t r)) = if decide (x = t) then 0 else b2z (bool_decide (x ∈ r)).
Proof.
  case_decide as H.
  - rewrite bool_decide_eq_false_2; [done|]. rewrite elem_of_without. naive_solver.
  - f_equal. apply bool_decide_ext. rewrite elem_of_without. naive_solver.
Qed.

Lemma linked_without k k' t r b l :
  linked k r b l ->
  (forall t, valid (threads k') t <-> valid (threads k) t) ->
  (forall t, fld wait_next (threads k') t = fld wait_next (threads k) t) ->
  (forall t, fld sleep_next (threads k') t = fld sleep_next (threads k) t) ->
  blocked_head (sched k') = blocked_head (sched k) ->
  sleep_head (sched k') = sleep_head (sched k) ->
  (forall x, fld on_run_queue (threads k') x
             = if decide (x = t) then 0 else fld on_run_queue (threads k) x) ->
  ring (fld run_next (threads k')) (fld run_prev (threads k')) (without t r)
    (ready_head (sched k')) ->
  linked k' (without t r) b l.
Proof.
  intros Hl Hv Hw Hs Hbh Hsh Hq Hr. eapply linked_ready; try done.
  - intros x Hx. rewrite Hq, bool_decide_b2z_without, (lk_queue _ _ _ _ Hl) by done. done.
  - intros x [_ Hx]%elem_of_without. apply Hl. by left.
  - apply without_NoDup, Hl.
Qed.

Lemma refines_ready_remove t : refines (E := E) (ready_remove t) (a_ready_remove t).
Proof.
  intros k a [] a' [Hk Hl] [Hv [= <-]]%a_valid_inv. rewrite Hk in Hv.
  apply (proj1 (valid_erase (threads k) t)) in Hv.
  unfold ready_remove. run. rewrite (lk_queue _ _ _ _ Hl) by done.
  destruct (decide (t ∈ ready a)) as [Ht|Ht].
  2:{ rewrite bool_decide_eq_false_2 by done. exists k. split; [done|].
      split; [done|]. cbn. by rewrite without_notin. }
  rewrite bool_decide_eq_true_2 by done. cbn [b2z Z.eqb Pos.eqb]. run.
  apply list_elem_of_split in Ht as (l1 & l2 & Hr).
  pose proof (lk_nodup_r _ _ _ _ Hl) as Hnd. rewrite Hr in Hnd.
  assert (Hw : without t (ready a) = l1 ++ l2).
  { rewrite Hr. apply NoDup_app in Hnd as (_ & Hd & [Ht _]%NoDup_cons).
    apply without_split; [|done]. intros H. apply (Hd t H). left. }
  destruct (decide (l1 ++ l2 = [])) as [He|Hne].
  - apply app_nil in He as [-> ->]. pose proof (lk_ring _ _ _ _ Hl) as Hring.
    rewrite Hr in Hring. apply ring_single in Hring as [_ ->]. rewrite Z.eqb_refl. run.
    eexists. split; [done|]. split; [refine (eq_trans Hk _); links_only|].
    cbn [ready blocked sleeping set_field set_ready].
    eapply linked_without; [done|links_only..| |rewrite Hw; done].
    intros x. cbn -[set_field]. by fields.
  - destruct (ring_neighbours _ _ _ _ _ _ _ Hl Hr Hne) as (Hn & Hq & Hvn & Hvq & Hring).
    rewrite (proj2 (Z.eqb_neq _ _) Hn). run. fields. rewrite (decide_False (P := t = _)) by done.
    set (n := fld run_next (threads k) t) in *. set (q := fld run_prev (threads k) t) in *.
    run. destruct (Z.eqb_spec (ready_head (sched k)) t) as [Hh|Hh];
      [rewrite decide_True in Hring by done|rewrite decide_False in Hring by done];
      run; fields; rewrite ?(decide_False (P := t = q)) by done;
      (eexists; split; [done|]; split; [refine (eq_trans Hk _); links_only|]);
      cbn [ready blocked sleeping set_field set_ready];
      (eapply linked_without; [done|links_only..| |rewrite Hw];
       [intros x; cbn -[set_field]; by fields|]);
      (eapply ring_ext; [| |exact Hring]; intros x; cbn -[set_field]; fields; by unfold upd).
Qed.

Lemma refines_ready_pop : refines (E := E) ready_pop a_pop.
Proof.
  intros k a x a' [Hk Hl] [= <- <-]. unfold ready_pop. run.
  pose proof (lk_ring _ _ _ _ Hl) as Hring. destruct (ready a) as [|h r] eqn:Hr.
  - cbn in Hring. rewrite Hring. exists k. split; [done|]. by split.
  - assert (ready_head (sched k) = h) as -> by apply Hring.
    assert (Hvh : valid (threads k) h) by (apply Hl; left; left).
    assert (Hnz : h <> NULL) by by eapply valid_nonnull.
    rewrite (proj2 (Z.eqb_neq h NULL) Hnz). cbn [negb].
    destruct (refines_ready_remove h k a tt (a <| ready := r |>)) as (k' & -> & Hrep).
    { by rewrite <- Hr in Hl. }
    { unfold a_ready_remove, a_valid. rewrite bind_run. unfold check.
      rewrite decide_True by (rewrite Hk; by apply valid_erase).
      unfold modify. rewrite Hr. do 4 f_equal.
      pose proof (lk_nodup_r _ _ _ _ Hl) as [Hn _]%NoDup_cons.
      apply (without_split h [] r); set_solver. }
    by exists k'.
Qed.

(** *** Lists walked by a cursor

    Shared by the blocked list and the sleep list: [hd] is the list head and
    [nx] the link field. *)

Ltac kfields :=
  repeat first
    [progress change (threads (set_field threads ?m ?k)) with m
    |progress change (sched (set_field sched ?s ?k)) with s
    |progress change (sched (set_field threads ?m ?k)) with (sched k)
    |progress change (threads (set_field sched ?s ?k)) with (threads k)].

Section walk.
Context (hd : ns_scheduler E -> Z) (nx : ns_thread -> Z) `{!Setter hd} `{!Setter nx}.
Hypothesis set_hd : forall v s, hd (set_field hd v s) = v.
Hypothesis set_nx : forall v x, nx (set_field nx v x) = v.

(** States that differ in the head and the links of this list only. *)
Inductive relink k : kstate E -> Prop :=
  | relink_refl : relink k k
  | relink_hd k' v : relink k k' -> relink k (k' <| sched := set_field hd v (sched k') |>)
  | relink_nx k' p v : relink k k' ->
      relink k (k' <| threads := alter (set_field nx v) p (threads k') |>).

Lemma relink_fld {A} (f : ns_thread -> A) k k' p :
  (forall v x, f (set_field nx v x) = f x) -> relink k k' ->
  fld f (threads k') p = fld f (threads k) p.
Proof.
  intros Hf. induction 1 as [|k' v _ IH|k' q v _ IH]; [done|exact IH|].
  kfields. by rewrite fld_other.
Qed.

Lemma relink_valid k k' p : relink k k' -> valid (threads k') p <-> valid (threads k) p.
Proof.
  induction 1 as [|k' v _ IH|k' q v _ IH]; [done|exact IH|]. kfields.
  by rewrite valid_alter.
Qed.

Lemma relink_sched {A} (g : ns_scheduler E -> A) k k' :
  (forall v s, g (set_field hd v s) = g s) -> relink k k' -> g (sched k') = g (sched k).
Proof.
  intros Hg. induction 1 as [|k' v _ IH|k' q v _ IH]; [done| |exact IH].
  kfields. by rewrite Hg.
Qed.

Lemma relink_erase k k' :
  (forall v s, erase_s (set_field hd v s) = erase_s s) ->
  (forall v x, erase_t (set_field nx v x) = erase_t x) ->
  relink k k' -> erase k' = erase k.
Proof.
  intros Hs Ht. induction 1 as [|k' v _ IH|k' q v _ IH]; [done| |]; rewrite <- IH;
    unfold erase; kfields; cbn [spaces env set_field set_sched set_threads].
  - by rewrite Hs.
  - by rewrite erase_alter_id.
Qed.

Definition lst k l : Prop := sll (fld nx (threads k)) l (hd (sched k)).

(** The cursor that holds the pointer to what follows [l1]. *)
Definition cursor_at (l1 : list Z) (c : cursor) : Prop :=
  match c with
  | at_head => l1 = []
  | at_next p => exists l, l1 = l ++ [p]
  end.

Lemma rd_cursor_run k l1 l2 c :
  lst k (l1 ++ l2) -> cursor_at l1 c -> (forall x, x ∈ l1 -> valid (threads k) x) ->
  exists v, rd_cursor hd nx c k = Some (v, k) /\ sll (fld nx (threads k)) l2 v.
Proof.
  clear set_hd set_nx. intros Hl Hc Hv. destruct c as [|p]; cbn in Hc |- *.
  - subst l1. by exists (hd (sched k)).
  - destruct Hc as [l ->]. exists (fld nx (threads k) p).
    rewrite ld_run by (apply Hv; set_solver). split; [done|].
    unfold lst in Hl. rewrite <- app_assoc in Hl. by eapply sll_at.
Qed.

Lemma wr_cursor_run k l1 l2 l2' c v :
  lst k (l1 ++ l2) -> cursor_at l1 c -> (forall x, x ∈ l1 -> valid (threads k) x) ->
  NoDup (l1 ++ l2') -> sll (fld nx (threads k)) l2' v ->
  exists k', wr_cursor hd nx c v k = Some (tt, k') /\ lst k' (l1 ++ l2') /\ relink k k'.
Proof.
  intros Hl Hc Hv Hnd Hs. destruct c as [|p]; cbn in Hc |- *.
  - subst l1. eexists. split; [done|]. split; [|by constructor; constructor].
    unfold lst. kfields. by rewrite set_hd.
  - destruct Hc as [l ->]. rewrite st_run by (apply Hv; set_solver).
    eexists. split; [done|]. split; [|by constructor; constructor].
    unfold lst in *. kfields.
    rewrite <- !app_assoc in *. apply NoDup_app in Hnd as (_ & Hd & [Hn _]%NoDup_cons).
    apply (sll_ext (upd (fld nx (threads k)) p v)).
    { intros x _. by rewrite fld_same by (done || apply Hv; set_solver). }
    eapply sll_redirect; [done| |done|done]. intros H. apply (Hd p H). left.
Qed.

Lemma cursor_at_next l1 p : cursor_at (l1 ++ [p]) (at_next p).
Proof. by exists l1. Qed.

Lemma remove_loop_run k t l1 l2 c fuel :
  lst k (l1 ++ l2) -> cursor_at l1 c -> NoDup (l1 ++ l2) -> t ∉ l1 -> (length l2 < fuel)%nat ->
  (forall x, x ∈ l1 ++ l2 -> valid (threads k) x /\ x <> NULL) ->
  exists k', remove_loop hd nx fuel t c k = Some (tt, k') /\
    lst k' (without t (l1 ++ l2)) /\ relink k k'.
Proof.
  revert l1 c fuel. induction l2 as [|y l2 IH]; intros l1 c fuel Hl Hc Hnd Ht Hf Hv;
    (destruct fuel as [|fuel]; [cbn in Hf; lia|]); cbn [remove_loop]; rewrite bind_run;
    (edestruct rd_cursor_run as (v & -> & Hs); [exact Hl|done|intros; apply Hv; set_solver|]).
  - cbn in Hs. subst v. cbn. exists k. rewrite app_nil_r in *.
    rewrite without_notin by done. split_and!; [done|done|constructor].
  - destruct Hs as (-> & Hy & Hs). rewrite (proj2 (Z.eqb_neq y NULL) Hy).
    destruct (Z.eqb_spec y t) as [->|Hne].
    + assert (Hvt : valid (threads k) t) by (apply Hv; set_solver).
      assert (Hn2 : t ∉ l2) by (by apply NoDup_app in Hnd as (_ & _ & [? _]%NoDup_cons)).
      rewrite bind_run, ld_run, bind_run by done.
      edestruct (wr_cursor_run k l1 (t :: l2) l2) as (k1 & -> & Hl1 & Hr1);
        [done|done|intros; apply Hv; set_solver| |done|].
      { apply NoDup_app in Hnd as (? & Hd & [_ ?]%NoDup_cons).
        apply NoDup_app. split_and!; [done|set_solver|done]. }
      rewrite st_run by by apply (relink_valid k). eexists. split; [done|].
      rewrite without_split by done. split; [|by constructor].
      unfold lst in *. kfields. eapply sll_ext; [|exact Hl1]. intros x Hx.
      rewrite fld_same by (done || by apply (relink_valid k)). rewrite decide_False; [done|].
      intros ->. set_solver.
    + assert (Happ : l1 ++ y :: l2 = (l1 ++ [y]) ++ l2) by by rewrite <- app_assoc.
      rewrite Happ in *. apply IH; [done|apply cursor_at_next|done| |cbn in Hf; lia|done].
      intros [H|H%list_elem_of_singleton]%elem_of_app; [done|congruence].
Qed.
End walk.

(** Iterations of [walk_fuel] suffice. *)
Lemma distinct_valid m l : NoDup l -> (forall x, x ∈ l -> valid m x) -> (length l <= size m)%nat.
Proof.
  intros Hnd Hv. rewrite <- size_dom, <- (size_list_to_set (C := gset Z) l) by done.
  apply subseteq_size. intros x Hx%elem_of_list_to_set. by apply elem_of_dom, Hv.
Qed.

Lemma linked_nonnull k r b l x :
  linked k r b l -> x ∈ r \/ x ∈ b \/ x ∈ l -> valid (threads k) x /\ x <> NULL.
Proof.
  intros Hl Hx. assert (H : valid (threads k) x) by by apply Hl. split; [done|].
  by eapply valid_nonnull.
Qed.

(** Only the blocked list, respectively the sleep list, changed. *)
Lemma linked_blocked k k' r b b' l :
  linked k r b l -> relink blocked_head wait_next k k' -> lst blocked_head wait_next k' b' ->
  NoDup b' -> (forall x, x ∈ b' -> valid (threads k) x) ->
  linked k' r b' l /\ erase k' = erase k.
Proof.
  intros Hl Hr Hb Hnd Hv. split; [|by apply (relink_erase blocked_head wait_next)].
  destruct Hl. constructor; try done.
  - apply eq_None_not_Some. intros H. apply (relink_valid _ _ _ _ _ Hr) in H. destruct H. congruence.
  - rewrite (relink_sched blocked_head wait_next ready_head k k') by done.
    eapply ring_ext; [| |done]; intros x; by apply (relink_fld blocked_head wait_next).
  - intros t Ht. rewrite (relink_fld blocked_head wait_next on_run_queue k k' t) by done. apply lk_queue0.
    by apply (relink_valid _ _ _ _ _ Hr).
  - rewrite (relink_sched blocked_head wait_next sleep_head k k') by done.
    eapply sll_ext; [|done]; intros x _; by apply (relink_fld blocked_head wait_next).
  - intros t Ht. apply (relink_valid _ _ _ _ _ Hr). naive_solver.
Qed.

Lemma linked_sleep k k' r b l l' :
  linked k r b l -> relink sleep_head sleep_next k k' -> lst sleep_head sleep_next k' l' ->
  NoDup l' -> (forall x, x ∈ l' -> valid (threads k) x) ->
  linked k' r b l' /\ erase k' = erase k.
Proof.
  intros Hl Hr Hb Hnd Hv. split; [|by apply (relink_erase sleep_head sleep_next)].
  destruct Hl. constructor; try done.
  - apply eq_None_not_Some. intros H. apply (relink_valid _ _ _ _ _ Hr) in H. destruct H. congruence.
  - rewrite (relink_sched sleep_head sleep_next ready_head k k') by done.
    eapply ring_ext; [| |done]; intros x; by apply (relink_fld sleep_head sleep_next).
  - intros t Ht. rewrite (relink_fld sleep_head sleep_next on_run_queue k k' t) by done. apply lk_queue0.
    by apply (relink_valid _ _ _ _ _ Hr).
  - rewrite (relink_sched sleep_head sleep_next blocked_head k k') by done.
    eapply sll_ext; [|done]; intros x _; by apply (relink_fld sleep_head sleep_next).
  - intros t Ht. apply (relink_valid _ _ _ _ _ Hr). naive_solver.
Qed.

Lemma refines_blocked_remove t : refines (E := E) (blocked_remove t) (a_blocked_remove t).
Proof.
  intros k a [] a' [Hk Hl] [= <-]. unfold blocked_remove, walk_fuel. rewrite bind_run.
  pose proof (fun H1 H2 => remove_loop_run blocked_head wait_next H1 H2 k t [] (blocked a) at_head
    (S (size (threads k)))) as Hrun.
  destruct Hrun as (k' & Hrun & Hb & Hr); [done|done|apply Hl|done|apply Hl|set_solver| | |].
  - apply Nat.lt_succ_r, distinct_valid; [apply Hl|]. intros x Hx. apply Hl. auto.
  - intros x Hx. eapply linked_nonnull; [done|]. auto.
  - exists k'. split; [exact Hrun|].
    destruct (linked_blocked k k' _ _ (without t (blocked a)) _ Hl Hr) as [Hl' He]; [done| | |].
    + apply without_NoDup, Hl.
    + intros x [_ Hx]%elem_of_without. apply Hl. auto.
    + split; [|done]. rewrite He. exact Hk.
Qed.

Lemma refines_sleep_remove t : refines (E := E) (sleep_remove t) (a_sleep_remove t).
Proof.
  intros k a [] a' [Hk Hl] [= <-]. unfold sleep_remove, walk_fuel. rewrite bind_run.
  pose proof (fun H1 H2 => remove_loop_run sleep_head sleep_next H1 H2 k t [] (sleeping a) at_head
    (S (size (threads k)))) as Hrun.
  destruct Hrun as (k' & Hrun & Hb & Hr); [done|done|apply Hl|done|apply Hl|set_solver| | |].
  - apply Nat.lt_succ_r, distinct_valid; [apply Hl|]. intros x Hx. apply Hl. auto.
  - intros x Hx. eapply linked_nonnull; [done|]. auto.
  - exists k'. split; [exact Hrun|].
    destruct (linked_sleep k k' _ _ _ (without t (sleeping a)) Hl Hr) as [Hl' He]; [done| | |].
    + apply without_NoDup, Hl.
    + intros x [_ Hx]%elem_of_without. apply Hl. auto.
    + split; [|done]. rewrite He. exact Hk.
Qed.

(** *** The loops *)

Lemma refines_check {A} (P : asched E -> Prop) `{!forall a, Decision (P a)} (m : M (kstate E) A) am :
  (forall k a x a', rep k a -> P a -> am a = Some (x, a') ->
     exists k', m k = Some (x, k') /\ rep k' a') ->
  refines m (check P;; am).
Proof.
  intros Hm k a x a' Hr. rewrite bind_run. unfold check. case_decide; [|done]. by apply Hm.
Qed.

Lemma refines_use {A} (m : M (kstate E) A) am k a x a' :
  refines m am -> rep k a -> am a = Some (x, a') -> exists k', m k = Some (x, k') /\ rep k' a'.
Proof. intros H. apply H. Qed.

(** Simulation of the code that touches no queue, by structure. *)
Ltac sim_prim :=
  first
    [ apply refines_ret | apply refines_insert | apply refines_ready_remove
    | apply refines_ready_pop | apply refines_blocked_remove | apply refines_sleep_remove
    | apply refines_bump | apply refines_enter | apply refines_leave
    | apply refines_call_switch | apply refines_space
    | apply refines_gs; [done] | apply refines_ss; done
    | apply refines_ld; [done] | apply refines_st; done | assumption ].
Ltac sim :=
  repeat (cbn beta zeta; first
    [ sim_prim
    | apply refines_bind; [|intros ?]
    | apply refines_when
    | apply refines_if ]).

(** A load of the specification is the load of the code. *)
Lemma rep_ld {A} k a p (f : ns_thread -> A) x a' :
  (forall y, f (erase_t y) = f y) -> rep k a -> lift (ld p f) a = Some (x, a') ->
  a' = a /\ ld p f k = Some (x, k) /\ valid (threads k) p /\ fld f (threads k) p = x.
Proof.
  intros Hf [Hk _]. unfold lift, ld, fld, valid. rewrite Hk. cbn. rewrite lookup_fmap.
  destruct (threads k !! p) as [y|]; cbn; [|done]. intros [= <- <-]. rewrite Hf.
  split_and!; [|done|by eexists|done]. destruct a. cbn in *. by subst.
Qed.

Lemma bind_inv {S A B} (m : M S A) (f : A -> M S B) s y s' :
  (m ≫= f) s = Some (y, s') -> exists x s1, m s = Some (x, s1) /\ f x s1 = Some (y, s').
Proof. rewrite bind_run. destruct (m s) as [[x s1]|]; [|done]. by exists x, s1. Qed.

(** Taking the first sleeper off the list. *)
Lemma sleep_pop_run k a t l :
  rep k a -> sleeping a = t :: l ->
  exists k1 k2, ss sleep_head (fld sleep_next (threads k) t) k = Some (tt, k1) /\
    st t sleep_next NULL k1 = Some (tt, k2) /\ rep k2 (a <| sleeping := l |>).
Proof.
  intros [Hk Hl] Hs. rewrite Hs in Hl. assert (Hv : valid (threads k) t) by (apply Hl; set_solver).
  eexists _, _. split; [done|]. split; [by apply st_run|].
  pose proof (lk_sleep _ _ _ _ Hl) as (_ & _ & Hsl).
  pose proof (lk_nodup_l _ _ _ _ Hl) as [Hn Hnd]%NoDup_cons.
  edestruct (linked_sleep k) as [Hl' He]; [exact Hl| | |exact Hnd| |].
  - eapply (relink_nx sleep_head sleep_next k _ t NULL),
      (relink_hd sleep_head sleep_next k _ (fld sleep_next (threads k) t)), relink_refl.
  - unfold lst. kfields. eapply sll_ext; [|exact Hsl]. intros x Hx. fields.
    rewrite decide_False by congruence. done.
  - intros x Hx. apply Hl. set_solver.
  - split; [exact (eq_trans Hk (eq_sym He))|exact Hl'].
Qed.

Lemma refines_tick_loop l fuel now :
  (length l < fuel)%nat -> refines (E := E) (tick_loop fuel now) (a_tick_loop l now).
Proof.
  revert fuel. induction l as [|t l IH]; intros [|fuel] Hf; [cbn in Hf; lia| |cbn in Hf; lia|];
    cbn [tick_loop a_tick_loop]; apply refines_check; intros k a x a' Hrep Hs Ha;
    pose proof Hrep as [Hk Hl]; rewrite Hs in Hl; pose proof (lk_sleep _ _ _ _ Hl) as Hsl.
  - cbn in Hsl. run. rewrite Hsl. cbn. exists k. injection Ha as <- <-. done.
  - destruct Hsl as (Hh & Hnz & Hsl). run. rewrite Hh, (proj2 (Z.eqb_neq t NULL) Hnz).
    apply bind_inv in Ha as (d & a1 & Hd & Ha). apply (rep_ld k) in Hd as (-> & Hd & Hv & _); [|done..].
    rewrite bind_run, Hd. destruct (d <=? now).
    + destruct (sleep_pop_run k a t l Hrep Hs) as (k1 & k2 & Hss & Hst & Hrep2).
      rewrite bind_run, ld_run, bind_run, Hss, bind_run, Hst by done.
      apply bind_inv in Ha as (? & ? & [= <- <-] & Ha). revert Ha. apply refines_use; [|exact Hrep2].
      assert (refines (tick_loop fuel now) (a_tick_loop l now)) by (apply IH; cbn in Hf; lia).
      sim.
    + injection Ha as <- <-. by exists k.
Qed.

(** Taking the waiter behind [l1] off the list. *)
Lemma blocked_cut_run k a t l1 l2 c :
  rep k a -> blocked a = l1 ++ t :: l2 -> cursor_at l1 c ->
  exists k1 k2,
    wr_cursor blocked_head wait_next c (fld wait_next (threads k) t) k = Some (tt, k1) /\
    st t wait_next NULL k1 = Some (tt, k2) /\ rep k2 (a <| blocked := l1 ++ l2 |>).
Proof.
  intros [Hk Hl] Hs Hc. rewrite Hs in Hl. pose proof (lk_nodup_b _ _ _ _ Hl) as Hnd.
  pose proof (lk_blocked _ _ _ _ Hl) as Hb.
  assert (Hv : forall x, x ∈ l1 ++ t :: l2 -> valid (threads k) x) by (intros; apply Hl; auto).
  assert (NoDup (l1 ++ l2) /\ t ∉ l1 ++ l2) as [Hnd' Hn].
  { apply NoDup_app in Hnd as (? & Hd & [? ?]%NoDup_cons). split.
    - apply NoDup_app. split_and!; [done|set_solver|done].
    - intros [Hi|Hi]%elem_of_app; [|done]. apply (Hd t Hi). left. }
  pose proof (fun H1 H2 => wr_cursor_run blocked_head wait_next H1 H2 k l1 (t :: l2) l2 c
    (fld wait_next (threads k) t)) as Hw.
  destruct Hw as (k1 & Hw & Hl1 & Hr); [done..|intros; apply Hv; set_solver|done|by eapply sll_at|].
  assert (Hv1 : valid (threads k1) t) by (apply (relink_valid _ _ _ _ _ Hr), Hv; set_solver).
  eexists _, _. split; [done|]. split; [by apply st_run|].
  destruct (linked_blocked k (k1 <| threads := alter (set_field wait_next NULL) t (threads k1) |>)
    _ _ (l1 ++ l2) _ Hl) as [Hl' He]; [by apply relink_nx| |done|intros; apply Hv; set_solver|].
  - unfold lst. kfields. eapply sll_ext; [|exact Hl1]. intros x Hx. fields.
    by rewrite decide_False by congruence.
  - split; [exact (eq_trans Hk (eq_sym He))|exact Hl'].
Qed.

Lemma refines_wake_loop l1 l2 fuel kind key maximum count c :
  (length l2 < fuel)%nat -> cursor_at l1 c ->
  refines (E := E) (wake_loop fuel kind key maximum count c)
    (a_wake_loop l1 l2 kind key maximum count).
Proof.
  revert l1 fuel count c. induction l2 as [|t l2 IH]; intros l1 [|fuel] count c Hf Hc;
    [cbn in Hf; lia| |cbn in Hf; lia|];
    cbn [wake_loop a_wake_loop]; apply refines_check; intros k a x a' Hrep Hs Ha;
    pose proof Hrep as [Hk Hl]; rewrite Hs in Hl;
    (destruct (rd_cursor_run blocked_head wait_next k l1 _ c (lk_blocked _ _ _ _ Hl) Hc)
       as (v & Hrd & Hv); [intros; apply Hl; set_solver|]); rewrite bind_run, Hrd.
  - cbn in Hv. subst v. cbn. exists k. injection Ha as <- <-. done.
  - destruct Hv as (-> & Hnz & Hsl). rewrite (proj2 (Z.eqb_neq t NULL) Hnz). cbn [negb andb].
    destruct (count <? maximum); [|injection Ha as <- <-; by exists k].
    apply bind_inv in Ha as (kd & a1 & Hd & Ha). apply (rep_ld k) in Hd as (-> & Hd & Hv & _); [|done..].
    rewrite bind_run, Hd.
    apply bind_inv in Ha as (ky & a1 & Hy & Ha). apply (rep_ld k) in Hy as (-> & Hy & _); [|done..].
    rewrite bind_run, Hy. destruct (bool_decide (kd = kind) && (ky =? key)).
    + destruct (blocked_cut_run k a t l1 l2 c Hrep Hs Hc) as (k1 & k2 & Hw & Hst & Hrep2).
      rewrite bind_run, ld_run, bind_run, Hw, bind_run, Hst by done.
      apply bind_inv in Ha as (? & ? & [= <- <-] & Ha). revert Ha.
      apply refines_use; [|exact Hrep2].
      assert (refines (wake_loop fuel kind key maximum (u64 (count + 1)) c)
        (a_wake_loop l1 l2 kind key maximum (u64 (count + 1)))) by (apply IH; [cbn in Hf; lia|done]).
      sim.
    + revert Ha. apply refines_use; [|done].
      apply IH; [cbn in Hf; lia|apply cursor_at_next].
Qed.

(** *** Steps on one queue *)

Lemma refines_queued t : refines (E := E) (ld t on_run_queue) (a_queued t).
Proof.
  intros k a x a' [Hk Hl] [Hv [= <- <-]]%a_valid_inv. rewrite Hk in Hv.
  apply (proj1 (valid_erase (threads k) t)) in Hv. exists k.
  rewrite ld_run, (lk_queue _ _ _ _ Hl) by done. split; [done|]. by split.
Qed.

Lemma refines_head : refines (E := E) (gs ready_head) a_head.
Proof.
  intros k a x a' [Hk Hl] [= <- <-]. exists k. rewrite gs_run. split; [|by split].
  pose proof (lk_ring _ _ _ _ Hl) as Hr. destruct (ready a); cbn in *; [by rewrite Hr|].
  by destruct Hr as [-> _].
Qed.

Lemma bind_assoc {S A B C} (m : M S A) (f : A -> M S B) (g : B -> M S C) s :
  ((m ≫= f) ≫= g) s = (m ≫= (fun x => f x ≫= g)) s.
Proof. rewrite !bind_run. destruct (m s) as [[]|]; [|done]. by rewrite bind_run. Qed.

Lemma bind_ext {S A B} (m : M S A) (f g : A -> M S B) s :
  (forall x s', f x s' = g x s') -> (m ≫= f) s = (m ≫= g) s.
Proof. intros Heq. rewrite !bind_run. by destruct (m s) as [[]|]. Qed.

(** Regroups the code so that a fragment of it can be simulated as a whole. *)
Lemma refines_regroup {A} (m m' : M (kstate E) A) am :
  (forall k, m k = m' k) -> refines m' am -> refines m am.
Proof. intros Heq Hm k a x a' Hr Ha. rewrite Heq. by eapply Hm. Qed.

Lemma refines_block_push t :
  refines (E := E) (head ← gs blocked_head; st t wait_next head;; ss blocked_head t)
    (a_block_push t).
Proof.
  intros k a x a' [Hk Hl] [Hv Ha]%a_valid_inv. rewrite Hk in Hv.
  apply (proj1 (valid_erase (threads k) t)) in Hv.
  apply bind_inv in Ha as (? & ? & [Hn ->]%check_run & [= <- <-]).
  run. eexists. split; [done|].
  edestruct (linked_blocked k) as [Hl' He]; [exact Hl| | | | |].
  - eapply (relink_hd blocked_head wait_next k _ t),
      (relink_nx blocked_head wait_next k _ t (blocked_head (sched k))), relink_refl.
  - instantiate (1 := t :: blocked a). unfold lst. kfields. split_and!; [done| |].
    + by eapply valid_nonnull.
    + rewrite fld_same, decide_True by done. eapply sll_ext; [|apply Hl]. intros y Hy. fields.
      by rewrite decide_False by congruence.
  - apply NoDup_cons. split; [done|apply Hl].
  - intros y [->|Hy]%elem_of_cons; [done|]. apply Hl. auto.
  - split; [exact (eq_trans Hk (eq_sym He))|exact Hl'].
Qed.

(** The search stops at the insertion point of [insert_by]. *)
Lemma sleep_search_run k a d l1 l2 c fuel :
  linked k (ready a) (blocked a) (l1 ++ l2) -> cursor_at l1 c -> (length l2 < fuel)%nat ->
  exists l3 l4 c', l2 = l3 ++ l4 /\ sleep_search fuel d c k = Some (c', k) /\
    cursor_at (l1 ++ l3) c' /\
    forall t, insert_by (fun x => fld wake_deadline_ns (threads k) x <=? d) t l2 = l3 ++ t :: l4.
Proof.
  revert l1 c fuel. induction l2 as [|y l2 IH]; intros l1 c [|fuel] Hl Hc Hf; [cbn in Hf; lia| |cbn in Hf; lia|];
    cbn [sleep_search]; rewrite bind_run;
    (destruct (rd_cursor_run sleep_head sleep_next k l1 _ c (lk_sleep _ _ _ _ Hl) Hc)
       as (v & -> & Hs); [intros; apply Hl; set_solver|]).
  - cbn in Hs. subst v. exists [], [], c. split_and!; [done|done|by rewrite app_nil_r|done].
  - destruct Hs as (-> & Hnz & Hs). rewrite (proj2 (Z.eqb_neq y NULL) Hnz).
    rewrite bind_run, ld_run by (apply Hl; set_solver). cbn [insert_by].
    destruct (fld wake_deadline_ns (threads k) y <=? d).
    + assert (Happ : l1 ++ y :: l2 = (l1 ++ [y]) ++ l2) by by rewrite <- app_assoc.
      rewrite Happ in Hl.
      destruct (IH (l1 ++ [y]) (at_next y) fuel Hl) as (l3 & l4 & c' & -> & Hrun & Hc' & Hins);
        [apply cursor_at_next|cbn in Hf; lia|].
      exists (y :: l3), l4, c'. rewrite <- app_assoc in Hc'. split_and!; [done|done|done|].
      intros t. by rewrite Hins.
    + exists [], (y :: l2), c. split_and!; [done|done|by rewrite app_nil_r|done].
Qed.

Lemma insert_by_ext (p q : Z -> bool) t l :
  (forall x, x ∈ l -> p x = q x) -> insert_by p t l = insert_by q t l.
Proof.
  induction l as [|y l IH]; intros Heq; cbn; [done|]. rewrite (Heq y) by left.
  destruct (q y); [|done]. f_equal. apply IH. intros x Hx. apply Heq. by right.
Qed.

Lemma fld_erase {A} (f : ns_thread -> A) m p :
  (forall x, f (erase_t x) = f x) -> fld f (erase_t <$> m) p = fld f m p.
Proof. intros Hf. unfold fld. rewrite lookup_fmap. by destruct (m !! p); cbn. Qed.

Lemma relink_trans hd nx `{!Setter hd} `{!Setter nx} k1 k2 k3 :
  relink hd nx k1 k2 -> relink hd nx k2 k3 -> relink hd nx k1 k3.
Proof. intros H12. by induction 1; [|apply relink_hd|apply relink_nx]. Qed.

(** Linking [t] in behind [l3], where the cursor points. *)
Lemma sleep_link_run k r b l3 l4 t c v :
  linked k r b (l3 ++ l4) -> valid (threads k) t -> t ∉ l3 ++ l4 -> cursor_at l3 c ->
  sll (fld sleep_next (threads k)) l4 v ->
  let k1 := k <| threads := alter (set_field sleep_next v) t (threads k) |> in
  exists k', wr_cursor sleep_head sleep_next c t k1 = Some (tt, k') /\
    linked k' r b (l3 ++ t :: l4) /\ erase k' = erase k.
Proof.
  intros Hl Hv Hn Hc Hs k1. pose proof (lk_nodup_l _ _ _ _ Hl) as Hnd.
  assert (Hr1 : relink sleep_head sleep_next k k1) by apply relink_nx, relink_refl.
  assert (Hval : forall x, x ∈ l3 ++ t :: l4 -> valid (threads k) x).
  { intros x [Hx|[->|Hx]%elem_of_cons]%elem_of_app; [|done|]; apply Hl; set_solver. }
  assert (Hnx : forall x, x ∈ l3 ++ l4 -> fld sleep_next (threads k1) x = fld sleep_next (threads k) x).
  { intros x Hx. unfold k1. kfields. fields. by rewrite decide_False by congruence. }
  assert (Hnd' : NoDup (l3 ++ t :: l4)).
  { rewrite <- (Permutation_middle l3 l4 t). by apply NoDup_cons. }
  pose proof (fun A B => wr_cursor_run sleep_head sleep_next A B k1 l3 l4 (t :: l4) c t) as Hw.
  destruct Hw as (k' & Hw & Hl' & Hr); [done|done| |done| |done| |].
  - eapply sll_ext; [|apply Hl]. exact Hnx.
  - intros x Hx. apply (relink_valid _ _ _ _ _ Hr1), Hval. set_solver.
  - split_and!; [done|by eapply valid_nonnull|].
    unfold k1 at 2. kfields. rewrite fld_same, decide_True by done.
    eapply sll_ext; [|exact Hs]. intros x Hx. apply Hnx. set_solver.
  - exists k'. split; [done|].
    by eapply linked_sleep; [|eapply relink_trans| | |].
Qed.

Lemma refines_sleep_insert t d :
  refines (E := E)
    (fuel ← walk_fuel; c ← sleep_search fuel d at_head; next ← rd_cursor sleep_head sleep_next c;
     st t sleep_next next;; wr_cursor sleep_head sleep_next c t)
    (a_sleep_insert t d).
Proof.
  intros k a x a' [Hk Hl] [Hv Ha]%a_valid_inv. rewrite Hk in Hv.
  apply (proj1 (valid_erase (threads k) t)) in Hv.
  apply bind_inv in Ha as (? & ? & [Hn ->]%check_run & [= <- <-]).
  unfold walk_fuel. rewrite bind_run.
  destruct (sleep_search_run k a d [] (sleeping a) at_head (S (size (threads k))))
    as (l3 & l4 & c & Heq & Hs & Hc & Hins); [done|done| |].
  { apply Nat.lt_succ_r, distinct_valid; [apply Hl|]. intros y Hy. apply Hl. auto. }
  change (gets _ k) with (Some (S (size (threads k)), k)). cbn iota beta.
  rewrite bind_run, Hs, bind_run. cbn [app] in Hc. rewrite Heq in Hl, Hn.
  destruct (rd_cursor_run sleep_head sleep_next k l3 l4 c (lk_sleep _ _ _ _ Hl) Hc)
    as (v & -> & Hv4); [intros; apply Hl; set_solver|].
  rewrite bind_run, st_run by done.
  destruct (sleep_link_run k _ _ l3 l4 t c v Hl Hv Hn Hc Hv4) as (k' & Hw & Hl' & He).
  exists k'. split; [exact Hw|]. split; [exact (eq_trans Hk (eq_sym He))|].
  cbn [sleeping ready blocked set_sleeping]. 
  erewrite insert_by_ext; [by rewrite Hins|]. intros x _.
  unfold due, deadline_of. rewrite Hk. cbn. by rewrite fld_erase.
Qed.

(** *** Every operation *)

Lemma refines_lift_bind {A B} (m : M (kstate E) A) (f : A -> M (kstate E) B) :
  refines m (lift m) -> (forall x, refines (f x) (lift (f x))) ->
  refines (m ≫= f) (lift (m ≫= f)).
Proof.
  intros Hm Hf k a x a' Hr. unfold lift at 1. rewrite bind_run.
  destruct (m (kernel a)) as [[y k1]|] eqn:Hy; cbn; [|done]. intros Ha.
  destruct (Hm k a y (a <| kernel := k1 |>) Hr) as (k2 & Hk2 & Hr2).
  { unfold lift. by rewrite Hy. }
  rewrite bind_run, Hk2. by apply (Hf y k2 (a <| kernel := k1 |>)).
Qed.

Lemma refines_lift_ret {A} (x : A) : refines (E := E) (mret x) (lift (mret x)).
Proof. intros k a y a' Hr [= <- <-]. exists k. by destruct a. Qed.

Ltac sim_lift :=
  repeat (cbn beta zeta; first
    [ sim_prim
    | apply refines_lift_ret
    | apply refines_lift_bind; [|intros ?]
    | match goal with |- refines (if ?b then _ else _) _ => destruct b end
    | match goal with |- refines (when ?b _) _ => destruct b; unfold when end ]).

Lemma refines_switch_to t : refines (E := E) (switch_to t) (lift (switch_to t)).
Proof. unfold switch_to. sim_lift. Qed.

Ltac sim_op :=
  repeat (cbn beta zeta; first
    [ sim_prim | apply refines_queued | apply refines_head | apply refines_switch_to
    | apply refines_bind; [|intros ?]
    | apply refines_when
    | apply refines_if ]).

Lemma refines_reschedule s : refines (E := E) (ns_sched_reschedule s) (a_reschedule s).
Proof. unfold ns_sched_reschedule, a_reschedule. sim_op. Qed.

Lemma refines_set_idle s t : refines (E := E) (ns_sched_set_idle s t) (a_set_idle s t).
Proof. unfold ns_sched_set_idle, a_set_idle. sim_op. Qed.

Lemma refines_add s t : refines (E := E) (ns_sched_add s t) (a_add s t).
Proof. unfold ns_sched_add, a_add. sim_op. Qed.

Lemma refines_remove s t : refines (E := E) (ns_sched_remove s t) (a_remove s t).
Proof. unfold ns_sched_remove, a_remove. sim_op. Qed.

Lemma refines_account : refines (E := E) tick_account a_account.
Proof. unfold tick_account, a_account. sim_op. Qed.

Lemma refines_tick_walk now :
  refines (E := E) (fuel ← walk_fuel; tick_loop fuel now) (l ← gets sleeping; a_tick_loop l now).
Proof.
  intros k a x a' Hr Ha. apply bind_inv in Ha as (l & a1 & [= <- <-] & Ha).
  rewrite bind_run. revert Ha. apply refines_use; [|done]. apply refines_tick_loop.
  destruct Hr as [_ Hl]. apply Nat.lt_succ_r, distinct_valid; [apply Hl|].
  intros y Hy. apply Hl. auto.
Qed.

Lemma refines_wake_walk kind key maximum :
  refines (E := E) (fuel ← walk_fuel; wake_loop fuel kind key maximum 0 at_head)
    (l ← gets blocked; a_wake_loop [] l kind key maximum 0).
Proof.
  intros k a x a' Hr Ha. apply bind_inv in Ha as (l & a1 & [= <- <-] & Ha).
  rewrite bind_run. revert Ha. apply refines_use; [|done]. apply refines_wake_loop; [|done].
  destruct Hr as [_ Hl]. apply Nat.lt_succ_r, distinct_valid; [apply Hl|].
  intros y Hy. apply Hl. auto.
Qed.

(** Simulation of a fragment of two statements, with its continuation. *)
Lemma refines_bind2 {A B C A'} (m : M (kstate E) A) (f : A -> M (kstate E) B)
    (g : B -> M (kstate E) C) (am : M (asched E) A') (af : A' -> M (asched E) B) ag :
  refines (m ≫= f) (am ≫= af) -> (forall x, refines (g x) (ag x)) ->
  refines (m ≫= (fun x => f x ≫= g)) (am ≫= (fun x => af x ≫= ag)).
Proof.
  intros Hm Hg k a x a' Hr. rewrite <- !bind_assoc. revert k a x a' Hr.
  apply refines_bind; done.
Qed.

Lemma refines_tick s now : refines (E := E) (ns_sched_tick s now) (a_tick s now).
Proof.
  unfold ns_sched_tick, a_tick. apply refines_if; [sim_op|].
  apply refines_bind; [sim_op|intros token]. apply refines_bind; [sim_op|intros _].
  apply refines_bind2; [apply refines_tick_walk|intros _].
  pose proof refines_account. pose proof (refines_reschedule s). sim_op.
Qed.

Lemma refines_yield s : refines (E := E) (ns_sched_yield s) (a_yield s).
Proof. pose proof (refines_reschedule s). unfold ns_sched_yield, a_yield. sim_op. Qed.

Lemma refines_prepare_block s kind key :
  refines (E := E) (ns_sched_prepare_block s kind key) (a_prepare_block s kind key).
Proof.
  unfold ns_sched_prepare_block, a_prepare_block. apply refines_if; [sim_op|].
  apply refines_bind; [sim_op|intros cur]. apply refines_if; [sim_op|].
  apply refines_bind; [sim_op|intros token]. apply refines_bind; [sim_op|intros t].
  apply refines_bind; [sim_op|intros idl]. apply refines_if; [sim_op|].
  do 3 (apply refines_bind; [sim_op|intros _]).
  apply refines_regroup with
    ((head ← gs blocked_head; st t wait_next head;; ss blocked_head t);; leave_critical token);
    [|apply refines_bind; [apply refines_block_push|intros _; sim_op]].
  intros k. do 2 (rewrite bind_assoc; apply bind_ext; intros ? ?). done.
Qed.

Lemma refines_commit_block s : refines (E := E) (ns_sched_commit_block s) (a_commit_block s).
Proof.
  pose proof (refines_reschedule s). unfold ns_sched_commit_block, a_commit_block. sim_op.
Qed.

Lemma refines_block s kind key :
  refines (E := E) (ns_sched_block s kind key) (a_block s kind key).
Proof.
  apply refines_bind; [apply refines_prepare_block|intros _]. apply refines_commit_block.
Qed.

Lemma refines_sleep_until s d : refines (E := E) (ns_sched_sleep_until s d) (a_sleep_until s d).
Proof.
  unfold ns_sched_sleep_until, a_sleep_until. apply refines_if; [sim_op|].
  apply refines_bind; [sim_op|intros cur]. apply refines_if; [sim_op|].
  apply refines_bind; [sim_op|intros token]. apply refines_bind; [sim_op|intros t].
  apply refines_bind; [sim_op|intros idl]. apply refines_if; [sim_op|].
  do 2 (apply refines_bind; [sim_op|intros _]).
  pose proof (refines_reschedule s).
  apply refines_regroup with
    ((fuel ← walk_fuel; c ← sleep_search fuel d at_head; next ← rd_cursor sleep_head sleep_next c;
      st t sleep_next next;; wr_cursor sleep_head sleep_next c t);;
     ss reschedule_pending 1;; leave_critical token;; depth ← gs preempt_disable_depth;
     when (depth =? 0) (ns_sched_reschedule s));
    [|apply refines_bind; [apply refines_sleep_insert|intros _; sim_op]].
  intros k. do 4 (rewrite bind_assoc; apply bind_ext; intros ? ?). done.
Qed.

Lemma refines_wake s kind key maximum :
  refines (E := E) (ns_sched_wake s kind key maximum) (a_wake s kind key maximum).
Proof.
  unfold ns_sched_wake, a_wake. apply refines_if; [sim_op|].
  apply refines_bind; [sim_op|intros token].
  apply refines_bind2; [apply refines_wake_walk|intros count]. sim_op.
Qed.

Lemma refines_wake_thread s t :
  refines (E := E) (ns_sched_wake_thread s t) (a_wake_thread s t).
Proof. unfold ns_sched_wake_thread, a_wake_thread. sim_op. Qed.

Lemma refines_terminate s :
  refines (E := E) (ns_sched_terminate_current s) (a_terminate_current s).
Proof.
  pose proof (refines_reschedule s).
  unfold ns_sched_terminate_current, a_terminate_current. sim_op.
Qed.

Lemma refines_preempt_disable s :
  refines (E := E) (ns_sched_preempt_disable s) (a_preempt_disable s).
Proof. unfold a_preempt_disable, ns_sched_preempt_disable. sim_lift. Qed.

Lemma refines_preempt_enable s :
  refines (E := E) (ns_sched_preempt_enable s) (a_preempt_enable s).
Proof.
  pose proof (refines_reschedule s). unfold ns_sched_preempt_enable, a_preempt_enable. sim_op.
Qed.
End refinement.
