(* ===== verification/SchedProps.v ===== *)
(** * Properties of the scheduler

    The invariant of the scheduler at the level of its specification, the
    behaviour of every operation, and what follows for the code of
    kernel/proc/scheduler.c by the refinement of [SchedSpec]. *)

From Stdlib Require Import Sorted.
From S2P Require Import Prelude Errno Links Sched SchedSpec.

(** ** Views of the abstract state *)

Section views.
Context {E : Type}.
Implicit Types (a : asched E) (t : Z).

Definition cur a : Z := current (sched (kernel a)).
Definition idl a : Z := idle (sched (kernel a)).
Definition depth a : Z := preempt_disable_depth (sched (kernel a)).
Definition pending a : Z := reschedule_pending (sched (kernel a)).
Definition quantum a : Z := quantum_ticks (sched (kernel a)).
Definition ok a t : Prop := valid (threads (kernel a)) t.
Definition th {A} (f : ns_thread -> A) a t : A := fld f (threads (kernel a)) t.

(** ** The invariant

    A thread is on the queue its state says and on no other; only the current
    thread is running; sleepers are ordered by deadline.  [D] holds the threads
    that [ns_sched_remove] took off the queues without changing their state. *)
Record inv (D : list Z) a : Prop := {
  i_null : threads (kernel a) !! NULL = None;
  i_nodup : NoDup (ready a ++ blocked a ++ sleeping a);
  i_valid : forall t, t ∈ ready a ++ blocked a ++ sleeping a -> ok a t;
  i_ready : forall t, t ∈ ready a -> th state a t = NS_THREAD_READY;
  i_blocked : forall t, t ∈ blocked a -> th state a t = NS_THREAD_BLOCKED;
  i_sleeping : forall t, t ∈ sleeping a -> th state a t = NS_THREAD_SLEEPING;
  i_running : forall t, ok a t -> th state a t = NS_THREAD_RUNNING -> t = cur a;
  i_cur : cur a = NULL \/ ok a (cur a);
  i_idle : idl a = NULL \/
    ok a (idl a) /\ (idl a ∉ ready a) /\ Z.land (th flags a (idl a)) NS_THREAD_IDLE <> 0 /\
    (th state a (idl a) = NS_THREAD_READY \/ th state a (idl a) = NS_THREAD_RUNNING);
  i_space : forall t, ok a t ->
    th process a t = NULL \/ is_Some (spaces (kernel a) !! th process a t);
  i_sorted : StronglySorted (fun x y => deadline_of a x <= deadline_of a y) (sleeping a);
  i_listed : forall t, ok a t -> t <> idl a -> t ∉ D ->
    (th state a t = NS_THREAD_READY -> t ∈ ready a) /\
    (th state a t = NS_THREAD_BLOCKED -> t ∈ blocked a) /\
    (th state a t = NS_THREAD_SLEEPING -> t ∈ sleeping a) }.

(** [a'] differs from [a] in the state of [t], which is now [s], possibly in the
    deadline of [t], and in parts the invariant does not depend on. *)
Record restate a a' t (s : ns_thread_state) : Prop := {
  rs_null : threads (kernel a') !! NULL = threads (kernel a) !! NULL;
  rs_ok : forall x, ok a' x <-> ok a x;
  rs_idl : idl a' = idl a;
  rs_spaces : spaces (kernel a') = spaces (kernel a);
  rs_flags : forall x, th flags a' x = th flags a x;
  rs_process : forall x, th process a' x = th process a x;
  rs_state : forall x, th state a' x = if decide (x = t) then s else th state a x;
  rs_deadline : forall x, x <> t -> deadline_of a' x = deadline_of a x }.

Lemma sorted_ext a a' l :
  (forall x, x ∈ l -> deadline_of a' x = deadline_of a x) ->
  StronglySorted (fun x y => deadline_of a x <= deadline_of a y) l ->
  StronglySorted (fun x y => deadline_of a' x <= deadline_of a' y) l.
Proof.
  intros Heq. induction 1 as [|x l Hs IH Hx]; constructor.
  - apply IH. intros y Hy. apply Heq. by right.
  - rewrite Forall_forall in *. intros y Hy. rewrite !Heq by (by left || by right). by apply Hx.
Qed.

Lemma sorted_without (R : Z -> Z -> Prop) t l : StronglySorted R l -> StronglySorted R (without t l).
Proof.
  induction 1 as [|x l Hs IH Hx]; [constructor|]. unfold without.
  destruct (decide (x <> t)).
  - rewrite filter_cons_True by done. constructor; [done|].
    rewrite Forall_forall in *. intros y [_ Hy]%elem_of_without. by apply Hx.
  - by rewrite filter_cons_False.
Qed.

Lemma nodup_parts (r b l : list Z) :
  NoDup (r ++ b ++ l) <->
  NoDup r /\ NoDup b /\ NoDup l /\ (forall x, x ∈ r -> x ∉ b) /\ (forall x, x ∈ r -> x ∉ l) /\
  (forall x, x ∈ b -> x ∉ l).
Proof. rewrite !NoDup_app. set_solver. Qed.

(** The lists of [a'] when thread [t] changed to state [s]: [t] is on the list of
    its new state, the other threads stay where they were. *)
Record relist a a' t (s : ns_thread_state) : Prop := {
  rl_nodup_r : NoDup (ready a');
  rl_nodup_b : NoDup (blocked a');
  rl_nodup_s : NoDup (sleeping a');
  rl_ready : forall x, x ∈ ready a' <->
    x <> t /\ x ∈ ready a \/ x = t /\ s = NS_THREAD_READY /\ t <> idl a;
  rl_blocked : forall x, x ∈ blocked a' <->
    x <> t /\ x ∈ blocked a \/ x = t /\ s = NS_THREAD_BLOCKED;
  rl_sleeping : forall x, x ∈ sleeping a' <->
    x <> t /\ x ∈ sleeping a \/ x = t /\ s = NS_THREAD_SLEEPING;
  rl_sorted : StronglySorted (fun x y => deadline_of a' x <= deadline_of a' y) (sleeping a') }.

Lemma inv_move D a a' t s :
  inv D a -> restate a a' t s -> relist a a' t s -> ok a t ->
  (t = idl a -> s = NS_THREAD_READY \/ s = NS_THREAD_RUNNING) ->
  (cur a' = NULL \/ ok a (cur a')) ->
  (s = NS_THREAD_RUNNING -> t = cur a') ->
  (forall x, ok a x -> x <> t -> th state a x = NS_THREAD_RUNNING -> x = cur a') ->
  inv D a'.
Proof.
  intros [] [] [] Ht Hi Hc Hs Hrun.
  apply nodup_parts in i_nodup0 as (Hnr & Hnb & Hns & Hrb & Hrs & Hbs).
  constructor; rewrite ?rs_idl0, ?rs_spaces0, ?rs_flags0 in *; try congruence.
  - apply nodup_parts. split_and!; [done..| | |];
      intros x; rewrite ?rl_ready0, ?rl_blocked0, ?rl_sleeping0; clear - Hrb Hrs Hbs;
      intros [[? ?]|(? & ? & ?)] [[? ?]|[? ?]] || intros [[? ?]|(? & ?)] [[? ?]|[? ?]];
      try congruence; first [by eapply Hrb|by eapply Hrs|by eapply Hbs].
  - intros x. rewrite !elem_of_app, rl_ready0, rl_blocked0, rl_sleeping0. intros Hx.
    apply rs_ok0. destruct (decide (x = t)) as [->|Hne]; [done|]. apply i_valid0. set_solver.
  - intros x [[Hx Hr]|(-> & -> & _)]%rl_ready0; rewrite rs_state0.
    + rewrite decide_False by done. by apply i_ready0.
    + by rewrite decide_True.
  - intros x [[Hx Hr]|(-> & ->)]%rl_blocked0; rewrite rs_state0.
    + rewrite decide_False by done. by apply i_blocked0.
    + by rewrite decide_True.
  - intros x [[Hx Hr]|(-> & ->)]%rl_sleeping0; rewrite rs_state0.
    + rewrite decide_False by done. by apply i_sleeping0.
    + by rewrite decide_True.
  - intros x Hx%rs_ok0. rewrite rs_state0. case_decide; [subst; done|]. by apply Hrun.
  - destruct Hc; [by left|right]. by apply rs_ok0.
  - destruct i_idle0 as [?|(? & ? & ? & ?)]; [by left|right]. rewrite rs_ok0, rs_state0, rl_ready0.
    split_and!; [done|naive_solver|done|]. case_decide; [auto|done].
  - intros x Hx%rs_ok0. rewrite rs_process0. by apply i_space0.
  - intros x Hx%rs_ok0 Hxi HD. rewrite rs_state0, rl_ready0, rl_blocked0, rl_sleeping0.
    destruct (i_listed0 x) as (? & ? & ?); [done..|]. clear - H H0 H1 Hxi. case_decide; naive_solver.
Qed.

(** [a'] has the same queues and threads as [a], as far as the invariant goes. *)
Record inert a a' : Prop := {
  in_null : threads (kernel a') !! NULL = threads (kernel a) !! NULL;
  in_ok : forall x, ok a' x <-> ok a x;
  in_cur : cur a' = cur a;
  in_idl : idl a' = idl a;
  in_spaces : spaces (kernel a') = spaces (kernel a);
  in_flags : forall x, th flags a' x = th flags a x;
  in_process : forall x, th process a' x = th process a x;
  in_state : forall x, th state a' x = th state a x;
  in_deadline : forall x, deadline_of a' x = deadline_of a x;
  in_ready : ready a' = ready a;
  in_blocked : blocked a' = blocked a;
  in_sleeping : sleeping a' = sleeping a }.

Lemma inv_inert D a a' : inv D a -> inert a a' -> inv D a'.
Proof.
  intros [] []. constructor; rewrite ?in_ready0, ?in_blocked0, ?in_sleeping0, ?in_idl0, ?in_cur0,
    ?in_spaces0, ?in_flags0, ?in_state0; try done.
  - by rewrite in_null0.
  - intros x Hx. by apply in_ok0, i_valid0.
  - intros x Hx. rewrite in_state0. by apply i_ready0.
  - intros x Hx. rewrite in_state0. by apply i_blocked0.
  - intros x Hx. rewrite in_state0. by apply i_sleeping0.
  - intros x Hx%in_ok0. rewrite in_state0. by apply i_running0.
  - by rewrite in_ok0.
  - by rewrite in_ok0.
  - intros x Hx%in_ok0. rewrite in_process0. by apply i_space0.
  - apply (sorted_ext a); [|done]. auto.
  - intros x Hx%in_ok0 Hi HD. rewrite in_state0. by apply i_listed0.
Qed.

(** *** Running the specification *)

Implicit Types Q : unit -> asched E -> Prop.

Lemma wp_lift_gs {A} (f : ns_scheduler E -> A) R a :
  R (f (sched (kernel a))) a -> wp (lift (gs f)) R a.
Proof. intros H. exists (f (sched (kernel a))), a. split; [|done]. by destruct a. Qed.

Lemma wp_lift_ss {T} (f : ns_scheduler E -> T) `{!Setter f} v Q a :
  Q tt (set_kernel (set_sched (set_field f v (sched (kernel a))) (kernel a)) a) ->
  wp (lift (ss f v)) Q a.
Proof. intros H. by eexists tt, _. Qed.

Lemma wp_lift_bump (f : ns_scheduler_stats -> Z) `{!Setter f} Q a :
  (forall s, Q tt (set_kernel (set_sched (set_stats s (sched (kernel a))) (kernel a)) a)) ->
  wp (lift (bump f)) Q a.
Proof. intros H. eexists tt, _. split; [done|]. apply H. Qed.

Lemma wp_lift_ld {A} t (f : ns_thread -> A) R a :
  ok a t -> R (th f a t) a -> wp (lift (ld t f)) R a.
Proof.
  intros Ht H. exists (th f a t), a. split; [|done]. unfold lift.
  rewrite ld_run by done. by destruct a.
Qed.

Lemma wp_lift_st {T} t (f : ns_thread -> T) `{!Setter f} v Q a :
  ok a t ->
  Q tt (set_kernel (set_threads (alter (set_field f v) t (threads (kernel a))) (kernel a)) a) ->
  wp (lift (st t f v)) Q a.
Proof.
  intros Ht H. eexists tt, _. split; [|exact H]. unfold lift. by rewrite st_run by done.
Qed.

Lemma wp_lift_enter R a :
  (forall token e, R token (set_kernel (set_env e (kernel a)) a)) -> wp (lift enter_critical) R a.
Proof.
  intros H. unfold wp, lift, enter_critical. destruct (critical_enter _) as [f|].
  - destruct (f (env (kernel a))) as [token e]. eexists token, _. split; [done|]. apply H.
  - specialize (H 0 (env (kernel a))). eexists 0, _. split; [done|].
    by destruct a as [[]].
Qed.

Lemma wp_lift_leave token Q a :
  (forall e, Q tt (set_kernel (set_env e (kernel a)) a)) -> wp (lift (leave_critical token)) Q a.
Proof.
  intros H. unfold wp, lift, leave_critical. destruct (critical_leave _) as [f|].
  - eexists tt, _. split; [done|]. apply H.
  - specialize (H (env (kernel a))). eexists tt, _. split; [done|]. by destruct a as [[]].
Qed.

Lemma wp_lift_bind {A B} (m : M (kstate E) A) (f : A -> M (kstate E) B) R a :
  wp (lift m) (fun x => wp (lift (f x)) R) a -> wp (lift (m ≫= f)) R a.
Proof.
  intros (x & a1 & Hm & y & a2 & Hf & HR). exists y, a2. split; [|done]. revert Hm Hf.
  unfold lift. rewrite bind_run. destruct (m (kernel a)) as [[x' k1]|]; cbn; [|done].
  intros [= -> <-]. cbn. destruct (f x k1) as [[y' k2]|]; cbn; [|done]. intros [= -> <-]. done.
Qed.

Lemma wp_lift_ret {A} (x : A) R a : R x a -> wp (lift (mret x)) R a.
Proof. intros H. exists x, a. split; [|done]. by destruct a. Qed.

Lemma wp_valid t Q a : ok a t -> Q tt a -> wp (a_valid t) Q a.
Proof. intros. by apply wp_check. Qed.

Lemma wp_queued t R a : ok a t -> R (b2z (bool_decide (t ∈ ready a))) a -> wp (a_queued t) R a.
Proof. intros. apply wp_bind, wp_valid; [done|]. by apply wp_gets. Qed.

Lemma wp_insert t Q a :
  ok a t -> t ∉ ready a -> Q tt (set_ready (ready a ++ [t]) a) -> wp (a_insert t) Q a.
Proof.
  intros. apply wp_bind, wp_valid; [done|]. apply wp_bind, wp_check; [done|]. by apply wp_modify.
Qed.

Lemma wp_ready_remove t Q a :
  ok a t -> Q tt (set_ready (without t (ready a)) a) -> wp (a_ready_remove t) Q a.
Proof. intros. apply wp_bind, wp_valid; [done|]. by apply wp_modify. Qed.

Lemma wp_head R a : R (hd NULL (ready a)) a -> wp a_head R a.
Proof. intros H. by apply wp_gets. Qed.

Lemma wp_pop R a : R (hd NULL (ready a)) (set_ready (tail (ready a)) a) -> wp a_pop R a.
Proof. intros H. by exists (hd NULL (ready a)), (set_ready (tail (ready a)) a). Qed.

Lemma wp_block_push t Q a :
  ok a t -> t ∉ blocked a -> Q tt (set_blocked (t :: blocked a) a) -> wp (a_block_push t) Q a.
Proof.
  intros. apply wp_bind, wp_valid; [done|]. apply wp_bind, wp_check; [done|]. by apply wp_modify.
Qed.

Lemma wp_sleep_insert t d Q a :
  ok a t -> t ∉ sleeping a ->
  Q tt (set_sleeping (insert_by (due a d) t (sleeping a)) a) -> wp (a_sleep_insert t d) Q a.
Proof.
  intros. apply wp_bind, wp_valid; [done|]. apply wp_bind, wp_check; [done|]. by apply wp_modify.
Qed.

Lemma wp_space p R a :
  p = NULL \/ is_Some (spaces (kernel a) !! p) -> (forall v, R v a) ->
  wp (lift (address_space_of p)) R a.
Proof.
  intros Hp HR. unfold wp, lift, address_space_of. destruct (Z.eqb_spec p NULL) as [->|Hn].
  - exists NULL, a. split; [by destruct a|done].
  - destruct Hp as [?|[v Hv]]; [done|]. rewrite Hv. exists v, a. split; [by destruct a|done].
Qed.

Lemma wp_call_switch p q r Q a :
  (forall e, Q tt (set_kernel (set_env e (kernel a)) a)) -> wp (lift (call_switch p q r)) Q a.
Proof.
  intros H. unfold wp, lift, call_switch. destruct (switch_context _) as [f|].
  - eexists tt, _. split; [done|]. apply H.
  - specialize (H (env (kernel a))). eexists tt, _. split; [done|]. by destruct a as [[]].
Qed.

End views.

(** Simplifies views of an updated state. *)
Ltac unview := unfold cur, idl, depth, pending, quantum, ok, th, deadline_of, due in *.
Ltac view :=
  unview;
  cbn [kernel ready blocked sleeping sched threads spaces env set_kernel set_ready set_blocked
       set_sleeping set_sched set_threads set_env current idle preempt_disable_depth
       reschedule_pending quantum_ticks stats set_current set_idle set_reschedule_pending
       set_preempt_disable_depth set_stats set_field] in *.
(** Reads of fields after writes; validity of the written threads is in context. *)
Ltac view_fields :=
  view;
  repeat first [rewrite fld_same by (done || by rewrite ?valid_alter)
               |rewrite fld_other by done
               |rewrite valid_alter].

Ltac view_fields_in H :=
  repeat first [rewrite fld_same in H by (done || by rewrite ?valid_alter)
               |rewrite fld_other in H by done].

(** Proves a record of facts about an updated state field by field. *)
Ltac facts :=
  constructor; intros; view_fields; rewrite ?lookup_alter_ne by congruence;
  rewrite ?decide_False by done; try done.

(** One step of the specification. *)
Ltac wp_step :=
  cbn beta zeta;
  lazymatch goal with
  | |- wp (mbind _ _) _ _ => apply wp_bind
  | |- wp (mret _) _ _ => apply wp_ret
  | |- wp (when false _) _ _ => apply wp_ret
  | |- wp (modify _) _ _ => apply wp_modify
  | |- wp (gets _) _ _ => apply wp_gets
  | |- wp a_head _ _ => apply wp_head
  | |- wp (a_blocked_remove _) _ _ => apply wp_modify
  | |- wp (a_sleep_remove _) _ _ => apply wp_modify
  | |- wp (a_queued _) _ _ => apply wp_queued; [view; by rewrite ?valid_alter|]
  | |- wp (lift (mbind _ _)) _ _ => apply wp_lift_bind
  | |- wp (lift (mret _)) _ _ => apply wp_lift_ret
  | |- wp (lift enter_critical) _ _ => apply wp_lift_enter; intros ? ?
  | |- wp (lift (leave_critical _)) _ _ => apply wp_lift_leave; intros ?
  | |- wp (lift (gs _)) _ _ => apply wp_lift_gs
  | |- wp (lift (ss _ _)) _ _ => apply wp_lift_ss
  | |- wp (lift (bump _)) _ _ => apply wp_lift_bump; intros ?
  | |- wp (lift (call_switch _ _ _)) _ _ => apply wp_call_switch; intros ?
  | |- wp (lift (ld _ _)) _ _ => apply wp_lift_ld; [view; by rewrite ?valid_alter|]
  | |- wp (lift (st _ _ _)) _ _ => apply wp_lift_st; [view; by rewrite ?valid_alter|]
  end.
(** Back to views of the state [a] the operation started from. *)
Ltac fold_views a :=
  change (current (sched (kernel a))) with (cur a) in *;
  change (idle (sched (kernel a))) with (idl a) in *;
  change (preempt_disable_depth (sched (kernel a))) with (depth a) in *;
  change (reschedule_pending (sched (kernel a))) with (pending a) in *.
(** Names the state a computation runs from. *)
Ltac name_state x := lazymatch goal with |- wp _ _ ?s => set (x := s) end.
Ltac wp_run := repeat (wp_step; view).

Section operations.
Context {E : Type}.
Implicit Types (a : asched E) (t : Z).

(** [n] is dispatched: it is running, current, and has a full quantum. *)
Record dispatched a a' n : Prop := {
  di_restate : restate a a' n NS_THREAD_RUNNING;
  di_cur : cur a' = n;
  di_ready : ready a' = ready a;
  di_blocked : blocked a' = blocked a;
  di_sleeping : sleeping a' = sleeping a;
  di_pending : pending a' = pending a;
  di_depth : depth a' = depth a;
  di_quantum : quantum a' = quantum a;
  di_deadline : forall x, deadline_of a' x = deadline_of a x;
  di_left : forall x, th quantum_left a' x = if decide (x = n) then quantum a else th quantum_left a x }.

Lemma wp_switch_to a n :
  n <> NULL -> ok a n ->
  th process a n = NULL \/ is_Some (spaces (kernel a) !! th process a n) ->
  wp (lift (switch_to n)) (fun _ a' => dispatched a a' n) a.
Proof.
  intros Hn Hok Hsp. unfold switch_to. wp_run.
  rewrite (proj2 (Z.eqb_neq n NULL) Hn). rewrite (proj2 (Z.eqb_neq n NULL) Hn). wp_run.
  destruct (Z.eqb_spec n (current (sched (kernel a)))) as [Heq|Hne].
  - wp_run. facts. facts.
  - wp_run. apply wp_space; [done|intros space]. wp_run. facts. facts.
Qed.

(** *** Rescheduling *)

(** The current thread is running and is not the idle thread. *)
Definition runs a : Prop :=
  cur a <> NULL /\ cur a <> idl a /\ th state a (cur a) = NS_THREAD_RUNNING.
#[global] Instance runs_dec a : Decision (runs a).
Proof. unfold runs. apply _. Defined.

(** The ready queue with the current thread back on it. *)
Definition requeued a : list Z := if decide (runs a) then ready a ++ [cur a] else ready a.

(** The current thread has been put back; nothing is running. *)
Record parked a a1 : Prop := {
  pk_cur : cur a1 = cur a;
  pk_idl : idl a1 = idl a;
  pk_ready : ready a1 = requeued a;
  pk_blocked : blocked a1 = blocked a;
  pk_sleeping : sleeping a1 = sleeping a;
  pk_depth : depth a1 = depth a;
  pk_quantum : quantum a1 = quantum a;
  pk_left : forall x, th quantum_left a1 x = th quantum_left a x;
  pk_deadline : forall x, deadline_of a1 x = deadline_of a x;
  pk_state : forall x, th state a1 x =
    if decide (x = cur a /\ (runs a \/ cur a = idl a)) then NS_THREAD_READY else th state a x;
  pk_idle : forall x, ok a1 x -> th state a1 x <> NS_THREAD_RUNNING }.

Lemma inv_not_listed D a t s :
  inv D a -> th state a t = s -> s <> NS_THREAD_READY -> s <> NS_THREAD_BLOCKED ->
  s <> NS_THREAD_SLEEPING -> (t ∉ ready a) /\ (t ∉ blocked a) /\ (t ∉ sleeping a).
Proof.
  intros [] Hs ? ? ?. split_and!; intros Hin; subst s.
  - by rewrite i_ready0 in *.
  - by rewrite i_blocked0 in *.
  - by rewrite i_sleeping0 in *.
Qed.

Lemma inv_ok_nonnull D a t : inv D a -> ok a t -> t <> NULL.
Proof. intros Hinv [x Hx] ->. by rewrite (i_null _ _ Hinv) in Hx. Qed.

Lemma inv_cur_ok D a : inv D a -> cur a <> NULL -> ok a (cur a).
Proof. intros Hinv Hc. by destruct (i_cur _ _ Hinv). Qed.

Lemma inv_requeue D a a1 :
  inv D a -> runs a -> restate a a1 (cur a) NS_THREAD_READY -> cur a1 = cur a ->
  (forall x, deadline_of a1 x = deadline_of a x) ->
  ready a1 = ready a ++ [cur a] -> blocked a1 = blocked a -> sleeping a1 = sleeping a ->
  inv D a1.
Proof.
  intros Hinv (Hn & Hi & Hst) Hr Hc Hd Hq Hb Hs.
  destruct (inv_not_listed D a (cur a) _ Hinv Hst) as (H1 & H2 & H3); [done..|].
  pose proof (i_nodup _ _ Hinv) as (Hnr & Hnb & Hns & _)%nodup_parts.
  eapply inv_move; [done|done| |by eapply inv_cur_ok|auto|rewrite Hc; apply Hinv|done|].
  - constructor; rewrite ?Hq, ?Hb, ?Hs; try done.
    + by apply nodup_snoc.
    + intros x. by apply mem_snoc.
    + intros x. by apply mem_same.
    + intros x. by apply mem_same.
    + apply (sorted_ext a); [auto|apply Hinv].
  - intros x Hx _. rewrite Hc. by apply Hinv.
Qed.

(** The idle thread changes between ready and running. *)
Lemma inv_idle_state D a a1 s :
  inv D a -> idl a <> NULL -> restate a a1 (idl a) s ->
  s = NS_THREAD_READY \/ s = NS_THREAD_RUNNING ->
  (forall x, deadline_of a1 x = deadline_of a x) ->
  ready a1 = ready a -> blocked a1 = blocked a -> sleeping a1 = sleeping a ->
  (cur a1 = NULL \/ ok a (cur a1)) -> (s = NS_THREAD_RUNNING -> idl a = cur a1) ->
  (forall x, ok a x -> x <> idl a -> th state a x = NS_THREAD_RUNNING -> x = cur a1) ->
  inv D a1.
Proof.
  intros Hinv Hi Hr Hs Hd Hq Hb Hsl Hc Hrun Hothers.
  destruct (i_idle _ _ Hinv) as [|(Hok & H1 & _ & Hst)]; [done|].
  assert (idl a ∉ blocked a) as H2.
  { intros H%(i_blocked _ _ Hinv). destruct Hst; congruence. }
  assert (idl a ∉ sleeping a) as H3.
  { intros H%(i_sleeping _ _ Hinv). destruct Hst; congruence. }
  pose proof (i_nodup _ _ Hinv) as (Hnr & Hnb & Hns & _)%nodup_parts.
  eapply inv_move; [done|done| |done|done|done|done|done].
  constructor; rewrite ?Hq, ?Hb, ?Hsl; try done.
  - intros x. apply mem_same; [done|]. by intros [_ ?].
  - intros x. apply mem_same; [done|]. destruct Hs; congruence.
  - intros x. apply mem_same; [done|]. destruct Hs; congruence.
  - apply (sorted_ext a); [auto|apply Hinv].
Qed.

(** The head of the ready queue is dispatched. *)
Lemma inv_dispatch D a a1 h r :
  inv D a -> ready a = h :: r -> restate a a1 h NS_THREAD_RUNNING -> cur a1 = h ->
  (forall x, deadline_of a1 x = deadline_of a x) ->
  ready a1 = r -> blocked a1 = blocked a -> sleeping a1 = sleeping a ->
  (forall x, ok a x -> th state a x <> NS_THREAD_RUNNING) -> inv D a1.
Proof.
  intros Hinv Hr Hre Hc Hd Hq Hb Hsl Hrun.
  pose proof (i_nodup _ _ Hinv) as (Hnr & Hnb & Hns & Hrb & Hrs & _)%nodup_parts.
  rewrite Hr in Hnr, Hrb, Hrs. apply NoDup_cons in Hnr as [Hh Hnr].
  assert (Hok : ok a h) by (apply Hinv; rewrite Hr; left).
  eapply inv_move; [done|done| |done|auto|rewrite Hc; auto|auto|].
  - constructor; rewrite ?Hr, ?Hq, ?Hb, ?Hsl; try done.
    + intros x. apply mem_tail; [done|]. by intros [? _].
    + intros x. apply mem_same; [apply Hrb; left|done].
    + intros x. apply mem_same; [apply Hrs; left|done].
    + apply (sorted_ext a); [auto|apply Hinv].
  - intros x Hx _ Hst. by apply Hrun in Hst.
Qed.

(** The head of the ready queue, or else the idle thread, got the processor. *)
Record picked a a' : Prop := {
  pi_cur : cur a' = if hd (idl a) (ready a) =? NULL then cur a else hd (idl a) (ready a);
  pi_idl : idl a' = idl a;
  pi_ready : ready a' = tail (ready a);
  pi_blocked : blocked a' = blocked a;
  pi_sleeping : sleeping a' = sleeping a;
  pi_pending : pending a' = 0;
  pi_depth : depth a' = depth a;
  pi_quantum : quantum a' = quantum a;
  pi_deadline : forall x, deadline_of a' x = deadline_of a x;
  pi_left : forall x, th quantum_left a' x =
    if decide (x = hd (idl a) (ready a) /\ x <> NULL) then quantum a else th quantum_left a x;
  pi_state : forall x, th state a' x =
    if decide (x = hd (idl a) (ready a) /\ x <> NULL) then NS_THREAD_RUNNING else th state a x }.

Definition rescheduled a a' : Prop := exists a1, parked a a1 /\ picked a1 a'.

Lemma wp_switch_null a : idl a = NULL -> wp (lift (switch_to NULL)) (fun _ a' => a' = a) a.
Proof.
  intros Hi. unfold switch_to. wp_run. change (NULL =? NULL) with true. cbn iota.
  unview. rewrite Hi. change (NULL =? NULL) with true. cbn iota. by wp_run.
Qed.

(** Dispatching from the state in which the head has been taken off the queue. *)
Lemma inv_picked D a a' n :
  inv D a -> (forall x, ok a x -> th state a x <> NS_THREAD_RUNNING) ->
  n = hd (idl a) (ready a) -> n <> NULL ->
  restate a a' n NS_THREAD_RUNNING -> picked a a' -> inv D a'.
Proof.
  intros Hinv Hrun -> Hn Hre []. rewrite (proj2 (Z.eqb_neq _ _) Hn) in pi_cur0.
  destruct (ready a) as [|h r] eqn:Hr; cbn [hd tail] in *.
  - eapply inv_idle_state; [done|done|done|by right|done|by rewrite Hr|done|done| |done|].
    + right. rewrite pi_cur0. by destruct (i_idle _ _ Hinv) as [|[]].
    + intros x Hx _ Hst. by apply Hrun in Hst.
  - by eapply inv_dispatch.
Qed.

Lemma wp_pick D a token :
  inv D a -> (forall x, ok a x -> th state a x <> NS_THREAD_RUNNING) ->
  wp (next ← a_pop;
      idl ← lift (gs idle);
      let next := if next =? NULL then idl else next in
      lift (ss reschedule_pending 0);;
      lift (switch_to next);;
      lift (leave_critical token)) (fun _ a' => inv D a' /\ picked a a') a.
Proof.
  intros Hinv Hrun. set (n := hd (idl a) (ready a)).
  assert (Hsel : (if hd NULL (ready a) =? NULL then idl a else hd NULL (ready a)) = n).
  { subst n. destruct (ready a) as [|h r] eqn:Hr; [done|]. cbn [hd].
    rewrite (proj2 (Z.eqb_neq h NULL)); [done|].
    eapply inv_ok_nonnull; [done|]. apply Hinv. rewrite Hr. left. }
  apply wp_bind, wp_pop, wp_bind, wp_lift_gs. cbn beta zeta.
  change (idle (sched (kernel (set_ready (tail (ready a)) a)))) with (idl a). rewrite Hsel.
  apply wp_bind, wp_lift_ss, wp_bind. set (a0 := set_kernel _ _).
  destruct (decide (n = NULL)) as [Hn|Hn].
  - rewrite Hn. assert (ready a = [] /\ idl a = NULL) as [Hr Hi].
    { subst n. destruct (ready a) as [|h r] eqn:Hr; [done|]. cbn in Hn. subst h.
      destruct (i_valid _ _ Hinv NULL) as [x Hx]; [rewrite Hr; left|].
      by rewrite (i_null _ _ Hinv) in Hx. }
    eapply wp_mono; [by apply wp_switch_null|]. intros [] ? ->. wp_step.
    subst a0. split; [eapply inv_inert; [done|facts; by rewrite Hr]|].
    facts; rewrite ?Hr; cbn [hd]; rewrite ?Hi; try done; rewrite decide_False; naive_solver.
  - assert (ok a n /\ (th process a n = NULL \/ is_Some (spaces (kernel a) !! th process a n))) as [Hok Hsp].
    { assert (Hok : ok a n); [|split; [done|by apply Hinv]]. subst n.
      destruct (ready a) as [|h r] eqn:Hr; cbn [hd] in *.
      - by destruct (i_idle _ _ Hinv) as [|[]].
      - apply Hinv. rewrite Hr. left. }
    eapply wp_mono; [by apply wp_switch_to|]. intros [] a2 Hd. wp_step.
    assert (Hdec : forall A x (u v : A), (if decide (x = n) then u else v)
      = if decide (x = hd (idl a) (ready a) /\ x <> NULL) then u else v).
    { intros A x u v. repeat case_decide; naive_solver. }
    pose proof Hd as [[] ? ? ? ? ? ? ? ? ?].
    assert (Hp : picked a (set_kernel (set_env e (kernel a2)) a2)).
    { constructor; intros; rewrite <- ?Hdec; try done.
      - change (cur a2 = if n =? NULL then cur a else n). by rewrite (proj2 (Z.eqb_neq n NULL) Hn).
      - exact (di_deadline0 x).
      - exact (di_left0 x).
      - exact (rs_state0 x). }
    split; [|done]. apply (inv_picked D a _ n); [done|done|done|done| |done].
    constructor; [exact rs_null0|exact rs_ok0|exact rs_idl0|exact rs_spaces0|exact rs_flags0
      |exact rs_process0|exact rs_state0|intros x _; exact (di_deadline0 x)].
Qed.

(** The scheduler can name a thread to run. *)
Definition booted a : Prop := cur a <> NULL \/ idl a <> NULL.

Lemma wp_parked D a a1 token :
  inv D a1 -> parked a a1 ->
  wp (next ← a_pop;
      idl ← lift (gs idle);
      let next := if next =? NULL then idl else next in
      lift (ss reschedule_pending 0);;
      lift (switch_to next);;
      lift (leave_critical token)) (fun _ a' => inv D a' /\ rescheduled a a') a1.
Proof.
  intros Hinv Hp. eapply wp_mono; [apply wp_pick; [done|apply Hp]|].
  intros [] a' [Hi Hpi]. split; [done|]. by exists a1.
Qed.

Lemma running_is_cur D a x :
  inv D a -> ok a x -> th state a x = NS_THREAD_RUNNING -> x = cur a /\ cur a <> NULL.
Proof.
  intros Hinv Hx Hst. pose proof (i_running _ _ Hinv x Hx Hst) as ->. split; [done|].
  intros Hn. rewrite Hn in Hx. destruct Hx. by rewrite (i_null _ _ Hinv) in *.
Qed.

(** The three ways the current thread leaves the processor. *)
Lemma parked_other D a a1 :
  inv D a -> ~ runs a -> cur a <> idl a -> inert a a1 -> depth a1 = depth a ->
  quantum a1 = quantum a -> (forall x, th quantum_left a1 x = th quantum_left a x) ->
  inv D a1 /\ parked a a1.
Proof.
  intros Hinv Hnr Hci Hin Hd Hq Hl. split; [by eapply inv_inert|]. destruct Hin.
  constructor; try done.
  - unfold requeued. by rewrite decide_False.
  - intros x. rewrite decide_False; [done|]. naive_solver.
  - intros x Hx Hst. rewrite in_state0 in Hst. apply in_ok0 in Hx.
    destruct (running_is_cur D a x) as [-> Hn]; [done..|]. by apply Hnr.
Qed.

Lemma parked_idle D a a1 :
  inv D a -> cur a = idl a -> idl a <> NULL -> restate a a1 (idl a) NS_THREAD_READY ->
  cur a1 = cur a -> ready a1 = ready a -> blocked a1 = blocked a -> sleeping a1 = sleeping a ->
  (forall x, deadline_of a1 x = deadline_of a x) -> depth a1 = depth a ->
  quantum a1 = quantum a -> (forall x, th quantum_left a1 x = th quantum_left a x) ->
  inv D a1 /\ parked a a1.
Proof.
  intros Hinv Hci Hi Hre Hc Hr Hb Hs Hdl Hd Hq Hl. split.
  - eapply inv_idle_state; [done|done|done|by left|done|done|done|done| |done|].
    + rewrite Hc. apply Hinv.
    + intros x Hx Hne Hst. rewrite Hc. by apply Hinv.
  - destruct Hre. assert (~ runs a) by (intros (_ & ? & _); done). constructor; try done.
    + unfold requeued. by rewrite decide_False.
    + intros x. rewrite rs_state0. repeat case_decide; naive_solver congruence.
    + intros x Hx. rewrite rs_state0. apply rs_ok0 in Hx. case_decide; [done|]. intros Hst.
      destruct (running_is_cur D a x) as [? _]; [done..|]. congruence.
Qed.

Lemma parked_runs D a a1 :
  inv D a -> runs a -> restate a a1 (cur a) NS_THREAD_READY ->
  cur a1 = cur a -> ready a1 = ready a ++ [cur a] -> blocked a1 = blocked a ->
  sleeping a1 = sleeping a ->
  (forall x, deadline_of a1 x = deadline_of a x) -> depth a1 = depth a ->
  quantum a1 = quantum a -> (forall x, th quantum_left a1 x = th quantum_left a x) ->
  inv D a1 /\ parked a a1.
Proof.
  intros Hinv Hru Hre Hc Hr Hb Hs Hdl Hd Hq Hl. split; [by eapply inv_requeue|].
  destruct Hre. constructor; try done.
  - unfold requeued. by rewrite decide_True.
  - intros x. rewrite rs_state0. repeat case_decide; naive_solver.
  - intros x Hx. rewrite rs_state0. apply rs_ok0 in Hx. case_decide; [done|]. intros Hst.
    destruct (running_is_cur D a x) as [? _]; [done..|]. congruence.
Qed.

Lemma wp_reschedule D a s :
  inv D a -> booted a -> s <> NULL -> depth a = 0 ->
  wp (a_reschedule s) (fun _ a' => inv D a' /\ rescheduled a a') a.
Proof.
  intros Hinv Hboot Hs Hd. unfold a_reschedule. rewrite (proj2 (Z.eqb_neq s NULL) Hs).
  wp_run. rewrite Hd. cbn [negb Z.eqb]. wp_run. set (a0 := set_kernel _ a).
  change (current (sched (kernel a))) with (cur a). change (idle (sched (kernel a))) with (idl a).
  destruct (Z.eqb_spec (cur a) (idl a)) as [Hci|Hci]; cbn [negb andb].
  - assert (Hi : idl a <> NULL) by (destruct Hboot; congruence).
    rewrite andb_false_r. apply wp_ret, wp_bind.
    destruct (i_idle _ _ Hinv) as [|[Hok _]]; [done|]. rewrite Hci. apply wp_lift_st; [done|].
    name_state a1. destruct (parked_idle D a a1) as [Hi1 Hp]; [done..| | | | | | | | | |by eapply wp_parked];
      try done; subst a1.
    + facts.
    + intros. by view_fields.
    + intros. by view_fields.
  - rewrite andb_true_r. destruct (Z.eqb_spec (cur a) NULL) as [Hc|Hc]; cbn [negb].
    + apply wp_ret, wp_bind, wp_ret.
      name_state a1.
      destruct (parked_other D a a1) as [Hi1 Hp]; [done|by intros []|done|..|by eapply wp_parked];
        done.
    + assert (Hok : ok a (cur a)) by by eapply inv_cur_ok.
      apply wp_bind, wp_lift_ld; [done|]. apply wp_ret, wp_bind.
      change (th state a0 (cur a)) with (th state a (cur a)).
      destruct (decide (th state a (cur a) = NS_THREAD_RUNNING)) as [Hst|Hst].
      * rewrite bool_decide_eq_true_2 by done.
        destruct (inv_not_listed D a (cur a) _ Hinv Hst) as (Hnr & _); [done..|].
        apply wp_bind, wp_lift_st; [done|]. apply wp_insert; [by view_fields|done|].
        name_state a1. destruct (parked_runs D a a1) as [Hi1 Hp]; [done..| | | | | | | | | |by eapply wp_parked];
          try done; subst a1.
        -- facts.
        -- intros. by view_fields.
        -- intros. by view_fields.
      * rewrite bool_decide_eq_false_2 by done. apply wp_ret.
        name_state a1.
        destruct (parked_other D a a1) as [Hi1 Hp]; [done|by intros (_ & _ & ?)|done|..|by eapply wp_parked];
          done.
Qed.

(** With preemption disabled the switch is deferred. *)
Record deferred a a' : Prop := {
  de_inert : inert a a';
  de_pending : pending a' = 1;
  de_depth : depth a' = depth a;
  de_quantum : quantum a' = quantum a;
  de_left : forall x, th quantum_left a' x = th quantum_left a x }.

Definition switched a a' : Prop := if depth a =? 0 then rescheduled a a' else deferred a a'.

Lemma wp_reschedule_any D a s :
  inv D a -> booted a -> s <> NULL ->
  wp (a_reschedule s) (fun _ a' => inv D a' /\ switched a a') a.
Proof.
  intros Hinv Hboot Hs. unfold switched. destruct (Z.eqb_spec (depth a) 0) as [Hd|Hd].
  - by apply wp_reschedule.
  - unfold a_reschedule. rewrite (proj2 (Z.eqb_neq s NULL) Hs). wp_run.
    rewrite (proj2 (Z.eqb_neq _ _) Hd). cbn [negb]. wp_run.
    split; [eapply inv_inert; [done|facts]|]. facts.
Qed.

Lemma rescheduled_booted a a' : rescheduled a a' -> booted a -> booted a'.
Proof.
  intros (a1 & [] & []) Hb. unfold booted in *. rewrite pi_cur0, pi_idl0, pk_idl0, pk_cur0.
  destruct (Z.eqb_spec (hd (idl a) (ready a1)) NULL); tauto.
Qed.

(** *** A thread becomes ready, blocked, asleep or dead *)

Lemma inv_make_ready D a a' t :
  inv D a -> restate a a' t NS_THREAD_READY -> ok a t -> t ∉ ready a -> t <> idl a ->
  cur a' = cur a -> ready a' = ready a ++ [t] -> blocked a' = without t (blocked a) ->
  sleeping a' = without t (sleeping a) -> inv D a'.
Proof.
  intros Hinv Hr Hok Hn Hi Hc Hq Hb Hs.
  pose proof (i_nodup _ _ Hinv) as (Hnr & Hnb & Hns & _)%nodup_parts.
  eapply inv_move; [done|done| |done|done|rewrite Hc; apply Hinv|done|].
  - constructor; rewrite ?Hq, ?Hb, ?Hs; try by apply without_NoDup.
    + by apply nodup_snoc.
    + intros x. by apply mem_snoc.
    + intros x. by apply mem_without.
    + intros x. by apply mem_without.
    + apply (sorted_ext a); [|apply sorted_without, Hinv].
      intros x [Hx _]%elem_of_without. by apply Hr.
  - intros x Hx _. rewrite Hc. by apply Hinv.
Qed.

Lemma insert_by_perm p (t : Z) l : insert_by p t l ≡ₚ t :: l.
Proof.
  induction l as [|x l IH]; cbn; [done|]. destruct (p x); [|done]. rewrite IH. constructor.
Qed.

Lemma mem_insert_by p (t : Z) l x (P : Prop) :
  t ∉ l -> P -> x ∈ insert_by p t l <-> x <> t /\ x ∈ l \/ x = t /\ P.
Proof. intros Ht HP. rewrite insert_by_perm. by apply mem_cons. Qed.

Lemma sorted_insert_by (f : Z -> Z) d t l :
  f t = d -> StronglySorted (fun x y => f x <= f y) l ->
  StronglySorted (fun x y => f x <= f y) (insert_by (fun x => f x <=? d) t l).
Proof.
  intros Hd. induction 1 as [|x l Hs IH Hx]; cbn; [by repeat constructor|].
  destruct (Z.leb_spec (f x) d) as [Hle|Hgt].
  - constructor; [done|]. rewrite insert_by_perm. constructor; [lia|done].
  - constructor; [by constructor|]. constructor; [lia|].
    eapply Forall_impl; [exact Hx|]. cbn. intros y Hy. lia.
Qed.

(** The running current thread leaves the processor for [s]. *)
Lemma inv_leave D a a' s :
  inv D a -> runs a -> restate a a' (cur a) s -> cur a' = cur a -> ready a' = ready a ->
  s <> NS_THREAD_READY -> s <> NS_THREAD_RUNNING ->
  blocked a' = (if decide (s = NS_THREAD_BLOCKED) then cur a :: blocked a else blocked a) ->
  sleeping a' = (if decide (s = NS_THREAD_SLEEPING)
    then insert_by (due a (deadline_of a' (cur a))) (cur a) (sleeping a) else sleeping a) ->
  inv D a'.
Proof.
  intros Hinv (Hn & Hi & Hst) Hre Hc Hr Hs1 Hs2 Hb Hs.
  destruct (inv_not_listed D a (cur a) _ Hinv Hst) as (H1 & H2 & H3); [done..|].
  pose proof (i_nodup _ _ Hinv) as (Hnr & Hnb & Hns & _)%nodup_parts.
  assert (Hdl : forall x, x ∈ sleeping a -> deadline_of a' x = deadline_of a x).
  { intros x Hx. apply Hre. by intros ->. }
  eapply inv_move; [done|done| |by eapply inv_cur_ok|done|rewrite Hc; apply Hinv|done|].
  - constructor; rewrite ?Hr, ?Hb, ?Hs; clear Hb Hs.
    + done.
    + case_decide; [|done]. by apply NoDup_cons.
    + case_decide; [|done]. rewrite insert_by_perm. by apply NoDup_cons.
    + intros x. apply mem_same; [done|]. by intros [? _].
    + intros x. case_decide; [by apply mem_cons|by apply mem_same].
    + intros x. case_decide; [by apply mem_insert_by|by apply mem_same].
    + case_decide; [|apply (sorted_ext a); [done|apply Hinv]].
      rewrite (insert_by_ext _ (fun x => deadline_of a' x <=? deadline_of a' (cur a))).
      * apply (sorted_insert_by (deadline_of a')); [done|].
        apply (sorted_ext a); [done|apply Hinv].
      * intros x Hx. unfold due. by rewrite (Hdl x Hx).
  - intros x Hx _. rewrite Hc. by apply Hinv.
Qed.

(** *** The operations *)

Lemma wp_add D a s t :
  inv D a -> t = NULL \/ ok a t ->
  wp (a_add s t) (fun _ a' => inv D a' /\ cur a' = cur a /\ idl a' = idl a) a.
Proof.
  intros Hinv Ht. unfold a_add. destruct (Z.eqb_spec s NULL); cbn [orb]; [by wp_run|].
  destruct (Z.eqb_spec t NULL); [by wp_run|]. destruct Ht as [?|Hok]; [done|]. wp_run.
  match goal with |- context [if ?c then _ else _] => destruct c eqn:Hg end.
  - wp_run. split_and!; [|done|done]. eapply inv_inert; [done|facts].
  - apply orb_false_iff in Hg as [Hg Hfl]. apply orb_false_iff in Hg as [Hg Hz].
    apply orb_false_iff in Hg as [Hq Hrun].
    assert (t ∉ ready a) as Hn by (intros H; by rewrite bool_decide_eq_true_2 in Hq).
    assert (t <> idl a) as Hi.
    { intros ->. destruct (i_idle _ _ Hinv) as [|(_ & _ & Hf & _)]; [done|].
      apply negb_false_iff, Z.eqb_eq in Hfl. by apply Hf. }
    wp_run. apply wp_insert; [by view_fields|done|]. wp_run.
    split_and!; [|done|done]. eapply (inv_make_ready D a _ t); try done. facts.
Qed.

(** What every operation guarantees: the invariant, a thread to run, and no
    switch while preemption is disabled. *)
Record safe (D : list Z) a a' : Prop := {
  sf_inv : inv D a';
  sf_cur : depth a <> 0 -> cur a' = cur a;
  sf_booted : booted a -> booted a' }.

Lemma switched_safe D a a' : inv D a' -> switched a a' -> safe D a a'.
Proof.
  intros Hinv Hs. unfold switched in Hs. destruct (Z.eqb_spec (depth a) 0) as [Hd|Hd].
  - split; [done|done|]. by apply rescheduled_booted.
  - destruct Hs as [[]]. split; [done|done|]. unfold booted. congruence.
Qed.

Lemma safe_trans D D' a a1 a2 :
  safe D a a1 -> depth a1 = depth a -> safe D' a1 a2 -> safe D' a a2.
Proof.
  intros [] Hd []. constructor; [done| |auto]. intros H. rewrite sf_cur1 by congruence. auto.
Qed.

(** A last step that may reschedule. *)
Lemma wp_then_reschedule D a a1 s b :
  inv D a1 -> cur a1 = cur a -> idl a1 = idl a -> depth a1 = depth a -> booted a -> s <> NULL ->
  wp (when b (a_reschedule s)) (fun _ a' => safe D a a' /\ (if b then switched a1 a' else a' = a1)) a1.
Proof.
  intros Hinv Hc Hi Hd Hb Hs. assert (Hb1 : booted a1) by (unfold booted in *; congruence).
  apply wp_when; intros ->.
  - eapply wp_mono; [by apply wp_reschedule_any|]. intros [] a' [Hinv' Hsw]. split; [|done].
    apply (safe_trans D _ _ a1); [split; [done|done|done]|done|by apply switched_safe].
  - split; [split; [done|done|done]|done].
Qed.

Lemma wp_yield D a s :
  inv D a -> booted a -> wp (a_yield s) (fun _ a' => safe D a a') a.
Proof.
  intros Hinv Hb. unfold a_yield. destruct (Z.eqb_spec s NULL); [wp_run; by split|]. wp_run.
  eapply wp_mono; [apply (wp_then_reschedule D a); try done|by intros [] ? []].
  eapply inv_inert; [done|facts].
Qed.

Lemma wp_prepare_block D a s kind key :
  inv D a -> cur a = NULL \/ cur a = idl a \/ th state a (cur a) = NS_THREAD_RUNNING ->
  wp (a_prepare_block s kind key) (fun _ a' => inv D a' /\ cur a' = cur a /\ idl a' = idl a /\
    depth a' = depth a /\
    (runs a -> s <> NULL -> kind <> NS_WAIT_NONE ->
       blocked a' = cur a :: blocked a /\ th wait_kind a' (cur a) = kind /\
       th wait_key a' (cur a) = key /\ th state a' (cur a) = NS_THREAD_BLOCKED)) a.
Proof.
  intros Hinv Hcase. unfold a_prepare_block. destruct (Z.eqb_spec s NULL); [by wp_run|].
  wp_run. change (current (sched (kernel a))) with (cur a).
  destruct (Z.eqb_spec (cur a) NULL) as [Hc|Hc]; cbn [orb]; [wp_run; split_and!; try done; by intros []|].
  case_bool_decide as Hk; [by wp_run|].
  assert (Hok : ok a (cur a)) by by eapply inv_cur_ok. wp_run.
  change (current (sched (kernel a))) with (cur a) in *.
  change (idle (sched (kernel a))) with (idl a) in *.
  destruct (Z.eqb_spec (cur a) (idl a)) as [Hci|Hci].
  - wp_run. split_and!; try done; [|by intros (_ & ? & _)]. eapply inv_inert; [done|facts].
  - destruct Hcase as [?|[?|Hst]]; [done|done|].
    assert (Hru : runs a) by done.
    destruct (inv_not_listed D a (cur a) _ Hinv Hst) as (H1 & H2 & H3); [done..|].
    wp_run. apply wp_block_push; [by view_fields|done|]. wp_run. split_and!; try done.
    + eapply (inv_leave D a _ NS_THREAD_BLOCKED); try done. facts.
    + intros _ _ _. view_fields. by rewrite !decide_True.
Qed.

(** A woken current thread goes back to running. *)
Lemma inv_resume D a a' :
  inv D a -> cur a <> NULL -> cur a ∈ ready a -> restate a a' (cur a) NS_THREAD_RUNNING ->
  (forall x, deadline_of a' x = deadline_of a x) ->
  cur a' = cur a -> ready a' = without (cur a) (ready a) -> blocked a' = blocked a ->
  sleeping a' = sleeping a -> inv D a'.
Proof.
  intros Hinv Hc Hin Hre Hd Hcc Hr Hb Hs.
  pose proof (i_nodup _ _ Hinv) as (Hnr & Hnb & Hns & Hrb & Hrs & _)%nodup_parts.
  eapply inv_move; [done|done| |by eapply inv_cur_ok|auto|rewrite Hcc; apply Hinv|done|].
  - constructor; rewrite ?Hr, ?Hb, ?Hs; try done.
    + by apply without_NoDup.
    + intros x. apply mem_without. by intros [? _].
    + intros x. apply mem_same; [by apply Hrb|done].
    + intros x. apply mem_same; [by apply Hrs|done].
    + apply (sorted_ext a); [auto|apply Hinv].
  - intros x Hx _. rewrite Hcc. by apply Hinv.
Qed.

Lemma wp_commit_block D a s :
  inv D a -> wp (a_commit_block s) (fun _ a' => safe D a a' /\
    (s <> NULL -> cur a <> NULL -> cur a ∈ ready a ->
       cur a' = cur a /\ th state a' (cur a) = NS_THREAD_RUNNING /\
       ready a' = without (cur a) (ready a))) a.
Proof.
  intros Hinv. unfold a_commit_block.
  destruct (Z.eqb_spec s NULL) as [|Hs]; [wp_run; by split; [split|]|].
  wp_run. change (current (sched (kernel a))) with (cur a).
  destruct (Z.eqb_spec (cur a) NULL) as [Hc|Hc]; [wp_run; by split; [split|]|].
  assert (Hok : ok a (cur a)) by by eapply inv_cur_ok.
  assert (Hb : booted a) by by left.
  wp_run. change (current (sched (kernel a))) with (cur a) in *.
  case_bool_decide as Hst.
  - wp_run. eapply wp_mono; [apply (wp_then_reschedule D a); try done|].
    + eapply inv_inert; [done|facts].
    + intros [] a' [Hsf _]. split; [done|]. intros _ _ Hin.
      apply (i_ready _ _ Hinv) in Hin. unfold th in Hin. congruence.
  - case_bool_decide as Hrd.
    + wp_run. destruct (decide (cur a ∈ ready a)) as [Hin|Hin].
      * rewrite bool_decide_eq_true_2 by done. cbn [b2z Z.eqb negb]. wp_run.
        apply wp_ready_remove; [by view_fields|]. wp_run.
        split.
        { split; [|done|done]. eapply (inv_resume D a); try done; [facts|]. intros. by view_fields. }
        intros _ _ _. split_and!; [done| |done]. view_fields. by rewrite decide_True.
      * rewrite bool_decide_eq_false_2 by done. cbn [b2z Z.eqb negb]. wp_run.
        split; [|by intros]. split; [|done|done]. eapply inv_inert; [done|facts].
    + wp_run. cbn [negb Z.eqb]. wp_run. split.
      * split; [|done|done]. eapply inv_inert; [done|facts].
      * intros _ _ Hin. by apply (i_ready _ _ Hinv) in Hin.
Qed.

Lemma wp_sleep_until D a s d :
  inv D a -> cur a = NULL \/ cur a = idl a \/ th state a (cur a) = NS_THREAD_RUNNING ->
  wp (a_sleep_until s d) (fun _ a' => safe D a a') a.
Proof.
  intros Hinv Hcase. unfold a_sleep_until. destruct (Z.eqb_spec s NULL) as [|Hs]; [by wp_run|].
  wp_run. change (current (sched (kernel a))) with (cur a).
  destruct (Z.eqb_spec (cur a) NULL) as [Hc|Hc]; [by wp_run|].
  assert (Hok : ok a (cur a)) by by eapply inv_cur_ok. wp_run.
  change (current (sched (kernel a))) with (cur a) in *.
  change (idle (sched (kernel a))) with (idl a) in *.
  destruct (Z.eqb_spec (cur a) (idl a)) as [Hci|Hci].
  - wp_run. split; [|done|done]. eapply inv_inert; [done|facts].
  - destruct Hcase as [?|[?|Hst]]; [done|done|]. assert (Hru : runs a) by done.
    destruct (inv_not_listed D a (cur a) _ Hinv Hst) as (H1 & H2 & H3); [done..|].
    wp_run. apply wp_sleep_insert; [by view_fields|done|]. wp_run.
    eapply wp_mono; [apply (wp_then_reschedule D a); try done; [|by left]|by intros [] ? []].
    eapply (inv_leave D a _ NS_THREAD_SLEEPING); try done; [facts|].
    view. rewrite decide_True by done. apply insert_by_ext. intros x Hx. view_fields.
    rewrite (decide_False (P := x = _)) by (by intros ->). by rewrite decide_True.
Qed.

Lemma wp_terminate D a s :
  inv D a -> cur a = NULL \/ cur a = idl a \/ th state a (cur a) = NS_THREAD_RUNNING ->
  wp (a_terminate_current s) (fun _ a' => safe D a a') a.
Proof.
  intros Hinv Hcase. unfold a_terminate_current. destruct (Z.eqb_spec s NULL) as [|Hs]; [by wp_run|].
  wp_run. change (current (sched (kernel a))) with (cur a).
  change (idle (sched (kernel a))) with (idl a).
  destruct (Z.eqb_spec (cur a) NULL) as [Hc|Hc]; cbn [orb]; [by wp_run|].
  destruct (Z.eqb_spec (cur a) (idl a)) as [Hci|Hci]; [by wp_run|].
  assert (Hok : ok a (cur a)) by by eapply inv_cur_ok. wp_run.
  destruct Hcase as [?|[?|Hst]]; [done|done|].
  eapply wp_mono; [apply (wp_then_reschedule D a); try done; [|by left]|by intros [] ? []].
  eapply (inv_leave D a _ NS_THREAD_ZOMBIE); try done. facts.
Qed.

Lemma wp_preempt_disable D a s :
  inv D a -> wp (a_preempt_disable s) (fun _ a' => safe D a a' /\ cur a' = cur a) a.
Proof.
  intros Hinv. unfold a_preempt_disable, ns_sched_preempt_disable.
  destruct (Z.eqb_spec s NULL) as [|Hs]; [wp_run; by split; [split|]|]. wp_run.
  split; [split; [|done|done]|done]. eapply inv_inert; [done|facts].
Qed.

(** Enabling preemption: the deferred switch happens when the last lock goes. *)
Definition enabled a a' : Prop :=
  if (depth a =? 1) && negb (pending a =? 0)
  then exists a1, inert a a1 /\ quantum a1 = quantum a /\ rescheduled a1 a'
  else depth a <> 0 -> u32 (depth a - 1) <> 0 -> cur a' = cur a.

Lemma wp_preempt_enable D a s :
  inv D a -> booted a ->
  wp (a_preempt_enable s) (fun _ a' => inv D a' /\ (booted a -> booted a') /\
    (s <> NULL -> is_u32 (depth a) -> enabled a a')) a.
Proof.
  intros Hinv Hb. unfold a_preempt_enable.
  destruct (Z.eqb_spec s NULL) as [|Hs]; [wp_run; by split_and!|]. wp_run.
  change (preempt_disable_depth (sched (kernel a))) with (depth a) in *.
  apply wp_when; intros Hd; wp_run;
    change (preempt_disable_depth (sched (kernel a))) with (depth a) in *;
    change (reschedule_pending (sched (kernel a))) with (pending a) in *; name_state a1;
    assert (Hin : inert a a1) by (subst a1; facts);
    assert (Hinv1 : inv D a1) by (by eapply inv_inert).
  - apply negb_true_iff, Z.eqb_neq in Hd. apply wp_when; intros Hcond.
    + apply andb_true_iff in Hcond as [Hz Hp]. apply Z.eqb_eq in Hz.
      eapply wp_mono; [apply (wp_reschedule D); try done|].
      intros [] a' [Hi' Hre]. split_and!; [done| |].
      * by intros _; eapply rescheduled_booted.
      * intros _ Hr. unfold enabled. rewrite u32_small in Hz by lia.
        rewrite (proj2 (Z.eqb_eq (depth a) 1)), Hp by lia. by exists a1.
    + split_and!; [done|done|]. intros _ Hr. unfold enabled.
      destruct ((depth a =? 1) && negb (pending a =? 0)) eqn:Hc; [|done].
      apply andb_true_iff in Hc as [Hd1%Z.eqb_eq Hp]. by rewrite Hd1, Hp in Hcond.
  - apply negb_false_iff, Z.eqb_eq in Hd. rewrite Hd. cbn [Z.eqb andb].
    apply wp_when; intros Hp.
    + eapply wp_mono; [apply (wp_reschedule D); try done|].
      intros [] a' [Hi' Hre]. split_and!; [done| |].
      * by intros _; eapply rescheduled_booted.
      * intros _ Hr. unfold enabled. rewrite Hd. cbn [Z.eqb andb]. done.
    + split_and!; [done|done|]. intros _ Hr. unfold enabled. rewrite Hd. cbn [Z.eqb andb]. done.
Qed.

Lemma wp_wake_thread D a s t :
  inv D a -> t = NULL \/ ok a t ->
  wp (a_wake_thread s t) (fun _ a' => inv D a' /\ cur a' = cur a /\ idl a' = idl a) a.
Proof.
  intros Hinv Ht. unfold a_wake_thread. destruct (Z.eqb_spec s NULL); cbn [orb]; [by wp_run|].
  destruct (Z.eqb_spec t NULL); [by wp_run|]. destruct Ht as [?|Hok]; [done|]. wp_run.
  match goal with |- context [if ?c then _ else _] => destruct c eqn:Hg end.
  - wp_run. split_and!; [|done|done]. eapply inv_inert; [done|facts].
  - assert (Hst : th state a t = NS_THREAD_BLOCKED \/ th state a t = NS_THREAD_SLEEPING).
    { apply andb_false_iff in Hg as [Hg|Hg]; apply negb_false_iff, bool_decide_eq_true in Hg; auto. }
    assert (t ∉ ready a) as Hn.
    { intros H%(i_ready _ _ Hinv). rewrite H in Hst. by destruct Hst. }
    assert (t <> idl a) as Hi.
    { intros ->. destruct (i_idle _ _ Hinv) as [|(_ & _ & _ & [Hx|Hx])]; [done|..];
        rewrite Hx in Hst; by destruct Hst. }
    wp_run. apply wp_insert; [by view_fields|done|]. wp_run.
    split_and!; [|done|done]. eapply (inv_make_ready D a _ t); try done. facts.
Qed.

Lemma inv_set_idle D a a' t :
  inv D a -> idl a = NULL -> ok a t -> t ∉ ready a -> t ∉ blocked a -> t ∉ sleeping a ->
  threads (kernel a') !! NULL = threads (kernel a) !! NULL -> (forall x, ok a' x <-> ok a x) ->
  idl a' = t -> cur a' = cur a -> spaces (kernel a') = spaces (kernel a) ->
  Z.land (th flags a' t) NS_THREAD_IDLE <> 0 -> (forall x, th process a' x = th process a x) ->
  (forall x, th state a' x = if decide (x = t) then NS_THREAD_READY else th state a x) ->
  (forall x, deadline_of a' x = deadline_of a x) ->
  ready a' = ready a -> blocked a' = blocked a -> sleeping a' = sleeping a -> inv D a'.
Proof.
  intros [] Hi Hok Hnr Hnb Hns Hnull Hoks Hidl Hcur Hsp Hfl Hpr Hst Hd Hr Hb Hs.
  constructor; rewrite ?Hr, ?Hb, ?Hs, ?Hcur, ?Hidl, ?Hsp; try done.
  - congruence.
  - intros x Hx. by apply Hoks, i_valid0.
  - intros x Hx. rewrite Hst. case_decide; [done|]. by apply i_ready0.
  - intros x Hx. rewrite Hst, decide_False by congruence. by apply i_blocked0.
  - intros x Hx. rewrite Hst, decide_False by congruence. by apply i_sleeping0.
  - intros x Hx%Hoks. rewrite Hst. case_decide; [done|]. by apply i_running0.
  - destruct i_cur0; [by left|right]. by apply Hoks.
  - right. split_and!; [by apply Hoks|done|done|left]. by rewrite Hst, decide_True.
  - intros x Hx%Hoks. rewrite Hpr. by apply i_space0.
  - apply (sorted_ext a); [auto|done].
  - intros x Hx%Hoks Hxt HD. rewrite Hst, decide_False by done. apply i_listed0; [done| |done].
    rewrite Hi. intros ->. destruct Hx. congruence.
Qed.

Lemma idle_flag f : Z.land (Z.lor f (Z.lor NS_THREAD_IDLE NS_THREAD_KERNEL)) NS_THREAD_IDLE <> 0.
Proof.
  rewrite Z.land_lor_distr_l. intros [_ H]%Z.lor_eq_0_iff. discriminate H.
Qed.

Lemma wp_set_idle D a s t :
  inv D a -> t = NULL \/ ok a t /\ (t ∉ blocked a) /\ (t ∉ sleeping a) ->
  wp (a_set_idle s t) (fun x a' => inv D a' /\ cur a' = cur a /\ (booted a -> booted a') /\
    (s <> NULL -> t <> NULL -> x = 0 -> idl a' = t)) a.
Proof.
  intros Hinv Ht. unfold a_set_idle. destruct (Z.eqb_spec s NULL); cbn [orb]; [by wp_run|].
  destruct (Z.eqb_spec t NULL) as [|Htn]; [by wp_run|].
  destruct Ht as [?|(Hok & Hnb & Hns)]; [done|]. wp_run.
  change (idle (sched (kernel a))) with (idl a).
  destruct (Z.eqb_spec (idl a) NULL) as [Hi|Hi]; cbn [negb].
  2:{ wp_run. cbn [negb Z.eqb]. wp_run. split_and!; try done. eapply inv_inert; [done|facts]. }
  wp_run. destruct (decide (t ∈ ready a)) as [Hr|Hr].
  - rewrite bool_decide_eq_true_2 by done. cbn [b2z negb Z.eqb]. wp_run.
    split_and!; try done. eapply inv_inert; [done|facts].
  - rewrite bool_decide_eq_false_2 by done. cbn [b2z negb Z.eqb]. wp_run.
    split_and!; try done.
    + eapply (inv_set_idle D a _ t); intros; view_fields; rewrite ?lookup_alter_ne by congruence;
        try done. rewrite decide_True by done. apply idle_flag.
    + intros _. by right.
Qed.

Lemma inv_remove D a a' t :
  inv D a -> inert a (a' <| ready := ready a |> <| blocked := blocked a |> <| sleeping := sleeping a |>) ->
  ready a' = without t (ready a) -> blocked a' = without t (blocked a) ->
  sleeping a' = without t (sleeping a) -> inv (t :: D) a'.
Proof.
  intros [] [] Hr Hb Hs. view.
  pose proof i_nodup0 as (Hnr & Hnb & Hns & Hrb & Hrs & Hbs)%nodup_parts.
  constructor; view; rewrite ?Hr, ?Hb, ?Hs, ?in_cur0, ?in_idl0, ?in_spaces0, ?in_flags0; try congruence.
  - apply nodup_parts. split_and!; try by apply without_NoDup.
    + intros x [_ Hx]%elem_of_without [_ ?]%elem_of_without. by eapply Hrb.
    + intros x [_ Hx]%elem_of_without [_ ?]%elem_of_without. by eapply Hrs.
    + intros x [_ Hx]%elem_of_without [_ ?]%elem_of_without. by eapply Hbs.
  - intros x Hx. apply in_ok0, i_valid0. rewrite !elem_of_app, !elem_of_without in *. tauto.
  - intros x [_ Hx]%elem_of_without. rewrite in_state0. by apply i_ready0.
  - intros x [_ Hx]%elem_of_without. rewrite in_state0. by apply i_blocked0.
  - intros x [_ Hx]%elem_of_without. rewrite in_state0. by apply i_sleeping0.
  - intros x Hx%in_ok0. rewrite in_state0. by apply i_running0.
  - by rewrite in_ok0.
  - rewrite in_ok0, in_state0, elem_of_without.
    destruct i_idle0 as [?|(? & ? & ? & ?)]; [by left|right]. split_and!; [done|by intros []|done|done].
  - intros x Hx%in_ok0. rewrite in_process0. by apply i_space0.
  - apply (sorted_ext a); [intros; apply in_deadline0|by apply sorted_without].
  - intros x Hx%in_ok0 Hi [Hxt HD]%not_elem_of_cons. rewrite in_state0, !elem_of_without.
    destruct (i_listed0 x) as (? & ? & ?); [done..|]. tauto.
Qed.

Lemma wp_remove D a s t :
  inv D a -> t = NULL \/ ok a t ->
  wp (a_remove s t) (fun _ a' => inv (t :: D) a' /\ cur a' = cur a /\ idl a' = idl a) a.
Proof.
  intros Hinv Ht. assert (Hweak : inv (t :: D) a).
  { destruct Hinv. constructor; try done. intros x Hx Hi [_ HD]%not_elem_of_cons. by apply i_listed0. }
  unfold a_remove. destruct (Z.eqb_spec s NULL); cbn [orb]; [by wp_run|].
  destruct (Z.eqb_spec t NULL) as [|Htn]; [by wp_run|]. destruct Ht as [?|Hok]; [done|]. wp_run.
  apply wp_ready_remove; [by view_fields|]. wp_run.
  apply wp_when; intros _; wp_run; (split_and!; [|done|done]; eapply (inv_remove D a); try done; facts).
Qed.

(** *** The timer tick *)

(** The longest prefix that satisfies [p], and the rest. *)
Fixpoint span (p : Z -> bool) (l : list Z) : list Z * list Z :=
  match l with
  | [] => ([], [])
  | x :: l' => if p x then (x :: (span p l').1, (span p l').2) else ([], l)
  end.

Lemma span_app p l : (span p l).1 ++ (span p l).2 = l.
Proof. induction l as [|x l IH]; cbn; [done|]. destruct (p x); cbn; by rewrite ?IH. Qed.

Lemma span_ext (p q : Z -> bool) l : (forall x, x ∈ l -> p x = q x) -> span p l = span q l.
Proof.
  induction l as [|x l IH]; intros Heq; cbn; [done|]. rewrite Heq by left.
  rewrite IH; [done|]. intros y Hy. apply Heq. by right.
Qed.

(** Every due sleeper has been moved to the ready queue, in deadline order. *)
Record woke_due now a a' : Prop := {
  wd_ready : ready a' = ready a ++ (span (due a now) (sleeping a)).1;
  wd_sleeping : sleeping a' = (span (due a now) (sleeping a)).2;
  wd_blocked : blocked a' = blocked a;
  wd_cur : cur a' = cur a;
  wd_idl : idl a' = idl a;
  wd_pending : pending a' = pending a;
  wd_depth : depth a' = depth a;
  wd_quantum : quantum a' = quantum a;
  wd_left : forall x, th quantum_left a' x = th quantum_left a x;
  wd_state : forall x, x ∉ (span (due a now) (sleeping a)).1 -> th state a' x = th state a x;
  wd_deadline : forall x, x ∉ (span (due a now) (sleeping a)).1 ->
    deadline_of a' x = deadline_of a x }.

Lemma woke_due_refl now a : (span (due a now) (sleeping a)).1 = [] -> woke_due now a a.
Proof.
  intros Hs. pose proof (span_app (due a now) (sleeping a)) as Ha.
  constructor; try done; rewrite ?Hs in *; [by rewrite app_nil_r|done].
Qed.

(** One sleeper woken, then the rest. *)
Lemma woke_due_step now a a1 a' t l :
  sleeping a = t :: l -> t ∉ l -> due a now t = true ->
  ready a1 = ready a ++ [t] -> sleeping a1 = l -> blocked a1 = blocked a -> cur a1 = cur a ->
  idl a1 = idl a -> pending a1 = pending a -> depth a1 = depth a -> quantum a1 = quantum a ->
  (forall x, th quantum_left a1 x = th quantum_left a x) ->
  (forall x, x <> t -> th state a1 x = th state a x) ->
  (forall x, x <> t -> deadline_of a1 x = deadline_of a x) ->
  woke_due now a1 a' -> woke_due now a a'.
Proof.
  intros Hs Ht Hdue Hr1 Hs1 Hb1 Hc1 Hi1 Hp1 Hd1 Hq1 Hl1 Hst1 Hdl1 [].
  assert (Hsp : span (due a now) (t :: l) = (t :: (span (due a1 now) l).1, (span (due a1 now) l).2)).
  { cbn. rewrite Hdue. rewrite (span_ext (due a now) (due a1 now)); [done|].
    intros x Hx. unfold due. rewrite Hdl1; [done|]. by intros ->. }
  constructor; rewrite ?Hs, ?Hsp; cbn [fst snd]; rewrite ?Hs1 in *; try congruence.
  - rewrite wd_ready0, Hr1, <- app_assoc. done.
  - intros x [Hx Hn]%not_elem_of_cons. rewrite wd_state0 by done. by apply Hst1.
  - intros x [Hx Hn]%not_elem_of_cons. rewrite wd_deadline0 by done. by apply Hdl1.
Qed.

Lemma wp_tick_loop D l now a :
  inv D a -> sleeping a = l ->
  wp (a_tick_loop l now) (fun _ a' => inv D a' /\ woke_due now a a') a.
Proof.
  revert a. induction l as [|t l IH]; intros a Hinv Hs; cbn [a_tick_loop];
    (apply wp_bind, wp_check; [done|]).
  - apply wp_ret. split; [done|]. apply woke_due_refl. by rewrite Hs.
  - assert (Hok : ok a t) by (apply Hinv; rewrite Hs; set_solver).
    pose proof (i_nodup _ _ Hinv) as (_ & _ & Hns & Hrb & Hrs & Hbs)%nodup_parts.
    rewrite Hs in Hns, Hrs, Hbs. apply NoDup_cons in Hns as [Ht _].
    assert (t ∉ ready a) as Hnr by (intros H; apply (Hrs t H); left).
    assert (t ∉ blocked a) as Hnb by (intros H; apply (Hbs t H); left).
    assert (Hst : th state a t = NS_THREAD_SLEEPING) by (apply Hinv; rewrite Hs; left).
    assert (Htn : t <> NULL) by by eapply inv_ok_nonnull.
    assert (Hti : t <> idl a).
    { intros ->. destruct (i_idle _ _ Hinv) as [Hx|(_ & _ & _ & Hx)]; [done|].
      destruct Hx; congruence. }
    apply wp_bind, wp_lift_ld; [done|]. change (th wake_deadline_ns a t) with (deadline_of a t).
    destruct (deadline_of a t <=? now) eqn:Hdue.
    + wp_run. apply wp_insert; [by view_fields|done|]. wp_run. name_state a1.
      eapply wp_mono; [apply IH; [|done]|].
      * subst a1. eapply (inv_make_ready D a _ t); try done; [facts|by rewrite without_notin|].
        rewrite Hs. symmetry. apply (without_split t [] l); [by intros ?%elem_of_nil|done].
      * intros [] a' [Hi' Hw]. split; [done|].
        eapply (woke_due_step now a a1 a' t l); try done; intros; subst a1; view_fields;
          by rewrite ?decide_False.
    + apply wp_ret. split; [done|]. apply woke_due_refl. rewrite Hs. cbn. unfold due.
      by rewrite Hdue.
Qed.

(** Accounting: the running thread loses a tick of its quantum. *)
Record accounted a a' : Prop := {
  ac_inert : inert a a';
  ac_depth : depth a' = depth a;
  ac_quantum : quantum a' = quantum a;
  ac_left : forall x, th quantum_left a' x =
    if decide (x = cur a /\ cur a <> NULL /\ cur a <> idl a /\ th quantum_left a x <> 0)
    then u32 (th quantum_left a x - 1) else th quantum_left a x;
  ac_pending : pending a' =
    if decide (cur a = idl a /\ ready a <> [] \/
               cur a <> idl a /\ cur a <> NULL /\ th quantum_left a' (cur a) = 0)
    then 1 else pending a }.

Lemma wp_account D a :
  inv D a -> wp a_account (fun _ a' => inv D a' /\ accounted a a') a.
Proof.
  intros Hinv. unfold a_account. wp_run.
  change (current (sched (kernel a))) with (cur a). change (idle (sched (kernel a))) with (idl a).
  assert (Hhd : negb (hd NULL (ready a) =? NULL) = bool_decide (ready a <> [])).
  { destruct (ready a) as [|h r] eqn:Hr; [done|]. cbn [hd]. rewrite bool_decide_eq_true_2 by done.
    apply negb_true_iff, Z.eqb_neq. eapply inv_ok_nonnull; [done|]. apply Hinv. rewrite Hr. left. }
  rewrite Hhd. destruct (Z.eqb_spec (cur a) (idl a)) as [Hci|Hci]; cbn [andb].
  - apply wp_when; intros Hr; wp_run;
      (split; [eapply inv_inert; [done|facts]|]); constructor; intros; view_fields; try (facts; done);
      rewrite ?decide_False by naive_solver; try done.
    + apply bool_decide_eq_true in Hr. by rewrite decide_True by auto.
    + apply bool_decide_eq_false in Hr. rewrite decide_False by naive_solver. done.
  - wp_run. fold_views a. destruct (Z.eqb_spec (cur a) NULL) as [Hc|Hc]; cbn [negb].
    + wp_run. split; [done|]. constructor; intros; view; try done;
        rewrite decide_False by naive_solver; done.
    + assert (Hok : ok a (cur a)) by by eapply inv_cur_ok. wp_run. fold_views a.
      apply wp_when; intros Hq; wp_run; apply wp_when; intros Hq'; wp_run;
        (split; [eapply inv_inert; [done|facts]|]); view_fields_in Hq; view_fields_in Hq';
        constructor; intros; try facts; view_fields; rewrite ?decide_True in Hq' by done;
        rewrite ?(decide_True (P := current _ = current _)) by done;
        destruct (Z.eqb_spec (fld quantum_left (threads (kernel a)) (current (sched (kernel a)))) 0);
        try done;
        lazymatch type of Hq' with
        | true = true => idtac
        | _ = true => apply Z.eqb_eq in Hq'
        | _ => apply Z.eqb_neq in Hq'
        end; repeat case_decide; naive_solver.
Qed.

(** A tick: due sleepers wake, the quantum is charged, and the processor is
    handed over if that is due and allowed. *)
Definition ticked D now a a' : Prop :=
  exists a1 a2, inv D a1 /\ woke_due now a a1 /\ inv D a2 /\ accounted a1 a2 /\
    if negb (pending a2 =? 0) && (depth a2 =? 0) then rescheduled a2 a' else a' = a2.

Lemma booted_inert a a' : inert a a' -> booted a -> booted a'.
Proof. intros []. unfold booted. congruence. Qed.

Lemma wp_tick D a s now :
  inv D a -> booted a -> s <> NULL ->
  wp (a_tick s now) (fun _ a' => inv D a' /\ ticked D now a a') a.
Proof.
  intros Hinv Hb Hs. unfold a_tick. rewrite (proj2 (Z.eqb_neq s NULL) Hs). wp_run. name_state a0.
  assert (Hinv0 : inv D a0) by (subst a0; eapply inv_inert; [done|facts]).
  eapply wp_mono; [by apply (wp_tick_loop D)|]. intros [] a1 [Hinv1 Hw0].
  assert (Hw : woke_due now a a1).
  { destruct Hw0. constructor; [done|done|done|done|done|done|done|done|exact wd_left0
      |exact wd_state0|exact wd_deadline0]. }
  clear Hw0 Hinv0. clearbody a0. wp_step.
  eapply wp_mono; [by apply (wp_account D)|]. intros [] a2 [Hinv2 Hac]. wp_run. name_state a3.
  assert (Hinv3 : inv D a3) by (subst a3; eapply inv_inert; [done|facts]).
  assert (Hac3 : accounted a1 a3).
  { destruct Hac as [[]]. constructor; [constructor; done|done|done|exact ac_left0|exact ac_pending0]. }
  change (reschedule_pending (sched (kernel a2))) with (pending a3).
  change (preempt_disable_depth (sched (kernel a2))) with (depth a3).
  apply wp_when; intros Hc.
  - apply andb_true_iff in Hc as [Hp Hd%Z.eqb_eq]. eapply wp_mono; [apply (wp_reschedule D); try done|].
    + apply (booted_inert a1); [apply Hac3|]. destruct Hw. unfold booted in *. congruence.
    + intros [] a' [Hi' Hr]. split; [done|]. exists a1, a3. split_and!; try done.
      by rewrite Hp, Hd.
  - split; [done|]. exists a1, a3. split_and!; try done. by rewrite Hc.
Qed.

Lemma ticked_safe D now a a' : inv D a' -> ticked D now a a' -> safe D a a'.
Proof.
  intros Hinv (a1 & a2 & _ & [] & _ & [[] ? ? ? ?] & Hs).
  destruct (negb (pending a2 =? 0) && (depth a2 =? 0)) eqn:Hc.
  - apply andb_true_iff in Hc as [_ Hd%Z.eqb_eq]. split; [done|congruence|].
    intros Hb. eapply rescheduled_booted; [done|]. unfold booted in *. congruence.
  - subst a'. split; [done|congruence|]. unfold booted. congruence.
Qed.

(** *** Waking waiters *)

(** At most [n] elements that satisfy [p], and the others. *)
Fixpoint pick_upto (p : Z -> bool) (n : Z) (l : list Z) : list Z * list Z :=
  match l with
  | [] => ([], [])
  | x :: l' =>
    if 0 <? n then
      if p x then (x :: (pick_upto p (n - 1) l').1, (pick_upto p (n - 1) l').2)
      else ((pick_upto p n l').1, x :: (pick_upto p n l').2)
    else ([], l)
  end.

Lemma pick_upto_ext (p q : Z -> bool) n l :
  (forall x, x ∈ l -> p x = q x) -> pick_upto p n l = pick_upto q n l.
Proof.
  revert n. induction l as [|x l IH]; intros n Heq; cbn; [done|]. rewrite Heq by left.
  rewrite !IH; [done|..]; intros y Hy; apply Heq; by right.
Qed.

Definition waits_on a (kind : ns_wait_kind) (key : Z) (t : Z) : bool :=
  bool_decide (th wait_kind a t = kind) && (th wait_key a t =? key).

(** [w] has been moved to the ready queue, [rest] is still blocked. *)
Record woke a a' (w rest : list Z) : Prop := {
  wk_ready : ready a' = ready a ++ w;
  wk_blocked : blocked a' = rest;
  wk_sleeping : sleeping a' = sleeping a;
  wk_cur : cur a' = cur a;
  wk_idl : idl a' = idl a;
  wk_depth : depth a' = depth a;
  wk_state : forall x, th state a' x = if decide (x ∈ w) then NS_THREAD_READY else th state a x }.

(** One waiter woken, then the rest. *)
Lemma woke_step a a1 a' t w rest :
  ready a1 = ready a ++ [t] -> sleeping a1 = sleeping a -> cur a1 = cur a -> idl a1 = idl a ->
  depth a1 = depth a ->
  (forall x, th state a1 x = if decide (x = t) then NS_THREAD_READY else th state a x) ->
  woke a1 a' w rest -> woke a a' (t :: w) rest.
Proof.
  intros Hr Hs Hc Hi Hd Hst []. constructor; try congruence.
  - by rewrite wk_ready0, Hr, <- app_assoc.
  - intros x. rewrite wk_state0, Hst. repeat case_decide; set_solver.
Qed.

Lemma blocked_facts D a t l1 l2 :
  inv D a -> blocked a = l1 ++ t :: l2 ->
  t <> NULL /\ t <> idl a /\ ok a t /\ (t ∉ ready a) /\ (t ∉ sleeping a) /\
  without t (blocked a) = l1 ++ l2 /\ (t ∉ l2).
Proof.
  intros Hinv Hbl. assert (Hin : t ∈ blocked a) by (rewrite Hbl; set_solver).
  assert (Hok : ok a t) by (apply Hinv; set_solver).
  pose proof (i_nodup _ _ Hinv) as (_ & Hnb & _ & Hrb & Hrs & Hbs)%nodup_parts.
  rewrite Hbl in Hnb. apply NoDup_app in Hnb as (_ & Hd & [Hn _]%NoDup_cons).
  split_and!; [by eapply inv_ok_nonnull| |done|by intros ?%Hrb|by apply Hbs| |done].
  - intros ->. apply (i_blocked _ _ Hinv) in Hin.
    destruct (i_idle _ _ Hinv) as [Hx|(_ & _ & _ & Hx)]; [|destruct Hx; congruence].
    by eapply inv_ok_nonnull.
  - rewrite Hbl. apply without_split; [|done]. intros H. apply (Hd t H). left.
Qed.

Lemma wp_wake_loop D l1 l2 kind key maximum count a :
  inv D a -> blocked a = l1 ++ l2 -> 0 <= count -> maximum < 2 ^ 64 ->
  wp (a_wake_loop l1 l2 kind key maximum count) (fun x a' => inv D a' /\
    let '(w, rest) := pick_upto (waits_on a kind key) (maximum - count) l2 in
    x = count + Z.of_nat (length w) /\ woke a a' w (l1 ++ rest)) a.
Proof.
  revert l1 count a. induction l2 as [|t l2 IH]; intros l1 count a Hinv Hbl Hc Hm;
    cbn [a_wake_loop]; (apply wp_bind, wp_check; [done|]).
  - apply wp_ret. cbn. split; [done|]. split; [lia|]. constructor; try done. by rewrite app_nil_r.
  - cbn [pick_upto]. destruct (Z.ltb_spec count maximum) as [Hlt|Hge].
    2:{ apply wp_ret. rewrite (proj2 (Z.ltb_ge _ _)) by lia. split; [done|]. split; [cbn; lia|].
        constructor; try done. by rewrite app_nil_r. }
    rewrite (proj2 (Z.ltb_lt 0 _)) by lia.
    assert (Hok : ok a t) by (apply Hinv; rewrite Hbl; set_solver).
    apply wp_bind, wp_lift_ld; [done|]. apply wp_bind, wp_lift_ld; [done|].
    change (bool_decide (th wait_kind a t = kind) && (th wait_key a t =? key))
      with (waits_on a kind key t).
    destruct (waits_on a kind key t) eqn:Hw.
    + destruct (blocked_facts D a t l1 l2) as (Htn & Hti & _ & Hnr & Hns & Hwo & Hn2); [done..|].
      wp_run. apply wp_insert; [by view_fields|done|]. wp_run. name_state a1.
      assert (Hinv1 : inv D a1).
      { subst a1. eapply (inv_make_ready D a _ t); try done; [facts|by rewrite without_notin]. }
      assert (Hp1 : forall x, x ∈ l2 -> waits_on a1 kind key x = waits_on a kind key x).
      { intros x Hx. subst a1. unfold waits_on. view_fields. by rewrite !decide_False by congruence. }
      eapply wp_mono; [apply (IH l1 _ a1); try done; rewrite u64_small; lia|].
      intros x a' [Hi' Hpost]. split; [done|].
      rewrite u64_small in Hpost by lia. rewrite (pick_upto_ext _ _ _ _ Hp1) in Hpost.
      replace (maximum - (count + 1)) with (maximum - count - 1) in Hpost by lia.
      destruct (pick_upto _ _ l2) as [w rest] eqn:Hp. cbn [fst snd length]. destruct Hpost as [-> Hwk].
      split; [lia|]. eapply (woke_step a a1); try done. intros y. subst a1. by view_fields.
    + eapply wp_mono; [apply IH; try done; by rewrite <- app_assoc|].
      intros x a' [Hi' Hpost]. split; [done|].
      destruct (pick_upto _ _ l2) as [w rest] eqn:Hp. cbn [fst snd].
      by rewrite <- app_assoc in Hpost.
Qed.

Lemma wp_wake D a s kind key maximum :
  inv D a -> is_u64 maximum ->
  wp (a_wake s kind key maximum) (fun x a' => inv D a' /\
    if bool_decide (s = NULL \/ kind = NS_WAIT_NONE) then x = 0 /\ a' = a
    else let '(w, rest) := pick_upto (waits_on a kind key) maximum (blocked a) in
      x = Z.of_nat (length w) /\ woke a a' w rest) a.
Proof.
  intros Hinv Hm. unfold a_wake. destruct (Z.eqb_spec s NULL) as [->|Hs]; cbn [orb].
  { rewrite (bool_decide_eq_true_2 (NULL = NULL \/ _)) by by left. by wp_run. }
  case_bool_decide as Hk; cbn [orb].
  { rewrite (bool_decide_eq_true_2 (s = NULL \/ _)) by by right. by wp_run. }
  rewrite (bool_decide_eq_false_2 (s = NULL \/ _)) by naive_solver.
  destruct (Z.eqb_spec maximum 0) as [->|Hm0].
  - wp_run. split; [done|]. destruct (blocked a) eqn:Hb; cbn; (split; [done|]);
      constructor; try done; by rewrite app_nil_r.
  - wp_run. name_state a0.
    assert (Hinv0 : inv D a0) by (subst a0; eapply inv_inert; [done|facts]).
    eapply wp_mono; [apply (wp_wake_loop D); try done; lia|]. intros x a1 [Hi1 Hpost]. wp_run.
    split; [eapply inv_inert; [done|facts]|]. rewrite Z.sub_0_r in Hpost.
    change (pick_upto (waits_on a kind key) maximum (blocked a))
      with (pick_upto (waits_on a0 kind key) maximum (blocked a)).
    destruct (pick_upto _ _ _) as [w rest]. destruct Hpost as [-> []]. split; [done|]. by constructor.
Qed.
End operations.
