(* ===== verification/SchedTheorems.v ===== *)
(** * What the scheduler guarantees

    The theorems about kernel/proc/scheduler.c: refinement of the list-level
    specification, safety of every operation, round-robin fairness, wake-ups
    and deadlines, deferred preemption; and two ways to misuse it that the code
    does not defend against. *)

From Stdlib Require Import Sorted.
From S2P Require Import Prelude Errno Links Sched SchedSpec SchedProps.

(** ** The operations as one interface *)

Inductive sched_op :=
  | op_set_idle (t : Z)
  | op_add (t : Z)
  | op_remove (t : Z)
  | op_tick (now : Z)
  | op_yield
  | op_prepare_block (kind : ns_wait_kind) (key : Z)
  | op_commit_block
  | op_block (kind : ns_wait_kind) (key : Z)
  | op_sleep_until (deadline : Z)
  | op_wake (kind : ns_wait_kind) (key maximum : Z)
  | op_wake_thread (t : Z)
  | op_terminate_current
  | op_reschedule
  | op_preempt_disable
  | op_preempt_enable.

Section interface.
Context {E : Type}.
Implicit Types (k : kstate E) (a : asched E) (t : Z).

Definition unit_op {S} (m : M S unit) : M S Z := m;; mret 0.

(** The call each operation stands for; [s] is the scheduler pointer. *)
Definition run_op (s : Z) (o : sched_op) : M (kstate E) Z :=
  match o with
  | op_set_idle t => ns_sched_set_idle s t
  | op_add t => ns_sched_add s t
  | op_remove t => ns_sched_remove s t
  | op_tick now => unit_op (ns_sched_tick s now)
  | op_yield => unit_op (ns_sched_yield s)
  | op_prepare_block kind key => unit_op (ns_sched_prepare_block s kind key)
  | op_commit_block => unit_op (ns_sched_commit_block s)
  | op_block kind key => unit_op (ns_sched_block s kind key)
  | op_sleep_until d => unit_op (ns_sched_sleep_until s d)
  | op_wake kind key maximum => ns_sched_wake s kind key maximum
  | op_wake_thread t => ns_sched_wake_thread s t
  | op_terminate_current => unit_op (ns_sched_terminate_current s)
  | op_reschedule => unit_op (ns_sched_reschedule s)
  | op_preempt_disable => unit_op (ns_sched_preempt_disable s)
  | op_preempt_enable => unit_op (ns_sched_preempt_enable s)
  end.

Definition spec_op (s : Z) (o : sched_op) : M (asched E) Z :=
  match o with
  | op_set_idle t => a_set_idle s t
  | op_add t => a_add s t
  | op_remove t => a_remove s t
  | op_tick now => unit_op (a_tick s now)
  | op_yield => unit_op (a_yield s)
  | op_prepare_block kind key => unit_op (a_prepare_block s kind key)
  | op_commit_block => unit_op (a_commit_block s)
  | op_block kind key => unit_op (a_block s kind key)
  | op_sleep_until d => unit_op (a_sleep_until s d)
  | op_wake kind key maximum => a_wake s kind key maximum
  | op_wake_thread t => a_wake_thread s t
  | op_terminate_current => unit_op (a_terminate_current s)
  | op_reschedule => unit_op (a_reschedule s)
  | op_preempt_disable => unit_op (a_preempt_disable s)
  | op_preempt_enable => unit_op (a_preempt_enable s)
  end.

Lemma refines_unit_op (m : M (kstate E) unit) am : refines m am -> refines (unit_op m) (unit_op am).
Proof. intros Hm. apply refines_bind; [done|]. intros _. apply refines_ret. Qed.

Lemma op_refines s o : refines (run_op s o) (spec_op s o).
Proof.
  destruct o; cbn [run_op spec_op]; try apply refines_unit_op.
  - apply refines_set_idle.
  - apply refines_add.
  - apply refines_remove.
  - apply refines_tick.
  - apply refines_yield.
  - apply refines_prepare_block.
  - apply refines_commit_block.
  - apply refines_block.
  - apply refines_sleep_until.
  - apply refines_wake.
  - apply refines_wake_thread.
  - apply refines_terminate.
  - apply refines_reschedule.
  - apply refines_preempt_disable.
  - apply refines_preempt_enable.
Qed.

(** ** When an operation may be called

    A pointer argument is null or a thread; a thread blocks, sleeps or exits
    only while it runs; the processor is handed over only once there is a
    current or an idle thread. *)
Definition self_call a : Prop :=
  cur a = NULL \/ cur a = idl a \/ th state a (cur a) = NS_THREAD_RUNNING.

Definition legal a (o : sched_op) : Prop :=
  match o with
  | op_set_idle t => t = NULL \/ ok a t /\ th state a t <> NS_THREAD_BLOCKED /\
                                 th state a t <> NS_THREAD_SLEEPING
  | op_add t | op_remove t | op_wake_thread t => t = NULL \/ ok a t
  | op_tick _ | op_yield | op_reschedule | op_preempt_enable => booted a
  | op_prepare_block _ _ | op_block _ _ | op_sleep_until _ | op_terminate_current => self_call a
  | op_wake _ _ maximum => is_u64 maximum
  | op_commit_block | op_preempt_disable => True
  end.

(** The threads [ns_sched_remove] has taken off the queues. *)
Definition detach (D : list Z) (o : sched_op) : list Z :=
  match o with op_remove t => t :: D | _ => D end.

Lemma wp_unit_op {S} (m : M S unit) (Q : S -> Prop) s :
  wp m (fun _ => Q) s -> wp (unit_op m) (fun _ => Q) s.
Proof. intros H. apply wp_bind. eapply wp_mono; [done|]. intros [] s' HQ. by apply wp_ret. Qed.

(** Every legal operation has a result and keeps the scheduler safe. *)
Lemma op_safe D a s o :
  inv D a -> legal a o ->
  wp (spec_op s o) (fun _ a' => inv (detach D o) a' /\ (booted a -> booted a') /\
    (o <> op_preempt_enable -> depth a <> 0 -> cur a' = cur a)) a.
Proof.
  intros Hinv Hl.
  assert (Hsafe : forall a', safe D a a' -> inv D a' /\ (booted a -> booted a') /\
    (o <> op_preempt_enable -> depth a <> 0 -> cur a' = cur a)) by (intros a' []; split_and!; auto).
  destruct o; cbn [spec_op detach legal] in *; try apply wp_unit_op.
  - eapply wp_mono; [apply wp_set_idle; [done|]|].
    + destruct Hl as [?|(Hok & Hnb & Hns)]; [by left|right]. split_and!; [done|..].
      * by intros H%(i_blocked _ _ Hinv).
      * by intros H%(i_sleeping _ _ Hinv).
    + intros x a' (Hi & Hc & Hb & _). split_and!; auto.
  - eapply wp_mono; [by apply wp_add|]. intros x a' (Hi & Hc & Hd).
    split_and!; auto. unfold booted. by rewrite Hc, Hd.
  - eapply wp_mono; [by apply wp_remove|]. intros x a' (Hi & Hc & Hd).
    split_and!; auto. unfold booted. by rewrite Hc, Hd.
  - destruct (decide (s = NULL)) as [->|Hs]; [by apply wp_ret|].
    eapply wp_mono; [by apply (wp_tick D)|]. intros x a' [Hi Ht]. by apply Hsafe, (ticked_safe D now).
  - eapply wp_mono; [by apply (wp_yield D)|]. intros x a'. apply Hsafe.
  - eapply wp_mono; [by apply (wp_prepare_block D)|]. intros x a' (Hi & Hc & Hd & _).
    split_and!; auto. unfold booted. by rewrite Hc, Hd.
  - eapply wp_mono; [by apply (wp_commit_block D)|]. intros x a' [Hs _]. by apply Hsafe.
  - unfold a_block. apply wp_bind. eapply wp_mono; [by apply (wp_prepare_block D)|].
    intros x a1 (Hi1 & Hc1 & Hd1 & Hdp1 & _). eapply wp_mono; [by apply (wp_commit_block D)|].
    intros y a' [[Hi Hc Hb] _]. apply Hsafe. split; [done| |].
    + intros H. rewrite Hc by congruence. done.
    + intros H. apply Hb. unfold booted in *. congruence.
  - eapply wp_mono; [by apply (wp_sleep_until D)|]. intros x a'. apply Hsafe.
  - eapply wp_mono; [by apply (wp_wake D)|]. intros x a' [Hi Hp]. apply Hsafe.
    case_bool_decide; [destruct Hp as [_ ->]; by split|].
    destruct (pick_upto _ _ _) as [w rest]. destruct Hp as [_ []]. split; [done|done|].
    unfold booted. congruence.
  - eapply wp_mono; [by apply wp_wake_thread|]. intros x a' (Hi & Hc & Hd).
    split_and!; auto. unfold booted. by rewrite Hc, Hd.
  - eapply wp_mono; [by apply (wp_terminate D)|]. intros x a'. apply Hsafe.
  - destruct (decide (s = NULL)) as [->|Hs]; [by apply wp_ret|].
    eapply wp_mono; [by apply (wp_reschedule_any D)|]. intros x a' [Hi Hsw].
    by apply Hsafe, switched_safe.
  - eapply wp_mono; [by apply (wp_preempt_disable D)|]. intros x a' [Hs _]. by apply Hsafe.
  - eapply wp_mono; [by apply (wp_preempt_enable D)|]. intros x a' (Hi & Hb & _).
    split_and!; auto. done.
Qed.

(** ** From the specification to the code *)

Lemma rep_view {A} k a (f : ns_thread -> A) t :
  (forall x, f (erase_t x) = f x) -> rep k a -> th f a t = fld f (threads k) t.
Proof. intros Hf [Hk _]. unfold th. rewrite Hk. by apply fld_erase. Qed.

Lemma rep_sched k a : rep k a -> erase_s (sched k) = sched (kernel a).
Proof. intros [-> _]. done. Qed.

(** What the specification guarantees, the code does. *)
Lemma code_wp {A} (m : M (kstate E) A) am k a (Q : A -> asched E -> Prop) :
  refines m am -> rep k a -> wp am Q a ->
  exists x k' a', m k = Some (x, k') /\ rep k' a' /\ Q x a'.
Proof.
  intros Hm Hr (x & a' & Ha & HQ). destruct (Hm _ _ _ _ Hr Ha) as (k' & Hk & Hr'). naive_solver.
Qed.

(** C1 Refinement.  Every operation of the scheduler, run on the pointer
    structures, simulates its specification on lists: in any state that
    represents [a], whenever the specification steps from [a] to [a'] with
    result [x], the code terminates with the same result in a state that
    represents [a'].  In particular none of its list walks runs forever or
    leaves the list. *)
Theorem sched_refinement s o : refines (run_op s o) (spec_op s o).
Proof. apply op_refines. Qed.

(** Safety.  In a state whose queues are well formed, every call that
    respects its contract returns, keeps the queues well formed and, unless it
    is [ns_sched_preempt_enable], does not switch threads while preemption is
    disabled. *)
Theorem sched_op_safe D k a s o :
  rep k a -> inv D a -> legal a o ->
  exists x k' a', run_op s o k = Some (x, k') /\ rep k' a' /\ inv (detach D o) a' /\
    (o <> op_preempt_enable -> preempt_disable_depth (sched k) <> 0 ->
       current (sched k') = current (sched k)).
Proof.
  intros Hr Hinv Hl.
  destruct (code_wp _ _ k a _ (op_refines s o) Hr (op_safe D a s o Hinv Hl))
    as (x & k' & a' & Hrun & Hr' & Hi' & _ & Hc).
  exists x, k', a'. split_and!; [done..|]. intros Ho Hd.
  pose proof (rep_sched _ _ Hr) as Hs. pose proof (rep_sched _ _ Hr') as Hs'.
  unfold cur, depth in Hc. rewrite <- Hs, <- Hs' in Hc. by apply Hc.
Qed.

(** Threads before the scheduler sees them. *)
Record fresh k : Prop := {
  fr_null : threads k !! NULL = None;
  fr_queue : forall t, valid (threads k) t -> fld on_run_queue (threads k) t = 0;
  fr_state : forall t, valid (threads k) t -> fld state (threads k) t = NS_THREAD_EMBRYO;
  fr_space : forall t, valid (threads k) t -> fld process (threads k) t = NULL \/
    is_Some (spaces k !! fld process (threads k) t) }.

Definition empty_sched k : asched E := mk_asched (erase k) [] [] [].

Lemma init_ok k s o q :
  fresh k -> s <> NULL -> q <> 0 ->
  exists k', ns_sched_init s (Some o) q k = Some (0, k') /\
    rep k' (empty_sched k') /\ inv [] (empty_sched k').
Proof.
  intros [] Hs Hq. unfold ns_sched_init.
  rewrite (proj2 (Z.eqb_neq s NULL) Hs), (proj2 (Z.eqb_neq q 0) Hq). cbn [orb].
  eexists. split; [done|]. split.
  - split; [done|]. constructor; try done; try by constructor.
    intros t [H|[H|H]]; by apply elem_of_nil in H.
  - assert (Hv : forall t, ok (empty_sched k) t -> valid (threads k) t)
      by (intros t; apply valid_erase).
    constructor; cbn; try done; try (by constructor); try (by intros t H%elem_of_nil).
    + by rewrite lookup_fmap, fr_null0.
    + intros t Ht. unfold th. cbn. rewrite fld_erase by done. by rewrite fr_state0 by by apply Hv.
    + intros t Ht. unfold th. cbn. rewrite fld_erase by done. apply fr_space0. by apply Hv.
    + intros t Ht. unfold th. cbn. rewrite fld_erase by done. rewrite fr_state0 by by apply Hv. done.
Qed.

(** The contract depends on the threads and the scheduler object only. *)
Lemma legal_kernel a a' o : kernel a = kernel a' -> legal a o -> legal a' o.
Proof. intros Hk. destruct o; cbn; unfold self_call, booted, ok, th, cur, idl; by rewrite ?Hk. Qed.

(** Initialisation followed by calls that respect their contract. *)
Inductive sched_reachable (s : Z) : kstate E -> Prop :=
  | reach_init k0 o q k : fresh k0 -> s <> NULL -> q <> 0 ->
      ns_sched_init s (Some o) q k0 = Some (0, k) -> sched_reachable s k
  | reach_step k o x k' : sched_reachable s k -> legal (empty_sched k) o ->
      run_op s o k = Some (x, k') -> sched_reachable s k'.

Lemma reachable_inv s k : sched_reachable s k -> exists D a, rep k a /\ inv D a.
Proof.
  induction 1 as [k0 o q k Hf Hs Hq Hrun|k o x k' _ (D & a & Hr & Hinv) Hl Hrun].
  - destruct (init_ok k0 s o q Hf Hs Hq) as (k' & Hrun' & Hr & Hi).
    rewrite Hrun in Hrun'. injection Hrun' as <-. eauto.
  - apply (legal_kernel _ a) in Hl; [|symmetry; apply Hr].
    destruct (code_wp _ _ k a _ (op_refines s o) Hr (op_safe D a s o Hinv Hl))
      as (y & k2 & a' & Hrun' & Hr' & Hi' & _).
    rewrite Hrun in Hrun'. injection Hrun' as <- <-. eauto.
Qed.

(** C2 Reachable states.  From initialisation on, along any sequence of calls
    that respect their contracts, the queues are well formed, exactly the
    current thread can be running, and every further such call returns. *)
Theorem sched_reachable_safe s k :
  sched_reachable s k ->
  (exists D a, rep k a /\ inv D a) /\
  (forall t, valid (threads k) t -> fld state (threads k) t = NS_THREAD_RUNNING ->
     t = current (sched k)) /\
  (forall o, legal (empty_sched k) o -> exists x k', run_op s o k = Some (x, k')).
Proof.
  intros Hreach. destruct (reachable_inv s k Hreach) as (D & a & Hr & Hinv). split_and!; [eauto| |].
  - intros t Ht Hst. pose proof (rep_sched _ _ Hr) as Hs.
    rewrite (i_running _ _ Hinv t); [unfold cur; by rewrite <- Hs| |].
    + unfold ok. destruct Hr as [-> _]. by apply valid_erase.
    + by rewrite (rep_view k a).
  - intros o Hl. apply (legal_kernel _ a) in Hl; [|symmetry; apply Hr].
    destruct (code_wp _ _ k a _ (op_refines s o) Hr (op_safe D a s o Hinv Hl))
      as (x & k' & a' & Hrun & _). eauto.
Qed.

(** ** Round robin *)

(** Ticks the current thread may still keep the processor for. *)
Definition budget a : Z := if cur a =? idl a then 1 else Z.max 1 (th quantum_left a (cur a)).

Lemma budget_pos a : 1 <= budget a.
Proof. unfold budget. destruct (cur a =? idl a); lia. Qed.

(** [t] is the [i]-th thread in line, preemption is enabled, [q] is the quantum. *)
Record in_line D q a t (i : nat) : Prop := {
  il_inv : inv D a;
  il_cur : cur a <> NULL;
  il_depth : depth a = 0;
  il_quantum : quantum a = q;
  il_range : 0 < q < 2 ^ 32;
  il_left : is_u32 (th quantum_left a (cur a));
  il_place : ready a !! i = Some t }.

(** After a reschedule the first in line runs, the others move up. *)
Lemma rescheduled_line D q a a' t i :
  inv D a -> inv D a' -> rescheduled a a' -> 0 < q < 2 ^ 32 -> quantum a = q -> depth a = 0 ->
  ready a !! i = Some t ->
  cur a' = t \/ exists j, i = S j /\ in_line D q a' t j /\ budget a' <= q.
Proof.
  intros Hinv Hinv' (a1 & [] & []) Hq Hqa Hd Hi.
  assert (Hin : ready a1 !! i = Some t).
  { rewrite pk_ready. unfold requeued. destruct (decide (runs a)); [|done]. by apply lookup_app_l_Some. }
  destruct (ready a1) as [|h r] eqn:Hr; [by destruct i|]. cbn [hd tail] in *.
  assert (Hh : h <> NULL).
  { intros ->. assert (Hc : cur a' = cur a1) by done.
    assert (Hx : NULL ∈ requeued a) by (rewrite <- pk_ready; left).
    unfold requeued in Hx. destruct (decide (runs a)) as [Hru|Hru].
    - apply elem_of_app in Hx as [Hx|Hx%list_elem_of_singleton]; [|by destruct Hru].
      eapply inv_ok_nonnull; [exact Hinv|by apply Hinv; apply elem_of_app; left|done].
    - eapply inv_ok_nonnull; [exact Hinv|by apply Hinv; apply elem_of_app; left|done]. }
  rewrite (proj2 (Z.eqb_neq h NULL) Hh) in pi_cur.
  destruct i as [|j]; cbn in Hin; [left; congruence|]. right. exists j. split; [done|].
  assert (Hleft : th quantum_left a' (cur a') = q).
  { rewrite pi_left, pi_cur, decide_True by done. congruence. }
  split; [split|]; try congruence; try done.
  - rewrite Hleft. lia.
  - by rewrite pi_ready.
  - unfold budget. rewrite Hleft. destruct (cur a' =? idl a'); lia.
Qed.

Lemma tick_progress D q now a a' t i :
  in_line D q a t i -> inv D a' -> ticked D now a a' ->
  cur a' = t \/
  exists j, in_line D q a' t j /\ budget a' + Z.of_nat j * q < budget a + Z.of_nat i * q.
Proof.
  intros [] Hinv' (a1 & a2 & Hi1 & [] & Hi2 & [[] ? ? Hl Hp] & Hs).
  assert (Hplace : ready a2 !! i = Some t).
  { rewrite in_ready, wd_ready. by apply lookup_app_l_Some. }
  destruct (negb (pending a2 =? 0) && (depth a2 =? 0)) eqn:Hc.
  - pose proof (budget_pos a).
    destruct (rescheduled_line D q a2 a' t i) as [?|(j & -> & Hline & Hle)]; try done; try congruence;
      [by left|]. right. exists j. split; [done|]. lia.
  - subst a'. right. exists i.
    rewrite ac_depth, wd_depth, il_depth0 in Hc. cbn [Z.eqb] in Hc. rewrite andb_true_r in Hc.
    apply negb_false_iff, Z.eqb_eq in Hc. rewrite Hc in Hp. case_decide as Hcase; [done|].
    assert (Hci : cur a1 <> idl a1).
    { intros Heq. apply Hcase. left. split; [done|]. intros Hn. by rewrite in_ready, Hn in Hplace. }
    assert (Hcn : cur a1 <> NULL) by congruence.
    pose proof (Hl (cur a1)) as Hlc. rewrite wd_left, wd_cur in Hlc. rewrite wd_cur in Hcase.
    case_decide as Hz.
    2:{ exfalso. apply Hcase. right. split_and!; [congruence|done|]. rewrite Hlc.
        destruct (decide (th quantum_left a (cur a) = 0)); [done|]. exfalso. apply Hz.
        split_and!; [done|congruence|congruence|congruence]. }
    rewrite u32_small in Hlc by (destruct Hz as (_ & _ & _ & ?); lia).
    assert (Hne : th quantum_left a2 (cur a) <> 0).
    { intros H0. apply Hcase. right. split_and!; [congruence|done|done]. }
    split; [split; try congruence; try done|].
    + rewrite in_cur, wd_cur, Hlc. lia.
    + unfold budget. rewrite in_cur, in_idl, wd_cur, wd_idl, Hlc.
      rewrite (proj2 (Z.eqb_neq (cur a) (idl a))) by congruence. lia.
Qed.

(** The timer interrupt at the times [nows]. *)
Fixpoint run_ticks (s : Z) (nows : list Z) : M (kstate E) unit :=
  match nows with
  | [] => mret tt
  | now :: nows' => ns_sched_tick s now;; run_ticks s nows'
  end.

Lemma fair_ticks D q s nows k a t i :
  s <> NULL -> rep k a -> in_line D q a t i ->
  budget a + Z.of_nat i * q <= Z.of_nat (length nows) ->
  exists n k', (n <= length nows)%nat /\ run_ticks s (take n nows) k = Some (tt, k') /\
    current (sched k') = t.
Proof.
  intros Hs. revert k a i. induction nows as [|now nows IH]; intros k a i Hr Hline Hlen.
  - exfalso. destruct Hline. pose proof (budget_pos a).
    cbn in Hlen. lia.
  - destruct (code_wp _ _ k a _ (refines_tick s now) Hr
      (wp_tick D a s now (il_inv _ _ _ _ _ Hline) (or_introl (il_cur _ _ _ _ _ Hline)) Hs))
      as ([] & k1 & a1 & Hrun & Hr1 & Hi1 & Ht).
    destruct (tick_progress D q now a a1 t i Hline Hi1 Ht) as [Hc|(j & Hline1 & Hlt)].
    + exists 1%nat, k1. split_and!; [cbn; lia| |].
      * cbn. rewrite take_0. cbn [run_ticks]. by rewrite bind_run, Hrun.
      * pose proof (rep_sched _ _ Hr1) as Hs1. unfold cur in Hc. rewrite <- Hs1 in Hc. exact Hc.
    + destruct (IH k1 a1 j Hr1 Hline1) as (n & k' & Hn & Hrun' & Hc); [cbn [length] in Hlen; lia|].
      exists (S n), k'. split_and!; [cbn; lia| |done].
      cbn [take run_ticks]. by rewrite bind_run, Hrun.
Qed.

(** C11 Round robin.  With preemption enabled, the thread that is [i]-th on the
    ready queue is running after at most as many timer ticks as the current
    thread has left of its quantum plus [i] full quanta, at whatever times the
    ticks come and whichever sleepers they wake. *)
Theorem sched_round_robin D q s nows k a t i :
  s <> NULL -> rep k a -> in_line D q a t i ->
  budget a + Z.of_nat i * q <= Z.of_nat (length nows) ->
  exists n k', (n <= length nows)%nat /\ run_ticks s (take n nows) k = Some (tt, k') /\
    current (sched k') = t.
Proof. apply fair_ticks. Qed.

(** ** Deadlines *)

Lemma span_sorted (f : Z -> Z) now l x :
  StronglySorted (fun x y => f x <= f y) l ->
  (x ∈ (span (fun y => f y <=? now) l).1 <-> x ∈ l /\ f x <= now) /\
  (x ∈ (span (fun y => f y <=? now) l).2 <-> x ∈ l /\ now < f x).
Proof.
  induction 1 as [|y l Hs [IH1 IH2] Hy]; cbn.
  - rewrite !elem_of_nil. tauto.
  - destruct (Z.leb_spec (f y) now) as [Hle|Hgt]; cbn [fst snd]; rewrite ?elem_of_cons, ?elem_of_nil.
    + rewrite IH1, IH2. split; [|split; [tauto|]]; [|intros [[->|?] ?]; [lia|done]].
      split; [intros [->|?]; tauto|tauto].
    + assert (Hall : x ∈ l -> now < f x).
      { intros Hx. rewrite Forall_forall in Hy. specialize (Hy x Hx). cbn in Hy. lia. }
      split; [split; [done|]|split; [|tauto]].
      * intros [[->|Hx] ?]; [lia|]. apply Hall in Hx. lia.
      * intros [->|Hx]; [split; [by left|done]|]. split; [by right|auto].
Qed.

Lemma resched_keeps D a a' t :
  inv D a -> rescheduled a a' -> t ∈ ready a -> t ∈ ready a' \/ t = cur a'.
Proof.
  intros Hinv (a1 & [] & []) Ht.
  assert (Hin : t ∈ ready a1).
  { rewrite pk_ready. unfold requeued. destruct (decide (runs a)); [|done]. apply elem_of_app. by left. }
  assert (Hn : t <> NULL).
  { eapply inv_ok_nonnull; [done|]. apply Hinv, elem_of_app. by left. }
  destruct (ready a1) as [|h r] eqn:Hr; [by apply elem_of_nil in Hin|]. cbn [hd tail] in *.
  apply elem_of_cons in Hin as [->|Hin]; [right|left; by rewrite pi_ready].
  by rewrite (proj2 (Z.eqb_neq h NULL) Hn) in pi_cur.
Qed.

Lemma ticked_sleepers D now a a' :
  inv D a -> ticked D now a a' ->
  (forall t, t ∈ sleeping a -> deadline_of a t <= now -> t ∈ ready a' \/ t = cur a') /\
  (forall t, t ∈ sleeping a' <-> t ∈ sleeping a /\ now < deadline_of a t).
Proof.
  intros Hinv (a1 & a2 & Hi1 & [] & Hi2 & [[] ? ? _ _] & Hs).
  pose proof (fun x => span_sorted (deadline_of a) now (sleeping a) x (i_sorted _ _ Hinv)) as Hsp.
  assert (Hsl : sleeping a' = sleeping a1).
  { destruct (_ && _); [|by subst]. destruct Hs as (a3 & [] & []). congruence. }
  split; [|intros t; rewrite Hsl, wd_sleeping; apply Hsp].
  intros t Ht Hd. assert (Hr : t ∈ ready a2).
  { rewrite in_ready, wd_ready, elem_of_app. right. by apply Hsp. }
  destruct (_ && _); [by eapply resched_keeps|]. left. by subst.
Qed.

(** Deadlines.  A tick at time [now] takes exactly the sleepers whose deadline
    is at most [now] off the sleep queue, and each of them is then on the ready
    queue or already running; nobody is woken early. *)
Theorem sched_tick_deadlines D s now k a :
  s <> NULL -> rep k a -> inv D a -> booted a ->
  exists k' a', ns_sched_tick s now k = Some (tt, k') /\ rep k' a' /\ inv D a' /\
    (forall t, t ∈ sleeping a -> deadline_of a t <= now -> t ∈ ready a' \/ t = current (sched k')) /\
    (forall t, t ∈ sleeping a' <-> t ∈ sleeping a /\ now < deadline_of a t).
Proof.
  intros Hs Hr Hinv Hb.
  destruct (code_wp _ _ k a _ (refines_tick s now) Hr (wp_tick D a s now Hinv Hb Hs))
    as ([] & k' & a' & Hrun & Hr' & Hi' & Ht).
  destruct (ticked_sleepers D now a a' Hinv Ht) as [Hw Hsl].
  exists k', a'. split_and!; try done. intros t Hts Hd. destruct (Hw t Hts Hd); [by left|right].
  pose proof (rep_sched _ _ Hr') as Hs'. unfold cur in *. by rewrite <- Hs' in *.
Qed.

(** ** Waiting *)

(** A wait that is signalled between its two phases. *)
Definition wait_signalled s kind key maximum : M (kstate E) Z :=
  ns_sched_prepare_block s kind key;;
  n ← ns_sched_wake s kind key maximum;
  ns_sched_commit_block s;;
  mret n.

Definition a_wait_signalled s kind key maximum : M (asched E) Z :=
  a_prepare_block s kind key;;
  n ← a_wake s kind key maximum;
  a_commit_block s;;
  mret n.

Lemma refines_wait_signalled s kind key maximum :
  refines (wait_signalled s kind key maximum) (a_wait_signalled s kind key maximum).
Proof.
  apply refines_bind; [apply refines_prepare_block|intros _].
  apply refines_bind; [apply refines_wake|intros n].
  apply refines_bind; [apply refines_commit_block|intros _]. apply refines_ret.
Qed.

Lemma wp_wait_signalled D s a kind key maximum :
  s <> NULL -> inv D a -> runs a -> kind <> NS_WAIT_NONE -> 1 <= maximum < 2 ^ 64 ->
  wp (a_wait_signalled s kind key maximum)
    (fun n a' => 1 <= n /\ inv D a' /\ cur a' = cur a /\
       th state a' (cur a) = NS_THREAD_RUNNING /\ (cur a ∉ ready a')) a.
Proof.
  intros Hs Hinv Hru Hk Hm. pose proof Hru as (Hc & Hci & Hst).
  apply wp_bind. eapply wp_mono; [apply (wp_prepare_block D); [done|right; by right]|].
  intros [] a1 (Hi1 & Hc1 & _ & _ & Hp). destruct (Hp Hru Hs Hk) as (Hb & Hkd & Hky & _).
  apply wp_bind. eapply wp_mono; [apply (wp_wake D); [done|lia]|]. intros n a2 [Hi2 Hw].
  rewrite bool_decide_eq_false_2 in Hw by naive_solver. rewrite Hb in Hw. cbn [pick_upto] in Hw.
  rewrite (proj2 (Z.ltb_lt 0 maximum)) in Hw by lia.
  assert (waits_on a1 kind key (cur a) = true) as Hwo.
  { unfold waits_on. by rewrite Hkd, Hky, bool_decide_eq_true_2, Z.eqb_refl. }
  rewrite Hwo in Hw. destruct Hw as [-> []].
  assert (Hin : cur a2 ∈ ready a2) by (rewrite wk_ready, wk_cur, Hc1; set_solver).
  apply wp_bind. eapply wp_mono; [by apply (wp_commit_block D)|].
  intros [] a3 [[Hi3 _ _] Hco]. apply wp_ret.
  destruct Hco as (Hc3 & Hs3 & Hr3); [done|congruence|done|].
  assert (Heq : cur a2 = cur a) by congruence. rewrite Heq in *.
  split_and!; [cbn [length]; lia|done|done|done|]. rewrite Hr3, elem_of_without. by intros [].
Qed.

(** C12 No lost wake-up.  A running thread announces that it will wait for
    [(kind, key)], the event is signalled before it has left the processor, and
    it then completes the wait: the signal counts at least one waiter, and the
    thread is still the current one, running and on no queue. *)
Theorem sched_no_lost_wakeup D s k a kind key maximum :
  s <> NULL -> rep k a -> inv D a -> runs a -> kind <> NS_WAIT_NONE -> 1 <= maximum < 2 ^ 64 ->
  exists n k' a', wait_signalled s kind key maximum k = Some (n, k') /\
    1 <= n /\ rep k' a' /\ inv D a' /\ current (sched k') = current (sched k) /\
    fld state (threads k') (current (sched k)) = NS_THREAD_RUNNING /\
    fld on_run_queue (threads k') (current (sched k)) = 0.
Proof.
  intros Hs Hr Hinv Hru Hk Hm.
  destruct (code_wp _ _ k a _ (refines_wait_signalled s kind key maximum) Hr
    (wp_wait_signalled D s a kind key maximum Hs Hinv Hru Hk Hm))
    as (n & k' & a' & Hrun & Hr' & Hn & Hi' & Hc & Hst & Hnr).
  assert (Hok : valid (threads k') (cur a)).
  { rewrite <- Hc. apply (valid_erase (threads k')). destruct Hr' as [He _].
    change (valid (threads (erase k')) (cur a')). rewrite <- He. apply (inv_cur_ok D); [done|].
    rewrite Hc. apply Hru. }
  pose proof (rep_sched _ _ Hr) as Hs0. pose proof (rep_sched _ _ Hr') as Hs'.
  rewrite (rep_view k' a') in Hst by done. exists n, k', a'.
  assert (Hcur : cur a = current (sched k)) by (unfold cur; by rewrite <- Hs0).
  rewrite <- Hcur. split_and!; try done.
  - rewrite <- Hc. unfold cur. by rewrite <- Hs'.
  - rewrite (lk_queue _ _ _ _ (proj2 Hr')) by done. by rewrite bool_decide_eq_false_2.
Qed.

(** ** Deferred preemption *)

(** Deferred preemption.  When preemption is enabled again while a switch is
    pending, the thread at the head of the ready queue gets the processor at
    once, and the one that was running goes to the tail. *)
Theorem sched_deferred_switch D s k a h r :
  s <> NULL -> rep k a -> inv D a -> runs a -> depth a = 1 -> pending a <> 0 -> ready a = h :: r ->
  exists k' a', ns_sched_preempt_enable s k = Some (tt, k') /\ rep k' a' /\ inv D a' /\
    current (sched k') = h /\ ready a' = r ++ [current (sched k)] /\
    fld quantum_left (threads k') h = quantum_ticks (sched k).
Proof.
  intros Hs Hr Hinv Hru Hd Hp Hrd. pose proof Hru as (Hc & Hci & Hst).
  destruct (code_wp _ _ k a _ (refines_preempt_enable s) Hr
    (wp_preempt_enable D a s Hinv (or_introl Hc)))
    as ([] & k' & a' & Hrun & Hr' & Hi' & _ & Hen).
  specialize (Hen Hs ltac:(lia)). unfold enabled in Hen.
  rewrite Hd, (proj2 (Z.eqb_neq _ _) Hp) in Hen. destruct Hen as (a0 & [] & Hq & a1 & [] & []).
  assert (Hru0 : runs a0) by (unfold runs; by rewrite in_cur, in_idl, in_state).
  assert (Hq0 : ready a1 = h :: r ++ [cur a]).
  { rewrite pk_ready. unfold requeued. rewrite decide_True by done. by rewrite in_ready, in_cur, Hrd. }
  assert (Hh : h <> NULL).
  { eapply inv_ok_nonnull; [exact Hinv|]. apply Hinv. rewrite Hrd. left. }
  rewrite Hq0 in *. cbn [hd tail] in *. rewrite (proj2 (Z.eqb_neq h NULL) Hh) in pi_cur.
  pose proof (rep_sched _ _ Hr) as Hs0. pose proof (rep_sched _ _ Hr') as Hs'.
  exists k', a'. split_and!; try done.
  - rewrite <- pi_cur. unfold cur. by rewrite <- Hs'.
  - rewrite pi_ready. unfold cur. by rewrite <- Hs0.
  - rewrite <- (rep_view k' a') by done. rewrite pi_left, decide_True by done.
    rewrite pk_quantum, Hq. unfold quantum. by rewrite <- Hs0.
Qed.
End interface.

(** ** Start-up without an idle thread *)

(** C13 Start-up needs an idle thread.  Before any thread has run and with no
    idle thread installed, [ns_sched_reschedule] takes the branch meant for the
    idle thread ([previous == scheduler->idle], both null) and writes through
    the null pointer. *)
Theorem sched_bootstrap_needs_idle {E} (k : kstate E) s :
  s <> NULL -> current (sched k) = NULL -> idle (sched k) = NULL ->
  preempt_disable_depth (sched k) = 0 -> threads k !! NULL = None ->
  ns_sched_reschedule s k = None.
Proof.
  intros Hs Hc Hi Hd Hn. unfold ns_sched_reschedule. rewrite (proj2 (Z.eqb_neq s NULL) Hs), bind_run.
  assert (Henter : exists token e, enter_critical k = Some (token, k <| env := e |>)).
  { unfold enter_critical. destruct (critical_enter _) as [f|].
    - destruct (f (env k)) as [token e]. by exists token, e.
    - exists 0, (env k). by destruct k. }
  destruct Henter as (token & e & ->). rewrite !bind_run, gs_run. cbn [sched set_field set_env].
  rewrite Hd. cbn [negb Z.eqb]. rewrite bind_run, gs_run, bind_run, gs_run. cbn [sched set_field set_env].
  rewrite Hc, Hi. change (NULL =? NULL) with true. cbn [negb andb].
  rewrite bind_run, ret_run, !bind_run. unfold st. cbn [threads set_field set_env].
  by rewrite Hn.
Qed.

(** ** Worked examples *)

Definition no_ops : ns_scheduler_ops unit := mk_ops None None None.
Definition new_thread (n : Z) : ns_thread :=
  mk_thread n NS_THREAD_EMBRYO 0 0 0 0 0 NS_WAIT_NONE 0 0 no_context 0 0 0 0 0 0 0 0 0 0.
Definition boot : kstate unit :=
  mk_kstate (mk_scheduler no_ops 0 0 0 0 0 0 0 0 (mk_sched_stats 0 0 0 0))
    (list_to_map ((fun n => (n, new_thread n)) <$> [1; 2; 3; 4])) ∅ tt.

(** The state after a computation from [boot]. *)
Definition after {A} (m : M (kstate unit) A) : kstate unit :=
  match m boot with Some (_, k) => k | None => boot end.

(** Thread 1 is the idle thread, 2 runs, 3 and 4 are ready. *)
Definition start : M (kstate unit) unit :=
  ns_sched_init 1 (Some no_ops) 2;; ns_sched_set_idle 1 1;;
  ns_sched_add 1 2;; ns_sched_add 1 3;; ns_sched_add 1 4;; ns_sched_reschedule 1.
Definition started : kstate unit := Eval vm_compute in after start.
(** Then 2 sleeps until time 100 and 3 runs. *)
Definition asleep : kstate unit := Eval vm_compute in after (start;; ns_sched_sleep_until 1 100).
(** Or 2 yields with preemption disabled. *)
Definition locked : kstate unit :=
  Eval vm_compute in after (start;; ns_sched_preempt_disable 1;; ns_sched_yield 1).
(** Or no idle thread was installed. *)
Definition no_idle : kstate unit :=
  Eval vm_compute in after (ns_sched_init 1 (Some no_ops) 2;; ns_sched_add 1 2).

Lemma valid_keys (m : gmap Z ns_thread) l t : (map_to_list m).*1 = l -> valid m t -> t ∈ l.
Proof.
  intros <- [x Hx]. apply list_elem_of_fmap. exists (t, x). split; [done|].
  by apply elem_of_map_to_list.
Qed.

(** Checks a fact about every thread of a concrete state. *)
Ltac each_thread :=
  lazymatch goal with
  | H : valid ?m ?t |- _ =>
    eapply valid_keys in H; [|vm_compute; reflexivity];
    repeat (apply elem_of_cons in H as [->|H]); [..|by apply elem_of_nil in H]
  end.
Ltac concrete :=
  repeat match goal with
  | |- forall _, _ => intros ?
  | |- _ /\ _ => split
  | H : _ \/ _ |- _ => destruct H
  | H : _ ∈ _ :: _ |- _ => apply elem_of_cons in H as [->|H]
  | H : _ ∈ [] |- _ => by apply elem_of_nil in H
  end.
Definition a_started : asched unit := mk_asched (erase started) [3; 4] [] [].
Definition a_asleep : asched unit := mk_asched (erase asleep) [4] [] [2].
Definition a_locked : asched unit := mk_asched (erase locked) [3; 4] [] [].

Ltac check_rep :=
  split; [reflexivity|]; constructor; [vm_compute; reflexivity|vm_compute; repeat split; discriminate
    |intros t Ht; each_thread; vm_compute; reflexivity
    |vm_compute; repeat split; discriminate|vm_compute; repeat split; discriminate
    |intros t Ht; cbn in Ht; concrete; by eexists
    |apply (bool_decide_unpack _); vm_compute; exact I..].
Ltac check_inv :=
  constructor;
    [vm_compute; reflexivity|apply (bool_decide_unpack _); vm_compute; exact I
    |intros t Ht; cbn in Ht; concrete; by eexists
    |intros t Ht; cbn in Ht; concrete; reflexivity
    |intros t Ht; cbn in Ht; concrete; reflexivity
    |intros t Ht; cbn in Ht; concrete; reflexivity
    |intros t Ht; unfold ok in Ht; each_thread; vm_compute; (reflexivity || discriminate)
    |right; by eexists
    |right; split; [by eexists|split; [apply (bool_decide_unpack _); vm_compute; exact I
       |split; [vm_compute; discriminate|vm_compute; (by left) || (by right)]]]
    |intros t Ht; unfold ok in Ht; each_thread; left; vm_compute; reflexivity
    |first [apply SSorted_nil | apply SSorted_cons; [apply SSorted_nil|apply Forall_nil; exact I]]
    |intros t Ht Hi HD; unfold ok in Ht; each_thread; try (by destruct Hi);
     split_and!; intros H;
     first [exfalso; vm_compute in H; discriminate H
           |apply (bool_decide_unpack _); vm_compute; exact I]].

Lemma started_rep : rep started a_started.
Proof. check_rep. Qed.
Lemma started_inv : inv [] a_started.
Proof. check_inv. Qed.

Lemma asleep_rep : rep asleep a_asleep.
Proof. check_rep. Qed.
Lemma asleep_inv : inv [] a_asleep.
Proof. check_inv. Qed.

Lemma locked_rep : rep locked a_locked.
Proof. check_rep. Qed.
Lemma locked_inv : inv [] a_locked.
Proof. check_inv. Qed.

Lemma started_line : in_line [] 2 a_started 4 1.
Proof.
  constructor; [apply started_inv|discriminate|reflexivity|reflexivity|lia|vm_compute; split; congruence
    |reflexivity].
Qed.

Lemma sched_round_robin_witness :
  exists n k', (n <= 4)%nat /\ run_ticks 1 (take n [10; 20; 30; 40]) started = Some (tt, k') /\
    current (sched k') = 4.
Proof.
  apply (sched_round_robin [] 2 1 [10; 20; 30; 40] started a_started 4 1).
  - discriminate.
  - apply started_rep.
  - apply started_line.
  - vm_compute. discriminate.
Defined.

Lemma sched_op_safe_witness :
  exists x k' a', run_op 1 (op_block NS_WAIT_IO 7) locked = Some (x, k') /\ rep k' a' /\
    inv [] a' /\ (op_block NS_WAIT_IO 7 <> op_preempt_enable ->
      preempt_disable_depth (sched locked) <> 0 -> current (sched k') = current (sched locked)).
Proof.
  apply (sched_op_safe [] locked a_locked 1 (op_block NS_WAIT_IO 7)).
  - apply locked_rep.
  - apply locked_inv.
  - right. right. reflexivity.
Defined.

Lemma sched_reachable_safe_witness :
  exists k : kstate unit, sched_reachable 1 k /\ exists x k', run_op 1 (op_add 2) k = Some (x, k').
Proof.
  assert (Hr : sched_reachable 1 (after (ns_sched_init 1 (Some no_ops) 2))).
  { apply (reach_init 1 boot no_ops 2); [|discriminate|discriminate|reflexivity].
    constructor; [reflexivity|..]; intros t Ht; each_thread; vm_compute; auto. }
  exists (after (ns_sched_init 1 (Some no_ops) 2)). split; [exact Hr|].
  apply (proj2 (proj2 (sched_reachable_safe 1 _ Hr)) (op_add 2)). right. by eexists.
Defined.

Lemma sched_tick_deadlines_witness :
  exists k' a', ns_sched_tick 1 100 asleep = Some (tt, k') /\ rep k' a' /\ inv [] a' /\
    (forall t, t ∈ [2] -> deadline_of a_asleep t <= 100 -> t ∈ ready a' \/ t = current (sched k')) /\
    (forall t, t ∈ sleeping a' <-> t ∈ [2] /\ 100 < deadline_of a_asleep t).
Proof.
  apply (sched_tick_deadlines [] 1 100 asleep a_asleep).
  - discriminate.
  - apply asleep_rep.
  - apply asleep_inv.
  - left. discriminate.
Defined.

Lemma sched_no_lost_wakeup_witness :
  exists n k' a', wait_signalled 1 NS_WAIT_IO 7 1 started = Some (n, k') /\
    1 <= n /\ rep k' a' /\ inv [] a' /\ current (sched k') = current (sched started) /\
    fld state (threads k') (current (sched started)) = NS_THREAD_RUNNING /\
    fld on_run_queue (threads k') (current (sched started)) = 0.
Proof.
  apply (sched_no_lost_wakeup [] 1 started a_started NS_WAIT_IO 7 1).
  - discriminate.
  - apply started_rep.
  - apply started_inv.
  - split_and!; [discriminate|discriminate|reflexivity].
  - discriminate.
  - lia.
Defined.

Lemma sched_deferred_switch_witness :
  exists k' a', ns_sched_preempt_enable 1 locked = Some (tt, k') /\ rep k' a' /\ inv [] a' /\
    current (sched k') = 3 /\ ready a' = [4] ++ [current (sched locked)] /\
    fld quantum_left (threads k') 3 = quantum_ticks (sched locked).
Proof.
  apply (sched_deferred_switch [] 1 locked a_locked 3 [4]).
  - discriminate.
  - apply locked_rep.
  - apply locked_inv.
  - split_and!; [discriminate|discriminate|reflexivity].
  - reflexivity.
  - discriminate.
  - reflexivity.
Defined.

Lemma sched_bootstrap_needs_idle_witness :
  (ns_sched_init 1 (Some no_ops) 2;; ns_sched_add 1 2) boot = Some (0, no_idle) /\
  ns_sched_reschedule 1 no_idle = None.
Proof.
  split; [vm_compute; reflexivity|].
  apply (sched_bootstrap_needs_idle no_idle 1); [discriminate|reflexivity..].
Defined.
