(* ===== verification/Fd.v ===== *)
(** * Open files and descriptor tables (kernel/fs/vfs.c)

    The open-file descriptions and descriptor tables of the virtual file system:
    reference counting, installation, duplication, inheritance and closing of
    descriptors, and reading, writing and seeking through them.  What an open
    file stands for (a node of a mounted file system, a device, a pipe) is
    reached through its tables of callbacks, which act on a world [W]. *)

From S2P Require Import Prelude Errno.

(** ** Data *)

Abbreviation NS_PATH_MAX := 4096 (only parsing).
Abbreviation NS_O_RDONLY := (0x0000) (only parsing).
Abbreviation NS_O_WRONLY := (0x0001) (only parsing).
Abbreviation NS_O_RDWR := (0x0002) (only parsing).
Abbreviation NS_O_APPEND := (0x0400) (only parsing).
Abbreviation NS_SEEK_SET := (0) (only parsing).
Abbreviation NS_SEEK_CUR := (1) (only parsing).
Abbreviation NS_SEEK_END := (2) (only parsing).
Abbreviation NS_FT_REGULAR := (1) (only parsing).
Abbreviation NS_FT_CHAR := (3) (only parsing).
Abbreviation NS_FT_PIPE := (5) (only parsing).

Record ns_vfs_node_info := mk_info {
  ni_inode : Z; ni_size : Z; ni_blocks : Z; ni_mtime_ns : Z; ni_mode : Z; ni_type : Z }.

(** The callback tables, restricted to the callbacks this file calls.  A
    callback that fills a buffer also returns the bytes it stored; one that is
    passed [&file->offset] also returns the new offset. *)
Record ns_vfs_fs_ops (W : Type) := mk_fs_ops {
  fs_release : option (Z -> Z -> M W unit);
  fs_close : option (Z -> Z -> Z -> M W unit);
  fs_read : option (Z -> Z -> Z -> Z -> Z -> M W (Z * list Z));
  fs_write : option (Z -> Z -> Z -> Z -> list Z -> Z -> M W Z);
  fs_stat : Z -> Z -> M W (Z * ns_vfs_node_info) }.
Arguments mk_fs_ops {W}. Arguments fs_release {W}. Arguments fs_close {W}.
Arguments fs_read {W}. Arguments fs_write {W}. Arguments fs_stat {W}.

Record ns_vfs_device_ops (W : Type) := mk_device_ops {
  dev_close : option (Z -> Z -> M W unit);
  dev_read : option (Z -> Z -> Z -> Z -> M W (Z * Z * list Z));
  dev_write : option (Z -> Z -> Z -> list Z -> Z -> M W (Z * Z));
  dev_seek : option (Z -> Z -> Z -> Z -> Z -> M W (Z * Z));
  dev_stat : option (Z -> M W (Z * ns_vfs_node_info)) }.
Arguments mk_device_ops {W}. Arguments dev_close {W}. Arguments dev_read {W}.
Arguments dev_write {W}. Arguments dev_seek {W}. Arguments dev_stat {W}.

Record ns_vfs_file_ops (W : Type) := mk_file_ops {
  op_read : option (Z -> Z -> Z -> Z -> M W (Z * Z * list Z));
  op_write : option (Z -> Z -> list Z -> Z -> Z -> M W (Z * Z));
  op_seek : option (Z -> Z -> Z -> Z -> M W (Z * Z));
  op_stat : option (Z -> M W (Z * ns_vfs_node_info));
  op_close : option (Z -> M W unit) }.
Arguments mk_file_ops {W}. Arguments op_read {W}. Arguments op_write {W}.
Arguments op_seek {W}. Arguments op_stat {W}. Arguments op_close {W}.

Record ns_vfs_mount (W : Type) := mk_mount {
  mount_ops : ns_vfs_fs_ops W; mount_context : Z; read_only : bool }.
Arguments mk_mount {W}. Arguments mount_ops {W}. Arguments mount_context {W}.
Arguments read_only {W}.

(** [enum file_kind] together with the union it selects. *)
Inductive file_object (W : Type) :=
  | FILE_VNODE (mount : ns_vfs_mount W) (node open_context : Z)
  | FILE_DEVICE (ops : ns_vfs_device_ops W) (device_context open_context : Z)
  | FILE_CUSTOM (ops : ns_vfs_file_ops W) (context : Z).
Arguments FILE_VNODE {W}. Arguments FILE_DEVICE {W}. Arguments FILE_CUSTOM {W}.

Record ns_vfs_file (W : Type) := mk_file {
  file_vfs : Z; references : Z; file_lock : bool; status_flags : Z; offset : Z;
  directory_cookie : Z; object : file_object W }.
Arguments mk_file {W}. Arguments file_vfs {W}. Arguments references {W}.
Arguments file_lock {W}. Arguments status_flags {W}. Arguments offset {W}.
Arguments directory_cookie {W}. Arguments object {W}.

Definition eta_file {W} (f : ns_vfs_file W) : ns_vfs_file W :=
  mk_file (file_vfs f) (references f) (file_lock f) (status_flags f) (offset f)
    (directory_cookie f) (object f).
#[export] Instance set_references {W} : Setter (@references W).
Proof. mk_setter1 (@eta_file) (@references W). Defined.
#[export] Instance set_file_lock {W} : Setter (@file_lock W).
Proof. mk_setter1 (@eta_file) (@file_lock W). Defined.
#[export] Instance set_offset {W} : Setter (@offset W).
Proof. mk_setter1 (@eta_file) (@offset W). Defined.

Record fd_entry := mk_entry { file : Z; close_on_exec : bool }.
(** A zero-filled entry. *)
Definition no_entry : fd_entry := mk_entry NULL false.

(** The array [entries] is kept with its address. *)
Record ns_vfs_fdtable := mk_fdtable {
  table_vfs : Z; table_lock : bool; maximum : Z; entries_at : Z; entries : list fd_entry;
  cwd : list Z }.
Definition eta_fdtable (t : ns_vfs_fdtable) : ns_vfs_fdtable :=
  mk_fdtable (table_vfs t) (table_lock t) (maximum t) (entries_at t) (entries t) (cwd t).
#[export] Instance set_table_lock : Setter table_lock.
Proof. mk_setter eta_fdtable table_lock. Defined.
#[export] Instance set_entries : Setter entries.
Proof. mk_setter eta_fdtable entries. Defined.
#[export] Instance set_cwd : Setter cwd.
Proof. mk_setter eta_fdtable cwd. Defined.

Record ns_vfs_allocator (W : Type) := mk_allocator {
  vfs_allocate : option (Z -> Z -> M W Z);
  vfs_deallocate : option (Z -> Z -> Z -> M W unit) }.
Arguments mk_allocator {W}. Arguments vfs_allocate {W}. Arguments vfs_deallocate {W}.

(** The part of [struct ns_vfs] that open files use. *)
Record ns_vfs (W : Type) := mk_vfs { allocator : ns_vfs_allocator W; vfs_lock : bool }.
Arguments mk_vfs {W}. Arguments allocator {W}. Arguments vfs_lock {W}.
Definition eta_vfs {W} (v : ns_vfs W) : ns_vfs W := mk_vfs (allocator v) (vfs_lock v).
#[export] Instance set_vfs_lock {W} : Setter (@vfs_lock W).
Proof. mk_setter1 (@eta_vfs) (@vfs_lock W). Defined.

Record vstate (W : Type) := mk_vstate {
  vfss : gmap Z (ns_vfs W); files : gmap Z (ns_vfs_file W); tables : gmap Z ns_vfs_fdtable;
  world : W }.
Arguments mk_vstate {W}. Arguments vfss {W}. Arguments files {W}. Arguments tables {W}.
Arguments world {W}.
Definition eta_vstate {W} (s : vstate W) : vstate W :=
  mk_vstate (vfss s) (files s) (tables s) (world s).
#[export] Instance set_vfss {W} : Setter (@vfss W).
Proof. mk_setter1 (@eta_vstate) (@vfss W). Defined.
#[export] Instance set_files {W} : Setter (@files W).
Proof. mk_setter1 (@eta_vstate) (@files W). Defined.
#[export] Instance set_tables {W} : Setter (@tables W).
Proof. mk_setter1 (@eta_vstate) (@tables W). Defined.
#[export] Instance set_world {W} : Setter (@world W).
Proof. mk_setter1 (@eta_vstate) (@world W). Defined.

(** ** Operations *)

Section operations.
Context {W : Type}.
Abbreviation V := (M (vstate W)).
Implicit Types (table fd buffer count : Z).

(** [lock_acquire] spins while the lock is held; the holder is further down the
    same call stack or waiting, so a held lock is a call that does not return. *)
Definition lock_acquire {R} (m : vstate W -> gmap Z R) `{!Setter m} (p : Z) (lk : R -> bool)
    `{!Setter lk} : V unit :=
  held ← load m p lk;
  if (held : bool) then stuck else store m p lk true.
Definition lock_release {R} (m : vstate W -> gmap Z R) `{!Setter m} (p : Z) (lk : R -> bool)
    `{!Setter lk} : V unit := store m p lk false.

Definition sizeof_pointer : Z := 8.
Definition sizeof_file : Z := 64.
Definition alignof_file : Z := 8.
Definition sizeof_fdtable : Z := 8 + 8 + 8 + 8 + NS_PATH_MAX.
Definition alignof_fdtable : Z := 8.
Definition sizeof_fd_entry : Z := 16.
Definition alignof_fd_entry : Z := 8.

Definition ns_vfs_memory_allocate (vfs sz alignment : Z) : V Z :=
  if vfs =? NULL then mret NULL
  else
    a ← load vfss vfs allocator;
    match vfs_allocate a with
    | None => mret NULL
    | Some f =>
      let sz := if sz =? 0 then 1 else sz in
      let alignment := if alignment <? sizeof_pointer then sizeof_pointer else alignment in
      zoom world (f sz alignment)
    end.

Definition ns_vfs_memory_deallocate (vfs pointer sz alignment : Z) : V unit :=
  if (vfs =? NULL) || (pointer =? NULL) then mret tt
  else
    a ← load vfss vfs allocator;
    match vfs_deallocate a with
    | None => mret tt
    | Some f =>
      let sz := if sz =? 0 then 1 else sz in
      let alignment := if alignment <? sizeof_pointer then sizeof_pointer else alignment in
      zoom world (f pointer sz alignment)
    end.

Definition flags_allow_read (flags : Z) : bool :=
  (Z.land flags 3 =? NS_O_RDONLY) || (Z.land flags 3 =? NS_O_RDWR).
Definition flags_allow_write (flags : Z) : bool :=
  (Z.land flags 3 =? NS_O_WRONLY) || (Z.land flags 3 =? NS_O_RDWR).

Definition ns_vfs_file_retain (f : Z) : V unit :=
  if f =? NULL then mret tt
  else
    r ← load files f references;
    store files f references (u32 (r + 1)).

Definition node_release (mount : ns_vfs_mount W) (node : Z) : M W unit :=
  match fs_release (mount_ops mount) with
  | Some release => release (mount_context mount) node
  | None => mret tt
  end.

(** The part of [ns_vfs_file_release] that depends on the kind of file. *)
Definition close_object (o : file_object W) : M W unit :=
  match o with
  | FILE_VNODE mount node open_context =>
    match fs_close (mount_ops mount) with
    | Some close => close (mount_context mount) node open_context
    | None => mret tt
    end;;
    node_release mount node
  | FILE_DEVICE ops device_context open_context =>
    match dev_close ops with
    | Some close => close device_context open_context
    | None => mret tt
    end
  | FILE_CUSTOM ops context =>
    match op_close ops with
    | Some close => close context
    | None => mret tt
    end
  end.

Definition ns_vfs_file_release (f : Z) : V unit :=
  if f =? NULL then mret tt
  else
    r ← load files f references;
    store files f references (u32 (r - 1));;
    if negb (u32 (r - 1) =? 0) then mret tt
    else
      o ← load files f object;
      zoom world (close_object o);;
      vfs ← load files f file_vfs;
      modify (fun s => s <| files := delete f (files s) |>);;
      ns_vfs_memory_deallocate vfs f sizeof_file alignof_file.

(** Returns the status and the new file. *)
Definition ns_vfs_file_create (vfs : Z) (ops : option (ns_vfs_file_ops W)) (context flags : Z)
  : V (Z * Z) :=
  match ops with
  | None => mret (- NS_EINVAL, NULL)
  | Some ops =>
    if vfs =? NULL then mret (- NS_EINVAL, NULL)
    else
      f ← ns_vfs_memory_allocate vfs sizeof_file alignof_file;
      if f =? NULL then mret (- NS_ENOMEM, NULL)
      else
        modify (fun s => s <| files :=
          <[f := mk_file vfs 1 false flags 0 0 (FILE_CUSTOM ops context)]> (files s) |>);;
        mret (0, f)
  end.

Definition ns_vfs_fdtable_create (vfs maximum_fds : Z) : V (Z * Z) :=
  if (vfs =? NULL) || (maximum_fds =? 0) || (65536 <? maximum_fds) ||
     (SIZE_MAX / sizeof_fd_entry <? maximum_fds)
  then mret (- NS_EINVAL, NULL)
  else
    table ← ns_vfs_memory_allocate vfs sizeof_fdtable alignof_fdtable;
    if table =? NULL then mret (- NS_ENOMEM, NULL)
    else
      array ← ns_vfs_memory_allocate vfs (maximum_fds * sizeof_fd_entry) alignof_fd_entry;
      if array =? NULL then
        ns_vfs_memory_deallocate vfs table sizeof_fdtable alignof_fdtable;;
        mret (- NS_ENOMEM, NULL)
      else
        modify (fun s => s <| tables :=
          <[table := mk_fdtable vfs false maximum_fds array
                       (replicate (Z.to_nat maximum_fds) no_entry)
                       (47 :: replicate (Z.to_nat NS_PATH_MAX - 1) 0)]> (tables s) |>);;
        mret (0, table).

(** [table->entries[fd]]. *)
Definition get_entry table fd : V fd_entry :=
  es ← load tables table entries;
  match rd es fd with Some e => mret e | None => stuck end.
Definition put_entry table fd (e : fd_entry) : V unit :=
  es ← load tables table entries;
  match wr es fd e with Some es' => store tables table entries es' | None => stuck end.

(** The string at the front of a buffer, with its terminator. *)
Fixpoint c_string (l : list Z) : list Z :=
  match l with
  | [] => []
  | c :: l' => if c =? 0 then [0] else c :: c_string l'
  end.

(** The body of the loop of [ns_vfs_fdtable_clone]. *)
Definition clone_entry (source copy : Z) (skip_cloexec : bool) (index : Z) (_ : unit) : V unit :=
  e ← get_entry source index;
  if negb (file e =? NULL) && negb (skip_cloexec && close_on_exec e) then
    put_entry copy index e;;
    e' ← get_entry copy index;
    ns_vfs_file_retain (file e')
  else mret tt.

Definition ns_vfs_fdtable_clone (source : Z) (skip_cloexec : bool) : V (Z * Z) :=
  if source =? NULL then mret (- NS_EINVAL, NULL)
  else
    vfs ← load tables source table_vfs;
    maximum_fds ← load tables source maximum;
    '(status, copy) ← ns_vfs_fdtable_create vfs maximum_fds;
    if status <? 0 then mret (status, NULL)
    else
      lock_acquire tables source table_lock;;
      from ← load tables source cwd;
      to ← load tables copy cwd;
      store tables copy cwd (c_string from ++ drop (length (c_string from)) to);;
      for_m (Z.to_nat maximum_fds) (clone_entry source copy skip_cloexec) 0 tt;;
      lock_release tables source table_lock;;
      mret (0, copy).

(** The body of the loop of [ns_vfs_fdtable_close_cloexec]. *)
Definition close_cloexec_entry table (index closed : Z) : V Z :=
  lock_acquire tables table table_lock;;
  e ← get_entry table index;
  if negb (file e =? NULL) && close_on_exec e then
    put_entry table index no_entry;;
    lock_release tables table table_lock;;
    ns_vfs_file_release (file e);;
    mret (closed + 1)
  else
    lock_release tables table table_lock;;
    mret closed.

Definition ns_vfs_fdtable_close_cloexec table : V Z :=
  if table =? NULL then mret (- NS_EINVAL)
  else
    n ← load tables table maximum;
    for_m (Z.to_nat n) (close_cloexec_entry table) 0 0.

(** The body of the loop of [ns_vfs_fdtable_destroy]. *)
Definition destroy_entry table (index : Z) (_ : unit) : V unit :=
  e ← get_entry table index;
  if negb (file e =? NULL) then ns_vfs_file_release (file e) else mret tt.

Definition ns_vfs_fdtable_destroy table : V unit :=
  if table =? NULL then mret tt
  else
    n ← load tables table maximum;
    for_m (Z.to_nat n) (destroy_entry table) 0 tt;;
    vfs ← load tables table table_vfs;
    array ← load tables table entries_at;
    modify (fun s => s <| tables := delete table (tables s) |>);;
    ns_vfs_memory_deallocate vfs array (u64 (n * sizeof_fd_entry)) alignof_fd_entry;;
    ns_vfs_memory_deallocate vfs table sizeof_fdtable alignof_fdtable.

(** The search of [ns_vfs_fd_install], over the rest of the array. *)
Fixpoint find_slot (es : list fd_entry) (index : Z) : Z :=
  match es with
  | [] => index
  | e :: es' => if negb (file e =? NULL) then find_slot es' (index + 1) else index
  end.

Definition ns_vfs_fd_install table (f minimum_fd : Z) (cloexec : bool) : V Z :=
  if (table =? NULL) || (f =? NULL) then mret (- NS_EINVAL)
  else
    fv ← load files f file_vfs;
    tv ← load tables table table_vfs;
    if negb (fv =? tv) || (minimum_fd <? 0) then mret (- NS_EINVAL)
    else
      lock_acquire tables table table_lock;;
      n ← load tables table maximum;
      es ← load tables table entries;
      let index := if minimum_fd <? n then find_slot (drop (Z.to_nat minimum_fd) es) minimum_fd
                   else minimum_fd in
      if index =? n then
        lock_release tables table table_lock;;
        mret (- NS_EMFILE)
      else
        ns_vfs_file_retain f;;
        put_entry table index (mk_entry f cloexec);;
        lock_release tables table table_lock;;
        mret index.

Definition fd_get table fd : V Z :=
  if (table =? NULL) || (fd <? 0) then mret NULL
  else
    n ← load tables table maximum;
    if n <=? fd then mret NULL
    else
      lock_acquire tables table table_lock;;
      e ← get_entry table fd;
      (if negb (file e =? NULL) then ns_vfs_file_retain (file e) else mret tt);;
      lock_release tables table table_lock;;
      mret (file e).

Definition ns_vfs_close table fd : V Z :=
  if (table =? NULL) || (fd <? 0) then mret (- NS_EBADF)
  else
    n ← load tables table maximum;
    if n <=? fd then mret (- NS_EBADF)
    else
      lock_acquire tables table table_lock;;
      e ← get_entry table fd;
      if file e =? NULL then
        lock_release tables table table_lock;;
        mret (- NS_EBADF)
      else
        put_entry table fd no_entry;;
        lock_release tables table table_lock;;
        ns_vfs_file_release (file e);;
        mret 0.

Definition ns_vfs_dup table (old_fd minimum_fd : Z) (cloexec : bool) : V Z :=
  f ← fd_get table old_fd;
  if f =? NULL then mret (- NS_EBADF)
  else
    result ← ns_vfs_fd_install table f minimum_fd cloexec;
    ns_vfs_file_release f;;
    mret result.

Definition ns_vfs_dup2 table (old_fd new_fd : Z) (cloexec : bool) : V Z :=
  if (table =? NULL) || (old_fd <? 0) || (new_fd <? 0) then mret (- NS_EBADF)
  else
    n ← load tables table maximum;
    if (n <=? old_fd) || (n <=? new_fd) then mret (- NS_EBADF)
    else
      lock_acquire tables table table_lock;;
      source ← get_entry table old_fd;
      if file source =? NULL then
        lock_release tables table table_lock;;
        mret (- NS_EBADF)
      else if old_fd =? new_fd then
        lock_release tables table table_lock;;
        mret new_fd
      else
        ns_vfs_file_retain (file source);;
        replaced ← get_entry table new_fd;
        put_entry table new_fd (mk_entry (file source) cloexec);;
        lock_release tables table table_lock;;
        (if negb (file replaced =? NULL) then ns_vfs_file_release (file replaced) else mret tt);;
        mret new_fd.

(** The checks on a count that a file system reports as transferred from [offset]:
    the value to return and the new file offset. *)
Definition account (result count off : Z) : Z * Z :=
  if 0 <? result then
    if count <? result then (- NS_EIO, off)
    else if UINT64_MAX - off <? result then (- NS_EOVERFLOW, off)
    else (result, u64 (off + result))
  else (result, off).

(** The checks on what a device or a custom file reports; [original] is the
    offset before the call. *)
Definition recheck (f : Z) (o : file_object W) (result count original : Z) : V Z :=
  match o with
  | FILE_VNODE _ _ _ => mret result
  | _ =>
    if (result <? 0) || ((0 <? result) && (count <? result)) then
      store files f offset original;;
      mret (if 0 <? result then - NS_EIO else result)
    else mret result
  end.

(** The call of the read callback: its result and the bytes stored. *)
Definition read_object (f : Z) (o : file_object W) count (flags : Z) : V (Z * list Z) :=
  off ← load files f offset;
  match o with
  | FILE_VNODE mount node open_context =>
    match fs_read (mount_ops mount) with
    | None => mret (- NS_EINVAL, [])
    | Some read =>
      '(result, bytes) ← zoom world (read (mount_context mount) node open_context off count);
      let '(result, off) := account result count off in
      store files f offset off;;
      mret (result, bytes)
    end
  | FILE_DEVICE ops device_context open_context =>
    match dev_read ops with
    | None => mret (- NS_EINVAL, [])
    | Some read =>
      '(result, off, bytes) ← zoom world (read device_context open_context off count);
      store files f offset off;;
      mret (result, bytes)
    end
  | FILE_CUSTOM ops context =>
    match op_read ops with
    | None => mret (- NS_EINVAL, [])
    | Some read =>
      '(result, off, bytes) ← zoom world (read context off count flags);
      store files f offset off;;
      mret (result, bytes)
    end
  end.

Definition ns_vfs_read table fd buffer count : V (Z * list Z) :=
  if (buffer =? NULL) && negb (count =? 0) then mret (- NS_EFAULT, [])
  else
    f ← fd_get table fd;
    if f =? NULL then mret (- NS_EBADF, [])
    else
      flags ← load files f status_flags;
      if negb (flags_allow_read flags) then
        ns_vfs_file_release f;;
        mret (- NS_EBADF, [])
      else
        lock_acquire files f file_lock;;
        original ← load files f offset;
        o ← load files f object;
        '(result, bytes) ← read_object f o count flags;
        result ← recheck f o result count original;
        lock_release files f file_lock;;
        ns_vfs_file_release f;;
        mret (result, bytes).

(** The call of the write callback. *)
Definition write_object (f : Z) (o : file_object W) (data : list Z) count (flags : Z) : V Z :=
  off ← load files f offset;
  match o with
  | FILE_VNODE mount node open_context =>
    if read_only mount then mret (- NS_EROFS)
    else
      match fs_write (mount_ops mount) with
      | None => mret (- NS_EROFS)
      | Some write =>
        if negb (Z.land flags NS_O_APPEND =? 0) then
          vfs ← load files f file_vfs;
          lock_acquire vfss vfs vfs_lock;;
          '(status, info) ← zoom world (fs_stat (mount_ops mount) (mount_context mount) node);
          result ←
            (if status <? 0 then mret status
             else
               result ← zoom world (write (mount_context mount) node open_context (ni_size info)
                                       data count);
               if (0 <? result) && (result <=? count) && (result <=? UINT64_MAX - ni_size info)
               then store files f offset (u64 (ni_size info + result));; mret result
               else if 0 <? result then mret (if count <? result then - NS_EIO else - NS_EOVERFLOW)
               else mret result);
          lock_release vfss vfs vfs_lock;;
          mret result
        else
          result ← zoom world (write (mount_context mount) node open_context off data count);
          let '(result, off) := account result count off in
          store files f offset off;;
          mret result
      end
  | FILE_DEVICE ops device_context open_context =>
    match dev_write ops with
    | None => mret (- NS_EINVAL)
    | Some write =>
      '(result, off) ← zoom world (write device_context open_context off data count);
      store files f offset off;;
      mret result
    end
  | FILE_CUSTOM ops context =>
    match op_write ops with
    | None => mret (- NS_EINVAL)
    | Some write =>
      '(result, off) ← zoom world (write context off data count flags);
      store files f offset off;;
      mret result
    end
  end.

Definition ns_vfs_write table fd buffer (data : list Z) count : V Z :=
  if (buffer =? NULL) && negb (count =? 0) then mret (- NS_EFAULT)
  else
    f ← fd_get table fd;
    if f =? NULL then mret (- NS_EBADF)
    else
      flags ← load files f status_flags;
      if negb (flags_allow_write flags) then
        ns_vfs_file_release f;;
        mret (- NS_EBADF)
      else
        lock_acquire files f file_lock;;
        original ← load files f offset;
        o ← load files f object;
        result ← write_object f o data count flags;
        result ← recheck f o result count original;
        lock_release files f file_lock;;
        ns_vfs_file_release f;;
        mret result.

(** The status and the new position. *)
Definition compute_seek (base off : Z) : Z * option Z :=
  if off <? 0 then
    let magnitude := u64 (u64 (- (off + 1)) + 1) in
    if base <? magnitude then (- NS_EINVAL, None) else (0, Some (base - magnitude))
  else if UINT64_MAX - base <? off then (- NS_EOVERFLOW, None)
  else (0, Some (base + off)).

(** The call of the seek callback, or the computation for a regular file. *)
Definition seek_object (f : Z) (o : file_object W) (off whence : Z) : V Z :=
  cur ← load files f offset;
  match o with
  | FILE_DEVICE ops device_context open_context =>
    match dev_seek ops with
    | None => mret (- NS_ESPIPE)
    | Some seek =>
      '(result, cur) ← zoom world (seek device_context open_context off whence cur);
      store files f offset cur;;
      mret result
    end
  | FILE_CUSTOM ops context =>
    match op_seek ops with
    | None => mret (- NS_ESPIPE)
    | Some seek =>
      '(result, cur) ← zoom world (seek context off whence cur);
      store files f offset cur;;
      mret result
    end
  | FILE_VNODE mount node open_context =>
    '(status, info) ← zoom world (fs_stat (mount_ops mount) (mount_context mount) node);
    if status <? 0 then mret status
    else if negb (ni_type info =? NS_FT_REGULAR) then mret (- NS_ESPIPE)
    else
      let base := if whence =? NS_SEEK_SET then Some 0
                  else if whence =? NS_SEEK_CUR then Some cur
                  else if whence =? NS_SEEK_END then Some (ni_size info)
                  else None in
      match base with
      | None => mret (- NS_EINVAL)
      | Some base =>
        match compute_seek base off with
        | (_, Some position) =>
          if INT64_MAX <? position then mret (- NS_EOVERFLOW)
          else store files f offset position;; mret position
        | (status, None) => mret status
        end
      end
  end.

Definition ns_vfs_seek table fd (off whence : Z) : V Z :=
  f ← fd_get table fd;
  if f =? NULL then mret (- NS_EBADF)
  else
    lock_acquire files f file_lock;;
    original ← load files f offset;
    o ← load files f object;
    result ← seek_object f o off whence;
    (if result <? 0 then store files f offset original else mret tt);;
    lock_release files f file_lock;;
    ns_vfs_file_release f;;
    mret result.

(** Returns the status and, on success, what was stored through [result]. *)
Definition ns_vfs_fstat table fd (result : Z) : V (Z * option ns_vfs_node_info) :=
  if result =? NULL then mret (- NS_EFAULT, None)
  else
    f ← fd_get table fd;
    if f =? NULL then mret (- NS_EBADF, None)
    else
      lock_acquire files f file_lock;;
      o ← load files f object;
      '(status, info) ←
        match o with
        | FILE_VNODE mount node _ =>
          '(status, info) ← zoom world (fs_stat (mount_ops mount) (mount_context mount) node);
          mret (status, Some info)
        | FILE_DEVICE ops device_context _ =>
          match dev_stat ops with
          | None => mret (0, Some (mk_info 0 0 0 0 0 NS_FT_CHAR))
          | Some stat =>
            '(status, info) ← zoom world (stat device_context);
            mret (status, Some info)
          end
        | FILE_CUSTOM ops context =>
          match op_stat ops with
          | None => mret (- NS_ENOSYS, None)
          | Some stat =>
            '(status, info) ← zoom world (stat context);
            mret (status, Some info)
          end
        end;
      lock_release files f file_lock;;
      ns_vfs_file_release f;;
      mret (status, info).
End operations.
