(* ===== verification/FdProps.v ===== *)
(** * Reasoning about open files and descriptor tables

    Reference counts are exact: an open file counts its descriptors, in every
    table, and the references that calls in progress hold.  From this follow the
    life time of open files and the behaviour of every descriptor operation. *)

From S2P Require Import Prelude Errno Fd.

(** ** Counting descriptors *)

Definition count_in (es : list fd_entry) (f : Z) : Z :=
  Z.of_nat (length (filter (fun e => file e = f) es)).
Definition one (b : bool) : Z := if b then 1 else 0.

Lemma count_in_nonneg es f : 0 <= count_in es f.
Proof. unfold count_in. lia. Qed.

Lemma count_in_cons e es f : count_in (e :: es) f = one (file e =? f) + count_in es f.
Proof.
  unfold count_in, one. rewrite filter_cons. destruct (Z.eqb_spec (file e) f); case_decide; try done.
  cbn [length]. lia.
Qed.

Lemma count_in_insert es i e e' f :
  es !! i = Some e ->
  count_in (<[i := e']> es) f = count_in es f - one (file e =? f) + one (file e' =? f).
Proof.
  revert i. induction es as [|x es IH]; intros [|i] Hi; simplify_eq/=.
  - rewrite !count_in_cons. lia.
  - rewrite !count_in_cons, IH by done. lia.
Qed.

Lemma count_in_pos es i e : es !! i = Some e -> 0 < count_in es (file e).
Proof.
  revert i. induction es as [|x es IH]; intros [|i] Hi; simplify_eq/=; rewrite count_in_cons.
  - rewrite Z.eqb_refl. pose proof (count_in_nonneg es (file e)). cbn. lia.
  - specialize (IH i Hi). unfold one. destruct (file x =? file e); lia.
Qed.

Lemma count_in_none es f : (forall e, e ∈ es -> file e <> f) -> count_in es f = 0.
Proof.
  induction es as [|x es IH]; intros H; [done|]. rewrite count_in_cons, IH.
  - rewrite (proj2 (Z.eqb_neq _ _)); [done|]. apply H. left.
  - intros e He. apply H. by right.
Qed.

Lemma count_in_empty n f : f <> NULL -> count_in (replicate n no_entry) f = 0.
Proof. intros Hf. apply count_in_none. intros e He. apply elem_of_replicate in He as [-> _]. done. Qed.

(** Descriptors of [f] in all tables. *)
Definition owned_in (ts : gmap Z ns_vfs_fdtable) (f : Z) : Z :=
  map_fold (fun _ tb n => count_in (entries tb) f + n) 0 ts.

Lemma owned_in_insert_new ts t tb f :
  ts !! t = None -> owned_in (<[t := tb]> ts) f = count_in (entries tb) f + owned_in ts f.
Proof. intros Ht. unfold owned_in. rewrite map_fold_insert_L; [done| |done]. intros; lia. Qed.

Lemma owned_in_delete ts t tb f :
  ts !! t = Some tb -> owned_in (delete t ts) f = owned_in ts f - count_in (entries tb) f.
Proof.
  intros Ht. rewrite <- (insert_id ts t tb Ht) at 2.
  rewrite <- insert_delete_eq, owned_in_insert_new by apply lookup_delete_eq. lia.
Qed.

Lemma owned_in_insert ts t tb tb' f :
  ts !! t = Some tb ->
  owned_in (<[t := tb']> ts) f = owned_in ts f - count_in (entries tb) f + count_in (entries tb') f.
Proof.
  intros Ht. rewrite <- insert_delete_eq, owned_in_insert_new by apply lookup_delete_eq.
  rewrite (owned_in_delete ts t tb) by done. lia.
Qed.

Lemma owned_in_nonneg ts f : 0 <= owned_in ts f.
Proof.
  unfold owned_in. apply (map_fold_weak_ind (fun n _ => 0 <= n)); [lia|].
  intros t tb ts' n Ht Hn. pose proof (count_in_nonneg (entries tb) f). lia.
Qed.

Lemma owned_in_pos ts t tb i e :
  ts !! t = Some tb -> entries tb !! i = Some e -> 0 < owned_in ts (file e).
Proof.
  intros Ht Hi. pose proof (count_in_pos _ _ _ Hi). pose proof (owned_in_delete ts t tb (file e) Ht).
  pose proof (owned_in_nonneg (delete t ts) (file e)). lia.
Qed.

(** ** The world behind the files *)

(** The calls of an object's callbacks other than closing it. *)
Inductive callback {W} : file_object W -> forall A : Type, M W A -> Prop :=
  | cb_fs_read m node oc rd off n :
      fs_read (mount_ops m) = Some rd ->
      callback (FILE_VNODE m node oc) _ (rd (mount_context m) node oc off n)
  | cb_fs_write m node oc wr off l n :
      fs_write (mount_ops m) = Some wr ->
      callback (FILE_VNODE m node oc) _ (wr (mount_context m) node oc off l n)
  | cb_fs_stat m node oc :
      callback (FILE_VNODE m node oc) _ (fs_stat (mount_ops m) (mount_context m) node)
  | cb_dev_read ops dc oc rd off n :
      dev_read ops = Some rd -> callback (FILE_DEVICE ops dc oc) _ (rd dc oc off n)
  | cb_dev_write ops dc oc wr off l n :
      dev_write ops = Some wr -> callback (FILE_DEVICE ops dc oc) _ (wr dc oc off l n)
  | cb_dev_seek ops dc oc sk off wh c :
      dev_seek ops = Some sk -> callback (FILE_DEVICE ops dc oc) _ (sk dc oc off wh c)
  | cb_dev_stat ops dc oc st :
      dev_stat ops = Some st -> callback (FILE_DEVICE ops dc oc) _ (st dc)
  | cb_read ops ctx rd off n fl :
      op_read ops = Some rd -> callback (FILE_CUSTOM ops ctx) _ (rd ctx off n fl)
  | cb_write ops ctx wr off l n fl :
      op_write ops = Some wr -> callback (FILE_CUSTOM ops ctx) _ (wr ctx off l n fl)
  | cb_seek ops ctx sk off wh c :
      op_seek ops = Some sk -> callback (FILE_CUSTOM ops ctx) _ (sk ctx off wh c)
  | cb_stat ops ctx st :
      op_stat ops = Some st -> callback (FILE_CUSTOM ops ctx) _ (st ctx).

(** What the descriptor layer relies on.  [fw_inv objs w] says that [w] is sound
    for the open objects [objs]; [fw_owns w] are the blocks the allocator has
    handed to this layer and not got back.  Callbacks return and keep both;
    closing an object consumes it; allocation returns a block that is not in
    use, or none. *)
Class FileWorld (W : Type) := {
  fw_inv : gmap Z (file_object W) -> W -> Prop;
  fw_owns : W -> gset Z;
  fw_allocator : ns_vfs_allocator W -> Prop;
  fw_null objs w : fw_inv objs w -> NULL ∉ fw_owns w;
  fw_close objs f o w : objs !! f = Some o -> fw_inv objs w ->
    wp (close_object o) (fun _ w' => fw_inv (delete f objs) w' /\ fw_owns w' = fw_owns w) w;
  fw_call objs f o w A (m : M W A) : objs !! f = Some o -> callback o A m -> fw_inv objs w ->
    wp m (fun _ w' => fw_inv objs w' /\ fw_owns w' = fw_owns w) w;
  fw_allocate a g sz al objs w : fw_allocator a -> vfs_allocate a = Some g -> fw_inv objs w ->
    wp (g sz al) (fun p w' => fw_inv objs w' /\
      if p =? NULL then fw_owns w' = fw_owns w
      else (p ∉ fw_owns w) /\ fw_owns w' = {[p]} ∪ fw_owns w) w;
  fw_deallocate a g p sz al objs w : fw_allocator a -> vfs_deallocate a = Some g ->
    fw_inv objs w -> p ∈ fw_owns w ->
    wp (g p sz al) (fun _ w' => fw_inv objs w' /\ fw_owns w' = fw_owns w ∖ {[p]}) w }.

Section invariant.
Context {W : Type} `{!FileWorld W}.
Implicit Types (s : vstate W) (held : Z -> Z) (f t : Z).

Definition vfs_ok s (v : Z) : Prop :=
  v <> NULL /\ exists x, vfss s !! v = Some x /\ vfs_lock x = false /\ fw_allocator (allocator x).

(** Objects of this layer live in distinct blocks the allocator gave it. *)
Record mem_ok s : Prop := {
  mo_files f : is_Some (files s !! f) -> f ∈ fw_owns (world s) /\ tables s !! f = None;
  mo_tables t : is_Some (tables s !! t) -> t ∈ fw_owns (world s);
  mo_arrays t tb : tables s !! t = Some tb ->
    entries_at tb ∈ fw_owns (world s) /\ files s !! entries_at tb = None /\
    tables s !! entries_at tb = None;
  mo_distinct t t' tb tb' : tables s !! t = Some tb -> tables s !! t' = Some tb' ->
    entries_at tb = entries_at tb' -> t = t' }.

Record table_ok s (tb : ns_vfs_fdtable) : Prop := {
  tb_length : Z.of_nat (length (entries tb)) = maximum tb;
  tb_maximum : 0 < maximum tb <= 65536;
  tb_vfs : vfs_ok s (table_vfs tb);
  tb_live e : e ∈ entries tb -> file e <> NULL -> is_Some (files s !! file e) }.

(** [held f] references to [f] belong to calls in progress. *)
Record fd_inv held s : Prop := {
  fi_world : fw_inv (object <$> files s) (world s);
  fi_refs f r : files s !! f = Some r ->
    references r = owned_in (tables s) f + held f /\ 0 < references r < 2 ^ 32;
  fi_file f r : files s !! f = Some r -> vfs_ok s (file_vfs r);
  fi_held f : 0 <= held f /\ (held f <> 0 -> is_Some (files s !! f));
  fi_table t tb : tables s !! t = Some tb -> table_ok s tb;
  fi_mem : mem_ok s }.

(** No lock is held. *)
Record unlocked s : Prop := {
  un_table t tb : tables s !! t = Some tb -> table_lock tb = false;
  un_file f r : files s !! f = Some r -> file_lock r = false }.

(** No reference held by a call. *)
Definition nobody (_ : Z) : Z := 0.
Definition give held f d : Z -> Z := fun g => if g =? f then held g + d else held g.

Lemma fd_inv_ext held held' s : (forall f, held f = held' f) -> fd_inv held s -> fd_inv held' s.
Proof.
  intros He []. constructor; try done.
  - intros f r Hf. rewrite <- He. auto.
  - intros f. rewrite <- He. auto.
Qed.

Lemma fi_null held s : fd_inv held s -> files s !! NULL = None /\ tables s !! NULL = None.
Proof.
  intros Hi. split; apply eq_None_not_Some; intros H.
  - apply (mo_files _ (fi_mem _ _ Hi)) in H as [H _]. exact (fw_null _ _ (fi_world _ _ Hi) H).
  - apply (mo_tables _ (fi_mem _ _ Hi)) in H. exact (fw_null _ _ (fi_world _ _ Hi) H).
Qed.

Lemma fi_entry held s t tb i e :
  fd_inv held s -> tables s !! t = Some tb -> entries tb !! i = Some e -> file e <> NULL ->
  exists r, files s !! file e = Some r.
Proof.
  intros Hi Ht He Hn. apply (tb_live _ _ (fi_table _ _ Hi t tb Ht) e); [|done].
  by eapply list_elem_of_lookup_2.
Qed.

(** *** State changes that keep the invariant *)

Lemma object_insert s f r r' :
  files s !! f = Some r -> object r' = object r ->
  object <$> <[f := r']> (files s) = object <$> files s.
Proof.
  intros Hf Ho. rewrite fmap_insert, Ho. apply insert_id. by rewrite lookup_fmap, Hf.
Qed.

Lemma insert_some_iff {A} (m : gmap Z A) k x y j :
  m !! k = Some x -> is_Some (<[k := y]> m !! j) <-> is_Some (m !! j).
Proof.
  intros Hk. destruct (decide (j = k)) as [->|Hne].
  - by rewrite lookup_insert_eq, Hk.
  - by rewrite lookup_insert_ne by done.
Qed.

(** A file is replaced by one of the same kind. *)
Lemma inv_file held s f r r' :
  fd_inv held s -> files s !! f = Some r ->
  file_vfs r' = file_vfs r -> object r' = object r ->
  0 < references r' < 2 ^ 32 ->
  0 <= held f + (references r' - references r) ->
  fd_inv (give held f (references r' - references r)) (s <| files := <[f := r']> (files s) |>).
Proof.
  intros Hi Hf Hv Ho Hr Hh. destruct (fi_refs _ _ Hi f r Hf) as [Hc _].
  assert (Hdom := fun j => insert_some_iff (files s) f r r' j Hf).
  constructor; cbn.
  - rewrite (object_insert s f r) by done. apply Hi.
  - intros g x. unfold give. destruct (Z.eqb_spec g f) as [->|Hne].
    + rewrite lookup_insert_eq. intros [= <-]. lia.
    + rewrite lookup_insert_ne by done. apply Hi.
  - intros g x. destruct (decide (g = f)) as [->|Hne].
    + rewrite lookup_insert_eq. intros [= <-]. rewrite Hv. by eapply (fi_file _ _ Hi f).
    + rewrite lookup_insert_ne by done. apply Hi.
  - intros g. rewrite Hdom. unfold give. destruct (Z.eqb_spec g f) as [->|Hne]; [|apply Hi].
    split; [done|]. by rewrite Hf.
  - intros t tb Ht. destruct (fi_table _ _ Hi t tb Ht). constructor; try done.
    cbn. intros e. rewrite Hdom. auto.
  - destruct (fi_mem _ _ Hi). constructor; cbn; try done.
    + intros g. rewrite Hdom. auto.
    + intros t tb Ht. destruct (mo_arrays0 t tb Ht) as (Ha & Hb & Hc'). split_and!; try done.
      apply eq_None_not_Some. rewrite Hdom. rewrite Hb. by intros [].
Qed.

Lemma inv_file_same held s f r r' :
  fd_inv held s -> files s !! f = Some r -> references r' = references r ->
  file_vfs r' = file_vfs r -> object r' = object r ->
  fd_inv held (s <| files := <[f := r']> (files s) |>).
Proof.
  intros Hi Hf Hr Hv Ho. destruct (fi_refs _ _ Hi f r Hf). destruct (fi_held _ _ Hi f).
  eapply fd_inv_ext; [|apply (inv_file held s f r r'); try done; lia].
  intros g. unfold give. destruct (g =? f); lia.
Qed.

(** A table is replaced by one in the same place. *)
Record like (tb tb' : ns_vfs_fdtable) : Prop := {
  li_vfs : table_vfs tb' = table_vfs tb;
  li_maximum : maximum tb' = maximum tb;
  li_at : entries_at tb' = entries_at tb;
  li_length : length (entries tb') = length (entries tb) }.

Lemma mem_ok_table s t tb tb' :
  mem_ok s -> tables s !! t = Some tb -> like tb tb' ->
  mem_ok (s <| tables := <[t := tb']> (tables s) |>).
Proof.
  intros [] Ht Hlike.
  assert (Hs : forall u x, <[t := tb']> (tables s) !! u = Some x ->
    exists y, tables s !! u = Some y /\ entries_at y = entries_at x).
  { intros u x Hu. apply lookup_insert_Some in Hu as [[<- <-]|[_ Hu]]; [|eauto].
    exists tb. split; [done|]. symmetry. apply Hlike. }
  assert (Hd := fun u => insert_some_iff (tables s) t tb tb' u Ht).
  constructor; cbn.
  - intros f Hf. destruct (mo_files0 f Hf) as [? Hnt]. split; [done|].
    apply eq_None_not_Some. rewrite Hd, Hnt. by intros [].
  - intros u. rewrite Hd. auto.
  - intros u x Hu. destruct (Hs u x Hu) as (y & Hy & <-).
    destruct (mo_arrays0 u y Hy) as (? & ? & Hnt). split_and!; try done.
    apply eq_None_not_Some. rewrite Hd, Hnt. by intros [].
  - intros u u' x x' Hu Hu' Heq. destruct (Hs u x Hu) as (y & Hy & E), (Hs u' x' Hu') as (y' & Hy' & E').
    apply (mo_distinct0 u u' y y'); congruence.
Qed.

Lemma inv_table held held' s t tb tb' :
  fd_inv held s -> tables s !! t = Some tb -> like tb tb' -> held' NULL = held NULL ->
  (forall f, f <> NULL -> 0 <= held' f /\
     held' f = held f + count_in (entries tb) f - count_in (entries tb') f) ->
  (forall e, e ∈ entries tb' -> file e <> NULL -> is_Some (files s !! file e)) ->
  fd_inv held' (s <| tables := <[t := tb']> (tables s) |>).
Proof.
  intros Hi Ht Hlike Hnull Hh Hlive. destruct (fi_null _ _ Hi) as [Hn Hn'].
  constructor; cbn.
  - apply Hi.
  - intros f r Hf. destruct (fi_refs _ _ Hi f r Hf) as [Hc Hr]. split; [|done].
    rewrite (owned_in_insert _ _ tb) by done.
    assert (Hfn : f <> NULL) by congruence. destruct (Hh f Hfn). lia.
  - intros f r Hf. exact (fi_file _ _ Hi f r Hf).
  - intros f. destruct (decide (f = NULL)) as [->|Hf]; [rewrite Hnull; apply Hi|].
    destruct (Hh f Hf) as [Hp E]. split; [done|]. intros Hne.
    destruct (decide (held f = 0)) as [Hz|Hz]; [|by apply (fi_held _ _ Hi)].
    apply dec_stable. intros Hnl. cut (count_in (entries tb) f = 0);
      [pose proof (count_in_nonneg (entries tb') f); lia|].
    apply count_in_none. intros e He Hef. apply Hnl. rewrite <- Hef.
    apply (tb_live _ _ (fi_table _ _ Hi t tb Ht)); [done|congruence].
  - intros u x Hu. apply lookup_insert_Some in Hu as [[<- <-]|[_ Hu]].
    + destruct (fi_table _ _ Hi t tb Ht), Hlike. constructor; cbn; try done; try congruence.
      by rewrite li_vfs0.
    + by destruct (fi_table _ _ Hi u x Hu).
  - by eapply mem_ok_table; [apply Hi| |].
Qed.

(** The entry [i] of a table is replaced. *)
Definition swap held (e e' : fd_entry) : Z -> Z :=
  fun f => if f =? NULL then held f else held f + one (file e =? f) - one (file e' =? f).

Lemma inv_entry held s t tb i e e' :
  fd_inv held s -> tables s !! t = Some tb -> entries tb !! i = Some e ->
  (file e' <> NULL -> 0 < held (file e')) ->
  fd_inv (swap held e e')
    (s <| tables := <[t := tb <| entries := <[i := e']> (entries tb) |> ]> (tables s) |>).
Proof.
  intros Hi Ht He Hh. apply (inv_table held _ s t tb); try done.
  - constructor; try done. cbn. apply length_insert.
  - intros f Hf. cbn. rewrite (count_in_insert _ _ e) by done. unfold swap, one.
    rewrite (proj2 (Z.eqb_neq _ _) Hf). destruct (fi_held _ _ Hi f).
    destruct (Z.eqb_spec (file e') f) as [E|E]; [|destruct (file e =? f); lia].
    rewrite <- E in Hf. specialize (Hh Hf). rewrite E in Hh. destruct (file e =? f); lia.
  - cbn. intros x Hx Hxn. apply list_elem_of_lookup in Hx as [j Hj].
    apply list_lookup_insert_Some in Hj as [(-> & <- & _)|[_ Hj]].
    + apply (fi_held _ _ Hi). specialize (Hh Hxn). lia.
    + eapply fi_entry; eauto.
Qed.

Lemma inv_table_lock held s t tb b :
  fd_inv held s -> tables s !! t = Some tb ->
  fd_inv held (s <| tables := <[t := tb <| table_lock := b |>]> (tables s) |>).
Proof.
  intros Hi Ht. apply (inv_table held _ s t tb); try done.
  - intros f _. destruct (fi_held _ _ Hi f). cbn. lia.
  - intros e. apply (fi_table _ _ Hi t tb Ht).
Qed.

(** The world changes, keeping what the open objects need. *)
Lemma inv_world held s w :
  fd_inv held s -> fw_inv (object <$> files s) w -> fw_owns (world s) ⊆ fw_owns w ->
  fd_inv held (s <| world := w |>).
Proof.
  intros [] Hw Ho. constructor; cbn; try done.
  - intros t tb Ht. by destruct (fi_table0 t tb Ht).
  - destruct fi_mem0. constructor; cbn; try done.
    + intros f Hf. destruct (mo_files0 f Hf). auto.
    + auto.
    + intros t tb Ht. destruct (mo_arrays0 t tb Ht) as (? & ? & ?). auto.
Qed.

(** The last reference to a file is gone: its object is closed and its block is
    given back. *)
Lemma inv_drop held s f r w :
  fd_inv held s -> files s !! f = Some r -> references r = 1 -> held f = 1 ->
  fw_inv (delete f (object <$> files s)) w ->
  fw_owns w = fw_owns (world s) \/ fw_owns w = fw_owns (world s) ∖ {[f]} ->
  fd_inv (give held f (-1)) (s <| files := delete f (files s) |> <| world := w |>).
Proof.
  intros Hi Hf Hr Hh Hw Ho. destruct (fi_refs _ _ Hi f r Hf) as [Hc _].
  assert (Hown : forall p, p <> f -> p ∈ fw_owns (world s) -> p ∈ fw_owns w).
  { intros p Hp Hin. destruct Ho as [->| ->]; set_solver. }
  assert (Hdom : forall g, is_Some (delete f (files s) !! g) <-> g <> f /\ is_Some (files s !! g)).
  { intros g. rewrite lookup_delete_is_Some. split; intros []; done. }
  constructor; cbn.
  - by rewrite fmap_delete.
  - intros g x Hg. apply lookup_delete_Some in Hg as [Hne Hg]. unfold give.
    rewrite (proj2 (Z.eqb_neq _ _)) by done. by apply Hi.
  - intros g x Hg. apply lookup_delete_Some in Hg as [Hne Hg].
    exact (fi_file _ _ Hi g x Hg).
  - intros g. rewrite Hdom. unfold give. destruct (Z.eqb_spec g f) as [->|Hne]; [rewrite Hh; split; [done|intros []; done]|].
    split; [apply Hi|]. intros Hg. split; [done|]. by apply (fi_held _ _ Hi).
  - intros t tb Ht. destruct (fi_table _ _ Hi t tb Ht). constructor; try done.
    cbn. intros e He Hn. rewrite Hdom. split; [|by apply tb_live0].
    intros E. apply list_elem_of_lookup in He as [i He].
    pose proof (owned_in_pos _ _ _ _ _ Ht He). rewrite E in *. lia.
  - assert (Hft : tables s !! f = None) by (apply (fi_mem _ _ Hi); by eexists).
    destruct (fi_mem _ _ Hi). constructor; cbn; try done.
    + intros g. rewrite Hdom. intros [Hne Hg]. destruct (mo_files0 g Hg). auto.
    + intros t Ht. apply Hown; [|auto]. intros ->. rewrite Hft in Ht. by destruct Ht.
    + intros t tb Ht. destruct (mo_arrays0 t tb Ht) as (? & Hnf & ?). split_and!; try done.
      * apply Hown; [|done]. intros E. congruence.
      * apply eq_None_not_Some. rewrite Hdom, Hnf. by intros [_ []].
Qed.

(** ** Releasing a reference *)

Lemma wp_deallocate objs s v p sz al :
  fw_inv objs (world s) -> vfs_ok s v -> p ∈ fw_owns (world s) ->
  wp (ns_vfs_memory_deallocate v p sz al) (fun _ s' => exists w, s' = s <| world := w |> /\
    fw_inv objs w /\
    (fw_owns w = fw_owns (world s) \/ fw_owns w = fw_owns (world s) ∖ {[p]})) s.
Proof.
  intros Hi (Hv & x & Hx & _ & Ha) Hp. unfold ns_vfs_memory_deallocate.
  assert (Hpn : p <> NULL) by (intros ->; exact (fw_null _ _ Hi Hp)).
  rewrite (proj2 (Z.eqb_neq _ _) Hv), (proj2 (Z.eqb_neq _ _) Hpn). cbn [orb].
  apply wp_bind. eapply wp_load; [exact Hx|].
  destruct (vfs_deallocate (allocator x)) as [g|] eqn:Hg.
  - apply wp_zoom. eapply wp_mono; [by apply (fw_deallocate _ _ _ _ _ _ _ Ha Hg Hi)|].
    intros _ w [Hw Ho]. exists w. auto.
  - apply wp_ret. exists (world s). split_and!; [by destruct s|done|by left].
Qed.

Lemma wp_release held s f r :
  fd_inv held s -> 0 < held f -> files s !! f = Some r ->
  wp (ns_vfs_file_release f) (fun _ s' => fd_inv (give held f (-1)) s' /\
    tables s' = tables s /\ vfss s' = vfss s /\
    files s' = if references r =? 1 then delete f (files s)
               else <[f := r <| references := references r - 1 |>]> (files s)) s.
Proof.
  intros Hi Hh Hf. destruct (fi_refs _ _ Hi f r Hf) as [Hc Hr].
  assert (Hfn : f <> NULL). { intros ->. destruct (fi_null _ _ Hi). congruence. }
  unfold ns_vfs_file_release. rewrite (proj2 (Z.eqb_neq _ _) Hfn).
  apply wp_bind. eapply wp_load; [exact Hf|]. apply wp_bind. eapply wp_store; [exact Hf|].
  rewrite u32_small by lia. cbn beta.
  destruct (Z.eqb_spec (references r) 1) as [E|E].
  - pose proof (fi_file _ _ Hi f r Hf) as Hv. rewrite E. change (negb (1 - 1 =? 0)) with false.
    apply wp_bind. eapply wp_load; [by apply lookup_insert_eq|]. cbn.
    apply wp_bind, wp_zoom. eapply wp_mono.
    { apply (fw_close (object <$> files s) f); [by rewrite lookup_fmap, Hf|apply Hi]. }
    intros _ w [Hw Ho]. cbn. apply wp_bind. eapply wp_load; [by apply lookup_insert_eq|].
    apply wp_bind, wp_modify. cbn. rewrite delete_insert_eq.
    eapply wp_mono; [apply (wp_deallocate (delete f (object <$> files s)))|].
    + done.
    + done.
    + cbn. rewrite Ho. apply (fi_mem _ _ Hi). by eexists.
    + intros _ s' (w' & -> & Hw' & Ho'). cbn in *. rewrite Ho in Ho'. split_and!; try done.
      apply (inv_drop held s f r w' Hi Hf E); [|done..]. pose proof (owned_in_nonneg (tables s) f). lia.
  - rewrite (proj2 (Z.eqb_neq _ _)) by lia. apply wp_ret. split_and!; try done.
    eapply fd_inv_ext; [|apply (inv_file held s f r (r <| references := references r - 1 |>)); try done].
    + intros g. unfold give. cbn. destruct (g =? f); lia.
    + cbn. lia.
    + cbn. lia.
Qed.

(** ** Descriptor operations *)

Ltac vstep :=
  lazymatch goal with
  | |- wp (modify _) _ _ => fail
  | |- wp (lock_release _ _ _) _ _ => unfold lock_release
  | |- _ => mstep
  end.
Ltac vsteps := repeat vstep.

Lemma wp_lock_table s t tb Q :
  tables s !! t = Some tb -> table_lock tb = false ->
  Q tt (s <| tables := <[t := tb <| table_lock := true |>]> (tables s) |>) ->
  wp (lock_acquire tables t table_lock) Q s.
Proof. intros Ht Hl HQ. unfold lock_acquire. vsteps. rewrite Hl. vsteps. exact HQ. Qed.

Lemma unlock_table s t (tb tb' : ns_vfs_fdtable) :
  <[t := tb']> (<[t := tb]> (tables s)) = <[t := tb']> (tables s).
Proof. apply insert_insert_eq. Qed.

Lemma relock (tb : ns_vfs_fdtable) :
  table_lock tb = false -> tb <| table_lock := true |> <| table_lock := false |> = tb.
Proof. intros Hl. destruct tb. cbn in *. by subst. Qed.

Lemma same_tables s t tb : tables s !! t = Some tb -> s <| tables := <[t := tb]> (tables s) |> = s.
Proof. intros Ht. destruct s. cbn in *. by rewrite insert_id. Qed.

Lemma wp_get_entry s t tb fd e Q :
  tables s !! t = Some tb -> rd (entries tb) fd = Some e -> Q e s -> wp (get_entry t fd) Q s.
Proof. intros Ht He HQ. unfold get_entry. vsteps. rewrite He. by vsteps. Qed.

Lemma wp_put_entry s t tb fd e Q :
  tables s !! t = Some tb -> 0 <= fd < Z.of_nat (length (entries tb)) ->
  Q tt (s <| tables := <[t := tb <| entries := <[Z.to_nat fd := e]> (entries tb) |>]> (tables s) |>) ->
  wp (put_entry t fd e) Q s.
Proof. intros Ht He HQ. unfold put_entry. vsteps. rewrite wr_Some by done. vsteps. exact HQ. Qed.

(** Taking [n] more references to a file does not overflow its count. *)
Definition room n s : Prop := forall f r, files s !! f = Some r -> references r + n < 2 ^ 32.

Definition retained s f (r : ns_vfs_file W) : vstate W :=
  s <| files := <[f := r <| references := references r + 1 |>]> (files s) |>.

Lemma inv_retain held s f r :
  fd_inv held s -> room 1 s -> files s !! f = Some r -> fd_inv (give held f 1) (retained s f r).
Proof.
  intros Hi Hw Hf. specialize (Hw f r Hf). destruct (fi_refs _ _ Hi f r Hf).
  eapply fd_inv_ext; [|apply (inv_file held s f r (r <| references := references r + 1 |>)); try done].
  - intros g. unfold give. cbn. destruct (g =? f); lia.
  - cbn. lia.
  - cbn. destruct (fi_held _ _ Hi f). lia.
Qed.

Lemma wp_retain s f r Q :
  f <> NULL -> room 1 s -> files s !! f = Some r -> 0 < references r -> Q tt (retained s f r) ->
  wp (ns_vfs_file_retain f) Q s.
Proof.
  intros Hn Hw Hf Hr HQ. unfold ns_vfs_file_retain. rewrite (proj2 (Z.eqb_neq _ _) Hn). vsteps.
  specialize (Hw f r Hf). rewrite u32_small by lia. exact HQ.
Qed.

(** The open file behind a descriptor. *)
Definition descriptor (tb : ns_vfs_fdtable) (fd : Z) : option fd_entry :=
  e ← rd (entries tb) fd; if file e =? NULL then None else Some e.

Lemma descriptor_Some tb fd e :
  descriptor tb fd = Some e ->
  0 <= fd < Z.of_nat (length (entries tb)) /\ rd (entries tb) fd = Some e /\
  entries tb !! Z.to_nat fd = Some e /\ file e <> NULL.
Proof.
  unfold descriptor. intros H. destruct (rd (entries tb) fd) as [x|] eqn:Hx; [|done]. cbn in H.
  destruct (Z.eqb_spec (file x) NULL); [done|]. injection H as ->.
  pose proof (rd_range _ _ _ Hx). apply rd_lookup in Hx as Hx'. destruct Hx'. split_and!; first [done|lia].
Qed.

Lemma wp_fd_get s t tb fd held Q :
  fd_inv held s -> unlocked s -> room 1 s -> tables s !! t = Some tb ->
  (forall e r, descriptor tb fd = Some e -> files s !! file e = Some r ->
     Q (file e) (retained s (file e) r)) ->
  (descriptor tb fd = None -> Q NULL s) ->
  wp (fd_get t fd) Q s.
Proof.
  intros Hi Hu Hw Ht HS HN. destruct (fi_table _ _ Hi t tb Ht) as [Hlen Hmax _ _].
  assert (Htn : t <> NULL). { intros ->. destruct (fi_null _ _ Hi). congruence. }
  unfold fd_get. rewrite (proj2 (Z.eqb_neq _ _) Htn). cbn [orb].
  destruct (Z.ltb_spec fd 0) as [Hfd|Hfd].
  { vsteps. apply HN. unfold descriptor, rd. by rewrite (proj2 (Z.leb_gt _ _) Hfd). }
  vsteps. destruct (Z.leb_spec (maximum tb) fd) as [Hge|Hlt].
  { vsteps. apply HN. unfold descriptor, rd. rewrite (proj2 (Z.leb_le _ _) Hfd), lookup_ge_None_2 by lia. done. }
  destruct (rd_Some (entries tb) fd ltac:(lia)) as [e He].
  vsteps. eapply wp_lock_table; [done|by eapply un_table|]. vsteps.
  eapply wp_get_entry; [apply lookup_insert_eq|exact He|]. vsteps.
  assert (Hd : descriptor tb fd = if file e =? NULL then None else Some e) by (unfold descriptor; by rewrite He).
  destruct (Z.eqb_spec (file e) NULL) as [En|En]; cbn [negb].
  - vsteps. cbn. rewrite insert_insert_eq, relock by (by eapply un_table).
    rewrite En. destruct s; cbn in *. rewrite insert_id by done. by apply HN.
  - apply rd_lookup in He as He'. destruct He' as [_ He'].
    destruct (fi_entry _ _ _ _ _ _ Hi Ht He' En) as [r Hr].
    eapply (wp_retain _ _ r); try done; [by eapply (fi_refs _ _ Hi)|]. vsteps. unfold retained. cbn.
    rewrite insert_insert_eq, relock by (by eapply un_table).
    specialize (HS e r Hd Hr). unfold retained in HS. destruct s; cbn in *. by rewrite insert_id by done.
Qed.

Lemma relock_entries (tb : ns_vfs_fdtable) es :
  table_lock tb = false ->
  tb <| table_lock := true |> <| entries := es |> <| table_lock := false |> = tb <| entries := es |>.
Proof. intros Hl. destruct tb. cbn in *. by subst. Qed.

(** The table [tb] with the entry at [fd] replaced. *)
Definition set_fd (tb : ns_vfs_fdtable) (fd : Z) (e : fd_entry) : ns_vfs_fdtable :=
  tb <| entries := <[Z.to_nat fd := e]> (entries tb) |>.

(** The open files after one reference to [f] is dropped. *)
Definition dropped s f (r : ns_vfs_file W) : gmap Z (ns_vfs_file W) :=
  if references r =? 1 then delete f (files s)
  else <[f := r <| references := references r - 1 |>]> (files s).

Lemma unlocked_dropped s s' f r :
  unlocked s -> files s !! f = Some r -> files s' = dropped s f r -> tables s' = tables s -> unlocked s'.
Proof.
  intros [] Hf Hfs Hts. constructor; rewrite ?Hfs, ?Hts; [done|]. intros g x. unfold dropped.
  case_match; [intros [_ Hg]%lookup_delete_Some; eauto|].
  intros [[<- <-]|[_ Hg]]%lookup_insert_Some; [cbn|]; eauto.
Qed.

Lemma unlocked_tables s t tb tb' :
  unlocked s -> tables s !! t = Some tb -> table_lock tb' = table_lock tb ->
  unlocked (s <| tables := <[t := tb']> (tables s) |>).
Proof.
  intros [] Ht Hl. constructor; [|done]. cbn. intros u x [[<- <-]|[_ Hu]]%lookup_insert_Some; eauto.
Qed.

Lemma table_nonnull held s t tb : fd_inv held s -> tables s !! t = Some tb -> (t =? NULL) = false.
Proof. intros Hi Ht. apply Z.eqb_neq. intros ->. destruct (fi_null _ _ Hi). congruence. Qed.

Lemma descriptor_None tb fd :
  descriptor tb fd = None -> 0 <= fd < Z.of_nat (length (entries tb)) ->
  exists e, rd (entries tb) fd = Some e /\ file e = NULL.
Proof.
  intros Hd Hfd. destruct (rd_Some (entries tb) fd Hfd) as [e He]. exists e. split; [done|].
  unfold descriptor in Hd. rewrite He in Hd. cbn in Hd. by destruct (Z.eqb_spec (file e) NULL).
Qed.

(** [held] after a reference to the file of [e] has gone into a table. *)
Definition spent held (e : fd_entry) : Z -> Z :=
  fun f => if f =? NULL then held f else held f - one (file e =? f).

(** An entry is overwritten and the file it named is released. *)
Lemma wp_release_entry held s t tb i e e' r :
  fd_inv held s -> unlocked s -> tables s !! t = Some tb -> entries tb !! i = Some e ->
  file e <> NULL -> (file e' <> NULL -> 0 < held (file e')) -> files s !! file e = Some r ->
  let tb' := tb <| entries := <[i := e']> (entries tb) |> in
  wp (ns_vfs_file_release (file e)) (fun _ s' =>
      fd_inv (spent held e') s' /\ unlocked s' /\ tables s' = <[t := tb']> (tables s) /\
      vfss s' = vfss s /\ files s' = dropped s (file e) r)
    (s <| tables := <[t := tb']> (tables s) |>).
Proof.
  intros Hi Hu Ht Hlk Hn Hh Hf tb'.
  pose proof (inv_entry held s t tb i e e' Hi Ht Hlk Hh) as Hi'. fold tb' in Hi'.
  eapply wp_mono.
  - apply (wp_release _ _ (file e) r Hi'); [|done]. unfold swap, one.
    rewrite (proj2 (Z.eqb_neq _ _) Hn), Z.eqb_refl. destruct (fi_held _ _ Hi (file e)).
    destruct (Z.eqb_spec (file e') (file e)) as [E|]; [|lia]. rewrite E in Hh. specialize (Hh Hn). lia.
  - intros _ s' (Hinv & Hts & Hvs & Hfs). split_and!; try done.
    + eapply fd_inv_ext; [|exact Hinv]. intros g. unfold give, swap, spent, one.
      destruct (Z.eqb_spec g NULL) as [->|Hg]; [by rewrite (proj2 (Z.eqb_neq _ _)) by congruence|].
      destruct (Z.eqb_spec g (file e)) as [->|Hne]; [rewrite Z.eqb_refl; lia|].
      rewrite (proj2 (Z.eqb_neq (file e) g)) by congruence. lia.
    + apply (unlocked_dropped (s <| tables := <[t := tb']> (tables s) |>) s' (file e) r); try done.
      by eapply unlocked_tables.
Qed.

Lemma spent_none held f : spent held no_entry f = held f.
Proof.
  unfold spent, one. cbn [file no_entry]. destruct (Z.eqb_spec f NULL); [done|].
  rewrite (proj2 (Z.eqb_neq NULL f)) by done. lia.
Qed.

Lemma wp_vfs_close held s t tb fd :
  fd_inv held s -> unlocked s -> tables s !! t = Some tb ->
  wp (ns_vfs_close t fd) (fun x s' => fd_inv held s' /\ unlocked s' /\
    match descriptor tb fd with
    | None => x = - NS_EBADF /\ s' = s
    | Some e => x = 0 /\ tables s' = <[t := set_fd tb fd no_entry]> (tables s) /\
        exists r, files s !! file e = Some r /\ files s' = dropped s (file e) r
    end) s.
Proof.
  intros Hi Hu Ht. destruct (fi_table _ _ Hi t tb Ht) as [Hlen Hmax _ _].
  pose proof (un_table _ Hu t tb Ht) as Hl.
  unfold ns_vfs_close. rewrite (table_nonnull held s t tb) by done. cbn [orb].
  destruct (Z.ltb_spec fd 0) as [Hfd|Hfd].
  { vsteps. unfold descriptor, rd. by rewrite (proj2 (Z.leb_gt _ _) Hfd). }
  vsteps. destruct (Z.leb_spec (maximum tb) fd) as [Hge|Hlt].
  { vsteps. unfold descriptor, rd. rewrite (proj2 (Z.leb_le _ _) Hfd), lookup_ge_None_2 by lia. done. }
  vsteps. eapply wp_lock_table; [done..|]. vsteps. destruct (descriptor tb fd) as [e|] eqn:Hd.
  - apply descriptor_Some in Hd as (Hr & He & Hlk & Hn).
    eapply wp_get_entry; [apply lookup_insert_eq|exact He|]. rewrite (proj2 (Z.eqb_neq _ _) Hn).
    vsteps. eapply wp_put_entry; [apply lookup_insert_eq|done|]. vsteps. cbn.
    rewrite !insert_insert_eq, relock_entries by done.
    destruct (fi_entry _ _ _ _ _ _ Hi Ht Hlk Hn) as [r Hf].
    eapply wp_mono; [by apply (wp_release_entry held s t tb _ e no_entry r)|].
    intros _ s' (Hinv & Hu' & Hts & Hvs & Hfs). vsteps. split_and!; eauto.
    eapply fd_inv_ext; [|exact Hinv]. apply spent_none.
  - destruct (descriptor_None tb fd Hd ltac:(lia)) as (e & He & En).
    eapply wp_get_entry; [apply lookup_insert_eq|exact He|]. rewrite En. cbn [Z.eqb NULL]. vsteps.
    cbn. rewrite insert_insert_eq, relock, insert_id by done. destruct s. by split_and!.
Qed.

(** *** Installing and duplicating descriptors *)

Lemma find_slot_spec es i :
  let k := find_slot es i - i in
  0 <= k <= Z.of_nat (length es) /\
  (forall j e, 0 <= j < k -> es !! Z.to_nat j = Some e -> file e <> NULL) /\
  (k < Z.of_nat (length es) -> exists e, es !! Z.to_nat k = Some e /\ file e = NULL).
Proof.
  revert i. induction es as [|x es IH]; intros i; cbn [find_slot length].
  - cbn. split_and!; [lia|lia|lia|lia].
  - destruct (Z.eqb_spec (file x) NULL) as [E|E]; cbn [negb].
    + replace (i - i) with 0 by lia. split_and!; [lia|lia|lia|]. intros _. by exists x.
    + specialize (IH (i + 1)). cbn zeta in IH. set (k' := find_slot es (i + 1)) in *.
      replace (k' - i) with (1 + (k' - (i + 1))) by lia. destruct IH as (Hk & Hb & Hf).
      split_and!; [lia|lia| |].
      * intros j e Hj He. destruct (decide (j = 0)) as [->|Hj0]; [by simplify_eq/=|].
        apply (Hb (j - 1) e); [lia|]. rewrite <- He. replace (Z.to_nat j) with (S (Z.to_nat (j - 1))) by lia. done.
      * intros Hl. replace (Z.to_nat (1 + (k' - (i + 1)))) with (S (Z.to_nat (k' - (i + 1)))) by lia.
        apply Hf. lia.
Qed.

(** The least descriptor from [m] on that is not in use. *)
Definition lowest_free (tb : ns_vfs_fdtable) (m fd : Z) : Prop :=
  m <= fd < maximum tb /\ descriptor tb fd = None /\
  forall fd', m <= fd' < fd -> exists e, descriptor tb fd' = Some e.
(** Every descriptor from [m] on is in use. *)
Definition full_from (tb : ns_vfs_fdtable) (m : Z) : Prop :=
  forall fd, m <= fd < maximum tb -> exists e, descriptor tb fd = Some e.

Lemma slot_lowest s tb m :
  table_ok s tb -> 0 <= m < maximum tb ->
  let i := find_slot (drop (Z.to_nat m) (entries tb)) m in
  (i = maximum tb /\ full_from tb m) \/ (i <> maximum tb /\ lowest_free tb m i).
Proof.
  intros [Hlen Hmax _ _] Hm i. destruct (find_slot_spec (drop (Z.to_nat m) (entries tb)) m) as (Hk & Hb & Hf).
  fold i in Hk, Hb, Hf. rewrite length_drop in Hk, Hf.
  assert (Hused : forall fd, m <= fd < i -> exists e, descriptor tb fd = Some e).
  { intros fd Hfd. destruct (rd_Some (entries tb) fd ltac:(lia)) as [e He]. exists e.
    unfold descriptor. rewrite He. cbn. rewrite (proj2 (Z.eqb_neq _ _)); [done|].
    apply (Hb (fd - m)); [lia|]. rewrite lookup_drop. apply rd_lookup in He as [_ <-]. f_equal. lia. }
  destruct (decide (i = maximum tb)) as [E|E]; [left|right]; split; try done.
  - intros fd Hfd. apply Hused. lia.
  - split_and!; [lia|lia| |done]. destruct Hf as (e & He & En); [lia|].
    rewrite lookup_drop in He. replace (Z.to_nat m + Z.to_nat (i - m))%nat with (Z.to_nat i) in He by lia.
    unfold descriptor, rd. rewrite (proj2 (Z.leb_le _ _)), He by lia. cbn. by rewrite En.
Qed.

(** The state after [fd] is made to name the file [f]. *)
Definition installed s t tb f (r : ns_vfs_file W) fd cloexec : vstate W :=
  (retained s f r) <| tables := <[t := set_fd tb fd (mk_entry f cloexec)]> (tables s) |>.

Lemma inv_installed held s t tb f r fd cloexec :
  fd_inv held s -> room 1 s -> tables s !! t = Some tb -> files s !! f = Some r ->
  0 <= fd < maximum tb -> descriptor tb fd = None ->
  fd_inv held (installed s t tb f r fd cloexec).
Proof.
  intros Hi Hw Ht Hf Hfd Hd. destruct (fi_table _ _ Hi t tb Ht) as [Hlen _ _ _].
  destruct (descriptor_None tb fd Hd ltac:(lia)) as (e & He & En). apply rd_lookup in He as [_ He].
  assert (Hfn : f <> NULL). { intros ->. destruct (fi_null _ _ Hi). congruence. }
  destruct (fi_held _ _ Hi f) as [Hp _].
  eapply fd_inv_ext; [|eapply (inv_entry _ (retained s f r) t tb _ e (mk_entry f cloexec));
    [by apply inv_retain|done..|]].
  - intros g. unfold swap, give, one. rewrite En. cbn [file].
    destruct (Z.eqb_spec g NULL) as [->|Hg]; [by rewrite (proj2 (Z.eqb_neq _ _)) by congruence|].
    rewrite (proj2 (Z.eqb_neq NULL g)) by done.
    destruct (Z.eqb_spec g f) as [->|Hne]; [rewrite Z.eqb_refl; lia|].
    rewrite (proj2 (Z.eqb_neq f g)) by done. lia.
  - intros _. unfold give. cbn [file]. rewrite Z.eqb_refl. lia.
Qed.

Lemma unlocked_installed s t tb f r fd cloexec :
  unlocked s -> tables s !! t = Some tb -> files s !! f = Some r ->
  unlocked (installed s t tb f r fd cloexec).
Proof.
  intros [] Ht Hf. constructor; cbn; intros u x [[<- <-]|[_ Hx]]%lookup_insert_Some; cbn; eauto.
Qed.

Lemma wp_install held s t tb f r m cloexec :
  fd_inv held s -> unlocked s -> room 1 s -> tables s !! t = Some tb -> files s !! f = Some r ->
  file_vfs r = table_vfs tb -> 0 <= m <= maximum tb ->
  wp (ns_vfs_fd_install t f m cloexec) (fun x s' => fd_inv held s' /\ unlocked s' /\
    ((x = - NS_EMFILE /\ full_from tb m /\ s' = s) \/
     (lowest_free tb m x /\ s' = installed s t tb f r x cloexec))) s.
Proof.
  intros Hi Hu Hw Ht Hf Hv Hm. pose proof (fi_table _ _ Hi t tb Ht) as Htb. destruct Htb as [Hlen Hmax _ _].
  assert (Hfn : f <> NULL). { intros ->. destruct (fi_null _ _ Hi). congruence. }
  pose proof (un_table _ Hu t tb Ht) as Hl.
  unfold ns_vfs_fd_install. rewrite (table_nonnull held s t tb), (proj2 (Z.eqb_neq f _)) by done. cbn [orb].
  vsteps. rewrite Hv, Z.eqb_refl, (proj2 (Z.ltb_ge m 0)) by lia. cbn [orb negb].
  vsteps. eapply wp_lock_table; [done..|]. vsteps. cbn [maximum entries set_field set_table_lock].
  assert (Hslot : let i := if m <? maximum tb then find_slot (drop (Z.to_nat m) (entries tb)) m else m in
    (i = maximum tb /\ full_from tb m) \/ (i <> maximum tb /\ lowest_free tb m i)).
  { destruct (Z.ltb_spec m (maximum tb)); [apply (slot_lowest s); [by eapply fi_table|lia]|].
    left. split; [lia|]. intros fd. lia. }
  cbn zeta in Hslot. destruct Hslot as [[-> Hfull]|[Hne Hlow]].
  - rewrite Z.eqb_refl. vsteps. cbn. rewrite insert_insert_eq, relock, insert_id by done.
    destruct s. split_and!; auto.
  - rewrite (proj2 (Z.eqb_neq _ _) Hne). set (i := if m <? maximum tb then _ else m) in *.
    vsteps. eapply (wp_retain _ f r); try done; [by eapply (fi_refs _ _ Hi)|].
    vsteps. eapply wp_put_entry; [apply lookup_insert_eq|cbn; destruct Hlow; lia|]. vsteps.
    match goal with |- fd_inv _ ?x /\ _ => replace x with (installed s t tb f r i cloexec) end.
    + split_and!; [|by apply unlocked_installed|auto].
      apply inv_installed; try done; [destruct Hlow; lia|by destruct Hlow as (? & ? & _)].
    + unfold installed, retained, set_fd, set_field, set_tables, set_files; cbn. f_equal.
      rewrite !insert_insert_eq. f_equal. destruct tb; cbn in *. by subst.
Qed.

Lemma room_retained n s f r :
  0 <= n -> room (n + 1) s -> files s !! f = Some r -> room n (retained s f r).
Proof.
  intros Hn Hr Hf g x. cbn. intros [[<- <-]|[_ Hg]]%lookup_insert_Some.
  - cbn. specialize (Hr f r Hf). lia.
  - specialize (Hr g x Hg). lia.
Qed.

Lemma unlocked_retained s f r : unlocked s -> files s !! f = Some r -> unlocked (retained s f r).
Proof.
  intros [] Hf. constructor; cbn; [done|]. intros g x [[<- <-]|[_ Hg]]%lookup_insert_Some; [cbn|]; eauto.
Qed.

(** Dropping a reference taken by the same call. *)
Lemma wp_unretain held s f r :
  fd_inv (give held f 1) s -> 0 <= held f -> unlocked s -> files s !! f = Some r -> 1 < references r ->
  wp (ns_vfs_file_release f) (fun _ s' => fd_inv held s' /\ unlocked s' /\ tables s' = tables s /\
    vfss s' = vfss s /\ files s' = <[f := r <| references := references r - 1 |>]> (files s)) s.
Proof.
  intros Hi Hh Hu Hf Hr. eapply wp_mono; [apply (wp_release _ s f r Hi)|].
  - unfold give. rewrite Z.eqb_refl. lia.
  - done.
  - intros _ s' (Hi' & Hts & Hvs & Hfs). split_and!; try done.
    + eapply fd_inv_ext; [|exact Hi']. intros g. unfold give. destruct (g =? f); lia.
    + by apply (unlocked_dropped s s' f r).
    + rewrite Hfs. by rewrite (proj2 (Z.eqb_neq _ _)) by lia.
Qed.

(** The references of [r] counted up and down again. *)
Lemma count_back (r r' : ns_vfs_file W) :
  r' = r <| references := references r + 1 |> -> r' <| references := references r' - 1 |> = r.
Proof. intros ->. destruct r; unfold set_field, set_references; cbn. f_equal. lia. Qed.

Lemma retained_back s f r :
  files s !! f = Some r -> <[f := r]> (files (retained s f r)) = files s.
Proof. intros Hf. cbn. rewrite insert_insert_eq. by apply insert_id. Qed.

Lemma inv_retain_2 held s f r :
  fd_inv held s -> room 2 s -> files s !! f = Some r ->
  fd_inv (give held f 1) (retained s f r) /\ room 1 (retained s f r) /\ room 1 s.
Proof.
  intros Hi Hw Hf. assert (H1 : room 1 s) by (intros g x Hg; specialize (Hw g x Hg); lia).
  split_and!; [by apply inv_retain|by apply room_retained|done].
Qed.

Lemma wp_dup held s t tb old m cloexec :
  fd_inv held s -> unlocked s -> room 2 s -> tables s !! t = Some tb -> 0 <= m <= maximum tb ->
  (forall e r, descriptor tb old = Some e -> files s !! file e = Some r -> file_vfs r = table_vfs tb) ->
  wp (ns_vfs_dup t old m cloexec) (fun x s' => fd_inv held s' /\ unlocked s' /\
    match descriptor tb old with
    | None => x = - NS_EBADF /\ s' = s
    | Some e => exists r, files s !! file e = Some r /\
        ((x = - NS_EMFILE /\ full_from tb m /\ tables s' = tables s /\ files s' = files s) \/
         (lowest_free tb m x /\ tables s' = <[t := set_fd tb x (mk_entry (file e) cloexec)]> (tables s) /\
          files s' = files (retained s (file e) r)))
    end) s.
Proof.
  intros Hi Hu Hw Ht Hm Hv. unfold ns_vfs_dup. vsteps.
  apply (wp_fd_get s t tb old held); try done; [intros f r Hf; specialize (Hw f r Hf); lia| |].
  2:{ intros Hd. rewrite Hd, Z.eqb_refl. vsteps. done. }
  intros e r Hd Hf. rewrite Hd. apply descriptor_Some in Hd as Hd'. destruct Hd' as (_ & _ & _ & Hn).
  destruct (fi_refs _ _ Hi _ _ Hf) as [_ Hr]. rewrite (proj2 (Z.eqb_neq _ _) Hn). vsteps.
  destruct (inv_retain_2 held s _ r Hi Hw Hf) as (Hi1 & Hw1 & _).
  set (r1 := r <| references := references r + 1 |>). set (s1 := retained s (file e) r) in *.
  assert (Hf1 : files s1 !! file e = Some r1) by apply lookup_insert_eq.
  eapply wp_mono; [apply (wp_install _ _ t tb (file e) r1 m cloexec Hi1); try done|].
  - by apply unlocked_retained.
  - exact (Hv e r Hd Hf).
  - destruct (fi_held _ _ Hi (file e)) as [Hh _]. intros x s2 (Hi2 & Hu2 & Hcase). vsteps.
    destruct Hcase as [(-> & Hfull & ->)|(Hlow & ->)].
    + eapply wp_mono; [apply (wp_unretain held s1 _ r1); try done; cbn; lia|].
      intros _ s' (Hi3 & Hu3 & Hts & _ & Hfs). vsteps. split_and!; [done..|]. exists r. split; [done|].
      left. rewrite Hts, Hfs, (count_back r) by done. split_and!; try done. exact (retained_back s (file e) r Hf).
    + set (r2 := r1 <| references := references r1 + 1 |>).
      eapply wp_mono; [apply (wp_unretain held _ _ r2 Hi2 Hh Hu2); [apply lookup_insert_eq|cbn; lia]|].
      intros _ s' (Hi3 & Hu3 & Hts & _ & Hfs). vsteps. split_and!; [done..|]. exists r. split; [done|].
      right. rewrite Hts, Hfs. split_and!; try done. rewrite (count_back r1) by done.
      exact (retained_back s1 (file e) r1 Hf1).
Qed.

Lemma spent_given held f cloexec g : spent (give held f 1) (mk_entry f cloexec) g =
  if g =? NULL then give held f 1 g else held g.
Proof.
  unfold spent, give, one. cbn [file]. rewrite (Z.eqb_sym f g).
  destruct (g =? NULL), (g =? f); lia.
Qed.

(** The end of [ns_vfs_dup2]: what the descriptor named before is released. *)
Lemma wp_replace held s t tb f r new d cloexec :
  fd_inv held s -> unlocked s -> room 1 s -> tables s !! t = Some tb -> f <> NULL ->
  files s !! f = Some r -> rd (entries tb) new = Some d ->
  wp (if negb (file d =? NULL) then ns_vfs_file_release (file d) else mret tt) (fun _ s' =>
    fd_inv held s' /\ unlocked s' /\
    tables s' = <[t := set_fd tb new (mk_entry f cloexec)]> (tables s) /\
    match descriptor tb new with
    | None => files s' = files (retained s f r)
    | Some d => exists x, files (retained s f r) !! file d = Some x /\
        files s' = dropped (retained s f r) (file d) x
    end) (installed s t tb f r new cloexec).
Proof.
  intros Hi Hu Hw Ht Hfn Hf Hd. pose proof (rd_range _ _ _ Hd) as Hr.
  destruct (fi_table _ _ Hi t tb Ht) as [Hlen _ _ _].
  assert (E : descriptor tb new = if file d =? NULL then None else Some d) by (unfold descriptor; by rewrite Hd).
  rewrite E. destruct (Z.eqb_spec (file d) NULL) as [En|En]; cbn [negb].
  - vsteps. split_and!; try done; [apply inv_installed; try done; lia|by apply unlocked_installed].
  - apply rd_lookup in Hd as [_ Hlk].
    assert (Hx : exists x, files (retained s f r) !! file d = Some x).
    { cbn. apply insert_some_iff with r; [done|]. by eapply fi_entry. }
    destruct Hx as [x Hx]. eapply wp_mono.
    { apply (wp_release_entry (give held f 1) (retained s f r) t tb (Z.to_nat new) d (mk_entry f cloexec) x); try done.
      - by apply inv_retain.
      - by apply unlocked_retained.
      - intros _. cbn [file]. unfold give. rewrite Z.eqb_refl. destruct (fi_held _ _ Hi f). lia. }
    intros _ s' (Hi' & Hu' & Hts & _ & Hfs). split_and!; eauto.
    eapply fd_inv_ext; [|exact Hi']. intros g. rewrite spent_given. unfold give.
    destruct (Z.eqb_spec g NULL) as [->|]; [|done]. by rewrite (proj2 (Z.eqb_neq _ _)) by congruence.
Qed.

Lemma wp_dup2 held s t tb old new cloexec :
  fd_inv held s -> unlocked s -> room 1 s -> tables s !! t = Some tb ->
  wp (ns_vfs_dup2 t old new cloexec) (fun x s' => fd_inv held s' /\ unlocked s' /\
    match descriptor tb old with
    | Some e => if (0 <=? new) && (new <? maximum tb) then
        x = new /\
        if old =? new then s' = s
        else tables s' = <[t := set_fd tb new (mk_entry (file e) cloexec)]> (tables s) /\
          exists r, files s !! file e = Some r /\
          match descriptor tb new with
          | None => files s' = files (retained s (file e) r)
          | Some d => exists rd, files (retained s (file e) r) !! file d = Some rd /\
              files s' = dropped (retained s (file e) r) (file d) rd
          end
        else x = - NS_EBADF /\ s' = s
    | None => x = - NS_EBADF /\ s' = s
    end) s.
Proof.
  intros Hi Hu Hw Ht. destruct (fi_table _ _ Hi t tb Ht) as [Hlen Hmax _ _].
  pose proof (un_table _ Hu t tb Ht) as Hl.
  unfold ns_vfs_dup2. rewrite (table_nonnull held s t tb) by done. cbn [orb].
  assert (Hbad : ((old <? 0) || (new <? 0) = true \/ (maximum tb <=? old) || (maximum tb <=? new) = true) ->
    match descriptor tb old with
    | Some e => (0 <=? new) && (new <? maximum tb) = false
    | None => True
    end).
  { intros Hb. destruct (descriptor tb old) as [e|] eqn:Hd; [|done].
    apply descriptor_Some in Hd as (Hr & _). apply andb_false_iff. rewrite Z.leb_gt, Z.ltb_ge.
    rewrite !orb_true_iff, !Z.ltb_lt, !Z.leb_le in Hb. lia. }
  destruct ((old <? 0) || (new <? 0)) eqn:Hneg.
  { vsteps. specialize (Hbad (or_introl eq_refl)). destruct (descriptor tb old); [by rewrite Hbad|done]. }
  vsteps. destruct ((maximum tb <=? old) || (maximum tb <=? new)) eqn:Hbig.
  { vsteps. specialize (Hbad (or_intror eq_refl)). destruct (descriptor tb old); [by rewrite Hbad|done]. }
  clear Hbad. apply orb_false_iff in Hneg as [Ho Hn], Hbig as [Ho' Hn'].
  rewrite Z.ltb_ge in Ho, Hn. rewrite Z.leb_gt in Ho', Hn'.
  vsteps. eapply wp_lock_table; [done..|]. vsteps. destruct (descriptor tb old) as [e|] eqn:Hd.
  2:{ destruct (descriptor_None tb old Hd ltac:(lia)) as (e & He & En).
      eapply wp_get_entry; [apply lookup_insert_eq|exact He|]. rewrite En, Z.eqb_refl. vsteps.
      cbn. rewrite insert_insert_eq, relock, insert_id by done. destruct s. by split_and!. }
  apply descriptor_Some in Hd as (_ & He & Hlk & Hne).
  eapply wp_get_entry; [apply lookup_insert_eq|exact He|]. rewrite (proj2 (Z.eqb_neq _ _) Hne).
  rewrite (proj2 (Z.leb_le 0 new)), (proj2 (Z.ltb_lt new _)) by lia. cbn [andb].
  destruct (Z.eqb_spec old new) as [->|Hon].
  - vsteps. cbn. rewrite insert_insert_eq, relock, insert_id by done. destruct s. by split_and!.
  - destruct (fi_entry _ _ _ _ _ _ Hi Ht Hlk Hne) as [r Hf].
    vsteps. eapply (wp_retain _ _ r); try done; [by eapply (fi_refs _ _ Hi)|].
    destruct (rd_Some (entries tb) new ltac:(lia)) as [d Hnew].
    vsteps. eapply wp_get_entry; [apply lookup_insert_eq|exact Hnew|].
    vsteps. eapply wp_put_entry; [apply lookup_insert_eq|cbn; lia|]. vsteps.
    match goal with |- wp _ _ ?x => replace x with (installed s t tb (file e) r new cloexec) end.
    2:{ unfold installed, retained, set_fd, set_field, set_tables, set_files; cbn. f_equal.
        rewrite !insert_insert_eq. f_equal. destruct tb; cbn in *. by subst. }
    eapply wp_mono; [by eapply (wp_replace held s t tb (file e) r new d)|].
    intros _ s' (Hi' & Hu' & Hts & Hcase). vsteps. split_and!; eauto.
Qed.

(** *** Closing on exec *)

Definition strip (e : fd_entry) : fd_entry :=
  if negb (file e =? NULL) && close_on_exec e then no_entry else e.
Definition doomed (e : fd_entry) : Z := one (negb (file e =? NULL) && close_on_exec e).

(** [f] applied to the first [n] elements. *)
Definition upto {A} (f : A -> A) (n : nat) (l : list A) : list A := (f <$> take n l) ++ drop n l.

Lemma upto_lookup {A} (f : A -> A) n l x : l !! n = Some x -> upto f n l !! n = Some x.
Proof.
  intros Hx. pose proof (lookup_lt_Some _ _ _ Hx). unfold upto.
  rewrite lookup_app_r; rewrite length_fmap, length_take; [|lia].
  rewrite lookup_drop, <- Hx. f_equal. lia.
Qed.

Lemma upto_step {A} (f : A -> A) n l x :
  l !! n = Some x -> <[n := f x]> (upto f n l) = upto f (S n) l.
Proof.
  intros Hx. pose proof (lookup_lt_Some _ _ _ Hx). unfold upto.
  rewrite (take_S_r _ _ x), fmap_app, (drop_S _ x) by done.
  assert (Hl : length (f <$> take n l) = n) by (rewrite length_fmap, length_take; lia).
  rewrite insert_app_r_alt by lia. rewrite Hl, Nat.sub_diag. by rewrite <- app_assoc.
Qed.

Lemma upto_all {A} (f : A -> A) n l : (length l <= n)%nat -> upto f n l = f <$> l.
Proof. intros Hn. unfold upto. by rewrite take_ge, drop_ge, app_nil_r by lia. Qed.

Lemma upto_length {A} (f : A -> A) n l : length (upto f n l) = length l.
Proof. unfold upto. rewrite length_app, length_fmap, length_take, length_drop. lia. Qed.

Definition total {A} (f : A -> Z) (l : list A) : Z := foldr (fun x n => f x + n) 0 l.

Lemma total_snoc {A} (f : A -> Z) l x : total f (l ++ [x]) = total f l + f x.
Proof. induction l as [|y l IH]; cbn; [lia|]. unfold total in IH. rewrite IH. lia. Qed.

Lemma restore_tables s ts : set_tables (tables s) (set_tables ts s) = s.
Proof. by destruct s. Qed.

Lemma wp_strip_entry held s t tb i e closed :
  fd_inv held s -> unlocked s -> tables s !! t = Some tb -> rd (entries tb) i = Some e ->
  wp (close_cloexec_entry t i closed) (fun x s' => fd_inv held s' /\ unlocked s' /\
    tables s' = <[t := set_fd tb i (strip e)]> (tables s) /\ x = closed + doomed e) s.
Proof.
  intros Hi Hu Ht Hrd. pose proof (un_table _ Hu _ _ Ht) as Hl. pose proof (rd_range _ _ _ Hrd) as Hr.
  unfold close_cloexec_entry. vsteps. eapply wp_lock_table; [done..|]. vsteps.
  eapply wp_get_entry; [apply lookup_insert_eq|exact Hrd|]. unfold strip, doomed.
  apply rd_lookup in Hrd as [_ Hlk]. destruct (negb (file e =? NULL) && close_on_exec e) eqn:Hc.
  - apply andb_true_iff in Hc as [Hn%negb_true_iff%Z.eqb_neq Hcl].
    vsteps. eapply wp_put_entry; [apply lookup_insert_eq|done|]. vsteps. cbn.
    rewrite !insert_insert_eq, relock_entries by done.
    destruct (fi_entry _ _ _ _ _ _ Hi Ht Hlk Hn) as [r Hf].
    eapply wp_mono; [by apply (wp_release_entry held s t _ _ e no_entry r)|].
    intros _ s' (Hinv & Hu' & Hts' & _ & _). vsteps.
    split_and!; try done. eapply fd_inv_ext; [apply spent_none|done].
  - vsteps. cbn. rewrite insert_insert_eq, relock, insert_id, restore_tables by done.
    split_and!; try done; [|lia]. unfold set_fd. rewrite list_insert_id by done.
    rewrite insert_id; [done|]. rewrite Ht. f_equal. by destruct tb.
Qed.

(** A loop that rewrites the entries of a table one by one. *)
Definition table_upto (tb : ns_vfs_fdtable) (f : fd_entry -> fd_entry) (i : Z) : ns_vfs_fdtable :=
  tb <| entries := upto f (Z.to_nat i) (entries tb) |>.

Lemma table_upto_0 tb (h : fd_entry -> fd_entry) : table_upto tb h 0 = tb.
Proof. by destruct tb. Qed.

Lemma table_upto_step tb (h : fd_entry -> fd_entry) i e :
  rd (entries tb) i = Some e ->
  rd (entries (table_upto tb h i)) i = Some e /\
  set_fd (table_upto tb h i) i (h e) = table_upto tb h (i + 1).
Proof.
  intros [Hi He]%rd_lookup. split.
  - apply rd_lookup. split; [done|]. by apply upto_lookup.
  - unfold set_fd, table_upto. replace (Z.to_nat (i + 1)) with (S (Z.to_nat i)) by lia.
    rewrite <- (upto_step h _ _ e) by done. by destruct tb.
Qed.

Lemma table_upto_end tb (h : fd_entry -> fd_entry) n :
  Z.of_nat (length (entries tb)) <= n -> table_upto tb h n = tb <| entries := h <$> entries tb |>.
Proof. intros Hn. unfold table_upto. by rewrite upto_all by lia. Qed.

Lemma wp_close_cloexec held s t tb :
  fd_inv held s -> unlocked s -> tables s !! t = Some tb ->
  wp (ns_vfs_fdtable_close_cloexec t) (fun x s' => fd_inv held s' /\ unlocked s' /\
    tables s' = <[t := tb <| entries := strip <$> entries tb |>]> (tables s) /\
    x = total doomed (entries tb)) s.
Proof.
  intros Hi Hu Ht. destruct (fi_table _ _ Hi t tb Ht) as [Hlen Hmax _ _].
  unfold ns_vfs_fdtable_close_cloexec. rewrite (table_nonnull held s t tb) by done. vsteps.
  eapply wp_mono.
  - apply (wp_for_m (fun i x s' => fd_inv held s' /\ unlocked s' /\
      tables s' = <[t := table_upto tb strip i]> (tables s) /\
      x = total doomed (take (Z.to_nat i) (entries tb)))).
    + intros i x s1 Hr (Hi1 & Hu1 & Hts & ->).
      destruct (rd_Some (entries tb) i ltac:(lia)) as [e He].
      destruct (table_upto_step tb strip i e He) as [He' Hnext].
      assert (Ht1 : tables s1 !! t = Some (table_upto tb strip i)) by (rewrite Hts; apply lookup_insert_eq).
      eapply wp_mono; [by apply (wp_strip_entry held s1 t (table_upto tb strip i) i e)|].
      intros x s' (Hi' & Hu' & Hts' & ->). rewrite Hts', Hts, insert_insert_eq, Hnext. split_and!; try done.
      apply rd_lookup in He as [_ He]. replace (Z.to_nat (i + 1)) with (S (Z.to_nat i)) by lia.
      by rewrite (take_S_r _ _ e), total_snoc by done.
    + rewrite table_upto_0, insert_id by done. by split_and!.
  - cbn. intros x s' (Hi' & Hu' & Hts & ->). rewrite table_upto_end in Hts by lia.
    rewrite take_ge by lia. by split_and!.
Qed.

(** *** Creating and cloning tables *)

Lemma wp_allocate objs s v sz al :
  fw_inv objs (world s) -> vfs_ok s v ->
  wp (ns_vfs_memory_allocate v sz al) (fun p s' => exists w, s' = s <| world := w |> /\
    fw_inv objs w /\ if p =? NULL then fw_owns w = fw_owns (world s)
      else (p ∉ fw_owns (world s)) /\ fw_owns w = {[p]} ∪ fw_owns (world s)) s.
Proof.
  intros Hi (Hv & x & Hx & _ & Ha). unfold ns_vfs_memory_allocate.
  rewrite (proj2 (Z.eqb_neq _ _) Hv). apply wp_bind. eapply wp_load; [exact Hx|].
  destruct (vfs_allocate (allocator x)) as [g|] eqn:Hg.
  - apply wp_zoom. eapply wp_mono; [by apply (fw_allocate _ _ _ _ _ _ Ha Hg Hi)|].
    intros p w [Hw Ho]. exists w. auto.
  - apply wp_ret. exists (world s). split_and!; [by destruct s|done|done].
Qed.

Definition new_table (v n a : Z) : ns_vfs_fdtable :=
  mk_fdtable v false n a (replicate (Z.to_nat n) no_entry) (47 :: replicate (Z.to_nat NS_PATH_MAX - 1) 0).

Lemma fresh_table s p : mem_ok s -> p ∉ fw_owns (world s) -> files s !! p = None /\ tables s !! p = None.
Proof.
  intros [] Hp. split; apply eq_None_not_Some; intros H; apply Hp; [by apply mo_files0|by apply mo_tables0].
Qed.

Lemma inv_new_table held s v n p a w :
  fd_inv held s -> vfs_ok s v -> 0 < n <= 65536 -> p <> NULL ->
  p ∉ fw_owns (world s) -> a ∉ {[p]} ∪ fw_owns (world s) ->
  fw_inv (object <$> files s) w -> fw_owns w = {[a]} ∪ ({[p]} ∪ fw_owns (world s)) ->
  fd_inv held (s <| world := w |> <| tables := <[p := new_table v n a]> (tables s) |>).
Proof.
  intros Hi Hv Hn Hpn Hp Ha Hw Ho. destruct (fresh_table s p (fi_mem _ _ Hi) Hp) as [Hpf Hpt].
  assert (Ha' : a ∉ fw_owns (world s)) by set_solver. assert (Hap : a <> p) by set_solver.
  destruct (fresh_table s a (fi_mem _ _ Hi) Ha') as [Haf Hat].
  assert (Hsub : fw_owns (world s) ⊆ fw_owns w) by set_solver.
  destruct (inv_world held s w Hi Hw Hsub) as [? Hrefs Hfile Hheld Htab [Hm1 Hm2 Hm3 Hm4]]. cbn in *.
  constructor; cbn; try done.
  - intros f r Hf. destruct (Hrefs f r Hf) as [Hc Hr]. split; [|done].
    rewrite owned_in_insert_new by done. cbn. rewrite count_in_empty; [lia|].
    intros ->. destruct (fi_null _ _ Hi). congruence.
  - intros t tb. intros [[<- <-]|[_ Ht]]%lookup_insert_Some; [|by destruct (Htab t tb Ht)].
    constructor; cbn; try done; [rewrite length_replicate; lia|].
    intros e He. apply elem_of_replicate in He as [-> _]. done.
  - constructor; cbn.
    + intros f Hf. destruct (Hm1 f Hf). split; [done|]. rewrite lookup_insert_ne; [done|].
      intros ->. rewrite Hpf in Hf. by destruct Hf.
    + intros t. rewrite lookup_insert_is_Some. intros [<-|[_ Ht]]; [set_solver|auto].
    + intros t tb. intros [[<- <-]|[Hne Ht]]%lookup_insert_Some; cbn.
      * split_and!; [set_solver|done|by rewrite lookup_insert_ne].
      * destruct (Hm3 t tb Ht) as (Hin & ? & Hnt). split_and!; try done.
        rewrite lookup_insert_ne; [done|]. intros E. apply Hp. rewrite E.
        by destruct (mo_arrays _ (fi_mem _ _ Hi) t tb Ht) as (Hold & _).
    + assert (Hfar : forall u x, tables s !! u = Some x -> entries_at x <> a).
      { intros u x Hu E. apply Ha'. rewrite <- E. by destruct (mo_arrays _ (fi_mem _ _ Hi) u x Hu) as (Hold & _). }
      intros t t' tb tb' [[<- <-]|[_ Ht]]%lookup_insert_Some [[<- <-]|[_ Ht']]%lookup_insert_Some; cbn; eauto.
      * intros E. by destruct (Hfar _ _ Ht').
      * intros E. by destruct (Hfar _ _ Ht).
Qed.

Lemma wp_fdtable_create held s v n :
  fd_inv held s -> unlocked s -> vfs_ok s v -> 0 <= n ->
  wp (ns_vfs_fdtable_create v n) (fun '(x, t) s' => fd_inv held s' /\ unlocked s' /\
    files s' = files s /\ vfss s' = vfss s /\
    ((x < 0 /\ tables s' = tables s) \/
     (x = 0 /\ 0 < n <= 65536 /\ tables s !! t = None /\ exists a, tables s' = <[t := new_table v n a]> (tables s)))) s.
Proof.
  intros Hi Hu Hv Hn. unfold ns_vfs_fdtable_create.
  rewrite (proj2 (Z.eqb_neq _ _) (proj1 Hv)). cbn [orb].
  destruct (Z.eqb_spec n 0); cbn [orb]. { vsteps. split_and!; try done. by left. }
  destruct (Z.ltb_spec 65536 n); cbn [orb]. { vsteps. split_and!; try done. by left. }
  rewrite (proj2 (Z.ltb_ge (SIZE_MAX / sizeof_fd_entry) n)).
  2:{ change (SIZE_MAX / sizeof_fd_entry) with (2 ^ 60 - 1). lia. }
  vsteps. eapply wp_mono; [by apply (wp_allocate (object <$> files s)); [apply Hi|]|].
  intros p s1 (w1 & -> & Hw1 & Ho1).
  destruct (Z.eqb_spec p NULL) as [->|Hp].
  { vsteps. split_and!; try done; [apply inv_world; [done..|by rewrite Ho1]|by destruct Hu|by left]. }
  destruct Ho1 as [Hfr Ho1]. vsteps.
  eapply wp_mono; [by apply (wp_allocate (object <$> files s))|].
  intros a s2 (w2 & -> & Hw2 & Ho2). cbn in Ho2. rewrite Ho1 in Ho2.
  destruct (Z.eqb_spec a NULL) as [->|Ha].
  - vsteps. eapply wp_mono; [apply (wp_deallocate (object <$> files s)); [done..|]|].
    + cbn. rewrite Ho2. set_solver.
    + intros _ s3 (w3 & -> & Hw3 & Ho3). cbn in Ho3. vsteps. cbn. split_and!; try done.
      * apply (inv_world held s w3 Hi Hw3). destruct Ho3 as [->| ->]; rewrite Ho2; set_solver.
      * by destruct Hu.
      * by left.
  - destruct Ho2 as [Hfa Ho2]. vsteps. apply wp_modify. vsteps. cbn. split_and!; try done.
    + apply (inv_new_table held s v n p a w2); try done; lia.
    + destruct Hu. constructor; cbn; [|done]. intros t tb [[<- <-]|[_ Ht]]%lookup_insert_Some; [done|eauto].
    + right. split_and!; try done; try lia; [|by exists a]. by apply (fresh_table s p (fi_mem _ _ Hi)).
Qed.

(** What a cloned table inherits. *)
Definition pick (skip : bool) (e : fd_entry) : fd_entry :=
  if negb (file e =? NULL) && negb (skip && close_on_exec e) then e else no_entry.
(** The clone's entries after the first [i] have been copied. *)
Definition picked skip (es : list fd_entry) (i : nat) : list fd_entry :=
  (pick skip <$> take i es) ++ replicate (length es - i) no_entry.

Lemma picked_length skip es i : length (picked skip es i) = length es.
Proof. unfold picked. rewrite length_app, length_fmap, length_take, length_replicate. lia. Qed.

Lemma picked_step skip es i e :
  es !! i = Some e ->
  picked skip es i !! i = Some no_entry /\ <[i := pick skip e]> (picked skip es i) = picked skip es (S i).
Proof.
  intros He. pose proof (lookup_lt_Some _ _ _ He) as Hl. unfold picked.
  assert (Hlen : length (pick skip <$> take i es) = i) by (rewrite length_fmap, length_take; lia).
  replace (length es - i)%nat with (S (length es - S i)) by lia. cbn [replicate]. split.
  - by rewrite lookup_app_r, Hlen, Nat.sub_diag by lia.
  - rewrite insert_app_r_alt, Hlen, Nat.sub_diag by lia.
    by rewrite (take_S_r _ _ e), fmap_app, <- app_assoc by done.
Qed.

Lemma picked_end skip es : picked skip es (length es) = pick skip <$> es.
Proof. unfold picked. by rewrite Nat.sub_diag, take_ge, app_nil_r by lia. Qed.

(** The tables while [source] is being copied to [copy]. *)
Lemma wp_clone_entry held s source src copy tb skip i e n :
  fd_inv held s -> room n s -> 1 <= n -> copy <> source ->
  tables s !! source = Some src -> rd (entries src) i = Some e ->
  tables s !! copy = Some tb -> entries tb !! Z.to_nat i = Some no_entry ->
  wp (clone_entry source copy skip i tt) (fun _ s' => fd_inv held s' /\ room (n - 1) s' /\
    tables s' = <[copy := set_fd tb i (pick skip e)]> (tables s) /\
    (forall f, file_lock <$> files s' !! f = file_lock <$> files s !! f)) s.
Proof.
  intros Hi Hw Hn Hne Hs He Hc Hno. pose proof (lookup_lt_Some _ _ _ Hno). apply rd_lookup in He as Hlk.
  destruct Hlk as [Hi0 Hlk]. destruct (fi_table _ _ Hi copy tb Hc) as [Hlen _ _ _].
  unfold clone_entry. vsteps. eapply wp_get_entry; [done..|]. unfold pick.
  destruct (negb (file e =? NULL) && negb (skip && close_on_exec e)) eqn:Hcond.
  - apply andb_true_iff in Hcond as [Hfn%negb_true_iff%Z.eqb_neq _].
    destruct (fi_entry _ _ _ _ _ _ Hi Hs Hlk Hfn) as [r Hf].
    assert (Hd : descriptor tb i = None).
    { unfold descriptor, rd. by rewrite (proj2 (Z.leb_le _ _) Hi0), Hno. }
    vsteps. eapply wp_put_entry; [done|lia|]. vsteps.
    eapply wp_get_entry; [apply lookup_insert_eq|apply rd_insert_eq; lia|].
    eapply (wp_retain _ _ r); try done.
    { intros f x Hx. specialize (Hw f x Hx). lia. }
    { exact (proj1 (proj2 (fi_refs _ _ Hi _ _ Hf))). }
    assert (E : retained (s <| tables := <[copy := set_fd tb i e]> (tables s) |>) (file e) r =
      installed s copy tb (file e) r i (close_on_exec e)) by (destruct e, s; done).
    unfold set_fd in E. rewrite E. split_and!.
    + apply inv_installed; try done; [|lia]. intros f x Hx. specialize (Hw f x Hx). lia.
    + intros f x. cbn. intros [[<- <-]|[_ Hx]]%lookup_insert_Some; cbn.
      * specialize (Hw _ r Hf). lia.
      * specialize (Hw _ x Hx). lia.
    + cbn. by destruct e.
    + intros f. cbn. destruct (decide (f = file e)) as [->|Hfe].
      * by rewrite lookup_insert_eq, Hf.
      * by rewrite lookup_insert_ne.
  - vsteps. split_and!; try done.
    + intros f x Hx. specialize (Hw f x Hx). lia.
    + unfold set_fd. rewrite list_insert_id by done. rewrite insert_id; [done|]. rewrite Hc. f_equal. by destruct tb.
Qed.

(** The clone that [ns_vfs_fdtable_clone] builds from [src] at array [a]. *)
Definition clone_of (src : ns_vfs_fdtable) skip a : ns_vfs_fdtable :=
  (new_table (table_vfs src) (maximum src) a)
    <| cwd := c_string (cwd src) ++ drop (length (c_string (cwd src))) (47 :: replicate (Z.to_nat NS_PATH_MAX - 1) 0) |>
    <| entries := pick skip <$> entries src |>.

Lemma wp_clone_loop held s source src copy tb skip n :
  n = maximum src -> fd_inv held s -> room 65536 s -> copy <> source ->
  tables s !! source = Some src -> tables s !! copy = Some tb ->
  entries tb = replicate (Z.to_nat (maximum src)) no_entry ->
  wp (for_m (Z.to_nat n) (clone_entry source copy skip) 0 tt) (fun _ s' => fd_inv held s' /\
    tables s' = <[copy := tb <| entries := pick skip <$> entries src |>]> (tables s) /\
    (forall f, file_lock <$> files s' !! f = file_lock <$> files s !! f)) s.
Proof.
  intros -> Hi Hw Hne Hs Hc Hes. destruct (fi_table _ _ Hi source src Hs) as [Hlen Hmax _ _].
  eapply wp_mono.
  - apply (wp_for_m (fun i _ s' => fd_inv held s' /\ room (65536 - i) s' /\
      tables s' = <[copy := tb <| entries := picked skip (entries src) (Z.to_nat i) |>]> (tables s) /\
      (forall f, file_lock <$> files s' !! f = file_lock <$> files s !! f))).
    + intros i [] s1 Hr (Hi1 & Hw1 & Hts & Hfl).
      destruct (rd_Some (entries src) i ltac:(lia)) as [e He]. apply rd_lookup in He as Hlk.
      destruct (picked_step skip _ _ _ (proj2 Hlk)) as [Hno Hnext].
      eapply wp_mono; [apply (wp_clone_entry held s1 source src copy
        (tb <| entries := picked skip (entries src) (Z.to_nat i) |>) skip i e (65536 - i)); try done; try lia|].
      * by rewrite Hts, lookup_insert_ne.
      * by rewrite Hts, lookup_insert_eq.
      * intros _ s' (Hi' & Hw' & Hts' & Hfl'). split_and!; try done.
        -- intros f x Hx. specialize (Hw' f x Hx). lia.
        -- rewrite Hts', Hts, insert_insert_eq. f_equal. unfold set_fd. cbn.
           replace (Z.to_nat (i + 1)) with (S (Z.to_nat i)) by lia. by rewrite <- Hnext.
        -- intros f. by rewrite Hfl'.
    + split_and!; try done. rewrite insert_id; [done|]. rewrite Hc. f_equal.
      unfold picked. cbn. rewrite Nat.sub_0_r. replace (length (entries src)) with (Z.to_nat (maximum src)) by lia.
      rewrite <- Hes. by destruct tb.
  - cbn. intros _ s' (Hi' & _ & Hts & Hfl). split_and!; try done. rewrite Hts.
    rewrite <- picked_end. do 4 f_equal. lia.
Qed.

Lemma wp_clone held s source src skip :
  fd_inv held s -> unlocked s -> room 65536 s -> tables s !! source = Some src ->
  wp (ns_vfs_fdtable_clone source skip) (fun '(x, copy) s' => fd_inv held s' /\ unlocked s' /\
    ((x < 0 /\ tables s' = tables s /\ files s' = files s) \/
     (x = 0 /\ tables s !! copy = None /\
      exists a, tables s' = <[copy := clone_of src skip a]> (tables s)))) s.
Proof.
  intros Hi Hu Hw Hs. destruct (fi_table _ _ Hi source src Hs) as [Hlen Hmax Hv _].
  unfold ns_vfs_fdtable_clone. rewrite (table_nonnull held s source src) by done. vsteps.
  eapply wp_mono; [by apply (wp_fdtable_create held s (table_vfs src) (maximum src)); try done; lia|].
  intros [x copy] s1 (Hi1 & Hu1 & Hfs & Hvs & [[Hx Hts]|(-> & Hn & Hfr & a & Hts)]).
  { rewrite (proj2 (Z.ltb_lt x 0) Hx). vsteps. split_and!; try done. left. by split_and!. }
  cbn [Z.ltb Z.compare]. assert (Hne : copy <> source) by congruence.
  assert (Hs1 : tables s1 !! source = Some src) by (by rewrite Hts, lookup_insert_ne).
  assert (Hc1 : tables s1 !! copy = Some (new_table (table_vfs src) (maximum src) a)) by (by rewrite Hts, lookup_insert_eq).
  pose proof (un_table _ Hu _ _ Hs) as Hl. pose proof (inv_table_lock held s1 source src true Hi1 Hs1) as Hi2.
  vsteps. eapply wp_lock_table; [done..|]. vsteps.
  eapply wp_load; [cbn; by rewrite lookup_insert_ne|]. vsteps.
  eapply wp_store; [cbn; by rewrite lookup_insert_ne|]. vsteps.
  match goal with |- wp _ _ (_ <| tables := <[_ := ?c]> _ |>) => set (c1 := c) end.
  match goal with |- wp _ _ ?x => set (s3 := x) end.
  assert (Hi3 : fd_inv held s3).
  { apply (inv_table held _ _ copy (new_table (table_vfs src) (maximum src) a)); try done.
    - cbn. by rewrite lookup_insert_ne.
    - intros f _. destruct (fi_held _ _ Hi1 f). cbn. lia.
    - cbn. intros e He. apply elem_of_replicate in He as [-> _]. done. }
  eapply wp_mono; [apply (wp_clone_loop held s3 source (src <| table_lock := true |>) copy c1 skip (maximum src)); try done|].
  - intros f x. cbn. rewrite Hfs. apply Hw.
  - cbn. by rewrite lookup_insert_ne, lookup_insert_eq.
  - cbn. by rewrite lookup_insert_eq.
  - intros _ s4 (Hi4 & Hts4 & Hfl). assert (Hs4 : tables s4 !! source = Some (src <| table_lock := true |>)).
    { rewrite Hts4. cbn. rewrite lookup_insert_ne, lookup_insert_ne, lookup_insert_eq by done. done. }
    vsteps.
    assert (E : <[source := src <| table_lock := true |> <| table_lock := false |>]> (tables s4) =
      <[copy := clone_of src skip a]> (tables s)).
    { rewrite relock, Hts4 by done. cbn. rewrite (insert_insert_ne _ source copy), Hts by done.
      rewrite (insert_insert_ne _ source copy), !insert_insert_eq, (insert_insert_ne _ source copy) by done.
      rewrite insert_insert_eq. rewrite (insert_id _ source src) by done. done. }
    split_and!.
    + by apply inv_table_lock.
    + destruct Hu1. rewrite E. constructor; cbn.
      * intros u x [[<- <-]|[_ Hx]]%lookup_insert_Some; [done|]. by apply (un_table _ Hu u).
      * intros f r Hf. specialize (Hfl f). rewrite Hf in Hfl. cbn in Hfl.
        destruct (files s1 !! f) as [r0|] eqn:Hf0; [|done]. cbn in Hfl. injection Hfl as ->. eauto.
    + right. split_and!; try done. exists a. exact E.
Qed.

(** *** Destroying tables *)

(** Code that neither reads nor writes descriptor tables. *)
Definition table_free {A} (m : M (vstate W) A) : Prop :=
  forall s ts, m (s <| tables := ts |>) =
    match m s with Some (x, s') => Some (x, s' <| tables := ts |>) | None => None end.

Lemma tf_bind {A B} (m : M (vstate W) A) (k : A -> M (vstate W) B) :
  table_free m -> (forall x, table_free (k x)) -> table_free (m ≫= k).
Proof.
  intros Hm Hk s ts. unfold mbind, M_bind. rewrite Hm. destruct (m s) as [[x s']|]; cbn; [|done]. apply Hk.
Qed.

Lemma tf_zoom {A} (m : M W A) : table_free (zoom world m).
Proof. intros s ts. unfold zoom. cbn. by destruct (m (world s)) as [[]|]. Qed.

Lemma tf_deallocate v p sz al : table_free (ns_vfs_memory_deallocate v p sz al).
Proof.
  unfold ns_vfs_memory_deallocate. destruct (_ || _); [done|]. apply tf_bind.
  - intros s ts. unfold load. cbn. by destruct (vfss s !! v).
  - intros a. destruct (vfs_deallocate a); [apply tf_zoom|done].
Qed.

Lemma tf_load_file {A} p (h : ns_vfs_file W -> A) : table_free (load files p h).
Proof. intros s ts. unfold load. cbn. by destruct (files s !! p). Qed.

Lemma tf_release f : table_free (ns_vfs_file_release f).
Proof.
  unfold ns_vfs_file_release. destruct (f =? NULL); [done|]. apply tf_bind; [apply tf_load_file|intros r].
  apply tf_bind; [intros s ts; unfold store; cbn; by destruct (files s !! f)|intros _].
  destruct (negb _); [done|]. apply tf_bind; [apply tf_load_file|intros o].
  apply tf_bind; [apply tf_zoom|intros _]. apply tf_bind; [apply tf_load_file|intros v].
  apply tf_bind; [done|intros _]. apply tf_deallocate.
Qed.

Lemma wp_table_free {A} (m : M (vstate W) A) Q s ts :
  table_free m -> wp m Q (s <| tables := ts |>) ->
  wp m (fun x s' => tables s' = tables s /\ Q x (s' <| tables := ts |>)) s.
Proof.
  intros Hm (x & s2 & Hrun & HQ). rewrite Hm in Hrun. destruct (m s) as [[y s1]|] eqn:Hs; [|done].
  injection Hrun as <- <-. exists y, s1. split_and!; try done.
  pose proof (Hm s (tables s)) as Hsame. rewrite Hs in Hsame.
  replace (s <| tables := tables s |>) with s in Hsame by (by destruct s). rewrite Hs in Hsame.
  injection Hsame as E. rewrite E. done.
Qed.

Lemma inv_drop_table held s t tb w :
  fd_inv held s -> tables s !! t = Some tb -> (forall f, f <> NULL -> count_in (entries tb) f = 0) ->
  fw_inv (object <$> files s) w ->
  (forall p, p <> entries_at tb -> p <> t -> p ∈ fw_owns (world s) -> p ∈ fw_owns w) ->
  fd_inv held (s <| tables := delete t (tables s) |> <| world := w |>).
Proof.
  intros Hi Ht Hz Hw Ho. destruct (fi_null _ _ Hi) as [Hn _].
  destruct (mo_arrays _ (fi_mem _ _ Hi) t tb Ht) as (_ & Haf & Hat).
  constructor; cbn; try by apply Hi.
  - done.
  - intros f r Hf. destruct (fi_refs _ _ Hi f r Hf). split; [|done].
    rewrite (owned_in_delete _ _ tb), Hz by (done || congruence). lia.
  - intros u x [_ Hu]%lookup_delete_Some. by destruct (fi_table _ _ Hi u x Hu).
  - destruct (fi_mem _ _ Hi). constructor; cbn.
    + intros f Hf. destruct (mo_files0 f Hf) as [Hin Hnt]. split.
      * apply Ho; [|congruence|done]. intros ->. rewrite Haf in Hf. by destruct Hf.
      * by rewrite lookup_delete_None; right.
    + intros u [Hne Hu]%lookup_delete_is_Some. apply Ho; [|done|auto].
      intros ->. rewrite Hat in Hu. by destruct Hu.
    + intros u x [Hne Hu]%lookup_delete_Some. destruct (mo_arrays0 u x Hu) as (Hin & Hnf & Hnt).
      split_and!; [|done|by rewrite lookup_delete_None; right].
      apply Ho; [|congruence|done]. intros E. apply Hne. by eapply mo_distinct0.
    + intros u u' x x' [_ Hu]%lookup_delete_Some [_ Hu']%lookup_delete_Some. eauto.
Qed.

Definition cleared (_ : fd_entry) : fd_entry := no_entry.

(** The tables as the reference counts see them after [i] entries are released. *)
Definition ghost s t tb i : vstate W := s <| tables := <[t := table_upto tb cleared i]> (tables s) |>.

Lemma wp_destroy_entry held s t tb i :
  fd_inv held (ghost s t tb i) -> unlocked s -> tables s !! t = Some tb -> 0 <= i < Z.of_nat (length (entries tb)) ->
  wp (destroy_entry t i tt) (fun _ s' => tables s' = tables s /\ unlocked s' /\
    fd_inv held (ghost s' t tb (i + 1))) s.
Proof.
  intros Hi Hu Ht Hr. destruct (rd_Some (entries tb) i Hr) as [e He].
  destruct (table_upto_step tb cleared i e He) as [He' Hnext].
  assert (Htg : tables (ghost s t tb i) !! t = Some (table_upto tb cleared i)) by apply lookup_insert_eq.
  assert (Hug : unlocked (ghost s t tb i)) by (by eapply unlocked_tables).
  apply rd_lookup in He' as [_ Hlk].
  assert (Hstep : <[t := set_fd (table_upto tb cleared i) i no_entry]> (tables (ghost s t tb i)) =
    <[t := table_upto tb cleared (i + 1)]> (tables s)).
  { rewrite <- Hnext. apply insert_insert_eq. }
  unfold destroy_entry. vsteps. eapply wp_get_entry; [done..|].
  destruct (Z.eqb_spec (file e) NULL) as [En|En]; cbn [negb].
  - vsteps. split_and!; try done.
    pose proof (inv_entry held (ghost s t tb i) t _ (Z.to_nat i) e no_entry Hi Htg Hlk ltac:(done)) as Hi'.
    fold (set_fd (table_upto tb cleared i) i no_entry) in Hi'. rewrite Hstep in Hi'.
    eapply fd_inv_ext; [|exact Hi'].
    intros f. unfold swap, one. rewrite En. cbn [file no_entry]. destruct (f =? NULL), (NULL =? f); lia.
  - destruct (fi_entry _ _ _ _ _ _ Hi Htg Hlk En) as [r Hf].
    pose proof (wp_release_entry held _ t _ _ e no_entry r Hi Hug Htg Hlk En ltac:(done) Hf) as Hrel.
    cbn zeta in Hrel. fold (set_fd (table_upto tb cleared i) i no_entry) in Hrel. rewrite Hstep in Hrel.
    eapply wp_mono; [eapply (wp_table_free _ _ s); [apply tf_release|exact Hrel]|].
    intros _ s' (Hts & Hi' & Hu' & _ & _ & _). split_and!; try done.
    + destruct Hu, Hu'. constructor; [by rewrite Hts|done].
    + unfold ghost. rewrite Hts. eapply fd_inv_ext; [|exact Hi']. apply spent_none.
Qed.

Lemma wp_destroy held s t tb :
  fd_inv held s -> unlocked s -> tables s !! t = Some tb ->
  wp (ns_vfs_fdtable_destroy t) (fun _ s' => fd_inv held s' /\ unlocked s' /\
    tables s' = delete t (tables s)) s.
Proof.
  intros Hi Hu Ht. destruct (fi_table _ _ Hi t tb Ht) as [Hlen Hmax Hv _].
  unfold ns_vfs_fdtable_destroy. rewrite (table_nonnull held s t tb) by done. vsteps.
  eapply wp_mono.
  { apply (wp_for_m (fun i _ s' => tables s' = tables s /\ unlocked s' /\ fd_inv held (ghost s' t tb i))).
    - intros i [] s1 Hr (Hts & Hu1 & Hi1).
      eapply wp_mono; [apply (wp_destroy_entry held s1 t tb i); try done; [by rewrite Hts|lia]|].
      intros _ s' (Hts' & Hu' & Hi'). split_and!; try done. by rewrite Hts'.
    - split_and!; try done. unfold ghost. rewrite table_upto_0, insert_id by done. by destruct s. }
  cbn. intros _ s1 (Hts & Hu1 & Hi1). rewrite <- Hts in Ht. vsteps. apply wp_modify. vsteps.
  set (g := ghost s1 t tb _) in Hi1.
  assert (Htg : tables g !! t = Some (table_upto tb cleared (maximum tb))).
  { unfold g, ghost. cbn. rewrite lookup_insert_eq. do 2 f_equal. lia. }
  destruct (fi_table _ _ Hi1 t _ Htg) as [_ _ Hvg _]. change (table_vfs (table_upto tb cleared (maximum tb))) with (table_vfs tb) in Hvg.
  destruct (mo_arrays _ (fi_mem _ _ Hi1) t _ Htg) as (Hao & _ & Hat). cbn [entries_at table_upto set_field set_entries] in Hao, Hat.
  pose proof (mo_tables _ (fi_mem _ _ Hi1) t ltac:(by eexists)) as Hto.
  eapply wp_mono; [apply (wp_deallocate (object <$> files s1)); [apply Hi1|done|done]|].
  intros _ s2 (w2 & -> & Hw2 & Ho2). eapply wp_mono; [apply (wp_deallocate (object <$> files s1)); [done|done|]|].
  { change (t ∈ fw_owns w2). destruct Ho2 as [->| ->]; [done|]. apply elem_of_difference. split; [done|].
    intros E%elem_of_singleton. rewrite <- E in Hat. congruence. }
  intros _ s3 (w3 & -> & Hw3 & Ho3). cbn in Ho2, Ho3.
  split_and!; [|destruct Hu1; constructor; cbn; [|done]|cbn; by rewrite Hts].
  - pose proof (inv_drop_table held g t _ w3 Hi1 Htg) as Hd. cbn in Hd. rewrite delete_insert_eq in Hd. apply Hd.
    + intros f Hf. rewrite upto_all by lia. apply count_in_none. intros e He.
      apply list_elem_of_fmap in He as (y & -> & _). cbn. congruence.
    + done.
    + intros p Hpa Hpt Hp.
      destruct Ho2 as [E2|E2], Ho3 as [E3|E3]; rewrite E3, ?elem_of_difference, E2, ?elem_of_difference, ?elem_of_singleton; auto.
  - intros u x [_ Hx]%lookup_delete_Some. by eapply un_table0.
Qed.

(** *** Transfers through a descriptor *)

(** The file [f] while a call works on it: referenced once more, locked, at
    offset [off]. *)
Definition working (r : ns_vfs_file W) (off : Z) : ns_vfs_file W :=
  r <| references := references r + 1 |> <| file_lock := true |> <| offset := off |>.
Definition busy s f r (w : W) (off : Z) : vstate W :=
  s <| files := <[f := working r off]> (files s) |> <| world := w |>.

(** [w] is a world the open files of [s] can live in. *)
Definition fits s (w : W) : Prop :=
  fw_inv (object <$> files s) w /\ fw_owns w = fw_owns (world s).

Lemma wp_enter s f r Q :
  unlocked s -> files s !! f = Some r -> Q tt (busy s f r (world s) (offset r)) ->
  wp (lock_acquire files f file_lock) Q (retained s f r).
Proof.
  intros Hu Hf HQ. pose proof (un_file _ Hu f r Hf) as Hl. unfold lock_acquire. vsteps.
  cbn [file_lock set_field set_references]. rewrite Hl. vsteps. cbn.
  replace (set_files _ _) with (busy s f r (world s) (offset r)); [done|].
  unfold busy, working. destruct s, r; cbn. by rewrite insert_insert_eq.
Qed.

Lemma wp_leave {A} held s f r w off (x : A) Q :
  fd_inv held s -> unlocked s -> room 1 s -> files s !! f = Some r -> fits s w ->
  (forall s', fd_inv held s' -> unlocked s' -> tables s' = tables s ->
     files s' = <[f := r <| offset := off |>]> (files s) -> Q x s') ->
  wp (lock_release files f file_lock;; ns_vfs_file_release f;; mret x) Q (busy s f r w off).
Proof.
  intros Hi Hu Hw Hf [Hfw Ho] HQ. destruct (fi_refs _ _ Hi f r Hf) as [_ Hr].
  pose proof (un_file _ Hu f r Hf) as Hl. specialize (Hw f r Hf). destruct (fi_held _ _ Hi f) as [Hh _].
  vsteps. set (r1 := r <| references := references r + 1 |> <| offset := off |>).
  replace ((busy s f r w off) <| files := _ |>) with (s <| world := w |> <| files := <[f := r1]> (files (s <| world := w |>)) |>).
  2:{ unfold busy, working, r1. destruct s, r; cbn in *. rewrite insert_insert_eq. by subst. }
  eapply wp_mono; [apply (wp_unretain held _ f r1)|].
  - eapply fd_inv_ext; [|apply (inv_file held (s <| world := w |>) f r r1); try done; cbn; try lia].
    + intros g. unfold give. cbn. destruct (g =? f); lia.
    + apply inv_world; [done..|by rewrite Ho].
  - done.
  - destruct Hu. constructor; cbn; [done|]. intros g x' [[<- <-]|[_ Hx]]%lookup_insert_Some; eauto.
  - apply lookup_insert_eq.
  - cbn. lia.
  - intros _ s' (Hi' & Hu' & Hts & _ & Hfs). vsteps. apply HQ; try done. rewrite Hfs. cbn.
    rewrite insert_insert_eq. f_equal. destruct r; unfold r1, set_field, set_references, set_offset; cbn. f_equal. lia.
Qed.

Lemma wp_callback {A} s f r w off (m : M W A) Q :
  files s !! f = Some r -> fits s w -> callback (object r) A m ->
  (forall x w', fits s w' -> Q x (busy s f r w' off)) -> wp (zoom world m) Q (busy s f r w off).
Proof.
  intros Hf [Hw Ho] Hc HQ. apply wp_zoom. eapply wp_mono; [apply (fw_call (object <$> files s) f (object r)); try done|].
  - by rewrite lookup_fmap, Hf.
  - intros x w' [Hw' Ho']. apply (HQ x w'). split; [done|]. by rewrite Ho'.
Qed.

Lemma busy_load {A} s f r w off (h : ns_vfs_file W -> A) Q :
  Q (h (working r off)) (busy s f r w off) -> wp (load files f h) Q (busy s f r w off).
Proof. intros HQ. eapply wp_load; [apply lookup_insert_eq|done]. Qed.

Lemma busy_store s f r w off off' Q :
  Q tt (busy s f r w off') -> wp (store files f offset off') Q (busy s f r w off).
Proof.
  intros HQ. eapply wp_store; [apply lookup_insert_eq|].
  replace ((busy s f r w off) <| files := _ |>) with (busy s f r w off'); [done|].
  unfold busy. destruct s, r; cbn. by rewrite insert_insert_eq.
Qed.

(** Leaving the namespace lock. *)
Lemma busy_unlock_vfs s f r w off p v Q :
  vfss s !! p = Some v -> vfs_lock v = false -> Q tt (busy s f r w off) ->
  wp (lock_release vfss p vfs_lock) Q
    (busy (s <| vfss := <[p := v <| vfs_lock := true |>]> (vfss s) |>) f r w off).
Proof.
  intros Hv Hl HQ. vsteps. match goal with |- Q tt ?x => replace x with (busy s f r w off) end; [done|].
  unfold busy, set_field, set_world, set_files, set_vfss; cbn. f_equal.
  rewrite insert_insert_eq, insert_id; [done|]. rewrite Hv. f_equal. destruct v; cbn in *. by subst.
Qed.

Ltac bstep :=
  lazymatch goal with
  | |- wp (lock_release files _ _ ≫= _) _ _ => fail
  | |- wp (load files _ _) _ (busy _ _ _ _ _) => apply busy_load
  | |- wp (store files _ offset _) _ (busy _ _ _ _ _) => apply busy_store
  | |- wp (zoom world _) _ (busy _ _ _ _ _) =>
      eapply wp_callback; [eassumption|eassumption|repeat match goal with H : object _ = _ |- _ => rewrite H end; constructor; eassumption|intros ? ? ?]
  | |- wp (lock_release vfss _ _) _ (busy _ _ _ _ _) => eapply busy_unlock_vfs; [eassumption|eassumption|]
  | |- _ => vstep
  end; cbn beta iota.
Ltac bsteps := repeat bstep.

(** A transfer of at most [count] bytes at offset [off] returned [x] and left
    the offset at [off'].  Only a node's offset is the layer's own affair. *)
Definition transferred (o : file_object W) (count off x off' : Z) : Prop :=
  x <= count /\ (x < 0 -> off' = off) /\
  match o with FILE_VNODE _ _ _ => 0 <= x -> off' = off + x | _ => True end.

Lemma account_spec x count off :
  0 <= count -> is_u64 off ->
  let '(x', off') := account x count off in
  x' <= count /\ (x' < 0 -> off' = off) /\ (0 <= x' -> off' = off + x').
Proof.
  intros Hc Ho. unfold account. destruct (Z.ltb_spec 0 x); [|lia].
  destruct (Z.ltb_spec count x); [cbn; unfold NS_EIO; lia|].
  destruct (Z.ltb_spec (UINT64_MAX - off) x); [cbn; unfold NS_EOVERFLOW; lia|].
  unfold UINT64_MAX in *. rewrite u64_small by lia. lia.
Qed.

Lemma wp_recheck s f r w o x count original off Q :
  o = object r -> 0 <= count ->
  (forall x' off', (match o with FILE_VNODE _ _ _ => x' = x /\ off' = off | _ => x' <= count /\ (x' < 0 -> off' = original) end) ->
     Q x' (busy s f r w off')) ->
  wp (recheck f o x count original) Q (busy s f r w off).
Proof.
  intros Ho Hc HQ. unfold recheck.
  destruct o as [m n oc|ops dc oc|ops ctx].
  - bsteps. by apply HQ.
  - destruct (Z.ltb_spec x 0), (Z.ltb_spec 0 x), (Z.ltb_spec count x); cbn [orb andb]; bsteps; apply HQ;
      unfold NS_EIO; try lia.
  - destruct (Z.ltb_spec x 0), (Z.ltb_spec 0 x), (Z.ltb_spec count x); cbn [orb andb]; bsteps; apply HQ;
      unfold NS_EIO; try lia.
Qed.

Lemma wp_read_object s f r w count flags Q :
  files s !! f = Some r -> fits s w -> 0 <= count -> is_u64 (offset r) ->
  (forall x bytes w' off', fits s w' ->
     (match object r with FILE_VNODE _ _ _ => transferred (object r) count (offset r) x off' | _ => True end) ->
     Q (x, bytes) (busy s f r w' off')) ->
  wp (read_object f (object r) count flags) Q (busy s f r w (offset r)).
Proof.
  intros Hf Hw Hc Hoff HQ. unfold read_object. bsteps. cbn [offset working set_field set_offset].
  destruct (object r) as [m n oc|ops dc oc|ops ctx] eqn:Ho.
  - destruct (fs_read (mount_ops m)) as [rd|] eqn:E; bsteps.
    + destruct x as [x bytes]. pose proof (account_spec x count (offset r) Hc Hoff) as Ha.
      destruct (account x count (offset r)) as [x' off']. bsteps. by apply HQ.
    + apply HQ; [done|]. unfold transferred, NS_EINVAL. lia.
  - destruct (dev_read ops) as [rd|] eqn:E; bsteps; [destruct x as [[x off'] bytes]; bsteps|]; by apply HQ.
  - destruct (op_read ops) as [rd|] eqn:E; bsteps; [destruct x as [[x off'] bytes]; bsteps|]; by apply HQ.
Qed.

(** How a call on the descriptor of [tb] that names [e] ends: nothing but the
    offset of the file and the world have changed. *)
Definition called held s (e : fd_entry) (r : ns_vfs_file W) off s' : Prop :=
  fd_inv held s' /\ unlocked s' /\ tables s' = tables s /\
  files s' = <[file e := r <| offset := off |>]> (files s).

Lemma called_same held s e r :
  fd_inv held s -> unlocked s -> files s !! file e = Some r -> called held s e r (offset r) s.
Proof.
  intros Hi Hu Hf. split_and!; try done. rewrite insert_id; [done|]. rewrite Hf. f_equal. by destruct r.
Qed.

(** A call refused after [fd_get]. *)
Lemma wp_refuse {A} held s e r (x : A) Q :
  fd_inv held s -> unlocked s -> room 1 s -> files s !! file e = Some r ->
  (forall s', called held s e r (offset r) s' -> Q x s') ->
  wp (ns_vfs_file_release (file e);; mret x) Q (retained s (file e) r).
Proof.
  intros Hi Hu Hw Hf HQ. destruct (fi_refs _ _ Hi _ r Hf) as [_ Hr]. destruct (fi_held _ _ Hi (file e)) as [Hh _].
  vsteps. eapply wp_mono; [apply (wp_unretain held _ _ (r <| references := references r + 1 |>))|].
  - by apply inv_retain.
  - done.
  - by apply unlocked_retained.
  - apply lookup_insert_eq.
  - cbn. lia.
  - intros _ s' (Hi' & Hu' & Hts & _ & Hfs). vsteps. apply HQ. split_and!; try done.
    rewrite Hfs. rewrite (count_back r) by done. cbn. rewrite insert_insert_eq. f_equal. by destruct r.
Qed.

Lemma wp_vfs_read held s t tb fd buffer count :
  fd_inv held s -> unlocked s -> room 1 s -> tables s !! t = Some tb -> 0 <= count ->
  (forall f r, files s !! f = Some r -> is_u64 (offset r)) ->
  wp (ns_vfs_read t fd buffer count) (fun '(x, bytes) s' =>
    if (buffer =? NULL) && negb (count =? 0) then x = - NS_EFAULT /\ s' = s
    else match descriptor tb fd with
    | None => x = - NS_EBADF /\ s' = s
    | Some e => exists r off, files s !! file e = Some r /\ called held s e r off s' /\
        if flags_allow_read (status_flags r) then transferred (object r) count (offset r) x off
        else x = - NS_EBADF /\ off = offset r
    end) s.
Proof.
  intros Hi Hu Hw Ht Hc Hoff. unfold ns_vfs_read. destruct (_ && negb _); [by vsteps|]. vsteps.
  apply (wp_fd_get s t tb fd held); try done; [|intros Hd; rewrite Hd, Z.eqb_refl; by vsteps].
  intros e r Hd Hf. rewrite Hd. apply descriptor_Some in Hd as (_ & _ & _ & Hn).
  rewrite (proj2 (Z.eqb_neq _ _) Hn). vsteps. cbn [status_flags set_field set_references].
  destruct (flags_allow_read (status_flags r)) eqn:Hfl; cbn [negb].
  2:{ apply (wp_refuse held); try done. intros s' Hs'. exists r, (offset r). by rewrite Hfl. }
  vsteps. apply wp_enter; [done..|]. bsteps.
  change (object (working r (offset r))) with (object r). apply (wp_read_object s); auto.
  { split; [apply Hi|done]. } { eauto. }
  intros x bytes w off Hfw Htr. bsteps. apply (wp_recheck s _ r); [done..|]. intros x' off' Hx.
  apply (wp_leave held); try done. intros s' Hi' Hu' Hts Hfs. exists r, off'. rewrite Hfl.
  split_and!; try done.
  destruct (object r); [destruct Hx as [-> ->]; apply Htr|destruct Hx; by split_and!..].
Qed.

Lemma wp_write_object s f r w l count flags Q :
  files s !! f = Some r -> fits s w -> 0 <= count -> is_u64 (offset r) -> vfs_ok s (file_vfs r) ->
  (forall x w' off', fits s w' ->
     (match object r with FILE_VNODE _ _ _ => x <= count /\ (x < 0 -> off' = offset r) /\
        (Z.land flags NS_O_APPEND = 0 -> 0 <= x -> off' = offset r + x) | _ => True end) ->
     Q x (busy s f r w' off')) ->
  wp (write_object f (object r) l count flags) Q (busy s f r w (offset r)).
Proof.
  intros Hf Hw Hc Hoff (Hvn & v & Hv & Hvl & _) HQ. unfold write_object. bsteps.
  cbn [offset working set_field set_offset].
  destruct (object r) as [m n oc|ops dc oc|ops ctx] eqn:Ho.
  - destruct (read_only m); [bsteps; apply HQ; [done|]; unfold NS_EROFS; lia|].
    destruct (fs_write (mount_ops m)) as [wr|] eqn:E; [|bsteps; apply HQ; [done|]; unfold NS_EROFS; lia].
    destruct (Z.eqb_spec (Z.land flags NS_O_APPEND) 0) as [Ea|Ea]; cbn [negb].
    + bsteps. pose proof (account_spec x count (offset r) Hc Hoff) as Ha.
      destruct (account x count (offset r)) as [x' off']. bsteps. apply HQ; [done|]. intuition.
    + bsteps. cbn [file_vfs working set_field set_offset set_file_lock set_references].
      unfold lock_acquire. vsteps. rewrite Hvl. vsteps.
      set (s1 := s <| vfss := <[file_vfs r := v <| vfs_lock := true |>]> (vfss s) |>).
      match goal with |- wp _ _ ?x => change x with (busy s1 f r w (offset r)) end.
      change (fits s1 w) in Hw. assert (Hf1 : files s1 !! f = Some r) by done.
      bstep. destruct x as [status info]. destruct (Z.ltb_spec status 0) as [Hs|Hs].
      * bsteps. apply HQ; [done|]. split_and!; [lia|done|done].
      * bsteps. set (c := (0 <? x) && (x <=? count) && _). destruct c eqn:Hcc; subst c.
        -- apply andb_true_iff in Hcc as [[Hx%Z.ltb_lt Hx']%andb_true_iff _]. apply Z.leb_le in Hx'.
           bsteps. apply HQ; [done|]. split_and!; [done|lia|done].
        -- destruct (Z.ltb_spec 0 x); bsteps; (apply HQ; [done|]);
             (split_and!; [|done|done]); [unfold NS_EIO, NS_EOVERFLOW; case_match; lia|lia].
  - destruct (dev_write ops) as [wr|] eqn:E; bsteps; [destruct x as [x off']; bsteps|]; by apply HQ.
  - destruct (op_write ops) as [wr|] eqn:E; bsteps; [destruct x as [x off']; bsteps|]; by apply HQ.
Qed.

Lemma wp_vfs_write held s t tb fd buffer l count :
  fd_inv held s -> unlocked s -> room 1 s -> tables s !! t = Some tb -> 0 <= count ->
  (forall f r, files s !! f = Some r -> is_u64 (offset r)) ->
  wp (ns_vfs_write t fd buffer l count) (fun x s' =>
    if (buffer =? NULL) && negb (count =? 0) then x = - NS_EFAULT /\ s' = s
    else match descriptor tb fd with
    | None => x = - NS_EBADF /\ s' = s
    | Some e => exists r off, files s !! file e = Some r /\ called held s e r off s' /\
        if flags_allow_write (status_flags r) then
          x <= count /\ (x < 0 -> off = offset r) /\
          (Z.land (status_flags r) NS_O_APPEND = 0 -> transferred (object r) count (offset r) x off)
        else x = - NS_EBADF /\ off = offset r
    end) s.
Proof.
  intros Hi Hu Hw Ht Hc Hoff. unfold ns_vfs_write. destruct (_ && negb _); [by vsteps|]. vsteps.
  apply (wp_fd_get s t tb fd held); try done; [|intros Hd; rewrite Hd, Z.eqb_refl; by vsteps].
  intros e r Hd Hf. rewrite Hd. apply descriptor_Some in Hd as (_ & _ & _ & Hn).
  rewrite (proj2 (Z.eqb_neq _ _) Hn). vsteps. cbn [status_flags set_field set_references].
  destruct (flags_allow_write (status_flags r)) eqn:Hfl; cbn [negb].
  2:{ apply (wp_refuse held); try done. intros s' Hs'. exists r, (offset r). by rewrite Hfl. }
  vsteps. apply wp_enter; [done..|]. bsteps.
  change (object (working r (offset r))) with (object r). apply (wp_write_object s); eauto.
  { split; [apply Hi|done]. } { exact (fi_file _ _ Hi _ _ Hf). }
  intros x w off Hfw Htr. bsteps. apply (wp_recheck s _ r); [done..|]. intros x' off' Hx.
  apply (wp_leave held); try done. intros s' Hi' Hu' Hts Hfs. exists r, off'. rewrite Hfl. unfold transferred.
  split; [done|]. split; [done|].
  destruct (object r); [destruct Hx as [-> ->]; destruct Htr as (? & ? & ?)|destruct Hx..]; split_and!; try done; auto.
Qed.

Lemma compute_seek_spec base off :
  is_u64 base -> - 2 ^ 63 <= off < 2 ^ 63 ->
  match compute_seek base off with
  | (x, Some p) => x = 0 /\ p = base + off /\ is_u64 p
  | (x, None) => x < 0 /\ ~ is_u64 (base + off)
  end.
Proof.
  intros Hb Ho. unfold compute_seek, UINT64_MAX. destruct (Z.ltb_spec off 0).
  - rewrite !u64_small by (rewrite ?u64_small by lia; lia).
    destruct (Z.ltb_spec base (- (off + 1) + 1)); unfold NS_EINVAL; lia.
  - destruct (Z.ltb_spec (2 ^ 64 - 1 - base) off); unfold NS_EOVERFLOW; lia.
Qed.

Lemma wp_seek_object s f r w off whence Q :
  files s !! f = Some r -> fits s w ->
  (forall x w' off', fits s w' ->
     (match object r with FILE_VNODE _ _ _ => 0 <= x -> off' = x /\ x <= INT64_MAX | _ => True end) ->
     Q x (busy s f r w' off')) ->
  wp (seek_object f (object r) off whence) Q (busy s f r w (offset r)).
Proof.
  intros Hf Hw HQ. unfold seek_object. bsteps. cbn [offset working set_field set_offset].
  assert (Hneg : forall x w' off', fits s w' -> x < 0 -> Q x (busy s f r w' off')).
  { intros x w' off' Hw' Hx. apply HQ; [done|]. destruct (object r); [lia|done..]. }
  destruct (object r) as [m n oc|ops dc oc|ops ctx] eqn:Ho.
  - bsteps. destruct x as [status info]. destruct (Z.ltb_spec status 0); [bsteps; auto|].
    destruct (negb _); [bsteps; by apply Hneg|].
    set (base := if whence =? NS_SEEK_SET then _ else _). destruct base as [base|]; [|bsteps; by apply Hneg].
    assert (Hc : match compute_seek base off with (x, None) => x < 0 | _ => True end).
    { unfold compute_seek, NS_EINVAL, NS_EOVERFLOW. repeat case_match; simplify_eq; lia. }
    destruct (compute_seek base off) as [x [p|]]; [|bsteps; by apply Hneg].
    destruct (Z.ltb_spec INT64_MAX p); bsteps; [by apply Hneg|]. apply HQ; [done|]. auto.
  - destruct (dev_seek ops) as [sk|] eqn:E; bsteps; [destruct x as [x off']; bsteps|]; by apply HQ.
  - destruct (op_seek ops) as [sk|] eqn:E; bsteps; [destruct x as [x off']; bsteps|]; by apply HQ.
Qed.

Lemma wp_vfs_seek held s t tb fd off whence :
  fd_inv held s -> unlocked s -> room 1 s -> tables s !! t = Some tb ->
  wp (ns_vfs_seek t fd off whence) (fun x s' =>
    match descriptor tb fd with
    | None => x = - NS_EBADF /\ s' = s
    | Some e => exists r off', files s !! file e = Some r /\ called held s e r off' s' /\
        (x < 0 -> off' = offset r) /\
        match object r with FILE_VNODE _ _ _ => 0 <= x -> off' = x /\ x <= INT64_MAX | _ => True end
    end) s.
Proof.
  intros Hi Hu Hw Ht. unfold ns_vfs_seek. vsteps.
  apply (wp_fd_get s t tb fd held); try done; [|intros Hd; rewrite Hd, Z.eqb_refl; by vsteps].
  intros e r Hd Hf. rewrite Hd. apply descriptor_Some in Hd as (_ & _ & _ & Hn).
  rewrite (proj2 (Z.eqb_neq _ _) Hn). vsteps. apply wp_enter; [done..|]. bsteps.
  change (object (working r (offset r))) with (object r). apply (wp_seek_object s); [done|split; [apply Hi|done]|].
  intros x w off' Hfw Htr. bsteps. change (offset (working r (offset r))) with (offset r).
  destruct (Z.ltb_spec x 0); bsteps.
  - apply (wp_leave held); try done. intros s' Hi' Hu' Hts Hfs. exists r, (offset r). split_and!; try done.
    destruct (object r); [lia|done..].
  - apply (wp_leave held); try done. intros s' Hi' Hu' Hts Hfs. exists r, off'. split_and!; try done. lia.
Qed.

Lemma wp_vfs_fstat held s t tb fd p :
  fd_inv held s -> unlocked s -> room 1 s -> tables s !! t = Some tb ->
  wp (ns_vfs_fstat t fd p) (fun '(x, info) s' =>
    if p =? NULL then x = - NS_EFAULT /\ s' = s
    else match descriptor tb fd with
    | None => x = - NS_EBADF /\ s' = s
    | Some e => exists r, files s !! file e = Some r /\ called held s e r (offset r) s'
    end) s.
Proof.
  intros Hi Hu Hw Ht. unfold ns_vfs_fstat. destruct (p =? NULL); [by vsteps|]. vsteps.
  apply (wp_fd_get s t tb fd held); try done; [|intros Hd; rewrite Hd, Z.eqb_refl; by vsteps].
  intros e r Hd Hf. rewrite Hd. apply descriptor_Some in Hd as (_ & _ & _ & Hn).
  rewrite (proj2 (Z.eqb_neq _ _) Hn). vsteps. apply wp_enter; [done..|]. bsteps.
  change (object (working r (offset r))) with (object r).
  assert (Hfit : fits s (world s)) by (split; [apply Hi|done]).
  assert (Hend : forall (x : Z) (info : option ns_vfs_node_info) w, fits s w ->
    wp (lock_release files (file e) file_lock;; ns_vfs_file_release (file e);; mret (x, info))
      (fun '(_, _) s' => exists r, files s !! file e = Some r /\ called held s e r (offset r) s')
      (busy s (file e) r w (offset r))).
  { intros x info w Hfw. apply (wp_leave held); try done. intros s' Hi' Hu' Hts Hfs. exists r. by split_and!. }
  destruct (object r) as [m n oc|ops dc oc|ops ctx] eqn:Ho; [|destruct (dev_stat ops) eqn:E|destruct (op_stat ops) eqn:E];
    bsteps; try by apply Hend.
  all: match goal with x : (Z * ns_vfs_node_info)%type |- _ => destruct x as [x info] end;
    bsteps; by apply Hend.
Qed.
End invariant.
