(* ===== verification/FdTheorems.v ===== *)
(** * What open files and descriptor tables guarantee

    The properties of the descriptor layer of kernel/fs/vfs.c: exact reference
    counts, the life time of an open file, the descriptors each operation
    creates and destroys, the bounds on transfers; and a call that writes
    outside a descriptor table. *)

From S2P Require Import Prelude Errno Fd FdProps.

(** ** The operations as one interface *)

Inductive fd_op :=
  | fd_create (vfs n : Z)
  | fd_clone (table : Z) (skip_cloexec : bool)
  | fd_close_cloexec (table : Z)
  | fd_destroy (table : Z)
  | fd_close (table fd : Z)
  | fd_dup (table old minimum : Z) (cloexec : bool)
  | fd_dup2 (table old new : Z) (cloexec : bool)
  | fd_read (table fd buffer count : Z)
  | fd_write (table fd buffer : Z) (data : list Z) (count : Z)
  | fd_seek (table fd offset whence : Z)
  | fd_stat (table fd result : Z).

Section theorems.
Context {W : Type} `{!FileWorld W}.
Implicit Types (s : vstate W) (t f fd : Z).

Definition run_fd (o : fd_op) : M (vstate W) Z :=
  match o with
  | fd_create vfs n => '(x, _) ← ns_vfs_fdtable_create vfs n; mret x
  | fd_clone t skip => '(x, _) ← ns_vfs_fdtable_clone t skip; mret x
  | fd_close_cloexec t => ns_vfs_fdtable_close_cloexec t
  | fd_destroy t => ns_vfs_fdtable_destroy t;; mret 0
  | fd_close t fd => ns_vfs_close t fd
  | fd_dup t old m c => ns_vfs_dup t old m c
  | fd_dup2 t old new c => ns_vfs_dup2 t old new c
  | fd_read t fd b n => '(x, _) ← ns_vfs_read t fd b n; mret x
  | fd_write t fd b l n => ns_vfs_write t fd b l n
  | fd_seek t fd off wh => ns_vfs_seek t fd off wh
  | fd_stat t fd p => '(x, _) ← ns_vfs_fstat t fd p; mret x
  end.

(** Calls within their contract: the table (or namespace) exists, a duplicate is
    asked for at a minimum inside the table and of a file of the table's own
    namespace, and file offsets have their type.  The code does not check the
    minimum. *)
Definition fd_legal s (o : fd_op) : Prop :=
  match o with
  | fd_create v n => vfs_ok s v /\ 0 <= n
  | fd_dup t old m _ => exists tb, tables s !! t = Some tb /\ 0 <= m <= maximum tb /\
      forall e r, descriptor tb old = Some e -> files s !! file e = Some r -> file_vfs r = table_vfs tb
  | fd_read t _ _ n | fd_write t _ _ _ n => is_Some (tables s !! t) /\ 0 <= n /\
      forall f r, files s !! f = Some r -> is_u64 (offset r)
  | fd_clone t _ | fd_close_cloexec t | fd_destroy t | fd_close t _ | fd_dup2 t _ _ _
  | fd_seek t _ _ _ | fd_stat t _ _ => is_Some (tables s !! t)
  end.

Lemma room_le n m s : m <= n -> room n s -> room m s.
Proof. intros Hle Hr f r Hf. specialize (Hr f r Hf). lia. Qed.

Lemma wp_first {A} (m : M (vstate W) (Z * A)) (Q : vstate W -> Prop) s :
  wp m (fun '(_, _) s' => Q s') s -> wp ('(x, _) ← m; mret x) (fun _ s' => Q s') s.
Proof. intros H. apply wp_bind. eapply wp_mono; [exact H|]. intros [x y] s' HQ. by apply wp_ret. Qed.

(** The state is sound and no lock is held. *)
Definition settled s : Prop := fd_inv nobody s /\ unlocked s.

Lemma settled_called s e r off s' : called nobody s e r off s' -> settled s'.
Proof. intros (Hi & Hu & _). by split. Qed.

Lemma fd_op_settled o s :
  settled s -> room 65536 s -> fd_legal s o -> wp (run_fd o) (fun _ s' => settled s') s.
Proof.
  intros [Hi Hu] Hr Hl. pose proof (room_le 65536 2 s ltac:(lia) Hr) as Hr2.
  pose proof (room_le 65536 1 s ltac:(lia) Hr) as Hr1. destruct o; cbn [run_fd fd_legal] in *.
  - destruct Hl. apply wp_first. eapply wp_mono; [by apply (wp_fdtable_create nobody)|].
    intros [x t] s' (? & ? & _). by split.
  - destruct Hl as [tb Ht]. apply wp_first. eapply wp_mono; [by apply (wp_clone nobody s table tb)|].
    intros [x t] s' (? & ? & _). by split.
  - destruct Hl as [tb Ht]. eapply wp_mono; [by apply (wp_close_cloexec nobody s table tb)|].
    intros x s' (? & ? & _). by split.
  - destruct Hl as [tb Ht]. apply wp_bind. eapply wp_mono; [by apply (wp_destroy nobody s table tb)|].
    intros x s' (? & ? & _). apply wp_ret. by split.
  - destruct Hl as [tb Ht]. eapply wp_mono; [by apply (wp_vfs_close nobody s table tb)|].
    intros x s' (? & ? & _). by split.
  - destruct Hl as (tb & Ht & Hm & Hv). eapply wp_mono; [by apply (wp_dup nobody s table tb)|].
    intros x s' (? & ? & _). by split.
  - destruct Hl as [tb Ht]. eapply wp_mono; [by apply (wp_dup2 nobody s table tb)|].
    intros x s' (? & ? & _). by split.
  - destruct Hl as ([tb Ht] & Hn & Ho). apply wp_first. eapply wp_mono; [by apply (wp_vfs_read nobody s table tb)|].
    intros [x l] s' Hs. destruct (_ && negb _); [by destruct Hs as [_ ->]|].
    destruct (descriptor tb fd); [|by destruct Hs as [_ ->]]. destruct Hs as (r & off & _ & Hc & _). by eapply settled_called.
  - destruct Hl as ([tb Ht] & Hn & Ho). eapply wp_mono; [by apply (wp_vfs_write nobody s table tb)|].
    intros x s' Hs. destruct (_ && negb _); [by destruct Hs as [_ ->]|].
    destruct (descriptor tb fd); [|by destruct Hs as [_ ->]]. destruct Hs as (r & off & _ & Hc & _). by eapply settled_called.
  - destruct Hl as [tb Ht]. eapply wp_mono; [by apply (wp_vfs_seek nobody s table tb)|].
    intros x s' Hs. destruct (descriptor tb fd); [|by destruct Hs as [_ ->]].
    destruct Hs as (r & off & _ & Hc & _). by eapply settled_called.
  - destruct Hl as [tb Ht]. apply wp_first. eapply wp_mono; [by apply (wp_vfs_fstat nobody s table tb)|].
    intros [x l] s' Hs. destruct (_ =? _); [by destruct Hs as [_ ->]|].
    destruct (descriptor tb fd); [|by destruct Hs as [_ ->]]. destruct Hs as (r & _ & Hc). by eapply settled_called.
Qed.

(** ** Life time of open files *)

(** Some descriptor of some table names [f]. *)
Definition named s f : Prop :=
  exists t tb fd e, tables s !! t = Some tb /\ descriptor tb fd = Some e /\ file e = f.

Lemma count_in_ex es f : 0 < count_in es f -> exists i e, es !! i = Some e /\ file e = f.
Proof.
  induction es as [|x es IH]; [done|]. rewrite count_in_cons. unfold one.
  destruct (Z.eqb_spec (file x) f) as [E|E]; [by exists 0%nat, x|].
  intros H. destruct IH as (i & e & Hi & He); [lia|]. by exists (S i), e.
Qed.

Lemma owned_named s f : f <> NULL -> 0 < owned_in (tables s) f -> named s f.
Proof.
  intros Hf. unfold named. generalize (tables s). intros ts. induction ts as [|t tb ts Ht IH] using map_ind.
  - unfold owned_in. rewrite map_fold_empty. lia.
  - rewrite owned_in_insert_new by done. intros H.
    destruct (decide (0 < count_in (entries tb) f)) as [Hc|Hc].
    + destruct (count_in_ex _ _ Hc) as (i & e & Hi & He). exists t, tb, (Z.of_nat i), e.
      rewrite lookup_insert_eq. split_and!; try done. unfold descriptor, rd.
      rewrite (proj2 (Z.leb_le _ _)), Nat2Z.id, Hi by lia. cbn. by rewrite (proj2 (Z.eqb_neq _ _)) by congruence.
    + destruct IH as (u & x & fd & e & Hu & Hd & He); [lia|]. exists u, x, fd, e.
      rewrite lookup_insert_ne by congruence. done.
Qed.

Lemma open_iff_named s f : fd_inv nobody s -> f <> NULL -> is_Some (files s !! f) <-> named s f.
Proof.
  intros Hi Hf. split.
  - intros [r Hr]. destruct (fi_refs _ _ Hi f r Hr) as [Hc Hp]. apply owned_named; [done|]. unfold nobody in Hc. lia.
  - intros (t & tb & fd & e & Ht & Hd & <-). apply descriptor_Some in Hd as (_ & _ & He & Hn).
    by eapply fi_entry.
Qed.

(** Running the first [n] of a list of calls that all stay within contract. *)
Inductive fd_reachable : vstate W -> vstate W -> Prop :=
  | fdr_start s : fd_reachable s s
  | fdr_call s s1 s2 o x : fd_reachable s s1 -> room 65536 s1 -> fd_legal s1 o ->
      run_fd o s1 = Some (x, s2) -> fd_reachable s s2.

Lemma reachable_settled s s' : settled s -> fd_reachable s s' -> settled s'.
Proof.
  intros Hs Hr. induction Hr as [s|s s1 s2 o x _ IH Hroom Hl Hrun]; [done|].
  destruct (fd_op_settled o s1 (IH Hs) Hroom Hl) as (y & s3 & Hrun' & Hs3). congruence.
Qed.

(** C26 Reference counts.  Along any sequence of descriptor calls within the contract
    [fd_legal], made while every reference count has 65536 to spare, every such
    call returns, the reference count of an open file is the number of descriptors
    that name it in all tables, a file is open exactly as long as some
    descriptor names it, and no lock stays held. *)
Theorem fd_counts_exact s s' :
  settled s -> fd_reachable s s' ->
  (forall o, room 65536 s' -> fd_legal s' o -> exists x s2, run_fd o s' = Some (x, s2)) /\
  (forall f r, files s' !! f = Some r -> references r = owned_in (tables s') f) /\
  (forall f, f <> NULL -> is_Some (files s' !! f) <-> named s' f) /\
  unlocked s'.
Proof.
  intros Hs Hr. pose proof (reachable_settled s s' Hs Hr) as [Hi Hu]. split_and!; try done.
  - intros o Hroom Hl. destruct (fd_op_settled o s' (conj Hi Hu) Hroom Hl) as (x & s2 & Hrun & _). eauto.
  - intros f r Hf. destruct (fi_refs _ _ Hi f r Hf) as [Hc _]. unfold nobody in Hc. lia.
  - intros f. by apply open_iff_named.
Qed.

(** Closing.  Closing a descriptor in use frees exactly that descriptor; the
    file it named stays open, with one reference less, while another descriptor
    names it, and is closed and freed otherwise; no other file changes. *)
Theorem fd_close_correct s t tb fd e :
  settled s -> tables s !! t = Some tb -> descriptor tb fd = Some e ->
  exists s' r, ns_vfs_close t fd s = Some (0, s') /\ settled s' /\
    tables s' = <[t := set_fd tb fd no_entry]> (tables s) /\ files s !! file e = Some r /\
    files s' !! file e = (if references r =? 1 then None else Some (r <| references := references r - 1 |>)) /\
    (is_Some (files s' !! file e) <-> named s' (file e)) /\
    (forall f, f <> file e -> files s' !! f = files s !! f).
Proof.
  intros [Hi Hu] Ht Hd. destruct (wp_vfs_close nobody s t tb fd Hi Hu Ht) as (x & s' & Hrun & Hi' & Hu' & Hpost).
  rewrite Hd in Hpost. destruct Hpost as (-> & Hts & r & Hf & Hfs). apply descriptor_Some in Hd as (_ & _ & _ & Hn).
  exists s', r. split_and!; try done.
  - rewrite Hfs. unfold dropped. case_match; [apply lookup_delete_eq|apply lookup_insert_eq].
  - by apply open_iff_named.
  - intros f Hf'. rewrite Hfs. unfold dropped. case_match; [by rewrite lookup_delete_ne|by rewrite lookup_insert_ne].
Qed.

(** Lowest descriptor.  Duplicating a descriptor onto [m] or above uses the
    least free descriptor from [m] on, which then names the same file, and
    reports EMFILE exactly when all of them are in use. *)
Theorem fd_dup_lowest s t tb old e m cloexec :
  settled s -> room 2 s -> tables s !! t = Some tb -> descriptor tb old = Some e -> 0 <= m <= maximum tb ->
  (forall r, files s !! file e = Some r -> file_vfs r = table_vfs tb) ->
  exists x s', ns_vfs_dup t old m cloexec s = Some (x, s') /\ settled s' /\
    ((x = - NS_EMFILE /\ full_from tb m /\ tables s' = tables s /\ files s' = files s) \/
     (lowest_free tb m x /\ tables s' = <[t := set_fd tb x (mk_entry (file e) cloexec)]> (tables s))).
Proof.
  intros [Hi Hu] Hr Ht Hd Hm Hv.
  destruct (wp_dup nobody s t tb old m cloexec Hi Hu Hr Ht Hm) as (x & s' & Hrun & Hi' & Hu' & Hpost).
  { intros e' r He' Hf. assert (e' = e) by congruence. subst. auto. }
  rewrite Hd in Hpost. destruct Hpost as (r & Hf & [(-> & Hfull & Hts & Hfs)|(Hlow & Hts & _)]).
  - exists (- NS_EMFILE), s'. split_and!; try done. left. by split_and!.
  - exists x, s'. split_and!; try done. by right.
Qed.

(** Redirection.  [ns_vfs_dup2] onto another descriptor of the table always
    succeeds: the descriptor then names the file of [old] with the given
    close-on-exec flag, and the file it named before is open exactly as long as
    some descriptor still names it. *)
Theorem fd_dup2_correct s t tb old new e cloexec :
  settled s -> room 1 s -> tables s !! t = Some tb -> descriptor tb old = Some e ->
  0 <= new < maximum tb -> old <> new ->
  exists s', ns_vfs_dup2 t old new cloexec s = Some (new, s') /\ settled s' /\
    tables s' = <[t := set_fd tb new (mk_entry (file e) cloexec)]> (tables s) /\
    (forall f, f <> NULL -> is_Some (files s' !! f) <-> named s' f).
Proof.
  intros [Hi Hu] Hr Ht Hd Hn Hne.
  destruct (wp_dup2 nobody s t tb old new cloexec Hi Hu Hr Ht) as (x & s' & Hrun & Hi' & Hu' & Hpost).
  rewrite Hd, (proj2 (Z.leb_le _ _)), (proj2 (Z.ltb_lt _ _)) in Hpost by lia. cbn [andb] in Hpost.
  rewrite (proj2 (Z.eqb_neq _ _) Hne) in Hpost. destruct Hpost as (-> & Hts & _).
  exists s'. split_and!; try done. intros f. by apply open_iff_named.
Qed.

(** Inheritance.  A clone has, at the same numbers, the descriptors of its
    source, without the close-on-exec ones when asked to skip them; the source
    is unchanged; when the clone fails for lack of memory nothing has changed. *)
Theorem fd_clone_correct s t src skip :
  settled s -> room 65536 s -> tables s !! t = Some src ->
  exists x copy s', ns_vfs_fdtable_clone t skip s = Some ((x, copy), s') /\ settled s' /\
    ((x < 0 /\ tables s' = tables s /\ files s' = files s) \/
     (x = 0 /\ exists tb, tables s !! copy = None /\ tables s' = <[copy := tb]> (tables s) /\
      forall fd, descriptor tb fd =
        e ← descriptor src fd; if skip && close_on_exec e then None else Some e)).
Proof.
  intros [Hi Hu] Hr Ht.
  destruct (wp_clone nobody s t src skip Hi Hu Hr Ht) as ([x copy] & s' & Hrun & Hi' & Hu' & Hpost).
  exists x, copy, s'. split_and!; try done. destruct Hpost as [H|(-> & Hfr & a & Hts)]; [by left|right].
  split; [done|]. exists (clone_of src skip a). split_and!; try done. intros fd. unfold descriptor, rd. cbn.
  destruct (0 <=? fd); [|done]. rewrite list_lookup_fmap.
  destruct (entries src !! Z.to_nat fd) as [e|]; [|done]. cbn. unfold pick.
  destruct (file e =? NULL) eqn:En; cbn [negb andb]; [by rewrite Z.eqb_refl|].
  destruct (skip && close_on_exec e) eqn:Hc; cbn [negb file no_entry]; rewrite ?Z.eqb_refl, ?En; cbn; by rewrite Hc.
Qed.

(** Transfers.  A read through a descriptor open for reading returns, never
    reports more bytes than were asked for whatever the callback says, leaves
    the offset alone when it fails, advances the offset of a file-system node by
    the number of bytes read without overflow, and keeps every reference and
    lock as it was. *)
Theorem fd_read_correct s t tb fd e r buffer count :
  settled s -> room 1 s -> tables s !! t = Some tb -> descriptor tb fd = Some e ->
  files s !! file e = Some r -> flags_allow_read (status_flags r) = true ->
  buffer <> NULL -> 0 <= count -> (forall f r, files s !! f = Some r -> is_u64 (offset r)) ->
  exists x bytes off s', ns_vfs_read t fd buffer count s = Some ((x, bytes), s') /\ settled s' /\
    tables s' = tables s /\ files s' = <[file e := r <| offset := off |>]> (files s) /\
    x <= count /\ (x < 0 -> off = offset r) /\
    match object r with FILE_VNODE _ _ _ => 0 <= x -> off = offset r + x | _ => True end.
Proof.
  intros [Hi Hu] Hr Ht Hd Hf Hfl Hb Hc Ho.
  destruct (wp_vfs_read nobody s t tb fd buffer count Hi Hu Hr Ht Hc Ho) as ([x bytes] & s' & Hrun & Hpost).
  rewrite (proj2 (Z.eqb_neq _ _) Hb), Hd in Hpost. destruct Hpost as (r' & off & Hf' & (Hi' & Hu' & Hts & Hfs) & Htr).
  assert (r' = r) by congruence. subst. rewrite Hfl in Htr. destruct Htr as (? & ? & ?).
  exists x, bytes, off, s'. by split_and!.
Qed.

(** C27 A minimum past the table.  Installing a file at or above a descriptor
    number that is beyond the end of the table is not refused: the search loop
    does not run, the test for a full table compares for equality only, and the
    entry that is written lies outside the table's array. *)
Theorem fd_install_overruns s t tb f r m cloexec :
  settled s -> room 1 s -> tables s !! t = Some tb -> files s !! f = Some r ->
  file_vfs r = table_vfs tb -> maximum tb < m ->
  ns_vfs_fd_install t f m cloexec s = None.
Proof.
  intros [Hi Hu] Hr Ht Hf Hv Hm. destruct (fi_table _ _ Hi t tb Ht) as [Hlen Hmax _ _].
  assert (Hfn : f <> NULL). { intros ->. destruct (fi_null _ _ Hi). congruence. }
  unfold ns_vfs_fd_install. rewrite (table_nonnull nobody s t tb), (proj2 (Z.eqb_neq f _) Hfn) by done. cbn [orb].
  eapply stuck_after; [by apply load_run|]. eapply stuck_after; [by apply load_run|].
  rewrite Hv, Z.eqb_refl, (proj2 (Z.ltb_ge m 0)) by lia. cbn [negb orb].
  eapply stuck_after.
  { unfold lock_acquire, mbind, M_bind. rewrite (load_run _ _ _ _ tb) by done. cbn beta iota.
    rewrite (un_table _ Hu t tb Ht). by apply store_run. }
  eapply stuck_after; [apply load_run, lookup_insert_eq|].
  eapply stuck_after; [apply load_run, lookup_insert_eq|]. cbn [maximum set_field set_table_lock].
  rewrite (proj2 (Z.ltb_ge m _)), (proj2 (Z.eqb_neq m _)) by lia.
  eapply stuck_after.
  { unfold ns_vfs_file_retain. rewrite (proj2 (Z.eqb_neq f _) Hfn).
    unfold mbind, M_bind. rewrite (load_run _ _ _ _ r) by done. by apply store_run. }
  apply stuck_here. unfold put_entry. eapply stuck_after; [apply load_run, lookup_insert_eq|].
  unfold wr. cbn [entries set_field set_table_lock]. by rewrite (proj2 (Z.ltb_ge m _)), andb_false_r by lia.
Qed.
End theorems.

(** ** A concrete world

    A bump allocator and files whose callbacks always succeed. *)
Module Toy.
Record toy := mk_toy { next : Z; live : gset Z }.

Definition toy_ops : ns_vfs_file_ops toy :=
  mk_file_ops (Some (fun _ off n _ => mret (n + 1, off + 7, []))) None None None (Some (fun _ => mret tt)).
Definition toy_allocator : ns_vfs_allocator toy :=
  mk_allocator (Some (fun _ _ w => Some (next w, mk_toy (next w + 1) ({[next w]} ∪ live w))))
    (Some (fun p _ _ w => Some (tt, mk_toy (next w) (live w ∖ {[p]})))).

Definition toy_inv (objs : gmap Z (file_object toy)) (w : toy) : Prop :=
  0 < next w /\ (forall p, p ∈ live w -> 0 < p < next w) /\
  forall f o, objs !! f = Some o -> exists ctx, o = FILE_CUSTOM toy_ops ctx.

Lemma toy_null objs w : toy_inv objs w -> NULL ∉ live w.
Proof. intros (_ & Hl & _) H. apply Hl in H. unfold NULL in H. lia. Qed.

Lemma toy_allocate objs w g sz al :
  vfs_allocate toy_allocator = Some g -> toy_inv objs w ->
  wp (g sz al) (fun p w' => toy_inv objs w' /\
    if p =? NULL then live w' = live w else (p ∉ live w) /\ live w' = {[p]} ∪ live w) w.
Proof.
  intros [= <-] (Hn & Hl & Ho). eexists _, _. split; [reflexivity|]. split.
  - split_and!; cbn; [lia| |done]. intros p [->%elem_of_singleton|Hp]%elem_of_union; [lia|].
    apply Hl in Hp. lia.
  - rewrite (proj2 (Z.eqb_neq _ NULL)) by (unfold NULL; lia). split; [|done].
    intros Hp. apply Hl in Hp. lia.
Qed.

Lemma toy_call o A (m : M toy A) ctx w :
  callback o A m -> o = FILE_CUSTOM toy_ops ctx -> exists x, m w = Some (x, w).
Proof. destruct 1; intros [= -> ->]; try done. injection H as <-. by eexists. Qed.

#[export] Instance toy_world : FileWorld toy.
Proof.
  refine {| fw_inv := toy_inv; fw_owns := live; fw_allocator := fun a => a = toy_allocator |}.
  - exact toy_null.
  - intros objs f o w Hf Hi. destruct Hi as (Hn & Hl & Ho). destruct (Ho f o Hf) as [ctx ->].
    apply wp_ret. split; [|done]. split_and!; try done. intros g o' [_ Hg]%lookup_delete_Some. eauto.
  - intros objs f o w A m Hf Hc Hi. pose proof Hi as (Hn & Hl & Ho). destruct (Ho f o Hf) as [ctx ->].
    destruct (toy_call _ _ _ ctx w Hc eq_refl) as [x Hx]. by exists x, w.
  - intros a g sz al objs w -> Hg Hi. by eapply toy_allocate.
  - intros a g p sz al objs w -> [= <-] (Hn & Hl & Ho) Hp. eexists tt, _. split; [reflexivity|].
    split; [|done]. split_and!; try done. cbn. intros q [Hq _]%elem_of_difference. auto.
Defined.

(** Namespace 1, a table at 2 with its array at 3, an open file at 4 that the
    descriptors 0 and 1 name. *)
Definition toy_file : ns_vfs_file toy := mk_file 1 2 false NS_O_RDWR 10 0 (FILE_CUSTOM toy_ops 9).
Definition toy_table : ns_vfs_fdtable :=
  mk_fdtable 1 false 4 3 [mk_entry 4 false; mk_entry 4 true; no_entry; no_entry] [47; 0].
Definition toy_state : vstate toy :=
  mk_vstate {[1 := mk_vfs toy_allocator false]} {[4 := toy_file]} {[2 := toy_table]} (mk_toy 5 {[2; 3; 4]}).

Lemma toy_files f r : files toy_state !! f = Some r -> f = 4 /\ r = toy_file.
Proof. cbn. intros [<- <-]%lookup_singleton_Some. done. Qed.
Lemma toy_tables u x : tables toy_state !! u = Some x -> u = 2 /\ x = toy_table.
Proof. cbn. intros [<- <-]%lookup_singleton_Some. done. Qed.

Lemma toy_settled : settled toy_state.
Proof.
  split; constructor.
  - split_and!; [done| |].
    + cbn. intros p Hp. rewrite !elem_of_union, !elem_of_singleton in Hp. lia.
    + intros f o. rewrite lookup_fmap. intros (r & Hr & ->)%fmap_Some. apply toy_files in Hr as [-> ->]. by exists 9.
  - intros f r Hr. apply toy_files in Hr as [-> ->]. by vm_compute.
  - intros f r Hr. apply toy_files in Hr as [-> ->]. split; [done|]. by eexists.
  - intros f. split; [done|]. by intros [].
  - intros u x Hx. apply toy_tables in Hx as [-> ->]. constructor; try done.
    + split; [done|]. by eexists.
    + intros e. cbn. rewrite !elem_of_cons, elem_of_nil. intros [->|[->|[->|[->|[]]]]]; cbn; eauto; done.
  - constructor.
    + intros f [r Hr]. apply toy_files in Hr as [-> ->]. split; [cbn; set_solver|done].
    + intros u [x Hx]. apply toy_tables in Hx as [-> ->]. cbn; set_solver.
    + intros u x Hx. apply toy_tables in Hx as [-> ->]. split_and!; [cbn; set_solver|done|done].
    + intros u u' x x' Hx Hx'. apply toy_tables in Hx as [-> ->], Hx' as [-> ->]. done.
  - intros u x Hx. by apply toy_tables in Hx as [-> ->].
  - intros f r Hr. by apply toy_files in Hr as [-> ->].
Qed.

Lemma toy_room n : n < 1000000 -> room n toy_state.
Proof. intros Hn f r Hr. apply toy_files in Hr as [-> ->]. cbn. lia. Qed.

(** The state after descriptor 1 is closed. *)
Definition toy_closed : vstate toy :=
  match run_fd (fd_close 2 1) toy_state with Some (_, s) => s | None => toy_state end.

Lemma toy_reach : fd_reachable toy_state toy_closed.
Proof.
  apply (fdr_call _ toy_state _ (fd_close 2 1) 0); [constructor|apply toy_room; lia|by eexists|].
  vm_compute. reflexivity.
Qed.

Lemma fd_counts_exact_witness :
  (exists x s2, run_fd (fd_close 2 0) toy_closed = Some (x, s2)) /\ unlocked toy_closed.
Proof.
  destruct (fd_counts_exact toy_state toy_closed toy_settled toy_reach) as (Hrun & Hc & _ & Hu).
  split; [|exact Hu]. apply (Hrun (fd_close 2 0)); [|by eexists].
  intros f r Hr. rewrite (Hc f r Hr). destruct (decide (f = 4)) as [->|Hf]; [by vm_compute|].
  exfalso. vm_compute in Hr. apply Hf. destruct f as [|[p|p|]|]; try discriminate Hr.
  all: repeat (destruct p as [p|p|]; try discriminate Hr); reflexivity.
Defined.

Lemma fd_close_correct_witness :
  exists s' r, ns_vfs_close 2 1 toy_state = Some (0, s') /\ references r = 2 /\
    files s' !! 4 = Some (r <| references := 1 |>).
Proof.
  destruct (fd_close_correct toy_state 2 toy_table 1 (mk_entry 4 true) toy_settled eq_refl eq_refl)
    as (s' & r & Hrun & _ & _ & Hf & Hf' & _ & _).
  apply toy_files in Hf as [_ ->]. exists s', toy_file. split_and!; [exact Hrun|reflexivity|exact Hf'].
Defined.

Lemma fd_dup_lowest_witness :
  exists x s', ns_vfs_dup 2 1 0 false toy_state = Some (x, s') /\ settled s' /\
    ((x = - NS_EMFILE /\ full_from toy_table 0 /\ tables s' = tables toy_state /\ files s' = files toy_state) \/
     (lowest_free toy_table 0 x /\
      tables s' = <[2 := set_fd toy_table x (mk_entry 4 false)]> (tables toy_state))).
Proof.
  apply (fd_dup_lowest toy_state 2 toy_table 1 (mk_entry 4 true) 0 false).
  - apply toy_settled.
  - apply toy_room. lia.
  - reflexivity.
  - reflexivity.
  - cbn. lia.
  - intros r Hr. by apply toy_files in Hr as [_ ->].
Defined.

Lemma fd_dup2_correct_witness :
  exists s', ns_vfs_dup2 2 0 3 true toy_state = Some (3, s') /\ settled s' /\
    tables s' = <[2 := set_fd toy_table 3 (mk_entry 4 true)]> (tables toy_state) /\
    (forall f, f <> NULL -> is_Some (files s' !! f) <-> named s' f).
Proof.
  apply (fd_dup2_correct toy_state 2 toy_table 0 3 (mk_entry 4 false) true).
  - apply toy_settled.
  - apply toy_room. lia.
  - reflexivity.
  - reflexivity.
  - cbn. lia.
  - discriminate.
Defined.

Lemma fd_clone_correct_witness :
  exists x copy s', ns_vfs_fdtable_clone 2 true toy_state = Some ((x, copy), s') /\ settled s'.
Proof.
  destruct (fd_clone_correct toy_state 2 toy_table true toy_settled (toy_room 65536 ltac:(lia)) eq_refl)
    as (x & copy & s' & Hrun & Hs & _). by exists x, copy, s'.
Defined.

Lemma fd_read_correct_witness :
  exists x bytes off s', ns_vfs_read 2 0 77 16 toy_state = Some ((x, bytes), s') /\ x <= 16 /\
    (x < 0 -> off = 10) /\ files s' !! 4 = Some (toy_file <| offset := off |>).
Proof.
  destruct (fd_read_correct toy_state 2 toy_table 0 (mk_entry 4 false) toy_file 77 16)
    as (x & bytes & off & s' & Hrun & _ & _ & Hfs & Hx & Hoff & _).
  - apply toy_settled.
  - apply toy_room. lia.
  - reflexivity.
  - reflexivity.
  - reflexivity.
  - reflexivity.
  - discriminate.
  - lia.
  - intros f r Hr. apply toy_files in Hr as [_ ->]. cbn. lia.
  - exists x, bytes, off, s'. split_and!; [exact Hrun|exact Hx|exact Hoff|]. rewrite Hfs. apply lookup_insert_eq.
Defined.

Lemma fd_install_overruns_witness : ns_vfs_fd_install 2 4 5 false toy_state = None.
Proof.
  apply (fd_install_overruns toy_state 2 toy_table 4 toy_file 5 false).
  - apply toy_settled.
  - apply toy_room. lia.
  - reflexivity.
  - reflexivity.
  - reflexivity.
  - cbn. lia.
Defined.
End Toy.
