(* ===== verification/Pipe.v ===== *)
(** * Pipes (kernel/proc/pipe.c)

    A pipe is a ring buffer with a reading and a writing endpoint.  A call that
    cannot proceed blocks: it announces itself to the scheduler while it holds
    the pipe's lock, lets go of the lock and gives up the processor.  The code
    between two such points runs under the lock, so a call is modelled as the
    sequence of its critical sections: [pipe_read], [pipe_write] and
    [pipe_close] start one, giving a frame, and [resume] runs the code up to the
    next point where another thread may get in.

    Pipes, endpoints and buffers live in maps from addresses; what the runtime
    callbacks act on is a world [W]. *)

From S2P Require Import Prelude Errno Sched Fd.

(** ** Data *)

Abbreviation NS_PIPE_DEFAULT_CAPACITY := 4096 (only parsing).
Definition NS_PIPE_ATOMIC_MAX : Z := 512.

Record ns_pipe_runtime (W : Type) := mk_runtime {
  rt_vfs : Z;
  rt_allocate : option (Z -> Z -> M W Z);
  rt_deallocate : option (Z -> Z -> Z -> M W unit);
  rt_lock : option (M W Z);
  rt_unlock : option (Z -> M W unit);
  rt_prepare_block : option (ns_wait_kind -> Z -> M W unit);
  rt_commit_block : option (M W unit);
  rt_wake : option (ns_wait_kind -> Z -> Z -> M W Z);
  rt_capacity : Z }.
Arguments mk_runtime {W}. Arguments rt_vfs {W}. Arguments rt_allocate {W}.
Arguments rt_deallocate {W}. Arguments rt_lock {W}. Arguments rt_unlock {W}.
Arguments rt_prepare_block {W}. Arguments rt_commit_block {W}. Arguments rt_wake {W}.
Arguments rt_capacity {W}.

Record ns_pipe (W : Type) := mk_pipe {
  runtime : ns_pipe_runtime W; buffer : Z; capacity : Z; head : Z; used : Z; readers : Z;
  writers : Z }.
Arguments mk_pipe {W}. Arguments runtime {W}. Arguments buffer {W}. Arguments capacity {W}.
Arguments head {W}. Arguments used {W}. Arguments readers {W}. Arguments writers {W}.
Definition eta_pipe {W} (p : ns_pipe W) : ns_pipe W :=
  mk_pipe (runtime p) (buffer p) (capacity p) (head p) (used p) (readers p) (writers p).
#[export] Instance set_head {W} : Setter (@head W).
Proof. mk_setter1 (@eta_pipe) (@head W). Defined.
#[export] Instance set_used {W} : Setter (@used W).
Proof. mk_setter1 (@eta_pipe) (@used W). Defined.
#[export] Instance set_readers {W} : Setter (@readers W).
Proof. mk_setter1 (@eta_pipe) (@readers W). Defined.
#[export] Instance set_writers {W} : Setter (@writers W).
Proof. mk_setter1 (@eta_pipe) (@writers W). Defined.

Record ns_pipe_endpoint := mk_endpoint { pipe : Z; writable : Z }.

(** A byte of a buffer that was never written is [None]. *)
Record pstate (W : Type) := mk_pstate {
  pipes : gmap Z (ns_pipe W); endpoints : gmap Z ns_pipe_endpoint;
  buffers : gmap Z (list (option Z)); sys : W }.
Arguments mk_pstate {W}. Arguments pipes {W}. Arguments endpoints {W}.
Arguments buffers {W}. Arguments sys {W}.
Definition eta_pstate {W} (s : pstate W) : pstate W :=
  mk_pstate (pipes s) (endpoints s) (buffers s) (sys s).
#[export] Instance set_pipes {W} : Setter (@pipes W).
Proof. mk_setter1 (@eta_pstate) (@pipes W). Defined.
#[export] Instance set_endpoints {W} : Setter (@endpoints W).
Proof. mk_setter1 (@eta_pstate) (@endpoints W). Defined.
#[export] Instance set_buffers {W} : Setter (@buffers W).
Proof. mk_setter1 (@eta_pstate) (@buffers W). Defined.
#[export] Instance set_sys {W} : Setter (@sys W).
Proof. mk_setter1 (@eta_pstate) (@sys W). Defined.

(** A call in progress, between two critical sections.  [ep] is the endpoint,
    [p] its pipe. *)
Inductive frame (W : Type) :=
  | rd_loop (ep p count : Z)
  | rd_commit (ep p count : Z)
  | rd_wake (ep p : Z) (out : list Z)
  | wr_loop (ep p : Z) (input : list Z) (count written : Z)
  | wr_relock (ep p : Z) (input : list Z) (count written : Z)
  | wr_commit (ep p : Z) (input : list Z) (count written : Z)
  | wr_wake (ep p : Z) (input : list Z) (count written : Z)
  | cl_wake (ep p : Z) (rt : ns_pipe_runtime W) (release : bool)
  | cl_free (ep p : Z) (rt : ns_pipe_runtime W) (release : bool)
  | returned (v : Z) (out : list Z).
Arguments rd_loop {W}. Arguments rd_commit {W}. Arguments rd_wake {W}. Arguments wr_loop {W}.
Arguments wr_relock {W}. Arguments wr_commit {W}. Arguments wr_wake {W}. Arguments cl_wake {W}.
Arguments cl_free {W}. Arguments returned {W}.

(** ** Operations *)

Section operations.
Context {W : Type}.
Abbreviation P := (M (pstate W)).
Implicit Types (p ep count : Z).

Definition pipe_lock p : P Z :=
  rt ← load pipes p runtime;
  match rt_lock rt with Some f => zoom sys f | None => mret 0 end.

Definition pipe_unlock p (token : Z) : P unit :=
  rt ← load pipes p runtime;
  match rt_unlock rt with Some f => zoom sys (f token) | None => mret tt end.

Definition pipe_wake p (kind : ns_wait_kind) (maximum : Z) : P unit :=
  rt ← load pipes p runtime;
  match rt_wake rt with Some f => zoom sys (f kind p maximum);; mret tt | None => mret tt end.

(** [runtime.deallocate(...)]; the objects of one type go from their map. *)
Definition release_block (rt : ns_pipe_runtime W) (pointer sz alignment : Z) : P unit :=
  match rt_deallocate rt with Some f => zoom sys (f pointer sz alignment) | None => stuck end.
Definition free_from {R} (m : pstate W -> gmap Z R) `{!Setter m} (a : Z) : P unit :=
  _ ← load m a id; modify (fun s => s <| m := delete a (m s) |>).

Definition sizeof_pipe : Z := 80 + 8 + 8 + 8 + 8 + 4 + 4.
Definition alignof_pipe : Z := 8.
Definition sizeof_endpoint : Z := 16.
Definition alignof_endpoint : Z := 8.

Definition pipe_free p : P unit :=
  rt ← load pipes p runtime;
  b ← load pipes p buffer;
  cap ← load pipes p capacity;
  free_from buffers b;;
  release_block rt b cap 1;;
  free_from pipes p;;
  release_block rt p sizeof_pipe alignof_pipe.

(** The copy loops.  [copy_out] reads [n] bytes from ring position
    [hd + index] on, [copy_in] writes [n] bytes of [input] from [written + index]
    on to ring position [hd + us + index] on. *)
Fixpoint copy_out (bytes : list (option Z)) (cap hd : Z) (n : nat) (index : Z) : option (list Z) :=
  match n with
  | O => Some []
  | S n' =>
    b ← rd bytes (u64 (hd + index) mod cap);
    b ← (b : option Z);
    l ← copy_out bytes cap hd n' (index + 1);
    Some (b :: l)
  end.

Fixpoint copy_in (bytes : list (option Z)) (cap hd us : Z) (input : list Z) (written : Z) (n : nat)
    (index : Z) : option (list (option Z)) :=
  match n with
  | O => Some bytes
  | S n' =>
    b ← rd input (u64 (written + index));
    bytes ← wr bytes (u64 (u64 (hd + us) + index) mod cap) (Some b);
    copy_in bytes cap hd us input written n' (index + 1)
  end.

(** Both blocking callbacks are there. *)
Definition can_block (rt : ns_pipe_runtime W) : bool :=
  match rt_prepare_block rt, rt_commit_block rt with Some _, Some _ => true | _, _ => false end.

Definition call_prepare p (kind : ns_wait_kind) : P unit :=
  rt ← load pipes p runtime;
  match rt_prepare_block rt with Some f => zoom sys (f kind p) | None => stuck end.
Definition call_commit p : P unit :=
  rt ← load pipes p runtime;
  match rt_commit_block rt with Some f => zoom sys f | None => stuck end.

(** [dest] is the destination, used here for the null check only; the bytes
    read come with the result. *)
Definition pipe_read ep (dest : Z) count : P (frame W) :=
  if ep =? NULL then mret (returned (- NS_EBADF) [])
  else
    w ← load endpoints ep writable;
    if negb (w =? 0) || (dest =? NULL) then mret (returned (- NS_EBADF) [])
    else if count =? 0 then mret (returned 0 [])
    else
      p ← load endpoints ep pipe;
      mret (rd_loop ep p count).

(** One round of the loop of [pipe_read] and, when there is data, the copy. *)
Definition read_section ep p count : P (frame W) :=
  token ← pipe_lock p;
  us ← load pipes p used;
  if negb (us =? 0) then
    us ← load pipes p used;
    cap ← load pipes p capacity;
    hd ← load pipes p head;
    b ← load pipes p buffer;
    bytes ← load buffers b id;
    let copied := if count <? us then count else us in
    match copy_out bytes cap hd (Z.to_nat copied) 0 with
    | None => stuck
    | Some out =>
      store pipes p head (u64 (hd + copied) mod cap);;
      store pipes p used (u64 (us - copied));;
      pipe_unlock p token;;
      mret (rd_wake ep p out)
    end
  else
    ws ← load pipes p writers;
    if ws =? 0 then
      pipe_unlock p token;;
      mret (returned 0 [])
    else
      rt ← load pipes p runtime;
      if negb (can_block rt) then
        pipe_unlock p token;;
        mret (returned (- NS_EAGAIN) [])
      else
        call_prepare p NS_WAIT_PIPE_READ;;
        pipe_unlock p token;;
        mret (rd_commit ep p count).

Definition pipe_write ep (src : Z) (input : list Z) count : P (frame W) :=
  if ep =? NULL then mret (returned (- NS_EBADF) [])
  else
    w ← load endpoints ep writable;
    if (w =? 0) || (src =? NULL) then mret (returned (- NS_EBADF) [])
    else if count =? 0 then mret (returned 0 [])
    else
      p ← load endpoints ep pipe;
      mret (wr_loop ep p input count 0).

(** One round of the loop of [pipe_write], from taking the lock to the next
    point without it. *)
Definition write_section ep p (input : list Z) count (written : Z) : P (frame W) :=
  token ← pipe_lock p;
  rs ← load pipes p readers;
  if rs =? 0 then
    pipe_unlock p token;;
    mret (returned (if negb (written =? 0) then s64 written else - NS_EPIPE) [])
  else
    cap ← load pipes p capacity;
    us ← load pipes p used;
    let available := u64 (cap - us) in
    if (count <=? NS_PIPE_ATOMIC_MAX) && (available <? count) then
      rt ← load pipes p runtime;
      if negb (can_block rt) then
        pipe_unlock p token;;
        mret (returned (- NS_EAGAIN) [])
      else
        call_prepare p NS_WAIT_PIPE_WRITE;;
        pipe_unlock p token;;
        mret (wr_commit ep p input count written)
    else if available =? 0 then
      pipe_unlock p token;;
      if negb (written =? 0) then mret (returned (s64 written) [])
      else
        rt ← load pipes p runtime;
        if negb (can_block rt) then mret (returned (- NS_EAGAIN) [])
        else mret (wr_relock ep p input count written)
    else
      let chunk := u64 (count - written) in
      let chunk := if available <? chunk then available else chunk in
      hd ← load pipes p head;
      b ← load pipes p buffer;
      bytes ← load buffers b id;
      match copy_in bytes cap hd us input written (Z.to_nat chunk) 0 with
      | None => stuck
      | Some bytes' =>
        modify (fun s => s <| buffers := <[b := bytes']> (buffers s) |>);;
        store pipes p used (u64 (us + chunk));;
        pipe_unlock p token;;
        mret (wr_wake ep p input count (u64 (written + chunk)))
      end.

(** The second look at a full pipe before blocking. *)
Definition relock_section ep p (input : list Z) count (written : Z) : P (frame W) :=
  token ← pipe_lock p;
  cap ← load pipes p capacity;
  us ← load pipes p used;
  if negb (cap =? us) then
    pipe_unlock p token;;
    mret (wr_loop ep p input count written)
  else
    call_prepare p NS_WAIT_PIPE_WRITE;;
    pipe_unlock p token;;
    mret (wr_commit ep p input count written).

Definition pipe_stat ep (result : Z) : P (Z * option ns_vfs_node_info) :=
  if (ep =? NULL) || (result =? NULL) then mret (- NS_EINVAL, None)
  else
    p ← load endpoints ep pipe;
    token ← pipe_lock p;
    us ← load pipes p used;
    w ← load endpoints ep writable;
    pipe_unlock p token;;
    mret (0, Some (mk_info p us 0 0 (if negb (w =? 0) then 128 else 256) NS_FT_PIPE)).

(** The critical section of [pipe_close]. *)
Definition pipe_close ep : P (frame W) :=
  if ep =? NULL then mret (returned 0 [])
  else
    p ← load endpoints ep pipe;
    rt ← load pipes p runtime;
    token ← pipe_lock p;
    w ← load endpoints ep writable;
    (if negb (w =? 0) then
       ws ← load pipes p writers;
       when (negb (ws =? 0)) (store pipes p writers (u32 (ws - 1)))
     else
       rs ← load pipes p readers;
       when (negb (rs =? 0)) (store pipes p readers (u32 (rs - 1))));;
    rs ← load pipes p readers;
    ws ← load pipes p writers;
    pipe_unlock p token;;
    mret (cl_wake ep p rt ((rs =? 0) && (ws =? 0))).

(** What a read does after its critical section. *)
Definition read_return p (out : list Z) : P (frame W) :=
  pipe_wake p NS_WAIT_PIPE_WRITE SIZE_MAX;;
  mret (returned (s64 (Z.of_nat (length out))) out).

(** The head of the loop of a write, and the end of its body. *)
Definition write_turn ep p (input : list Z) count (written : Z) : P (frame W) :=
  if written <? count then write_section ep p input count written
  else mret (returned (s64 written) []).
Definition write_wake ep p (input : list Z) count (written : Z) : P (frame W) :=
  pipe_wake p NS_WAIT_PIPE_READ SIZE_MAX;;
  mret (wr_loop ep p input count written).

(** What a close does after its critical section. *)
Definition close_wake ep p (rt : ns_pipe_runtime W) (release : bool) : P (frame W) :=
  w ← load endpoints ep writable;
  pipe_wake p (if negb (w =? 0) then NS_WAIT_PIPE_READ else NS_WAIT_PIPE_WRITE) SIZE_MAX;;
  mret (cl_free ep p rt release).
Definition close_free ep p (rt : ns_pipe_runtime W) (release : bool) : P (frame W) :=
  free_from endpoints ep;;
  release_block rt ep sizeof_endpoint alignof_endpoint;;
  when release (pipe_free p);;
  mret (returned 0 []).

(** The code of a call up to the next point where another thread may run. *)
Definition resume (f : frame W) : P (frame W) :=
  match f with
  | rd_loop ep p count => read_section ep p count
  | rd_commit ep p count => call_commit p;; mret (rd_loop ep p count)
  | rd_wake ep p out => read_return p out
  | wr_loop ep p input count written => write_turn ep p input count written
  | wr_relock ep p input count written => relock_section ep p input count written
  | wr_commit ep p input count written => call_commit p;; mret (wr_loop ep p input count written)
  | wr_wake ep p input count written => write_wake ep p input count written
  | cl_wake ep p rt release => close_wake ep p rt release
  | cl_free ep p rt release => close_free ep p rt release
  | returned v out => mret (returned v out)
  end.
End operations.
