(* ===== verification/PipeProps.v ===== *)
(** * Reasoning about pipes

    The ring buffer as a queue of bytes, what the pipe code relies on from the
    scheduler, and the machine in which calls on the two ends of a pipe are
    interleaved. *)

From S2P Require Import Prelude Errno Sched Fd Pipe.

(** ** The ring buffer *)

(** The ring holds the bytes [l] from position [hd] on. *)
Definition holds (bytes : list (option Z)) (cap hd : Z) (l : list Z) : Prop :=
  forall i x, l !! i = Some x -> bytes !! Z.to_nat ((hd + Z.of_nat i) mod cap) = Some (Some x).

Lemma mod_index cap x : 0 < cap -> (Z.to_nat (x mod cap) < Z.to_nat cap)%nat.
Proof. intros Hc. pose proof (Z.mod_pos_bound x cap Hc). lia. Qed.

Lemma holds_drop bytes cap hd l n :
  0 < cap -> (n <= length l)%nat -> holds bytes cap hd l ->
  holds bytes cap ((hd + Z.of_nat n) mod cap) (drop n l).
Proof.
  intros Hc Hn Hh i x Hx. rewrite lookup_drop in Hx. specialize (Hh _ _ Hx).
  rewrite Z.add_mod_idemp_l by lia. rewrite <- Hh. do 2 f_equal. f_equal. lia.
Qed.

Lemma copy_out_spec bytes cap hd l n index :
  0 < cap < 2 ^ 62 -> 0 <= hd < cap -> 0 <= index -> Z.of_nat (length l) <= cap ->
  index + Z.of_nat n <= Z.of_nat (length l) -> holds bytes cap hd l ->
  copy_out bytes cap hd n index = Some (take n (drop (Z.to_nat index) l)).
Proof.
  intros Hc Hhd. revert index. induction n as [|n IH]; intros index Hi Hl Hn Hh; cbn [copy_out]; [done|].
  destruct (lookup_lt_is_Some_2 l (Z.to_nat index) ltac:(lia)) as [x Hx].
  rewrite u64_small by lia. pose proof (Hh _ _ Hx) as Hb. rewrite Z2Nat.id in Hb by lia.
  assert (Hrd : rd bytes ((hd + index) mod cap) = Some (Some x)).
  { apply rd_lookup. split; [apply Z.mod_pos_bound; lia|done]. }
  rewrite Hrd. cbn. rewrite IH by (done || lia). cbn.
  rewrite (drop_S l x (Z.to_nat index)) by done. cbn. do 3 f_equal. f_equal. lia.
Qed.

Lemma holds_snoc bytes cap hd l x :
  0 < cap -> Z.of_nat (length bytes) = cap -> Z.of_nat (length l) < cap -> holds bytes cap hd l ->
  holds (<[Z.to_nat ((hd + Z.of_nat (length l)) mod cap) := Some x]> bytes) cap hd (l ++ [x]).
Proof.
  intros Hc Hb Hl Hh i y Hy. apply lookup_app_Some in Hy as [Hy|[Hge Hy]].
  - pose proof (lookup_lt_Some _ _ _ Hy). rewrite list_lookup_insert_ne; [by apply Hh|].
    intros E. assert (Z.of_nat i = Z.of_nat (length l)); [|lia].
    apply (mod_inj cap hd); [done|lia..|]. pose proof (Z.mod_pos_bound (hd + Z.of_nat i) cap Hc).
    pose proof (Z.mod_pos_bound (hd + Z.of_nat (length l)) cap Hc). lia.
  - apply list_lookup_singleton_Some in Hy as [Hi ->]. replace i with (length l) by lia.
    apply list_lookup_insert_eq. pose proof (mod_index cap (hd + Z.of_nat (length l)) Hc). lia.
Qed.

Lemma copy_in_spec bytes cap hd us input written l0 n index :
  0 < cap < 2 ^ 62 -> 0 <= hd < cap -> us = Z.of_nat (length l0) -> 0 <= index ->
  0 <= written -> Z.of_nat (length bytes) = cap ->
  us + index + Z.of_nat n <= cap ->
  written + index + Z.of_nat n <= Z.of_nat (length input) < 2 ^ 63 ->
  holds bytes cap hd (l0 ++ take (Z.to_nat index) (drop (Z.to_nat written) input)) ->
  exists bytes', copy_in bytes cap hd us input written n index = Some bytes' /\
    length bytes' = length bytes /\
    holds bytes' cap hd (l0 ++ take (Z.to_nat index + n) (drop (Z.to_nat written) input)).
Proof.
  intros Hc Hhd Hus. revert bytes index.
  induction n as [|n IH]; intros bytes index Hi Hw Hb Hroom Hin Hh; cbn [copy_in].
  - exists bytes. rewrite Nat.add_0_r. by split_and!.
  - rewrite !u64_small by (rewrite ?u64_small by lia; lia).
    destruct (rd_Some input (written + index) ltac:(lia)) as [x Hx]. rewrite Hx. cbn.
    pose proof (Z.mod_pos_bound (hd + us + index) cap ltac:(lia)).
    rewrite wr_Some by lia. cbn. apply rd_lookup in Hx as [_ Hx].
    set (d := drop (Z.to_nat written) input) in *.
    assert (Hd : d !! Z.to_nat index = Some x).
    { unfold d. rewrite lookup_drop, <- Hx. f_equal. lia. }
    assert (Hlen : Z.of_nat (length (l0 ++ take (Z.to_nat index) d)) = us + index).
    { rewrite length_app, length_take. pose proof (lookup_lt_Some _ _ _ Hd). lia. }
    destruct (IH (<[Z.to_nat ((hd + us + index) mod cap) := Some x]> bytes) (index + 1)) as (b' & E & Hl' & Hh');
      try lia; [by rewrite length_insert| |].
    + replace (Z.to_nat (index + 1)) with (S (Z.to_nat index)) by lia.
      rewrite (take_S_r _ _ x), app_assoc by done.
      replace (hd + us + index) with (hd + Z.of_nat (length (l0 ++ take (Z.to_nat index) d))) by lia.
      apply holds_snoc; [lia|done|lia|done].
    + exists b'. rewrite length_insert in Hl'. split_and!; [done..|].
      replace (Z.to_nat index + S n)%nat with (Z.to_nat (index + 1) + n)%nat by lia. done.
Qed.

(** ** What pipes rely on

    The promise of the scheduler to the code that blocks: which thread runs,
    which threads wait in a pipe, and how the four callbacks change this.
    [pw_current] is [NULL] while no thread that may block runs; [pw_other] is
    what the rest of the system can do between two steps of pipe code. *)
Class PipeWorld (W : Type) := {
  pw_ok : W -> Prop;
  pw_current : W -> Z;
  pw_waits : W -> Z -> option (ns_wait_kind * Z);
  pw_other : W -> W -> Prop;
  pw_other_ok w w' : pw_other w w' -> pw_ok w -> pw_ok w' /\
    (forall t, pw_waits w' t = pw_waits w t) /\
    (pw_current w' = pw_current w \/ pw_waits w' (pw_current w') = None) }.

Section world.
Context {W : Type} `{!PipeWorld W}.

Definition pw_same (w w' : W) : Prop :=
  pw_ok w' /\ pw_current w' = pw_current w /\ forall t, pw_waits w' t = pw_waits w t.

Definition pipe_wait (k : ns_wait_kind) : Prop := k = NS_WAIT_PIPE_READ \/ k = NS_WAIT_PIPE_WRITE.

Record runtime_ok (rt : ns_pipe_runtime W) : Prop := {
  ro_lock f w : rt_lock rt = Some f -> pw_ok w -> wp f (fun _ w' => pw_same w w') w;
  ro_unlock f token w : rt_unlock rt = Some f -> pw_ok w -> wp (f token) (fun _ w' => pw_same w w') w;
  ro_prepare f k q w : rt_prepare_block rt = Some f -> pw_ok w -> pipe_wait k ->
    pw_current w <> NULL -> pw_waits w (pw_current w) = None ->
    wp (f k q) (fun _ w' => pw_ok w' /\ pw_current w' = pw_current w /\
      forall t, pw_waits w' t = if t =? pw_current w then Some (k, q) else pw_waits w t) w;
  ro_commit f w : rt_commit_block rt = Some f -> pw_ok w -> pw_current w <> NULL ->
    wp f (fun _ w' => pw_ok w' /\ (forall t, pw_waits w' t = pw_waits w t) /\
      pw_waits w' (pw_current w') = None) w;
  ro_wake : exists f, rt_wake rt = Some f /\ forall k q w, pw_ok w -> pipe_wait k ->
    wp (f k q SIZE_MAX) (fun _ w' => pw_ok w' /\ pw_current w' = pw_current w /\
      forall t, pw_waits w' t = if decide (pw_waits w t = Some (k, q)) then None else pw_waits w t) w;
  ro_deallocate : exists f, rt_deallocate rt = Some f /\ forall p sz al w, pw_ok w ->
    wp (f p sz al) (fun _ w' => pw_same w w') w }.

Lemma pw_same_refl w : pw_ok w -> pw_same w w.
Proof. by intros H. Qed.
Lemma pw_same_trans w1 w2 w3 : pw_same w1 w2 -> pw_same w2 w3 -> pw_same w1 w3.
Proof.
  intros (? & Hc & Hw) (? & Hc' & Hw'). split_and!; [done|by rewrite Hc'|]. intros t. by rewrite Hw'.
Qed.
End world.

(** ** The machine *)

Section machine.
Context {W : Type} `{!PipeWorld W}.
(** The reading endpoint, the writing endpoint, the pipe, its buffer and its
    runtime. *)
Context (R Wr P B : Z) (RT : ns_pipe_runtime W).

(** Threads with their calls, the open ends, and the bytes that went in and
    came out so far. *)
Record machine := mk_machine {
  mem : pstate W; calls : gmap Z (frame W); r_open : bool; w_open : bool;
  sent : list Z; received : list Z }.

Definition over (f : frame W) : bool := match f with returned _ _ => true | _ => false end.
(** Windows that only hold when nothing comes in between: a close from its
    critical section to its end, and a writer between its two looks at a full
    pipe. *)
Definition fragile (f : frame W) : bool :=
  match f with wr_relock _ _ _ _ _ | cl_wake _ _ _ _ | cl_free _ _ _ _ => true | _ => false end.
Definition closing (f : frame W) : bool :=
  match f with cl_wake _ _ _ _ | cl_free _ _ _ _ => true | _ => false end.
(** The endpoint a call in progress works on. *)
Definition end_of (f : frame W) : option Z :=
  match f with
  | rd_loop ep _ _ | rd_commit ep _ _ | rd_wake ep _ _ | wr_loop ep _ _ _ _
  | wr_relock ep _ _ _ _ | wr_commit ep _ _ _ _ | wr_wake ep _ _ _ _
  | cl_wake ep _ _ _ | cl_free ep _ _ _ => Some ep
  | returned _ _ => None
  end.

(** Bytes that a step from [f] to [f'] puts into the pipe, and takes out. *)
Definition emitted (f f' : frame W) : list Z :=
  match f, f' with
  | wr_loop _ _ input _ a, wr_wake _ _ _ _ b => take (Z.to_nat (b - a)) (drop (Z.to_nat a) input)
  | _, _ => []
  end.
Definition absorbed (f f' : frame W) : list Z :=
  match f, f' with rd_loop _ _ _, rd_wake _ _ out => out | _, _ => [] end.

(** Thread [t] is running; in a guarded machine, no other thread is in a fragile
    window. *)
Definition runs (guarded : bool) (s : machine) (t : Z) : Prop :=
  t <> NULL /\ pw_current (sys (mem s)) = t /\
  (guarded = true -> forall t' f, calls s !! t' = Some f -> fragile f = true -> t' = t).

(** What [t] is doing; a call that is over is as good as none. *)
Definition doing (s : machine) (t : Z) : frame W := default (returned 0 []) (calls s !! t).

(** [t] has no call in progress. *)
Definition free_thread (s : machine) (t : Z) : Prop :=
  forall f, calls s !! t = Some f -> over f = true.
(** No call on [ep] is in progress. *)
Definition idle (ep : Z) (cs : gmap Z (frame W)) : Prop :=
  forall t f, cs !! t = Some f -> end_of f <> Some ep.

(** Calls on an end start while it is open; an end is closed once, when no call
    on it is in progress: this is what the reference counts of open files give. *)
Inductive step (guarded : bool) (s : machine) : machine -> Prop :=
  | st_read t dest count f m :
      runs guarded s t -> free_thread s t -> r_open s = true -> 0 <= count < 2 ^ 63 ->
      pipe_read R dest count (mem s) = Some (f, m) ->
      step guarded s (mk_machine m (<[t := f]> (calls s)) (r_open s) (w_open s) (sent s) (received s))
  | st_write t src input f m :
      runs guarded s t -> free_thread s t -> w_open s = true -> Z.of_nat (length input) < 2 ^ 63 ->
      pipe_write Wr src input (Z.of_nat (length input)) (mem s) = Some (f, m) ->
      step guarded s (mk_machine m (<[t := f]> (calls s)) (r_open s) (w_open s) (sent s) (received s))
  | st_close_read t f m :
      runs guarded s t -> free_thread s t -> r_open s = true -> idle R (calls s) ->
      pipe_close R (mem s) = Some (f, m) ->
      step guarded s (mk_machine m (<[t := f]> (calls s)) false (w_open s) (sent s) (received s))
  | st_close_write t f m :
      runs guarded s t -> free_thread s t -> w_open s = true -> idle Wr (calls s) ->
      pipe_close Wr (mem s) = Some (f, m) ->
      step guarded s (mk_machine m (<[t := f]> (calls s)) (r_open s) false (sent s) (received s))
  | st_resume t f f' m :
      runs guarded s t -> calls s !! t = Some f -> over f = false ->
      resume f (mem s) = Some (f', m) ->
      step guarded s (mk_machine m (<[t := f']> (calls s)) (r_open s) (w_open s)
        (sent s ++ emitted f f') (received s ++ absorbed f f'))
  | st_other w :
      pw_other (sys (mem s)) w ->
      step guarded s (mk_machine ((mem s) <| sys := w |>) (calls s) (r_open s) (w_open s)
        (sent s) (received s)).

(** ** The invariant *)

Definition frame_ok (f : frame W) : Prop :=
  match f with
  | rd_loop ep p count => ep = R /\ p = P /\ 0 < count < 2 ^ 63
  | rd_commit ep p count => ep = R /\ p = P /\ 0 < count < 2 ^ 63 /\ can_block RT = true
  | rd_wake ep p out => ep = R /\ p = P /\ 0 < Z.of_nat (length out) < 2 ^ 63
  | wr_loop ep p input count written => ep = Wr /\ p = P /\ count = Z.of_nat (length input) /\
      0 <= written <= count /\ count < 2 ^ 63 /\ (count <= NS_PIPE_ATOMIC_MAX -> written = 0 \/ written = count)
  | wr_relock ep p input count written | wr_commit ep p input count written =>
      ep = Wr /\ p = P /\ count = Z.of_nat (length input) /\ 0 < count < 2 ^ 63 /\ written = 0 /\
      can_block RT = true
  | wr_wake ep p input count written => ep = Wr /\ p = P /\ count = Z.of_nat (length input) /\
      0 < written <= count /\ count < 2 ^ 63 /\ (count <= NS_PIPE_ATOMIC_MAX -> written = count)
  | cl_wake ep p rt release | cl_free ep p rt release => (ep = R \/ ep = Wr) /\ p = P /\ rt = RT
  | returned _ _ => True
  end.

(** The pipe object [x] with its buffer holds the queue [l]. *)
Record pipe_ok (m : pstate W) (x : ns_pipe W) (l : list Z) : Prop := {
  pk_runtime : runtime_ok (runtime x);
  pk_capacity : NS_PIPE_ATOMIC_MAX <= capacity x < 2 ^ 62;
  pk_head : 0 <= head x < capacity x;
  pk_used : used x = Z.of_nat (length l);
  pk_fit : used x <= capacity x;
  pk_bytes : exists bytes, buffers m !! buffer x = Some bytes /\
    Z.of_nat (length bytes) = capacity x /\ holds bytes (capacity x) (head x) l }.

(** A call that is about to wake the threads waiting for [k]. *)
Definition will_wake (k : ns_wait_kind) (f : frame W) : Prop :=
  match f with
  | rd_wake _ _ _ => k = NS_WAIT_PIPE_WRITE
  | wr_wake _ _ _ _ _ => k = NS_WAIT_PIPE_READ
  | cl_wake ep _ _ _ => (ep = R /\ k = NS_WAIT_PIPE_WRITE) \/ (ep = Wr /\ k = NS_WAIT_PIPE_READ)
  | _ => False
  end.
Definition waker (f : frame W) : bool :=
  match f with rd_wake _ _ _ | wr_wake _ _ _ _ _ | cl_wake _ _ _ _ => true | _ => false end.
Lemma not_waker k f : waker f = false -> ~ will_wake k f.
Proof. destruct f; cbn; by intros Hw []. Qed.
Definition wake_pending (k : ns_wait_kind) (cs : gmap Z (frame W)) : Prop :=
  exists t f, cs !! t = Some f /\ will_wake k f.

(** A frame in which the call may be waiting, and for what. *)
Definition waiting_for (f : frame W) : option ns_wait_kind :=
  match f with
  | rd_loop _ _ _ | rd_commit _ _ _ => Some NS_WAIT_PIPE_READ
  | wr_loop _ _ _ _ _ | wr_commit _ _ _ _ _ => Some NS_WAIT_PIPE_WRITE
  | _ => None
  end.
Definition committing (f : frame W) : bool :=
  match f with rd_commit _ _ _ | wr_commit _ _ _ _ _ => true | _ => false end.

(** Why a waiting call has to wait. *)
Definition must_wait (ro wo : bool) (x : ns_pipe W) (f : frame W) : Prop :=
  match f with
  | rd_loop _ _ _ | rd_commit _ _ _ => used x = 0 /\ wo = true
  | wr_loop _ _ _ count written | wr_commit _ _ _ count written => written = 0 /\ ro = true /\
      if count <=? NS_PIPE_ATOMIC_MAX then capacity x - used x < count else used x = capacity x
  | _ => False
  end.

(** A call in progress has its end open, or is closing it. *)
Definition uses_ok (ro wo : bool) (es : gmap Z ns_pipe_endpoint) (f : frame W) : Prop :=
  match f with
  | rd_loop _ _ _ | rd_commit _ _ _ | rd_wake _ _ _ => ro = true
  | wr_relock _ _ _ c _ => wo = true /\ ro = true /\ NS_PIPE_ATOMIC_MAX < c
  | wr_loop _ _ _ _ _ | wr_commit _ _ _ _ _ | wr_wake _ _ _ _ _ => wo = true
  | cl_wake ep _ rt release | cl_free ep _ rt release =>
      release = negb ro && negb wo /\
      ((ep = R /\ ro = false /\ es !! R = Some (mk_endpoint P 0)) \/
       (ep = Wr /\ wo = false /\ es !! Wr = Some (mk_endpoint P 1)))
  | returned _ _ => True
  end.

Record pinv (s : machine) (x : ns_pipe W) (l : list Z) : Prop := {
  pi_ok : pw_ok (sys (mem s));
  pi_distinct : R <> Wr /\ R <> NULL /\ Wr <> NULL;
  pi_frames t f : calls s !! t = Some f ->
    t <> NULL /\ frame_ok f /\ uses_ok (r_open s) (w_open s) (endpoints (mem s)) f;
  pi_at : pipes (mem s) !! P = Some x;
  pi_pipe : pipe_ok (mem s) x l;
  pi_counts : readers x = (if r_open s then 1 else 0) /\ writers x = (if w_open s then 1 else 0);
  pi_reader : r_open s = true -> endpoints (mem s) !! R = Some (mk_endpoint P 0);
  pi_writer : w_open s = true -> endpoints (mem s) !! Wr = Some (mk_endpoint P 1);
  pi_fixed : buffer x = B /\ runtime x = RT;
  pi_gone : (r_open s = false -> idle R (calls s) -> endpoints (mem s) !! R = None) /\
    (w_open s = false -> idle Wr (calls s) -> endpoints (mem s) !! Wr = None);
  pi_closing : r_open s = false -> w_open s = false ->
    exists t f, calls s !! t = Some f /\ closing f = true;
  pi_fragile t t' f f' : calls s !! t = Some f -> calls s !! t' = Some f' ->
    fragile f = true -> fragile f' = true -> t = t';
  pi_waits t k : pw_waits (sys (mem s)) t = Some (k, P) ->
    exists f, calls s !! t = Some f /\ waiting_for f = Some k /\
      (must_wait (r_open s) (w_open s) x f \/ wake_pending k (calls s));
  pi_waits_here t f k q : calls s !! t = Some f -> pw_waits (sys (mem s)) t = Some (k, q) -> q = P;
  pi_current : pw_waits (sys (mem s)) (pw_current (sys (mem s))) <> None ->
    exists f, calls s !! pw_current (sys (mem s)) = Some f /\ committing f = true;
  pi_stream : sent s = received s ++ l }.

(** The part of the invariant a step of thread [t] has to re-establish: [w] and
    [w'] are the worlds, [x] and [x'] the pipe before and after. *)
Record moved (ro wo : bool) (cs : gmap Z (frame W)) (t : Z) (f f' : frame W) (w w' : W)
    (x x' : ns_pipe W) : Prop := {
  mv_ok : pw_ok w';
  mv_others t' k q : t' <> t -> pw_waits w' t' = Some (k, q) -> pw_waits w t' = Some (k, q);
  mv_must t' k g : t' <> t -> pw_waits w' t' = Some (k, P) -> waiting_for g = Some k ->
    must_wait ro wo x g -> must_wait ro wo x' g \/ will_wake k f';
  mv_woken t' k : t' <> t -> will_wake k f -> pw_waits w' t' = Some (k, P) -> will_wake k f';
  mv_self k q : pw_waits w' t = Some (k, q) -> q = P /\ waiting_for f' = Some k /\
    (must_wait ro wo x' f' \/ exists t' g, t' <> t /\ cs !! t' = Some g /\ will_wake k g);
  mv_current : pw_waits w' (pw_current w') <> None -> pw_current w' = t /\ committing f' = true }.

Lemma pinv_moved s x l t f' m' x' l' ro' wo' sent' received' :
  pinv s x l -> runs true s t ->
  moved ro' wo' (calls s) t (doing s t) f' (sys (mem s)) (sys m') x x' ->
  (forall t' g, t' <> t -> calls s !! t' = Some g -> uses_ok ro' wo' (endpoints m') g) ->
  (forall t' k g, t' <> t -> pw_waits (sys m') t' = Some (k, P) -> waiting_for g = Some k ->
     must_wait (r_open s) (w_open s) x g -> must_wait ro' wo' x g \/ will_wake k f') ->
  frame_ok f' -> uses_ok ro' wo' (endpoints m') f' ->
  pipes m' !! P = Some x' -> pipe_ok m' x' l' ->
  readers x' = (if ro' then 1 else 0) -> writers x' = (if wo' then 1 else 0) ->
  (ro' = true -> endpoints m' !! R = Some (mk_endpoint P 0)) ->
  (wo' = true -> endpoints m' !! Wr = Some (mk_endpoint P 1)) ->
  buffer x' = B /\ runtime x' = RT ->
  (ro' = false -> idle R (<[t := f']> (calls s)) -> endpoints m' !! R = None) ->
  (wo' = false -> idle Wr (<[t := f']> (calls s)) -> endpoints m' !! Wr = None) ->
  (ro' = false -> wo' = false -> closing f' = true) ->
  sent' = received' ++ l' ->
  pinv (mk_machine m' (<[t := f']> (calls s)) ro' wo' sent' received') x' l'.
Proof.
  intros Hi (Ht & _ & Hfrag) [] Huse Hmust Hfok Hfuse Hat Hpk Hr Hw HR HWr Hb HgR HgW Hclo Hst.
  specialize (Hfrag eq_refl).
  assert (Hpend : forall k t', t' <> t -> pw_waits (sys m') t' = Some (k, P) ->
    wake_pending k (calls s) -> wake_pending k (<[t := f']> (calls s))).
  { intros k t' Hne Hw' (u & g & Hu & Hg). destruct (decide (u = t)) as [->|Hut].
    - exists t, f'. rewrite lookup_insert_eq. split; [done|]. apply (mv_woken0 t' k); try done.
      unfold doing. by rewrite Hu.
    - exists u, g. by rewrite lookup_insert_ne. }
  constructor; cbn; try done.
  - apply Hi.
  - intros t' g. destruct (decide (t' = t)) as [->|Hne].
    + rewrite lookup_insert_eq. by intros [= <-].
    + rewrite lookup_insert_ne by done. intros Hg. destruct (pi_frames _ _ _ Hi t' g Hg) as (? & ? & _). eauto.
  - intros Hr0 Hw0. exists t, f'. rewrite lookup_insert_eq. auto.
  - intros t1 t2 g1 g2. destruct (decide (t1 = t)) as [->|H1], (decide (t2 = t)) as [->|H2];
      rewrite ?lookup_insert_eq, ?lookup_insert_ne by done; try done.
    + intros _ Hg2 _ Hfr. by rewrite (Hfrag t2 g2 Hg2 Hfr).
    + intros Hg1 _ Hfr _. by rewrite (Hfrag t1 g1 Hg1 Hfr).
    + intros Hg1 Hg2 Hf1 _. by destruct (H1 (Hfrag t1 g1 Hg1 Hf1)).
  - intros t' k Hw'. destruct (decide (t' = t)) as [->|Hne].
    + destruct (mv_self0 k P Hw') as (_ & Hwf & Hwhy). exists f'. rewrite lookup_insert_eq. split_and!; try done.
      destruct Hwhy as [?|(u & g & Hu & Hg & Hwk)]; [by left|right]. exists u, g. by rewrite lookup_insert_ne.
    + destruct (pi_waits _ _ _ Hi t' k (mv_others0 _ _ _ Hne Hw')) as (g & Hg & Hwf & Hwhy).
      exists g. rewrite lookup_insert_ne by done. split_and!; try done.
      destruct Hwhy as [Hm|Hp]; [|right; by eapply Hpend].
      destruct (Hmust t' k g Hne Hw' Hwf Hm) as [Hm'|Hwk].
      * destruct (mv_must0 t' k g Hne Hw' Hwf Hm') as [?|?]; [by left|right].
        exists t, f'. by rewrite lookup_insert_eq.
      * right. exists t, f'. by rewrite lookup_insert_eq.
  - intros t' g k q. destruct (decide (t' = t)) as [->|Hne].
    + intros _ Hw'. by apply mv_self0 in Hw' as [-> _].
    + rewrite lookup_insert_ne by done. intros Hg Hw'. eapply (pi_waits_here _ _ _ Hi); eauto.
  - intros Hw'. destruct (mv_current0 Hw') as [-> Hc]. exists f'. by rewrite lookup_insert_eq.
Qed.

(** ** Steps of the code *)

Lemma sys_sys (m : pstate W) w w' : m <| sys := w |> <| sys := w' |> = m <| sys := w' |>.
Proof. reflexivity. Qed.

Lemma wp_lock m p x Q :
  pipes m !! p = Some x -> runtime_ok (runtime x) -> pw_ok (sys m) ->
  (forall token w, pw_same (sys m) w -> Q token (m <| sys := w |>)) -> wp (pipe_lock p) Q m.
Proof.
  intros Hp Hr Hok HQ. unfold pipe_lock. msteps. destruct (rt_lock (runtime x)) as [f|] eqn:E.
  - apply wp_zoom. eapply wp_mono; [by eapply (ro_lock _ Hr)|]. auto.
  - msteps. replace m with (m <| sys := sys m |>) at 1 by (by destruct m). by apply HQ.
Qed.

Lemma wp_unlock m p x token Q :
  pipes m !! p = Some x -> runtime_ok (runtime x) -> pw_ok (sys m) ->
  (forall w, pw_same (sys m) w -> Q tt (m <| sys := w |>)) -> wp (pipe_unlock p token) Q m.
Proof.
  intros Hp Hr Hok HQ. unfold pipe_unlock. msteps. destruct (rt_unlock (runtime x)) as [f|] eqn:E.
  - apply wp_zoom. eapply wp_mono; [by eapply (ro_unlock _ Hr)|]. intros []. auto.
  - msteps. replace m with (m <| sys := sys m |>) at 1 by (by destruct m). by apply HQ.
Qed.

(** What announcing a wait and waking do to the world. *)
Definition announced (w w' : W) (k : ns_wait_kind) (q : Z) : Prop :=
  pw_ok w' /\ pw_current w' = pw_current w /\
  forall t, pw_waits w' t = if t =? pw_current w then Some (k, q) else pw_waits w t.
Definition woken (w w' : W) (k : ns_wait_kind) (q : Z) : Prop :=
  pw_ok w' /\ pw_current w' = pw_current w /\
  forall t, pw_waits w' t = if decide (pw_waits w t = Some (k, q)) then None else pw_waits w t.
Definition committed (w w' : W) : Prop :=
  pw_ok w' /\ (forall t, pw_waits w' t = pw_waits w t) /\ pw_waits w' (pw_current w') = None.

Lemma wp_prepare m p x k Q :
  pipes m !! p = Some x -> runtime_ok (runtime x) -> can_block (runtime x) = true -> pw_ok (sys m) ->
  pipe_wait k -> pw_current (sys m) <> NULL -> pw_waits (sys m) (pw_current (sys m)) = None ->
  (forall w, announced (sys m) w k p -> Q tt (m <| sys := w |>)) -> wp (call_prepare p k) Q m.
Proof.
  intros Hp Hr Hb Hok Hk Hc Hw HQ. unfold call_prepare, can_block in *. msteps.
  destruct (rt_prepare_block (runtime x)) as [f|] eqn:E; [|done].
  apply wp_zoom. eapply wp_mono; [by eapply (ro_prepare _ Hr)|]. intros []. auto.
Qed.

Lemma wp_commit m p x Q :
  pipes m !! p = Some x -> runtime_ok (runtime x) -> can_block (runtime x) = true -> pw_ok (sys m) ->
  pw_current (sys m) <> NULL ->
  (forall w, committed (sys m) w -> Q tt (m <| sys := w |>)) -> wp (call_commit p) Q m.
Proof.
  intros Hp Hr Hb Hok Hc HQ. unfold call_commit, can_block in *. msteps.
  destruct (rt_prepare_block (runtime x)); [|done]. destruct (rt_commit_block (runtime x)) as [f|] eqn:E; [|done].
  apply wp_zoom. eapply wp_mono; [by eapply (ro_commit _ Hr)|]. intros []. auto.
Qed.

Lemma wp_pipe_wake m p x k Q :
  pipes m !! p = Some x -> runtime_ok (runtime x) -> pw_ok (sys m) -> pipe_wait k ->
  (forall w, woken (sys m) w k p -> Q tt (m <| sys := w |>)) -> wp (pipe_wake p k SIZE_MAX) Q m.
Proof.
  intros Hp Hr Hok Hk HQ. unfold pipe_wake. msteps. destruct (ro_wake _ Hr) as (f & -> & Hf).
  msteps. apply wp_zoom. eapply wp_mono; [by eapply Hf|]. intros n w Hw. msteps. by apply HQ.
Qed.

(** The ends of a critical section: plain, and with a wait announced. *)
Lemma wp_section_end {A} m x w token (r : A) Q :
  pipes m !! P = Some x -> runtime_ok (runtime x) -> pw_same (sys m) w ->
  (forall w', pw_same (sys m) w' -> Q r (m <| sys := w' |>)) ->
  wp (pipe_unlock P token;; mret r) Q (m <| sys := w |>).
Proof.
  intros Hp Hr Hs HQ. pose proof Hs as [Hok _]. msteps. apply (wp_unlock _ P x); [done..|]. intros w' Hs'.
  msteps. rewrite sys_sys. apply HQ. by eapply pw_same_trans.
Qed.

Lemma wp_block {A} m x w token k (r : A) Q :
  pipes m !! P = Some x -> runtime_ok (runtime x) -> can_block (runtime x) = true -> pipe_wait k ->
  pw_current (sys m) <> NULL -> pw_waits (sys m) (pw_current (sys m)) = None -> pw_same (sys m) w ->
  (forall w', announced (sys m) w' k P -> Q r (m <| sys := w' |>)) ->
  wp (call_prepare P k;; pipe_unlock P token;; mret r) Q (m <| sys := w |>).
Proof.
  intros Hp Hr Hb Hk Hcur Hwt (Hok & Hcur1 & Hwt1) HQ. msteps.
  apply (wp_prepare _ P x); [done..|cbn; by rewrite Hcur1|cbn; by rewrite Hcur1, Hwt1|].
  intros w2 (Hok2 & Hcur2 & Hwt2). rewrite sys_sys. cbn in Hcur2, Hwt2. msteps. apply (wp_unlock _ P x); [done..|].
  intros w3 (Hok3 & Hcur3 & Hwt3). msteps. rewrite sys_sys. cbn in Hcur3, Hwt3. apply HQ.
  split_and!; [done|congruence|]. intros t. by rewrite Hwt3, Hwt2, Hcur1, Hwt1.
Qed.

(** *** Reading *)

(** The pipe after [n] bytes are taken out. *)
Definition taken (x : ns_pipe W) (n : Z) : ns_pipe W :=
  x <| head := (head x + n) mod capacity x |> <| used := used x - n |>.

Lemma taken_ok m x l n w :
  pipe_ok m x l -> 0 <= n <= Z.of_nat (length l) ->
  pipe_ok (m <| pipes := <[P := taken x n]> (pipes m) |> <| sys := w |>) (taken x n) (drop (Z.to_nat n) l).
Proof.
  intros [Hr Hc Hh Hu Hf (bytes & Hb & Hl & Hho)] Hn. unfold NS_PIPE_ATOMIC_MAX in Hc. constructor; cbn; try done.
  - apply Z.mod_pos_bound. lia.
  - rewrite length_drop. lia.
  - lia.
  - exists bytes. split_and!; try done. rewrite <- (Z2Nat.id n) at 1 by lia. apply holds_drop; [lia|lia|done].
Qed.

(** How a round of the read loop ends. *)
Inductive read_end (m : pstate W) (x : ns_pipe W) (l : list Z) (count : Z) : frame W -> pstate W -> Prop :=
  | re_data w n : pw_same (sys m) w -> n = Z.min count (used x) -> used x <> 0 ->
      read_end m x l count (rd_wake R P (take (Z.to_nat n) l))
        (m <| pipes := <[P := taken x n]> (pipes m) |> <| sys := w |>)
  | re_eof w : pw_same (sys m) w -> used x = 0 -> writers x = 0 ->
      read_end m x l count (returned 0 []) (m <| sys := w |>)
  | re_again w : pw_same (sys m) w -> used x = 0 -> writers x <> 0 -> can_block (runtime x) = false ->
      read_end m x l count (returned (- NS_EAGAIN) []) (m <| sys := w |>)
  | re_block w : announced (sys m) w NS_WAIT_PIPE_READ P -> used x = 0 -> writers x <> 0 ->
      can_block (runtime x) = true ->
      read_end m x l count (rd_commit R P count) (m <| sys := w |>).

Lemma wp_read_section m x l count :
  pipes m !! P = Some x -> pipe_ok m x l -> pw_ok (sys m) -> 0 < count < 2 ^ 63 ->
  pw_current (sys m) <> NULL -> pw_waits (sys m) (pw_current (sys m)) = None ->
  wp (read_section R P count) (read_end m x l count) m.
Proof.
  intros Hp Hk Hok Hcount Hcur Hwt. pose proof Hk as [Hr Hc Hh Hu Hf (bytes & Hb & Hl & Hho)].
  unfold NS_PIPE_ATOMIC_MAX in Hc. unfold read_section. msteps. apply (wp_lock m P x); [done..|]. intros token w1 Hs1.
  pose proof Hs1 as (Hok1 & Hcur1 & Hwt1). msteps. destruct (Z.eqb_spec (used x) 0) as [E|E]; cbn [negb].
  - msteps. destruct (Z.eqb_spec (writers x) 0) as [Ew|Ew].
    + apply (wp_section_end m x); [done..|]. intros w2 Hs2. by apply re_eof.
    + msteps. destruct (can_block (runtime x)) eqn:Ecb; cbn [negb].
      * apply (wp_block m x); try done; [by left|]. intros w2 Hs2. by apply re_block.
      * apply (wp_section_end m x); [done..|]. intros w2 Hs2. by apply re_again.
  - msteps. set (n := if count <? used x then count else used x).
    assert (Hn : n = Z.min count (used x)) by (unfold n; destruct (Z.ltb_spec count (used x)); lia).
    cbn [buffers set_field set_sys id]. rewrite (copy_out_spec bytes _ _ l) by (done || lia).
    rewrite u64_small, u64_small by lia. msteps.
    apply (wp_unlock _ P (taken x n)); [cbn; by rewrite !lookup_insert_eq|done|done|].
    intros w2 Hs2. msteps. cbn.
    replace (set_sys w2 _) with (m <| pipes := <[P := taken x n]> (pipes m) |> <| sys := w2 |>).
    + apply re_data; [by eapply pw_same_trans|done|done].
    + destruct m; unfold set_field, set_sys, set_pipes; cbn. f_equal. by rewrite insert_insert_eq.
Qed.

(** *** Writing *)

(** The pipe after [n] bytes are put in. *)
Definition filled (m : pstate W) (x : ns_pipe W) (bytes : list (option Z)) (n : Z) (w : W) : pstate W :=
  m <| buffers := <[buffer x := bytes]> (buffers m) |>
    <| pipes := <[P := x <| used := used x + n |>]> (pipes m) |> <| sys := w |>.

Inductive write_end (m : pstate W) (x : ns_pipe W) (l input : list Z) (count written : Z) :
    frame W -> pstate W -> Prop :=
  | we_broken w : pw_same (sys m) w -> readers x = 0 ->
      write_end m x l input count written
        (returned (if negb (written =? 0) then s64 written else - NS_EPIPE) []) (m <| sys := w |>)
  | we_again w : pw_same (sys m) w -> readers x <> 0 -> can_block (runtime x) = false ->
      write_end m x l input count written (returned (- NS_EAGAIN) []) (m <| sys := w |>)
  | we_partial w : pw_same (sys m) w -> readers x <> 0 -> used x = capacity x -> written <> 0 ->
      write_end m x l input count written (returned (s64 written) []) (m <| sys := w |>)
  | we_block w : announced (sys m) w NS_WAIT_PIPE_WRITE P -> readers x <> 0 ->
      can_block (runtime x) = true -> count <= NS_PIPE_ATOMIC_MAX -> capacity x - used x < count ->
      write_end m x l input count written (wr_commit Wr P input count written) (m <| sys := w |>)
  | we_full w : pw_same (sys m) w -> readers x <> 0 -> can_block (runtime x) = true ->
      NS_PIPE_ATOMIC_MAX < count -> used x = capacity x -> written = 0 ->
      write_end m x l input count written (wr_relock Wr P input count written) (m <| sys := w |>)
  | we_data w bytes n : pw_same (sys m) w -> readers x <> 0 ->
      n = Z.min (count - written) (capacity x - used x) -> 0 < n ->
      (count <= NS_PIPE_ATOMIC_MAX -> n = count) ->
      pipe_ok (filled m x bytes n w) (x <| used := used x + n |>)
        (l ++ take (Z.to_nat n) (drop (Z.to_nat written) input)) ->
      write_end m x l input count written (wr_wake Wr P input count (written + n)) (filled m x bytes n w).

Lemma filled_ok m x l input written n w bytes :
  pipe_ok m x l -> 0 <= n -> used x + n <= capacity x -> 0 <= written ->
  written + n <= Z.of_nat (length input) < 2 ^ 63 -> buffers m !! buffer x = Some bytes ->
  exists bytes', copy_in bytes (capacity x) (head x) (used x) input written (Z.to_nat n) 0 = Some bytes' /\
    pipe_ok (filled m x bytes' n w) (x <| used := used x + n |>)
      (l ++ take (Z.to_nat n) (drop (Z.to_nat written) input)).
Proof.
  intros [Hr Hc Hh Hu Hf (b0 & Hb & Hl & Hho)] Hn Hroom Hw Hin Hb'. rewrite Hb' in Hb. injection Hb as <-.
  unfold NS_PIPE_ATOMIC_MAX in Hc.
  destruct (copy_in_spec bytes (capacity x) (head x) (used x) input written l (Z.to_nat n) 0)
    as (bytes' & E & Hlen & Hho'); [lia..|by rewrite app_nil_r|].
  exists bytes'. split; [done|]. constructor; cbn; try done.
  - rewrite length_app, length_take, length_drop. lia.
  - exists bytes'. rewrite lookup_insert_eq. split_and!; [done|lia|done].
Qed.

Lemma wp_write_section m x l input count written :
  pipes m !! P = Some x -> pipe_ok m x l -> pw_ok (sys m) -> count = Z.of_nat (length input) ->
  0 <= written < count -> count < 2 ^ 63 -> (count <= NS_PIPE_ATOMIC_MAX -> written = 0) ->
  pw_current (sys m) <> NULL -> pw_waits (sys m) (pw_current (sys m)) = None ->
  wp (write_section Wr P input count written) (write_end m x l input count written) m.
Proof.
  intros Hp Hk Hok Hcount Hwr Hmax Hat Hcur Hwt. pose proof Hk as [Hr Hc Hh Hu Hf (bytes & Hb & Hl & Hho)].
  unfold NS_PIPE_ATOMIC_MAX in Hc. unfold write_section. msteps. apply (wp_lock m P x); [done..|].
  intros token w1 Hs1. msteps. destruct (Z.eqb_spec (readers x) 0) as [E|E].
  { apply (wp_section_end m x); [done..|]. intros w2 Hs2. by apply we_broken. }
  msteps. rewrite (u64_small (capacity x - used x)) by lia.
  destruct (Z.leb_spec count NS_PIPE_ATOMIC_MAX) as [Ea|Ea],
    (Z.ltb_spec (capacity x - used x) count) as [Er|Er]; cbn [andb].
  { msteps. destruct (can_block (runtime x)) eqn:Ecb; cbn [negb].
    - apply (wp_block m x); try done; [by right|]. intros w2 Hs2. by apply we_block.
    - apply (wp_section_end m x); [done..|]. intros w2 Hs2. by apply we_again. }
  all: destruct (Z.eqb_spec (capacity x - used x) 0) as [Ez|Ez].
  1, 3, 5: msteps; apply (wp_unlock _ P x); [done..|by destruct Hs1|]; intros w2 Hs2; msteps; rewrite sys_sys;
    pose proof (pw_same_trans _ _ _ Hs1 Hs2) as Hs.
  1-3: unfold NS_PIPE_ATOMIC_MAX in *; try lia.
  all: try (destruct (Z.eqb_spec written 0) as [Ew|Ew]; cbn [negb]; msteps; [|apply we_partial; [done..|lia|done]];
    destruct (can_block (runtime x)) eqn:Ecb; cbn [negb]; msteps; [apply we_full; try done; lia|by apply we_again]).
  all: msteps; rewrite (u64_small (count - written)) by lia;
    set (n := if _ <? _ then _ else _);
    assert (Hn : n = Z.min (count - written) (capacity x - used x)) by
      (unfold n; destruct (Z.ltb_spec (capacity x - used x) (count - written)); lia);
    destruct (filled_ok m x l input written n w1 bytes) as (bytes' & Ecp & _); [done|lia..|done|];
    cbn [buffers set_field set_sys id]; rewrite Ecp.
  all: rewrite !u64_small by lia; msteps; apply (wp_unlock _ P (x <| used := used x + n |>));
    [cbn; by rewrite lookup_insert_eq|done|by destruct Hs1|]; intros w2 Hs2; msteps; cbn;
    apply (we_data m x l input count written w2 bytes' n); 
      [by eapply pw_same_trans|done|done|lia|intros; unfold NS_PIPE_ATOMIC_MAX in *; lia|];
    destruct (filled_ok m x l input written n w2 bytes) as (b2 & Ecp2 & Hfk); [done|lia..|done|]; by simplify_eq.
Qed.

(** *** The second look and the close *)

Lemma wp_relock_section m x l input count :
  pipes m !! P = Some x -> pipe_ok m x l -> pw_ok (sys m) -> can_block (runtime x) = true ->
  pw_current (sys m) <> NULL -> pw_waits (sys m) (pw_current (sys m)) = None ->
  wp (relock_section Wr P input count 0) (fun f m' => exists w, m' = m <| sys := w |> /\
    ((f = wr_loop Wr P input count 0 /\ pw_same (sys m) w) \/
     (f = wr_commit Wr P input count 0 /\ announced (sys m) w NS_WAIT_PIPE_WRITE P /\ used x = capacity x))) m.
Proof.
  intros Hp Hk Hok Hb Hcur Hwt. pose proof (pk_runtime _ _ _ Hk) as Hr.
  unfold relock_section. msteps. apply (wp_lock m P x); [done..|].
  intros token w1 Hs1. msteps. destruct (Z.eqb_spec (capacity x) (used x)) as [E|E]; cbn [negb].
  - apply (wp_block m x); try done; [by right|]. intros w2 Hs2. exists w2. split; [done|]. by right.
  - apply (wp_section_end m x); [done..|]. intros w2 Hs2. exists w2. split; [done|]. by left.
Qed.

(** The pipe without one of its ends. *)
Definition unread (x : ns_pipe W) : ns_pipe W := x <| readers := 0 |>.
Definition unwritten (x : ns_pipe W) : ns_pipe W := x <| writers := 0 |>.

Lemma pipe_ok_ends m m' x x' l :
  pipe_ok m x l -> buffers m' = buffers m -> runtime x' = runtime x -> buffer x' = buffer x ->
  capacity x' = capacity x -> head x' = head x -> used x' = used x -> pipe_ok m' x' l.
Proof. intros [] E1 E2 E3 E4 E5 E6. constructor; rewrite ?E1, ?E2, ?E3, ?E4, ?E5, ?E6; done. Qed.

Lemma wp_close_section m x ep (wrt : bool) :
  ep <> NULL -> pipes m !! P = Some x -> runtime_ok (runtime x) -> pw_ok (sys m) ->
  endpoints m !! ep = Some (mk_endpoint P (if wrt then 1 else 0)) ->
  (if wrt then writers x else readers x) = 1 ->
  let x' := if wrt then unwritten x else unread x in
  wp (pipe_close ep) (fun f m' => exists w, pw_same (sys m) w /\
    m' = m <| pipes := <[P := x']> (pipes m) |> <| sys := w |> /\
    f = cl_wake ep P (runtime x) ((readers x' =? 0) && (writers x' =? 0))) m.
Proof.
  intros Hep Hp Hr Hok He Hone x'. unfold pipe_close. rewrite (proj2 (Z.eqb_neq _ _)) by done. msteps.
  apply (wp_lock m P x); [done..|]. intros token w1 Hs1. msteps. destruct wrt; cbn [writable negb Z.eqb].
  all: msteps; rewrite Hone; change (u32 (1 - 1)) with 0; cbn [negb Z.eqb when pipe]; msteps;
    apply (wp_unlock _ P x'); [cbn; by rewrite lookup_insert_eq|done|by destruct Hs1|]; intros w2 Hs2; msteps;
    exists w2; split_and!; [by eapply pw_same_trans|done|done].
Qed.

(** *** Bookkeeping of waits *)

Lemma doing_Some s t f : calls s !! t = Some f -> doing s t = f.
Proof. unfold doing. by intros ->. Qed.

Lemma not_waiting s x l t :
  pinv s x l -> pw_current (sys (mem s)) = t -> committing (doing s t) = false ->
  pw_waits (sys (mem s)) t = None.
Proof.
  intros Hi Hc Hd. destruct (pw_waits (sys (mem s)) t) eqn:E; [exfalso|done].
  destruct (pi_current _ _ _ Hi) as (f & Hf & Hcm); [by rewrite Hc, E|].
  rewrite Hc in Hf. apply doing_Some in Hf. congruence.
Qed.

Lemma moved_same ro wo cs t f f' w w' x x' :
  pw_same w w' -> pw_current w = t -> pw_waits w t = None -> waker f = false ->
  (forall k g, waiting_for g = Some k -> must_wait ro wo x g -> must_wait ro wo x' g \/ will_wake k f') ->
  moved ro wo cs t f f' w w' x x'.
Proof.
  intros (Hok & Hc & Hw) Ht Hn Hf Hm. constructor; [done|..].
  - intros t' k q _. by rewrite Hw.
  - intros t' k g _ _. apply Hm.
  - intros t' k _ Hk. by destruct (not_waker k f).
  - intros k q. by rewrite Hw, Hn.
  - by rewrite Hw, Hc, Ht, Hn.
Qed.

Lemma moved_block ro wo cs t f f' w w' x k :
  announced w w' k P -> pw_current w = t -> waker f = false ->
  waiting_for f' = Some k -> must_wait ro wo x f' -> committing f' = true ->
  moved ro wo cs t f f' w w' x x.
Proof.
  intros (Hok & Hc & Hw) Ht Hf Hwf Hm Hcm. constructor; [done|..].
  - intros t' k' q Hne. by rewrite Hw, Ht, (proj2 (Z.eqb_neq _ _)).
  - intros t' k' g _ _ _ Hg. by left.
  - intros t' k' _ Hk. by destruct (not_waker k' f).
  - intros k' q. rewrite Hw, Ht, Z.eqb_refl. intros [= <- <-]. split_and!; [done..|by left].
  - by rewrite Hc.
Qed.

Lemma moved_commit s x l t f f' w' :
  pinv s x l -> calls s !! t = Some f -> committed (sys (mem s)) w' ->
  waker f = false -> waiting_for f' = waiting_for f ->
  (must_wait (r_open s) (w_open s) x f -> must_wait (r_open s) (w_open s) x f') ->
  moved (r_open s) (w_open s) (calls s) t f f' (sys (mem s)) w' x x.
Proof.
  intros Hi Hf (Hok & Hw & Hn) Hk Hwf Hm. constructor; [done|..].
  - intros t' k q _. by rewrite Hw.
  - intros t' k g _ _ _ Hg. by left.
  - intros t' k _ Hwk. by destruct (not_waker k f).
  - intros k q Hq. rewrite Hw in Hq. pose proof (pi_waits_here _ _ _ Hi t f k q Hf Hq) as ->.
    destruct (pi_waits _ _ _ Hi t k Hq) as (g & Hg & Hgw & Hwhy). simplify_eq.
    split_and!; [done|congruence|]. destruct Hwhy as [?|(t' & g' & Ht' & Hg')]; [by left; auto|right].
    exists t', g'. split_and!; try done. intros ->. simplify_eq. by eapply not_waker.
  - by rewrite Hn.
Qed.

Lemma moved_wake ro wo cs t f f' w w' x k :
  woken w w' k P -> pw_current w = t -> pw_waits w t = None -> (forall k', will_wake k' f -> k' = k) ->
  moved ro wo cs t f f' w w' x x.
Proof.
  intros (Hok & Hc & Hw) Ht Hn Hk.
  assert (Hself : pw_waits w' t = None) by (rewrite Hw, Hn; by case_decide).
  constructor; [done|..].
  - intros t' k' q _. rewrite Hw. by case_decide.
  - intros t' k' g _ _ _ Hg. by left.
  - intros t' k' _ Hk'. apply Hk in Hk' as ->. rewrite Hw. by case_decide.
  - intros k' q. by rewrite Hself.
  - by rewrite Hc, Ht, Hself.
Qed.

(** *** The invariant along one step *)

(** A call in progress has the end it works on open, unless it is closing it. *)
Lemma end_open s x l t f :
  pinv s x l -> calls s !! t = Some f -> closing f = false ->
  (end_of f = Some R -> r_open s = true) /\ (end_of f = Some Wr -> w_open s = true).
Proof.
  intros Hi Hf Hc. destruct (pi_frames _ _ _ Hi t f Hf) as (_ & Hk & Hu), (pi_distinct _ _ _ Hi) as (Hne & _).
  destruct f; cbn in *; try done; destruct_and?; subst; split; intros; simplify_eq; done.
Qed.

Lemma idle_back s x l t f' ep :
  pinv s x l -> (closing (doing s t) = true -> end_of f' = end_of (doing s t)) ->
  (ep = R /\ r_open s = false \/ ep = Wr /\ w_open s = false) ->
  idle ep (<[t := f']> (calls s)) -> idle ep (calls s).
Proof.
  intros Hi Hc Hep Hidle t' g Hg Hend. destruct (decide (t' = t)) as [->|Hne].
  - rewrite (doing_Some _ _ _ Hg) in Hc. destruct (closing g) eqn:E.
    + apply (Hidle t f'); [by rewrite lookup_insert_eq|]. by rewrite Hc.
    + destruct (end_open _ _ _ _ _ Hi Hg E) as [H1 H2]. destruct Hep as [[-> ?]|[-> ?]]; [apply H1 in Hend|apply H2 in Hend]; congruence.
  - by apply (Hidle t' g); [rewrite lookup_insert_ne|].
Qed.

(** A frame other than a close or a second look does not depend on the
    endpoints or the counts. *)
Lemma uses_ok_stable ro wo es es' f : fragile f = false -> uses_ok ro wo es f -> uses_ok ro wo es' f.
Proof. by destruct f. Qed.

Lemma others_ok s x l t es' :
  pinv s x l -> runs true s t ->
  forall t' g, t' <> t -> calls s !! t' = Some g -> uses_ok (r_open s) (w_open s) es' g.
Proof.
  intros Hi (_ & _ & Hfr) t' g Hne Hg. apply (uses_ok_stable _ _ (endpoints (mem s))).
  - destruct (fragile g) eqn:E; [|done]. by destruct (Hne (Hfr eq_refl t' g Hg E)).
  - apply (pi_frames _ _ _ Hi t' g Hg).
Qed.

(** Steps that leave the ends as they are. *)
Lemma pinv_kept s x l t f' m' x' l' sent' received' :
  pinv s x l -> runs true s t ->
  moved (r_open s) (w_open s) (calls s) t (doing s t) f' (sys (mem s)) (sys m') x x' ->
  (closing (doing s t) = true -> closing f' = true /\ end_of f' = end_of (doing s t)) ->
  frame_ok f' -> uses_ok (r_open s) (w_open s) (endpoints (mem s)) f' ->
  endpoints m' = endpoints (mem s) -> pipes m' !! P = Some x' -> pipe_ok m' x' l' ->
  readers x' = readers x -> writers x' = writers x -> buffer x' = buffer x -> runtime x' = runtime x ->
  sent' = received' ++ l' ->
  pinv (mk_machine m' (<[t := f']> (calls s)) (r_open s) (w_open s) sent' received') x' l'.
Proof.
  intros Hi Hrun Hm Hcl Hf Hu He Hat Hpk Hr Hw Hb Hrt Hst. destruct (pi_counts _ _ _ Hi) as [Hr' Hw'], (pi_gone _ _ _ Hi) as [HgR HgW].
  apply (pinv_moved s x l); rewrite ?He; try done; try congruence.
  - by eapply others_ok.
  - intros t' k g _ _ _ Hg. by left.
  - apply Hi.
  - apply Hi.
  - rewrite Hb, Hrt. apply Hi.
  - intros Hro Hid. apply HgR; [done|]. apply (idle_back s x l t f'); eauto; intros Hx; by apply Hcl.
  - intros Hwo Hid. apply HgW; [done|]. apply (idle_back s x l t f'); eauto; intros Hx; by apply Hcl.
  - intros Hro Hwo. destruct (pi_closing _ _ _ Hi Hro Hwo) as (t' & g & Hg & Hclg).
    apply Hcl. destruct Hrun as (_ & _ & Hfr). rewrite (Hfr eq_refl t' g Hg) in Hg by (by destruct g).
    by rewrite (doing_Some _ _ _ Hg).
Qed.

(** Steps that change nothing of the pipe. *)
Lemma pinv_quiet s x l t f' w :
  pinv s x l -> runs true s t ->
  moved (r_open s) (w_open s) (calls s) t (doing s t) f' (sys (mem s)) w x x ->
  (closing (doing s t) = true -> closing f' = true /\ end_of f' = end_of (doing s t)) ->
  frame_ok f' -> uses_ok (r_open s) (w_open s) (endpoints (mem s)) f' ->
  pinv (mk_machine ((mem s) <| sys := w |>) (<[t := f']> (calls s)) (r_open s) (w_open s)
    (sent s) (received s)) x l.
Proof.
  intros Hi Hrun Hm Hcl Hf Hu. apply (pinv_kept s x l); try done; [apply Hi| |apply Hi].
  eapply pipe_ok_ends; [apply Hi|done..].
Qed.

(** Both ends are closed and everything is given back. *)
Record dead (s : machine) : Prop := {
  dd_ok : pw_ok (sys (mem s));
  dd_shut : r_open s = false /\ w_open s = false;
  dd_over t f : calls s !! t = Some f -> over f = true;
  dd_freed : pipes (mem s) !! P = None /\ buffers (mem s) !! B = None /\
    endpoints (mem s) !! R = None /\ endpoints (mem s) !! Wr = None;
  dd_stream : received s `prefix_of` sent s }.

Definition good (s : machine) : Prop := (exists x l, pinv s x l) \/ dead s.

(** The machine after thread [t] went from [f] to [f']. *)
Definition after (s : machine) (t : Z) (f f' : frame W) (m : pstate W) : machine :=
  mk_machine m (<[t := f']> (calls s)) (r_open s) (w_open s)
    (sent s ++ emitted f f') (received s ++ absorbed f f').

Lemma after_quiet s t f f' m :
  emitted f f' = [] -> absorbed f f' = [] ->
  after s t f f' m = mk_machine m (<[t := f']> (calls s)) (r_open s) (w_open s) (sent s) (received s).
Proof. unfold after. intros -> ->. by rewrite !app_nil_r. Qed.

Lemma can_run s x l t f :
  pinv s x l -> runs true s t -> calls s !! t = Some f -> committing f = false ->
  pw_current (sys (mem s)) <> NULL /\ pw_waits (sys (mem s)) (pw_current (sys (mem s))) = None.
Proof.
  intros Hi (Ht & Hc & _) Hf Hcm. split; [congruence|]. eapply not_waiting; [done..|].
  by rewrite Hc, (doing_Some _ _ _ Hf).
Qed.

Lemma good_quiet s x l t f f' w :
  pinv s x l -> runs true s t -> calls s !! t = Some f ->
  moved (r_open s) (w_open s) (calls s) t f f' (sys (mem s)) w x x ->
  (closing f = true -> closing f' = true /\ end_of f' = end_of f) -> emitted f f' = [] -> absorbed f f' = [] ->
  frame_ok f' -> uses_ok (r_open s) (w_open s) (endpoints (mem s)) f' ->
  good (after s t f f' ((mem s) <| sys := w |>)).
Proof.
  intros Hi Hrun Hf Hm Hcl He Ha Hfo Hu. left. exists x, l. rewrite after_quiet by done.
  apply pinv_quiet; rewrite ?(doing_Some _ _ _ Hf); done.
Qed.

Lemma good_same s x l t f f' w :
  pinv s x l -> runs true s t -> calls s !! t = Some f -> committing f = false ->
  pw_same (sys (mem s)) w -> waker f = false -> closing f = false ->
  emitted f f' = [] -> absorbed f f' = [] ->
  frame_ok f' -> uses_ok (r_open s) (w_open s) (endpoints (mem s)) f' ->
  good (after s t f f' ((mem s) <| sys := w |>)).
Proof.
  intros Hi Hrun Hf Hcm Hs Hk Hcl He Ha Hfo Hu. destruct (can_run _ _ _ _ _ Hi Hrun Hf Hcm) as [_ Hn].
  pose proof Hrun as (_ & Hc & _).
  eapply good_quiet; try done; [|by rewrite Hcl]. apply moved_same; try done; [congruence|].
  intros k g _ Hg. by left.
Qed.

Lemma resume_read s x l t count :
  pinv s x l -> runs true s t -> calls s !! t = Some (rd_loop R P count) ->
  wp (resume (rd_loop R P count)) (fun f' m' => good (after s t (rd_loop R P count) f' m')) (mem s).
Proof.
  intros Hi Hrun Hf. destruct (pi_frames _ _ _ Hi t _ Hf) as (_ & (_ & _ & Hcount) & Hopen).
  destruct (can_run _ _ _ _ _ Hi Hrun Hf eq_refl) as [Hcur Hn]. pose proof Hrun as (_ & Hc & _).
  destruct (pi_counts _ _ _ Hi) as [_ Hws], (pi_fixed _ _ _ Hi) as [_ Hrt]. pose proof (pi_pipe _ _ _ Hi) as Hpk.
  eapply wp_mono; [apply (wp_read_section (mem s) x l); try done; apply Hi|].
  intros f' m' [w n Hs En Hne|w Hs Hu Hw|w Hs Hu Hw Hb|w Ha Hu Hw Hb].
  - pose proof (pk_used _ _ _ Hpk) as Hlen. left. exists (taken x n), (drop (Z.to_nat n) l).
    apply (pinv_kept s x l); rewrite ?(doing_Some _ _ _ Hf); try done.
    + apply moved_same; try done; [by rewrite <- Hc|]. intros k g Hk Hg. right.
      destruct g; cbn in *; simplify_eq; try done; destruct_and?; lia.
    + split_and!; try done; rewrite length_take; lia.
    + apply lookup_insert_eq.
    + apply taken_ok; [done|lia].
    + cbn. rewrite app_nil_r, <- app_assoc, take_drop. apply Hi.
  - by apply (good_same s x l).
  - by apply (good_same s x l).
  - apply (good_quiet s x l); try done.
    + eapply moved_block; try done. split; [done|]. rewrite Hws in Hw. by destruct (w_open s).
    + split_and!; try done; try lia. by rewrite <- Hrt.
Qed.

(** A frame that announces a wait. *)
Lemma good_block s x l t f f' k w :
  pinv s x l -> runs true s t -> calls s !! t = Some f -> closing f = false -> waker f = false ->
  announced (sys (mem s)) w k P -> waiting_for f' = Some k -> committing f' = true ->
  must_wait (r_open s) (w_open s) x f' -> emitted f f' = [] -> absorbed f f' = [] ->
  frame_ok f' -> uses_ok (r_open s) (w_open s) (endpoints (mem s)) f' ->
  good (after s t f f' ((mem s) <| sys := w |>)).
Proof.
  intros Hi Hrun Hf Hcl Hk Ha Hwf Hcm Hm He Hab Hfo Hu. apply (good_quiet s x l); try done; [|by rewrite Hcl].
  apply (moved_block _ _ _ _ _ _ _ _ _ k); try done. apply Hrun.
Qed.

Lemma resume_write s x l t input count written :
  pinv s x l -> runs true s t -> calls s !! t = Some (wr_loop Wr P input count written) ->
  wp (resume (wr_loop Wr P input count written))
    (fun f' m' => good (after s t (wr_loop Wr P input count written) f' m')) (mem s).
Proof.
  intros Hi Hrun Hf.
  destruct (pi_frames _ _ _ Hi t _ Hf) as (_ & (_ & _ & Hcount & Hwr & Hmax & Hat) & Hopen).
  destruct (can_run _ _ _ _ _ Hi Hrun Hf eq_refl) as [Hcur Hn]. pose proof Hrun as (_ & Hc & _).
  destruct (pi_counts _ _ _ Hi) as [Hrs _], (pi_fixed _ _ _ Hi) as [_ Hrt]. pose proof (pi_pipe _ _ _ Hi) as Hpk.
  cbn [resume]. unfold write_turn. destruct (Z.ltb_spec written count) as [Hlt|Hge].
  2: { msteps. replace (mem s) with ((mem s) <| sys := sys (mem s) |>) at 1 by (by destruct (mem s)).
       apply (good_same s x l); try done. apply pw_same_refl, Hi. }
  assert (Hat' : count <= NS_PIPE_ATOMIC_MAX -> written = 0) by lia.
  assert (Hro : readers x <> 0 -> r_open s = true) by (rewrite Hrs; by destruct (r_open s)).
  eapply wp_mono; [apply (wp_write_section (mem s) x l); try done; [apply Hi..|lia]|].
  intros f' m' [w Hs Hr|w Hs Hr Hb|w Hs Hr Hfull Hne|w Ha Hr Hb Hle Hroom|w Hs Hr Hb Hgt Hfull Hz|w bytes n Hs Hr En Hpos Hall Hpk'].
  - by apply (good_same s x l).
  - by apply (good_same s x l).
  - by apply (good_same s x l).
  - apply (good_block s x l _ _ _ NS_WAIT_PIPE_WRITE); try done.
    + split_and!; [lia|by apply Hro|]. by rewrite (proj2 (Z.leb_le _ _)).
    + split_and!; try done; try lia. by rewrite <- Hrt.
  - apply (good_same s x l); try done.
    + split_and!; try done; try lia. by rewrite <- Hrt.
    + split_and!; [done|by apply Hro|done].
  - left. eexists _, _. apply (pinv_kept s x l); rewrite ?(doing_Some _ _ _ Hf); try done.
    + apply moved_same; try done; [by rewrite <- Hc|]. intros k g Hk Hg.
      destruct g; cbn in *; simplify_eq; try done; try (by right); left; destruct_and?;
        destruct (Z.leb_spec count0 NS_PIPE_ATOMIC_MAX); split_and!; try done; lia.
    + split_and!; try done; lia.
    + apply lookup_insert_eq.
    + cbn. rewrite app_nil_r, app_assoc. f_equal; [apply Hi|]. do 2 f_equal. lia.
Qed.

Lemma resume_relock s x l t input count :
  pinv s x l -> runs true s t -> calls s !! t = Some (wr_relock Wr P input count 0) ->
  wp (resume (wr_relock Wr P input count 0))
    (fun f' m' => good (after s t (wr_relock Wr P input count 0) f' m')) (mem s).
Proof.
  intros Hi Hrun Hf.
  destruct (pi_frames _ _ _ Hi t _ Hf) as (_ & (_ & _ & Hcount & Hpos & _ & Hb) & Hwo & Hro & Hgt).
  destruct (can_run _ _ _ _ _ Hi Hrun Hf eq_refl) as [Hcur Hn]. destruct (pi_fixed _ _ _ Hi) as [_ Hrt].
  eapply wp_mono; [apply (wp_relock_section (mem s) x l); try done; [apply Hi..|by rewrite Hrt]|].
  intros f' m' (w & -> & [[-> Hs]|(-> & Ha & Hfull)]).
  - apply (good_same s x l); try done. split_and!; try done; lia.
  - apply (good_block s x l _ _ _ NS_WAIT_PIPE_WRITE); try done.
    split_and!; try done. by rewrite (proj2 (Z.leb_gt _ _)).
Qed.

(** Giving up the processor. *)
Lemma resume_commit s x l t f f' :
  pinv s x l -> runs true s t -> calls s !! t = Some f -> can_block RT = true ->
  waker f = false -> closing f = false -> waiting_for f' = waiting_for f ->
  (must_wait (r_open s) (w_open s) x f -> must_wait (r_open s) (w_open s) x f') ->
  emitted f f' = [] -> absorbed f f' = [] -> frame_ok f' ->
  uses_ok (r_open s) (w_open s) (endpoints (mem s)) f' ->
  wp (call_commit P;; mret f') (fun f' m' => good (after s t f f' m')) (mem s).
Proof.
  intros Hi Hrun Hf Hb Hk Hcl Hwf Hm He Ha Hfo Hu. destruct (pi_fixed _ _ _ Hi) as [_ Hrt]. msteps.
  apply (wp_commit _ P x); try apply Hi; [by rewrite Hrt| |].
  { destruct Hrun as (? & ? & _). congruence. }
  intros w Hw. msteps. apply (good_quiet s x l); try done; [|by rewrite Hcl]. by apply (moved_commit s x l).
Qed.

(** Waking the other side. *)
Lemma resume_wake s x l t f f' k :
  pinv s x l -> runs true s t -> calls s !! t = Some f -> committing f = false -> pipe_wait k ->
  (forall k', will_wake k' f -> k' = k) -> (closing f = true -> closing f' = true /\ end_of f' = end_of f) ->
  emitted f f' = [] -> absorbed f f' = [] -> frame_ok f' ->
  uses_ok (r_open s) (w_open s) (endpoints (mem s)) f' ->
  wp (pipe_wake P k SIZE_MAX;; mret f') (fun f' m' => good (after s t f f' m')) (mem s).
Proof.
  intros Hi Hrun Hf Hcm Hpw Hk Hcl He Ha Hfo Hu. destruct (can_run _ _ _ _ _ Hi Hrun Hf Hcm) as [Hcur Hn].
  destruct Hrun as (Ht & Hc & Hfr) eqn:E. clear E. msteps.
  apply (wp_pipe_wake _ P x); try apply Hi; [done|].
  intros w Hw. msteps. apply (good_quiet s x l); try done. eapply moved_wake; try done. by rewrite <- Hc.
Qed.

(** Giving back an object. *)
Lemma wp_release_block m p sz al Q :
  runtime_ok RT -> pw_ok (sys m) -> (forall w, pw_same (sys m) w -> Q tt (m <| sys := w |>)) ->
  wp (release_block RT p sz al) Q m.
Proof.
  intros Hr Hok HQ. unfold release_block. destruct (ro_deallocate _ Hr) as (f & -> & Hf).
  apply wp_zoom. eapply wp_mono; [by apply Hf|]. intros []. auto.
Qed.

Lemma wp_pipe_free m x l :
  pipes m !! P = Some x -> pipe_ok m x l -> runtime x = RT -> pw_ok (sys m) ->
  wp (pipe_free P) (fun _ m' => exists w, pw_same (sys m) w /\
    m' = m <| buffers := delete (buffer x) (buffers m) |> <| pipes := delete P (pipes m) |> <| sys := w |>) m.
Proof.
  intros Hp [Hr _ _ _ _ (bytes & Hb & _)] Hrt Hok. rewrite Hrt in Hr. unfold pipe_free, free_from. msteps.
  rewrite Hrt. apply wp_release_block; [done..|]. intros w Hs. pose proof Hs as [Hok1 _]. msteps.
  apply wp_release_block; [done..|]. intros w' Hs'. exists w'. split; [by eapply pw_same_trans|done].
Qed.

(** While a close is under way, no other call on that end is. *)
Lemma closing_over s x l t f t' g :
  pinv s x l -> runs true s t -> calls s !! t = Some f -> closing f = true ->
  r_open s = false -> w_open s = false -> t' <> t -> calls s !! t' = Some g -> over g = true.
Proof.
  intros Hi (_ & _ & Hfr) Hf Hcl Hr Hw Hne Hg. destruct (pi_frames _ _ _ Hi t' g Hg) as (_ & _ & Hu).
  destruct (fragile g) eqn:E; [by destruct (Hne (Hfr eq_refl t' g Hg E))|].
  destruct g; cbn in *; try done; congruence.
Qed.

(** An end that is closed is idle while the other end is being closed. *)
Lemma other_idle s x l t f ep :
  pinv s x l -> runs true s t -> calls s !! t = Some f -> closing f = true -> end_of f <> Some ep ->
  (ep = R /\ r_open s = false \/ ep = Wr /\ w_open s = false) -> idle ep (calls s).
Proof.
  intros Hi (_ & _ & Hfr) Hf Hcl Hend Hshut t' g Hg Hend'.
  assert (Hg' : closing g = false).
  { destruct (closing g) eqn:E; [|done]. assert (t' = t) as -> by (apply (Hfr eq_refl t' g Hg); by destruct g).
    congruence. }
  destruct (end_open _ _ _ _ _ Hi Hg Hg') as [H1 H2].
  destruct Hshut as [[-> Hr]|[-> Hw]]; [rewrite H1 in Hr|rewrite H2 in Hw]; done.
Qed.

(** What a close leaves of the endpoints. *)
Lemma closed_gone s x l t ep rt release :
  pinv s x l -> runs true s t -> calls s !! t = Some (cl_free ep P rt release) ->
  (r_open s = false -> delete ep (endpoints (mem s)) !! R = None) /\
  (w_open s = false -> delete ep (endpoints (mem s)) !! Wr = None) /\
  (r_open s = true -> delete ep (endpoints (mem s)) !! R = Some (mk_endpoint P 0)) /\
  (w_open s = true -> delete ep (endpoints (mem s)) !! Wr = Some (mk_endpoint P 1)).
Proof.
  intros Hi Hrun Hf. destruct (pi_frames _ _ _ Hi t _ Hf) as (_ & _ & _ & Hep).
  destruct (pi_gone _ _ _ Hi) as [HgR HgW], (pi_distinct _ _ _ Hi) as (Hne & _).
  split_and!; intros Ho; (destruct (decide (ep = R)) as [->|HR]; [|destruct (decide (ep = Wr)) as [->|HW]]);
    rewrite ?lookup_delete_eq, ?lookup_delete_ne by done; try done;
    try (by apply Hi); try (destruct_or?; destruct_and?; congruence).
  - apply HgR; [done|]. eapply other_idle; try done; [|by left]. cbn. congruence.
  - apply HgW; [done|]. eapply other_idle; try done; [|by right]. cbn. congruence.
Qed.

(** The last part of a close. *)
Lemma resume_free s x l t ep release :
  pinv s x l -> runs true s t -> calls s !! t = Some (cl_free ep P RT release) ->
  wp (resume (cl_free ep P RT release))
    (fun f' m' => good (after s t (cl_free ep P RT release) f' m')) (mem s).
Proof.
  intros Hi Hrun Hf. destruct (pi_frames _ _ _ Hi t _ Hf) as (_ & _ & Hrel & Hep).
  destruct (can_run _ _ _ _ _ Hi Hrun Hf eq_refl) as [Hcur Hn]. pose proof Hrun as (_ & Hc & _).
  pose proof (pi_pipe _ _ _ Hi) as Hpk. pose proof (pk_runtime _ _ _ Hpk) as Hro.
  destruct (pi_fixed _ _ _ Hi) as [Hbuf Hrt], (closed_gone _ _ _ _ _ _ _ Hi Hrun Hf) as (HgR & HgW & HoR & HoW).
  rewrite Hrt in Hro. assert (Hat : exists e, endpoints (mem s) !! ep = Some e) by naive_solver.
  destruct Hat as [e He]. cbn [resume]. unfold close_free, free_from. msteps.
  apply wp_release_block; [done|apply Hi|]. intros w Hs. pose proof Hs as [Hok _]. cbn in Hs.
  msteps. apply wp_when; intros Er.
  - eapply wp_mono; [apply (wp_pipe_free _ x l); [apply Hi|by eapply pipe_ok_ends|done|done]|].
    intros _ m' (w' & Hs' & ->). msteps. right. rewrite Er in Hrel. symmetry in Hrel.
    apply andb_true_iff in Hrel as [Hr%negb_true_iff Hw%negb_true_iff]. constructor; cbn.
    + apply Hs'.
    + done.
    + intros t' g. destruct (decide (t' = t)) as [->|Ht']; [rewrite lookup_insert_eq; by intros [= <-]|].
      rewrite lookup_insert_ne by done. by eapply closing_over.
    + rewrite !lookup_delete_eq, Hbuf, lookup_delete_eq. split_and!; auto.
    + rewrite !app_nil_r, (pi_stream _ _ _ Hi). by apply prefix_app_r.
  - msteps. left. exists x, l. rewrite after_quiet by done. destruct (pi_counts _ _ _ Hi) as [Hr' Hw'].
    apply (pinv_moved s x l); rewrite ?(doing_Some _ _ _ Hf); try done; try (by apply Hi); try (by auto).
    + apply moved_same; try done; [by rewrite <- Hc|]. intros k g _ Hg. by left.
    + by eapply others_ok.
    + by eapply pipe_ok_ends.
    + intros Hr0 Hw0. by rewrite Hrel, Hr0, Hw0 in Er.
Qed.

(** Any call in progress runs on without a fault, and the invariant holds at its
    next stop. *)
Lemma resume_good s x l t f :
  pinv s x l -> runs true s t -> calls s !! t = Some f -> over f = false ->
  wp (resume f) (fun f' m' => good (after s t f f' m')) (mem s).
Proof.
  intros Hi Hrun Hf Hov. destruct (pi_frames _ _ _ Hi t f Hf) as (_ & Hfo & Hu), (pi_distinct _ _ _ Hi) as (Hne & _).
  destruct f; cbn in Hfo; destruct_and?; subst; try done.
  - by eapply resume_read.
  - by eapply resume_commit.
  - eapply resume_wake; try done; try (by right).
  - by eapply resume_write.
  - by eapply resume_relock.
  - eapply resume_commit; try done. split_and!; try done; lia.
  - eapply resume_wake; try done; try (by left). split_and!; try done; lia.
  - destruct Hu as (-> & [(-> & Hro & He)|(-> & Hwo & He)]); cbn [resume]; unfold close_wake; mstep; mstep; cbn [writable Z.eqb negb].
    all: eapply resume_wake; try done; cbn; try naive_solver congruence.
    all: by constructor.
  - by eapply resume_free.
Qed.

(** Starting a call. *)
Lemma start_good s x l t f :
  pinv s x l -> runs true s t -> free_thread s t -> frame_ok f ->
  uses_ok (r_open s) (w_open s) (endpoints (mem s)) f ->
  good (mk_machine (mem s) (<[t := f]> (calls s)) (r_open s) (w_open s) (sent s) (received s)).
Proof.
  intros Hi Hrun Hfree Hf Hu. left. exists x, l.
  assert (Hov : over (doing s t) = true).
  { unfold doing. destruct (calls s !! t) eqn:E; [|done]. by apply Hfree. }
  replace (mem s) with ((mem s) <| sys := sys (mem s) |>) at 1 by (by destruct (mem s)).
  apply pinv_quiet; try done; [|by destruct (doing s t)].
  apply moved_same; [apply pw_same_refl, Hi|apply Hrun| |by destruct (doing s t)|intros k g _ Hg; by left].
  eapply not_waiting; [done|apply Hrun|]. by destruct (doing s t).
Qed.

Lemma read_starts s x l t dest count :
  pinv s x l -> runs true s t -> free_thread s t -> r_open s = true -> 0 <= count < 2 ^ 63 ->
  wp (pipe_read R dest count) (fun f m => good (mk_machine m (<[t := f]> (calls s)) (r_open s) (w_open s)
    (sent s) (received s))) (mem s).
Proof.
  intros Hi Hrun Hfree Hr Hc. destruct (pi_distinct _ _ _ Hi) as (_ & HR & _). pose proof (pi_reader _ _ _ Hi Hr) as He.
  unfold pipe_read. rewrite (proj2 (Z.eqb_neq _ _)) by done. msteps. cbn [writable Z.eqb negb orb].
  destruct (dest =? NULL), (Z.eqb_spec count 0) as [|Hc0]; msteps; try by eapply start_good.
  eapply start_good; try done. split_and!; try done; lia.
Qed.

Lemma write_starts s x l t src input :
  pinv s x l -> runs true s t -> free_thread s t -> w_open s = true -> Z.of_nat (length input) < 2 ^ 63 ->
  wp (pipe_write Wr src input (Z.of_nat (length input))) (fun f m => good (mk_machine m (<[t := f]> (calls s))
    (r_open s) (w_open s) (sent s) (received s))) (mem s).
Proof.
  intros Hi Hrun Hfree Hw Hc. destruct (pi_distinct _ _ _ Hi) as (_ & _ & HW). pose proof (pi_writer _ _ _ Hi Hw) as He.
  unfold pipe_write. rewrite (proj2 (Z.eqb_neq _ _)) by done. msteps. cbn [writable Z.eqb negb orb].
  destruct (src =? NULL), (Z.eqb_spec (Z.of_nat (length input)) 0) as [|Hc0]; msteps; try by eapply start_good.
  eapply start_good; try done. split_and!; try done; lia.
Qed.

(** Taking an end away from calls that do not use it. *)
Lemma uses_ok_closed s x l t t' g es' (wrt : bool) :
  pinv s x l -> runs true s t -> t' <> t -> calls s !! t' = Some g -> idle (if wrt then Wr else R) (calls s) ->
  uses_ok (if wrt then r_open s else false) (if wrt then false else w_open s) es' g.
Proof.
  intros Hi (_ & _ & Hfr) Hne Hg Hid. specialize (Hid t' g Hg).
  destruct (pi_frames _ _ _ Hi t' g Hg) as (_ & Hfo & Hu).
  destruct (fragile g) eqn:E; [by destruct (Hne (Hfr eq_refl t' g Hg E))|].
  destruct g, wrt; cbn in *; try done; destruct_and?; congruence.
Qed.

(** Closing an end. *)
Lemma close_starts s x l t (wrt : bool) :
  let ep := if wrt then Wr else R in
  pinv s x l -> runs true s t -> free_thread s t -> (if wrt then w_open s else r_open s) = true ->
  idle ep (calls s) ->
  wp (pipe_close ep) (fun f m => good (mk_machine m (<[t := f]> (calls s)) (if wrt then r_open s else false)
    (if wrt then false else w_open s) (sent s) (received s))) (mem s).
Proof.
  intros ep Hi Hrun Hfree Ho Hid. destruct (pi_distinct _ _ _ Hi) as (Hne & HR & HW), (pi_counts _ _ _ Hi) as [Hr Hw].
  destruct (pi_gone _ _ _ Hi) as [HgR HgW], (pi_fixed _ _ _ Hi) as [Hbuf Hrt]. pose proof (pi_pipe _ _ _ Hi) as Hpk.
  assert (Hov : over (doing s t) = true).
  { unfold doing. destruct (calls s !! t) eqn:E; [|done]. by apply Hfree. }
  assert (Hn : pw_waits (sys (mem s)) t = None).
  { eapply not_waiting; [done|apply Hrun|]. by destruct (doing s t). }
  assert (Hnw : waker (doing s t) = false) by (by destruct (doing s t)).
  eapply wp_mono.
  { apply (wp_close_section (mem s) x ep wrt); try apply Hi; [by destruct wrt| |].
    - destruct wrt; by apply Hi.
    - destruct wrt; [by rewrite Hw, Ho|by rewrite Hr, Ho]. }
  intros f m' (w & Hs & -> & ->). left. exists (if wrt then unwritten x else unread x), l.
  pose proof Hrun as (_ & Hc & _). rewrite Hrt.
  apply (pinv_moved s x l); try done; cbn.
  - apply moved_same; try done. intros k g Hk Hg. destruct wrt, g; cbn in *; try done; simplify_eq; auto.
  - intros t' g Ht' Hg. by eapply uses_ok_closed.
  - intros t' k g _ _ Hk Hg. destruct wrt, g; cbn in *; try done; simplify_eq; auto; right; auto.
  - destruct wrt; split_and!; try done; auto.
  - destruct wrt; cbn; rewrite ?Hr, ?Hw; split_and!; try done.
    + by destruct (r_open s).
    + right. split_and!; try done. by apply Hi.
    + by destruct (w_open s).
    + left. split_and!; try done. by apply Hi.
  - by rewrite lookup_insert_eq.
  - destruct wrt; by eapply pipe_ok_ends.
  - by destruct wrt.
  - by destruct wrt.
  - destruct wrt; [apply Hi|done].
  - destruct wrt; [done|apply Hi].
  - by destruct wrt.
  - intros Hf Hid'. destruct wrt.
    + eapply HgR; [done|]. apply (idle_back s x l t _ R Hi) in Hid'; [done|by destruct (doing s t)|by left].
    + by destruct (Hid' t (cl_wake R P RT ((0 =? 0) && (writers x =? 0)))); [rewrite lookup_insert_eq|].
  - intros Hf Hid'. destruct wrt.
    + by destruct (Hid' t (cl_wake Wr P RT ((readers x =? 0) && (0 =? 0)))); [rewrite lookup_insert_eq|].
    + eapply HgW; [done|]. apply (idle_back s x l t _ Wr Hi) in Hid'; [done|by destruct (doing s t)|by right].
  - apply Hi.
Qed.

(** The rest of the system. *)
Lemma other_good s x l w :
  pinv s x l -> pw_other (sys (mem s)) w ->
  pinv (mk_machine ((mem s) <| sys := w |>) (calls s) (r_open s) (w_open s) (sent s) (received s)) x l.
Proof.
  intros Hi Ho. destruct (pw_other_ok _ _ Ho (pi_ok _ _ _ Hi)) as (Hok & Hw & Hcur).
  constructor; cbn; try apply Hi; try done.
  - eapply pipe_ok_ends; [apply Hi|done..].
  - intros t k. rewrite Hw. apply Hi.
  - intros t f k q Hf. rewrite Hw. by apply (pi_waits_here _ _ _ Hi t f).
  - destruct Hcur as [E|E]; [rewrite E, Hw; apply Hi|by rewrite E].
Qed.
End machine.
