(* ===== verification/PipeTheorems.v ===== *)
(** * Correctness of pipes

    The machine of [PipeProps] from a fresh pipe on: every interleaving of reads,
    writes and closes is free of faults, delivers the bytes in order, wakes the
    right threads and gives everything back.  Two theorems at the end show what
    happens without the guard on the windows in which the code has let go of
    the lock. *)

From S2P Require Import Prelude Errno Sched Fd Pipe PipeProps.

Section theorems.
Context {W : Type} `{!PipeWorld W}.
Context (R Wr P B : Z) (RT : ns_pipe_runtime W).
Implicit Types (s : machine (W := W)) (t : Z).

Abbreviation pinv := (pinv R Wr P B RT).
Abbreviation good := (good R Wr P B RT).
Abbreviation step := (step R Wr).

(** A pipe as [ns_pipe_create] leaves it. *)
Record fresh s : Prop := {
  fr_ok : pw_ok (sys (mem s));
  fr_runtime : runtime_ok RT;
  fr_ends : R <> Wr /\ R <> NULL /\ Wr <> NULL;
  fr_pipe : exists cap, NS_PIPE_ATOMIC_MAX <= cap < 2 ^ 62 /\
    pipes (mem s) !! P = Some (mk_pipe RT B cap 0 0 1 1) /\
    exists bytes, buffers (mem s) !! B = Some bytes /\ Z.of_nat (length bytes) = cap;
  fr_reader : endpoints (mem s) !! R = Some (mk_endpoint P 0);
  fr_writer : endpoints (mem s) !! Wr = Some (mk_endpoint P 1);
  fr_open : r_open s = true /\ w_open s = true;
  fr_calls : calls s = ∅;
  fr_waits t k : pw_waits (sys (mem s)) t <> Some (k, P);
  fr_current : pw_waits (sys (mem s)) (pw_current (sys (mem s))) = None;
  fr_stream : sent s = [] /\ received s = [] }.

Lemma fresh_good s : fresh s -> good s.
Proof.
  intros [Hok Hrt Hne (cap & Hcap & Hp & bytes & Hb & Hl) HR HW [Ho1 Ho2] Hc Hw Hcur [Hs Hr]].
  left. exists (mk_pipe RT B cap 0 0 1 1), []. unfold NS_PIPE_ATOMIC_MAX in Hcap.
  constructor; rewrite ?Ho1, ?Ho2, ?Hc; try done; try (by intros; congruence).
  - constructor; cbn; try done; [lia..|]. by exists bytes.
  - intros t k Hk. by destruct (Hw t k).
  - by rewrite Hs, Hr.
Qed.

Lemma step_good s s' : good s -> step true s s' -> good s'.
Proof.
  intros [(x & l & Hi)|Hd] Hst.
  - destruct Hst as [t dest count f m Hrun Hfr Ho Hc E|t src input f m Hrun Hfr Ho Hc E|t f m Hrun Hfr Ho Hid E
      |t f m Hrun Hfr Ho Hid E|t f f' m Hrun Hf Hov E|w Ho].
    + by apply (wp_result _ _ _ _ _ (read_starts R Wr P B RT s x l t dest count Hi Hrun Hfr Ho Hc)) in E.
    + by apply (wp_result _ _ _ _ _ (write_starts R Wr P B RT s x l t src input Hi Hrun Hfr Ho Hc)) in E.
    + by apply (wp_result _ _ _ _ _ (close_starts R Wr P B RT s x l t false Hi Hrun Hfr Ho Hid)) in E.
    + by apply (wp_result _ _ _ _ _ (close_starts R Wr P B RT s x l t true Hi Hrun Hfr Ho Hid)) in E.
    + by apply (wp_result _ _ _ _ _ (resume_good R Wr P B RT s x l t f Hi Hrun Hf Hov)) in E.
    + left. exists x, l. by apply other_good.
  - destruct Hd as [Hok [Hr Hw] Hov Hfree Hstr].
    destruct Hst as [t dest count f m Hrun Hfr Ho Hc E|t src input f m Hrun Hfr Ho Hc E|t f m Hrun Hfr Ho Hid E
      |t f m Hrun Hfr Ho Hid E|t f f' m Hrun Hf Hnov E|w Ho]; try congruence.
    + by rewrite (Hov t f Hf) in Hnov.
    + right. constructor; try done. by apply (pw_other_ok _ _ Ho).
Qed.

Lemma steps_good s0 s : fresh s0 -> rtc (step true) s0 s -> good s.
Proof.
  intros H0%fresh_good Hs. induction Hs as [|s0 s1 s2 Hs1 _ IH]; [done|]. apply IH. by eapply step_good.
Qed.

(** The next step of a running thread has no defined result. *)
Inductive faults (guarded : bool) s : Prop :=
  | fl_read t dest count :
      runs guarded s t -> free_thread s t -> r_open s = true -> 0 <= count < 2 ^ 63 ->
      pipe_read R dest count (mem s) = None -> faults guarded s
  | fl_write t src input :
      runs guarded s t -> free_thread s t -> w_open s = true -> Z.of_nat (length input) < 2 ^ 63 ->
      pipe_write Wr src input (Z.of_nat (length input)) (mem s) = None -> faults guarded s
  | fl_close_read t :
      runs guarded s t -> free_thread s t -> r_open s = true -> idle R (calls s) ->
      pipe_close R (mem s) = None -> faults guarded s
  | fl_close_write t :
      runs guarded s t -> free_thread s t -> w_open s = true -> idle Wr (calls s) ->
      pipe_close Wr (mem s) = None -> faults guarded s
  | fl_resume t f :
      runs guarded s t -> calls s !! t = Some f -> over f = false ->
      resume f (mem s) = None -> faults guarded s.

Lemma wp_defined {S A} (m : M S A) Q (s : S) : wp m Q s -> m s <> None.
Proof. intros (x & s' & E & _). by rewrite E. Qed.

Lemma good_no_fault s : good s -> ~ faults true s.
Proof.
  intros [(x & l & Hi)|Hd] Hf.
  - destruct Hf as [t dest count Hrun Hfr Ho Hc E|t src input Hrun Hfr Ho Hc E|t Hrun Hfr Ho Hid E
      |t Hrun Hfr Ho Hid E|t f Hrun Hf Hov E]; revert E; eapply wp_defined.
    + by eapply (read_starts R Wr P B RT).
    + by eapply (write_starts R Wr P B RT).
    + by apply (close_starts R Wr P B RT s x l t false).
    + by apply (close_starts R Wr P B RT s x l t true).
    + by eapply (resume_good R Wr P B RT).
  - destruct Hd as [Hok [Hr Hw] Hov Hfree Hstr]. destruct Hf as [| | | |t f Hrun Hf Hnov E]; try congruence.
    by rewrite (Hov t f Hf) in Hnov.
Qed.

(** C28 Safety of pipes.  From a fresh pipe, after any interleaving of reads,
    writes, closes and other activity in which the windows of [fragile] are not
    entered, no thread's next step goes wrong: no access to a freed pipe,
    endpoint or buffer, no read of a byte that was never written, no index out
    of the ring, no call of a callback that is not there. *)
Theorem pipe_safe s0 s : fresh s0 -> rtc (step true) s0 s -> ~ faults true s.
Proof. intros H0 Hs. by apply good_no_fault, (steps_good s0). Qed.

(** C29 A pipe is a queue.  After any interleaving in which the windows of
    [fragile] are not entered, what readers got is a prefix of what writers put
    in, and while the pipe exists the rest is what its ring holds, within the
    capacity. *)
Theorem pipe_fifo s0 s :
  fresh s0 -> rtc (step true) s0 s -> received s `prefix_of` sent s /\
  forall x, pipes (mem s) !! P = Some x -> exists queue bytes, sent s = received s ++ queue /\
    Z.of_nat (length queue) = used x /\ used x <= capacity x /\
    buffers (mem s) !! buffer x = Some bytes /\ holds bytes (capacity x) (head x) queue.
Proof.
  intros H0 Hs. destruct (steps_good _ _ H0 Hs) as [(x & l & Hi)|Hd].
  - rewrite (pi_stream _ _ _ _ _ _ _ _ Hi). split; [by apply prefix_app_r|]. intros x' Hx'.
    rewrite (pi_at _ _ _ _ _ _ _ _ Hi) in Hx'. simplify_eq.
    destruct (pi_pipe _ _ _ _ _ _ _ _ Hi) as [_ _ _ Hu Hfit (bytes & Hb & _ & Hho)]. by exists l, bytes.
  - split; [apply Hd|]. intros x Hx. by rewrite (proj1 (dd_freed _ _ _ _ _ Hd)) in Hx.
Qed.

Lemma good_waits s t k :
  good s -> (forall t' f, calls s !! t' = Some f -> waker f = false) ->
  pw_waits (sys (mem s)) t = Some (k, P) -> (exists x, pipes (mem s) !! P = Some x) ->
  exists x f, pipes (mem s) !! P = Some x /\ NS_PIPE_ATOMIC_MAX <= capacity x /\
    calls s !! t = Some f /\ waiting_for f = Some k /\ must_wait (r_open s) (w_open s) x f.
Proof.
  intros [(x & l & Hi)|Hd] Hq Hw [x0 Hx0]; [|by rewrite (proj1 (dd_freed _ _ _ _ _ Hd)) in Hx0].
  destruct (pi_waits _ _ _ _ _ _ _ _ Hi t k Hw) as (f & Hf & Hwf & [Hm|(t' & g & Hg & Hwk)]).
  - exists x, f. split_and!; try done; [apply Hi|apply (pi_pipe _ _ _ _ _ _ _ _ Hi)].
  - by destruct (not_waker R Wr k g (Hq t' g Hg)).
Qed.

(** C30 No lost wake-up and no deadlock, as long as no other thread is let in
    between the two critical sections of a blocking write or between the critical
    section of a close and its end (the windows of [fragile]; without this
    restriction a writer can miss the close of the reading end).  In a state
    reached in this way in which no call still has to wake the other side, a
    thread that sleeps on the pipe has to: a reader's
    pipe is empty with the writing end open, a writer's has no room for it (or
    none at all, when it writes more than the atomic limit) with the reading end
    open.  In particular a reader and a writer never sleep at the same time. *)
Theorem pipe_no_lost_wakeup s0 s t k :
  fresh s0 -> rtc (step true) s0 s -> (exists x, pipes (mem s) !! P = Some x) ->
  (forall t' f, calls s !! t' = Some f -> waker f = false) ->
  pw_waits (sys (mem s)) t = Some (k, P) ->
  (exists x f, pipes (mem s) !! P = Some x /\ calls s !! t = Some f /\ waiting_for f = Some k /\
    must_wait (r_open s) (w_open s) x f) /\
  forall t' k', pw_waits (sys (mem s)) t' = Some (k', P) -> k' = k.
Proof.
  intros H0 Hs Hx Hq Hw. pose proof (steps_good _ _ H0 Hs) as Hg.
  destruct (good_waits s t k Hg Hq Hw Hx) as (x & f & Hp & Hcap & Hf & Hwf & Hm).
  split; [by exists x, f|]. intros t' k' Hw'.
  destruct (good_waits s t' k' Hg Hq Hw' Hx) as (x' & f' & Hp' & _ & Hf' & Hwf' & Hm').
  rewrite Hp in Hp'. injection Hp' as <-. unfold NS_PIPE_ATOMIC_MAX in *.
  destruct f, f'; cbn in *; simplify_eq; try done; destruct_and?;
    case_match; unfold NS_PIPE_ATOMIC_MAX in *; lia.
Qed.

(** Nothing leaks.  Once both ends are closed and every call has returned, the
    pipe, its buffer and both endpoints are freed. *)
Theorem pipe_released s0 s :
  fresh s0 -> rtc (step true) s0 s -> r_open s = false -> w_open s = false ->
  (forall t f, calls s !! t = Some f -> over f = true) ->
  pipes (mem s) !! P = None /\ buffers (mem s) !! B = None /\
  endpoints (mem s) !! R = None /\ endpoints (mem s) !! Wr = None.
Proof.
  intros H0 Hs Hr Hw Hov. destruct (steps_good _ _ H0 Hs) as [(x & l & Hi)|Hd]; [|apply Hd].
  destruct (pi_closing _ _ _ _ _ _ _ _ Hi Hr Hw) as (t & f & Hf & Hcl). apply Hov in Hf. by destruct f.
Qed.

(** What a read returns.  With bytes in the queue a read takes as many as it
    asked for and there are, from the front; with none it ends at end of file if
    the writing end is closed, and otherwise waits, or fails with [NS_EAGAIN] if
    the runtime cannot block. *)
Theorem pipe_read_result s0 s t count f' m queue :
  fresh s0 -> rtc (step true) s0 s -> runs true s t -> calls s !! t = Some (rd_loop R P count) ->
  sent s = received s ++ queue -> resume (rd_loop R P count) (mem s) = Some (f', m) ->
  if bool_decide (queue = []) then
    f' = if w_open s then if can_block RT then rd_commit R P count else returned (- NS_EAGAIN) []
         else returned 0 []
  else f' = rd_wake R P (take (Z.to_nat count) queue).
Proof.
  intros H0 Hs Hrun Hf Hq E. destruct (steps_good _ _ H0 Hs) as [(x & l & Hi)|Hd].
  2: { by apply (dd_over _ _ _ _ _ Hd) in Hf. }
  rewrite (pi_stream _ _ _ _ _ _ _ _ Hi) in Hq. apply app_inv_head in Hq as ->.
  destruct (pi_frames _ _ _ _ _ _ _ _ Hi t _ Hf) as (_ & (_ & _ & Hcount) & _).
  destruct (can_run R Wr P B RT _ _ _ _ _ Hi Hrun Hf eq_refl) as [Hcur Hn].
  destruct (pi_counts _ _ _ _ _ _ _ _ Hi) as [_ Hws], (pi_fixed _ _ _ _ _ _ _ _ Hi) as [_ Hrt].
  pose proof (pi_pipe _ _ _ _ _ _ _ _ Hi) as Hpk. pose proof (pk_used _ _ _ Hpk) as Hu.
  eapply wp_result in E; [|apply (wp_read_section R P (mem s) x queue); try done; apply Hi].
  assert (Hwr : writers x = 0 <-> w_open s = false) by (rewrite Hws; by destruct (w_open s)).
  destruct E as [w n _ -> Hne|w _ Hz Hw|w _ Hz Hw Hb|w _ Hz Hw Hb]; case_bool_decide as Eq; subst; cbn in *;
    try lia;
    try (exfalso; destruct queue; [done|cbn in *; lia]).
  - f_equal. destruct (Z.min_spec count (used x)) as [[? ->]|[? ->]]; [done|].
    rewrite !take_ge by lia. done.
  - by rewrite (proj1 Hwr).
  - rewrite <- Hrt, Hb. by destruct (w_open s); [|destruct Hw; apply Hwr].
  - rewrite <- Hrt, Hb. by destruct (w_open s); [|destruct Hw; apply Hwr].
Qed.

(** What a write does.  A write of at most [NS_PIPE_ATOMIC_MAX] bytes puts all of
    them into the queue in one step or none; a longer one puts in as much as
    fits.  It fails with [NS_EPIPE] exactly when it has put in nothing and the
    reading end is closed. *)
Theorem pipe_write_atomic s0 s t input count written f' m x :
  fresh s0 -> rtc (step true) s0 s -> runs true s t ->
  calls s !! t = Some (wr_loop Wr P input count written) -> written < count ->
  pipes (mem s) !! P = Some x ->
  resume (wr_loop Wr P input count written) (mem s) = Some (f', m) ->
  (f' = returned (- NS_EPIPE) [] <-> written = 0 /\ r_open s = false) /\
  (emitted (wr_loop Wr P input count written) f' = [] \/
   emitted (wr_loop Wr P input count written) f' =
     if count <=? NS_PIPE_ATOMIC_MAX then input
     else take (Z.to_nat (capacity x - used x)) (drop (Z.to_nat written) input)).
Proof.
  intros H0 Hs Hrun Hf Hlt Hx E. destruct (steps_good _ _ H0 Hs) as [(x' & l & Hi)|Hd].
  2: { by apply (dd_over _ _ _ _ _ Hd) in Hf. }
  assert (x' = x) as -> by (pose proof (pi_at _ _ _ _ _ _ _ _ Hi); congruence).
  destruct (pi_frames _ _ _ _ _ _ _ _ Hi t _ Hf) as (_ & (_ & _ & Hcount & Hwr & Hmax & Hat) & _).
  destruct (can_run R Wr P B RT _ _ _ _ _ Hi Hrun Hf eq_refl) as [Hcur Hn].
  destruct (pi_counts _ _ _ _ _ _ _ _ Hi) as [Hrs _].
  pose proof (pi_pipe _ _ _ _ _ _ _ _ Hi) as Hpk. pose proof (pk_used _ _ _ Hpk) as Hu.
  assert (Hrd : readers x = 0 <-> r_open s = false) by (rewrite Hrs; by destruct (r_open s)).
  cbn [resume] in E. unfold write_turn in E. rewrite (proj2 (Z.ltb_lt _ _) Hlt) in E.
  eapply wp_result in E; [|apply (wp_write_section Wr P (mem s) x l); try done; [apply Hi|lia|lia]].
  destruct E as [w Hsm Hr|w Hsm Hr Hb|w Hsm Hr Hfull Hne|w Ha Hr Hb Hle Hroom|w Hsm Hr Hb Hgt Hfull Hz|w bytes n Hsm Hr En Hpos Hall Hpk'].
  all: split; [|cbn [emitted]; try (by left)].
  - destruct (Z.eqb_spec written 0) as [->|Hz]; cbn [negb]; [by rewrite <- Hrd|].
    rewrite s64_small by lia. split; [intros [= ?]; unfold NS_EPIPE in *; lia|naive_solver].
  - naive_solver.
  - rewrite s64_small by lia. split; [intros [= ?]; unfold NS_EPIPE in *; lia|naive_solver].
  - naive_solver.
  - naive_solver.
  - naive_solver.
  - right. replace (written + n - written) with n by lia. destruct (Z.leb_spec count NS_PIPE_ATOMIC_MAX) as [Hle|Hgt].
    + rewrite (Hall Hle). assert (written = 0) as -> by lia. rewrite take_ge by (rewrite length_drop; lia). done.
    + destruct (Z.min_spec (count - written) (capacity x - used x)) as [[? Hm]|[? Hm]]; rewrite En, Hm; [|done].
      rewrite !take_ge by (rewrite length_drop; lia). done.
Qed.
End theorems.

(** ** A small system with one pipe *)

Module PipeToy.

(** Threads that sleep, and the one that runs. *)
Record world := mk_world { running : Z; asleep : gmap Z (ns_wait_kind * Z) }.

#[export] Program Instance world_pipe : PipeWorld world := {|
  pw_ok w := asleep w !! NULL = None;
  pw_current := running;
  pw_waits w t := asleep w !! t;
  pw_other w w' := asleep w' = asleep w /\ asleep w' !! running w' = None |}.
Next Obligation. intros w w' [E1 E2] Hok. rewrite E1. split_and!; [done|done|]. right. by rewrite <- E1. Qed.

Definition sleep (k : ns_wait_kind) (q : Z) : M world unit :=
  modify (fun w => mk_world (running w) (<[running w := (k, q)]> (asleep w))).
Definition park : M world unit := modify (fun w => mk_world NULL (asleep w)).
Definition wake_up (k : ns_wait_kind) (q maximum : Z) : M world Z :=
  modify (fun w => mk_world (running w) (filter (fun e => e.2 <> (k, q)) (asleep w)));; mret 0.

Definition rt : ns_pipe_runtime world :=
  mk_runtime 0 None (Some (fun _ _ _ => mret tt)) (Some (mret 0)) (Some (fun _ => mret tt)) (Some sleep)
    (Some park) (Some wake_up) 512.

Lemma rt_ok : runtime_ok rt.
Proof.
  constructor; cbn.
  - intros f w [= <-] Hok. by apply wp_ret.
  - intros f token w [= <-] Hok. by apply wp_ret.
  - intros f k q w [= <-] Hok _ Hcur _. apply wp_modify. cbn. split_and!; [|done|].
    + rewrite lookup_insert_ne; [apply Hok|done].
    + intros t. destruct (Z.eqb_spec t (running w)) as [->|]; [by rewrite lookup_insert_eq|].
      by rewrite lookup_insert_ne.
  - intros f w [= <-] Hok _. by apply wp_modify.
  - eexists. split; [done|]. intros k q w Hok _. apply wp_bind, wp_modify, wp_ret. cbn. split_and!; [|done|].
    + apply map_lookup_filter_None. by left.
    + intros t. rewrite map_lookup_filter. destruct (asleep w !! t) as [e|]; cbn; [|by case_decide].
      destruct (decide (Some e = Some (k, q))) as [[= ->]|Hne]; [by rewrite option_guard_False by naive_solver|].
      rewrite option_guard_True; [done|]. intros ->. by apply Hne.
  - eexists. split; [done|]. intros p sz al w Hok. by apply wp_ret.
Qed.

(** Actions of the machine, executable. *)
Inductive act :=
  | do_read (t dest count : Z) | do_write (t src : Z) (input : list Z)
  | do_close_read (t : Z) | do_close_write (t : Z) | do_resume (t : Z) | do_switch (t : Z).

Abbreviation mach := (machine (W := world)).
Definition R : Z := 100.
Definition Wr : Z := 101.
Definition P : Z := 102.
Definition B : Z := 103.

Definition may_run (guarded : bool) (s : mach) (t : Z) : Prop :=
  t <> NULL /\ running (sys (mem s)) = t /\
  (guarded = true -> map_Forall (fun t' f => fragile f = true -> t' = t) (calls s)).
Definition may_start (s : mach) (t : Z) : Prop := over (doing s t) = true.
Definition no_use (ep : Z) (s : mach) : Prop := map_Forall (fun _ f => end_of f <> Some ep) (calls s).
#[export] Instance may_run_dec guarded s t : Decision (may_run guarded s t).
Proof. unfold may_run. apply _. Defined.
#[export] Instance may_start_dec s t : Decision (may_start s t).
Proof. unfold may_start. apply _. Defined.
#[export] Instance no_use_dec ep s : Decision (no_use ep s).
Proof. unfold no_use. apply _. Defined.

Definition perform (guarded : bool) (s : mach) (a : act) : option mach :=
  let next t r f m := mk_machine m (<[t := f]> (calls s)) (if bool_decide (r = R) then false else r_open s)
    (if bool_decide (r = Wr) then false else w_open s) (sent s) (received s) in
  match a with
  | do_read t dest count =>
    guard (may_run guarded s t /\ may_start s t /\ r_open s = true /\ 0 <= count < 2 ^ 63);;
    '(f, m) ← pipe_read R dest count (mem s); Some (next t 0 f m)
  | do_write t src input =>
    guard (may_run guarded s t /\ may_start s t /\ w_open s = true /\ Z.of_nat (length input) < 2 ^ 63);;
    '(f, m) ← pipe_write Wr src input (Z.of_nat (length input)) (mem s); Some (next t 0 f m)
  | do_close_read t =>
    guard (may_run guarded s t /\ may_start s t /\ r_open s = true /\ no_use R s);;
    '(f, m) ← pipe_close R (mem s); Some (next t R f m)
  | do_close_write t =>
    guard (may_run guarded s t /\ may_start s t /\ w_open s = true /\ no_use Wr s);;
    '(f, m) ← pipe_close Wr (mem s); Some (next t Wr f m)
  | do_resume t =>
    f ← calls s !! t;
    guard (may_run guarded s t /\ over f = false);;
    '(f', m) ← resume f (mem s);
    Some (mk_machine m (<[t := f']> (calls s)) (r_open s) (w_open s) (sent s ++ emitted f f')
      (received s ++ absorbed f f'))
  | do_switch t =>
    guard (asleep (sys (mem s)) !! t = None);;
    Some (mk_machine ((mem s) <| sys := mk_world t (asleep (sys (mem s))) |>) (calls s) (r_open s) (w_open s)
      (sent s) (received s))
  end.

Lemma may_run_runs guarded s t : may_run guarded s t -> runs guarded s t.
Proof. intros (? & ? & H). by split_and!. Qed.
Lemma may_start_free s t : may_start s t -> free_thread s t.
Proof. intros H f Hf. unfold may_start, doing in H. by rewrite Hf in H. Qed.

Lemma perform_step guarded s a s' : perform guarded s a = Some s' -> step R Wr guarded s s'.
Proof.
  destruct a as [t dest count|t src input|t|t|t|t]; cbn [perform]; intros Hp.
  1-4: apply bind_Some in Hp as ((Hr & Hs & Ho & Hc) & _ & Hp); apply bind_Some in Hp as ([f m] & E & [= <-]);
    apply may_run_runs in Hr; apply may_start_free in Hs.
  - by eapply st_read.
  - by eapply st_write.
  - by eapply st_close_read.
  - by eapply st_close_write.
  - apply bind_Some in Hp as (f & Hf & Hp). apply bind_Some in Hp as ((Hr & Ho) & _ & Hp).
    apply bind_Some in Hp as ([f' m] & E & [= <-]). apply may_run_runs in Hr. by eapply st_resume.
  - apply bind_Some in Hp as (Hn & _ & [= <-]). by apply st_other.
Qed.

Fixpoint perform_all (guarded : bool) (s : mach) (l : list act) : option mach :=
  match l with [] => Some s | a :: l => perform guarded s a ≫= fun s' => perform_all guarded s' l end.

Lemma perform_steps guarded s l s' : perform_all guarded s l = Some s' -> rtc (step R Wr guarded) s s'.
Proof.
  revert s. induction l as [|a l IH]; intros s; cbn; [by intros [= <-]|].
  intros (s1 & H1%perform_step & H2)%bind_Some. eapply rtc_l; [done|]. by apply IH.
Qed.

(** Thread 1 runs; the pipe has 512 bytes. *)
Definition start : mach :=
  mk_machine (mk_pstate {[P := mk_pipe rt B 512 0 0 1 1]} {[R := mk_endpoint P 0; Wr := mk_endpoint P 1]}
    {[B := replicate 512 None]} (mk_world 1 ∅)) ∅ true true [] [].

Lemma start_fresh : fresh R Wr P B rt start.
Proof.
  constructor; [done|apply rt_ok|done| |done..].
  exists 512. split; [done|]. split; [done|]. exists (replicate 512 None). split; [done|]. by rewrite length_replicate.
Qed.

Definition at_end (guarded : bool) (l : list act) : mach := default start (perform_all guarded start l).
Definition works (guarded : bool) (l : list act) : bool :=
  match perform_all guarded start l with Some _ => true | None => false end.

Lemma reached guarded l : works guarded l = true -> rtc (step R Wr guarded) start (at_end guarded l).
Proof.
  unfold works, at_end. destruct (perform_all guarded start l) as [s|] eqn:E; [|done]. intros _.
  by apply perform_steps in E.
Qed.

(** Thread 1 has written three bytes and starts to read two. *)
Definition reading : list act :=
  [do_write 1 1 [7; 8; 9]; do_resume 1; do_resume 1; do_resume 1; do_read 1 1 2].
(** Thread 1 starts to write three bytes. *)
Definition writing : list act := [do_write 1 1 [7; 8; 9]].
(** Thread 1 waits for bytes. *)
Definition waiting : list act := [do_read 1 1 4; do_resume 1].
(** Both ends are closed. *)
Definition closed : list act :=
  [do_close_read 1; do_resume 1; do_resume 1; do_close_write 1; do_resume 1; do_resume 1].
(** Thread 1 is closing the reading end when thread 2 closes the writing end. *)
Definition race : list act :=
  [do_close_read 1; do_switch 2; do_close_write 2; do_resume 2; do_resume 2; do_switch 1].
(** Thread 1 finds the pipe full; thread 2 closes the reading end before thread 1
    looks again. *)
Definition missed : list act :=
  [do_write 1 1 (replicate 512 0); do_resume 1; do_resume 1; do_resume 1;
   do_write 1 1 (replicate 513 0); do_resume 1;
   do_switch 2; do_close_read 2; do_resume 2; do_resume 2;
   do_switch 1; do_resume 1; do_resume 1].

Ltac reach l := apply (reached _ l); vm_compute; reflexivity.
Lemma reading_reached : rtc (step R Wr true) start (at_end true reading).
Proof. reach reading. Qed.
Lemma writing_reached : rtc (step R Wr true) start (at_end true writing).
Proof. reach writing. Qed.
Lemma waiting_reached : rtc (step R Wr true) start (at_end true waiting).
Proof. reach waiting. Qed.
Lemma closed_reached : rtc (step R Wr true) start (at_end true closed).
Proof. reach closed. Qed.
Lemma race_reached : rtc (step R Wr false) start (at_end false race).
Proof. reach race. Qed.
Lemma missed_reached : rtc (step R Wr false) start (at_end false missed).
Proof. reach missed. Qed.

(** Deciding a property of all calls by evaluation. *)
Lemma all_calls (s : mach) (p : Z -> frame world -> bool) :
  forallb (fun e => p e.1 e.2) (map_to_list (calls s)) = true -> forall t f, calls s !! t = Some f -> p t f = true.
Proof.
  intros H t f Hf. rewrite forallb_forall in H. apply (H (t, f)).
  apply list_elem_of_In, elem_of_map_to_list, Hf.
Qed.
Lemma may_run_eval s t (Ht : t <> NULL) :
  running (sys (mem s)) = t ->
  forallb (fun e => implb (fragile e.2) (e.1 =? t)) (map_to_list (calls s)) = true -> runs true s t.
Proof.
  intros Hr H. split_and!; [done..|]. intros _ t' f Hf Hfr.
  pose proof (all_calls s (fun t' f => implb (fragile f) (t' =? t)) H t' f Hf) as E. cbn in E.
  rewrite Hfr in E. by apply Z.eqb_eq.
Qed.

(** C31 A close is not safe against a close of the other end.  Between its critical
    section and the wake-up that follows, [pipe_close] has no claim on the pipe
    any more.  When the other end is closed in that window, the pipe is freed
    and the first close goes on to use it. *)
Theorem pipe_close_race :
  exists s, rtc (step R Wr false) start s /\ faults R Wr false s.
Proof.
  exists (at_end false race). split; [apply race_reached|].
  apply (fl_resume _ _ _ _ 1 (cl_wake R P rt false)).
  - split; [done|]. split; [vm_compute; reflexivity|discriminate].
  - vm_compute. reflexivity.
  - reflexivity.
  - vm_compute. reflexivity.
Qed.

(** C32 A writer can miss the close of the reading end.  A writer of more than
    [NS_PIPE_ATOMIC_MAX] bytes that finds the pipe full lets go of the lock and
    looks again, but only at the free space; when the reading end was closed in
    between, it goes to sleep although nobody is left to wake it. *)
Theorem pipe_writer_misses_close :
  exists s, rtc (step R Wr false) start s /\ r_open s = false /\
    pw_waits (sys (mem s)) 1 = Some (NS_WAIT_PIPE_WRITE, P) /\
    forall t f, calls s !! t = Some f -> t <> 1 -> over f = true.
Proof.
  exists (at_end false missed). split; [apply missed_reached|]. split; [by vm_compute|]. split; [by vm_compute|].
  intros t f Hf Ht. assert (Hb : (t =? 1) || over f = true).
  { clear Ht. revert t f Hf. apply (all_calls _ (fun t f => (t =? 1) || over f)). by vm_compute. }
  by rewrite (proj2 (Z.eqb_neq t 1) Ht) in Hb.
Qed.

Lemma pipe_safe_witness : ~ faults R Wr true (at_end true reading).
Proof. exact (pipe_safe R Wr P B rt start _ start_fresh reading_reached). Defined.

Lemma pipe_fifo_witness : received (at_end true reading) `prefix_of` sent (at_end true reading) /\
  sent (at_end true reading) = [7; 8; 9].
Proof. split; [exact (proj1 (pipe_fifo R Wr P B rt start _ start_fresh reading_reached))|by vm_compute]. Defined.

Lemma pipe_no_lost_wakeup_witness : exists x f, pipes (mem (at_end true waiting)) !! P = Some x /\
  calls (at_end true waiting) !! 1 = Some f /\ waiting_for f = Some NS_WAIT_PIPE_READ /\
  must_wait (r_open (at_end true waiting)) (w_open (at_end true waiting)) x f.
Proof.
  apply (pipe_no_lost_wakeup R Wr P B rt start _ 1 NS_WAIT_PIPE_READ start_fresh waiting_reached).
  - eexists. by vm_compute.
  - intros t f Hf. apply negb_true_iff. revert t f Hf.
    apply (all_calls _ (fun _ f => negb (waker f))). by vm_compute.
  - by vm_compute.
Defined.

Lemma pipe_released_witness : pipes (mem (at_end true closed)) !! P = None /\
  buffers (mem (at_end true closed)) !! B = None /\ endpoints (mem (at_end true closed)) !! R = None /\
  endpoints (mem (at_end true closed)) !! Wr = None.
Proof.
  apply (pipe_released R Wr P B rt start _ start_fresh closed_reached).
  - by vm_compute.
  - by vm_compute.
  - apply (all_calls _ (fun _ f => over f)). by vm_compute.
Defined.

Lemma reading_runs : runs true (at_end true reading) 1.
Proof. apply may_run_eval; [done|vm_compute; reflexivity..]. Qed.
Lemma reading_call : calls (at_end true reading) !! 1 = Some (rd_loop R P 2).
Proof. vm_compute. reflexivity. Qed.
Lemma reading_stream : sent (at_end true reading) = received (at_end true reading) ++ [7; 8; 9].
Proof. vm_compute. reflexivity. Qed.
Lemma writing_runs : runs true (at_end true writing) 1.
Proof. apply may_run_eval; [done|vm_compute; reflexivity..]. Qed.
Lemma writing_call : calls (at_end true writing) !! 1 = Some (wr_loop Wr P [7; 8; 9] 3 0).
Proof. vm_compute. reflexivity. Qed.
Lemma writing_pipe : pipes (mem (at_end true writing)) !! P = Some (mk_pipe rt B 512 0 0 1 1).
Proof. vm_compute. reflexivity. Qed.

Definition defined {A} (o : option A) : bool := match o with Some _ => true | None => false end.
Lemma defined_Some {A B} (o : option (A * B)) : defined o = true -> exists x y, o = Some (x, y).
Proof. destruct o as [[x y]|]; [|done]. intros _. by exists x, y. Qed.

Lemma pipe_read_result_witness : exists f' m,
  resume (rd_loop R P 2) (mem (at_end true reading)) = Some (f', m) /\ f' = rd_wake R P [7; 8].
Proof.
  destruct (defined_Some (resume (rd_loop R P 2) (mem (at_end true reading)))) as (f' & m & E);
    [vm_compute; reflexivity|].
  exists f', m. split; [exact E|].
  exact (pipe_read_result R Wr P B rt start (at_end true reading) 1 2 f' m [7; 8; 9] start_fresh
    reading_reached reading_runs reading_call reading_stream E).
Defined.

Lemma pipe_write_atomic_witness : exists f' m,
  resume (wr_loop Wr P [7; 8; 9] 3 0) (mem (at_end true writing)) = Some (f', m) /\
  (emitted (wr_loop Wr P [7; 8; 9] 3 0) f' = [] \/ emitted (wr_loop Wr P [7; 8; 9] 3 0) f' = [7; 8; 9]).
Proof.
  destruct (defined_Some (resume (wr_loop Wr P [7; 8; 9] 3 0) (mem (at_end true writing)))) as (f' & m & E);
    [vm_compute; reflexivity|].
  exists f', m. split; [exact E|].
  exact (proj2 (pipe_write_atomic R Wr P B rt start (at_end true writing) 1 [7; 8; 9] 3 0 f' m _ start_fresh
    writing_reached writing_runs writing_call eq_refl writing_pipe E)).
Defined.
End PipeToy.
