(* ===== verification/Elf.v ===== *)
(** * The ELF loader (kernel/proc/elf_loader.c)

    [ns_elf64_plan] validates an executable and computes where its segments go;
    [ns_elf64_load] maps and fills them through the callbacks of a mapper.  The
    file and the address space are behind callbacks that act on a world [W];
    the caller's [struct ns_elf_image] is the second part of the state, since the
    code writes it before it knows that the executable is good. *)

From stdpp Require Import strings.
From S2P Require Import Prelude Errno.

(** ** Data *)

Abbreviation ET_EXEC := (2) (only parsing).
Abbreviation ET_DYN := (3) (only parsing).
Abbreviation EM_X86_64 := (62) (only parsing).
Abbreviation PT_LOAD := (1) (only parsing).
Abbreviation PT_DYNAMIC := (2) (only parsing).
Abbreviation PT_INTERP := (3) (only parsing).
Abbreviation PF_X := (1) (only parsing).
Abbreviation PF_W := (2) (only parsing).
Abbreviation PF_R := (4) (only parsing).

Definition NS_ELF_MAX_LOAD_SEGMENTS : Z := 32.

Abbreviation NS_ELF_OK := (0) (only parsing).
Abbreviation NS_ELF_E_IO := (-1) (only parsing).
Abbreviation NS_ELF_E_TRUNCATED := (-2) (only parsing).
Abbreviation NS_ELF_E_MAGIC := (-3) (only parsing).
Abbreviation NS_ELF_E_CLASS := (-4) (only parsing).
Abbreviation NS_ELF_E_ENDIAN := (-5) (only parsing).
Abbreviation NS_ELF_E_VERSION := (-6) (only parsing).
Abbreviation NS_ELF_E_MACHINE := (-7) (only parsing).
Abbreviation NS_ELF_E_TYPE := (-8) (only parsing).
Abbreviation NS_ELF_E_HEADER := (-9) (only parsing).
Abbreviation NS_ELF_E_PROGRAM_HEADERS := (-10) (only parsing).
Abbreviation NS_ELF_E_UNSUPPORTED := (-11) (only parsing).
Abbreviation NS_ELF_E_ALIGNMENT := (-12) (only parsing).
Abbreviation NS_ELF_E_BOUNDS := (-13) (only parsing).
Abbreviation NS_ELF_E_OVERFLOW := (-14) (only parsing).
Abbreviation NS_ELF_E_OVERLAP := (-15) (only parsing).
Abbreviation NS_ELF_E_PERMISSIONS := (-16) (only parsing).
Abbreviation NS_ELF_E_ENTRY := (-17) (only parsing).
Abbreviation NS_ELF_E_TOO_LARGE := (-18) (only parsing).
Abbreviation NS_ELF_E_MAP := (-19) (only parsing).
Abbreviation NS_ELF_E_COPY := (-20) (only parsing).
Abbreviation NS_ELF_E_PROTECT := (-21) (only parsing).

Abbreviation NS_ELF_MAP_READ := (Z.shiftl 1 0) (only parsing).
Abbreviation NS_ELF_MAP_WRITE := (Z.shiftl 1 1) (only parsing).
Abbreviation NS_ELF_MAP_EXEC := (Z.shiftl 1 2) (only parsing).
Abbreviation NS_ELF_MAP_USER := (Z.shiftl 1 3) (only parsing).

(** The headers as they lie in the file. *)
Record elf64_ehdr := mk_ehdr {
  ident : list Z; eh_type : Z; machine : Z; version : Z; eh_entry : Z; phoff : Z; shoff : Z;
  eh_flags : Z; ehsize : Z; phentsize : Z; phnum : Z; shentsize : Z; shnum : Z; shstrndx : Z }.
Record elf64_phdr := mk_phdr {
  ph_type : Z; ph_flags : Z; offset : Z; vaddr : Z; paddr : Z; filesz : Z; memsz : Z; align : Z }.
Definition sizeof_ehdr : Z := 64.
Definition sizeof_phdr : Z := 56.

(** The bytes of a header, little-endian fields at their offsets. *)
Definition ehdr_of (b : list Z) : option elf64_ehdr :=
  ident ← slice b 0 16;
  ty ← le_load b 16 2; machine ← le_load b 18 2; version ← le_load b 20 4;
  entry ← le_load b 24 8; phoff ← le_load b 32 8; shoff ← le_load b 40 8;
  flags ← le_load b 48 4; ehsize ← le_load b 52 2; phentsize ← le_load b 54 2;
  phnum ← le_load b 56 2; shentsize ← le_load b 58 2; shnum ← le_load b 60 2;
  shstrndx ← le_load b 62 2;
  Some (mk_ehdr ident ty machine version entry phoff shoff flags ehsize phentsize phnum shentsize
    shnum shstrndx).
Definition phdr_of (b : list Z) : option elf64_phdr :=
  ty ← le_load b 0 4; flags ← le_load b 4 4; offset ← le_load b 8 8; vaddr ← le_load b 16 8;
  paddr ← le_load b 24 8; filesz ← le_load b 32 8; memsz ← le_load b 40 8; align ← le_load b 48 8;
  Some (mk_phdr ty flags offset vaddr paddr filesz memsz align).

(** [read] gives the result code and the bytes it put into the buffer. *)
Record ns_elf_source (W : Type) := mk_source {
  src_size : Z; src_read : option (Z -> Z -> M W (Z * list Z)) }.
Arguments mk_source {W}. Arguments src_size {W}. Arguments src_read {W}.

Record ns_elf_mapper (W : Type) := mk_mapper {
  mp_map : option (Z -> Z -> Z -> M W Z);
  mp_write : option (Z -> list Z -> Z -> M W Z);
  mp_zero : option (Z -> Z -> M W Z);
  mp_protect : option (Z -> Z -> Z -> M W Z);
  mp_unmap : option (Z -> Z -> M W unit) }.
Arguments mk_mapper {W}. Arguments mp_map {W}. Arguments mp_write {W}. Arguments mp_zero {W}.
Arguments mp_protect {W}. Arguments mp_unmap {W}.

Record ns_elf_config := mk_config {
  user_min : Z; user_max : Z; page_size : Z; dynamic_bias : Z; max_image_size : Z;
  max_segments : Z; allow_dynamic : Z; allow_writable_executable : Z }.

Record ns_elf_segment := mk_segment {
  address : Z; memory_size : Z; file_size : Z; file_offset : Z; map_address : Z; map_size : Z;
  sg_flags : Z }.

Record ns_elf_image := mk_image {
  entry : Z; image_start : Z; image_end : Z; load_bias : Z; segment_count : Z;
  segments : list ns_elf_segment }.
Definition eta_image (i : ns_elf_image) : ns_elf_image :=
  mk_image (entry i) (image_start i) (image_end i) (load_bias i) (segment_count i) (segments i).
#[export] Instance set_entry : Setter entry.
Proof. mk_setter eta_image entry. Defined.
#[export] Instance set_image_start : Setter image_start.
Proof. mk_setter eta_image image_start. Defined.
#[export] Instance set_image_end : Setter image_end.
Proof. mk_setter eta_image image_end. Defined.
#[export] Instance set_load_bias : Setter load_bias.
Proof. mk_setter eta_image load_bias. Defined.
#[export] Instance set_segment_count : Setter segment_count.
Proof. mk_setter eta_image segment_count. Defined.
#[export] Instance set_segments : Setter segments.
Proof. mk_setter eta_image segments. Defined.

Record estate (W : Type) := mk_estate { env : W; image : ns_elf_image }.
Arguments mk_estate {W}. Arguments env {W}. Arguments image {W}.
Definition eta_estate {W} (s : estate W) : estate W := mk_estate (env s) (image s).
#[export] Instance set_env {W} : Setter (@env W).
Proof. mk_setter1 (@eta_estate) (@env W). Defined.
#[export] Instance set_image {W} : Setter (@image W).
Proof. mk_setter1 (@eta_estate) (@image W). Defined.

(** ** Arithmetic *)

(** The overflow test with the wrapped sum. *)
Definition add_overflow_u64 (a b : Z) : bool * Z := (u64 (a + b) <? a, u64 (a + b)).

(** [None] on overflow. *)
Definition mul_overflow_u64 (a b : Z) : option Z :=
  if negb (a =? 0) && (UINT64_MAX / a <? b) then None else Some (u64 (a * b)).

Definition is_power_of_two (value : Z) : bool :=
  negb (value =? 0) && (Z.land value (u64 (value - 1)) =? 0).

Definition align_up (value alignment : Z) : option Z :=
  let mask := u64 (alignment - 1) in
  if UINT64_MAX - mask <? value then None else Some (Z.land (u64 (value + mask)) (not64 mask)).

Definition range_in_file {W} (source : ns_elf_source W) (offset length : Z) : bool :=
  (offset <=? src_size source) && (length <=? src_size source - offset).

Definition convert_flags (flags : Z) : Z :=
  let result := NS_ELF_MAP_USER in
  let result := if negb (Z.land flags PF_R =? 0) then Z.lor result NS_ELF_MAP_READ else result in
  let result := if negb (Z.land flags PF_W =? 0) then Z.lor result NS_ELF_MAP_WRITE else result in
  if negb (Z.land flags PF_X =? 0) then Z.lor result NS_ELF_MAP_EXEC else result.

Definition valid_config (config : option ns_elf_config) : bool :=
  match config with
  | None => false
  | Some c =>
    is_power_of_two (page_size c) && (4096 <=? page_size c) && (user_min c <? user_max c) &&
    negb (max_segments c =? 0) && (max_segments c <=? NS_ELF_MAX_LOAD_SEGMENTS) &&
    negb (max_image_size c =? 0)
  end.

(** ** Planning *)

Section operations.
Context {W : Type}.
Abbreviation E := (M (estate W)).
Implicit Types (source : ns_elf_source W) (config : ns_elf_config).

Definition source_read source (offset length : Z) : E (Z * list Z) :=
  if negb (range_in_file source offset length) then mret (NS_ELF_E_TRUNCATED, [])
  else
    match src_read source with
    | None => stuck
    | Some f =>
      r ← zoom env (f offset length);
      mret (if fst r =? 0 then NS_ELF_OK else NS_ELF_E_IO, snd r)
    end.

Definition ident_is (eh : elf64_ehdr) (i : nat) (v : Z) : bool := bool_decide (ident eh !! i = Some v).

(** The tests on the file header, in the order of the code. *)
Definition check_header config (size : Z) (eh : elf64_ehdr) : Z :=
  if negb (ident_is eh 0 127 && ident_is eh 1 69 && ident_is eh 2 76 && ident_is eh 3 70)
  then NS_ELF_E_MAGIC
  else if negb (ident_is eh 4 2) then NS_ELF_E_CLASS
  else if negb (ident_is eh 5 1) then NS_ELF_E_ENDIAN
  else if negb (ident_is eh 6 1) || negb (version eh =? 1) then NS_ELF_E_VERSION
  else if negb (machine eh =? EM_X86_64) then NS_ELF_E_MACHINE
  else if negb (eh_type eh =? ET_EXEC) && negb (eh_type eh =? ET_DYN) then NS_ELF_E_TYPE
  else if (eh_type eh =? ET_DYN) && (allow_dynamic config =? 0) then NS_ELF_E_UNSUPPORTED
  else if negb (ehsize eh =? sizeof_ehdr) || negb (phentsize eh =? sizeof_phdr) || (phnum eh =? 0)
  then NS_ELF_E_HEADER
  else if u32 (max_segments config + 16) <? phnum eh then NS_ELF_E_PROGRAM_HEADERS
  else
    match mul_overflow_u64 (phnum eh) (phentsize eh) with
    | None => NS_ELF_E_OVERFLOW
    | Some ph_size =>
      let '(overflow, ph_end) := add_overflow_u64 (phoff eh) ph_size in
      if overflow : bool then NS_ELF_E_OVERFLOW
      else if size <? ph_end then NS_ELF_E_TRUNCATED else NS_ELF_OK
    end.

(** The tests on a loadable program header. *)
Definition check_phdr source config (bias count : Z) (ph : elf64_phdr) : Z :=
  if max_segments config <=? count then NS_ELF_E_TOO_LARGE
  else if memsz ph <? filesz ph then NS_ELF_E_BOUNDS
  else if negb (align ph =? 0) && negb (align ph =? 1) && negb (is_power_of_two (align ph))
  then NS_ELF_E_ALIGNMENT
  else
    let aligned := if 1 <? align ph then align ph else 1 in
    if negb (Z.land (vaddr ph) (u64 (aligned - 1)) =? Z.land (offset ph) (u64 (aligned - 1)))
    then NS_ELF_E_ALIGNMENT
    else if negb (range_in_file source (offset ph) (filesz ph)) then NS_ELF_E_TRUNCATED
    else if negb (Z.land (ph_flags ph) PF_W =? 0) && negb (Z.land (ph_flags ph) PF_X =? 0) &&
            (allow_writable_executable config =? 0)
    then NS_ELF_E_PERMISSIONS
    else
      let '(o1, address) := add_overflow_u64 (vaddr ph) bias in
      let '(o2, memory_end) := add_overflow_u64 address (memsz ph) in
      let '(o3, _) := add_overflow_u64 (offset ph) (filesz ph) in
      if (o1 : bool) || o2 || o3 then NS_ELF_E_OVERFLOW
      else if (address <? user_min config) || (user_max config <? memory_end) || (memory_end <=? address)
      then NS_ELF_E_BOUNDS
      else NS_ELF_OK.

(** The search for an earlier segment that overlaps. *)
Fixpoint overlaps (n : nat) (segs : list ns_elf_segment) (other address0 memory_end map0 map_end : Z) :
    option bool :=
  match n with
  | O => Some false
  | S n' =>
    prior ← rd segs other;
    let prior_end := u64 (address prior + memory_size prior) in
    let prior_map_end := u64 (map_address prior + map_size prior) in
    if (address0 <? prior_end) && (address prior <? memory_end) then Some true
    else if (map0 <? prior_map_end) && (map_address prior <? map_end) then Some true
    else overlaps n' segs (other + 1) address0 memory_end map0 map_end
  end.

Inductive verdict := fail (error : Z) | go (count total_mapped : Z).

Definition put_segment (index : Z) (f : ns_elf_segment -> ns_elf_segment) : E unit :=
  segs ← gets (fun s => segments (image s));
  match rd segs index with
  | None => stuck
  | Some old =>
    match wr segs index (f old) with
    | None => stuck
    | Some segs' => modify (fun s => s <| image := (image s) <| segments := segs' |> |>)
    end
  end.

(** Placing a segment that passed [check_phdr]. *)
Definition place_segment config (bias count total_mapped : Z) (ph : elf64_phdr) : E verdict :=
  let address := u64 (vaddr ph + bias) in
  let memory_end := u64 (address + memsz ph) in
  let map_address := Z.land address (not64 (u64 (page_size config - 1))) in
  put_segment count (fun old =>
    mk_segment address (memsz ph) (filesz ph) (offset ph) map_address (map_size old) (sg_flags old));;
  match align_up memory_end (page_size config) with
  | None => mret (fail NS_ELF_E_OVERFLOW)
  | Some map_end =>
    let map_size := u64 (map_end - map_address) in
    put_segment count (fun old =>
      mk_segment address (memsz ph) (filesz ph) (offset ph) map_address map_size
        (convert_flags (ph_flags ph)));;
    segs ← gets (fun s => segments (image s));
    match overlaps (Z.to_nat count) segs 0 address memory_end map_address map_end with
    | None => stuck
    | Some true => mret (fail NS_ELF_E_OVERLAP)
    | Some false =>
      if (max_image_size config <? map_size) ||
         (u64 (max_image_size config - map_size) <? total_mapped)
      then mret (fail NS_ELF_E_TOO_LARGE)
      else
        modify (fun s => s <| image := (image s)
          <| image_start := if map_address <? image_start (image s) then map_address
                            else image_start (image s) |>
          <| image_end := if image_end (image s) <? map_end then map_end
                          else image_end (image s) |> |>);;
        mret (go (count + 1) (u64 (total_mapped + map_size)))
    end
  end.

(** One round of the loop over the program headers. *)
Definition plan_header source config (eh : elf64_ehdr) (bias index count total_mapped : Z) :
    E verdict :=
  match mul_overflow_u64 index (phentsize eh) with
  | None => mret (fail NS_ELF_E_OVERFLOW)
  | Some ph_offset =>
    let '(overflow, ph_offset) := add_overflow_u64 (phoff eh) ph_offset in
    if overflow : bool then mret (fail NS_ELF_E_OVERFLOW)
    else
      r ← source_read source ph_offset sizeof_phdr;
      if negb (fst r =? NS_ELF_OK) then mret (fail NS_ELF_E_IO)
      else
        match phdr_of (snd r) with
        | None => stuck
        | Some ph =>
          if (ph_type ph =? PT_INTERP) || (ph_type ph =? PT_DYNAMIC)
          then mret (fail NS_ELF_E_UNSUPPORTED)
          else if negb (ph_type ph =? PT_LOAD) || (memsz ph =? 0) then mret (go count total_mapped)
          else
            let e := check_phdr source config bias count ph in
            if negb (e =? NS_ELF_OK) then mret (fail e)
            else place_segment config bias count total_mapped ph
        end
  end.

Fixpoint plan_loop source config (eh : elf64_ehdr) (bias : Z) (n : nat) (index count total_mapped : Z) :
    E verdict :=
  match n with
  | O => mret (go count total_mapped)
  | S n' =>
    v ← plan_header source config eh bias index count total_mapped;
    match v with
    | fail e => mret (fail e)
    | go count' total' => plan_loop source config eh bias n' (index + 1) count' total'
    end
  end.

(** The search for an executable segment that holds the entry point. *)
Fixpoint entry_in (n : nat) (segs : list ns_elf_segment) (index entry0 : Z) : option bool :=
  match n with
  | O => Some false
  | S n' =>
    segment ← rd segs index;
    if negb (Z.land (sg_flags segment) NS_ELF_MAP_EXEC =? 0) && (address segment <=? entry0) &&
       (entry0 <? u64 (address segment + memory_size segment))
    then Some true
    else entry_in n' segs (index + 1) entry0
  end.

Definition ns_elf64_plan (source : option (ns_elf_source W)) (config : option ns_elf_config)
    (out_image : Z) : E Z :=
  match source, config with
  | Some src, Some cfg =>
    if negb (bool_decide (is_Some (src_read src))) || (out_image =? NULL) ||
       negb (valid_config config)
    then mret NS_ELF_E_HEADER
    else
      r ← source_read src 0 sizeof_ehdr;
      if negb (fst r =? NS_ELF_OK) then mret NS_ELF_E_TRUNCATED
      else
        match ehdr_of (snd r) with
        | None => stuck
        | Some eh =>
          let e := check_header cfg (src_size src) eh in
          if negb (e =? NS_ELF_OK) then mret e
          else
            let bias := if eh_type eh =? ET_DYN then dynamic_bias cfg else 0 in
            if negb (Z.land bias (u64 (page_size cfg - 1)) =? 0) then mret NS_ELF_E_ALIGNMENT
            else
              modify (fun s => s <| image := (image s) <| entry := 0 |>
                <| image_start := user_max cfg |> <| image_end := user_min cfg |>
                <| load_bias := bias |> <| segment_count := 0 |> |>);;
              v ← plan_loop src cfg eh bias (Z.to_nat (phnum eh)) 0 0 0;
              match v with
              | fail e => mret e
              | go count _ =>
                if count =? 0 then mret NS_ELF_E_PROGRAM_HEADERS
                else
                  let '(overflow, en) := add_overflow_u64 (eh_entry eh) bias in
                  modify (fun s => s <| image := (image s) <| entry := en |> |>);;
                  if overflow : bool then mret NS_ELF_E_OVERFLOW
                  else
                    segs ← gets (fun s => segments (image s));
                    match entry_in (Z.to_nat count) segs 0 en with
                    | None => stuck
                    | Some false => mret NS_ELF_E_ENTRY
                    | Some true =>
                      modify (fun s => s <| image := (image s) <| segment_count := count |> |>);;
                      mret NS_ELF_OK
                    end
              end
        end
  | _, _ => mret NS_ELF_E_HEADER
  end.

(** ** Loading *)

Definition sizeof_buffer : Z := 512.

(** The copy loop of one segment. *)
Fixpoint copy_loop source (write : Z -> list Z -> Z -> M W Z) (segment : ns_elf_segment) (fuel : nat)
    (copied : Z) : E Z :=
  match fuel with
  | O => stuck
  | S fuel' =>
    if copied <? file_size segment then
      let remaining := u64 (file_size segment - copied) in
      let chunk := if remaining <? sizeof_buffer then remaining else sizeof_buffer in
      r ← source_read source (u64 (file_offset segment + copied)) chunk;
      if negb (fst r =? NS_ELF_OK) then mret (fst r)
      else
        code ← zoom env (write (u64 (address segment + copied)) (snd r) chunk);
        if negb (code =? 0) then mret NS_ELF_E_COPY
        else copy_loop source write segment fuel' (u64 (copied + chunk))
    else mret NS_ELF_OK
  end.

(** Enough rounds for the file part of a segment. *)
Definition copy_fuel (segment : ns_elf_segment) : nat :=
  S (S (Z.to_nat (file_size segment / sizeof_buffer))).

Record mapping := mk_mapping {
  do_map : Z -> Z -> Z -> M W Z; do_write : Z -> list Z -> Z -> M W Z; do_zero : Z -> Z -> M W Z;
  do_protect : Z -> Z -> Z -> M W Z; do_unmap : Z -> Z -> M W unit }.

(** One round of the first loop: whether the segment was mapped, and the error. *)
Definition load_segment source (mp : mapping) (segment : ns_elf_segment) : E (bool * Z) :=
  let temporary := Z.lor (Z.lor NS_ELF_MAP_USER NS_ELF_MAP_READ) NS_ELF_MAP_WRITE in
  code ← zoom env (do_map mp (map_address segment) (map_size segment) temporary);
  if negb (code =? 0) then mret (false, NS_ELF_E_MAP)
  else
    error ← copy_loop source (do_write mp) segment (copy_fuel segment) 0;
    if negb (error =? NS_ELF_OK) then mret (true, error)
    else if file_size segment <? memory_size segment then
      code ← zoom env (do_zero mp (u64 (address segment + file_size segment))
                         (u64 (memory_size segment - file_size segment)));
      mret (true, if code =? 0 then NS_ELF_OK else NS_ELF_E_COPY)
    else mret (true, NS_ELF_OK).

Fixpoint load_loop source (mp : mapping) (n : nat) (index mapped : Z) : E (Z * Z) :=
  match n with
  | O => mret (mapped, NS_ELF_OK)
  | S n' =>
    segs ← gets (fun s => segments (image s));
    match rd segs index with
    | None => stuck
    | Some segment =>
      r ← load_segment source mp segment;
      let mapped := if fst r : bool then mapped + 1 else mapped in
      if negb (snd r =? NS_ELF_OK) then mret (mapped, snd r)
      else load_loop source mp n' (index + 1) mapped
    end
  end.

Fixpoint protect_loop (mp : mapping) (n : nat) (index : Z) : E Z :=
  match n with
  | O => mret NS_ELF_OK
  | S n' =>
    segs ← gets (fun s => segments (image s));
    match rd segs index with
    | None => stuck
    | Some segment =>
      code ← zoom env (do_protect mp (map_address segment) (map_size segment) (sg_flags segment));
      if negb (code =? 0) then mret NS_ELF_E_PROTECT else protect_loop mp n' (index + 1)
    end
  end.

Fixpoint rollback (mp : mapping) (mapped : nat) : E unit :=
  match mapped with
  | O => mret tt
  | S m =>
    segs ← gets (fun s => segments (image s));
    match rd segs (Z.of_nat m) with
    | None => stuck
    | Some segment =>
      zoom env (do_unmap mp (map_address segment) (map_size segment));;
      rollback mp m
    end
  end.

(** All callbacks of the mapper, when none is missing. *)
Definition mapping_of (mapper : option (ns_elf_mapper W)) : option mapping :=
  m ← mapper;
  map ← mp_map m; write ← mp_write m; zero ← mp_zero m; protect ← mp_protect m; unmap ← mp_unmap m;
  Some (mk_mapping map write zero protect unmap).

Definition ns_elf64_load (source : option (ns_elf_source W)) (mapper : option (ns_elf_mapper W))
    (config : option ns_elf_config) (out_image : Z) : E Z :=
  error ← ns_elf64_plan source config out_image;
  if negb (error =? NS_ELF_OK) then mret error
  else
    match mapping_of mapper, source with
    | Some mp, Some src =>
      count ← gets (fun s => segment_count (image s));
      r ← load_loop src mp (Z.to_nat count) 0 0;
      if negb (snd r =? NS_ELF_OK) then rollback mp (Z.to_nat (fst r));; mret (snd r)
      else
        error ← protect_loop mp (Z.to_nat count) 0;
        if negb (error =? NS_ELF_OK) then rollback mp (Z.to_nat (fst r));; mret error
        else mret NS_ELF_OK
    | None, _ => mret NS_ELF_E_MAP
    | _, None => stuck
    end.
End operations.

(** ** Messages *)

Definition messages : list string :=
  ["ok"; "I/O failure"; "truncated image"; "bad ELF magic"; "not ELF64"; "wrong byte order";
   "bad ELF version"; "wrong machine"; "unsupported ELF type"; "invalid ELF header";
   "invalid program headers"; "unsupported ELF feature"; "invalid alignment"; "out of bounds";
   "integer overflow"; "overlapping segments"; "unsafe permissions"; "invalid entry point";
   "image exceeds policy"; "mapping failed"; "image copy failed"; "protection failed"]%string.

(** [-error] has no defined result for the least [int]. *)
Definition ns_elf_error_string (error : Z) : option string :=
  if 0 <? error then Some "unknown ELF error"%string
  else if error <=? - 2 ^ 31 then None
  else
    let index := u32 (- error) in
    if Z.of_nat (length messages) <=? index then Some "unknown ELF error"%string
    else messages !! Z.to_nat index.
