(* ===== verification/ElfProps.v ===== *)
(** * Reasoning about the ELF loader

    What an accepted executable looks like, and that planning establishes it. *)

From S2P Require Import Prelude Errno Elf.

(** ** Arithmetic of the code *)

Lemma add_overflow_spec a b :
  is_u64 a -> is_u64 b -> add_overflow_u64 a b = (2 ^ 64 <=? a + b, u64 (a + b)).
Proof. intros Ha Hb. unfold add_overflow_u64. by rewrite add_wraps. Qed.

Lemma mul_overflow_spec a b :
  is_u64 a -> is_u64 b -> mul_overflow_u64 a b = if 2 ^ 64 <=? a * b then None else Some (a * b).
Proof.
  intros Ha Hb. unfold mul_overflow_u64, UINT64_MAX. destruct (Z.eqb_spec a 0) as [->|Hz]; cbn [negb andb].
  { by rewrite u64_small by lia. }
  destruct (Z.ltb_spec ((2 ^ 64 - 1) / a) b) as [Hlt|Hge], (Z.leb_spec (2 ^ 64) (a * b)) as [Hle|Hgt]; try done.
  - exfalso. assert (b <= (2 ^ 64 - 1) / a); [|lia]. apply Z.div_le_lower_bound; lia.
  - exfalso. pose proof (Z.mul_div_le (2 ^ 64 - 1) a ltac:(lia)). nia.
  - by rewrite u64_small by nia.
Qed.

Lemma is_power_of_two_spec v : is_u64 v -> is_power_of_two v = true -> exists k, 0 <= k /\ v = 2 ^ k.
Proof.
  intros Hv Hp. apply pow2b_spec; [lia|]. unfold is_power_of_two in Hp. unfold pow2b.
  destruct (Z.eqb_spec v 0); [done|]. by rewrite u64_small in Hp by lia.
Qed.

Lemma align_up_spec v k :
  is_u64 v -> 0 <= k -> 2 ^ k < 2 ^ 64 ->
  align_up v (2 ^ k) = if 2 ^ 64 <=? v + (2 ^ k - 1) then None else Some (ceil_to v (2 ^ k)).
Proof.
  intros Hv Hk Hp. assert (0 < 2 ^ k) by (apply Z.pow_pos_nonneg; lia). unfold align_up, UINT64_MAX.
  rewrite (u64_small (2 ^ k - 1)) by lia.
  destruct (Z.ltb_spec (2 ^ 64 - 1 - (2 ^ k - 1)) v), (Z.leb_spec (2 ^ 64) (v + (2 ^ k - 1))); try lia; [done|].
  rewrite u64_small by lia. unfold ceil_to. by rewrite land_not64 by lia.
Qed.

(** ** Accepted executables *)

(** Values within their C types. *)
Record config_typed (c : ns_elf_config) : Prop := {
  ct_min : is_u64 (user_min c); ct_max : is_u64 (user_max c); ct_page : is_u64 (page_size c);
  ct_bias : is_u64 (dynamic_bias c); ct_size : is_u64 (max_image_size c); ct_segs : is_u32 (max_segments c) }.
Record phdr_typed (p : elf64_phdr) : Prop := {
  pt_offset : is_u64 (offset p); pt_vaddr : is_u64 (vaddr p); pt_filesz : is_u64 (filesz p);
  pt_memsz : is_u64 (memsz p); pt_align : is_u64 (align p) }.

Definition seg_end (g : ns_elf_segment) : Z := address g + memory_size g.
Definition map_end (g : ns_elf_segment) : Z := map_address g + map_size g.

(** A segment that may be loaded from a file of [size] bytes. *)
Record seg_ok (c : ns_elf_config) (size : Z) (g : ns_elf_segment) : Prop := {
  so_user : user_min c <= address g /\ seg_end g <= user_max c;
  so_size : 0 < memory_size g /\ 0 <= file_size g <= memory_size g;
  so_file : 0 <= file_offset g /\ file_offset g + file_size g <= size;
  so_pages : (page_size c | map_address g) /\ (page_size c | map_size g);
  so_cover : address g - page_size c < map_address g <= address g /\
    seg_end g <= map_end g < seg_end g + page_size c;
  so_width : 0 <= map_address g /\ map_end g < 2 ^ 64;
  so_wx : allow_writable_executable c = 0 ->
    Z.land (sg_flags g) NS_ELF_MAP_WRITE = 0 \/ Z.land (sg_flags g) NS_ELF_MAP_EXEC = 0 }.

(** No page belongs to both. *)
Definition apart (g h : ns_elf_segment) : Prop := map_end g <= map_address h \/ map_end h <= map_address g.
Definition all_apart (l : list ns_elf_segment) : Prop :=
  forall i j g h, l !! i = Some g -> l !! j = Some h -> i <> j -> apart g h.
Definition total_size (l : list ns_elf_segment) : Z := foldr (fun g n => map_size g + n) 0 l.

(** Where a program header puts its segment. *)
Definition planned (c : ns_elf_config) (bias : Z) (p : elf64_phdr) : ns_elf_segment :=
  let a := vaddr p + bias in
  let m := a / page_size c * page_size c in
  mk_segment a (memsz p) (filesz p) (offset p) m (ceil_to (a + memsz p) (page_size c) - m)
    (convert_flags (ph_flags p)).

(** Program headers that ask for memory. *)
Definition loadable (p : elf64_phdr) : bool := (ph_type p =? PT_LOAD) && negb (memsz p =? 0).

Lemma total_size_app l g : total_size (l ++ [g]) = total_size l + map_size g.
Proof. unfold total_size. induction l as [|h l IH]; cbn; [lia|]. rewrite IH. lia. Qed.

Lemma all_apart_snoc l g : all_apart l -> Forall (fun h => apart h g) l -> all_apart (l ++ [g]).
Proof.
  intros Hl Hg i j a b Ha Hb Hne. rewrite Forall_lookup in Hg.
  apply lookup_app_Some in Ha as [Ha|[Hi Ha]]; apply lookup_app_Some in Hb as [Hb|[Hj Hb]].
  - by eapply Hl.
  - apply list_lookup_singleton_Some in Hb as [_ <-]. by eapply Hg.
  - apply list_lookup_singleton_Some in Ha as [_ <-]. unfold apart. apply or_comm. by eapply Hg.
  - apply list_lookup_singleton_Some in Ha as [? _]. apply list_lookup_singleton_Some in Hb as [? _]. lia.
Qed.

(** The flags of a segment say what those of the header say. *)
Lemma convert_flags_write f : Z.land (convert_flags f) NS_ELF_MAP_WRITE = 0 <-> Z.land f PF_W = 0.
Proof.
  unfold convert_flags. destruct (Z.eqb_spec (Z.land f PF_R) 0), (Z.eqb_spec (Z.land f PF_W) 0),
    (Z.eqb_spec (Z.land f PF_X) 0); cbn; split; try done; lia.
Qed.
Lemma convert_flags_exec f : Z.land (convert_flags f) NS_ELF_MAP_EXEC = 0 <-> Z.land f PF_X = 0.
Proof.
  unfold convert_flags. destruct (Z.eqb_spec (Z.land f PF_R) 0), (Z.eqb_spec (Z.land f PF_W) 0),
    (Z.eqb_spec (Z.land f PF_X) 0); cbn; split; try done; lia.
Qed.

(** What [check_phdr] has checked. *)
Record phdr_ok (c : ns_elf_config) (size bias : Z) (p : elf64_phdr) : Prop := {
  po_sizes : 0 < memsz p /\ filesz p <= memsz p;
  po_file : offset p + filesz p <= size;
  po_user : user_min c <= vaddr p + bias /\ vaddr p + bias + memsz p <= user_max c;
  po_align : 1 < align p -> vaddr p mod align p = offset p mod align p;
  po_wx : allow_writable_executable c = 0 -> Z.land (ph_flags p) PF_W = 0 \/ Z.land (ph_flags p) PF_X = 0 }.

Lemma check_phdr_spec {W} (src : ns_elf_source W) c bias count p :
  config_typed c -> phdr_typed p -> is_u64 bias -> is_u64 (src_size src) -> memsz p <> 0 ->
  check_phdr src c bias count p = NS_ELF_OK -> count < max_segments c /\ phdr_ok c (src_size src) bias p.
Proof.
  intros [] [] Hb Hs Hm. unfold check_phdr, range_in_file.
  destruct (Z.leb_spec (max_segments c) count); [done|]. destruct (Z.ltb_spec (memsz p) (filesz p)); [done|].
  destruct (_ && _ && negb (is_power_of_two (align p))) eqn:Epow; [done|].
  set (al := if 1 <? align p then align p else 1).
  destruct (Z.eqb_spec (Z.land (vaddr p) (u64 (al - 1))) (Z.land (offset p) (u64 (al - 1)))) as [Eal|]; [|done]. cbn [negb].
  destruct (Z.leb_spec (offset p) (src_size src)); [|done].
  destruct (Z.leb_spec (filesz p) (src_size src - offset p)); [|done]. cbn [andb negb].
  destruct (_ && _ && (allow_writable_executable c =? 0)) eqn:Ewx; [done|].
  rewrite (add_overflow_spec (vaddr p)), (add_overflow_spec _ (memsz p)), (add_overflow_spec (offset p)) by auto with ns.
  destruct (Z.leb_spec (2 ^ 64) (vaddr p + bias)); [done|]. rewrite (u64_small (vaddr p + bias)) by lia.
  destruct (Z.leb_spec (2 ^ 64) (vaddr p + bias + memsz p)); [done|].
  destruct (Z.leb_spec (2 ^ 64) (offset p + filesz p)); [done|]. cbn [orb].
  rewrite u64_small by lia.
  destruct (Z.ltb_spec (vaddr p + bias) (user_min c)); [done|].
  destruct (Z.ltb_spec (user_max c) (vaddr p + bias + memsz p)); [done|].
  destruct (Z.leb_spec (vaddr p + bias + memsz p) (vaddr p + bias)); [done|]. cbn [orb]. intros _.
  split; [lia|]. constructor; [lia|lia|lia| |].
  - intros Hal. unfold al in Eal. rewrite (proj2 (Z.ltb_lt _ _)) in Eal by lia.
    assert (Hp : is_power_of_two (align p) = true).
    { destruct (is_power_of_two (align p)); [done|]. cbn in Epow. 
      rewrite (proj2 (Z.eqb_neq _ _)), (proj2 (Z.eqb_neq _ _)) in Epow by lia. done. }
    destruct (is_power_of_two_spec _ pt_align0 Hp) as (k & Hk & E). rewrite E in *.
    rewrite u64_small in Eal by lia. by rewrite !land_mask in Eal by lia.
  - intros Ha. rewrite Ha in Ewx. cbn in Ewx. rewrite andb_true_r in Ewx.
    apply andb_false_iff in Ewx as [E%negb_false_iff|E%negb_false_iff]; apply Z.eqb_eq in E; auto.
Qed.

(** A valid configuration. *)
Record config_ok (c : ns_elf_config) : Prop := {
  co_typed : config_typed c;
  co_page : exists k, 0 <= k /\ page_size c = 2 ^ k;
  co_segs : 0 < max_segments c <= NS_ELF_MAX_LOAD_SEGMENTS }.

Lemma valid_config_ok c : config_typed c -> valid_config (Some c) = true -> config_ok c.
Proof.
  intros Ht Hv. unfold valid_config in Hv. do 5 apply andb_prop in Hv as [Hv ?].
  pose proof Ht as [? ? ? ? ? ?]. constructor; [done| |].
  - by apply is_power_of_two_spec.
  - rewrite negb_true_iff, Z.eqb_neq, Z.leb_le in *. lia.
Qed.

Lemma page_pos c : config_ok c -> 0 < page_size c < 2 ^ 64.
Proof.
  intros [[] (k & Hk & E) _]. split; [|lia]. rewrite E. apply Z.pow_pos_nonneg; lia.
Qed.

Lemma planned_ok c size bias p :
  config_ok c -> phdr_typed p -> is_u64 bias -> phdr_ok c size bias p ->
  ceil_to (vaddr p + bias + memsz p) (page_size c) < 2 ^ 64 -> seg_ok c size (planned c bias p).
Proof.
  intros Hc [] Hb [] Hw. pose proof (page_pos c Hc) as Hp.
  set (a := vaddr p + bias) in *.
  pose proof (ceil_to_ge (a + memsz p) (page_size c) ltac:(lia)) as Hce.
  pose proof (Z.div_mod a (page_size c) ltac:(lia)) as Hdm.
  pose proof (Z.mod_pos_bound a (page_size c) ltac:(lia)) as Hmb.
  pose proof (Z.div_pos a (page_size c) ltac:(lia) ltac:(lia)) as Hdp.
  constructor; unfold seg_end, map_end, planned; cbn; fold a; try nia.
  - split; [by apply Z.divide_factor_r|].
    apply Z.divide_sub_r; [apply ceil_to_divide; lia|by apply Z.divide_factor_r].
  - intros Ha. destruct (po_wx0 Ha) as [H|H]; [left; by apply convert_flags_write|right; by apply convert_flags_exec].
Qed.

(** The state of planning after the program headers [phs] that load something. *)
Record plan_inv (c : ns_elf_config) (size bias : Z) (phs : list elf64_phdr) (img : ns_elf_image)
    (count total : Z) : Prop := {
  pv_bias : load_bias img = bias;
  pv_length : length (segments img) = Z.to_nat NS_ELF_MAX_LOAD_SEGMENTS;
  pv_count : count = Z.of_nat (length phs);
  pv_max : count <= max_segments c;
  pv_segs : take (length phs) (segments img) = planned c bias <$> phs;
  pv_ok : Forall (seg_ok c size) (planned c bias <$> phs);
  pv_apart : all_apart (planned c bias <$> phs);
  pv_total : total = total_size (planned c bias <$> phs);
  pv_size : total <= max_image_size c;
  pv_span : Forall (fun g => image_start img <= map_address g /\ map_end g <= image_end img)
              (planned c bias <$> phs) }.

Lemma overlaps_spec n segs i a e m k :
  0 <= i -> (Z.to_nat i + n <= length segs)%nat ->
  Forall (fun g => is_u64 (seg_end g) /\ is_u64 (map_end g)) (take n (drop (Z.to_nat i) segs)) ->
  exists b, overlaps n segs i a e m k = Some b /\
    (b = false -> Forall (fun g => map_end g <= m \/ k <= map_address g) (take n (drop (Z.to_nat i) segs))).
Proof.
  revert i. induction n as [|n IH]; intros i Hi Hl Hty; cbn [overlaps]; [by exists false|].
  destruct (rd_Some segs i ltac:(lia)) as [g Hg]. rewrite Hg. cbn [mbind option_bind].
  apply rd_lookup in Hg as [_ Hg]. rewrite (drop_S segs g _ Hg) in Hty |- *. cbn in Hty |- *.
  apply Forall_cons in Hty as [[H1 H2] Hty]. unfold seg_end, map_end in H1, H2. rewrite !u64_small by done.
  replace (S (Z.to_nat i)) with (Z.to_nat (i + 1)) in * by lia.
  destruct (_ && _) eqn:E1; [by exists true|]. destruct ((m <? _) && _) eqn:E2; [by exists true|].
  destruct (IH (i + 1)) as (b & -> & Hb); [lia|lia|done|]. exists b. split; [done|]. intros ->.
  constructor; [|by apply Hb]. unfold map_end.
  apply andb_false_iff in E2 as [E2|E2]; apply Z.ltb_ge in E2; lia.
Qed.

(** ** What the loader relies on

    The protection of each user address ([None] when it is not mapped) and the
    byte it holds. *)
Class LoadWorld (W : Type) := {
  lw_ok : W -> Prop;
  lw_prot : W -> Z -> option Z;
  lw_byte : W -> Z -> Z }.

Definition lw_same {W} `{!LoadWorld W} (w w' : W) : Prop :=
  lw_ok w' /\ (forall x, lw_prot w' x = lw_prot w x) /\ (forall x, lw_byte w' x = lw_byte w x).

Section planning.
Context {W : Type} `{!LoadWorld W}.

(** The source reads the bytes of [file], or fails. *)
Record source_ok (src : ns_elf_source W) (file : list Z) : Prop := {
  sr_size : src_size src = Z.of_nat (length file) /\ Z.of_nat (length file) < 2 ^ 64;
  sr_bytes : bytes_ok file;
  sr_read : exists f, src_read src = Some f /\ forall off len w,
    0 <= off -> 0 <= len -> off + len <= Z.of_nat (length file) -> lw_ok w ->
    wp (f off len) (fun r w' => lw_same w w' /\
      (fst r = 0 -> snd r = take (Z.to_nat len) (drop (Z.to_nat off) file))) w }.

Implicit Types (s : estate W) (c : ns_elf_config).

Lemma wp_put_segment s i f Q :
  0 <= i < Z.of_nat (length (segments (image s))) ->
  (forall old, segments (image s) !! Z.to_nat i = Some old ->
     Q tt (s <| image := (image s) <| segments := <[Z.to_nat i := f old]> (segments (image s)) |> |>)) ->
  wp (put_segment i f) Q s.
Proof.
  intros Hi HQ. unfold put_segment. apply wp_bind, wp_gets. destruct (rd_Some _ _ Hi) as [old Hold].
  rewrite Hold, wr_Some by done. apply wp_modify, HQ. by apply rd_lookup in Hold as [].
Qed.

Lemma total_size_nonneg c size l : 0 <= page_size c -> Forall (seg_ok c size) l -> 0 <= total_size l.
Proof.
  intros Hp. induction 1 as [|g l [] Hl IH]; cbn; [done|]. unfold total_size in IH.
  unfold seg_end, map_end in *. lia.
Qed.

(** Appending a segment. *)
Lemma plan_inv_snoc c size bias p phs img count total :
  plan_inv c size bias phs img count total -> count < max_segments c -> max_segments c <= NS_ELF_MAX_LOAD_SEGMENTS ->
  let g := planned c bias p in
  seg_ok c size g -> Forall (fun h => apart h g) (planned c bias <$> phs) ->
  total + map_size g <= max_image_size c ->
  plan_inv c size bias (phs ++ [p]) (img <| segments := <[Z.to_nat count := g]> (segments img) |>
    <| image_start := if map_address g <? image_start img then map_address g else image_start img |>
    <| image_end := if image_end img <? map_end g then map_end g else image_end img |>)
    (count + 1) (total + map_size g).
Proof.
  intros [Hbi Hlen Hcnt _ Hsegs Hok Hap Htot Hsz Hspan] Hmax Hms g Hg Hga Hfit. unfold NS_ELF_MAX_LOAD_SEGMENTS in *.
  assert (Hn : Z.to_nat count = length phs) by lia.
  constructor; cbn [segments image_start image_end set_field set_image_start set_image_end set_segments];
    rewrite ?length_app, ?fmap_app; cbn [length fmap list_fmap].
  - done.
  - by rewrite length_insert.
  - lia.
  - lia.
  - rewrite Hn, Nat.add_1_r, (take_S_r _ _ g), <- Hsegs by (apply list_lookup_insert_eq; lia).
    by rewrite take_insert_ge.
  - apply Forall_app. split; [done|]. by constructor.
  - by apply all_apart_snoc.
  - by rewrite total_size_app, <- Htot.
  - done.
  - apply Forall_app. split; [|constructor; [|constructor]].
    + eapply Forall_impl; [exact Hspan|]. intros h [H1 H2].
      destruct (Z.ltb_spec (map_address g) (image_start img)), (Z.ltb_spec (image_end img) (map_end g)); lia.
    + cbn beta. fold g. destruct (Z.ltb_spec (map_address g) (image_start img)), (Z.ltb_spec (image_end img) (map_end g)); lia.
Qed.

(** [place_segment] appends the segment or refuses the executable. *)
Lemma wp_place c size bias p phs s count total :
  config_ok c -> phdr_typed p -> is_u64 bias -> phdr_ok c size bias p -> count < max_segments c ->
  plan_inv c size bias phs (image s) count total ->
  wp (place_segment c bias count total p) (fun v s' => env s' = env s /\
    match v with
    | fail e => e <> NS_ELF_OK
    | go count' total' => plan_inv c size bias (phs ++ [p]) (image s') count' total'
    end) s.
Proof.
  intros Hc Hpt Hb Hpo Hmax Hi. pose proof Hi as [_ Hlen Hcnt _ Hsegs Hok Hap Htot Hsz Hspan].
  pose proof Hc as [[] (k & Hk & Epg) Hms]. unfold NS_ELF_MAX_LOAD_SEGMENTS in *.
  pose proof (page_pos c Hc) as Hpp. pose proof Hpt as []. pose proof Hpo as [[Hm0 Hfm] Hfile [Hu1 Hu2] _ _].
  unfold place_segment. rewrite (u64_small (vaddr p + bias)) by lia.
  rewrite (u64_small (vaddr p + bias + memsz p)), (u64_small (page_size c - 1)) by lia.
  assert (Ema : Z.land (vaddr p + bias) (not64 (page_size c - 1)) = map_address (planned c bias p)).
  { rewrite Epg. cbn. rewrite Epg. apply land_not64; lia. }
  rewrite Ema. apply wp_bind, wp_put_segment; [lia|]. intros old Hold.
  rewrite Epg, align_up_spec, <- Epg by lia.
  destruct (Z.leb_spec (2 ^ 64) (vaddr p + bias + memsz p + (page_size c - 1))) as [Hov|Hov].
  { apply wp_ret. split; [done|]. by cbn. }
  pose proof (ceil_to_ge (vaddr p + bias + memsz p) (page_size c) ltac:(lia)) as Hce.
  assert (Hg : seg_ok c size (planned c bias p)) by (apply planned_ok; try done; lia).
  assert (Eend : ceil_to (vaddr p + bias + memsz p) (page_size c) = map_end (planned c bias p)).
  { unfold map_end. cbn. lia. }
  assert (Emk : mk_segment (vaddr p + bias) (memsz p) (filesz p) (offset p) (map_address (planned c bias p))
    (map_size (planned c bias p)) (convert_flags (ph_flags p)) = planned c bias p) by done.
  rewrite Eend. remember (planned c bias p) as g eqn:Eg.
  pose proof Hg as [_ [Hsz0 _] _ _ [Hcov1 Hcov] [Hw1 Hw2] _].
  assert (Esz : u64 (map_end g - map_address g) = map_size g).
  { unfold map_end, seg_end in *. rewrite u64_small; lia. }
  rewrite Esz, Emk. apply wp_bind, wp_put_segment; [cbn; rewrite length_insert; lia|]. cbn. intros old' Hold'.
  rewrite list_insert_insert_eq. apply wp_bind, wp_gets. cbn. set (segs := <[Z.to_nat count := g]> (segments (image s))).
  assert (Hpre : take (Z.to_nat count) segs = planned c bias <$> phs).
  { unfold segs. rewrite take_insert_ge by lia. by rewrite <- Hsegs, Hcnt, Nat2Z.id. }
  destruct (overlaps_spec (Z.to_nat count) segs 0 (vaddr p + bias) (vaddr p + bias + memsz p)
    (map_address g) (map_end g)) as (b & -> & Hnov); [done|unfold segs; rewrite length_insert; lia| |].
  { rewrite drop_0, Hpre. eapply Forall_impl; [exact Hok|]. intros h []. unfold seg_end, map_end in *. lia. }
  destruct b; [by apply wp_ret|]. specialize (Hnov eq_refl). rewrite drop_0, Hpre in Hnov.
  destruct (Z.ltb_spec (max_image_size c) (map_size g)) as [|Hfit]; cbn [orb]; [by apply wp_ret|].
  assert (0 <= map_size g) by (unfold map_end, seg_end in *; lia).
  rewrite (u64_small (max_image_size c - map_size g)) by lia.
  pose proof (total_size_nonneg c size (planned c bias <$> phs) ltac:(lia) Hok).
  destruct (Z.ltb_spec (max_image_size c - map_size g) total) as [|Hfit2]; [by apply wp_ret|].
  apply wp_bind, wp_modify, wp_ret. split; [done|]. rewrite u64_small by lia.
  subst g. apply (plan_inv_snoc c size bias p phs (image s) count total Hi Hmax (proj2 Hms) Hg Hnov). lia.
Qed.

Lemma lw_same_refl w : lw_ok w -> lw_same w w.
Proof. by intros H. Qed.
Lemma lw_same_trans w1 w2 w3 : lw_same w1 w2 -> lw_same w2 w3 -> lw_same w1 w3.
Proof.
  intros (_ & H1 & H2) (Hok & H3 & H4). split_and!; [done|..]; intros x; [by rewrite H3|by rewrite H4].
Qed.

(** A file byte range. *)
Definition bytes_at (file : list Z) (off len : Z) : list Z := take (Z.to_nat len) (drop (Z.to_nat off) file).

Lemma wp_source_read src file s off len Q :
  source_ok src file -> lw_ok (env s) -> 0 <= off -> 0 <= len ->
  (forall e b w, lw_same (env s) w -> (e = NS_ELF_OK -> off + len <= src_size src /\ b = bytes_at file off len) ->
     Q (e, b) (s <| env := w |>)) ->
  wp (source_read src off len) Q s.
Proof.
  intros [[Hs Hl] _ (f & Hf & Hr)] Hok Ho Hn HQ. unfold source_read, range_in_file.
  destruct (Z.leb_spec off (src_size src)), (Z.leb_spec len (src_size src - off)); cbn [andb negb].
  2-4: apply wp_ret; replace s with (s <| env := env s |>) at 1 by (by destruct s);
    apply HQ; [by apply lw_same_refl|done].
  rewrite Hf. apply wp_bind, wp_zoom. eapply wp_mono; [apply Hr; try done; lia|].
  intros [code b] w [Hw Hb]. apply wp_ret. cbn in *. destruct (Z.eqb_spec code 0) as [->|Hc].
  - apply HQ; [done|]. intros _. split; [lia|]. by apply Hb.
  - by apply HQ.
Qed.

Lemma ehdr_typed b : bytes_ok b -> length b = 64%nat -> exists eh, ehdr_of b = Some eh /\
  is_u64 (eh_entry eh) /\ is_u64 (phoff eh) /\ is_u16 (phentsize eh) /\ is_u16 (phnum eh).
Proof.
  intros Hb Hl. unfold ehdr_of. destruct (slice_Some b 0 16) as (i & -> & _); [done|lia|]. cbn [mbind option_bind].
  repeat match goal with |- context [le_load b ?o ?n] =>
    let v := fresh "v" in let H := fresh "H" in
    destruct (le_load_range b o n) as (v & -> & H); [done|done|lia|]; cbn [mbind option_bind] end.
  eexists. split; [done|]. cbn. lia.
Qed.

Lemma phdr_of_typed b : bytes_ok b -> length b = 56%nat -> exists p, phdr_of b = Some p /\ phdr_typed p.
Proof.
  intros Hb Hl. unfold phdr_of.
  repeat match goal with |- context [le_load b ?o ?n] =>
    let v := fresh "v" in let H := fresh "H" in
    destruct (le_load_range b o n) as (v & -> & H); [done|done|lia|]; cbn [mbind option_bind] end.
  eexists. split; [done|]. constructor; cbn; lia.
Qed.

Lemma bytes_at_ok file off len :
  bytes_ok file -> 0 <= off -> 0 <= len -> off + len <= Z.of_nat (length file) ->
  bytes_ok (bytes_at file off len) /\ length (bytes_at file off len) = Z.to_nat len.
Proof.
  intros Hf Ho Hn Hl. split; [by apply Forall_take, Forall_drop|]. unfold bytes_at.
  rewrite length_take, length_drop. lia.
Qed.

(** The program headers of an executable, and those that load something. *)
Definition phdr_at (file : list Z) (eh : elf64_ehdr) (i : Z) : option elf64_phdr :=
  phdr_of (bytes_at file (phoff eh + i * sizeof_phdr) sizeof_phdr).
Definition load_headers (file : list Z) (eh : elf64_ehdr) (n : Z) : list elf64_phdr :=
  List.filter loadable (omap (phdr_at file eh) (seqZ 0 n)).

Lemma load_headers_S file eh n p :
  0 <= n -> phdr_at file eh n = Some p ->
  load_headers file eh (n + 1) = load_headers file eh n ++ (if loadable p then [p] else []).
Proof.
  intros Hn Hp. unfold load_headers. rewrite seqZ_app, omap_app, List.filter_app by lia. f_equal.
  rewrite seqZ_cons, seqZ_nil by lia. cbn. rewrite Z.add_0_l, Hp. cbn. by destruct (loadable p).
Qed.

Lemma load_headers_0 file eh : load_headers file eh 0 = [].
Proof. done. Qed.

(** One program header. *)
Lemma wp_plan_header src file c eh bias s i count total :
  source_ok src file -> config_ok c -> is_u64 (phoff eh) -> phentsize eh = sizeof_phdr ->
  0 <= i < 2 ^ 16 -> is_u64 bias -> lw_ok (env s) ->
  plan_inv c (src_size src) bias (load_headers file eh i) (image s) count total ->
  wp (plan_header src c eh bias i count total) (fun v s' => lw_same (env s) (env s') /\
    match v with
    | fail e => e <> NS_ELF_OK
    | go count' total' =>
        plan_inv c (src_size src) bias (load_headers file eh (i + 1)) (image s') count' total'
    end) s.
Proof.
  intros Hsrc Hc Hph Hpe Hi Hb Hok Hinv. unfold plan_header. rewrite Hpe. unfold sizeof_phdr in *.
  rewrite mul_overflow_spec by lia. destruct (Z.leb_spec (2 ^ 64) (i * 56)); [lia|].
  rewrite add_overflow_spec by lia. pose proof (lw_same_refl _ Hok) as Hrefl.
  destruct (Z.leb_spec (2 ^ 64) (phoff eh + i * 56)); [by apply wp_ret|]. rewrite u64_small by lia.
  apply wp_bind. apply (wp_source_read src file); [done|done|lia|lia|]. intros e b w Hw He. cbn [fst snd].
  destruct (Z.eqb_spec e NS_ELF_OK) as [Ee|Ee]; cbn [negb]; [|by apply wp_ret].
  destruct (He Ee) as [Hfit ->]. pose proof Hsrc as [[Hsz Hlen] Hby _].
  destruct (bytes_at_ok file (phoff eh + i * 56) 56) as [Hb1 Hb2]; [done|lia|lia|lia|].
  destruct (phdr_of_typed _ Hb1 Hb2) as (p & Hp & Hpt). rewrite Hp.
  assert (Hat : phdr_at file eh i = Some p) by exact Hp.
  rewrite (load_headers_S file eh i p) by (done || lia). unfold loadable.
  destruct (_ || _); [by apply wp_ret|].
  destruct (Z.eqb_spec (ph_type p) PT_LOAD) as [Et|Et]; cbn [negb orb andb].
  2: { apply wp_ret. split; [done|]. by rewrite app_nil_r. }
  destruct (Z.eqb_spec (memsz p) 0) as [Em|Em]; cbn [negb].
  { apply wp_ret. split; [done|]. by rewrite app_nil_r. }
  destruct (Z.eqb_spec (check_phdr src c bias count p) NS_ELF_OK) as [Ec|Ec]; cbn [negb]; [|by apply wp_ret].
  destruct (check_phdr_spec src c bias count p) as [Hlt Hpo]; try done; [apply Hc|lia|].
  eapply wp_mono; [by apply (wp_place c (src_size src) bias p (load_headers file eh i))|].
  intros v s' [He' Hv]. rewrite He'. by split.
Qed.

Lemma wp_plan_loop src file c eh bias n s i count total :
  source_ok src file -> config_ok c -> is_u64 (phoff eh) -> phentsize eh = sizeof_phdr ->
  0 <= i -> i + Z.of_nat n < 2 ^ 16 -> is_u64 bias -> lw_ok (env s) ->
  plan_inv c (src_size src) bias (load_headers file eh i) (image s) count total ->
  wp (plan_loop src c eh bias n i count total) (fun v s' => lw_same (env s) (env s') /\
    match v with
    | fail e => e <> NS_ELF_OK
    | go count' total' =>
        plan_inv c (src_size src) bias (load_headers file eh (i + Z.of_nat n)) (image s') count' total'
    end) s.
Proof.
  intros Hsrc Hc Hph Hpe. revert s i count total. induction n as [|n IH]; intros s i count total Hi Hn Hb Hok Hinv; cbn [plan_loop].
  - apply wp_ret. split; [by apply lw_same_refl|]. by rewrite Z.add_0_r.
  - apply wp_bind. eapply wp_mono; [apply (wp_plan_header src file); try done; lia|].
    intros [e|count' total'] s' [Hs' Hv]; [by apply wp_ret|].
    eapply wp_mono; [apply IH; try done; [lia|lia|apply Hs']|]. cbn. intros v s2 [Hs2 Hv2].
    split; [by eapply lw_same_trans|]. destruct v; [done|].
    by replace (i + Z.of_nat (S n)) with (i + 1 + Z.of_nat n) by lia.
Qed.

(** The image of an accepted executable. *)
Record accepted (c : ns_elf_config) (file : list Z) (eh : elf64_ehdr) (img : ns_elf_image) : Prop := {
  ac_header : ehdr_of (bytes_at file 0 sizeof_ehdr) = Some eh;
  ac_bias : load_bias img = (if eh_type eh =? ET_DYN then dynamic_bias c else 0) /\ (page_size c | load_bias img);
  ac_count : 0 < segment_count img <= max_segments c;
  ac_segs : take (Z.to_nat (segment_count img)) (segments img) =
    planned c (load_bias img) <$> load_headers file eh (phnum eh);
  ac_ok : Forall (seg_ok c (Z.of_nat (length file))) (take (Z.to_nat (segment_count img)) (segments img));
  ac_apart : all_apart (take (Z.to_nat (segment_count img)) (segments img));
  ac_total : total_size (take (Z.to_nat (segment_count img)) (segments img)) <= max_image_size c;
  ac_span : Forall (fun g => image_start img <= map_address g /\ map_end g <= image_end img)
    (take (Z.to_nat (segment_count img)) (segments img));
  ac_entry : entry img = eh_entry eh + load_bias img /\
    exists g, g ∈ take (Z.to_nat (segment_count img)) (segments img) /\
      Z.land (sg_flags g) NS_ELF_MAP_EXEC <> 0 /\ address g <= entry img < seg_end g }.

Lemma entry_in_spec n segs i en :
  0 <= i -> (Z.to_nat i + n <= length segs)%nat ->
  Forall (fun g => is_u64 (seg_end g)) (take n (drop (Z.to_nat i) segs)) ->
  exists b, entry_in n segs i en = Some b /\
    (b = true -> exists g, g ∈ take n (drop (Z.to_nat i) segs) /\
      Z.land (sg_flags g) NS_ELF_MAP_EXEC <> 0 /\ address g <= en < seg_end g).
Proof.
  revert i. induction n as [|n IH]; intros i Hi Hl Hty; cbn [entry_in]; [by exists false|].
  destruct (rd_Some segs i ltac:(lia)) as [g Hg]. rewrite Hg. cbn [mbind option_bind].
  apply rd_lookup in Hg as [_ Hg]. rewrite (drop_S segs g _ Hg) in Hty |- *. cbn in Hty |- *.
  apply Forall_cons in Hty as [H1 Hty]. unfold seg_end in H1. rewrite u64_small by done.
  replace (S (Z.to_nat i)) with (Z.to_nat (i + 1)) in * by lia. destruct (_ && _) eqn:E1.
  - exists true. split; [done|]. intros _. exists g. apply andb_prop in E1 as [[E1 E2]%andb_prop E3].
    apply negb_true_iff, Z.eqb_neq in E1. unfold seg_end. split; [by left|]. split; [done|lia].
  - destruct (IH (i + 1)) as (b & -> & Hb); [lia|lia|done|]. exists b. split; [done|]. intros Ht.
    destruct (Hb Ht) as (h & Hh & ?). exists h. split; [by right|done].
Qed.

(** The tests of [check_header] that the rest depends on. *)
Lemma check_header_sizes c size eh : check_header c size eh = NS_ELF_OK -> phentsize eh = sizeof_phdr.
Proof.
  unfold check_header. intros H. repeat (case_match; try done).
  repeat match goal with E : _ || _ = false |- _ => apply orb_false_iff in E as [? ?] end.
  match goal with E : negb (phentsize eh =? _) = false |- _ => apply negb_false_iff, Z.eqb_eq in E; exact E end.
Qed.

(** What is left after the program headers. *)
Lemma accepted_intro c file eh bias img count total :
  config_ok c -> ehdr_of (bytes_at file 0 sizeof_ehdr) = Some eh ->
  bias = (if eh_type eh =? ET_DYN then dynamic_bias c else 0) -> (page_size c | bias) ->
  plan_inv c (Z.of_nat (length file)) bias (load_headers file eh (phnum eh)) img count total ->
  count <> 0 -> segment_count img = count -> entry img = eh_entry eh + bias ->
  (exists g, g ∈ take (Z.to_nat count) (segments img) /\
     Z.land (sg_flags g) NS_ELF_MAP_EXEC <> 0 /\ address g <= entry img < seg_end g) ->
  accepted c file eh img.
Proof.
  intros Hc Heh Hb Hdiv [Hlb] Hne Hsc He Hex.
  assert (Hn : Z.to_nat count = length (load_headers file eh (phnum eh))) by lia.
  constructor; rewrite ?Hsc, ?Hn, ?Hlb, ?pv_segs0; try done; [lia|congruence|].
  split; [done|]. by rewrite <- pv_segs0, <- Hn.
Qed.

Lemma plan_inv_fields c size bias phs img img' count total :
  plan_inv c size bias phs img count total -> segments img' = segments img ->
  image_start img' = image_start img -> image_end img' = image_end img -> load_bias img' = load_bias img ->
  plan_inv c size bias phs img' count total.
Proof. intros [] E1 E2 E3 E4. constructor; rewrite ?E1, ?E2, ?E3, ?E4; done. Qed.

(** [ns_elf64_plan] returns, touches nothing but the image, and accepts only good
    executables. *)
Lemma wp_plan src file c out s :
  source_ok src file -> config_typed c -> out <> NULL -> lw_ok (env s) ->
  length (segments (image s)) = Z.to_nat NS_ELF_MAX_LOAD_SEGMENTS ->
  wp (ns_elf64_plan (Some src) (Some c) out) (fun e s' => lw_same (env s) (env s') /\
    (e = NS_ELF_OK -> config_ok c /\ exists eh, accepted c file eh (image s') /\
       length (segments (image s')) = Z.to_nat NS_ELF_MAX_LOAD_SEGMENTS)) s.
Proof.
  intros Hsrc Hct Hout Hok Hlen. pose proof (lw_same_refl _ Hok) as Hrefl. unfold ns_elf64_plan.
  destruct (_ || _) eqn:E0; [by apply wp_ret|]. apply orb_false_iff in E0 as [_ E0%negb_false_iff].
  pose proof (valid_config_ok c Hct E0) as Hc. pose proof Hsrc as [[Hsz Hl] Hby _].
  apply wp_bind. apply (wp_source_read src file); try done. intros e b w Hw He. cbn [fst snd].
  destruct (Z.eqb_spec e NS_ELF_OK) as [Ee|Ee]; cbn [negb]; [|by apply wp_ret].
  destruct (He Ee) as [Hfit ->]. destruct (bytes_at_ok file 0 sizeof_ehdr) as [Hb1 Hb2]; [done..|lia|].
  destruct (ehdr_typed _ Hb1 Hb2) as (eh & Heh & Ht1 & Ht2 & Ht3 & Ht4). rewrite Heh.
  destruct (Z.eqb_spec (check_header c (src_size src) eh) NS_ELF_OK) as [Ech|Ech]; cbn [negb]; [|by apply wp_ret].
  pose proof (check_header_sizes _ _ _ Ech) as Hpe.
  remember (if eh_type eh =? ET_DYN then dynamic_bias c else 0) as bias eqn:Ebias.
  assert (Hbias : is_u64 bias) by (subst bias; destruct (_ =? _); [apply Hct|done]).
  destruct (Z.eqb_spec (Z.land bias (u64 (page_size c - 1))) 0) as [Eal|Eal]; cbn [negb]; [|by apply wp_ret].
  assert (Hdiv : (page_size c | bias)).
  { pose proof (page_pos c Hc). destruct (co_page _ Hc) as (k & Hk & Epg). rewrite u64_small in Eal by lia.
    rewrite Epg, land_mask in Eal by lia. rewrite Epg. apply Z.mod_divide; [lia|done]. }
  apply wp_bind, wp_modify, wp_bind. eapply wp_mono.
  { apply (wp_plan_loop src file c eh bias _ _ 0 0 0); try done; [lia|apply Hw|].
    rewrite load_headers_0. constructor; cbn; try done; [by destruct (co_segs _ Hc); lia|destruct Hct; lia]. }
  intros [e1|count total] s1 [Hs1 Hv]; [apply wp_ret; split; [by eapply lw_same_trans|by intros ?]|]. rewrite Z.add_0_l, Z2Nat.id in Hv by lia.
  assert (Hsame : lw_same (env s) (env s1)) by (by eapply lw_same_trans).
  destruct (Z.eqb_spec count 0) as [Ez|Ez]; [by apply wp_ret|].
  rewrite add_overflow_spec by done. apply wp_bind, wp_modify.
  destruct (Z.leb_spec (2 ^ 64) (eh_entry eh + bias)); [by apply wp_ret|]. rewrite u64_small by lia.
  apply wp_bind, wp_gets. cbn. pose proof (pv_length _ _ _ _ _ _ _ Hv) as Hl1.
  pose proof (pv_max _ _ _ _ _ _ _ Hv) as Hmax. pose proof (pv_count _ _ _ _ _ _ _ Hv) as Hcnt.
  pose proof (co_segs _ Hc) as Hms. unfold NS_ELF_MAX_LOAD_SEGMENTS in *.
  destruct (entry_in_spec (Z.to_nat count) (segments (image s1)) 0 (eh_entry eh + bias)) as (bb & -> & Hbb);
    [done|lia| |].
  { rewrite drop_0, Hcnt, Nat2Z.id, (pv_segs _ _ _ _ _ _ _ Hv).
    eapply Forall_impl; [apply (pv_ok _ _ _ _ _ _ _ Hv)|]. intros g []. unfold seg_end, map_end in *.
    destruct Hct. lia. }
  destruct bb; [|by apply wp_ret]. apply wp_bind, wp_modify, wp_ret. split; [done|]. intros _. split; [done|].
  exists eh. split; [|done]. rewrite Hsz in Hv.
  apply (accepted_intro c file eh bias _ count total); try done; [by eapply plan_inv_fields|by apply Hbb].
Qed.
End planning.
