(* ===== verification/ElfLoad.v ===== *)
(** * Loading an executable

    The effect of [ns_elf64_load] on the address space: the image when it
    succeeds, nothing when it fails. *)

From S2P Require Import Prelude Errno Elf ElfProps.

Definition within (a n x : Z) : Prop := a <= x < a + n.
#[export] Instance within_dec a n x : Decision (within a n x).
Proof. unfold within. apply _. Defined.

Section loading.
Context {W : Type} `{!LoadWorld W}.
Implicit Types (w : W) (g : ns_elf_segment) (s : estate W).

Definition same_prot w w' : Prop := forall x, lw_prot w' x = lw_prot w x.
Definition same_bytes_but a n w w' : Prop := forall x, ~ within a n x -> lw_byte w' x = lw_byte w x.

(** A range of whole pages. *)
Definition paged (page a n : Z) : Prop := (page | a) /\ (page | n) /\ 0 <= a /\ 0 < n /\ a + n < 2 ^ 64.

(** What the mapper's callbacks do, when pages have [page] bytes and the ranges that
    are mapped, protected and unmapped consist of whole pages.  Mapping and
    unmapping are all or nothing; a failed write or protection change stays
    within its range.  [lw_prot] is the protection last asked for. *)
Record mapping_ok (page : Z) (mp : mapping (W := W)) : Prop := {
  mo_map a n fl w : paged page a n -> lw_ok w -> wp (do_map mp a n fl) (fun r w' => lw_ok w' /\
    if r =? 0 then same_bytes_but a n w w' /\ (forall x, within a n x -> lw_prot w x = None) /\
      forall x, lw_prot w' x = if decide (within a n x) then Some fl else lw_prot w x
    else lw_same w w') w;
  mo_write a b n w : lw_ok w -> Z.of_nat (length b) = n ->
    wp (do_write mp a b n) (fun r w' => lw_ok w' /\ same_prot w w' /\ same_bytes_but a n w w' /\
      (r = 0 -> forall x, within a n x -> b !! Z.to_nat (x - a) = Some (lw_byte w' x))) w;
  mo_zero a n w : lw_ok w -> wp (do_zero mp a n) (fun r w' => lw_ok w' /\ same_prot w w' /\
    same_bytes_but a n w w' /\ (r = 0 -> forall x, within a n x -> lw_byte w' x = 0)) w;
  mo_protect a n fl w : paged page a n -> lw_ok w -> wp (do_protect mp a n fl) (fun r w' => lw_ok w' /\
    (forall x, lw_byte w' x = lw_byte w x) /\ (forall x, ~ within a n x -> lw_prot w' x = lw_prot w x) /\
    (r = 0 -> forall x, within a n x -> lw_prot w' x = Some fl)) w;
  mo_unmap a n w : paged page a n -> lw_ok w -> wp (do_unmap mp a n) (fun _ w' => lw_ok w' /\ same_bytes_but a n w w' /\
    forall x, lw_prot w' x = if decide (within a n x) then None else lw_prot w x) w }.

Lemma seg_paged c size g : seg_ok c size g -> paged (page_size c) (map_address g) (map_size g).
Proof. intros [_ [Hm _] _ [Hp1 Hp2] [Hc1 Hc2] [Hw1 Hw2] _]. unfold paged, seg_end, map_end in *. split_and!; [done|done|lia..]. Qed.

(** The memory of [g] from file position [from] on to [till] holds the bytes of the file. *)
Definition holds_file (file : list Z) g from till w : Prop :=
  forall x, address g + from <= x < address g + till ->
    file !! Z.to_nat (file_offset g + (x - address g)) = Some (lw_byte w x).

Definition in_map g x : Prop := within (map_address g) (map_size g) x.

(** The segment holds its file bytes and is zero after them. *)
Definition filled (file : list Z) g w : Prop :=
  holds_file file g 0 (file_size g) w /\
  forall x, address g + file_size g <= x < seg_end g -> lw_byte w x = 0.

Lemma holds_file_ext file g from till w w' :
  holds_file file g from till w ->
  (forall x, address g + from <= x < address g + till -> lw_byte w' x = lw_byte w x) ->
  holds_file file g from till w'.
Proof. intros H E x Hx. rewrite E by done. by apply H. Qed.

Lemma holds_file_app file g from mid till w :
  holds_file file g from mid w -> holds_file file g mid till w -> holds_file file g from till w.
Proof. intros H1 H2 x Hx. destruct (decide (x < address g + mid)); [apply H1|apply H2]; lia. Qed.

(** A chunk of the file written to its place. *)
Lemma chunk_written file g copied n w :
  0 <= file_offset g -> 0 <= copied -> 0 <= n ->
  (forall x, within (address g + copied) n x ->
     bytes_at file (file_offset g + copied) n !! Z.to_nat (x - (address g + copied)) = Some (lw_byte w x)) ->
  holds_file file g copied (copied + n) w.
Proof.
  intros Ho Hc Hn H x Hx. specialize (H x ltac:(unfold within; lia)). unfold bytes_at in H.
  apply lookup_take_Some in H as [H _]. rewrite lookup_drop in H. rewrite <- H. f_equal. lia.
Qed.

(** The copy loop. *)
Lemma wp_copy_loop src file mp g fuel c copied s :
  source_ok src file -> mapping_ok (page_size c) mp -> seg_ok c (Z.of_nat (length file)) g -> is_u64 (user_max c) ->
  0 <= user_min c -> 0 <= copied <= file_size g -> file_size g - copied + 511 < Z.of_nat fuel * sizeof_buffer ->
  lw_ok (env s) ->
  wp (copy_loop src (do_write mp) g fuel copied) (fun e s' => image s' = image s /\ lw_ok (env s') /\
    same_prot (env s) (env s') /\
    same_bytes_but (address g + copied) (file_size g - copied) (env s) (env s') /\
    (e = NS_ELF_OK -> holds_file file g copied (file_size g) (env s'))) s.
Proof.
  intros Hsrc Hmp [[Hu1 Hu2] [Hm [Hf1 Hf2]] [Hfo Hfe] _ _ _ _] Hmax Hmin. unfold sizeof_buffer, seg_end in *.
  pose proof Hsrc as [[Hsz Hl] Hby _]. revert copied s.
  induction fuel as [|fuel IH]; intros copied s Hcp Hfuel Hok; [lia|]. cbn [copy_loop].
  destruct (Z.ltb_spec copied (file_size g)) as [Hlt|Hge].
  2: { apply wp_ret. split_and!; try done. intros _ x Hx. lia. }
  rewrite (u64_small (file_size g - copied)) by lia. unfold sizeof_buffer.
  set (n := if file_size g - copied <? 512 then file_size g - copied else 512).
  assert (Hn : 0 < n <= 512 /\ copied + n <= file_size g /\ (n = 512 \/ copied + n = file_size g))
    by (unfold n; destruct (Z.ltb_spec (file_size g - copied) 512); lia).
  rewrite !u64_small by lia. apply wp_bind. apply (wp_source_read src file); [done|done|lia|lia|].
  intros e b w [Hok1 [Hp1 Hb1]] He. cbn [fst snd].
  destruct (Z.eqb_spec e NS_ELF_OK) as [Ee|Ee]; cbn [negb].
  2: { apply wp_ret. split_and!; try done. intros x _. by rewrite Hb1. }
  destruct (He Ee) as [Hfit ->]. destruct (bytes_at_ok file (file_offset g + copied) n) as [_ Hbl]; [done|lia..|].
  apply wp_bind, wp_zoom. eapply wp_mono; [apply (mo_write _ _ Hmp); [done|lia]|].
  intros code w2 (Hok2 & Hp2 & Hb2 & Hw2). cbn in Hp2, Hb2.
  destruct (Z.eqb_spec code 0) as [Ec|Ec]; cbn [negb].
  2: { apply wp_ret. split_and!; try done.
       - intros x. by rewrite Hp2, Hp1.
       - intros x Hx. rewrite Hb2, Hb1; [done|]. unfold within in *. lia. }
  eapply wp_mono; [apply IH; [lia|lia|done]|]. intros e' s' (Hi & Hok3 & Hp3 & Hb3 & Hd). cbn in *.
  split_and!; try done.
  - intros x. by rewrite Hp3, Hp2, Hp1.
  - intros x Hx. rewrite Hb3, Hb2, Hb1; [done|unfold within in *; lia..].
  - intros He'. apply (holds_file_app _ _ _ (copied + n)); [|by apply Hd].
    eapply holds_file_ext; [apply (chunk_written file g copied n w2); [lia..|by apply Hw2]|].
    intros x Hx. apply Hb3. unfold within. lia.
Qed.

(** What the rest of the address space looks like around a range that was
    mapped with flags [fl]. *)
Definition newly_mapped g fl w w' : Prop :=
  (forall x, in_map g x -> lw_prot w x = None) /\
  forall x, lw_prot w' x = if decide (in_map g x) then Some fl else lw_prot w x.

Definition temporary_flags : Z := Z.lor (Z.lor NS_ELF_MAP_USER NS_ELF_MAP_READ) NS_ELF_MAP_WRITE.

(** The file part and the zero part lie in the mapped range. *)
Lemma seg_in_map c size g x : seg_ok c size g -> address g <= x < seg_end g -> in_map g x.
Proof. intros [] Hx. unfold in_map, within, seg_end, map_end in *. lia. Qed.

(** One segment. *)
Lemma wp_load_segment src file mp g c s :
  source_ok src file -> mapping_ok (page_size c) mp -> seg_ok c (Z.of_nat (length file)) g -> is_u64 (user_max c) ->
  0 <= user_min c -> lw_ok (env s) ->
  wp (load_segment src mp g) (fun r s' => image s' = image s /\ lw_ok (env s') /\
    (forall x, ~ in_map g x -> lw_byte (env s') x = lw_byte (env s) x) /\
    (if r.1 : bool then newly_mapped g temporary_flags (env s) (env s') else lw_same (env s) (env s')) /\
    (r.2 = NS_ELF_OK -> r.1 = true /\ filled file g (env s'))) s.
Proof.
  intros Hsrc Hmp Hg Hmax Hmin Hok. pose proof Hg as [[Hu1 Hu2] [Hm [Hf1 Hf2]] _ _ _ _ _].
  unfold load_segment. fold temporary_flags. apply wp_bind, wp_zoom.
  eapply wp_mono; [by apply (mo_map _ _ Hmp); [by eapply seg_paged|]|]. intros r w (Hok1 & Hr).
  destruct (Z.eqb_spec r 0) as [Er|Er]; cbn [negb].
  2: { apply wp_ret. split_and!; try done. intros x _. apply Hr. }
  destruct Hr as (Hb1 & Hn & Hp1). apply wp_bind. eapply wp_mono.
  { apply (wp_copy_loop src file mp g (copy_fuel g) c 0); try done.
    unfold copy_fuel, sizeof_buffer. zdiv. }
  intros e s1 (Hi & Hok2 & Hp2 & Hb2 & Hd). cbn in Hp2, Hb2.
  assert (Hout : forall x, ~ in_map g x -> lw_byte (env s1) x = lw_byte (env s) x).
  { intros x Hx. rewrite Hb2, Hb1; [done|done|]. intros Hx'. apply Hx, (seg_in_map c _ _ _ Hg).
    unfold within, seg_end in *. lia. }
  assert (Hnew : newly_mapped g temporary_flags (env s) (env s1)).
  { split; [done|]. intros x. by rewrite Hp2, Hp1. }
  destruct (Z.eqb_spec e NS_ELF_OK) as [Ee|Ee]; cbn [negb].
  2: { apply wp_ret. split_and!; try done. }
  destruct (Z.ltb_spec (file_size g) (memory_size g)) as [Hlt|Hge].
  2: { apply wp_ret. split_and!; try done. intros _. split; [done|]. split; [by apply Hd|].
       intros x Hx. unfold seg_end in *. lia. }
  unfold seg_end in *. rewrite !u64_small by lia. apply wp_bind, wp_zoom.
  eapply wp_mono; [by apply (mo_zero _ _ Hmp)|]. intros code w3 (Hok3 & Hp3 & Hb3 & Hz). apply wp_ret. cbn.
  split_and!; try done.
  - intros x Hx. rewrite Hb3, Hout; [done|done|]. intros Hx'. apply Hx, (seg_in_map c _ _ _ Hg).
    unfold within, seg_end in *. lia.
  - split; [done|]. intros x. rewrite Hp3. apply Hnew.
  - destruct (Z.eqb_spec code 0) as [Ec|Ec]; [|done]. intros _. split; [done|]. split.
    + eapply holds_file_ext; [by apply Hd|]. intros x Hx. apply Hb3. unfold within. lia.
    + intros x Hx. apply Hz; [done|]. unfold within, seg_end in *. lia.
Qed.

(** [w] is [w0] with the segments [l] mapped; what was mapped before is as it
    was. *)
Record around (l : list ns_elf_segment) w0 w : Prop := {
  ar_new g x : g ∈ l -> in_map g x -> lw_prot w0 x = None;
  ar_prot x : (forall g, g ∈ l -> ~ in_map g x) -> lw_prot w x = lw_prot w0 x;
  ar_byte x : lw_prot w0 x <> None -> lw_byte w x = lw_byte w0 x }.

Lemma around_nil w : around [] w w.
Proof. constructor; [set_solver|done|done]. Qed.

Lemma around_same l w0 w w' : around l w0 w -> lw_same w w' -> around l w0 w'.
Proof. intros [] (_ & Hp & Hb). constructor; intros; rewrite ?Hp, ?Hb; eauto. Qed.

Lemma around_push l g fl w0 w w' :
  (forall h, h ∈ l -> apart h g) -> around l w0 w -> newly_mapped g fl w w' ->
  (forall x, ~ in_map g x -> lw_byte w' x = lw_byte w x) -> around (l ++ [g]) w0 w'.
Proof.
  intros Hap [] [Hn Hp] Hb.
  assert (Hfree : forall x, in_map g x -> lw_prot w0 x = None).
  { intros x Hx. rewrite <- ar_prot0; [by apply Hn|]. intros h Hh Hx'. specialize (Hap h Hh).
    unfold apart, in_map, within, map_end in *. lia. }
  constructor.
  - intros h x [Hh| ->%list_elem_of_singleton]%elem_of_app Hx; [by eapply ar_new0|by apply Hfree].
  - intros x Hx. rewrite Hp, decide_False by (apply Hx; set_solver). apply ar_prot0. intros h Hh. apply Hx. set_solver.
  - intros x Hx. rewrite Hb by (by intros ?%Hfree). by apply ar_byte0.
Qed.

Lemma filled_keep file c size g h w w' :
  seg_ok c size g -> apart g h -> (forall x, ~ in_map h x -> lw_byte w' x = lw_byte w x) ->
  filled file g w -> filled file g w'.
Proof.
  intros Hg Hap Hb [Hf Hz].
  assert (Hk : forall x, address g <= x < seg_end g -> lw_byte w' x = lw_byte w x).
  { intros x Hx. apply Hb. intros Hx'. pose proof (seg_in_map _ _ _ _ Hg Hx) as Hx2.
    unfold apart, in_map, within, map_end in *. lia. }
  pose proof Hg as [_ [Hm [Hf1 Hf2]] _ _ _ _ _]. split.
  - eapply holds_file_ext; [done|]. intros x Hx. apply Hk. unfold seg_end. lia.
  - intros x Hx. rewrite Hk by lia. by apply Hz.
Qed.

(** The segments of an image. *)
Record plan_of (c : ns_elf_config) (file : list Z) (img : ns_elf_image) (L : list ns_elf_segment) : Prop := {
  po_take : L = take (Z.to_nat (segment_count img)) (segments img);
  po_len : Z.of_nat (length L) = segment_count img;
  po_segs : Forall (seg_ok c (Z.of_nat (length file))) L;
  po_apart : all_apart L;
  po_types : is_u64 (user_max c) /\ 0 <= user_min c }.

Lemma plan_rd c file img L i g :
  plan_of c file img L -> L !! Z.to_nat i = Some g -> 0 <= i -> rd (segments img) i = Some g.
Proof.
  intros [-> _ _ _ _] Hg Hi. apply rd_lookup. split; [done|]. by apply lookup_take_Some in Hg as [].
Qed.

Lemma plan_apart c file img L i g h :
  plan_of c file img L -> L !! i = Some g -> h ∈ take i L -> apart h g.
Proof.
  intros Hp Hg [j Hj]%list_elem_of_lookup. apply lookup_take_Some in Hj as [Hj Hlt].
  eapply (po_apart _ _ _ _ Hp); [done..|lia].
Qed.

Lemma elem_of_take {A} (x : A) n l : x ∈ take n l -> x ∈ l.
Proof. rewrite <- (take_drop n l) at 2. set_solver. Qed.

(** The first loop. *)
Lemma wp_load_loop src file mp c img L n s i w0 :
  source_ok src file -> mapping_ok (page_size c) mp -> plan_of c file img L ->
  (Z.to_nat i + n = length L)%nat -> 0 <= i -> image s = img -> lw_ok (env s) ->
  around (take (Z.to_nat i) L) w0 (env s) ->
  Forall (fun g => filled file g (env s)) (take (Z.to_nat i) L) ->
  wp (load_loop src mp n i i) (fun r s' => image s' = img /\ lw_ok (env s') /\ 0 <= r.1 <= Z.of_nat (length L) /\
    around (take (Z.to_nat r.1) L) w0 (env s') /\
    (r.2 = NS_ELF_OK -> r.1 = Z.of_nat (length L) /\ Forall (fun g => filled file g (env s')) L)) s.
Proof.
  intros Hsrc Hmp Hpl. revert s i. induction n as [|n IH]; intros s i Hn Hi Him Hok Har Hfl; cbn [load_loop].
  - apply wp_ret. cbn. split_and!; try done; [lia|]. intros _. split; [lia|]. by rewrite take_ge in Hfl by lia.
  - apply wp_bind, wp_gets. rewrite Him. destruct (lookup_lt_is_Some_2 L (Z.to_nat i) ltac:(lia)) as [g Hg].
    rewrite (plan_rd _ _ _ _ _ _ Hpl Hg Hi). destruct (po_types _ _ _ _ Hpl) as [Ht1 Ht2].
    assert (Hgk : seg_ok c (Z.of_nat (length file)) g) by (eapply Forall_lookup_1; [apply Hpl|done]).
    apply wp_bind. eapply wp_mono; [by apply (wp_load_segment src file mp g c)|].
    intros [mapped e] s' (Hi' & Hok' & Hb & Hm & Hd). cbn in *.
    assert (HgL : g ∈ L) by (by eapply list_elem_of_lookup_2).
    assert (Hap : forall h, h ∈ take (Z.to_nat i) L -> apart h g) by (intros h; by eapply plan_apart).
    assert (Etk : take (Z.to_nat (i + 1)) L = take (Z.to_nat i) L ++ [g]).
    { replace (Z.to_nat (i + 1)) with (S (Z.to_nat i)) by lia. by apply take_S_r. }
    destruct (Z.eqb_spec e NS_ELF_OK) as [Ee|Ee]; cbn [negb].
    + destruct (Hd Ee) as [-> Hfg]. apply IH; try done; [lia|lia|congruence|rewrite Etk|rewrite Etk].
      * by eapply around_push.
      * apply Forall_app. split; [|by constructor]. rewrite Forall_forall in Hfl |- *. intros h Hh.
        eapply (filled_keep _ c _ h g); [|by apply Hap|exact Hb|by apply Hfl].
        assert (h ∈ L) by (by eapply elem_of_take).
        by eapply Forall_forall; [apply Hpl|].
    + apply wp_ret. cbn. split_and!; try done; try (destruct mapped; lia); [congruence|].
      destruct mapped; [rewrite Etk; by eapply around_push|by eapply around_same].
Qed.

Lemma plan_paged c file img L i g : plan_of c file img L -> L !! i = Some g -> paged (page_size c) (map_address g) (map_size g).
Proof. intros Hpl Hg. eapply seg_paged, Forall_lookup_1; [apply Hpl|done]. Qed.

(** Giving back the mapped segments. *)
Lemma wp_rollback mp c file img L m s w0 :
  mapping_ok (page_size c) mp -> plan_of c file img L -> (m <= length L)%nat -> image s = img -> lw_ok (env s) ->
  around (take m L) w0 (env s) ->
  wp (rollback mp m) (fun _ s' => image s' = img /\ lw_ok (env s') /\ around [] w0 (env s')) s.
Proof.
  intros Hmp Hpl. revert s. induction m as [|m IH]; intros s Hm Him Hok Har; cbn [rollback]; [by apply wp_ret|].
  apply wp_bind, wp_gets. rewrite Him. destruct (lookup_lt_is_Some_2 L m ltac:(lia)) as [g Hg].
  rewrite (plan_rd _ _ _ _ _ g Hpl) by (rewrite ?Nat2Z.id; done || lia).
  apply wp_bind, wp_zoom. eapply wp_mono; [by apply (mo_unmap _ _ Hmp); [eapply plan_paged|]|]. intros [] w (Hok' & Hb & Hp).
  assert (HgL : g ∈ L) by (by eapply list_elem_of_lookup_2).
  apply IH; [lia|done|done|]. cbn. rewrite (take_S_r _ _ _ Hg) in Har. destruct Har. constructor.
  - intros h x Hh. apply ar_new0. set_solver.
  - intros x Hx. rewrite Hp. case_decide as Hin.
    + symmetry. apply (ar_new0 g); [set_solver|done].
    + apply ar_prot0. intros h [Hh| ->%list_elem_of_singleton]%elem_of_app; [by apply Hx|done].
  - intros x Hx. rewrite Hb; [by apply ar_byte0|]. intros Hin. apply Hx, (ar_new0 g); [set_solver|done].
Qed.

(** The second loop. *)
Lemma wp_protect_loop mp c file img L n s i w0 :
  mapping_ok (page_size c) mp -> plan_of c file img L -> (Z.to_nat i + n = length L)%nat -> 0 <= i -> image s = img ->
  lw_ok (env s) -> around L w0 (env s) ->
  (forall g x, g ∈ take (Z.to_nat i) L -> in_map g x -> lw_prot (env s) x = Some (sg_flags g)) ->
  wp (protect_loop mp n i) (fun e s' => image s' = img /\ lw_ok (env s') /\ around L w0 (env s') /\
    (forall x, lw_byte (env s') x = lw_byte (env s) x) /\
    (e = NS_ELF_OK -> forall g x, g ∈ L -> in_map g x -> lw_prot (env s') x = Some (sg_flags g))) s.
Proof.
  intros Hmp Hpl. revert s i. induction n as [|n IH]; intros s i Hn Hi Him Hok Har Hfl; cbn [protect_loop].
  - apply wp_ret. split_and!; try done. intros _. by rewrite take_ge in Hfl by lia.
  - apply wp_bind, wp_gets. rewrite Him. destruct (lookup_lt_is_Some_2 L (Z.to_nat i) ltac:(lia)) as [g Hg].
    rewrite (plan_rd _ _ _ _ _ _ Hpl Hg Hi).
    assert (HgL : g ∈ L) by (by eapply list_elem_of_lookup_2).
    apply wp_bind, wp_zoom. eapply wp_mono; [by apply (mo_protect _ _ Hmp); [eapply plan_paged|]|]. intros r w (Hok' & Hb & Hp & Hd).
    assert (Har' : around L w0 w).
    { destruct Har. constructor; [done| |].
      - intros x Hx. rewrite Hp by (by apply (Hx g)). by apply ar_prot0.
      - intros x Hx. rewrite Hb. by apply ar_byte0. }
    destruct (Z.eqb_spec r 0) as [Er|Er]; cbn [negb]; [|by apply wp_ret].
    eapply wp_mono; [apply IH; try done; [lia|lia|]|].
    + cbn. replace (Z.to_nat (i + 1)) with (S (Z.to_nat i)) by lia. rewrite (take_S_r _ _ _ Hg).
      intros h x [Hh| ->%list_elem_of_singleton]%elem_of_app Hx; [|by apply Hd].
      rewrite Hp; [by apply (Hfl h)|]. pose proof (plan_apart _ _ _ _ _ _ _ Hpl Hg Hh).
      unfold apart, in_map, within, map_end in *. lia.
    + cbn. intros e s' (? & ? & ? & Hb' & ?). split_and!; try done. intros x. by rewrite Hb', Hb.
Qed.
End loading.
