(* ===== verification/ElfTheorems.v ===== *)
(** * Correctness of the ELF loader

    Planning accepts only executables whose segments are in bounds, apart from
    each other and never both writable and executable; loading gives exactly
    the image the plan describes, or leaves the address space as it was. *)

From S2P Require Import Prelude Errno Elf ElfProps ElfLoad.

Section theorems.
Context {W : Type} `{!LoadWorld W}.
Implicit Types (c : ns_elf_config) (s : estate W).

Definition image_segments (img : ns_elf_image) : list ns_elf_segment :=
  take (Z.to_nat (segment_count img)) (segments img).

(** A caller's image, with room for all segments. *)
Definition image_typed (img : ns_elf_image) : Prop :=
  length (segments img) = Z.to_nat NS_ELF_MAX_LOAD_SEGMENTS.

(** Page-aligned limits bound the pages too. *)
Lemma pages_in_bounds c size g :
  config_ok c -> seg_ok c size g -> (page_size c | user_min c) -> (page_size c | user_max c) ->
  user_min c <= map_address g /\ map_end g <= user_max c.
Proof.
  intros Hc [[H1 H2] _ _ [[a Ha] [b Hb]] [H3 H4] _ _] [p Hp] [q Hq]. pose proof (page_pos c Hc).
  unfold map_end, seg_end in *. rewrite Ha, Hb, Hp, Hq in *.
  assert (p < a + 1) by (apply (Z.mul_lt_mono_pos_r (page_size c)); lia).
  assert (a + b < q + 1) by (apply (Z.mul_lt_mono_pos_r (page_size c)); lia). nia.
Qed.

(** C33 Bounds.  Planning always returns, touches nothing but the caller's image
    and accepts an executable only if: its loadable program headers, in order,
    are the segments of the image; every segment lies between the user limits
    and takes its bytes from inside the file; its pages cover it and stay
    within page-aligned limits; no page belongs to two segments; none is
    writable and executable unless allowed; the pages fit the size limit; and
    the entry point is in an executable segment. *)
Theorem elf_plan_bounds src file c out s :
  source_ok src file -> config_typed c -> out <> NULL -> lw_ok (env s) -> image_typed (image s) ->
  exists e s', ns_elf64_plan (Some src) (Some c) out s = Some (e, s') /\ lw_same (env s) (env s') /\
    (e = NS_ELF_OK -> (exists eh, accepted c file eh (image s')) /\
       ((page_size c | user_min c) -> (page_size c | user_max c) ->
        Forall (fun g => user_min c <= map_address g /\ map_end g <= user_max c) (image_segments (image s')))).
Proof.
  intros Hs Hc Ho Hok Hi. destruct (wp_plan src file c out s Hs Hc Ho Hok Hi) as (e & s' & E & Hw & Hd).
  exists e, s'. split_and!; [done..|]. intros He. destruct (Hd He) as (Hco & eh & Ha & _). split; [by exists eh|].
  intros H1 H2. eapply Forall_impl; [apply (ac_ok _ _ _ _ Ha)|]. intros g Hg. by eapply pages_in_bounds.
Qed.

Lemma accepted_plan c file eh img :
  config_ok c -> accepted c file eh img -> image_typed img -> plan_of c file img (image_segments img).
Proof.
  intros [[] _ Hms] [] Hi. unfold image_typed, image_segments, NS_ELF_MAX_LOAD_SEGMENTS in *.
  constructor; try done; [|lia]. rewrite length_take, Hi. lia.
Qed.

(** The whole run. *)
Lemma wp_elf_load src file mapper mp c out s :
  source_ok src file -> mapping_of mapper = Some mp -> mapping_ok (page_size c) mp -> config_typed c -> out <> NULL ->
  lw_ok (env s) -> image_typed (image s) ->
  wp (ns_elf64_load (Some src) mapper (Some c) out) (fun e s' =>
    let L := image_segments (image s') in
    around (if e =? NS_ELF_OK then L else []) (env s) (env s') /\
    (e = NS_ELF_OK -> (exists eh, accepted c file eh (image s')) /\
       Forall (fun g => filled file g (env s') /\
         forall x, in_map g x -> lw_prot (env s') x = Some (sg_flags g)) L)) s.
Proof.
  intros Hs Hmo Hmp Hc Ho Hok Hi. unfold ns_elf64_load. apply wp_bind.
  eapply wp_mono; [by apply (wp_plan src file c out s)|]. intros e s1 [Hw Hd].
  assert (Har0 : around [] (env s) (env s1)) by (apply (around_same _ _ (env s)); [apply around_nil|done]).
  destruct (Z.eqb_spec e NS_ELF_OK) as [Ee|Ee]; cbn [negb].
  2: { apply wp_ret. by rewrite (proj2 (Z.eqb_neq e NS_ELF_OK) Ee). }
  destruct (Hd Ee) as (Hco & eh & Ha & Hi1). pose proof (accepted_plan c file eh _ Hco Ha Hi1) as Hpl.
  set (L := image_segments (image s1)) in *. assert (Hn : Z.to_nat (segment_count (image s1)) = length L) by (destruct Hpl; lia).
  rewrite Hmo. apply wp_bind, wp_gets, wp_bind. rewrite Hn. eapply wp_mono.
  { apply (wp_load_loop src file mp c (image s1) L (length L) s1 0 (env s)); try done. apply Hw. }
  intros [m e2] s2 (Hi2 & Hok2 & Hm & Har & Hd2). cbn in *.
  destruct (Z.eqb_spec e2 NS_ELF_OK) as [Ee2|Ee2]; cbn [negb].
  2: { apply wp_bind. eapply wp_mono; [by apply (wp_rollback mp c file (image s1) L); try done; lia|].
       intros [] s3 (_ & _ & Har3). apply wp_ret. by rewrite (proj2 (Z.eqb_neq e2 NS_ELF_OK) Ee2). }
  destruct (Hd2 Ee2) as [-> Hfl]. rewrite Nat2Z.id, firstn_all in Har. apply wp_bind. eapply wp_mono.
  { by apply (wp_protect_loop mp c file (image s1) L (length L) s2 0 (env s)); try done; intros g x Hg; set_solver. }
  intros e3 s3 (Hi3 & Hok3 & Har3 & Hb3 & Hd3).
  destruct (Z.eqb_spec e3 NS_ELF_OK) as [Ee3|Ee3]; cbn [negb].
  2: { apply wp_bind. eapply wp_mono; [by apply (wp_rollback mp c file (image s1) L); try done; [lia|by rewrite Nat2Z.id, firstn_all]|].
       intros [] s4 (_ & _ & Har4). apply wp_ret. by rewrite (proj2 (Z.eqb_neq e3 NS_ELF_OK) Ee3). }
  apply wp_ret. rewrite Hi3. fold L. split; [done|]. intros _. split; [by exists eh|].
  rewrite Forall_forall in Hfl |- *. intros g Hg. split; [|intros x; by apply Hd3].
  destruct (Hfl g Hg) as [Hf1 Hf2]. split; [by eapply holds_file_ext|]. intros x Hx. rewrite Hb3. by apply Hf2.
Qed.

(** C34 Loading.  Loading always returns.  When it succeeds, every segment of the
    accepted executable is mapped on pages that were free, with exactly its
    permissions, and its memory holds its bytes of the file followed by zeros;
    everything else in the address space is as it was. *)
Theorem elf_load_correct src file mapper mp c out s :
  source_ok src file -> mapping_of mapper = Some mp -> mapping_ok (page_size c) mp -> config_typed c -> out <> NULL ->
  lw_ok (env s) -> image_typed (image s) ->
  exists e s', ns_elf64_load (Some src) mapper (Some c) out s = Some (e, s') /\
    (e = NS_ELF_OK -> (exists eh, accepted c file eh (image s')) /\
       Forall (fun g => filled file g (env s') /\
         forall x, in_map g x -> lw_prot (env s) x = None /\ lw_prot (env s') x = Some (sg_flags g))
         (image_segments (image s')) /\
       (forall x, (forall g, g ∈ image_segments (image s') -> ~ in_map g x) ->
          lw_prot (env s') x = lw_prot (env s) x) /\
       (forall x, lw_prot (env s) x <> None -> lw_byte (env s') x = lw_byte (env s) x)).
Proof.
  intros Hs Hmo Hmp Hc Ho Hok Hi. destruct (wp_elf_load src file mapper mp c out s) as (e & s' & E & Har & Hd); [done..|].
  exists e, s'. split; [done|]. intros He. destruct (Hd He) as [Hex Hall]. rewrite He in Har. cbn in Har.
  split_and!; [done| |apply Har|apply Har]. rewrite Forall_forall in Hall |- *. intros g Hg.
  destruct (Hall g Hg) as [Hf Hp]. split; [done|]. intros x Hx. split; [by eapply (ar_new _ _ _ Har)|by apply Hp].
Qed.

(** C35 Rollback.  When loading fails for any reason - the executable, reading it,
    mapping, copying or protecting - no address is left mapped that was not, and
    what was mapped before is unchanged. *)
Theorem elf_load_rollback src file mapper mp c out s :
  source_ok src file -> mapping_of mapper = Some mp -> mapping_ok (page_size c) mp -> config_typed c -> out <> NULL ->
  lw_ok (env s) -> image_typed (image s) ->
  exists e s', ns_elf64_load (Some src) mapper (Some c) out s = Some (e, s') /\
    (e <> NS_ELF_OK -> forall x, lw_prot (env s') x = lw_prot (env s) x /\
       (lw_prot (env s) x <> None -> lw_byte (env s') x = lw_byte (env s) x)).
Proof.
  intros Hs Hmo Hmp Hc Ho Hok Hi. destruct (wp_elf_load src file mapper mp c out s) as (e & s' & E & Har & Hd); [done..|].
  exists e, s'. split; [done|]. intros He x. rewrite (proj2 (Z.eqb_neq e NS_ELF_OK) He) in Har.
  split; [apply (ar_prot _ _ _ Har); set_solver|apply Har].
Qed.
End theorems.

(** ** A small executable *)

Module ElfToy.

Record world := mk_world { prot : Z -> option Z; byte : Z -> Z }.
#[export] Instance world_load : LoadWorld world := {| lw_ok _ := True; lw_prot := prot; lw_byte := byte |}.

Definition free (w : world) (a n : Z) : bool :=
  forallb (fun x => bool_decide (prot w x = None)) (seqZ a n).

Definition map0 (a n fl : Z) : M world Z :=
  fun w => if free w a n
    then Some (0, mk_world (fun x => if decide (within a n x) then Some fl else prot w x) (byte w))
    else Some (-1, w).
Definition write0 (a : Z) (b : list Z) (n : Z) : M world Z :=
  fun w => Some (0, mk_world (prot w)
    (fun x => if decide (within a n x) then default 0 (b !! Z.to_nat (x - a)) else byte w x)).
Definition zero0 (a n : Z) : M world Z :=
  fun w => Some (0, mk_world (prot w) (fun x => if decide (within a n x) then 0 else byte w x)).
Definition protect0 (a n fl : Z) : M world Z :=
  fun w => Some (0, mk_world (fun x => if decide (within a n x) then Some fl else prot w x) (byte w)).
Definition unmap0 (a n : Z) : M world unit :=
  fun w => Some (tt, mk_world (fun x => if decide (within a n x) then None else prot w x) (byte w)).

Definition mapper : ns_elf_mapper world :=
  mk_mapper (Some map0) (Some write0) (Some zero0) (Some protect0) (Some unmap0).
Definition mp : mapping := mk_mapping map0 write0 zero0 protect0 unmap0.

Lemma mp_ok page : mapping_ok page mp.
Proof.
  constructor; cbn.
  - intros a n fl w _ _. unfold wp, map0. cbn beta. destruct (free w a n) eqn:E; eexists _, _; (split; [done|]); [|by split; [|apply lw_same_refl]].
    split; [done|]. cbn. split_and!; try done. intros x Hx. unfold free in E. rewrite forallb_forall in E.
    specialize (E x). rewrite bool_decide_eq_true in E. apply E. apply list_elem_of_In, elem_of_seqZ.
    unfold within in Hx. lia.
  - intros a b n w _ Hn. eexists _, _. split; [done|]. split_and!; try done; cbn.
    + intros x Hx. cbn. by rewrite decide_False.
    + intros _ x Hx. rewrite decide_True by done. unfold within in Hx.
      destruct (lookup_lt_is_Some_2 b (Z.to_nat (x - a)) ltac:(lia)) as [v ->]. done.
  - intros a n w _. eexists _, _. split; [done|]. split_and!; try done; cbn; intros.
    + intros x Hx. cbn. by rewrite decide_False.
    + by rewrite decide_True.
  - intros a n fl w _ _. eexists _, _. split; [done|]. split_and!; try done; cbn; intros.
    + by rewrite decide_False.
    + by rewrite decide_True.
  - intros a n w _ _. eexists _, _. split; [done|]. split_and!; try done.
Qed.

(** The same with a protection call that changes the range and then fails. *)
Definition protect1 (a n fl : Z) : M world Z :=
  fun w => Some (-1, mk_world (fun x => if decide (within a n x) then Some fl else prot w x) (byte w)).
Definition mapper1 : ns_elf_mapper world :=
  mk_mapper (Some map0) (Some write0) (Some zero0) (Some protect1) (Some unmap0).
Definition mp1 : mapping := mk_mapping map0 write0 zero0 protect1 unmap0.

Lemma mp1_ok page : mapping_ok page mp1.
Proof.
  destruct (mp_ok page) as [H1 H2 H3 _ H5]. constructor; [exact H1|exact H2|exact H3| |exact H5].
  intros a n fl w _ _. eexists _, _. split; [done|]. split_and!; try done; cbn. intros x Hx. by rewrite decide_False.
Qed.

(** One segment, read and execute, at 0x400000: 128 bytes of file, 200 of memory. *)
Definition file : list Z :=
  [127; 69; 76; 70; 2; 1; 1; 0] ++ replicate 8 0 ++ le_encode 2 2 ++ le_encode 2 62 ++ le_encode 4 1 ++
  le_encode 8 0x400078 ++ le_encode 8 64 ++ le_encode 8 0 ++ le_encode 4 0 ++ le_encode 2 64 ++
  le_encode 2 56 ++ le_encode 2 1 ++ le_encode 2 0 ++ le_encode 2 0 ++ le_encode 2 0 ++
  le_encode 4 1 ++ le_encode 4 5 ++ le_encode 8 0 ++ le_encode 8 0x400000 ++ le_encode 8 0 ++
  le_encode 8 128 ++ le_encode 8 200 ++ le_encode 8 4096 ++ replicate 8 144.

Definition source : ns_elf_source world :=
  mk_source 128 (Some (fun off len => mret (0, bytes_at file off len))).

Lemma source_good : source_ok source file.
Proof.
  constructor; [done| |].
  - unfold bytes_ok. apply (Forall_impl (fun b => bool_decide (0 <= b < 2 ^ 8) = true)).
    + apply Forall_forall. intros x Hx. assert (H : forallb (fun b => bool_decide (0 <= b < 2 ^ 8)) file = true)
        by (vm_compute; reflexivity). rewrite forallb_forall in H. by apply H, list_elem_of_In.
    + intros x. apply bool_decide_eq_true.
  - eexists. split; [done|]. intros off len w _ _ _ _. by apply wp_ret.
Qed.

Definition config : ns_elf_config := mk_config 0x1000 0x800000000000 4096 0 0x100000 4 0 0.
Lemma config_good : config_typed config.
Proof. by constructor. Qed.

Definition start : estate world :=
  mk_estate (mk_world (fun _ => None) (fun _ => 0))
    (mk_image 0 0 0 0 0 (replicate 32 (mk_segment 0 0 0 0 0 0 0))).

Lemma elf_plan_bounds_witness : exists e s', ns_elf64_plan (Some source) (Some config) 1 start = Some (e, s') /\
  lw_same (env start) (env s') /\ (e = NS_ELF_OK -> (exists eh, accepted config file eh (image s')) /\
    ((page_size config | user_min config) -> (page_size config | user_max config) ->
     Forall (fun g => user_min config <= map_address g /\ map_end g <= user_max config) (image_segments (image s')))).
Proof. by apply (elf_plan_bounds source file config 1 start source_good config_good). Defined.

(** The executable is accepted and loaded. *)
Example elf_toy_loads : fst <$> ns_elf64_load (Some source) (Some mapper) (Some config) 1 start = Some NS_ELF_OK.
Proof. vm_compute. reflexivity. Qed.

Lemma elf_load_correct_witness : exists e s',
  ns_elf64_load (Some source) (Some mapper) (Some config) 1 start = Some (e, s') /\
  (e = NS_ELF_OK -> Forall (fun g => filled file g (env s')) (image_segments (image s'))).
Proof.
  destruct (elf_load_correct source file (Some mapper) mp config 1 start source_good eq_refl (mp_ok _) config_good)
    as (e & s' & E & Hd); [done..|].
  exists e, s'. split; [exact E|]. intros He. destruct (Hd He) as (_ & Hall & _).
  eapply Forall_impl; [exact Hall|]. by intros g [].
Defined.

(** The segment is mapped and filled, its protection fails, and it is unmapped again. *)
Lemma elf_load_rollback_witness : exists e s',
  ns_elf64_load (Some source) (Some mapper1) (Some config) 1 start = Some (e, s') /\ e <> NS_ELF_OK /\
  forall x, lw_prot (env s') x = None.
Proof.
  destruct (elf_load_rollback source file (Some mapper1) mp1 config 1 start source_good eq_refl (mp1_ok _) config_good)
    as (e & s' & E & Hd); [done..|].
  assert (He : fst <$> ns_elf64_load (Some source) (Some mapper1) (Some config) 1 start = Some NS_ELF_E_PROTECT) by (vm_compute; reflexivity).
  rewrite E in He. injection He as ->. exists NS_ELF_E_PROTECT, s'. split; [exact E|]. split; [done|].
  intros x. exact (proj1 (Hd ltac:(done) x)).
Defined.
End ElfToy.
