(* ===== verification/Block.v ===== *)
(** * Block devices (kernel/fs/block.c, block_slice.c, block_mem.c)

    A device is a record with a table of operations.  Two tables are in the
    sources: the one of memory devices and the one of slices, which forward to
    a parent device; every other driver is a table of functions on a world [W].
    Objects live in maps from addresses; a slice and a memory device embed their
    device as first member, so it has their address.  Buffers are lists of
    bytes: a read takes the caller's buffer and returns its new contents. *)

From S2P Require Import Prelude Errno.

(** ** Data *)

Abbreviation NS_BLOCK_DEVICE_MAGIC := 0x4e53424c (only parsing).
Abbreviation NS_MEM_BLOCK_MAGIC := 0x4e534d42 (only parsing).
Abbreviation NS_BLOCK_F_READ_ONLY := (Z.shiftl 1 0) (only parsing).
Abbreviation NS_BLOCK_F_REMOVABLE := (Z.shiftl 1 1) (only parsing).
Abbreviation NS_BLOCK_F_VOLATILE_WRITE_CACHE := (Z.shiftl 1 2) (only parsing).
Definition NS_BLOCK_F_ALL : Z :=
  Z.lor (Z.lor NS_BLOCK_F_READ_ONLY NS_BLOCK_F_REMOVABLE) NS_BLOCK_F_VOLATILE_WRITE_CACHE.
Abbreviation NS_MEM_BLOCK_FAULT_READ := (Z.shiftl 1 0) (only parsing).
Abbreviation NS_MEM_BLOCK_FAULT_WRITE := (Z.shiftl 1 1) (only parsing).
Abbreviation NS_MEM_BLOCK_FAULT_FLUSH := (Z.shiftl 1 2) (only parsing).
Definition NS_MEM_BLOCK_FAULT_ALL : Z :=
  Z.lor (Z.lor NS_MEM_BLOCK_FAULT_READ NS_MEM_BLOCK_FAULT_WRITE) NS_MEM_BLOCK_FAULT_FLUSH.

(** The tables of operations; the driver's functions take their context. *)
Inductive ns_block_ops (W : Type) :=
  | ns_mem_block_ops
  | ns_slice_ops
  | driver_ops (read : option (Z -> Z -> Z -> list Z -> M W (Z * list Z)))
      (write : option (Z -> Z -> Z -> list Z -> M W Z)) (flush : option (Z -> M W Z)).
Arguments ns_mem_block_ops {W}. Arguments ns_slice_ops {W}. Arguments driver_ops {W}.

Record ns_block_device (W : Type) := mk_device {
  ops : option (ns_block_ops W); context : Z; sector_count : Z; sector_size : Z;
  max_transfer_sectors : Z; flags : Z; dev_magic : Z }.
Arguments mk_device {W}. Arguments ops {W}. Arguments context {W}. Arguments sector_count {W}.
Arguments sector_size {W}. Arguments max_transfer_sectors {W}. Arguments flags {W}.
Arguments dev_magic {W}.

(** The members of [struct ns_block_slice] after the device. *)
Record ns_block_slice := mk_slice { parent : Z; first_sector : Z }.

Record ns_block_allocator (W : Type) := mk_allocator {
  allocate : option (Z -> Z -> Z -> M W Z); deallocate : option (Z -> Z -> Z -> Z -> M W unit);
  al_context : Z }.
Arguments mk_allocator {W}. Arguments allocate {W}. Arguments deallocate {W}. Arguments al_context {W}.

Record ns_mem_block_fault := mk_fault {
  operation_mask : Z; error : Z; f_first_sector : Z; f_sector_count : Z; pass_count : Z;
  fail_count : Z }.
Definition eta_fault (f : ns_mem_block_fault) : ns_mem_block_fault :=
  mk_fault (operation_mask f) (error f) (f_first_sector f) (f_sector_count f) (pass_count f)
    (fail_count f).
#[export] Instance set_pass_count : Setter pass_count.
Proof. mk_setter eta_fault pass_count. Defined.
#[export] Instance set_fail_count : Setter fail_count.
Proof. mk_setter eta_fault fail_count. Defined.
Definition no_fault : ns_mem_block_fault := mk_fault 0 0 0 0 0 0.

Record ns_mem_block_stats := mk_stats {
  read_calls : Z; write_calls : Z; flush_calls : Z; sectors_read : Z; sectors_written : Z;
  bytes_read : Z; bytes_written : Z; failed_reads : Z; failed_writes : Z; failed_flushes : Z;
  fault_matches : Z; injected_failures : Z }.
Definition eta_mem_stats (s : ns_mem_block_stats) : ns_mem_block_stats :=
  mk_stats (read_calls s) (write_calls s) (flush_calls s) (sectors_read s) (sectors_written s)
    (bytes_read s) (bytes_written s) (failed_reads s) (failed_writes s)
    (failed_flushes s) (fault_matches s) (injected_failures s).
#[export] Instance set_read_calls : Setter read_calls.
Proof. mk_setter eta_mem_stats read_calls. Defined.
#[export] Instance set_write_calls : Setter write_calls.
Proof. mk_setter eta_mem_stats write_calls. Defined.
#[export] Instance set_flush_calls : Setter flush_calls.
Proof. mk_setter eta_mem_stats flush_calls. Defined.
#[export] Instance set_sectors_read : Setter sectors_read.
Proof. mk_setter eta_mem_stats sectors_read. Defined.
#[export] Instance set_sectors_written : Setter sectors_written.
Proof. mk_setter eta_mem_stats sectors_written. Defined.
#[export] Instance set_bytes_read : Setter bytes_read.
Proof. mk_setter eta_mem_stats bytes_read. Defined.
#[export] Instance set_bytes_written : Setter bytes_written.
Proof. mk_setter eta_mem_stats bytes_written. Defined.
#[export] Instance set_failed_reads : Setter failed_reads.
Proof. mk_setter eta_mem_stats failed_reads. Defined.
#[export] Instance set_failed_writes : Setter failed_writes.
Proof. mk_setter eta_mem_stats failed_writes. Defined.
#[export] Instance set_failed_flushes : Setter failed_flushes.
Proof. mk_setter eta_mem_stats failed_flushes. Defined.
#[export] Instance set_fault_matches : Setter fault_matches.
Proof. mk_setter eta_mem_stats fault_matches. Defined.
#[export] Instance set_injected_failures : Setter injected_failures.
Proof. mk_setter eta_mem_stats injected_failures. Defined.
Definition no_stats : ns_mem_block_stats := mk_stats 0 0 0 0 0 0 0 0 0 0 0 0.

(** The members of [struct ns_mem_block] after the device. *)
Record ns_mem_block (W : Type) := mk_mem {
  data : Z; byte_count : Z; allocator : ns_block_allocator W; fault : ns_mem_block_fault;
  stats : ns_mem_block_stats; lock : Z; magic : Z; owns_data : bool }.
Arguments mk_mem {W}. Arguments data {W}. Arguments byte_count {W}. Arguments allocator {W}.
Arguments fault {W}. Arguments stats {W}. Arguments lock {W}. Arguments magic {W}.
Arguments owns_data {W}.
Definition eta_mem {W} (m : ns_mem_block W) : ns_mem_block W :=
  mk_mem (data m) (byte_count m) (allocator m) (fault m) (stats m) (lock m) (magic m) (owns_data m).
#[export] Instance set_data {W} : Setter (@data W).
Proof. mk_setter1 (@eta_mem) (@data W). Defined.
#[export] Instance set_byte_count {W} : Setter (@byte_count W).
Proof. mk_setter1 (@eta_mem) (@byte_count W). Defined.
#[export] Instance set_allocator {W} : Setter (@allocator W).
Proof. mk_setter1 (@eta_mem) (@allocator W). Defined.
#[export] Instance set_fault {W} : Setter (@fault W).
Proof. mk_setter1 (@eta_mem) (@fault W). Defined.
#[export] Instance set_stats {W} : Setter (@stats W).
Proof. mk_setter1 (@eta_mem) (@stats W). Defined.
#[export] Instance set_lock {W} : Setter (@lock W).
Proof. mk_setter1 (@eta_mem) (@lock W). Defined.
#[export] Instance set_magic {W} : Setter (@magic W).
Proof. mk_setter1 (@eta_mem) (@magic W). Defined.
#[export] Instance set_owns_data {W} : Setter (@owns_data W).
Proof. mk_setter1 (@eta_mem) (@owns_data W). Defined.

(** Memory: devices, slices, memory devices and the bytes they own. *)
Record bstate (W : Type) := mk_bstate {
  devices : gmap Z (ns_block_device W); slices : gmap Z ns_block_slice;
  mems : gmap Z (ns_mem_block W); backing : gmap Z (list Z); world : W }.
Arguments mk_bstate {W}. Arguments devices {W}. Arguments slices {W}. Arguments mems {W}.
Arguments backing {W}. Arguments world {W}.
Definition eta_bstate {W} (s : bstate W) : bstate W :=
  mk_bstate (devices s) (slices s) (mems s) (backing s) (world s).
#[export] Instance set_devices {W} : Setter (@devices W).
Proof. mk_setter1 (@eta_bstate) (@devices W). Defined.
#[export] Instance set_slices {W} : Setter (@slices W).
Proof. mk_setter1 (@eta_bstate) (@slices W). Defined.
#[export] Instance set_mems {W} : Setter (@mems W).
Proof. mk_setter1 (@eta_bstate) (@mems W). Defined.
#[export] Instance set_backing {W} : Setter (@backing W).
Proof. mk_setter1 (@eta_bstate) (@backing W). Defined.
#[export] Instance set_world {W} : Setter (@world W).
Proof. mk_setter1 (@eta_bstate) (@world W). Defined.

(** ** The generic layer *)

Definition not32 (z : Z) : Z := u32 (Z.lnot z).

Definition ns_is_power_of_two_u32 (value : Z) : bool :=
  negb (value =? 0) && (Z.land value (u32 (value - 1)) =? 0).

Definition ns_block_normalize_driver_result (result : Z) : Z :=
  if 0 <? result then - NS_EPROTO else result.

Section operations.
Context {W : Type}.
Abbreviation B := (M (bstate W)).
Implicit Types (device ctx first count : Z).

Definition has_read (o : ns_block_ops W) : bool :=
  match o with driver_ops r _ _ => bool_decide (is_Some r) | _ => true end.
Definition has_write (o : ns_block_ops W) : bool :=
  match o with driver_ops _ w _ => bool_decide (is_Some w) | _ => true end.
Definition has_flush (o : ns_block_ops W) : bool :=
  match o with driver_ops _ _ f => bool_decide (is_Some f) | _ => true end.

(** Overwriting a whole object. *)
Definition put {S R} (m : S -> gmap Z R) `{!Setter m} (p : Z) (v : R) : M S unit :=
  _ ← load m p id; modify (fun s => s <| m := <[p := v]> (m s) |>).

Definition ns_block_device_init device (o : option (ns_block_ops W)) ctx (sector_size0 sector_count0
    max_transfer flags0 : Z) : B Z :=
  match o with
  | Some o' =>
    if (device =? NULL) || negb (has_read o') then mret (- NS_EINVAL)
    else if negb (ns_is_power_of_two_u32 sector_size0) || (sector_count0 =? 0) then mret (- NS_EINVAL)
    else if negb (Z.land flags0 (not32 NS_BLOCK_F_ALL) =? 0) then mret (- NS_EINVAL)
    else if negb (Z.land flags0 NS_BLOCK_F_VOLATILE_WRITE_CACHE =? 0) && negb (has_flush o')
    then mret (- NS_EINVAL)
    else
      let flags0 := if negb (has_write o') then Z.lor flags0 NS_BLOCK_F_READ_ONLY else flags0 in
      put devices device
        (mk_device o ctx sector_count0 sector_size0 max_transfer flags0 NS_BLOCK_DEVICE_MAGIC);;
      mret 0
  | None => mret (- NS_EINVAL)
  end.

Definition ns_block_device_reset device : B unit :=
  if device =? NULL then mret tt else put devices device (mk_device None NULL 0 0 0 0 0).

Definition device_valid (d : ns_block_device W) : bool :=
  match ops d with
  | None => false
  | Some o =>
    if negb (dev_magic d =? NS_BLOCK_DEVICE_MAGIC) || negb (has_read o) ||
       negb (ns_is_power_of_two_u32 (sector_size d)) || (sector_count d =? 0) ||
       negb (Z.land (flags d) (not32 NS_BLOCK_F_ALL) =? 0)
    then false
    else if negb (Z.land (flags d) NS_BLOCK_F_VOLATILE_WRITE_CACHE =? 0) && negb (has_flush o) then false
    else if negb (has_write o) && (Z.land (flags d) NS_BLOCK_F_READ_ONLY =? 0) then false
    else true
  end.

Definition ns_block_device_is_valid device : B bool :=
  if device =? NULL then mret false else d ← load devices device id; mret (device_valid d).

(** The tests after the device is known to be good: the error, or the length in bytes. *)
Definition check_range (d : ns_block_device W) first count : Z + Z :=
  if negb (count =? 0) && (UINT64_MAX - count <? first) then inl (- NS_EOVERFLOW)
  else if (sector_count d <? first) || (u64 (sector_count d - first) <? count) then inl (- NS_ERANGE)
  else if negb (max_transfer_sectors d =? 0) && (max_transfer_sectors d <? count)
  then inl (- NS_EMSGSIZE)
  else if SIZE_MAX / sector_size d <? count then inl (- NS_EOVERFLOW)
  else inr (u64 (count * sector_size d)).

(** The result and, on success, the byte count. *)
Definition ns_block_validate_range device first count : B (Z * Z) :=
  v ← ns_block_device_is_valid device;
  if negb v then mret (- NS_ENODEV, 0)
  else
    d ← load devices device id;
    mret (match check_range d first count with inl e => (e, 0) | inr n => (0, n) end).

Definition ns_block_capacity_bytes device (capacity_out : Z) : B (Z * Z) :=
  v ← ns_block_device_is_valid device;
  if negb v || (capacity_out =? NULL) then mret (- NS_EINVAL, 0)
  else
    d ← load devices device id;
    if UINT64_MAX / sector_size d <? sector_count d then mret (- NS_EOVERFLOW, 0)
    else mret (0, u64 (sector_count d * sector_size d)).

(** ** Memory devices *)

Definition ns_mem_lock (memory : Z) : B unit :=
  l ← load mems memory lock;
  if l =? 0 then store mems memory lock 1 else stuck.
Definition ns_mem_unlock (memory : Z) : B unit := store mems memory lock 0.

Definition ns_saturating_add_u64 (left right : Z) : Z :=
  if UINT64_MAX - right <? left then UINT64_MAX else u64 (left + right).

(** [stats.f = ns_saturating_add_u64(stats.f, v)] *)
Definition tally (memory : Z) (f : ns_mem_block_stats -> Z) `{!Setter f} (v : Z) : B unit :=
  st ← load mems memory stats;
  store mems memory stats (st <| f := ns_saturating_add_u64 (f st) v |>).

Fixpoint copy_bytes (n : nat) (dst : list Z) (doff : Z) (src : list Z) (soff index : Z) :
    option (list Z) :=
  match n with
  | O => Some dst
  | S n' =>
    b ← rd src (soff + index);
    dst ← wr dst (doff + index) b;
    copy_bytes n' dst doff src soff (index + 1)
  end.
Definition ns_copy_bytes (dst : list Z) (doff : Z) (src : list Z) (soff byte_count0 : Z) :
    option (list Z) := copy_bytes (Z.to_nat byte_count0) dst doff src soff 0.

Definition ns_ranges_overlap (first_a count_a first_b count_b : Z) : bool :=
  (first_a <? u64 (first_b + count_b)) && (first_b <? u64 (first_a + count_a)).

Definition ns_fault_matches (f : ns_mem_block_fault) (operation first count : Z) : bool :=
  if Z.land (operation_mask f) operation =? 0 then false
  else if (operation =? NS_MEM_BLOCK_FAULT_FLUSH) || (f_sector_count f =? 0) then true
  else ns_ranges_overlap first count (f_first_sector f) (f_sector_count f).

Definition ns_mem_maybe_fail (memory operation first count : Z) : B Z :=
  f ← load mems memory fault;
  if negb (ns_fault_matches f operation first count) then mret 0
  else
    tally memory fault_matches 1;;
    if negb (pass_count f =? 0) then
      store mems memory fault (f <| pass_count := u64 (pass_count f - 1) |>);;
      mret 0
    else if fail_count f =? 0 then mret 0
    else
      (if negb (fail_count f =? UINT64_MAX)
       then store mems memory fault (f <| fail_count := u64 (fail_count f - 1) |>)
       else mret tt);;
      tally memory injected_failures 1;;
      f ← load mems memory fault;
      mret (error f).

Definition ns_mem_read (memory first count : Z) (buf : list Z) : B (Z * list Z) :=
  ss ← load devices memory sector_size;
  let byte_count0 := u64 (count * ss) in
  let offset := u64 (first * ss) in
  ns_mem_lock memory;;
  tally memory read_calls 1;;
  result ← ns_mem_maybe_fail memory NS_MEM_BLOCK_FAULT_READ first count;
  if negb (result =? 0) then
    tally memory failed_reads 1;;
    ns_mem_unlock memory;;
    mret (result, buf)
  else
    p ← load mems memory data;
    bytes ← load backing p id;
    match ns_copy_bytes buf 0 bytes offset byte_count0 with
    | None => stuck
    | Some buf' =>
      tally memory sectors_read count;;
      tally memory bytes_read byte_count0;;
      ns_mem_unlock memory;;
      mret (0, buf')
    end.

Definition ns_mem_write (memory first count : Z) (buf : list Z) : B Z :=
  ss ← load devices memory sector_size;
  let byte_count0 := u64 (count * ss) in
  let offset := u64 (first * ss) in
  ns_mem_lock memory;;
  tally memory write_calls 1;;
  result ← ns_mem_maybe_fail memory NS_MEM_BLOCK_FAULT_WRITE first count;
  if negb (result =? 0) then
    tally memory failed_writes 1;;
    ns_mem_unlock memory;;
    mret result
  else
    p ← load mems memory data;
    bytes ← load backing p id;
    match ns_copy_bytes bytes offset buf 0 byte_count0 with
    | None => stuck
    | Some bytes' =>
      put backing p bytes';;
      tally memory sectors_written count;;
      tally memory bytes_written byte_count0;;
      ns_mem_unlock memory;;
      mret 0
    end.

Definition ns_mem_flush (memory : Z) : B Z :=
  ns_mem_lock memory;;
  tally memory flush_calls 1;;
  result ← ns_mem_maybe_fail memory NS_MEM_BLOCK_FAULT_FLUSH 0 0;
  when (negb (result =? 0)) (tally memory failed_flushes 1);;
  ns_mem_unlock memory;;
  mret result.

(** ** Requests

    A request on a slice is a request on its parent; [fuel] bounds the depth of
    slices of slices. *)

Definition ns_slice_read (block_read : Z -> Z -> Z -> Z -> list Z -> B (Z * list Z))
    ctx first count (buffer : Z) (buf : list Z) : B (Z * list Z) :=
  fs ← load slices ctx first_sector;
  if UINT64_MAX - first <? fs then mret (- NS_EOVERFLOW, buf)
  else
    p ← load slices ctx parent;
    block_read p (u64 (fs + first)) count buffer buf.

Definition ns_slice_write (block_write : Z -> Z -> Z -> Z -> list Z -> B Z)
    ctx first count (buffer : Z) (buf : list Z) : B Z :=
  fs ← load slices ctx first_sector;
  if UINT64_MAX - first <? fs then mret (- NS_EOVERFLOW)
  else
    p ← load slices ctx parent;
    block_write p (u64 (fs + first)) count buffer buf.

Definition ns_slice_flush (block_flush : Z -> B Z) ctx : B Z :=
  p ← load slices ctx parent;
  block_flush p.

Fixpoint ns_block_read (fuel : nat) device first count (buffer : Z) (buf : list Z) : B (Z * list Z) :=
  match fuel with
  | O => stuck
  | S fuel' =>
    r ← ns_block_validate_range device first count;
    if negb (fst r =? 0) then mret (fst r, buf)
    else if count =? 0 then mret (0, buf)
    else if buffer =? NULL then mret (- NS_EFAULT, buf)
    else
      d ← load devices device id;
      r ← match ops d with
          | Some ns_mem_block_ops => ns_mem_read (context d) first count buf
          | Some ns_slice_ops => ns_slice_read (ns_block_read fuel') (context d) first count buffer buf
          | Some (driver_ops (Some f) _ _) => zoom world (f (context d) first count buf)
          | _ => stuck
          end;
      mret (ns_block_normalize_driver_result (fst r), snd r)
  end.

Fixpoint ns_block_write (fuel : nat) device first count (buffer : Z) (buf : list Z) : B Z :=
  match fuel with
  | O => stuck
  | S fuel' =>
    r ← ns_block_validate_range device first count;
    if negb (fst r =? 0) then mret (fst r)
    else if count =? 0 then mret 0
    else if buffer =? NULL then mret (- NS_EFAULT)
    else
      d ← load devices device id;
      match ops d with
      | None => stuck
      | Some o =>
        if negb (Z.land (flags d) NS_BLOCK_F_READ_ONLY =? 0) || negb (has_write o) then mret (- NS_EROFS)
        else
          r ← match o with
              | ns_mem_block_ops => ns_mem_write (context d) first count buf
              | ns_slice_ops => ns_slice_write (ns_block_write fuel') (context d) first count buffer buf
              | driver_ops _ (Some f) _ => zoom world (f (context d) first count buf)
              | _ => stuck
              end;
          mret (ns_block_normalize_driver_result r)
      end
  end.

Fixpoint ns_block_flush (fuel : nat) device : B Z :=
  match fuel with
  | O => stuck
  | S fuel' =>
    v ← ns_block_device_is_valid device;
    if negb v then mret (- NS_ENODEV)
    else
      d ← load devices device id;
      match ops d with
      | None => stuck
      | Some o =>
        if negb (has_flush o) then mret 0
        else
          r ← match o with
              | ns_mem_block_ops => ns_mem_flush (context d)
              | ns_slice_ops => ns_slice_flush (ns_block_flush fuel') (context d)
              | driver_ops _ _ (Some f) => zoom world (f (context d))
              | _ => stuck
              end;
          mret (ns_block_normalize_driver_result r)
      end
  end.

(** ** Setting up *)

Definition ns_block_slice_init (slice0 parent0 first_sector0 sector_count0 slice_flags : Z) : B Z :=
  if slice0 =? NULL then mret (- NS_EINVAL)
  else
    v ← ns_block_device_is_valid parent0;
    if negb v || (sector_count0 =? 0) || negb (Z.land slice_flags (not32 NS_BLOCK_F_READ_ONLY) =? 0)
    then mret (- NS_EINVAL)
    else if UINT64_MAX - sector_count0 <? first_sector0 then mret (- NS_EOVERFLOW)
    else
      pd ← load devices parent0 id;
      if (sector_count pd <=? first_sector0) || (u64 (sector_count pd - first_sector0) <? sector_count0)
      then mret (- NS_ERANGE)
      else
        let flags0 := Z.lor (flags pd) slice_flags in
        put slices slice0 (mk_slice parent0 first_sector0);;
        ns_block_device_init slice0 (Some ns_slice_ops) slice0 (sector_size pd) sector_count0
          (max_transfer_sectors pd) flags0.

Definition ns_block_slice_reset (slice0 : Z) : B unit :=
  if slice0 =? NULL then mret tt
  else
    ns_block_device_reset slice0;;
    put slices slice0 (mk_slice NULL 0).

Definition ns_mem_block_valid (memory : Z) : B bool :=
  if memory =? NULL then mret false
  else
    m ← load mems memory id;
    d ← load devices memory id;
    mret ((magic m =? NS_MEM_BLOCK_MAGIC) && negb (data m =? NULL) && negb (byte_count m =? 0) &&
          device_valid d && (context d =? memory) &&
          match ops d with Some ns_mem_block_ops => true | _ => false end).

Definition ns_mem_block_reset_fields (memory : Z) : B unit :=
  ns_block_device_reset memory;;
  put mems memory (mk_mem NULL 0 (mk_allocator None None NULL) no_fault no_stats 0 0 false).

Definition ns_mem_block_finish_init (memory backing0 backing_bytes sector_size0 device_flags : Z) : B Z :=
  if (memory =? NULL) || (backing0 =? NULL) || (backing_bytes =? 0) ||
     negb (ns_is_power_of_two_u32 sector_size0) || negb (backing_bytes mod sector_size0 =? 0)
  then mret (- NS_EINVAL)
  else if negb (Z.land device_flags (not32 NS_BLOCK_F_ALL) =? 0) ||
          negb (Z.land device_flags NS_BLOCK_F_VOLATILE_WRITE_CACHE =? 0)
  then mret (- NS_EINVAL)
  else
    let sector_count0 := backing_bytes / sector_size0 in
    if sector_count0 =? 0 then mret (- NS_EINVAL)
    else
      store mems memory data backing0;;
      store mems memory byte_count backing_bytes;;
      store mems memory lock 0;;
      store mems memory magic NS_MEM_BLOCK_MAGIC;;
      result ← ns_block_device_init memory (Some ns_mem_block_ops) memory sector_size0 sector_count0 0
        device_flags;
      if negb (result =? 0) then
        ns_mem_block_reset_fields memory;;
        mret result
      else mret 0.

Definition ns_mem_block_init_borrowed (memory backing0 backing_bytes sector_size0 device_flags : Z) : B Z :=
  if memory =? NULL then mret (- NS_EINVAL)
  else
    ns_mem_block_reset_fields memory;;
    result ← ns_mem_block_finish_init memory backing0 backing_bytes sector_size0 device_flags;
    when (result =? 0) (store mems memory owns_data false);;
    mret result.

(** The allocator puts a block of [n] arbitrary bytes at the address it returns;
    [ns_zero_bytes] clears it. *)
Definition ns_mem_block_init_owned (memory : Z) (allocator0 : option (ns_block_allocator W))
    (sector_count0 sector_size0 device_flags : Z) : B Z :=
  match allocator0 with
  | Some (mk_allocator (Some alloc) (Some dealloc) actx as al) =>
    if (memory =? NULL) || (sector_count0 =? 0) || negb (ns_is_power_of_two_u32 sector_size0) ||
       negb (Z.land device_flags (not32 NS_BLOCK_F_ALL) =? 0) ||
       negb (Z.land device_flags NS_BLOCK_F_VOLATILE_WRITE_CACHE =? 0)
    then mret (- NS_EINVAL)
    else if SIZE_MAX / sector_size0 <? sector_count0 then mret (- NS_EOVERFLOW)
    else
      ns_mem_block_reset_fields memory;;
      let backing_bytes := u64 (sector_count0 * sector_size0) in
      backing0 ← zoom world (alloc actx backing_bytes sector_size0);
      if backing0 =? NULL then mret (- NS_ENOMEM)
      else
        modify (fun s => s <| backing := <[backing0 := replicate (Z.to_nat backing_bytes) 0]> (backing s) |>);;
        result ← ns_mem_block_finish_init memory backing0 backing_bytes sector_size0 device_flags;
        if negb (result =? 0) then
          modify (fun s => s <| backing := delete backing0 (backing s) |>);;
          zoom world (dealloc actx backing0 backing_bytes sector_size0);;
          mret result
        else
          store mems memory allocator al;;
          store mems memory owns_data true;;
          mret 0
  | _ => mret (- NS_EINVAL)
  end.

Definition ns_mem_block_destroy (memory : Z) : B unit :=
  if memory =? NULL then mret tt
  else
    v ← ns_mem_block_valid memory;
    m ← load mems memory id;
    alignment ← load devices memory sector_size;
    ns_mem_block_reset_fields memory;;
    match deallocate (allocator m) with
    | Some dealloc =>
      when (v && owns_data m)
        (modify (fun s => s <| backing := delete (data m) (backing s) |>);;
         zoom world (dealloc (al_context (allocator m)) (data m) (byte_count m) alignment))
    | None => mret tt
    end.

Definition ns_mem_block_clear_fault (memory : Z) : B unit :=
  v ← ns_mem_block_valid memory;
  when v (ns_mem_lock memory;; store mems memory fault no_fault;; ns_mem_unlock memory).

Definition ns_mem_block_set_fault (memory : Z) (fault0 : option ns_mem_block_fault) : B Z :=
  v ← ns_mem_block_valid memory;
  match fault0 with
  | None => mret (- NS_EINVAL)
  | Some f =>
    if negb v then mret (- NS_EINVAL)
    else if negb (Z.land (operation_mask f) (not32 NS_MEM_BLOCK_FAULT_ALL) =? 0) then mret (- NS_EINVAL)
    else if operation_mask f =? 0 then ns_mem_block_clear_fault memory;; mret 0
    else if 0 <=? error f then mret (- NS_EINVAL)
    else
      sc ← load devices memory sector_count;
      if negb (f_sector_count f =? 0) && (UINT64_MAX - f_sector_count f <? f_first_sector f)
      then mret (- NS_EOVERFLOW)
      else if negb (f_sector_count f =? 0) &&
              ((sc <=? f_first_sector f) || (u64 (sc - f_first_sector f) <? f_sector_count f))
      then mret (- NS_ERANGE)
      else
        ns_mem_lock memory;;
        store mems memory fault f;;
        ns_mem_unlock memory;;
        mret 0
  end.

Definition ns_mem_block_get_stats (memory stats_out : Z) : B (Z * ns_mem_block_stats) :=
  v ← ns_mem_block_valid memory;
  if negb v || (stats_out =? NULL) then mret (- NS_EINVAL, no_stats)
  else
    ns_mem_lock memory;;
    st ← load mems memory stats;
    ns_mem_unlock memory;;
    mret (0, st).

Definition ns_mem_block_reset_stats (memory : Z) : B Z :=
  v ← ns_mem_block_valid memory;
  if negb v then mret (- NS_EINVAL)
  else
    ns_mem_lock memory;;
    store mems memory stats no_stats;;
    ns_mem_unlock memory;;
    mret 0.

Definition ns_mem_block_data (memory : Z) : B Z :=
  v ← ns_mem_block_valid memory;
  if negb v then mret NULL else load mems memory data.
End operations.
