(* ===== verification/BlockProps.v ===== *)
(** * Reasoning about block devices

    A device is a window into the bytes of a base device: a memory device, or a
    driver that keeps its promises.  Every request on a slice, however deeply
    nested, is a request on a window of its base. *)

From S2P Require Import Prelude Errno Block.

(** The copy loop moves a window. *)
Lemma copy_bytes_spec n dst doff src soff i :
  0 <= doff -> 0 <= soff -> 0 <= i -> doff + i + Z.of_nat n <= Z.of_nat (length dst) ->
  soff + i + Z.of_nat n <= Z.of_nat (length src) ->
  copy_bytes n dst doff src soff i =
    Some (splice dst (Z.to_nat (doff + i)) (window_of src (Z.to_nat (soff + i)) n)).
Proof.
  intros Hd Hs. revert dst i. induction n as [|n IH]; intros dst i Hi Hdl Hsl; cbn [copy_bytes].
  - f_equal. unfold window_of. by rewrite take_0, splice_nil.
  - destruct (rd_Some src (soff + i) ltac:(lia)) as [b Hb]. rewrite Hb. cbn [mbind option_bind].
    rewrite wr_Some by lia. cbn [mbind option_bind]. rewrite IH by (rewrite ?length_insert; lia). f_equal.
    apply rd_lookup in Hb as [_ Hb]. replace (Z.to_nat (soff + (i + 1))) with (S (Z.to_nat (soff + i))) by lia.
    replace (Z.to_nat (doff + (i + 1))) with (S (Z.to_nat (doff + i))) by lia.
    unfold splice, window_of. rewrite (drop_S src b _ Hb). cbn [take].
    rewrite (take_S_r _ _ b) by (apply list_lookup_insert_eq; lia). rewrite take_insert_ge by lia.
    rewrite <- app_assoc. cbn [app length]. do 3 f_equal. rewrite drop_insert_lt by lia. f_equal. lia.
Qed.

Section props.
Context {W : Type}.
Implicit Types (s : bstate W) (d : ns_block_device W).

(** ** What the layer relies on from drivers

    A driver keeps a list of bytes for its context; it transfers whole requests
    or fails with a negative code, and a failed write may leave any bytes in its
    range. *)
Class DiskWorld := { dw_disk : W -> Z -> option (list Z) }.
Context `{DW : !DiskWorld}.

Record driver_ok (ss : Z) (ctx : Z) (read : Z -> Z -> Z -> list Z -> M W (Z * list Z))
    (write : option (Z -> Z -> Z -> list Z -> M W Z)) : Prop := {
  dr_read first count buf w l : dw_disk w ctx = Some l -> 0 <= first -> 0 < count ->
    (first + count) * ss <= Z.of_nat (length l) -> count * ss <= Z.of_nat (length buf) ->
    wp (read ctx first count buf) (fun r w' => dw_disk w' ctx = Some l /\ length r.2 = length buf /\
      (r.1 = 0 -> r.2 = splice buf 0 (window_of l (Z.to_nat (first * ss)) (Z.to_nat (count * ss))))) w;
  dr_write f first count buf w l : write = Some f -> dw_disk w ctx = Some l -> 0 <= first -> 0 < count ->
    (first + count) * ss <= Z.of_nat (length l) -> count * ss <= Z.of_nat (length buf) ->
    wp (f ctx first count buf) (fun r w' => exists b, length b = Z.to_nat (count * ss) /\
      dw_disk w' ctx = Some (splice l (Z.to_nat (first * ss)) b) /\
      (r = 0 -> b = take (Z.to_nat (count * ss)) buf)) w }.

(** ** Base devices and windows *)

(** The range of a device, in bytes. *)
Definition capacity d : Z := sector_count d * sector_size d.

Definition device_typed d : Prop :=
  is_u64 (sector_count d) /\ is_u32 (sector_size d) /\ is_u32 (max_transfer_sectors d).

(** [base] is a base device with the bytes [l]. *)
Definition base_ok s (base : Z) (l : list Z) : Prop :=
  exists d, devices s !! base = Some d /\ device_valid d = true /\ device_typed d /\
    capacity d = Z.of_nat (length l) /\ capacity d < 2 ^ 64 /\ base <> NULL /\
    match ops d with
    | Some ns_mem_block_ops => context d = base /\ exists m, mems s !! base = Some m /\ lock m = 0 /\
        error (fault m) <= 0 /\ backing s !! data m = Some l
    | Some (driver_ops (Some read) write _) => driver_ok (sector_size d) (context d) read write /\
        dw_disk (world s) (context d) = Some l
    | _ => False
    end.

(** [dev] shows the bytes of [base] from [off] on; [n] is the depth of slices. *)
Inductive window s (base : Z) : nat -> Z -> Z -> Prop :=
  | win_base : window s base 0 base 0
  | win_slice n dev d sl pd off :
      devices s !! dev = Some d -> device_valid d = true -> device_typed d -> dev <> NULL ->
      ops d = Some ns_slice_ops -> context d = dev -> slices s !! dev = Some sl ->
      devices s !! parent sl = Some pd -> sector_size pd = sector_size d ->
      0 <= first_sector sl -> first_sector sl + sector_count d <= sector_count pd ->
      window s base n (parent sl) off ->
      window s base (S n) dev (off + first_sector sl * sector_size d).

(** Requests leave the devices and slices alone. *)
Definition same_setup s s' : Prop := devices s' = devices s /\ slices s' = slices s.

Lemma window_same s s' base n dev off : same_setup s s' -> window s base n dev off -> window s' base n dev off.
Proof.
  intros [E1 E2]. induction 1 as [|n dev d sl pd off Hd Hv Ht Hn Ho Hcx Hsl Hp Hss Hf Hfit Hw IH]; [constructor|].
  eapply win_slice; rewrite ?E1, ?E2; done.
Qed.

(** A valid device has a power of two as sector size, and no empty range. *)
Lemma valid_sizes d : device_valid d = true -> device_typed d -> 0 < sector_size d /\ 0 < sector_count d.
Proof.
  intros Hv (H1 & H2 & _). unfold device_valid in Hv. destruct (ops d); [|done].
  destruct (_ || _) eqn:E; [done|]. repeat (apply orb_false_iff in E as [E ?]).
  unfold ns_is_power_of_two_u32 in *. 
  repeat match goal with H : negb _ = false |- _ => apply negb_false_iff in H end.
  repeat match goal with H : _ && _ = true |- _ => apply andb_prop in H as [? ?] end.
  repeat match goal with H : negb _ = true |- _ => apply negb_true_iff in H end. lia.
Qed.

(** The window lies in its base. *)
Lemma window_fits s base l n dev off :
  base_ok s base l -> window s base n dev off ->
  exists d, devices s !! dev = Some d /\ device_valid d = true /\ device_typed d /\ dev <> NULL /\
    0 <= off /\ off + capacity d <= Z.of_nat (length l) /\ Z.of_nat (length l) < 2 ^ 64.
Proof.
  intros Hb. induction 1 as [|n dev d sl pd off Hd Hv Ht Hn Ho Hcx Hsl Hp Hss Hf Hfit Hw IH].
  - destruct Hb as (d & Hd & Hv & Ht & Hc & Hlt & Hn & _). exists d. split_and!; try done; lia.
  - destruct IH as (pd' & Hpd & _ & _ & _ & Ho1 & Ho2 & Hlt). rewrite Hp in Hpd. injection Hpd as <-.
    exists d. pose proof (valid_sizes d Hv Ht) as [Hs1 Hs2]. unfold capacity in *. rewrite Hss in Ho2.
    split_and!; try done; nia.
Qed.

(** ** Memory devices *)

(** What counters and fault bookkeeping keep of a memory device. *)
Definition same_mem (m m' : ns_mem_block W) : Prop :=
  data m' = data m /\ lock m' = lock m /\ error (fault m') = error (fault m).

(** Only the memory device at [p] may have changed, to [m']. *)
Definition only_mem (p : Z) (m' : ns_mem_block W) s s' : Prop :=
  devices s' = devices s /\ slices s' = slices s /\ backing s' = backing s /\ world s' = world s /\
  mems s' !! p = Some m'.

Lemma same_mem_refl m : same_mem m m.
Proof. done. Qed.
Lemma same_mem_trans m1 m2 m3 : same_mem m1 m2 -> same_mem m2 m3 -> same_mem m1 m3.
Proof. intros (? & ? & ?) (? & ? & ?). split_and!; congruence. Qed.
Lemma only_mem_refl p m s : mems s !! p = Some m -> only_mem p m s s.
Proof. done. Qed.
Lemma only_mem_trans p m1 m2 s1 s2 s3 : only_mem p m1 s1 s2 -> only_mem p m2 s2 s3 -> only_mem p m2 s1 s3.
Proof. intros (? & ? & ? & ? & ?) (? & ? & ? & ? & ?). split_and!; congruence. Qed.

(** Storing a field of the memory device. *)
Lemma wp_store_mem {T} s0 s p m m1 (f : ns_mem_block W -> T) `{!Setter f} (v : T) Q :
  only_mem p m s0 s -> m <| f := v |> = m1 ->
  (forall s', only_mem p m1 s0 s' -> Q tt s') -> wp (store mems p f v) Q s.
Proof.
  intros Ho Hm1 HQ. pose proof Ho as (? & ? & ? & ? & Hm). eapply wp_store; [exact Hm|]. apply HQ.
  split_and!; try done. rewrite <- Hm1. apply lookup_insert_eq.
Qed.

Lemma wp_tally s0 s p m0 m (f : ns_mem_block_stats -> Z) `{!Setter f} v Q :
  only_mem p m s0 s -> same_mem m0 m ->
  (forall m' s', only_mem p m' s0 s' -> same_mem m0 m' -> Q tt s') -> wp (tally p f v) Q s.
Proof.
  intros Ho Hs HQ. pose proof Ho as (_ & _ & _ & _ & Hm). unfold tally. mstep. mstep.
  eapply wp_store_mem; [done|done|]. intros s' Hs'. by eapply HQ.
Qed.

Lemma wp_maybe_fail s0 s p m0 m operation first count Q :
  only_mem p m s0 s -> same_mem m0 m ->
  (forall r m' s', only_mem p m' s0 s' -> same_mem m0 m' -> r = 0 \/ r = error (fault m0) -> Q r s') ->
  wp (ns_mem_maybe_fail p operation first count) Q s.
Proof.
  intros Ho Hs HQ. pose proof Ho as (_ & _ & _ & _ & Hm). unfold ns_mem_maybe_fail. msteps.
  destruct (ns_fault_matches _ _ _ _); cbn [negb]; [|msteps; eapply HQ; [done|done|by left]].
  apply wp_bind. eapply wp_tally; [done..|]. intros m1 s1 H1 Hs1.
  destruct (pass_count (fault m) =? 0); cbn [negb].
  2: { apply wp_bind. eapply wp_store_mem; [done|done|]. intros s2 H2. msteps. eapply HQ; [done| |by left].
       destruct Hs as (? & ? & ?), Hs1 as (? & ? & ?). by split_and!. }
  destruct (fail_count (fault m) =? 0); cbn [negb]; [msteps; eapply HQ; [done|done|by left]|].
  apply wp_bind. assert (Hlast : forall m2 s2, only_mem p m2 s0 s2 -> same_mem m0 m2 ->
    wp (tally p injected_failures 1;; f ← load mems p fault; mret (error f)) Q s2).
  { intros m2 s2 H2 Hs2. apply wp_bind. eapply wp_tally; [done..|]. intros m3 s3 H3 Hs3.
    pose proof H3 as (_ & _ & _ & _ & Hm3). msteps. eapply HQ; [done|done|right]. apply Hs3. }
  destruct (fail_count (fault m) =? UINT64_MAX); cbn [negb]; [apply wp_ret; by eapply Hlast|].
  eapply wp_store_mem; [done|done|]. intros s2 H2. eapply Hlast; [done|].
  destruct Hs as (? & ? & ?), Hs1 as (? & ? & ?). by split_and!.
Qed.

Lemma wp_mem_lock s p m Q :
  mems s !! p = Some m -> lock m = 0 ->
  (forall s' m', only_mem p m' s s' -> same_mem (m <| lock := 1 |>) m' -> Q tt s') -> wp (ns_mem_lock p) Q s.
Proof.
  intros Hm Hl HQ. unfold ns_mem_lock. msteps. rewrite Hl. cbn [Z.eqb].
  eapply wp_store_mem; [by apply only_mem_refl|done|]. intros s' H. by eapply HQ.
Qed.

(** Leaving the lock. *)
Lemma wp_mem_unlock {A} s0 s p m0 m (r : A) Q :
  only_mem p m s0 s -> same_mem (m0 <| lock := 1 |>) m -> lock m0 = 0 ->
  (forall m' s', only_mem p m' s0 s' -> same_mem m0 m' -> Q r s') -> wp (ns_mem_unlock p;; mret r) Q s.
Proof.
  intros H Hs Hl HQ. unfold ns_mem_unlock. apply wp_bind. eapply wp_store_mem; [done|done|]. intros s' H'.
  msteps. eapply HQ; [done|]. destruct Hs as (? & ? & ?). split_and!; [done|by rewrite Hl|done].
Qed.

(** The device at [base] is a memory device holding [l]. *)
Definition mem_ok s (base : Z) d (m : ns_mem_block W) (l : list Z) : Prop :=
  devices s !! base = Some d /\ mems s !! base = Some m /\ lock m = 0 /\ error (fault m) <= 0 /\
  backing s !! data m = Some l /\ 0 < sector_size d /\ capacity d = Z.of_nat (length l) /\ capacity d < 2 ^ 64.

(** Sizes of a request in range. *)
Lemma request_sizes s base d m l first count :
  mem_ok s base d m l -> 0 <= first -> 0 < count -> first + count <= sector_count d ->
  u64 (count * sector_size d) = count * sector_size d /\ u64 (first * sector_size d) = first * sector_size d /\
  0 <= first * sector_size d /\ 0 < count * sector_size d /\
  first * sector_size d + count * sector_size d <= Z.of_nat (length l).
Proof.
  intros (_ & _ & _ & _ & _ & Hss & Hcap & Hlt) Hf Hc Hfit. unfold capacity in *.
  assert (first * sector_size d + count * sector_size d <= sector_count d * sector_size d) by nia.
  assert (0 <= first * sector_size d) by nia. assert (0 < count * sector_size d) by nia.
  rewrite !u64_small by lia. split_and!; lia.
Qed.

Lemma wp_mem_read s base d m l first count buf :
  mem_ok s base d m l -> 0 <= first -> 0 < count -> first + count <= sector_count d ->
  count * sector_size d <= Z.of_nat (length buf) ->
  wp (ns_mem_read base first count buf) (fun r s' => exists m', only_mem base m' s s' /\ same_mem m m' /\
    r.1 <= 0 /\ length r.2 = length buf /\
    (r.1 = 0 -> r.2 = splice buf 0 (window_of l (Z.to_nat (first * sector_size d)) (Z.to_nat (count * sector_size d)))) /\
    (r.1 <> 0 -> r.2 = buf)) s.
Proof.
  intros Hmo Hf Hc Hfit Hbuf. destruct (request_sizes s base d m l first count) as (E1 & E2 & H1 & H2 & H3); [done..|].
  destruct Hmo as (Hd & Hm & Hlk & Her & Hbk & _). unfold ns_mem_read. msteps. rewrite E1, E2.
  apply (wp_mem_lock s base m); [done..|]. intros s1 m1 Ho1 Hs1. msteps.
  eapply wp_tally; [done..|]. intros m2 s2 Ho2 Hs2. msteps. eapply wp_maybe_fail; [done..|].
  intros r m3 s3 Ho3 Hs3 Hr. destruct (Z.eqb_spec r 0) as [Er|Er]; cbn [negb].
  2: { apply wp_bind. eapply wp_tally; [done..|]. intros m4 s4 Ho4 Hs4. eapply wp_mem_unlock; [done..|].
       intros m5 s5 Ho5 Hs5. exists m5. cbn. split_and!; try done. destruct Hr as [?|Hr]; [done|]. cbn in Hr. lia. }
  pose proof Ho3 as (_ & _ & Eb & _ & Hm3). pose proof Hs3 as (Ed & _). cbn in Ed. msteps. 
  assert (Hb3 : backing s3 !! data m3 = Some l) by (by rewrite Eb, Ed). msteps. unfold ns_copy_bytes, id.
  rewrite copy_bytes_spec by lia. rewrite !Z.add_0_r. cbn [Z.to_nat].
  apply wp_bind. eapply wp_tally; [done..|]. intros m4 s4 Ho4 Hs4. apply wp_bind.
  eapply wp_tally; [done..|]. intros m5 s5 Ho5 Hs5. eapply wp_mem_unlock; [done..|].
  intros m6 s6 Ho6 Hs6. exists m6. cbn. split_and!; try done.
  rewrite length_splice; [done|]. unfold window_of. rewrite length_take, length_drop. lia.
Qed.

Lemma wp_mem_write s base d m l first count buf :
  mem_ok s base d m l -> 0 <= first -> 0 < count -> first + count <= sector_count d ->
  count * sector_size d <= Z.of_nat (length buf) ->
  wp (ns_mem_write base first count buf) (fun r s' => exists m' b, same_mem m m' /\ same_setup s s' /\
    world s' = world s /\ mems s' !! base = Some m' /\ r <= 0 /\ length b = Z.to_nat (count * sector_size d) /\
    backing s' !! data m = Some (splice l (Z.to_nat (first * sector_size d)) b) /\
    (r = 0 -> b = take (Z.to_nat (count * sector_size d)) buf) /\
    (r <> 0 -> backing s' = backing s)) s.
Proof.
  intros Hmo Hf Hc Hfit Hbuf. destruct (request_sizes s base d m l first count) as (E1 & E2 & H1 & H2 & H3); [done..|].
  destruct Hmo as (Hd & Hm & Hlk & Her & Hbk & _). unfold ns_mem_write. msteps. rewrite E1, E2.
  apply (wp_mem_lock s base m); [done..|]. intros s1 m1 Ho1 Hs1. msteps.
  eapply wp_tally; [done..|]. intros m2 s2 Ho2 Hs2. msteps. eapply wp_maybe_fail; [done..|].
  intros r m3 s3 Ho3 Hs3 Hr. destruct (Z.eqb_spec r 0) as [Er|Er]; cbn [negb].
  { pose proof Ho3 as (Ed0 & Es0 & Eb & Ew & Hm3). pose proof Hs3 as (Ed & _). cbn in Ed. msteps.
    assert (Hb3 : backing s3 !! data m3 = Some l) by (by rewrite Eb, Ed). msteps. unfold ns_copy_bytes, id.
    rewrite copy_bytes_spec by lia. rewrite !Z.add_0_r. cbn [Z.to_nat]. unfold put, id. msteps.
    set (b := window_of buf _ _). set (s4 := s3 <| backing := _ |>).
    assert (Ho4 : only_mem base m3 s4 s4) by done.
    eapply wp_tally; [done..|]. intros m5 s5 Ho5 Hs5. msteps. eapply wp_tally; [done..|]. intros m6 s6 Ho6 Hs6.
    eapply (wp_mem_unlock s4 s6); [done..|]. intros m7 s7 Ho7 Hs7. exists m7, b.
    destruct Ho7 as (D1 & D2 & D3 & D4 & D5). cbn in D1, D2, D3, D4. split_and!; try done.
    - split; [by rewrite D1, Ed0|by rewrite D2, Es0].
    - by rewrite D4, Ew.
    - unfold b, window_of. rewrite length_take, length_drop. lia.
    - by rewrite D3, Ed, lookup_insert_eq. }
  apply wp_bind. eapply wp_tally; [done..|]. intros m4 s4 Ho4 Hs4. eapply wp_mem_unlock; [done..|].
  intros m5 s5 Ho5 Hs5. destruct Ho5 as (D1 & D2 & D3 & D4 & D5).
  exists m5, (window_of l (Z.to_nat (first * sector_size d)) (Z.to_nat (count * sector_size d))).
  rewrite splice_window by lia. split_and!; try done.
  - destruct Hr as [?|Hr]; [done|]. cbn in Hr. lia.
  - unfold window_of. rewrite length_take, length_drop. lia.
  - by rewrite D3.
Qed.

(** ** Requests *)

(** The request fits the device. *)
Definition in_range d (first count : Z) : Prop := exists n, check_range d first count = inr n.

Lemma check_range_fits d first count :
  device_valid d = true -> device_typed d -> 0 <= first < 2 ^ 64 -> is_u32 count ->
  in_range d first count -> first + count <= sector_count d.
Proof.
  intros Hv (Ht1 & Ht2 & Ht3) Hf Hc [n Hn]. unfold check_range in Hn.
  destruct (_ && _); [done|]. destruct (Z.ltb_spec (sector_count d) first); [done|]. cbn [orb] in Hn.
  rewrite u64_small in Hn by lia. destruct (Z.ltb_spec (sector_count d - first) count); [done|]. lia.
Qed.

Lemma wp_validate s dev d first count :
  devices s !! dev = Some d -> device_valid d = true -> dev <> NULL ->
  wp (ns_block_validate_range dev first count) (fun r s' => s' = s /\ r.1 <= 0 /\ (r.1 = 0 -> in_range d first count)) s.
Proof.
  intros Hd Hv Hn. unfold ns_block_validate_range, ns_block_device_is_valid.
  rewrite (proj2 (Z.eqb_neq dev NULL) Hn). msteps. unfold id. rewrite Hv. cbn [negb]. msteps.
  unfold id. split; [done|]. unfold in_range. destruct (check_range d first count) as [e|n] eqn:E; [|by split; [|exists n]].
  assert (He : e < 0); [|cbn; lia]. unfold check_range in E. repeat (case_match; try done); by simplify_eq.
Qed.

Lemma normalize_zero r : ns_block_normalize_driver_result r = 0 <-> r = 0.
Proof. unfold ns_block_normalize_driver_result, NS_EPROTO. destruct (Z.ltb_spec 0 r); lia. Qed.

(** The state of the base after a request that may have changed its bytes. *)
Lemma base_mem s base l : base_ok s base l ->
  forall d, devices s !! base = Some d -> ops d = Some ns_mem_block_ops -> exists m, mem_ok s base d m l.
Proof.
  intros (d & Hd & Hv & Ht & Hc & Hlt & Hn & Hops) d' Hd' Ho. rewrite Hd in Hd'. injection Hd' as <-.
  rewrite Ho in Hops. destruct Hops as (_ & m & Hm & Hl & He & Hb). exists m.
  pose proof (valid_sizes d Hv Ht) as [Hs _]. by split_and!.
Qed.

Lemma normalize_nonpos r : ns_block_normalize_driver_result r <= 0.
Proof. unfold ns_block_normalize_driver_result, NS_EPROTO. destruct (Z.ltb_spec 0 r); lia. Qed.

Definition read_from (l : list Z) (off first count ss : Z) (buf : list Z) : list Z :=
  splice buf 0 (window_of l (Z.to_nat (off + first * ss)) (Z.to_nat (count * ss))).

(** A request that reached the operations of its base. *)
Lemma wp_base_read s base l d first count buf :
  base_ok s base l -> devices s !! base = Some d -> 0 <= first -> 0 < count -> first + count <= sector_count d ->
  count * sector_size d <= Z.of_nat (length buf) ->
  exists m, match ops d with
    | Some ns_mem_block_ops => Some (ns_mem_read (context d) first count buf)
    | Some (driver_ops (Some f) _ _) => Some (zoom world (f (context d) first count buf))
    | _ => None
    end = Some m /\
    wp m (fun r s' => same_setup s s' /\ base_ok s' base l /\ length r.2 = length buf /\
      (r.1 = 0 -> r.2 = read_from l 0 first count (sector_size d) buf)) s.
Proof.
  intros Hb Hd Hf Hc Hfit Hbuf. pose proof Hb as (d' & Hd' & Hv & Ht & Hcap & Hlt & Hn & Hops).
  rewrite Hd in Hd'. injection Hd' as <-. pose proof (valid_sizes d Hv Ht) as [Hss _]. unfold read_from.
  destruct (ops d) as [[| |[f|] g h]|] eqn:Eo; try done.
  - eexists. split; [done|]. destruct (base_mem s base l Hb d Hd Eo) as (m & Hm). destruct Hops as (Hctx & _). rewrite Hctx.
    eapply wp_mono; [by apply (wp_mem_read s base d m l)|].
    intros r s' (m' & (E1 & E2 & E3 & E4 & E5) & (S1 & S2 & S3) & _ & Hlen & Hr & _).
    destruct Hm as (_ & _ & Hlk & Her & Hbk & _). split_and!; try done.
    exists d. rewrite E1, Eo. split_and!; try done. exists m'. rewrite E3, S1, S2, S3. done.
  - eexists. split; [done|]. destruct Hops as [Hdr Hdk]. apply wp_zoom.
    eapply wp_mono; [apply (dr_read _ _ _ _ Hdr first count buf _ l); try done; unfold capacity in *; nia|].
    intros r w (Hw & Hlen & Hr). split_and!; try done. exists d. cbn. by rewrite Eo.
Qed.

(** A read through any number of slices is a read of the base. *)
Lemma wp_block_read n : forall fuel s base l dev off d first count buffer buf,
  (n < fuel)%nat -> base_ok s base l -> window s base n dev off -> devices s !! dev = Some d ->
  0 <= first < 2 ^ 64 -> is_u32 count -> count * sector_size d <= Z.of_nat (length buf) ->
  wp (ns_block_read fuel dev first count buffer buf) (fun r s' => same_setup s s' /\ base_ok s' base l /\
    length r.2 = length buf /\ r.1 <= 0 /\
    (r.1 = 0 -> first + count <= sector_count d /\ r.2 = read_from l off first count (sector_size d) buf)) s.
Proof.
  induction n as [n IH] using lt_wf_ind. intros fuel s base l dev off d first count buffer buf Hfuel Hb Hw Hd Hf Hc Hbuf.
  destruct fuel as [|fuel]; [lia|]. cbn [ns_block_read].
  destruct (window_fits s base l _ dev off Hb Hw) as (d' & Hd' & Hv & Ht & Hn & _).
  rewrite Hd in Hd'. injection Hd' as <-. apply wp_bind. eapply wp_mono; [by apply wp_validate|].
  intros v s1 (-> & Hv1 & Hv0). destruct (Z.eqb_spec v.1 0) as [Ev|Ev]; cbn [negb]; [|by apply wp_ret].
  pose proof (check_range_fits d first count Hv Ht Hf Hc (Hv0 Ev)) as Hfit.
  destruct (Z.eqb_spec count 0) as [->|Hc0].
  { by apply wp_ret. }
  destruct (buffer =? NULL); [by apply wp_ret|]. apply wp_bind. eapply wp_load; [done|]. unfold id.
  destruct Hw as [|n dev d' sl pd off Hd' _ _ _ Ho Hcx Hsl Hp Hss Hfs Hpf Hw'].
  - destruct (wp_base_read s base l d first count buf) as (m & Em & Hm); [done|done|lia..|done|].
    destruct (ops d) as [[| |[f|] g h]|]; try done; injection Em as <-; apply wp_bind;
      (eapply wp_mono; [exact Hm|]); intros r s' (H1 & H2 & H3 & H4); apply wp_ret; cbn;
      split_and!; try done; try apply normalize_nonpos; rewrite normalize_zero; auto.
  - rewrite Hd in Hd'. injection Hd' as <-. rewrite Ho. unfold ns_slice_read. rewrite Hcx. msteps.
    destruct (Z.ltb_spec (UINT64_MAX - first) (first_sector sl)) as [Hov|Hov]; [msteps; cbn; by split_and!|].
    msteps. unfold UINT64_MAX in Hov. rewrite u64_small by lia.
    eapply wp_mono; [apply (IH n ltac:(lia) fuel s base l (parent sl) off pd); try done; [lia|lia|by rewrite Hss]|].
    intros r s' (H1 & H2 & H3 & H4 & H5). msteps. cbn. split_and!; try done; [apply normalize_nonpos|].
    rewrite normalize_zero. intros Er. destruct (H5 Er) as [_ H6]. split; [done|]. rewrite H6.
    unfold read_from. rewrite Hss. do 3 f_equal. lia.
Qed.

(** [l'] is [l] after a write request: only bytes of the request may differ. *)
Definition written_to (l l' : list Z) (off first count : Z) d (r : Z) (buf : list Z) : Prop :=
  r <= 0 /\
  (l' = l \/ first + count <= sector_count d /\ exists b, length b = Z.to_nat (count * sector_size d) /\
     l' = splice l (Z.to_nat (off + first * sector_size d)) b) /\
  (r = 0 -> first + count <= sector_count d /\
     l' = splice l (Z.to_nat (off + first * sector_size d)) (take (Z.to_nat (count * sector_size d)) buf)).

Lemma written_same l off first count d r buf : r < 0 -> written_to l l off first count d r buf.
Proof. intros Hr. split_and!; [lia|by left|lia]. Qed.

Lemma written_normalize l l' off first count d r buf :
  (l' = l \/ first + count <= sector_count d /\ exists b, length b = Z.to_nat (count * sector_size d) /\
     l' = splice l (Z.to_nat (off + first * sector_size d)) b) ->
  (r = 0 -> first + count <= sector_count d /\
     l' = splice l (Z.to_nat (off + first * sector_size d)) (take (Z.to_nat (count * sector_size d)) buf)) ->
  written_to l l' off first count d (ns_block_normalize_driver_result r) buf.
Proof. intros H1 H2. split_and!; [apply normalize_nonpos|done|by rewrite normalize_zero]. Qed.

Lemma wp_base_write s base l d o first count buf :
  base_ok s base l -> devices s !! base = Some d -> ops d = Some o -> has_write o = true -> 0 <= first ->
  0 < count -> first + count <= sector_count d -> count * sector_size d <= Z.of_nat (length buf) ->
  exists m, match o with
    | ns_mem_block_ops => Some (ns_mem_write (context d) first count buf)
    | driver_ops _ (Some f) _ => Some (zoom world (f (context d) first count buf))
    | _ => None
    end = Some m /\
    wp m (fun r s' => same_setup s s' /\ exists l', base_ok s' base l' /\
      written_to l l' 0 first count d (ns_block_normalize_driver_result r) buf) s.
Proof.
  intros Hb Hd Eo Hhw Hf Hc Hfit Hbuf. pose proof Hb as (d' & Hd' & Hv & Ht & Hcap & Hlt & Hn & Hops).
  rewrite Hd in Hd'. injection Hd' as <-. pose proof (valid_sizes d Hv Ht) as [Hss _]. rewrite Eo in Hops.
  assert (Hend : (first + count) * sector_size d <= Z.of_nat (length l)) by (unfold capacity in *; nia).
  destruct o as [| |[rf|] [wf|] h]; cbn in Hhw; try done.
  - eexists. split; [done|]. destruct (base_mem s base l Hb d Hd Eo) as (m & Hm). destruct Hops as (Hctx & _). rewrite Hctx.
    eapply wp_mono; [by apply (wp_mem_write s base d m l)|].
    intros r s' (m' & b & (S1 & S2 & S3) & [E1 E2] & Ew & Em & Hr & Hlb & Hbk & Hok & _).
    destruct Hm as (_ & _ & Hlk & Her & _ & _). split; [done|].
    exists (splice l (Z.to_nat (first * sector_size d)) b). split.
    + exists d. rewrite E1, Eo. rewrite length_splice by nia. split_and!; try done.
      exists m'. rewrite S1, S2, S3. by split_and!.
    + apply written_normalize; rewrite Z.add_0_l; [right; split; [done|by exists b]|]. intros Er.
      by rewrite (Hok Er).
  - eexists. split; [done|]. destruct Hops as [Hdr Hdk]. apply wp_zoom.
    eapply wp_mono; [apply (dr_write _ _ _ _ Hdr wf first count buf _ l); try done; nia|].
    intros r w (b & Hlb & Hw & Hr). split; [done|].
    exists (splice l (Z.to_nat (first * sector_size d)) b). split.
    + exists d. cbn. rewrite Eo, length_splice by nia. by split_and!.
    + apply written_normalize; rewrite Z.add_0_l; [right; split; [done|by exists b]|]. intros Er.
      by rewrite (Hr Er).
Qed.

(** A write through any number of slices is a write of the base. *)
Lemma wp_block_write n : forall fuel s base l dev off d first count buffer buf,
  (n < fuel)%nat -> base_ok s base l -> window s base n dev off -> devices s !! dev = Some d ->
  0 <= first < 2 ^ 64 -> is_u32 count -> count * sector_size d <= Z.of_nat (length buf) ->
  wp (ns_block_write fuel dev first count buffer buf) (fun r s' => same_setup s s' /\
    exists l', base_ok s' base l' /\ written_to l l' off first count d r buf) s.
Proof.
  induction n as [n IH] using lt_wf_ind. intros fuel s base l dev off d first count buffer buf Hfuel Hb Hw Hd Hf Hc Hbuf.
  destruct fuel as [|fuel]; [lia|]. cbn [ns_block_write].
  destruct (window_fits s base l _ dev off Hb Hw) as (d' & Hd' & Hv & Ht & Hn & Hoff & Hfits & _).
  rewrite Hd in Hd'. injection Hd' as <-. apply wp_bind. eapply wp_mono; [by apply wp_validate|].
  assert (Hsame : forall r, r < 0 -> same_setup s s /\ exists l', base_ok s base l' /\ written_to l l' off first count d r buf).
  { intros r Hr. split; [done|]. exists l. split; [done|]. by apply written_same. }
  intros v s1 (-> & Hv1 & Hv0). destruct (Z.eqb_spec v.1 0) as [Ev|Ev]; cbn [negb]; [|apply wp_ret, Hsame; lia].
  pose proof (check_range_fits d first count Hv Ht Hf Hc (Hv0 Ev)) as Hfit.
  destruct (Z.eqb_spec count 0) as [->|Hc0].
  { apply wp_ret. split; [done|]. exists l. split; [done|]. split_and!; [done|by left|]. intros _. split; [done|].
    by rewrite Z.mul_0_l, take_0, splice_nil. }
  destruct (buffer =? NULL); [by apply wp_ret, Hsame|]. apply wp_bind. eapply wp_load; [done|]. unfold id.
  destruct (ops d) as [o|] eqn:Eo; [|unfold device_valid in Hv; by rewrite Eo in Hv].
  destruct (_ || _) eqn:Ero; [by apply wp_ret, Hsame|]. apply orb_false_iff in Ero as [_ Ehw%negb_false_iff].
  destruct Hw as [|n dev d' sl pd off Hd' _ _ _ Ho Hcx Hsl Hp Hss Hfs Hpf Hw'].
  - destruct (wp_base_write s base l d o first count buf) as (m & Em & Hm); [done..|lia|lia|done|done|].
    destruct o as [| |rf [wf|] h]; try done; injection Em as <-; apply wp_bind;
      (eapply wp_mono; [exact Hm|]); intros r s' H; apply wp_ret; exact H.
  - rewrite Hd in Hd'. injection Hd' as <-. rewrite Eo in Ho. injection Ho as ->. unfold ns_slice_write. rewrite Hcx. msteps.
    destruct (Z.ltb_spec (UINT64_MAX - first) (first_sector sl)) as [Hov|Hov]; [msteps; by apply Hsame|].
    msteps. unfold UINT64_MAX in Hov. rewrite u64_small by lia.
    eapply wp_mono; [apply (IH n ltac:(lia) fuel s base l (parent sl) off pd); try done; [lia|lia|by rewrite Hss]|].
    intros r s' (H1 & l' & H2 & H3 & H4 & H5). msteps. split; [done|]. exists l'. split; [done|].
    rewrite Hss in H4, H5. replace (off + first_sector sl * sector_size d + first * sector_size d)
      with (off + (first_sector sl + first) * sector_size d) in * by lia.
    apply written_normalize; replace (off + first_sector sl * sector_size d + first * sector_size d)
      with (off + (first_sector sl + first) * sector_size d) by lia.
    + destruct H4 as [?|[_ H4]]; [by left|by right].
    + intros Er. split; [done|]. by apply H5.
Qed.

(** ** Setting up *)

Lemma wp_put {S R} (m : S -> gmap Z R) `{!Setter m} p v0 v Q (s : S) :
  m s !! p = Some v0 -> Q tt (s <| m := <[p := v]> (m s) |>) -> wp (put m p v) Q s.
Proof. intros Hp HQ. unfold put. apply wp_bind. eapply wp_load; [done|]. by apply wp_modify. Qed.

(** An invalid device is part of no window, so overwriting it changes none. *)
Lemma fresh_window s base n dev off p d sl :
  (forall d0, devices s !! p = Some d0 -> device_valid d0 = false) -> base <> p -> window s base n dev off ->
  window (s <| slices := <[p := sl]> (slices s) |> <| devices := <[p := d]> (devices s) |>) base n dev off.
Proof.
  intros Hp Hb. induction 1 as [|n dev d' sl' pd off Hd Hv Ht Hn Ho Hcx Hsl Hpd Hss Hf Hfit Hw IH]; [constructor|].
  assert (dev <> p) by (intros ->; by rewrite (Hp _ Hd) in Hv).
  assert (parent sl' <> p).
  { intros Ep. destruct Hw as [|? ? d2 ? ? ? Hd2 Hv2]; [done|]. rewrite Ep in Hd2. by rewrite (Hp _ Hd2) in Hv2. }
  eapply win_slice; cbn; rewrite ?lookup_insert_ne by done; done.
Qed.

Lemma fresh_base s base l p d sl :
  (forall d0, devices s !! p = Some d0 -> device_valid d0 = false) -> base_ok s base l ->
  base <> p /\ base_ok (s <| slices := <[p := sl]> (slices s) |> <| devices := <[p := d]> (devices s) |>) base l.
Proof.
  intros Hp (d' & Hd & Hv & Hrest). assert (base <> p) by (intros ->; by rewrite (Hp _ Hd) in Hv).
  split; [done|]. exists d'. cbn. rewrite lookup_insert_ne by done. done.
Qed.

(** The flags of a slice are those of a device. *)
Lemma slice_flags_ok fl sf :
  Z.land fl (not32 NS_BLOCK_F_ALL) = 0 -> Z.land sf (not32 NS_BLOCK_F_READ_ONLY) = 0 ->
  Z.land (Z.lor fl sf) (not32 NS_BLOCK_F_ALL) = 0.
Proof.
  intros H1 H2. rewrite Z.land_lor_distr_l, H1.
  change (not32 NS_BLOCK_F_ALL) with (Z.land (not32 NS_BLOCK_F_READ_ONLY) (not32 NS_BLOCK_F_ALL)).
  by rewrite Z.land_assoc, H2.
Qed.

Lemma device_valid_inv d o : ops d = Some o -> device_valid d = true ->
  ns_is_power_of_two_u32 (sector_size d) = true /\ Z.land (flags d) (not32 NS_BLOCK_F_ALL) = 0.
Proof.
  unfold device_valid. intros -> Hv. destruct (_ || _) eqn:E; [done|]. repeat (apply orb_false_iff in E as [E ?]).
  split; [by apply negb_false_iff|]. by apply Z.eqb_eq, negb_false_iff.
Qed.

(** What a slice needs: room in its parent. *)
Definition slice_fits (pd : ns_block_device W) (first count fl : Z) : Prop :=
  0 < count /\ first + count <= sector_count pd /\ Z.land fl (not32 NS_BLOCK_F_READ_ONLY) = 0.

Lemma wp_slice_init s parent0 pd p d0 sl0 first count fl :
  devices s !! parent0 = Some pd -> device_valid pd = true -> parent0 <> NULL -> device_typed pd ->
  p <> NULL -> devices s !! p = Some d0 -> slices s !! p = Some sl0 -> is_u64 first -> is_u64 count ->
  wp (ns_block_slice_init p parent0 first count fl) (fun r s' =>
    r <= 0 /\ (r <> 0 -> s' = s /\ ~ slice_fits pd first count fl) /\
    (r = 0 -> slice_fits pd first count fl /\ exists d, ops d = Some ns_slice_ops /\ device_valid d = true /\
       device_typed d /\ context d = p /\ sector_size d = sector_size pd /\ sector_count d = count /\
       s' = s <| slices := <[p := mk_slice parent0 first]> (slices s) |> <| devices := <[p := d]> (devices s) |>)) s.
Proof.
  intros Hpd Hv Hn Ht Hp Hd0 Hsl Hf Hc. unfold ns_block_slice_init, ns_block_device_is_valid, slice_fits.
  rewrite (proj2 (Z.eqb_neq _ _) Hp), (proj2 (Z.eqb_neq _ _) Hn). msteps. unfold id. rewrite Hv. cbn [negb orb].
  assert (Hfail : forall r, r < 0 -> ~ slice_fits pd first count fl -> r <= 0 /\ (r <> 0 -> s = s /\ ~ slice_fits pd first count fl) /\
    (r = 0 -> slice_fits pd first count fl /\ exists d, ops d = Some ns_slice_ops /\ device_valid d = true /\
       device_typed d /\ context d = p /\ sector_size d = sector_size pd /\ sector_count d = count /\
       s = s <| slices := <[p := mk_slice parent0 first]> (slices s) |> <| devices := <[p := d]> (devices s) |>)).
  { intros r Hr Hx. split_and!; [lia|done|lia]. }
  destruct (Z.eqb_spec count 0) as [|Hc0]; cbn [orb]; [apply wp_ret, Hfail; [done|intros (? & _); lia]|].
  destruct (Z.eqb_spec (Z.land fl (not32 NS_BLOCK_F_READ_ONLY)) 0) as [Hfl|Hfl]; cbn [negb];
    [|apply wp_ret, Hfail; [done|by intros (_ & _ & ?)]].
  destruct Ht as (Ht1 & Ht2 & Ht3). unfold UINT64_MAX.
  destruct (Z.ltb_spec (2 ^ 64 - 1 - count) first); [apply wp_ret, Hfail; [done|intros (_ & ? & _); lia]|]. msteps. unfold id.
  destruct (Z.leb_spec (sector_count pd) first); cbn [orb]; [apply wp_ret, Hfail; [done|intros (? & ? & _); lia]|].
  rewrite u64_small by lia. destruct (Z.ltb_spec (sector_count pd - first) count);
    [apply wp_ret, Hfail; [done|intros (? & ? & _); lia]|].
  destruct (ops pd) as [o|] eqn:Eo; [|unfold device_valid in Hv; by rewrite Eo in Hv].
  destruct (device_valid_inv pd o Eo Hv) as [Hpow Hall]. pose proof (slice_flags_ok _ _ Hall Hfl) as Hall'.
  apply wp_bind. eapply wp_put; [done|]. unfold ns_block_device_init. cbn [has_read has_write has_flush negb orb].
  rewrite (proj2 (Z.eqb_neq _ _) Hp), Hpow, (proj2 (Z.eqb_neq _ _) Hc0), Hall', andb_false_r. cbn [negb orb Z.eqb].
  apply wp_bind. eapply wp_put; [done|]. apply wp_ret. split_and!; [done|done|]. intros _. split; [split_and!; lia|].
  eexists. split_and!; [..|reflexivity]; cbn; try lia; try done.
  unfold device_valid. cbn. by rewrite Hpow, (proj2 (Z.eqb_neq _ _) Hc0), Hall', andb_false_r.
Qed.
End props.
