(* ===== verification/BlockTheorems.v ===== *)
(** * What the block devices guarantee

    Requests through slices of slices stay in their windows, written bytes are
    read back through any device that shows them, and making a slice disturbs no
    device in use. *)

From S2P Require Import Prelude Errno Block BlockProps.

Section theorems.
Context {W : Type} `{DW : !@DiskWorld W}.
Implicit Types (s : bstate W) (d : ns_block_device W).

(** C36: Confinement.  A write through a device that is a window of a base device,
    however many slices lie between, returns zero or a negative error, and
    whatever it returns - an injected fault or a driver's failure in the middle
    included - the size of the base is the same and no byte outside the request,
    hence outside the slice, has changed. When it returns zero the request lies
    in the slice and its bytes are exactly those of the buffer. *)
Theorem block_write_confined fuel n s base l dev off d first count buffer buf :
  (n < fuel)%nat -> base_ok s base l -> window s base n dev off -> devices s !! dev = Some d ->
  is_u64 first -> is_u32 count -> count * sector_size d <= Z.of_nat (length buf) ->
  exists r s' l', ns_block_write fuel dev first count buffer buf s = Some (r, s') /\ r <= 0 /\
    base_ok s' base l' /\ length l' = length l /\
    (forall i, l' !! i <> l !! i ->
       off + first * sector_size d <= Z.of_nat i < off + (first + count) * sector_size d /\
       off <= Z.of_nat i < off + sector_count d * sector_size d) /\
    (r = 0 -> first + count <= sector_count d /\
       window_of l' (Z.to_nat (off + first * sector_size d)) (Z.to_nat (count * sector_size d)) =
         take (Z.to_nat (count * sector_size d)) buf).
Proof.
  intros Hn Hb Hw Hd Hf Hc Hbuf. destruct (window_fits s base l n dev off Hb Hw) as (d' & Hd' & Hv & Ht & _ & Ho & Hfit & _).
  rewrite Hd in Hd'. injection Hd' as <-. pose proof (valid_sizes d Hv Ht) as [Hss _].
  destruct (wp_block_write n fuel s base l dev off d first count buffer buf) as (r & s' & E & _ & l' & Hb' & Hr & Hl' & H0); [done..|].
  exists r, s', l'. split_and!; [done..| | |].
  - destruct Hl' as [->|(Hin & b & Hlb & ->)]; [done|]. apply length_splice. unfold capacity in *. nia.
  - intros i Hi. destruct Hl' as [->|(Hin & b & Hlb & ->)]; [done|].
    assert (~ (Z.of_nat i < off + first * sector_size d \/ off + (first + count) * sector_size d <= Z.of_nat i)); [|nia].
    intros Hout. apply Hi, lookup_splice_out; unfold capacity in *; nia.
  - intros Er. destruct (H0 Er) as [Hin ->]. split; [done|]. pose proof (window_splice l (Z.to_nat (off + first * sector_size d))
      (take (Z.to_nat (count * sector_size d)) buf)) as Hws. rewrite length_take_le in Hws by nia.
    apply Hws. unfold capacity in *. nia.
Qed.

(** C37: Round trip through aliases.  After a write that returned zero, a read of
    the same bytes of the base - through the same device, through the parent or
    through another slice that shows them - returns, if it returns zero, the
    bytes written, and changes neither devices nor bytes. *)
Theorem block_write_read fuel n s base l dev off d first count buffer buf s' fuel2 n2 dev2 off2 d2 first2 count2 buffer2 buf2 :
  (n < fuel)%nat -> base_ok s base l -> window s base n dev off -> devices s !! dev = Some d ->
  is_u64 first -> is_u32 count -> count * sector_size d <= Z.of_nat (length buf) ->
  ns_block_write fuel dev first count buffer buf s = Some (0, s') ->
  (n2 < fuel2)%nat -> window s base n2 dev2 off2 -> devices s !! dev2 = Some d2 ->
  is_u64 first2 -> is_u32 count2 -> Z.of_nat (length buf2) = count2 * sector_size d2 ->
  off2 + first2 * sector_size d2 = off + first * sector_size d ->
  count2 * sector_size d2 = count * sector_size d ->
  exists r buf' s'', ns_block_read fuel2 dev2 first2 count2 buffer2 buf2 s' = Some ((r, buf'), s'') /\
    (r = 0 -> buf' = take (Z.to_nat (count * sector_size d)) buf) /\ devices s'' = devices s /\
    exists l', base_ok s' base l' /\ base_ok s'' base l'.
Proof.
  intros Hn Hb Hw Hd Hf Hc Hbuf E Hn2 Hw2 Hd2 Hf2 Hc2 Hbuf2 Hoff Hcnt.
  destruct (window_fits s base l n dev off Hb Hw) as (d' & Hd' & Hv & Ht & _ & Ho & Hfit & _).
  rewrite Hd in Hd'. injection Hd' as <-. pose proof (valid_sizes d Hv Ht) as [Hss _].
  pose proof (wp_block_write n fuel s base l dev off d first count buffer buf Hn Hb Hw Hd Hf Hc Hbuf) as Hwp.
  apply (wp_result _ _ _ _ _ Hwp) in E as (Hs & l' & Hb' & _ & _ & H0). destruct (H0 eq_refl) as [Hin ->].
  pose proof Hs as [E1 E2]. destruct (wp_block_read n2 fuel2 s' base _ dev2 off2 d2 first2 count2 buffer2 buf2 Hn2 Hb'
    (window_same _ _ _ _ _ _ Hs Hw2)) as ([r buf'] & s'' & E' & Hs' & Hb'' & Hlen & _ & Hr);
    [by rewrite E1|done|done|lia|]. exists r, buf', s''. split; [done|]. split_and!; [|by rewrite (proj1 Hs')|by eexists].
  intros Er. cbn in Hr. destruct (Hr Er) as [_ ->]. unfold read_from. rewrite Hoff, Hcnt.
  pose proof (window_splice l (Z.to_nat (off + first * sector_size d)) (take (Z.to_nat (count * sector_size d)) buf)) as Hws.
  rewrite length_take_le in Hws by nia. rewrite Hws by (unfold capacity in *; nia).
  unfold splice. rewrite take_0, length_take_le, drop_ge by nia. cbn [app]. apply app_nil_r.
Qed.

(** A slice made of a device that is a window of a base is again a window of
    it, at the slice's offset. It is made exactly when it has sectors, lies in its
    parent and asks for no flag but read-only; otherwise nothing changes. The
    bases and windows that were in use are still what they were. *)
Theorem block_slice_init_window n s base l parent0 off pd p d0 sl0 first count fl :
  base_ok s base l -> window s base n parent0 off -> devices s !! parent0 = Some pd -> p <> NULL ->
  devices s !! p = Some d0 -> slices s !! p = Some sl0 -> device_valid d0 = false -> is_u64 first -> is_u64 count ->
  exists r s', ns_block_slice_init p parent0 first count fl s = Some (r, s') /\
    (r = 0 <-> slice_fits pd first count fl) /\ (r <> 0 -> s' = s) /\
    (r = 0 -> window s' base (S n) p (off + first * sector_size pd)) /\
    (forall base' l' n' dev' off', base_ok s base' l' -> window s base' n' dev' off' ->
       base_ok s' base' l' /\ window s' base' n' dev' off').
Proof.
  intros Hb Hw Hpd Hp Hd0 Hsl0 Hv0 Hf Hc.
  destruct (window_fits s base l n parent0 off Hb Hw) as (d' & Hd' & Hv & Ht & Hn & Ho & Hfit & _).
  rewrite Hpd in Hd'. injection Hd' as <-.
  assert (Hfresh : forall d1, devices s !! p = Some d1 -> device_valid d1 = false) by (rewrite Hd0; by intros ? [= <-]).
  destruct (wp_slice_init s parent0 pd p d0 sl0 first count fl) as (r & s' & E & Hr & Hne & He); [done..|].
  exists r, s'. split; [done|]. destruct (decide (r = 0)) as [->|Hr0].
  2: { destruct (Hne Hr0) as [-> Hno]. split_and!; [|done|done|done]. by split. }
  destruct (He eq_refl) as ((F1 & F2 & F3) & d & Eo & Ev & Et & Ec & Ess & Esc & ->).
  destruct (fresh_base s base l p d (mk_slice parent0 first) Hfresh Hb) as [Hnp Hb'].
  assert (Hpp : parent0 <> p) by (intros ->; rewrite Hpd in Hd0; injection Hd0 as ->; by rewrite Hv in Hv0).
  split_and!; [done|done| |].
  - intros _. rewrite <- Ess. apply (win_slice _ _ n p d (mk_slice parent0 first) pd off); cbn; try done.
    + apply lookup_insert_eq.
    + apply lookup_insert_eq.
    + by rewrite lookup_insert_ne.
    + apply Hf.
    + by rewrite Esc.
    + by apply fresh_window.
  - intros base' l' n' dev' off' Hb1 Hw1. destruct (fresh_base s base' l' p d (mk_slice parent0 first) Hfresh Hb1) as [Hne' Hb2].
    split; [done|]. by apply fresh_window.
Qed.
End theorems.

(** ** A disk of eight sectors, a slice of four and a slice of two in it *)

Module BlockToy.
#[export] Instance toy_disk : @DiskWorld unit := {| dw_disk _ _ := None |}.

Definition blank : ns_block_device unit := mk_device None NULL 0 0 0 0 0.
Definition power_on : bstate unit :=
  mk_bstate {[ 0x1000 := blank; 0x2000 := blank; 0x3000 := blank ]}
    {[ 0x2000 := mk_slice NULL 0; 0x3000 := mk_slice NULL 0 ]}
    {[ 0x1000 := mk_mem NULL 0 (mk_allocator None None NULL) no_fault no_stats 0 0 false ]}
    {[ 0x9000 := seqZ 0 16 ]} tt.

Definition setup : M (bstate unit) (list Z) :=
  r1 ← ns_mem_block_init_borrowed 0x1000 0x9000 16 2 0;
  r2 ← ns_block_slice_init 0x2000 0x1000 2 4 0;
  r3 ← ns_block_slice_init 0x3000 0x2000 1 2 0;
  mret [r1; r2; r3].

Definition after {A S} (m : M S A) (s : S) : S := match m s with Some (_, s') => s' | None => s end.
Definition ready : bstate unit := Eval vm_compute in after setup power_on.

Definition disk : ns_block_device unit := mk_device (Some ns_mem_block_ops) 0x1000 8 2 0 0 NS_BLOCK_DEVICE_MAGIC.
Definition outer : ns_block_device unit := mk_device (Some ns_slice_ops) 0x2000 4 2 0 0 NS_BLOCK_DEVICE_MAGIC.
Definition inner : ns_block_device unit := mk_device (Some ns_slice_ops) 0x3000 2 2 0 0 NS_BLOCK_DEVICE_MAGIC.

Example setup_ready : setup power_on = Some ([0; 0; 0], ready).
Proof. vm_compute. reflexivity. Qed.

Lemma ready_base : base_ok ready 0x1000 (seqZ 0 16).
Proof.
  exists disk. split_and!; try done. cbn. split; [done|]. eexists. by split_and!.
Qed.
Lemma ready_outer : window ready 0x1000 1 0x2000 4.
Proof. apply (win_slice _ _ 0 0x2000 outer (mk_slice 0x1000 2) disk 0); try done. apply win_base. Qed.
Lemma ready_inner : window ready 0x1000 2 0x3000 6.
Proof. apply (win_slice _ _ 1 0x3000 inner (mk_slice 0x2000 1) outer 4); try done. apply ready_outer. Qed.

Lemma block_write_confined_witness :
  exists r s' l', ns_block_write 3 0x3000 1 1 0x5000 [77; 78] ready = Some (r, s') /\ r <= 0 /\
    base_ok s' 0x1000 l' /\ length l' = 16%nat /\
    (forall i, l' !! i <> seqZ 0 16 !! i -> 8 <= Z.of_nat i < 10 /\ 6 <= Z.of_nat i < 10) /\
    (r = 0 -> 2 <= 2 /\ window_of l' 8 2 = [77; 78]).
Proof.
  apply (block_write_confined 3 2 ready 0x1000 (seqZ 0 16) 0x3000 6 inner 1 1 0x5000 [77; 78]); try done; try lia.
  - apply ready_base.
  - apply ready_inner.
Defined.

Definition written : bstate unit := Eval vm_compute in after (ns_block_write 3 0x3000 1 1 0x5000 [77; 78]) ready.

(** Written through the inner slice, read through the outer one. *)
Lemma block_write_read_witness :
  exists r buf' s'', ns_block_read 2 0x2000 2 1 0x6000 [0; 0] written = Some ((r, buf'), s'') /\
    (r = 0 -> buf' = [77; 78]) /\ devices s'' = devices ready /\
    exists l', base_ok written 0x1000 l' /\ base_ok s'' 0x1000 l'.
Proof.
  apply (block_write_read 3 2 ready 0x1000 (seqZ 0 16) 0x3000 6 inner 1 1 0x5000 [77; 78] written
    2 1 0x2000 4 outer 2 1 0x6000 [0; 0]); try done; try lia.
  - apply ready_base.
  - apply ready_inner.
  - apply ready_outer.
Defined.

Definition half : bstate unit :=
  Eval vm_compute in after (ns_mem_block_init_borrowed 0x1000 0x9000 16 2 0) power_on.

Lemma block_slice_init_window_witness :
  exists r s', ns_block_slice_init 0x2000 0x1000 2 4 0 half = Some (r, s') /\
    (r = 0 <-> slice_fits disk 2 4 0) /\ (r <> 0 -> s' = half) /\
    (r = 0 -> window s' 0x1000 1 0x2000 4) /\
    (forall base' l' n' dev' off', base_ok half base' l' -> window half base' n' dev' off' ->
       base_ok s' base' l' /\ window s' base' n' dev' off').
Proof.
  apply (block_slice_init_window 0 half 0x1000 (seqZ 0 16) 0x1000 0 disk 0x2000 blank (mk_slice NULL 0) 2 4 0); try done.
  - exists disk. split_and!; try done. cbn. split; [done|]. eexists. by split_and!.
  - apply win_base.
Defined.
End BlockToy.
