(* ===== verification/Strings.v ===== *)
(** * The kernel's memory and string routines (kernel/core/string.c)

    A pointer is an object, a list of bytes, with an offset; an access outside
    the object is undefined.  A copy whose source lies in the destination's
    object reads what the copy has already written there. *)

From S2P Require Import Prelude.

(** ** The routines *)

(** [src] is the object of the source, [None] for the destination's own. *)
Fixpoint copy_up (n : nat) (src : option (list Z)) (mem : list Z) (to from i : Z) : option (list Z) :=
  match n with
  | O => Some mem
  | S n' =>
    b ← rd (default mem src) (from + i);
    mem ← wr mem (to + i) b;
    copy_up n' src mem to from (i + 1)
  end.

Definition memcpy (src : option (list Z)) (mem : list Z) (to from count : Z) : option (list Z) :=
  copy_up (Z.to_nat count) src mem to from 0.

Fixpoint copy_down (i : nat) (mem : list Z) (to from : Z) : option (list Z) :=
  match i with
  | O => Some mem
  | S i' =>
    b ← rd mem (from + Z.of_nat i');
    mem ← wr mem (to + Z.of_nat i') b;
    copy_down i' mem to from
  end.

Definition memmove (mem : list Z) (to from count : Z) : option (list Z) :=
  if to <? from then memcpy None mem to from count else copy_down (Z.to_nat count) mem to from.

Fixpoint fill (n : nat) (mem : list Z) (to i value : Z) : option (list Z) :=
  match n with
  | O => Some mem
  | S n' => mem ← wr mem (to + i) (u8 value); fill n' mem to (i + 1) value
  end.

Definition memset (mem : list Z) (to value count : Z) : option (list Z) :=
  fill (Z.to_nat count) mem to 0 value.

Fixpoint compare (n : nat) (a b : list Z) (i : Z) : option Z :=
  match n with
  | O => Some 0
  | S n' =>
    x ← rd a i;
    y ← rd b i;
    if negb (x =? y) then Some (x - y) else compare n' a b (i + 1)
  end.

Definition memcmp (left right : list Z) (count : Z) : option Z := compare (Z.to_nat count) left right 0.

Fixpoint count_bytes (n : nat) (string : list Z) (length : Z) : option Z :=
  match n with
  | O => Some length
  | S n' =>
    c ← rd string length;
    if c =? 0 then Some length else count_bytes n' string (length + 1)
  end.

Definition strnlen (string : list Z) (maximum : Z) : option Z := count_bytes (Z.to_nat maximum) string 0.

(** Unbounded scans end in the object or are undefined. *)
Definition strlen (string : list Z) : option Z :=
  count_bytes (S (length string)) string 0.

Fixpoint scan (n : nat) (left right : list Z) (i : Z) : option Z :=
  match n with
  | O => None
  | S n' =>
    x ← rd left i;
    y ← rd right i;
    if negb (x =? 0) && (x =? y) then scan n' left right (i + 1) else Some (x - y)
  end.

Definition strcmp (left right : list Z) : option Z := scan (S (length left)) left right 0.

Fixpoint compare_strings (n : nat) (left right : list Z) (i : Z) : option Z :=
  match n with
  | O => Some 0
  | S n' =>
    a ← rd left i;
    b ← rd right i;
    if negb (a =? b) || (a =? 0) then Some (a - b) else compare_strings n' left right (i + 1)
  end.

Definition strncmp (left right : list Z) (count : Z) : option Z :=
  compare_strings (Z.to_nat count) left right 0.

Fixpoint copy_string (n : nat) (destination source : list Z) (i : Z) : option (list Z) :=
  match n with
  | O => Some destination
  | S n' =>
    c ← rd source i;
    if c =? 0 then fill (S n') destination 0 i 0
    else
      destination ← wr destination i c;
      copy_string n' destination source (i + 1)
  end.

Definition strncpy (destination source : list Z) (count : Z) : option (list Z) :=
  copy_string (Z.to_nat count) destination source 0.

(** ** What they do *)

(** An ascending copy between two objects, or down within one. *)
Lemma copy_up_spec n src mem to from i :
  0 <= to + i -> 0 <= from + i -> (src = None -> to < from) -> to + i + Z.of_nat n <= Z.of_nat (length mem) ->
  from + i + Z.of_nat n <= Z.of_nat (length (default mem src)) ->
  copy_up n src mem to from i =
    Some (splice mem (Z.to_nat (to + i)) (window_of (default mem src) (Z.to_nat (from + i)) n)).
Proof.
  revert mem i. induction n as [|n IH]; intros mem i Ht Hf Hd Hlt Hlf; cbn [copy_up].
  - f_equal. unfold window_of. by rewrite take_0, splice_nil.
  - destruct (rd_Some (default mem src) (from + i) ltac:(lia)) as [b Hb]. rewrite Hb. cbn [mbind option_bind].
    rewrite wr_Some by lia. cbn [mbind option_bind]. apply rd_lookup in Hb as [_ Hb].
    set (mem1 := <[Z.to_nat (to + i) := b]> mem).
    assert (Hl1 : length mem1 = length mem) by apply length_insert.
    assert (Hls : length (default mem1 src) = length (default mem src)) by (destruct src; [done|apply length_insert]).
    rewrite IH by (rewrite ?Hls; try lia; done). f_equal.
    assert (Hw : length (window_of (default mem1 src) (Z.to_nat (from + (i + 1))) n) = n) by (apply length_window; lia).
    assert (Hw' : length (window_of (default mem src) (Z.to_nat (from + i)) (S n)) = S n) by (apply length_window; lia).
    apply splice_ext; rewrite ?length_splice, ?Hw' by lia; [lia|done| |].
    + intros k Hk. rewrite lookup_window by lia. destruct (decide (k = Z.to_nat (to + i))) as [->|Hne].
      * rewrite lookup_splice_out by lia. unfold mem1. rewrite list_lookup_insert_eq, <- Hb by lia. f_equal. lia.
      * rewrite lookup_splice_in, lookup_window by lia.
        destruct src as [s|]; cbn; [f_equal; lia|]. specialize (Hd eq_refl). unfold mem1.
        rewrite list_lookup_insert_ne by lia. f_equal. lia.
    + intros k Hk. rewrite lookup_splice_out by lia. apply list_lookup_insert_ne. lia.
Qed.

(** A descending copy up within one object. *)
Lemma copy_down_spec n mem to from :
  0 <= from <= to -> to + Z.of_nat n <= Z.of_nat (length mem) ->
  copy_down n mem to from = Some (splice mem (Z.to_nat to) (window_of mem (Z.to_nat from) n)).
Proof.
  revert mem. induction n as [|n IH]; intros mem Hf Hlt; cbn [copy_down].
  - f_equal. unfold window_of. by rewrite take_0, splice_nil.
  - destruct (rd_Some mem (from + Z.of_nat n) ltac:(lia)) as [b Hb]. rewrite Hb. cbn [mbind option_bind].
    rewrite wr_Some by lia. cbn [mbind option_bind]. apply rd_lookup in Hb as [_ Hb].
    set (mem1 := <[Z.to_nat (to + Z.of_nat n) := b]> mem).
    assert (Hl1 : length mem1 = length mem) by apply length_insert.
    rewrite IH by lia. f_equal.
    assert (Hw : length (window_of mem1 (Z.to_nat from) n) = n) by (apply length_window; lia).
    assert (Hw' : length (window_of mem (Z.to_nat from) (S n)) = S n) by (apply length_window; lia).
    apply splice_ext; rewrite ?length_splice, ?Hw' by lia; [lia|done| |].
    + intros k Hk. rewrite lookup_window by lia. destruct (decide (k = Z.to_nat (to + Z.of_nat n))) as [->|Hne].
      * rewrite lookup_splice_out by lia. unfold mem1. rewrite list_lookup_insert_eq, <- Hb by lia. f_equal. lia.
      * rewrite lookup_splice_in, lookup_window by lia.
        unfold mem1. rewrite list_lookup_insert_ne by lia. f_equal; lia.
    + intros k Hk. rewrite lookup_splice_out by lia. apply list_lookup_insert_ne. lia.
Qed.

Lemma memcpy_spec src mem to from count :
  0 <= to -> 0 <= from -> 0 <= count -> to + count <= Z.of_nat (length mem) -> from + count <= Z.of_nat (length src) ->
  memcpy (Some src) mem to from count =
    Some (splice mem (Z.to_nat to) (window_of src (Z.to_nat from) (Z.to_nat count))).
Proof.
  intros Ht Hf Hc H1 H2. unfold memcpy. rewrite copy_up_spec by (cbn; lia || done). by rewrite !Z.add_0_r.
Qed.

Lemma fill_spec n mem to i value :
  0 <= to + i -> to + i + Z.of_nat n <= Z.of_nat (length mem) ->
  fill n mem to i value = Some (splice mem (Z.to_nat (to + i)) (replicate n (u8 value))).
Proof.
  revert mem i. induction n as [|n IH]; intros mem i Ht Hl; cbn [fill].
  - cbn [replicate]. by rewrite splice_nil.
  - rewrite wr_Some by lia. cbn [mbind option_bind]. rewrite IH by (rewrite ?length_insert; lia). f_equal.
    apply splice_ext; rewrite ?length_splice, ?length_insert, ?length_replicate
      by (rewrite ?length_insert, ?length_replicate; lia); [lia|done| |].
    + intros k Hk. rewrite lookup_replicate_2 by lia. destruct (decide (k = Z.to_nat (to + i))) as [->|Hne].
      * rewrite lookup_splice_out by (rewrite ?length_insert, ?length_replicate; lia). apply list_lookup_insert_eq. lia.
      * rewrite lookup_splice_in by (rewrite ?length_insert, ?length_replicate; lia). apply lookup_replicate_2. lia.
    + intros k Hk. rewrite lookup_splice_out by (rewrite ?length_insert, ?length_replicate; lia).
      apply list_lookup_insert_ne. lia.
Qed.

Lemma memset_spec mem to value count :
  0 <= to -> 0 <= count -> to + count <= Z.of_nat (length mem) ->
  memset mem to value count = Some (splice mem (Z.to_nat to) (replicate (Z.to_nat count) (u8 value))).
Proof. intros Ht Hc Hl. unfold memset. rewrite fill_spec by lia. by rewrite Z.add_0_r. Qed.

(** The C string at the start of an object, cut after [n] bytes. *)
Fixpoint c_prefix (n : nat) (l : list Z) : list Z :=
  match n, l with
  | S n', c :: l' => if c =? 0 then [] else c :: c_prefix n' l'
  | _, _ => []
  end.

Lemma rd_drop {A} (l : list A) i c : 0 <= i -> rd l i = Some c -> drop (Z.to_nat i) l = c :: drop (Z.to_nat (i + 1)) l.
Proof.
  intros Hi [_ Hc]%rd_lookup. rewrite (drop_S _ c _ Hc). f_equal. f_equal. lia.
Qed.

Lemma count_bytes_spec n s i r :
  0 <= i -> count_bytes n s i = Some r -> r = i + Z.of_nat (length (c_prefix n (drop (Z.to_nat i) s))).
Proof.
  revert i. induction n as [|n IH]; intros i Hi; cbn [count_bytes c_prefix]; [intros [= <-]; cbn; lia|].
  destruct (rd s i) as [c|] eqn:Ec; [|done]. cbn [mbind option_bind]. rewrite (rd_drop s i c Hi Ec).
  destruct (c =? 0); [intros [= <-]; cbn; lia|]. intros ->%IH; [|lia]. cbn [length]. lia.
Qed.

Lemma count_bytes_total n s i :
  0 <= i -> i + Z.of_nat n <= Z.of_nat (length s) -> exists r, count_bytes n s i = Some r.
Proof.
  revert i. induction n as [|n IH]; intros i Hi Hl; cbn [count_bytes]; [eauto|].
  destruct (rd_Some s i ltac:(lia)) as [c ->]. cbn [mbind option_bind]. destruct (c =? 0); [eauto|]. apply IH; lia.
Qed.

(** [strnlen] on an object that holds [maximum] bytes is the length of its string. *)
Lemma strnlen_spec s maximum :
  0 <= maximum <= Z.of_nat (length s) ->
  strnlen s maximum = Some (Z.of_nat (length (c_prefix (Z.to_nat maximum) s))).
Proof.
  intros Hm. unfold strnlen. destruct (count_bytes_total (Z.to_nat maximum) s 0) as [r Hr]; [lia..|].
  rewrite Hr. apply count_bytes_spec in Hr; [|done]. by rewrite Hr.
Qed.

Lemma compare_strings_spec n a b i :
  0 <= i -> i + Z.of_nat n <= Z.of_nat (length a) -> i + Z.of_nat n <= Z.of_nat (length b) ->
  exists r, compare_strings n a b i = Some r /\
    (r = 0 <-> c_prefix n (drop (Z.to_nat i) a) = c_prefix n (drop (Z.to_nat i) b)).
Proof.
  revert i. induction n as [|n IH]; intros i Hi Ha Hb; cbn [compare_strings c_prefix]; [by exists 0|].
  destruct (rd_Some a i ltac:(lia)) as [x Hx], (rd_Some b i ltac:(lia)) as [y Hy].
  rewrite Hx, Hy, (rd_drop a i x Hi Hx), (rd_drop b i y Hi Hy). cbn [mbind option_bind].
  destruct (Z.eqb_spec x y) as [->|Hne]; cbn [negb orb].
  - destruct (y =? 0); [exists (y - y); split; [done|]; split; [done|lia]|].
    destruct (IH (i + 1)) as (r & Hr & Hr0); [lia..|]. exists r. split; [done|]. rewrite Hr0. split; congruence.
  - eexists. split; [done|]. destruct (Z.eqb_spec x 0), (Z.eqb_spec y 0); split; try lia; congruence.
Qed.

(** [strncmp] is zero exactly on equal strings. *)
Lemma strncmp_spec a b count :
  0 <= count <= Z.of_nat (length a) -> count <= Z.of_nat (length b) ->
  exists r, strncmp a b count = Some r /\ (r = 0 <-> c_prefix (Z.to_nat count) a = c_prefix (Z.to_nat count) b).
Proof. intros Ha Hb. apply (compare_strings_spec (Z.to_nat count) a b 0); lia. Qed.

(** Moving bytes within an object is the same as copying them to a separate
    buffer first and from there to their place, however the two ranges overlap:
    every byte arrives, and no byte outside the destination changes. *)
Theorem memmove_correct mem to from count :
  0 <= to -> 0 <= from -> 0 <= count -> to + count <= Z.of_nat (length mem) -> from + count <= Z.of_nat (length mem) ->
  memmove mem to from count = memcpy (Some (window_of mem (Z.to_nat from) (Z.to_nat count))) mem to 0 count /\
  memmove mem to from count =
    Some (splice mem (Z.to_nat to) (window_of mem (Z.to_nat from) (Z.to_nat count))).
Proof.
  intros Ht Hf Hc H1 H2.
  assert (E : memmove mem to from count = Some (splice mem (Z.to_nat to) (window_of mem (Z.to_nat from) (Z.to_nat count)))).
  { unfold memmove, memcpy. destruct (Z.ltb_spec to from); [|apply copy_down_spec; lia].
    rewrite copy_up_spec by (cbn; lia). by rewrite !Z.add_0_r. }
  split; [|done]. rewrite E, memcpy_spec by (rewrite ?length_window by lia; lia). f_equal. f_equal.
  unfold window_of. rewrite drop_0, take_take. f_equal. lia.
Qed.

Lemma memmove_correct_witness :
  memmove [1; 2; 3; 4; 5] 1 0 4 = memcpy (Some [1; 2; 3; 4]) [1; 2; 3; 4; 5] 1 0 4 /\
  memmove [1; 2; 3; 4; 5] 1 0 4 = Some [1; 1; 2; 3; 4].
Proof. apply (memmove_correct [1; 2; 3; 4; 5] 1 0 4); cbn; lia. Defined.
