(* ===== verification/Sha256.v ===== *)
(** * SHA-256 (kernel/core/sha256.c)

    The context as the code keeps it, and the digest of a whole message after
    FIPS 180-4: the message is padded, cut into blocks and compressed block by
    block. *)

From S2P Require Import Prelude Strings.

Definition NS_SHA256_BLOCK_BYTES : Z := 64.
Abbreviation NS_SHA256_DIGEST_BYTES := 32 (only parsing).

(** [UINT32_C] of <stdint.h>: a constant of 32 bits. *)
Definition UINT32_C (value : Z) : Z := u32 value.

Definition round_constants : list Z :=
  [UINT32_C 0x428a2f98; UINT32_C 0x71374491; UINT32_C 0xb5c0fbcf;
   UINT32_C 0xe9b5dba5; UINT32_C 0x3956c25b; UINT32_C 0x59f111f1;
   UINT32_C 0x923f82a4; UINT32_C 0xab1c5ed5; UINT32_C 0xd807aa98;
   UINT32_C 0x12835b01; UINT32_C 0x243185be; UINT32_C 0x550c7dc3;
   UINT32_C 0x72be5d74; UINT32_C 0x80deb1fe; UINT32_C 0x9bdc06a7;
   UINT32_C 0xc19bf174; UINT32_C 0xe49b69c1; UINT32_C 0xefbe4786;
   UINT32_C 0x0fc19dc6; UINT32_C 0x240ca1cc; UINT32_C 0x2de92c6f;
   UINT32_C 0x4a7484aa; UINT32_C 0x5cb0a9dc; UINT32_C 0x76f988da;
   UINT32_C 0x983e5152; UINT32_C 0xa831c66d; UINT32_C 0xb00327c8;
   UINT32_C 0xbf597fc7; UINT32_C 0xc6e00bf3; UINT32_C 0xd5a79147;
   UINT32_C 0x06ca6351; UINT32_C 0x14292967; UINT32_C 0x27b70a85;
   UINT32_C 0x2e1b2138; UINT32_C 0x4d2c6dfc; UINT32_C 0x53380d13;
   UINT32_C 0x650a7354; UINT32_C 0x766a0abb; UINT32_C 0x81c2c92e;
   UINT32_C 0x92722c85; UINT32_C 0xa2bfe8a1; UINT32_C 0xa81a664b;
   UINT32_C 0xc24b8b70; UINT32_C 0xc76c51a3; UINT32_C 0xd192e819;
   UINT32_C 0xd6990624; UINT32_C 0xf40e3585; UINT32_C 0x106aa070;
   UINT32_C 0x19a4c116; UINT32_C 0x1e376c08; UINT32_C 0x2748774c;
   UINT32_C 0x34b0bcb5; UINT32_C 0x391c0cb3; UINT32_C 0x4ed8aa4a;
   UINT32_C 0x5b9cca4f; UINT32_C 0x682e6ff3; UINT32_C 0x748f82ee;
   UINT32_C 0x78a5636f; UINT32_C 0x84c87814; UINT32_C 0x8cc70208;
   UINT32_C 0x90befffa; UINT32_C 0xa4506ceb; UINT32_C 0xbef9a3f7;
   UINT32_C 0xc67178f2].

Record ns_sha256 := mk_sha { state : list Z; total_bytes : Z; block : list Z; block_bytes : Z }.
Definition eta_sha (c : ns_sha256) : ns_sha256 := mk_sha (state c) (total_bytes c) (block c) (block_bytes c).
#[export] Instance set_state : Setter state.
Proof. mk_setter eta_sha state. Defined.
#[export] Instance set_total_bytes : Setter total_bytes.
Proof. mk_setter eta_sha total_bytes. Defined.
#[export] Instance set_block : Setter block.
Proof. mk_setter eta_sha block. Defined.
#[export] Instance set_block_bytes : Setter block_bytes.
Proof. mk_setter eta_sha block_bytes. Defined.

(** ** The code *)

Definition rotate_right (value amount : Z) : Z :=
  Z.lor (Z.shiftr value amount) (u32 (Z.shiftl value (32 - amount))).

Definition load_be32 (bytes : list Z) (o : Z) : option Z :=
  b0 ← rd bytes o;
  b1 ← rd bytes (o + 1);
  b2 ← rd bytes (o + 2);
  b3 ← rd bytes (o + 3);
  Some (Z.lor (Z.lor (Z.lor (Z.shiftl b0 24) (Z.shiftl b1 16)) (Z.shiftl b2 8)) b3).

Definition store_be32 (bytes : list Z) (o value : Z) : option (list Z) :=
  bytes ← wr bytes o (u8 (Z.shiftr value 24));
  bytes ← wr bytes (o + 1) (u8 (Z.shiftr value 16));
  bytes ← wr bytes (o + 2) (u8 (Z.shiftr value 8));
  wr bytes (o + 3) (u8 value).

(** The first sixteen words of the schedule, written in ascending order. *)
Fixpoint load_words (n : nat) (blk : list Z) (index : Z) (schedule : list Z) : option (list Z) :=
  match n with
  | O => Some schedule
  | S n' =>
    w ← load_be32 blk (index * 4);
    load_words n' blk (index + 1) (schedule ++ [w])
  end.

Fixpoint extend_words (n : nat) (index : Z) (schedule : list Z) : option (list Z) :=
  match n with
  | O => Some schedule
  | S n' =>
    w15 ← rd schedule (index - 15);
    w2 ← rd schedule (index - 2);
    w16 ← rd schedule (index - 16);
    w7 ← rd schedule (index - 7);
    let s0 := Z.lxor (Z.lxor (rotate_right w15 7) (rotate_right w15 18)) (Z.shiftr w15 3) in
    let s1 := Z.lxor (Z.lxor (rotate_right w2 17) (rotate_right w2 19)) (Z.shiftr w2 10) in
    extend_words n' (index + 1) (schedule ++ [u32 (w16 + s0 + w7 + s1)])
  end.

Definition registers : Type := Z * Z * Z * Z * Z * Z * Z * Z.

Fixpoint rounds (n : nat) (index : Z) (schedule : list Z) (regs : registers) : option registers :=
  match n with
  | O => Some regs
  | S n' =>
    let '(a, b, c, d, e, f, g, h) := regs in
    k ← rd round_constants index;
    w ← rd schedule index;
    let sum1 := Z.lxor (Z.lxor (rotate_right e 6) (rotate_right e 11)) (rotate_right e 25) in
    let choice := Z.lxor (Z.land e f) (Z.land (u32 (Z.lnot e)) g) in
    let temporary1 := u32 (h + sum1 + choice + k + w) in
    let sum0 := Z.lxor (Z.lxor (rotate_right a 2) (rotate_right a 13)) (rotate_right a 22) in
    let majority := Z.lxor (Z.lxor (Z.land a b) (Z.land a c)) (Z.land b c) in
    let temporary2 := u32 (sum0 + majority) in
    rounds n' (index + 1) schedule (u32 (temporary1 + temporary2), a, b, c, u32 (d + temporary1), e, f, g)
  end.

Definition compress (context : ns_sha256) (blk : list Z) : option ns_sha256 :=
  match state context with
  | [s0; s1; s2; s3; s4; s5; s6; s7] =>
    schedule ← load_words 16 blk 0 [];
    schedule ← extend_words 48 16 schedule;
    '(a, b, c, d, e, f, g, h) ← rounds 64 0 schedule (s0, s1, s2, s3, s4, s5, s6, s7);
    Some (context <| state := [u32 (s0 + a); u32 (s1 + b); u32 (s2 + c); u32 (s3 + d); u32 (s4 + e);
                               u32 (s5 + f); u32 (s6 + g); u32 (s7 + h)] |>)
  | _ => None
  end.

(** A null context is [None]. *)
Definition ns_sha256_init (context : option ns_sha256) : option ns_sha256 :=
  match context with
  | None => None
  | Some c =>
    Some (c <| state := [0x6a09e667; 0xbb67ae85; 0x3c6ef372; 0xa54ff53a; 0x510e527f; 0x9b05688c;
                         0x1f83d9ab; 0x5be0cd19] |> <| total_bytes := 0 |> <| block_bytes := 0 |>)
  end.

Fixpoint update_loop (fuel : nat) (c : ns_sha256) (data : list Z) (bytes length : Z) : option ns_sha256 :=
  match fuel with
  | O => None
  | S fuel' =>
    if length =? 0 then Some c
    else
      let available := u64 (NS_SHA256_BLOCK_BYTES - block_bytes c) in
      let take := if length <? available then length else available in
      blk ← memcpy (Some data) (block c) (block_bytes c) bytes take;
      let c := c <| block := blk |> <| block_bytes := u64 (block_bytes c + take) |> in
      c ← (if block_bytes c =? NS_SHA256_BLOCK_BYTES
           then c ← compress c (block c); Some (c <| block_bytes := 0 |>)
           else Some c);
      update_loop fuel' c data (bytes + take) (u64 (length - take))
  end.

Definition ns_sha256_update (context : option ns_sha256) (data : option (list Z)) (length : Z) :
    option (option ns_sha256) :=
  match context with
  | None => Some None
  | Some c =>
    match data with
    | None => if negb (length =? 0) then Some (Some c)
              else Some (Some (c <| total_bytes := u64 (total_bytes c + length) |>))
    | Some d =>
      let c := c <| total_bytes := u64 (total_bytes c + length) |> in
      c ← update_loop (S (Z.to_nat length)) c d 0 length;
      Some (Some c)
    end
  end.

Fixpoint store_bits (n : nat) (blk : list Z) (index bits : Z) : option (list Z) :=
  match n with
  | O => Some blk
  | S n' =>
    blk ← wr blk (63 - index) (u8 (Z.shiftr bits (index * 8)));
    store_bits n' blk (index + 1) bits
  end.

Fixpoint store_digest (n : nat) (digest : list Z) (index : Z) (st : list Z) : option (list Z) :=
  match n with
  | O => Some digest
  | S n' =>
    w ← rd st index;
    digest ← store_be32 digest (index * 4) w;
    store_digest n' digest (index + 1) st
  end.

Definition wiped : ns_sha256 := mk_sha (replicate 8 0) 0 (replicate 64 0) 0.

(** The last block, and the digest into [out]. *)
Definition finish (c : ns_sha256) (bits : Z) (out : list Z) : option (option ns_sha256 * option (list Z)) :=
  blk ← memset (block c) (block_bytes c) 0 (u64 (56 - block_bytes c));
  blk ← store_bits 8 blk 0 bits;
  c ← compress (c <| block := blk |>) blk;
  out ← store_digest 8 out 0 (state c);
  Some (Some wiped, Some out).

(** The context and the digest afterwards. *)
Definition ns_sha256_final (context : option ns_sha256) (digest : option (list Z)) :
    option (option ns_sha256 * option (list Z)) :=
  match context, digest with
  | Some c, Some out =>
    let bits := u64 (total_bytes c * 8) in
    blk ← wr (block c) (block_bytes c) 0x80;
    let c := c <| block := blk |> <| block_bytes := u64 (block_bytes c + 1) |> in
    c ← (if 56 <? block_bytes c then
           blk ← memset (block c) (block_bytes c) 0 (u64 (NS_SHA256_BLOCK_BYTES - block_bytes c));
           c ← compress (c <| block := blk |>) blk;
           Some (c <| block_bytes := 0 |>)
         else Some c);
    finish c bits out
  | _, _ => Some (context, digest)
  end.
