(* ===== verification/Sha256Spec.v ===== *)
(** * SHA-256 after FIPS 180-4, and that the compression function computes it

    The standard's functions on 32-bit words, with rotations and big-endian
    words as arithmetic; the message schedule newest word first; padding and
    blocks on the whole message. *)

From S2P Require Import Prelude Strings Sha256.

(** ** The standard *)

Definition rotr (n x : Z) : Z := x / 2 ^ n + x mod 2 ^ n * 2 ^ (32 - n).
Definition Sigma0 (x : Z) : Z := Z.lxor (Z.lxor (rotr 2 x) (rotr 13 x)) (rotr 22 x).
Definition Sigma1 (x : Z) : Z := Z.lxor (Z.lxor (rotr 6 x) (rotr 11 x)) (rotr 25 x).
Definition sigma0 (x : Z) : Z := Z.lxor (Z.lxor (rotr 7 x) (rotr 18 x)) (x / 2 ^ 3).
Definition sigma1 (x : Z) : Z := Z.lxor (Z.lxor (rotr 17 x) (rotr 19 x)) (x / 2 ^ 10).
Definition Ch (x y z : Z) : Z := Z.lxor (Z.land x y) (Z.land (2 ^ 32 - 1 - x) z).
Definition Maj (x y z : Z) : Z := Z.lxor (Z.lxor (Z.land x y) (Z.land x z)) (Z.land y z).

Fixpoint be_decode (l : list Z) : Z :=
  match l with [] => 0 | b :: l' => b * 2 ^ (8 * Z.of_nat (length l')) + be_decode l' end.
Definition be_encode (n : nat) (v : Z) : list Z := reverse (le_encode n v).

Definition words_of (b : list Z) : list Z := (fun i => be_decode (window_of b (4 * i) 4)) <$> seq 0 16.
Fixpoint expand (n : nat) (w : list Z) : list Z :=
  match n with
  | O => w
  | S n' => expand n' (u32 (sigma1 (w !!! 1%nat) + w !!! 6%nat + sigma0 (w !!! 14%nat) + w !!! 15%nat) :: w)
  end.
Definition schedule_of (b : list Z) : list Z := reverse (expand 48 (reverse (words_of b))).

Definition round (r : registers) (kw : Z * Z) : registers :=
  let '(a, b, c, d, e, f, g, h) := r in
  let t1 := h + Sigma1 e + Ch e f g + kw.1 + kw.2 in
  let t2 := Sigma0 a + Maj a b c in
  (u32 (t1 + t2), a, b, c, u32 (d + t1), e, f, g).

Definition regs_of (H : list Z) : registers :=
  (H !!! 0%nat, H !!! 1%nat, H !!! 2%nat, H !!! 3%nat, H !!! 4%nat, H !!! 5%nat, H !!! 6%nat, H !!! 7%nat).
Definition add_regs (H : list Z) (r : registers) : list Z :=
  let '(a, b, c, d, e, f, g, h) := r in zip_with (fun x y => u32 (x + y)) H [a; b; c; d; e; f; g; h].

(** The constants: the first 32 bits of the fractional parts of the cube roots,
    and of the square roots, of the first primes. *)
Definition primeb (n : nat) : bool := forallb (fun k => negb (n mod k =? 0)%nat) (seq 2 (n - 2)).
Definition primes (n : nat) : list Z := Z.of_nat <$> take n (List.filter primeb (seq 2 310)).
Definition root (e n : Z) : Z :=
  fold_left (fun r i => let c := r + 2 ^ Z.of_nat i in if c ^ e <=? n then c else r) (reverse (seq 0 40)) 0.
Definition fraction (e p : Z) : Z := root e (p * 2 ^ (32 * e)) mod 2 ^ 32.
Definition K256 : list Z := Eval vm_compute in (fraction 3 <$> primes 64).
Definition IV : list Z := Eval vm_compute in (fraction 2 <$> primes 8).

Definition compression (H b : list Z) : list Z :=
  add_regs H (fold_left round (zip K256 (schedule_of b)) (regs_of H)).

Fixpoint hash (n : nat) (H msg : list Z) : list Z :=
  match n with O => H | S n' => hash n' (compression H (take 64 msg)) (drop 64 msg) end.

Definition pad (msg : list Z) : list Z :=
  let l := Z.of_nat (length msg) in
  msg ++ [0x80] ++ replicate (Z.to_nat ((55 - l) mod 64)) 0 ++ be_encode 8 (8 * l).

Definition sha256 (msg : list Z) : list Z :=
  concat (be_encode 4 <$> hash (length (pad msg) / 64) IV (pad msg)).

(** The code's tables are those constants. *)
Lemma round_constants_K256 : round_constants = K256.
Proof. vm_compute. reflexivity. Qed.
Lemma IV_value :
  IV = [0x6a09e667; 0xbb67ae85; 0x3c6ef372; 0xa54ff53a; 0x510e527f; 0x9b05688c; 0x1f83d9ab; 0x5be0cd19].
Proof. vm_compute. reflexivity. Qed.

(** ** Words *)

(** Joining disjoint bits is addition. *)
Lemma lor_add a b k : 0 <= k -> 0 <= b < 2 ^ k -> Z.lor (a * 2 ^ k) b = a * 2 ^ k + b.
Proof.
  intros Hk Hb. assert (Hd : Z.land (a * 2 ^ k) b = 0).
  { apply Z.bits_inj'. intros i Hi. rewrite Z.land_spec, Z.bits_0. destruct (Z.ltb_spec i k).
    - by rewrite Z.mul_pow2_bits_low.
    - destruct (Z.eq_dec b 0) as [->|]; [by rewrite Z.bits_0, andb_false_r|].
      rewrite (Z.bits_above_log2 b i), andb_false_r; [done|lia|].
      assert (Z.log2 b < k) by (apply Z.log2_lt_pow2; lia). lia. }
  rewrite <- Z.lxor_lor, Z.add_nocarry_lxor by done. done.
Qed.

Lemma rotate_right_rotr x n : is_u32 x -> 0 < n < 32 -> rotate_right x n = rotr n x.
Proof.
  intros Hx Hn. unfold rotate_right, rotr, u32. rewrite Z.shiftr_div_pow2, Z.shiftl_mul_pow2 by lia.
  replace (2 ^ 32) with (2 ^ n * 2 ^ (32 - n)) by (rewrite <- Z.pow_add_r by lia; f_equal; lia).
  assert (0 < 2 ^ n) by (apply Z.pow_pos_nonneg; lia). assert (0 < 2 ^ (32 - n)) by (apply Z.pow_pos_nonneg; lia).
  rewrite Z.mul_mod_distr_r by lia. rewrite Z.lor_comm, lor_add; [lia|lia|].
  split; [apply Z.div_pos; lia|]. apply Z.div_lt_upper_bound; [lia|].
  rewrite <- Z.pow_add_r by lia. replace (n + (32 - n)) with 32 by lia. lia.
Qed.

Lemma lnot_u32 x : is_u32 x -> u32 (Z.lnot x) = 2 ^ 32 - 1 - x.
Proof.
  intros Hx. unfold u32, Z.lnot. rewrite <- (Z.mod_add _ 1) by lia. rewrite Z.mod_small by lia. lia.
Qed.

Lemma load_be32_spec b o :
  0 <= o -> o + 4 <= Z.of_nat (length b) -> Forall (fun x => is_u8 x) b ->
  load_be32 b o = Some (be_decode (window_of b (Z.to_nat o) 4)) /\ is_u32 (be_decode (window_of b (Z.to_nat o) 4)).
Proof.
  intros Ho Hl Hb. unfold load_be32.
  destruct (rd_Some b o) as [b0 E0], (rd_Some b (o + 1)) as [b1 E1], (rd_Some b (o + 2)) as [b2 E2], (rd_Some b (o + 3)) as [b3 E3]; [lia..|].
  rewrite E0, E1, E2, E3. cbn [mbind option_bind].
  assert (Hw : window_of b (Z.to_nat o) 4 = [b0; b1; b2; b3]).
  { unfold window_of. rewrite (rd_drop b o b0), (rd_drop b (o + 1) b1), (rd_drop b (o + 1 + 1) b2), (rd_drop b (o + 1 + 1 + 1) b3)
      by (lia || (rewrite <- ?E1, <- ?E2, <- ?E3; f_equal; lia) || done). done. }
  assert (Hr : forall i x, rd b i = Some x -> is_u8 x).
  { intros i x [_ Hx]%rd_lookup. by eapply (Forall_lookup_1 (fun x => is_u8 x)). }
  apply Hr in E0, E1, E2, E3. rewrite Hw. cbn [be_decode length].
  rewrite !Z.shiftl_mul_pow2 by lia. 
  rewrite (lor_add b0 (b1 * 2 ^ 16) 24) by lia.
  replace (b0 * 2 ^ 24 + b1 * 2 ^ 16) with ((b0 * 2 ^ 8 + b1) * 2 ^ 16) by lia. rewrite (lor_add _ (b2 * 2 ^ 8) 16) by lia.
  replace ((b0 * 2 ^ 8 + b1) * 2 ^ 16 + b2 * 2 ^ 8) with ((b0 * 2 ^ 16 + b1 * 2 ^ 8 + b2) * 2 ^ 8) by lia.
  rewrite (lor_add _ b3 8) by lia. split; [f_equal|]; lia.
Qed.

(** ** The compression function *)

Definition is_word (x : Z) : Prop := is_u32 x.
Definition is_byte (x : Z) : Prop := is_u8 x.

Lemma load_words_spec n b i sched :
  Forall is_byte b -> (4 * (i + n) <= length b)%nat ->
  load_words n b (Z.of_nat i) sched = Some (sched ++ ((fun i => be_decode (window_of b (4 * i) 4)) <$> seq i n)) /\
  Forall is_word ((fun i => be_decode (window_of b (4 * i) 4)) <$> seq i n).
Proof.
  intros Hb. revert i sched. induction n as [|n IH]; intros i sched Hl; cbn [load_words seq fmap list_fmap].
  - by rewrite app_nil_r.
  - destruct (load_be32_spec b (Z.of_nat i * 4)) as [-> Hw]; [lia|lia|done|]. cbn [mbind option_bind].
    replace (Z.to_nat (Z.of_nat i * 4)) with (4 * i)%nat in * by lia. replace (Z.of_nat i + 1) with (Z.of_nat (S i)) by lia.
    destruct (IH (S i) (sched ++ [be_decode (window_of b (4 * i) 4)])) as [-> Hws]; [lia|].
    rewrite <- app_assoc. split; [done|]. by constructor.
Qed.

Lemma rd_reverse (w : list Z) k : (k < length w)%nat -> rd (reverse w) (Z.of_nat (length w) - 1 - Z.of_nat k) = Some (w !!! k).
Proof.
  intros Hk. apply rd_lookup. split; [lia|]. rewrite reverse_lookup by lia.
  replace (length w - S (Z.to_nat (Z.of_nat (length w) - 1 - Z.of_nat k)))%nat with k by lia.
  by apply list_lookup_lookup_total_lt.
Qed.

Lemma extend_words_spec n w :
  (16 <= length w)%nat -> Forall is_word w ->
  extend_words n (Z.of_nat (length w)) (reverse w) = Some (reverse (expand n w)) /\
  Forall is_word (expand n w) /\ length (expand n w) = (n + length w)%nat.
Proof.
  revert w. induction n as [|n IH]; intros w Hl Hw; cbn [extend_words expand]; [done|].
  pose proof (rd_reverse w 14 ltac:(lia)) as E14. pose proof (rd_reverse w 1 ltac:(lia)) as E1.
  pose proof (rd_reverse w 15 ltac:(lia)) as E15. pose proof (rd_reverse w 6 ltac:(lia)) as E6.
  replace (Z.of_nat (length w) - 15) with (Z.of_nat (length w) - 1 - Z.of_nat 14) by lia.
  replace (Z.of_nat (length w) - 2) with (Z.of_nat (length w) - 1 - Z.of_nat 1) by lia.
  replace (Z.of_nat (length w) - 16) with (Z.of_nat (length w) - 1 - Z.of_nat 15) by lia.
  replace (Z.of_nat (length w) - 7) with (Z.of_nat (length w) - 1 - Z.of_nat 6) by lia.
  rewrite E14, E1, E15, E6. cbn [mbind option_bind].
  assert (Hwk : forall k, (k < length w)%nat -> is_u32 (w !!! k)).
  { intros k Hk. by apply (Forall_lookup_total_1 is_word w k). }
  pose proof (Hwk 14%nat ltac:(lia)). pose proof (Hwk 1%nat ltac:(lia)).
  rewrite !rotate_right_rotr, !Z.shiftr_div_pow2 by lia. rewrite <- reverse_cons.
  set (v := u32 _). set (v' := u32 _). assert (v = v') as -> by (unfold v, v', sigma0, sigma1; f_equal; lia).
  destruct (IH (v' :: w)) as (E & Hf & Hle); [cbn; lia|constructor; [apply u32_range|done]|].
  cbn [length] in *. replace (Z.of_nat (length w) + 1) with (Z.of_nat (S (length w))) by lia.
  rewrite E. split_and!; [done..|lia].
Qed.

Ltac solve_words := repeat (apply Forall_cons_2; [first [done|apply u32_range]|]); apply Forall_nil_2.

Definition regs_ok (r : registers) : Prop :=
  let '(a, b, c, d, e, f, g, h) := r in Forall is_word [a; b; c; d; e; f; g; h].

Lemma rounds_spec n i (W : list Z) r :
  length W = 64%nat -> (i + n = 64)%nat -> regs_ok r ->
  rounds n (Z.of_nat i) W r = Some (fold_left round (zip (drop i round_constants) (drop i W)) r).
Proof.
  intros HW. revert i r. induction n as [|n IH]; intros i r Hi Hr.
  - rewrite (drop_ge W) by lia. by rewrite zip_with_nil_r.
  - cbn [rounds]. destruct r as [[[[[[[a b] c] d] e] f] g] h].
    assert (HK : length round_constants = 64%nat) by done.
    destruct (rd_Some round_constants (Z.of_nat i)) as [k Hk]; [lia|]. destruct (rd_Some W (Z.of_nat i)) as [w Hw]; [lia|].
    rewrite Hk, Hw. cbn [mbind option_bind]. pose proof (rd_drop _ _ _ (Zle_0_nat i) Hk) as Dk.
    pose proof (rd_drop _ _ _ (Zle_0_nat i) Hw) as Dw. rewrite Nat2Z.id in Dk, Dw.
    replace (Z.to_nat (Z.of_nat i + 1)) with (S i) in * by lia. rewrite Dk, Dw. cbn [zip_with fold_left].
    replace (Z.of_nat i + 1) with (Z.of_nat (S i)) by lia.
    unfold regs_ok in Hr. rewrite !Forall_cons in Hr. destruct Hr as (Ha & Hb & Hc & Hd & He & Hf & Hg & Hh & _).
    unfold is_word in *. rewrite !rotate_right_rotr, lnot_u32 by lia. rewrite IH.
    + f_equal. f_equal. unfold round. cbn [fst snd]. fold (Sigma1 e) (Sigma0 a) (Ch e f g) (Maj a b c).
      by rewrite u32_add_l, !u32_add_r.
    + lia.
    + unfold regs_ok. solve_words.
Qed.

Lemma rounds_all (W : list Z) r :
  length W = 64%nat -> regs_ok r -> rounds 64 0 W r = Some (fold_left round (zip round_constants W) r).
Proof.
  intros HW Hr. pose proof (rounds_spec 64 0 W r HW eq_refl Hr) as H. rewrite !drop_0 in H. exact H.
Qed.

(** A chaining value. *)
Definition hash_ok (H : list Z) : Prop := length H = 8%nat /\ Forall is_word H.

Lemma schedule_spec b :
  length b = 64%nat -> Forall is_byte b ->
  exists w, load_words 16 b 0 [] = Some w /\ extend_words 48 16 w = Some (schedule_of b) /\
    length (schedule_of b) = 64%nat.
Proof.
  intros Hb Hbb. destruct (load_words_spec 16 b 0 [] Hbb) as [E Hws]; [lia|]. exists (words_of b). split; [exact E|].
  destruct (extend_words_spec 48 (reverse (words_of b))) as (E' & Hf & Hle); [done|by apply Forall_reverse|].
  rewrite reverse_involutive in E'. unfold schedule_of. rewrite length_reverse, Hle. split; [exact E'|done].
Qed.

Lemma compress_spec c b :
  hash_ok (state c) -> length b = 64%nat -> Forall is_byte b ->
  compress c b = Some (c <| state := compression (state c) b |>).
Proof.
  intros [Hl Hw] Hb Hbb. unfold compress. destruct (state c) as [|h0 [|h1 [|h2 [|h3 [|h4 [|h5 [|h6 [|h7 [|]]]]]]]]]; try done.
  destruct (schedule_spec b Hb Hbb) as (w & E & E' & HW).
  rewrite (opt_bind _ _ _ E), (opt_bind _ _ _ E'), (opt_bind _ _ _ (rounds_all _ (h0, h1, h2, h3, h4, h5, h6, h7) HW Hw)).
  unfold compression. rewrite <- round_constants_K256. change (regs_of [h0; h1; h2; h3; h4; h5; h6; h7]) with (h0, h1, h2, h3, h4, h5, h6, h7).
  generalize (fold_left round (zip round_constants (schedule_of b)) (h0, h1, h2, h3, h4, h5, h6, h7)).
  by intros [[[[[[[x1 x2] x3] x4] x5] x6] x7] x8].
Qed.

Lemma compression_ok H b : hash_ok H -> hash_ok (compression H b).
Proof.
  intros [Hl Hw]. destruct H as [|h0 [|h1 [|h2 [|h3 [|h4 [|h5 [|h6 [|h7 [|]]]]]]]]]; try done. unfold compression.
  generalize (fold_left round (zip K256 (schedule_of b)) (regs_of [h0; h1; h2; h3; h4; h5; h6; h7])).
  intros [[[[[[[x1 x2] x3] x4] x5] x6] x7] x8]. split; [done|]. cbn [add_regs zip_with]. solve_words.
Qed.

(** ** Messages block by block *)

Lemma hash_ok_hash n H msg : hash_ok H -> hash_ok (hash n H msg).
Proof. revert H msg. induction n as [|n IH]; intros H msg HH; [done|]. by apply IH, compression_ok. Qed.

Lemma hash_app n m H a b : length a = (64 * n)%nat -> hash (n + m) H (a ++ b) = hash m (hash n H a) b.
Proof.
  revert H a. induction n as [|n IH]; intros H a Ha; cbn [hash Nat.add]; [by destruct a|].
  rewrite take_app_le, drop_app_le by lia. apply IH. rewrite length_drop. lia.
Qed.

Lemma hash_one H b : length b = 64%nat -> hash 1 H b = compression H b.
Proof. intros Hb. cbn [hash]. rewrite take_ge by lia. reflexivity. Qed.
