(* ===== verification/Sha256Theorems.v ===== *)
(** * The incremental SHA-256 computes the standard's digest *)

From S2P Require Import Prelude Strings Sha256 Sha256Spec.

#[local] Opaque compression.

(** ** The buffered context *)

(** The context has taken in [msg]: whole blocks are in the chaining value, the
    rest is at the start of the block buffer. *)
Definition buffered (c : ns_sha256) (msg : list Z) : Prop :=
  exists q head tail, msg = head ++ tail /\ length head = (64 * q)%nat /\ (length tail < 64)%nat /\
    Forall is_byte msg /\ state c = hash q IV head /\ block_bytes c = Z.of_nat (length tail) /\
    length (block c) = 64%nat /\ take (length tail) (block c) = tail.

Lemma IV_ok : hash_ok IV.
Proof. rewrite IV_value. split; [done|]. repeat (apply Forall_cons_2; [unfold is_word; lia|]). apply Forall_nil_2. Qed.

(** One turn of the loop. *)
Lemma buffered_push c msg t :
  buffered c msg -> Forall is_byte t -> block_bytes c + Z.of_nat (length t) <= 64 ->
  let c1 := c <| block := splice (block c) (Z.to_nat (block_bytes c)) t |>
              <| block_bytes := block_bytes c + Z.of_nat (length t) |> in
  exists c2, (if block_bytes c1 =? NS_SHA256_BLOCK_BYTES
              then c ← compress c1 (block c1); Some (c <| block_bytes := 0 |>) else Some c1) = Some c2 /\
    buffered c2 (msg ++ t) /\ total_bytes c2 = total_bytes c.
Proof.
  intros (q & head & tail & -> & Hh & Ht & Hby & Hs & Hbb & Hlb & Htk) Hbt Hfit. rewrite Hbb, Nat2Z.id in *. intros c1.
  assert (Hlen : length (splice (block c) (length tail) t) = 64%nat) by (rewrite length_splice; lia).
  assert (Htake : take (length (tail ++ t)) (splice (block c) (length tail) t) = tail ++ t).
  { rewrite length_app, take_splice, Htk by lia. done. }
  assert (Hall : Forall is_byte ((head ++ tail) ++ t)) by (by apply Forall_app).
  destruct (Z.eqb_spec (block_bytes c1) NS_SHA256_BLOCK_BYTES) as [E|E]; cbn in E; unfold NS_SHA256_BLOCK_BYTES in E.
  - assert (Hb : block c1 = tail ++ t) by (cbn; rewrite <- Htake, take_ge; [done|rewrite length_app; lia]).
    assert (Hl : length (tail ++ t) = 64%nat) by (rewrite length_app; lia).
    rewrite Hb. rewrite compress_spec; cycle 1.
    + cbn. rewrite Hs. apply hash_ok_hash, IV_ok.
    + done.
    + rewrite <- app_assoc, Forall_app in Hall. apply Hall.
    + eexists. split; [done|]. split; [|done]. exists (q + 1)%nat, (head ++ tail ++ t), []. cbn [length take].
      rewrite app_nil_r. split_and!; [by rewrite app_assoc|rewrite !length_app; rewrite length_app in Hl; lia|lia|done| |done|done|done].
      cbn. rewrite (hash_app q 1), hash_one, Hs by done. reflexivity.
  - exists c1. split; [done|]. split; [|done]. exists q, head, (tail ++ t). rewrite length_app in *.
    split_and!; [by rewrite app_assoc|done|lia|done|done|cbn; lia|done|done].
Qed.

(** The loop takes in its data; it turns at most once per byte. *)
Lemma update_loop_spec fuel c msg data bytes len :
  buffered c msg -> Forall is_byte data -> 0 <= bytes -> 0 <= len < 2 ^ 64 -> bytes + len <= Z.of_nat (length data) ->
  (Z.to_nat len < fuel)%nat ->
  exists c', update_loop fuel c data bytes len = Some c' /\
    buffered c' (msg ++ window_of data (Z.to_nat bytes) (Z.to_nat len)) /\ total_bytes c' = total_bytes c.
Proof.
  revert c msg bytes len. induction fuel as [|fuel IH]; intros c msg bytes len Hc Hd Hb Hl Hfit Hfuel; [lia|].
  cbn [update_loop]. destruct (Z.eqb_spec len 0) as [->|Hne].
  { exists c. split; [done|]. unfold window_of. rewrite take_0, app_nil_r. done. }
  assert (Hbb : 0 <= block_bytes c < 64 /\ length (block c) = 64%nat).
  { destruct Hc as (q & head & tail & _ & _ & Ht & _ & _ & -> & Hlb & _). lia. }
  destruct Hbb as [Hbb Hlb]. set (avail := u64 (NS_SHA256_BLOCK_BYTES - block_bytes c)).
  assert (Hav : avail = 64 - block_bytes c) by (apply u64_small; unfold NS_SHA256_BLOCK_BYTES; lia).
  set (tk := if len <? avail then len else avail).
  assert (Htk : 0 < tk <= len /\ block_bytes c + tk <= 64) by (unfold tk; destruct (Z.ltb_spec len avail); lia).
  clearbody tk. rewrite memcpy_spec by lia. cbn [mbind option_bind]. rewrite (u64_small (block_bytes c + tk)), (u64_small (len - tk)) by lia.
  set (t := window_of data (Z.to_nat bytes) (Z.to_nat tk)).
  assert (Hlt : Z.of_nat (length t) = tk) by (unfold t; rewrite length_window; lia).
  destruct (buffered_push c msg t) as (c2 & E & Hc2 & Htot); [done|by apply Forall_take, Forall_drop|lia|].
  rewrite Hlt in E. rewrite (opt_bind _ _ _ E).
  destruct (IH c2 (msg ++ t) (bytes + tk) (len - tk)) as (c' & -> & Hc' & Htot'); [done|done|lia..|].
  exists c'. split; [done|]. split; [|congruence]. replace (msg ++ window_of data (Z.to_nat bytes) (Z.to_nat len))
    with ((msg ++ t) ++ window_of data (Z.to_nat (bytes + tk)) (Z.to_nat (len - tk))); [done|].
  rewrite <- app_assoc. f_equal. unfold t. rewrite Z2Nat.inj_add, window_app by lia. f_equal. lia.
Qed.

(** ** The end of the message *)

Lemma length_be_encode n v : length (be_encode n v) = n.
Proof. unfold be_encode. by rewrite length_reverse, length_le_encode. Qed.

Lemma be_encode_S n v : be_encode (S n) v = be_encode n (Z.shiftr v 8) ++ [u8 v].
Proof. unfold be_encode. cbn [le_encode]. apply reverse_cons. Qed.

Lemma store_bits_spec n blk index bits :
  length blk = 64%nat -> 0 <= index -> index + Z.of_nat n = 8 ->
  store_bits n blk index bits = Some (splice blk 56 (be_encode n (Z.shiftr bits (index * 8)))).
Proof.
  revert blk index. induction n as [|n IH]; intros blk index Hl Hi Hn; cbn [store_bits].
  - change (be_encode 0 (Z.shiftr bits (index * 8))) with (@nil Z). by rewrite splice_nil.
  - rewrite wr_Some by lia. cbn [mbind option_bind]. rewrite IH by (rewrite ?length_insert; lia). f_equal.
    rewrite be_encode_S, Z.shiftr_shiftr by lia. replace (index * 8 + 8) with ((index + 1) * 8) by lia.
    rewrite splice_insert by lia. pose proof (length_be_encode n (Z.shiftr bits ((index + 1) * 8))) as Hb.
    replace (Z.to_nat (63 - index)) with (56 + length (be_encode n (Z.shiftr bits ((index + 1) * 8))))%nat by lia.
    apply splice_splice. cbn [length]. lia.
Qed.

Lemma store_be32_spec out o v :
  0 <= o -> o + 4 <= Z.of_nat (length out) -> store_be32 out o v = Some (splice out (Z.to_nat o) (be_encode 4 v)).
Proof.
  intros Ho Hl. unfold store_be32. rewrite !be_encode_S, !Z.shiftr_shiftr by lia. cbn [be_encode le_encode reverse app Z.add Pos.add].
  repeat (rewrite wr_Some by (rewrite ?length_insert; lia); cbn [mbind option_bind]). f_equal.
  replace (Z.to_nat (o + 1)) with (Z.to_nat o + 1)%nat by lia. replace (Z.to_nat (o + 2)) with (Z.to_nat o + 2)%nat by lia.
  replace (Z.to_nat (o + 3)) with (Z.to_nat o + 3)%nat by lia. rewrite !splice_insert by (rewrite ?length_insert; lia).
  rewrite (proj1 (splice_splice out (Z.to_nat o) [u8 (Z.shiftr v 24)] [_] ltac:(cbn; lia))). cbn [app].
  rewrite (proj1 (splice_splice out (Z.to_nat o) [u8 (Z.shiftr v 24); _] [_] ltac:(cbn; lia))). cbn [app].
  rewrite (proj1 (splice_splice out (Z.to_nat o) [u8 (Z.shiftr v 24); _; _] [_] ltac:(cbn; lia))). done.
Qed.

Lemma length_words l : length (concat (be_encode 4 <$> l)) = (4 * length l)%nat.
Proof.
  induction l as [|x l IH]; [done|]. rewrite fmap_cons. cbn [concat length]. rewrite length_app, length_be_encode, IH. lia.
Qed.

Lemma store_digest_spec n out index st :
  (index + n = length st)%nat -> (4 * length st <= length out)%nat ->
  store_digest n out (Z.of_nat index) st =
    Some (splice out (4 * index) (concat (be_encode 4 <$> drop index st))).
Proof.
  revert out index. induction n as [|n IH]; intros out index Hn Hl; cbn [store_digest].
  - rewrite drop_ge by lia. cbn [fmap list_fmap concat]. by rewrite splice_nil.
  - destruct (rd_Some st (Z.of_nat index)) as [w Hw]; [lia|]. rewrite Hw. cbn [mbind option_bind].
    rewrite store_be32_spec by lia. cbn [mbind option_bind]. pose proof (length_be_encode 4 w) as Hb.
    replace (Z.of_nat index + 1) with (Z.of_nat (S index)) by lia.
    assert (Hd : drop index st = w :: drop (S index) st).
    { pose proof (rd_drop st _ w (Zle_0_nat index) Hw) as Hd. rewrite Nat2Z.id in Hd. rewrite Hd. f_equal. f_equal. lia. }
    rewrite IH by (rewrite ?length_splice by lia; lia). f_equal. rewrite Hd, fmap_cons. cbn [concat].
    replace (Z.to_nat (Z.of_nat index * 4)) with (4 * index)%nat by lia.
    replace (4 * S index)%nat with (4 * index + length (be_encode 4 w))%nat by lia. apply splice_splice.
    rewrite length_words, length_drop. lia.
Qed.

(** The last blocks: what is left of the message, its end mark, zeros and its
    length in bits. *)
Lemma sha256_last q head tail :
  length head = (64 * q)%nat -> (length tail < 64)%nat ->
  let bits := be_encode 8 (8 * Z.of_nat (length (head ++ tail))) in
  sha256 (head ++ tail) = concat (be_encode 4 <$>
    if (length tail <=? 55)%nat then compression (hash q IV head) (tail ++ [0x80] ++ replicate (55 - length tail) 0 ++ bits)
    else compression (compression (hash q IV head) (tail ++ [0x80] ++ replicate (63 - length tail) 0)) (replicate 56 0 ++ bits)).
Proof.
  intros Hh Ht bits. unfold sha256. f_equal. f_equal. assert (Hb : length bits = 8%nat) by apply length_be_encode.
  unfold pad. fold bits. set (z := Z.to_nat _). rewrite <- app_assoc.
  assert (Hmod : z = if (length tail <=? 55)%nat then (55 - length tail)%nat else (119 - length tail)%nat).
  { unfold z. rewrite length_app, Hh. destruct (Nat.leb_spec (length tail) 55).
    - replace (55 - Z.of_nat (64 * q + length tail)) with (55 - Z.of_nat (length tail) + (- Z.of_nat q) * 64) by lia.
      rewrite Z.mod_add, Z.mod_small by lia. lia.
    - replace (55 - Z.of_nat (64 * q + length tail)) with (119 - Z.of_nat (length tail) + (- Z.of_nat q - 1) * 64) by lia.
      rewrite Z.mod_add, Z.mod_small by lia. lia. }
  clearbody z bits. destruct (Nat.leb_spec (length tail) 55) as [Hle|Hgt].
  - assert (El : length (head ++ tail ++ [0x80] ++ replicate z 0 ++ bits) = ((q + 1) * 64)%nat).
    { rewrite !length_app, length_replicate, Hb, Hh. cbn [length]. lia. }
    rewrite El, Nat.div_mul, hash_app, Hmod by done. apply hash_one.
    rewrite !length_app, length_replicate, Hb. cbn [length]. lia.
  - assert (El : length (head ++ tail ++ [0x80] ++ replicate z 0 ++ bits) = ((q + (1 + 1)) * 64)%nat).
    { rewrite !length_app, length_replicate, Hb, Hh. cbn [length]. lia. }
    rewrite El, Nat.div_mul, hash_app by done. replace z with (63 - length tail + 56)%nat by lia. rewrite replicate_add.
    replace (tail ++ [0x80] ++ (replicate (63 - length tail) 0 ++ replicate 56 0) ++ bits)
      with ((tail ++ [0x80] ++ replicate (63 - length tail) 0) ++ (replicate 56 0 ++ bits)) by (by rewrite <- !app_assoc).
    assert (El2 : length (tail ++ [0x80] ++ replicate (63 - length tail) 0) = 64%nat).
    { rewrite !length_app, length_replicate. cbn [length]. lia. }
    rewrite hash_app, !hash_one by first [exact El2|by rewrite length_app, length_replicate, Hb]. reflexivity.
Qed.

Lemma le_encode_byte n v : Forall is_byte (be_encode n v).
Proof. apply Forall_reverse, le_encode_bytes. Qed.

Lemma zeros_byte n : Forall is_byte (replicate n 0).
Proof. apply Forall_replicate. unfold is_byte. lia. Qed.

Lemma finish_spec c bits out p :
  hash_ok (state c) -> length (block c) = 64%nat -> (length p <= 56)%nat -> block_bytes c = Z.of_nat (length p) ->
  take (length p) (block c) = p -> Forall is_byte p -> (32 <= length out)%nat ->
  finish c bits out = Some (Some wiped, Some (splice out 0 (concat (be_encode 4 <$>
    compression (state c) (p ++ replicate (56 - length p) 0 ++ be_encode 8 bits))))).
Proof.
  intros Hs Hlb Hp Hbb Htk Hby Ho. unfold finish. rewrite Hbb, (u64_small (56 - _)) by lia.
  rewrite memset_spec by lia. cbn [mbind option_bind]. replace (u8 0) with 0 by done.
  replace (Z.to_nat (56 - Z.of_nat (length p))) with (56 - length p)%nat by lia. rewrite Nat2Z.id.
  rewrite store_bits_spec by (rewrite ?length_splice by (rewrite length_replicate; lia); lia). cbn [mbind option_bind].
  rewrite Z.shiftr_0_r. set (z := replicate _ _). assert (Hz : length z = (56 - length p)%nat) by apply length_replicate.
  pose proof (length_be_encode 8 bits) as H8. replace 56%nat with (length p + length z)%nat by lia.
  rewrite (proj1 (splice_splice (block c) (length p) z (be_encode 8 bits) ltac:(lia))).
  rewrite splice_end, Htk by (rewrite length_app; lia).
  assert (Hl : length (p ++ z ++ be_encode 8 bits) = 64%nat) by (rewrite !length_app; lia).
  erewrite opt_bind; [|apply compress_spec; [exact Hs|exact Hl|]].
  2: { apply Forall_app_2; [done|]. apply Forall_app_2; [apply zeros_byte|apply le_encode_byte]. }
  set (H := compression _ _). assert (HH : hash_ok H) by (by apply compression_ok).
  change (state _) with H. pose proof (store_digest_spec 8 out 0 H) as Hd. rewrite (proj1 HH) in Hd.
  rewrite (opt_bind _ _ _ (Hd eq_refl Ho)). done.
Qed.

(** Finishing a context that has taken in [msg]. *)
Lemma final_spec c msg out :
  buffered c msg -> total_bytes c = Z.of_nat (length msg) -> Z.of_nat (length msg) < 2 ^ 61 -> (32 <= length out)%nat ->
  ns_sha256_final (Some c) (Some out) = Some (Some wiped, Some (splice out 0 (sha256 msg))).
Proof.
  intros (q & head & tail & -> & Hh & Ht & Hby & Hs & Hbb & Hlb & Htk) Htot Hlt Ho.
  pose proof (sha256_last q head tail Hh Ht) as Hsha. cbn zeta in Hsha. rewrite Hsha. clear Hsha.
  unfold ns_sha256_final. rewrite Htot, (Z.mul_comm _ 8). rewrite (u64_small (8 * _)) by lia.
  set (bits := 8 * _). clearbody bits. apply Forall_app in Hby as [_ Hby]. rewrite Hbb, wr_Some by lia.
  rewrite Nat2Z.id, splice_insert, (u64_small (_ + 1)) by lia. cbn [mbind option_bind].
  assert (Hhash : hash_ok (state c)) by (rewrite Hs; apply hash_ok_hash, IV_ok).
  set (c1 := c <| block := _ |> <| block_bytes := _ |>).
  assert (Hl1 : length (tail ++ [0x80]) = S (length tail)) by (rewrite length_app; cbn; lia).
  assert (Htk1 : take (length (tail ++ [0x80])) (block c1) = tail ++ [0x80]).
  { rewrite length_app. change (block c1) with (splice (block c) (length tail) [0x80]). by rewrite take_splice, Htk by lia. }
  assert (Hlb1 : length (block c1) = 64%nat) by (rewrite <- Hlb; apply length_splice; cbn; lia).
  assert (Hby1 : Forall is_byte (tail ++ [0x80])) by (apply Forall_app_2; [done|by repeat constructor]).
  assert (Hbb1 : block_bytes c1 = Z.of_nat (length (tail ++ [0x80]))) by (rewrite Hl1; cbn; lia).
  rewrite Hbb1. destruct (Nat.leb_spec (length tail) 55) as [Hle|Hgt].
  - rewrite (proj2 (Z.ltb_ge 56 _)) by lia. cbn [mbind option_bind].
    rewrite (finish_spec c1 bits out (tail ++ [0x80])) by (done || lia).
    rewrite <- Hs, Hl1, <- app_assoc. do 6 f_equal.
  - rewrite (proj2 (Z.ltb_lt 56 _)) by lia. unfold NS_SHA256_BLOCK_BYTES. rewrite (u64_small (64 - _)) by lia.
    rewrite memset_spec by lia. rewrite Nat2Z.id. cbn [mbind option_bind]. rewrite splice_end, Htk1
      by (rewrite length_replicate; lia).
    replace (Z.to_nat (64 - Z.of_nat (length (tail ++ [0x80])))) with (63 - length tail)%nat by lia.
    rewrite <- app_assoc. change (u8 0) with 0. set (b1 := tail ++ [0x80] ++ replicate (63 - length tail) 0).
    assert (Hb1 : length b1 = 64%nat) by (unfold b1; rewrite !length_app, length_replicate; cbn; lia).
    assert (Hby2 : Forall is_byte b1) by (unfold b1; rewrite app_assoc; apply Forall_app_2; [done|apply zeros_byte]).
    erewrite opt_bind; [|erewrite opt_bind; [|by apply compress_spec]; reflexivity].
    rewrite (finish_spec _ bits out []); [|by apply compression_ok|done|cbn; lia|done|done|done|done].
    by rewrite <- Hs.
Qed.

(** ** Streaming *)

(** A message handed over in pieces. *)
Fixpoint run_updates (c : option ns_sha256) (chunks : list (list Z)) : option (option ns_sha256) :=
  match chunks with
  | [] => Some c
  | d :: rest => c ← ns_sha256_update c (Some d) (Z.of_nat (length d)); run_updates c rest
  end.

Lemma update_spec c msg d :
  buffered c msg -> total_bytes c = Z.of_nat (length msg) -> Forall is_byte d -> Z.of_nat (length (msg ++ d)) < 2 ^ 61 ->
  exists c', ns_sha256_update (Some c) (Some d) (Z.of_nat (length d)) = Some (Some c') /\
    buffered c' (msg ++ d) /\ total_bytes c' = Z.of_nat (length (msg ++ d)).
Proof.
  intros Hc Ht Hd Hl. rewrite length_app in Hl |- *. unfold ns_sha256_update.
  destruct (update_loop_spec (S (Z.to_nat (Z.of_nat (length d)))) (c <| total_bytes := u64 (total_bytes c + Z.of_nat (length d)) |>)
    msg d 0 (Z.of_nat (length d))) as (c' & -> & Hc' & Ht'); [done|done|lia..|].
  exists c'. split; [done|]. rewrite Ht'. cbn [total_bytes set_field set_total_bytes]. rewrite Ht. split.
  - unfold window_of in Hc'. by rewrite drop_0, take_ge in Hc' by lia.
  - cbn. rewrite u64_small by lia. lia.
Qed.

Lemma run_updates_spec chunks c msg :
  buffered c msg -> total_bytes c = Z.of_nat (length msg) -> Forall (Forall is_byte) chunks ->
  Z.of_nat (length (msg ++ concat chunks)) < 2 ^ 61 ->
  exists c', run_updates (Some c) chunks = Some (Some c') /\ buffered c' (msg ++ concat chunks) /\
    total_bytes c' = Z.of_nat (length (msg ++ concat chunks)).
Proof.
  intros Hc Ht Hb. revert c msg Hc Ht. induction Hb as [|d rest Hd Hr IH]; intros c msg Hc Ht; cbn [run_updates concat].
  - rewrite app_nil_r. eauto.
  - rewrite app_assoc. intros Hl. destruct (update_spec c msg d) as (c1 & -> & Hc1 & Ht1); [done..| |].
    { rewrite length_app in Hl. lia. }
    apply IH; done.
Qed.

(** C38: However a message is cut into pieces, initialising a context, updating it
    with the pieces in order and finishing it returns, writes the SHA-256 digest
    of the whole message, as FIPS 180-4 defines it, to the first 32 bytes of the
    output and nothing else, and wipes the context. *)
Theorem sha256_streaming c0 chunks out :
  length (block c0) = 64%nat -> Forall (Forall is_byte) chunks -> Z.of_nat (length (concat chunks)) < 2 ^ 61 ->
  (32 <= length out)%nat ->
  (c ← run_updates (ns_sha256_init (Some c0)) chunks; ns_sha256_final c (Some out)) =
    Some (Some wiped, Some (splice out 0 (sha256 (concat chunks)))).
Proof.
  intros Hb Hch Hl Ho. set (c1 := c0 <| state := IV |> <| total_bytes := 0 |> <| block_bytes := 0 |>).
  destruct (run_updates_spec chunks c1 []) as (c' & E & Hc' & Ht'); [|done|done|done|].
  - exists 0%nat, [], []. split_and!; try done; first [by constructor|cbn; lia].
  - assert (Ei : ns_sha256_init (Some c0) = Some c1) by (unfold c1; by rewrite IV_value). rewrite Ei, E. cbn [mbind option_bind]. by apply final_spec.
Qed.

(** The standard's example messages. *)
Example sha256_abc : sha256 [0x61; 0x62; 0x63] =
  [0xba; 0x78; 0x16; 0xbf; 0x8f; 0x01; 0xcf; 0xea; 0x41; 0x41; 0x40; 0xde; 0x5d; 0xae; 0x22; 0x23;
   0xb0; 0x03; 0x61; 0xa3; 0x96; 0x17; 0x7a; 0x9c; 0xb4; 0x10; 0xff; 0x61; 0xf2; 0x00; 0x15; 0xad].
Proof. vm_compute. reflexivity. Qed.

Definition fresh : ns_sha256 := mk_sha [] 0 (replicate 64 7) 0.

Lemma sha256_streaming_witness :
  (c ← run_updates (ns_sha256_init (Some fresh)) [[0x61]; []; [0x62; 0x63]]; ns_sha256_final c (Some (replicate 32 0))) =
    Some (Some wiped, Some (splice (replicate 32 0) 0 (sha256 [0x61; 0x62; 0x63]))).
Proof.
  apply (sha256_streaming fresh [[0x61]; []; [0x62; 0x63]] (replicate 32 0)).
  - reflexivity.
  - repeat constructor; discriminate.
  - cbn. lia.
  - cbn. lia.
Defined.
