(* ===== verification/Bytes.v ===== *)
(** * Byte memory

    Memory is a map from the addresses that are mapped to their bytes; an access
    to any other address is undefined.  The heap and the page tables live in it. *)

From S2P Require Import Prelude.

(** ** Access *)

Fixpoint load_bytes (n : nat) (m : gmap Z Z) (a : Z) : option (list Z) :=
  match n with
  | O => Some []
  | S n' => b ← m !! a; l ← load_bytes n' m (a + 1); Some (b :: l)
  end.

Fixpoint store_bytes (m : gmap Z Z) (a : Z) (l : list Z) : option (gmap Z Z) :=
  match l with
  | [] => Some m
  | b :: l' => _ ← m !! a; store_bytes (<[a := b]> m) (a + 1) l'
  end.

(** Newly mapped pages; their contents do not matter, the heap clears them. *)
Fixpoint map_bytes (n : nat) (a : Z) (m : gmap Z Z) : gmap Z Z :=
  match n with
  | O => m
  | S n' => map_bytes n' (a + 1) (<[a := 0]> m)
  end.
Fixpoint unmap_bytes (n : nat) (a : Z) (m : gmap Z Z) : gmap Z Z :=
  match n with
  | O => m
  | S n' => unmap_bytes n' (a + 1) (delete a m)
  end.

Definition peek (n : nat) (m : gmap Z Z) (a : Z) : option Z := le_decode <$> load_bytes n m a.
Definition poke (n : nat) (m : gmap Z Z) (a v : Z) : option (gmap Z Z) := store_bytes m a (le_encode n v).

(** The forward copy loop. *)
Fixpoint copy_bytes (n : nat) (m : gmap Z Z) (destination source : Z) : option (gmap Z Z) :=
  match n with
  | O => Some m
  | S n' =>
    b ← m !! source;
    _ ← m !! destination;
    copy_bytes n' (<[destination := b]> m) (destination + 1) (source + 1)
  end.

(** ** Lemmas *)

Lemma load_bytes_ext n m m' a :
  (forall x, a <= x < a + Z.of_nat n -> m' !! x = m !! x) -> load_bytes n m' a = load_bytes n m a.
Proof.
  revert a. induction n as [|n IH]; intros a H; cbn [load_bytes]; [done|].
  rewrite H by lia. destruct (m !! a); [|done]. cbn [mbind option_bind]. rewrite IH; [done|]. intros x Hx. apply H. lia.
Qed.

Lemma load_bytes_list m a l :
  (forall i b, l !! i = Some b -> m !! (a + Z.of_nat i) = Some b) -> load_bytes (length l) m a = Some l.
Proof.
  revert a. induction l as [|b l IH]; intros a H; cbn [load_bytes length]; [done|].
  pose proof (H 0%nat b eq_refl) as H0. rewrite Z.add_0_r in H0. rewrite H0. cbn [mbind option_bind].
  rewrite IH; [done|]. intros i c Hi. specialize (H (S i) c Hi). rewrite <- H. f_equal. lia.
Qed.

(** Storing bytes in mapped memory. *)
Lemma store_bytes_spec m a l :
  (forall x, a <= x < a + Z.of_nat (length l) -> is_Some (m !! x)) ->
  exists m', store_bytes m a l = Some m' /\
    (forall i b, l !! i = Some b -> m' !! (a + Z.of_nat i) = Some b) /\
    (forall x, x < a \/ a + Z.of_nat (length l) <= x -> m' !! x = m !! x).
Proof.
  revert m a. induction l as [|b l IH]; intros m a H; cbn [store_bytes length] in *.
  - exists m. by split_and!.
  - destruct (H a ltac:(lia)) as [c ->]. cbn [mbind option_bind].
    destruct (IH (<[a := b]> m) (a + 1)) as (m' & -> & Hin & Hout).
    { intros x Hx. rewrite lookup_insert_ne by lia. apply H. lia. }
    exists m'. split; [done|]. split.
    + intros [|i] c' Hi; cbn in Hi.
      * injection Hi as ->. rewrite Hout, Z.add_0_r by lia. apply lookup_insert_eq.
      * replace (a + Z.of_nat (S i)) with (a + 1 + Z.of_nat i) by lia. by apply Hin.
    + intros x Hx. rewrite Hout by lia. apply lookup_insert_ne. lia.
Qed.

(** [m'] is [m] except for the [n] bytes at [a]; the same addresses are mapped. *)
Definition only_at (a : Z) (n : Z) (m m' : gmap Z Z) : Prop :=
  (forall x, x < a \/ a + n <= x -> m' !! x = m !! x) /\ (forall x, is_Some (m' !! x) <-> is_Some (m !! x)).

Lemma poke_spec n m a v :
  (forall x, a <= x < a + Z.of_nat n -> is_Some (m !! x)) -> 0 <= v < 2 ^ (8 * Z.of_nat n) ->
  exists m', poke n m a v = Some m' /\ peek n m' a = Some v /\ only_at a (Z.of_nat n) m m'.
Proof.
  intros H Hv. unfold poke, peek. destruct (store_bytes_spec m a (le_encode n v)) as (m' & -> & Hin & Hout);
    rewrite length_le_encode in *; [done|]. exists m'. split; [done|]. split.
  - pose proof (load_bytes_list m' a (le_encode n v) Hin) as E. rewrite length_le_encode in E. rewrite E. cbn.
    rewrite le_decode_encode, Z.mod_small by done. done.
  - split; [done|]. intros x. destruct (decide (a <= x < a + Z.of_nat n)) as [Hx|Hx]; [|by rewrite Hout by lia].
    split; intros _; [by apply H|]. destruct (lookup_lt_is_Some_2 (le_encode n v) (Z.to_nat (x - a))) as [b Hb].
    { rewrite length_le_encode. lia. }
    apply Hin in Hb. rewrite Z2Nat.id in Hb by lia. replace (a + (x - a)) with x in Hb by lia. by rewrite Hb.
Qed.

Lemma peek_ext n m m' a :
  (forall x, a <= x < a + Z.of_nat n -> m' !! x = m !! x) -> peek n m' a = peek n m a.
Proof. intros H. unfold peek. by rewrite (load_bytes_ext n m m' a H). Qed.

Lemma peek_only n m m' a b k : only_at b k m m' -> a + Z.of_nat n <= b \/ b + k <= a -> peek n m' a = peek n m a.
Proof. intros [H _] Hd. apply peek_ext. intros x Hx. apply H. lia. Qed.

Lemma peek_mapped n m a v x : peek n m a = Some v -> a <= x < a + Z.of_nat n -> is_Some (m !! x).
Proof.
  unfold peek. destruct (load_bytes n m a) as [l|] eqn:E; [|done]. intros _. revert a l E.
  induction n as [|n IH]; intros a l E Hx; [lia|]. cbn [load_bytes] in E. destruct (m !! a) as [b|] eqn:Eb; [|done].
  cbn [mbind option_bind] in E. destruct (load_bytes n m (a + 1)) as [l'|] eqn:E'; [|done].
  destruct (decide (x = a)) as [->|]; [by eexists|]. eapply IH; [exact E'|lia].
Qed.

Lemma only_at_refl a n m : only_at a n m m.
Proof. by split. Qed.
Lemma only_at_trans a n m1 m2 m3 : only_at a n m1 m2 -> only_at a n m2 m3 -> only_at a n m1 m3.
Proof.
  intros [H1 H2] [H3 H4]. split; [|intros x; by rewrite H4, H2]. intros x Hx. by rewrite H3, H1 by done.
Qed.
Lemma only_at_weaken a n b k m m' : only_at b k m m' -> a <= b -> b + k <= a + n -> only_at a n m m'.
Proof. intros [H1 H2] Ha Hb. split; [|done]. intros x Hx. apply H1. lia. Qed.

(** The same addresses are mapped. *)
Definition same_mapped (m m' : gmap Z Z) : Prop := forall x, is_Some (m' !! x) <-> is_Some (m !! x).

Lemma load_bytes_total n m a : (forall x, a <= x < a + Z.of_nat n -> is_Some (m !! x)) -> exists l, load_bytes n m a = Some l.
Proof.
  revert a. induction n as [|n IH]; intros a H; cbn [load_bytes]; [eauto|]. destruct (H a ltac:(lia)) as [b ->].
  destruct (IH (a + 1)) as [l ->]; [intros x Hx; apply H; lia|]. cbn. eauto.
Qed.

Definition bytes_in (m : gmap Z Z) (p n : Z) : gmap Z Z := filter (fun x => p <= x.1 < p + n) m.
Definition bytes_out (m : gmap Z Z) (p n : Z) : gmap Z Z := filter (fun x => ~ (p <= x.1 < p + n)) m.

Lemma bytes_in_Some m p n x v : bytes_in m p n !! x = Some v <-> m !! x = Some v /\ p <= x < p + n.
Proof. apply map_lookup_filter_Some. Qed.
Lemma bytes_out_Some m p n x v : bytes_out m p n !! x = Some v <-> m !! x = Some v /\ ~ (p <= x < p + n).
Proof. apply map_lookup_filter_Some. Qed.

Lemma map_bytes_lookup n a m x : map_bytes n a m !! x = if decide (a <= x < a + Z.of_nat n) then Some 0 else m !! x.
Proof.
  revert a m. induction n as [|n IH]; intros a m; cbn [map_bytes].
  - rewrite decide_False by lia. done.
  - rewrite IH. destruct (decide (x = a)) as [->|Hne].
    + rewrite decide_False, decide_True, lookup_insert_eq by lia. done.
    + rewrite lookup_insert_ne by done. destruct (decide (a + 1 <= x < a + 1 + Z.of_nat n)), (decide (a <= x < a + Z.of_nat (S n))); (done || lia).
Qed.

(** Mapped and cleared pages. *)
Lemma fresh_pages m a n :
  0 <= n -> exists m', store_bytes (map_bytes (Z.to_nat n) a m) a (replicate (Z.to_nat n) 0) = Some m' /\
    (forall x, a <= x < a + n -> m' !! x = Some 0) /\ (forall x, x < a \/ a + n <= x -> m' !! x = m !! x).
Proof.
  intros Hn. destruct (store_bytes_spec (map_bytes (Z.to_nat n) a m) a (replicate (Z.to_nat n) 0)) as (m' & E & Hin & Hout);
    rewrite length_replicate in *.
  - intros x Hx. rewrite map_bytes_lookup, decide_True by lia. by eexists.
  - exists m'. split; [done|]. split.
    + intros x Hx. specialize (Hin (Z.to_nat (x - a)) 0). rewrite Z2Nat.id in Hin by lia.
      replace (a + (x - a)) with x in Hin by lia. apply Hin. apply lookup_replicate_2. lia.
    + intros x Hx. rewrite Hout, map_bytes_lookup, decide_False by lia. done.
Qed.

Lemma copy_bytes_apart n m dst src :
  (forall i, 0 <= i < Z.of_nat n -> is_Some (m !! (src + i)) /\ is_Some (m !! (dst + i))) ->
  src + Z.of_nat n <= dst \/ dst + Z.of_nat n <= src ->
  exists m', copy_bytes n m dst src = Some m' /\ (forall i, 0 <= i < Z.of_nat n -> m' !! (dst + i) = m !! (src + i)) /\
    (forall x, x < dst \/ dst + Z.of_nat n <= x -> m' !! x = m !! x).
Proof.
  revert m dst src. induction n as [|n IH]; intros m dst src Hm Hd; cbn [copy_bytes]; [exists m; split_and!; [done|lia|done]|].
  destruct (Hm 0 ltac:(lia)) as [[b Hb] [c Hc]]. rewrite Z.add_0_r in Hb, Hc. rewrite Hb, Hc. cbn [mbind option_bind].
  destruct (IH (<[dst := b]> m) (dst + 1) (src + 1)) as (m' & -> & Hin & Hout); [|lia|].
  { intros i Hi. rewrite lookup_insert_ne by lia. destruct (Hm (i + 1) ltac:(lia)) as [H1 H2].
    replace (src + 1 + i) with (src + (i + 1)) by lia. replace (dst + 1 + i) with (dst + (i + 1)) by lia. split; [done|].
    by rewrite lookup_insert_ne by lia. }
  exists m'. split_and!; [done| |].
  - intros i Hi. destruct (decide (i = 0)) as [->|Hne].
    + rewrite !Z.add_0_r, Hout, lookup_insert_eq by lia. done.
    + specialize (Hin (i - 1) ltac:(lia)). replace (dst + 1 + (i - 1)) with (dst + i) in Hin by lia.
      replace (src + 1 + (i - 1)) with (src + i) in Hin by lia. rewrite Hin. by rewrite lookup_insert_ne by lia.
  - intros x Hx. rewrite Hout, lookup_insert_ne by lia. done.
Qed.
