(* ===== verification/Heap.v ===== *)
(** * The kernel heap (kernel/mm/heap.c)

    Blocks lie one after another in an arena and are linked in address order;
    each starts with a header, and an allocation has a tag in front of its
    bytes.  Headers and tags are read from and written to memory byte by byte,
    where the user's data is as well (Bytes).  The callbacks that map pages act
    on a world [W]. *)

From S2P Require Import Prelude Errno Bytes.

(** ** Constants and data *)

Definition NS_PAGE_SHIFT : Z := 12.
Definition NS_PAGE_SIZE : Z := Z.shiftl 1 NS_PAGE_SHIFT.
Definition NS_KHEAP_MIN_ALIGNMENT : Z := 16.
Definition NS_KHEAP_OK : Z := 0.
Abbreviation NS_KHEAP_EINVAL := (-1) (only parsing).
Abbreviation NS_KHEAP_ENOMEM := (-2) (only parsing).
Abbreviation NS_KHEAP_ECORRUPT := (-3) (only parsing).
Abbreviation NS_KHEAP_EDOUBLEFREE := (-4) (only parsing).
Abbreviation NS_KHEAP_EBUSY := (-5) (only parsing).
Definition KHEAP_BLOCK_MAGIC : Z := 0x4e5348454150424c.
Definition KHEAP_DEAD_MAGIC : Z := 0xdead4e53424c4f43.
Abbreviation KHEAP_COOKIE_SEED := 0x9e3779b97f4a7c15 (only parsing).

(** The members of [struct ns_kheap_block] and [struct allocation_tag], by offset. *)
Definition o_magic : Z := 0.
Definition o_span : Z := 8.
Definition o_requested : Z := 16.
Definition o_user_pointer : Z := 24.
Definition o_previous : Z := 32.
Definition o_next : Z := 40.
Definition o_free : Z := 48.
Definition o_reserved : Z := 49.
Definition sizeof_block : Z := 56.
Definition t_cookie : Z := 0.
Definition t_block : Z := 8.
Definition t_requested : Z := 16.
Definition sizeof_tag : Z := 24.

Definition BLOCK_HEADER_SIZE : Z :=
  Z.land (sizeof_block + NS_KHEAP_MIN_ALIGNMENT - 1) (not64 (NS_KHEAP_MIN_ALIGNMENT - 1)).
Definition MIN_BLOCK_SPAN : Z := BLOCK_HEADER_SIZE + sizeof_tag + NS_KHEAP_MIN_ALIGNMENT.

Record ns_kheap_page_ops (W : Type) := mk_page_ops {
  po_context : Z; map_pages : option (Z -> Z -> Z -> M W Z); unmap_pages : option (Z -> Z -> Z -> M W unit) }.
Arguments mk_page_ops {W}. Arguments po_context {W}. Arguments map_pages {W}. Arguments unmap_pages {W}.

Record ns_kheap (W : Type) := mk_kheap {
  arena_base : Z; arena_size : Z; committed_size : Z; minimum_growth_pages : Z;
  page_ops : ns_kheap_page_ops W; first : Z; last : Z; cookie : Z; lock : Z; last_error : Z;
  initialized : Z }.
Arguments mk_kheap {W}. Arguments arena_base {W}. Arguments arena_size {W}. Arguments committed_size {W}.
Arguments minimum_growth_pages {W}. Arguments page_ops {W}. Arguments first {W}. Arguments last {W}.
Arguments cookie {W}. Arguments lock {W}. Arguments last_error {W}. Arguments initialized {W}.
Definition eta_kheap {W} (h : ns_kheap W) : ns_kheap W :=
  mk_kheap (arena_base h) (arena_size h) (committed_size h) (minimum_growth_pages h) (page_ops h)
    (first h) (last h) (cookie h) (lock h) (last_error h) (initialized h).
#[export] Instance set_arena_base {W} : Setter (@arena_base W).
Proof. mk_setter1 (@eta_kheap) (@arena_base W). Defined.
#[export] Instance set_arena_size {W} : Setter (@arena_size W).
Proof. mk_setter1 (@eta_kheap) (@arena_size W). Defined.
#[export] Instance set_committed_size {W} : Setter (@committed_size W).
Proof. mk_setter1 (@eta_kheap) (@committed_size W). Defined.
#[export] Instance set_minimum_growth_pages {W} : Setter (@minimum_growth_pages W).
Proof. mk_setter1 (@eta_kheap) (@minimum_growth_pages W). Defined.
#[export] Instance set_page_ops {W} : Setter (@page_ops W).
Proof. mk_setter1 (@eta_kheap) (@page_ops W). Defined.
#[export] Instance set_first {W} : Setter (@first W).
Proof. mk_setter1 (@eta_kheap) (@first W). Defined.
#[export] Instance set_last {W} : Setter (@last W).
Proof. mk_setter1 (@eta_kheap) (@last W). Defined.
#[export] Instance set_cookie {W} : Setter (@cookie W).
Proof. mk_setter1 (@eta_kheap) (@cookie W). Defined.
#[export] Instance set_lock {W} : Setter (@lock W).
Proof. mk_setter1 (@eta_kheap) (@lock W). Defined.
#[export] Instance set_last_error {W} : Setter (@last_error W).
Proof. mk_setter1 (@eta_kheap) (@last_error W). Defined.
#[export] Instance set_initialized {W} : Setter (@initialized W).
Proof. mk_setter1 (@eta_kheap) (@initialized W). Defined.

Record ns_kheap_stats := mk_stats {
  st_arena_size : Z; st_committed_size : Z; requested_bytes : Z; free_span_bytes : Z;
  largest_free_span : Z; live_allocations : Z; free_blocks : Z }.

(** The heap object, mapped memory, the heap the global facade uses, the world. *)
Record kstate (W : Type) := mk_kstate {
  kheap : ns_kheap W; mem : gmap Z Z; global_heap : Z; world : W }.
Arguments mk_kstate {W}. Arguments kheap {W}. Arguments mem {W}. Arguments global_heap {W}. Arguments world {W}.
Definition eta_kstate {W} (s : kstate W) : kstate W := mk_kstate (kheap s) (mem s) (global_heap s) (world s).
#[export] Instance set_kheap {W} : Setter (@kheap W).
Proof. mk_setter1 (@eta_kstate) (@kheap W). Defined.
#[export] Instance set_mem {W} : Setter (@mem W).
Proof. mk_setter1 (@eta_kstate) (@mem W). Defined.
#[export] Instance set_global_heap {W} : Setter (@global_heap W).
Proof. mk_setter1 (@eta_kstate) (@global_heap W). Defined.
#[export] Instance set_world {W} : Setter (@world W).
Proof. mk_setter1 (@eta_kstate) (@world W). Defined.

Section heap.
Context {W : Type}.
Abbreviation K := (M (kstate W)).
Implicit Types (block pointer size alignment : Z).

Definition ld (n : nat) (a : Z) : K Z := fun s => v ← peek n (mem s) a; Some (v, s).
Definition st (n : nat) (a v : Z) : K unit :=
  fun s => m ← poke n (mem s) a v; Some (tt, s <| mem := m |>).

(** Members of the heap object. *)
Definition hget {A} (f : ns_kheap W -> A) : K A := gets (fun s => f (kheap s)).
Definition hset {A} (f : ns_kheap W -> A) `{!Setter f} (v : A) : K unit :=
  modify (fun s => s <| kheap := (kheap s) <| f := v |> |>).

(** ** Helpers *)

Definition heap_lock : K unit := l ← hget lock; if l =? 0 then hset lock 1 else stuck.
Definition heap_unlock : K unit := hset lock 0.

Definition heap_zero (destination length : Z) : K unit :=
  fun s => m ← store_bytes (mem s) destination (replicate (Z.to_nat length) 0); Some (tt, s <| mem := m |>).

Definition heap_copy (destination source length : Z) : K unit :=
  fun s => m ← copy_bytes (Z.to_nat length) (mem s) destination source; Some (tt, s <| mem := m |>).

Definition power_of_two (value : Z) : bool := negb (value =? 0) && (Z.land value (u64 (value - 1)) =? 0).

Definition align_up_size (value alignment : Z) : option Z :=
  let mask := u64 (alignment - 1) in
  if UINT64_MAX - mask <? value then None else Some (Z.land (u64 (value + mask)) (not64 mask)).
Definition align_up_uintptr : Z -> Z -> option Z := align_up_size.

Definition initialize_free_block block (span previous next : Z) : K unit :=
  st 8 (block + o_magic) KHEAP_BLOCK_MAGIC;;
  st 8 (block + o_span) span;;
  st 8 (block + o_requested) 0;;
  st 8 (block + o_user_pointer) 0;;
  st 8 (block + o_previous) previous;;
  st 8 (block + o_next) next;;
  st 1 (block + o_free) 1;;
  st 7 (block + o_reserved) 0.

Definition allocation_cookie block pointer : K Z :=
  c ← hget cookie; mret (Z.lxor (Z.lxor c block) pointer).

Definition layout (base span size alignment : Z) : option (Z * Z) :=
  if UINT64_MAX - BLOCK_HEADER_SIZE - sizeof_tag <? base then None
  else
    match align_up_uintptr (u64 (base + BLOCK_HEADER_SIZE + sizeof_tag)) alignment with
    | None => None
    | Some pointer =>
      if UINT64_MAX - size <? pointer then None
      else
        match align_up_size (u64 (u64 (pointer + size) - base)) NS_KHEAP_MIN_ALIGNMENT with
        | None => None
        | Some consumed => if span <? consumed then None else Some (pointer, consumed)
        end
    end.
Definition allocation_layout block size alignment : K (option (Z * Z)) :=
  span ← ld 8 (block + o_span); mret (layout block span size alignment).

(** [block] takes over the span of its successor. *)
Definition absorb block (next : Z) : K unit :=
  span ← ld 8 (block + o_span);
  nspan ← ld 8 (next + o_span);
  st 8 (block + o_span) (u64 (span + nspan));;
  nnext ← ld 8 (next + o_next);
  st 8 (block + o_next) nnext;;
  (if negb (nnext =? NULL) then st 8 (nnext + o_previous) block else hset last block);;
  st 8 (next + o_magic) KHEAP_DEAD_MAGIC.

Definition split_trailing block (consumed : Z) : K unit :=
  span ← ld 8 (block + o_span);
  if u64 (span - consumed) <? MIN_BLOCK_SPAN then mret tt
  else
    let tail := u64 (block + consumed) in
    next ← ld 8 (block + o_next);
    initialize_free_block tail (u64 (span - consumed)) block next;;
    (if negb (next =? NULL) then st 8 (next + o_previous) tail else hset last tail);;
    fr ← (if negb (next =? NULL) then ld 1 (next + o_free) else mret 0);
    when (negb (fr =? 0)) (absorb tail next);;
    st 8 (block + o_next) tail;;
    st 8 (block + o_span) consumed.

(** [a + b], or [None] when it wraps. *)
Definition add_size_overflow (a b : Z) : option Z := if u64 (a + b) <? a then None else Some (u64 (a + b)).

(** ** Growing *)

(** Fresh memory goes to a free last block or becomes a new one. *)
Definition attach (address growth : Z) : K unit :=
  lst ← hget last;
  fr ← (if negb (lst =? NULL) then ld 1 (lst + o_free) else mret 0);
  if negb (fr =? 0) then
    span ← ld 8 (lst + o_span);
    st 8 (lst + o_span) (u64 (span + growth))
  else
    initialize_free_block address growth lst NULL;;
    (if negb (lst =? NULL) then st 8 (lst + o_next) address else hset first address);;
    hset last address.

(** The bytes and pages to add, when there is room. *)
Definition plan_growth (minimum_bytes minimum asize committed : Z) : option (Z * Z) :=
  if SIZE_MAX - (NS_PAGE_SIZE - 1) <? minimum_bytes then None
  else
    let growth_pages := Z.shiftr (u64 (minimum_bytes + NS_PAGE_SIZE - 1)) NS_PAGE_SHIFT in
    let growth_pages := if growth_pages <? minimum then minimum else growth_pages in
    if SIZE_MAX / NS_PAGE_SIZE <? growth_pages then None
    else
      let growth := u64 (growth_pages * NS_PAGE_SIZE) in
      let capped := u64 (asize - committed) <? growth in
      let growth := if capped then u64 (asize - committed) else growth in
      let growth_pages := if capped then Z.shiftr growth NS_PAGE_SHIFT else growth_pages in
      if (growth <? minimum_bytes) || (growth_pages =? 0) then None else Some (growth, growth_pages).

Definition grow_heap (minimum_bytes : Z) : K Z :=
  minimum ← hget minimum_growth_pages;
  asize ← hget arena_size;
  committed ← hget committed_size;
  match plan_growth minimum_bytes minimum asize committed with
  | None => mret NS_KHEAP_ENOMEM
  | Some (growth, growth_pages) =>
    base ← hget arena_base;
    let address := u64 (base + committed) in
    po ← hget page_ops;
    match map_pages po with
    | None => stuck
    | Some map =>
      r ← zoom world (map (po_context po) address growth_pages);
      if negb (r =? 0) then mret NS_KHEAP_ENOMEM
      else
        modify (fun s => s <| mem := map_bytes (Z.to_nat (growth_pages * NS_PAGE_SIZE)) address (mem s) |>);;
        heap_zero address growth;;
        attach address growth;;
        hset committed_size (u64 (committed + growth));;
        mret NS_KHEAP_OK
    end
  end.

Definition ns_kheap_init (heap arena_base0 arena_size0 initial_pages minimum_growth_pages0 : Z)
    (page_ops0 : option (ns_kheap_page_ops W)) : K Z :=
  match page_ops0 with
  | None => mret NS_KHEAP_EINVAL
  | Some po =>
    if (heap =? NULL) || negb (bool_decide (is_Some (map_pages po))) || (arena_base0 =? 0) ||
       negb (Z.land arena_base0 (NS_PAGE_SIZE - 1) =? 0) || (arena_size0 <? NS_PAGE_SIZE) ||
       negb (Z.land arena_size0 (NS_PAGE_SIZE - 1) =? 0) || (initial_pages =? 0) ||
       (arena_size0 / NS_PAGE_SIZE <? initial_pages) || (minimum_growth_pages0 =? 0) ||
       (UINT64_MAX - arena_size0 <? arena_base0)
    then mret NS_KHEAP_EINVAL
    else
      hset arena_base arena_base0;;
      hset arena_size arena_size0;;
      hset committed_size 0;;
      hset minimum_growth_pages minimum_growth_pages0;;
      hset page_ops po;;
      hset first NULL;;
      hset last NULL;;
      hset cookie (Z.lxor (Z.lxor KHEAP_COOKIE_SEED arena_base0) (u64 (Z.shiftl arena_size0 17)));;
      hset lock 0;;
      hset last_error NS_KHEAP_OK;;
      hset initialized 1;;
      result ← grow_heap (u64 (initial_pages * NS_PAGE_SIZE));
      if negb (result =? NS_KHEAP_OK) then
        hset initialized 0;;
        hset last_error result;;
        mret result
      else mret NS_KHEAP_OK
  end.

(** A walk of the block list takes at most one step per header. *)
Definition walk_fuel : K nat := c ← hget committed_size; mret (S (Z.to_nat (c / NS_KHEAP_MIN_ALIGNMENT))).

Fixpoint all_free (fuel : nat) block : K bool :=
  match fuel with
  | O => stuck
  | S fuel' =>
    if block =? NULL then mret true
    else
      fr ← ld 1 (block + o_free);
      if fr =? 0 then mret false
      else
        next ← ld 8 (block + o_next);
        all_free fuel' next
  end.

Definition ns_kheap_destroy (heap : Z) : K Z :=
  if heap =? NULL then mret NS_KHEAP_EINVAL
  else
    init ← hget initialized;
    if init =? 0 then mret NS_KHEAP_EINVAL
    else
      heap_lock;;
      f ← hget first;
      fuel ← walk_fuel;
      ok ← all_free fuel f;
      if negb ok then
        hset last_error NS_KHEAP_EBUSY;;
        heap_unlock;;
        mret NS_KHEAP_EBUSY
      else
        po ← hget page_ops;
        base ← hget arena_base;
        committed ← hget committed_size;
        match unmap_pages po with
        | None => mret tt
        | Some unmap =>
          zoom world (unmap (po_context po) base (Z.shiftr committed NS_PAGE_SHIFT));;
          modify (fun s => s <| mem := unmap_bytes (Z.to_nat committed) base (mem s) |>)
        end;;
        hset first NULL;;
        hset last NULL;;
        hset committed_size 0;;
        hset initialized 0;;
        hset last_error NS_KHEAP_OK;;
        heap_unlock;;
        mret NS_KHEAP_OK.

(** ** Allocation *)

(** The first free block that fits, with its layout. *)
Fixpoint find_block (fuel : nat) block size alignment : K (option (Z * (Z * Z))) :=
  match fuel with
  | O => stuck
  | S fuel' =>
    if block =? NULL then mret None
    else
      fr ← ld 1 (block + o_free);
      fit ← (if fr =? 0 then mret None else allocation_layout block size alignment);
      match fit with
      | None =>
        next ← ld 8 (block + o_next);
        find_block fuel' next size alignment
      | Some pc => mret (Some (block, pc))
      end
  end.

Definition take_block block size pointer (consumed : Z) : K unit :=
  split_trailing block consumed;;
  st 1 (block + o_free) 0;;
  st 8 (block + o_requested) size;;
  st 8 (block + o_user_pointer) pointer;;
  let tag := pointer - sizeof_tag in
  st 8 (tag + t_block) block;;
  st 8 (tag + t_requested) size;;
  c ← allocation_cookie block pointer;
  st 8 (tag + t_cookie) c.

(** One turn of the outer loop: the result, or a grown heap to search again. *)
Definition alloc_round size alignment : K (option Z) :=
  f ← hget first;
  fuel ← walk_fuel;
  found ← find_block fuel f size alignment;
  match found with
  | Some (block, (pointer, consumed)) =>
    take_block block size pointer consumed;;
    hset last_error NS_KHEAP_OK;;
    heap_unlock;;
    mret (Some pointer)
  | None =>
    match (minimum ← add_size_overflow (BLOCK_HEADER_SIZE + sizeof_tag) size; add_size_overflow minimum alignment) with
    | None =>
      hset last_error NS_KHEAP_ENOMEM;;
      heap_unlock;;
      mret (Some NULL)
    | Some minimum =>
      result ← grow_heap minimum;
      if negb (result =? NS_KHEAP_OK) then
        hset last_error result;;
        heap_unlock;;
        mret (Some NULL)
      else mret None
    end
  end.

Fixpoint alloc_rounds (rounds : nat) size alignment : K Z :=
  match rounds with
  | O => stuck
  | S rounds' =>
    r ← alloc_round size alignment;
    match r with Some pointer => mret pointer | None => alloc_rounds rounds' size alignment end
  end.

Definition ns_kheap_alloc_aligned (heap size alignment : Z) : K Z :=
  if heap =? NULL then mret NULL
  else
    init ← hget initialized;
    if (init =? 0) || (size =? 0) || negb (power_of_two alignment) then
      hset last_error NS_KHEAP_EINVAL;;
      mret NULL
    else
      let alignment := if alignment <? NS_KHEAP_MIN_ALIGNMENT then NS_KHEAP_MIN_ALIGNMENT else alignment in
      heap_lock;;
      alloc_rounds 2 size alignment.

Definition ns_kheap_alloc (heap size : Z) : K Z := ns_kheap_alloc_aligned heap size NS_KHEAP_MIN_ALIGNMENT.

Definition ns_kheap_calloc (heap count size : Z) : K Z :=
  if (count =? 0) || (size =? 0) || (SIZE_MAX / size <? count) then
    when (negb (heap =? NULL)) (hset last_error NS_KHEAP_EINVAL);;
    mret NULL
  else
    let total := u64 (count * size) in
    pointer ← ns_kheap_alloc heap total;
    when (negb (pointer =? NULL)) (heap_zero pointer total);;
    mret pointer.

(** ** Release *)

(** The error, or the block and the tag. *)
Definition validate_pointer pointer : K (Z + Z * Z) :=
  base ← hget arena_base;
  committed ← hget committed_size;
  if (pointer =? NULL) || (pointer <? u64 (base + BLOCK_HEADER_SIZE + sizeof_tag)) ||
     (u64 (base + committed) <=? pointer)
  then mret (inl NS_KHEAP_EINVAL)
  else
    let tag := pointer - sizeof_tag in
    block ← ld 8 (tag + t_block);
    if (block <? base) || (u64 (base + committed - BLOCK_HEADER_SIZE) <? block)
    then mret (inl NS_KHEAP_ECORRUPT)
    else
      mg ← ld 8 (block + o_magic);
      if negb (mg =? KHEAP_BLOCK_MAGIC) then mret (inl NS_KHEAP_ECORRUPT)
      else
        fr ← ld 1 (block + o_free);
        if negb (fr =? 0) then mret (inl NS_KHEAP_EDOUBLEFREE)
        else
          up ← ld 8 (block + o_user_pointer);
          rq ← ld 8 (block + o_requested);
          trq ← ld 8 (tag + t_requested);
          ck ← ld 8 (tag + t_cookie);
          want ← allocation_cookie block pointer;
          if negb (up =? pointer) || negb (rq =? trq) || negb (ck =? want)
          then mret (inl NS_KHEAP_ECORRUPT)
          else mret (inr (block, tag)).

Definition merge_next block : K Z :=
  next ← ld 8 (block + o_next);
  fr ← (if next =? NULL then mret 0 else ld 1 (next + o_free));
  if (next =? NULL) || (fr =? 0) then mret block
  else absorb block next;; mret block.

Definition release block (tag : Z) : K unit :=
  st 8 (tag + t_cookie) 0;;
  st 8 (block + o_requested) 0;;
  st 8 (block + o_user_pointer) 0;;
  st 1 (block + o_free) 1;;
  block ← merge_next block;
  prev ← ld 8 (block + o_previous);
  fr ← (if prev =? NULL then mret 0 else ld 1 (prev + o_free));
  when (negb (fr =? 0)) (merge_next prev;; mret tt).

Definition ns_kheap_free (heap pointer : Z) : K Z :=
  if pointer =? NULL then mret NS_KHEAP_OK
  else if heap =? NULL then mret NS_KHEAP_EINVAL
  else
    init ← hget initialized;
    if init =? 0 then mret NS_KHEAP_EINVAL
    else
      heap_lock;;
      v ← validate_pointer pointer;
      match v with
      | inl result =>
        hset last_error result;;
        heap_unlock;;
        mret result
      | inr (block, tag) =>
        release block tag;;
        hset last_error NS_KHEAP_OK;;
        heap_unlock;;
        mret NS_KHEAP_OK
      end.

Definition ns_kheap_usable_size (heap pointer : Z) : K Z :=
  if (heap =? NULL) || (pointer =? NULL) then mret 0
  else
    init ← hget initialized;
    if init =? 0 then mret 0
    else
      heap_lock;;
      v ← validate_pointer pointer;
      size ← match v with inl _ => mret 0 | inr (block, _) => ld 8 (block + o_requested) end;
      hset last_error (match v with inl result => result | inr _ => NS_KHEAP_OK end);;
      heap_unlock;;
      mret size.

(** ** Reallocation *)

(** The room from [pointer] to the end of its block. *)
Definition room block pointer : K Z :=
  span ← ld 8 (block + o_span); mret (u64 (span - u64 (pointer - block))).

Definition ns_kheap_realloc (heap pointer size : Z) : K Z :=
  if pointer =? NULL then ns_kheap_alloc heap size
  else if size =? 0 then ns_kheap_free heap pointer;; mret NULL
  else if heap =? NULL then mret NULL
  else
    init ← hget initialized;
    if init =? 0 then mret NULL
    else
      heap_lock;;
      v ← validate_pointer pointer;
      match v with
      | inl result =>
        hset last_error result;;
        heap_unlock;;
        mret NULL
      | inr (block, tag) =>
        old_size ← ld 8 (block + o_requested);
        available ← room block pointer;
        next ← ld 8 (block + o_next);
        fr ← (if (available <? size) && negb (next =? NULL) then ld 1 (next + o_free) else mret 0);
        available ← (if negb (fr =? 0) then merge_next block;; room block pointer else mret available);
        if size <=? available then
          let consumed := u64 (u64 (pointer + size) - block) in
          match align_up_size consumed NS_KHEAP_MIN_ALIGNMENT with
          | Some consumed => split_trailing block consumed
          | None => mret tt
          end;;
          st 8 (block + o_requested) size;;
          st 8 (tag + t_requested) size;;
          c ← allocation_cookie block pointer;
          st 8 (tag + t_cookie) c;;
          hset last_error NS_KHEAP_OK;;
          heap_unlock;;
          mret pointer
        else
          heap_unlock;;
          replacement ← ns_kheap_alloc heap size;
          if replacement =? NULL then mret NULL
          else
            heap_copy replacement pointer (if old_size <? size then old_size else size);;
            r ← ns_kheap_free heap pointer;
            if negb (r =? NS_KHEAP_OK) then ns_kheap_free heap replacement;; mret NULL
            else mret replacement
      end.

(** ** Inspection *)

Definition ns_kheap_last_error (heap : Z) : K Z :=
  if heap =? NULL then mret NS_KHEAP_EINVAL else hget last_error.

Fixpoint stats_loop (fuel : nat) block (out : ns_kheap_stats) : K ns_kheap_stats :=
  match fuel with
  | O => stuck
  | S fuel' =>
    if block =? NULL then mret out
    else
      fr ← ld 1 (block + o_free);
      span ← ld 8 (block + o_span);
      rq ← ld 8 (block + o_requested);
      let '(mk_stats a c r f l n k) := out in
      let out :=
        if negb (fr =? 0)
        then mk_stats a c r (u64 (f + span)) (if l <? span then span else l) n (u64 (k + 1))
        else mk_stats a c (u64 (r + rq)) f l (u64 (n + 1)) k in
      next ← ld 8 (block + o_next);
      stats_loop fuel' next out
  end.

(** The statistics, when they are written. *)
Definition ns_kheap_get_stats (heap out : Z) : K (option ns_kheap_stats) :=
  if (heap =? NULL) || (out =? NULL) then mret None
  else
    init ← hget initialized;
    if init =? 0 then mret None
    else
      heap_lock;;
      a ← hget arena_size;
      c ← hget committed_size;
      f ← hget first;
      fuel ← walk_fuel;
      r ← stats_loop fuel f (mk_stats a c 0 0 0 0 0);
      heap_unlock;;
      mret (Some r).

Fixpoint check_loop (fuel : nat) block (expected previous : Z) : K Z :=
  match fuel with
  | O => stuck
  | S fuel' =>
    base ← hget arena_base;
    committed ← hget committed_size;
    if block =? NULL then
      lst ← hget last;
      mret (if negb (previous =? lst) || negb (expected =? u64 (base + committed))
            then NS_KHEAP_ECORRUPT else NS_KHEAP_OK)
    else
      if negb (block =? expected) then mret NS_KHEAP_ECORRUPT
      else
        mg ← ld 8 (block + o_magic);
        span ← ld 8 (block + o_span);
        prev ← ld 8 (block + o_previous);
        fr ← ld 1 (block + o_free);
        pfr ← (if negb (previous =? NULL) then ld 1 (previous + o_free) else mret 0);
        if negb (mg =? KHEAP_BLOCK_MAGIC) || (span <? BLOCK_HEADER_SIZE) ||
           negb (Z.land span (NS_KHEAP_MIN_ALIGNMENT - 1) =? 0) || negb (prev =? previous) ||
           (negb (pfr =? 0) && negb (fr =? 0)) || (u64 (base + committed - expected) <? span)
        then mret NS_KHEAP_ECORRUPT
        else
          up ← ld 8 (block + o_user_pointer);
          rq ← ld 8 (block + o_requested);
          if (fr =? 0) && ((up <=? u64 (block + BLOCK_HEADER_SIZE)) || (rq =? 0) ||
                           (u64 (block + span - up) <? rq))
          then mret NS_KHEAP_ECORRUPT
          else
            next ← ld 8 (block + o_next);
            check_loop fuel' next (u64 (expected + span)) block
  end.

Definition check_invariants_unlocked : K Z :=
  f ← hget first;
  l ← hget last;
  base ← hget arena_base;
  if (f =? NULL) || (l =? NULL) || negb (f =? base) then mret NS_KHEAP_ECORRUPT
  else fuel ← walk_fuel; check_loop fuel f base NULL.

Definition ns_kheap_check_invariants (heap : Z) : K Z :=
  if heap =? NULL then mret NS_KHEAP_EINVAL
  else
    init ← hget initialized;
    if init =? 0 then mret NS_KHEAP_EINVAL
    else
      heap_lock;;
      result ← check_invariants_unlocked;
      hset last_error result;;
      heap_unlock;;
      mret result.

(** ** The global heap *)

Definition ns_kheap_install_global (heap : Z) : K Z :=
  if heap =? NULL then mret NS_KHEAP_EINVAL
  else
    init ← hget initialized;
    if init =? 0 then mret NS_KHEAP_EINVAL
    else
      g ← gets global_heap;
      if g =? NULL then modify (fun s => s <| global_heap := heap |>);; mret NS_KHEAP_OK
      else mret (if g =? heap then NS_KHEAP_OK else NS_KHEAP_EBUSY).

Definition kmalloc size : K Z :=
  heap ← gets global_heap; if heap =? NULL then mret NULL else ns_kheap_alloc heap size.
Definition kmalloc_aligned size alignment : K Z :=
  heap ← gets global_heap; if heap =? NULL then mret NULL else ns_kheap_alloc_aligned heap size alignment.
Definition kcalloc (count : Z) size : K Z :=
  heap ← gets global_heap; if heap =? NULL then mret NULL else ns_kheap_calloc heap count size.
Definition krealloc pointer size : K Z :=
  heap ← gets global_heap; if heap =? NULL then mret NULL else ns_kheap_realloc heap pointer size.
Definition kfree pointer : K unit :=
  heap ← gets global_heap; when (negb (heap =? NULL)) (ns_kheap_free heap pointer;; mret tt).
End heap.
