(* ===== verification/HeapMem.v ===== *)
(** * Headers and tags in memory

    The heap's memory seen as three disjoint parts: headers, tags and the user's
    data.  Storing a member changes exactly that member. *)

From S2P Require Import Prelude Errno Bytes Heap.

(** ** Members *)

Record hdr := mk_hdr {
  h_magic : Z; h_span : Z; h_requested : Z; h_user : Z; h_previous : Z; h_next : Z; h_free : Z }.
Record tag := mk_tag { g_cookie : Z; g_block : Z; g_requested : Z }.

(** Offset, width and value of every member. *)
Definition hdr_fields (h : hdr) : list (Z * nat * Z) :=
  [(o_magic, 8%nat, h_magic h); (o_span, 8%nat, h_span h); (o_requested, 8%nat, h_requested h);
   (o_user_pointer, 8%nat, h_user h); (o_previous, 8%nat, h_previous h); (o_next, 8%nat, h_next h);
   (o_free, 1%nat, h_free h)].
Definition tag_fields (t : tag) : list (Z * nat * Z) :=
  [(t_cookie, 8%nat, g_cookie t); (t_block, 8%nat, g_block t); (t_requested, 8%nat, g_requested t)].

Definition fields_at (m : gmap Z Z) (a : Z) (l : list (Z * nat * Z)) : Prop :=
  Forall (fun f => peek f.1.2 m (a + f.1.1) = Some f.2) l.

(** Fields in order, none overlapping another, within [size] bytes. *)
Fixpoint packed (o : Z) (l : list (Z * nat * Z)) (size : Z) : Prop :=
  match l with
  | [] => o <= size
  | (p, n, _) :: l' => o <= p /\ packed (p + Z.of_nat n) l' size
  end.

Lemma packed_mono o o' l size : o' <= o -> packed o l size -> packed o' l size.
Proof. destruct l as [|[[p n] v] l]; cbn; [lia|]. intros Ho [? ?]. split; [lia|done]. Qed.

Lemma packed_in o l size p n v : packed o l size -> (p, n, v) ∈ l -> o <= p /\ p + Z.of_nat n <= size.
Proof.
  revert o. induction l as [|[[p' n'] v'] l IH]; intros o H Hin; [by apply elem_of_nil in Hin|].
  cbn in H. destruct H as [Ho Hp]. apply elem_of_cons in Hin as [[= -> -> ->]|Hin].
  - split; [done|]. clear -Hp. revert p' n' Hp. induction l as [|[[p'' n''] v''] l IH]; cbn; [lia|].
    intros p n [H1 H2]. apply IH in H2. lia.
  - apply IH in Hp; [lia|done].
Qed.

(** Storing one field keeps the others. *)
Lemma fields_store m m' a l size i o n v w :
  packed 0 l size -> fields_at m a l -> l !! i = Some (o, n, w) -> peek n m' (a + o) = Some v ->
  only_at (a + o) (Z.of_nat n) m m' -> fields_at m' a (<[i := (o, n, v)]> l).
Proof.
  intros Hp. assert (H0 : exists z, packed z l size) by eauto. clear Hp. destruct H0 as [z Hp].
  intros Hl Hi Hv Ho. revert z i Hp Hi. induction l as [|[[p' n'] v'] l IH]; intros z i Hp Hi; [done|].
  apply Forall_cons in Hl as [H1 Hl]. cbn in Hp. destruct Hp as [Hz Hp]. destruct i as [|i]; cbn in Hi |- *.
  - injection Hi as -> -> ->. apply Forall_cons. split; [done|]. apply Forall_forall. intros [[p2 n2] v2] Hin. cbn.
    pose proof (packed_in _ _ _ _ _ _ Hp Hin). rewrite Forall_forall in Hl. specialize (Hl _ Hin). cbn in Hl.
    rewrite <- Hl. eapply peek_only; [done|]. lia.
  - apply Forall_cons. split; [|by eapply IH]. cbn in *. rewrite <- H1. eapply peek_only; [done|].
    apply list_elem_of_lookup_2 in Hi. pose proof (packed_in _ _ _ _ _ _ Hp Hi). lia.
Qed.

Lemma fields_ext m m' a l size b k :
  packed 0 l size -> fields_at m a l -> only_at b k m m' -> a + size <= b \/ b + k <= a -> fields_at m' a l.
Proof.
  intros Hp Hl Ho Hd. apply Forall_forall. intros [[p n] v] Hin. cbn. pose proof (packed_in _ _ _ _ _ _ Hp Hin).
  unfold fields_at in Hl. rewrite Forall_forall in Hl. specialize (Hl _ Hin). cbn in Hl. rewrite <- Hl. eapply peek_only; [done|]. lia.
Qed.

Lemma hdr_packed h : packed 0 (hdr_fields h) sizeof_block.
Proof. unfold sizeof_block. cbn. unfold o_magic, o_span, o_requested, o_user_pointer, o_previous, o_next, o_free. lia. Qed.
Lemma tag_packed t : packed 0 (tag_fields t) sizeof_tag.
Proof. unfold sizeof_tag. cbn. unfold t_cookie, t_block, t_requested. lia. Qed.

Lemma fields_push m m' a l o n v :
  packed 0 l o -> fields_at m a l -> peek n m' (a + o) = Some v -> only_at (a + o) (Z.of_nat n) m m' ->
  fields_at m' a (l ++ [(o, n, v)]).
Proof.
  intros Hp Hl Hv Ho. apply Forall_app. split; [|by repeat constructor].
  eapply fields_ext; [done..|]. left. lia.
Qed.

(** ** Views *)

(** Memory holds the headers [hs], the tags [ts] and the bytes [d], all apart. *)
Record view (m : gmap Z Z) (hs : gmap Z hdr) (ts : gmap Z tag) (d : gmap Z Z) : Prop := {
  v_hdr a h : hs !! a = Some h -> fields_at m a (hdr_fields h);
  v_tag a t : ts !! a = Some t -> fields_at m a (tag_fields t);
  v_data : d ⊆ m;
  v_hh a b : is_Some (hs !! a) -> is_Some (hs !! b) -> a = b \/ a + sizeof_block <= b \/ b + sizeof_block <= a;
  v_ht a b : is_Some (hs !! a) -> is_Some (ts !! b) -> a + sizeof_block <= b \/ b + sizeof_tag <= a;
  v_tt a b : is_Some (ts !! a) -> is_Some (ts !! b) -> a = b \/ a + sizeof_tag <= b \/ b + sizeof_tag <= a;
  v_hd a x : is_Some (hs !! a) -> is_Some (d !! x) -> x < a \/ a + sizeof_block <= x;
  v_td a x : is_Some (ts !! a) -> is_Some (d !! x) -> x < a \/ a + sizeof_tag <= x }.

Lemma view_subset m hs ts d hs' ts' d' : view m hs ts d -> hs' ⊆ hs -> ts' ⊆ ts -> d' ⊆ d -> view m hs' ts' d'.
Proof.
  intros V Hh Ht Hd. pose proof (lookup_weaken_is_Some (M := gmap Z) hs' hs) as Wh.
  pose proof (lookup_weaken_is_Some (M := gmap Z) ts' ts) as Wt. pose proof (lookup_weaken_is_Some (M := gmap Z) d' d) as Wd.
  destruct V. constructor; eauto using lookup_weaken. by etrans.
Qed.

(** A store inside one region keeps the others. *)
Lemma data_only d m m' a n : d ⊆ m -> only_at a n m m' -> (forall x, is_Some (d !! x) -> x < a \/ a + n <= x) -> d ⊆ m'.
Proof.
  intros Hd [Ho _] Hx. apply map_subseteq_spec. intros x v E. rewrite Ho; [by eapply lookup_weaken|]. apply Hx. by eexists.
Qed.

Lemma is_Some_insert {A} (m : gmap Z A) a v b : is_Some (m !! a) -> is_Some (<[a := v]> m !! b) -> is_Some (m !! b).
Proof. intros Ha. destruct (decide (a = b)) as [->|]; [done|]. by rewrite lookup_insert_ne. Qed.

Lemma view_store_hdr m hs ts d a h h' i o n v w :
  view m hs ts d -> hs !! a = Some h -> hdr_fields h !! i = Some (o, n, w) ->
  hdr_fields h' = <[i := (o, n, v)]> (hdr_fields h) -> 0 <= v < 2 ^ (8 * Z.of_nat n) ->
  exists m', poke n m (a + o) v = Some m' /\ view m' (<[a := h']> hs) ts d /\ (forall x, is_Some (m' !! x) <-> is_Some (m !! x)).
Proof.
  intros V Ha Hi Hh' Hv. pose proof (v_hdr _ _ _ _ V a h Ha) as Hf. pose proof (list_elem_of_lookup_2 _ _ _ Hi) as Hin.
  pose proof (packed_in _ _ _ _ _ _ (hdr_packed h) Hin) as Hr. unfold fields_at in Hf. rewrite Forall_forall in Hf.
  destruct (poke_spec n m (a + o) v) as (m' & E & Hp & Ho); [|done|].
  { intros x Hx. eapply peek_mapped; [apply (Hf _ Hin)|]. cbn. lia. }
  exists m'. split; [done|]. split; [|apply Ho]. assert (HaS : is_Some (hs !! a)) by by eexists.
  pose proof (only_at_weaken a sizeof_block _ _ _ _ Ho ltac:(lia) ltac:(lia)) as Ho'.
  assert (Hins : forall b, is_Some (<[a := h']> hs !! b) -> is_Some (hs !! b)) by (intros b; by apply is_Some_insert).
  constructor.
  - intros b hb Hb. destruct (decide (a = b)) as [<-|Hne].
    + rewrite lookup_insert_eq in Hb. injection Hb as <-. rewrite Hh'. eapply fields_store; [apply hdr_packed|by apply V|done..].
    + rewrite lookup_insert_ne in Hb by done. eapply fields_ext; [apply hdr_packed|by apply V|done|].
      destruct (v_hh _ _ _ _ V a b) as [?|[?|?]]; eauto; lia.
  - intros b t Hb. eapply fields_ext; [apply tag_packed|by apply V|done|].
    destruct (v_ht _ _ _ _ V a b) as [?|?]; eauto; lia.
  - eapply data_only; [apply V|done|]. intros x Hx. by apply (v_hd _ _ _ _ V).
  - intros b c Hb Hc. eapply (v_hh _ _ _ _ V); auto.
  - intros b c Hb Hc. eapply (v_ht _ _ _ _ V); auto.
  - apply V.
  - intros b x Hb Hx. eapply (v_hd _ _ _ _ V); auto.
  - apply V.
Qed.

Lemma view_store_tag m hs ts d a t t' i o n v w :
  view m hs ts d -> ts !! a = Some t -> tag_fields t !! i = Some (o, n, w) ->
  tag_fields t' = <[i := (o, n, v)]> (tag_fields t) -> 0 <= v < 2 ^ (8 * Z.of_nat n) ->
  exists m', poke n m (a + o) v = Some m' /\ view m' hs (<[a := t']> ts) d /\ (forall x, is_Some (m' !! x) <-> is_Some (m !! x)).
Proof.
  intros V Ha Hi Hh' Hv. pose proof (v_tag _ _ _ _ V a t Ha) as Hf. pose proof (list_elem_of_lookup_2 _ _ _ Hi) as Hin.
  pose proof (packed_in _ _ _ _ _ _ (tag_packed t) Hin) as Hr. unfold fields_at in Hf. rewrite Forall_forall in Hf.
  destruct (poke_spec n m (a + o) v) as (m' & E & Hp & Ho); [|done|].
  { intros x Hx. eapply peek_mapped; [apply (Hf _ Hin)|]. cbn. lia. }
  exists m'. split; [done|]. split; [|apply Ho]. assert (HaS : is_Some (ts !! a)) by by eexists.
  pose proof (only_at_weaken a sizeof_tag _ _ _ _ Ho ltac:(lia) ltac:(lia)) as Ho'.
  assert (Hins : forall b, is_Some (<[a := t']> ts !! b) -> is_Some (ts !! b)) by (intros b; by apply is_Some_insert).
  constructor.
  - intros b hb Hb. eapply fields_ext; [apply hdr_packed|by apply V|done|].
    destruct (v_ht _ _ _ _ V b a) as [?|?]; eauto; lia.
  - intros b tb Hb. destruct (decide (a = b)) as [<-|Hne].
    + rewrite lookup_insert_eq in Hb. injection Hb as <-. rewrite Hh'. eapply fields_store; [apply tag_packed|by apply V|done..].
    + rewrite lookup_insert_ne in Hb by done. eapply fields_ext; [apply tag_packed|by apply V|done|].
      destruct (v_tt _ _ _ _ V a b) as [?|[?|?]]; eauto; lia.
  - eapply data_only; [apply V|done|]. intros x Hx. by apply (v_td _ _ _ _ V).
  - apply V.
  - intros b c Hb Hc. eapply (v_ht _ _ _ _ V); auto.
  - intros b c Hb Hc. eapply (v_tt _ _ _ _ V); auto.
  - apply V.
  - intros b x Hb Hx. eapply (v_td _ _ _ _ V); auto.
Qed.

(** [n] bytes at [a] that no part of the view uses. *)
Definition unused (hs : gmap Z hdr) (ts : gmap Z tag) (d : gmap Z Z) (a n : Z) : Prop :=
  (forall b, is_Some (hs !! b) -> a + n <= b \/ b + sizeof_block <= a) /\
  (forall b, is_Some (ts !! b) -> a + n <= b \/ b + sizeof_tag <= a) /\
  (forall x, is_Some (d !! x) -> x < a \/ a + n <= x).

Lemma view_unused m m' hs ts d a n :
  view m hs ts d -> unused hs ts d a n -> only_at a n m m' -> view m' hs ts d.
Proof.
  intros V (Uh & Ut & Ud) Ho. constructor; try apply V.
  - intros b h Hb. eapply fields_ext; [apply hdr_packed|by apply V|done|].
    destruct (Uh b ltac:(by eexists)); lia.
  - intros b t Hb. eapply fields_ext; [apply tag_packed|by apply V|done|]. destruct (Ut b ltac:(by eexists)); lia.
  - eapply data_only; [apply V|done|done].
Qed.

Lemma view_add_hdr m hs ts d a h :
  view m hs ts d -> unused hs ts d a sizeof_block -> fields_at m a (hdr_fields h) -> view m (<[a := h]> hs) ts d.
Proof.
  intros V (Uh & Ut & Ud) Hf. assert (Hins : forall b, is_Some (<[a := h]> hs !! b) -> b = a \/ is_Some (hs !! b)).
  { intros b. destruct (decide (a = b)) as [->|]; [by left|]. rewrite lookup_insert_ne by done. by right. }
  constructor; try apply V.
  - intros b hb Hb. destruct (decide (a = b)) as [<-|].
    + rewrite lookup_insert_eq in Hb. by injection Hb as <-.
    + rewrite lookup_insert_ne in Hb by done. by apply V.
  - intros b c [->|Hb]%Hins [->|Hc]%Hins; [by left|right; by apply Uh|right; apply Uh in Hb; lia|by apply V].
  - intros b c [->|Hb]%Hins Hc; [by apply Ut|by apply V].
  - intros b x [->|Hb]%Hins Hx; [by apply Ud|by apply V].
Qed.

Lemma view_add_tag m hs ts d a t :
  view m hs ts d -> unused hs ts d a sizeof_tag -> fields_at m a (tag_fields t) -> view m hs (<[a := t]> ts) d.
Proof.
  intros V (Uh & Ut & Ud) Hf. assert (Hins : forall b, is_Some (<[a := t]> ts !! b) -> b = a \/ is_Some (ts !! b)).
  { intros b. destruct (decide (a = b)) as [->|]; [by left|]. rewrite lookup_insert_ne by done. by right. }
  constructor; try apply V.
  - intros b tb Hb. destruct (decide (a = b)) as [<-|].
    + rewrite lookup_insert_eq in Hb. by injection Hb as <-.
    + rewrite lookup_insert_ne in Hb by done. by apply V.
  - intros b c Hb [->|Hc]%Hins; [apply Uh in Hb; lia|by apply V].
  - intros b c [->|Hb]%Hins [->|Hc]%Hins; [by left|right; by apply Ut|right; apply Ut in Hb; lia|by apply V].
  - intros b x [->|Hb]%Hins Hx; [by apply Ud|by apply V].
Qed.

(** ** Loads and stores *)

Section wp.
Context {W : Type}.
Implicit Types (s : kstate W).

Lemma wp_ld_hdr s hs ts d a h o n v Q :
  view (mem s) hs ts d -> hs !! a = Some h -> (o, n, v) ∈ hdr_fields h -> Q v s -> wp (ld n (a + o)) Q s.
Proof.
  intros V Ha Hin HQ. pose proof (v_hdr _ _ _ _ V a h Ha) as Hf. unfold fields_at in Hf. rewrite Forall_forall in Hf.
  exists v, s. split; [|done]. unfold ld. specialize (Hf _ Hin). cbn [fst snd] in Hf. by rewrite Hf.
Qed.

Lemma wp_ld_tag s hs ts d a t o n v Q :
  view (mem s) hs ts d -> ts !! a = Some t -> (o, n, v) ∈ tag_fields t -> Q v s -> wp (ld n (a + o)) Q s.
Proof.
  intros V Ha Hin HQ. pose proof (v_tag _ _ _ _ V a t Ha) as Hf. unfold fields_at in Hf. rewrite Forall_forall in Hf.
  exists v, s. split; [|done]. unfold ld. specialize (Hf _ Hin). cbn [fst snd] in Hf. by rewrite Hf.
Qed.

Lemma wp_st_hdr s hs ts d a h h' i o n v w Q :
  view (mem s) hs ts d -> hs !! a = Some h -> hdr_fields h !! i = Some (o, n, w) ->
  hdr_fields h' = <[i := (o, n, v)]> (hdr_fields h) -> 0 <= v < 2 ^ (8 * Z.of_nat n) ->
  (forall m', view m' (<[a := h']> hs) ts d -> same_mapped (mem s) m' -> Q tt (s <| mem := m' |>)) ->
  wp (st n (a + o) v) Q s.
Proof.
  intros V Ha Hi Hh' Hv HQ. destruct (view_store_hdr _ _ _ _ _ _ _ _ _ _ _ _ V Ha Hi Hh' Hv) as (m' & E & V' & Hm).
  exists tt, (s <| mem := m' |>). split; [|by apply HQ]. unfold st. by rewrite E.
Qed.

Lemma wp_st_tag s hs ts d a t t' i o n v w Q :
  view (mem s) hs ts d -> ts !! a = Some t -> tag_fields t !! i = Some (o, n, w) ->
  tag_fields t' = <[i := (o, n, v)]> (tag_fields t) -> 0 <= v < 2 ^ (8 * Z.of_nat n) ->
  (forall m', view m' hs (<[a := t']> ts) d -> same_mapped (mem s) m' -> Q tt (s <| mem := m' |>)) ->
  wp (st n (a + o) v) Q s.
Proof.
  intros V Ha Hi Hh' Hv HQ. destruct (view_store_tag _ _ _ _ _ _ _ _ _ _ _ _ V Ha Hi Hh' Hv) as (m' & E & V' & Hm).
  exists tt, (s <| mem := m' |>). split; [|by apply HQ]. unfold st. by rewrite E.
Qed.

(** Storing into memory that no one uses, field after field. *)
Lemma wp_st_push s m0 a size l o n v Q :
  only_at a size m0 (mem s) -> (forall x, a <= x < a + size -> is_Some (m0 !! x)) -> fields_at (mem s) a l ->
  packed 0 l o -> 0 <= o -> o + Z.of_nat n <= size -> 0 <= v < 2 ^ (8 * Z.of_nat n) ->
  (forall m', only_at a size m0 m' -> fields_at m' a (l ++ [(o, n, v)]) -> Q tt (s <| mem := m' |>)) ->
  wp (st n (a + o) v) Q s.
Proof.
  intros Ho Hm Hl Hp H0 Hn Hv HQ. destruct (poke_spec n (mem s) (a + o) v) as (m' & E & Hpk & Ho'); [|done|].
  { intros x Hx. apply (proj2 Ho), Hm. lia. }
  exists tt, (s <| mem := m' |>). split; [unfold st; by rewrite E|]. apply HQ.
  - eapply only_at_trans; [done|]. eapply only_at_weaken; [done|lia..].
  - by eapply fields_push.
Qed.
End wp.

(** ** Handing out memory *)

(** Unused memory is a tag of some kind. *)
Lemma view_any_tag m hs ts d a :
  view m hs ts d -> unused hs ts d a sizeof_tag -> (forall x, a <= x < a + sizeof_tag -> is_Some (m !! x)) ->
  exists t, view m hs (<[a := t]> ts) d.
Proof.
  intros V U Hm. unfold sizeof_tag in Hm.
  assert (Hp : forall o, 0 <= o -> o + 8 <= 24 -> exists v, peek 8 m (a + o) = Some v).
  { intros o H0 H1. unfold peek. destruct (load_bytes_total 8 m (a + o)) as [l ->]; [intros x Hx; apply Hm; lia|]. cbn. eauto. }
  destruct (Hp t_cookie) as [v1 E1], (Hp t_block) as [v2 E2], (Hp t_requested) as [v3 E3];
    try (unfold t_cookie, t_block, t_requested; lia).
  exists (mk_tag v1 v2 v3). apply view_add_tag; [done..|]. by repeat constructor.
Qed.

Lemma view_add_data m hs ts d p n :
  view m hs ts d -> unused hs ts d p n -> view m hs ts (d ∪ bytes_in m p n).
Proof.
  intros V (Uh & Ut & Ud). assert (Hd : forall x, is_Some ((d ∪ bytes_in m p n) !! x) -> is_Some (d !! x) \/ p <= x < p + n).
  { intros x [v [Hv|[_ Hv]]%lookup_union_Some_raw]; [left; by eexists|]. apply bytes_in_Some in Hv as [_ Hv]. by right. }
  constructor; try apply V.
  - apply map_subseteq_spec. intros x v [Hv|[_ Hv]]%lookup_union_Some_raw; [by eapply lookup_weaken; [|apply V]|].
    by apply bytes_in_Some in Hv as [Hv _].
  - intros a x Ha [Hx|Hx]%Hd; [by apply (v_hd _ _ _ _ V)|]. destruct (Uh a Ha); lia.
  - intros a x Ha [Hx|Hx]%Hd; [by apply (v_td _ _ _ _ V)|]. destruct (Ut a Ha); lia.
Qed.

(** Memory below [e] is what it was. *)
Lemma view_below m m' hs ts d e :
  view m hs ts d -> (forall x, x < e -> m' !! x = m !! x) -> (forall a, is_Some (hs !! a) -> a + sizeof_block <= e) ->
  (forall a, is_Some (ts !! a) -> a + sizeof_tag <= e) -> (forall x, is_Some (d !! x) -> x < e) -> view m' hs ts d.
Proof.
  intros V Hm Hh Ht Hd.
  assert (Hf : forall a l size, packed 0 l size -> a + size <= e -> fields_at m a l -> fields_at m' a l).
  { intros a l size Hp Ha Hl. apply Forall_forall. intros [[p n] v] Hin. pose proof (packed_in _ _ _ _ _ _ Hp Hin).
    unfold fields_at in Hl. rewrite Forall_forall in Hl. specialize (Hl _ Hin). cbn [fst snd] in *. rewrite <- Hl.
    apply peek_ext. intros x Hx. apply Hm. lia. }
  constructor; try apply V.
  - intros a h Ha. eapply Hf; [apply hdr_packed|apply Hh; by eexists|by apply V].
  - intros a t Ha. eapply Hf; [apply tag_packed|apply Ht; by eexists|by apply V].
  - apply map_subseteq_spec. intros x v Hx. rewrite Hm by (apply Hd; by eexists). eapply lookup_weaken; [exact Hx|apply V].
Qed.
