(* ===== verification/HeapProps.v ===== *)
(** * The block list of the heap

    A well-formed heap is a list of adjacent blocks that the headers in memory
    link in order, with a tag in front of every allocation.  Splitting, merging,
    taking and releasing blocks in memory are the same steps on that list, and
    none of them touches the bytes of an allocation. *)

From S2P Require Import Prelude Errno Bytes Heap HeapMem.

(** ** Blocks *)

(** A block, with the pointer and size of its allocation. *)
Record blk := mk_blk { b_addr : Z; b_span : Z; b_use : option (Z * Z) }.

Definition hdr_of (prev next : Z) (b : blk) : hdr :=
  match b_use b with
  | None => mk_hdr KHEAP_BLOCK_MAGIC (b_span b) 0 0 prev next 1
  | Some (p, n) => mk_hdr KHEAP_BLOCK_MAGIC (b_span b) n p prev next 0
  end.
Definition tag_of (c a p n : Z) : tag := mk_tag (Z.lxor (Z.lxor c a) p) a n.

(** The allocations: block, pointer and size. *)
Definition allocs (bs : list blk) : list (Z * (Z * Z)) := omap (fun b => pair (b_addr b) <$> b_use b) bs.

Definition head_addr (bs : list blk) (nxt : Z) : Z := match bs with [] => nxt | b :: _ => b_addr b end.
Fixpoint last_addr (prv : Z) (bs : list blk) : Z := match bs with [] => prv | b :: r => last_addr (b_addr b) r end.

Fixpoint chain (hs : gmap Z hdr) (prv : Z) (bs : list blk) (nxt : Z) : Prop :=
  match bs with
  | [] => True
  | b :: r => hs !! b_addr b = Some (hdr_of prv (head_addr r nxt) b) /\ chain hs (b_addr b) r nxt
  end.

Fixpoint contig (a : Z) (bs : list blk) (e : Z) : Prop :=
  match bs with [] => a = e | b :: r => b_addr b = a /\ contig (a + b_span b) r e end.

Definition tags_ok (c : Z) (ts : gmap Z tag) (bs : list blk) : Prop :=
  forall a p n, (a, (p, n)) ∈ allocs bs -> ts !! (p - sizeof_tag) = Some (tag_of c a p n).
(** Addresses from the pointer of an allocation to the end of its block. *)
Definition in_room (bs : list blk) (x : Z) : Prop :=
  exists b p n, b ∈ bs /\ b_use b = Some (p, n) /\ p <= x < b_addr b + b_span b.

Record blk_ok (b : blk) : Prop := {
  bk_addr : (16 | b_addr b);
  bk_span : (16 | b_span b);
  bk_size : BLOCK_HEADER_SIZE <= b_span b;
  bk_use p n : b_use b = Some (p, n) ->
    (16 | p) /\ is_u64 n /\ b_addr b + BLOCK_HEADER_SIZE + sizeof_tag <= p <= b_addr b + b_span b }.

Lemma elem_of_allocs bs a p n : (a, (p, n)) ∈ allocs bs <-> exists b, b ∈ bs /\ b_addr b = a /\ b_use b = Some (p, n).
Proof.
  unfold allocs. rewrite list_elem_of_omap. split.
  - intros (b & Hb & E). exists b. destruct (b_use b) as [[? ?]|]; [|done]. by injection E as -> -> ->.
  - intros (b & Hb & <- & Hu). exists b. by rewrite Hu.
Qed.
Lemma allocs_app l r : allocs (l ++ r) = allocs l ++ allocs r.
Proof. apply omap_app. Qed.

Lemma allocs_cons b r : allocs (b :: r) = allocs [b] ++ allocs r.
Proof. apply (allocs_app [b] r). Qed.

Lemma elem_of_allocs_mid l b r a p n :
  (a, (p, n)) ∈ allocs (l ++ b :: r) <-> (a = b_addr b /\ b_use b = Some (p, n)) \/ (a, (p, n)) ∈ allocs (l ++ r).
Proof.
  rewrite !allocs_app, (allocs_cons b), !elem_of_app. cbn. destruct (b_use b) as [[q k]|]; cbn.
  - rewrite list_elem_of_singleton. split; [|intros [[-> [= -> ->]]|?]; tauto]. intros [?|[[= -> -> ->]|?]]; tauto.
  - rewrite elem_of_nil. split; [tauto|]. intros [[_ ?]|?]; [done|tauto].
Qed.

Lemma in_room_app l r x : in_room (l ++ r) x <-> in_room l x \/ in_room r x.
Proof. unfold in_room. setoid_rewrite elem_of_app. naive_solver. Qed.
Lemma in_room_cons b r x : in_room (b :: r) x <-> in_room [b] x \/ in_room r x.
Proof. apply (in_room_app [b] r). Qed.
Lemma in_room_one b x : in_room [b] x <-> exists p n, b_use b = Some (p, n) /\ p <= x < b_addr b + b_span b.
Proof. unfold in_room. setoid_rewrite list_elem_of_singleton. naive_solver. Qed.
Lemma in_room_mid l b r x : in_room (l ++ b :: r) x <-> in_room [b] x \/ in_room (l ++ r) x.
Proof. rewrite !in_room_app, in_room_cons. tauto. Qed.

Lemma header_size : BLOCK_HEADER_SIZE = 64.
Proof. done. Qed.
Lemma min_span : MIN_BLOCK_SPAN = 104.
Proof. done. Qed.

Lemma last_addr_app p l r : last_addr p (l ++ r) = last_addr (last_addr p l) r.
Proof. revert p. induction l as [|b l IH]; intros p; cbn; [done|]. apply IH. Qed.
Lemma head_addr_app l r q : head_addr (l ++ r) q = head_addr l (head_addr r q).
Proof. by destruct l. Qed.

Lemma blocks_chain_app hs p l r q :
  chain hs p (l ++ r) q <-> chain hs p l (head_addr r q) /\ chain hs (last_addr p l) r q.
Proof.
  revert p. induction l as [|b l IH]; intros p; cbn; [by split; [intros|intros [_ ?]]|].
  rewrite IH, head_addr_app. tauto.
Qed.

Lemma contig_app a l r e : contig a (l ++ r) e <-> exists m, contig a l m /\ contig m r e.
Proof.
  revert a. induction l as [|b l IH]; intros a; cbn.
  - split; [by exists a|]. intros (m & -> & ?). done.
  - rewrite IH. split; [intros (? & m & ? & ?); eauto|intros (m & [? ?] & ?); eauto].
Qed.

Lemma blocks_chain_ext hs hs' p bs q : (forall b, b ∈ bs -> hs' !! b_addr b = hs !! b_addr b) -> chain hs p bs q -> chain hs' p bs q.
Proof.
  revert p. induction bs as [|b bs IH]; intros p H; cbn; [done|]. intros [H1 H2]. split.
  - rewrite H by left. done.
  - apply IH; [|done]. intros c Hc. apply H. by right.
Qed.

Lemma chain_lookup hs p bs q b : chain hs p bs q -> b ∈ bs -> is_Some (hs !! b_addr b).
Proof.
  revert p. induction bs as [|c bs IH]; intros p H Hb; [by apply elem_of_nil in Hb|]. destruct H as [H1 H2].
  apply elem_of_cons in Hb as [->|Hb]; [by eexists|by eapply IH].
Qed.

(** Adjacent blocks are disjoint and in order. *)
Lemma contig_range a bs e b : contig a bs e -> Forall blk_ok bs -> b ∈ bs -> a <= b_addr b /\ b_addr b + b_span b <= e.
Proof.
  intros H Hok. revert a H. induction Hok as [|c bs Hc Hok IH]; intros a H Hb; [by apply elem_of_nil in Hb|].
  cbn in H. destruct H as [Ha Hr]. pose proof (bk_size _ Hc) as Hs. rewrite header_size in Hs.
  assert (Hmono : a + b_span c <= e).
  { clear -Hr Hok. revert Hr. generalize (a + b_span c). induction Hok as [|d bs Hd Hok IH]; intros z Hr; cbn in Hr; [lia|].
    destruct Hr as [_ Hr]. apply IH in Hr. pose proof (bk_size _ Hd) as Hs. rewrite header_size in Hs. lia. }
  apply elem_of_cons in Hb as [->|Hb]; [lia|]. apply (IH _ Hr) in Hb. lia.
Qed.

Lemma contig_disjoint a bs e b c :
  contig a bs e -> Forall blk_ok bs -> b ∈ bs -> c ∈ bs ->
  b = c \/ b_addr b + b_span b <= b_addr c \/ b_addr c + b_span c <= b_addr b.
Proof.
  intros H Hok. revert a H. induction Hok as [|d bs Hd Hok IH]; intros a H Hb Hc; [by apply elem_of_nil in Hb|].
  cbn in H. destruct H as [Ha Hr]. apply elem_of_cons in Hb as [->|Hb], Hc as [->|Hc].
  - by left.
  - apply (contig_range _ _ _ _ Hr Hok) in Hc. lia.
  - apply (contig_range _ _ _ _ Hr Hok) in Hb. lia.
  - by eapply IH.
Qed.

Lemma contig_length a bs e : contig a bs e -> Forall blk_ok bs -> 64 * Z.of_nat (length bs) <= e - a.
Proof.
  intros H Hok. revert a H. induction Hok as [|d bs Hd Hok IH]; intros a H; cbn in H; [cbn; lia|].
  destruct H as [_ Hr]. apply IH in Hr. pose proof (bk_size _ Hd) as Hs. rewrite header_size in Hs. cbn [length]. lia.
Qed.

(** ** Well-formed heaps *)

Section rep.
Context {W : Type}.
Abbreviation K := (M (kstate W)).
Implicit Types (s : kstate W) (bs l r : list blk) (d : gmap Z Z).

Record geometry (h : ns_kheap W) : Prop := {
  g_base : 0 < arena_base h /\ (16 | arena_base h);
  g_size : (4096 | arena_size h) /\ arena_base h + arena_size h < 2 ^ 64;
  g_committed : (4096 | committed_size h) /\ 0 <= committed_size h <= arena_size h;
  g_growth : 0 < minimum_growth_pages h < 2 ^ 64;
  g_cookie : is_u64 (cookie h) }.

(** The memory [m] holds exactly the blocks [bs] and the bytes [d] of allocations. *)
Definition holds (h : ns_kheap W) (m : gmap Z Z) bs d : Prop :=
  exists hs ts, view m hs ts d /\ chain hs NULL bs NULL /\ tags_ok (cookie h) ts bs /\
    (forall a, is_Some (hs !! a) -> exists b, b ∈ bs /\ a = b_addr b) /\
    (forall a, is_Some (ts !! a) -> exists b p n, (b, (p, n)) ∈ allocs bs /\ a = p - sizeof_tag) /\
    (forall x, is_Some (d !! x) -> in_room bs x).

Record rep s bs d : Prop := {
  r_geo : geometry (kheap s);
  r_mapped x : arena_base (kheap s) <= x < arena_base (kheap s) + committed_size (kheap s) -> is_Some (mem s !! x);
  r_holds : holds (kheap s) (mem s) bs d;
  r_contig : contig (arena_base (kheap s)) bs (arena_base (kheap s) + committed_size (kheap s));
  r_blocks : Forall blk_ok bs;
  r_first : first (kheap s) = head_addr bs NULL;
  r_last : last (kheap s) = last_addr NULL bs }.

(** Where a block of a heap lies. *)
Lemma rep_range s bs d b : rep s bs d -> b ∈ bs ->
  arena_base (kheap s) <= b_addr b /\ b_addr b + b_span b <= arena_base (kheap s) + committed_size (kheap s) /\
  64 <= b_span b /\ 0 < b_addr b /\ b_addr b + b_span b < 2 ^ 64.
Proof.
  intros R Hb. pose proof (contig_range _ _ _ _ (r_contig _ _ _ R) (r_blocks _ _ _ R) Hb) as [H1 H2].
  pose proof (proj1 (Forall_forall _ _) (r_blocks _ _ _ R) b Hb) as Hok. pose proof (bk_size _ Hok) as H3. rewrite header_size in H3.
  destruct (r_geo _ _ _ R) as [[? ?] [? ?] [? ?] _ _]. lia.
Qed.

(** Bytes of a block beyond its header, tag and data are used by nothing. *)
Lemma unused_in hs ts d bs c base e b a n :
  contig base bs e -> Forall blk_ok bs -> b ∈ bs -> tags_ok c ts bs ->
  (forall a, is_Some (hs !! a) -> exists b, b ∈ bs /\ a = b_addr b) ->
  (forall a, is_Some (ts !! a) -> exists b p n, (b, (p, n)) ∈ allocs bs /\ a = p - sizeof_tag) ->
  (forall x, is_Some (d !! x) -> in_room bs x) ->
  b_addr b + sizeof_block <= a -> 0 <= n -> a + n <= b_addr b + b_span b ->
  (forall p k, b_use b = Some (p, k) -> p <= a) -> (forall x, is_Some (d !! x) -> b_addr b <= x < b_addr b + b_span b -> x < a) ->
  unused hs ts d a n.
Proof.
  intros Hc Hok Hb Ht Dh Dt Dd Ha Hn Hfit Huse Hown. unfold unused, sizeof_block, sizeof_tag in *.
  assert (Hdis : forall c, c ∈ bs -> c = b \/ b_addr c + b_span c <= a \/ a + n <= b_addr c).
  { intros c' Hc'. destruct (contig_disjoint _ _ _ b c' Hc Hok Hb Hc') as [->|[?|?]]; [by left|right; lia|right; lia]. }
  rewrite Forall_forall in Hok. split_and!.
  - intros x Hx. destruct (Dh x Hx) as (c' & Hc' & ->). destruct (Hdis c' Hc') as [->|[?|?]]; [lia| |lia].
    pose proof (bk_size _ (Hok _ Hc')) as Hs. rewrite header_size in Hs. lia.
  - intros x Hx. destruct (Dt x Hx) as (? & p & k & (c' & Hc' & <- & Hu)%elem_of_allocs & ->). destruct (bk_use _ (Hok _ Hc') _ _ Hu) as (_ & H1 & H2).
    rewrite header_size in H2. unfold sizeof_tag in H2.
    destruct (Hdis c' Hc') as [->|[?|?]]; [specialize (Huse _ _ Hu); lia|lia|lia].
  - intros x Hx. destruct (Dd x Hx) as (c' & p & k & Hc' & Hu & Hr). destruct (bk_use _ (Hok _ Hc') _ _ Hu) as (_ & H1 & H2).
    rewrite header_size in H2. unfold sizeof_tag in H2.
    destruct (Hdis c' Hc') as [->|[?|?]]; [specialize (Hown _ Hx ltac:(lia)); lia|lia|lia].
Qed.

(** ** Members of a block *)

Definition with_span (b : blk) (n : Z) : blk := mk_blk (b_addr b) n (b_use b).
Definition free_flag (b : blk) : Z := match b_use b with None => 1 | Some _ => 0 end.

Lemma hdr_next prev next b : (o_next, 8%nat, next) ∈ hdr_fields (hdr_of prev next b).
Proof. unfold hdr_of. destruct (b_use b) as [[? ?]|]; unfold hdr_fields; set_solver. Qed.
Lemma hdr_previous prev next b : (o_previous, 8%nat, prev) ∈ hdr_fields (hdr_of prev next b).
Proof. unfold hdr_of. destruct (b_use b) as [[? ?]|]; unfold hdr_fields; set_solver. Qed.
Lemma hdr_span prev next b : (o_span, 8%nat, b_span b) ∈ hdr_fields (hdr_of prev next b).
Proof. unfold hdr_of. destruct (b_use b) as [[? ?]|]; unfold hdr_fields; set_solver. Qed.
Lemma hdr_magic prev next b : (o_magic, 8%nat, KHEAP_BLOCK_MAGIC) ∈ hdr_fields (hdr_of prev next b).
Proof. unfold hdr_of. destruct (b_use b) as [[? ?]|]; unfold hdr_fields; set_solver. Qed.
Lemma hdr_free prev next b : (o_free, 1%nat, free_flag b) ∈ hdr_fields (hdr_of prev next b).
Proof. unfold hdr_of, free_flag. destruct (b_use b) as [[? ?]|]; unfold hdr_fields; set_solver. Qed.

Lemma wp_set_next s hs ts d a prev next b x Q :
  view (mem s) hs ts d -> hs !! a = Some (hdr_of prev next b) -> is_u64 x ->
  (forall m', view m' (<[a := hdr_of prev x b]> hs) ts d -> same_mapped (mem s) m' -> Q tt (s <| mem := m' |>)) ->
  wp (st 8 (a + o_next) x) Q s.
Proof.
  intros V Ha Hx HQ. unfold hdr_of in *. destruct (b_use b) as [[? ?]|];
    (eapply (wp_st_hdr _ _ _ _ _ _ _ 5%nat); [exact V|exact Ha|reflexivity| | |exact HQ]; [reflexivity|done]).
Qed.

Lemma wp_set_previous s hs ts d a prev next b x Q :
  view (mem s) hs ts d -> hs !! a = Some (hdr_of prev next b) -> is_u64 x ->
  (forall m', view m' (<[a := hdr_of x next b]> hs) ts d -> same_mapped (mem s) m' -> Q tt (s <| mem := m' |>)) ->
  wp (st 8 (a + o_previous) x) Q s.
Proof.
  intros V Ha Hx HQ. unfold hdr_of in *. destruct (b_use b) as [[? ?]|];
    (eapply (wp_st_hdr _ _ _ _ _ _ _ 4%nat); [exact V|exact Ha|reflexivity| | |exact HQ]; [reflexivity|done]).
Qed.

Lemma wp_set_span s hs ts d a prev next b x Q :
  view (mem s) hs ts d -> hs !! a = Some (hdr_of prev next b) -> is_u64 x ->
  (forall m', view m' (<[a := hdr_of prev next (with_span b x)]> hs) ts d -> same_mapped (mem s) m' -> Q tt (s <| mem := m' |>)) ->
  wp (st 8 (a + o_span) x) Q s.
Proof.
  intros V Ha Hx HQ. unfold hdr_of, with_span in *. cbn [b_use b_span] in HQ. destruct (b_use b) as [[? ?]|];
    (eapply (wp_st_hdr _ _ _ _ _ _ _ 1%nat); [exact V|exact Ha|reflexivity| | |exact HQ]; [reflexivity|done]).
Qed.

(** A header whose magic is gone is one no longer. *)
Lemma wp_kill s hs ts d a prev next b x Q :
  view (mem s) hs ts d -> hs !! a = Some (hdr_of prev next b) -> is_u64 x ->
  (forall m', view m' (delete a hs) ts d -> same_mapped (mem s) m' -> Q tt (s <| mem := m' |>)) ->
  wp (st 8 (a + o_magic) x) Q s.
Proof.
  intros V Ha Hx HQ. destruct (hdr_of prev next b) as [h1 h2 h3 h4 h5 h6 h7] eqn:Eh.
  eapply (wp_st_hdr _ _ _ _ _ _ (mk_hdr x h2 h3 h4 h5 h6 h7) 0%nat); [exact V|exact Ha|reflexivity|reflexivity|done|].
  intros m' V' Hm. apply HQ; [|done]. eapply view_subset; [exact V'| |done|done].
  rewrite <- (delete_insert_eq hs a (mk_hdr x h2 h3 h4 h5 h6 h7)). apply delete_subseteq.
Qed.

(** A new header in unused memory. *)
Lemma wp_initialize s hs ts d a span prev next Q :
  view (mem s) hs ts d -> unused hs ts d a sizeof_block -> (forall x, a <= x < a + sizeof_block -> is_Some (mem s !! x)) ->
  is_u64 span -> is_u64 prev -> is_u64 next ->
  (forall m', view m' (<[a := hdr_of prev next (mk_blk a span None)]> hs) ts d -> same_mapped (mem s) m' -> Q tt (s <| mem := m' |>)) ->
  wp (initialize_free_block a span prev next) Q s.
Proof.
  intros V U Hm Hs Hp Hn HQ. unfold initialize_free_block. pose proof (only_at_refl a sizeof_block (mem s)) as H0.
  unfold sizeof_block, o_magic, o_span, o_requested, o_user_pointer, o_previous, o_next, o_free, o_reserved in *.
  assert (Hf0 : fields_at (mem s) a []) by constructor.
  assert (Hmg : is_u64 KHEAP_BLOCK_MAGIC) by (unfold KHEAP_BLOCK_MAGIC; lia).
  do 7 (apply wp_bind; eapply wp_st_push; [eassumption|exact Hm|eassumption|cbn; lia|lia|lia|cbn; lia|];
    clear H0 Hf0; intros ? H0 Hf0; cbn [app] in Hf0; revert H0 Hf0; cbn [set_field set_mem]; intros H0 Hf0).
  eapply wp_st_push; [eassumption|exact Hm|eassumption|cbn; lia|lia|lia|cbn; lia|].
  intros mm H8 Hf8. apply Forall_app in Hf8 as [Hf8 _].
  apply (HQ mm); [|exact (proj2 H8)]. apply view_add_hdr; [|done|exact Hf8]. eapply view_unused; [exact V|exact U|exact H8].
Qed.

(** Pointing what follows at a new predecessor. *)
Lemma wp_relink s hs ts d p x r Q :
  view (mem s) hs ts d -> chain hs p r NULL -> Forall (fun b => b_addr b <> NULL) r -> NoDup (b_addr <$> r) ->
  is_u64 x -> last (kheap s) = last_addr p r ->
  (forall m' hs', view m' hs' ts d -> chain hs' x r NULL -> same_mapped (mem s) m' ->
     (forall a, a ∉ b_addr <$> r -> hs' !! a = hs !! a) ->
     Q tt (s <| mem := m' |> <| kheap := (kheap s) <| last := last_addr x r |> |>)) ->
  wp (if negb (head_addr r NULL =? NULL) then st 8 (head_addr r NULL + o_previous) x else hset last x) Q s.
Proof.
  intros V Hc Hnn Hnd Hx Hl HQ. destruct r as [|k r]; cbn [head_addr].
  - rewrite Z.eqb_refl. cbn [negb]. apply wp_modify. apply (HQ (mem s) hs); try done. 
  - apply Forall_cons in Hnn as [Hk _]. rewrite (proj2 (Z.eqb_neq _ _) Hk). cbn [negb]. destruct Hc as [Hk1 Hc].
    eapply wp_set_previous; [exact V|exact Hk1|done|]. intros m' V' Hm. cbn [last_addr] in Hl.
    replace (s <| mem := m' |>) with (s <| mem := m' |> <| kheap := (kheap s) <| last := last_addr x (k :: r) |> |>).
    + rewrite fmap_cons in Hnd. apply NoDup_cons in Hnd as [Hni _]. eapply (HQ m' _ V'); [|done|].
      * split; [apply lookup_insert_eq|]. eapply blocks_chain_ext; [|exact Hc]. intros b Hb. apply lookup_insert_ne.
        intros E. apply Hni. rewrite E. by apply list_elem_of_fmap_2.
      * intros a Ha. apply lookup_insert_ne. intros <-. apply Ha. rewrite fmap_cons. left.
    + cbn [last_addr]. rewrite <- Hl. destruct s as [[]]. done.
Qed.

(** ** Steps on the block list *)

(** Headers and tags that no longer belong to a block can be forgotten. *)
Lemma holds_close (h : ns_kheap W) m hs ts d bs :
  view m hs ts d -> chain hs NULL bs NULL -> tags_ok (cookie h) ts bs ->
  (forall x, is_Some (d !! x) -> in_room bs x) -> holds h m bs d.
Proof.
  intros V C T D. set (tas := (fun u => u.2.1 - sizeof_tag) <$> allocs bs).
  exists (filter (fun x => x.1 ∈ b_addr <$> bs) hs), (filter (fun x => x.1 ∈ tas) ts). split_and!.
  - eapply view_subset; [exact V|apply map_filter_subseteq|apply map_filter_subseteq|done].
  - eapply blocks_chain_ext; [|exact C]. intros b Hb. destruct (chain_lookup _ _ _ _ b C Hb) as [hb Eb]. rewrite Eb.
    apply map_lookup_filter_Some. split; [done|]. cbn [fst]. by apply list_elem_of_fmap_2.
  - intros a p n Hu. apply map_lookup_filter_Some. split; [by apply T|]. cbn [fst].
    apply (list_elem_of_fmap_2 (fun u => u.2.1 - sizeof_tag) _ _ Hu).
  - intros a [hb [_ Ha]%map_lookup_filter_Some]. cbn in Ha. apply list_elem_of_fmap in Ha as (b & -> & Hb). eauto.
  - intros a [hb [_ Ha]%map_lookup_filter_Some]. cbn in Ha. apply list_elem_of_fmap in Ha as ([b [p n]] & -> & Hb). eauto.
  - done.
Qed.

Lemma contig_nodup a bs e : contig a bs e -> Forall blk_ok bs -> NoDup (b_addr <$> bs).
Proof.
  intros H Hok. revert a H. induction Hok as [|b bs Hb Hok IH]; intros a H; cbn in *; [constructor|]. destruct H as [Ha Hr].
  constructor; [|by eapply IH]. intros (c & Ec & Hc)%list_elem_of_fmap. apply (contig_range _ _ _ _ Hr Hok) in Hc.
  pose proof (bk_size _ Hb) as Hs. rewrite header_size in Hs. lia.
Qed.

(** The state after a step: memory and the last block. *)
Definition stepped s (m : gmap Z Z) (lst : Z) : kstate W := s <| mem := m |> <| kheap := (kheap s) <| last := lst |> |>.

(** Only memory that was mapped and the last block have changed. *)
Definition quiet s s' : Prop := exists m lst, s' = stepped s m lst /\ same_mapped (mem s) m.

Lemma quiet_refl s : quiet s s.
Proof. exists (mem s), (last (kheap s)). split; [by destruct s as [[]]|done]. Qed.
Lemma quiet_trans s1 s2 s3 : quiet s1 s2 -> quiet s2 s3 -> quiet s1 s3.
Proof.
  intros (m & x & -> & M) (m' & y & -> & M'). exists m', y. split; [by destruct s1 as [[]]|]. intros z. by rewrite (M' z), (M z).
Qed.
Lemma quiet_step s m x : same_mapped (mem s) m -> quiet s (stepped s m x).
Proof. intros M. by exists m, x. Qed.
Lemma quiet_mem s m : same_mapped (mem s) m -> quiet s (s <| mem := m |>).
Proof. intros M. exists m, (last (kheap s)). split; [by destruct s as [[]]|done]. Qed.

Lemma geometry_last (h : ns_kheap W) x : geometry h -> geometry (h <| last := x |>).
Proof. intros []. by constructor. Qed.

Lemma rep_step s bs bs' d d' m lst :
  rep s bs d -> same_mapped (mem s) m -> holds (kheap s) m bs' d' ->
  contig (arena_base (kheap s)) bs' (arena_base (kheap s) + committed_size (kheap s)) -> Forall blk_ok bs' ->
  head_addr bs' NULL = head_addr bs NULL -> lst = last_addr NULL bs' -> rep (stepped s m lst) bs' d'.
Proof.
  intros R Hm Hh Hc Hok Hf Hl. constructor; cbn; try done.
  - apply geometry_last, R.
  - intros x Hx. apply Hm. by apply (r_mapped _ _ _ R).
  - rewrite (r_first _ _ _ R). done.
Qed.

Lemma merged_ok b n : blk_ok b -> blk_ok n -> blk_ok (with_span b (b_span b + b_span n)).
Proof.
  intros Hb Hn. pose proof (bk_size _ Hb) as H1. pose proof (bk_size _ Hn) as H2. rewrite header_size in *.
  constructor; cbn; [apply Hb|apply Z.divide_add_r; [apply Hb|apply Hn]|rewrite header_size; lia|].
  intros p k Hu. destruct (bk_use _ Hb p k Hu) as (? & ? & ?). split; [done|]. split; [done|lia].
Qed.

Lemma head_u64 r : Forall (fun b => 0 < b_addr b /\ 0 <= b_span b /\ b_addr b + b_span b < 2 ^ 64) r -> is_u64 (head_addr r NULL).
Proof. destruct 1 as [|b r Hb _]; cbn; [done|lia]. Qed.

Lemma wp_absorb s hs ts d pb b n r Q :
  view (mem s) hs ts d -> hs !! b_addr b = Some (hdr_of pb (b_addr n) b) ->
  hs !! b_addr n = Some (hdr_of (b_addr b) (head_addr r NULL) n) -> chain hs (b_addr n) r NULL ->
  NoDup (b_addr <$> b :: n :: r) ->
  Forall (fun b => 0 < b_addr b /\ 0 <= b_span b /\ b_addr b + b_span b < 2 ^ 64) (b :: n :: r) ->
  b_span b + b_span n < 2 ^ 64 -> last (kheap s) = last_addr (b_addr n) r ->
  (forall m' hs', view m' hs' ts d -> same_mapped (mem s) m' ->
     hs' !! b_addr b = Some (hdr_of pb (head_addr r NULL) (with_span b (b_span b + b_span n))) ->
     chain hs' (b_addr b) r NULL -> (forall a, a ∉ b_addr <$> b :: n :: r -> hs' !! a = hs !! a) ->
     Q tt (stepped s m' (last_addr (b_addr b) r))) ->
  wp (absorb (b_addr b) (b_addr n)) Q s.
Proof.
  intros V Eb En C Nd Rg Hs Hl HQ. rewrite !fmap_cons in Nd. apply NoDup_cons in Nd as [Nb [Nn Nr]%NoDup_cons].
  pose proof Rg as [Rb [Rn Rr]%Forall_cons]%Forall_cons.
  assert (Hbn : b_addr b <> b_addr n) by (intros E; apply Nb; rewrite E; left).
  assert (Hbr : forall c, c ∈ r -> b_addr b <> b_addr c) by (intros c Hc E; apply Nb; rewrite E; right; by apply list_elem_of_fmap_2).
  unfold absorb. apply wp_bind. eapply wp_ld_hdr; [exact V|exact Eb|apply hdr_span|].
  apply wp_bind. eapply wp_ld_hdr; [exact V|exact En|apply hdr_span|]. rewrite u64_small by lia.
  apply wp_bind. eapply wp_set_span; [exact V|exact Eb|lia|]. clear V. intros m1 V M1. set (b' := with_span b (b_span b + b_span n)) in *.
  apply wp_bind. eapply wp_ld_hdr; [exact V|by rewrite lookup_insert_ne|apply hdr_next|].
  apply wp_bind. eapply wp_set_next; [exact V|apply lookup_insert_eq|by apply head_u64|]. clear V. intros m2 V M2. rewrite insert_insert_eq in V.
  apply wp_bind. eapply (wp_relink _ _ ts d (b_addr n) (b_addr b) r); [exact V| | |exact Nr|lia|exact Hl|].
  { eapply blocks_chain_ext; [|exact C]. intros c Hc. apply lookup_insert_ne. by apply Hbr. }
  { eapply Forall_impl; [exact Rr|]. cbn. unfold NULL. lia. }
  clear V. intros m3 hs3 V C3 M3 K3.
  assert (Kb : b_addr b ∉ b_addr <$> r) by (intros H; apply Nb; by right).
  eapply wp_kill; [exact V|rewrite K3, lookup_insert_ne by done; exact En|unfold KHEAP_DEAD_MAGIC; lia|].
  clear V. intros m4 V M4. eapply HQ; [exact V|intros x; by rewrite (M4 x), (M3 x), (M2 x), (M1 x)| | |].
  - rewrite lookup_delete_ne, K3, lookup_insert_eq by done. done.
  - eapply blocks_chain_ext; [|exact C3]. intros c Hc. apply lookup_delete_ne. intros E. apply Nn. rewrite E. by apply list_elem_of_fmap_2.
  - intros a Ha. rewrite !fmap_cons, !not_elem_of_cons in Ha. destruct Ha as (? & ? & ?).
    rewrite lookup_delete_ne, K3, lookup_insert_ne by congruence. done.
Qed.

(** The blocks before the changed part stay as they are. *)
Lemma rep_close s l mid mid' d d' m hs hs' ts' :
  rep s (l ++ mid) d -> chain hs NULL l (head_addr mid NULL) -> (forall c, c ∈ l -> hs' !! b_addr c = hs !! b_addr c) ->
  view m hs' ts' d' -> same_mapped (mem s) m -> chain hs' (last_addr NULL l) mid' NULL ->
  head_addr mid' NULL = head_addr mid NULL -> tags_ok (cookie (kheap s)) ts' (l ++ mid') ->
  (forall x, is_Some (d' !! x) -> in_room (l ++ mid') x) ->
  (forall a e, contig a mid e -> contig a mid' e) -> Forall blk_ok mid' ->
  rep (stepped s m (last_addr (last_addr NULL l) mid')) (l ++ mid') d'.
Proof.
  intros R C K V M C' Hh T D Hcg Hok. eapply (rep_step s (l ++ mid)); [done|done| | | | |].
  - apply (holds_close _ _ hs' ts'); [exact V| |done|done]. apply blocks_chain_app. split; [|done]. rewrite Hh. by eapply blocks_chain_ext.
  - pose proof (r_contig _ _ _ R) as Hc. apply contig_app in Hc as (z & Hc1 & Hc2). apply contig_app. eauto.
  - pose proof (r_blocks _ _ _ R) as Hb. apply Forall_app in Hb as [Hb _]. by apply Forall_app.
  - by rewrite !head_addr_app, Hh.
  - by rewrite last_addr_app.
Qed.

Lemma rep_part s l mid d : rep s (l ++ mid) d ->
  NoDup (b_addr <$> mid) /\ (forall c, c ∈ l -> b_addr c ∉ b_addr <$> mid) /\
  Forall (fun b => 0 < b_addr b /\ 0 <= b_span b /\ b_addr b + b_span b < 2 ^ 64) mid.
Proof.
  intros R. pose proof (contig_nodup _ _ _ (r_contig _ _ _ R) (r_blocks _ _ _ R)) as Hnd.
  rewrite fmap_app in Hnd. apply NoDup_app in Hnd as (_ & Hlr & Hr). split_and!; [done| |].
  - intros c Hc. apply Hlr. by apply list_elem_of_fmap_2.
  - apply Forall_forall. intros c Hc. pose proof (rep_range _ _ _ c R ltac:(apply elem_of_app; by right)). lia.
Qed.

(** Merging with a free successor. *)
Lemma wp_merge s l b n r d Q :
  rep s (l ++ b :: n :: r) d -> b_use n = None ->
  (forall s', quiet s s' -> rep s' (l ++ with_span b (b_span b + b_span n) :: r) d -> Q (b_addr b) s') ->
  wp (merge_next (b_addr b)) Q s.
Proof.
  intros R Hn HQ. destruct (rep_part _ _ _ _ R) as (Nd & Hl & Rg).
  pose proof (r_last _ _ _ R) as Hlast. rewrite last_addr_app in Hlast. cbn [last_addr] in Hlast.
  pose proof Rg as [Rb [Rn Rr]%Forall_cons]%Forall_cons. pose proof (r_contig _ _ _ R) as Hc.
  apply contig_app in Hc as (z & _ & Hb & Hadj & _).
  pose proof (r_holds _ _ _ R) as (hs & ts & V & C & T & Dh & Dt & Dd). apply blocks_chain_app in C as [C1 (Eb & En & C2)]. cbn [head_addr] in Eb.
  unfold merge_next. apply wp_bind. eapply wp_ld_hdr; [exact V|exact Eb|apply hdr_next|].
  rewrite (proj2 (Z.eqb_neq (b_addr n) NULL)) by (unfold NULL; lia). apply wp_bind. eapply wp_ld_hdr; [exact V|exact En|apply hdr_free|].
  unfold free_flag. rewrite Hn. cbn [Z.eqb orb]. apply wp_bind.
  eapply wp_absorb; [exact V|exact Eb|exact En|exact C2|exact Nd|exact Rg|lia|exact Hlast|].
  intros m hs' V' M Eb' C' K. apply wp_ret, HQ; [by apply quiet_step|].
  apply (rep_close s l (b :: n :: r) (with_span b (b_span b + b_span n) :: r) d d m hs hs' ts); try done.
  - intros c Hc. by apply K, Hl.
  - unfold tags_ok in *. rewrite allocs_app in *. cbn in *. by rewrite Hn in T.
  - intros x Hx. apply Dd in Hx. rewrite in_room_mid, (in_room_mid l n), !in_room_one in Hx.
    rewrite in_room_mid, in_room_one. cbn. rewrite Hn in Hx. destruct Hx as [(p & k & ? & ?)|[(? & ? & ? & _)|?]]; [|done|tauto].
    left. exists p, k. split; [done|lia].
  - intros a e (? & ? & He). split; [done|]. cbn. by rewrite Z.add_assoc.
  - pose proof (r_blocks _ _ _ R) as Hok. apply Forall_app in Hok as [_ [H2 [H3 H4]%Forall_cons]%Forall_cons].
    constructor; [by apply merged_ok|done].
Qed.

(** No merge with a missing successor or one in use. *)
Lemma wp_merge_none s l b r d Q :
  rep s (l ++ b :: r) d -> match r with [] => True | n :: _ => b_use n <> None end ->
  Q (b_addr b) s -> wp (merge_next (b_addr b)) Q s.
Proof.
  intros R Hn HQ. destruct (rep_part _ _ _ _ R) as (_ & _ & [Rb Rr]%Forall_cons).
  pose proof (r_holds _ _ _ R) as (hs & ts & V & C & _). apply blocks_chain_app in C as [_ (Eb & C2)].
  unfold merge_next. apply wp_bind. eapply wp_ld_hdr; [exact V|exact Eb|apply hdr_next|]. destruct r as [|n r]; cbn [head_addr].
  - rewrite Z.eqb_refl. apply wp_bind, wp_ret. cbn [orb]. by apply wp_ret.
  - apply Forall_cons in Rr as [Rn _]. rewrite (proj2 (Z.eqb_neq (b_addr n) NULL)) by (unfold NULL; lia). destruct C2 as [En _].
    apply wp_bind. eapply wp_ld_hdr; [exact V|exact En|apply hdr_free|]. unfold free_flag. destruct (b_use n); [|done].
    cbn [Z.eqb orb]. by apply wp_ret.
Qed.

(** The block and what follows it after it is cut to [c] bytes. *)
Definition split_blocks b r (c : Z) : list blk :=
  if b_span b - c <? MIN_BLOCK_SPAN then b :: r
  else
    let t := mk_blk (b_addr b + c) (b_span b - c) None in
    match r with
    | n :: r' => match b_use n with
                 | None => with_span b c :: with_span t (b_span t + b_span n) :: r'
                 | Some _ => with_span b c :: t :: r
                 end
    | [] => [with_span b c; t]
    end.

(** The last two stores of a split: the block is linked to its tail and cut. *)
Lemma wp_split_finish s m1 l b r c nx t r1 d hs hs1 ts Q :
  rep s (l ++ b :: r) d -> chain hs NULL l (b_addr b) -> tags_ok (cookie (kheap s)) ts (l ++ b :: r) ->
  (forall x, is_Some (d !! x) -> in_room (l ++ b :: r) x) -> same_mapped (mem s) m1 -> view m1 hs1 ts d ->
  hs1 !! b_addr b = Some (hdr_of (last_addr NULL l) nx b) -> hs1 !! b_addr t = Some (hdr_of (b_addr b) (head_addr r1 NULL) t) ->
  chain hs1 (b_addr t) r1 NULL -> (forall c, c ∈ l -> hs1 !! b_addr c = hs !! b_addr c) ->
  b_addr b ∉ b_addr <$> t :: r1 -> is_u64 (b_addr t) -> is_u64 c -> allocs (t :: r1) = allocs r ->
  (forall x, in_room r x -> in_room (t :: r1) x) -> (forall x, is_Some (d !! x) -> b_addr b <= x < b_addr b + b_span b -> x < b_addr b + c) ->
  (forall a e, contig a (b :: r) e -> contig a (with_span b c :: t :: r1) e) -> Forall blk_ok (with_span b c :: t :: r1) ->
  (forall s', quiet s s' -> rep s' (l ++ with_span b c :: t :: r1) d -> Q tt s') ->
  wp (st 8 (b_addr b + o_next) (b_addr t);; st 8 (b_addr b + o_span) c) Q (stepped s m1 (last_addr (b_addr t) r1)).
Proof.
  intros R C1 T Dd M1 V Eb Et C2 K Nb Ht Hc Hal Hroom Hown Hcg Hok HQ. destruct (rep_part _ _ _ _ R) as (_ & Hl & _).
  rewrite fmap_cons, not_elem_of_cons in Nb. destruct Nb as [Nbt Nbr].
  apply wp_bind. eapply wp_set_next; [exact V|exact Eb|done|]. clear V. intros m2 V M2.
  eapply wp_set_span; [exact V|apply lookup_insert_eq|done|]. clear V. intros m3 V M3. rewrite insert_insert_eq in V.
  assert (M : same_mapped (mem s) m3) by (intros x; by rewrite (M3 x), (M2 x), (M1 x)).
  apply (HQ (stepped s m3 (last_addr (b_addr t) r1))); [by apply quiet_step|].
  assert (Hal' : allocs (l ++ with_span b c :: t :: r1) = allocs (l ++ b :: r)).
  { rewrite !allocs_app, (allocs_cons (with_span b c)), (allocs_cons b), Hal. done. }
  set (hs3 := <[_ := _]> hs1) in *.
  assert (K3 : forall a, a <> b_addr b -> hs3 !! a = hs1 !! a) by (intros a Ha; by apply lookup_insert_ne).
  apply (rep_close s l (b :: r) (with_span b c :: t :: r1) d d m3 hs hs3 ts); try done.
  - intros e He. rewrite K3 by (intros E; apply (Hl e He); rewrite E, fmap_cons; left). by apply K.
  - split; [apply lookup_insert_eq|]. split.
    + change (b_addr (with_span b c)) with (b_addr b). rewrite K3 by done. exact Et.
    + eapply blocks_chain_ext; [|exact C2]. intros e He. apply K3. intros E. apply Nbr. rewrite <- E. by apply list_elem_of_fmap_2.
  - unfold tags_ok in *. by rewrite Hal'.
  - intros x Hx. pose proof (Dd x Hx) as Hr. rewrite in_room_mid, in_room_app, in_room_one in Hr. rewrite in_room_mid, in_room_app, in_room_one. cbn.
    destruct Hr as [(p & k & Hu & Hp)|[?|?]]; [|tauto|right; right; auto]. left. exists p, k. split; [done|].
    destruct (bk_use _ (proj1 (Forall_forall _ _) (r_blocks _ _ _ R) b ltac:(set_solver)) p k Hu) as (_ & _ & Hpa). rewrite header_size in Hpa.
    unfold sizeof_tag in Hpa. specialize (Hown x Hx). lia.
Qed.

Lemma cut_ok b c : blk_ok b -> (16 | c) -> BLOCK_HEADER_SIZE <= c ->
  (forall p n, b_use b = Some (p, n) -> p <= b_addr b + c) -> blk_ok (with_span b c).
Proof.
  intros Hb Hc H64 Hu. constructor; cbn; [apply Hb|done|done|]. intros p n Hp.
  destruct (bk_use _ Hb p n Hp) as (? & ? & ? & ?). specialize (Hu p n Hp). split; [done|]. split; [done|lia].
Qed.

Lemma tail_ok b c : blk_ok b -> (16 | c) -> 104 <= b_span b - c -> blk_ok (mk_blk (b_addr b + c) (b_span b - c) None).
Proof.
  intros Hb Hc Hm. constructor; cbn; [apply Z.divide_add_r; [apply Hb|done]|apply Z.divide_sub_r; [apply Hb|done]|rewrite header_size; lia|done].
Qed.

(** From the relinked tail to the end of a split. *)
Lemma wp_split_tail s m2 l b r c d hs hs2 ts Q :
  let t := mk_blk (b_addr b + c) (b_span b - c) None in
  rep s (l ++ b :: r) d -> (16 | c) -> 64 <= c -> 104 <= b_span b - c ->
  (forall p n, b_use b = Some (p, n) -> p <= b_addr b + c) ->
  (forall x, is_Some (d !! x) -> b_addr b <= x < b_addr b + b_span b -> x < b_addr b + c) -> chain hs NULL l (b_addr b) ->
  tags_ok (cookie (kheap s)) ts (l ++ b :: r) -> (forall x, is_Some (d !! x) -> in_room (l ++ b :: r) x) ->
  hs !! b_addr b = Some (hdr_of (last_addr NULL l) (head_addr r NULL) b) -> same_mapped (mem s) m2 -> view m2 hs2 ts d ->
  chain hs2 (b_addr t) r NULL -> NoDup (b_addr <$> b :: t :: r) -> (forall c, c ∈ l -> b_addr c ∉ b_addr <$> b :: t :: r) ->
  (forall a, a ∉ b_addr <$> r -> hs2 !! a = <[b_addr t := hdr_of (b_addr b) (head_addr r NULL) t]> hs !! a) ->
  (forall s', quiet s s' -> rep s' (l ++ split_blocks b r c) d -> Q tt s') ->
  wp (fr ← (if negb (head_addr r NULL =? NULL) then ld 1 (head_addr r NULL + o_free) else mret 0);
      when (negb (fr =? 0)) (absorb (b_addr t) (head_addr r NULL));;
      st 8 (b_addr b + o_next) (b_addr t);; st 8 (b_addr b + o_span) c) Q (stepped s m2 (last_addr (b_addr t) r)).
Proof.
  intros t R Hc16 H64 Hm Hu Hown C1 T Dd Eb M V C3 Nd Hl K HQ. destruct (rep_part _ _ _ _ R) as (_ & _ & [Rb Rr]%Forall_cons).
  pose proof (r_blocks _ _ _ R) as Hok. apply Forall_app in Hok as [_ [Hokb Hokr]%Forall_cons].
  unfold split_blocks in HQ. rewrite min_span, (proj2 (Z.ltb_ge _ _) Hm) in HQ. fold t in HQ.
  rewrite !fmap_cons in Nd. apply NoDup_cons in Nd as [Nb [Nt Nr]%NoDup_cons].
  assert (Nb' := Nb). rewrite not_elem_of_cons in Nb'. destruct Nb' as [Nbt Nbr].
  assert (Kb : hs2 !! b_addr b = Some (hdr_of (last_addr NULL l) (head_addr r NULL) b)) by (rewrite K, lookup_insert_ne by congruence; exact Eb).
  assert (Kt : hs2 !! b_addr t = Some (hdr_of (b_addr b) (head_addr r NULL) t)) by (rewrite K by done; apply lookup_insert_eq).
  assert (Kl : forall e, e ∈ l -> hs2 !! b_addr e = hs !! b_addr e).
  { intros e He. specialize (Hl e He). rewrite !fmap_cons, !not_elem_of_cons in Hl. destruct Hl as (? & ? & ?).
    by rewrite K, lookup_insert_ne by congruence. }
  assert (Ht : is_u64 (b_addr t)) by (cbn; lia).
  assert (Hcut : blk_ok (with_span b c)) by (apply cut_ok; try done; rewrite header_size; lia).
  assert (Htl : blk_ok t) by (by apply tail_ok).
  assert (Hkeep : (forall s', quiet s s' -> rep s' (l ++ with_span b c :: t :: r) d -> Q tt s') ->
    wp (st 8 (b_addr b + o_next) (b_addr t);; st 8 (b_addr b + o_span) c) Q (stepped s m2 (last_addr (b_addr t) r))).
  { intros HQ'. eapply (wp_split_finish s m2 l b r c _ t r d hs hs2 ts); try done; [lia|intros x ?; apply in_room_cons; by right| |by apply Forall_cons_2; [|apply Forall_cons_2]].
    intros a e [Ha He]. cbn. split_and!; [done|lia|]. by replace (a + c + (b_span b - c)) with (a + b_span b) by lia. }
  destruct r as [|n r]; cbn [head_addr].
  { rewrite Z.eqb_refl. apply wp_bind, wp_ret, wp_bind, wp_ret. by apply Hkeep. }
  pose proof Rr as [Rn _]%Forall_cons. rewrite (proj2 (Z.eqb_neq (b_addr n) NULL)) by (unfold NULL; lia). cbn [negb].
  destruct C3 as [En C3]. apply wp_bind. eapply wp_ld_hdr; [exact V|exact En|apply hdr_free|]. unfold free_flag.
  destruct (b_use n) as [[p k]|] eqn:Hn; cbn [Z.eqb negb when]; [apply wp_bind, wp_ret; by apply Hkeep|].
  rewrite fmap_cons in Nt, Nbr. rewrite not_elem_of_cons in Nbr. destruct Nbr as [Nbn Nbr].
  pose proof (r_contig _ _ _ R) as Hcg. apply contig_app in Hcg as (z & _ & Hz & Hzn & _).
  apply wp_bind. eapply (wp_absorb _ hs2 ts d (b_addr b) t n r); [exact V|exact Kt|exact En|exact C3| | |cbn; lia|done|].
  { rewrite !fmap_cons. by constructor. }
  { constructor; [cbn; lia|done]. }
  intros m3 hs3 V3 M3 Et C4 K4. set (t' := with_span t (b_span t + b_span n)) in *. rewrite !fmap_cons in K4.
  assert (Nb4 : b_addr b ∉ b_addr t :: b_addr n :: (b_addr <$> r)) by (by rewrite !not_elem_of_cons).
  apply (wp_split_finish s m3 l b (n :: r) c (b_addr n) t' r d hs hs3 ts); try done; try lia.
  - intros x. by rewrite (M3 x), (M x).
  - by rewrite K4.
  - intros e He. specialize (Hl e He). rewrite !fmap_cons, !not_elem_of_cons in Hl. rewrite K4 by (rewrite !not_elem_of_cons; tauto). by apply Kl.
  - rewrite fmap_cons. change (b_addr t') with (b_addr t). rewrite not_elem_of_cons. by split.
  - rewrite (allocs_cons n). cbn. by rewrite Hn.
  - intros x [(? & ? & E & _)%in_room_one|?]%in_room_cons; [congruence|]. apply in_room_cons. by right.
  - intros a e (Ha & Han & He). cbn. split_and!; [done|lia|].
    by replace (a + c + (b_span b - c + b_span n)) with (a + b_span b + b_span n) by lia.
  - apply Forall_cons in Hokr as [Hokn Hokr]. constructor; [done|]. constructor; [by apply merged_ok|done].
Qed.

Lemma wp_split s l b r c d Q :
  rep s (l ++ b :: r) d -> (16 | c) -> BLOCK_HEADER_SIZE <= c <= b_span b ->
  (forall p n, b_use b = Some (p, n) -> p <= b_addr b + c) ->
  (forall x, is_Some (d !! x) -> b_addr b <= x < b_addr b + b_span b -> x < b_addr b + c) ->
  (forall s', quiet s s' -> rep s' (l ++ split_blocks b r c) d -> Q tt s') -> wp (split_trailing (b_addr b) c) Q s.
Proof.
  intros R Hc16 Hc Hu Hown HQ. rewrite header_size in Hc. destruct (rep_part _ _ _ _ R) as (Nd & Hl & Rg).
  pose proof (r_last _ _ _ R) as Hlast. rewrite last_addr_app in Hlast. cbn [last_addr] in Hlast.
  pose proof Rg as [Rb Rr]%Forall_cons. pose proof (r_contig _ _ _ R) as Hcg. apply contig_app in Hcg as (z & _ & Hz & Hcg).
  pose proof (r_holds _ _ _ R) as (hs & ts & V & C & T & Dh & Dt & Dd). apply blocks_chain_app in C as [C1 (Eb & C2)].
  unfold split_trailing. apply wp_bind. eapply wp_ld_hdr; [exact V|exact Eb|apply hdr_span|]. rewrite u64_small by lia.
  unfold split_blocks in HQ. destruct (Z.ltb_spec (b_span b - c) MIN_BLOCK_SPAN) as [Hm|Hm]; [apply wp_ret, HQ; [apply quiet_refl|done]|].
  rewrite min_span in Hm. set (t := mk_blk (b_addr b + c) (b_span b - c) None) in *.
  apply wp_bind. eapply wp_ld_hdr; [exact V|exact Eb|apply hdr_next|]. rewrite (u64_small (b_addr b + c)) by lia.
  change (b_addr b + c) with (b_addr t). apply wp_bind. eapply wp_initialize; [exact V| | |cbn; lia|lia|by apply head_u64|].
  { eapply (unused_in hs ts d (l ++ b :: r) _ _ _ b); [apply R|apply R|set_solver|exact T|exact Dh|exact Dt|exact Dd| | | |exact Hu|exact Hown];
      cbn; unfold sizeof_block; lia. }
  { intros x Hx. apply (r_mapped _ _ _ R). pose proof (rep_range _ _ _ b R ltac:(set_solver)). unfold sizeof_block in Hx. cbn in Hx. lia. }
  clear V. intros m1 V M1. change (mk_blk (b_addr t) (b_span b - c) None) with t in V.
  rewrite fmap_cons in Nd. apply NoDup_cons in Nd as [Nb Nr].
  assert (Htr : b_addr t ∉ b_addr <$> r).
  { intros (k & E & Hk)%list_elem_of_fmap. apply (contig_range _ _ _ k Hcg) in Hk; [|pose proof (r_blocks _ _ _ R) as Hb; rewrite Forall_app, Forall_cons in Hb; apply Hb].
    cbn in E. lia. }
  apply wp_bind. eapply (wp_relink _ _ ts d (b_addr b) (b_addr t) r); [exact V| | |exact Nr|cbn; lia|exact Hlast|].
  { eapply blocks_chain_ext; [|exact C2]. intros k Hk. apply lookup_insert_ne. intros E. apply Htr. rewrite E. by apply list_elem_of_fmap_2. }
  { eapply Forall_impl; [exact Rr|]. cbn. unfold NULL. lia. }
  clear V. intros m2 hs2 V C3 M2 K2.
  apply (wp_split_tail s m2 l b r c d hs hs2 ts); try done; try lia.
  - intros x. by rewrite (M2 x), (M1 x).
  - rewrite !fmap_cons. constructor; [|by constructor]. rewrite not_elem_of_cons. split; [cbn; lia|done].
  - intros e He. specialize (Hl e He). rewrite !fmap_cons, !not_elem_of_cons in *. destruct Hl as [H1 H2]. split_and!; try done.
    intros E. pose proof (rep_range _ _ _ e R ltac:(set_solver)) as Re.
    destruct (contig_disjoint _ _ _ b e (r_contig _ _ _ R) (r_blocks _ _ _ R)) as [->|[?|?]]; [set_solver|set_solver|done|cbn in E; lia|cbn in E; lia].
  - intros s'. unfold split_blocks. rewrite min_span, (proj2 (Z.ltb_ge _ _) Hm). apply HQ.
Qed.

Definition with_use (b : blk) (u : option (Z * Z)) : blk := mk_blk (b_addr b) (b_span b) u.

(** Bytes of a free block beyond its header. *)
Lemma rep_unused s hs ts l b r d a n :
  rep s (l ++ b :: r) d -> view (mem s) hs ts d -> tags_ok (cookie (kheap s)) ts (l ++ b :: r) ->
  (forall a, is_Some (hs !! a) -> exists b', b' ∈ l ++ b :: r /\ a = b_addr b') ->
  (forall a, is_Some (ts !! a) -> exists b' p n, (b', (p, n)) ∈ allocs (l ++ b :: r) /\ a = p - sizeof_tag) ->
  (forall x, is_Some (d !! x) -> in_room (l ++ b :: r) x) ->
  b_addr b + sizeof_block <= a -> 0 <= n -> a + n <= b_addr b + b_span b ->
  (forall p k, b_use b = Some (p, k) -> p <= a) -> (forall x, is_Some (d !! x) -> b_addr b <= x < b_addr b + b_span b -> x < a) ->
  unused hs ts d a n /\ (forall x, a <= x < a + n -> is_Some (mem s !! x)).
Proof.
  intros R V T Dh Dt Dd Ha Hn Hfit Hu Hown. split.
  - eapply (unused_in hs ts d (l ++ b :: r) _ _ _ b); [apply R|apply R|set_solver|done..].
  - intros x Hx. apply (r_mapped _ _ _ R). pose proof (rep_range _ _ _ b R ltac:(set_solver)). unfold sizeof_block in *. lia.
Qed.

(** A block with another use in its place. *)
Lemma rep_reuse s l b b' r d d' m hs ts' :
  rep s (l ++ b :: r) d -> chain hs NULL (l ++ b :: r) NULL -> b_addr b' = b_addr b -> b_span b' = b_span b -> blk_ok b' ->
  view m (<[b_addr b := hdr_of (last_addr NULL l) (head_addr r NULL) b']> hs) ts' d' -> same_mapped (mem s) m ->
  tags_ok (cookie (kheap s)) ts' (l ++ b' :: r) -> (forall x, is_Some (d' !! x) -> in_room (l ++ b' :: r) x) ->
  rep (s <| mem := m |>) (l ++ b' :: r) d'.
Proof.
  intros R C Ea Es Hok V M T D. destruct (rep_part _ _ _ _ R) as (Nd & Hl & _). apply blocks_chain_app in C as [C1 (_ & C2)].
  rewrite fmap_cons in Nd. apply NoDup_cons in Nd as [Nb _].
  replace (s <| mem := m |>) with (stepped s m (last_addr (last_addr NULL l) (b' :: r))).
  - apply (rep_close s l (b :: r) (b' :: r) d d' m hs (<[b_addr b := hdr_of (last_addr NULL l) (head_addr r NULL) b']> hs) ts'); try done.
    + intros c Hc. apply lookup_insert_ne. intros E. apply (Hl c Hc). rewrite <- E, fmap_cons. left.
    + cbn [chain]. rewrite Ea. split; [apply lookup_insert_eq|]. eapply blocks_chain_ext; [|exact C2]. intros c Hc. apply lookup_insert_ne.
      intros E. apply Nb. rewrite E. by apply list_elem_of_fmap_2.
    + intros a e [Ha He]. cbn [contig]. by rewrite Ea, Es.
    + pose proof (r_blocks _ _ _ R) as Hb. apply Forall_app in Hb as [_ [_ Hb]%Forall_cons]. by apply Forall_cons_2.
  - pose proof (r_last _ _ _ R) as Hlast. rewrite last_addr_app in Hlast. cbn [last_addr] in *. rewrite Ea, <- Hlast.
    by destruct s as [[]].
Qed.

(** A free block holds no data. *)
Lemma free_no_data s l b r d x :
  rep s (l ++ b :: r) d -> b_use b = None -> (forall x, is_Some (d !! x) -> in_room (l ++ b :: r) x) ->
  is_Some (d !! x) -> b_addr b <= x < b_addr b + b_span b -> False.
Proof.
  intros R Hb Dd Hx Hr. destruct (Dd x Hx) as (c & p & n & Hc & Hu & Hp).
  pose proof (r_blocks _ _ _ R) as Hok. rewrite Forall_forall in Hok. destruct (bk_use _ (Hok c Hc) p n Hu) as (_ & _ & Hpa).
  rewrite header_size in Hpa. unfold sizeof_tag in Hpa.
  destruct (contig_disjoint _ _ _ b c (r_contig _ _ _ R) (r_blocks _ _ _ R)) as [->|[?|?]]; [set_solver|done|congruence|lia|lia].
Qed.

(** A free block becomes an allocation. *)
Lemma wp_mark s l b r d p n Q :
  rep s (l ++ b :: r) d -> b_use b = None -> blk_ok (with_use b (Some (p, n))) -> p + n <= b_addr b + b_span b ->
  (forall s', quiet s s' -> rep s' (l ++ with_use b (Some (p, n)) :: r) (d ∪ bytes_in (mem s) p n) -> Q tt s') ->
  wp (st 1 (b_addr b + o_free) 0;; st 8 (b_addr b + o_requested) n;; st 8 (b_addr b + o_user_pointer) p;;
      st 8 (p - sizeof_tag + t_block) (b_addr b);; st 8 (p - sizeof_tag + t_requested) n;;
      c ← allocation_cookie (b_addr b) p; st 8 (p - sizeof_tag + t_cookie) c) Q s.
Proof.
  intros R Hb Hok Hpn HQ. destruct (bk_use _ Hok p n eq_refl) as (Hp16 & Hn & Hp & _). cbn in Hp. rewrite header_size in Hp.
  unfold sizeof_tag in Hp. destruct (rep_part _ _ _ _ R) as (Nd & Hl & [Rb Rr]%Forall_cons).
  pose proof (r_holds _ _ _ R) as (hs & ts & V & C & T & Dh & Dt & Dd). pose proof (proj1 (blocks_chain_app _ _ _ _ _) C) as [_ [Eb _]].
  assert (Hno : forall a x, is_Some (d !! x) -> b_addr b <= x < b_addr b + b_span b -> x < a) by (intros a x Hx Hr; destruct (free_no_data _ _ _ _ _ x R Hb Dd Hx Hr)).
  destruct (rep_unused s hs ts l b r d p n) as [U1 _]; try done; [unfold sizeof_block; lia|lia|by rewrite Hb|by apply Hno|].
  destruct (rep_unused s hs ts l b r d (p - sizeof_tag) sizeof_tag) as [U2 Hm]; try done; try (unfold sizeof_block, sizeof_tag; lia);
    [by rewrite Hb|by apply Hno|].
  apply (view_add_data _ _ _ _ p n) in V; [|done]. set (d1 := d ∪ _) in *.
  destruct (view_any_tag (mem s) hs ts d1 (p - sizeof_tag)) as [t0 Vt]; [done| |done|].
  { destruct U2 as (? & ? & Ud). split_and!; [done..|]. intros x [v [Hv|[_ Hv]]%lookup_union_Some_raw]; [by apply Ud; eexists|].
    apply bytes_in_Some in Hv as [_ Hv]. lia. }
  clear V. unfold hdr_of in Eb. rewrite Hb in Eb. set (pl := last_addr NULL l) in *. set (nx := head_addr r NULL) in *.
  apply wp_bind. eapply (wp_st_hdr _ _ _ _ _ _ (mk_hdr KHEAP_BLOCK_MAGIC (b_span b) 0 0 pl nx 0) 6%nat); [exact Vt|exact Eb|done..|]. clear Vt. intros m1 V M1.
  apply wp_bind. eapply (wp_st_hdr _ _ _ _ _ _ (mk_hdr KHEAP_BLOCK_MAGIC (b_span b) n 0 pl nx 0) 2%nat);
    [exact V|apply lookup_insert_eq|done|done|cbn; lia|]. clear V. intros m2 V M2. rewrite insert_insert_eq in V.
  apply wp_bind. eapply (wp_st_hdr _ _ _ _ _ _ (mk_hdr KHEAP_BLOCK_MAGIC (b_span b) n p pl nx 0) 3%nat);
    [exact V|apply lookup_insert_eq|done|done|cbn; lia|]. clear V. intros m3 V M3. rewrite insert_insert_eq in V.
  destruct t0 as [x1 x2 x3]. set (c := cookie (kheap s)).
  apply wp_bind. eapply (wp_st_tag _ _ _ _ _ _ (mk_tag x1 (b_addr b) x3) 1%nat);
    [exact V|apply lookup_insert_eq|done|done|cbn; lia|]. clear V. intros m4 V M4. rewrite insert_insert_eq in V.
  apply wp_bind. eapply (wp_st_tag _ _ _ _ _ _ (mk_tag x1 (b_addr b) n) 2%nat);
    [exact V|apply lookup_insert_eq|done|done|cbn; lia|]. clear V. intros m5 V M5. rewrite insert_insert_eq in V.
  apply wp_bind. unfold allocation_cookie, hget. apply wp_bind, wp_gets, wp_ret.
  pose proof (g_cookie _ (r_geo _ _ _ R)) as Hck. fold c in Hck.
  eapply (wp_st_tag _ _ _ _ _ _ (tag_of c (b_addr b) p n) 0%nat);
    [exact V|apply lookup_insert_eq|done|done|apply (lxor_range _ _ 64); [done|apply (lxor_range _ _ 64)|]; cbn; lia|].
  clear V. intros m6 V M6. rewrite insert_insert_eq in V.
  assert (M : same_mapped (mem s) m6) by (intros x; by rewrite (M6 x), (M5 x), (M4 x), (M3 x), (M2 x), (M1 x)).
  change (Q tt (s <| mem := m6 |>)). apply HQ; [by apply quiet_mem|].
  eapply (rep_reuse s l b (with_use b (Some (p, n))) r d d1 m6 hs); [done|exact C|done|done|done|exact V|done| |].
  - intros a q k [[-> [= -> ->]]|Hin]%elem_of_allocs_mid; [apply lookup_insert_eq|].
    assert (Ht : ts !! (q - sizeof_tag) = Some (tag_of c a q k)) by (apply T, elem_of_allocs_mid; by right).
    rewrite lookup_insert_ne; [done|]. destruct U2 as (_ & Ut & _). destruct (Ut (q - sizeof_tag)) as [?|?]; [by eexists| |]; unfold sizeof_tag in *; lia.
  - intros x [v [Hv|[_ Hv]]%lookup_union_Some_raw].
    + apply in_room_mid. right. specialize (Dd x ltac:(by eexists)). apply in_room_mid in Dd as [(? & ? & ? & _)%in_room_one|?]; [congruence|done].
    + apply bytes_in_Some in Hv as [_ Hv]. apply in_room_mid. left. apply in_room_one. exists p, n. split; [done|]. cbn. lia.
Qed.

(** Other blocks and their allocations lie outside the block. *)
Lemma block_apart s l b r d c : rep s (l ++ b :: r) d -> c ∈ l ++ r -> b_addr c + b_span c <= b_addr b \/ b_addr b + b_span b <= b_addr c.
Proof.
  intros R Hc. destruct (contig_disjoint _ _ _ c b (r_contig _ _ _ R) (r_blocks _ _ _ R)) as [->|?]; [set_solver|set_solver| |done].
  exfalso. pose proof (contig_nodup _ _ _ (r_contig _ _ _ R) (r_blocks _ _ _ R)) as Hnd.
  rewrite fmap_app, fmap_cons in Hnd. apply NoDup_app in Hnd as (_ & Hlr & [Hb _]%NoDup_cons).
  apply elem_of_app in Hc as [Hc|Hc]; [apply (Hlr (b_addr b)); [by apply list_elem_of_fmap_2|left]|apply Hb; by apply list_elem_of_fmap_2].
Qed.

Lemma alloc_apart s l b r d a q k :
  rep s (l ++ b :: r) d -> (a, (q, k)) ∈ allocs (l ++ r) ->
  q <= b_addr b \/ b_addr b + b_span b + BLOCK_HEADER_SIZE + sizeof_tag <= q.
Proof.
  intros R (c & Hc & <- & Hu)%elem_of_allocs. pose proof (block_apart _ _ _ _ _ c R Hc).
  pose proof (proj1 (Forall_forall _ _) (r_blocks _ _ _ R) c ltac:(set_solver)) as Hok. destruct (bk_use _ Hok q k Hu) as (_ & ? & ? & ?). lia.
Qed.

(** The data of a block can be given back, and taken anew from its pointer on. *)
Lemma rep_data s l b r d p n n' :
  rep s (l ++ b :: r) d -> b_use b = Some (p, n) -> 0 <= n' -> p + n' <= b_addr b + b_span b ->
  rep s (l ++ b :: r) (bytes_out d (b_addr b) (b_span b) ∪ bytes_in (mem s) p n').
Proof.
  intros R Hu H0 Hfit. pose proof (r_holds _ _ _ R) as (hs & ts & V & C & T & Dh & Dt & Dd). assert (Hb : b ∈ l ++ b :: r) by set_solver.
  destruct (bk_use _ (proj1 (Forall_forall _ _) (r_blocks _ _ _ R) b Hb) p n Hu) as (_ & _ & Hp). rewrite header_size in Hp.
  unfold sizeof_tag in Hp. constructor; try apply R.
  exists hs, ts. split_and!; try done.
  - apply view_add_data; [eapply view_subset; [exact V|done|done|apply map_filter_subseteq]|]. split_and!.
    + intros a Ha. destruct (Dh a Ha) as (c & Hc & ->). unfold sizeof_block.
      destruct (contig_disjoint _ _ _ c b (r_contig _ _ _ R) (r_blocks _ _ _ R)) as [->|[?|?]]; [done..|lia| |lia].
      pose proof (rep_range _ _ _ c R Hc). lia.
    + intros a Ha. destruct (Dt a Ha) as (c & q & k & [[-> Hq]|Hin]%elem_of_allocs_mid & ->); unfold sizeof_tag.
      * rewrite Hu in Hq. injection Hq as <- <-. lia.
      * apply (alloc_apart _ _ _ _ _ _ _ _ R) in Hin as Hap. rewrite header_size in Hap. unfold sizeof_tag in *. lia.
    + intros x [v [Hv Hx]%bytes_out_Some]. lia.
  - intros x [v [Hv|[_ Hv]]%lookup_union_Some_raw].
    + apply bytes_out_Some in Hv as [Hv _]. apply Dd. by eexists.
    + apply bytes_in_Some in Hv as [_ Hv]. apply in_room_mid. left. apply in_room_one. exists p, n. split; [done|lia].
Qed.

(** Tags of other allocations after the tag of one has changed. *)
Lemma tags_other s l b b' r d p n t ts :
  rep s (l ++ b :: r) d -> b_use b = Some (p, n) -> tags_ok (cookie (kheap s)) ts (l ++ b :: r) ->
  (forall q k, b_use b' = Some (q, k) -> q = p /\ t = tag_of (cookie (kheap s)) (b_addr b') q k) ->
  tags_ok (cookie (kheap s)) (<[p - sizeof_tag := t]> ts) (l ++ b' :: r).
Proof.
  intros R Hu T Hb' a q k [[-> Hq]|Hin]%elem_of_allocs_mid.
  - destruct (Hb' q k Hq) as [-> ->]. apply lookup_insert_eq.
  - rewrite lookup_insert_ne; [apply T, elem_of_allocs_mid; by right|].
    destruct (bk_use _ (proj1 (Forall_forall _ _) (r_blocks _ _ _ R) b ltac:(set_solver)) p n Hu) as (_ & ? & ? & ?).
    apply (alloc_apart _ _ _ _ _ _ _ _ R) in Hin as Hap. rewrite header_size in *. unfold sizeof_tag in *. lia.
Qed.

(** An allocation is given back; its block is free. *)
Lemma wp_unmark {A} s l b r d p n (k : K A) Q :
  rep s (l ++ b :: r) d -> b_use b = Some (p, n) ->
  (forall s', quiet s s' -> rep s' (l ++ with_use b None :: r) (bytes_out d (b_addr b) (b_span b)) -> wp k Q s') ->
  wp (st 8 (p - sizeof_tag + t_cookie) 0;; st 8 (b_addr b + o_requested) 0;; st 8 (b_addr b + o_user_pointer) 0;;
      st 1 (b_addr b + o_free) 1;; k) Q s.
Proof.
  intros R Hu HQ. pose proof (r_holds _ _ _ R) as (hs & ts & V & C & T & Dh & Dt & Dd).
  pose proof (proj1 (blocks_chain_app _ _ _ _ _) C) as [_ [Eb _]]. unfold hdr_of in Eb. rewrite Hu in Eb.
  assert (Et : ts !! (p - sizeof_tag) = Some (tag_of (cookie (kheap s)) (b_addr b) p n)) by (apply T, elem_of_allocs_mid; by left).
  set (pl := last_addr NULL l) in *. set (nx := head_addr r NULL) in *.
  apply wp_bind. eapply (wp_st_tag _ _ _ _ _ _ (mk_tag 0 (b_addr b) n) 0%nat); [exact V|exact Et|done..|]. clear V. intros m1 V M1.
  apply wp_bind. eapply (wp_st_hdr _ _ _ _ _ _ (mk_hdr KHEAP_BLOCK_MAGIC (b_span b) 0 p pl nx 0) 2%nat);
    [exact V|exact Eb|done..|]. clear V. intros m2 V M2.
  apply wp_bind. eapply (wp_st_hdr _ _ _ _ _ _ (mk_hdr KHEAP_BLOCK_MAGIC (b_span b) 0 0 pl nx 0) 3%nat);
    [exact V|apply lookup_insert_eq|done..|]. clear V. intros m3 V M3. rewrite insert_insert_eq in V.
  apply wp_bind. eapply (wp_st_hdr _ _ _ _ _ _ (mk_hdr KHEAP_BLOCK_MAGIC (b_span b) 0 0 pl nx 1) 6%nat);
    [exact V|apply lookup_insert_eq|done..|]. clear V. intros m4 V M4. rewrite insert_insert_eq in V.
  assert (M : same_mapped (mem s) m4) by (intros x; by rewrite (M4 x), (M3 x), (M2 x), (M1 x)).
  change (wp k Q (s <| mem := m4 |>)). apply HQ; [by apply quiet_mem|].
  eapply (rep_reuse s l b (with_use b None) r d _ m4 hs); [done|exact C|done|done| | |done| |].
  - pose proof (proj1 (Forall_forall _ _) (r_blocks _ _ _ R) b ltac:(set_solver)) as []. by constructor.
  - eapply view_subset; [exact V|done|done|apply map_filter_subseteq].
  - by eapply tags_other.
  - intros x [v [Hv Hx]%bytes_out_Some]. apply in_room_mid. right. specialize (Dd x ltac:(by eexists)).
    apply in_room_mid in Dd as [(q & j & E & Hr)%in_room_one|?]; [|done].
    destruct (bk_use _ (proj1 (Forall_forall _ _) (r_blocks _ _ _ R) b ltac:(set_solver)) q j E) as (_ & _ & ?).
    rewrite header_size in *. unfold sizeof_tag in *. lia.
Qed.

(** Another size is recorded for an allocation. *)
Lemma wp_retag {A} s l b r d p n n' (k : K A) Q :
  rep s (l ++ b :: r) d -> b_use b = Some (p, n) -> is_u64 n' ->
  (forall s', quiet s s' -> rep s' (l ++ with_use b (Some (p, n')) :: r) d -> wp k Q s') ->
  wp (st 8 (b_addr b + o_requested) n';; st 8 (p - sizeof_tag + t_requested) n';;
      c ← allocation_cookie (b_addr b) p; st 8 (p - sizeof_tag + t_cookie) c;; k) Q s.
Proof.
  intros R Hu Hn HQ. pose proof (r_holds _ _ _ R) as (hs & ts & V & C & T & Dh & Dt & Dd).
  pose proof (proj1 (blocks_chain_app _ _ _ _ _) C) as [_ [Eb _]]. unfold hdr_of in Eb. rewrite Hu in Eb.
  assert (Et : ts !! (p - sizeof_tag) = Some (tag_of (cookie (kheap s)) (b_addr b) p n)) by (apply T, elem_of_allocs_mid; by left).
  pose proof (rep_range _ _ _ b R ltac:(set_solver)) as Rb. pose proof (g_cookie _ (r_geo _ _ _ R)) as Hck.
  pose proof (proj1 (Forall_forall _ _) (r_blocks _ _ _ R) b ltac:(set_solver)) as Hok.
  destruct (bk_use _ Hok p n Hu) as (Hp16 & Hn0 & Hp). pose proof Hp as Hp'. rewrite header_size in Hp'. unfold sizeof_tag in Hp'.
  set (c := cookie (kheap s)) in *. set (pl := last_addr NULL l) in *. set (nx := head_addr r NULL) in *.
  apply wp_bind. eapply (wp_st_hdr _ _ _ _ _ _ (mk_hdr KHEAP_BLOCK_MAGIC (b_span b) n' p pl nx 0) 2%nat);
    [exact V|exact Eb|done|done|cbn; lia|]. clear V. intros m1 V M1.
  apply wp_bind. eapply (wp_st_tag _ _ _ _ _ _ (tag_of c (b_addr b) p n') 2%nat); [exact V|exact Et|done|done|cbn; lia|]. clear V. intros m2 V M2.
  apply wp_bind. unfold allocation_cookie, hget. apply wp_bind, wp_gets, wp_ret.
  apply wp_bind. eapply (wp_st_tag _ _ _ _ _ _ (tag_of c (b_addr b) p n') 0%nat);
    [exact V|apply lookup_insert_eq|done|done|apply (lxor_range _ _ 64); [done|apply (lxor_range _ _ 64)|]; cbn; lia|].
  clear V. intros m3 V M3. rewrite insert_insert_eq in V.
  assert (M : same_mapped (mem s) m3) by (intros x; by rewrite (M3 x), (M2 x), (M1 x)).
  change (wp k Q (s <| mem := m3 |>)). apply HQ; [by apply quiet_mem|].
  eapply (rep_reuse s l b (with_use b (Some (p, n'))) r d d m3 hs); [done|exact C|done|done| |exact V|done| |].
  - destruct Hok. constructor; cbn; try done. intros q j [= <- <-]. split; [done|]. by split.
  - eapply tags_other; [done|done|done|]. by intros q j [= <- <-].
  - intros x Hx. specialize (Dd x Hx). rewrite in_room_mid, in_room_one in Dd. rewrite in_room_mid, in_room_one. cbn.
    destruct Dd as [(q & j & E & Hr)|?]; [|by right]. left. rewrite Hu in E. injection E as <- <-. by exists p, n'.
Qed.
End rep.
