(* ===== verification/HeapOps.v ===== *)
(** * The operations of the heap on the block list

    The search for a block and its layout, growth, and from them what an
    allocation, a release and a reallocation do to the list of blocks. *)

From S2P Require Import Prelude Errno Bytes Heap HeapMem HeapProps.

(** ** Alignment and layout *)

Lemma power_of_two_spec v : is_u64 v -> power_of_two v = true -> exists k, 0 <= k < 64 /\ v = 2 ^ k.
Proof.
  intros Hv Hp. assert (E : power_of_two v = pow2b v).
  { unfold power_of_two, pow2b. destruct (Z.eqb_spec v 0) as [->|]; [done|]. by rewrite u64_small by lia. }
  rewrite E in Hp. apply pow2b_spec in Hp as (k & Hk & ->); [|lia]. exists k. split; [|done]. split; [done|].
  apply (Z.pow_lt_mono_r_iff 2); lia.
Qed.

Lemma align_up_size_spec v k :
  is_u64 v -> 0 <= k < 64 -> align_up_size v (2 ^ k) = if v + (2 ^ k - 1) <? 2 ^ 64 then Some (ceil_to v (2 ^ k)) else None.
Proof.
  intros Hv Hk. assert (Hp : 0 < 2 ^ k < 2 ^ 64) by (split; [apply Z.pow_pos_nonneg; lia|apply Z.pow_lt_mono_r; lia]).
  unfold align_up_size. rewrite (u64_small (2 ^ k - 1)) by lia. unfold UINT64_MAX.
  destruct (Z.ltb_spec (2 ^ 64 - 1 - (2 ^ k - 1)) v), (Z.ltb_spec (v + (2 ^ k - 1)) (2 ^ 64)); try lia; [done|].
  rewrite u64_small by lia. rewrite land_not64 by lia. done.
Qed.

(** Where an allocation would lie in a block. *)
Definition fits (base span size alignment p c : Z) : Prop :=
  (alignment | p) /\ (16 | p) /\ (16 | c) /\ base + BLOCK_HEADER_SIZE + sizeof_tag <= p /\ p + size <= base + c /\ c <= span.

Lemma layout_sound base span size k p c :
  0 < base -> base + span < 2 ^ 64 -> 4 <= k < 64 -> 0 < size < 2 ^ 64 -> (16 | base) ->
  layout base span size (2 ^ k) = Some (p, c) -> fits base span size (2 ^ k) p c.
Proof.
  intros Hb Hs Hk Hz H16. unfold layout, align_up_uintptr. rewrite header_size. unfold sizeof_tag, UINT64_MAX, NS_KHEAP_MIN_ALIGNMENT.
  destruct (Z.ltb_spec (2 ^ 64 - 1 - 64 - 24) base); [done|]. rewrite (u64_small (base + 64 + 24)) by lia.
  rewrite align_up_size_spec by lia. assert (0 < 2 ^ k) by (apply Z.pow_pos_nonneg; lia).
  destruct (Z.ltb_spec (base + 64 + 24 + (2 ^ k - 1)) (2 ^ 64)); [|done].
  pose proof (ceil_to_ge (base + 64 + 24) (2 ^ k) ltac:(lia)) as Hc. pose proof (ceil_to_divide (base + 64 + 24) (2 ^ k) ltac:(lia)) as Hd.
  set (q := ceil_to _ _) in *. clearbody q. destruct (Z.ltb_spec (2 ^ 64 - 1 - size) q); [done|].
  rewrite (u64_small (q + size)), (u64_small (q + size - base)) by lia. change 16 with (2 ^ 4) at 1.
  rewrite align_up_size_spec by lia. destruct (Z.ltb_spec (q + size - base + (2 ^ 4 - 1)) (2 ^ 64)); [|done].
  pose proof (ceil_to_ge (q + size - base) (2 ^ 4) ltac:(lia)) as Hc2. pose proof (ceil_to_divide (q + size - base) (2 ^ 4) ltac:(lia)) as Hd2.
  set (e := ceil_to _ _) in *. clearbody e. destruct (Z.ltb_spec span e); [done|]. intros [= <- <-].
  assert (H16k : (16 | 2 ^ k)) by (exists (2 ^ (k - 4)); change 16 with (2 ^ 4); rewrite <- Z.pow_add_r by lia; f_equal; lia).
  unfold fits. rewrite header_size. unfold sizeof_tag. split_and!; try done; [by etrans|lia|lia].
Qed.

Lemma layout_complete base span size k :
  16 <= base -> base + span < 2 ^ 64 -> 4 <= k < 64 -> 0 < size -> (16 | span) ->
  BLOCK_HEADER_SIZE + sizeof_tag + size + 2 ^ k <= span -> is_Some (layout base span size (2 ^ k)).
Proof.
  rewrite header_size. unfold sizeof_tag. intros Hb Hs Hk Hz H16 Hfit. unfold layout, align_up_uintptr. rewrite header_size.
  unfold sizeof_tag, UINT64_MAX, NS_KHEAP_MIN_ALIGNMENT. assert (0 < 2 ^ k) by (apply Z.pow_pos_nonneg; lia).
  rewrite (proj2 (Z.ltb_ge (2 ^ 64 - 1 - 64 - 24) base)) by lia. rewrite (u64_small (base + 64 + 24)) by lia.
  rewrite align_up_size_spec, (proj2 (Z.ltb_lt _ (2 ^ 64))) by lia.
  pose proof (ceil_to_ge (base + 64 + 24) (2 ^ k) ltac:(lia)) as Hc. set (q := ceil_to _ _) in *. clearbody q.
  rewrite (proj2 (Z.ltb_ge (2 ^ 64 - 1 - size) q)) by lia. rewrite (u64_small (q + size)), (u64_small (q + size - base)) by lia.
  change 16 with (2 ^ 4) in H16 |- *. rewrite align_up_size_spec by lia.
  assert (He : ceil_to (q + size - base) (2 ^ 4) <= span) by (apply ceil_to_least; [lia|lia|done]).
  rewrite (proj2 (Z.ltb_lt _ (2 ^ 64))) by lia. rewrite (proj2 (Z.ltb_ge span _)) by done. by eexists.
Qed.

Section ops.
Context {W : Type}.
Implicit Types (s : kstate W) (bs l r : list blk) (d : gmap Z Z).

(** What every operation leaves alone. *)
Definition frame s s' : Prop :=
  arena_base (kheap s') = arena_base (kheap s) /\ arena_size (kheap s') = arena_size (kheap s) /\
  page_ops (kheap s') = page_ops (kheap s) /\ initialized (kheap s') = initialized (kheap s) /\
  global_heap s' = global_heap s.

Lemma frame_refl s : frame s s.
Proof. by split_and!. Qed.
Lemma frame_trans s1 s2 s3 : frame s1 s2 -> frame s2 s3 -> frame s1 s3.
Proof. unfold frame. intuition congruence. Qed.
Lemma quiet_frame s s' : quiet s s' -> frame s s'.
Proof. by intros (m & x & -> & _). Qed.

(** ** The search *)

Lemma wp_find s bs d size alignment fuel :
  rep s bs d -> (length bs < fuel)%nat ->
  wp (find_block fuel (head_addr bs NULL) size alignment) (fun res s' => s' = s /\
    match res with
    | None => Forall (fun b => b_use b = None -> layout (b_addr b) (b_span b) size alignment = None) bs
    | Some (a, pc) => exists l b r, bs = l ++ b :: r /\ a = b_addr b /\ b_use b = None /\
        layout (b_addr b) (b_span b) size alignment = Some pc
    end) s.
Proof.
  intros R. pose proof (r_holds _ _ _ R) as (hs & ts & V & C & _). destruct (rep_part s [] bs d R) as (_ & _ & Rg).
  clear R. revert C. generalize NULL at 1. revert fuel. induction Rg as [|b bs Rb Rg IH]; intros fuel prv C Hf.
  - destruct fuel; [cbn in Hf; lia|]. cbn [find_block head_addr]. rewrite Z.eqb_refl. apply wp_ret. split; [done|constructor].
  - destruct fuel as [|fuel]; [lia|]. destruct C as [Eb C]. cbn [find_block head_addr].
    rewrite (proj2 (Z.eqb_neq (b_addr b) NULL)) by (unfold NULL; lia).
    apply wp_bind. eapply wp_ld_hdr; [exact V|exact Eb|apply hdr_free|].
    assert (Hrest : (b_use b = None -> layout (b_addr b) (b_span b) size alignment = None) ->
      wp (next ← ld 8 (b_addr b + o_next); find_block fuel next size alignment) (fun res s' => s' = s /\
        match res with
        | None => Forall (fun b => b_use b = None -> layout (b_addr b) (b_span b) size alignment = None) (b :: bs)
        | Some (a, pc) => exists l b' r, b :: bs = l ++ b' :: r /\ a = b_addr b' /\ b_use b' = None /\
            layout (b_addr b') (b_span b') size alignment = Some pc
        end) s).
    { intros Hno. apply wp_bind. eapply wp_ld_hdr; [exact V|exact Eb|apply hdr_next|].
      eapply wp_mono; [apply (IH fuel (b_addr b) C); cbn in Hf; lia|]. intros [[a pc]|] s' [-> H]; (split; [done|]).
      - destruct H as (l & b' & r & -> & H). by exists (b :: l), b', r.
      - by constructor. }
    unfold free_flag. destruct (b_use b) eqn:Eu; cbn [Z.eqb].
    + apply wp_bind, wp_ret. by apply Hrest.
    + apply wp_bind. unfold allocation_layout. apply wp_bind. eapply wp_ld_hdr; [exact V|exact Eb|apply hdr_span|]. apply wp_ret.
      destruct (layout _ _ _ _) as [pc|] eqn:El; [|by apply Hrest]. apply wp_ret. split; [done|]. by exists [], b, bs.
Qed.

(** ** Growth *)

(** The list after growth: a free last block is longer, or there is a new one. *)
Inductive grown (e g : Z) : list blk -> list blk -> Prop :=
  | grown_last l b : b_use b = None -> grown e g (l ++ [b]) (l ++ [with_span b (b_span b + g)])
  | grown_new bs : (forall l b, bs = l ++ [b] -> b_use b <> None) -> grown e g bs (bs ++ [mk_blk e g None]).

Definition grown_state s (m : gmap Z Z) bs' (g : Z) : kstate W :=
  s <| mem := m |> <| kheap := (kheap s) <| first := head_addr bs' NULL |> <| last := last_addr NULL bs' |>
    <| committed_size := committed_size (kheap s) + g |> |>.

Lemma rep_grown s bs bs' d m g :
  rep s bs d -> 0 < g -> (4096 | g) -> committed_size (kheap s) + g <= arena_size (kheap s) ->
  (forall x, arena_base (kheap s) <= x < arena_base (kheap s) + committed_size (kheap s) + g -> is_Some (m !! x)) ->
  grown (arena_base (kheap s) + committed_size (kheap s)) g bs bs' -> holds (kheap s) m bs' d ->
  rep (grown_state s m bs' g) bs' d.
Proof.
  intros R Hg Hg4 Hfit Hm Hgr Hh. pose proof (r_geo _ _ _ R) as [[? ?] [? ?] [? ?] ? ?]. pose proof (r_contig _ _ _ R) as Hc.
  pose proof (r_blocks _ _ _ R) as Hok. assert (H16 : (16 | g)) by (etrans; [|exact Hg4]; by exists 256).
  constructor; cbn; try done.
  - constructor; cbn; try done. split; [by apply Z.divide_add_r|lia].
  - intros x Hx. apply Hm. lia.
  - rewrite Z.add_assoc. destruct Hgr as [l b Hb|bs Hn].
    + apply contig_app in Hc as (z & Hc1 & Hz & Hc2). apply contig_app. exists z. split; [done|]. cbn in *. split; [done|]. lia.
    + apply contig_app. exists (arena_base (kheap s) + committed_size (kheap s)). split; [done|]. cbn. lia.
  - destruct Hgr as [l b Hb|bs Hn].
    + apply Forall_app in Hok as [Hok1 [Hok2 _]%Forall_cons]. apply Forall_app. split; [done|]. constructor; [|done].
      destruct Hok2 as [? ? Hs ?]. constructor; cbn; [done|by apply Z.divide_add_r|lia|by rewrite Hb].
    + apply Forall_app. split; [done|]. constructor; [|done]. rewrite <- header_size in *. constructor; cbn; [|done| |done].
      * apply Z.divide_add_r; [done|]. etrans; [|done]. by exists 256.
      * rewrite header_size. destruct Hg4 as [q ->]. lia.
Qed.

(** Everything the heap keeps lies below its end. *)
Lemma rep_below s bs d (hs : gmap Z hdr) (ts : gmap Z tag) :
  rep s bs d -> (forall a, is_Some (hs !! a) -> exists b, b ∈ bs /\ a = b_addr b) ->
  (forall a, is_Some (ts !! a) -> exists b p n, (b, (p, n)) ∈ allocs bs /\ a = p - sizeof_tag) ->
  (forall x, is_Some (d !! x) -> in_room bs x) ->
  let e := arena_base (kheap s) + committed_size (kheap s) in
  (forall a, is_Some (hs !! a) -> a + sizeof_block <= e) /\ (forall a, is_Some (ts !! a) -> a + sizeof_tag <= e) /\
  (forall x, is_Some (d !! x) -> x < e).
Proof.
  intros R Dh Dt Dd e. split_and!.
  - intros a Ha. destruct (Dh a Ha) as (b & Hb & ->). pose proof (rep_range _ _ _ b R Hb). unfold e, sizeof_block. lia.
  - intros a Ha. destruct (Dt a Ha) as (a' & p & n & (b & Hb & _ & Hu)%elem_of_allocs & ->). pose proof (rep_range _ _ _ b R Hb).
    destruct (bk_use _ (proj1 (Forall_forall _ _) (r_blocks _ _ _ R) b Hb) p n Hu) as (_ & _ & ?). unfold e. lia.
  - intros x Hx. destruct (Dd x Hx) as (b & p & n & Hb & Hu & ?). pose proof (rep_range _ _ _ b R Hb). unfold e. lia.
Qed.

(** Fresh memory extends a free last block. *)
Lemma attach_last s l b d m g hs ts :
  rep s (l ++ [b]) d -> b_use b = None -> chain hs NULL (l ++ [b]) NULL -> tags_ok (cookie (kheap s)) ts (l ++ [b]) ->
  (forall x, is_Some (d !! x) -> in_room (l ++ [b]) x) ->
  view m (<[b_addr b := hdr_of (last_addr NULL l) NULL (with_span b (b_span b + g))]> hs) ts d ->
  holds (kheap s) m (l ++ [with_span b (b_span b + g)]) d.
Proof.
  intros R Hb C T Dd V. destruct (rep_part _ _ _ _ R) as (_ & Hl & _). apply blocks_chain_app in C as [C1 _].
  assert (Hal : allocs (l ++ [with_span b (b_span b + g)]) = allocs (l ++ [b])) by (by rewrite !allocs_app).
  eapply holds_close; [exact V| |by unfold tags_ok; rewrite Hal|].
  2: { intros x Hx. specialize (Dd x Hx). rewrite in_room_app, in_room_one in *. cbn. rewrite Hb in *. naive_solver. }
  apply blocks_chain_app. split.
  - eapply blocks_chain_ext; [|exact C1]. intros c Hc. apply lookup_insert_ne. intros E. apply (Hl c Hc). rewrite <- E. left.
  - split; [apply lookup_insert_eq|done].
Qed.

(** Or it becomes a block after the last one. *)
Lemma attach_new s bs d m e g hs hs' ts :
  rep s bs d -> chain hs NULL bs NULL -> tags_ok (cookie (kheap s)) ts bs -> (forall x, is_Some (d !! x) -> in_room bs x) ->
  view m hs' ts d -> chain hs' NULL bs e -> hs' !! e = Some (hdr_of (last_addr NULL bs) NULL (mk_blk e g None)) ->
  holds (kheap s) m (bs ++ [mk_blk e g None]) d.
Proof.
  intros R C T Dd V C' He. assert (Hal : allocs (bs ++ [mk_blk e g None]) = allocs bs) by (rewrite allocs_app; apply app_nil_r).
  eapply holds_close; [exact V| |by unfold tags_ok; rewrite Hal|intros x Hx; apply in_room_app; left; by apply Dd].
  apply blocks_chain_app. split; [done|]. by split.
Qed.

(** The end of the list is all [attach] changes besides memory. *)
Definition attached s (m : gmap Z Z) bs' : kstate W :=
  s <| mem := m |> <| kheap := (kheap s) <| first := head_addr bs' NULL |> <| last := last_addr NULL bs' |> |>.

Lemma wp_attach_new s bs d g hs ts Q :
  let e := arena_base (kheap s) + committed_size (kheap s) in
  rep s bs d -> view (mem s) hs ts d -> chain hs NULL bs NULL -> tags_ok (cookie (kheap s)) ts bs ->
  (forall x, is_Some (d !! x) -> in_room bs x) -> unused hs ts d e sizeof_block -> is_u64 e -> is_u64 g ->
  (forall x, e <= x < e + sizeof_block -> is_Some (mem s !! x)) ->
  (forall m, same_mapped (mem s) m -> holds (kheap s) m (bs ++ [mk_blk e g None]) d -> Q tt (attached s m (bs ++ [mk_blk e g None]))) ->
  wp (initialize_free_block e g (last_addr NULL bs) NULL;;
      (if negb (last_addr NULL bs =? NULL) then st 8 (last_addr NULL bs + o_next) e else hset first e);; hset last e) Q s.
Proof.
  intros e R V C T Dd HU He Hg Hm HQ. apply wp_bind.
  assert (Hlast : is_u64 (last_addr NULL bs)).
  { destruct bs as [|b l _] using rev_ind; [done|]. rewrite last_addr_app. cbn. pose proof (rep_range _ _ _ b R ltac:(set_solver)).
    pose proof (r_geo _ _ _ R) as [[? ?] [? ?] [? ?] ? ?]. lia. }
  eapply wp_initialize; [exact V|exact HU|exact Hm|done|done|done|]. clear V. intros m V M.
  destruct bs as [|b l _] using rev_ind.
  - cbn [last_addr] in *. rewrite Z.eqb_refl. apply wp_bind, wp_modify, wp_modify.
    change (Q tt (attached s m [mk_blk e g None])). apply HQ; [done|]. eapply (attach_new s [] d m e g hs); try done. apply lookup_insert_eq.
  - rewrite last_addr_app in *. cbn [last_addr] in *. destruct (rep_part _ _ _ _ R) as (_ & Hl & [Rb _]%Forall_cons).
    pose proof (proj1 (blocks_chain_app _ _ _ _ _) C) as [C1 [Eb _]].
    rewrite (proj2 (Z.eqb_neq (b_addr b) NULL)) by (unfold NULL; lia). cbn [negb]. apply wp_bind.
    assert (Hne : forall c, c ∈ l ++ [b] -> b_addr c <> e).
    { intros c Hc. pose proof (rep_range _ _ _ c R Hc). unfold e. lia. }
    assert (Hbe : b_addr b <> e) by (apply Hne; set_solver).
    eapply wp_set_next; [exact V|rewrite lookup_insert_ne by congruence; exact Eb|done|]. clear V. intros m2 V M2.
    apply wp_modify. set (bs' := (l ++ [b]) ++ [mk_blk e g None]) in *.
    assert (Es : forall s', s' = s <| mem := m2 |> -> s' <| kheap := (kheap s') <| last := e |> |> = attached s m2 bs').
    { intros s' ->. unfold attached, bs'. rewrite last_addr_app, !head_addr_app. cbn [last_addr head_addr].
      pose proof (r_first _ _ _ R) as Hf. rewrite head_addr_app in Hf. cbn [head_addr] in Hf. rewrite <- Hf. by destruct s as [[]]. }
    rewrite Es by done. apply HQ; [intros x; by rewrite (M2 x), (M x)|].
    eapply (attach_new s (l ++ [b]) d m2 e g hs); [exact R|exact C|exact T|exact Dd|exact V| |].
    + apply blocks_chain_app. split; [|by split; [apply lookup_insert_eq|]].
      eapply blocks_chain_ext; [|exact C1]. intros c Hc. rewrite !lookup_insert_ne; [done|intros E; apply (Hne c); [set_solver|done]|].
      intros E. apply (Hl c Hc). rewrite <- E. left.
    + rewrite last_addr_app, lookup_insert_ne by done. apply lookup_insert_eq.
Qed.

Lemma wp_attach_last s l b d g hs ts Q :
  rep s (l ++ [b]) d -> view (mem s) hs ts d -> chain hs NULL (l ++ [b]) NULL -> tags_ok (cookie (kheap s)) ts (l ++ [b]) ->
  (forall x, is_Some (d !! x) -> in_room (l ++ [b]) x) -> b_use b = None -> 0 <= g -> b_span b + g < 2 ^ 64 ->
  (forall m, same_mapped (mem s) m -> holds (kheap s) m (l ++ [with_span b (b_span b + g)]) d ->
     Q tt (attached s m (l ++ [with_span b (b_span b + g)]))) ->
  wp (span ← ld 8 (b_addr b + o_span); st 8 (b_addr b + o_span) (u64 (span + g))) Q s.
Proof.
  intros R V C T Dd Hu Hg Hs HQ. pose proof (proj1 (blocks_chain_app _ _ _ _ _) C) as [C1 [Eb _]].
  apply wp_bind. eapply wp_ld_hdr; [exact V|exact Eb|apply hdr_span|].
  destruct (rep_part _ _ _ _ R) as (_ & _ & [Rb _]%Forall_cons). rewrite u64_small by lia.
  eapply wp_set_span; [exact V|exact Eb|lia|]. clear V. intros m V M. set (bs' := l ++ [with_span b (b_span b + g)]) in *.
  assert (Es : s <| mem := m |> = attached s m bs').
  { unfold attached, bs'. rewrite head_addr_app, last_addr_app. cbn [head_addr last_addr].
    pose proof (r_first _ _ _ R) as Hf. pose proof (r_last _ _ _ R) as Hl. rewrite head_addr_app in Hf. rewrite last_addr_app in Hl.
    cbn [head_addr last_addr] in *. change (b_addr (with_span b (b_span b + g))) with (b_addr b). rewrite <- Hf, <- Hl. by destruct s as [[]]. }
  rewrite Es. apply HQ; [done|]. by eapply attach_last.
Qed.

Lemma wp_attach s bs d g Q :
  rep s bs d -> 0 < g -> (4096 | g) -> committed_size (kheap s) + g <= arena_size (kheap s) ->
  (forall x, arena_base (kheap s) <= x < arena_base (kheap s) + committed_size (kheap s) + g -> is_Some (mem s !! x)) ->
  (forall m bs', grown (arena_base (kheap s) + committed_size (kheap s)) g bs bs' -> rep (grown_state s m bs' g) bs' d ->
     Q tt (attached s m bs')) ->
  wp (attach (arena_base (kheap s) + committed_size (kheap s)) g) Q s.
Proof.
  intros R Hg Hg4 Hfit Hm HQ. set (e := arena_base (kheap s) + committed_size (kheap s)) in *.
  assert (He : e = arena_base (kheap s) + committed_size (kheap s)) by done.
  pose proof (r_geo _ _ _ R) as [[? ?] [? ?] [? ?] ? ?]. pose proof (r_holds _ _ _ R) as (hs & ts & V & C & T & Dh & Dt & Dd).
  destruct (rep_below s bs d hs ts R Dh Dt Dd) as (Bh & Bt & Bd). fold e in Bh, Bt, Bd.
  assert (HU : unused hs ts d e sizeof_block).
  { split_and!; intros a Ha; [right; by apply Bh|right; by apply Bt|left; by apply Bd]. }
  assert (Hfin : forall m bs', grown e g bs bs' -> same_mapped (mem s) m -> holds (kheap s) m bs' d -> Q tt (attached s m bs')).
  { intros m bs' Hgr M Hh. apply HQ; [done|]. eapply rep_grown; [exact R|done..| |exact Hgr|exact Hh]. intros x Hx. by apply M, Hm. }
  assert (Hnew : (forall l b, bs = l ++ [b] -> b_use b <> None) -> wp (initialize_free_block e g (last_addr NULL bs) NULL;;
      (if negb (last_addr NULL bs =? NULL) then st 8 (last_addr NULL bs + o_next) e else hset first e);; hset last e) Q s).
  { intros Hn. eapply wp_attach_new; try done; [lia..|intros x Hx; apply Hm; fold e in Hx; destruct Hg4; unfold sizeof_block in Hx; lia|].
    intros m M Hh. apply Hfin; [by apply grown_new|done|done]. }
  unfold attach. apply wp_bind. unfold hget. apply wp_gets. rewrite (r_last _ _ _ R).
  destruct bs as [|b l _] using rev_ind.
  { apply wp_bind, wp_ret. apply Hnew. by intros [|] ?. }
  rewrite last_addr_app in *. cbn [last_addr] in *. destruct (rep_part _ _ _ _ R) as (_ & _ & [Rb _]%Forall_cons).
  pose proof (proj1 (blocks_chain_app _ _ _ _ _) C) as [C1 [Eb _]].
  rewrite (proj2 (Z.eqb_neq (b_addr b) NULL)) in * by (unfold NULL; lia). cbn [negb] in *.
  apply wp_bind. eapply wp_ld_hdr; [exact V|exact Eb|apply hdr_free|]. unfold free_flag. destruct (b_use b) as [u|] eqn:Hu; cbn [Z.eqb negb].
  - apply Hnew. intros l' b' [-> [= ->]]%app_inj_2; [by rewrite Hu|done].
  - pose proof (rep_range _ _ _ b R ltac:(set_solver)). eapply wp_attach_last; try done; [lia..|]. intros m M Hh. apply Hfin; [by apply grown_last|done|done].
Qed.

(** The callback that maps pages always returns. *)
Definition pages_ok (h : ns_kheap W) : Prop :=
  exists map, map_pages (page_ops h) = Some map /\ forall c a n w, exists x w', map c a n w = Some (x, w').

(** Mapping fresh pages past the end keeps the heap. *)
Lemma rep_fresh s bs d m w :
  rep s bs d -> (forall x, x < arena_base (kheap s) + committed_size (kheap s) -> m !! x = mem s !! x) ->
  rep (s <| world := w |> <| mem := m |>) bs d.
Proof.
  intros R Hm. pose proof (r_holds _ _ _ R) as (hs & ts & V & C & T & Dh & Dt & Dd).
  destruct (rep_below s bs d hs ts R Dh Dt Dd) as (Bh & Bt & Bd). constructor; cbn; try apply R.
  - intros x Hx. rewrite Hm by lia. by apply (r_mapped _ _ _ R).
  - exists hs, ts. split_and!; try done. by eapply view_below.
Qed.

Lemma plan_growth_spec minimum mg asize committed g np :
  0 < minimum < 2 ^ 64 -> 0 < mg < 2 ^ 64 -> 0 <= committed <= asize -> asize < 2 ^ 64 -> (4096 | asize) -> (4096 | committed) ->
  plan_growth minimum mg asize committed = Some (g, np) -> np * 4096 = g /\ minimum <= g <= asize - committed /\ (4096 | g).
Proof.
  intros Hmin Hmg Hc Ha Ha4 Hc4. unfold plan_growth. change NS_PAGE_SIZE with 4096. unfold SIZE_MAX, UINT64_MAX, NS_PAGE_SHIFT.
  destruct (Z.ltb_spec (2 ^ 64 - 1 - (4096 - 1)) minimum); [done|]. rewrite (u64_small (minimum + 4096 - 1)), Z.shiftr_div_pow2 by lia.
  assert (Hgp : exists gp, gp = (if (minimum + 4096 - 1) / 2 ^ 12 <? mg then mg else (minimum + 4096 - 1) / 2 ^ 12) /\ 0 <= gp).
  { eexists. split; [done|]. case_match; zdiv. }
  destruct Hgp as (gp & <- & Hgp). destruct (Z.ltb_spec ((2 ^ 64 - 1) / 4096) gp); [done|].
  rewrite (u64_small (gp * 4096)) by zdiv. rewrite (u64_small (asize - committed)) by lia.
  assert (Hl4 : (4096 | asize - committed)) by (by apply Z.divide_sub_r). destruct Hl4 as [q Hq]. rewrite Hq.
  destruct (Z.ltb_spec (q * 4096) (gp * 4096)); cbn.
  - rewrite Z.shiftr_div_pow2 by lia. change (2 ^ 12) with 4096. rewrite Z.div_mul by lia.
    destruct (Z.ltb_spec (q * 4096) minimum), (Z.eqb_spec q 0); cbn [orb]; try done. intros [= <- <-]. split_and!; [lia..|by exists q].
  - destruct (Z.ltb_spec (gp * 4096) minimum), (Z.eqb_spec gp 0); cbn [orb]; try done. intros [= <- <-]. split_and!; [lia..|by exists gp].
Qed.

Lemma wp_grow s bs d minimum :
  rep s bs d -> pages_ok (kheap s) -> 0 < minimum < 2 ^ 64 ->
  wp (grow_heap minimum) (fun result s' => frame s s' /\
    ((result = NS_KHEAP_ENOMEM /\ exists w, s' = s <| world := w |>) \/
     (result = NS_KHEAP_OK /\ lock (kheap s') = lock (kheap s) /\ exists g bs', minimum <= g /\
        grown (arena_base (kheap s) + committed_size (kheap s)) g bs bs' /\ rep s' bs' d))) s.
Proof.
  intros R (map & Emap & Hmap) Hmin. pose proof (r_geo _ _ _ R) as [[? ?] [Hs4 ?] [Hc4 ?] ? ?].
  unfold grow_heap, hget. apply wp_bind, wp_gets, wp_bind, wp_gets, wp_bind, wp_gets.
  destruct (plan_growth _ _ _ _) as [[g np]|] eqn:Eg.
  2: { apply wp_ret. split; [apply frame_refl|]. left. split; [done|]. exists (world s). by destruct s. }
  apply plan_growth_spec in Eg as (Hnp & Hg & Hg4); try done; try lia.
  apply wp_bind, wp_gets, wp_bind, wp_gets. rewrite Emap, (u64_small (arena_base _ + _)) by lia.
  set (e := arena_base (kheap s) + committed_size (kheap s)) in *. apply wp_bind, wp_zoom.
  destruct (Hmap (po_context (page_ops (kheap s))) e np (world s)) as (rc & w & E). exists rc, w. split; [exact E|].
  destruct (rc =? 0); cbn [negb]; [|apply wp_ret; split; [done|left; split; [done|by exists w]]].
  apply wp_bind, wp_modify. change NS_PAGE_SIZE with 4096. rewrite Hnp.
  destruct (fresh_pages (mem s) e g) as (m & Em & Hin & Hout); [lia|].
  apply wp_bind. exists tt, (s <| world := w |> <| mem := m |>). split; [unfold heap_zero; cbn; by rewrite Em|].
  apply (rep_fresh s bs d m w) in R as R'; [|intros x Hx; apply Hout; unfold e; lia].
  set (s1 := s <| world := w |> <| mem := m |>) in *. apply wp_bind. unfold e. eapply (wp_attach s1); [exact R'|lia|done|cbn; lia| |].
  { intros x Hx. cbn in Hx |- *. destruct (decide (x < e)); [|rewrite Hin by (unfold e; lia); by eexists].
    rewrite Hout by lia. apply (r_mapped _ _ _ R). fold e. lia. }
  intros m' bs' Hgr R2. apply wp_bind, wp_modify, wp_ret. rewrite u64_small by lia.
  change (frame s (grown_state s1 m' bs' g) /\ ((NS_KHEAP_OK = NS_KHEAP_ENOMEM /\ exists w0, grown_state s1 m' bs' g = s <| world := w0 |>) \/
    (NS_KHEAP_OK = NS_KHEAP_OK /\ lock (kheap (grown_state s1 m' bs' g)) = lock (kheap s) /\ exists g0 bs'0, minimum <= g0 /\
      grown (arena_base (kheap s) + committed_size (kheap s)) g0 bs bs'0 /\ rep (grown_state s1 m' bs' g) bs'0 d))).
  split; [done|]. right. split; [done|]. split; [done|]. exists g, bs'. split; [lia|done].
Qed.
End ops.
