(* ===== verification/HeapCalls.v ===== *)
(** * The calls of the heap

    What an allocation, a release and a reallocation do to the allocations
    that are live and to their bytes: a heap at rest is a list of blocks in
    which no two neighbours are free, and every call goes from one such heap to
    another. *)

From S2P Require Import Prelude Errno Bytes Heap HeapMem HeapProps HeapOps.

(** ** Lists without adjacent free blocks *)

Fixpoint separated (bs : list blk) : Prop :=
  match bs with
  | b :: r => match r with c :: _ => b_use b <> None \/ b_use c <> None | [] => True end /\ separated r
  | [] => True
  end.

Lemma separated_same bs bs' : b_use <$> bs = b_use <$> bs' -> separated bs -> separated bs'.
Proof.
  revert bs'. induction bs as [|b bs IH]; intros [|b' bs'] E; try done. injection E as Eb E. intros [Hb Hs]. split; [|by apply IH].
  destruct bs as [|c bs], bs' as [|c' bs']; try done. injection E as Ec E. by rewrite <- Eb, <- Ec.
Qed.

Lemma separated_mid l b r : separated (l ++ b :: r) <-> separated (l ++ [b]) /\ separated (b :: r).
Proof.
  induction l as [|c l IH]; [cbn; tauto|]. destruct l as [|e l]; [cbn; tauto|].
  change (separated ((c :: e :: l) ++ b :: r)) with ((b_use c <> None \/ b_use e <> None) /\ separated ((e :: l) ++ b :: r)).
  change (separated ((c :: e :: l) ++ [b])) with ((b_use c <> None \/ b_use e <> None) /\ separated ((e :: l) ++ [b])). tauto.
Qed.

Lemma separated_end l b : separated (l ++ [b]) -> separated l.
Proof.
  induction l as [|c l IH]; [done|]. destruct l as [|e l]; [done|]. intros [H1 H2]. split; [done|by apply IH].
Qed.
Lemma separated_snoc l b : b_use b <> None -> separated l -> separated (l ++ [b]).
Proof.
  intros Hb. induction l as [|c l IH]; [done|]. intros [H1 H2]. split; [|by apply IH]. destruct l; [by right|done].
Qed.

(** A block in use separates what is around it. *)
Lemma separated_used l b r : b_use b <> None -> separated (l ++ b :: r) <-> separated l /\ separated r.
Proof.
  intros Hb. rewrite separated_mid. split.
  - intros [H1%separated_end [_ H2]]. done.
  - intros [H1 H2]. split; [by apply separated_snoc|]. split; [|done]. destruct r; [done|by left].
Qed.

(** Allocations lie within their blocks. *)
Definition snug (bs : list blk) : Prop :=
  Forall (fun b => match b_use b with Some (p, n) => 0 < n /\ p + n <= b_addr b + b_span b | None => True end) bs.

(** A pointer and size that are live. *)
Definition lives (bs : list blk) (p n : Z) : Prop := exists a, (a, (p, n)) ∈ allocs bs.

Lemma lives_blk bs p n : lives bs p n <-> exists l b r, bs = l ++ b :: r /\ b_use b = Some (p, n).
Proof.
  split.
  - intros (a & (b & Hb & _ & Hu)%elem_of_allocs). apply list_elem_of_split in Hb as (l & r & ->). by exists l, b, r.
  - intros (l & b & r & -> & Hu). exists (b_addr b). apply elem_of_allocs. exists b. set_solver.
Qed.
Lemma lives_mid l b r p n : lives (l ++ b :: r) p n <-> b_use b = Some (p, n) \/ lives (l ++ r) p n.
Proof.
  unfold lives. setoid_rewrite elem_of_allocs_mid. split.
  - intros (a & [[_ ?]|?]); [by left|right; by eexists].
  - intros [?|[a ?]]; [exists (b_addr b); by left|exists a; by right].
Qed.
Lemma split_shape b r c : c <= b_span b -> exists x r',
  split_blocks b r c = with_span b x :: r' /\ c <= x <= b_span b /\ allocs r' = allocs r /\ (separated r -> separated r') /\
  (snug r -> snug r').
Proof.
  intros Hc. unfold split_blocks. rewrite min_span. destruct (Z.ltb_spec (b_span b - c) 104).
  { exists (b_span b), r. split_and!; try done; try lia. by destruct b. }
  exists c. destruct r as [|n r]; [eexists; split_and!; [done|lia|lia|done|done|by repeat constructor]|].
  destruct (b_use n) eqn:Hn.
  - eexists. split_and!; [done|lia|lia|done| |by constructor]. intros Hs. split; [|done]. right. by rewrite Hn.
  - eexists. split_and!; [done|lia|lia| | |].
    + unfold allocs. cbn. by rewrite Hn.
    + apply separated_same. cbn. by rewrite Hn.
    + intros [_ Hs]%Forall_cons. by constructor.
Qed.

Section calls.
Context {W : Type}.
Implicit Types (s : kstate W) (bs l r : list blk) (d : gmap Z Z).

(** A heap at rest: its blocks, and the bytes of its allocations. *)
Record heap_at s bs d : Prop := {
  at_rep : rep s bs d;
  at_separated : separated bs;
  at_snug : snug bs;
  at_data x : is_Some (d !! x) <-> exists p n, lives bs p n /\ p <= x < p + n;
  at_some : bs <> [] }.

(** Live allocations are disjoint. *)
Lemma snug_mid l b r : snug (l ++ b :: r) <-> snug [b] /\ snug (l ++ r).
Proof. unfold snug. rewrite !Forall_app, Forall_cons, Forall_singleton. tauto. Qed.

Lemma snug_one b : snug [b] <-> match b_use b with Some (p, n) => 0 < n /\ p + n <= b_addr b + b_span b | None => True end.
Proof. apply Forall_singleton. Qed.

Lemma lives_apart s l b r d q k :
  rep s (l ++ b :: r) d -> snug (l ++ b :: r) -> lives (l ++ r) q k ->
  0 < k /\ (q + k <= b_addr b \/ b_addr b + b_span b <= q).
Proof.
  intros R [_ Hs]%snug_mid (a & Ha). apply elem_of_allocs in Ha as (c & Hc & _ & Hu). unfold snug in Hs. rewrite Forall_forall in Hs.
  specialize (Hs c Hc). rewrite Hu in Hs. split; [lia|].
  pose proof (block_apart _ _ _ _ _ c R Hc). pose proof (proj1 (Forall_forall _ _) (r_blocks _ _ _ R) c ltac:(set_solver)) as Hok.
  destruct (bk_use _ Hok q k Hu) as (_ & _ & ?). rewrite header_size in *. unfold sizeof_tag in *. lia.
Qed.

Lemma blk_at s l b r d p n : rep s (l ++ b :: r) d -> snug (l ++ b :: r) -> b_use b = Some (p, n) ->
  (16 | p) /\ 0 < n /\ b_addr b + 88 <= p /\ p + n <= b_addr b + b_span b.
Proof.
  intros R [Hs _]%snug_mid Hu. rewrite snug_one, Hu in Hs. pose proof (r_blocks _ _ _ R) as Hok. rewrite Forall_forall in Hok.
  destruct (bk_use _ (Hok b ltac:(set_solver)) _ _ Hu) as (? & ? & ?). rewrite header_size in *. unfold sizeof_tag in *. split_and!; [done|lia..].
Qed.

Lemma lives_range s bs d p n : heap_at s bs d -> lives bs p n ->
  (16 | p) /\ 0 < n /\ arena_base (kheap s) < p /\ p + n <= arena_base (kheap s) + committed_size (kheap s).
Proof.
  intros [R _ Hs _ _] (l & b & r & -> & Hu)%lives_blk. pose proof (rep_range _ _ _ b R ltac:(set_solver)) as Hb.
  pose proof (blk_at _ _ _ _ _ _ _ R Hs Hu). split_and!; [tauto|lia..].
Qed.

Lemma lives_disjoint s bs d p n q k :
  heap_at s bs d -> lives bs p n -> lives bs q k -> (p = q /\ n = k) \/ q + k <= p \/ p + n <= q.
Proof.
  intros [R _ Hs _ _] (l & b & r & -> & Hu)%lives_blk [E|Hq]%lives_mid; [rewrite Hu in E; by simplify_eq; left|].
  right. pose proof (lives_apart _ _ _ _ _ _ _ R Hs Hq). pose proof (blk_at _ _ _ _ _ _ _ R Hs Hu). lia.
Qed.

(** ** Taking a block *)

Definition apart bs (p n : Z) : Prop := forall q j, lives bs q j -> q + j <= p \/ p + n <= q.
Definition fresh_bytes (d' : gmap Z Z) (p n : Z) : Prop := forall x, is_Some (d' !! x) <-> p <= x < p + n.

Lemma wp_take s l b r d size k p c :
  heap_at s (l ++ b :: r) d -> b_use b = None -> 0 < size < 2 ^ 64 -> 4 <= k < 64 ->
  layout (b_addr b) (b_span b) size (2 ^ k) = Some (p, c) ->
  wp (take_block (b_addr b) size p c) (fun _ s' => quiet s s' /\ (2 ^ k | p) /\ apart (l ++ b :: r) p size /\ exists bs' d', heap_at s' bs' (d ∪ d') /\
    fresh_bytes d' p size /\ forall q j, lives bs' q j <-> (q = p /\ j = size) \/ lives (l ++ b :: r) q j) s.
Proof.
  intros [R Sep Snug Full _] Hu Hz Hk Hl. pose proof (rep_range _ _ _ b R ltac:(set_solver)) as Rb.
  assert (Hok : blk_ok b) by (pose proof (r_blocks _ _ _ R) as Hok; rewrite Forall_forall in Hok; apply Hok; set_solver).
  apply layout_sound in Hl as (Hal & H16 & Hc16 & Hp & Hpc & Hcs); [|lia|lia|lia|lia|apply Hok].
  rewrite header_size in Hp. unfold sizeof_tag in Hp.
  destruct (split_shape b r c Hcs) as (x & r' & Es & Hx & Hal' & Hsep & Hsnug).
  unfold take_block. apply wp_bind. eapply wp_split; [exact R|done|rewrite header_size; lia|by rewrite Hu| |].
  { intros y Hy Hr. exfalso. pose proof (r_holds _ _ _ R) as (? & ? & _ & _ & _ & _ & _ & Dd). by eapply free_no_data. }
  rewrite Es. intros s1 Q1 R1. pose proof (rep_range _ _ _ (with_span b x) R1 ltac:(set_solver)) as Rb1. cbn in Rb1.
  assert (Hok1 : blk_ok (with_span b x)).
  { pose proof (r_blocks _ _ _ R1) as Hok1. rewrite Forall_forall in Hok1. apply Hok1. set_solver. }
  eapply (wp_mark s1 l (with_span b x) r'); [exact R1|done| |cbn; lia|].
  { destruct Hok1 as [? ? ? _]. constructor; cbn in *; try done. intros ? ? [= <- <-]. rewrite header_size. unfold sizeof_tag. split; [done|lia]. }
  intros s2 Q2 R2. split; [by eapply quiet_trans|]. split; [done|]. split.
  { intros q j [?|Hq]%lives_mid; [congruence|]. pose proof (lives_apart _ _ _ _ _ _ _ R Snug Hq). lia. }
  eexists _, (bytes_in (mem s1) p size).
  assert (Hfb : fresh_bytes (bytes_in (mem s1) p size) p size).
  { intros y. split; [intros [v Hv]; apply bytes_in_Some in Hv as [_ Hv]; exact Hv|]. intros Hy.
    destruct (r_mapped _ _ _ R1 y) as [v Hv]; [lia|exists v; by apply bytes_in_Some]. }
  assert (Hlive : forall q j, lives (l ++ with_use (with_span b x) (Some (p, size)) :: r') q j <-> (q = p /\ j = size) \/ lives (l ++ b :: r) q j).
  { intros q j. rewrite !lives_mid, Hu. cbn. unfold lives. rewrite !allocs_app, Hal'. naive_solver. }
  split_and!; [|exact Hfb|exact Hlive]. apply snug_mid in Snug as [_ Snug]. apply Forall_app in Snug as [Snl Snr].
  constructor; [exact R2| | | |by destruct l].
  - apply separated_mid in Sep as [Sl [_ Sr]]. apply separated_used; [done|]. split; [by eapply separated_end|by apply Hsep].
  - apply snug_mid. split; [|by apply Forall_app; split; [|apply Hsnug]]. apply snug_one. cbn. lia.
  - intros y. rewrite lookup_union_is_Some, Full, (Hfb y). setoid_rewrite Hlive. naive_solver.
Qed.

(** ** Allocation *)

(** The members the blocks depend on. *)
Definition core (h : ns_kheap W) :=
  (arena_base h, arena_size h, committed_size h, minimum_growth_pages h, first h, last h, cookie h).

Lemma rep_ext s s' bs d : core (kheap s') = core (kheap s) -> mem s' = mem s -> rep s bs d -> rep s' bs d.
Proof.
  intros [= E1 E2 E3 E4 E5 E6 E7] Em [[? ? ? ? ?] ? Hh ? ? ? ?]. constructor; unfold holds in *; rewrite ?E1, ?E2, ?E3, ?E4, ?E5, ?E6, ?E7, ?Em; try done.
  constructor; by rewrite ?E1, ?E2, ?E3, ?E4, ?E5, ?E6, ?E7.
Qed.
Lemma heap_at_ext s s' bs d : core (kheap s') = core (kheap s) -> mem s' = mem s -> heap_at s bs d -> heap_at s' bs d.
Proof. intros ? ? [R ? ? ? ?]. constructor; try done. by apply (rep_ext s). Qed.

(** The tail of every call that succeeds or fails under the lock. *)
Definition finished s (error : Z) : kstate W :=
  s <| kheap := (kheap s) <| last_error := error |> <| lock := 0 |> |>.
Lemma wp_finished {A} s error (v : A) (Q : A -> kstate W -> Prop) :
  Q v (finished s error) -> wp (hset last_error error;; heap_unlock;; mret v) Q s.
Proof. intros HQ. apply wp_bind, wp_modify, wp_bind, wp_modify, wp_ret. done. Qed.
Lemma heap_at_finished s bs d error : heap_at s bs d -> heap_at (finished s error) bs d.
Proof. by apply heap_at_ext. Qed.
Lemma frame_finished s s' error : frame s s' -> frame s (finished s' error).
Proof. done. Qed.

(** What an allocation that returns [p] has done. *)
Definition allocated bs d (size al p : Z) s' : Prop :=
  lock (kheap s') = 0 /\
  ((p = NULL /\ exists bs', heap_at s' bs' d /\ forall q j, lives bs' q j <-> lives bs q j) \/
   (p <> NULL /\ (al | p) /\ apart bs p size /\ exists bs' d', heap_at s' bs' (d ∪ d') /\ fresh_bytes d' p size /\
      forall q j, lives bs' q j <-> (q = p /\ j = size) \/ lives bs q j)).

Lemma grown_allocs e g bs bs' : grown e g bs bs' -> allocs bs' = allocs bs.
Proof. intros [l b Hb|l Hn]; rewrite !allocs_app; [|cbn; by rewrite app_nil_r]. unfold allocs at 2 4. cbn. by rewrite Hb. Qed.
Lemma grown_separated e g bs bs' : grown e g bs bs' -> separated bs -> separated bs'.
Proof.
  intros [l b Hb|l Hn].
  - apply separated_same. by rewrite !fmap_app.
  - intros Hs. destruct l as [|b l _] using rev_ind; [done|]. rewrite <- app_assoc. apply separated_mid. split; [done|].
    cbn. split; [|done]. left. by apply (Hn l).
Qed.

Lemma heap_at_grown e g bs bs' s s' d : grown e g bs bs' -> heap_at s bs d -> rep s' bs' d -> heap_at s' bs' d.
Proof.
  intros Hg [R Sep Snug Full _] R'. constructor; [done|by eapply grown_separated| | |by destruct Hg as [[]|[]]].
  - destruct Hg as [l b Hb|l Hn].
    + apply Forall_app in Snug as [? _]. apply Forall_app. split; [done|]. apply snug_one. cbn. by rewrite Hb.
    + apply Forall_app. split; [done|]. by apply snug_one.
  - intros x. rewrite Full. unfold lives. by rewrite (grown_allocs _ _ _ _ Hg).
Qed.

Lemma walk_length s bs d : rep s bs d -> (length bs < S (Z.to_nat (committed_size (kheap s) / NS_KHEAP_MIN_ALIGNMENT)))%nat.
Proof.
  intros R. pose proof (contig_length _ _ _ (r_contig _ _ _ R) (r_blocks _ _ _ R)) as Hl. unfold NS_KHEAP_MIN_ALIGNMENT.
  apply Nat2Z.inj_lt. rewrite Nat2Z.inj_succ, Z2Nat.id by (apply Z.div_pos; lia).
  enough (Z.of_nat (length bs) <= committed_size (kheap s) / 16) by lia. apply Z.div_le_lower_bound; lia.
Qed.

Lemma minimum_spec size k : 0 < size < 2 ^ 64 -> 4 <= k < 64 ->
  (minimum ← add_size_overflow (BLOCK_HEADER_SIZE + sizeof_tag) size; add_size_overflow minimum (2 ^ k)) =
    (if BLOCK_HEADER_SIZE + sizeof_tag + size + 2 ^ k <? 2 ^ 64 then Some (BLOCK_HEADER_SIZE + sizeof_tag + size + 2 ^ k) else None).
Proof.
  rewrite header_size. unfold sizeof_tag. intros Hs Hk.
  assert (Hp : 0 < 2 ^ k < 2 ^ 64) by (split; [apply Z.pow_pos_nonneg; lia|apply Z.pow_lt_mono_r; lia]).
  assert (Hadd : forall a b, is_u64 a -> 0 < b < 2 ^ 64 -> add_size_overflow a b = if a + b <? 2 ^ 64 then Some (a + b) else None).
  { intros a b Ha Hb. unfold add_size_overflow. destruct (Z.ltb_spec (a + b) (2 ^ 64)).
    - rewrite u64_small by lia. by rewrite (proj2 (Z.ltb_ge (a + b) a)) by lia.
    - assert (E : u64 (a + b) = a + b - 2 ^ 64) by (unfold u64; symmetry; apply Z.mod_unique_pos with 1; lia). rewrite E.
      by rewrite (proj2 (Z.ltb_lt _ a)) by lia. }
  rewrite (Hadd (64 + 24) size) by lia. destruct (Z.ltb_spec (64 + 24 + size) (2 ^ 64)); cbn [mbind option_bind].
  - by rewrite Hadd by lia.
  - by rewrite (proj2 (Z.ltb_ge _ (2 ^ 64))) by lia.
Qed.

(** One turn: the call is over, or the heap is larger. *)
Lemma wp_alloc_round s bs d size k :
  heap_at s bs d -> pages_ok (kheap s) -> 0 < size < 2 ^ 64 -> 4 <= k < 64 ->
  wp (alloc_round size (2 ^ k)) (fun res s' => frame s s' /\
    match res with
    | Some p => allocated bs d size (2 ^ k) p s'
    | None => Forall (fun b => b_use b = None -> layout (b_addr b) (b_span b) size (2 ^ k) = None) bs /\
        exists e g bs', BLOCK_HEADER_SIZE + sizeof_tag + size + 2 ^ k <= g /\ grown e g bs bs' /\ heap_at s' bs' d
    end) s.
Proof.
  intros H Hp Hz Hk. pose proof (at_rep _ _ _ H) as R. unfold alloc_round, walk_fuel. apply wp_bind, wp_gets, wp_bind, wp_bind, wp_gets, wp_ret.
  rewrite (r_first _ _ _ R). apply wp_bind. eapply wp_mono; [apply (wp_find s bs d size (2 ^ k)); [exact R|by eapply walk_length]|].
  assert (Hfail : forall s1 error, frame s s1 -> heap_at s1 bs d -> wp (hset last_error error;; heap_unlock;; mret (Some NULL))
    (fun res s' => frame s s' /\ match res with Some p => allocated bs d size (2 ^ k) p s' | None => False end) s1).
  { intros s1 error F H1. apply wp_finished. split; [by apply frame_finished|]. split; [done|]. left. split; [done|].
    exists bs. split; [by apply heap_at_finished|done]. }
  intros [[a [p c]]|] s1 [-> Hf].
  - destruct Hf as (l & b & r & -> & -> & Hu & Hl). apply wp_bind. eapply wp_mono; [by eapply wp_take|].
    intros [] s2 (Q2 & Hal & Hap & bs' & d' & H2 & Hfr & Hlive). apply wp_finished. split; [apply frame_finished; by apply quiet_frame|].
    split; [done|]. right. split; [|split; [done|]; split; [done|]; exists bs', d'; split; [by apply heap_at_finished|done]].
    assert (Hlv : lives bs' p size) by (apply Hlive; by left). pose proof (lives_range _ _ _ _ _ H2 Hlv) as Hr.
    pose proof (r_geo _ _ _ (at_rep _ _ _ H2)) as [[? ?] _ _ _ _]. unfold NULL. lia.
  - rewrite minimum_spec by done. destruct (Z.ltb_spec (BLOCK_HEADER_SIZE + sizeof_tag + size + 2 ^ k) (2 ^ 64)) as [Hm|Hm].
    2: { eapply wp_mono; [apply Hfail; [apply frame_refl|done]|]. by intros [p|] s2 [? ?]. }
    apply wp_bind. eapply wp_mono; [apply (wp_grow s bs d); [exact R|done|]|].
    { rewrite header_size in *. unfold sizeof_tag in *. pose proof (Z.pow_nonneg 2 k). lia. }
    intros rc s2 (F & [(-> & w & ->)|(-> & _ & g & bs' & Hg & Hgr & R2)]); cbn [Z.eqb negb].
    + eapply wp_mono; [apply Hfail; [done|apply (heap_at_ext s); done]|]. by intros [p|] s2 [? ?].
    + apply wp_ret. split; [done|]. split; [done|]. eexists _, g, bs'. split; [exact Hg|]. split; [exact Hgr|]. by eapply heap_at_grown.
Qed.

(** A heap that has just grown has room. *)
Lemma grown_room s e g bs bs' size k d :
  rep s bs' d -> grown e g bs bs' -> Forall blk_ok bs -> 0 < size -> 4 <= k < 64 -> BLOCK_HEADER_SIZE + sizeof_tag + size + 2 ^ k <= g ->
  Forall (fun b => b_use b = None -> layout (b_addr b) (b_span b) size (2 ^ k) = None) bs' -> False.
Proof.
  intros R Hg Hok Hz Hk Hm Hno. assert (Hb : exists l b, bs' = l ++ [b] /\ b_use b = None /\ g <= b_span b).
  { destruct Hg as [l b Hb|l Hn]; [|by eexists _, _]. eexists _, _. split; [done|]. split; [done|]. cbn.
    apply Forall_app in Hok as [_ [Hb' _]%Forall_cons]. pose proof (bk_size _ Hb') as Hs. rewrite header_size in Hs. lia. }
  destruct Hb as (l & b & -> & Hu & Hs). apply Forall_app in Hno as [_ [Hno _]%Forall_cons]. specialize (Hno Hu).
  pose proof (r_blocks _ _ _ R) as Hok'. apply Forall_app in Hok' as [_ [Hb _]%Forall_cons].
  pose proof (rep_range _ _ _ b R ltac:(set_solver)) as Rb. destruct (layout_complete (b_addr b) (b_span b) size k) as [x Hx]; try lia; [|apply Hb|congruence].
  destruct (bk_addr _ Hb) as [y Hy]. lia.
Qed.

Lemma frame_pages s s' : frame s s' -> pages_ok (kheap s) -> pages_ok (kheap s').
Proof. intros (_ & _ & E & _). unfold pages_ok. by rewrite E. Qed.

Lemma allocated_grown bs bs' d size al p s' : allocs bs' = allocs bs -> allocated bs' d size al p s' -> allocated bs d size al p s'.
Proof. intros E. unfold allocated, apart, lives. by rewrite E. Qed.

(** Two turns are enough. *)
Lemma wp_alloc_rounds s bs d size k :
  heap_at s bs d -> pages_ok (kheap s) -> 0 < size < 2 ^ 64 -> 4 <= k < 64 ->
  wp (alloc_rounds 2 size (2 ^ k)) (fun p s' => frame s s' /\ allocated bs d size (2 ^ k) p s') s.
Proof.
  intros H Hp Hz Hk. cbn [alloc_rounds]. apply wp_bind. eapply wp_mono; [by apply (wp_alloc_round s bs d size k)|].
  intros [p|] s1 [F H1]; [by apply wp_ret|]. destruct H1 as (_ & e & g & bs1 & Hm & Hg & H1).
  apply wp_bind. eapply wp_mono; [apply (wp_alloc_round s1 bs1 d size k); try done; by eapply frame_pages|].
  intros [p|] s2 [F2 H2].
  - apply wp_ret. split; [by eapply frame_trans|]. eapply allocated_grown; [by eapply grown_allocs|done].
  - exfalso. destruct H2 as [Hno _]. eapply (grown_room s1 e g bs bs1 size k d); try done; [apply H1|apply (r_blocks _ _ _ (at_rep _ _ _ H))|lia].
Qed.

Definition idle s : Prop := lock (kheap s) = 0 /\ initialized (kheap s) = 1 /\ pages_ok (kheap s).

Lemma wp_alloc_aligned s bs d heap size alignment :
  heap_at s bs d -> idle s -> heap <> NULL -> 0 < size < 2 ^ 64 -> is_u64 alignment -> power_of_two alignment = true ->
  wp (ns_kheap_alloc_aligned heap size alignment) (fun p s' => frame s s' /\ allocated bs d size (Z.max alignment 16) p s') s.
Proof.
  intros H (El & Ei & Hp) Hh Hz Ha Hpow. unfold ns_kheap_alloc_aligned. rewrite (proj2 (Z.eqb_neq _ _)) by done.
  apply wp_bind, wp_gets. rewrite Ei, Hpow, (proj2 (Z.eqb_neq size 0)) by lia. cbn [Z.eqb orb negb].
  apply power_of_two_spec in Hpow as (k & Hk & ->); [|done]. unfold NS_KHEAP_MIN_ALIGNMENT.
  apply wp_bind. unfold heap_lock, hget. apply wp_bind, wp_gets. rewrite El. cbn [Z.eqb]. apply wp_modify.
  assert (Hmax : exists j, 4 <= j < 64 /\ (if 2 ^ k <? 16 then 16 else 2 ^ k) = 2 ^ j /\ Z.max (2 ^ k) 16 = 2 ^ j).
  { destruct (Z.ltb_spec (2 ^ k) 16); [exists 4; change (2 ^ 4) with 16; lia|]. exists k. split; [|lia]. split; [|lia].
    apply (Z.pow_le_mono_r_iff 2); lia. }
  destruct Hmax as (j & Hj & -> & ->). eapply wp_mono; [apply (wp_alloc_rounds _ bs d size j); try done; by apply (heap_at_ext s)|].
  done.
Qed.

(** ** Release *)

Lemma wp_validate_pointer s l b r d p n Q :
  rep s (l ++ b :: r) d -> p < b_addr b + b_span b -> b_use b = Some (p, n) -> Q (inr (b_addr b, p - sizeof_tag)) s ->
  wp (validate_pointer p) Q s.
Proof.
  intros R Hpe Hu HQ. pose proof (rep_range _ _ _ b R ltac:(set_solver)) as Rb. pose proof (r_geo _ _ _ R) as [[? ?] [? ?] [? ?] ? ?].
  pose proof (r_blocks _ _ _ R) as Hok. rewrite Forall_forall in Hok.
  destruct (bk_use _ (Hok b ltac:(set_solver)) _ _ Hu) as (_ & Hn & Hp & _). rewrite header_size in Hp.
  pose proof (r_holds _ _ _ R) as (hs & ts & V & C & T & _). apply blocks_chain_app in C as [_ [Eb _]].
  assert (Et : ts !! (p - sizeof_tag) = Some (tag_of (cookie (kheap s)) (b_addr b) p n)) by (apply T, elem_of_allocs; exists b; set_solver).
  unfold hdr_of in Eb. rewrite Hu in Eb. unfold validate_pointer, sizeof_tag in *. rewrite header_size.
  apply wp_bind, wp_gets, wp_bind, wp_gets. rewrite !u64_small by lia. unfold NULL.
  rewrite (proj2 (Z.eqb_neq p 0)), (proj2 (Z.ltb_ge p _)), (proj2 (Z.leb_gt _ p)) by lia. cbn [orb].
  apply wp_bind. eapply wp_ld_tag; [exact V|exact Et|apply (list_elem_of_lookup_2 _ 1); reflexivity|].
  rewrite (proj2 (Z.ltb_ge (b_addr b) _)), (proj2 (Z.ltb_ge _ (b_addr b))) by lia. cbn [orb].
  apply wp_bind. eapply wp_ld_hdr; [exact V|exact Eb|apply (list_elem_of_lookup_2 _ 0); reflexivity|]. rewrite Z.eqb_refl. cbn [negb].
  apply wp_bind. eapply wp_ld_hdr; [exact V|exact Eb|apply (list_elem_of_lookup_2 _ 6); reflexivity|]. cbn [Z.eqb negb].
  apply wp_bind. eapply wp_ld_hdr; [exact V|exact Eb|apply (list_elem_of_lookup_2 _ 3); reflexivity|].
  apply wp_bind. eapply wp_ld_hdr; [exact V|exact Eb|apply (list_elem_of_lookup_2 _ 2); reflexivity|].
  apply wp_bind. eapply wp_ld_tag; [exact V|exact Et|apply (list_elem_of_lookup_2 _ 2); reflexivity|].
  apply wp_bind. eapply wp_ld_tag; [exact V|exact Et|apply (list_elem_of_lookup_2 _ 0); reflexivity|].
  apply wp_bind. unfold allocation_cookie. apply wp_bind, wp_gets, wp_ret. rewrite !Z.eqb_refl. cbn [negb orb]. by apply wp_ret.
Qed.

(** Merging a free block with its successor, if that is free. *)
Lemma wp_merge_any s l b r d :
  rep s (l ++ b :: r) d -> separated r ->
  wp (merge_next (b_addr b)) (fun a s' => a = b_addr b /\ quiet s s' /\ exists b' r',
    rep s' (l ++ b' :: r') d /\ (exists x, b' = with_span b x /\ b_span b <= x) /\ allocs r' = allocs r /\ separated r' /\ (snug r -> snug r') /\
    match r' with [] => True | n :: _ => b_use n <> None end) s.
Proof.
  intros R Hs. assert (Hbb : exists x, b = with_span b x /\ b_span b <= x) by (exists (b_span b); by destruct b).
  destruct r as [|n r]; [|destruct (b_use n) as [u|] eqn:Hn].
  - eapply wp_merge_none; [exact R|done|]. split; [done|]. split; [apply quiet_refl|]. by exists b, [].
  - eapply wp_merge_none; [exact R|cbn; congruence|]. split; [done|]. split; [apply quiet_refl|]. exists b, (n :: r). split_and!; try done. congruence.
  - eapply wp_merge; [exact R|done|]. intros s' Q' R'. split; [done|]. split; [done|]. eexists _, r. split_and!; [exact R'| | |apply Hs| |].
    + eexists. split; [done|]. pose proof (rep_range _ _ _ n R ltac:(set_solver)). lia.
    + unfold allocs. cbn. by rewrite Hn.
    + by intros [_ ?]%Forall_cons.
    + destruct Hs as [Hs _]. destruct r; [done|]. destruct Hs; congruence.
Qed.

Lemma last_addr_prev l c x : last_addr x (l ++ [c]) = b_addr c.
Proof. by rewrite last_addr_app. Qed.

(** The data in a block is that of its allocation. *)
Lemma own_bytes s l b r d p n x :
  heap_at s (l ++ b :: r) d -> b_use b = Some (p, n) -> is_Some (d !! x) ->
  b_addr b <= x < b_addr b + b_span b <-> p <= x < p + n.
Proof.
  intros [R _ Snug Full _] Hu Hx. pose proof (blk_at _ _ _ _ _ _ _ R Snug Hu) as Hb. split; [|lia]. intros Hr.
  apply Full in Hx as (q & j & Hq & Hx). apply lives_mid in Hq as [Hq|Hq]; [congruence|].
  pose proof (lives_apart _ _ _ _ _ _ _ R Snug Hq). lia.
Qed.
Lemma drop_own s l b r d p n :
  heap_at s (l ++ b :: r) d -> b_use b = Some (p, n) -> bytes_out d (b_addr b) (b_span b) = bytes_out d p n.
Proof.
  intros H Hu. apply map_eq. intros x. apply option_eq. intros v. rewrite !bytes_out_Some. split; intros [Hv Hx]; (split; [done|]);
    pose proof (own_bytes _ _ _ _ _ _ _ x H Hu ltac:(by eexists)); tauto.
Qed.
Lemma drop_lives s l b r d p n x :
  heap_at s (l ++ b :: r) d -> b_use b = Some (p, n) ->
  is_Some (bytes_out d p n !! x) <-> exists q j, lives (l ++ r) q j /\ q <= x < q + j.
Proof.
  intros H Hu. pose proof (at_data _ _ _ H x) as Hd. pose proof (blk_at _ _ _ _ _ _ _ (at_rep _ _ _ H) (at_snug _ _ _ H) Hu). split.
  - intros [v [Hv Hx]%bytes_out_Some]. destruct (proj1 Hd ltac:(by eexists)) as (q & j & [E|Hq]%lives_mid & Hr); [|by exists q, j].
    rewrite Hu in E. by injection E as <- <-.
  - intros (q & j & Hq & Hr). destruct (proj2 Hd) as [v Hv]; [exists q, j; split; [apply lives_mid; by right|done]|].
    exists v. apply bytes_out_Some. split; [done|]. pose proof (lives_apart _ _ _ _ _ _ _ (at_rep _ _ _ H) (at_snug _ _ _ H) Hq). lia.
Qed.

Lemma wp_release_alloc s l b r d p n :
  heap_at s (l ++ b :: r) d -> b_use b = Some (p, n) ->
  wp (release (b_addr b) (p - sizeof_tag)) (fun _ s' => quiet s s' /\ exists bs', heap_at s' bs' (bytes_out d p n) /\
    allocs bs' = allocs (l ++ r)) s.
Proof.
  intros H Hu. pose proof (drop_own _ _ _ _ _ _ _ H Hu) as Ed.
  assert (Hfull : forall bs', allocs bs' = allocs (l ++ r) -> forall x, is_Some (bytes_out d p n !! x) <-> exists q j, lives bs' q j /\ q <= x < q + j).
  { intros bs' E x. rewrite (drop_lives s l b r d p n x H Hu). unfold lives. by rewrite E. }
  destruct H as [R Sep Snug _ _]. apply separated_used in Sep as [Sl Sr]; [|by rewrite Hu]. apply snug_mid in Snug as [_ [Snl Snr]%Forall_app].
  unfold release. eapply wp_unmark; [exact R|exact Hu|]. rewrite Ed. intros s1 Q1 R1. apply wp_bind.
  eapply wp_mono; [by apply (wp_merge_any s1 l (with_use b None) r)|].
  intros a s2 (-> & Q2 & b2 & r2 & R2 & (x & -> & Hx) & Eal & Sr2 & Snr2 & Hn2). specialize (Snr2 Snr). set (b2 := with_span _ x) in *.
  pose proof (r_holds _ _ _ R2) as (hs & ts & V & C & _). apply blocks_chain_app in C as [C1 [Eb _]].
  apply wp_bind. change (b_addr (with_use b None)) with (b_addr b2). eapply wp_ld_hdr; [exact V|exact Eb|apply hdr_previous|].
  assert (Sb2 : separated (b2 :: r2)) by (split; [destruct r2; [done|by right]|done]).
  assert (Hallocs : allocs (l ++ b2 :: r2) = allocs (l ++ r)) by (by rewrite !allocs_app, (allocs_cons b2), Eal).
  destruct l as [|c l _] using rev_ind.
  { cbn [last_addr]. rewrite Z.eqb_refl. apply wp_bind, wp_ret, wp_ret. split; [by eapply quiet_trans|]. exists (b2 :: r2).
    split; [|done]. constructor; try done; [by constructor|]. by apply Hfull. }
  rewrite last_addr_prev. pose proof (rep_range _ _ _ c R2 ltac:(set_solver)) as Rc.
  rewrite (proj2 (Z.eqb_neq (b_addr c) NULL)) by (unfold NULL; lia).
  apply blocks_chain_app in C1 as [_ [Ec _]]. apply wp_bind. eapply wp_ld_hdr; [exact V|exact Ec|apply hdr_free|].
  unfold free_flag. destruct (b_use c) as [u|] eqn:Hc; cbn [Z.eqb negb when].
  - apply wp_ret. split; [by eapply quiet_trans|]. eexists. split; [|exact Hallocs]. constructor; [exact R2| | |by apply Hfull|by destruct l].
    + rewrite <- app_assoc. apply separated_mid. split; [done|]. cbn [app separated]. split; [|done]. left. by rewrite Hc.
    + apply Forall_app. split; [done|]. by constructor.
  - rewrite <- app_assoc in R2. cbn [app] in R2. apply wp_bind. eapply wp_merge; [exact R2|done|]. intros s3 Q3 R3. apply wp_ret.
    split; [by eapply quiet_trans; [|eapply quiet_trans]|]. eexists.
    assert (Ha : allocs (l ++ with_span c (b_span c + b_span b2) :: r2) = allocs ((l ++ [c]) ++ r)).
    { rewrite <- Hallocs, <- app_assoc. cbn [app]. rewrite !allocs_app, (allocs_cons c), (allocs_cons b2), (allocs_cons (with_span c _)).
      unfold allocs at 2 5. cbn. by rewrite Hc. }
    split; [|exact Ha]. constructor; [exact R3| | |by apply Hfull|by destruct l].
    + apply separated_mid. split; [apply separated_same with (l ++ [c]); [by rewrite !fmap_app|done]|].
      apply separated_same with (b2 :: r2); [|done]. cbn. by rewrite Hc.
    + apply Forall_app in Snl as [Snl _]. apply Forall_app. split; [done|]. constructor; [|done]. cbn. by rewrite Hc.
Qed.

(** What is live after a call. *)
Definition live_minus bs bs' (p : Z) : Prop := forall q j, lives bs' q j <-> lives bs q j /\ q <> p.

Lemma wp_heap_lock {A} s (k : M (kstate W) A) Q : lock (kheap s) = 0 -> wp k Q (s <| kheap := (kheap s) <| lock := 1 |> |>) -> wp (heap_lock;; k) Q s.
Proof. intros El HQ. unfold heap_lock, hget. apply wp_bind, wp_bind, wp_gets. rewrite El. by apply wp_modify. Qed.
Lemma heap_at_lock s bs d x : heap_at s bs d -> heap_at (s <| kheap := (kheap s) <| lock := x |> |>) bs d.
Proof. by apply heap_at_ext. Qed.

Lemma lives_other s l b r d p n q j : heap_at s (l ++ b :: r) d -> b_use b = Some (p, n) ->
  lives (l ++ r) q j <-> lives (l ++ b :: r) q j /\ q <> p.
Proof.
  intros H Hu. rewrite lives_mid. split.
  - intros Hq. split; [by right|]. intros ->. pose proof (lives_apart _ _ _ _ _ _ _ (at_rep _ _ _ H) (at_snug _ _ _ H) Hq).
    pose proof (blk_at _ _ _ _ _ _ _ (at_rep _ _ _ H) (at_snug _ _ _ H) Hu). lia.
  - intros [[E|?] Hne]; [congruence|done].
Qed.

Lemma wp_free s bs d heap p n :
  heap_at s bs d -> idle s -> heap <> NULL -> lives bs p n ->
  wp (ns_kheap_free heap p) (fun result s' => result = NS_KHEAP_OK /\ frame s s' /\ lock (kheap s') = 0 /\
    exists bs', heap_at s' bs' (bytes_out d p n) /\ live_minus bs bs' p) s.
Proof.
  intros H (El & Ei & _) Hh Hp. pose proof (lives_range _ _ _ _ _ H Hp) as Hr. pose proof (r_geo _ _ _ (at_rep _ _ _ H)) as [[? ?] _ _ _ _].
  unfold ns_kheap_free. rewrite (proj2 (Z.eqb_neq p NULL)), (proj2 (Z.eqb_neq heap NULL)) by (unfold NULL in *; lia).
  apply wp_bind, wp_gets. rewrite Ei. cbn [Z.eqb]. apply wp_heap_lock; [done|]. apply heap_at_lock with (x := 1) in H.
  apply lives_blk in Hp as (l & b & r & -> & Hu). pose proof (blk_at _ _ _ _ _ _ _ (at_rep _ _ _ H) (at_snug _ _ _ H) Hu).
  apply wp_bind. eapply wp_validate_pointer; [apply H|lia|exact Hu|]. apply wp_bind. eapply wp_mono; [by eapply wp_release_alloc|].
  intros [] s1 (Q1 & bs' & Hat & Ha). apply wp_finished. split; [done|]. split; [apply frame_finished; by apply quiet_frame in Q1|].
  split; [done|]. exists bs'. split; [by apply heap_at_finished|]. intros q j. rewrite <- (lives_other _ _ _ _ _ _ _ q j H Hu).
  unfold lives. by rewrite Ha.
Qed.

Lemma wp_usable s bs d heap p n :
  heap_at s bs d -> idle s -> heap <> NULL -> lives bs p n ->
  wp (ns_kheap_usable_size heap p) (fun size s' => size = n /\ frame s s' /\ lock (kheap s') = 0 /\ heap_at s' bs d) s.
Proof.
  intros H (El & Ei & _) Hh Hp. pose proof (lives_range _ _ _ _ _ H Hp) as Hr. pose proof (r_geo _ _ _ (at_rep _ _ _ H)) as [[? ?] _ _ _ _].
  unfold ns_kheap_usable_size. rewrite (proj2 (Z.eqb_neq p NULL)), (proj2 (Z.eqb_neq heap NULL)) by (unfold NULL in *; lia).
  apply wp_bind, wp_gets. rewrite Ei. cbn [Z.eqb orb]. apply wp_heap_lock; [done|]. apply heap_at_lock with (x := 1) in H.
  apply lives_blk in Hp as (l & b & r & -> & Hu). pose proof (blk_at _ _ _ _ _ _ _ (at_rep _ _ _ H) (at_snug _ _ _ H) Hu).
  apply wp_bind. eapply wp_validate_pointer; [apply H|lia|exact Hu|]. pose proof (r_holds _ _ _ (at_rep _ _ _ H)) as (hs & ts & V & C & _).
  apply blocks_chain_app in C as [_ [Eb _]]. unfold hdr_of in Eb. rewrite Hu in Eb. apply wp_bind.
  eapply wp_ld_hdr; [exact V|exact Eb|apply (list_elem_of_lookup_2 _ 2); reflexivity|]. apply wp_finished. split; [done|]. split; [done|].
  split; [done|]. by apply heap_at_finished.
Qed.

(** ** Bytes of allocations *)

Lemma heap_at_write s bs d x v :
  heap_at s bs d -> is_Some (d !! x) -> heap_at (s <| mem := <[x := v]> (mem s) |>) bs (<[x := v]> d).
Proof.
  intros [R Sep Snug Full Hn] Hx. pose proof (r_holds _ _ _ R) as (hs & ts & V & C & T & Dh & Dt & Dd).
  assert (Hdom : forall y, is_Some (<[x := v]> d !! y) <-> is_Some (d !! y)).
  { intros y. destruct (decide (y = x)) as [->|?]; [|by rewrite lookup_insert_ne]. rewrite lookup_insert_eq. split; [done|by eexists]. }
  assert (Ho : only_at x 1 (mem s) (<[x := v]> (mem s))).
  { split; [intros y Hy; apply lookup_insert_ne; lia|]. intros y. destruct (decide (y = x)) as [->|?]; [|by rewrite lookup_insert_ne].
    rewrite lookup_insert_eq. split; [|by eexists]. intros _. destruct Hx as [w Hw]. exists w. by apply (lookup_weaken d), V. }
  constructor; try done; [|intros y; by rewrite Hdom]. constructor; try apply R.
  - intros y Hy. cbn. apply Ho. by apply (r_mapped _ _ _ R).
  - exists hs, ts. split_and!; try done; [|intros y Hy; by apply Dd, Hdom]. destruct V as [Vh Vt Vd ? ? ? Vhd Vtd]. constructor; try done.
    + intros a h Ha. eapply fields_ext; [apply hdr_packed|by apply Vh|exact Ho|]. destruct (Vhd a x); [by eexists|done|lia|lia].
    + intros a h Ha. eapply fields_ext; [apply tag_packed|by apply Vt|exact Ho|]. destruct (Vtd a x); [by eexists|done|lia|lia].
    + by apply insert_mono.
    + intros a y Ha Hy%Hdom. by apply Vhd.
    + intros a y Ha Hy%Hdom. by apply Vtd.
Qed.

Lemma heap_at_mapped s bs d x : heap_at s bs d -> is_Some (d !! x) -> exists v, mem s !! x = Some v /\ d !! x = Some v.
Proof.
  intros H [v Hv]. exists v. split; [|done]. destruct (r_holds _ _ _ (at_rep _ _ _ H)) as (hs & ts & V & _). by apply (lookup_weaken d), V.
Qed.

Lemma heap_at_store s bs d a vs :
  heap_at s bs d -> (forall x, a <= x < a + Z.of_nat (length vs) -> is_Some (d !! x)) ->
  exists m d', store_bytes (mem s) a vs = Some m /\ heap_at (s <| mem := m |>) bs d' /\
    (forall i v, vs !! i = Some v -> d' !! (a + Z.of_nat i) = Some v) /\
    (forall x, ~ (a <= x < a + Z.of_nat (length vs)) -> d' !! x = d !! x).
Proof.
  revert s d a. induction vs as [|v vs IH]; intros s d a H Hd; cbn [store_bytes length] in *.
  - exists (mem s), d. split_and!; try done. by apply (heap_at_ext s).
  - destruct (heap_at_mapped s bs d a H) as (w & Hw & Hdw); [apply Hd; lia|]. rewrite Hw. cbn [mbind option_bind].
    apply (heap_at_write s bs d a v) in H; [|by eexists].
    destruct (IH _ _ (a + 1) H) as (m & d' & Em & H' & Hin & Hout).
    { intros x Hx. rewrite lookup_insert_ne by lia. apply Hd. lia. }
    exists m, d'. split; [exact Em|]. split; [exact H'|]. split.
    + intros [|i] u E; cbn in E.
      * injection E as ->. rewrite Z.add_0_r, Hout by lia. apply lookup_insert_eq.
      * rewrite <- (Hin i u E). f_equal. lia.
    + intros x Hx. rewrite Hout by lia. apply lookup_insert_ne. lia.
Qed.

Lemma heap_at_copy s bs d dst src n :
  heap_at s bs d -> (forall x, src <= x < src + Z.of_nat n \/ dst <= x < dst + Z.of_nat n -> is_Some (d !! x)) ->
  src + Z.of_nat n <= dst \/ dst + Z.of_nat n <= src ->
  exists m d', copy_bytes n (mem s) dst src = Some m /\ heap_at (s <| mem := m |>) bs d' /\
    (forall i, 0 <= i < Z.of_nat n -> d' !! (dst + i) = d !! (src + i)) /\
    (forall x, ~ (dst <= x < dst + Z.of_nat n) -> d' !! x = d !! x).
Proof.
  revert s d dst src. induction n as [|n IH]; intros s d dst src H Hd Hdis; cbn [copy_bytes] in *.
  - exists (mem s), d. split_and!; try done; [by apply (heap_at_ext s)|lia].
  - destruct (heap_at_mapped s bs d src H) as (w & Hw & Hdw); [apply Hd; lia|]. destruct (heap_at_mapped s bs d dst H) as (u & Hu & Hdu); [apply Hd; lia|].
    rewrite Hw, Hu. cbn [mbind option_bind]. apply (heap_at_write s bs d dst w) in H; [|by eexists].
    destruct (IH _ _ (dst + 1) (src + 1) H) as (m & d' & Em & H' & Hin & Hout); [|lia|].
    { intros x Hx. destruct (decide (x = dst)) as [->|?]; [rewrite lookup_insert_eq; by eexists|]. rewrite lookup_insert_ne by lia. apply Hd. lia. }
    exists m, d'. split; [exact Em|]. split; [exact H'|]. split.
    + intros i Hi. destruct (decide (i = 0)) as [->|?].
      * rewrite !Z.add_0_r, Hout, lookup_insert_eq by lia. done.
      * replace (dst + i) with (dst + 1 + (i - 1)) by lia. rewrite Hin by lia. rewrite lookup_insert_ne by lia. f_equal. lia.
    + intros x Hx. rewrite Hout by lia. apply lookup_insert_ne. lia.
Qed.
End calls.
