(* ===== verification/HeapRealloc.v ===== *)
(** * Reallocation, cleared allocation, and the check of the heap

    The calls that combine others: [ns_kheap_calloc] clears what it allocates,
    [ns_kheap_realloc] resizes in place or moves, [ns_kheap_init] makes the
    first heap, and the code's own check of its invariants accepts a heap at
    rest. *)

From S2P Require Import Prelude Errno Bytes Heap HeapMem HeapProps HeapOps HeapCalls.

Section realloc.
Context {W : Type}.
Abbreviation K := (M (kstate W)).
Implicit Types (s : kstate W) (bs l r : list blk) (d : gmap Z Z).

(** ** Cleared allocation *)

(** What a cleared allocation that returns [p] has done. *)
Definition cleared bs d (size p : Z) s' : Prop :=
  lock (kheap s') = 0 /\
  ((p = NULL /\ exists bs', heap_at s' bs' d /\ forall q j, lives bs' q j <-> lives bs q j) \/
   (p <> NULL /\ (16 | p) /\ apart bs p size /\ exists bs' d', heap_at s' bs' d' /\
      (forall x, p <= x < p + size -> d' !! x = Some 0) /\ (forall x, ~ (p <= x < p + size) -> d' !! x = d !! x) /\
      forall q j, lives bs' q j <-> (q = p /\ j = size) \/ lives bs q j)).

Lemma union_fresh d d' p n x : fresh_bytes d' p n -> ~ (p <= x < p + n) -> (d ∪ d') !! x = d !! x.
Proof.
  intros Hf Hx. destruct (d' !! x) eqn:E; [destruct Hx; apply Hf; by eexists|]. rewrite lookup_union, E. by destruct (d !! x).
Qed.

Lemma wp_calloc s bs d heap count size :
  heap_at s bs d -> idle s -> heap <> NULL -> 0 < count -> 0 < size -> count * size < 2 ^ 64 ->
  wp (ns_kheap_calloc heap count size) (fun p s' => frame s s' /\ cleared bs d (count * size) p s') s.
Proof.
  intros H Hi Hh Hc Hs Hfit. unfold ns_kheap_calloc. rewrite (proj2 (Z.eqb_neq count 0)), (proj2 (Z.eqb_neq size 0)) by lia.
  rewrite (proj2 (Z.ltb_ge (SIZE_MAX / size) count)) by (apply Z.div_le_lower_bound; unfold SIZE_MAX, UINT64_MAX; lia). cbn [orb].
  rewrite u64_small by nia. apply wp_bind. unfold ns_kheap_alloc.
  eapply wp_mono; [apply (wp_alloc_aligned s bs d heap (count * size) 16); try done; nia|].
  intros p s1 [F [El [(-> & bs' & H1 & Hlv)|(Hp & Ha & Hap & bs' & d' & H1 & Hf & Hlv)]]].
  - cbn [Z.eqb negb when]. apply wp_bind, wp_ret, wp_ret. split; [done|]. split; [done|]. left. split; [done|]. by exists bs'.
  - rewrite (proj2 (Z.eqb_neq p NULL)) by done. cbn [negb when]. apply wp_bind.
    destruct (heap_at_store s1 bs' (d ∪ d') p (replicate (Z.to_nat (count * size)) 0) H1) as (m & d2 & Em & H2 & Hin & Hout).
    { intros x Hx. rewrite length_replicate, Z2Nat.id in Hx by nia. apply lookup_union_is_Some. right. by apply Hf. }
    exists tt, (s1 <| mem := m |>). split; [unfold heap_zero; by rewrite Em|]. apply wp_ret. rewrite length_replicate, Z2Nat.id in Hout by nia.
    split; [done|]. split; [done|]. right. split; [done|]. split; [done|]. split; [done|]. exists bs', d2. split; [done|]. split_and!; [| |done].
    + intros x Hx. rewrite <- (Hin (Z.to_nat (x - p)) 0); [f_equal; lia|]. apply lookup_replicate. split; [done|lia].
    + intros x Hx. rewrite Hout by done. by eapply union_fresh.
Qed.

(** ** Reallocation *)

(** A block in use takes over a free successor when it has to. *)
Lemma wp_extend {A} s l b r d p n size (k : Z -> K A) Q :
  heap_at s (l ++ b :: r) d -> b_use b = Some (p, n) ->
  (forall s' x r', quiet s s' -> heap_at s' (l ++ with_span b x :: r') d -> allocs r' = allocs r -> b_span b <= x ->
     wp (k (b_addr b + x - p)) Q s') ->
  wp (available ← room (b_addr b) p; next ← ld 8 (b_addr b + o_next);
      fr ← (if (available <? size) && negb (next =? NULL) then ld 1 (next + o_free) else mret 0);
      available ← (if negb (fr =? 0) then merge_next (b_addr b);; room (b_addr b) p else mret available); k available) Q s.
Proof.
  intros H Hu HQ. pose proof (at_rep _ _ _ H) as R. pose proof (blk_at _ _ _ _ _ _ _ R (at_snug _ _ _ H) Hu) as Hb.
  assert (Hroom : forall s1 l1 b1 r1, rep s1 (l1 ++ b1 :: r1) d -> b_addr b1 = b_addr b -> p <= b_addr b1 + b_span b1 -> forall Q' : Z -> kstate W -> Prop,
    Q' (b_addr b + b_span b1 - p) s1 -> wp (room (b_addr b) p) Q' s1).
  { intros s1 l1 b1 r1 R1 Ea Hp Q' HQ'. pose proof (r_holds _ _ _ R1) as (hs & ts & V & C & _). apply blocks_chain_app in C as [_ [Eb _]].
    pose proof (rep_range _ _ _ b1 R1 ltac:(set_solver)) as Rb. unfold room. rewrite <- Ea in *. apply wp_bind.
    eapply wp_ld_hdr; [exact V|exact Eb|apply hdr_span|]. apply wp_ret. rewrite (u64_small (p - _)), u64_small by lia.
    by replace (b_span b1 - (p - b_addr b1)) with (b_addr b1 + b_span b1 - p) by lia. }
  assert (Hkeep : wp (k (b_addr b + b_span b - p)) Q s).
  { apply (HQ s (b_span b) r); [apply quiet_refl| |done|lia]. by replace (with_span b (b_span b)) with b by (by destruct b). }
  pose proof (r_holds _ _ _ R) as (hs & ts & V & C & _). apply blocks_chain_app in C as [_ [Eb C2]].
  apply wp_bind. eapply Hroom; [exact R|done|lia|]. apply wp_bind. eapply wp_ld_hdr; [exact V|exact Eb|apply hdr_next|].
  destruct (_ <? size); cbn [andb]; [|by apply wp_bind, wp_ret, wp_bind, wp_ret].
  destruct r as [|c r]; cbn [head_addr]; [rewrite Z.eqb_refl; by apply wp_bind, wp_ret, wp_bind, wp_ret|].
  pose proof (rep_range _ _ _ c R ltac:(set_solver)) as Rc. rewrite (proj2 (Z.eqb_neq (b_addr c) NULL)) by (unfold NULL; lia). cbn [negb].
  destruct C2 as [Ec _]. apply wp_bind. eapply wp_ld_hdr; [exact V|exact Ec|apply hdr_free|]. unfold free_flag.
  destruct (b_use c) eqn:Hc; cbn [Z.eqb negb]; [by apply wp_bind, wp_ret|]. apply wp_bind, wp_bind. eapply wp_merge; [exact R|done|].
  intros s1 Q1 R1. eapply Hroom; [exact R1|done|cbn; lia|]. destruct H as [_ Sep Snug Full _].
  assert (Hal : allocs r = allocs (c :: r)) by (unfold allocs; cbn; by rewrite Hc).
  cbn [with_span b_span]. eapply HQ; [exact Q1| |exact Hal|lia]. constructor; [exact R1| | | |by destruct l].
  - apply separated_used in Sep as [Sl [_ Sr]]; [|by rewrite Hu]. apply separated_used; [cbn; by rewrite Hu|done].
  - apply snug_mid in Snug as [Sb [Sl [_ Sr]%Forall_cons]%Forall_app]. apply snug_mid. split; [|by apply Forall_app].
    apply snug_one. cbn. rewrite Hu. lia.
  - intros y. rewrite Full. setoid_rewrite lives_mid. cbn. unfold lives. by rewrite !allocs_app, Hal.
Qed.

(** What a reallocation of [p] that returns [q] has done. *)
Definition moved bs d (p n size q : Z) s' : Prop :=
  lock (kheap s') = 0 /\
  ((q = NULL /\ exists bs', heap_at s' bs' d /\ forall x j, lives bs' x j <-> lives bs x j) \/
   (q <> NULL /\ (16 | q) /\ (forall x j, lives bs x j -> x <> p -> x + j <= q \/ q + size <= x) /\ exists bs' d', heap_at s' bs' d' /\
      (forall i, 0 <= i < Z.min n size -> d' !! (q + i) = d !! (p + i)) /\
      (forall x, ~ (p <= x < p + n) -> ~ (q <= x < q + size) -> d' !! x = d !! x) /\
      forall x j, lives bs' x j <-> (x = q /\ j = size) \/ (lives bs x j /\ x <> p))).

Lemma resize_spec b p size x :
  blk_ok (with_span b x) -> 0 < b_addr b -> b_addr b + x < 2 ^ 64 -> b_addr b + 88 <= p -> 0 < size -> p + size <= b_addr b + x ->
  exists c, align_up_size (u64 (u64 (p + size) - b_addr b)) NS_KHEAP_MIN_ALIGNMENT = Some c /\ (16 | c) /\
    p + size <= b_addr b + c /\ c <= x.
Proof.
  intros Hok Ha Hx Hp Hs Hfit. destruct (bk_addr _ Hok) as [y Hy]. cbn in Hy. rewrite (u64_small (p + size)), u64_small by lia.
  unfold NS_KHEAP_MIN_ALIGNMENT. change 16 with (2 ^ 4) at 1. rewrite align_up_size_spec by lia. rewrite (proj2 (Z.ltb_lt _ (2 ^ 64))) by lia.
  eexists. split; [done|]. split; [apply (ceil_to_divide _ (2 ^ 4)); lia|]. pose proof (ceil_to_ge (p + size - b_addr b) (2 ^ 4) ltac:(lia)).
  split; [lia|]. apply ceil_to_least; [lia|lia|apply (bk_span _ Hok)].
Qed.

(** The bytes of an allocation resized in place. *)
Lemma resized_data s l b r d p n size x :
  heap_at s (l ++ b :: r) d -> b_use b = Some (p, n) ->
  let d1 := bytes_out d p n ∪ bytes_in (mem s) p size in
  (0 <= x < Z.min n size -> d1 !! (p + x) = d !! (p + x)) /\
  (~ (p <= x < p + n) -> ~ (p <= x < p + size) -> d1 !! x = d !! x).
Proof.
  intros H Hu d1. split.
  - intros Hx. assert (Hd : is_Some (d !! (p + x))) by (apply (at_data _ _ _ H); exists p, n; split; [apply lives_mid; by left|lia]).
    destruct (heap_at_mapped _ _ _ _ H Hd) as (v & Hm & Hv). rewrite Hv. apply lookup_union_Some_raw. right. split.
    + destruct (bytes_out d p n !! (p + x)) eqn:E; [|done]. apply bytes_out_Some in E as [_ E]. lia.
    + apply bytes_in_Some. split; [done|lia].
  - intros H1 H2. apply option_eq. intros v. split.
    + intros [Hv|[_ Hv]]%lookup_union_Some_raw; [by apply bytes_out_Some in Hv as [? _]|apply bytes_in_Some in Hv as [_ ?]; done].
    + intros Hv. apply lookup_union_Some_raw. left. by apply bytes_out_Some.
Qed.

Lemma wp_resize s l b r d p n size :
  heap_at s (l ++ b :: r) d -> b_use b = Some (p, n) -> 0 < size -> p + size <= b_addr b + b_span b ->
  wp (match align_up_size (u64 (u64 (p + size) - b_addr b)) NS_KHEAP_MIN_ALIGNMENT with
      | Some consumed => split_trailing (b_addr b) consumed
      | None => mret tt
      end;;
      st 8 (b_addr b + o_requested) size;; st 8 (p - sizeof_tag + t_requested) size;;
      c ← allocation_cookie (b_addr b) p; st 8 (p - sizeof_tag + t_cookie) c;;
      hset last_error NS_KHEAP_OK;; heap_unlock;; mret p)
    (fun q s' => frame s s' /\ moved (l ++ b :: r) d p n size q s') s.
Proof.
  intros H Hu Hs Hfit. pose proof (at_rep _ _ _ H) as R. pose proof (blk_at _ _ _ _ _ _ _ R (at_snug _ _ _ H) Hu) as Hb.
  pose proof (rep_range _ _ _ b R ltac:(set_solver)) as Rb. pose proof (drop_own _ _ _ _ _ _ _ H Hu) as Ed.
  assert (Hok : blk_ok b) by (pose proof (r_blocks _ _ _ R) as Hok; rewrite Forall_forall in Hok; apply Hok; set_solver).
  destruct (resize_spec b p size (b_span b)) as (c & -> & Hc16 & Hpc & Hcs); try lia; [by destruct b|].
  apply (rep_data s l b r d p n size) in R as R0; [|done|lia|done]. rewrite Ed in R0. set (d1 := bytes_out d p n ∪ _) in *.
  assert (Hd1 : forall y, is_Some (d1 !! y) <-> p <= y < p + size \/ exists q j, lives (l ++ r) q j /\ q <= y < q + j).
  { intros y. unfold d1. rewrite lookup_union_is_Some, (drop_lives s l b r d p n y H Hu). split.
    - intros [?|[v Hv%bytes_in_Some]]; [by right|left; tauto].
    - intros [Hy|?]; [right|by left]. destruct (r_mapped _ _ _ R y) as [v Hv]; [lia|]. exists v. by apply bytes_in_Some. }
  apply wp_bind. eapply wp_split; [exact R0|done|rewrite header_size; lia|intros ? ? E; rewrite Hu in E; injection E as <- <-; lia| |].
  { intros y [Hy|(q & j & Hq & Hy)]%Hd1 Hr; [lia|]. pose proof (lives_apart _ _ _ _ _ _ _ R (at_snug _ _ _ H) Hq). lia. }
  destruct (split_shape b r c Hcs) as (x & r' & -> & Hx & Hal & Hsep & Hsnug). intros s1 Q1 R1.
  eapply (wp_retag s1 l (with_span b x) r' d1 p n size); [exact R1|done|lia|]. intros s2 Q2 R2. apply wp_finished.
  split; [apply frame_finished, quiet_frame; by eapply quiet_trans|]. split; [done|]. right. split; [unfold NULL; lia|].
  split; [tauto|]. split.
  { intros y j Hy Hne. pose proof (proj2 (lives_other s l b r d p n y j H Hu) (conj Hy Hne)) as Hy'.
    pose proof (lives_apart _ _ _ _ _ _ _ R (at_snug _ _ _ H) Hy'). lia. }
  eexists _, d1.
  assert (Hlive : forall y j, lives (l ++ with_use (with_span b x) (Some (p, size)) :: r') y j <-> (y = p /\ j = size) \/ lives (l ++ r) y j).
  { intros y j. rewrite lives_mid. cbn. unfold lives. rewrite !allocs_app, Hal. naive_solver. }
  split; [|split_and!].
  - apply heap_at_finished. destruct H as [_ Sep Snug _ _]. apply separated_used in Sep as [Sl Sr]; [|by rewrite Hu].
    apply snug_mid in Snug as [_ [Snl Snr]%Forall_app]. constructor; [exact R2| | | |by destruct l].
    + apply separated_used; [done|]. split; [done|by apply Hsep].
    + apply snug_mid. split; [apply snug_one; cbn; lia|]. apply Forall_app. split; [done|by apply Hsnug].
    + intros y. rewrite Hd1. setoid_rewrite Hlive. naive_solver.
  - intros i Hi. by apply (proj1 (resized_data s l b r d p n size i H Hu)).
  - intros y H1 H2. by apply (proj2 (resized_data s l b r d p n size y H Hu)).
  - intros y j. by rewrite Hlive, (lives_other s l b r d p n y j H Hu).
Qed.

Lemma moved_ext bs bs' d p n size q s' : (forall x j, lives bs' x j <-> lives bs x j) -> moved bs' d p n size q s' -> moved bs d p n size q s'.
Proof.
  intros E [El [(? & bs1 & ? & Hl)|(? & ? & ? & bs1 & d1 & ? & ? & ? & Hl)]]; split; [done|left|done|right].
  - split; [done|]. exists bs1. split; [done|]. intros x j. by rewrite Hl, E.
  - split; [done|]. split; [done|]. split; [intros x j Hx; by apply H1, E|]. exists bs1, d1. split; [done|]. split_and!; [done|done|]. intros x j. by rewrite Hl, E.
Qed.

(** The allocation moves: a new one, a copy, and the old one is released. *)
Lemma wp_move s bs d heap p n size :
  heap_at s bs d -> idle s -> heap <> NULL -> lives bs p n -> n <= size < 2 ^ 64 ->
  wp (replacement ← ns_kheap_alloc heap size;
      if replacement =? NULL then mret NULL
      else
        heap_copy replacement p (if n <? size then n else size);;
        r ← ns_kheap_free heap p;
        if negb (r =? NS_KHEAP_OK) then ns_kheap_free heap replacement;; mret NULL
        else mret replacement) (fun q s' => frame s s' /\ moved bs d p n size q s') s.
Proof.
  intros H Hi Hh Hp Hn. pose proof (lives_range _ _ _ _ _ H Hp) as Rp.
  replace (if n <? size then n else size) with n by (destruct (Z.ltb_spec n size); lia).
  apply wp_bind. unfold ns_kheap_alloc. eapply wp_mono; [apply (wp_alloc_aligned s bs d heap size 16); try done; lia|].
  intros q s1 [F [El [(-> & bs' & H1 & Hlv)|(Hq & Ha & Hap & bs' & d' & H1 & Hf & Hlv)]]].
  { apply wp_ret. split; [done|]. split; [done|]. left. split; [done|]. by exists bs'. }
  rewrite (proj2 (Z.eqb_neq q NULL)) by done. apply wp_bind. pose proof (Hap p n Hp) as Hapn.
  assert (Hlp : lives bs' p n) by (apply Hlv; by right).
  assert (Hpd : forall x, p <= x < p + n -> is_Some (d !! x)) by (intros x Hx; apply (at_data _ _ _ H); by exists p, n).
  destruct (heap_at_copy s1 bs' (d ∪ d') q p (Z.to_nat n) H1) as (m & d2 & Em & H2 & Hin & Hout); rewrite ?Z2Nat.id in * by lia.
  { intros x [Hx|Hx]; apply lookup_union_is_Some; [left; by apply Hpd|right; apply Hf; lia]. }
  { lia. }
  exists tt, (s1 <| mem := m |>). split; [unfold heap_copy; by rewrite Em|]. destruct Hi as (_ & Ei & Hpo).
  apply wp_bind. eapply wp_mono; [apply (wp_free _ bs' d2 heap p n); try done|].
  { split; [done|]. destruct F as (_ & _ & Ep & Ei' & _). cbn. split; [congruence|]. unfold pages_ok in *. cbn. by rewrite Ep. }
  intros rc s2 (-> & F2 & El2 & bs2 & H3 & Hlm). cbn [Z.eqb negb]. apply wp_ret. split; [by eapply frame_trans|]. split; [done|].
  right. split; [done|]. split; [exact Ha|]. split; [intros x j Hx _; by apply Hap|]. exists bs2, (bytes_out d2 p n). split; [done|].
  assert (Hkeep : forall x, ~ (p <= x < p + n) -> bytes_out d2 p n !! x = d2 !! x).
  { intros x Hx. apply option_eq. intros v. rewrite bytes_out_Some. tauto. }
  split_and!.
  - intros i Hi. rewrite Hkeep, Hin by lia. destruct (Hpd (p + i)) as [v Hv]; [lia|]. rewrite Hv. by apply lookup_union_Some_l.
  - intros x Hx1 Hx2. rewrite Hkeep, Hout by lia. by eapply union_fresh.
  - intros x j. rewrite (Hlm x j), Hlv. split; [tauto|]. intros [[-> ->]|[? ?]]; [|tauto]. split; [by left|]. lia.
Qed.

(** Reallocation of a live pointer. *)
Lemma wp_realloc s bs d heap p n size :
  heap_at s bs d -> idle s -> heap <> NULL -> lives bs p n -> 0 < size < 2 ^ 64 ->
  wp (ns_kheap_realloc heap p size) (fun q s' => frame s s' /\ moved bs d p n size q s') s.
Proof.
  intros H Hi Hh Hp Hs. pose proof Hi as (El & Ei & Hpo).
  pose proof (lives_range _ _ _ _ _ H Hp) as Hr. pose proof (r_geo _ _ _ (at_rep _ _ _ H)) as [[Hbase _] _ _ _ _].
  unfold ns_kheap_realloc. rewrite (proj2 (Z.eqb_neq p NULL)), (proj2 (Z.eqb_neq size 0)), (proj2 (Z.eqb_neq heap NULL)) by (unfold NULL in *; lia).
  apply wp_bind, wp_gets. rewrite Ei. cbn [Z.eqb]. apply wp_heap_lock; [done|]. apply heap_at_lock with (x := 1) in H.
  apply lives_blk in Hp as (l & b & r & -> & Hu). pose proof (blk_at _ _ _ _ _ _ _ (at_rep _ _ _ H) (at_snug _ _ _ H) Hu) as Hb.
  apply wp_bind. eapply wp_validate_pointer; [apply H|lia|exact Hu|].
  pose proof (r_holds _ _ _ (at_rep _ _ _ H)) as (hs & ts & V & C & _). apply blocks_chain_app in C as [_ [Eb _]]. unfold hdr_of in Eb. rewrite Hu in Eb.
  apply wp_bind. eapply wp_ld_hdr; [exact V|exact Eb|apply (list_elem_of_lookup_2 _ 2); reflexivity|].
  eapply (wp_extend _ l b r d p n size); [exact H|exact Hu|]. intros s1 x r' Q1 Hx1 Hal Hx.
  assert (Hlv : forall y j, lives (l ++ with_span b x :: r') y j <-> lives (l ++ b :: r) y j).
  { intros y j. rewrite !lives_mid. unfold lives. by rewrite !allocs_app, Hal. }
  destruct (Z.leb_spec size (b_addr b + x - p)) as [Hfit|Hfit].
  - eapply wp_mono; [apply (wp_resize s1 l (with_span b x) r' d p n size Hx1 Hu); [lia|cbn; lia]|].
    intros q s2 [F M]. split; [apply quiet_frame in Q1; by eapply frame_trans|]. by eapply moved_ext.
  - apply wp_bind, wp_modify. apply heap_at_lock with (x := 0) in Hx1. apply quiet_frame in Q1.
    eapply wp_mono; [apply (wp_move _ _ d heap p n size Hx1)|].
    + split; [done|]. destruct Q1 as (_ & _ & Ep & Ei' & _). cbn in *. split; [congruence|]. unfold pages_ok in *. cbn. by rewrite Ep.
    + done.
    + apply lives_mid. by left.
    + lia.
    + intros q s2 [F M]. split; [by eapply frame_trans; [|exact F]|]. by eapply moved_ext.
Qed.

(** ** The check of the heap *)

Lemma separated_next l b r : separated (l ++ b :: r) -> b_use b = None ->
  forall c l', l = l' ++ [c] -> b_use c <> None.
Proof.
  intros Hs Hb c l' -> Hc. rewrite <- app_assoc in Hs. cbn [app] in Hs. apply separated_mid in Hs as [_ [[?|?] _]]; congruence.
Qed.

(** One block of the walk passes every test. *)
Lemma check_tests b base committed :
  blk_ok b -> snug [b] -> base <= b_addr b -> 0 < b_addr b -> b_addr b + b_span b <= base + committed -> base + committed < 2 ^ 64 -> 0 <= base ->
  (b_span b <? BLOCK_HEADER_SIZE) = false /\ Z.land (b_span b) (NS_KHEAP_MIN_ALIGNMENT - 1) = 0 /\
  (u64 (base + committed - b_addr b) <? b_span b) = false /\
  (forall p n, b_use b = Some (p, n) ->
     (p <=? u64 (b_addr b + BLOCK_HEADER_SIZE)) || (n =? 0) || (u64 (b_addr b + b_span b - p) <? n) = false).
Proof.
  intros [_ Hs16 Hsz Huse] Hs Hb Hb0 He Hlt H0. rewrite header_size in *. split_and!.
  - apply Z.ltb_ge. lia.
  - change (NS_KHEAP_MIN_ALIGNMENT - 1) with (Z.ones 4). rewrite Z.land_ones by lia. by apply Z.mod_divide.
  - rewrite u64_small by lia. apply Z.ltb_ge. lia.
  - intros p n Hu. rewrite snug_one, Hu in Hs. destruct (Huse p n Hu) as (_ & _ & ?). unfold sizeof_tag in *. rewrite !u64_small by lia.
    rewrite (proj2 (Z.leb_gt p _)), (proj2 (Z.eqb_neq n 0)), (proj2 (Z.ltb_ge _ n)) by lia. done.
Qed.

Lemma wp_check_loop s bs d : heap_at s bs d -> forall mid l fuel z, bs = l ++ mid -> (length mid < fuel)%nat ->
  contig z mid (arena_base (kheap s) + committed_size (kheap s)) ->
  wp (check_loop fuel (head_addr mid NULL) z (last_addr NULL l)) (fun result s' => result = NS_KHEAP_OK /\ s' = s) s.
Proof.
  intros H. pose proof (at_rep _ _ _ H) as R. pose proof (r_geo _ _ _ R) as [[? ?] [? ?] [? ?] ? ?].
  pose proof (r_holds _ _ _ R) as (hs & ts & V & C & _). pose proof (r_last _ _ _ R) as Hlast.
  induction mid as [|b mid IH]; intros l fuel z E Hf Hz; (destruct fuel as [|fuel]; [cbn in Hf; lia|]);
    cbn [check_loop head_addr]; unfold hget; apply wp_bind, wp_gets, wp_bind, wp_gets.
  { rewrite Z.eqb_refl. apply wp_bind, wp_gets, wp_ret. split; [|done]. rewrite Hlast, E, app_nil_r, Z.eqb_refl.
    cbn in Hz. by rewrite Hz, u64_small, Z.eqb_refl by lia. }
  destruct Hz as [Hz Hcg]. pose proof (rep_range _ _ _ b R ltac:(set_solver)) as Rb.
  rewrite (proj2 (Z.eqb_neq (b_addr b) NULL)), Hz, Z.eqb_refl by (unfold NULL; lia). cbn [negb]. rewrite <- Hz.
  rewrite E in C. apply blocks_chain_app in C as [C1 [Eb C2]]. pose proof (proj1 (Forall_forall _ _) (r_blocks _ _ _ R) b ltac:(set_solver)) as Hok.
  pose proof (at_snug _ _ _ H) as Snug. pose proof (at_separated _ _ _ H) as Sep. rewrite E in Snug, Sep. apply snug_mid in Snug as [Snug _].
  destruct (check_tests b (arena_base (kheap s)) (committed_size (kheap s))) as (T1 & T2 & T3 & T4); try done; try lia.
  apply wp_bind. eapply wp_ld_hdr; [exact V|exact Eb|apply hdr_magic|]. apply wp_bind. eapply wp_ld_hdr; [exact V|exact Eb|apply hdr_span|].
  apply wp_bind. eapply wp_ld_hdr; [exact V|exact Eb|apply hdr_previous|]. apply wp_bind. eapply wp_ld_hdr; [exact V|exact Eb|apply hdr_free|].
  apply wp_bind. assert (Hpfr : wp (if negb (last_addr NULL l =? NULL) then ld 1 (last_addr NULL l + o_free) else mret 0)
    (fun pfr s' => s' = s /\ negb (pfr =? 0) && negb (free_flag b =? 0) = false) s).
  { destruct l as [|c l' _] using rev_ind; [by apply wp_ret|]. rewrite last_addr_prev.
    pose proof (rep_range _ _ _ c R ltac:(set_solver)) as Rc. rewrite (proj2 (Z.eqb_neq (b_addr c) NULL)) by (unfold NULL; lia). cbn [negb].
    apply blocks_chain_app in C1 as [_ [Ec _]]. eapply wp_ld_hdr; [exact V|exact Ec|apply hdr_free|]. split; [done|]. unfold free_flag.
    destruct (b_use b) eqn:Hb; [by rewrite andb_false_r|]. pose proof (separated_next _ _ _ Sep Hb c l' eq_refl). by destruct (b_use c). }
  eapply wp_mono; [exact Hpfr|]. intros pfr s' [-> Hpf]. rewrite T1, T2, T3, Hpf, !Z.eqb_refl. cbn [negb orb].
  assert (Hnext : wp (next ← ld 8 (b_addr b + o_next); check_loop fuel next (u64 (b_addr b + b_span b)) (b_addr b))
    (fun result s' => result = NS_KHEAP_OK /\ s' = s) s).
  { apply wp_bind. eapply wp_ld_hdr; [exact V|exact Eb|apply hdr_next|]. rewrite u64_small by lia.
    replace (b_addr b) with (last_addr NULL (l ++ [b])) at 2 by apply last_addr_prev. apply IH; [by rewrite <- app_assoc|cbn in Hf; lia|by rewrite Hz]. }
  unfold free_flag, hdr_of in *. destruct (b_use b) as [[p n]|] eqn:Hu; apply wp_bind;
    (eapply wp_ld_hdr; [exact V|exact Eb|apply (list_elem_of_lookup_2 _ 3); reflexivity|]); apply wp_bind;
    (eapply wp_ld_hdr; [exact V|exact Eb|apply (list_elem_of_lookup_2 _ 2); reflexivity|]); cbn [Z.eqb andb]; [|exact Hnext].
  cbn [h_user h_requested]. rewrite (T4 p n) by done. exact Hnext.
Qed.

Lemma wp_check_invariants s bs d heap :
  heap_at s bs d -> idle s -> heap <> NULL ->
  wp (ns_kheap_check_invariants heap) (fun result s' => result = NS_KHEAP_OK /\ frame s s' /\ lock (kheap s') = 0 /\ heap_at s' bs d) s.
Proof.
  intros H (El & Ei & _) Hh. unfold ns_kheap_check_invariants. rewrite (proj2 (Z.eqb_neq heap NULL)) by done.
  apply wp_bind, wp_gets. rewrite Ei. cbn [Z.eqb]. apply wp_heap_lock; [done|]. apply heap_at_lock with (x := 1) in H. set (s1 := s <| kheap := _ |>) in *.
  pose proof (at_rep _ _ _ H) as R. pose proof (r_first _ _ _ R) as Hf. pose proof (r_last _ _ _ R) as Hl. pose proof (r_contig _ _ _ R) as Hc.
  assert (Hn : head_addr bs NULL = arena_base (kheap s1) /\ head_addr bs NULL <> NULL /\ last_addr NULL bs <> NULL).
  { destruct bs as [|b r]; [by destruct (at_some _ _ _ H)|]. pose proof (rep_range _ _ _ b R ltac:(set_solver)). split_and!; [apply Hc|cbn; unfold NULL; lia|].
    destruct r as [|c r _] using rev_ind; [cbn; unfold NULL; lia|]. change (b :: r ++ [c]) with ((b :: r) ++ [c]). rewrite last_addr_prev.
    pose proof (rep_range _ _ _ c R ltac:(set_solver)). unfold NULL. lia. }
  destruct Hn as (Hn1 & Hn2 & Hn3). apply wp_bind. unfold check_invariants_unlocked, hget. apply wp_bind, wp_gets, wp_bind, wp_gets, wp_bind, wp_gets.
  rewrite Hf, Hl, <- Hn1, (proj2 (Z.eqb_neq _ _) Hn2), (proj2 (Z.eqb_neq _ _) Hn3), Z.eqb_refl. cbn [orb negb].
  unfold walk_fuel. apply wp_bind, wp_bind, wp_gets, wp_ret.
  eapply wp_mono; [apply (wp_check_loop s1 bs d H bs []); [done|by eapply walk_length|by rewrite Hn1]|].
  intros result s' [-> ->]. apply wp_finished. split; [done|]. split; [done|]. split; [done|]. by apply heap_at_finished.
Qed.
End realloc.
