(* ===== verification/HeapTheorems.v ===== *)
(** * The kernel heap implements a map of disjoint allocations

    The abstract heap: which pointers are live, with their sizes, and the byte
    at every address a live allocation covers.  Every call of the heap takes
    an abstract heap to one its specification allows, whatever the code does
    with headers, tags and free blocks. *)

From S2P Require Import Prelude Errno Bytes Heap HeapMem HeapProps HeapOps HeapCalls HeapRealloc.

(** ** The abstract heap *)

Record aheap := mk_aheap { live : gmap Z Z; bytes : gmap Z Z }.

Definition drop (A : aheap) (p n : Z) : aheap := mk_aheap (delete p (live A)) (bytes_out (bytes A) p n).

(** [A'] has the allocation of [n] bytes at [p] besides those of [A]. *)
Record adds (A : aheap) (p n : Z) (A' : aheap) : Prop := {
  add_pointer : p <> NULL;
  add_apart q k : live A !! q = Some k -> q + k <= p \/ p + n <= q;
  add_live : live A' = <[p := n]> (live A);
  add_inside x : p <= x < p + n -> is_Some (bytes A' !! x);
  add_outside x : ~ (p <= x < p + n) -> bytes A' !! x = bytes A !! x }.

(** The calls of a client, and a store to memory it owns. *)
Inductive call :=
  | Alloc (size alignment : Z)
  | Calloc (count size : Z)
  | Realloc (pointer size : Z)
  | Free (pointer : Z)
  | UsableSize (pointer : Z)
  | CheckInvariants
  | Store (address value : Z).

(** What the client owes: machine words, and pointers that are live. *)
Definition owned (A : aheap) (p : Z) : Prop := p = NULL \/ is_Some (live A !! p).
Definition legal (A : aheap) (c : call) : Prop :=
  match c with
  | Alloc size alignment => is_u64 size /\ is_u64 alignment
  | Calloc count size => is_u64 count /\ is_u64 size
  | Realloc p size => owned A p /\ is_u64 size
  | Free p => owned A p
  | UsableSize p => is_Some (live A !! p)
  | CheckInvariants => True
  | Store x v => is_Some (bytes A !! x) /\ is_u8 v
  end.

(** What a call may return and leave behind. *)
Definition spec (A : aheap) (c : call) (result : Z) (A' : aheap) : Prop :=
  match c with
  | Alloc size alignment =>
      (result = NULL /\ A' = A) \/
      (size <> 0 /\ power_of_two alignment = true /\ (alignment | result) /\ (16 | result) /\ adds A result size A')
  | Calloc count size =>
      (result = NULL /\ A' = A) \/
      (count <> 0 /\ size <> 0 /\ count * size < 2 ^ 64 /\ (16 | result) /\ adds A result (count * size) A' /\
       forall x, result <= x < result + count * size -> bytes A' !! x = Some 0)
  | Realloc p size =>
      (result = NULL /\ A' = A) \/
      (p = NULL /\ size <> 0 /\ (16 | result) /\ adds A result size A') \/
      (exists n, live A !! p = Some n /\ size = 0 /\ result = NULL /\ A' = drop A p n) \/
      (exists n, live A !! p = Some n /\ size <> 0 /\ (16 | result) /\ adds (drop A p n) result size A' /\
       forall i, 0 <= i < Z.min n size -> bytes A' !! (result + i) = bytes A !! (p + i))
  | Free p => result = NS_KHEAP_OK /\ ((p = NULL /\ A' = A) \/ exists n, live A !! p = Some n /\ A' = drop A p n)
  | UsableSize p => live A !! p = Some result /\ A' = A
  | CheckInvariants => result = NS_KHEAP_OK /\ A' = A
  | Store x v => live A' = live A /\ bytes A' = <[x := v]> (bytes A)
  end.

Section theorems.
Context {W : Type}.
Implicit Types (s : kstate W) (bs : list blk) (A : aheap).

Definition run_call (heap : Z) (c : call) : M (kstate W) Z :=
  match c with
  | Alloc size alignment => ns_kheap_alloc_aligned heap size alignment
  | Calloc count size => ns_kheap_calloc heap count size
  | Realloc p size => ns_kheap_realloc heap p size
  | Free p => ns_kheap_free heap p
  | UsableSize p => ns_kheap_usable_size heap p
  | CheckInvariants => ns_kheap_check_invariants heap
  | Store x v => st 1 x v;; mret 0
  end.

(** The heap in memory holds exactly the allocations and bytes of [A]. *)
Definition implements s A : Prop :=
  idle s /\ exists bs, heap_at s bs (bytes A) /\ forall p n, live A !! p = Some n <-> lives bs p n.

Lemma frame_idle s s' : frame s s' -> lock (kheap s') = 0 -> idle s -> idle s'.
Proof. intros F El (_ & Ei & Hp). split; [done|]. split; [destruct F as (_ & _ & _ & -> & _); done|by eapply frame_pages]. Qed.

Lemma implements_same s s' A bs bs' : idle s' -> heap_at s' bs' (bytes A) -> (forall p n, live A !! p = Some n <-> lives bs p n) ->
  (forall p n, lives bs' p n <-> lives bs p n) -> implements s' A.
Proof. intros Hi H Hl Hs. split; [done|]. exists bs'. split; [done|]. intros p n. by rewrite Hl, Hs. Qed.

Lemma adds_implements s A bs s' bs' d' p n :
  heap_at s bs (bytes A) -> (forall q k, live A !! q = Some k <-> lives bs q k) -> p <> NULL -> apart bs p n ->
  idle s' -> heap_at s' bs' d' -> (forall q k, lives bs' q k <-> (q = p /\ k = n) \/ lives bs q k) ->
  (forall x, ~ (p <= x < p + n) -> d' !! x = bytes A !! x) ->
  let A' := mk_aheap (<[p := n]> (live A)) d' in adds A p n A' /\ implements s' A'.
Proof.
  intros H Hl Hp Hap Hi H' Hl' Hout A'. assert (Hlp : lives bs' p n) by (apply Hl'; by left). split.
  - constructor; try done.
    + intros q k Hq. apply Hap. by apply Hl.
    + intros x Hx. apply (at_data _ _ _ H'). by exists p, n.
  - split; [done|]. exists bs'. split; [done|]. intros q k. cbn. rewrite Hl', lookup_insert_Some, Hl. split; [naive_solver|].
    intros [[-> ->]|Hq]; [by left|]. right. split; [|done]. intros <-. pose proof (lives_range _ _ _ _ _ H Hq). specialize (Hap _ _ Hq).
    pose proof (lives_range _ _ _ _ _ H' Hlp). lia.
Qed.

Lemma drop_implements s A bs s' bs' p n :
  heap_at s bs (bytes A) -> (forall q k, live A !! q = Some k <-> lives bs q k) -> idle s' ->
  heap_at s' bs' (bytes_out (bytes A) p n) -> live_minus bs bs' p -> implements s' (drop A p n).
Proof.
  intros H Hl Hi H' Hm. split; [done|]. exists bs'. split; [done|]. intros q k. cbn. rewrite (Hm q k), lookup_delete_Some, Hl. naive_solver.
Qed.

(** ** The calls *)

Lemma alloc_spec s A heap size alignment :
  implements s A -> heap <> NULL -> is_u64 size -> is_u64 alignment ->
  wp (ns_kheap_alloc_aligned heap size alignment) (fun r s' => exists A', spec A (Alloc size alignment) r A' /\ implements s' A') s.
Proof.
  intros (Hi & bs & H & Hl) Hh Hs Ha. destruct ((size =? 0) || negb (power_of_two alignment)) eqn:E.
  - pose proof Hi as (El & Ei & Hp). unfold ns_kheap_alloc_aligned. rewrite (proj2 (Z.eqb_neq heap NULL)) by done. apply wp_bind, wp_gets.
    rewrite <- orb_assoc, E, orb_true_r. apply wp_bind, wp_modify, wp_ret. exists A. split; [by left|].
    eapply (implements_same s); [done|by apply (heap_at_ext s)|exact Hl|done].
  - apply orb_false_iff in E as [Ez Ep]. apply negb_false_iff in Ep. apply Z.eqb_neq in Ez.
    eapply wp_mono; [apply (wp_alloc_aligned s bs (bytes A) heap size alignment); try done; lia|].
    intros p s' [F [El [(-> & bs' & H' & Hl')|(Hp & Hal & Hap & bs' & d' & H' & Hf & Hl')]]].
    + exists A. split; [by left|]. eapply (implements_same s); [by eapply frame_idle|exact H'|exact Hl|done].
    + destruct (adds_implements s A bs s' bs' (bytes A ∪ d') p size) as [Hadd Him]; try done.
      { by eapply frame_idle. }
      { intros x Hx. by eapply union_fresh. }
      eexists. split; [|exact Him]. right. pose proof (power_of_two_spec _ Ha Ep) as (k & Hk & ->). split_and!; try done.
      * etrans; [|exact Hal]. destruct (Z.max_spec (2 ^ k) 16) as [[Hlt ->]|[_ ->]]; [|done].
        exists (2 ^ (4 - k)). change 16 with (2 ^ 4). rewrite <- Z.pow_add_r; [f_equal; lia| |lia].
        enough (k < 4) by lia. apply (Z.pow_lt_mono_r_iff 2); [lia|lia|]. by change (2 ^ 4) with 16.
      * assert (Hlp : lives bs' p size) by (apply Hl'; by left). apply (lives_range _ _ _ _ _ H' Hlp).
Qed.

Lemma free_spec s A heap p n :
  implements s A -> heap <> NULL -> live A !! p = Some n ->
  wp (ns_kheap_free heap p) (fun r s' => r = NS_KHEAP_OK /\ implements s' (drop A p n)) s.
Proof.
  intros (Hi & bs & H & Hl) Hh Hp. eapply wp_mono; [apply (wp_free s bs (bytes A) heap p n); try done; by apply Hl|].
  intros r s' (-> & F & El & bs' & H' & Hm). split; [done|]. eapply drop_implements; [exact H|exact Hl| |exact H'|done]. by eapply frame_idle.
Qed.

Lemma calloc_spec s A heap count size :
  implements s A -> heap <> NULL -> is_u64 count -> is_u64 size ->
  wp (ns_kheap_calloc heap count size) (fun r s' => exists A', spec A (Calloc count size) r A' /\ implements s' A') s.
Proof.
  intros (Hi & bs & H & Hl) Hh Hc Hs. destruct ((count =? 0) || (size =? 0) || (SIZE_MAX / size <? count)) eqn:E.
  - unfold ns_kheap_calloc. rewrite E, (proj2 (Z.eqb_neq heap NULL)) by done. cbn [negb when]. apply wp_bind, wp_modify, wp_ret.
    exists A. split; [by left|]. eapply (implements_same s); [done|by apply (heap_at_ext s)|exact Hl|done].
  - apply orb_false_iff in E as [[E1 E2]%orb_false_iff E3]. apply Z.eqb_neq in E1, E2. apply Z.ltb_ge in E3.
    assert (Hfit : count * size < 2 ^ 64).
    { pose proof (Z.mul_div_le SIZE_MAX size ltac:(lia)). unfold SIZE_MAX, UINT64_MAX in *. nia. }
    eapply wp_mono; [apply (wp_calloc s bs (bytes A) heap count size); try done; lia|].
    intros p s' [F [El [(-> & bs' & H' & Hl')|(Hp & Hal & Hap & bs' & d' & H' & Hz & Hout & Hl')]]].
    + exists A. split; [by left|]. eapply (implements_same s); [by eapply frame_idle|exact H'|exact Hl|done].
    + destruct (adds_implements s A bs s' bs' d' p (count * size)) as [Hadd Him]; try done; [by eapply frame_idle|].
      eexists. split; [|exact Him]. right. by split_and!.
Qed.

Lemma realloc_spec s A heap p size :
  implements s A -> heap <> NULL -> owned A p -> is_u64 size ->
  wp (ns_kheap_realloc heap p size) (fun r s' => exists A', spec A (Realloc p size) r A' /\ implements s' A') s.
Proof.
  intros Him Hh Hp Hs. destruct (decide (p = NULL)) as [->|Hne].
  { change (ns_kheap_realloc heap NULL size) with (ns_kheap_alloc (W := W) heap size). eapply wp_mono; [apply (alloc_spec s A heap size 16); done|]. intros r s' (A' & [[-> ->]|(? & _ & _ & ? & ?)] & H'); [|by exists A'; split; [right; left|]].
    exists A. split; [by left|done]. }
  destruct Hp as [?|[n Hn]]; [done|]. destruct (decide (size = 0)) as [->|Hz].
  { unfold ns_kheap_realloc. rewrite (proj2 (Z.eqb_neq p NULL) Hne), Z.eqb_refl. apply wp_bind. eapply wp_mono; [by apply (free_spec s A heap p n)|]. intros r s' [-> H']. apply wp_ret. exists (drop A p n). split; [|done].
    right; right; left. by exists n. }
  destruct Him as (Hi & bs & H & Hl). 
  eapply wp_mono; [apply (wp_realloc s bs (bytes A) heap p n size); try done; [by apply Hl|lia]|].
  intros q s' [F [El [(-> & bs' & H' & Hl')|(Hq & Hal & Hap & bs' & d' & H' & Hin & Hout & Hl')]]].
  - exists A. split; [by left|]. eapply (implements_same s); [by eapply frame_idle|exact H'|exact Hl|done].
  - exists (mk_aheap (<[q := size]> (delete p (live A))) d'). assert (Hlq : lives bs' q size) by (apply Hl'; by left).
    pose proof (lives_range _ _ _ _ _ H' Hlq) as Hr. split.
    + right; right; right. exists n. split; [done|]. split; [done|]. split; [done|]. split; [|exact Hin]. constructor; cbn.
      * done.
      * intros x k [Hx Hk%Hl]%lookup_delete_Some. by apply Hap.
      * done.
      * intros x Hx. apply (at_data _ _ _ H'). by exists q, size.
      * intros x Hx. destruct (decide (p <= x < p + n)) as [Hpx|Hpx]; [|rewrite Hout by done; apply option_eq; intros v; rewrite bytes_out_Some; tauto].
        apply option_eq. intros v. rewrite bytes_out_Some. split; [|tauto]. intros Hv. exfalso.
        destruct (proj1 (at_data _ _ _ H' x) ltac:(by eexists)) as (y & j & [[-> ->]|[Hy Hyp]]%Hl' & Hr'); [done|].
        destruct (lives_disjoint _ _ _ _ _ _ _ H (proj1 (Hl p n) Hn) Hy); lia.
    + split; [by eapply frame_idle|]. exists bs'. split; [done|]. intros x k. cbn. rewrite Hl', lookup_insert_Some, lookup_delete_Some, Hl.
      split; [naive_solver|]. intros [[-> ->]|[Hx Hxp]]; [by left|]. right. split; [|done]. intros <-.
      pose proof (lives_range _ _ _ _ _ H Hx). specialize (Hap _ _ Hx Hxp). lia.
Qed.

Lemma store_spec s A x v :
  implements s A -> is_Some (bytes A !! x) -> is_u8 v ->
  wp (st 1 x v;; mret 0) (fun r s' => exists A', spec A (Store x v) r A' /\ implements s' A') s.
Proof.
  intros (Hi & bs & H & Hl) Hx Hv. destruct (heap_at_mapped _ _ _ _ H Hx) as (w & Hw & _). apply wp_bind.
  exists tt, (s <| mem := <[x := v]> (mem s) |>). split.
  { unfold st, poke. cbn [le_encode store_bytes]. rewrite Hw. cbn [mbind option_bind]. by rewrite u8_small by lia. }
  apply wp_ret. exists (mk_aheap (live A) (<[x := v]> (bytes A))). split; [done|]. split; [done|]. exists bs. split; [|done]. by apply heap_at_write.
Qed.

(** C14: the heap implements a map of disjoint allocations.  In every state that
    holds an abstract heap, every legal call of the client returns, with a
    result and a new abstract heap its specification allows: an allocation is
    aligned, overlaps no live one and changes no other byte; a cleared one is
    zero; a reallocation keeps the common prefix; a release drops exactly that
    allocation; and the code's own check of its block list passes. *)
Theorem heap_refines s A heap c :
  implements s A -> heap <> NULL -> legal A c ->
  wp (run_call heap c) (fun result s' => exists A', spec A c result A' /\ implements s' A') s.
Proof.
  intros Him Hh Hc. destruct c as [size al|count size|p size|p|p| |x v]; cbn [run_call legal] in *.
  - destruct Hc. by apply alloc_spec.
  - destruct Hc. by apply calloc_spec.
  - destruct Hc. by apply realloc_spec.
  - destruct Hc as [->|[n Hn]].
    + apply wp_ret. exists A. split; [by split; [|left]|done].
    + eapply wp_mono; [by apply (free_spec s A heap p n)|]. intros r s' [-> H']. eexists. split; [|exact H']. split; [done|]. right. by exists n.
  - destruct Hc as [n Hn]. destruct Him as (Hi & bs & H & Hl). eapply wp_mono; [apply (wp_usable s bs (bytes A) heap p n); try done; by apply Hl|].
    intros r s' (-> & F & El & H'). exists A. split; [done|]. eapply (implements_same s); [by eapply frame_idle|exact H'|exact Hl|done].
  - destruct Him as (Hi & bs & H & Hl). eapply wp_mono; [by apply (wp_check_invariants s bs (bytes A) heap)|].
    intros r s' (-> & F & El & H'). exists A. split; [done|]. eapply (implements_same s); [by eapply frame_idle|exact H'|exact Hl|done].
  - destruct Hc. by apply store_spec.
Qed.

(** ** The loop of an allocation *)

Lemma alloc_rounds_more n size al s x : alloc_rounds n size al s = Some x -> alloc_rounds (S n) size al s = Some x.
Proof.
  revert s x. induction n as [|n IH]; intros s x; [done|]. cbn [alloc_rounds]. unfold mbind, M_bind.
  destruct (alloc_round size al s) as [[[p|] s1]|]; [done| |done]. apply IH.
Qed.

(** C18: the loop of an allocation, which grows the heap and searches again
    without a bound of its own, is over after its second turn at the latest. *)
Theorem heap_alloc_terminates s A size k n :
  implements s A -> 0 < size < 2 ^ 64 -> 4 <= k < 64 -> (2 <= n)%nat ->
  exists p s', alloc_rounds n size (2 ^ k) s = Some (p, s') /\ alloc_rounds 2 size (2 ^ k) s = Some (p, s').
Proof.
  intros ((_ & _ & Hp) & bs & H & _) Hs Hk Hn. destruct (wp_alloc_rounds s bs (bytes A) size k H Hp Hs Hk) as (p & s' & E & _).
  exists p, s'. split; [|done]. induction Hn as [|n Hn IH]; [done|]. by apply alloc_rounds_more.
Qed.

(** ** Initialisation *)

Definition no_allocations : aheap := mk_aheap ∅ ∅.

(** The heap object as it is before its first pages. *)
Lemma rep_start s :
  0 < arena_base (kheap s) -> (4096 | arena_base (kheap s)) -> (4096 | arena_size (kheap s)) -> 0 <= arena_size (kheap s) ->
  arena_base (kheap s) + arena_size (kheap s) < 2 ^ 64 -> committed_size (kheap s) = 0 -> 0 < minimum_growth_pages (kheap s) < 2 ^ 64 ->
  is_u64 (cookie (kheap s)) -> first (kheap s) = NULL -> last (kheap s) = NULL -> rep s [] ∅.
Proof.
  intros Hb Hb4 Hs4 Hs He Hc Hg Hk Hf Hl. constructor; try done; [| | |by rewrite Hc; cbn; lia].
  - constructor; rewrite ?Hc; try done; [split; [done|]; etrans; [|exact Hb4]; by exists 256|split; [apply Z.divide_0_r|lia]].
  - intros x. rewrite Hc. lia.
  - exists ∅, ∅. split_and!; try done; try (intros a Ha; by rewrite lookup_empty in Ha; destruct Ha).
    + constructor; try (intros ? ?; rewrite lookup_empty; by intros); try (intros ? ? [? Ha]; by rewrite lookup_empty in Ha). apply map_empty_subseteq.
    + intros a p n Ha. by apply elem_of_nil in Ha.
Qed.

Lemma land_page x : Z.land x (NS_PAGE_SIZE - 1) = 0 <-> (4096 | x).
Proof. change (NS_PAGE_SIZE - 1) with (Z.ones 12). rewrite Z.land_ones by lia. by apply Z.mod_divide. Qed.

(** Arguments [ns_kheap_init] accepts. *)
Definition init_valid (heap base size initial growth : Z) (po : ns_kheap_page_ops W) : Prop :=
  heap <> NULL /\ is_Some (map_pages po) /\ base <> 0 /\ (4096 | base) /\ 4096 <= size /\ (4096 | size) /\
  initial <> 0 /\ initial <= size / 4096 /\ growth <> 0 /\ base <= UINT64_MAX - size.

Lemma init_check heap base size initial growth (po : ns_kheap_page_ops W) :
  ((heap =? NULL) || negb (bool_decide (is_Some (map_pages po))) || (base =? 0) ||
   negb (Z.land base (NS_PAGE_SIZE - 1) =? 0) || (size <? NS_PAGE_SIZE) ||
   negb (Z.land size (NS_PAGE_SIZE - 1) =? 0) || (initial =? 0) || (size / NS_PAGE_SIZE <? initial) ||
   (growth =? 0) || (UINT64_MAX - size <? base)) = false <-> init_valid heap base size initial growth po.
Proof.
  unfold init_valid. rewrite !orb_false_iff, !negb_false_iff, !Z.eqb_neq, !Z.eqb_eq, !land_page, !Z.ltb_ge, bool_decide_eq_true.
  change NS_PAGE_SIZE with 4096. tauto.
Qed.

Lemma wp_init s heap base size initial growth (po : ns_kheap_page_ops W) map :
  init_valid heap base size initial growth po -> is_u64 base -> is_u64 initial -> is_u64 growth ->
  map_pages po = Some map -> (forall c a n w, exists x w', map c a n w = Some (x, w')) ->
  wp (ns_kheap_init heap base size initial growth (Some po)) (fun result s' =>
    (result = NS_KHEAP_OK /\ implements s' no_allocations) \/ (result = NS_KHEAP_ENOMEM /\ initialized (kheap s') = 0)) s.
Proof.
  intros Hv Hub Hui Hug Epo Hmap. unfold ns_kheap_init. rewrite (proj2 (init_check heap base size initial growth po) Hv).
  destruct Hv as (Hh & _ & Hb & Hb4 & Hs & Hs4 & Hi & Hi' & Hg & He). unfold UINT64_MAX in He.
  do 11 (apply wp_bind, wp_modify). match goal with |- wp _ _ ?s' => set (s1 := s') end. change NS_PAGE_SIZE with 4096.
  pose proof (Z.mul_div_le size 4096 ltac:(lia)) as Hdiv. rewrite u64_small by lia.
  assert (R : rep s1 [] ∅).
  { apply rep_start; cbn; try done; try lia. apply (lxor_range _ _ 64); [lia|apply (lxor_range _ _ 64); [lia|done|lia]|].
    unfold u64. apply Z.mod_pos_bound. lia. }
  assert (Hp : pages_ok (kheap s1)) by (by exists map).
  apply wp_bind. eapply wp_mono; [apply (wp_grow s1 [] ∅ (initial * 4096) R Hp); lia|].
  intros rc s2 (F & [(-> & w & ->)|(-> & El & g & bs' & Hg' & Hgr & R2)]); cbn [Z.eqb negb].
  { apply wp_bind, wp_modify, wp_bind, wp_modify, wp_ret. by right. }
  apply wp_ret. left. split; [done|]. destruct F as (_ & _ & Ep & Ei & _).
  split; [split; [by rewrite El|]; split; [by rewrite Ei|]; exists map; by rewrite Ep|]. exists bs'.
  assert (Hn : forall p n, lives bs' p n <-> False) by (intros p n; unfold lives; rewrite (grown_allocs _ _ _ _ Hgr); split; [by intros [? ?%elem_of_nil]|done]).
  split; [|intros p n; rewrite Hn; cbn; by rewrite lookup_empty].
  assert (Eb : bs' = [mk_blk (arena_base (kheap s1) + committed_size (kheap s1)) g None]).
  { inversion Hgr as [l b _ El'|]; [by destruct l|done]. }
  constructor; [exact R2|by rewrite Eb|by rewrite Eb; apply snug_one| |by rewrite Eb].
  intros x. setoid_rewrite Hn. cbn. rewrite lookup_empty. split; [by intros []|naive_solver].
Qed.

(** [ns_kheap_init] rejects exactly the invalid arguments, with nothing
    changed; with valid ones it leaves a heap without allocations, or reports
    that there is no memory and leaves the heap uninitialised. *)
Theorem heap_init_correct s heap base size initial growth (po : ns_kheap_page_ops W) :
  is_u64 base -> is_u64 initial -> is_u64 growth ->
  (forall map, map_pages po = Some map -> forall c a n w, exists x w', map c a n w = Some (x, w')) ->
  wp (ns_kheap_init heap base size initial growth (Some po)) (fun result s' =>
    (~ init_valid heap base size initial growth po /\ result = NS_KHEAP_EINVAL /\ s' = s) \/
    (init_valid heap base size initial growth po /\
     ((result = NS_KHEAP_OK /\ implements s' no_allocations) \/
      (result = NS_KHEAP_ENOMEM /\ initialized (kheap s') = 0)))) s.
Proof.
  intros Hb Hi Hg Hmap. pose proof (init_check heap base size initial growth po) as Hc.
  match type of Hc with ?c = false <-> _ => destruct c eqn:E end.
  - unfold ns_kheap_init. rewrite E. apply wp_ret. left. split; [|done]. by intros ?%Hc.
  - apply proj1 in Hc. specialize (Hc eq_refl). pose proof Hc as (_ & [map Em] & _).
    eapply wp_mono; [by apply (wp_init s heap base size initial growth po map); eauto|]. intros r s' H. by right.
Qed.
End theorems.

(** ** A small heap *)

Module HeapToy.
Definition po : ns_kheap_page_ops unit := mk_page_ops 0 (Some (fun _ _ _ w => Some (0, w))) None.
Definition start : kstate unit := mk_kstate (mk_kheap 0 0 0 0 po 0 0 0 0 0 0) ∅ 0 tt.

Lemma po_total map : map_pages po = Some map -> forall c a n (w : unit), exists x w', map c a n w = Some (x, w').
Proof. intros [= <-] c a n w. by exists 0, w. Qed.
Lemma valid : init_valid 1 65536 8192 1 1 po.
Proof. unfold init_valid, NULL, UINT64_MAX. split_and!; [lia|by eexists|lia|by exists 16|lia|by exists 2|lia|by apply Z.leb_le|lia|lia]. Qed.

Lemma heap_init_correct_witness :
  wp (ns_kheap_init 1 65536 8192 1 1 (Some po)) (fun result s' =>
    (~ init_valid 1 65536 8192 1 1 po /\ result = NS_KHEAP_EINVAL /\ s' = start) \/
    (init_valid 1 65536 8192 1 1 po /\
     ((result = NS_KHEAP_OK /\ implements s' no_allocations) \/
      (result = NS_KHEAP_ENOMEM /\ initialized (kheap s') = 0)))) start.
Proof. apply heap_init_correct; [lia|lia|lia|exact po_total]. Defined.

Lemma started : exists s, ns_kheap_init 1 65536 8192 1 1 (Some po) start = Some (0, s) /\ implements s no_allocations.
Proof.
  destruct (wp_init start 1 65536 8192 1 1 po _ valid ltac:(lia) ltac:(lia) ltac:(lia) eq_refl (po_total _ eq_refl)) as (r & s & E & H).
  exists s. assert (Er : fst <$> ns_kheap_init 1 65536 8192 1 1 (Some po) start = Some 0) by (vm_compute; reflexivity).  rewrite E in Er. injection Er as ->.
  split; [exact E|]. destruct H as [[_ H]|[H _]]; [exact H|discriminate H].
Qed.

Lemma heap_refines_witness : exists s : kstate unit, implements s no_allocations /\
  wp (run_call 1 (Alloc 100 32)) (fun result s' => exists A', spec no_allocations (Alloc 100 32) result A' /\ implements s' A') s.
Proof. destruct started as (s & _ & H). exists s. split; [exact H|]. apply heap_refines; [exact H|discriminate|]. split; lia. Defined.

Lemma heap_alloc_terminates_witness : exists s : kstate unit, implements s no_allocations /\
  exists p s', alloc_rounds 5 5000 (2 ^ 4) s = Some (p, s') /\ alloc_rounds 2 5000 (2 ^ 4) s = Some (p, s').
Proof.
  destruct started as (s & _ & H). exists s. split; [exact H|]. apply (heap_alloc_terminates s no_allocations); [exact H|lia|lia|lia].
Defined.

(** Allocate, resize in place, move, release, check. *)
Definition session : M (kstate unit) (list Z) :=
  _ ← ns_kheap_init 1 65536 8192 1 1 (Some po);
  p ← ns_kheap_alloc 1 100;
  q ← ns_kheap_alloc 1 200;
  r ← ns_kheap_realloc 1 p 40;
  t ← ns_kheap_realloc 1 r 3000;
  u ← ns_kheap_usable_size 1 t;
  e ← ns_kheap_free 1 q;
  f ← ns_kheap_free 1 q;
  c ← ns_kheap_check_invariants 1;
  mret [p; q; r - p; t - q; u; e; f; c].
Example session_result : fst <$> session start = Some [65632; 65840; 0; 304; 3000; 0; NS_KHEAP_ECORRUPT; 0].
Proof. vm_compute. reflexivity. Qed.
End HeapToy.
