(* ===== verification/Frames.v ===== *)
(** * Frames held by a client of the page allocator

    The view of the allocator that its clients reason with: the set [A] of frames
    (by physical address) that the client holds, next to the frames [O] that are
    in use by others.  Allocating adds a frame that nobody uses, freeing gives one
    back, and neither disturbs the others. *)

From S2P Require Import Prelude Errno Pmm.

(** [frames] and [reserved] do not change. *)
Record owns (frames : Z) (reserved : list Z) (O : Z -> Prop) (A : gset Z) (p : ns_pmm) : Prop := {
  o_wf : pmm_wf p;
  o_init : initialized p <> 0;
  o_frames : frame_count p = frames;
  o_reserved : reserved_bitmap p = reserved;
  o_bits : forall f, 0 <= f < frames -> bit (allocated_bitmap p) f = true <-> 4096 * f ∈ A \/ O (4096 * f);
  o_sep : forall t, t ∈ A -> ~ O t;
  o_held : forall t, t ∈ A -> exists f, t = 4096 * f /\ 0 <= f < frames /\ bit reserved f = false }.

Section owns.
Context (frames : Z) (reserved : list Z) (O : Z -> Prop).
Implicit Types (A : gset Z) (p : ns_pmm).
Abbreviation owns := (owns frames reserved O).

Lemma owns_limit A p : owns A p -> managed_limit p = 4096 * frames /\ 0 < frames < 2 ^ 52.
Proof.
  intros [[H _] _ <- _ _ _ _]. rewrite (wf_limit p H). pose proof (wf_frames p H). unfold NS_PAGE_SIZE. lia.
Qed.

Lemma alloc_page_owned A p old : owns A p ->
  (exists p' t, ns_pmm_alloc_page (Some p) (Some old) = Some (NS_PMM_OK, Some p', Some t) /\
     (t ∉ A) /\ ~ O t /\ owns ({[t]} ∪ A) p') \/
  (exists t, ns_pmm_alloc_page (Some p) (Some old) = Some (NS_PMM_ENOSPC, Some p, Some t)).
Proof.
  intros H. destruct (alloc_pages_cases p 1 1 0 old) as [(p' & c & E & Hr)|(E & _)].
  - apply H.
  - pose proof (o_init _ _ _ _ _ H). unfold alloc_request_ok. split_and!; done.
  - left. exists p', (c * NS_PAGE_SIZE). unfold ns_pmm_alloc_page. split; [done|].
    change (alloc_limit p 0) with (frame_count p) in Hr.
    destruct Hr as [Hwf [Hc Hle] _ Hfree Hbits Hres Hfr Hinit _]. replace (c * NS_PAGE_SIZE) with (4096 * c) by (unfold NS_PAGE_SIZE; lia).
    assert (Hf : bit (allocated_bitmap p) c = false) by (apply Hfree; lia).
    rewrite (o_frames _ _ _ _ _ H) in *.
    assert (Hn : ~ (4096 * c ∈ A \/ O (4096 * c))).
    { rewrite <- (o_bits _ _ _ _ _ H) by lia. by rewrite Hf. }
    split_and!; [naive_solver..|]. constructor.
    + done.
    + rewrite Hinit. apply H.
    + done.
    + rewrite Hres. apply H.
    + intros f Hfb. rewrite Hbits by lia. rewrite orb_true_iff, in_run_spec, (o_bits _ _ _ _ _ H) by lia.
      rewrite elem_of_union, elem_of_singleton. split; [intros [?|?]|intros [[?|?]|?]]; [left; left; lia|tauto|left; lia|tauto..].
    + intros t [->%elem_of_singleton|Ht]%elem_of_union; [naive_solver|]. by apply (o_sep _ _ _ _ _ H).
    + intros t [->%elem_of_singleton|Ht]%elem_of_union; [|by apply (o_held _ _ _ _ _ H)]. exists c. split_and!; [done|lia..|].
      destruct (bit reserved c) eqn:Eb; [|done]. exfalso. pose proof (o_wf _ _ _ _ _ H) as [Hw _].
      rewrite <- (o_reserved _ _ _ _ _ H) in Eb. apply (wf_sub p Hw) in Eb; [congruence|].
      rewrite (o_frames _ _ _ _ _ H). lia.
  - right. unfold ns_pmm_alloc_page. eauto.
Qed.

Lemma free_page_owned A p t : owns A p -> t ∈ A ->
  exists p', ns_pmm_free_page (Some p) t = Some (NS_PMM_OK, Some p') /\ owns (A ∖ {[t]}) p'.
Proof.
  intros H Ht. destruct (o_held _ _ _ _ _ H t Ht) as (f & -> & Hf & Hres). pose proof (owns_limit A p H) as [_ Hlim].
  assert (Hal : bit (allocated_bitmap p) f = true) by (apply (o_bits _ _ _ _ _ H); [lia|by left]).
  assert (Hc : 4096 * f / NS_PAGE_SIZE = f) by (unfold NS_PAGE_SIZE; rewrite Z.mul_comm; apply Z.div_mul; lia).
  destruct (free_pages_cases p (4096 * f) 1) as [(Hb & _)|[(_ & _ & p' & E & Hr)|(_ & st & Hst & Hv & _)]].
  - apply H.
  - split_and!; [apply H|lia..|]. unfold NS_PAGE_SIZE. rewrite Z.mul_comm. apply Z.mod_mul. lia.
  - rewrite Hc, (o_frames _ _ _ _ _ H) in Hb. lia.
  - exists p'. split; [done|]. rewrite Hc in Hr. destruct Hr as [Hwf Hbits Hrs Hfr Hinit _]. constructor.
    + done.
    + rewrite Hinit. apply H.
    + rewrite Hfr. apply H.
    + rewrite Hrs. apply H.
    + intros g Hg. rewrite Hbits by lia. rewrite andb_true_iff, negb_true_iff, in_run_false, (o_bits _ _ _ _ _ H) by lia.
      rewrite elem_of_difference, elem_of_singleton. split.
      * intros [Hne [?|?]]; [left; split; [done|lia]|by right].
      * intros [[? ?]|Ho]; [split; [lia|by left]|]. split; [|by right]. intros Hgf. assert (g = f) as -> by lia.
        by apply (o_sep _ _ _ _ _ H (4096 * f)).
    + intros t [Ht' _]%elem_of_difference. by apply (o_sep _ _ _ _ _ H).
    + intros t [Ht' _]%elem_of_difference. by apply (o_held _ _ _ _ _ H).
  - exfalso. rewrite Hc in Hv. destruct Hv as [[-> _]|(g & Hg & _ & [[_ Hg']|[_ [_ Hg']]])]; [done|..];
      assert (g = f) as -> by lia; [rewrite (o_reserved _ _ _ _ _ H) in Hg'|]; congruence.
Qed.

(** Asking whether a managed frame is reserved changes nothing. *)
Lemma reserved_owned A p f : owns A p -> 0 <= f < frames ->
  ns_pmm_is_permanently_reserved (Some p) (4096 * f) = Some (bit reserved f, Some p).
Proof.
  intros H Hf. unfold ns_pmm_is_permanently_reserved. destruct (o_wf _ _ _ _ _ H) as [Hw Hl].
  rewrite (proj2 (Z.eqb_neq _ _) (o_init _ _ _ _ _ H)), page_mask, page_shift. cbn [orb].
  unfold NS_PAGE_SIZE. rewrite (Z.mul_comm 4096), Z.mod_mul, Z.div_mul by lia. cbn [Z.eqb negb orb].
  rewrite (proj1 (owns_limit A p H)). destruct (Z.leb_spec (4096 * frames) (f * 4096)); [lia|].
  destruct (pmm_lock_free p Hl) as [-> Hun]. cbn [mbind option_bind].
  change (reserved_bitmap (p <| lock := 1 |>)) with (reserved_bitmap p).
  assert (Hcov := wf_reserved p Hw). rewrite (o_frames _ _ _ _ _ H) in Hcov. rewrite (bitmap_get_bit _ frames f Hcov Hf).
  cbn [mbind option_bind]. by rewrite Hun, (o_reserved _ _ _ _ _ H).
Qed.

(** A frame changes hands. *)
Lemma owns_give A p t : t ∈ A -> owns A p -> Frames.owns frames reserved (fun u => O u \/ u = t) (A ∖ {[t]}) p.
Proof.
  intros Ht H. constructor; try apply H.
  - intros f Hf. rewrite (o_bits _ _ _ _ _ H) by done. rewrite elem_of_difference, elem_of_singleton.
    destruct (decide (4096 * f = t)) as [->|]; tauto.
  - intros u [Hu Hne]%elem_of_difference [Ho| ->]; [by eapply o_sep|]. by apply Hne, elem_of_singleton.
  - intros u [Hu _]%elem_of_difference. by apply (o_held _ _ _ _ _ H).
Qed.
End owns.

Lemma owns_ext frames reserved (O O' : Z -> Prop) A A' p :
  (forall t, O t <-> O' t) -> A = A' -> owns frames reserved O A p -> owns frames reserved O' A' p.
Proof.
  intros HO <- H. constructor; try apply H.
  - intros f Hf. rewrite (o_bits _ _ _ _ _ H) by done. by rewrite HO.
  - intros t Ht Ho. apply HO in Ho. by eapply o_sep.
Qed.

Lemma owns_take frames reserved (O O' : Z -> Prop) A p t f :
  (forall u, O u <-> O' u \/ u = t) -> ~ O' t -> t = 4096 * f -> 0 <= f < frames -> bit reserved f = false ->
  owns frames reserved O A p -> owns frames reserved O' ({[t]} ∪ A) p.
Proof.
  intros HO Hn Et Hf Hres H. constructor; try apply H.
  - intros g Hg. rewrite (o_bits _ _ _ _ _ H), HO, elem_of_union, elem_of_singleton by done. tauto.
  - intros u [->%elem_of_singleton|Hu]%elem_of_union; [done|]. intros Ho. apply (o_sep _ _ _ _ _ H u Hu). apply HO. by left.
  - intros u [->%elem_of_singleton|Hu]%elem_of_union; [by exists f|]. by apply (o_held _ _ _ _ _ H).
Qed.
