(* ===== verification/Vmm.v ===== *)
(** * Virtual memory (kernel/mm/vmm.c)

    Four-level page tables in physical frames of the page allocator.  The code
    reaches a table through the direct map (or a callback), and reads and writes
    its entries in byte memory; here memory is keyed by kernel virtual address.
    The callbacks (translation, TLB invalidation, CR3) act on a world [W]. *)

From S2P Require Import Prelude Errno Bytes Pmm.

(** ** Constants and data *)

Definition X86_PTE_PRESENT : Z := Z.shiftl 1 0.
Definition X86_PTE_WRITE : Z := Z.shiftl 1 1.
Definition X86_PTE_USER : Z := Z.shiftl 1 2.
Definition X86_PTE_PWT : Z := Z.shiftl 1 3.
Definition X86_PTE_PCD : Z := Z.shiftl 1 4.
Definition X86_PTE_HUGE : Z := Z.shiftl 1 7.
Definition X86_PTE_GLOBAL : Z := Z.shiftl 1 8.
Definition X86_PTE_OWNED : Z := Z.shiftl 1 9.
Definition X86_PTE_NX : Z := Z.shiftl 1 63.
Definition X86_PTE_ADDR : Z := 0x000ffffffffff000.
Abbreviation X86_PTE_1G_ADDR := 0x000fffffc0000000 (only parsing).
Abbreviation X86_PTE_2M_ADDR := 0x000fffffffe00000 (only parsing).

Definition NS_VMM_USER_TOP : Z := 0x0000800000000000.
Definition NS_VMM_KERNEL_HALF_BASE : Z := 0xffff800000000000.
Abbreviation NS_VMM_KERNEL_IMAGE_BASE := 0xffffffff80000000 (only parsing).

Definition NS_VMM_PAGE_WRITE : Z := Z.shiftl 1 0.
Definition NS_VMM_PAGE_USER : Z := Z.shiftl 1 1.
Definition NS_VMM_PAGE_EXEC : Z := Z.shiftl 1 2.
Definition NS_VMM_PAGE_GLOBAL : Z := Z.shiftl 1 3.
Definition NS_VMM_PAGE_NOCACHE : Z := Z.shiftl 1 4.
Definition NS_VMM_PAGE_OWNED : Z := Z.shiftl 1 5.

Definition NS_VMM_OK : Z := 0.
Definition NS_VMM_EINVAL : Z := -1.
Abbreviation NS_VMM_ENOMEM := (-2) (only parsing).
Abbreviation NS_VMM_EEXIST := (-3) (only parsing).
Definition NS_VMM_ENOENT : Z := -4.
Abbreviation NS_VMM_EPERM := (-5) (only parsing).
Abbreviation NS_VMM_ECORRUPT := (-6) (only parsing).
Abbreviation NS_VMM_ENOTSUP := (-7) (only parsing).

(** [pmm_pointer] is the pointer to the page allocator, an object of the state. *)
Record ns_vmm_config (W : Type) := mk_vmm_config {
  pmm_pointer : Z; direct_map_base : Z; direct_map_size : Z; kernel_root_phys : Z;
  phys_to_virt_fn : option (Z -> Z -> Z -> M W Z);
  invalidate_page : option (Z -> Z -> M W unit);
  activate_root : option (Z -> Z -> M W Z);
  callback_context : Z }.
Arguments mk_vmm_config {W}. Arguments pmm_pointer {W}. Arguments direct_map_base {W}.
Arguments direct_map_size {W}. Arguments kernel_root_phys {W}. Arguments phys_to_virt_fn {W}.
Arguments invalidate_page {W}. Arguments activate_root {W}. Arguments callback_context {W}.

Record ns_vmm (W : Type) := mk_vmm {
  config : ns_vmm_config W; lock : Z; active_root_phys : Z; initialized : Z }.
Arguments mk_vmm {W}. Arguments config {W}. Arguments lock {W}. Arguments active_root_phys {W}.
Arguments initialized {W}.
Definition eta_vmm {W} (v : ns_vmm W) : ns_vmm W :=
  mk_vmm (config v) (lock v) (active_root_phys v) (initialized v).
#[export] Instance set_config {W} : Setter (@config W).
Proof. mk_setter1 (@eta_vmm) (@config W). Defined.
#[export] Instance set_vlock {W} : Setter (@lock W).
Proof. mk_setter1 (@eta_vmm) (@lock W). Defined.
#[export] Instance set_active_root_phys {W} : Setter (@active_root_phys W).
Proof. mk_setter1 (@eta_vmm) (@active_root_phys W). Defined.
#[export] Instance set_vinitialized {W} : Setter (@initialized W).
Proof. mk_setter1 (@eta_vmm) (@initialized W). Defined.

Record ns_vmm_space := mk_space { root_phys : Z; owns_root : Z }.

(** The manager, the page allocator it uses, memory, the world. *)
Record vstate (W : Type) := mk_vstate { object : ns_vmm W; pmm : ns_pmm; mem : gmap Z Z; world : W }.
Arguments mk_vstate {W}. Arguments object {W}. Arguments pmm {W}. Arguments mem {W}. Arguments world {W}.
Definition eta_vstate {W} (s : vstate W) : vstate W := mk_vstate (object s) (pmm s) (mem s) (world s).
#[export] Instance set_object {W} : Setter (@object W).
Proof. mk_setter1 (@eta_vstate) (@object W). Defined.
#[export] Instance set_pmm {W} : Setter (@pmm W).
Proof. mk_setter1 (@eta_vstate) (@pmm W). Defined.
#[export] Instance set_vmem {W} : Setter (@mem W).
Proof. mk_setter1 (@eta_vstate) (@mem W). Defined.
#[export] Instance set_vworld {W} : Setter (@world W).
Proof. mk_setter1 (@eta_vstate) (@world W). Defined.

(** ** Addresses and entries *)

Definition add_overflow_uintptr (a b : Z) : bool * Z := (u64 (a + b) <? a, u64 (a + b)).

Definition canonical_address (address : Z) : bool :=
  (address <? NS_VMM_USER_TOP) || (NS_VMM_KERNEL_HALF_BASE <=? address).

Definition table_index (address level : Z) : Z :=
  Z.land (Z.shiftr address (12 + (level - 1) * 9)) 0x1ff.

Definition entry_from_flags (phys flags : Z) : Z :=
  let entry := Z.lor (Z.land phys X86_PTE_ADDR) X86_PTE_PRESENT in
  let entry := if negb (Z.land flags NS_VMM_PAGE_WRITE =? 0) then Z.lor entry X86_PTE_WRITE else entry in
  let entry := if negb (Z.land flags NS_VMM_PAGE_USER =? 0) then Z.lor entry X86_PTE_USER else entry in
  let entry := if negb (Z.land flags NS_VMM_PAGE_GLOBAL =? 0) then Z.lor entry X86_PTE_GLOBAL else entry in
  let entry := if negb (Z.land flags NS_VMM_PAGE_NOCACHE =? 0)
               then Z.lor entry (Z.lor X86_PTE_PCD X86_PTE_PWT) else entry in
  let entry := if negb (Z.land flags NS_VMM_PAGE_OWNED =? 0) then Z.lor entry X86_PTE_OWNED else entry in
  if Z.land flags NS_VMM_PAGE_EXEC =? 0 then Z.lor entry X86_PTE_NX else entry.

Definition flags_from_entry (entry : Z) : Z :=
  let flags := 0 in
  let flags := if negb (Z.land entry X86_PTE_WRITE =? 0) then Z.lor flags NS_VMM_PAGE_WRITE else flags in
  let flags := if negb (Z.land entry X86_PTE_USER =? 0) then Z.lor flags NS_VMM_PAGE_USER else flags in
  let flags := if Z.land entry X86_PTE_NX =? 0 then Z.lor flags NS_VMM_PAGE_EXEC else flags in
  let flags := if negb (Z.land entry X86_PTE_GLOBAL =? 0) then Z.lor flags NS_VMM_PAGE_GLOBAL else flags in
  let flags := if negb (Z.land entry (Z.lor X86_PTE_PCD X86_PTE_PWT) =? 0)
               then Z.lor flags NS_VMM_PAGE_NOCACHE else flags in
  if negb (Z.land entry X86_PTE_OWNED =? 0) then Z.lor flags NS_VMM_PAGE_OWNED else flags.

Definition validate_page_range (virt length : Z) : Z * Z :=
  if (length =? 0) || negb (Z.land virt (NS_PAGE_SIZE - 1) =? 0) || negb (canonical_address virt)
  then (NS_VMM_EINVAL, 0)
  else if SIZE_MAX - (NS_PAGE_SIZE - 1) <? length then (NS_VMM_EINVAL, 0)
  else
    let rounded := Z.land (u64 (length + NS_PAGE_SIZE - 1)) (not64 (NS_PAGE_SIZE - 1)) in
    let '(over, out_end) := add_overflow_uintptr virt rounded in
    if over || (out_end <=? virt) || negb (canonical_address (u64 (out_end - 1)))
    then (NS_VMM_EINVAL, out_end)
    else (NS_VMM_OK, out_end).

Section vmm.
Context {W : Type}.
Abbreviation V := (M (vstate W)).
Implicit Types (vmm virt phys flags level table : Z) (space : option ns_vmm_space).

Definition ld (n : nat) (a : Z) : V Z := fun s => v ← peek n (mem s) a; Some (v, s).
Definition st (n : nat) (a v : Z) : V unit :=
  fun s => m ← poke n (mem s) a v; Some (tt, s <| mem := m |>).

Definition vget {A} (f : ns_vmm W -> A) : V A := gets (fun s => f (object s)).
Definition vset {A} (f : ns_vmm W -> A) `{!Setter f} (v : A) : V unit :=
  modify (fun s => s <| object := (object s) <| f := v |> |>).
Definition cget {A} (f : ns_vmm_config W -> A) : V A := vget (fun v => f (config v)).

(** Calls of the page allocator.  [pmm_alloc] is a call with the address of a
    local variable that is not initialised. *)
Definition pmm_call {A} (f : option ns_pmm -> option (A * option ns_pmm)) : V A :=
  fun s => match f (Some (pmm s)) with
           | Some (x, Some p) => Some (x, s <| pmm := p |>)
           | _ => None
           end.
Definition pmm_alloc : V (Z * Z) :=
  fun s => match ns_pmm_alloc_page (Some (pmm s)) (Some 0) with
           | Some (status, Some p, Some phys) => Some ((status, phys), s <| pmm := p |>)
           | _ => None
           end.
Definition pmm_free phys : V Z := pmm_call (fun p => ns_pmm_free_page p phys).
Definition pmm_reserved phys : V bool := pmm_call (fun p => ns_pmm_is_permanently_reserved p phys).

(** ** Helpers *)

Definition vmm_lock : V unit := l ← vget lock; if l =? 0 then vset lock 1 else stuck.
Definition vmm_unlock : V unit := vset lock 0.

Definition bytes_zero (destination length : Z) : V unit :=
  fun s => m ← store_bytes (mem s) destination (replicate (Z.to_nat length) 0); Some (tt, s <| mem := m |>).
Definition bytes_copy (destination source length : Z) : V unit :=
  fun s => m ← copy_bytes (Z.to_nat length) (mem s) destination source; Some (tt, s <| mem := m |>).

Definition phys_to_virt phys (length : Z) : V Z :=
  callback ← cget phys_to_virt_fn;
  match callback with
  | Some f => context ← cget callback_context; zoom world (f context phys length)
  | None =>
    base ← cget direct_map_base;
    size ← cget direct_map_size;
    mret (if (size <? phys) || (size - phys <? length) || (UINT64_MAX - phys <? base) then 0
          else u64 (base + phys))
  end.

Definition table_pointer phys : V Z :=
  if negb (Z.land phys (NS_PAGE_SIZE - 1) =? 0) then mret 0 else phys_to_virt phys NS_PAGE_SIZE.

(** [&table[index]] *)
Definition entry_at (table index : Z) : Z := table + 8 * index.

Definition allocate_table : V (Z * (Z * Z)) :=
  '(status, phys) ← pmm_alloc;
  if negb (status =? NS_PMM_OK) then mret (NS_VMM_ENOMEM, (0, 0))
  else
    table ← table_pointer phys;
    if table =? 0 then pmm_free phys;; mret (NS_VMM_ECORRUPT, (0, 0))
    else bytes_zero table NS_PAGE_SIZE;; mret (NS_VMM_OK, (phys, table)).

(** The TLB entry of [virt] goes when the space is the active one. *)
Definition invalidate (space : ns_vmm_space) virt : V unit :=
  callback ← cget invalidate_page;
  match callback with
  | None => mret tt
  | Some f =>
    active ← vget active_root_phys;
    if active =? root_phys space
    then context ← cget callback_context; zoom world (f context virt)
    else mret tt
  end.

(** ** Spaces *)

Definition ns_vmm_init vmm (config0 : option (ns_vmm_config W)) (out_kernel_space : option ns_vmm_space)
  : V (Z * option ns_vmm_space) :=
  match config0, out_kernel_space with
  | Some c, Some out =>
    if (vmm =? 0) || (pmm_pointer c =? 0) then mret (NS_VMM_EINVAL, Some out)
    else
      pinit ← gets (fun s => Pmm.initialized (pmm s));
      if (pinit =? 0) || (kernel_root_phys c =? 0)
         || negb (Z.land (kernel_root_phys c) (NS_PAGE_SIZE - 1) =? 0)
         || (direct_map_base c <? NS_VMM_KERNEL_HALF_BASE) || (direct_map_size c =? 0)
         || negb (Z.land (direct_map_base c) (NS_PAGE_SIZE - 1) =? 0)
      then mret (NS_VMM_EINVAL, Some out)
      else
        vset config c;;
        vset lock 0;;
        vset active_root_phys (kernel_root_phys c);;
        vset initialized 0;;
        root ← table_pointer (kernel_root_phys c);
        if root =? 0 then mret (NS_VMM_ECORRUPT, Some out)
        else
          vset initialized 1;;
          mret (NS_VMM_OK, Some (mk_space (kernel_root_phys c) 0))
  | _, _ => mret (NS_VMM_EINVAL, out_kernel_space)
  end.

Definition ns_vmm_create_space vmm (out : option ns_vmm_space) : V (Z * option ns_vmm_space) :=
  match out with
  | None => mret (NS_VMM_EINVAL, None)
  | Some old =>
    if vmm =? 0 then mret (NS_VMM_EINVAL, Some old)
    else
      init ← vget initialized;
      if init =? 0 then mret (NS_VMM_EINVAL, Some old)
      else
        vmm_lock;;
        '(result, (root_phys0, root)) ← allocate_table;
        if negb (result =? NS_VMM_OK) then vmm_unlock;; mret (result, Some old)
        else
          kernel_phys ← cget kernel_root_phys;
          kernel_root ← table_pointer kernel_phys;
          if kernel_root =? 0
          then pmm_free root_phys0;; vmm_unlock;; mret (NS_VMM_ECORRUPT, Some old)
          else
            for_m 256 (fun index _ => e ← ld 8 (entry_at kernel_root index); st 8 (entry_at root index) e) 256 tt;;
            vmm_unlock;;
            mret (NS_VMM_OK, Some (mk_space root_phys0 1))
  end.

Fixpoint empty_loop (n : nat) (table index : Z) : V bool :=
  match n with
  | O => mret true
  | S n' =>
    e ← ld 8 (entry_at table index);
    if negb (Z.land e X86_PTE_PRESENT =? 0) then mret false else empty_loop n' table (index + 1)
  end.
Definition table_empty table : V bool := empty_loop 512 table 0.

Fixpoint destroy_table_level (level : nat) (table_phys entry_limit : Z) : V unit :=
  match level with
  | O => stuck
  | S below =>
    table ← table_pointer table_phys;
    if table =? 0 then mret tt
    else
      for_m (Z.to_nat entry_limit) (fun index _ =>
        entry ← ld 8 (entry_at table index);
        if Z.land entry X86_PTE_PRESENT =? 0 then mret tt
        else
          let child_phys := Z.land entry X86_PTE_ADDR in
          (if (level =? 1)%nat || negb (Z.land entry X86_PTE_HUGE =? 0)
           then when (negb (Z.land entry X86_PTE_OWNED =? 0)) (pmm_free child_phys;; mret tt)
           else destroy_table_level below child_phys 512;; pmm_free child_phys;; mret tt);;
          st 8 (entry_at table index) 0) 0 tt
  end.

Definition ns_vmm_destroy_space vmm space : V (option ns_vmm_space) :=
  match space with
  | None => mret None
  | Some sp =>
    if vmm =? 0 then mret space
    else
      init ← vget initialized;
      if (init =? 0) || (root_phys sp =? 0) || (owns_root sp =? 0) then mret space
      else
        vmm_lock;;
        destroy_table_level 4 (root_phys sp) 256;;
        pmm_free (root_phys sp);;
        active ← vget active_root_phys;
        (if active =? root_phys sp
         then
           kernel ← cget kernel_root_phys;
           vset active_root_phys kernel;;
           callback ← cget activate_root;
           match callback with
           | Some f => context ← cget callback_context; zoom world (f context kernel);; mret tt
           | None => mret tt
           end
         else mret tt);;
        vmm_unlock;;
        mret (Some (mk_space 0 0))
  end.

Definition ns_vmm_activate vmm space : V Z :=
  match space with
  | None => mret NS_VMM_EINVAL
  | Some sp =>
    if vmm =? 0 then mret NS_VMM_EINVAL
    else
      init ← vget initialized;
      callback ← cget activate_root;
      match callback with
      | None => mret NS_VMM_EINVAL
      | Some f =>
        if (init =? 0) || (root_phys sp =? 0) then mret NS_VMM_EINVAL
        else
          context ← cget callback_context;
          result ← zoom world (f context (root_phys sp));
          if result =? 0 then vset active_root_phys (root_phys sp);; mret NS_VMM_OK
          else mret NS_VMM_ECORRUPT
      end
  end.

(** ** Mapping *)

(** Undoing the tables a failed walk created, the last one first; an element is
    the address of the parent's entry and the frame of the table. *)
Fixpoint undo_created (created : list (Z * Z)) : V unit :=
  match created with
  | [] => mret tt
  | (parent_entry, child_phys) :: rest =>
    st 8 parent_entry 0;; pmm_free child_phys;; undo_created rest
  end.

(** The loop of [walk_create_leaf] from level [n + 1] on; the result and the
    address of the leaf entry. *)
Fixpoint create_loop (n : nat) virt flags table (created : list (Z * Z)) : V (Z * Z) :=
  match n with
  | O => mret (NS_VMM_OK, entry_at table (table_index virt 1))
  | S n' =>
    let entry := entry_at table (table_index virt (Z.of_nat n + 1)) in
    e ← ld 8 entry;
    if Z.land e X86_PTE_PRESENT =? 0
    then
      '(result, (child_phys, child)) ← allocate_table;
      if negb (result =? NS_VMM_OK) then undo_created created;; mret (result, 0)
      else
        st 8 entry (Z.lor (Z.lor child_phys X86_PTE_PRESENT) X86_PTE_WRITE);;
        when (negb (Z.land flags NS_VMM_PAGE_USER =? 0))
          (e ← ld 8 entry; st 8 entry (Z.lor e X86_PTE_USER));;
        create_loop n' virt flags child ((entry, child_phys) :: created)
    else if negb (Z.land e X86_PTE_HUGE =? 0) then mret (NS_VMM_EEXIST, 0)
    else
      when (negb (Z.land flags NS_VMM_PAGE_USER =? 0)) (st 8 entry (Z.lor e X86_PTE_USER));;
      e ← ld 8 entry;
      child ← table_pointer (Z.land e X86_PTE_ADDR);
      if child =? 0 then mret (NS_VMM_ECORRUPT, 0)
      else create_loop n' virt flags child created
  end.

Definition walk_create_leaf (space : ns_vmm_space) virt flags : V (Z * Z) :=
  table ← table_pointer (root_phys space);
  if table =? 0 then mret (NS_VMM_ECORRUPT, 0) else create_loop 3 virt flags table [].

Definition map_unlocked (space : ns_vmm_space) virt phys flags : V Z :=
  limit ← gets (fun s => managed_limit (pmm s));
  if negb (canonical_address virt) || negb (Z.land virt (NS_PAGE_SIZE - 1) =? 0)
     || negb (Z.land phys (NS_PAGE_SIZE - 1) =? 0) || (limit <=? phys)
  then mret NS_VMM_EINVAL
  else if negb (owns_root space =? 0) && (NS_VMM_KERNEL_HALF_BASE <=? virt) then mret NS_VMM_EPERM
  else
    refused ← (if negb (Z.land flags NS_VMM_PAGE_USER =? 0)
               then if NS_VMM_USER_TOP <=? virt then mret true else pmm_reserved phys
               else mret false);
    if refused : bool then mret NS_VMM_EPERM
    else
      '(result, leaf) ← walk_create_leaf space virt flags;
      if negb (result =? NS_VMM_OK) then mret result
      else
        e ← ld 8 leaf;
        if negb (Z.land e X86_PTE_PRESENT =? 0) then mret NS_VMM_EEXIST
        else
          st 8 leaf (entry_from_flags phys flags);;
          invalidate space virt;;
          mret NS_VMM_OK.

Definition ns_vmm_map vmm space virt phys flags : V Z :=
  match space with
  | None => mret NS_VMM_EINVAL
  | Some sp =>
    if vmm =? 0 then mret NS_VMM_EINVAL
    else
      init ← vget initialized;
      if (init =? 0) || (root_phys sp =? 0) then mret NS_VMM_EINVAL
      else
        vmm_lock;;
        result ← map_unlocked sp virt phys flags;
        vmm_unlock;;
        mret result
  end.

(** ** Unmapping *)

(** The loop of [walk_leaf] from level [n + 1] on, with the arrays [tables] and
    [indices] of the caller. *)
Fixpoint leaf_loop (n : nat) virt table (tables indices : list Z) : V (Z * (list Z * list Z * Z)) :=
  match n with
  | O =>
    let indices := <[1%nat := table_index virt 1]> indices in
    let leaf := entry_at table (table_index virt 1) in
    e ← ld 8 leaf;
    mret (if Z.land e X86_PTE_PRESENT =? 0 then NS_VMM_ENOENT else NS_VMM_OK, (tables, indices, leaf))
  | S n' =>
    let level := S n in
    let index := table_index virt (Z.of_nat level) in
    let indices := <[level := index]> indices in
    entry ← ld 8 (entry_at table index);
    if Z.land entry X86_PTE_PRESENT =? 0 then mret (NS_VMM_ENOENT, (tables, indices, 0))
    else if negb (Z.land entry X86_PTE_HUGE =? 0) then mret (NS_VMM_ENOTSUP, (tables, indices, 0))
    else
      child ← table_pointer (Z.land entry X86_PTE_ADDR);
      if child =? 0 then mret (NS_VMM_ECORRUPT, (tables, indices, 0))
      else leaf_loop n' virt child (<[n := child]> tables) indices
  end.

Definition walk_leaf (space : ns_vmm_space) virt : V (Z * (list Z * list Z * Z)) :=
  table ← table_pointer (root_phys space);
  if table =? 0 then mret (NS_VMM_ECORRUPT, (replicate 5 0, replicate 5 0, 0))
  else leaf_loop 3 virt table (<[4%nat := table]> (replicate 5 0)) (replicate 5 0).

(** The loop that gives back empty tables, from [level] on. *)
Fixpoint reclaim_loop (n : nat) (level : nat) (tables indices : list Z) : V unit :=
  match n, tables !! level, tables !! S level, indices !! S level with
  | O, _, _, _ => mret tt
  | S n', Some table, Some parent, Some index =>
    empty ← table_empty table;
    if negb empty then mret tt
    else
      parent_entry ← ld 8 (entry_at parent index);
      st 8 (entry_at parent index) 0;;
      pmm_free (Z.land parent_entry X86_PTE_ADDR);;
      reclaim_loop n' (S level) tables indices
  | _, _, _, _ => stuck
  end.

Definition unmap_unlocked (space : ns_vmm_space) virt (release_owned : bool) : V Z :=
  if negb (owns_root space =? 0) && (NS_VMM_KERNEL_HALF_BASE <=? virt) then mret NS_VMM_EPERM
  else
    '(result, (tables, indices, leaf)) ← walk_leaf space virt;
    if negb (result =? NS_VMM_OK) then mret result
    else
      old ← ld 8 leaf;
      st 8 leaf 0;;
      invalidate space virt;;
      when (release_owned && negb (Z.land old X86_PTE_OWNED =? 0))
        (pmm_free (Z.land old X86_PTE_ADDR);; mret tt);;
      reclaim_loop 3 1 tables indices;;
      mret NS_VMM_OK.

Definition ns_vmm_unmap vmm space virt (release_owned : bool) : V Z :=
  match space with
  | None => mret NS_VMM_EINVAL
  | Some sp =>
    if vmm =? 0 then mret NS_VMM_EINVAL
    else
      init ← vget initialized;
      if (init =? 0) || negb (Z.land virt (NS_PAGE_SIZE - 1) =? 0) || negb (canonical_address virt)
      then mret NS_VMM_EINVAL
      else
        vmm_lock;;
        result ← unmap_unlocked sp virt release_owned;
        vmm_unlock;;
        mret result
  end.

(** ** Ranges *)

(** Enough rounds for the pages of [virt, end_). *)
Definition page_fuel (virt end_ : Z) : nat := S (Z.to_nat ((end_ - virt) / NS_PAGE_SIZE)).

Fixpoint unmap_loop (fuel : nat) vmm space (address end_ : Z) (release_owned : bool) (first_error : Z) : V Z :=
  if address <? end_ then
    match fuel with
    | O => stuck
    | S fuel' =>
      result ← ns_vmm_unmap vmm space address release_owned;
      let first_error := if negb (result =? NS_VMM_OK) && negb (result =? NS_VMM_ENOENT)
                            && (first_error =? NS_VMM_OK) then result else first_error in
      unmap_loop fuel' vmm space (u64 (address + NS_PAGE_SIZE)) end_ release_owned first_error
    end
  else mret first_error.

Definition ns_vmm_unmap_range vmm space virt (length : Z) (release_owned : bool) : V Z :=
  if length =? 0 then mret NS_VMM_OK
  else
    let '(status, end_) := validate_page_range virt length in
    if negb (status =? NS_VMM_OK) then mret NS_VMM_EINVAL
    else unmap_loop (page_fuel virt end_) vmm space virt end_ release_owned NS_VMM_OK.

Fixpoint map_loop (fuel : nat) vmm space virt (end_ address : Z) phys (mapped : Z) flags : V Z :=
  if address <? end_ then
    match fuel with
    | O => stuck
    | S fuel' =>
      result ← ns_vmm_map vmm space address (u64 (phys + mapped)) flags;
      if negb (result =? NS_VMM_OK)
      then ns_vmm_unmap_range vmm space virt mapped false;; mret result
      else map_loop fuel' vmm space virt end_ (u64 (address + NS_PAGE_SIZE)) phys (u64 (mapped + NS_PAGE_SIZE)) flags
    end
  else mret NS_VMM_OK.

Definition ns_vmm_map_range vmm space virt phys (length : Z) flags : V Z :=
  match space with
  | None => mret NS_VMM_EINVAL
  | Some _ =>
    let '(status, end_) := validate_page_range virt length in
    if (vmm =? 0) || negb (Z.land phys (NS_PAGE_SIZE - 1) =? 0) || negb (status =? NS_VMM_OK)
    then mret NS_VMM_EINVAL
    else
      let total := u64 (end_ - virt) in
      if UINT64_MAX - (total - 1) <? phys then mret NS_VMM_EINVAL
      else map_loop (page_fuel virt end_) vmm space virt end_ virt phys 0 flags
  end.

Fixpoint alloc_loop (fuel : nat) vmm space virt (end_ address mapped : Z) flags : V Z :=
  if address <? end_ then
    match fuel with
    | O => stuck
    | S fuel' =>
      '(status, phys) ← pmm_alloc;
      if negb (status =? NS_PMM_OK)
      then ns_vmm_unmap_range vmm space virt mapped true;; mret NS_VMM_ENOMEM
      else
        result ← ns_vmm_map vmm space address phys (Z.lor flags NS_VMM_PAGE_OWNED);
        if negb (result =? NS_VMM_OK)
        then pmm_free phys;; ns_vmm_unmap_range vmm space virt mapped true;; mret result
        else
          page ← phys_to_virt phys NS_PAGE_SIZE;
          if page =? 0
          then
            ns_vmm_unmap vmm space address true;;
            ns_vmm_unmap_range vmm space virt mapped true;;
            mret NS_VMM_ECORRUPT
          else
            bytes_zero page NS_PAGE_SIZE;;
            alloc_loop fuel' vmm space virt end_ (u64 (address + NS_PAGE_SIZE)) (u64 (mapped + NS_PAGE_SIZE)) flags
    end
  else mret NS_VMM_OK.

Definition ns_vmm_alloc_map vmm space virt (length : Z) flags : V Z :=
  match space with
  | None => mret NS_VMM_EINVAL
  | Some _ =>
    let '(status, end_) := validate_page_range virt length in
    if (vmm =? 0) || negb (status =? NS_VMM_OK) then mret NS_VMM_EINVAL
    else alloc_loop (page_fuel virt end_) vmm space virt end_ virt 0 flags
  end.

(** ** Translation *)

(** What a leaf at some level reports: its flags under the permissions that all
    levels grant. *)
Definition leaf_flags (entry effective : Z) : Z :=
  let flags := flags_from_entry entry in
  let flags := if Z.land effective X86_PTE_WRITE =? 0 then Z.land flags (not64 NS_VMM_PAGE_WRITE) else flags in
  let flags := if Z.land effective X86_PTE_USER =? 0 then Z.land flags (not64 NS_VMM_PAGE_USER) else flags in
  if negb (Z.land effective X86_PTE_NX =? 0) then Z.land flags (not64 NS_VMM_PAGE_EXEC) else flags.

(** The permissions after one more level. *)
Definition restrict (effective entry : Z) : Z :=
  let effective := if Z.land entry X86_PTE_WRITE =? 0 then Z.land effective (not64 X86_PTE_WRITE) else effective in
  let effective := if Z.land entry X86_PTE_USER =? 0 then Z.land effective (not64 X86_PTE_USER) else effective in
  if negb (Z.land entry X86_PTE_NX =? 0) then Z.lor effective X86_PTE_NX else effective.

(** Level [n] of the walk; the result, the address and the flags. *)
Fixpoint translate_loop (n : nat) virt table (effective : Z) : V (Z * (Z * Z)) :=
  match n with
  | O => mret (NS_VMM_ECORRUPT, (0, 0))
  | S n' =>
    entry ← ld 8 (entry_at table (table_index virt (Z.of_nat n)));
    if Z.land entry X86_PTE_PRESENT =? 0 then mret (NS_VMM_ENOENT, (0, 0))
    else
      let effective := restrict effective entry in
      if (n =? 3)%nat && negb (Z.land entry X86_PTE_HUGE =? 0)
      then mret (NS_VMM_OK, (Z.lor (Z.land entry X86_PTE_1G_ADDR) (Z.land virt (Z.shiftl 1 30 - 1)),
                             leaf_flags entry effective))
      else if (n =? 2)%nat && negb (Z.land entry X86_PTE_HUGE =? 0)
      then mret (NS_VMM_OK, (Z.lor (Z.land entry X86_PTE_2M_ADDR) (Z.land virt (Z.shiftl 1 21 - 1)),
                             leaf_flags entry effective))
      else if (n =? 1)%nat
      then mret (NS_VMM_OK, (Z.lor (Z.land entry X86_PTE_ADDR) (Z.land virt (NS_PAGE_SIZE - 1)),
                             leaf_flags entry effective))
      else
        child ← table_pointer (Z.land entry X86_PTE_ADDR);
        if child =? 0 then mret (NS_VMM_ECORRUPT, (0, 0)) else translate_loop n' virt child effective
  end.

Definition translate_unlocked (space : ns_vmm_space) virt : V (Z * (Z * Z)) :=
  table ← table_pointer (root_phys space);
  if table =? 0 then mret (NS_VMM_ECORRUPT, (0, 0))
  else translate_loop 4 virt table (Z.lor X86_PTE_WRITE X86_PTE_USER).

(** The out parameters are written when the translation succeeds. *)
Definition ns_vmm_translate vmm space virt (out_phys out_flags : option Z) : V (Z * (option Z * option Z)) :=
  match space, out_phys with
  | Some sp, Some _ =>
    if vmm =? 0 then mret (NS_VMM_EINVAL, (out_phys, out_flags))
    else
      init ← vget initialized;
      if (init =? 0) || negb (canonical_address virt) then mret (NS_VMM_EINVAL, (out_phys, out_flags))
      else
        vmm_lock;;
        '(result, (phys, flags)) ← translate_unlocked sp virt;
        vmm_unlock;;
        mret (result, if result =? NS_VMM_OK then (Some phys, (fun _ => flags) <$> out_flags)
                      else (out_phys, out_flags))
  | _, _ => mret (NS_VMM_EINVAL, (out_phys, out_flags))
  end.

(** ** Protection *)

Fixpoint vprotect_loop (fuel : nat) (space : ns_vmm_space) (address end_ : Z) flags : V Z :=
  if address <? end_ then
    match fuel with
    | O => stuck
    | S fuel' =>
      '(result, (_, _, leaf)) ← walk_leaf space address;
      if negb (result =? NS_VMM_OK) then vmm_unlock;; mret result
      else
        old ← ld 8 leaf;
        refused ← (if negb (Z.land flags NS_VMM_PAGE_USER =? 0)
                   then if Z.land old X86_PTE_USER =? 0 then mret true
                        else pmm_reserved (Z.land old X86_PTE_ADDR)
                   else mret false);
        if refused : bool then vmm_unlock;; mret NS_VMM_EPERM
        else
          st 8 leaf (entry_from_flags (Z.land old X86_PTE_ADDR) flags);;
          when (negb (Z.land old X86_PTE_OWNED =? 0))
            (e ← ld 8 leaf; st 8 leaf (Z.lor e X86_PTE_OWNED));;
          invalidate space address;;
          vprotect_loop fuel' space (u64 (address + NS_PAGE_SIZE)) end_ flags
    end
  else vmm_unlock;; mret NS_VMM_OK.

Definition ns_vmm_protect vmm space virt (length : Z) flags : V Z :=
  match space with
  | None => mret NS_VMM_EINVAL
  | Some sp =>
    let '(status, end_) := validate_page_range virt length in
    if (vmm =? 0) || negb (status =? NS_VMM_OK) then mret NS_VMM_EINVAL
    else if negb (owns_root sp =? 0) && (NS_VMM_KERNEL_HALF_BASE <=? virt) then mret NS_VMM_EPERM
    else
      vmm_lock;;
      vprotect_loop (page_fuel virt end_) sp virt end_ flags
  end.

(** ** User memory *)

(** Enough rounds for the pages that [length] bytes can touch. *)
Definition copy_fuel (length : Z) : nat := S (S (Z.to_nat (length / NS_PAGE_SIZE))).

Fixpoint valid_loop (fuel : nat) (space : ns_vmm_space) (current end_ : Z) (require_write : bool) : V bool :=
  if current <? end_ then
    match fuel with
    | O => stuck
    | S fuel' =>
      '(result, (_, flags)) ← translate_unlocked space current;
      if negb (result =? NS_VMM_OK) || (Z.land flags NS_VMM_PAGE_USER =? 0)
         || (require_write && (Z.land flags NS_VMM_PAGE_WRITE =? 0))
      then vmm_unlock;; mret false
      else
        let next := u64 (Z.land current (not64 (NS_PAGE_SIZE - 1)) + NS_PAGE_SIZE) in
        valid_loop fuel' space (if next <? end_ then next else end_) end_ require_write
    end
  else vmm_unlock;; mret true.

Definition ns_vmm_user_range_valid vmm space (address length : Z) (require_write : bool) : V bool :=
  match space with
  | None => mret false
  | Some sp =>
    if (vmm =? 0) || (length =? 0) || (NS_VMM_USER_TOP <=? address)
       || (NS_VMM_USER_TOP - address <? length)
    then mret false
    else
      vmm_lock;;
      valid_loop (copy_fuel length) sp address (u64 (address + length)) require_write
  end.

Fixpoint space_loop (fuel : nat) (space : ns_vmm_space) (user_address buffer length copied : Z) (to_user : bool) : V Z :=
  if copied <? length then
    match fuel with
    | O => stuck
    | S fuel' =>
      let current := u64 (user_address + copied) in
      '(result, (phys, flags)) ← translate_unlocked space current;
      if negb (result =? NS_VMM_OK) || (Z.land flags NS_VMM_PAGE_USER =? 0)
         || (to_user && (Z.land flags NS_VMM_PAGE_WRITE =? 0))
      then vmm_unlock;; mret (if result =? NS_VMM_OK then NS_VMM_EPERM else result)
      else
        let chunk := NS_PAGE_SIZE - Z.land phys (NS_PAGE_SIZE - 1) in
        let chunk := if length - copied <? chunk then length - copied else chunk in
        mapped ← phys_to_virt phys chunk;
        if mapped =? 0 then vmm_unlock;; mret NS_VMM_ECORRUPT
        else
          (if to_user then bytes_copy mapped (buffer + copied) chunk
           else bytes_copy (buffer + copied) mapped chunk);;
          space_loop fuel' space user_address buffer length (copied + chunk) to_user
    end
  else vmm_unlock;; mret NS_VMM_OK.

(** The space is read without a check for a null pointer. *)
Definition copy_space space (user_address kernel_buffer length : Z) (to_user : bool) : V Z :=
  if length =? 0 then mret NS_VMM_OK
  else if (NS_VMM_USER_TOP <=? user_address) || (NS_VMM_USER_TOP - user_address <? length)
          || (kernel_buffer =? 0)
  then mret NS_VMM_EINVAL
  else
    vmm_lock;;
    match space with
    | None => stuck
    | Some sp => space_loop (copy_fuel length) sp user_address kernel_buffer length 0 to_user
    end.

Definition ns_vmm_copy_to_space vmm space (destination source length : Z) : V Z :=
  copy_space space destination source length true.
Definition ns_vmm_copy_from_space vmm (destination : Z) space (source length : Z) : V Z :=
  copy_space space source destination length false.

(** ** Kernel mappings *)

Definition ns_vmm_map_direct_range vmm space phys (length : Z) flags : V Z :=
  if vmm =? 0 then mret NS_VMM_EINVAL
  else
    base ← cget direct_map_base;
    if UINT64_MAX - base <? phys then mret NS_VMM_EINVAL
    else ns_vmm_map_range vmm space (u64 (base + phys)) phys length (Z.land flags (not64 NS_VMM_PAGE_USER)).

Definition ns_vmm_protect_kernel_sections vmm space
    (text_start text_end rodata_start rodata_end data_start data_end : Z) : V Z :=
  if negb (Z.land (Z.lor (Z.lor (Z.lor (Z.lor (Z.lor text_start text_end) rodata_start) rodata_end)
                            data_start) data_end) (NS_PAGE_SIZE - 1) =? 0)
  then mret NS_VMM_EINVAL
  else if (text_end <=? text_start) || (rodata_end <=? rodata_start) || (data_end <=? data_start)
          || (text_start <? NS_VMM_KERNEL_IMAGE_BASE) || (rodata_start <? text_end)
          || (data_start <? rodata_end)
  then mret NS_VMM_EINVAL
  else
    result ← ns_vmm_protect vmm space text_start (text_end - text_start)
               (Z.lor NS_VMM_PAGE_EXEC NS_VMM_PAGE_GLOBAL);
    result ← (if result =? NS_VMM_OK
              then ns_vmm_protect vmm space rodata_start (rodata_end - rodata_start) NS_VMM_PAGE_GLOBAL
              else mret result);
    if result =? NS_VMM_OK
    then ns_vmm_protect vmm space data_start (data_end - data_start)
           (Z.lor NS_VMM_PAGE_WRITE NS_VMM_PAGE_GLOBAL)
    else mret result.
End vmm.
