(* ===== verification/VmmTree.v ===== *)
(** * Page-table trees

    The tables of an address space as a finite map [T] from the address of a
    frame to the 512 entries in it.  A path of indices leads from the root to a
    table; well-formed trees have one path to each table.  What the operations
    do to a tree is one of four updates: an entry of a last-level table, a new
    empty table, more permissions in an entry above, an empty table removed. *)

From S2P Require Import Prelude Errno Bytes Pmm Vmm.

(** ** Entries *)

Definition present (e : Z) : bool := Z.testbit e 0.
Definition writable (e : Z) : bool := Z.testbit e 1.
Definition user (e : Z) : bool := Z.testbit e 2.
Definition huge (e : Z) : bool := Z.testbit e 7.
Definition owned (e : Z) : bool := Z.testbit e 9.
Definition no_exec (e : Z) : bool := Z.testbit e 63.
Definition addr (e : Z) : Z := Z.land e X86_PTE_ADDR.

Arguments present : simpl never. Arguments writable : simpl never. Arguments user : simpl never.
Arguments huge : simpl never. Arguments owned : simpl never. Arguments no_exec : simpl never.
Arguments addr : simpl never.

Lemma land_bit e k : 0 <= k -> (Z.land e (Z.shiftl 1 k) =? 0) = negb (Z.testbit e k).
Proof.
  intros Hk. rewrite Z.shiftl_1_l.
  assert (E : Z.land e (2 ^ k) = if Z.testbit e k then 2 ^ k else 0).
  { apply Z.bits_inj'. intros n Hn. rewrite Z.land_spec, Z.pow2_bits_eqb by lia.
    destruct (Z.eqb_spec k n) as [->|Hne].
    - destruct (Z.testbit e n); [by rewrite Z.pow2_bits_true|by rewrite Z.bits_0].
    - rewrite andb_false_r. destruct (Z.testbit e k); [by rewrite Z.pow2_bits_false|by rewrite Z.bits_0]. }
  rewrite E. destruct (Z.testbit e k); [|done]. apply Z.eqb_neq, Z.pow_nonzero; lia.
Qed.

(** Entries of the tables above the last level that lead on. *)
Definition directory (e : Z) : bool := writable e && negb (huge e) && negb (no_exec e).

(** ** Paths *)

Fixpoint follow (T : gmap Z (list Z)) (t : Z) (p : list Z) : option Z :=
  match p with
  | [] => Some t
  | i :: r => es ← T !! t; e ← rd es i; if present e then follow T (addr e) r else None
  end.

(** The entry with index [i] of the table at the end of [p]. *)
Definition slot (T : gmap Z (list Z)) (root : Z) (p : list Z) (i : Z) : option Z :=
  t ← follow T root p; es ← T !! t; rd es i.

(** What is mapped there, at the last level. *)
Definition leaf (T : gmap Z (list Z)) (root : Z) (p : list Z) (i : Z) : option Z :=
  e ← slot T root p i; if present e then Some e else None.

Lemma follow_app T t p q : follow T t (p ++ q) = follow T t p ≫= fun u => follow T u q.
Proof.
  revert t. induction p as [|i p IH]; intros t; cbn [follow app mbind option_bind]; [done|].
  destruct (T !! t) as [es|]; cbn; [|done]. destruct (rd es i) as [e|]; cbn; [|done].
  destruct (present e); [apply IH|done].
Qed.

Lemma follow_snoc T t p i u :
  follow T t (p ++ [i]) = Some u <-> exists e, slot T t p i = Some e /\ present e = true /\ addr e = u.
Proof.
  rewrite follow_app. unfold slot. destruct (follow T t p) as [v|]; cbn; [|naive_solver].
  destruct (T !! v) as [es|]; cbn; [|naive_solver]. destruct (rd es i) as [e|]; cbn; [|naive_solver].
  destruct (present e) eqn:E; cbn.
  - split; [intros [= <-]; by exists e|by intros (? & [= <-] & _ & ->)].
  - split; [done|]. intros (? & [= <-] & ? & _). congruence.
Qed.

Lemma slot_Some T root p i e :
  slot T root p i = Some e <-> exists t es, follow T root p = Some t /\ T !! t = Some es /\ rd es i = Some e.
Proof.
  unfold slot. destruct (follow T root p) as [t|]; cbn; [|naive_solver].
  destruct (T !! t) as [es|] eqn:E; cbn; naive_solver.
Qed.

Lemma leaf_Some T root p i e : leaf T root p i = Some e <-> slot T root p i = Some e /\ present e = true.
Proof.
  unfold leaf. destruct (slot T root p i) as [e'|]; cbn; [|by split; [|intros []]].
  destruct (present e') eqn:E; split; [intros [= ->]; by split|by intros [[= ->] _]|done|intros [[= ->] ?]; congruence].
Qed.

(** A path that is mapped goes through present entries. *)
Lemma slot_above T root p i r j e : slot T root (p ++ i :: r) j = Some e -> exists d, slot T root p i = Some d /\ present d = true.
Proof.
  intros (v & vs & Ev & _)%slot_Some. change (i :: r) with ([i] ++ r) in Ev. rewrite app_assoc, follow_app in Ev.
  destruct (follow T root (p ++ [i])) as [w|] eqn:Ew; [|done]. apply follow_snoc in Ew as (d & Ed & Hd & _). eauto.
Qed.

Lemma rd_set {A} (l : list A) i j v :
  0 <= i < Z.of_nat (length l) -> rd (<[Z.to_nat i := v]> l) j = if decide (j = i) then Some v else rd l j.
Proof.
  intros Hi. destruct (decide (j = i)) as [->|Hne]; [by apply rd_insert_eq|]. apply rd_insert_ne; [lia|congruence].
Qed.

(** ** Trees *)

Section tree.
Context (slots : Z -> Prop) (root : Z).
Implicit Types (T : gmap Z (list Z)) (p q : list Z) (es : list Z).

(** The paths of this part of the address space, to a table. *)
Definition path_ok p : Prop :=
  (length p <= 3)%nat /\ Forall (fun i => 0 <= i < 512) p /\ match p with i :: _ => slots i | [] => True end.
Definition index_ok p (i : Z) : Prop := 0 <= i < 512 /\ (p = [] -> slots i).

Lemma path_snoc p i : path_ok (p ++ [i]) <-> path_ok p /\ index_ok p i /\ (length p < 3)%nat.
Proof.
  unfold path_ok, index_ok. rewrite Forall_app, Forall_singleton, length_app. cbn [length].
  destruct p as [|j p]; cbn; [|naive_solver lia]. split; [naive_solver lia|].
  intros (_ & (? & Hs) & _). split_and!; [lia|by constructor|lia|lia|by apply Hs].
Qed.

Lemma path_split p i r : path_ok (p ++ i :: r) -> path_ok p /\ index_ok p i /\ (length p < 3)%nat.
Proof.
  intros Hq. apply path_snoc. destruct Hq as (H1 & H2 & H3).
  change (i :: r) with ([i] ++ r) in *. rewrite app_assoc in *. apply Forall_app in H2 as [H2 _].
  rewrite length_app in H1. split_and!; [lia|done|]. by destruct p.
Qed.

Lemma slot_range T p i e :
  (forall t es, T !! t = Some es -> length es = 512%nat) -> slot T root p i = Some e -> 0 <= i < 512.
Proof. intros Hl (t & es & _ & H2 & H3)%slot_Some. apply rd_range in H3. rewrite (Hl t es H2) in H3. lia. Qed.

Record tree T : Prop := {
  tr_root : is_Some (T !! root);
  tr_table : forall p t, path_ok p -> follow T root p = Some t -> is_Some (T !! t);
  tr_inj : forall p q t, path_ok p -> path_ok q -> follow T root p = Some t -> follow T root q = Some t -> p = q;
  tr_all : forall t, is_Some (T !! t) -> exists p, path_ok p /\ follow T root p = Some t;
  tr_len : forall t es, T !! t = Some es -> length es = 512%nat;
  tr_dir : forall p i e, path_ok p -> index_ok p i -> (length p < 3)%nat ->
    slot T root p i = Some e -> present e = true -> directory e = true;
  tr_user : forall p i r j e d, path_ok (p ++ i :: r) -> length (p ++ i :: r) = 3%nat ->
    leaf T root (p ++ i :: r) j = Some e -> user e = true -> slot T root p i = Some d -> user d = true }.

(** Every table but the root and [t] has a present entry. *)
Definition full_but (x : Z) T : Prop :=
  forall t es, T !! t = Some es -> t <> root -> t <> x -> exists i e, rd es i = Some e /\ present e = true.

Section on.
Context T (Ht : tree T).

Lemma tree_slot p t es i :
  path_ok p -> follow T root p = Some t -> T !! t = Some es -> 0 <= i < 512 -> exists e, slot T root p i = Some e /\ rd es i = Some e.
Proof.
  intros Hp Hf He Hi. destruct (rd_Some es i) as [e Hr].
  { rewrite (tr_len _ Ht t es He). lia. }
  exists e. split; [|done]. apply slot_Some. eauto.
Qed.

(** *** An entry of a last-level table *)

Section leaf_update.
Context p t es i (v : Z) (Hp : path_ok p) (Hl : length p = 3%nat) (Hf : follow T root p = Some t) (He : T !! t = Some es)
  (Hi : 0 <= i < 512).
Let T' := <[t := <[Z.to_nat i := v]> es]> T.

Lemma leaf_follow q : path_ok q -> follow T' root q = follow T root q.
Proof.
  induction q as [|j q IH] using rev_ind; intros Hq; [done|]. apply path_snoc in Hq as (Hq & Hj & Hlen).
  rewrite !follow_app, IH by done. destruct (follow T root q) as [u|] eqn:Eu; cbn; [|done].
  unfold T'. rewrite lookup_insert_ne; [done|]. intros ->. rewrite (tr_inj _ Ht p q u) in Hl by done. lia.
Qed.

Lemma leaf_slot q j : path_ok q -> 0 <= j < 512 ->
  slot T' root q j = if decide (q = p /\ j = i) then Some v else slot T root q j.
Proof.
  intros Hq Hj. unfold slot. rewrite leaf_follow by done. destruct (follow T root q) as [u|] eqn:Eu; cbn.
  2: { rewrite decide_False; [done|]. intros [-> _]. congruence. }
  unfold T'. destruct (decide (u = t)) as [->|Hne].
  - assert (q = p) as -> by (eapply (tr_inj _ Ht); eauto). rewrite lookup_insert_eq, He. cbn.
    rewrite rd_set by (rewrite (tr_len _ Ht t es He); lia).
    destruct (decide (j = i)); [rewrite decide_True by done|rewrite decide_False by naive_solver]; done.
  - rewrite lookup_insert_ne by done. rewrite decide_False; [done|]. intros [-> _]. congruence.
Qed.

Lemma leaf_len u us : T' !! u = Some us -> length us = 512%nat.
Proof. intros [[<- <-]|[_ E]]%lookup_insert_Some; [rewrite length_insert|]; by eapply tr_len. Qed.

Lemma leaf_tree :
  (present v = true -> user v = true -> forall p0 i0 r d, p = p0 ++ i0 :: r -> slot T root p0 i0 = Some d -> user d = true) ->
  tree T'.
Proof.
  intros Hu. constructor.
  - unfold T'. rewrite lookup_insert_is_Some'. right. apply Ht.
  - intros q u Hq E. rewrite leaf_follow in E by done. unfold T'. rewrite lookup_insert_is_Some'. right. by eapply tr_table.
  - intros q q' u Hq Hq' E E'. rewrite leaf_follow in E, E' by done. by eapply tr_inj.
  - intros u Hu'. unfold T' in Hu'. rewrite lookup_insert_is_Some' in Hu'.
    destruct (tr_all _ Ht u) as (q & Hq & E); [naive_solver|]. exists q. by rewrite leaf_follow.
  - exact leaf_len.
  - intros q j e Hq [Hj Hj'] Hlen E. rewrite leaf_slot, decide_False in E by (done || intros [-> _]; lia). by eapply tr_dir.
  - intros q j r k e d Hq Hlen E Hue Hd. apply leaf_Some in E as [E Hpe].
    assert (Hk := slot_range _ _ _ _ leaf_len E). destruct (path_split _ _ _ Hq) as (Hq0 & [Hj _] & Hq3).
    rewrite leaf_slot, decide_False in Hd by (done || intros [-> _]; lia).
    rewrite leaf_slot in E by done. destruct (decide (q ++ j :: r = p /\ k = i)) as [[Eq ->]|Hne].
    + injection E as ->. by eapply Hu.
    + eapply tr_user; [done|exact Hq|done| |done|done]. by apply leaf_Some.
Qed.
End leaf_update.

(** *** A new table *)

Section grow.
Context p t es i d c (Hp : path_ok p) (Hi : index_ok p i) (Hl : (length p < 3)%nat) (Hf : follow T root p = Some t)
  (He : T !! t = Some es) (Hd : present d = true) (Hdir : directory d = true) (Hc : addr d = c) (Hfresh : T !! c = None)
  (Habs : forall e, rd es i = Some e -> present e = false).
Let T' := <[t := <[Z.to_nat i := d]> es]> (<[c := replicate 512 0]> T).

Lemma grow_t_c : t <> c.
Proof. congruence. Qed.

Lemma grow_slot q j u : path_ok q -> 0 <= j < 512 -> follow T root q = Some u -> follow T' root q = Some u ->
  slot T' root q j = if decide (q = p /\ j = i) then Some d else slot T root q j.
Proof.
  intros Hq Hj E E'. unfold slot. rewrite E, E'. cbn. unfold T'. destruct (decide (u = t)) as [->|Hne].
  - assert (q = p) as -> by (eapply (tr_inj _ Ht); eauto). rewrite lookup_insert_eq, He. cbn.
    destruct Hi as [Hi0 _]. rewrite rd_set by (rewrite (tr_len _ Ht t es He); lia).
    destruct (decide (j = i)); [rewrite decide_True by done|rewrite decide_False by naive_solver]; done.
  - destruct (tr_table _ Ht q u Hq E) as [us Eu].
    rewrite !lookup_insert_ne by congruence. rewrite decide_False; [done|]. intros [-> _]. congruence.
Qed.

Lemma grow_follow q u : path_ok q ->
  follow T' root q = Some u <-> follow T root q = Some u \/ (q = p ++ [i] /\ u = c).
Proof.
  revert u. induction q as [|j q IH] using rev_ind; intros u Hq.
  { cbn. split; [by left|]. intros [?|[H _]]; [done|]. by destruct p. }
  apply path_snoc in Hq as (Hq & [Hj Hj'] & Hlen). rewrite !follow_snoc. split.
  - intros (e & Es & Hpe & Ha). destruct (follow T' root q) as [v|] eqn:Ev; [|unfold slot in Es; by rewrite Ev in Es].
    destruct (proj1 (IH v Hq) eq_refl) as [Ev'|[-> ->]].
    + rewrite (grow_slot q j v Hq Hj Ev' Ev) in Es. destruct (decide _) as [[-> ->]|_].
      * injection Es as <-. right. split; [done|congruence].
      * left. eauto.
    + exfalso. unfold slot in Es. rewrite Ev in Es. cbn in Es. unfold T' in Es.
      rewrite lookup_insert_ne, lookup_insert_eq in Es by apply grow_t_c. apply rd_lookup in Es as [_ Es].
      apply lookup_replicate in Es as [-> _]. done.
  - intros [(e & Es & Hpe & Ha)|[E ->]].
    + apply slot_Some in Es as (v & vs & E1 & E2 & E3). assert (E1' := proj2 (IH v Hq) (or_introl E1)).
      exists e. split; [|done]. rewrite (grow_slot q j v Hq Hj E1 E1'), decide_False; [apply slot_Some; eauto|].
      intros [-> ->]. rewrite Hf in E1. injection E1 as <-. rewrite He in E2. injection E2 as <-.
      rewrite (Habs e E3) in Hpe. done.
    + apply app_inj_tail in E as [-> ->]. exists d. split; [|done].
      rewrite (grow_slot p i t), decide_True; try done. apply IH; [done|by left].
Qed.

Lemma grow_len u us : T' !! u = Some us -> length us = 512%nat.
Proof.
  intros [[<- <-]|[_ [[<- <-]|[_ E]]%lookup_insert_Some]]%lookup_insert_Some;
    [rewrite length_insert|by rewrite length_replicate|]; by eapply tr_len.
Qed.

(** The slots of the tree: the new entry, the zeros of the new table, the old ones. *)
Lemma grow_slots q j e : path_ok q -> slot T' root q j = Some e ->
  (q = p /\ j = i /\ e = d) \/ (q = p ++ [i] /\ e = 0) \/ slot T root q j = Some e.
Proof.
  intros Hq Es. pose proof (slot_range _ _ _ _ grow_len Es) as Hj.
  destruct (follow T' root q) as [v|] eqn:Ev; [|unfold slot in Es; by rewrite Ev in Es].
  destruct (proj1 (grow_follow q v Hq) Ev) as [Ev'|[-> ->]].
  - rewrite (grow_slot q j v Hq Hj Ev' Ev) in Es. destruct (decide _) as [[-> ->]|_]; naive_solver.
  - right. left. split; [done|]. unfold slot in Es. rewrite Ev in Es. cbn in Es. unfold T' in Es.
    rewrite lookup_insert_ne, lookup_insert_eq in Es by apply grow_t_c. apply rd_lookup in Es as [_ Es].
    by apply lookup_replicate in Es as [-> _].
Qed.

Lemma grow_leaf q j : path_ok q -> length q = 3%nat -> leaf T' root q j = leaf T root q j.
Proof.
  intros Hq Hlen. apply option_eq. intros e. rewrite !leaf_Some. split.
  - intros [Es Hpe]. apply grow_slots in Es as [(-> & _)|[(_ & ->)|Es]]; [lia|done|done|done].
  - intros [Es Hpe]. split; [|done]. pose proof (slot_range _ _ _ _ (tr_len _ Ht) Es) as Hj.
    pose proof Es as (v & vs & Ev & _)%slot_Some. rewrite (grow_slot q j v), decide_False; try done.
    { intros [-> _]. lia. }
    apply grow_follow; [done|by left].
Qed.

Lemma grow_dom u : is_Some (T' !! u) <-> is_Some (T !! u) \/ u = c.
Proof. unfold T'. rewrite !lookup_insert_is_Some'. split; [intros [->|[->|?]]|intros [?| ->]]; eauto. Qed.

Lemma grow_tree : tree T'.
Proof.
  constructor.
  - apply grow_dom. left. apply Ht.
  - intros q u Hq [E|[-> ->]]%grow_follow; [apply grow_dom; left; by eapply tr_table|apply grow_dom; by right|done].
  - intros q q' u Hq Hq' [E|[-> ->]]%grow_follow [E'|[-> E']]%grow_follow; try done; [by eapply tr_inj|exfalso..];
      [apply (tr_table _ Ht) in E as [? ?]|apply (tr_table _ Ht) in E' as [? ?]]; try done; congruence.
  - intros u [Hu| ->]%grow_dom.
    + destruct (tr_all _ Ht u Hu) as (q & Hq & E). exists q. split; [done|]. apply grow_follow; [done|by left].
    + exists (p ++ [i]). assert (path_ok (p ++ [i])) by by apply path_snoc.
      split; [done|]. apply grow_follow; [done|by right].
  - exact grow_len.
  - intros q j e Hq Hj Hlen Es Hpe. apply grow_slots in Es as [(_ & _ & ->)|[(_ & ->)|Es]]; [done|done|by eapply tr_dir|done].
  - intros q j r k e d' Hq Hlen E Hue Hd'. rewrite grow_leaf in E by done.
    destruct (path_split _ _ _ Hq) as (Hq0 & _). apply leaf_Some in E as [E Hpe].
    assert (Hl' : leaf T root (q ++ j :: r) k = Some e) by by apply leaf_Some.
    destruct (slot_above _ _ _ _ _ _ _ E) as (d0 & Ed0 & Hpd0).
    apply grow_slots in Hd' as [(-> & -> & ->)|[(-> & _)|Hd']]; [| |by eapply tr_user|done].
    + exfalso. apply slot_Some in Ed0 as (w' & ws & E1 & E2 & E3). rewrite Hf in E1. injection E1 as <-.
      rewrite He in E2. injection E2 as <-. rewrite (Habs d0 E3) in Hpd0. done.
    + exfalso. apply slot_Some in Ed0 as (w' & ws & E1 & E2 & _).
      apply follow_snoc in E1 as (e1 & (w1 & ws1 & F1 & F2 & F3)%slot_Some & Hp1 & _). rewrite Hf in F1. injection F1 as <-.
      rewrite He in F2. injection F2 as <-. rewrite (Habs e1 F3) in Hp1. done.
Qed.
End grow.

(** *** More permissions above the last level *)

Section permit.
Context p t es i d d' (Hp : path_ok p) (Hi : index_ok p i) (Hl : (length p < 3)%nat) (Hf : follow T root p = Some t)
  (He : T !! t = Some es) (Hr : rd es i = Some d) (Hd : present d = true) (Hd' : present d' = true)
  (Hdir : directory d' = true) (Ha : addr d' = addr d) (Hu : user d = true -> user d' = true).
Let T' := <[t := <[Z.to_nat i := d']> es]> T.

Lemma permit_slot_at q j u : path_ok q -> 0 <= j < 512 -> follow T root q = Some u -> follow T' root q = Some u ->
  slot T' root q j = if decide (q = p /\ j = i) then Some d' else slot T root q j.
Proof.
  intros Hq Hj E E'. unfold slot. rewrite E, E'. cbn. unfold T'. destruct (decide (u = t)) as [->|Hne].
  - assert (q = p) as -> by (eapply (tr_inj _ Ht); eauto). rewrite lookup_insert_eq, He. cbn.
    destruct Hi as [Hi0 _]. rewrite rd_set by (rewrite (tr_len _ Ht t es He); lia).
    destruct (decide (j = i)); [rewrite decide_True by done|rewrite decide_False by naive_solver]; done.
  - rewrite lookup_insert_ne by done. rewrite decide_False; [done|]. intros [-> _]. congruence.
Qed.

Lemma permit_old : slot T root p i = Some d.
Proof. apply slot_Some. eauto. Qed.

Lemma permit_follow q : path_ok q -> follow T' root q = follow T root q.
Proof.
  induction q as [|j q IH] using rev_ind; intros Hq; [done|]. apply path_snoc in Hq as (Hq & [Hj Hj'] & Hlen).
  specialize (IH Hq). destruct (follow T root q) as [v|] eqn:Ev; [|by rewrite !follow_app, IH, Ev].
  apply option_eq. intros u. rewrite !follow_snoc, (permit_slot_at q j v) by done.
  destruct (decide (q = p /\ j = i)) as [[-> ->]|_]; [|done]. rewrite permit_old.
  split; intros (e & [= <-] & _ & E); eexists; (split; [done|]); (split; [done|]); congruence.
Qed.

Lemma permit_slot q j : path_ok q -> 0 <= j < 512 ->
  slot T' root q j = if decide (q = p /\ j = i) then Some d' else slot T root q j.
Proof.
  intros Hq Hj. destruct (follow T root q) as [u|] eqn:E.
  - apply (permit_slot_at q j u); try done. by rewrite permit_follow.
  - unfold slot. rewrite permit_follow, E by done. rewrite decide_False; [done|]. intros [-> _]. congruence.
Qed.

Lemma permit_len u us : T' !! u = Some us -> length us = 512%nat.
Proof. intros [[<- <-]|[_ E]]%lookup_insert_Some; [rewrite length_insert|]; by eapply tr_len. Qed.

Lemma permit_leaf q j : path_ok q -> length q = 3%nat -> leaf T' root q j = leaf T root q j.
Proof.
  intros Hq Hlen. destruct (decide (0 <= j < 512)) as [Hj|Hj].
  - unfold leaf. rewrite permit_slot, decide_False by (done || intros [-> _]; lia). done.
  - apply option_eq. intros e. rewrite !leaf_Some.
    split; intros [E _]; exfalso; apply Hj; eapply slot_range; try done; [exact permit_len|apply Ht].
Qed.

Lemma permit_tree : tree T'.
Proof.
  assert (Hdom : forall u, is_Some (T' !! u) <-> is_Some (T !! u)).
  { intros u. unfold T'. rewrite lookup_insert_is_Some'. split; [intros [->|?]; by eauto|by right]. }
  constructor.
  - apply Hdom, Ht.
  - intros q u Hq E. rewrite permit_follow in E by done. apply Hdom. by eapply tr_table.
  - intros q q' u Hq Hq' E E'. rewrite permit_follow in E, E' by done. by eapply tr_inj.
  - intros u Hu'. destruct (tr_all _ Ht u) as (q & Hq & E); [by apply Hdom|]. exists q. by rewrite permit_follow.
  - exact permit_len.
  - intros q j e Hq [Hj Hj'] Hlen E Hpe. rewrite permit_slot in E by done.
    destruct (decide _); [by injection E as <-|]. by eapply tr_dir.
  - intros q j r k e d0 Hq Hlen E Hue Hd0. rewrite permit_leaf in E by done.
    destruct (path_split _ _ _ Hq) as (Hq0 & [Hj _] & _). rewrite permit_slot in Hd0 by done.
    destruct (decide _) as [[-> ->]|_]; [|by eapply tr_user]. injection Hd0 as <-. apply Hu.
    by eapply tr_user; [| | |exact E| |exact permit_old].
Qed.
End permit.

(** *** An empty table removed *)

Section prune.
Context p t es i d c ces (Hp : path_ok p) (Hi : index_ok p i) (Hl : (length p < 3)%nat) (Hf : follow T root p = Some t)
  (He : T !! t = Some es) (Hr : rd es i = Some d) (Hd : present d = true) (Hc : addr d = c)
  (Hces : T !! c = Some ces) (Hempty : forall j e, rd ces j = Some e -> present e = false).
Let T' := delete c (<[t := <[Z.to_nat i := 0]> es]> T).

Lemma prune_child : follow T root (p ++ [i]) = Some c /\ path_ok (p ++ [i]).
Proof. split; [|by apply path_snoc]. apply follow_snoc. exists d. split; [|done]. apply slot_Some. eauto. Qed.

Lemma prune_t_c : t <> c.
Proof. intros E. destruct prune_child as [H1 H2]. rewrite <- E in H1. pose proof (tr_inj _ Ht _ _ _ Hp H2 Hf H1) as H.
  apply (f_equal length) in H. rewrite length_app in H. cbn in H. lia. Qed.

Lemma prune_slot q j u : path_ok q -> 0 <= j < 512 -> follow T root q = Some u -> follow T' root q = Some u -> u <> c ->
  slot T' root q j = if decide (q = p /\ j = i) then Some 0 else slot T root q j.
Proof.
  intros Hq Hj E E' Hu. unfold slot. rewrite E, E'. cbn. unfold T'. rewrite lookup_delete_ne by done.
  destruct (decide (u = t)) as [->|Hne].
  - assert (q = p) as -> by (eapply (tr_inj _ Ht); eauto). rewrite lookup_insert_eq, He. cbn.
    destruct Hi as [Hi0 _]. rewrite rd_set by (rewrite (tr_len _ Ht t es He); lia).
    destruct (decide (j = i)); [rewrite decide_True by done|rewrite decide_False by naive_solver]; done.
  - rewrite lookup_insert_ne by done. rewrite decide_False; [done|]. intros [-> _]. congruence.
Qed.

Lemma prune_follow q u : path_ok q -> follow T' root q = Some u <-> follow T root q = Some u /\ u <> c.
Proof.
  revert u. induction q as [|j q IH] using rev_ind; intros u Hq.
  { cbn. split; [|by intros []]. intros [= <-]. split; [done|]. intros E. destruct prune_child as [H1 H2].
    rewrite <- E in H1. pose proof (tr_inj _ Ht [] _ _ Hq H2 eq_refl H1) as H. by destruct p. }
  apply path_snoc in Hq as (Hq & [Hj Hj'] & Hlen). rewrite !follow_snoc. split.
  - intros (e & Es & Hpe & Ha). destruct (follow T' root q) as [v|] eqn:Ev; [|unfold slot in Es; by rewrite Ev in Es].
    destruct (proj1 (IH v Hq) eq_refl) as [Ev' Hv]. rewrite (prune_slot q j v) in Es by done.
    destruct (decide _) as [_|Hne]; [by injection Es as <-|]. split; [by eauto|]. intros ->.
    apply Hne. destruct prune_child as [H1 H2]. assert (follow T root (q ++ [j]) = Some c) as H3 by (apply follow_snoc; eauto).
    apply (app_inj_tail q p). by apply (tr_inj _ Ht _ _ c); [apply path_snoc| | |].
  - intros [(e & Es & Hpe & Ha) Hu]. exists e. split; [|done].
    pose proof Es as (v & vs & E1 & E2 & E3)%slot_Some.
    assert (Hv : v <> c). { intros ->. rewrite Hces in E2. injection E2 as <-. by rewrite (Hempty j e E3) in Hpe. }
    rewrite (prune_slot q j v), decide_False; try done; [|by apply IH]. intros [-> ->].
    rewrite Hf in E1. injection E1 as <-. rewrite He in E2. injection E2 as <-. congruence.
Qed.

Lemma prune_len u us : T' !! u = Some us -> length us = 512%nat.
Proof. intros [_ [[<- <-]|[_ E]]%lookup_insert_Some]%lookup_delete_Some; [rewrite length_insert|]; by eapply tr_len. Qed.

Lemma prune_slots q j e : path_ok q -> slot T' root q j = Some e -> e = 0 \/ slot T root q j = Some e.
Proof.
  intros Hq Es. pose proof (slot_range _ _ _ _ prune_len Es) as Hj.
  destruct (follow T' root q) as [v|] eqn:Ev; [|unfold slot in Es; by rewrite Ev in Es].
  destruct (proj1 (prune_follow q v Hq) Ev) as [Ev' Hv]. rewrite (prune_slot q j v) in Es by done.
  destruct (decide _); [left; congruence|by right].
Qed.

Lemma prune_leaf q j : path_ok q -> length q = 3%nat -> leaf T' root q j = leaf T root q j.
Proof.
  intros Hq Hlen. apply option_eq. intros e. rewrite !leaf_Some. split.
  - intros [Es Hpe]. apply prune_slots in Es as [->|Es]; [done|done|done].
  - intros [Es Hpe]. split; [|done]. pose proof (slot_range _ _ _ _ (tr_len _ Ht) Es) as Hj.
    pose proof Es as (v & vs & Ev & E2 & E3)%slot_Some.
    assert (Hv : v <> c). { intros ->. rewrite Hces in E2. injection E2 as <-. by rewrite (Hempty j e E3) in Hpe. }
    rewrite (prune_slot q j v), decide_False; try done; [intros [-> _]; lia|by apply prune_follow].
Qed.

Lemma prune_dom u : is_Some (T' !! u) <-> is_Some (T !! u) /\ u <> c.
Proof.
  unfold T'. destruct (decide (u = c)) as [->|Hne]; [rewrite lookup_delete_eq; split; [by intros []|by intros []]|].
  rewrite lookup_delete_ne, lookup_insert_is_Some' by done. split; [intros [->|?]|intros [? _]]; by eauto.
Qed.

Lemma prune_tree : tree T'.
Proof.
  constructor.
  - apply prune_dom. split; [apply Ht|]. intros E. destruct prune_child as [H1 H2]. rewrite <- E in H1.
    assert (H0 : path_ok []) by (split_and!; [cbn; lia|by constructor|done]).
    pose proof (tr_inj _ Ht [] _ _ H0 H2 eq_refl H1) as H. by destruct p.
  - intros q u Hq [E Hu]%prune_follow; [|done]. apply prune_dom. split; [by eapply tr_table|done].
  - intros q q' u Hq Hq' [E _]%prune_follow [E' _]%prune_follow; try done. by eapply tr_inj.
  - intros u [Hu Hne]%prune_dom. destruct (tr_all _ Ht u Hu) as (q & Hq & E). exists q. split; [done|]. by apply prune_follow.
  - exact prune_len.
  - intros q j e Hq Hj Hlen Es Hpe. apply prune_slots in Es as [->|Es]; [done|by eapply tr_dir|done].
  - intros q j r k e d' Hq Hlen E Hue Hd'. pose proof E as E0. rewrite prune_leaf in E by done.
    apply leaf_Some in E0 as [E0 _]. destruct (slot_above _ _ _ _ _ _ _ E0) as (d0 & Ed0 & Hpd0).
    destruct (path_split _ _ _ Hq) as (Hq0 & _). rewrite Hd' in Ed0. injection Ed0 as <-.
    apply prune_slots in Hd' as [->|Hd']; [done|by eapply tr_user|done].
Qed.
End prune.
End on.
End tree.
