(* ===== verification/VmmBits.v ===== *)
(** * Entries and indices

    The bits of a page-table entry, the conversions between entries and flags,
    and the indices of a virtual address. *)

From S2P Require Import Prelude Errno Bytes Pmm Vmm VmmTree.

Lemma land_bound_l a b k : 0 <= a < 2 ^ k -> 0 <= k -> 0 <= Z.land a b < 2 ^ k.
Proof.
  intros Ha Hk. rewrite <- (Z.mod_small a (2 ^ k)) by done. rewrite <- Z.land_ones, <- Z.land_assoc, (Z.land_comm (Z.ones k)),
    Z.land_assoc, Z.land_ones by done. apply Z.mod_pos_bound. lia.
Qed.

(** ** Addresses in entries *)

Lemma X86_PTE_ADDR_shape : X86_PTE_ADDR = Z.shiftl (Z.ones 40) 12.
Proof. reflexivity. Qed.

Lemma addr_lor a b : addr (Z.lor a b) = Z.lor (addr a) (addr b).
Proof. apply Z.land_lor_distr_l. Qed.

Lemma addr_or_if (b : bool) e x : Z.land x X86_PTE_ADDR = 0 -> addr (if b then Z.lor e x else e) = addr e.
Proof. intros Hx. destruct b; [|done]. rewrite addr_lor. unfold addr at 2. by rewrite Hx, Z.lor_0_r. Qed.

Lemma addr_aligned t : (4096 | t) -> 0 <= t < 2 ^ 52 -> addr t = t.
Proof.
  intros [q ->] Hq. unfold addr. rewrite X86_PTE_ADDR_shape. change 4096 with (2 ^ 12).
  rewrite <- Z.shiftl_mul_pow2, <- Z.shiftl_land, Z.land_ones, Z.mod_small by lia. done.
Qed.

Lemma addr_addr e : addr (addr e) = addr e.
Proof. unfold addr. rewrite <- Z.land_assoc. by rewrite Z.land_diag. Qed.

Lemma addr_divide e : (4096 | addr e).
Proof.
  unfold addr. rewrite X86_PTE_ADDR_shape. apply Z.mod_divide; [lia|]. change 4096 with (2 ^ 12).
  rewrite <- Z.land_ones by lia. rewrite <- Z.land_assoc. change (Z.land (Z.shiftl (Z.ones 40) 12) (Z.ones 12)) with 0.
  apply Z.land_0_r.
Qed.

Lemma addr_range e : 0 <= addr e < 2 ^ 52.
Proof.
  unfold addr. rewrite Z.land_comm. apply land_bound_l; [|lia]. by vm_compute.
Qed.

(** The entry of a table above the last level. *)
Definition dir_entry (t : Z) : Z := Z.lor (Z.lor t X86_PTE_PRESENT) X86_PTE_WRITE.

Section table.
Context t (Ht : (4096 | t)) (Hr : 0 <= t < 2 ^ 52).

Lemma low_bit k : 0 <= k < 12 \/ 52 <= k -> Z.testbit t k = false.
Proof.
  intros Hk. rewrite <- (addr_aligned t Ht Hr). unfold addr. rewrite Z.land_spec, X86_PTE_ADDR_shape.
  rewrite Z.shiftl_spec, Z.testbit_ones by lia.
  destruct (Z.leb_spec 0 (k - 12)), (Z.ltb_spec (k - 12) 40); try lia; apply andb_false_r.
Qed.

Lemma dir_entry_spec :
  present (dir_entry t) = true /\ directory (dir_entry t) = true /\ addr (dir_entry t) = t /\ is_u64 (dir_entry t).
Proof.
  unfold dir_entry, directory, present, writable, huge, no_exec. rewrite !Z.lor_spec, !low_bit by lia.
  split_and!; [done..| | |].
  - rewrite !addr_lor, addr_aligned by done. by rewrite !Z.lor_0_r.
  - apply Z.lor_nonneg. split; [apply Z.lor_nonneg; split; [lia|done]|done].
  - apply (lor_bound _ _ 64); [lia|apply (lor_bound _ _ 64); [lia..|done]|done].
Qed.
End table.

(** Granting access to users. *)
Lemma grant_user e :
  is_u64 e -> is_u64 (Z.lor e X86_PTE_USER) /\ present (Z.lor e X86_PTE_USER) = present e /\
  directory (Z.lor e X86_PTE_USER) = directory e /\ addr (Z.lor e X86_PTE_USER) = addr e /\ user (Z.lor e X86_PTE_USER) = true.
Proof.
  intros He. split_and!.
  - apply Z.lor_nonneg. split; [lia|done].
  - apply (lor_bound _ _ 64); [lia|done|done].
  - unfold present. rewrite Z.lor_spec. apply orb_false_r.
  - unfold directory, writable, huge, no_exec. rewrite !Z.lor_spec. change (Z.testbit X86_PTE_USER 1) with false.
    change (Z.testbit X86_PTE_USER 7) with false. change (Z.testbit X86_PTE_USER 63) with false. by rewrite !orb_false_r.
  - rewrite addr_lor. apply Z.lor_0_r.
  - unfold user. rewrite Z.lor_spec. apply orb_true_r.
Qed.

(** ** Flags *)

Lemma or_if_bit (b : bool) e x k : Z.testbit (if b then Z.lor e x else e) k = Z.testbit e k || (b && Z.testbit x k).
Proof. destruct b; [apply Z.lor_spec|by rewrite andb_false_l, orb_false_r]. Qed.

Lemma flag_set e k : 0 <= k -> negb (Z.land e (Z.shiftl 1 k) =? 0) = Z.testbit e k.
Proof. intros Hk. rewrite land_bit by done. apply negb_involutive. Qed.

(** The bits of an entry, as far as they are not the address. *)
Lemma entry_bit phys flags k : (4096 | phys) -> 0 <= phys < 2 ^ 52 -> 0 <= k < 12 \/ 52 <= k ->
  Z.testbit (entry_from_flags phys flags) k =
    Z.testbit X86_PTE_PRESENT k || (Z.testbit flags 0 && Z.testbit X86_PTE_WRITE k)
    || (Z.testbit flags 1 && Z.testbit X86_PTE_USER k) || (Z.testbit flags 3 && Z.testbit X86_PTE_GLOBAL k)
    || (Z.testbit flags 4 && Z.testbit (Z.lor X86_PTE_PCD X86_PTE_PWT) k)
    || (Z.testbit flags 5 && Z.testbit X86_PTE_OWNED k) || (negb (Z.testbit flags 2) && Z.testbit X86_PTE_NX k).
Proof.
  intros Ha Hp Hk. unfold entry_from_flags, NS_VMM_PAGE_WRITE, NS_VMM_PAGE_USER, NS_VMM_PAGE_GLOBAL, NS_VMM_PAGE_NOCACHE,
    NS_VMM_PAGE_OWNED, NS_VMM_PAGE_EXEC.
  rewrite !flag_set, land_bit by lia. rewrite !or_if_bit, Z.lor_spec. change (Z.land phys X86_PTE_ADDR) with (addr phys).
  rewrite addr_aligned, low_bit by done. done.
Qed.

Lemma entry_addr phys flags : (4096 | phys) -> 0 <= phys < 2 ^ 52 -> addr (entry_from_flags phys flags) = phys.
Proof.
  intros Ha Hp. unfold entry_from_flags. rewrite !addr_or_if by done. rewrite addr_lor.
  change (Z.land phys X86_PTE_ADDR) with (addr phys). rewrite addr_addr, addr_aligned by done. apply Z.lor_0_r.
Qed.

Lemma entry_u64 phys flags : is_u64 (entry_from_flags phys flags).
Proof.
  assert (Hor : forall (b : bool) e x, is_u64 e -> is_u64 x -> is_u64 (if b then Z.lor e x else e)).
  { intros [] e x He Hx; [by apply (lor_bound _ _ 64)|done]. }
  unfold entry_from_flags. repeat apply Hor; [|by vm_compute..].
  apply (lor_bound _ _ 64); [lia| |by vm_compute]. pose proof (addr_range phys). unfold addr in *. lia.
Qed.

Section entry.
Context (phys flags : Z) (Ha : (4096 | phys)) (Hp : 0 <= phys < 2 ^ 52).

Lemma entry_flags :
  let e := entry_from_flags phys flags in
  present e = true /\ writable e = Z.testbit flags 0 /\ user e = Z.testbit flags 1 /\ no_exec e = negb (Z.testbit flags 2) /\
  Z.testbit e 8 = Z.testbit flags 3 /\ Z.testbit e 4 = Z.testbit flags 4 /\ Z.testbit e 3 = Z.testbit flags 4 /\
  owned e = Z.testbit flags 5.
Proof.
  cbn zeta. unfold present, writable, user, no_exec, owned. rewrite !entry_bit by (done || lia).
  generalize (Z.testbit flags 0), (Z.testbit flags 1), (Z.testbit flags 2), (Z.testbit flags 3), (Z.testbit flags 4), (Z.testbit flags 5).
  by intros [] [] [] [] [] [].
Qed.
End entry.

Lemma flags_from_bits e :
  flags_from_entry e =
    (if writable e then 1 else 0) + (if user e then 2 else 0) + (if no_exec e then 0 else 4) +
    (if Z.testbit e 8 then 8 else 0) + (if Z.testbit e 4 || Z.testbit e 3 then 16 else 0) + (if owned e then 32 else 0).
Proof.
  unfold flags_from_entry. assert (E : negb (Z.land e (Z.lor X86_PTE_PCD X86_PTE_PWT) =? 0) = Z.testbit e 4 || Z.testbit e 3).
  { unfold X86_PTE_PCD, X86_PTE_PWT. rewrite Z.land_lor_distr_r. rewrite <- (flag_set e 4), <- (flag_set e 3) by lia.
    destruct (Z.eqb_spec (Z.land e (Z.shiftl 1 4)) 0) as [->|H4], (Z.eqb_spec (Z.land e (Z.shiftl 1 3)) 0) as [->|H3]; cbn;
      rewrite ?Z.lor_0_r, ?Z.lor_0_l; try (by apply negb_true_iff, Z.eqb_neq); [done|].
    apply negb_true_iff, Z.eqb_neq. intros [H _]%Z.lor_eq_0_iff. done. }
  rewrite E. unfold X86_PTE_WRITE, X86_PTE_USER, X86_PTE_NX, X86_PTE_GLOBAL, X86_PTE_OWNED, writable, user, no_exec, owned.
  rewrite !flag_set, land_bit by lia.
  generalize (Z.testbit e 1), (Z.testbit e 2), (Z.testbit e 63), (Z.testbit e 8), (Z.testbit e 4 || Z.testbit e 3), (Z.testbit e 9).
  by intros [] [] [] [] [] [].
Qed.

(** A number below 64 is the sum of its bits. *)
Lemma six_bits f : 0 <= f < 64 ->
  (if Z.testbit f 0 then 1 else 0) + (if Z.testbit f 1 then 2 else 0) + (if Z.testbit f 2 then 4 else 0) +
  (if Z.testbit f 3 then 8 else 0) + (if Z.testbit f 4 then 16 else 0) + (if Z.testbit f 5 then 32 else 0) = f.
Proof.
  intros Hf. assert (H : forallb (fun f => ((if Z.testbit f 0 then 1 else 0) + (if Z.testbit f 1 then 2 else 0) +
    (if Z.testbit f 2 then 4 else 0) + (if Z.testbit f 3 then 8 else 0) + (if Z.testbit f 4 then 16 else 0) +
    (if Z.testbit f 5 then 32 else 0) =? f)) (seqZ 0 64) = true) by (vm_compute; done).
  rewrite forallb_forall in H. apply Z.eqb_eq, H, list_elem_of_In, elem_of_seqZ. lia.
Qed.

Lemma flags_entry phys flags :
  (4096 | phys) -> 0 <= phys < 2 ^ 52 -> 0 <= flags < 64 -> flags_from_entry (entry_from_flags phys flags) = flags.
Proof.
  intros Ha Hp Hf. rewrite flags_from_bits. destruct (entry_flags phys flags Ha Hp) as (_ & -> & -> & -> & -> & -> & -> & ->).
  rewrite orb_diag. rewrite <- (six_bits flags Hf) at 7. by destruct (Z.testbit flags 2).
Qed.

(** ** Indices *)

Lemma table_index_div v l : 1 <= l -> table_index v l = v / 2 ^ (12 + (l - 1) * 9) mod 512.
Proof.
  intros Hl. unfold table_index. rewrite Z.shiftr_div_pow2 by lia. apply (land_mask _ 9). lia.
Qed.

Lemma table_index_range v l : 1 <= l -> 0 <= table_index v l < 512.
Proof. intros Hl. rewrite table_index_div by done. apply Z.mod_pos_bound. lia. Qed.

Definition is_page (virt : Z) : Prop := is_u64 virt /\ (4096 | virt) /\ canonical_address virt = true.

(** The path to the last-level table of an address. *)
Definition path (virt : Z) : list Z := [table_index virt 4; table_index virt 3; table_index virt 2].

Lemma indices_sum v : 0 <= v -> v mod 2 ^ 48 = v mod 4096 + 4096 * table_index v 1 + 2 ^ 21 * table_index v 2
  + 2 ^ 30 * table_index v 3 + 2 ^ 39 * table_index v 4.
Proof.
  intros Hv. rewrite !table_index_div by lia. change (12 + (1 - 1) * 9) with 12. change (12 + (2 - 1) * 9) with 21.
  change (12 + (3 - 1) * 9) with 30. change (12 + (4 - 1) * 9) with 39. change 4096 with (2 ^ 12).
  replace (2 ^ 48) with (2 ^ 12 * 512 * 512 * 512 * 512) by lia. rewrite !Z.rem_mul_r by lia.
  replace (2 ^ 21) with (2 ^ 12 * 512) by lia. replace (2 ^ 30) with (2 ^ 12 * 512 * 512) by lia.
  replace (2 ^ 39) with (2 ^ 12 * 512 * 512 * 512) by lia. rewrite <- !Z.div_div by lia. lia.
Qed.

Lemma canonical_low v : is_u64 v -> canonical_address v = true ->
  (v < 2 ^ 47 /\ v mod 2 ^ 48 = v) \/ (2 ^ 47 <= v mod 2 ^ 48 /\ v mod 2 ^ 48 = v - 0xffff * 2 ^ 48).
Proof.
  unfold canonical_address, NS_VMM_USER_TOP, NS_VMM_KERNEL_HALF_BASE. intros Hv [Hl%Z.ltb_lt|Hh%Z.leb_le]%orb_true_iff.
  - left. rewrite Z.mod_small by lia. lia.
  - right. assert (E : v mod 2 ^ 48 = v - 0xffff * 2 ^ 48); [|lia].
    symmetry. apply Z.mod_unique with 0xffff; lia.
Qed.

Lemma path_inj v w : is_page v -> is_page w -> path v = path w -> table_index v 1 = table_index w 1 -> v = w.
Proof.
  intros (Hv & Av & Cv) (Hw & Aw & Cw) [= E4 E3 E2] E1.
  pose proof (indices_sum v ltac:(lia)) as Sv. pose proof (indices_sum w ltac:(lia)) as Sw.
  rewrite <- E4, <- E3, <- E2, <- E1 in Sw. apply Z.mod_divide in Av, Aw; [|lia..]. rewrite Av in Sv. rewrite Aw in Sw.
  assert (E : v mod 2 ^ 48 = w mod 2 ^ 48) by lia. clear Sv Sw.
  destruct (canonical_low v Hv Cv), (canonical_low w Hw Cw); lia.
Qed.
