(* ===== verification/VmmProps.v ===== *)
(** * Page tables in memory

    The state as the tables [T] of an address space and the set [A] of frames the
    manager may write to; everything else in memory, and every frame in use by
    others, stays as it is in the environment [E].  A tree in [T] lies in frames
    of [A] that the direct map reaches. *)

From S2P Require Import Prelude Errno Bytes Pmm Frames Vmm VmmTree VmmBits.

(** What an operation leaves alone: the manager itself, the frames in use by
    others, the memory it started with, the number of frames and those reserved. *)
Record env (W : Type) := mk_env {
  e_obj : ns_vmm W; e_others : Z -> Prop; e_mem : gmap Z Z; e_frames : Z; e_reserved : list Z }.
Arguments mk_env {W}. Arguments e_obj {W}. Arguments e_others {W}. Arguments e_mem {W}. Arguments e_frames {W}.
Arguments e_reserved {W}.

Section vm.
Context {W : Type}.
Implicit Types (E : env W) (s : vstate W) (A : gset Z) (T : gmap Z (list Z)) (t phys virt : Z).

Definition base E : Z := direct_map_base (config (e_obj E)).
Definition size E : Z := direct_map_size (config (e_obj E)).

(** The frame in which the direct map has [x]. *)
Definition page_of E (x : Z) : Z := 4096 * ((x - base E) / 4096).
Definition in_page E t (x : Z) : Prop := base E + t <= x < base E + t + 4096.

(** The machine: tables are reached through the direct map, which is mapped and
    lies in the kernel half, in whole pages; physical addresses have 52 bits; the callbacks return. *)
Record machine E : Prop := {
  g_direct : phys_to_virt_fn (config (e_obj E)) = None;
  g_base : NS_VMM_KERNEL_HALF_BASE <= base E /\ (4096 | base E);
  g_size : 0 <= size E /\ base E + size E < 2 ^ 64;
  g_pages : (4096 | size E);
  g_mapped : forall x, base E <= x < base E + size E -> is_Some (e_mem E !! x);
  g_frames : e_frames E <= 2 ^ 40;
  g_invalidate : forall f context virt w, invalidate_page (config (e_obj E)) = Some f ->
    exists w', f context virt w = Some (tt, w');
  g_activate : forall f context root w, activate_root (config (e_obj E)) = Some f ->
    exists r w', f context root w = Some (r, w') }.

Definition row_at E (m : gmap Z Z) t (es : list Z) : Prop :=
  length es = 512%nat /\ Forall (fun e => is_u64 e) es /\
  forall i e, rd es i = Some e -> peek 8 m (base E + t + 8 * i) = Some e.

Record vm E A T s : Prop := {
  vm_object : object s = e_obj E;
  vm_owns : owns (e_frames E) (e_reserved E) (e_others E) A (pmm s);
  vm_quiet : forall x, x < base E \/ base E + size E <= x \/ e_others E (page_of E x) -> mem s !! x = e_mem E !! x;
  vm_mapped : same_mapped (e_mem E) (mem s);
  vm_tables : forall t es, T !! t = Some es -> t ∈ A /\ t + 4096 <= size E /\ row_at E (mem s) t es }.

Lemma vm_frame E A T s t : vm E A T s -> t ∈ A -> (4096 | t) /\ 0 <= t /\ ~ e_others E t.
Proof.
  intros V Ht. destruct (o_held _ _ _ _ _ (vm_owns _ _ _ _ V) t Ht) as (f & -> & Hf & _).
  split_and!; [by exists f; lia|lia|]. by apply (o_sep _ _ _ _ _ (vm_owns _ _ _ _ V)).
Qed.

Lemma page_of_in E t x : (4096 | t) -> in_page E t x -> page_of E x = t.
Proof.
  intros [q ->] Hx. unfold page_of, in_page in *.
  assert ((x - base E) / 4096 = q) as ->; [|lia]. symmetry. apply Z.div_unique with (x - base E - q * 4096); lia.
Qed.

Lemma pages_apart t u : (4096 | t) -> (4096 | u) -> t <> u -> t + 4096 <= u \/ u + 4096 <= t.
Proof. intros [q ->] [r ->] Hne. lia. Qed.

Lemma table_place E A T s t es : machine E -> vm E A T s -> T !! t = Some es ->
  t ∈ A /\ (4096 | t) /\ 0 <= t < 2 ^ 47 /\ t + 4096 <= size E /\ ~ e_others E t /\ length es = 512%nat /\ Forall (fun e => is_u64 e) es.
Proof.
  intros G V Ht. destruct (vm_tables _ _ _ _ V t es Ht) as (HA & Hs & Hl & Hu & _).
  destruct (vm_frame _ _ _ _ t V HA) as (Hd & H0 & Ho). pose proof (g_size E G). pose proof (g_base E G) as [Hb _].
  unfold NS_VMM_KERNEL_HALF_BASE in Hb. split_and!; try done; lia.
Qed.

(** *** Reading *)

Section read.
Context E (G : machine E).

Lemma wp_phys_to_virt A T s phys length Q : vm E A T s -> 0 <= phys -> 0 <= length ->
  (phys + length <= size E -> Q (base E + phys) s) -> (size E < phys + length -> Q 0 s) -> wp (phys_to_virt phys length) Q s.
Proof.
  intros V Hp Hl Hin Hout. unfold phys_to_virt, cget, vget. apply wp_bind, wp_gets. rewrite (vm_object _ _ _ _ V), (g_direct E G).
  apply wp_bind, wp_gets, wp_bind, wp_gets, wp_ret. rewrite (vm_object _ _ _ _ V). fold (base E) (size E).
  pose proof (g_size E G) as [Hs0 Hs]. pose proof (g_base E G) as [Hb _]. unfold NS_VMM_KERNEL_HALF_BASE in Hb.
  destruct (Z.ltb_spec (size E) phys); cbn [orb]; [apply Hout; lia|].
  destruct (Z.ltb_spec (size E - phys) length); cbn [orb]; [apply Hout; lia|].
  unfold UINT64_MAX. destruct (Z.ltb_spec (2 ^ 64 - 1 - phys) (base E)); [lia|]. rewrite u64_small by lia. apply Hin. lia.
Qed.

Lemma wp_table_pointer A T s t es Q : vm E A T s -> T !! t = Some es -> Q (base E + t) s -> wp (table_pointer t) Q s.
Proof.
  intros V Ht HQ. destruct (table_place _ _ _ _ _ _ G V Ht) as (_ & Hd & H0 & Hs & _). unfold table_pointer.
  rewrite page_mask. apply Z.mod_divide in Hd; [|lia]. unfold NS_PAGE_SIZE. rewrite Hd. cbn [Z.eqb negb].
  apply (wp_phys_to_virt A T); [done|lia|lia|done|lia].
Qed.

Lemma table_nonzero A T s t es : vm E A T s -> T !! t = Some es -> (base E + t =? 0) = false.
Proof.
  intros V Ht. destruct (table_place _ _ _ _ _ _ G V Ht) as (_ & _ & H0 & _). pose proof (g_base E G) as [Hb _].
  unfold NS_VMM_KERNEL_HALF_BASE in Hb. apply Z.eqb_neq. lia.
Qed.

Lemma wp_ld A T s t es i e Q : vm E A T s -> T !! t = Some es -> rd es i = Some e -> Q e s -> wp (ld 8 (entry_at (base E + t) i)) Q s.
Proof.
  intros V Ht Hr HQ. destruct (vm_tables _ _ _ _ V t es Ht) as (_ & _ & _ & _ & Hp).
  exists e, s. split; [|done]. unfold ld, entry_at. by rewrite (Hp i e Hr).
Qed.

(** *** Writing *)

(** Memory changes inside one page that the manager holds, which is no table. *)
Lemma vm_write A T s t m : vm E A T s -> t ∈ A -> T !! t = None ->
  (forall x, ~ in_page E t x -> m !! x = mem s !! x) -> same_mapped (mem s) m -> t + 4096 <= size E -> vm E A T (s <| mem := m |>).
Proof.
  intros V Ht Hn Hm Hs Hsz. destruct (vm_frame _ _ _ _ t V Ht) as (Hd & H0 & Ho). constructor; cbn; try apply V.
  - intros x Hx. rewrite Hm; [by apply V|]. intros Hin. rewrite (page_of_in E t x Hd Hin) in Hx. unfold in_page in Hin. naive_solver lia.
  - intros x. etransitivity; [apply Hs|apply V].
  - intros u es Hu. destruct (vm_tables _ _ _ _ V u es Hu) as (HA & Hus & Hl & Hu64 & Hp). split_and!; try done.
    split_and!; try done. intros i e Hr. rewrite <- (Hp i e Hr). apply rd_range in Hr as Hr'. apply peek_ext. intros x Hx. apply Hm.
    destruct (vm_frame _ _ _ _ u V HA) as (Hdu & _). assert (t <> u) by congruence.
    pose proof (pages_apart t u Hd Hdu H). unfold in_page. lia.
Qed.

(** Forgetting a table, and learning one. *)
Lemma vm_subset A T T' s : T' ⊆ T -> vm E A T s -> vm E A T' s.
Proof. intros Hs V. constructor; try apply V. intros t es Ht. apply V. by eapply lookup_weaken. Qed.

Lemma vm_learn A T s t es : vm E A T s -> t ∈ A -> t + 4096 <= size E -> row_at E (mem s) t es -> vm E A (<[t := es]> T) s.
Proof. intros V Ht Hs Hr. constructor; try apply V. intros u us [[<- <-]|[_ Hu]]%lookup_insert_Some; [done|by apply V]. Qed.

Lemma wp_st A T s t es i v Q : vm E A T s -> T !! t = Some es -> 0 <= i < 512 -> is_u64 v ->
  (forall s', vm E A (<[t := <[Z.to_nat i := v]> es]> T) s' -> Q tt s') -> wp (st 8 (entry_at (base E + t) i) v) Q s.
Proof.
  intros V Ht Hi Hv HQ. destruct (table_place _ _ _ _ _ _ G V Ht) as (HA & Hd & H0 & Hs & Ho & Hl & Hu).
  destruct (vm_tables _ _ _ _ V t es Ht) as (_ & _ & _ & _ & Hp).
  destruct (poke_spec 8 (mem s) (entry_at (base E + t) i) v) as (m & Em & Hpk & Hm1 & Hm2); [|done|].
  { intros x Hx. apply (vm_mapped _ _ _ _ V), (g_mapped E G). unfold entry_at in Hx. lia. }
  exists tt, (s <| mem := m |>). split; [unfold st; by rewrite Em|]. apply HQ.
  rewrite <- insert_delete_eq. apply vm_learn; [| |done|].
  - apply (vm_write A (delete t T) s t); try done; [|by rewrite lookup_delete_eq|].
    + apply (vm_subset A T); [apply delete_subseteq|done].
    + intros x Hx. apply Hm1. unfold entry_at, in_page in *. lia.
  - done.
  - cbn. split_and!; [by rewrite length_insert|by apply Forall_insert|]. intros j e Hr. rewrite rd_set in Hr by lia.
    destruct (decide (j = i)) as [->|Hne]; [injection Hr as <-; exact Hpk|]. rewrite <- (Hp j e Hr).
    apply rd_range in Hr. unfold entry_at in *. apply (peek_only _ _ _ _ (base E + t + 8 * i) 8); [by split|lia].
Qed.

Lemma vm_not_held A T s t : vm E A T s -> t ∉ A -> T !! t = None.
Proof. intros V Ht. destruct (T !! t) as [es|] eqn:Et; [|done]. by destruct (vm_tables _ _ _ _ V t es Et). Qed.

Lemma wp_zero_page A T s t Q : vm E A T s -> t ∈ A -> T !! t = None -> t + 4096 <= size E ->
  (forall m, vm E A T (s <| mem := m |>) -> (forall x, in_page E t x -> m !! x = Some 0) ->
     (forall x, ~ in_page E t x -> m !! x = mem s !! x) -> Q tt (s <| mem := m |>)) ->
  wp (bytes_zero (base E + t) NS_PAGE_SIZE) Q s.
Proof.
  intros V Ht Hn Hs HQ. destruct (vm_frame _ _ _ _ t V Ht) as (_ & H0 & _).
  assert (Hmap : forall x, in_page E t x -> is_Some (mem s !! x)).
  { intros x Hx. apply (vm_mapped _ _ _ _ V), (g_mapped E G). unfold in_page in Hx. lia. }
  destruct (store_bytes_spec (mem s) (base E + t) (replicate (Z.to_nat NS_PAGE_SIZE) 0)) as (m & Em & Hin & Hout);
    rewrite length_replicate in *; change (Z.of_nat (Z.to_nat NS_PAGE_SIZE)) with 4096 in *; [done|].
  assert (Hz : forall x, in_page E t x -> m !! x = Some 0).
  { intros x Hx. unfold in_page in Hx. specialize (Hin (Z.to_nat (x - (base E + t))) 0). rewrite Z2Nat.id in Hin by lia.
    replace (base E + t + (x - (base E + t))) with x in Hin by lia. apply Hin, lookup_replicate_2. unfold NS_PAGE_SIZE. lia. }
  assert (Ho : forall x, ~ in_page E t x -> m !! x = mem s !! x) by (intros x Hx; apply Hout; unfold in_page in Hx; lia).
  exists tt, (s <| mem := m |>). split; [unfold bytes_zero; by rewrite Em|]. apply HQ; [|done|done].
  apply (vm_write A T s t); try done. intros x. destruct (decide (base E + t <= x < base E + t + 4096)) as [Hx|Hx].
  - rewrite (Hz x Hx). split; [intros _; by apply Hmap|done].
  - rewrite Ho by done. done.
Qed.

(** *** Frames *)

Lemma vm_pmm A T A' s p : vm E A T s -> owns (e_frames E) (e_reserved E) (e_others E) A' p ->
  (forall t es, T !! t = Some es -> t ∈ A') -> vm E A' T (s <| pmm := p |>).
Proof.
  intros V Hp Hsub. constructor; cbn; try apply V; [done|]. intros t es Ht. split; [by eapply Hsub|]. by apply V.
Qed.

Lemma wp_pmm_free A T s t Q : vm E A T s -> t ∈ A -> T !! t = None ->
  (forall s', mem s' = mem s -> vm E (A ∖ {[t]}) T s' -> Q NS_PMM_OK s') -> wp (pmm_free t) Q s.
Proof.
  intros V Ht Hn HQ. destruct (free_page_owned _ _ _ _ _ t (vm_owns _ _ _ _ V) Ht) as (p & Ep & Hp).
  exists NS_PMM_OK, (s <| pmm := p |>). split; [unfold pmm_free, pmm_call; by rewrite Ep|]. apply HQ; [done|].
  apply (vm_pmm A); [done|done|]. intros u es Hu. apply elem_of_difference. split; [by apply (vm_tables _ _ _ _ V u es)|].
  intros ->%elem_of_singleton. congruence.
Qed.

Lemma wp_pmm_alloc A T s Q : vm E A T s ->
  (forall t s', t ∉ A -> ~ e_others E t -> mem s' = mem s -> vm E ({[t]} ∪ A) T s' -> Q (NS_PMM_OK, t) s') ->
  (forall t, Q (NS_PMM_ENOSPC, t) s) -> wp pmm_alloc Q s.
Proof.
  intros V HQ Hno. destruct (alloc_page_owned _ _ _ _ _ 0 (vm_owns _ _ _ _ V)) as [(p & t & Ep & Ht & Ho & Hp)|(t & Ep)].
  - exists (NS_PMM_OK, t), (s <| pmm := p |>). split; [unfold pmm_alloc; by rewrite Ep|]. apply HQ; try done.
    apply (vm_pmm A); [done|done|]. intros u es Hu. apply elem_of_union_r. by apply (vm_tables _ _ _ _ V u es).
  - exists (NS_PMM_ENOSPC, t), s. split; [|done]. unfold pmm_alloc. rewrite Ep. by destruct s.
Qed.

Lemma wp_pmm_reserved A T s phys Q : vm E A T s -> (4096 | phys) -> 0 <= phys < 4096 * e_frames E ->
  Q (bit (e_reserved E) (phys / 4096)) s -> wp (pmm_reserved phys) Q s.
Proof.
  intros V [f ->] Hp HQ. rewrite Z.div_mul in HQ by lia. eexists _, s. split; [|exact HQ].
  unfold pmm_reserved, pmm_call. rewrite (Z.mul_comm f), (reserved_owned _ _ _ _ _ f (vm_owns _ _ _ _ V)) by lia. by destruct s.
Qed.

Lemma zero_row m t : (forall x, in_page E t x -> m !! x = Some 0) -> row_at E m t (replicate 512 0).
Proof.
  intros Hz. split_and!; [by rewrite length_replicate|by apply Forall_replicate|]. intros i e [Hi Hr]%rd_lookup.
  apply lookup_replicate in Hr as [-> Hlt]. unfold peek.
  assert (El : load_bytes (length (replicate 8 0)) m (base E + t + 8 * i) = Some (replicate 8 0)).
  { apply load_bytes_list. intros j b [-> Hj]%lookup_replicate. apply Hz. unfold in_page. lia. }
  cbn [length replicate] in El. rewrite El. done.
Qed.

Lemma wp_allocate_table A T s Q : vm E A T s ->
  (forall t s', t ∉ A -> T !! t = None -> (4096 | t) -> 0 <= t < 2 ^ 52 ->
     vm E ({[t]} ∪ A) (<[t := replicate 512 0]> T) s' -> Q (NS_VMM_OK, (t, base E + t)) s') ->
  (forall r s', r = NS_VMM_ENOMEM \/ r = NS_VMM_ECORRUPT -> vm E A T s' -> Q (r, (0, 0)) s') -> wp allocate_table Q s.
Proof.
  intros V HQ Hno. unfold allocate_table. apply wp_bind, (wp_pmm_alloc A T); [done| |].
  2: { intros t. cbn. apply wp_ret, Hno; [by left|done]. }
  intros t s1 Ht _ _ V1. cbn [NS_PMM_OK Z.eqb negb]. apply wp_bind.
  assert (Hin : t ∈ {[t]} ∪ A) by set_solver. destruct (vm_frame _ _ _ _ t V1 Hin) as (Hd & H0 & _).
  pose proof (vm_not_held A T s t V Ht) as Hn. pose proof (g_base E G) as [Hb _]. pose proof (g_size E G) as [_ Hsz].
  unfold NS_VMM_KERNEL_HALF_BASE in Hb.
  unfold table_pointer. rewrite page_mask. apply Z.mod_divide in Hd as Hd'; [|lia]. unfold NS_PAGE_SIZE at 1. rewrite Hd'. cbn [Z.eqb negb].
  apply (wp_phys_to_virt ({[t]} ∪ A) T); [done|done|done| |].
  - intros Hs. unfold NS_PAGE_SIZE in Hs. rewrite (proj2 (Z.eqb_neq _ _)) by lia. apply wp_bind.
    apply (wp_zero_page ({[t]} ∪ A) T); try done. intros m V2 Hz _. apply wp_ret, HQ; try done; [lia|].
    apply vm_learn; [done|done|done|]. by apply zero_row.
  - intros _. cbn [Z.eqb]. apply wp_bind, (wp_pmm_free ({[t]} ∪ A) T); try done. intros s2 _ V2. apply wp_ret, Hno; [by right|].
    by replace (({[t]} ∪ A) ∖ {[t]}) with A in V2 by set_solver.
Qed.

(** *** The manager *)

Lemma vm_world A T s w : vm E A T s -> vm E A T (s <| world := w |>).
Proof. intros V. constructor; apply V. Qed.

Lemma wp_invalidate A T s sp virt Q : vm E A T s -> (forall w, vm E A T (s <| world := w |>) -> Q tt (s <| world := w |>)) ->
  wp (invalidate sp virt) Q s.
Proof.
  intros V HQ. assert (HQ0 : Q tt s).
  { specialize (HQ (world s)). destruct s; cbn in *. by apply HQ. }
  unfold invalidate, cget, vget. apply wp_bind, wp_gets. rewrite (vm_object _ _ _ _ V).
  destruct (invalidate_page (config (e_obj E))) as [f|] eqn:Ef; [|by apply wp_ret].
  apply wp_bind, wp_gets. destruct (_ =? _); [|by apply wp_ret]. apply wp_bind, wp_gets, wp_zoom.
  destruct (g_invalidate E G f (callback_context (config (object s))) virt (world s) Ef) as [w Ew].
  exists tt, w. split; [done|]. by apply HQ, vm_world.
Qed.
End read.
End vm.
