(* ===== verification/VmmWalk.v ===== *)
(** * Creating the tables of an address

    [walk_create_leaf] either reaches the last-level table of the address, having
    created the tables on the way that were missing, or takes back every table it
    created; the pages that are mapped stay the same. *)

From S2P Require Import Prelude Errno Bytes Pmm Frames Vmm VmmTree VmmBits VmmProps.

Lemma test_present e : (Z.land e X86_PTE_PRESENT =? 0) = negb (present e).
Proof. by apply land_bit. Qed.
Lemma test_huge e : (Z.land e X86_PTE_HUGE =? 0) = negb (huge e).
Proof. by apply land_bit. Qed.
Lemma test_owned e : (Z.land e X86_PTE_OWNED =? 0) = negb (owned e).
Proof. by apply land_bit. Qed.
Lemma test_user e : (Z.land e X86_PTE_USER =? 0) = negb (user e).
Proof. by apply land_bit. Qed.
Lemma test_page_user f : (Z.land f NS_VMM_PAGE_USER =? 0) = negb (Z.testbit f 1).
Proof. by apply land_bit. Qed.

Lemma directory_not_huge e : directory e = true -> huge e = false.
Proof. unfold directory. by destruct (huge e), (writable e), (no_exec e). Qed.

Lemma path_take n virt : (1 <= n <= 3)%nat ->
  take (S (3 - n)) (path virt) = take (3 - n) (path virt) ++ [table_index virt (Z.of_nat n + 1)].
Proof. intros Hn. by destruct n as [|[|[|[|]]]]; [lia|..|lia]. Qed.

Section walk.
Context {W : Type} (E : env W) (G : machine E) (slots : Z -> Prop) (root : Z).
Implicit Types (s : vstate W) (A D : gset Z) (T : gmap Z (list Z)) (t virt flags : Z) (p q : list Z).
Abbreviation tree := (tree slots root).
Abbreviation path_ok := (path_ok slots).

(** The same pages are mapped. *)
Definition same_leaves T T' : Prop := forall q j, path_ok q -> length q = 3%nat -> leaf T' root q j = leaf T root q j.

(** The frames held are the tables and the pages [D]. *)
Definition held A T D : Prop := A = dom T ∪ D /\ D ## dom T.

Definition full T : Prop := full_but root root T.

Lemma same_leaves_trans T1 T2 T3 : same_leaves T1 T2 -> same_leaves T2 T3 -> same_leaves T1 T3.
Proof. intros H1 H2 q j Hq Hl. by rewrite H2, H1. Qed.

(** Every entry on the way grants access to users. *)
Definition granted T p : Prop := forall p0 i r d, p = p0 ++ i :: r -> slot T root p0 i = Some d -> user d = true.

(** How the tables in [created] can be taken back: the newest one is empty. *)
Fixpoint undo_ok (A0 : gset Z) T0 created p t T A : Prop :=
  match created with
  | [] => A = A0 /\ full T /\ same_leaves T0 T /\ dom T = dom T0
  | (ent, c) :: rest =>
    exists p' i t' es d, c = t /\ p = p' ++ [i] /\ path_ok p' /\ index_ok slots p' i /\ (length p' < 3)%nat /\
      ent = entry_at (base E + t') i /\ follow T root p' = Some t' /\ T !! t' = Some es /\ rd es i = Some d /\ present d = true /\
      addr d = t /\ T !! t = Some (replicate 512 0) /\ t ∈ A /\
      undo_ok A0 T0 rest p' t' (delete t (<[t' := <[Z.to_nat i := 0]> es]> T)) (A ∖ {[t]})
  end.

Lemma zeros_empty j e : rd (replicate 512 0) j = Some e -> present e = false.
Proof. intros [_ [-> _]%lookup_replicate]%rd_lookup. done. Qed.

Lemma wp_undo A0 T0 created p t T A s Q : vm E A T s -> tree T -> undo_ok A0 T0 created p t T A ->
  (forall T' s', vm E A0 T' s' -> tree T' -> full T' -> same_leaves T0 T' -> dom T' = dom T0 -> Q tt s') -> wp (undo_created created) Q s.
Proof.
  revert p t T A s. induction created as [|[ent c] rest IH]; intros p t T A s V HT Hu HQ; cbn [undo_created undo_ok] in *.
  - destruct Hu as (-> & Hf & Hl & Hd). by apply wp_ret, (HQ T).
  - destruct Hu as (p' & i & t' & es & d & -> & -> & Hp & Hi & Hlen & -> & Hf & He & Hr & Hd & Ha & Hz & HA & Hu).
    pose proof (prune_tree slots root T HT p' t' es i d t (replicate 512 0) Hp Hi Hlen Hf He Hr Hd Ha Hz zeros_empty) as HT'.
    pose proof Hi as [Hi0 _]. apply wp_bind, (wp_st E G A T s t' es); [done|done|done|done|]. intros s1 V1.
    apply wp_bind. apply (vm_subset E A _ _ _ (delete_subseteq _ t)) in V1.
    apply (wp_pmm_free E A _ s1 t _ V1 HA); [by rewrite lookup_delete_eq|]. intros s2 _ V2. by eapply IH.
Qed.

(** *** One level *)

Section grow.
Context A0 T0 (created : list (Z * Z)) p t es i d c T A D
  (HT : tree T) (Hp : path_ok p) (Hi : index_ok slots p i) (Hl : (length p < 3)%nat) (Hf : follow T root p = Some t)
  (He : T !! t = Some es) (Hd : present d = true) (Hdir : directory d = true) (Ha : addr d = c) (Hc : c ∉ A)
  (Habs : forall e, rd es i = Some e -> present e = false) (HA : held A T D).
Let T' := <[t := <[Z.to_nat i := d]> es]> (<[c := replicate 512 0]> T).

Lemma grow_fresh : T !! c = None.
Proof. apply not_elem_of_dom. destruct HA as [-> _]. set_solver. Qed.

Lemma grow_held : held ({[c]} ∪ A) T' D.
Proof.
  destruct HA as [EA HD]. unfold T'. split; rewrite !dom_insert_L;
    assert (t ∈ dom T) by (by apply elem_of_dom_2 in He); [subst A; set_solver|].
  assert (c ∉ D) by set_solver. set_solver.
Qed.

Lemma grow_full : full_but root t T -> full_but root c T'.
Proof.
  intros Hfull u us Hu Hr Hne. unfold T' in Hu. apply lookup_insert_Some in Hu as [[<- <-]|[Hnt Hu]].
  - exists i, d. split; [|done]. apply rd_insert_eq. destruct Hi as [? _]. rewrite (tr_len _ _ _ HT t es He). lia.
  - rewrite lookup_insert_ne in Hu by done. by apply (Hfull u us).
Qed.

Lemma grow_granted : granted T p -> user d = true -> granted T' (p ++ [i]).
Proof.
  intros Hg Hu p0 i0 r d0 Eq Es. pose proof grow_fresh as Hn.
  destruct (grow_slots slots root T HT p t es i d c Hp Hi Hl Hf He Hd Hdir Ha Hn Habs p0 i0 d0) as [(_ & _ & ->)|[[-> _]|Es']]; [|done|done| |].
  - eapply (path_split slots p0 i0 r). rewrite <- Eq. by apply path_snoc.
  - exfalso. apply (f_equal length) in Eq. rewrite !length_app in Eq. cbn in Eq. lia.
  - destruct r as [|j r _] using rev_ind.
    + apply app_inj_tail in Eq as [-> ->]. apply slot_Some in Es' as (u & us & E1 & E2 & E3).
      assert (Hs : slot T' root p0 i0 = Some d).
      { unfold T'. rewrite (grow_slot slots root T HT p0 t es i0 d c Hp Hi Hl Hf He Hn p0 i0 t), decide_True; try done.
        - by destruct Hi.
        - apply (grow_follow slots root T HT p0 t es i0 d c); try done. by left. }
      congruence.
    + change (i0 :: r ++ [j]) with ((i0 :: r) ++ [j]) in Eq. rewrite app_assoc in Eq. apply app_inj_tail in Eq as [Eq _]. by eapply Hg.
Qed.

Lemma grow_back : delete c (<[t := <[Z.to_nat i := 0]> (<[Z.to_nat i := d]> es)]> T') = <[t := <[Z.to_nat i := 0]> es]> T.
Proof.
  pose proof grow_fresh. unfold T'. rewrite insert_insert_eq, list_insert_insert_eq, delete_insert_ne by congruence.
  by rewrite delete_insert_id.
Qed.

Lemma grow_undo : undo_ok A0 T0 created p t T A ->
  undo_ok A0 T0 ((entry_at (base E + t) i, c) :: created) (p ++ [i]) c T' ({[c]} ∪ A).
Proof.
  intros Hu. pose proof grow_fresh as Hn. pose proof Hi as [Hi0 _]. assert (Hlen := tr_len _ _ _ HT t es He).
  assert (Htc : t <> c) by congruence. cbn [undo_ok].
  assert (Hzc : T' !! c = Some (replicate 512 0)) by (unfold T'; by rewrite lookup_insert_ne, lookup_insert_eq).
  assert (Ht' : T' !! t = Some (<[Z.to_nat i := d]> es)) by apply lookup_insert_eq.
  assert (Hr : rd (<[Z.to_nat i := d]> es) i = Some d) by (apply rd_insert_eq; lia).
  assert (Hf' : follow T' root p = Some t) by (apply (grow_follow slots root T HT p t es i d c); try done; by left).
  exists p, i, t, (<[Z.to_nat i := d]> es), d. split_and!; try done; [set_solver|]. rewrite grow_back.
  replace (({[c]} ∪ A) ∖ {[c]}) with A by set_solver.
  destruct created as [|[ent c0] rest]; cbn [undo_ok] in *.
  - destruct Hu as (EA & Hfull & Hsame & Hdom). split_and!; [done| | |].
    + intros u us [[<- <-]|[Hne E2]]%lookup_insert_Some Hr1 Hr2; [|by apply (Hfull u us)].
      destruct (Hfull t es He Hr1 Hr2) as (j & e & Hj & Hpe). exists j, e. split; [|done]. rewrite rd_set by lia.
      rewrite decide_False; [done|]. intros ->. rewrite (Habs e Hj) in Hpe. done.
    + pose proof (grow_tree slots root T HT p t es i d c Hp Hi Hl Hf He Hd Hdir Ha Hn Habs) as HT'. fold T' in HT'.
      intros q j Hq Hq3. rewrite <- Hsame by done. rewrite <- grow_back.
      rewrite (prune_leaf slots root T' HT' p t (<[Z.to_nat i := d]> es) i d c (replicate 512 0)); try done; [|exact zeros_empty].
      unfold T'. by apply (grow_leaf slots root T HT p t es i d c).
    + rewrite dom_insert_L, <- Hdom. apply elem_of_dom_2 in He. set_solver.
  - destruct Hu as (p' & i' & t' & es' & d' & -> & Hu). pose proof Hu as (_ & _ & _ & _ & _ & _ & _ & _ & _ & _ & Hz & _).
    assert (es = replicate 512 0) as -> by congruence. rewrite insert_replicate, insert_id by done.
    exists p', i', t', es', d'. done.
Qed.
End grow.

(** The link to the new table is written, with the user bit if need be. *)
Lemma wp_link A T s t es i e0 v flags Q : vm E A T s -> T !! t = Some es -> 0 <= i < 512 -> is_u64 v ->
  (forall s', vm E A (<[t := <[Z.to_nat i := if Z.testbit flags 1 then Z.lor v X86_PTE_USER else v]> es]> T) s' -> Q tt s') ->
  e0 = entry_at (base E + t) i ->
  wp (st 8 e0 v;; when (negb (Z.land flags NS_VMM_PAGE_USER =? 0)) (e ← ld 8 e0; st 8 e0 (Z.lor e X86_PTE_USER))) Q s.
Proof.
  intros V He Hi Hv HQ ->. destruct (table_place _ _ _ _ _ _ G V He) as (_ & _ & _ & _ & _ & Hlen & _).
  apply wp_bind, (wp_st E G A T s t es); try done. intros s1 V1. rewrite test_page_user, negb_involutive.
  destruct (Z.testbit flags 1); cbn [when]; [|by apply wp_ret, HQ].
  apply wp_bind. eapply (wp_ld E); [exact V1|apply lookup_insert_eq|apply rd_insert_eq; lia|].
  eapply (wp_st E G); [exact V1|apply lookup_insert_eq|done|by apply grant_user|].
  intros s2 V2. apply HQ. by rewrite insert_insert_eq, list_insert_insert_eq in V2.
Qed.

(** *** The walk *)

(** The walk has come to the table [t] at the end of [p]. *)
Record walked A0 T0 D flags created p t T A s : Prop := {
  w_vm : vm E A T s;
  w_tree : tree T;
  w_path : path_ok p;
  w_follow : follow T root p = Some t;
  w_held : held A T D;
  w_undo : undo_ok A0 T0 created p t T A;
  w_full : full_but root t T;
  w_same : same_leaves T0 T;
  w_granted : Z.testbit flags 1 = true -> granted T p }.

(** What a failed walk leaves behind. *)
Definition undone A0 T0 s : Prop := exists T, vm E A0 T s /\ tree T /\ full T /\ same_leaves T0 T /\ dom T = dom T0.

Definition new_entry flags (c : Z) : Z := if Z.testbit flags 1 then Z.lor (dir_entry c) X86_PTE_USER else dir_entry c.

Lemma new_entry_spec flags c : (4096 | c) -> 0 <= c < 2 ^ 52 ->
  present (new_entry flags c) = true /\ directory (new_entry flags c) = true /\ addr (new_entry flags c) = c /\
  (Z.testbit flags 1 = true -> user (new_entry flags c) = true).
Proof.
  intros Hd Hc. destruct (dir_entry_spec c Hd Hc) as (H1 & H2 & H3 & H4). unfold new_entry.
  destruct (Z.testbit flags 1); [|done]. destruct (grant_user _ H4) as (_ & -> & -> & -> & ->). done.
Qed.

Lemma walked_grow A0 T0 D flags created p t es i c T A s s' :
  walked A0 T0 D flags created p t T A s -> index_ok slots p i -> (length p < 3)%nat -> T !! t = Some es ->
  (forall e, rd es i = Some e -> present e = false) -> c ∉ A -> (4096 | c) -> 0 <= c < 2 ^ 52 ->
  vm E ({[c]} ∪ A) (<[t := <[Z.to_nat i := new_entry flags c]> es]> (<[c := replicate 512 0]> T)) s' ->
  walked A0 T0 D flags ((entry_at (base E + t) i, c) :: created) (p ++ [i]) c
    (<[t := <[Z.to_nat i := new_entry flags c]> es]> (<[c := replicate 512 0]> T)) ({[c]} ∪ A) s'.
Proof.
  intros [V HT Hp Hf HA Hu Hfull Hs Hg] Hi Hl He Habs Hc Hcd Hcr V'.
  destruct (new_entry_spec flags c Hcd Hcr) as (Hd1 & Hd2 & Hd3 & Hd4).
  assert (Hn : T !! c = None) by by apply (grow_fresh p t es i (new_entry flags c) c T A D).
  assert (Hpi : path_ok (p ++ [i])) by by apply path_snoc. constructor.
  - done.
  - by apply (grow_tree slots root T HT p t es i _ c).
  - done.
  - apply (grow_follow slots root T HT p t es i _ c); try done. by right.
  - by apply (grow_held p t es i _ c T A D).
  - by apply (grow_undo A0 T0 created p t es i _ c T A D).
  - by apply (grow_full p t es i _ c T).
  - eapply same_leaves_trans; [done|]. intros q j Hq Hq3. by apply (grow_leaf slots root T HT p t es i _ c).
  - intros Hflag. apply (grow_granted p t es i _ c T A D); auto.
Qed.

Lemma walked_permit A0 T0 D flags p t es i d T A s s' :
  walked A0 T0 D flags [] p t T A s -> index_ok slots p i -> (length p < 3)%nat -> T !! t = Some es ->
  rd es i = Some d -> present d = true -> is_u64 d -> let d' := if Z.testbit flags 1 then Z.lor d X86_PTE_USER else d in
  vm E A (<[t := <[Z.to_nat i := d']> es]> T) s' ->
  walked A0 T0 D flags [] (p ++ [i]) (addr d) (<[t := <[Z.to_nat i := d']> es]> T) A s'.
Proof.
  intros [V HT Hp Hf HA Hu Hfull Hs Hg] Hi Hl He Hr Hd Hd64 d' V'. cbn [undo_ok] in Hu. destruct Hu as (EA & Hfull' & _ & Hdom).
  assert (Hpi : path_ok (p ++ [i])) by by apply path_snoc.
  assert (Hdir : directory d = true) by (eapply (tr_dir _ _ _ HT p i); try done; apply slot_Some; eauto).
  assert (Hd' : present d' = true /\ directory d' = true /\ addr d' = addr d /\ (user d = true -> user d' = true) /\
                (Z.testbit flags 1 = true -> user d' = true)).
  { unfold d'. destruct (Z.testbit flags 1); [|done]. by destruct (grant_user d Hd64) as (_ & -> & -> & -> & ->). }
  destruct Hd' as (Hd1 & Hd2 & Hd3 & Hd4 & Hd5). set (T' := <[t := <[Z.to_nat i := d']> es]> T) in *.
  assert (HT' : tree T') by by apply (permit_tree slots root T HT p t es i d).
  assert (Hsame : same_leaves T0 T').
  { eapply same_leaves_trans; [done|]. intros q j Hq Hq3. by apply (permit_leaf slots root T HT p t es i d). }
  assert (HfT' : full T').
  { intros u us [[<- <-]|[_ E2]]%lookup_insert_Some Hr1 Hr2; [|by eapply Hfull']. exists i, d'. split; [|done].
    apply rd_insert_eq. rewrite (tr_len _ _ _ HT t es He). destruct Hi. lia. }
  assert (HdomT : dom T' = dom T) by (unfold T'; rewrite dom_insert_L; apply elem_of_dom_2 in He; set_solver).
  constructor; try done.
  - rewrite (permit_follow slots root T HT p t es i d d') by done. apply follow_snoc. exists d. split; [apply slot_Some; eauto|done].
  - unfold held. by rewrite HdomT.
  - cbn [undo_ok]. split_and!; [done..|congruence].
  - intros u us Hu' Hr1 _. by eapply HfT'.
  - intros Hflag p0 i0 r d0 Eq Es. destruct (path_split slots p0 i0 r) as (Hp0 & [Hi0 _] & _); [by rewrite <- Eq|].
    unfold T' in Es. rewrite (permit_slot slots root T HT p t es i d d') in Es by done.
    destruct (decide _) as [_|Hne]; [injection Es as <-; by apply Hd5|]. destruct r as [|j r _] using rev_ind.
    + apply app_inj_tail in Eq as [-> ->]. tauto.
    + change (i0 :: r ++ [j]) with ((i0 :: r) ++ [j]) in Eq. rewrite app_assoc in Eq.
      apply app_inj_tail in Eq as [Eq _]. by eapply Hg.
Qed.

(** The entry gets the user bit when the page is for users. *)
Lemma wp_grant A T s t es i d flags : vm E A T s -> T !! t = Some es -> 0 <= i < 512 -> rd es i = Some d -> is_u64 d ->
  wp (when (negb (Z.land flags NS_VMM_PAGE_USER =? 0)) (st 8 (entry_at (base E + t) i) (Z.lor d X86_PTE_USER)))
    (fun _ s' => vm E A (<[t := <[Z.to_nat i := if Z.testbit flags 1 then Z.lor d X86_PTE_USER else d]> es]> T) s') s.
Proof.
  intros V He Hi Hr Hd. rewrite test_page_user, negb_involutive. destruct (Z.testbit flags 1); cbn [when].
  - apply (wp_st E G A T s t es); auto. by apply grant_user.
  - apply wp_ret. apply rd_lookup in Hr as [_ Hr']. by rewrite list_insert_id, insert_id.
Qed.

(** Below an entry that is not present nothing is mapped. *)
Lemma absent_leaf T virt n p i d j : p ++ [i] = take (3 - n) (path virt) -> slot T root p i = Some d -> present d = false ->
  leaf T root (path virt) j = None.
Proof.
  intros Epi Hsd Hd. destruct (leaf T root (path virt) j) as [e|] eqn:Ej; [exfalso|done].
  apply leaf_Some in Ej as [Ej _]. rewrite <- (take_drop (3 - n) (path virt)), <- Epi, <- app_assoc in Ej.
  destruct (slot_above _ _ _ _ _ _ _ Ej) as (d' & Hd' & Hpd'). congruence.
Qed.

Lemma wp_create_loop A0 T0 D flags virt n created p t T A s Q :
  (n <= 3)%nat -> p = take (3 - n) (path virt) -> path_ok (path virt) -> walked A0 T0 D flags created p t T A s ->
  (forall created' t' T' A' s', walked A0 T0 D flags created' (path virt) t' T' A' s' ->
     Q (NS_VMM_OK, entry_at (base E + t') (table_index virt 1)) s') ->
  (forall r s', r = NS_VMM_ENOMEM \/ r = NS_VMM_ECORRUPT -> undone A0 T0 s' -> (forall j, leaf T0 root (path virt) j = None) ->
     Q (r, 0) s') ->
  wp (create_loop n virt flags (base E + t) created) Q s.
Proof.
  revert created p t T A s. induction n as [|n IH]; intros created p t T A s Hn Ep Hpv H HQ Hno.
  { apply wp_ret, (HQ created t T A s). by subst p. }
  cbn [create_loop]. pose proof H as [V HT Hp Hf HA Hu Hfull Hs Hg].
  assert (Hlen : (length p < 3)%nat) by (subst p; rewrite length_take; cbn; lia).
  set (i := table_index virt (Z.of_nat (S n) + 1)). assert (Epi : p ++ [i] = take (3 - n) (path virt)).
  { subst p. rewrite <- path_take by lia. f_equal. lia. }
  assert (Hpi : path_ok (p ++ [i])).
  { rewrite Epi. destruct Hpv as (_ & H2 & H3). split_and!; [rewrite length_take; cbn; lia|by apply Forall_take|].
    destruct (3 - n)%nat eqn:?; [lia|done]. }
  apply path_snoc in Hpi as (_ & Hi & _). pose proof Hi as [Hi0 _].
  destruct (tr_table _ _ _ HT p t Hp Hf) as [es He]. destruct (tree_slot slots root T HT p t es i Hp Hf He Hi0) as (d & Hsd & Hr).
  destruct (table_place _ _ _ _ _ _ G V He) as (_ & _ & _ & _ & _ & _ & H64).
  assert (Hd64 : is_u64 d). { apply rd_lookup in Hr as [_ Hr]. by eapply (Forall_lookup_1 (fun e => is_u64 e)). }
  apply wp_bind, (wp_ld E A T s t es i d); [done..|]. rewrite test_present. destruct (present d) eqn:Hd; cbn [negb].
  - assert (created = []) as ->.
    { destruct created as [|[ent c] rest]; [done|]. cbn [undo_ok] in Hu.
      destruct Hu as (? & ? & ? & ? & ? & _ & _ & _ & _ & _ & _ & _ & _ & _ & _ & _ & Hz & _).
      assert (es = replicate 512 0) by congruence. subst es. by rewrite (zeros_empty i d Hr) in Hd. }
    rewrite test_huge, (directory_not_huge d) by (by eapply (tr_dir _ _ _ HT p i)). cbn [negb].
    set (d' := if Z.testbit flags 1 then Z.lor d X86_PTE_USER else d).
    apply wp_bind. eapply wp_mono; [by apply (wp_grant A T s t es i d)|]. cbn beta. fold d'. intros _ s1 V1.
    pose proof (walked_permit A0 T0 D flags p t es i d T A s s1 H Hi Hlen He Hr Hd Hd64 V1) as H1.
    apply wp_bind. eapply (wp_ld E); [exact V1|apply lookup_insert_eq|apply rd_insert_eq; rewrite (tr_len _ _ _ HT t es He); lia|].
    assert (Ead : Z.land d' X86_PTE_ADDR = addr d).
    { unfold d'. destruct (Z.testbit flags 1); [|done]. by apply grant_user. }
    rewrite Ead. destruct (tr_table _ _ _ (w_tree _ _ _ _ _ _ _ _ _ _ H1) _ _ (w_path _ _ _ _ _ _ _ _ _ _ H1) (w_follow _ _ _ _ _ _ _ _ _ _ H1)) as [ces Hces].
    apply wp_bind. eapply (wp_table_pointer E G); [exact V1|exact Hces|]. rewrite (table_nonzero E G _ _ _ _ _ V1 Hces).
    eapply (IH [] (p ++ [i]) (addr d)); [lia|done|done|exact H1|done|done].
  - apply wp_bind, (wp_allocate_table E G A T); [done| |].
    + intros c s1 Hc Hcn Hcd Hcr V1. cbn [NS_VMM_OK Z.eqb negb].
      destruct (dir_entry_spec c Hcd Hcr) as (_ & _ & _ & H64c).
      assert (Htc : t <> c) by congruence.
      apply (wp_assoc (st 8 (entry_at (base E + t) i) (dir_entry c))). apply wp_bind.
      eapply (wp_link ({[c]} ∪ A)); [exact V1|by rewrite lookup_insert_ne|done|done| |done]. intros s2 V2.
      eapply (IH _ (p ++ [i]) c); [lia|done|done| |done|done].
      eapply (walked_grow A0 T0 D flags created p t es i c T A s s2); try done. intros e He'. congruence.
    + intros r s1 Hr1 V1. assert ((r =? NS_VMM_OK) = false) as -> by (by destruct Hr1 as [-> | ->]). cbn [negb].
      apply wp_bind, (wp_undo A0 T0 created p t T A); [done..|]. intros T' s2 V2 HT2 Hf2 Hs2 Hd2. apply wp_ret, Hno; [done|by exists T'|].
      intros j. rewrite <- Hs by done. by apply (absent_leaf T virt n p i d).
Qed.
End walk.
