(* ===== verification/VmmOps.v ===== *)
(** * One page

    Mapping, unmapping, protecting and translating a page of an address space. *)

From S2P Require Import Prelude Errno Bytes Pmm Frames Vmm VmmTree VmmBits VmmProps VmmWalk.

Section ops.
Context {W : Type} (E : env W) (G : machine E) (slots : Z -> Prop) (root : Z).
Implicit Types (s : vstate W) (A D : gset Z) (T : gmap Z (list Z)) (t virt phys flags : Z) (p q : list Z).
Abbreviation tree := (tree slots root).
Abbreviation path_ok := (path_ok slots).
Abbreviation same_leaves := (same_leaves slots root).
Abbreviation full := (full root).

(** The entry of a page. *)
Definition maps T virt : option Z := leaf T root (path virt) (table_index virt 1).

Definition is_mapped T virt : bool := match maps T virt with Some _ => true | None => false end.

(** An address space: its tables, next to the pages [D], are all that is held, and
    no table is empty. *)
Record space D T s : Prop := {
  sp_vm : vm E (dom T ∪ D) T s;
  sp_disjoint : D ## dom T;
  sp_tree : tree T;
  sp_full : full T }.

(** A page in the part of the address space that [T] describes. *)
Definition page_here virt : Prop := is_page virt /\ slots (table_index virt 4).

Lemma path_here virt : page_here virt -> path_ok (path virt) /\ length (path virt) = 3%nat.
Proof.
  intros [_ Hs]. split; [|done]. split_and!; [cbn; lia|repeat constructor; by apply table_index_range|done].
Qed.

(** Updating the entry of a page leaves the others alone. *)
Lemma maps_update T t es virt v virt' : tree T -> page_here virt -> page_here virt' ->
  follow T root (path virt) = Some t -> T !! t = Some es ->
  maps (<[t := <[Z.to_nat (table_index virt 1) := v]> es]> T) virt' =
    if decide (virt' = virt) then (if present v then Some v else None) else maps T virt'.
Proof.
  intros HT Hv Hv' Hf He. destruct (path_here _ Hv) as [Hp Hl], (path_here _ Hv') as [Hp' Hl'].
  assert (Hi : forall w, 0 <= table_index w 1 < 512) by (intros w; by apply table_index_range).
  unfold maps, leaf. rewrite (leaf_slot slots root T HT (path virt) t es) by done. destruct (decide (virt' = virt)) as [->|Hne].
  - by rewrite decide_True.
  - rewrite decide_False; [done|]. intros [H1 H2]. apply Hne. apply path_inj; [apply Hv'|apply Hv|done|done].
Qed.

Lemma maps_same T T' virt : same_leaves T T' -> page_here virt -> maps T' virt = maps T virt.
Proof. intros Hs Hv. destruct (path_here _ Hv). by apply Hs. Qed.

(** *** Mapping *)

(** Why a request is refused, whatever memory there is. *)
Definition map_refused (owns_root0 : Z) virt phys flags (mapped : bool) : option Z :=
  if negb (Z.land phys (NS_PAGE_SIZE - 1) =? 0) || (4096 * e_frames E <=? phys) then Some NS_VMM_EINVAL
  else if negb (owns_root0 =? 0) && (NS_VMM_KERNEL_HALF_BASE <=? virt) then Some NS_VMM_EPERM
  else if Z.testbit flags 1 && ((NS_VMM_USER_TOP <=? virt) || bit (e_reserved E) (phys / 4096)) then Some NS_VMM_EPERM
  else if mapped then Some NS_VMM_EEXIST else None.

Definition out_of_memory (r : Z) : Prop := r = NS_VMM_ENOMEM \/ r = NS_VMM_ECORRUPT.

(** What mapping a page gives. *)
Definition mapped_page D T (sp : ns_vmm_space) virt phys flags (r : Z) s : Prop :=
  exists T', space D T' s /\
    match map_refused (owns_root sp) virt phys flags (is_mapped T virt) with
    | Some r0 => r = r0 /\ same_leaves T T' /\ dom T' = dom T
    | None =>
      (r = NS_VMM_OK /\ forall virt', page_here virt' ->
         maps T' virt' = if decide (virt' = virt) then Some (entry_from_flags phys flags) else maps T virt') \/
      (out_of_memory r /\ same_leaves T T' /\ dom T' = dom T)
    end.

Lemma page_ok virt : is_page virt ->
  canonical_address virt = true /\ (Z.land virt (NS_PAGE_SIZE - 1) =? 0) = true.
Proof.
  intros (_ & Hd & Hc). split; [done|]. rewrite page_mask. apply Z.mod_divide in Hd; [|done]. unfold NS_PAGE_SIZE. by rewrite Hd.
Qed.

Lemma space_refl D T s : space D T s -> same_leaves T T.
Proof. done. Qed.

Lemma same_leaves_refl T : same_leaves T T.
Proof. done. Qed.

(** The walk of a page that is in the tree. *)
Lemma space_walked D T s flags : space D T s -> walked E slots root (dom T ∪ D) T D flags [] [] root T (dom T ∪ D) s.
Proof.
  intros [V HD HT Hf]. constructor; try done.
  - split_and!; [cbn; lia|by constructor|done].
  - intros _ p0 i r d Eq. by destruct p0.
Qed.

Lemma undone_space D T s : D ## dom T -> undone E slots root (dom T ∪ D) T s ->
  exists T', space D T' s /\ same_leaves T T' /\ dom T' = dom T.
Proof. intros HD (T' & V & HT & Hf & Hs & Hd). exists T'. split; [|done]. constructor; try done; by rewrite Hd. Qed.

Lemma wp_walk_create D T s sp virt flags Q : space D T s -> page_here virt -> root_phys sp = root ->
  (forall created t T' A' s', walked E slots root (dom T ∪ D) T D flags created (path virt) t T' A' s' ->
     Q (NS_VMM_OK, entry_at (base E + t) (table_index virt 1)) s') ->
  (forall r s', out_of_memory r -> undone E slots root (dom T ∪ D) T s' -> maps T virt = None -> Q (r, 0) s') ->
  wp (walk_create_leaf sp virt flags) Q s.
Proof.
  intros Hsp Hv Hroot HQ Hno. pose proof Hsp as [V HD HT Hf]. destruct (path_here _ Hv) as [Hp _].
  destruct (tr_root _ _ _ HT) as [es He]. unfold walk_create_leaf. rewrite Hroot.
  apply wp_bind. eapply (wp_table_pointer E G); [exact V|exact He|]. rewrite (table_nonzero E G _ _ _ _ _ V He).
  eapply (wp_create_loop E G); [lia|done|done|by apply (space_walked D T s flags)|done|]. intros r s' Hr Hu Hn. apply Hno; [done|done|apply Hn].
Qed.

Lemma wp_map_unlocked D T s sp virt phys flags : space D T s -> page_here virt -> root_phys sp = root -> 0 <= phys ->
  wp (map_unlocked sp virt phys flags) (mapped_page D T sp virt phys flags) s.
Proof.
  intros Hsp Hv Hroot Hphys. pose proof Hsp as [V HD HT Hf]. destruct (path_here _ Hv) as [Hp Hlen].
  destruct (page_ok virt (proj1 Hv)) as [Hc Ha]. unfold map_unlocked, mapped_page, map_refused.
  apply wp_bind, wp_gets. destruct (owns_limit _ _ _ _ _ (vm_owns _ _ _ _ V)) as [-> _]. rewrite Hc, Ha. cbn [negb orb].
  destruct (negb (Z.land phys (NS_PAGE_SIZE - 1) =? 0) || (4096 * e_frames E <=? phys)) eqn:Ep.
  { apply wp_ret. by exists T. }
  destruct (negb (owns_root sp =? 0) && (NS_VMM_KERNEL_HALF_BASE <=? virt)); [apply wp_ret; by exists T|].
  apply orb_false_iff in Ep as [Epa Epl]. apply negb_false_iff, Z.eqb_eq in Epa. rewrite page_mask in Epa.
  apply Z.leb_gt in Epl. assert (Hpd : (4096 | phys)) by (by apply Z.mod_divide).
  assert (Hp52 : 0 <= phys < 2 ^ 52) by (pose proof (g_frames E G); lia).
  rewrite test_page_user, negb_involutive. apply wp_bind.
  assert (Href : forall P, P (Z.testbit flags 1 && ((NS_VMM_USER_TOP <=? virt) || bit (e_reserved E) (phys / 4096))) s ->
    wp (if Z.testbit flags 1 then if NS_VMM_USER_TOP <=? virt then mret true else pmm_reserved phys else mret false) P s).
  { intros P HP. destruct (Z.testbit flags 1); [|by apply wp_ret]. destruct (NS_VMM_USER_TOP <=? virt); [by apply wp_ret|].
    by eapply (wp_pmm_reserved E). }
  apply Href. destruct (Z.testbit flags 1 && _); [apply wp_ret; by exists T|].
  apply wp_bind, (wp_walk_create D T); [done..| |].
  2: { intros r s1 Hr Hu Hn. unfold is_mapped. rewrite Hn. assert ((r =? NS_VMM_OK) = false) as -> by (by destruct Hr as [-> | ->]). apply wp_ret.
       destruct (undone_space D T s1 HD Hu) as (T' & H1 & H2 & H3). exists T'. split; [done|]. by right. }
  intros created t T1 A1 s1 [V1 HT1 _ Hf1 [-> HD1] Hu1 Hfull1 Hs1 Hg1]. cbn [NS_VMM_OK Z.eqb negb].
  destruct (tr_table _ _ _ HT1 _ t Hp Hf1) as [es He]. assert (Hi : 0 <= table_index virt 1 < 512) by by apply table_index_range.
  destruct (tree_slot slots root T1 HT1 _ t es _ Hp Hf1 He Hi) as (e & Hse & Hr).
  assert (Em : is_mapped T virt = present e).
  { unfold is_mapped. rewrite <- (maps_same T T1 virt Hs1 Hv). unfold maps, leaf. rewrite Hse. cbn. by destruct (present e). }
  rewrite Em.
  apply wp_bind. eapply (wp_ld E); [exact V1|exact He|exact Hr|]. rewrite test_present, negb_involutive.
  destruct (present e) eqn:Hpe.
  - apply wp_ret. exists T1. destruct created as [|[ent c] rest]; cbn [undo_ok] in Hu1.
    + destruct Hu1 as (HA & HfT & _ & Hdom). split; [by constructor|]. done.
    + exfalso. destruct Hu1 as (? & ? & ? & ? & ? & _ & _ & _ & _ & _ & _ & _ & _ & _ & _ & _ & Hz & _).
      assert (es = replicate 512 0) by congruence. subst es. by rewrite (zeros_empty _ e Hr) in Hpe.
  - apply wp_bind. eapply (wp_st E G); [exact V1|exact He|done|apply entry_u64|]. intros s2 V2.
    apply wp_bind. eapply (wp_invalidate E G); [exact V2|]. intros w V3. apply wp_ret.
    destruct (entry_flags phys flags Hpd Hp52) as (Hep & _ & Heu & _).
    set (T2 := <[t := <[Z.to_nat (table_index virt 1) := entry_from_flags phys flags]> es]> T1) in *.
    assert (Hdom : dom T2 = dom T1) by (apply dom_insert_lookup_L; by exists es).
    exists T2. split.
    + constructor; [by rewrite Hdom|by rewrite Hdom| |].
      * apply (leaf_tree slots root T1 HT1 (path virt)); try done. rewrite Heu. intros _ Hfl. by apply Hg1.
      * intros u us [[<- <-]|[Hne E2]]%lookup_insert_Some Hr1 Hr2; [|by apply (Hfull1 u us)].
        eexists _, _. split; [apply rd_insert_eq; rewrite (tr_len _ _ _ HT1 t es He); lia|done].
    + left. split; [done|]. intros virt' Hv'. unfold T2. rewrite (maps_update T1 t es virt) by done. rewrite Hep.
      destruct (decide _); [done|]. by apply maps_same.
Qed.

(** *** Finding the entry of a page *)

(** One level of a walk that only reads. *)
Lemma wp_level A T s p t i Q : vm E A T s -> tree T -> path_ok p -> index_ok slots p i -> (length p < 3)%nat -> follow T root p = Some t ->
  (forall d, slot T root p i = Some d -> present d = false -> Q d s) ->
  (forall d ces, slot T root p i = Some d -> present d = true -> directory d = true -> follow T root (p ++ [i]) = Some (addr d) ->
     path_ok (p ++ [i]) -> T !! addr d = Some ces -> Q d s) ->
  wp (ld 8 (entry_at (base E + t) i)) Q s.
Proof.
  intros V HT Hp Hi Hlen Hf Hno Hyes. pose proof Hi as [Hi0 _]. destruct (tr_table _ _ _ HT p t Hp Hf) as [es He].
  destruct (tree_slot slots root T HT p t es i Hp Hf He Hi0) as (d & Hsd & Hr).
  apply (wp_ld E A T s t es i d); try done. destruct (present d) eqn:Hd; [|by apply Hno].
  assert (Hfd : follow T root (p ++ [i]) = Some (addr d)) by (apply follow_snoc; eauto).
  assert (Hpi : path_ok (p ++ [i])) by by apply path_snoc.
  destruct (tr_table _ _ _ HT _ _ Hpi Hfd) as [ces Hc]. eapply Hyes; try done. by eapply (tr_dir _ _ _ HT p i).
Qed.

(** The tables on the way to a page, from the last level to the root. *)
Definition tables_of T virt (t1 t2 t3 : Z) : Prop :=
  follow T root [table_index virt 4] = Some t3 /\ follow T root [table_index virt 4; table_index virt 3] = Some t2 /\
  follow T root (path virt) = Some t1.

Definition table_list (t1 t2 t3 : Z) : list Z := [0; base E + t1; base E + t2; base E + t3; base E + root].
Definition index_list virt : list Z := [0; table_index virt 1; table_index virt 2; table_index virt 3; table_index virt 4].

Lemma index_here p i : path_ok (p ++ [i]) -> index_ok slots p i /\ path_ok p /\ (length p < 3)%nat.
Proof. intros H. by apply path_snoc in H as (? & ? & ?). Qed.

Lemma unmapped_above T virt p i r d :
  path virt = p ++ i :: r -> slot T root p i = Some d -> present d = false -> maps T virt = None.
Proof.
  intros Ep Hs Hd. destruct (maps T virt) as [e|] eqn:Ee; [exfalso|done]. apply leaf_Some in Ee as [Ee _].
  rewrite Ep in Ee. destruct (slot_above _ _ _ _ _ _ _ Ee) as (d' & Hd' & ?). congruence.
Qed.

Lemma wp_walk_leaf A T s sp virt Q : vm E A T s -> tree T -> page_here virt -> root_phys sp = root ->
  (forall e t1 t2 t3 es, maps T virt = Some e -> tables_of T virt t1 t2 t3 -> T !! t1 = Some es -> rd es (table_index virt 1) = Some e ->
     Q (NS_VMM_OK, (table_list t1 t2 t3, index_list virt, entry_at (base E + t1) (table_index virt 1))) s) ->
  (forall x, maps T virt = None -> Q (NS_VMM_ENOENT, x) s) ->
  wp (walk_leaf sp virt) Q s.
Proof.
  intros V HT Hv Hroot HQ Hno. destruct (path_here _ Hv) as [Hp _]. unfold walk_leaf. rewrite Hroot.
  destruct (tr_root _ _ _ HT) as [res Hres]. apply wp_bind. eapply (wp_table_pointer E G); [exact V|exact Hres|].
  rewrite (table_nonzero E G _ _ _ _ _ V Hres). cbn [leaf_loop].
  assert (Hstep : forall p i r t (k : Z -> Z -> M (vstate W) (Z * (list Z * list Z * Z))) x,
    path virt = p ++ i :: r -> follow T root p = Some t ->
    (forall d ces, slot T root p i = Some d -> follow T root (p ++ [i]) = Some (addr d) -> T !! addr d = Some ces -> wp (k d (base E + addr d)) Q s) ->
    wp (entry ← ld 8 (entry_at (base E + t) i);
        if Z.land entry X86_PTE_PRESENT =? 0 then mret (NS_VMM_ENOENT, x)
        else if negb (Z.land entry X86_PTE_HUGE =? 0) then mret (NS_VMM_ENOTSUP, x)
        else child ← table_pointer (Z.land entry X86_PTE_ADDR);
             if child =? 0 then mret (NS_VMM_ECORRUPT, x) else k entry child) Q s).
  { intros p i r t k x Ep Hf Hk. destruct (path_split slots p i r) as (Hp0 & Hi & Hl); [by rewrite <- Ep|].
    apply wp_bind, (wp_level A T s p t i); try done.
    - intros d Hs Hd. rewrite test_present, Hd. by apply wp_ret, Hno, (unmapped_above T virt p i r d).
    - intros d ces Hs Hd Hdir Hfd Hpd Hc. rewrite test_present, Hd, test_huge, (directory_not_huge d Hdir). cbn [negb].
      change (Z.land d X86_PTE_ADDR) with (addr d). apply wp_bind. eapply (wp_table_pointer E G); [exact V|exact Hc|].
      rewrite (table_nonzero E G _ _ _ _ _ V Hc). by eapply Hk. }
  apply (Hstep [] _ [table_index virt 3; table_index virt 2]); [done|done|]. intros d3 es3 Hs3 Hf3 He3.
  apply (Hstep [table_index virt 4] _ [table_index virt 2]); [done|done|]. intros d2 es2 Hs2 Hf2 He2.
  apply (Hstep [table_index virt 4; table_index virt 3] _ []); [done|done|]. intros d1 es1 Hs1 Hf1 He1.
  destruct (tree_slot slots root T HT (path virt) (addr d1) es1 (table_index virt 1)) as (e & Hse & Hr);
    [done|done|done|by apply table_index_range|].
  apply wp_bind, (wp_ld E A T s (addr d1) es1 _ e); [done..|]. apply wp_ret. rewrite test_present.
  assert (Em : maps T virt = if present e then Some e else None) by (unfold maps, leaf; by rewrite Hse).
  destruct (present e) eqn:Hpe; cbn [negb].
  - by apply (HQ e (addr d1) (addr d2) (addr d3) es1).
  - by apply Hno.
Qed.

(** *** Giving back empty tables *)

Definition emptyb (es : list Z) : bool := forallb (fun e => negb (present e)) es.

Lemma emptyb_spec es j e : emptyb es = true -> rd es j = Some e -> present e = false.
Proof.
  intros H [_ Hr]%rd_lookup. unfold emptyb in H. rewrite forallb_forall in H. apply negb_true_iff, H.
  apply list_elem_of_In. by eapply list_elem_of_lookup_2.
Qed.

Lemma emptyb_false es : emptyb es = false -> exists i e, rd es i = Some e /\ present e = true.
Proof.
  induction es as [|e es IH]; [done|]. cbn. destruct (present e) eqn:Hp; cbn.
  - intros _. by exists 0, e.
  - intros H. destruct (IH H) as (i & e' & [Hi Hr]%rd_lookup & Hp'). exists (i + 1), e'. split; [|done].
    apply rd_lookup. split; [lia|]. by replace (Z.to_nat (i + 1)) with (S (Z.to_nat i)) by lia.
Qed.

Lemma wp_table_empty A T s t es Q : vm E A T s -> T !! t = Some es -> Q (emptyb es) s -> wp (table_empty (base E + t)) Q s.
Proof.
  intros V He HQ. destruct (table_place _ _ _ _ _ _ G V He) as (_ & _ & _ & _ & _ & Hlen & _).
  assert (H : forall n k, (k + n = 512)%nat -> (emptyb es = emptyb (drop k es)) ->
    wp (empty_loop n (base E + t) (Z.of_nat k)) Q s); [|by apply (H 512%nat 0%nat)].
  induction n as [|n IH]; intros k Hk Ek; cbn [empty_loop].
  - apply wp_ret. rewrite Ek, drop_ge in HQ by lia. exact HQ.
  - destruct (lookup_lt_is_Some_2 es k) as [e Hl]; [lia|]. rewrite (drop_S _ e) in Ek by done.
    apply wp_bind, (wp_ld E A T s t es _ e); [done|done|apply rd_lookup; split; [lia|by rewrite Nat2Z.id]|].
    rewrite test_present, negb_involutive. cbn in Ek. destruct (present e); cbn in Ek.
    + apply wp_ret. by rewrite Ek in HQ.
    + replace (Z.of_nat k + 1) with (Z.of_nat (S k)) by lia. apply IH; [lia|done].
Qed.

Lemma held_delete A T D c : c ∉ D -> held A T D -> held (A ∖ {[c]}) (delete c T) D.
Proof. intros Hc [-> HD]. split; rewrite dom_delete_L; set_solver. Qed.

Lemma held_update A T D t es es' : T !! t = Some es -> held A T D -> held A (<[t := es']> T) D.
Proof. intros He [-> HD]. unfold held. by rewrite dom_insert_lookup_L by (by exists es). Qed.

Lemma held_table A T D t es : T !! t = Some es -> held A T D -> t ∈ A /\ t ∉ D.
Proof. intros He%elem_of_dom_2 [-> HD]. set_solver. Qed.

(** An empty table goes. *)
Lemma wp_reclaim_one A T D s p i t t' es (k : M (vstate W) unit) Q : vm E A T s -> tree T -> held A T D -> path_ok (p ++ [i]) ->
  follow T root (p ++ [i]) = Some t -> follow T root p = Some t' -> T !! t = Some es -> emptyb es = true -> full_but root t T ->
  (forall T' A' s', vm E A' T' s' -> tree T' -> held A' T' D -> same_leaves T T' -> full_but root t' T' ->
     (forall q u, path_ok q -> follow T root q = Some u -> u <> t -> follow T' root q = Some u) -> wp k Q s') ->
  wp (parent_entry ← ld 8 (entry_at (base E + t') i); st 8 (entry_at (base E + t') i) 0;;
      pmm_free (Z.land parent_entry X86_PTE_ADDR);; k) Q s.
Proof.
  intros V HT HA Hpi Hf Hf' He Hempty Hfull HQ. destruct (index_here _ _ Hpi) as (Hi & Hp & Hl). pose proof Hi as [Hi0 _].
  pose proof Hf as (d & Hd & Hpd & Had)%follow_snoc. pose proof Hd as (u & es' & Hu & He' & Hr)%slot_Some.
  assert (u = t') as -> by congruence. pose proof (fun j e => emptyb_spec es j e Hempty) as Hemp.
  apply wp_bind, (wp_ld E A T s t' es' i d); [done..|]. apply wp_bind, (wp_st E G A T s t' es'); try done. intros s1 V1.
  change (Z.land d X86_PTE_ADDR) with (addr d). rewrite Had. destruct (held_table A T D t es He HA) as [HtA HtD].
  set (T1 := <[t' := <[Z.to_nat i := 0]> es']> T) in *.
  apply wp_bind, (wp_pmm_free E A (delete t T1) s1 t); [apply (vm_subset E A T1); [apply delete_subseteq|done]|done|by rewrite lookup_delete_eq|].
  intros s2 _ V2. apply (HQ _ _ _ V2).
  - by apply (prune_tree slots root T HT p t' es' i d t es).
  - apply held_delete; [done|]. by apply (held_update A T D t' es').
  - intros q j Hq Hq3. by apply (prune_leaf slots root T HT p t' es' i d t es).
  - intros v vs [Hne Hv]%lookup_delete_Some Hr1 Hr2. unfold T1 in Hv. rewrite lookup_insert_ne in Hv by done. by apply (Hfull v vs).
  - intros q v Hq Hv Hne. by apply (prune_follow slots root T HT p t' es' i d t es).
Qed.

Lemma path_prefix virt k : page_here virt -> path_ok (take k (path virt)).
Proof.
  intros Hv. destruct (path_here _ Hv) as [(_ & H2 & H3) _]. split_and!; [rewrite length_take; cbn; lia|by apply Forall_take|].
  by destruct k.
Qed.

Lemma wp_reclaim T0 D virt (ts tables indices : list Z) n level T A t s Q : page_here virt ->
  (forall L u, (1 <= L)%nat -> ts !! L = Some u -> tables !! L = Some (base E + u)) ->
  (forall L, (2 <= L <= 4)%nat -> indices !! L = Some (table_index virt (Z.of_nat L))) ->
  (n + level = 4)%nat -> (1 <= level)%nat ->
  (forall L, (level <= L <= 4)%nat -> exists u, ts !! L = Some u /\ follow T root (take (4 - L) (path virt)) = Some u) ->
  vm E A T s -> tree T -> held A T D -> same_leaves T0 T -> ts !! level = Some t -> full_but root t T ->
  (forall T' s', space D T' s' -> same_leaves T0 T' -> Q tt s') -> wp (reclaim_loop n level tables indices) Q s.
Proof.
  intros Hv Htab Hidx. revert level T A t s.
  induction n as [|n IH]; intros level T A t s Hn Hlev Hch V HT HA Hs Ht Hfull HQ; cbn [reclaim_loop].
  { assert (level = 4%nat) as -> by lia. destruct (Hch 4%nat ltac:(lia)) as (u & Hu & Hf). cbn in Hf. injection Hf as <-.
    assert (t = root) as -> by congruence. destruct HA as [-> HD]. apply wp_ret, (HQ T s); [by constructor|done]. }
  destruct (Hch level ltac:(lia)) as (u & Hu & Hf). assert (u = t) as -> by congruence.
  destruct (Hch (S level) ltac:(lia)) as (t' & Ht' & Hf').
  rewrite (Htab level t), (Htab (S level) t'), (Hidx (S level)) by (done || lia).
  assert (Ep : take (4 - level) (path virt) = take (4 - S level) (path virt) ++ [table_index virt (Z.of_nat (S level))]).
  { replace (4 - level)%nat with (S (3 - level)) by lia. replace (Z.of_nat (S level)) with (Z.of_nat level + 1) by lia. apply path_take. lia. }
  pose proof (path_prefix virt (4 - level) Hv) as Hpp. rewrite Ep in Hf, Hpp.
  destruct (tr_table _ _ _ HT _ t Hpp Hf) as [es He].
  apply wp_bind, (wp_table_empty A T s t es); [done..|]. destruct (emptyb es) eqn:Hempty; cbn [negb].
  - eapply (wp_reclaim_one A T D s); try done.
    intros T' A' s' V' HT' HA' Hs' Hfull' Hfol. eapply (IH (S level) T' A' t'); try done; [lia|lia| |by eapply same_leaves_trans].
    intros L HL. destruct (Hch L ltac:(lia)) as (v & Hv1 & Hv2). exists v. split; [done|]. apply Hfol; [by apply path_prefix|done|].
    intros ->. pose proof (tr_inj _ _ _ HT _ _ t (path_prefix virt (4 - L) Hv) Hpp Hv2 Hf) as Heq.
    apply (f_equal length) in Heq. rewrite <- Ep, !length_take in Heq. cbn in Heq. lia.
  - destruct HA as [-> HD]. apply wp_ret, (HQ T s); [|done]. constructor; try done.
    intros v vs Hvs Hr1 _. destruct (decide (v = t)) as [->|Hne]; [|by apply (Hfull v vs)].
    assert (vs = es) as -> by congruence. by apply emptyb_false.
Qed.

(** *** Unmapping *)

(** The pages left when the entry [e] is unmapped. *)
Definition release (release_owned : bool) (e : Z) D : gset Z := if release_owned && owned e then D ∖ {[addr e]} else D.

Definition unmapped_page D T (sp : ns_vmm_space) virt (release_owned : bool) (r : Z) s s' : Prop :=
  if negb (owns_root sp =? 0) && (NS_VMM_KERNEL_HALF_BASE <=? virt) then r = NS_VMM_EPERM /\ s' = s
  else match maps T virt with
       | None => r = NS_VMM_ENOENT /\ s' = s
       | Some e =>
         r = NS_VMM_OK /\ exists T', space (release release_owned e D) T' s' /\
           forall virt', page_here virt' -> maps T' virt' = if decide (virt' = virt) then None else maps T virt'
       end.

Lemma wp_release_frame (b : bool) e A T D s Q : vm E A T s -> held A T D -> (b = true -> owned e = true -> addr e ∈ D) ->
  (forall A' s', vm E A' T s' -> held A' T (release b e D) -> Q tt s') ->
  wp (when (b && negb (Z.land e X86_PTE_OWNED =? 0)) (pmm_free (Z.land e X86_PTE_ADDR);; mret tt)) Q s.
Proof.
  intros V HA Ho HQ. rewrite test_owned, negb_involutive. unfold release in HQ.
  destruct (b && owned e) eqn:Eb; cbn [when]; [|apply wp_ret; by eapply HQ].
  apply andb_true_iff in Eb as [-> Eo]. specialize (Ho eq_refl Eo). change (Z.land e X86_PTE_ADDR) with (addr e).
  destruct HA as [-> HD]. assert (Hn : addr e ∉ dom T) by set_solver.
  apply wp_bind, (wp_pmm_free E (dom T ∪ D) T); [done|set_solver|by apply not_elem_of_dom|]. intros s' _ V'. apply wp_ret.
  eapply HQ; [exact V'|]. split; set_solver.
Qed.

Lemma wp_unmap_unlocked D T s sp virt (release_owned : bool) : space D T s -> page_here virt -> root_phys sp = root ->
  (forall e, maps T virt = Some e -> release_owned = true -> owned e = true -> addr e ∈ D) ->
  wp (unmap_unlocked sp virt release_owned) (fun r s' => unmapped_page D T sp virt release_owned r s s') s.
Proof.
  intros Hsp Hv Hroot Ho. pose proof Hsp as [V HD HT Hf]. destruct (path_here _ Hv) as [Hp Hlen].
  unfold unmap_unlocked, unmapped_page. destruct (_ && _); [by apply wp_ret|].
  apply wp_bind, (wp_walk_leaf (dom T ∪ D) T); [done..| |].
  2: { intros [[? ?] ?] Hn. cbn [NS_VMM_ENOENT NS_VMM_OK Z.eqb negb]. apply wp_ret. by rewrite Hn. }
  intros e t1 t2 t3 es Hm (H3 & H2 & H1) He Hr. cbn [NS_VMM_OK Z.eqb negb]. rewrite Hm.
  assert (Hi : 0 <= table_index virt 1 < 512) by by apply table_index_range.
  apply wp_bind, (wp_ld E (dom T ∪ D) T s t1 es _ e); [done..|].
  apply wp_bind, (wp_st E G (dom T ∪ D) T s t1 es); try done. intros s1 V1.
  set (T1 := <[t1 := <[Z.to_nat (table_index virt 1) := 0]> es]> T) in *.
  assert (HT1 : tree T1) by by apply (leaf_tree slots root T HT (path virt)).
  apply wp_bind. eapply (wp_invalidate E G); [exact V1|]. intros w V2.
  apply wp_bind. apply (wp_release_frame release_owned e (dom T ∪ D) T1 D); [done| |by apply Ho|].
  { apply (held_update _ T D t1 es); done. }
  intros A' s2 V3 HA'. apply wp_bind.
  eapply (wp_reclaim T1 (release release_owned e D) virt [0; t1; t2; t3; root] _ _ 3 1 T1 A' t1 s2); try done.
  - intros L u HL Hu. by destruct L as [|[|[|[|[|L]]]]]; try lia; cbn in Hu |- *; simplify_eq.
  - intros L HL. by destruct L as [|[|[|[|[|L]]]]]; try lia.
  - intros L HL. assert (Hfol : forall q, path_ok q -> follow T1 root q = follow T root q).
    { intros q Hq. by apply (leaf_follow slots root T HT (path virt)). }
    rewrite Hfol by by apply path_prefix. destruct L as [|[|[|[|[|L]]]]]; try lia; cbn; eauto.
  - intros u us Hu Hr1 Hr2. unfold T1 in Hu. rewrite lookup_insert_ne in Hu by done. by apply (Hf u us).
  - intros T' s' Hsp' Hs'. apply wp_ret. split; [done|]. exists T'. split; [done|]. intros virt' Hv'.
    rewrite (maps_same T1 T' virt' Hs' Hv'). unfold T1. by rewrite (maps_update T t1 es virt).
Qed.

(** *** Protecting *)

Definition protected (e flags : Z) : Z :=
  let e' := entry_from_flags (addr e) flags in if owned e then Z.lor e' X86_PTE_OWNED else e'.

(** Why protecting a page is refused. *)
Definition protect_refused flags (e : Z) : bool :=
  Z.testbit flags 1 && (negb (user e) || bit (e_reserved E) (addr e / 4096)).

Definition protected_page D T virt flags (s : vstate W) (r : Z) s' : Prop :=
  match maps T virt with
  | None => r = NS_VMM_ENOENT /\ s' = s
  | Some e =>
    if protect_refused flags e then r = NS_VMM_EPERM /\ s' = s
    else r = NS_VMM_OK /\ exists T', space D T' s' /\ dom T' = dom T /\
      forall virt', page_here virt' -> maps T' virt' = if decide (virt' = virt) then Some (protected e flags) else maps T virt'
  end.

Lemma protected_spec e flags :
  is_u64 (protected e flags) /\ present (protected e flags) = true /\ user (protected e flags) = Z.testbit flags 1 /\
  writable (protected e flags) = Z.testbit flags 0 /\ no_exec (protected e flags) = negb (Z.testbit flags 2) /\
  owned (protected e flags) = Z.testbit flags 5 || owned e /\ addr (protected e flags) = addr e.
Proof.
  pose proof (addr_divide e) as Hd. pose proof (addr_range e) as Hr.
  destruct (entry_flags (addr e) flags Hd Hr) as (H1 & H2 & H3 & H4 & _ & _ & _ & H5).
  pose proof (entry_addr (addr e) flags Hd Hr) as H6. pose proof (entry_u64 (addr e) flags) as H7.
  unfold protected. cbn zeta. destruct (owned e); [|by rewrite orb_false_r].
  set (e' := entry_from_flags (addr e) flags) in *. split_and!.
  - apply Z.lor_nonneg. split; [lia|done].
  - by apply (lor_bound _ _ 64).
  - unfold present. rewrite Z.lor_spec. fold (present e'). by rewrite H1.
  - unfold user. rewrite Z.lor_spec. fold (user e'). rewrite H3. apply orb_false_r.
  - unfold writable. rewrite Z.lor_spec. fold (writable e'). rewrite H2. apply orb_false_r.
  - unfold no_exec. rewrite Z.lor_spec. fold (no_exec e'). rewrite H4. apply orb_false_r.
  - unfold owned at 1. rewrite Z.lor_spec. change (Z.testbit X86_PTE_OWNED 9) with true. by rewrite !orb_true_r.
  - rewrite addr_lor, H6. apply Z.lor_0_r.
Qed.

(** The body of the loop of [ns_vmm_protect]. *)
Lemma wp_protect_one D T s sp virt flags (kfail : Z -> M (vstate W) Z) k Q : space D T s -> page_here virt -> root_phys sp = root ->
  (forall e, maps T virt = Some e -> addr e < 4096 * e_frames E) ->
  (forall r, protected_page D T virt flags s r s -> r <> NS_VMM_OK -> wp (kfail r) Q s) ->
  (forall s', protected_page D T virt flags s NS_VMM_OK s' -> wp k Q s') ->
  wp ('(result, (_, _, leaf)) ← walk_leaf sp virt;
      if negb (result =? NS_VMM_OK) then kfail result
      else
        old ← ld 8 leaf;
        refused ← (if negb (Z.land flags NS_VMM_PAGE_USER =? 0)
                   then if Z.land old X86_PTE_USER =? 0 then mret true else pmm_reserved (Z.land old X86_PTE_ADDR)
                   else mret false);
        if refused : bool then kfail NS_VMM_EPERM
        else
          st 8 leaf (entry_from_flags (Z.land old X86_PTE_ADDR) flags);;
          when (negb (Z.land old X86_PTE_OWNED =? 0)) (e ← ld 8 leaf; st 8 leaf (Z.lor e X86_PTE_OWNED));;
          invalidate sp virt;; k) Q s.
Proof.
  intros Hsp Hv Hroot Hlim Hfail Hk. pose proof Hsp as [V HD HT Hf]. destruct (path_here _ Hv) as [Hp Hlen]. unfold protected_page in *.
  apply wp_bind, (wp_walk_leaf (dom T ∪ D) T); [done..| |].
  2: { intros [[? ?] ?] Hn. rewrite Hn in Hfail. cbn [NS_VMM_ENOENT NS_VMM_OK Z.eqb negb]. by apply Hfail. }
  intros e t1 t2 t3 es Hm (H3 & H2 & H1) He Hr. cbn [NS_VMM_OK Z.eqb negb]. rewrite Hm in Hfail, Hk. specialize (Hlim e Hm).
  assert (Hi : 0 <= table_index virt 1 < 512) by by apply table_index_range. assert (Hlen1 := tr_len _ _ _ HT t1 es He).
  apply wp_bind, (wp_ld E (dom T ∪ D) T s t1 es _ e); [done..|]. change (Z.land e X86_PTE_ADDR) with (addr e).
  rewrite test_page_user, test_user, test_owned, !negb_involutive. apply wp_bind. unfold protect_refused in *.
  assert (Href : forall P, P (Z.testbit flags 1 && (negb (user e) || bit (e_reserved E) (addr e / 4096))) s ->
    wp (if Z.testbit flags 1 then if negb (user e) then mret true else pmm_reserved (addr e) else mret false) P s).
  { intros P HP. destruct (Z.testbit flags 1); [|by apply wp_ret]. destruct (user e); [|by apply wp_ret].
    eapply (wp_pmm_reserved E); [done|apply addr_divide|pose proof (addr_range e); lia|done]. }
  apply Href. destruct (Z.testbit flags 1 && _) eqn:Eref; [by apply Hfail|].
  apply wp_bind, (wp_st E G (dom T ∪ D) T s t1 es); try done; [apply entry_u64|]. intros s1 V1.
  destruct (protected_spec e flags) as (P1 & P2 & P3 & _ & _ & _ & _). set (T1 := <[t1 := <[Z.to_nat (table_index virt 1) := protected e flags]> es]> T).
  assert (Hst : wp (when (owned e) (e0 ← ld 8 (entry_at (base E + t1) (table_index virt 1));
      st 8 (entry_at (base E + t1) (table_index virt 1)) (Z.lor e0 X86_PTE_OWNED))) (fun _ s' => vm E (dom T ∪ D) T1 s') s1).
  { unfold T1, protected in *. destruct (owned e); cbn [when]; [|by apply wp_ret].
    apply wp_bind. eapply (wp_ld E); [exact V1|apply lookup_insert_eq|apply rd_insert_eq; lia|].
    eapply (wp_st E G); [exact V1|apply lookup_insert_eq|done|done|].
    intros s' V'. by rewrite insert_insert_eq, list_insert_insert_eq in V'. }
  apply wp_bind. eapply wp_mono; [exact Hst|]. cbn beta. intros _ s2 V2. apply wp_bind. eapply (wp_invalidate E G); [exact V2|]. intros w V3.
  apply Hk. split; [done|]. exists T1. assert (Hdom : dom T1 = dom T) by (apply dom_insert_lookup_L; by exists es). split_and!; [|done|].
  - constructor; [by rewrite Hdom|by rewrite Hdom| |].
    + apply (leaf_tree slots root T HT (path virt)); try done. intros _ Hu p0 i0 r d Ep Hd. rewrite P3 in Hu. rewrite Hu in Eref.
      assert (Hue : user e = true) by (destruct (user e); done).
      apply (tr_user _ _ _ HT p0 i0 r (table_index virt 1) e d); rewrite <- ?Ep; done.
    + intros u us [[<- <-]|[Hne E2]]%lookup_insert_Some Hr1 Hr2; [|by apply (Hf u us)].
      exists (table_index virt 1), (protected e flags). split; [apply rd_insert_eq; lia|done].
  - intros virt' Hv'. unfold T1. rewrite (maps_update T t1 es virt) by done. by rewrite P2.
Qed.

(** *** Translation *)

(** The permissions gathered above a leaf: nothing is lost but access by users. *)
Definition gathered (eff : Z) (u : bool) : Prop := Z.testbit eff 1 = true /\ Z.testbit eff 63 = false /\ Z.testbit eff 2 = u.

Lemma restrict_bit eff e k : 0 <= eff -> k = 1 \/ k = 2 \/ k = 63 ->
  Z.testbit (restrict eff e) k = if k =? 63 then Z.testbit eff k || no_exec e else Z.testbit eff k && (if k =? 1 then writable e else user e).
Proof.
  intros He Hk. unfold restrict, X86_PTE_WRITE, X86_PTE_USER, X86_PTE_NX. rewrite !land_bit by lia.
  fold (writable e) (user e) (no_exec e). rewrite negb_involutive.
  destruct (writable e), (user e), (no_exec e), Hk as [->|[->| ->]]; cbn [negb Z.eqb Pos.eqb];
    rewrite ?Z.lor_spec, ?Z.land_spec; cbn; rewrite ?andb_true_r, ?andb_false_r, ?orb_false_r, ?orb_true_r; done.
Qed.

Lemma restrict_nonneg eff e : 0 <= eff -> 0 <= restrict eff e.
Proof.
  intros He. assert (Hc : forall (b : bool) x y, 0 <= x -> 0 <= y -> 0 <= (if b then x else y)) by (by intros []).
  unfold restrict. repeat apply Hc; rewrite ?Z.lor_nonneg, ?Z.land_nonneg; repeat (split || left || done || apply Hc || rewrite Z.land_nonneg).
Qed.

Lemma gathered_dir eff u d : 0 <= eff -> gathered eff u -> directory d = true -> gathered (restrict eff d) (u && user d).
Proof.
  intros He (H1 & H2 & H3) Hd. unfold directory in Hd. apply andb_true_iff in Hd as [[Hw _]%andb_true_iff Hn].
  apply negb_true_iff in Hn. unfold gathered. rewrite !restrict_bit by (done || lia). cbn [Z.eqb Pos.eqb]. by rewrite H1, H2, H3, Hw, Hn.
Qed.

Lemma leaf_flags_gathered eff u e : 0 <= eff -> gathered eff u -> (user e = true -> u = true) ->
  leaf_flags e (restrict eff e) = flags_from_entry e.
Proof.
  intros He (H1 & H2 & H3) Hu. unfold leaf_flags, X86_PTE_WRITE, X86_PTE_USER, X86_PTE_NX.
  rewrite !land_bit, !restrict_bit by (done || lia). cbn [Z.eqb Pos.eqb]. rewrite H1, H2, H3, flags_from_bits, negb_involutive. cbn [orb andb].
  assert (Eu : u && user e = user e) by (destruct (user e); [by rewrite Hu|apply andb_false_r]). rewrite Eu.
  generalize (writable e), (user e), (no_exec e), (Z.testbit e 8), (Z.testbit e 4 || Z.testbit e 3), (owned e).
  by intros [] [] [] [] [] [].
Qed.

Lemma wp_translate_level A T s virt n p r t eff u Q : vm E A T s -> tree T -> path_ok (path virt) -> (1 <= n <= 3)%nat ->
  path virt = p ++ table_index virt (Z.of_nat (S n)) :: r -> follow T root p = Some t -> 0 <= eff -> gathered eff u ->
  (maps T virt = None -> Q (NS_VMM_ENOENT, (0, 0)) s) ->
  (forall d, slot T root p (table_index virt (Z.of_nat (S n))) = Some d ->
     follow T root (p ++ [table_index virt (Z.of_nat (S n))]) = Some (addr d) ->
     0 <= restrict eff d -> gathered (restrict eff d) (u && user d) ->
     wp (translate_loop n virt (base E + addr d) (restrict eff d)) Q s) ->
  wp (translate_loop (S n) virt (base E + t) eff) Q s.
Proof.
  intros V HT Hp Hn Ep Hf Heff Hg Hno Hk. destruct (path_split slots p (table_index virt (Z.of_nat (S n))) r) as (Hp0 & Hi & Hl);
    [by rewrite <- Ep|].
  cbn [translate_loop]. rewrite (proj2 (Nat.eqb_neq (S n) 1)) by lia.
  apply wp_bind, (wp_level A T s p t (table_index virt (Z.of_nat (S n)))); try done.
  - intros d Hsd Hd. rewrite test_present, Hd. by eapply wp_ret, Hno, unmapped_above.
  - intros d ces Hsd Hd Hdir Hfd Hpd Hc. rewrite test_present, Hd, test_huge, (directory_not_huge d Hdir). cbn [negb].
    rewrite !andb_false_r. change (Z.land d X86_PTE_ADDR) with (addr d). apply wp_bind.
    eapply (wp_table_pointer E G); [exact V|exact Hc|]. rewrite (table_nonzero E G _ _ _ _ _ V Hc).
    apply Hk; [done|done|by apply restrict_nonneg|by apply gathered_dir].
Qed.

Lemma wp_translate A T s sp virt Q : vm E A T s -> tree T -> slots (table_index virt 4) -> root_phys sp = root ->
  (forall e, maps T virt = Some e -> Q (NS_VMM_OK, (Z.lor (addr e) (Z.land virt (NS_PAGE_SIZE - 1)), flags_from_entry e)) s) ->
  (maps T virt = None -> Q (NS_VMM_ENOENT, (0, 0)) s) ->
  wp (translate_unlocked sp virt) Q s.
Proof.
  intros V HT Hs Hroot HQ Hno. unfold translate_unlocked. rewrite Hroot.
  assert (Hp : path_ok (path virt)).
  { split_and!; [cbn; lia|repeat constructor; by apply table_index_range|done]. }
  destruct (tr_root _ _ _ HT) as [res Hres]. apply wp_bind. eapply (wp_table_pointer E G); [exact V|exact Hres|].
  rewrite (table_nonzero E G _ _ _ _ _ V Hres).
  apply (wp_translate_level A T s virt 3 [] [table_index virt 3; table_index virt 2] root _ true); try done; [lia|].
  intros d3 Hs3 Hf3 H3 G3.
  apply (wp_translate_level A T s virt 2 [table_index virt 4] [table_index virt 2] _ _ _ _ V HT Hp ltac:(lia) eq_refl Hf3 H3 G3 Hno).
  intros d2 Hs2 Hf2 H2 G2.
  apply (wp_translate_level A T s virt 1 [table_index virt 4; table_index virt 3] [] _ _ _ _ V HT Hp ltac:(lia) eq_refl Hf2 H2 G2 Hno).
  intros d1 Hs1 Hf1 H1 G1. cbn [translate_loop].
  destruct (tr_table _ _ _ HT _ _ Hp Hf1) as [es He].
  destruct (tree_slot slots root T HT (path virt) (addr d1) es (table_index virt 1)) as (e & Hse & Hr);
    [done|done|done|by apply table_index_range|].
  apply wp_bind, (wp_ld E A T s (addr d1) es _ e); [done..|]. rewrite test_present.
  assert (Em : maps T virt = if present e then Some e else None) by (unfold maps, leaf; by rewrite Hse).
  destruct (present e) eqn:Hpe; cbn [negb]; [|by apply wp_ret, Hno].
  cbn [Nat.eqb andb]. apply wp_ret. rewrite (leaf_flags_gathered _ _ e H1 G1); [by apply HQ|]. intros Hu.
  assert (Hl : leaf T root (path virt) (table_index virt 1) = Some e) by done.
  rewrite (tr_user _ _ _ HT [] _ [_; _] _ e d3 Hp eq_refl Hl Hu Hs3), (tr_user _ _ _ HT [_] _ [_] _ e d2 Hp eq_refl Hl Hu Hs2),
    (tr_user _ _ _ HT [_; _] _ [] _ e d1 Hp eq_refl Hl Hu Hs1). done.
Qed.
End ops.
