(* ===== verification/VmmSpace.v ===== *)
(** * Address spaces

    An address space as a map from pages to the frame and the flags they have.
    The pages marked as owned hold their frames: those, and the tables, are what
    the space holds.  Every call implements the corresponding change of the map,
    keeps the frames of others and the bytes of the pages, and leaks nothing. *)

From S2P Require Import Prelude Errno Bytes Pmm Frames Vmm VmmTree VmmBits VmmProps VmmWalk VmmOps.

(** ** Frames change hands *)

Lemma owns_set frames reserved (O O' : Z -> Prop) (A A' : gset Z) p :
  (forall t, t ∈ A' \/ O' t <-> t ∈ A \/ O t) -> (forall t, t ∈ A' -> ~ O' t) -> A' ⊆ A ->
  owns frames reserved O A p -> owns frames reserved O' A' p.
Proof.
  intros Heq Hsep Hsub H. constructor; try apply H; [|done|].
  - intros f Hf. rewrite (o_bits _ _ _ _ _ H) by done. by rewrite Heq.
  - intros t Ht. apply H. by apply Hsub.
Qed.

Section keep.
Context {W : Type} (slots : Z -> Prop) (root : Z).
Implicit Types (E : env W) (s : vstate W) (D K : gset Z) (T : gmap Z (list Z)).

(** The frames [K] are put aside: they count as in use by others, and keep the
    bytes they have now. *)
Definition keep E K s : env W :=
  mk_env (e_obj E) (fun t => e_others E t \/ t ∈ K) (mem s) (e_frames E) (e_reserved E).

Lemma keep_machine E K A T s : machine E -> vm E A T s -> machine (keep E K s).
Proof.
  intros G V. constructor; try apply G. intros x Hx. apply (vm_mapped _ _ _ _ V). by apply (g_mapped E G).
Qed.

Lemma keep_space E D K T s : K ⊆ D -> space E slots root D T s -> space (keep E K s) slots root (D ∖ K) T s.
Proof.
  intros HK [V HD HT Hf]. assert (Hin : forall t, t ∈ dom T ∪ D -> ~ e_others E t).
  { intros t Ht. by apply (o_sep _ _ _ _ _ (vm_owns _ _ _ _ V)). }
  constructor; try done; [|set_solver]. constructor; try apply V; try done.
  - eapply owns_set; [| | |apply V].
    + intros t. cbn. destruct (decide (t ∈ K)); set_solver.
    + intros t Ht [Ho|Hk]; [by apply (Hin t); set_solver|set_solver].
    + set_solver.
  - intros t es Ht. destruct (vm_tables _ _ _ _ V t es Ht) as (H1 & H2). split; [|done]. apply elem_of_dom_2 in Ht. set_solver.
Qed.

Lemma keep_back E D D' K T T' s s' : K ⊆ D -> space E slots root D T s -> space (keep E K s) slots root D' T' s' ->
  space E slots root (D' ∪ K) T' s' /\ forall x, page_of E x ∈ K -> mem s' !! x = mem s !! x.
Proof.
  intros HK [V HD HT Hf] [V' HD' HT' Hf']. split.
  2: { intros x Hx. apply (vm_quiet _ _ _ _ V'). right. right. by right. }
  assert (HKo : forall t, t ∈ K -> ~ e_others E t).
  { intros t Ht. apply (o_sep _ _ _ _ _ (vm_owns _ _ _ _ V)). set_solver. }
  assert (Hsep : forall t, t ∈ dom T' ∪ D' -> ~ (e_others E t \/ t ∈ K)).
  { intros t Ht. by apply (o_sep _ _ _ _ _ (vm_owns _ _ _ _ V')). }
  constructor; try done.
  - constructor; try apply V'.
    + constructor; try apply (vm_owns _ _ _ _ V').
      * intros f Hfb. rewrite (o_bits _ _ _ _ _ (vm_owns _ _ _ _ V')) by done. cbn. set_solver.
      * intros t Ht. destruct (decide (t ∈ K)); [by apply HKo|]. intros Ho. apply (Hsep t); [set_solver|by left].
      * intros t Ht. destruct (decide (t ∈ K)).
        -- apply (o_held _ _ _ _ _ (vm_owns _ _ _ _ V)). set_solver.
        -- apply (o_held _ _ _ _ _ (vm_owns _ _ _ _ V')). set_solver.
    + intros x Hx. rewrite <- (vm_quiet _ _ _ _ V x) by done. apply (vm_quiet _ _ _ _ V'). cbn. tauto.
    + intros x. etransitivity; [apply (vm_mapped _ _ _ _ V')|apply (vm_mapped _ _ _ _ V)].
    + intros t es Ht. destruct (vm_tables _ _ _ _ V' t es Ht) as (H1 & H2). split; [set_solver|done].
  - assert (forall t, t ∈ K -> t ∉ dom T') by (intros t Ht Ht'; apply (Hsep t); [set_solver|by right]). set_solver.
Qed.

(** ** The lock *)

Definition with_object E (v : ns_vmm W) : env W := mk_env v (e_others E) (e_mem E) (e_frames E) (e_reserved E).
Definition locked E : env W := with_object E ((e_obj E) <| lock := 1 |>).

Lemma locked_machine E : machine E -> machine (locked E).
Proof. intros G. constructor; apply G. Qed.

Lemma locked_space E D T s : space E slots root D T s ->
  space (locked E) slots root D T (s <| object := (object s) <| lock := 1 |> |>).
Proof. intros [V HD HT Hf]. constructor; try done. constructor; try apply V. cbn. by rewrite (vm_object _ _ _ _ V). Qed.

Lemma unlocked_space E D T s : lock (e_obj E) = 0 -> space (locked E) slots root D T s ->
  space E slots root D T (s <| object := (object s) <| lock := 0 |> |>).
Proof.
  intros Hl [V HD HT Hf]. constructor; try done. constructor; try apply V. cbn. rewrite (vm_object _ _ _ _ V). cbn.
  destruct (e_obj E); cbn in *. by subst.
Qed.

Lemma wp_vmm_lock (s : vstate W) Q : lock (object s) = 0 -> Q tt (s <| object := (object s) <| lock := 1 |> |>) -> wp vmm_lock Q s.
Proof. intros Hl HQ. unfold vmm_lock, vget, vset. apply wp_bind, wp_gets. rewrite Hl. cbn [Z.eqb]. by apply wp_modify. Qed.

Lemma wp_vmm_unlock (s : vstate W) Q : Q tt (s <| object := (object s) <| lock := 0 |> |>) -> wp vmm_unlock Q s.
Proof. intros HQ. by apply wp_modify. Qed.
End keep.

(** ** Address spaces as maps *)

(** The pages of an address space, with their frames and flags. *)
Abbreviation pages := (gmap Z (Z * Z)).

Definition entry_view (e : Z) : Z * Z := (addr e, flags_from_entry e).
Definition flag (fl k : Z) : bool := Z.testbit fl k.

Lemma flags_bits e : 0 <= flags_from_entry e < 64 /\
  Z.testbit (flags_from_entry e) 0 = writable e /\ Z.testbit (flags_from_entry e) 1 = user e /\
  Z.testbit (flags_from_entry e) 2 = negb (no_exec e) /\ Z.testbit (flags_from_entry e) 5 = owned e.
Proof.
  rewrite flags_from_bits.
  generalize (writable e), (user e), (no_exec e), (Z.testbit e 8), (Z.testbit e 4 || Z.testbit e 3), (owned e).
  by intros [] [] [] [] [] [].
Qed.

Section aspace.
Context {W : Type} (slots : Z -> Prop) (root : Z).
Implicit Types (E : env W) (s : vstate W) (D K : gset Z) (T : gmap Z (list Z)) (m : pages) (virt phys flags : Z).
Abbreviation page_here := (page_here slots).

Definition shows T m : Prop :=
  (forall v, is_Some (m !! v) -> page_here v) /\ forall v, page_here v -> m !! v = entry_view <$> maps root T v.

Definition frames_ok E m : Prop := forall v p fl, m !! v = Some (p, fl) -> (4096 | p) /\ 0 <= p < 4096 * e_frames E.

(** The address space has the pages [m]; it holds its tables and the frames [D]. *)
Definition aspace E D m s : Prop := exists T, space E slots root D T s /\ shows T m /\ frames_ok E m.

(** The frames of the owned pages are [D], each owned once. *)
Record owned_pages m D : Prop := {
  op_frames : forall d, d ∈ D <-> exists v fl, m !! v = Some (d, fl) /\ Z.testbit fl 5 = true;
  op_once : forall v v' d fl fl', m !! v = Some (d, fl) -> m !! v' = Some (d, fl') ->
    Z.testbit fl 5 = true -> Z.testbit fl' 5 = true -> v = v' }.

Lemma shows_ext T T' m : same_leaves slots root T T' -> shows T m -> shows T' m.
Proof. intros Hs [H1 H2]. split; [done|]. intros v Hv. rewrite H2 by done. by rewrite (maps_same slots root T T' v Hs Hv). Qed.

Lemma shows_update T T' m virt (o : option Z) : page_here virt -> shows T m ->
  (forall v, page_here v -> maps root T' v = if decide (v = virt) then o else maps root T v) ->
  shows T' (match o with Some e => <[virt := entry_view e]> m | None => delete virt m end).
Proof.
  intros Hv [H1 H2] Hm. split.
  - intros v Hs. destruct (decide (v = virt)) as [->|Hne]; [done|]. apply H1.
    destruct o; [by rewrite lookup_insert_ne in Hs|by rewrite lookup_delete_ne in Hs].
  - intros v Hh. rewrite Hm by done. destruct (decide (v = virt)) as [->|Hne].
    + destruct o; [by rewrite lookup_insert_eq|by rewrite lookup_delete_eq].
    + destruct o; [rewrite lookup_insert_ne by done|rewrite lookup_delete_ne by done]; by apply H2.
Qed.

(** *** Mapping a page *)

(** The error a request meets before memory is needed. *)
Definition map_status E (sp : ns_vmm_space) m virt phys flags : option Z :=
  if negb (canonical_address virt) || negb (Z.land virt (NS_PAGE_SIZE - 1) =? 0) then Some NS_VMM_EINVAL
  else map_refused E (owns_root sp) virt phys flags (bool_decide (is_Some (m !! virt))).

(** The kernel half of a space that owns its root is refused; the rest of the
    addresses in use are those of [slots]. *)
Definition reachable (sp : ns_vmm_space) virt : Prop :=
  is_u64 virt /\ (is_page virt -> page_here virt \/ (owns_root sp <> 0 /\ NS_VMM_KERNEL_HALF_BASE <= virt)).

Definition map_spec E sp m virt phys flags (r : Z) (m' : pages) : Prop :=
  match map_status E sp m virt phys flags with
  | Some e => r = e /\ m' = m
  | None => (r = NS_VMM_OK /\ m' = <[virt := (phys, flags)]> m) \/ (out_of_memory r /\ m' = m)
  end.

Lemma bad_page virt : is_u64 virt -> ~ is_page virt ->
  negb (canonical_address virt) || negb (Z.land virt (NS_PAGE_SIZE - 1) =? 0) = true.
Proof.
  intros Hu Hn. destruct (canonical_address virt) eqn:Hc; [|done].
  destruct (Z.land virt (NS_PAGE_SIZE - 1) =? 0) eqn:Ha; [|done]. exfalso. apply Hn. split_and!; try done; try lia.
  rewrite page_mask in Ha. apply Z.eqb_eq in Ha. by apply Z.mod_divide.
Qed.

Lemma good_page virt : is_page virt -> negb (canonical_address virt) || negb (Z.land virt (NS_PAGE_SIZE - 1) =? 0) = false.
Proof. intros Hp. by destruct (page_ok virt Hp) as [-> ->]. Qed.

Lemma is_page_dec virt : is_u64 virt -> is_page virt \/ ~ is_page virt.
Proof.
  intros Hu. unfold is_page. destruct (decide (virt mod 4096 = 0)) as [Ha|Ha], (canonical_address virt);
    [left|right|right|right]; [|intros (_ & _ & ?); done|intros (_ & ?%Z.mod_divide & _); [done|lia]..].
  split_and!; try done; try lia. by apply Z.mod_divide.
Qed.

Section calls.
Context E (G : machine E) (Hlock : lock (e_obj E) = 0) (Hinit : initialized (e_obj E) <> 0).
Context vmm (Hvmm : vmm <> 0) sp (Hroot : root_phys sp = root) (Hroot0 : root <> 0).

(** A call that takes the lock. *)
Lemma wp_critical {A} D T s (body : M (vstate W) A) Q : space E slots root D T s ->
  (forall s1, space (locked E) slots root D T s1 -> mem s1 = mem s ->
     wp body (fun r s2 => forall s3, s3 = s2 <| object := (object s2) <| lock := 0 |> |> -> Q r s3) s1) ->
  wp (vmm_lock;; result ← body; vmm_unlock;; mret result) Q s.
Proof.
  intros Hsp Hb. assert (Ho := vm_object _ _ _ _ (sp_vm _ _ _ _ _ _ Hsp)).
  apply wp_bind, wp_vmm_lock; [by rewrite Ho|]. apply wp_bind. eapply wp_mono.
  { apply Hb; [by apply locked_space|done]. }
  intros r s2 HQ. cbn beta in HQ. apply wp_bind, wp_vmm_unlock, wp_ret. by apply HQ.
Qed.

Lemma wp_ns_map D m s virt phys flags : aspace E D m s -> reachable sp virt -> is_u64 phys -> 0 <= flags < 64 ->
  wp (ns_vmm_map vmm (Some sp) virt phys flags)
    (fun r s' => exists m', aspace E D m' s' /\ map_spec E sp m virt phys flags r m') s.
Proof.
  intros (T & Hsp & Hsh & Hfr) [Hu Hre] Hphys Hfl. assert (Ho := vm_object _ _ _ _ (sp_vm _ _ _ _ _ _ Hsp)).
  unfold ns_vmm_map. rewrite (proj2 (Z.eqb_neq vmm 0) Hvmm). unfold vget. apply wp_bind, wp_gets. rewrite Ho.
  rewrite (proj2 (Z.eqb_neq _ _) Hinit), Hroot, (proj2 (Z.eqb_neq _ _) Hroot0). cbn [orb].
  apply (wp_critical D T); [done|]. intros s1 Hsp1 _.
  assert (Hsame : forall s2, space (locked E) slots root D T s2 -> aspace E D m (s2 <| object := (object s2) <| lock := 0 |> |>)).
  { intros s2 H2. exists T. split; [by apply unlocked_space|done]. }
  unfold map_spec, map_status. destruct (is_page_dec virt Hu) as [Hpg|Hpg].
  2: { rewrite (bad_page virt Hu Hpg). unfold map_unlocked. apply wp_bind, wp_gets. rewrite (bad_page virt Hu Hpg). cbn [orb].
       apply wp_ret. intros s3 ->. exists m. auto. }
  rewrite (good_page virt Hpg). destruct (Hre Hpg) as [Hh|[Hown Hker]].
  - eapply wp_mono; [apply (wp_map_unlocked (locked E) (locked_machine E G) slots root D T s1 sp); [done..|lia]|].
    intros r s2 (T' & Hsp2 & Hr) s3 ->.
    assert (Em : is_mapped root T virt = bool_decide (is_Some (m !! virt))).
    { unfold is_mapped. rewrite (proj2 Hsh virt Hh). by destruct (maps root T virt). }
    rewrite Em in Hr. change (map_refused (locked E)) with (map_refused E) in Hr.
    assert (Hkeep : same_leaves slots root T T' -> aspace E D m (s2 <| object := (object s2) <| lock := 0 |> |>)).
    { intros Hs. exists T'. split; [by apply unlocked_space|]. split; [by eapply shows_ext|done]. }
    destruct (map_refused E _ _ _ _ _) as [e|] eqn:Eref.
    + destruct Hr as (-> & Hs & _). exists m. auto.
    + destruct Hr as [[-> Hm]|(Hr & Hs & _)]; [|exists m; auto]. exists (<[virt := (phys, flags)]> m). split; [|by left].
      unfold map_refused in Eref. destruct (negb (Z.land phys (NS_PAGE_SIZE - 1) =? 0) || _) eqn:Ep; [done|].
      apply orb_false_iff in Ep as [Ep1 Ep2]. apply negb_false_iff, Z.eqb_eq in Ep1. rewrite page_mask in Ep1. apply Z.leb_gt in Ep2.
      assert (Hpd : (4096 | phys)) by by apply Z.mod_divide. pose proof (g_frames E G).
      exists T'. split; [by apply unlocked_space|]. split.
      * pose proof (shows_update T T' m virt (Some (entry_from_flags phys flags)) Hh Hsh Hm) as Hsh'. unfold entry_view in Hsh'.
        by rewrite entry_addr, flags_entry in Hsh' by (done || lia).
      * intros v p fl [[<- [= <- <-]]|[_ Hv]]%lookup_insert_Some; [split; [done|lia]|by eapply Hfr].
  - unfold map_unlocked, map_refused. apply wp_bind, wp_gets.
    destruct (owns_limit _ _ _ _ _ (vm_owns _ _ _ _ (sp_vm _ _ _ _ _ _ Hsp1))) as [-> _]. rewrite (good_page virt Hpg). cbn [orb locked e_frames with_object].
    destruct (negb (Z.land phys (NS_PAGE_SIZE - 1) =? 0) || _); [apply wp_ret; intros s3 ->; exists m; auto|].
    rewrite (proj2 (Z.eqb_neq _ _) Hown), (proj2 (Z.leb_le _ _) Hker). cbn [negb andb]. apply wp_ret. intros s3 ->. exists m. auto.
Qed.

(** *** Unmapping a page *)

Definition unmap_status m virt : Z :=
  if negb (canonical_address virt) || negb (Z.land virt (NS_PAGE_SIZE - 1) =? 0) then NS_VMM_EINVAL
  else if negb (owns_root sp =? 0) && (NS_VMM_KERNEL_HALF_BASE <=? virt) then NS_VMM_EPERM
  else if bool_decide (is_Some (m !! virt)) then NS_VMM_OK else NS_VMM_ENOENT.

(** The frames left when the page is gone. *)
Definition gone (release_owned : bool) m virt D : gset Z :=
  match m !! virt with Some (p, fl) => if release_owned && Z.testbit fl 5 then D ∖ {[p]} else D | None => D end.

Lemma out_of_slots m T virt : shows T m -> is_page virt -> owns_root sp <> 0 /\ NS_VMM_KERNEL_HALF_BASE <= virt ->
  negb (owns_root sp =? 0) && (NS_VMM_KERNEL_HALF_BASE <=? virt) = true.
Proof. intros _ _ [H1 H2]. by rewrite (proj2 (Z.eqb_neq _ _) H1), (proj2 (Z.leb_le _ _) H2). Qed.

Lemma frames_ok_delete m virt : frames_ok E m -> frames_ok E (delete virt m).
Proof. intros Hf v p fl [_ Hv]%lookup_delete_Some. by eapply Hf. Qed.

Lemma wp_ns_unmap D m s virt (release_owned : bool) : aspace E D m s -> reachable sp virt ->
  (forall p fl, m !! virt = Some (p, fl) -> release_owned = true -> Z.testbit fl 5 = true -> p ∈ D) ->
  wp (ns_vmm_unmap vmm (Some sp) virt release_owned)
    (fun r s' => r = unmap_status m virt /\
       if r =? NS_VMM_OK then aspace E (gone release_owned m virt D) (delete virt m) s' else aspace E D m s') s.
Proof.
  intros (T & Hsp & Hsh & Hfr) [Hu Hre] HD. assert (Ho := vm_object _ _ _ _ (sp_vm _ _ _ _ _ _ Hsp)).
  unfold ns_vmm_unmap, unmap_status. rewrite (proj2 (Z.eqb_neq vmm 0) Hvmm). unfold vget. apply wp_bind, wp_gets. rewrite Ho.
  rewrite (proj2 (Z.eqb_neq _ _) Hinit). cbn [orb]. assert (Has : aspace E D m s) by (exists T; auto).
  rewrite (orb_comm (negb (Z.land virt _ =? 0))). destruct (is_page_dec virt Hu) as [Hpg|Hpg].
  2: { rewrite (bad_page virt Hu Hpg). by apply wp_ret. }
  rewrite (good_page virt Hpg). apply (wp_critical D T); [done|]. intros s1 Hsp1 _.
  destruct (Hre Hpg) as [Hh|Hk].
  2: { rewrite (out_of_slots m T virt Hsh Hpg Hk). unfold unmap_unlocked. rewrite (out_of_slots m T virt Hsh Hpg Hk).
       apply wp_ret. intros s3 ->. split; [done|]. cbn. exists T. split; [by apply unlocked_space|done]. }
  eapply wp_mono.
  { apply (wp_unmap_unlocked (locked E) (locked_machine E G) slots root D T s1 sp); [done..|].
    intros e He Hrel Hown. apply (HD (addr e) (flags_from_entry e)); [|done|by rewrite (proj2 (proj2 (proj2 (proj2 (flags_bits e)))))].
    by rewrite (proj2 Hsh virt Hh), He. }
  intros r s2 Hr s3 ->. unfold unmapped_page in Hr. destruct (_ && _).
  { destruct Hr as [-> ->]. split; [done|]. cbn. exists T. split; [by apply unlocked_space|done]. }
  unfold gone. rewrite (proj2 Hsh virt Hh). destruct (maps root T virt) as [e|]; cbn [fmap option_fmap option_map].
  - destruct Hr as (-> & T' & Hsp' & Hm). split; [done|]. cbn [Z.eqb NS_VMM_OK]. exists T'. split.
    + unfold entry_view. rewrite (proj2 (proj2 (proj2 (proj2 (flags_bits e))))). by apply unlocked_space.
    + split; [by apply (shows_update T T' m virt None)|by apply frames_ok_delete].
  - destruct Hr as [-> ->]. split; [done|]. cbn. exists T. split; [by apply unlocked_space|done].
Qed.
End calls.

(** *** What an address space holds *)

Lemma keep_aspace E D K m s : K ⊆ D -> aspace E D m s -> aspace (keep E K s) (D ∖ K) m s.
Proof. intros HK (T & Hsp & H). exists T. split; [by apply keep_space|done]. Qed.

Definition kept E K s s' : Prop := forall x, page_of E x ∈ K -> mem s' !! x = mem s !! x.

Lemma keep_aspace_back E D D' K m m' s s' : K ⊆ D -> aspace E D m s -> aspace (keep E K s) D' m' s' ->
  aspace E (D' ∪ K) m' s' /\ kept E K s s'.
Proof.
  intros HK (T & Hsp & _) (T' & Hsp' & H'). destruct (keep_back slots root E D D' K T T' s s' HK Hsp Hsp') as [H1 H2].
  split; [|done]. exists T'. done.
Qed.

Lemma aspace_machine E K D m s : machine E -> aspace E D m s -> machine (keep E K s).
Proof. intros G (T & Hsp & _). eapply keep_machine; [done|apply Hsp]. Qed.

(** An address space with the pages [m] that holds what it owns and nothing else. *)
Definition holding E m s : Prop := exists D, aspace E D m s /\ owned_pages m D.

(** The bytes of the owned pages of [m] are the same. *)
Definition kept_pages E m s s' : Prop := forall v p fl x, m !! v = Some (p, fl) -> Z.testbit fl 5 = true ->
  page_of E x = p -> mem s' !! x = mem s !! x.

Lemma kept_owned E m D s s' : owned_pages m D -> kept E D s s' -> kept_pages E m s s'.
Proof. intros HD Hk v p fl x Hv Hfl Hx. apply Hk. rewrite Hx. apply (op_frames m D HD). eauto. Qed.

Lemma kept_pages_trans E m m' s1 s2 s3 :
  (forall v p fl, m !! v = Some (p, fl) -> Z.testbit fl 5 = true -> m' !! v = Some (p, fl)) ->
  kept_pages E m s1 s2 -> kept_pages E m' s2 s3 -> kept_pages E m s1 s3.
Proof. intros Hsub H1 H2 v p fl x Hv Hfl Hx. rewrite (H2 v p fl x), (H1 v p fl x); auto. Qed.

Lemma kept_pages_refl E m s : kept_pages E m s s.
Proof. done. Qed.

Lemma owned_delete m D v : owned_pages m D -> owned_pages (delete v m) (gone true m v D).
Proof.
  intros [Hf Ho]. unfold gone. split.
  - intros d. destruct (m !! v) as [[p fl]|] eqn:Ev.
    + destruct (Z.testbit fl 5) eqn:Eb; cbn [andb].
      * rewrite elem_of_difference, elem_of_singleton, Hf. split.
        -- intros [(v' & fl' & Hv' & Hfl') Hne]. exists v', fl'. split; [|done]. rewrite lookup_delete_ne; [done|]. intros ->. congruence.
        -- intros (v' & fl' & [Hne Hv']%lookup_delete_Some & Hfl'). split; [eauto|]. intros ->. apply Hne. by eapply Ho.
      * rewrite Hf. split; intros (v' & fl' & Hv' & Hfl'); exists v', fl'; (split; [|done]).
        -- rewrite lookup_delete_ne; [done|]. intros ->. congruence.
        -- by apply lookup_delete_Some in Hv' as [_ Hv'].
    + rewrite delete_id by done. apply Hf.
  - intros v1 v2 d fl1 fl2 [_ H1]%lookup_delete_Some [_ H2]%lookup_delete_Some. by eapply Ho.
Qed.

Lemma gone_unowned m v D p fl b : m !! v = Some (p, fl) -> Z.testbit fl 5 = false -> gone b m v D = D.
Proof. intros Hv Hfl. unfold gone. rewrite Hv, Hfl. by rewrite andb_false_r. Qed.

Lemma gone_absent m v D b : m !! v = None -> gone b m v D = D.
Proof. intros Hv. unfold gone. by rewrite Hv. Qed.

Lemma gone_sub m v D b : gone b m v D ⊆ D.
Proof. unfold gone. destruct (m !! v) as [[p fl]|]; [|done]. destruct (b && _); set_solver. Qed.

Lemma status_unmapped E sp m virt phys flags : map_status E sp m virt phys flags = None -> m !! virt = None.
Proof.
  unfold map_status, map_refused. destruct (negb (canonical_address virt) || _); [done|].
  destruct (negb (Z.land phys _ =? 0) || _); [done|]. destruct (_ && _); [done|]. destruct (_ && _); [done|].
  destruct (bool_decide (is_Some (m !! virt))) eqn:Eb; [done|]. intros _. apply bool_decide_eq_false in Eb. by apply eq_None_not_Some.
Qed.

Lemma map_spec_cases E sp m virt phys flags r m' : is_u64 virt -> map_spec E sp m virt phys flags r m' ->
  (r = NS_VMM_OK /\ m' = <[virt := (phys, flags)]> m /\ m !! virt = None /\ is_page virt) \/ (r <> NS_VMM_OK /\ m' = m).
Proof.
  intros Hu. unfold map_spec. destruct (map_status E sp m virt phys flags) as [e|] eqn:Est.
  - intros [-> ->]. right. split; [|done]. unfold map_status, map_refused in Est. repeat case_match; by simplify_eq.
  - pose proof (status_unmapped E sp m virt phys flags Est) as Hn. intros [[-> ->]|[[-> | ->] ->]]; [|by right..].
    left. split_and!; try done. destruct (is_page_dec virt Hu) as [?|Hp]; [done|]. unfold map_status in Est. by rewrite (bad_page virt Hu Hp) in Est.
Qed.

Section holding.
Context E (G : machine E) (Hlock : lock (e_obj E) = 0) (Hinit : initialized (e_obj E) <> 0).
Context vmm (Hvmm : vmm <> 0) sp (Hroot : root_phys sp = root) (Hroot0 : root <> 0).

(** A space with a root of its own has no part in the kernel half. *)
Context (Hhalf : owns_root sp <> 0 -> forall v, page_here v -> v < NS_VMM_KERNEL_HALF_BASE).

(** Only pages of the described part are mapped. *)
Lemma holding_here m s v : holding E m s -> is_Some (m !! v) -> page_here v.
Proof. intros (D & (T & _ & [Hsh _] & _) & _). apply Hsh. Qed.

(** Mapping a page, the frame of which is owned by others or put aside. *)
Lemma wp_map_kept D m s virt phys flags : aspace E D m s -> reachable sp virt -> is_u64 phys -> 0 <= flags < 64 ->
  wp (ns_vmm_map vmm (Some sp) virt phys flags)
    (fun r s' => exists m', aspace E D m' s' /\ map_spec E sp m virt phys flags r m' /\ kept E D s s') s.
Proof.
  intros Has Hre Hph Hfl. eapply wp_mono.
  { apply (wp_ns_map (keep E D s)); try done; [by eapply aspace_machine|by apply keep_aspace]. }
  intros r s' (m' & Has' & Hsp). destruct (keep_aspace_back E D _ D m m' s s' ltac:(done) Has Has') as [H1 H2].
  exists m'. replace (D ∖ D ∪ D) with D in H1 by set_solver. done.
Qed.

Lemma wp_map_page m s virt phys flags : holding E m s -> reachable sp virt -> is_u64 phys -> 0 <= flags < 64 ->
  Z.testbit flags 5 = false ->
  wp (ns_vmm_map vmm (Some sp) virt phys flags)
    (fun r s' => exists m', holding E m' s' /\ map_spec E sp m virt phys flags r m' /\ kept_pages E m s s') s.
Proof.
  intros (D & Has & HD) Hre Hph Hfl H5. eapply wp_mono; [by apply (wp_map_kept D m)|].
  intros r s' (m' & Has' & Hsp & Hk). exists m'. split; [|split; [done|by eapply kept_owned]]. exists D. split; [done|].
  unfold map_spec in Hsp. destruct (map_status E sp m virt phys flags) as [e|] eqn:Est; [by destruct Hsp as [_ ->]|].
  apply status_unmapped in Est. destruct Hsp as [[_ ->]|[_ ->]]; [|done]. split.
  - intros d. rewrite (op_frames m D HD). split; intros (v & fl & Hv & Hb); exists v, fl; (split; [|done]).
    + rewrite lookup_insert_ne; [done|]. congruence.
    + apply lookup_insert_Some in Hv as [[_ [= _ <-]]|[_ Hv]]; [congruence|done].
  - intros v v' d fl fl' [[_ [= _ <-]]|[_ Hv]]%lookup_insert_Some [[_ [= _ <-]]|[_ Hv']]%lookup_insert_Some Hb Hb'; try congruence.
    by eapply (op_once m D HD).
Qed.

Lemma wp_unmap_page m s virt (release_owned : bool) : holding E m s -> reachable sp virt ->
  (forall p fl, m !! virt = Some (p, fl) -> release_owned = false -> Z.testbit fl 5 = false) ->
  wp (ns_vmm_unmap vmm (Some sp) virt release_owned)
    (fun r s' => r = unmap_status sp m virt /\ holding E (delete virt m) s' /\ kept_pages E (delete virt m) s s') s.
Proof.
  intros (D & Has & HD) Hre Hrel. assert (Eg : gone release_owned m virt D = gone true m virt D).
  { unfold gone. destruct (m !! virt) as [[p fl]|] eqn:Ev; [|done]. destruct release_owned; [done|]. by rewrite (Hrel p fl). }
  set (K := gone true m virt D) in *. assert (HK : K ⊆ D) by apply gone_sub.
  assert (HOK : owned_pages (delete virt m) K) by by apply owned_delete.
  eapply wp_mono.
  { apply (wp_ns_unmap (keep E K s)) with (D := D ∖ K) (m := m); try done; [by eapply aspace_machine|by apply keep_aspace|].
    intros p fl Hv -> Hb. unfold K, gone. rewrite Hv, Hb. cbn [andb]. assert (p ∈ D) by (apply (op_frames m D HD); eauto). set_solver. }
  intros r s' [Hr Has']. split; [done|].
  assert (Hback : forall D' m', aspace (keep E K s) D' m' s' -> D' ∪ K = K -> m' = delete virt m ->
     holding E (delete virt m) s' /\ kept_pages E (delete virt m) s s').
  { intros D' m' H1 H2 ->. destruct (keep_aspace_back E D D' K m _ s s' HK Has H1) as [H3 H4]. rewrite H2 in H3.
    split; [by exists K|by eapply kept_owned]. }
  destruct (r =? NS_VMM_OK) eqn:Er.
  - eapply Hback; [exact Has'| |done].
    assert (Hg : gone release_owned m virt (D ∖ K) ⊆ ∅); [|set_solver].
    unfold K, gone in *. destruct (m !! virt) as [[p fl]|]; [|set_solver]. destruct (Z.testbit fl 5); [|rewrite !andb_false_r; set_solver].
    destruct release_owned; cbn [andb] in *; set_solver.
  - assert (Hn : m !! virt = None).
    { destruct (m !! virt) as [x|] eqn:Ev; [exfalso|done]. assert (Hh : page_here virt).
      { apply (holding_here m s); [by exists D|by rewrite Ev]. }
      assert (Hns : negb (owns_root sp =? 0) && (NS_VMM_KERNEL_HALF_BASE <=? virt) = false).
      { destruct (Z.eqb_spec (owns_root sp) 0) as [|Hown]; [done|]. specialize (Hhalf Hown virt Hh). cbn. apply Z.leb_gt. done. }
      unfold unmap_status in Hr. rewrite (good_page virt (proj1 Hh)), Hns, Ev in Hr. rewrite Hr in Er. done. }
    eapply Hback; [exact Has'| |by rewrite delete_id]. unfold K. rewrite gone_absent by done. set_solver.
Qed.
End holding.
End aspace.
