(* ===== verification/VmmRanges.v ===== *)
(** * Ranges of pages

    The loops over ranges: unmapping, mapping and allocating, where a failure
    takes back what was done, and protecting. *)

From S2P Require Import Prelude Errno Bytes Pmm Frames Vmm VmmTree VmmBits VmmProps VmmWalk VmmOps VmmSpace.

(** ** Valid ranges *)

Definition range_end (virt length : Z) : Z := virt + ceil_to length 4096.

Record range_ok (virt length : Z) : Prop := {
  ra_page : is_page virt;
  ra_length : 0 < length;
  ra_end : range_end virt length < 2 ^ 64;
  ra_last : canonical_address (range_end virt length - 1) = true }.

Lemma validate_range virt length : is_u64 virt -> is_u64 length ->
  (range_ok virt length /\ validate_page_range virt length = (NS_VMM_OK, range_end virt length)) \/
  (~ range_ok virt length /\ exists e, validate_page_range virt length = (NS_VMM_EINVAL, e)).
Proof.
  intros Hv Hl. unfold validate_page_range. pose proof (ceil_to_ge length 4096 ltac:(lia)) as Hc.
  destruct (Z.eqb_spec length 0) as [->|Hl0]; cbn [orb]; [right; split; [by intros [_ ? _ _]|by eexists]|].
  destruct (is_page_dec virt Hv) as [Hp|Hp].
  2: { rewrite orb_comm, (bad_page virt Hv Hp). right. split; [by intros [? _ _ _]|by eexists]. }
  rewrite orb_comm, (good_page virt Hp). unfold SIZE_MAX, UINT64_MAX. change (NS_PAGE_SIZE - 1) with 4095.
  destruct (Z.ltb_spec (2 ^ 64 - 1 - 4095) length) as [Hbig|Hbig].
  { right. split; [|by eexists]. intros [_ _ He _]. unfold range_end in He. pose proof (ceil_to_divide length 4096 ltac:(lia)) as [q Hq].
    destruct Hp as (_ & [k ->] & _). rewrite Hq in *. lia. }
  replace (length + NS_PAGE_SIZE - 1) with (length + 4095) by (unfold NS_PAGE_SIZE; lia).
  assert (Er : Z.land (u64 (length + 4095)) (not64 4095) = ceil_to length 4096).
  { rewrite u64_small by lia. change 4095 with (2 ^ 12 - 1) at 2. rewrite land_not64 by lia. unfold ceil_to. done. }
  rewrite Er.
  unfold add_overflow_uintptr. assert (Hr64 : is_u64 (ceil_to length 4096)).
  { unfold ceil_to in *. zdiv. }
  rewrite add_wraps by done. destruct (Z.leb_spec (2 ^ 64) (virt + ceil_to length 4096)) as [Ho|Ho]; cbn [orb].
  { right. split; [|by eexists]. intros [_ _ He _]. unfold range_end in He. lia. }
  rewrite (u64_small (virt + ceil_to length 4096)) by lia. pose proof (ceil_to_ge length 4096 ltac:(lia)). destruct (Z.leb_spec (virt + ceil_to length 4096) virt); [lia|].
  rewrite (u64_small (virt + ceil_to length 4096 - 1)) by lia. cbn [orb]. fold (range_end virt length).
  destruct (canonical_address (range_end virt length - 1)) eqn:Ec; cbn [negb].
  - left. split; [constructor; try done; lia|done].
  - right. split; [by intros [_ _ _ ?]; congruence|by eexists].
Qed.

Lemma range_facts virt length : range_ok virt length ->
  (4096 | virt) /\ (4096 | range_end virt length) /\ 0 <= virt < range_end virt length /\
  (range_end virt length - virt) / 4096 < Z.of_nat (page_fuel virt (range_end virt length)).
Proof.
  intros [(Hu & Hd & _) Hl He _]. pose proof (ceil_to_ge length 4096 ltac:(lia)) as Hc.
  unfold page_fuel. change NS_PAGE_SIZE with 4096. unfold range_end in *. split_and!; try done; try lia.
  apply Z.divide_add_r; [done|]. apply ceil_to_divide. lia.
Qed.

(** The pages outside [a, e). *)
Definition outside (a e : Z) (m : pages) : pages := filter (fun x => ~ (a <= x.1 < e)) m.

Lemma outside_lookup a e m v : outside a e m !! v = if decide (a <= v < e) then None else m !! v.
Proof.
  unfold outside. apply option_eq. intros x. rewrite map_lookup_filter_Some. cbn. destruct (decide _); [|tauto]. split; [tauto|done].
Qed.

Lemma outside_empty a e m : e <= a -> outside a e m = m.
Proof. intros He. apply map_eq. intros v. rewrite outside_lookup. by rewrite decide_False by lia. Qed.

(** [n] pages at [virt] on consecutive frames. *)
Fixpoint fill (n : nat) (virt phys flags : Z) (m : pages) : pages :=
  match n with
  | O => m
  | S k => <[virt + 4096 * Z.of_nat k := (phys + 4096 * Z.of_nat k, flags)]> (fill k virt phys flags m)
  end.

(** [m] has none of the [n] pages at [virt]. *)
Definition clear (n : nat) (virt : Z) (m : pages) : Prop := forall k, (k < n)%nat -> m !! (virt + 4096 * Z.of_nat k) = None.

Lemma fill_out n virt phys flags m v : (forall k, (k < n)%nat -> v <> virt + 4096 * Z.of_nat k) -> fill n virt phys flags m !! v = m !! v.
Proof.
  induction n as [|n IH]; intros Hv; cbn [fill]; [done|]. rewrite lookup_insert_ne by (intros E; by apply (Hv n); [lia|]).
  apply IH. intros k Hk. apply Hv. lia.
Qed.

Lemma fill_in n virt phys flags m k : (k < n)%nat ->
  fill n virt phys flags m !! (virt + 4096 * Z.of_nat k) = Some (phys + 4096 * Z.of_nat k, flags).
Proof.
  induction n as [|n IH]; intros Hk; [lia|]. cbn [fill]. destruct (decide (k = n)) as [->|Hne]; [apply lookup_insert_eq|].
  rewrite lookup_insert_ne by lia. apply IH. lia.
Qed.

Lemma outside_fill n virt phys flags m : (4096 | virt) -> (forall v, is_Some (m !! v) -> (4096 | v)) -> clear n virt m ->
  outside virt (virt + 4096 * Z.of_nat n) (fill n virt phys flags m) = m.
Proof.
  intros [q ->] Hal Hc. apply map_eq. intros v. rewrite outside_lookup. destruct (decide _) as [Hin|Hout].
  - destruct (m !! v) as [x|] eqn:Ev; [|done]. exfalso. destruct (Hal v) as [r ->]; [by eexists|].
    specialize (Hc (Z.to_nat (r - q)) ltac:(lia)). replace (q * 4096 + 4096 * Z.of_nat (Z.to_nat (r - q))) with (r * 4096) in Hc by lia. congruence.
  - apply fill_out. intros k Hk ->. apply Hout. lia.
Qed.

(** Whole pages below a canonical page are a valid range. *)
Lemma canonical_page v : is_page v -> canonical_address (v + 4095) = true.
Proof.
  intros (_ & [q ->] & Hc). unfold canonical_address in *.
  apply orb_true_iff in Hc as [Hc%Z.ltb_lt|Hc%Z.leb_le]; apply orb_true_iff; [left; apply Z.ltb_lt|right; apply Z.leb_le];
    revert Hc; clear; unfold NS_VMM_USER_TOP, NS_VMM_KERNEL_HALF_BASE; lia.
Qed.

Lemma range_of_pages virt n : is_page virt -> (0 < n)%nat -> is_page (virt + 4096 * (Z.of_nat n - 1)) -> virt + 4096 * Z.of_nat n < 2 ^ 64 ->
  range_ok virt (4096 * Z.of_nat n) /\ range_end virt (4096 * Z.of_nat n) = virt + 4096 * Z.of_nat n.
Proof.
  intros Hp Hn Hl H64. assert (Ec : ceil_to (4096 * Z.of_nat n) 4096 = 4096 * Z.of_nat n).
  { unfold ceil_to. replace (4096 * Z.of_nat n + (4096 - 1)) with (4095 + Z.of_nat n * 4096) by lia. rewrite Z.div_add by lia. change (4095 / 4096) with 0. lia. }
  assert (Er : range_end virt (4096 * Z.of_nat n) = virt + 4096 * Z.of_nat n) by (unfold range_end; lia).
  split; [|done]. pose proof (canonical_page _ Hl) as Hc. constructor; try done; [lia| |].
  - by rewrite Er.
  - rewrite Er. by replace (virt + 4096 * Z.of_nat n - 1) with (virt + 4096 * (Z.of_nat n - 1) + 4095) by lia.
Qed.

Section ranges.
Context {W : Type} (slots : Z -> Prop) (root : Z) (E : env W) (G : machine E)
  (Hlock : lock (e_obj E) = 0) (Hinit : initialized (e_obj E) <> 0)
  (vmm : Z) (Hvmm : vmm <> 0) (sp : ns_vmm_space) (Hroot : root_phys sp = root) (Hroot0 : root <> 0).
Abbreviation page_here := (page_here slots).
Context (Hhalf : owns_root sp <> 0 -> forall v, page_here v -> v < NS_VMM_KERNEL_HALF_BASE).
Implicit Types (s : vstate W) (m : pages) (virt phys flags : Z).
Abbreviation holding := (holding slots root E).
Abbreviation kept_pages := (kept_pages E).

Definition reach_range (a e : Z) : Prop := forall v, (4096 | v) -> a <= v < e -> reachable slots sp v.

Lemma holding_aligned m s v : holding m s -> is_Some (m !! v) -> (4096 | v).
Proof. intros Hh Hv. by destruct (holding_here slots root E m s v Hh Hv) as [(_ & ? & _) _]. Qed.

Lemma outside_step m a e : (forall v, is_Some (m !! v) -> (4096 | v)) -> (4096 | a) -> a < e ->
  outside (a + 4096) e (delete a m) = outside a e m.
Proof.
  intros Hal [q ->] He. apply map_eq. intros v. rewrite !outside_lookup. destruct (decide (v = q * 4096)) as [->|Hne].
  - rewrite lookup_delete_eq, (decide_True (P := q * 4096 <= q * 4096 < e)) by lia. by destruct (decide _).
  - rewrite lookup_delete_ne by done. destruct (m !! v) eqn:Ev; [|by destruct (decide _), (decide _)].
    destruct (Hal v) as [r ->]; [by eexists|]. destruct (decide (q * 4096 + 4096 <= _ < e)), (decide (q * 4096 <= _ < e)); done || lia.
Qed.

(** ** Unmapping *)

Lemma wp_unmap_loop fuel address end_ m s (release_owned : bool) first_error :
  (4096 | address) -> (4096 | end_) -> 0 <= address -> end_ < 2 ^ 64 -> (end_ - address) / 4096 < Z.of_nat fuel ->
  reach_range address end_ -> holding m s ->
  (release_owned = false -> forall v p fl, address <= v < end_ -> m !! v = Some (p, fl) -> Z.testbit fl 5 = false) ->
  wp (unmap_loop fuel vmm (Some sp) address end_ release_owned first_error)
    (fun r s' => holding (outside address end_ m) s' /\ kept_pages (outside address end_ m) s s' /\
       ((forall v, (4096 | v) -> address <= v < end_ -> page_here v) -> r = first_error)) s.
Proof.
  revert address m s first_error. induction fuel as [|fuel IH]; intros address m s first_error Ha He H0 Hend Hfuel Hre Hh Hrel; cbn [unmap_loop].
  { destruct (Z.ltb_spec address end_) as [Hlt|Hge].
    - assert (0 <= (end_ - address) / 4096) by (apply Z.div_pos; lia). lia.
    - apply wp_ret. by rewrite outside_empty. }
  destruct (Z.ltb_spec address end_) as [Hlt|Hge]; [|apply wp_ret; by rewrite outside_empty].
  apply wp_bind. eapply wp_mono.
  { apply (wp_unmap_page slots root E) with (m := m); try done; [apply Hre; [done|lia]|].
    intros p fl Hv Hf. apply (Hrel Hf address p fl); [lia|done]. }
  intros r s1 (Hr & Hh1 & Hk1).
  assert (Hnext : address + 4096 <= end_) by (destruct Ha as [q ->], He as [k ->]; lia).
  rewrite u64_small by (unfold NS_PAGE_SIZE; lia). change NS_PAGE_SIZE with 4096. eapply wp_mono.
  { apply (IH (address + 4096) (delete address m)); try done; [|lia| | |].
    - apply Z.divide_add_r; [done|]. by exists 1.
    - replace (end_ - (address + 4096)) with (end_ - address + (-1) * 4096) by lia. rewrite Z.div_add by lia. lia.
    - intros v Hv Hin. apply Hre; [done|lia].
    - intros Hf v p fl Hin [_ Hv]%lookup_delete_Some. apply (Hrel Hf v p fl); [lia|done]. }
  assert (Hal : forall v, is_Some (m !! v) -> (4096 | v)) by (intros v; by apply (holding_aligned m s)).
  rewrite outside_step by done. intros r' s2 (Hh2 & Hk2 & Hr2). split; [done|]. split.
  - intros v p fl x Hv Hb Hx. rewrite (Hk2 v p fl x) by done. apply (Hk1 v p fl x); [|done|done].
    rewrite outside_lookup in Hv. destruct (decide _); [done|]. rewrite lookup_delete_ne; [done|lia].
  - intros Hall. rewrite Hr2; [|intros v Hd Hin; apply Hall; [done|lia]].
    assert (Hpg : page_here address) by (apply Hall; [done|lia]).
    assert (Hst : r = NS_VMM_OK \/ r = NS_VMM_ENOENT).
    { subst r. unfold unmap_status. rewrite (good_page address (proj1 Hpg)).
      destruct (Z.eqb_spec (owns_root sp) 0) as [|Hown]; cbn [negb andb]; [by destruct (bool_decide _); [left|right]|].
      rewrite (proj2 (Z.leb_gt _ _) (Hhalf Hown address Hpg)). by destruct (bool_decide _); [left|right]. }
    by destruct Hst as [-> | ->].
Qed.

(** The result is no error when the whole range is in use by the space. *)
Lemma wp_unmap_range m s virt length (release_owned : bool) : is_u64 virt -> is_u64 length ->
  (range_ok virt length -> reach_range virt (range_end virt length)) -> holding m s ->
  (release_owned = false -> forall v p fl, virt <= v < range_end virt length -> m !! v = Some (p, fl) -> Z.testbit fl 5 = false) ->
  wp (ns_vmm_unmap_range vmm (Some sp) virt length release_owned)
    (fun r s' => (length = 0 /\ r = NS_VMM_OK /\ s' = s) \/ (length <> 0 /\ ~ range_ok virt length /\ r = NS_VMM_EINVAL /\ s' = s) \/
       (range_ok virt length /\ holding (outside virt (range_end virt length) m) s' /\
        kept_pages (outside virt (range_end virt length) m) s s' /\
        ((forall v, (4096 | v) -> virt <= v < range_end virt length -> page_here v) -> r = NS_VMM_OK))) s.
Proof.
  intros Hu Hl Hre Hh Hrel. unfold ns_vmm_unmap_range. destruct (Z.eqb_spec length 0) as [->|Hl0]; [apply wp_ret; auto|].
  destruct (validate_range virt length Hu Hl) as [[Hok ->]|[Hno [e ->]]].
  - cbn [NS_VMM_OK Z.eqb negb]. destruct (range_facts virt length Hok) as (H1 & H2 & H3 & H4). eapply wp_mono.
    { apply (wp_unmap_loop _ virt (range_end virt length) m s); try done; [lia|apply Hok|by apply Hre]. }
    intros r s' H. right. right. done.
  - cbn [NS_VMM_EINVAL NS_VMM_OK Z.eqb negb]. apply wp_ret. right. left. done.
Qed.

(** ** Mapping *)

(** Taking back the first [n] pages. *)
Lemma wp_take_back n virt m s (release_owned : bool) mk : holding mk s -> (4096 | virt) -> is_u64 virt -> virt + 4096 * Z.of_nat n < 2 ^ 64 -> clear n virt m ->
  (forall v, is_Some (m !! v) -> (4096 | v)) -> (forall v, ~ virt <= v < virt + 4096 * Z.of_nat n -> mk !! v = m !! v) ->
  (forall k, (k < n)%nat -> is_page (virt + 4096 * Z.of_nat k)) ->
  (forall k, (k < n)%nat -> reachable slots sp (virt + 4096 * Z.of_nat k)) ->
  (release_owned = false -> forall v p fl, virt <= v < virt + 4096 * Z.of_nat n -> mk !! v = Some (p, fl) -> Z.testbit fl 5 = false) ->
  wp (ns_vmm_unmap_range vmm (Some sp) virt (4096 * Z.of_nat n) release_owned) (fun _ s' => holding m s' /\ kept_pages m s s') s.
Proof.
  intros Hh Hd Hu H64 Hc Hal Hout Hpg Hre Hrel.
  assert (Em : outside virt (virt + 4096 * Z.of_nat n) mk = m).
  { apply map_eq. intros v. rewrite outside_lookup. destruct (decide _) as [Hin|]; [|by apply Hout].
    destruct (m !! v) as [x|] eqn:Ev; [|done]. exfalso. destruct Hd as [q ->], (Hal v) as [r ->]; [by eexists|].
    specialize (Hc (Z.to_nat (r - q)) ltac:(lia)). replace (q * 4096 + 4096 * Z.of_nat (Z.to_nat (r - q))) with (r * 4096) in Hc by lia. congruence. }
  destruct n as [|n].
  { exists NS_VMM_OK, s. split; [done|]. rewrite outside_empty in Em by lia. by subst. }
  destruct (range_of_pages virt (S n)) as [Hok He].
  { specialize (Hpg 0%nat ltac:(lia)). by rewrite Z.add_0_r in Hpg. }
  { lia. }
  { specialize (Hpg n ltac:(lia)). by replace (Z.of_nat (S n) - 1) with (Z.of_nat n) by lia. }
  { done. }
  assert (Hl : is_u64 (4096 * Z.of_nat (S n))) by (pose proof (ra_end _ _ Hok); lia).
  eapply wp_mono.
  { apply (wp_unmap_range mk s virt); try done; rewrite He; [|done].
    intros _ v [r ->] Hin. destruct Hd as [q ->]. specialize (Hre (Z.to_nat (r - q)) ltac:(lia)).
    by replace (q * 4096 + 4096 * Z.of_nat (Z.to_nat (r - q))) with (r * 4096) in Hre by lia. }
  intros r s' [(Hz & _)|[(_ & Hno & _)|(_ & H1 & H2 & _)]]; [lia|done|]. rewrite He, Em in H1, H2. done.
Qed.

Lemma fill_keeps k virt phys flags m v x : clear k virt m -> m !! v = Some x -> fill k virt phys flags m !! v = Some x.
Proof. intros Hc Hv. rewrite fill_out; [done|]. intros i Hi ->. rewrite (Hc i Hi) in Hv. done. Qed.

Definition mapped_range m virt phys flags n (r : Z) s s' : Prop :=
  ((r = NS_VMM_OK /\ holding (fill n virt phys flags m) s' /\ clear n virt m) \/ (r <> NS_VMM_OK /\ holding m s')) /\ kept_pages m s s'.

Lemma wp_map_loop n virt phys flags m s0 :
  (4096 | virt) -> is_u64 virt -> virt + 4096 * Z.of_nat n < 2 ^ 64 -> 0 <= phys -> phys + 4096 * Z.of_nat n <= 2 ^ 64 -> 0 <= flags < 64 ->
  Z.testbit flags 5 = false -> reach_range virt (virt + 4096 * Z.of_nat n) -> holding m s0 ->
  forall fuel k s, (k <= n)%nat -> (n - k < fuel)%nat -> holding (fill k virt phys flags m) s -> clear k virt m ->
  (forall i, (i < k)%nat -> is_page (virt + 4096 * Z.of_nat i)) -> kept_pages m s0 s ->
  wp (map_loop fuel vmm (Some sp) virt (virt + 4096 * Z.of_nat n) (virt + 4096 * Z.of_nat k) phys (4096 * Z.of_nat k) flags)
    (fun r s' => mapped_range m virt phys flags n r s0 s') s.
Proof.
  intros Hd Hu H64 Hp0 Hp64 Hfl H5 Hre Hh0. assert (Hal : forall v, is_Some (m !! v) -> (4096 | v)) by (intros v; by apply (holding_aligned m s0)).
  induction fuel as [|fuel IH]; intros k s Hk Hfuel Hh Hc Hpg Hkept; [lia|]. cbn [map_loop].
  destruct (Z.ltb_spec (virt + 4096 * Z.of_nat k) (virt + 4096 * Z.of_nat n)) as [Hlt|Hge].
  2: { assert (k = n) as -> by lia. apply wp_ret. split; [left|]; done. }
  assert (Hrk : reachable slots sp (virt + 4096 * Z.of_nat k)).
  { apply Hre; [|lia]. destruct Hd as [q ->]. exists (q + Z.of_nat k). lia. }
  rewrite (u64_small (phys + _)) by lia. apply wp_bind. eapply wp_mono.
  { apply (wp_map_page slots root E) with (m := fill k virt phys flags m) (sp := sp); try done. lia. }
  intros r s1 (m' & Hh1 & Hspec & Hk1). apply map_spec_cases in Hspec as [(-> & -> & Hn & Hpk)|[Hr ->]]; [| |lia].
  - cbn [NS_VMM_OK Z.eqb negb]. change NS_PAGE_SIZE with 4096. rewrite !u64_small by lia.
    replace (virt + 4096 * Z.of_nat k + 4096) with (virt + 4096 * Z.of_nat (S k)) by lia.
    replace (4096 * Z.of_nat k + 4096) with (4096 * Z.of_nat (S k)) by lia. apply IH; [lia|lia|done| | |].
    + intros i Hi. destruct (decide (i = k)) as [->|]; [|apply Hc; lia]. rewrite fill_out in Hn; [done|]. intros j Hj. lia.
    + intros i Hi. destruct (decide (i = k)) as [->|]; [done|]. apply Hpg. lia.
    + eapply kept_pages_trans; [|exact Hkept|exact Hk1]. intros v p fl Hv _. by apply fill_keeps.
  - rewrite (proj2 (Z.eqb_neq r NS_VMM_OK) Hr). cbn [negb]. apply wp_bind. eapply wp_mono.
    { apply (wp_take_back k virt m s1 false (fill k virt phys flags m)); try done; [lia| | |].
      - intros v Hv. apply fill_out. intros i Hi ->. apply Hv. lia.
      - intros i Hi. apply Hre; [|lia]. destruct Hd as [q ->]. exists (q + Z.of_nat i). lia.
      - intros _ v p fl Hin Hv. destruct (holding_aligned _ s1 v Hh1 ltac:(by eexists)) as [j ->]. destruct Hd as [q ->].
        assert (Hj : (Z.to_nat (j - q) < k)%nat) by lia. pose proof (fill_in k (q * 4096) phys flags m _ Hj) as Hf.
        replace (q * 4096 + 4096 * Z.of_nat (Z.to_nat (j - q))) with (j * 4096) in Hf by lia. congruence. }
    intros _ s2 [Hh2 Hk2]. apply wp_ret. split; [by right|]. eapply kept_pages_trans; [|exact Hkept|].
    { intros v p fl Hv _. exact Hv. }
    eapply kept_pages_trans; [| |exact Hk2]; [done|]. intros v p fl x Hv. eapply Hk1. by apply fill_keeps.
Qed.

(** The number of pages of a range. *)
Definition page_count (length : Z) : nat := Z.to_nat (ceil_to length 4096 / 4096).

Lemma page_count_end virt length : range_ok virt length -> range_end virt length = virt + 4096 * Z.of_nat (page_count length).
Proof.
  intros Hok. pose proof (ra_length _ _ Hok). unfold range_end, page_count. pose proof (ceil_to_ge length 4096 ltac:(lia)).
  destruct (ceil_to_divide length 4096 ltac:(lia)) as [q Hq]. rewrite Hq, Z.div_mul by lia. lia.
Qed.

Lemma wp_map_range m s virt phys length flags : holding m s -> is_u64 virt -> is_u64 phys -> is_u64 length -> 0 <= flags < 64 ->
  Z.testbit flags 5 = false -> (range_ok virt length -> reach_range virt (range_end virt length)) ->
  wp (ns_vmm_map_range vmm (Some sp) virt phys length flags)
    (fun r s' => (r = NS_VMM_EINVAL /\ s' = s) \/ (range_ok virt length /\ mapped_range m virt phys flags (page_count length) r s s')) s.
Proof.
  intros Hh Hv Hp Hl Hfl H5 Hre. unfold ns_vmm_map_range. destruct (validate_range virt length Hv Hl) as [[Hok ->]|[_ [e ->]]].
  2: { cbn [NS_VMM_EINVAL NS_VMM_OK Z.eqb negb]. rewrite orb_true_r. apply wp_ret. by left. }
  rewrite (proj2 (Z.eqb_neq vmm 0) Hvmm). cbn [NS_VMM_OK Z.eqb negb orb]. rewrite orb_false_r.
  destruct (negb (Z.land phys (NS_PAGE_SIZE - 1) =? 0)); [apply wp_ret; by left|].
  destruct (range_facts virt length Hok) as (Hd & _ & Hr & Hf). pose proof (ra_end _ _ Hok) as He. specialize (Hre Hok).
  rewrite (page_count_end virt length Hok) in *. set (n := page_count length) in *.
  rewrite u64_small by lia. unfold UINT64_MAX. destruct (Z.ltb_spec (2 ^ 64 - 1 - (virt + 4096 * Z.of_nat n - virt - 1)) phys); [apply wp_ret; by left|].
  eapply wp_mono.
  { pose proof (wp_map_loop n virt phys flags m s Hd Hv He ltac:(lia) ltac:(lia) Hfl H5 Hre Hh (page_fuel virt (virt + 4096 * Z.of_nat n)) 0 s) as H0.
    rewrite Z.mul_0_r, Z.add_0_r in H0. apply H0; [lia| |done|intros i Hi; lia|intros i Hi; lia|done].
    replace (virt + 4096 * Z.of_nat n - virt) with (Z.of_nat n * 4096) in Hf by lia.
    rewrite Z.div_mul in Hf by lia. lia. }
  intros r s' H1. by right.
Qed.
End ranges.
