(* ===== verification/VmmAlloc.v ===== *)
(** * Allocating pages

    [ns_vmm_alloc_map]: every page of the range gets a frame of its own that was
    free and is cleared, or nothing changes and no frame is lost. *)

From S2P Require Import Prelude Errno Bytes Pmm Frames Vmm VmmTree VmmBits VmmProps VmmWalk VmmOps VmmSpace VmmRanges.

Section alloc.
Context {W : Type} (slots : Z -> Prop) (root : Z) (E : env W) (G : machine E)
  (Hlock : lock (e_obj E) = 0) (Hinit : initialized (e_obj E) <> 0)
  (vmm : Z) (Hvmm : vmm <> 0) (sp : ns_vmm_space) (Hroot : root_phys sp = root) (Hroot0 : root <> 0).
Abbreviation page_here := (page_here slots).
Context (Hhalf : owns_root sp <> 0 -> forall v, page_here v -> v < NS_VMM_KERNEL_HALF_BASE).
Implicit Types (s : vstate W) (m : pages) (D : gset Z) (virt phys flags f : Z).
Abbreviation aspace := (aspace slots root E).
Abbreviation holding := (holding slots root E).
Abbreviation kept_pages := (kept_pages E).

Definition zeroed f s : Prop := forall x, page_of E x = f -> mem s !! x = Some 0.

(** ** Frames for an address space *)

Lemma aspace_frame D m s f : aspace D m s -> f ∈ D -> (4096 | f) /\ 0 <= f < 4096 * e_frames E.
Proof.
  intros (T & [V _ _ _] & _) Hf. destruct (o_held _ _ _ _ _ (vm_owns _ _ _ _ V) f) as (k & -> & Hk & _); [set_solver|].
  split; [by exists k; lia|lia].
Qed.

Lemma wp_page_alloc D m s Q : aspace D m s ->
  (forall f s1, f ∉ D -> mem s1 = mem s -> aspace ({[f]} ∪ D) m s1 -> Q (NS_PMM_OK, f) s1) -> (forall t, Q (NS_PMM_ENOSPC, t) s) ->
  wp pmm_alloc Q s.
Proof.
  intros (T & [V HD HT Hf] & Hsh) HQ Hno. apply (wp_pmm_alloc E (dom T ∪ D) T); [done| |done].
  intros f s1 Hn _ Hm V1. apply HQ; [set_solver|done|]. exists T. split; [|done]. constructor; try done; [|set_solver].
  by replace (dom T ∪ ({[f]} ∪ D)) with ({[f]} ∪ (dom T ∪ D)) by set_solver.
Qed.

Lemma wp_page_free D m s f Q : aspace D m s -> f ∈ D ->
  (forall s1, mem s1 = mem s -> aspace (D ∖ {[f]}) m s1 -> Q NS_PMM_OK s1) -> wp (pmm_free f) Q s.
Proof.
  intros (T & [V HD HT Hf] & Hsh) Hin HQ. assert (Hn : f ∉ dom T) by set_solver.
  apply (wp_pmm_free E (dom T ∪ D) T); [done|set_solver|by apply not_elem_of_dom|].
  intros s1 Hm V1. apply HQ; [done|]. exists T. split; [|done]. constructor; try done; [|set_solver].
  by replace (dom T ∪ D ∖ {[f]}) with ((dom T ∪ D) ∖ {[f]}) by set_solver.
Qed.

(** Clearing a page that the space holds, when the direct map reaches it. *)
Lemma wp_page_clear D m s f (kfail k : M (vstate W) Z) Q : aspace D m s -> f ∈ D -> wp kfail Q s ->
  (forall s1, aspace D m s1 -> zeroed f s1 -> (forall x, page_of E x <> f -> mem s1 !! x = mem s !! x) -> wp k Q s1) ->
  wp (page ← phys_to_virt f NS_PAGE_SIZE; if page =? 0 then kfail else bytes_zero page NS_PAGE_SIZE;; k) Q s.
Proof.
  intros Has Hin Hfail Hk. destruct (aspace_frame D m s f Has Hin) as [Hd Hr]. destruct Has as (T & [V HD HT Hf] & Hsh).
  assert (Hn : f ∉ dom T) by set_solver. pose proof (g_base E G) as [Hb _]. unfold NS_VMM_KERNEL_HALF_BASE in Hb.
  apply wp_bind, (wp_phys_to_virt E G (dom T ∪ D) T); [done|lia|done| |intros _; by rewrite Z.eqb_refl].
  intros Hs. change NS_PAGE_SIZE with 4096 in Hs. rewrite (proj2 (Z.eqb_neq (base E + f) 0)) by lia.
  assert (Hpage : forall x, in_page E f x <-> page_of E x = f).
  { intros x. split; [by apply page_of_in|]. intros <-. unfold in_page, page_of.
    pose proof (Z.div_mod (x - base E) 4096 ltac:(lia)). pose proof (Z.mod_pos_bound (x - base E) 4096 ltac:(lia)). lia. }
  apply wp_bind, (wp_zero_page E G (dom T ∪ D) T); [done|set_solver|by apply not_elem_of_dom|done|].
  intros m' V1 Hz Ho. apply Hk; cbn.
  - exists T. split; [by constructor|done].
  - intros x Hx. by apply Hz, Hpage.
  - intros x Hx. apply Ho. by rewrite Hpage.
Qed.

(** ** One page *)

Lemma owned_insert m D v f fl : owned_pages m D -> m !! v = None -> f ∉ D -> Z.testbit fl 5 = true ->
  owned_pages (<[v := (f, fl)]> m) ({[f]} ∪ D).
Proof.
  intros [H1 H2] Hv Hf Hb. split.
  - intros d. rewrite elem_of_union, elem_of_singleton, H1. split.
    + intros [->|(v' & fl' & Hv' & Hb')]; [exists v, fl; by rewrite lookup_insert_eq|]. exists v', fl'. split; [|done].
      rewrite lookup_insert_ne; [done|]. congruence.
    + intros (v' & fl' & [[_ [= <- _]]|[_ Hv']]%lookup_insert_Some & Hb'); [by left|right; eauto].
  - intros v1 v2 d fl1 fl2 [[<- [= <- _]]|[Hn1 Hv1]]%lookup_insert_Some [[<- E2]|[Hn2 Hv2]]%lookup_insert_Some Hb1 Hb2; try done.
    + exfalso. apply Hf, H1. eauto.
    + injection E2 as <- _. exfalso. apply Hf, H1. eauto.
    + by eapply H2.
Qed.

(** The pages [i < k] of the range have a cleared frame each. *)
Definition fresh_range k virt flags (m mk : pages) s : Prop :=
  clear k virt m /\ (forall v, ~ virt <= v < virt + 4096 * Z.of_nat k -> mk !! v = m !! v) /\
  forall i, (i < k)%nat -> is_page (virt + 4096 * Z.of_nat i) /\ exists f, mk !! (virt + 4096 * Z.of_nat i) = Some (f, Z.lor flags NS_VMM_PAGE_OWNED) /\ zeroed f s.

Definition alloc_mapped m virt flags n (r : Z) s s' : Prop :=
  ((r = NS_VMM_OK /\ exists mk, holding mk s' /\ fresh_range n virt flags m mk s') \/ (r <> NS_VMM_OK /\ holding m s')) /\ kept_pages m s s'.

Lemma own_flag flags : 0 <= flags < 64 -> 0 <= Z.lor flags NS_VMM_PAGE_OWNED < 64 /\ Z.testbit (Z.lor flags NS_VMM_PAGE_OWNED) 5 = true.
Proof.
  intros Hf. split; [|rewrite Z.lor_spec; apply orb_true_r]. apply (lor_bound _ _ 6); [lia|lia|by vm_compute].
Qed.

Lemma kept_pages_sub m m' s s' : (forall v x, m !! v = Some x -> m' !! v = Some x) -> kept_pages m' s s' -> kept_pages m s s'.
Proof. intros Hsub Hk v p fl x Hv. eapply Hk. by apply Hsub. Qed.

Lemma fresh_keeps k virt flags m mk s : fresh_range k virt flags m mk s -> (forall v, is_Some (m !! v) -> (4096 | v)) -> (4096 | virt) ->
  forall v x, m !! v = Some x -> mk !! v = Some x.
Proof.
  intros (Hc & Ho & _) Hal [q ->] v x Hv. rewrite Ho; [done|]. intros Hin. destruct (Hal v) as [r ->]; [by eexists|].
  specialize (Hc (Z.to_nat (r - q)) ltac:(lia)). replace (q * 4096 + 4096 * Z.of_nat (Z.to_nat (r - q))) with (r * 4096) in Hc by lia. congruence.
Qed.

(** Taking back the pages allocated so far. *)
Lemma wp_alloc_undo k n virt flags m mk s (r : Z) s0 : (k <= n)%nat -> (4096 | virt) -> is_u64 virt -> virt + 4096 * Z.of_nat n < 2 ^ 64 ->
  reach_range slots sp virt (virt + 4096 * Z.of_nat n) -> (forall v, is_Some (m !! v) -> (4096 | v)) ->
  holding mk s -> fresh_range k virt flags m mk s -> kept_pages m s0 s -> r <> NS_VMM_OK ->
  wp (ns_vmm_unmap_range vmm (Some sp) virt (4096 * Z.of_nat k) true;; mret r) (fun r' s' => alloc_mapped m virt flags n r' s0 s') s.
Proof.
  intros Hk Hd Hu H64 Hre Hal Hh (Hc & Ho & Hin) Hkept Hr. apply wp_bind. eapply wp_mono.
  { apply (wp_take_back slots root E) with (mk := mk); try done; [lia| |].
    - intros i Hi. by apply Hin.
    - intros i Hi. apply Hre; [|lia]. destruct Hd as [q ->]. exists (q + Z.of_nat i). lia. }
  intros _ s1 [Hh1 Hk1]. apply wp_ret. split; [by right|]. eapply kept_pages_trans; [|exact Hkept|exact Hk1]. done.
Qed.

(** The body of the loop: a page more, or the space as it was. *)
Lemma wp_alloc_one D m s address flags (kundo : Z -> M (vstate W) Z) k Q : aspace D m s -> owned_pages m D ->
  reachable slots sp address -> 0 <= flags < 64 ->
  (forall r s', r <> NS_VMM_OK -> holding m s' -> kept_pages m s s' -> wp (kundo r) Q s') ->
  (forall f s', m !! address = None -> is_page address -> holding (<[address := (f, Z.lor flags NS_VMM_PAGE_OWNED)]> m) s' ->
     zeroed f s' -> kept_pages m s s' -> wp k Q s') ->
  wp ('(status, phys) ← pmm_alloc;
      if negb (status =? NS_PMM_OK) then kundo NS_VMM_ENOMEM
      else
        result ← ns_vmm_map vmm (Some sp) address phys (Z.lor flags NS_VMM_PAGE_OWNED);
        if negb (result =? NS_VMM_OK) then pmm_free phys;; kundo result
        else
          page ← phys_to_virt phys NS_PAGE_SIZE;
          if page =? 0 then ns_vmm_unmap vmm (Some sp) address true;; kundo NS_VMM_ECORRUPT
          else bytes_zero page NS_PAGE_SIZE;; k) Q s.
Proof.
  intros Has HD Hre Hfl Hundo Hk. destruct (own_flag flags Hfl) as [Hfl' H5].
  apply wp_bind, (wp_page_alloc D m); [done| |intros t; apply Hundo; [done|by exists D|done]].
  intros f s1 Hfn Hm1 Has1. cbn [NS_PMM_OK Z.eqb negb]. assert (Hin : f ∈ {[f]} ∪ D) by set_solver.
  destruct (aspace_frame _ m s1 f Has1 Hin) as [Hfd Hfr]. pose proof (g_frames E G) as Hlim.
  apply wp_bind. eapply wp_mono.
  { apply (wp_map_kept slots root E) with (D := {[f]} ∪ D) (m := m) (sp := sp); try done. lia. }
  intros r s2 (m' & Has2 & Hsp & Hk2). assert (Hkd : kept E D s s2).
  { intros x Hx. rewrite <- Hm1. apply Hk2. set_solver. }
  assert (Hkp : kept_pages m s s2) by by eapply kept_owned.
  apply (map_spec_cases E sp) in Hsp as [(-> & -> & Hn & Hpg)|[Hr ->]]; [| |apply Hre].
  - cbn [NS_VMM_OK Z.eqb negb]. assert (HD' := owned_insert m D address f _ HD Hn Hfn H5). eapply wp_page_clear; [exact Has2|done| |].
    + apply wp_bind. eapply wp_mono.
      { apply (wp_unmap_page slots root E) with (sp := sp) (m := <[address := (f, Z.lor flags NS_VMM_PAGE_OWNED)]> m); try done. by eexists. }
      rewrite delete_insert_id by done. intros _ s3 (_ & Hh3 & Hk3). apply Hundo; [done|done|].
      eapply kept_pages_trans; [|exact Hkp|exact Hk3]. done.
    + intros s3 Has3 Hz Ho. apply (Hk f); try done; [by eexists|]. intros v p fl x Hv Hb Hx. rewrite Ho; [by eapply Hkp|].
      rewrite Hx. intros ->. apply Hfn, (op_frames m D HD). eauto.
  - rewrite (proj2 (Z.eqb_neq r NS_VMM_OK) Hr). cbn [negb]. apply wp_bind, (wp_page_free ({[f]} ∪ D) m); [done|done|].
    intros s3 Hm3 Has3. replace (({[f]} ∪ D) ∖ {[f]}) with D in Has3 by set_solver. apply Hundo; [done|by exists D|].
    intros v p fl x Hv Hb Hx. rewrite Hm3. by eapply Hkp.
Qed.

(** The range grows by a page. *)
Lemma fresh_grow k virt flags m mk s s' f : fresh_range k virt flags m mk s -> mk !! (virt + 4096 * Z.of_nat k) = None ->
  is_page (virt + 4096 * Z.of_nat k) -> zeroed f s' -> kept_pages mk s s' -> 0 <= flags < 64 ->
  fresh_range (S k) virt flags m (<[virt + 4096 * Z.of_nat k := (f, Z.lor flags NS_VMM_PAGE_OWNED)]> mk) s'.
Proof.
  intros (Hc & Ho & Hin) Hn Hpg Hz Hk Hfl. split_and!.
  - intros i Hi. destruct (decide (i = k)) as [->|]; [|apply Hc; lia]. rewrite <- Ho by lia. done.
  - intros v Hv. rewrite lookup_insert_ne by lia. apply Ho. lia.
  - intros i Hi. destruct (decide (i = k)) as [->|Hne].
    + split; [done|]. exists f. by rewrite lookup_insert_eq.
    + destruct (Hin i ltac:(lia)) as (Hpi & g & Hg & Hzg). split; [done|]. exists g. rewrite lookup_insert_ne by lia. split; [done|].
      intros x Hx. rewrite (Hk _ _ _ x Hg); [by apply Hzg|by apply own_flag|done].
Qed.

Lemma wp_alloc_loop n virt flags m s0 : (4096 | virt) -> is_u64 virt -> virt + 4096 * Z.of_nat n < 2 ^ 64 -> 0 <= flags < 64 ->
  reach_range slots sp virt (virt + 4096 * Z.of_nat n) -> holding m s0 ->
  forall fuel k mk s, (k <= n)%nat -> (n - k < fuel)%nat -> holding mk s -> fresh_range k virt flags m mk s -> kept_pages m s0 s ->
  wp (alloc_loop fuel vmm (Some sp) virt (virt + 4096 * Z.of_nat n) (virt + 4096 * Z.of_nat k) (4096 * Z.of_nat k) flags)
    (fun r s' => alloc_mapped m virt flags n r s0 s') s.
Proof.
  intros Hd Hu H64 Hfl Hre Hh0. assert (Hal : forall v, is_Some (m !! v) -> (4096 | v)) by (intros v; by apply (holding_aligned slots root E m s0)).
  induction fuel as [|fuel IH]; intros k mk s Hk Hfuel Hh Hfr Hkept; [lia|]. cbn [alloc_loop].
  destruct (Z.ltb_spec (virt + 4096 * Z.of_nat k) (virt + 4096 * Z.of_nat n)) as [Hlt|Hge].
  2: { assert (k = n) as -> by lia. apply wp_ret. split; [left|done]. split; [done|]. by exists mk. }
  pose proof (fresh_keeps k virt flags m mk s Hfr Hal Hd) as Hsub. pose proof Hh as (D & Has & HD).
  assert (Hkm : forall s', kept_pages mk s s' -> kept_pages m s0 s').
  { intros s' Hk'. eapply kept_pages_trans; [|exact Hkept|by eapply (kept_pages_sub m mk)]. done. }
  apply (wp_alloc_one D mk s _ _ (fun r => ns_vmm_unmap_range vmm (Some sp) virt (4096 * Z.of_nat k) true;; mret r)); try done.
  - apply Hre; [|lia]. destruct Hd as [q ->]. exists (q + Z.of_nat k). lia.
  - intros r s' Hr Hh' Hk'. apply (wp_alloc_undo k n virt flags m mk s' r s0); try done; [|by apply Hkm].
    destruct Hfr as (Hc & Ho & Hin). split_and!; try done. intros i Hi. destruct (Hin i Hi) as (Hpi & f & Hf & Hz). split; [done|].
    exists f. split; [done|]. intros x Hx. rewrite (Hk' _ _ _ x Hf); [by apply Hz|by apply own_flag|done].
  - intros f s' Hn Hpg Hh' Hz Hk'. change NS_PAGE_SIZE with 4096. rewrite !u64_small by lia.
    replace (virt + 4096 * Z.of_nat k + 4096) with (virt + 4096 * Z.of_nat (S k)) by lia.
    replace (4096 * Z.of_nat k + 4096) with (4096 * Z.of_nat (S k)) by lia.
    eapply IH; [lia|lia|exact Hh'|by eapply fresh_grow|by apply Hkm].
Qed.

Lemma wp_alloc_map m s virt length flags : holding m s -> is_u64 virt -> is_u64 length -> 0 <= flags < 64 ->
  (range_ok virt length -> reach_range slots sp virt (range_end virt length)) ->
  wp (ns_vmm_alloc_map vmm (Some sp) virt length flags)
    (fun r s' => (~ range_ok virt length /\ r = NS_VMM_EINVAL /\ s' = s) \/
       (range_ok virt length /\ alloc_mapped m virt flags (page_count length) r s s')) s.
Proof.
  intros Hh Hv Hl Hfl Hre. unfold ns_vmm_alloc_map. rewrite (proj2 (Z.eqb_neq vmm 0) Hvmm).
  destruct (validate_range virt length Hv Hl) as [[Hok ->]|[Hno [e ->]]]; cbn [NS_VMM_EINVAL NS_VMM_OK Z.eqb negb orb].
  2: { apply wp_ret. by left. }
  destruct (range_facts virt length Hok) as (Hd & _ & Hr & Hf). pose proof (ra_end _ _ Hok) as He. specialize (Hre Hok).
  rewrite (page_count_end virt length Hok) in *. set (n := page_count length) in *. eapply wp_mono.
  { pose proof (wp_alloc_loop n virt flags m s Hd Hv He Hfl Hre Hh (page_fuel virt (virt + 4096 * Z.of_nat n)) 0 m s) as H0.
    rewrite Z.mul_0_r, Z.add_0_r in H0. apply H0; [lia| |done| |done].
    - replace (virt + 4096 * Z.of_nat n - virt) with (Z.of_nat n * 4096) in Hf by lia. rewrite Z.div_mul in Hf by lia. lia.
    - split_and!; [intros i Hi; lia|done|intros i Hi; lia]. }
  intros r s' H1. by right.
Qed.
End alloc.
