(* ===== verification/VmmUser.v ===== *)
(** * Protection, translation and user memory

    [ns_vmm_protect], [ns_vmm_translate], the check of user ranges and the copies
    between the kernel and an address space. *)

From S2P Require Import Prelude Errno Bytes Pmm Frames Vmm VmmTree VmmBits VmmProps VmmWalk VmmOps VmmSpace VmmRanges.

(** ** Protection *)

(** The flags of a page after [ns_vmm_protect]. *)
Definition prot_flags (flags fl : Z) : Z := if Z.testbit fl 5 then Z.lor flags NS_VMM_PAGE_OWNED else flags.

Lemma entry_owned phys flags : entry_from_flags phys (Z.lor flags NS_VMM_PAGE_OWNED) = Z.lor (entry_from_flags phys flags) X86_PTE_OWNED.
Proof.
  unfold entry_from_flags, NS_VMM_PAGE_WRITE, NS_VMM_PAGE_USER, NS_VMM_PAGE_GLOBAL, NS_VMM_PAGE_NOCACHE, NS_VMM_PAGE_EXEC, NS_VMM_PAGE_OWNED.
  rewrite !land_bit, !Z.lor_spec by lia.
  change (Z.testbit (Z.shiftl 1 5) 0) with false. change (Z.testbit (Z.shiftl 1 5) 1) with false.
  change (Z.testbit (Z.shiftl 1 5) 2) with false. change (Z.testbit (Z.shiftl 1 5) 3) with false.
  change (Z.testbit (Z.shiftl 1 5) 4) with false. change (Z.testbit (Z.shiftl 1 5) 5) with true.
  rewrite !orb_false_r, orb_true_r. generalize (Z.land phys X86_PTE_ADDR). intros a.
  generalize (Z.testbit flags 0), (Z.testbit flags 1), (Z.testbit flags 2), (Z.testbit flags 3), (Z.testbit flags 4), (Z.testbit flags 5).
  by intros [] [] [] [] [] []; cbn [negb]; rewrite <- !Z.lor_assoc.
Qed.

Lemma protected_view e flags : 0 <= flags < 64 -> entry_view (protected e flags) = (addr e, prot_flags flags (flags_from_entry e)).
Proof.
  intros Hf. unfold entry_view, prot_flags. destruct (flags_bits e) as (_ & _ & _ & _ & ->).
  destruct (protected_spec e flags) as (_ & _ & _ & _ & _ & _ & ->). f_equal. unfold protected. cbn zeta.
  pose proof (addr_divide e) as Hd. pose proof (addr_range e) as Hr. destruct (owned e); [|by apply flags_entry].
  rewrite <- entry_owned. apply flags_entry; [done|done|]. apply (lor_bound _ _ 6); [lia|lia|by vm_compute].
Qed.

(** The first [k] pages at [virt] with new flags. *)
Fixpoint reprotect (k : nat) (virt flags : Z) (m : pages) : pages :=
  match k with
  | O => m
  | S k' =>
    let m' := reprotect k' virt flags m in
    match m' !! (virt + 4096 * Z.of_nat k') with
    | Some (p, fl) => <[virt + 4096 * Z.of_nat k' := (p, prot_flags flags fl)]> m'
    | None => m'
    end
  end.

Lemma reprotect_from k virt flags m v : virt + 4096 * Z.of_nat k <= v -> reprotect k virt flags m !! v = m !! v.
Proof.
  induction k as [|k IH]; intros Hv; cbn [reprotect]; [done|]. rewrite <- IH by lia.
  destruct (reprotect k virt flags m !! (virt + 4096 * Z.of_nat k)) as [[p fl]|]; [|done]. rewrite lookup_insert_ne by lia. done.
Qed.

Section user.
Context {W : Type} (slots : Z -> Prop) (root : Z) (E : env W) (G : machine E)
  (Hlock : lock (e_obj E) = 0) (Hinit : initialized (e_obj E) <> 0)
  (vmm : Z) (Hvmm : vmm <> 0) (sp : ns_vmm_space) (Hroot : root_phys sp = root).
Abbreviation page_here := (page_here slots).
Implicit Types (s : vstate W) (m : pages) (D : gset Z) (virt phys flags f : Z).
Abbreviation aspace := (aspace slots root).
Abbreviation holding := (holding slots root E).
Abbreviation kept_pages := (kept_pages E).

(** Why a page cannot get the flags. *)
Definition protect_status flags m virt : Z :=
  match m !! virt with
  | None => NS_VMM_ENOENT
  | Some (p, fl) => if Z.testbit flags 1 && (negb (Z.testbit fl 1) || bit (e_reserved E) (p / 4096)) then NS_VMM_EPERM else NS_VMM_OK
  end.

Lemma wp_protect_page E' D m s virt flags (kfail : Z -> M (vstate W) Z) k Q : machine E' -> e_reserved E' = e_reserved E ->
  aspace E' D m s -> page_here virt -> 0 <= flags < 64 ->
  (protect_status flags m virt <> NS_VMM_OK -> wp (kfail (protect_status flags m virt)) Q s) ->
  (forall p fl s', m !! virt = Some (p, fl) -> protect_status flags m virt = NS_VMM_OK ->
     aspace E' D (<[virt := (p, prot_flags flags fl)]> m) s' -> wp k Q s') ->
  wp ('(result, (_, _, leaf)) ← walk_leaf sp virt;
      if negb (result =? NS_VMM_OK) then kfail result
      else
        old ← ld 8 leaf;
        refused ← (if negb (Z.land flags NS_VMM_PAGE_USER =? 0)
                   then if Z.land old X86_PTE_USER =? 0 then mret true else pmm_reserved (Z.land old X86_PTE_ADDR)
                   else mret false);
        if refused : bool then kfail NS_VMM_EPERM
        else
          st 8 leaf (entry_from_flags (Z.land old X86_PTE_ADDR) flags);;
          when (negb (Z.land old X86_PTE_OWNED =? 0)) (e ← ld 8 leaf; st 8 leaf (Z.lor e X86_PTE_OWNED));;
          invalidate sp virt;; k) Q s.
Proof.
  intros G' Hres (T & Hsp & Hsh & Hfr) Hh Hfl Hfail Hk. pose proof (proj2 Hsh virt Hh) as Hm. unfold protect_status, entry_view in *.
  apply (wp_protect_one E' G' slots root D T s); try done.
  - intros e He. rewrite He in Hm. cbn in Hm. apply (Hfr virt) in Hm as [_ ?]. lia.
  - intros r Hr Hne. unfold protected_page, protect_refused in Hr. destruct (maps root T virt) as [e|]; cbn in Hm; rewrite Hm in Hfail.
    + destruct (flags_bits e) as (_ & _ & Hu & _). rewrite Hu in Hfail. rewrite Hres in Hr.
      destruct (Z.testbit flags 1 && _); [|by destruct Hr as [-> _]]. destruct Hr as [-> _]. by apply Hfail.
    + destruct Hr as [-> _]. by apply Hfail.
  - intros s' Hr. unfold protected_page, protect_refused in Hr. destruct (maps root T virt) as [e|]; cbn in Hm; [|by destruct Hr].
    rewrite Hm in Hk. destruct (flags_bits e) as (_ & _ & Hu & _). rewrite Hu in Hk. rewrite Hres in Hr.
    destruct (Z.testbit flags 1 && _); [by destruct Hr|]. destruct Hr as (_ & T' & Hsp' & _ & Hm').
    apply (Hk (addr e) (flags_from_entry e)); [done|done|]. pose proof (protected_view e flags Hfl) as Hpv. rewrite <- Hpv. exists T'. split; [done|]. split.
    + by apply (shows_update slots root T T' m virt (Some (protected e flags))).
    + intros v p fl [[<- Heq]|[_ Hv]]%lookup_insert_Some; [|by eapply Hfr].
      rewrite Hpv in Heq. injection Heq as <- _. by eapply Hfr.
Qed.

Definition protected_range m virt flags n (r : Z) s s' : Prop :=
  exists k, (k <= n)%nat /\ holding (reprotect k virt flags m) s' /\ kept_pages m s s' /\
    (forall i, (i < k)%nat -> protect_status flags m (virt + 4096 * Z.of_nat i) = NS_VMM_OK) /\
    ((r = NS_VMM_OK /\ k = n) \/ ((k < n)%nat /\ r <> NS_VMM_OK /\ r = protect_status flags m (virt + 4096 * Z.of_nat k))).

(** The lock is given back on every way out. *)
Lemma aspace_unlock E1 D m s : lock (e_obj E1) = 0 -> aspace (locked E1) D m s ->
  aspace E1 D m (s <| object := (object s) <| lock := 0 |> |>).
Proof. intros Hl (T & Hsp & H). exists T. split; [by apply unlocked_space|done]. Qed.

Lemma aspace_lock E1 D m s : aspace E1 D m s -> aspace (locked E1) D m (s <| object := (object s) <| lock := 1 |> |>).
Proof. intros (T & Hsp & H). exists T. split; [by apply locked_space|done]. Qed.

Lemma wp_vprotect_loop E1 D m virt flags n : machine E1 -> e_reserved E1 = e_reserved E -> lock (e_obj E1) = 0 ->
  is_u64 virt -> (4096 | virt) -> virt + 4096 * Z.of_nat n < 2 ^ 64 -> 0 <= flags < 64 ->
  (forall i, (i < n)%nat -> page_here (virt + 4096 * Z.of_nat i)) ->
  forall fuel k s, (k <= n)%nat -> (n - k < fuel)%nat -> aspace (locked E1) D (reprotect k virt flags m) s ->
  (forall i, (i < k)%nat -> protect_status flags m (virt + 4096 * Z.of_nat i) = NS_VMM_OK) ->
  wp (vprotect_loop fuel sp (virt + 4096 * Z.of_nat k) (virt + 4096 * Z.of_nat n) flags)
    (fun r s' => exists k', (k' <= n)%nat /\ aspace E1 D (reprotect k' virt flags m) s' /\
       (forall i, (i < k')%nat -> protect_status flags m (virt + 4096 * Z.of_nat i) = NS_VMM_OK) /\
       ((r = NS_VMM_OK /\ k' = n) \/ ((k' < n)%nat /\ r <> NS_VMM_OK /\ r = protect_status flags m (virt + 4096 * Z.of_nat k')))) s.
Proof.
  intros G1 Hres1 Hl1 Hu Hd H64 Hfl Hpg. induction fuel as [|fuel IH]; intros k s Hk Hfuel Has Hok; [lia|]. cbn [vprotect_loop].
  destruct (Z.ltb_spec (virt + 4096 * Z.of_nat k) (virt + 4096 * Z.of_nat n)) as [Hlt|Hge].
  2: { assert (k = n) as -> by lia. apply wp_bind, wp_vmm_unlock, wp_ret. exists n. split_and!; [lia|by apply aspace_unlock|done|by left]. }
  assert (Hst : protect_status flags (reprotect k virt flags m) (virt + 4096 * Z.of_nat k) = protect_status flags m (virt + 4096 * Z.of_nat k)).
  { unfold protect_status. by rewrite reprotect_from by lia. }
  apply (wp_protect_page (locked E1) D (reprotect k virt flags m) s _ flags (fun r => vmm_unlock;; mret r)); try done.
  - by apply locked_machine.
  - apply Hpg. lia.
  - rewrite Hst. intros Hne. apply wp_bind, wp_vmm_unlock, wp_ret. exists k. split_and!; [done|by apply aspace_unlock|done|right]. split; [lia|done].
  - rewrite Hst. intros p fl s' Hm Hs Has'. change NS_PAGE_SIZE with 4096. rewrite u64_small by lia.
    replace (virt + 4096 * Z.of_nat k + 4096) with (virt + 4096 * Z.of_nat (S k)) by lia. apply IH; [lia|lia| |].
    + cbn [reprotect]. by rewrite Hm.
    + intros i Hi. destruct (decide (i = k)) as [->|]; [done|]. apply Hok. lia.
Qed.

(** Who owns a frame does not change: the new flags mark no page as owned, or
    only pages that already are. *)
Definition keeps_owners (n : nat) virt flags m : Prop := Z.testbit flags 5 = true ->
  forall i p fl, (i < n)%nat -> m !! (virt + 4096 * Z.of_nat i) = Some (p, fl) -> Z.testbit fl 5 = true.

Lemma prot_flags_owned flags fl : (Z.testbit flags 5 = true -> Z.testbit fl 5 = true) ->
  Z.testbit (prot_flags flags fl) 5 = Z.testbit fl 5.
Proof.
  intros H5. unfold prot_flags. destruct (Z.testbit fl 5) eqn:Eb; [rewrite Z.lor_spec; apply orb_true_r|].
  destruct (Z.testbit flags 5); [by specialize (H5 eq_refl)|done].
Qed.

(** Protection changes neither frames nor ownership. *)
Lemma reprotect_lookup k virt flags m v : keeps_owners k virt flags m ->
  (m !! v = None -> reprotect k virt flags m !! v = None) /\
  (forall p fl, m !! v = Some (p, fl) -> exists fl', reprotect k virt flags m !! v = Some (p, fl') /\ Z.testbit fl' 5 = Z.testbit fl 5).
Proof.
  intros H5. induction k as [|k IH]; cbn [reprotect]; [eauto|]. destruct IH as [IH1 IH2]; [intros Hb i p fl Hi; apply (H5 Hb); lia|].
  pose proof (reprotect_from k virt flags m (virt + 4096 * Z.of_nat k) ltac:(lia)) as Ek.
  destruct (reprotect k virt flags m !! (virt + 4096 * Z.of_nat k)) as [[p0 fl0]|] eqn:E0; [|done].
  destruct (decide (v = virt + 4096 * Z.of_nat k)) as [->|Hne].
  - rewrite lookup_insert_eq. split; [intros Hn; rewrite IH1 in E0; done|]. intros p fl Hv. rewrite <- Ek in Hv. simplify_eq.
    exists (prot_flags flags fl). rewrite prot_flags_owned; [done|]. intros Hb. apply (H5 Hb k p fl); [lia|done].
  - by rewrite lookup_insert_ne by done.
Qed.

Lemma owned_reprotect k virt flags m D : keeps_owners k virt flags m -> owned_pages m D -> owned_pages (reprotect k virt flags m) D.
Proof.
  intros H5 [H1 H2]. assert (Hback : forall v d fl', reprotect k virt flags m !! v = Some (d, fl') -> Z.testbit fl' 5 = true ->
    exists fl, m !! v = Some (d, fl) /\ Z.testbit fl 5 = true).
  { intros v d fl' Hv Hb. destruct (reprotect_lookup k virt flags m v H5) as [Hn Hs]. destruct (m !! v) as [[p fl]|].
    - destruct (Hs p fl eq_refl) as (fl1 & E1 & Hb1). rewrite Hv in E1. injection E1 as <- <-. exists fl. by rewrite <- Hb1.
    - by rewrite Hn in Hv. }
  split.
  - intros d. rewrite H1. split; intros (v & fl & Hv & Hb).
    + destruct (reprotect_lookup k virt flags m v H5) as [_ Hs]. destruct (Hs d fl Hv) as (fl' & E1 & Hb'). exists v, fl'. by rewrite Hb'.
    + destruct (Hback v d fl Hv Hb) as (fl' & ? & ?). eauto.
  - intros v v' d fl fl' Hv Hv' Hb Hb'. destruct (Hback v d fl Hv Hb) as (? & ? & ?), (Hback v' d fl' Hv' Hb') as (? & ? & ?). by eapply H2.
Qed.

Lemma wp_protect m s virt length flags : holding m s -> is_u64 virt -> is_u64 length -> 0 <= flags < 64 -> keeps_owners (page_count length) virt flags m ->
  (range_ok virt length -> forall v, (4096 | v) -> virt <= v < range_end virt length -> page_here v) ->
  (owns_root sp <> 0 -> range_ok virt length -> virt < NS_VMM_KERNEL_HALF_BASE) ->
  wp (ns_vmm_protect vmm (Some sp) virt length flags)
    (fun r s' => (~ range_ok virt length /\ r = NS_VMM_EINVAL /\ s' = s) \/
       (range_ok virt length /\ protected_range m virt flags (page_count length) r s s')) s.
Proof.
  intros (D & Has & HD) Hv Hl Hfl H5 Hpg Hhalf. unfold ns_vmm_protect. rewrite (proj2 (Z.eqb_neq vmm 0) Hvmm).
  destruct (validate_range virt length Hv Hl) as [[Hok ->]|[Hno [e ->]]]; cbn [NS_VMM_EINVAL NS_VMM_OK Z.eqb negb orb].
  2: { apply wp_ret. by left. }
  assert (negb (owns_root sp =? 0) && (NS_VMM_KERNEL_HALF_BASE <=? virt) = false) as ->.
  { destruct (Z.eqb_spec (owns_root sp) 0) as [|Hown]; [done|]. apply Z.leb_gt. by apply Hhalf. }
  destruct (range_facts virt length Hok) as (Hd & _ & Hr & Hf). pose proof (ra_end _ _ Hok) as He. specialize (Hpg Hok).
  rewrite (page_count_end virt length Hok) in *. set (n := page_count length) in *.
  assert (Ho : object s = e_obj E) by (by destruct Has as (T & [V _ _ _] & _); apply V).
  assert (Has1 : aspace (keep E D s) ∅ m s).
  { replace ∅ with (D ∖ D) by set_solver. by apply keep_aspace. }
  apply wp_bind, wp_vmm_lock; [by rewrite Ho|]. eapply wp_mono.
  { pose proof (wp_vprotect_loop (keep E D s) ∅ m virt flags n) as H0. specialize (H0 ltac:(by eapply aspace_machine) eq_refl Hlock Hv Hd He Hfl).
    assert (Hpi : forall i, (i < n)%nat -> page_here (virt + 4096 * Z.of_nat i)).
    { intros i Hi. apply Hpg; [|lia]. destruct Hd as [q ->]. exists (q + Z.of_nat i). lia. }
    specialize (H0 Hpi (page_fuel virt (virt + 4096 * Z.of_nat n)) 0%nat). rewrite Z.mul_0_r, Z.add_0_r in H0.
    apply H0; [lia| |by apply aspace_lock|intros i Hi; lia].
    replace (virt + 4096 * Z.of_nat n - virt) with (Z.of_nat n * 4096) in Hf by lia. rewrite Z.div_mul in Hf by lia. lia. }
  intros r s' (k & Hk & Has' & Hst & Hr'). right. split; [done|]. exists k.
  destruct (keep_aspace_back slots root E D ∅ D m _ s s' ltac:(done) Has Has') as [Has2 Hkept]. rewrite union_empty_l_L in Has2.
  split_and!; try done; [|by eapply kept_owned]. exists D. split; [done|]. apply owned_reprotect; [|done].
  intros Hb i p fl Hi. apply (H5 Hb). lia.
Qed.
End user.
