(* ===== verification/VmmCopy.v ===== *)
(** * Reading and writing user memory

    Translation, the check of a user range, and the copies: they touch exactly
    the bytes of pages that the user may access. *)

From S2P Require Import Prelude Errno Bytes Pmm Frames Vmm VmmTree VmmBits VmmProps VmmWalk VmmOps VmmSpace VmmRanges VmmUser.

(** ** Pages of addresses *)

Definition page_base (virt : Z) : Z := virt / 4096 * 4096.

Lemma page_base_spec virt : page_base virt = virt - virt mod 4096 /\ (4096 | page_base virt) /\ 0 <= virt mod 4096 < 4096.
Proof.
  unfold page_base. pose proof (Z.div_mod virt 4096 ltac:(lia)). pose proof (Z.mod_pos_bound virt 4096 ltac:(lia)).
  split_and!; try lia. by exists (virt / 4096).
Qed.

Lemma index_page virt l : 1 <= l -> table_index (page_base virt) l = table_index virt l.
Proof.
  intros Hl. rewrite !table_index_div by done. f_equal. rewrite Z.pow_add_r by lia. change (2 ^ 12) with 4096.
  assert (0 < 2 ^ ((l - 1) * 9)) by (apply Z.pow_pos_nonneg; lia). unfold page_base.
  rewrite <- !Z.div_div by lia. by rewrite Z.div_mul by lia.
Qed.

Lemma maps_page root T virt : maps root T (page_base virt) = maps root T virt.
Proof. unfold maps, path. by rewrite !index_page by lia. Qed.

Lemma page_base_page virt : is_u64 virt -> canonical_address virt = true -> is_page (page_base virt).
Proof.
  intros Hu Hc. destruct (page_base_spec virt) as (E & Hd & Hm). split_and!; [destruct Hd; lia|lia|done|].
  unfold canonical_address in *. apply orb_true_iff in Hc as [Hc%Z.ltb_lt|Hc%Z.leb_le]; apply orb_true_iff; [left; apply Z.ltb_lt; lia|right].
  apply Z.leb_le. revert Hc Hd E Hm. generalize (page_base virt). clear. intros b Hc [q ->] E Hm.
  unfold NS_VMM_KERNEL_HALF_BASE in *. lia.
Qed.

Lemma lor_page a b : (4096 | a) -> 0 <= b < 4096 -> Z.lor a b = a + b.
Proof.
  intros [q ->] Hb. rewrite <- Z.add_lor_land. assert (Z.land (q * 4096) b = 0) as ->; [|lia].
  change 4096 with (2 ^ 12). rewrite <- (Z.mod_small b (2 ^ 12)) by done. rewrite <- Z.land_ones, Z.land_assoc, (Z.land_comm _ b), <- Z.land_assoc,
    Z.land_ones, Z.mod_mul by lia. apply Z.land_0_r.
Qed.

(** ** Copying bytes *)

(** ** Access *)

(** The physical address of a byte, and whether users may read or write it. *)
Definition phys_of (m : pages) (v : Z) : option Z := match m !! page_base v with Some (p, _) => Some (p + v mod 4096) | None => None end.
Definition access (m : pages) (write : bool) (v : Z) : bool :=
  match m !! page_base v with Some (_, fl) => Z.testbit fl 1 && (negb write || Z.testbit fl 0) | None => false end.

Section copy.
Context {W : Type} (slots : Z -> Prop) (root : Z).
Context (sp : ns_vmm_space) (Hroot : root_phys sp = root).
Abbreviation page_here := (page_here slots).
Context (Huser : forall v, is_page v -> v < NS_VMM_USER_TOP -> page_here v).
Implicit Types (E : env W) (s : vstate W) (m : pages) (D : gset Z) (virt phys flags f : Z).
Abbreviation aspace := (aspace slots root).

Lemma wp_translate_page E D m s virt Q : machine E -> aspace E D m s -> page_here (page_base virt) ->
  (forall p fl, m !! page_base virt = Some (p, fl) -> Q (NS_VMM_OK, (p + virt mod 4096, fl)) s) ->
  (m !! page_base virt = None -> Q (NS_VMM_ENOENT, (0, 0)) s) -> wp (translate_unlocked sp virt) Q s.
Proof.
  intros G (T & [V HD HT Hf] & Hsh & Hfr) Hh HQ Hno. pose proof (proj2 Hsh _ Hh) as Hm. rewrite maps_page in Hm.
  eapply (wp_translate E G); [exact V|exact HT| |done| |].
  - destruct Hh as [_ Hs]. by rewrite index_page in Hs.
  - intros e He. rewrite He in Hm. cbn in Hm. unfold entry_view in Hm. rewrite page_mask. change NS_PAGE_SIZE with 4096.
    rewrite lor_page; [by apply HQ|apply addr_divide|]. apply Z.mod_pos_bound. lia.
  - intros Hn. rewrite Hn in Hm. by apply Hno.
Qed.

Lemma user_canonical v : 0 <= v < NS_VMM_USER_TOP -> is_u64 v /\ canonical_address v = true.
Proof.
  intros Hv. split; [unfold NS_VMM_USER_TOP in Hv; lia|]. unfold canonical_address. apply orb_true_iff. left. apply Z.ltb_lt. lia.
Qed.

Lemma user_page v : 0 <= v < NS_VMM_USER_TOP -> page_here (page_base v).
Proof.
  intros Hv. destruct (user_canonical v Hv) as [Hu Hc]. apply Huser; [by apply page_base_page|].
  destruct (page_base_spec v) as (E & _ & Hm). lia.
Qed.

(** ** The check of a range *)

(** All bytes of a page are alike. *)
Lemma access_page m write v w : page_base v = page_base w -> access m write v = access m write w.
Proof. intros E. unfold access. by rewrite E. Qed.

Lemma page_base_eq v w : v / 4096 = w / 4096 -> page_base v = page_base w.
Proof. unfold page_base. by intros ->. Qed.

Definition rounds_left (current end_ : Z) : Z := if current <? end_ then (end_ - 1) / 4096 - current / 4096 + 1 else 0.

Lemma rounds_positive current end_ : current < end_ -> 0 < rounds_left current end_.
Proof.
  intros Hlt. unfold rounds_left. rewrite (proj2 (Z.ltb_lt _ _) Hlt).
  assert (current / 4096 <= (end_ - 1) / 4096) by (apply Z.div_le_mono; lia). lia.
Qed.

Lemma next_page current : is_u64 current -> current + 4096 < 2 ^ 64 ->
  u64 (Z.land current (not64 (NS_PAGE_SIZE - 1)) + NS_PAGE_SIZE) = (current / 4096 + 1) * 4096.
Proof.
  intros Hu H64. change (NS_PAGE_SIZE - 1) with (2 ^ 12 - 1). rewrite land_not64 by lia. change (2 ^ 12) with 4096. change NS_PAGE_SIZE with 4096.
  pose proof (Z.div_mod current 4096 ltac:(lia)). pose proof (Z.mod_pos_bound current 4096 ltac:(lia)). rewrite u64_small by lia. lia.
Qed.

Lemma unlock_lock s : lock (object s) = 0 ->
  (s <| object := (object s) <| lock := 1 |> |>) <| object := ((object s) <| lock := 1 |>) <| lock := 0 |> |> = s.
Proof. intros Hl. destruct s as [[c l a i] p mm w]. cbn in *. by subst. Qed.

Lemma wp_valid_loop E D m (write : bool) end_ address : machine E -> end_ <= NS_VMM_USER_TOP -> 0 <= address ->
  forall fuel current s, aspace E D m s -> address <= current -> rounds_left current end_ <= Z.of_nat fuel ->
  (forall v, address <= v < current -> access m write v = true) ->
  wp (valid_loop fuel sp current end_ write)
    (fun r s' => s' = s <| object := (object s) <| lock := 0 |> |> /\
       (r = true <-> forall v, address <= v < end_ -> access m write v = true)) s.
Proof.
  intros G He H0. induction fuel as [|fuel IH]; intros current s Has Hc Hfuel Hacc; cbn [valid_loop];
    (destruct (Z.ltb_spec current end_) as [Hlt|Hge];
     [|apply wp_bind, wp_vmm_unlock, wp_ret; split; [done|]; split; [|done]; intros _ v Hv; apply Hacc; lia]).
  { pose proof (rounds_positive current end_ Hlt). lia. }
  assert (Hu : 0 <= current < NS_VMM_USER_TOP) by lia. apply wp_bind, (wp_translate_page E D m); [done|done|by apply user_page| |].
  2: { intros Hn. cbn [NS_VMM_ENOENT NS_VMM_OK Z.eqb negb orb]. apply wp_bind, wp_vmm_unlock, wp_ret. split; [done|].
       split; [done|]. intros Hall. specialize (Hall current ltac:(lia)). unfold access in Hall. by rewrite Hn in Hall. }
  intros p fl Hm. cbn [NS_VMM_OK Z.eqb negb orb]. unfold NS_VMM_PAGE_USER, NS_VMM_PAGE_WRITE. rewrite !land_bit by lia.
  assert (Ea : access m write current = Z.testbit fl 1 && (negb write || Z.testbit fl 0)) by (unfold access; by rewrite Hm).
  destruct (negb (Z.testbit fl 1) || write && negb (Z.testbit fl 0)) eqn:Eb.
  - apply wp_bind, wp_vmm_unlock, wp_ret. split; [done|]. split; [done|]. intros Hall. specialize (Hall current ltac:(lia)).
    rewrite Ea in Hall. by destruct (Z.testbit fl 1), (Z.testbit fl 0), write.
  - assert (Hcur : access m write current = true) by (rewrite Ea; by destruct (Z.testbit fl 1), (Z.testbit fl 0), write).
    unfold NS_VMM_USER_TOP in *. rewrite next_page by lia. pose proof (Z.div_mod current 4096 ltac:(lia)) as Hdm.
    pose proof (Z.mod_pos_bound current 4096 ltac:(lia)) as Hmb. set (next := (current / 4096 + 1) * 4096).
    set (c' := if next <? end_ then next else end_). assert (Hc' : current < c' <= end_ /\ c' <= next).
    { unfold c', next. destruct (Z.ltb_spec ((current / 4096 + 1) * 4096) end_); lia. }
    apply IH; [done|lia| |].
    + unfold rounds_left in *. rewrite (proj2 (Z.ltb_lt current end_) Hlt) in Hfuel. destruct (Z.ltb_spec c' end_) as [Hn|Hn].
      * assert (c' = next) as -> by (unfold c' in *; destruct (next <? end_); lia). unfold next. rewrite Z.div_mul by lia. lia.
      * assert (current / 4096 <= (end_ - 1) / 4096) by (apply Z.div_le_mono; lia). lia.
    + intros v Hv. destruct (decide (v < current)); [apply Hacc; lia|]. rewrite <- Hcur. apply access_page, page_base_eq.
      unfold next in Hc'. symmetry. apply Z.div_unique with (v - current / 4096 * 4096); lia.
Qed.

Lemma fuel_rounds address length : 0 <= address -> 0 < length ->
  rounds_left address (address + length) <= Z.of_nat (copy_fuel length).
Proof.
  intros Ha Hl. unfold rounds_left, copy_fuel. rewrite (proj2 (Z.ltb_lt _ _)) by lia. change NS_PAGE_SIZE with 4096.
  assert (0 <= length / 4096) by (apply Z.div_pos; lia). rewrite !Nat2Z.inj_succ, Z2Nat.id by done. zdiv.
Qed.

Lemma wp_user_range_valid E D m s vmm address length (write : bool) : machine E -> lock (e_obj E) = 0 -> vmm <> 0 -> aspace E D m s ->
  is_u64 address -> is_u64 length ->
  wp (ns_vmm_user_range_valid vmm (Some sp) address length write)
    (fun r s' => s' = s /\ (r = true <-> 0 < length /\ address + length <= NS_VMM_USER_TOP /\
       forall v, address <= v < address + length -> access m write v = true)) s.
Proof.
  intros G Hl Hvmm Has Ha Hlen. unfold ns_vmm_user_range_valid. rewrite (proj2 (Z.eqb_neq vmm 0) Hvmm). cbn [orb].
  assert (Hs0 : lock (object s) = 0) by (destruct Has as (T & [V _ _ _] & _); by rewrite (vm_object _ _ _ _ V)).
  destruct (Z.eqb_spec length 0) as [->|Hl0]; cbn [orb]; [apply wp_ret; split; [done|]; split; [done|lia]|].
  destruct (Z.leb_spec NS_VMM_USER_TOP address); cbn [orb]; [apply wp_ret; split; [done|]; split; [done|lia]|].
  destruct (Z.ltb_spec (NS_VMM_USER_TOP - address) length); cbn [orb]; [apply wp_ret; split; [done|]; split; [done|lia]|].
  apply wp_bind, wp_vmm_lock; [done|]. assert (Htop : NS_VMM_USER_TOP = 2 ^ 47) by done. rewrite u64_small by lia. eapply wp_mono.
  { apply (wp_valid_loop (locked E) D m write (address + length) address); try done; try lia.
    - by apply locked_machine.
    - by apply aspace_lock.
    - apply fuel_rounds; lia. }
  intros r s' [-> Hr]. split; [cbn; by apply unlock_lock|]. rewrite Hr. split; [|tauto]. intros Hall. split_and!; [lia|lia|done].
Qed.

(** ** Copies *)

(** [c] bytes are accessible and have been copied; then the end is reached, or a
    byte that is not accessible, or a frame that the direct map does not have. *)
Definition copied_bytes E m (write : bool) user_address length (c r : Z) : Prop :=
  0 <= c <= length /\ (forall i, 0 <= i < c -> access m write (user_address + i) = true) /\
  ((r = NS_VMM_OK /\ c = length) \/
   (c < length /\ access m write (user_address + c) = false /\ (r = NS_VMM_ENOENT \/ r = NS_VMM_EPERM)) \/
   (c < length /\ r = NS_VMM_ECORRUPT /\ exists p fl, m !! page_base (user_address + c) = Some (p, fl) /\ size E < p + 4096)).

(** Where the direct map has a byte of the space. *)
Definition place E m v : Z := base E + default 0 (phys_of m v).

(** The chunk that a round copies stays in one page. *)
Lemma chunk_page u i k p fl m : 0 <= k -> u mod 4096 + k <= 4096 -> 0 <= i < k -> m !! page_base u = Some (p, fl) ->
  page_base (u + i) = page_base u /\ phys_of m (u + i) = Some (p + u mod 4096 + i).
Proof.
  intros Hk Hc Hi Hm. pose proof (Z.div_mod u 4096 ltac:(lia)) as Hdm. pose proof (Z.mod_pos_bound u 4096 ltac:(lia)) as Hmb.
  assert (E : (u + i) / 4096 = u / 4096) by (symmetry; apply Z.div_unique with (u mod 4096 + i); lia).
  assert (Ep : page_base (u + i) = page_base u) by by apply page_base_eq. split; [done|]. unfold phys_of. rewrite Ep, Hm.
  pose proof (Z.div_mod (u + i) 4096 ltac:(lia)). f_equal. lia.
Qed.

(** One round of the loop: the byte at [current] is not accessible, or a chunk of
    one page is copied. *)
Lemma wp_copy_round E D m s (to_user : bool) u length copied (k : Z -> Z -> M (vstate W) Z) kfail Q :
  machine E -> aspace E D m s -> 0 <= u -> u + length <= NS_VMM_USER_TOP -> 0 <= copied < length ->
  (forall r, access m to_user (u + copied) = false -> r = NS_VMM_ENOENT \/ r = NS_VMM_EPERM -> wp (kfail r) Q s) ->
  (forall p fl, m !! page_base (u + copied) = Some (p, fl) -> size E < p + 4096 -> wp (kfail NS_VMM_ECORRUPT) Q s) ->
  (forall p fl chunk, m !! page_base (u + copied) = Some (p, fl) -> access m to_user (u + copied) = true ->
     0 < chunk -> (u + copied) mod 4096 + chunk <= 4096 -> copied + chunk <= length ->
     chunk = length - copied \/ chunk = 4096 - (u + copied) mod 4096 ->
     p + (u + copied) mod 4096 + chunk <= size E -> wp (k (base E + (p + (u + copied) mod 4096)) chunk) Q s) ->
  wp ('(result, (phys, flags)) ← translate_unlocked sp (u64 (u + copied));
      if negb (result =? NS_VMM_OK) || (Z.land flags NS_VMM_PAGE_USER =? 0) || (to_user && (Z.land flags NS_VMM_PAGE_WRITE =? 0))
      then kfail (if result =? NS_VMM_OK then NS_VMM_EPERM else result)
      else
        let chunk := NS_PAGE_SIZE - Z.land phys (NS_PAGE_SIZE - 1) in
        let chunk := if length - copied <? chunk then length - copied else chunk in
        mapped ← phys_to_virt phys chunk;
        if mapped =? 0 then kfail NS_VMM_ECORRUPT else k mapped chunk) Q s.
Proof.
  intros G Has Hu Hlen Hc Hna Hcor Hk. assert (Hv : 0 <= u + copied < NS_VMM_USER_TOP) by lia.
  rewrite u64_small by (unfold NS_VMM_USER_TOP in Hv; lia).
  apply wp_bind, (wp_translate_page E D m); [done|done|by apply user_page| |].
  2: { intros Hn. apply Hna; [|by left]. unfold access. by rewrite Hn. }
  intros p fl Hm. cbn [NS_VMM_OK Z.eqb negb orb]. unfold NS_VMM_PAGE_USER, NS_VMM_PAGE_WRITE. rewrite !land_bit by lia.
  assert (Ea : access m to_user (u + copied) = Z.testbit fl 1 && (negb to_user || Z.testbit fl 0)) by (unfold access; by rewrite Hm).
  destruct (negb (Z.testbit fl 1) || to_user && negb (Z.testbit fl 0)) eqn:Eb.
  { apply Hna; [|by right]. rewrite Ea. by destruct (Z.testbit fl 1), (Z.testbit fl 0), to_user. }
  assert (Hacc : access m to_user (u + copied) = true) by (rewrite Ea; by destruct (Z.testbit fl 1), (Z.testbit fl 0), to_user).
  destruct (page_base_spec (u + copied)) as (_ & _ & Hmb). pose proof Has as (T & [V _ _ _] & _ & Hfr).
  destruct (Hfr _ _ _ Hm) as [[q Hq] Hpr]. rewrite page_mask. change NS_PAGE_SIZE with 4096.
  assert (Hmod : (p + (u + copied) mod 4096) mod 4096 = (u + copied) mod 4096).
  { rewrite Hq, Z.add_comm, Z.mod_add, Z.mod_mod by lia. done. }
  rewrite Hmod. cbn zeta. set (chunk := if length - copied <? 4096 - (u + copied) mod 4096 then length - copied else 4096 - (u + copied) mod 4096).
  assert (Hch : 0 < chunk /\ (u + copied) mod 4096 + chunk <= 4096 /\ copied + chunk <= length /\
    (chunk = length - copied \/ chunk = 4096 - (u + copied) mod 4096)).
  { unfold chunk. destruct (Z.ltb_spec (length - copied) (4096 - (u + copied) mod 4096)); lia. }
  apply wp_bind. eapply (wp_phys_to_virt E G); [exact V|lia|lia| |].
  - intros Hs. pose proof (g_base E G) as [Hb _]. unfold NS_VMM_KERNEL_HALF_BASE in Hb. rewrite (proj2 (Z.eqb_neq _ 0)) by lia.
    apply (Hk p fl); try done; try lia; apply Hch.
  - intros Hs. rewrite Z.eqb_refl. apply (Hcor p fl); [done|lia].
Qed.

(** The rounds that are left after a chunk. *)
Lemma rounds_next current end_ chunk : current + chunk <= end_ -> 0 < chunk -> current mod 4096 + chunk <= 4096 ->
  chunk = end_ - current \/ chunk = 4096 - current mod 4096 -> rounds_left (current + chunk) end_ < rounds_left current end_.
Proof.
  intros He Hc Hm Hor. assert (Hpos := rounds_positive current end_ ltac:(lia)). unfold rounds_left in *.
  rewrite (proj2 (Z.ltb_lt current end_)) in * by lia. destruct (Z.ltb_spec (current + chunk) end_) as [Hlt|Hge]; [|done].
  destruct Hor as [->|Hch]; [lia|]. pose proof (Z.div_mod current 4096 ltac:(lia)) as Hdm.
  assert ((current + chunk) / 4096 = current / 4096 + 1) as ->; [|lia]. symmetry. apply Z.div_unique with 0; lia.
Qed.

(** *** Into the space *)

Section into.
Context E (G : machine E) D m (HD : owned_pages m D) (Hwr : forall v p fl, m !! v = Some (p, fl) -> Z.testbit fl 1 = true ->
  Z.testbit fl 0 = true -> Z.testbit fl 5 = true).

Definition copied_to u buf c s0 s : Prop :=
  (forall i, 0 <= i < c -> mem s !! place E m (u + i) = mem s0 !! (buf + i)) /\
  (forall x, (forall i, 0 <= i < c -> x <> place E m (u + i)) -> mem s !! x = mem s0 !! x).

Lemma write_owned v : access m true v = true -> exists p fl, m !! page_base v = Some (p, fl) /\ Z.testbit fl 5 = true /\
  place E m v = base E + (p + v mod 4096).
Proof.
  unfold access, place, phys_of. destruct (m !! page_base v) as [[p fl]|] eqn:Em; [|done]. cbn [negb orb]. intros [H1 H0]%andb_true_iff.
  exists p, fl. split_and!; [done|by eapply Hwr|done].
Qed.

Lemma place_inj v w D' s : aspace E D' m s -> access m true v = true -> access m true w = true -> place E m v = place E m w -> v = w.
Proof.
  intros (T & _ & _ & Hfr) (p & fl & Hm & Hb & ->)%write_owned (q & fl' & Hm' & Hb' & ->)%write_owned Heq.
  destruct (Hfr _ _ _ Hm) as [[a Ha] _], (Hfr _ _ _ Hm') as [[b Hb2] _]. destruct (page_base_spec v) as (Ev & _ & Hv), (page_base_spec w) as (Ew & _ & Hw).
  assert (a = b) by lia. assert (p = q) as -> by lia. pose proof (op_once m D HD _ _ _ _ _ Hm Hm' Hb Hb'). lia.
Qed.

Lemma wp_copy_in s u dst src chunk p fl Q : aspace E D m s -> m !! page_base u = Some (p, fl) -> Z.testbit fl 5 = true ->
  0 < chunk -> u mod 4096 + chunk <= 4096 -> p + u mod 4096 + chunk <= size E -> dst = base E + (p + u mod 4096) ->
  (forall i, 0 <= i < chunk -> is_Some (mem s !! (src + i))) -> src + chunk <= base E \/ base E + size E <= src ->
  (forall mm, aspace E D m (s <| mem := mm |>) -> (forall i, 0 <= i < chunk -> mm !! place E m (u + i) = mem s !! (src + i)) ->
     (forall x, (forall i, 0 <= i < chunk -> x <> place E m (u + i)) -> mm !! x = mem s !! x) -> Q tt (s <| mem := mm |>)) ->
  wp (bytes_copy dst src chunk) Q s.
Proof.
  intros Has Hm Hb Hc Hp Hs -> Hsrc Hd HQ. pose proof Has as (T & [V HDT HT Hf] & Hsh & Hfr). destruct (Hfr _ _ _ Hm) as [Hpd Hpr].
  assert (HpD : p ∈ D) by (apply (op_frames m D HD); eauto). assert (Hn : p ∉ dom T) by set_solver.
  destruct (page_base_spec u) as (_ & _ & Hu).
  assert (Hdst : forall i, 0 <= i < chunk -> is_Some (mem s !! (base E + (p + u mod 4096) + i))).
  { intros i Hi. apply (vm_mapped _ _ _ _ V), (g_mapped E G). lia. }
  destruct (copy_bytes_apart (Z.to_nat chunk) (mem s) (base E + (p + u mod 4096)) src) as (mm & Em & Hin & Hout); rewrite ?Z2Nat.id by lia;
    [by auto|lia|]. rewrite Z2Nat.id in * by lia.
  assert (Hplace : forall i, 0 <= i < chunk -> place E m (u + i) = base E + (p + u mod 4096) + i).
  { intros i Hi. unfold place. destruct (chunk_page u i chunk p fl m) as [_ ->]; [lia|lia|lia|done|]. cbn. lia. }
  exists tt, (s <| mem := mm |>). split; [unfold bytes_copy; by rewrite Em|]. apply HQ.
  - exists T. split; [|done]. constructor; try done. eapply vm_write; [exact V|apply elem_of_union_r; exact HpD|by apply not_elem_of_dom| | |].
    + intros x Hx. apply Hout. unfold in_page in Hx. lia.
    + intros x. destruct (decide (base E + (p + u mod 4096) <= x < base E + (p + u mod 4096) + chunk)) as [Hx|Hx]; [|by rewrite Hout by lia].
      pose proof (Hin (x - (base E + (p + u mod 4096))) ltac:(lia)) as Hxi. replace (base E + (p + u mod 4096) + (x - (base E + (p + u mod 4096)))) with x in Hxi by lia.
      rewrite Hxi. specialize (Hdst (x - (base E + (p + u mod 4096))) ltac:(lia)). replace (base E + (p + u mod 4096) + (x - (base E + (p + u mod 4096)))) with x in Hdst by lia.
      split; [done|]. intros _. apply Hsrc. lia.
    + destruct Hpd as [a ->], (g_pages E G) as [b Hb']. lia.
  - intros i Hi. rewrite Hplace by done. by apply Hin.
  - intros x Hx. apply Hout. destruct (decide (x < base E + (p + u mod 4096))); [by left|right]. destruct (decide (base E + (p + u mod 4096) + chunk <= x)); [done|].
    exfalso. apply (Hx (x - (base E + (p + u mod 4096)))); [lia|]. rewrite Hplace by lia. lia.
Qed.

Definition out_of_map buf length : Prop := 0 <= buf /\ (buf + length <= base E \/ base E + size E <= buf).

(** The chunk is added to what was copied before. *)
Lemma copied_to_step u buf c chunk s0 s mm D' : 0 <= c -> 0 < chunk -> out_of_map buf (c + chunk) -> aspace E D' m s ->
  (forall i, 0 <= i < c + chunk -> access m true (u + i) = true) ->
  (forall i, 0 <= i < c + chunk -> base E <= place E m (u + i) < base E + size E) ->
  copied_to u buf c s0 s -> (forall i, 0 <= i < chunk -> mm !! place E m (u + c + i) = mem s !! (buf + c + i)) ->
  (forall x, (forall i, 0 <= i < chunk -> x <> place E m (u + c + i)) -> mm !! x = mem s !! x) ->
  copied_to u buf (c + chunk) s0 (s <| mem := mm |>).
Proof.
  intros Hc Hch [_ Hb] Has Hacc Hin [H1 H2] H3 H4. split; cbn.
  - intros i Hi. destruct (decide (i < c)) as [Hlt|Hge].
    + rewrite H4; [apply H1; lia|]. intros j Hj Heq. assert (u + i = u + c + j); [|lia].
      apply (place_inj _ _ D' s Has); [apply Hacc; lia| |done]. replace (u + c + j) with (u + (c + j)) by lia. apply Hacc. lia.
    + specialize (H3 (i - c) ltac:(lia)). replace (u + c + (i - c)) with (u + i) in H3 by lia. replace (buf + c + (i - c)) with (buf + i) in H3 by lia.
      rewrite H3. apply H2. intros j Hj Heq. specialize (Hin j ltac:(lia)). lia.
  - intros x Hx. rewrite H4; [apply H2; intros i Hi; apply Hx; lia|]. intros i Hi. replace (u + c + i) with (u + (c + i)) by lia. apply Hx. lia.
Qed.

(** The loop, from the lock the call took to the one it gives back. *)
Lemma wp_copy_to_loop E0 u buf length s0 :
  (forall s, aspace E D m s -> aspace E0 D m (s <| object := (object s) <| lock := 0 |> |>)) ->
  0 <= u -> u + length <= NS_VMM_USER_TOP ->
  out_of_map buf length -> (forall i, 0 <= i < length -> is_Some (mem s0 !! (buf + i))) ->
  forall fuel c s, 0 <= c <= length -> rounds_left (u + c) (u + length) <= Z.of_nat fuel -> aspace E D m s -> copied_to u buf c s0 s ->
  (forall i, 0 <= i < c -> access m true (u + i) = true) ->
  (forall i, 0 <= i < c -> base E <= place E m (u + i) < base E + size E) ->
  wp (space_loop fuel sp u buf length c true)
    (fun r s' => exists c', copied_bytes E m true u length c' r /\ aspace E0 D m s' /\ copied_to u buf c' s0 s') s.
Proof.
  intros Hun Hu Hlen Hbuf Hsrc. assert (Hend : forall c s r, aspace E D m s -> copied_to u buf c s0 s -> copied_bytes E m true u length c r ->
    wp (vmm_unlock;; mret r) (fun r s' => exists c', copied_bytes E m true u length c' r /\ aspace E0 D m s' /\ copied_to u buf c' s0 s') s).
  { intros c s r Has Hct Hcb. apply wp_bind, wp_vmm_unlock, wp_ret. exists c. split_and!; [done|by apply Hun|done]. }
  induction fuel as [|fuel IH]; intros c s Hc Hfuel Has Hct Hacc Hpl; cbn [space_loop];
    (destruct (Z.ltb_spec c length) as [Hlt|Hge];
     [|assert (c = length) as -> by lia; apply (Hend length); [done|done|]; split_and!; [lia|lia|done|by left]]).
  { pose proof (rounds_positive (u + c) (u + length) ltac:(lia)). lia. }
  apply (wp_copy_round E D m s true u length c (fun mapped chunk => bytes_copy mapped (buf + c) chunk;;
    space_loop fuel sp u buf length (c + chunk) true) (fun r => vmm_unlock;; mret r)); try done; [lia| | |].
  - intros r Hna Hr. apply (Hend c); [done|done|]. split_and!; [lia|lia|done|]. right. by left.
  - intros p fl Hm Hs. apply (Hend c); [done|done|]. split_and!; [lia|lia|done|]. right. right. split_and!; [done|done|by exists p, fl].
  - intros p fl chunk Hm Hca Hc0 Hcp Hcl Hor Hs. destruct (write_owned (u + c) Hca) as (p' & fl' & Hm' & Hb & _).
    rewrite Hm in Hm'. injection Hm' as <- <-. destruct Hbuf as [Hb0 Hbuf]. pose proof Has as (_ & _ & _ & Hfr).
    destruct (Hfr _ _ _ Hm) as [_ Hp0]. destruct (page_base_spec (u + c)) as (_ & _ & Hmb).
    assert (Hnew : forall i, 0 <= i < chunk -> access m true (u + (c + i)) = true /\ base E <= place E m (u + (c + i)) < base E + size E).
    { intros i Hi. rewrite Z.add_assoc. destruct (chunk_page (u + c) i chunk p fl m) as [E1 E2]; [lia|lia|lia|done|].
      split; [by rewrite (access_page m true _ _ E1)|]. unfold place. rewrite E2. cbn. lia. }
    assert (Hold : forall i, 0 <= i < c + chunk -> access m true (u + i) = true /\ base E <= place E m (u + i) < base E + size E).
    { intros i Hi. destruct (decide (i < c)) as [Hic|Hic]; [split; [apply Hacc|apply Hpl]; lia|].
      replace i with (c + (i - c)) by lia. apply Hnew. lia. }
    apply wp_bind, (wp_copy_in s (u + c) _ _ chunk p fl); try done; [|lia|].
    { intros i Hi. replace (buf + c + i) with (buf + (c + i)) by lia. rewrite (proj2 Hct); [apply Hsrc; lia|].
      intros j Hj Heq. specialize (Hpl j Hj). lia. }
    intros mm Hmm Hin Hout. apply IH; try done; [lia| | |intros i Hi; by apply Hold|intros i Hi; by apply Hold].
    + pose proof (rounds_next (u + c) (u + length) chunk). rewrite Z.add_assoc. lia.
    + apply (copied_to_step u buf c chunk s0 s mm D); try done; [lia| |intros i Hi; by apply Hold|intros i Hi; by apply Hold]. split; lia.
Qed.
End into.

(** *** Out of the space *)

(** Kernel memory outside the direct map is not the manager's: it may change. *)
Definition rebase E (mm : gmap Z Z) : env W := mk_env (e_obj E) (e_others E) mm (e_frames E) (e_reserved E).

Lemma rebase_machine E mm : machine E -> same_mapped (e_mem E) mm -> machine (rebase E mm).
Proof. intros [H1 H2 H3 H4 H5 H6 H7 H8] Hsm. constructor; try done. intros x Hx. apply Hsm. by apply H5. Qed.

Lemma rebase_aspace E D m s mm : aspace E D m s -> (forall x, base E <= x < base E + size E -> mm !! x = mem s !! x) ->
  aspace (rebase E mm) D m (s <| mem := mm |>).
Proof.
  intros (T & [V H1 H2 H3] & Hsh & Hfr) Hmm. exists T. split; [|done]. constructor; try done. destruct V as [V1 V2 V3 V4 V5].
  constructor; try done. intros t es Ht. destruct (V5 t es Ht) as (HA & Hs & Hl & Hu & Hrow). split_and!; try done. split_and!; try done.
  intros i e Hie. rewrite <- (Hrow i e Hie). apply peek_ext. cbn. intros x Hx. apply Hmm. change (base (rebase E mm)) with (base E) in *.
  destruct (o_held _ _ _ _ _ V2 t HA) as (f & -> & Hf & _). apply rd_range in Hie. lia.
Qed.

Lemma chunk_place E u c i k p fl m : 0 <= k -> (u + c) mod 4096 + k <= 4096 -> 0 <= i < k -> m !! page_base (u + c) = Some (p, fl) ->
  place E m (u + (c + i)) = base E + (p + (u + c) mod 4096) + i.
Proof. intros H1 H2 H3 Hm. unfold place. rewrite (Z.add_assoc u). destruct (chunk_page (u + c) i k p fl m) as [_ ->]; [done..|]. cbn. lia. Qed.

Definition copied_from E m u buf (c : Z) (m0 mm : gmap Z Z) : Prop :=
  (forall i, 0 <= i < c -> mm !! (buf + i) = m0 !! place E m (u + i)) /\
  (forall x, x < buf \/ buf + c <= x -> mm !! x = m0 !! x).

Section out.
Context E (G : machine E) D m s0 u buf length (Has : aspace E D m s0) (Hu : 0 <= u) (Hlen : u + length <= NS_VMM_USER_TOP)
  (Hbuf : out_of_map E buf length) (Hdst : forall i, 0 <= i < length -> is_Some (mem s0 !! (buf + i))).

Lemma copied_from_aspace c mm : c <= length -> copied_from E m u buf c (mem s0) mm -> same_mapped (mem s0) mm ->
  machine (rebase E mm) /\ aspace (rebase E mm) D m (s0 <| mem := mm |>).
Proof.
  intros Hc [_ Hout] Hsm. destruct Hbuf as [_ Hb]. split.
  - apply rebase_machine; [done|]. pose proof Has as (T & [[_ _ _ Vm _] _ _ _] & _). intros x. rewrite (Hsm x). apply Vm.
  - apply rebase_aspace; [done|]. intros x Hx. apply Hout. lia.
Qed.

Lemma wp_copy_out c mm chunk p fl Q : 0 <= c -> 0 < chunk -> c + chunk <= length -> m !! page_base (u + c) = Some (p, fl) ->
  (u + c) mod 4096 + chunk <= 4096 -> p + (u + c) mod 4096 + chunk <= size E ->
  copied_from E m u buf c (mem s0) mm -> same_mapped (mem s0) mm ->
  (forall mm', copied_from E m u buf (c + chunk) (mem s0) mm' -> same_mapped (mem s0) mm' -> Q tt (s0 <| mem := mm' |>)) ->
  wp (bytes_copy (buf + c) (base E + (p + (u + c) mod 4096)) chunk) Q (s0 <| mem := mm |>).
Proof.
  intros Hc Hch Hcl Hm Hpg Hs [Hin Hout] Hsm HQ. pose proof Has as (T & [V _ _ _] & _ & Hfr). destruct (Hfr _ _ _ Hm) as [_ Hp0].
  destruct Hbuf as [Hb0 Hb]. destruct (page_base_spec (u + c)) as (_ & _ & Hmb). set (src := base E + (p + (u + c) mod 4096)).
  destruct (copy_bytes_apart (Z.to_nat chunk) mm (buf + c) src) as (mm' & Em & Hin' & Hout'); rewrite ?Z2Nat.id in * by lia.
  { intros i Hi. split; apply Hsm.
    - apply (vm_mapped _ _ _ _ V), (g_mapped E G). unfold src. lia.
    - replace (buf + c + i) with (buf + (c + i)) by lia. apply Hdst. lia. }
  { unfold src. lia. }
  assert (Hnew : forall i, 0 <= i < chunk -> mm' !! (buf + (c + i)) = mem s0 !! place E m (u + (c + i))).
  { intros i Hi. rewrite Z.add_assoc, Hin' by done. rewrite Hout by (unfold src; lia). f_equal. unfold src. symmetry.
    apply (chunk_place E u c i chunk p fl m); try done. lia. }
  exists tt, (s0 <| mem := mm' |>). split; [unfold bytes_copy; cbn; by rewrite Em|]. apply HQ.
  - split.
    + intros i Hi. destruct (decide (i < c)); [rewrite Hout' by lia; apply Hin; lia|].
      replace i with (c + (i - c)) by lia. apply Hnew. lia.
    + intros x Hx. rewrite Hout' by lia. apply Hout. lia.
  - intros x. destruct (decide (buf + c <= x < buf + c + chunk)) as [Hx|Hx]; [|rewrite Hout' by lia; apply Hsm].
    replace x with (buf + (c + (x - buf - c))) by lia. rewrite Hnew by lia.
    split; intros _; [apply Hdst; lia|]. apply (vm_mapped _ _ _ _ V), (g_mapped E G).
    rewrite (chunk_place E u c _ chunk p fl m) by (done || lia). lia.
Qed.

Lemma wp_copy_from_loop : forall fuel c mm, 0 <= c <= length -> rounds_left (u + c) (u + length) <= Z.of_nat fuel ->
  copied_from E m u buf c (mem s0) mm -> same_mapped (mem s0) mm -> (forall i, 0 <= i < c -> access m false (u + i) = true) ->
  wp (space_loop fuel sp u buf length c false)
    (fun r s' => exists c' mm', copied_bytes E m false u length c' r /\ copied_from E m u buf c' (mem s0) mm' /\ same_mapped (mem s0) mm' /\
       s' = s0 <| mem := mm' |> <| object := (object s0) <| lock := 0 |> |>) (s0 <| mem := mm |>).
Proof.
  induction fuel as [|fuel IH]; intros c mm Hc Hfuel Hct Hsm Hacc; cbn [space_loop];
    (destruct (Z.ltb_spec c length) as [Hlt|Hge];
     [|assert (c = length) as -> by lia; apply wp_bind, wp_vmm_unlock, wp_ret; exists length, mm; split_and!; [|done..];
       split_and!; [lia|lia|done|by left]]).
  { pose proof (rounds_positive (u + c) (u + length) ltac:(lia)). lia. }
  destruct (copied_from_aspace c mm) as [G' Has']; [lia|done|done|].
  apply (wp_copy_round (rebase E mm) D m _ false u length c (fun mapped chunk => bytes_copy (buf + c) mapped chunk;;
    space_loop fuel sp u buf length (c + chunk) false) (fun r => vmm_unlock;; mret r)); try done; [lia| | |].
  - intros r Hna Hr. apply wp_bind, wp_vmm_unlock, wp_ret. exists c, mm. split_and!; [|done..]. split_and!; [lia|lia|done|]. right. by left.
  - intros p fl Hm Hs. apply wp_bind, wp_vmm_unlock, wp_ret. exists c, mm. split_and!; [|done..]. split_and!; [lia|lia|done|].
    right. right. split_and!; [done|done|by exists p, fl].
  - intros p fl chunk Hm Hca Hc0 Hcp Hcl Hor Hs. apply wp_bind, (wp_copy_out c mm chunk p fl); try done; [lia|].
    intros mm' Hct' Hsm'. apply IH; try done; [lia| |].
    + pose proof (rounds_next (u + c) (u + length) chunk). rewrite Z.add_assoc. lia.
    + intros i Hi. destruct (decide (i < c)); [apply Hacc; lia|]. rewrite <- Hca. replace (u + i) with (u + c + (i - c)) by lia.
      apply access_page. apply (chunk_page (u + c) (i - c) chunk p fl m); try done; lia.
Qed.
End out.

(** *** The calls *)

Definition copy_refused (u buf length : Z) : Prop := length <> 0 /\ (NS_VMM_USER_TOP < u + length \/ buf = 0).

Lemma wp_copy_enter (to_user : bool) u buf length s Q : is_u64 u -> is_u64 length -> lock (object s) = 0 ->
  (length = 0 -> Q NS_VMM_OK s) -> (copy_refused u buf length -> Q NS_VMM_EINVAL s) ->
  (0 < length -> u + length <= NS_VMM_USER_TOP ->
     wp (space_loop (copy_fuel length) sp u buf length 0 to_user) Q (s <| object := (object s) <| lock := 1 |> |>)) ->
  wp (copy_space (Some sp) u buf length to_user) Q s.
Proof.
  intros Hu Hlen Hl H0 Hr Hgo. unfold copy_space. destruct (Z.eqb_spec length 0) as [->|Hl0]; [apply wp_ret; by apply H0|].
  destruct (Z.leb_spec NS_VMM_USER_TOP u); cbn [orb]; [apply wp_ret, Hr; split; [done|left; lia]|].
  destruct (Z.ltb_spec (NS_VMM_USER_TOP - u) length); cbn [orb]; [apply wp_ret, Hr; split; [done|left; lia]|].
  destruct (Z.eqb_spec buf 0) as [->|Hb]; [apply wp_ret, Hr; split; [done|by right]|].
  apply wp_bind, wp_vmm_lock; [done|]. apply Hgo; lia.
Qed.

Lemma wp_copy_to_space E D m s vmm u buf length : machine E -> lock (e_obj E) = 0 -> aspace E D m s -> owned_pages m D ->
  (forall v p fl, m !! v = Some (p, fl) -> Z.testbit fl 1 = true -> Z.testbit fl 0 = true -> Z.testbit fl 5 = true) ->
  is_u64 u -> is_u64 length -> out_of_map E buf length -> (forall i, 0 <= i < length -> is_Some (mem s !! (buf + i))) ->
  wp (ns_vmm_copy_to_space vmm (Some sp) u buf length)
    (fun r s' => (copy_refused u buf length /\ r = NS_VMM_EINVAL /\ s' = s) \/
       exists c, copied_bytes E m true u length c r /\ aspace E D m s' /\ copied_to E m u buf c s s') s.
Proof.
  intros G Hl Has HD Hwr Hu Hlen Hbuf Hsrc. unfold ns_vmm_copy_to_space.
  assert (Hs0 : lock (object s) = 0) by (destruct Has as (T & [V _ _ _] & _); by rewrite (vm_object _ _ _ _ V)).
  assert (Hnone : copied_to E m u buf 0 s s) by (split; [intros i Hi; lia|done]).
  apply wp_copy_enter; try done.
  - intros ->. right. exists 0. split_and!; [|done|done]. split_and!; [lia|lia|intros; lia|by left].
  - intros Hr. by left.
  - intros Hpos Htop. eapply wp_mono.
    { apply (wp_copy_to_loop (locked E)) with (D := D) (m := m) (E0 := E) (s0 := s); try done; try lia.
      - by apply locked_machine.
      - intros s'. by apply aspace_unlock.
      - rewrite Z.add_0_r. apply fuel_rounds; lia.
      - by apply aspace_lock. }
    intros r s' (c & Hc & Has' & Hct). right. by exists c.
Qed.

Lemma wp_copy_from_space E D m s vmm u buf length : machine E -> lock (e_obj E) = 0 -> aspace E D m s ->
  is_u64 u -> is_u64 length -> out_of_map E buf length -> (forall i, 0 <= i < length -> is_Some (mem s !! (buf + i))) ->
  wp (ns_vmm_copy_from_space vmm buf (Some sp) u length)
    (fun r s' => (copy_refused u buf length /\ r = NS_VMM_EINVAL /\ s' = s) \/
       exists c mm, copied_bytes E m false u length c r /\ s' = s <| mem := mm |> /\ copied_from E m u buf c (mem s) mm /\
         aspace (rebase E mm) D m s') s.
Proof.
  intros G Hl Has Hu Hlen Hbuf Hdst. unfold ns_vmm_copy_from_space.
  assert (Hs0 : lock (object s) = 0) by (destruct Has as (T & [V _ _ _] & _); by rewrite (vm_object _ _ _ _ V)).
  assert (Hnone : copied_from E m u buf 0 (mem s) (mem s)) by (split; [intros i Hi; lia|done]).
  assert (Hsm : same_mapped (mem s) (mem s)) by (intros x; reflexivity).
  assert (Hs1 : s <| mem := mem s |> = s) by by destruct s.
  apply wp_copy_enter; try done.
  - intros ->. right. exists 0, (mem s). split_and!; [|done|done|].
    + split_and!; [lia|lia|intros; lia|by left].
    + rewrite <- Hs1 at 2. by apply rebase_aspace.
  - intros Hr. by left.
  - intros Hpos Htop. set (s1 := s <| object := (object s) <| lock := 1 |> |>). assert (E1 : s1 = s1 <| mem := mem s |>) by by destruct s.
    rewrite E1. eapply wp_mono.
    { apply (wp_copy_from_loop (locked E)) with (D := D) (m := m) (mm := mem s) (s0 := s1); try done; try lia.
      - by apply locked_machine.
      - by apply aspace_lock.
      - rewrite Z.add_0_r. apply fuel_rounds; lia. }
    intros r s' (c & mm & Hc & Hct & Hsm' & ->). right. exists c, mm.
    assert (E2 : s1 <| mem := mm |> <| object := (object s1) <| lock := 0 |> |> = s <| mem := mm |>).
    { destruct s as [[] ? ? ?]. cbn in *. by subst. }
    rewrite E2. split_and!; [done|done|done|].
    apply (copied_from_aspace E G D m s u buf length Has Hbuf c mm); try done. apply Hc.
Qed.
End copy.
