(* ===== verification/VmmLife.v ===== *)
(** * Creating and destroying address spaces

    A new space has no page and shares the kernel half of the kernel's root
    table.  Destroying a space frees its tables and the frames of its owned
    pages, each once, and nothing else. *)

From S2P Require Import Prelude Errno Bytes Pmm Frames Vmm VmmTree VmmBits VmmProps VmmWalk VmmOps VmmSpace VmmRanges VmmUser VmmCopy.

(** The entries of a root table for the half of the users. *)
Definition user_half (i : Z) : Prop := 0 <= i < 256.

Lemma user_half_page v : is_page v -> v < NS_VMM_USER_TOP -> page_here user_half v.
Proof.
  intros Hp Hv. split; [done|]. unfold user_half. rewrite table_index_div by lia. destruct Hp as ([Hv0 _] & _).
  unfold NS_VMM_USER_TOP in Hv. change (2 ^ (12 + (4 - 1) * 9)) with (2 ^ 39).
  assert (0 <= v / 2 ^ 39 < 256) by (split; [by apply Z.div_pos|apply Z.div_lt_upper_bound; lia]). rewrite Z.mod_small; lia.
Qed.

(** The indices of a page in the users' half determine it. *)
Lemma page_of_indices r i : path_ok user_half r -> length r = 3%nat -> 0 <= i < 512 ->
  exists v, page_here user_half v /\ path v = r /\ table_index v 1 = i.
Proof.
  intros (_ & Hr & Hs) Hl Hi. destruct r as [|a [|b [|c [|]]]]; try done. apply Forall_cons in Hr as [_ Hr].
  apply Forall_cons in Hr as [Hb Hr]. apply Forall_cons in Hr as [Hc _]. unfold user_half in Hs.
  set (v := 4096 * (i + 512 * (c + 512 * (b + 512 * a)))).
  assert (Hd : forall k q r, v = r + q * 2 ^ k -> 0 <= r < 2 ^ k -> v / 2 ^ k = q).
  { intros k q r0 Hv Hr0. symmetry. apply Z.div_unique with r0; lia. }
  assert (E1 : v / 2 ^ 12 = i + 512 * (c + 512 * (b + 512 * a))) by (apply Hd with 0; unfold v; lia).
  assert (E2 : v / 2 ^ 21 = c + 512 * (b + 512 * a)) by (apply Hd with (4096 * i); unfold v; lia).
  assert (E3 : v / 2 ^ 30 = b + 512 * a) by (apply Hd with (4096 * (i + 512 * c)); unfold v; lia).
  assert (E4 : v / 2 ^ 39 = a) by (apply Hd with (4096 * (i + 512 * (c + 512 * b))); unfold v; lia).
  assert (Hm : forall x y, 0 <= x < 512 -> (x + 512 * y) mod 512 = x).
  { intros x y Hx. rewrite (Z.mul_comm 512), Z.mod_add, Z.mod_small by lia. done. }
  assert (Hp : is_page v).
  { split_and!; [unfold v; lia|unfold v; lia|by exists (v / 4096); unfold v; rewrite Z.mul_comm, Z.div_mul by lia; lia|].
    unfold canonical_address, NS_VMM_USER_TOP. rewrite (proj2 (Z.ltb_lt _ _)) by (unfold v; lia). done. }
  exists v. unfold path. rewrite !table_index_div by lia. change (12 + (1 - 1) * 9) with 12. change (12 + (2 - 1) * 9) with 21.
  change (12 + (3 - 1) * 9) with 30. change (12 + (4 - 1) * 9) with 39. rewrite E1, E2, E3, E4, !Hm, (Z.mod_small a) by lia.
  split_and!; [|done|done]. apply user_half_page; [done|]. unfold NS_VMM_USER_TOP, v. lia.
Qed.

(** ** What is reached from an entry *)

Section life.
Context {W : Type} (slots : Z -> Prop) (root : Z).
Implicit Types (E : env W) (s : vstate W) (A D : gset Z) (T : gmap Z (list Z)) (p q r : list Z) (d t : Z).

Section gone.
Context T0 (HT : tree slots root T0) D (HD : D ## dom T0).
Abbreviation path_ok := (path_ok slots).
Context (Hown : forall r i e, path_ok r -> length r = 3%nat -> leaf T0 root r i = Some e -> owned e = true -> addr e ∈ D).
Context (Honce : forall r i e r' i' e', path_ok r -> length r = 3%nat -> leaf T0 root r i = Some e -> owned e = true ->
  path_ok r' -> length r' = 3%nat -> leaf T0 root r' i' = Some e' -> owned e' = true -> addr e = addr e' -> r = r' /\ i = i').

(** The frame [d] is the table at the end of [q], or the owned page. *)
Definition placed q d : Prop :=
  (path_ok q /\ follow T0 root q = Some d) \/
  (exists r i e, q = r ++ [i] /\ path_ok r /\ length r = 3%nat /\ leaf T0 root r i = Some e /\ owned e = true /\ addr e = d).

(** It is reached through [q]. *)
Definition gone q d : Prop := exists r, placed (q ++ r) d.

Lemma placed_inj q q' d : placed q d -> placed q' d -> q = q'.
Proof.
  assert (Htab : forall q d r i e, path_ok q -> follow T0 root q = Some d -> path_ok r -> length r = 3%nat ->
    leaf T0 root r i = Some e -> owned e = true -> addr e = d -> False).
  { intros p t r i e Hp Hf Hr Hl He Ho <-. destruct (tr_table _ _ _ HT p _ Hp Hf) as [es Hes%elem_of_dom_2].
    apply (HD (addr e)); [by eapply Hown|done]. }
  intros [[Hq Hf]|(r & i & e & -> & Hr & Hl & He & Ho & Ha)] [[Hq' Hf']|(r' & i' & e' & -> & Hr' & Hl' & He' & Ho' & Ha')].
  - by apply (tr_inj _ _ _ HT _ _ d).
  - exfalso. by apply (Htab q d r' i' e').
  - exfalso. by apply (Htab q' d r i e).
  - destruct (Honce r i e r' i' e') as [-> ->]; try done. congruence.
Qed.

Lemma gone_down q r d : gone (q ++ r) d -> gone q d.
Proof. intros [r' H]. exists (r ++ r'). by rewrite app_assoc. Qed.

Lemma gone_apart p i j d : gone (p ++ [i]) d -> gone (p ++ [j]) d -> i = j.
Proof.
  intros [r H] [r' H']. pose proof (placed_inj _ _ _ H H') as Heq. rewrite <- !app_assoc in Heq. apply app_inv_head in Heq. by injection Heq.
Qed.

Lemma gone_not_table p t i : path_ok p -> follow T0 root p = Some t -> ~ gone (p ++ [i]) t.
Proof.
  intros Hp Hf [r H]. assert (Heq : p = (p ++ [i]) ++ r) by (apply (placed_inj _ _ t); [by left|done]).
  apply (f_equal length) in Heq. rewrite !length_app in Heq. cbn in Heq. lia.
Qed.

Lemma gone_table p t : path_ok p -> follow T0 root p = Some t -> gone p t.
Proof. intros Hp Hf. exists []. rewrite app_nil_r. by left. Qed.

(** What is reached through an entry of the table at the end of [p]. *)
Lemma gone_nothing p j e d : slot T0 root p j = Some e -> present e = false -> ~ gone (p ++ [j]) d.
Proof.
  intros Hs Hp [r H]. rewrite <- app_assoc in H. cbn in H.
  assert (Habs : forall q r', p ++ j :: r' = q -> is_Some (follow T0 root q) -> False).
  { intros q r' <- [u Hu]. change (j :: r') with ([j] ++ r') in Hu. rewrite app_assoc, follow_app in Hu.
    destruct (follow T0 root (p ++ [j])) as [v|] eqn:Ev; [|done]. apply follow_snoc in Ev as (e' & He' & Hp' & _). congruence. }
  destruct H as [[_ Hf]|(q & i & e' & Heq & _ & _ & [Hl Hp']%leaf_Some & _)]; [by eapply Habs|].
  destruct r as [|k r] using rev_ind.
  - apply app_inj_tail in Heq as [<- <-]. congruence.
  - clear IHr. rewrite app_comm_cons, app_assoc in Heq. apply app_inj_tail in Heq as [<- <-].
    apply slot_Some in Hl as (u & us & Hu & _). by eapply (Habs _ r).
Qed.

Lemma gone_leaf p j e d : path_ok p -> length p = 3%nat -> leaf T0 root p j = Some e -> gone (p ++ [j]) d <-> owned e = true /\ d = addr e.
Proof.
  intros Hp Hl He. split.
  - intros [r [[(Hlen & _) _]|(q & i & e' & Heq & Hq & Hlq & He' & Ho & Ha)]].
    { rewrite !length_app in Hlen. cbn in Hlen. lia. }
    assert (r = []) as ->.
    { apply (f_equal length) in Heq. rewrite !length_app in Heq. cbn in Heq. destruct r; [done|cbn in Heq; lia]. }
    rewrite app_nil_r in Heq. apply app_inj_tail in Heq as [<- <-]. rewrite He in He'. injection He' as <-. done.
  - intros [Ho ->]. exists []. rewrite app_nil_r. right. eauto 10.
Qed.

Lemma gone_dir p j e d : path_ok (p ++ [j]) -> slot T0 root p j = Some e -> present e = true ->
  gone (p ++ [j]) d <-> d = addr e \/ exists k, 0 <= k < 512 /\ gone ((p ++ [j]) ++ [k]) d.
Proof.
  intros Hp Hs Hpe. assert (Hf : follow T0 root (p ++ [j]) = Some (addr e)) by (apply follow_snoc; eauto). split.
  - intros [[|k r] H].
    + left. rewrite app_nil_r in H. destruct H as [[_ H]|(q & i & e' & Heq & _ & Hl & _)]; [congruence|].
      apply app_inj_tail in Heq as [<- <-]. apply path_snoc in Hp as (_ & _ & Hp). lia.
    + right. exists k. split; [|exists r; rewrite <- (app_assoc (p ++ [j])); exact H].
      change (k :: r) with ([k] ++ r) in H. destruct H as [[(_ & H & _) _]|(q & i & e' & Heq & (_ & Hq & _) & Hl & He' & _)].
      * apply Forall_app in H as [_ H]. apply Forall_app in H as [H _]. exact (Forall_inv H).
      * apply leaf_Some in He' as [He' _]. apply (slot_range root T0) in He'; [|apply HT].
        assert (H : Forall (fun i => 0 <= i < 512) (q ++ [i])) by (apply Forall_app; by rewrite Forall_singleton).
        rewrite <- Heq in H. apply Forall_app in H as [_ H]. apply Forall_app in H as [H _]. exact (Forall_inv H).
  - intros [->|(k & _ & H)]; [by apply gone_table|by eapply gone_down].
Qed.

(** *** The entries of one table *)

(** The first [j] entries of the table [t] at the end of [p] are cleared, and what
    they reach is freed: [A] and [T] have become [A'] and [T']. *)
Record cleared p t es A T j A' T' : Prop := {
  cl_table : exists es', T' !! t = Some es' /\ forall k, j <= k -> rd es' k = rd es k;
  cl_held : forall d, d ∈ A' <-> d ∈ A /\ ~ exists k, 0 <= k < j /\ gone (p ++ [k]) d;
  cl_rest : forall u, u <> t -> ~ (exists k, 0 <= k < j /\ gone (p ++ [k]) u) -> T' !! u = T !! u }.

Lemma cleared_next p t es A T j A1 T1 A2 T2 es2 : 0 <= j -> cleared p t es A T j A1 T1 ->
  (forall d, d ∈ A2 <-> d ∈ A1 /\ ~ gone (p ++ [j]) d) ->
  (forall u, u <> t -> ~ gone (p ++ [j]) u -> T2 !! u = T1 !! u) ->
  T2 !! t = Some es2 -> (forall k, j < k -> rd es2 k = rd es k) -> cleared p t es A T (j + 1) A2 T2.
Proof.
  intros Hj [_ Hh Hr] HA HT2 He2 Hes. assert (Hlast : forall d, (exists k, 0 <= k < j + 1 /\ gone (p ++ [k]) d) <->
    (exists k, 0 <= k < j /\ gone (p ++ [k]) d) \/ gone (p ++ [j]) d).
  { intros d. split; [|intros [(k & Hk & Hg)|Hg]; eexists; (split; [|done]); lia].
    intros (k & Hk & Hg). destruct (decide (k = j)) as [->|]; [by right|]. left. exists k. split; [lia|done]. }
  constructor.
  - exists es2. split; [done|]. intros k Hk. apply Hes. lia.
  - intros d. rewrite HA, Hh, Hlast. tauto.
  - intros u Hu Hg. rewrite Hlast in Hg. rewrite HT2 by tauto. apply Hr; tauto.
Qed.

Section entry.
Context E (G : machine E) p t es A T (Hp : path_ok p) (Hf : follow T0 root p = Some t) (He : T0 !! t = Some es)
  (HA : forall d, gone p d -> d ∈ A) (HTT : forall u, gone p u -> T !! u = T0 !! u).

(** What an entry that is not yet cleared reaches is still there. *)
Lemma cleared_still j A' T' d : cleared p t es A T j A' T' -> gone (p ++ [j]) d -> d ∈ A' /\ T' !! d = T0 !! d /\ d <> t.
Proof.
  intros [_ Hh Hr] Hg. assert (Hn : ~ exists k, 0 <= k < j /\ gone (p ++ [k]) d).
  { intros (k & Hk & Hg'). pose proof (gone_apart p j k d Hg Hg'). lia. }
  assert (Ht : d <> t) by (intros ->; by apply (gone_not_table p t j Hp Hf)).
  split_and!; [|by rewrite Hr by done; apply HTT; eapply gone_down|done]. apply Hh. split; [apply HA; by eapply gone_down|done].
Qed.

(** The entry is zeroed after that. *)
Lemma wp_clear_entry j A1 T1 A2 T2 s : 0 <= j < 512 -> cleared p t es A T j A1 T1 -> vm E A2 T2 s ->
  (forall d, d ∈ A2 <-> d ∈ A1 /\ ~ gone (p ++ [j]) d) -> (forall u, ~ gone (p ++ [j]) u -> T2 !! u = T1 !! u) ->
  wp (st 8 (entry_at (base E + t) j) 0) (fun _ s' => exists A' T', vm E A' T' s' /\ cleared p t es A T (j + 1) A' T') s.
Proof.
  intros Hj Hcl V HA2 HT2. destruct (cl_table _ _ _ _ _ _ _ _ Hcl) as (es1 & He1 & Hes1).
  assert (He2 : T2 !! t = Some es1) by (rewrite HT2; [done|by apply gone_not_table]).
  assert (Hlen : length es1 = 512%nat) by (destruct (vm_tables _ _ _ _ V t es1 He2) as (_ & _ & H & _); exact H).
  apply (wp_st E G A2 T2 s t es1); [done|done|done|lia|]. intros s' V'. eexists _, _. split; [exact V'|].
  eapply cleared_next; [lia|exact Hcl|done| |apply lookup_insert_eq|].
  - intros u Hu Hg. rewrite lookup_insert_ne by done. by apply HT2.
  - intros k Hk. rewrite rd_set, decide_False by lia. apply Hes1. lia.
Qed.

(** An owned frame at the last level. *)
Lemma wp_clear_leaf j e A1 T1 s : length p = 3%nat -> 0 <= j < 512 -> rd es j = Some e -> present e = true ->
  vm E A1 T1 s -> cleared p t es A T j A1 T1 ->
  wp (when (negb (Z.land e X86_PTE_OWNED =? 0)) (pmm_free (Z.land e X86_PTE_ADDR);; mret tt);; st 8 (entry_at (base E + t) j) 0)
    (fun _ s' => exists A' T', vm E A' T' s' /\ cleared p t es A T (j + 1) A' T') s.
Proof.
  intros Hl Hj Hr Hpe V Hcl. rewrite test_owned, negb_involutive. fold (addr e).
  assert (Hle : leaf T0 root p j = Some e) by (apply leaf_Some; split; [apply slot_Some; eauto|done]).
  pose proof (fun d => gone_leaf p j e d Hp Hl Hle) as Hg. destruct (owned e) eqn:Eo; cbn [when]; apply wp_bind.
  - destruct (cleared_still j A1 T1 (addr e) Hcl) as (HA1 & HT1 & Hne); [by apply Hg|].
    assert (Hn : T1 !! addr e = None).
    { rewrite HT1. apply not_elem_of_dom. intros Hd. apply (HD (addr e)); [by eapply Hown|done]. }
    apply wp_bind, (wp_pmm_free E A1 T1 s); [done|done|done|]. intros s1 _ V1. apply wp_ret.
    eapply wp_clear_entry; [done|done|exact V1| |done]. intros d. rewrite Hg, elem_of_difference, elem_of_singleton. tauto.
  - apply wp_ret. eapply wp_clear_entry; [done|done|exact V| |done]. intros d. rewrite Hg. naive_solver.
Qed.

(** What [destroy_table_level] does to the table at the end of [q]. *)
Definition destroys level : Prop := forall q u limit A T s Q, (level + length q = 4)%nat -> path_ok q ->
  follow T0 root q = Some u -> 0 <= limit <= 512 -> (forall i, 0 <= i < limit -> index_ok slots q i) ->
  vm E A T s -> (forall d, gone q d -> d ∈ A) -> (forall u, gone q u -> T !! u = T0 !! u) ->
  (forall A' T' s', vm E A' T' s' -> (forall d, d ∈ A' <-> d ∈ A /\ ~ exists k, 0 <= k < limit /\ gone (q ++ [k]) d) ->
     (forall u, ~ gone q u -> T' !! u = T !! u) -> Q tt s') ->
  wp (destroy_table_level level u limit) Q s.

(** A table below. *)
Lemma wp_clear_child below j e A1 T1 s : destroys below -> (below + length p = 3)%nat -> path_ok (p ++ [j]) -> rd es j = Some e -> present e = true ->
  vm E A1 T1 s -> cleared p t es A T j A1 T1 ->
  wp ((destroy_table_level below (addr e) 512;; pmm_free (addr e);; mret tt);; st 8 (entry_at (base E + t) j) 0)
    (fun _ s' => exists A' T', vm E A' T' s' /\ cleared p t es A T (j + 1) A' T') s.
Proof.
  intros IH Hlev Hpj Hr Hpe V Hcl. assert (Hs : slot T0 root p j = Some e) by (apply slot_Some; eauto).
  assert (Hfc : follow T0 root (p ++ [j]) = Some (addr e)) by (apply follow_snoc; eauto).
  pose proof (fun d => cleared_still j A1 T1 d Hcl) as Hstill. pose proof (fun d => gone_dir p j e d Hpj Hs Hpe) as Hg.
  apply wp_bind, wp_bind, (IH (p ++ [j]) (addr e) 512 A1 T1); try done.
  - rewrite length_app. cbn. lia.
  - intros i Hi. split; [done|]. intros Hnil. by destruct p.
  - intros d Hd. by apply Hstill.
  - intros d Hd. by apply Hstill.
  - intros A2 T2 s2 V2 HA2 HT2. assert (Hc2 : addr e ∈ A2).
    { apply HA2. split; [apply Hstill, Hg; by left|]. intros (k & _ & Hk). by apply (gone_not_table (p ++ [j]) (addr e) k). }
    apply wp_bind, (wp_pmm_free E A2 (delete (addr e) T2) s2);
      [eapply vm_subset; [apply delete_subseteq|exact V2]|done|apply lookup_delete_eq|]. intros s3 _ V3. apply wp_ret.
    assert (Hj : 0 <= j < 512) by (apply path_snoc in Hpj as (_ & [? _] & _); done).
    apply (wp_clear_entry j A1 T1 _ _ s3 Hj Hcl V3).
    + intros d. rewrite elem_of_difference, elem_of_singleton, HA2, Hg. tauto.
    + intros u Hu. rewrite lookup_delete_ne by (intros <-; apply Hu, Hg; by left). by apply HT2.
Qed.
End entry.

(** *** The recursion *)

(** The tables below [p], whose entries [0 .. limit - 1] are cleared. *)
Lemma wp_destroy_level E (G : machine E) level : destroys E level.
Proof.
  induction level as [|below IH]; intros p t limit A T s Q Hlev Hp Hf Hlim Hidx V HA HTT HQ; [destruct Hp; lia|].
  cbn [destroy_table_level]. destruct (tr_table _ _ _ HT p t Hp Hf) as [es He].
  assert (Het : T !! t = Some es) by (rewrite HTT; [done|by apply gone_table]).
  assert (Hlen := tr_len _ _ _ HT t es He). apply wp_bind, (wp_table_pointer E G A T s t es); [done|done|].
  rewrite (table_nonzero E G A T s t es) by done. eapply wp_mono.
  { apply (wp_for_m (fun j _ s => exists A' T', vm E A' T' s /\ cleared p t es A T j A' T')).
    2: { exists A, T. split; [done|]. constructor; [by exists es| |done]. intros d. split; [|tauto]. intros Hd. split; [done|]. intros (k & Hk & _). lia. }
    intros j [] s1 Hj (A1 & T1 & V1 & Hcl). rewrite Z2Nat.id in Hj by lia.
    destruct (cl_table _ _ _ _ _ _ _ _ Hcl) as (es1 & He1 & Hes1). destruct (rd_Some es j) as [e Hr]; [lia|].
    assert (Hs : slot T0 root p j = Some e) by (apply slot_Some; eauto).
    apply wp_bind, (wp_ld E A1 T1 s1 t es1 j e); [done|done|by rewrite Hes1|]. rewrite test_present.
    destruct (present e) eqn:Epe; cbn [negb].
    2: { apply wp_ret. exists A1, T1. split; [done|]. pose proof (fun d => gone_nothing p j e d Hs Epe) as Hg.
         eapply cleared_next; [lia|exact Hcl| |done|exact He1|intros k Hk; apply Hes1; lia]. intros d. specialize (Hg d). tauto. }
    destruct (decide (length p = 3%nat)) as [H3|H3].
    { assert (below = 0%nat) as -> by lia. cbn [Nat.eqb orb].
      apply (wp_clear_leaf E G p t es A T Hp Hf He HA HTT j e A1 T1); try done. lia. }
    assert (H3' : (length p < 3)%nat) by (destruct Hp; lia).
    assert (Hdir : directory e = true) by (by eapply (tr_dir _ _ _ HT p j); [|apply Hidx|..]).
    rewrite (proj2 (Nat.eqb_neq _ _)) by lia. rewrite test_huge, (directory_not_huge e Hdir). cbn [orb negb]. fold (addr e).
    apply (wp_clear_child E G p t es A T Hp Hf He HA HTT below j e A1 T1); try done; [lia|].
    apply path_snoc. split_and!; [done|by apply Hidx|done]. }
  rewrite Z.add_0_l, Z2Nat.id by lia. intros [] s' (A' & T' & V' & [_ Hh Hrest]). apply (HQ A' T'); [done|done|].
  intros u Hu. apply Hrest.
  - intros ->. apply Hu. by apply gone_table.
  - intros (k & _ & Hk). apply Hu. by eapply gone_down.
Qed.
End gone.
End life.

(** ** Destroying a space *)

Section destroy.
Context {W : Type} (root : Z).
Implicit Types (E : env W) (s : vstate W) (A D : gset Z) (T : gmap Z (list Z)) (m : pages).

(** The owned pages of the map are the leaves of the tree that are marked so. *)
Lemma owned_leaves T m D : shows user_half root T m -> owned_pages m D -> tree user_half root T ->
  (forall r i e, path_ok user_half r -> length r = 3%nat -> leaf T root r i = Some e -> owned e = true -> addr e ∈ D) /\
  (forall r i e r' i' e', path_ok user_half r -> length r = 3%nat -> leaf T root r i = Some e -> owned e = true ->
    path_ok user_half r' -> length r' = 3%nat -> leaf T root r' i' = Some e' -> owned e' = true -> addr e = addr e' -> r = r' /\ i = i').
Proof.
  intros [_ Hsh] HD HT. assert (Hv : forall r i e, path_ok user_half r -> length r = 3%nat -> leaf T root r i = Some e ->
    exists v, path v = r /\ table_index v 1 = i /\ m !! v = Some (addr e, flags_from_entry e)).
  { intros r i e Hr Hl He. pose proof He as [Hs _]%leaf_Some. apply (slot_range root T) in Hs; [|apply HT].
    destruct (page_of_indices r i Hr Hl Hs) as (v & Hv & <- & <-). exists v. split_and!; [done|done|].
    rewrite Hsh by done. unfold maps. by rewrite He. }
  split.
  - intros r i e Hr Hl He Ho. destruct (Hv r i e Hr Hl He) as (v & _ & _ & Em). apply (op_frames m D HD). eexists _, _. split; [exact Em|].
    by destruct (flags_bits e) as (_ & _ & _ & _ & ->).
  - intros r i e r' i' e' Hr Hl He Ho Hr' Hl' He' Ho' Ha. destruct (Hv r i e Hr Hl He) as (v & <- & <- & Em).
    destruct (Hv r' i' e' Hr' Hl' He') as (v' & <- & <- & Em'). rewrite <- Ha in Em'.
    assert (v = v') as ->; [|done]. eapply (op_once m D HD); [exact Em|exact Em'| |];
      [by destruct (flags_bits e) as (_ & _ & _ & _ & ->)|by destruct (flags_bits e') as (_ & _ & _ & _ & ->)].
Qed.

(** All that the tables and the owned pages hold is reached from the root. *)
Lemma gone_all T m D : shows user_half root T m -> owned_pages m D -> tree user_half root T ->
  forall d, d ∈ dom T ∪ D <-> gone user_half root T [] d.
Proof.
  intros [Hm Hsh] HD HT d. rewrite elem_of_union. split.
  - intros [[es Hd]%elem_of_dom|(v & fl & Em & Hfl)%(op_frames m D HD)].
    + destruct (tr_all _ _ _ HT d) as (q & Hq & Hf); [by eauto|]. exists q. by left.
    + assert (Hv : page_here user_half v) by (apply Hm; eauto). rewrite Hsh in Em by done.
      destruct (maps root T v) as [e|] eqn:Ee; [|done]. injection Em as <- <-. destruct (path_here _ _ Hv) as [Hp Hl].
      exists (path v ++ [table_index v 1]). right. eexists _, _, e. split_and!; [done|done|done|exact Ee| |done].
      by destruct (flags_bits e) as (_ & _ & _ & _ & <-).
  - intros [q [[Hq Hf]|(r & i & e & _ & Hr & Hl & He & Ho & <-)]].
    + left. apply elem_of_dom. by eapply (tr_table _ _ _ HT).
    + right. by eapply (proj1 (owned_leaves T m D ltac:(done) HD HT)).
Qed.

Lemma gone_root T d : tree user_half root T -> gone user_half root T [] d -> d = root \/ exists k, 0 <= k < 256 /\ gone user_half root T ([] ++ [k]) d.
Proof.
  intros HT [[|k r] H].
  - destruct H as [[_ [= ->]]|(r & i & e & Heq & _)]; [by left|]. by destruct r.
  - right. exists k. split; [|by exists r]. destruct H as [[(_ & _ & Hk) _]|(q & i & e & Heq & (_ & _ & Hq) & Hl & _)]; [done|].
    destruct q as [|k' q]; [done|]. by injection Heq as <- _.
Qed.

Lemma wp_destroy_tables E (G : machine E) m s Q : holding user_half root E m s ->
  (forall s', vm E {[root]} ∅ s' -> Q tt s') -> wp (destroy_table_level 4 root 256) Q s.
Proof.
  intros (D & (T & [V HDT HT _] & Hsh & _) & HD) HQ. destruct (owned_leaves T m D Hsh HD HT) as [Hown Honce].
  pose proof (gone_all T m D Hsh HD HT) as Hall. assert (Hnil : path_ok user_half []) by (split_and!; [cbn; lia|by constructor|done]).
  apply (wp_destroy_level user_half root T HT D HDT Hown Honce E G 4 [] root 256 (dom T ∪ D) T s); try done.
  - intros i Hi. split; [lia|]. intros _. exact Hi.
  - intros d Hd. by apply Hall.
  - intros A' T' s' V' HA' _. apply HQ. assert (A' = {[root]}) as <-; [|eapply vm_subset; [|exact V']; apply map_empty_subseteq].
    apply set_eq. intros d. rewrite HA', elem_of_singleton, Hall. split.
    + intros [Hd Hn]. by destruct (gone_root T d HT Hd).
    + intros ->. split.
      * apply Hall, elem_of_union_l, elem_of_dom, HT.
      * intros (k & _ & Hk). by apply (gone_not_table user_half root T HT D HDT Hown Honce [] root k).
Qed.

(** The manager after the space that was active is gone. *)
Definition retired E : ns_vmm W :=
  if active_root_phys (e_obj E) =? root then (e_obj E) <| active_root_phys := kernel_root_phys (config (e_obj E)) |> else e_obj E.

Lemma wp_destroy_space E (G : machine E) vmm sp m s : vmm <> 0 -> lock (e_obj E) = 0 -> initialized (e_obj E) <> 0 ->
  root_phys sp = root -> root <> 0 -> owns_root sp <> 0 -> holding user_half root E m s ->
  wp (ns_vmm_destroy_space vmm (Some sp)) (fun r s' => r = Some (mk_space 0 0) /\ vm (with_object E (retired E)) ∅ ∅ s') s.
Proof.
  intros Hvmm Hl Hinit Hr Hr0 Ho Hh. unfold ns_vmm_destroy_space. rewrite (proj2 (Z.eqb_neq vmm 0) Hvmm). unfold vget.
  assert (Hobj : object s = e_obj E) by (destruct Hh as (D & (T & [V _ _ _] & _) & _); apply V).
  apply wp_bind, wp_gets. rewrite Hobj, Hr, (proj2 (Z.eqb_neq _ 0) Hinit), (proj2 (Z.eqb_neq _ 0) Hr0), (proj2 (Z.eqb_neq _ 0) Ho).
  cbn [orb]. apply wp_bind, wp_vmm_lock; [congruence|].
  assert (Hh' : holding user_half root (locked E) m (s <| object := (object s) <| lock := 1 |> |>)).
  { destruct Hh as (D & Has & HD). exists D. split; [by apply aspace_lock|done]. }
  apply wp_bind, (wp_destroy_tables (locked E) (locked_machine E G) m); [done|]. intros s1 V1.
  apply wp_bind, (wp_pmm_free (locked E) {[root]} ∅ s1); [done|by apply elem_of_singleton|done|]. intros s2 _ V2.
  rewrite difference_diag_L in V2. pose proof (vm_object _ _ _ _ V2) as Hobj2. apply wp_bind, wp_gets. rewrite Hobj2; cbn [locked with_object e_obj].
  assert (Hend : forall s', vm (with_object E ((retired E) <| lock := 1 |>)) ∅ ∅ s' ->
    wp (vmm_unlock;; mret (Some (mk_space 0 0))) (fun r s' => r = Some (mk_space 0 0) /\ vm (with_object E (retired E)) ∅ ∅ s') s').
  { intros s' V'. apply wp_bind, wp_vmm_unlock, wp_ret. split; [done|]. pose proof (vm_object _ _ _ _ V') as Ho'. unfold retired in *.
    destruct (_ =? _); (constructor; try apply V'; cbn; rewrite Ho'; cbn; destruct (e_obj E); cbn in *; by subst). }
  unfold retired in Hend |- *. apply wp_bind. change (active_root_phys ((e_obj E) <| lock := 1 |>)) with (active_root_phys (e_obj E)).
  destruct (Z.eqb_spec (active_root_phys (e_obj E)) root) as [Ha|Ha]; [|by apply wp_ret, Hend].
  unfold cget, vget, vset. apply wp_bind, wp_gets. rewrite Hobj2. apply wp_bind, wp_modify.
  match goal with |- wp _ _ ?x => set (s3 := x) end.
  assert (V3 : vm (with_object E ((e_obj E) <| active_root_phys := kernel_root_phys (config (e_obj E)) |> <| lock := 1 |>)) ∅ ∅ s3).
  { constructor; try apply V2. cbn. by rewrite Hobj2. }
  apply wp_bind, wp_gets. rewrite (vm_object _ _ _ _ V3) at 1. change (activate_root _) with (activate_root (config (e_obj E))).
  destruct (activate_root (config (e_obj E))) as [f|] eqn:Ef; [|by apply wp_ret, Hend].
  apply wp_bind, wp_gets, wp_bind, wp_zoom.
  destruct (g_activate E G f (callback_context (config (object s3))) (kernel_root_phys (config (e_obj E))) (world s3) Ef) as (r & w & Ew).
  exists r, w. split; [done|]. by apply wp_ret, Hend, vm_world.
Qed.
End destroy.

(** ** Creating a space *)

(** A root table without entries for users is a tree. *)
Lemma bare_tree t es : length es = 512%nat -> (forall k e, 0 <= k < 256 -> rd es k = Some e -> present e = false) ->
  tree user_half t {[t := es]} /\ forall v, page_here user_half v -> maps t {[t := es]} v = None.
Proof.
  intros Hl Hz. assert (Hf : forall p u, path_ok user_half p -> follow {[t := es]} t p = Some u -> p = [] /\ u = t).
  { intros [|i p] u (_ & _ & Hs) Hfo; [by injection Hfo as <-|]. cbn in Hfo. rewrite lookup_singleton_eq in Hfo. cbn in Hfo.
    destruct (rd es i) as [e|] eqn:Er; [|done]. cbn in Hfo. by rewrite (Hz i e) in Hfo. }
  split.
  - constructor.
    + by rewrite lookup_singleton_eq.
    + intros p u Hp [_ ->]%Hf; [|done]. by rewrite lookup_singleton_eq.
    + intros p q u Hp Hq [-> _]%Hf [-> _]%Hf; done.
    + intros u [us [<- _]%lookup_singleton_Some]. exists []. split; [|done]. split_and!; [cbn; lia|by constructor|done].
    + by intros u us [_ <-]%lookup_singleton_Some.
    + intros p i e Hp [Hi Hi'] _ (u & us & Hfo & Hu & Hr)%slot_Some Hpe. destruct (Hf _ _ Hp Hfo) as [-> ->].
      apply lookup_singleton_Some in Hu as [_ <-]. rewrite (Hz i e (Hi' eq_refl) Hr) in Hpe. done.
    + intros p i r j e d Hp Hlen [(u & us & Hfo & _)%slot_Some _]%leaf_Some. destruct (Hf _ _ Hp Hfo) as [Hnil _]. by destruct p.
  - intros v Hv. destruct (path_here _ _ Hv) as [Hp _]. unfold maps. destruct (leaf _ _ _ _) as [e|] eqn:Ee; [|done].
    apply leaf_Some in Ee as [(u & us & Hfo & _)%slot_Some _]. by destruct (Hf _ _ Hp Hfo).
Qed.

Lemma bare_holding {W} (E : env W) t es s : vm E {[t]} {[t := es]} s -> length es = 512%nat ->
  (forall k e, 0 <= k < 256 -> rd es k = Some e -> present e = false) -> holding user_half t E ∅ s.
Proof.
  intros V Hl Hz. destruct (bare_tree t es Hl Hz) as [HT Hm]. exists ∅. split.
  - exists {[t := es]}. split_and!.
    + constructor; [|set_solver|done|].
      * by rewrite dom_singleton_L, union_empty_r_L.
      * by intros u us [<- _]%lookup_singleton_Some Hne.
    + split; [by intros v [? ?]|]. intros v Hv. by rewrite Hm.
    + by intros v p fl.
  - constructor; [|done]. intros d. split; [set_solver|by intros (v & fl & ? & _)].
Qed.

Section create.
Context {W : Type} (E : env W) (G : machine E) (kes : list Z).
Implicit Types (s : vstate W) (A : gset Z) (T : gmap Z (list Z)).

(** The kernel's root table, which others hold. *)
Definition kernel_root : Z := kernel_root_phys (config (e_obj E)).

Record kernel_table : Prop := {
  kt_page : (4096 | kernel_root) /\ 0 <= kernel_root /\ kernel_root + 4096 <= size E;
  kt_others : e_others E kernel_root;
  kt_row : row_at E (e_mem E) kernel_root kes }.

Context (K : kernel_table).

Lemma wp_kernel_pointer A T s Q : vm E A T s -> Q (base E + kernel_root) s -> wp (table_pointer kernel_root) Q s.
Proof.
  intros V HQ. destruct (kt_page K) as (Hd & H0 & Hs). unfold table_pointer. rewrite page_mask.
  apply Z.mod_divide in Hd; [|lia]. unfold NS_PAGE_SIZE. rewrite Hd. cbn [Z.eqb negb].
  apply (wp_phys_to_virt E G A T); [done|lia|lia|done|lia].
Qed.

Lemma wp_ld_kernel A T s i e Q : vm E A T s -> rd kes i = Some e -> Q e s -> wp (ld 8 (entry_at (base E + kernel_root) i)) Q s.
Proof.
  intros V Hr HQ. destruct (kt_page K) as (Hd & H0 & Hs). destruct (kt_row K) as (Hl & _ & Hrow). exists e, s. split; [|done].
  unfold ld, entry_at. rewrite (peek_ext 8 (e_mem E) (mem s)); [by rewrite (Hrow i e Hr)|]. apply rd_range in Hr. intros x Hx.
  apply (vm_quiet _ _ _ _ V). right. right. rewrite (page_of_in E kernel_root x Hd); [apply K|]. unfold in_page. lia.
Qed.

(** The kernel half of the root is copied. *)
Lemma wp_copy_half s t : vm E {[t]} {[t := replicate 512 0]} s ->
  wp (for_m 256 (fun index _ => e ← ld 8 (entry_at (base E + kernel_root) index); st 8 (entry_at (base E + t) index) e) 256 tt)
    (fun _ s' => exists es, vm E {[t]} {[t := es]} s' /\ length es = 512%nat /\
       (forall k, 0 <= k < 256 -> rd es k = Some 0) /\ (forall k, 256 <= k < 512 -> rd es k = rd kes k)) s.
Proof.
  intros V. destruct (kt_row K) as (Hlk & Hu & _). eapply wp_mono.
  { apply (wp_for_m (fun j _ s => exists es, vm E {[t]} {[t := es]} s /\ length es = 512%nat /\
       (forall k, 0 <= k < 256 -> rd es k = Some 0) /\ (forall k, 256 <= k < j -> rd es k = rd kes k))).
    - intros j [] s1 Hj (es & V1 & Hl & Hlo & Hhi). destruct (rd_Some kes j) as [e He]; [lia|].
      apply wp_bind, (wp_ld_kernel {[t]} {[t := es]} s1 j e); [done|done|]. assert (Hue : is_u64 e).
      { apply rd_lookup in He as [_ He]. by apply (Forall_lookup_1 _ _ _ _ Hu He). }
      apply (wp_st E G {[t]} {[t := es]} s1 t es); [done|by rewrite lookup_singleton_eq|lia|done|]. intros s2 V2.
      rewrite insert_singleton_eq in V2. exists (<[Z.to_nat j:=e]> es). split_and!; [done|by rewrite length_insert| |].
      + intros k Hk. rewrite rd_set, decide_False by lia. by apply Hlo.
      + intros k Hk. rewrite rd_set by lia. destruct (decide (k = j)) as [->|]; [done|]. apply Hhi. lia.
    - exists (replicate 512 0). split_and!; [done|by rewrite length_replicate| |lia]. intros k Hk. apply rd_lookup. split; [lia|].
      apply lookup_replicate_2. lia. }
  cbn. intros _ s' H. exact H.
Qed.

End create.

Lemma wp_create_space {W} (E : env W) (G : machine E) kes (K : kernel_table E kes) (Hlock : lock (e_obj E) = 0)
  (Hinit : initialized (e_obj E) <> 0) vmm (Hvmm : vmm <> 0) old s : vm E ∅ ∅ s ->
  wp (ns_vmm_create_space vmm (Some old))
    (fun x s' => let '(r, out) := x in
       (r = NS_VMM_OK /\ exists t, out = Some (mk_space t 1) /\ holding user_half t E ∅ s' /\
          forall k, 256 <= k < 512 -> peek 8 (mem s') (base E + t + 8 * k) = rd kes k) \/
       ((r = NS_VMM_ENOMEM \/ r = NS_VMM_ECORRUPT) /\ out = Some old /\ vm E ∅ ∅ s')) s.
Proof.
  intros V. pose proof (vm_object _ _ _ _ V) as Hobj. unfold ns_vmm_create_space, vget. rewrite (proj2 (Z.eqb_neq vmm 0) Hvmm).
  apply wp_bind, wp_gets. rewrite Hobj, (proj2 (Z.eqb_neq _ 0) Hinit). apply wp_bind, wp_vmm_lock; [congruence|].
  assert (GL : machine (locked E)) by by apply locked_machine. assert (KL : kernel_table (locked E) kes) by (constructor; apply K).
  assert (Hun : forall A T s, vm (locked E) A T s -> vm E A T (s <| object := (object s) <| lock := 0 |> |>)).
  { intros A T s1 V1. constructor; try apply V1. cbn. rewrite (vm_object _ _ _ _ V1). cbn. destruct (e_obj E); cbn in *. by subst. }
  apply wp_bind, (wp_allocate_table (locked E) GL ∅ ∅).
  - constructor; try apply V. cbn. by rewrite Hobj.
  - intros t s1 _ _ Hd Ht V1. rewrite union_empty_r_L in V1. cbn [NS_VMM_OK Z.eqb negb]. unfold cget, vget. apply wp_bind, wp_gets.
    rewrite (vm_object _ _ _ _ V1). fold (kernel_root (locked E)). apply wp_bind, (wp_kernel_pointer (locked E) GL kes KL {[t]} {[t := replicate 512 0]} s1); [exact V1|].
    pose proof (g_base _ GL) as [Hb _]. unfold NS_VMM_KERNEL_HALF_BASE in Hb. destruct (kt_page _ _ KL) as (_ & Hk0 & _).
    rewrite (proj2 (Z.eqb_neq _ 0)) by lia. apply wp_bind. eapply wp_mono; [by apply (wp_copy_half (locked E) GL kes KL)|].
    intros [] s2 (es & V2 & Hl & Hlo & Hhi). apply wp_bind, wp_vmm_unlock, wp_ret. left. split; [done|]. exists t.
    apply Hun in V2. split_and!; [done| |].
    + apply (bare_holding E t es); [done|done|]. intros k e Hk Hr. rewrite Hlo in Hr by done. by injection Hr as <-.
    + intros k Hk. destruct (rd_Some es k) as [e He]; [lia|]. rewrite <- Hhi, He by done.
      destruct (vm_tables _ _ _ _ V2 t es) as (_ & _ & _ & _ & Hrow); [by rewrite lookup_singleton_eq|]. by apply Hrow.
  - intros r s1 Hr V1. assert (Hne : r <> NS_VMM_OK) by (by destruct Hr as [-> | ->]). cbn beta iota.
    rewrite (proj2 (Z.eqb_neq r NS_VMM_OK) Hne). cbn [negb]. apply wp_bind, wp_vmm_unlock, wp_ret. right. split_and!; [done|done|by apply Hun].
Qed.
