(* ===== verification/VmmSystem.v ===== *)
(** * Address spaces of users, in the system

    The calls on an address space of a user process, as a language of operations
    with an abstract semantics on the map of its pages; sequences of operations
    from the creation of the space to its end; and the frame rule, by which two
    spaces do not notice each other. *)

From S2P Require Import Prelude Errno Bytes Pmm Frames Vmm VmmTree VmmBits VmmProps VmmWalk VmmOps VmmSpace VmmRanges VmmAlloc VmmUser VmmCopy VmmLife.

Section system.
Context {W : Type}.
Implicit Types (E : env W) (s : vstate W) (sp : ns_vmm_space) (m : pages) (D : gset Z) (virt phys flags r : Z).

(** The manager is initialised and not in use. *)
Record running E : Prop := {
  ru_machine : machine E;
  ru_lock : lock (e_obj E) = 0;
  ru_init : initialized (e_obj E) <> 0 }.

(** A space made by [ns_vmm_create_space], with the pages [m] in the users' half. *)
Record user_space E sp m s : Prop := {
  us_root : root_phys sp <> 0;
  us_owns : owns_root sp <> 0;
  us_holding : holding user_half (root_phys sp) E m s }.

Lemma user_half_low v : page_here user_half v -> v < NS_VMM_USER_TOP.
Proof.
  intros [([Hv Hv'] & _ & Hc) Hs]. unfold user_half in Hs. destruct (canonical_low v (conj Hv Hv') Hc) as [[H _]|[H _]].
  - unfold NS_VMM_USER_TOP. lia.
  - exfalso. rewrite table_index_div in Hs by lia. change (2 ^ (12 + (4 - 1) * 9)) with (2 ^ 39) in Hs.
    assert (Em : v mod 2 ^ 48 / 2 ^ 39 = v / 2 ^ 39 mod 512).
    { replace (2 ^ 48) with (2 ^ 39 * 512) by lia. rewrite Z.rem_mul_r by lia.
      rewrite (Z.mul_comm (2 ^ 39)), Z.div_add by lia. rewrite (Z.div_small (v mod 2 ^ 39)) by (apply Z.mod_pos_bound; lia). done. }
    rewrite <- Em in Hs. assert (2 ^ 47 / 2 ^ 39 <= v mod 2 ^ 48 / 2 ^ 39) as Hle by (apply Z.div_le_mono; lia).
    change (2 ^ 47 / 2 ^ 39) with 256 in Hle. lia.
Qed.

Lemma user_half_base v : page_here user_half v -> v < NS_VMM_KERNEL_HALF_BASE.
Proof. intros H%user_half_low. unfold NS_VMM_USER_TOP, NS_VMM_KERNEL_HALF_BASE in *. lia. Qed.

(** Every address is in the users' half or refused. *)
Lemma user_reachable sp virt : owns_root sp <> 0 -> is_u64 virt -> reachable user_half sp virt.
Proof.
  intros Ho Hu. split; [done|]. intros Hp. pose proof Hp as (_ & _ & Hc). unfold canonical_address in Hc.
  apply orb_true_iff in Hc as [Hc%Z.ltb_lt|Hc%Z.leb_le]; [left; by apply user_half_page|by right].
Qed.

Lemma user_range sp virt length : owns_root sp <> 0 -> is_u64 virt -> range_ok virt length -> reach_range user_half sp virt (range_end virt length).
Proof. intros Ho Hv Hok v _ Hr. pose proof (ra_end _ _ Hok). apply user_reachable; [done|lia]. Qed.

Lemma user_pages virt e v : e <= NS_VMM_USER_TOP -> 0 <= virt -> (4096 | v) -> virt <= v < e -> page_here user_half v.
Proof.
  intros He H0 Hd Hv. apply user_half_page; [|lia]. split_and!; [lia|unfold NS_VMM_USER_TOP in *; lia|done|].
  unfold canonical_address. rewrite (proj2 (Z.ltb_lt _ _)) by lia. done.
Qed.

(** ** Operations *)

Inductive vmm_op :=
| OpMap (virt phys flags : Z) | OpUnmap (virt : Z) (release_owned : bool) | OpMapRange (virt phys length flags : Z)
| OpAllocMap (virt length flags : Z) | OpUnmapRange (virt length : Z) (release_owned : bool)
| OpProtect (virt length flags : Z).

(** The contract of a call on a space with the pages [m].  The arguments have their
    types and the flags are those of mm_vmm.h.  What a caller may not do:
    mark a frame that it maps as owned by the page ([NS_VMM_PAGE_OWNED]), since
    the frame would be freed with it; take an owned page away and keep its
    frame allocated; mark pages that are not owned as owned by changing their
    protection; and protect a range that starts in the users' half and ends in
    the kernel's. *)
Definition op_ok m (op : vmm_op) : Prop :=
  match op with
  | OpMap virt phys flags => is_u64 virt /\ is_u64 phys /\ 0 <= flags < 32
  | OpUnmap virt release_owned =>
    is_u64 virt /\ forall p fl, m !! virt = Some (p, fl) -> release_owned = false -> Z.testbit fl 5 = false
  | OpMapRange virt phys length flags => is_u64 virt /\ is_u64 phys /\ is_u64 length /\ 0 <= flags < 32
  | OpAllocMap virt length flags => is_u64 virt /\ is_u64 length /\ 0 <= flags < 64
  | OpUnmapRange virt length release_owned =>
    is_u64 virt /\ is_u64 length /\
    (release_owned = false -> forall v p fl, virt <= v < range_end virt length -> m !! v = Some (p, fl) -> Z.testbit fl 5 = false)
  | OpProtect virt length flags =>
    is_u64 virt /\ is_u64 length /\ 0 <= flags < 64 /\ keeps_owners (page_count length) virt flags m /\
    (range_ok virt length -> NS_VMM_KERNEL_HALF_BASE <= virt \/ range_end virt length <= NS_VMM_USER_TOP)
  end.

Definition run_op (vmm : Z) sp (op : vmm_op) : M (vstate W) Z :=
  match op with
  | OpMap virt phys flags => ns_vmm_map vmm (Some sp) virt phys flags
  | OpUnmap virt release_owned => ns_vmm_unmap vmm (Some sp) virt release_owned
  | OpMapRange virt phys length flags => ns_vmm_map_range vmm (Some sp) virt phys length flags
  | OpAllocMap virt length flags => ns_vmm_alloc_map vmm (Some sp) virt length flags
  | OpUnmapRange virt length release_owned => ns_vmm_unmap_range vmm (Some sp) virt length release_owned
  | OpProtect virt length flags => ns_vmm_protect vmm (Some sp) virt length flags
  end.

(** What an operation does to the map of the pages. *)
Definition op_step E sp (op : vmm_op) m r m' : Prop :=
  match op with
  | OpMap virt phys flags => map_spec E sp m virt phys flags r m'
  | OpUnmap virt _ => r = unmap_status sp m virt /\ m' = delete virt m
  | OpMapRange virt phys length flags =>
    (r = NS_VMM_OK /\ range_ok virt length /\ clear (page_count length) virt m /\ m' = fill (page_count length) virt phys flags m) \/
    (r <> NS_VMM_OK /\ m' = m)
  | OpAllocMap virt length flags =>
    (r = NS_VMM_OK /\ range_ok virt length /\ clear (page_count length) virt m /\
     (forall v, ~ virt <= v < range_end virt length -> m' !! v = m !! v) /\
     forall i, (i < page_count length)%nat -> exists f, m' !! (virt + 4096 * Z.of_nat i) = Some (f, Z.lor flags NS_VMM_PAGE_OWNED)) \/
    (r <> NS_VMM_OK /\ m' = m)
  | OpUnmapRange virt length _ =>
    (range_ok virt length /\ m' = outside virt (range_end virt length) m) \/
    (~ range_ok virt length /\ m' = m /\ r = if length =? 0 then NS_VMM_OK else NS_VMM_EINVAL)
  | OpProtect virt length flags =>
    (~ range_ok virt length /\ r = NS_VMM_EINVAL /\ m' = m) \/
    (range_ok virt length /\ NS_VMM_KERNEL_HALF_BASE <= virt /\ r = NS_VMM_EPERM /\ m' = m) \/
    (range_ok virt length /\ virt < NS_VMM_KERNEL_HALF_BASE /\ exists k, (k <= page_count length)%nat /\ m' = reprotect k virt flags m /\
       (forall i, (i < k)%nat -> protect_status E flags m (virt + 4096 * Z.of_nat i) = NS_VMM_OK) /\
       ((r = NS_VMM_OK /\ k = page_count length) \/
        ((k < page_count length)%nat /\ r <> NS_VMM_OK /\ r = protect_status E flags m (virt + 4096 * Z.of_nat k))))
  end.

Lemma flags_low flags : 0 <= flags < 32 -> 0 <= flags < 64 /\ Z.testbit flags 5 = false.
Proof. intros H. split; [lia|]. apply Z.bits_above_log2; [lia|]. destruct (decide (flags = 0)) as [->|]; [done|]. apply Z.log2_lt_pow2; lia. Qed.

(** Users have no say in the kernel's half. *)
Lemma wp_protect_refused E vmm sp virt length flags (Q : Z -> vstate W -> Prop) s : vmm <> 0 -> owns_root sp <> 0 ->
  is_u64 virt -> is_u64 length -> range_ok virt length -> NS_VMM_KERNEL_HALF_BASE <= virt -> Q NS_VMM_EPERM s ->
  wp (ns_vmm_protect vmm (Some sp) virt length flags) Q s.
Proof.
  intros Hvmm Ho Hv Hlen Hok Hb HQ. unfold ns_vmm_protect. rewrite (proj2 (Z.eqb_neq vmm 0) Hvmm).
  destruct (validate_range virt length Hv Hlen) as [[_ ->]|[Hno _]]; [|done]. cbn [NS_VMM_OK Z.eqb negb orb].
  rewrite (proj2 (Z.eqb_neq _ 0) Ho), (proj2 (Z.leb_le _ _) Hb). by apply wp_ret.
Qed.

Lemma wp_run_op E vmm sp m s op : running E -> vmm <> 0 -> user_space E sp m s -> op_ok m op ->
  wp (run_op vmm sp op) (fun r s' => exists m', user_space E sp m' s' /\ op_step E sp op m r m') s.
Proof.
  intros [G Hl Hi] Hvmm [Hr0 Ho Hh] Hop.
  assert (Hhalf : owns_root sp <> 0 -> forall v, page_here user_half v -> v < NS_VMM_KERNEL_HALF_BASE) by (intros _; exact user_half_base).
  assert (Hus : forall m' s', holding user_half (root_phys sp) E m' s' -> user_space E sp m' s') by by constructor.
  destruct op as [virt phys flags|virt rel|virt phys length flags|virt length flags|virt length rel|virt length flags]; cbn [op_ok run_op op_step] in *.
  - destruct Hop as (Hv & Hp & [Hf H5]%flags_low). eapply wp_mono.
    { apply (wp_map_page user_half (root_phys sp) E G Hl Hi vmm Hvmm sp eq_refl Hr0 Hhalf m); try done. by apply user_reachable. }
    intros r s' (m' & Hh' & Hsp & _). eauto.
  - destruct Hop as (Hv & Hrel). eapply wp_mono.
    { apply (wp_unmap_page user_half (root_phys sp) E G Hl Hi vmm Hvmm sp eq_refl Hr0 Hhalf m s virt rel Hh); [by apply user_reachable|done]. }
    intros r s' (-> & Hh' & _). eauto.
  - destruct Hop as (Hv & Hp & Hlen & [Hf H5]%flags_low). eapply wp_mono.
    { apply (wp_map_range user_half (root_phys sp) E G Hl Hi vmm Hvmm sp eq_refl Hr0 Hhalf m); try done. intros Hok. by apply user_range. }
    intros r s' [[-> ->]|(Hok & [(-> & Hh' & Hc)|[Hr Hh']] & _)]; [exists m; eauto 6|exists (fill (page_count length) virt phys flags m); eauto 8|exists m; eauto 6].
  - destruct Hop as (Hv & Hlen & Hf). eapply wp_mono.
    { apply (wp_alloc_map user_half (root_phys sp) E G Hl Hi vmm Hvmm sp eq_refl Hr0 Hhalf m); try done. intros Hok. by apply user_range. }
    intros r s' [(_ & -> & ->)|(Hok & [(-> & mk & Hh' & Hc & Hout & Hin)|[Hr Hh']] & _)]; [exists m; eauto 6| |exists m; eauto 6].
    exists mk. split; [eauto|]. left. rewrite (page_count_end virt length Hok). split_and!; try done.
    intros i Hi'. destruct (Hin i Hi') as (_ & f & Hf' & _). eauto.
  - destruct Hop as (Hv & Hlen & Hrel). eapply wp_mono.
    { apply (wp_unmap_range user_half (root_phys sp) E G Hl Hi vmm Hvmm sp eq_refl Hr0 Hhalf m); try done. intros Hok. by apply user_range. }
    intros r s' [(-> & -> & ->)|[(Hl0 & Hno & -> & ->)|(Hok & Hh' & _)]].
    + exists m. split; [eauto|]. right. split_and!; [by intros [_ ? _ _]|done|done].
    + exists m. split; [eauto|]. right. split_and!; [done|done|]. by rewrite (proj2 (Z.eqb_neq _ _) Hl0).
    + exists (outside virt (range_end virt length) m). eauto.
  - destruct Hop as (Hv & Hlen & Hf & Hk5 & He). destruct (validate_range virt length Hv Hlen) as [[Hok _]|[Hno _]].
    2: { eapply wp_mono; [by apply (wp_protect user_half (root_phys sp) E G Hl Hi vmm Hvmm sp eq_refl m)|].
         intros r s' [(_ & -> & ->)|[Hok _]]; [exists m; eauto 8|done]. }
    destruct (Z.le_gt_cases NS_VMM_KERNEL_HALF_BASE virt) as [Hb|Hb].
    { apply wp_protect_refused; try done. exists m. eauto 8. }
    eapply wp_mono.
    { apply (wp_protect user_half (root_phys sp) E G Hl Hi vmm Hvmm sp eq_refl m); try done.
      intros _ v Hd Hv'. apply (user_pages virt (range_end virt length)); [destruct (He Hok); [lia|done]|lia|done|done]. }
    intros r s' [[Hno _]|(_ & k & Hk & Hh' & _ & Hst & Hr)]; [done|].
    exists (reprotect k virt flags m). split; [eauto|]. right. right. split_and!; [done|done|]. exists k. done.
Qed.

(** ** Sequences *)

Fixpoint run_ops (vmm : Z) sp (ops : list vmm_op) : M (vstate W) (list Z) :=
  match ops with
  | [] => mret []
  | op :: rest => r ← run_op vmm sp op; rs ← run_ops vmm sp rest; mret (r :: rs)
  end.

Fixpoint op_steps E sp (ops : list vmm_op) m (rs : list Z) m' : Prop :=
  match ops, rs with
  | [], [] => m' = m
  | op :: ops', r :: rs' => exists m1, op_step E sp op m r m1 /\ op_steps E sp ops' m1 rs' m'
  | _, _ => False
  end.

(** Every call of a sequence is within its contract, whatever the calls before it
    returned. *)
Fixpoint ops_ok E sp (ops : list vmm_op) m : Prop :=
  match ops with
  | [] => True
  | op :: ops' => op_ok m op /\ forall r m', op_step E sp op m r m' -> ops_ok E sp ops' m'
  end.

(** Calls that are within their contract on any pages. *)
Definition op_plain (op : vmm_op) : Prop := forall m, op_ok m op.

Lemma ops_plain E sp ops m : Forall op_plain ops -> ops_ok E sp ops m.
Proof. intros H. revert m. induction H as [|op ops Hop _ IH]; intros m; cbn; [done|]. split; [apply Hop|]. auto. Qed.

Lemma wp_run_ops E vmm sp ops : running E -> vmm <> 0 -> forall m s, ops_ok E sp ops m -> user_space E sp m s ->
  wp (run_ops vmm sp ops) (fun rs s' => exists m', user_space E sp m' s' /\ op_steps E sp ops m rs m') s.
Proof.
  intros R Hvmm. induction ops as [|op ops IH]; intros m s Hok Hus; cbn [run_ops]; [apply wp_ret; by exists m|].
  destruct Hok as [Hop Hok]. apply wp_bind. eapply wp_mono; [by apply (wp_run_op E vmm sp m)|].
  intros r s1 (m1 & Hus1 & Hst). apply wp_bind. eapply wp_mono; [by apply (IH m1); eauto|].
  intros rs s2 (m2 & Hus2 & Hsts). apply wp_ret. exists m2. split; [done|]. cbn. by exists m1.
Qed.

(** A process: its space is made, used and destroyed. *)
Definition life (vmm : Z) sp0 (ops : list vmm_op) : M (vstate W) Z :=
  '(r, out) ← ns_vmm_create_space vmm (Some sp0);
  match out with
  | Some sp => if r =? NS_VMM_OK then run_ops vmm sp ops;; ns_vmm_destroy_space vmm (Some sp);; mret r else mret r
  | None => mret r
  end.

Lemma wp_life E kes vmm sp0 ops s : running E -> kernel_table E kes -> e_others E 0 -> e_others E (active_root_phys (e_obj E)) -> vmm <> 0 ->
  (forall t, ops_ok E (mk_space t 1) ops ∅) -> vm E ∅ ∅ s ->
  wp (life vmm sp0 ops) (fun r s' => (r = NS_VMM_OK \/ r = NS_VMM_ENOMEM \/ r = NS_VMM_ECORRUPT) /\ vm E ∅ ∅ s') s.
Proof.
  intros R K H0 Hact Hvmm Hops V. pose proof R as [G Hl Hi]. unfold life. apply wp_bind. eapply wp_mono; [by apply (wp_create_space E G kes)|].
  intros [r out] s1 [(-> & t & -> & Hh & _)|(Hr & -> & V1)].
  2: { destruct Hr as [-> | ->]; apply wp_ret; auto. }
  cbn [NS_VMM_OK Z.eqb]. assert (Ht : ~ e_others E t).
  { destruct Hh as (D & (T & [V1 _ HT _] & _) & _). destruct (tr_root _ _ _ HT) as [es He%elem_of_dom_2].
    apply (o_sep _ _ _ _ _ (vm_owns _ _ _ _ V1)). set_solver. }
  assert (Ht0 : t <> 0) by (by intros ->). apply wp_bind. eapply wp_mono.
  { apply (wp_run_ops E vmm (mk_space t 1) ops R Hvmm ∅); [done|by constructor]. }
  intros rs s2 (m & [_ _ Hh2] & _). apply wp_bind. eapply wp_mono; [by apply (wp_destroy_space t E G vmm (mk_space t 1) m)|].
  intros out s3 [_ V3]. apply wp_ret. split; [by left|]. assert (Er : retired t E = e_obj E).
  { unfold retired. rewrite (proj2 (Z.eqb_neq _ _)); [done|]. by intros <-. }
  rewrite Er in V3. by destruct E.
Qed.

(** ** Translation *)

Lemma wp_ns_translate E vmm sp m s virt old oldf : running E -> vmm <> 0 -> user_space E sp m s -> is_u64 virt -> virt < NS_VMM_USER_TOP ->
  wp (ns_vmm_translate vmm (Some sp) virt (Some old) oldf)
    (fun x s' => s' = s /\ match m !! page_base virt with
       | Some (p, fl) => x = (NS_VMM_OK, (Some (p + virt mod 4096), (fun _ => fl) <$> oldf))
       | None => x = (NS_VMM_ENOENT, (Some old, oldf)) end) s.
Proof.
  intros [G Hl Hi] Hvmm [Hr0 Ho (D & Has & HD)] Hu Hlow. unfold ns_vmm_translate, vget. rewrite (proj2 (Z.eqb_neq vmm 0) Hvmm).
  assert (Hobj : object s = e_obj E) by (destruct Has as (T & [V _ _ _] & _); apply V).
  assert (Hls : lock (object s) = 0) by congruence.
  apply wp_bind, wp_gets. rewrite Hobj, (proj2 (Z.eqb_neq _ 0) Hi).
  destruct (user_canonical virt) as [_ Hc]; [lia|]. rewrite Hc. cbn [orb negb]. apply wp_bind, wp_vmm_lock; [congruence|].
  apply wp_bind, (wp_translate_page user_half (root_phys sp) sp eq_refl (locked E) D m); [by apply locked_machine|by apply aspace_lock| | |].
  - apply user_half_page; [by apply page_base_page|]. destruct (page_base_spec virt) as (Eb & _ & Hm). rewrite Eb. lia.
  - intros p fl Hm. rewrite Hm. apply wp_bind, wp_vmm_unlock, wp_ret. split; [exact (unlock_lock s Hls)|done].
  - intros Hm. rewrite Hm. apply wp_bind, wp_vmm_unlock, wp_ret. split; [exact (unlock_lock s Hls)|done].
Qed.

(** ** Two spaces *)

(** The tables [T] and the frames [D] of a space, apart from who else holds what. *)
Record layout E sp m (T : gmap Z (list Z)) D : Prop := {
  la_root : root_phys sp <> 0;
  la_owns : owns_root sp <> 0;
  la_apart : D ## dom T;
  la_tree : tree user_half (root_phys sp) T;
  la_full : full (root_phys sp) T;
  la_shows : shows user_half (root_phys sp) T m;
  la_frames : frames_ok E m;
  la_owned : owned_pages m D }.

(** Two spaces that hold different frames. *)
Definition both E sp1 m1 sp2 m2 s : Prop := exists T1 D1 T2 D2,
  layout E sp1 m1 T1 D1 /\ layout E sp2 m2 T2 D2 /\ dom T1 ∪ D1 ## dom T2 ∪ D2 /\ vm E ((dom T1 ∪ D1) ∪ (dom T2 ∪ D2)) (T1 ∪ T2) s.

Lemma both_sym E sp1 m1 sp2 m2 s : both E sp1 m1 sp2 m2 s -> both E sp2 m2 sp1 m1 s.
Proof.
  intros (T1 & D1 & T2 & D2 & L1 & L2 & Hd & V). exists T2, D2, T1, D1. split_and!; [done|done|done|].
  rewrite map_union_comm, union_comm_L; [done|]. apply map_disjoint_dom. set_solver.
Qed.

(** One of the two, the other put aside. *)
Lemma both_space E sp1 m1 T1 D1 H2 T s : layout E sp1 m1 T1 D1 -> dom T1 ∪ D1 ## H2 -> T1 ⊆ T ->
  vm E ((dom T1 ∪ D1) ∪ H2) T s ->
  space E user_half (root_phys sp1) (D1 ∪ H2) T1 s /\ user_space (keep E H2 s) sp1 m1 s.
Proof.
  intros L Hd HT V. assert (Hsp : space E user_half (root_phys sp1) (D1 ∪ H2) T1 s).
  { constructor; [|pose proof (la_apart _ _ _ _ _ L); set_solver|apply L|apply L]. rewrite union_assoc_L. by eapply vm_subset. }
  split; [done|]. constructor; [apply L|apply L|]. exists D1. split; [|apply L]. exists T1. split; [|split; apply L].
  pose proof (keep_space user_half _ E (D1 ∪ H2) H2 T1 s ltac:(set_solver) Hsp) as Hk. by replace ((D1 ∪ H2) ∖ H2) with D1 in Hk by set_solver.
Qed.

Lemma both_back E sp1 m1 T1 D1 sp2 m2 T2 D2 s s' m1' : layout E sp1 m1 T1 D1 -> layout E sp2 m2 T2 D2 ->
  dom T1 ∪ D1 ## dom T2 ∪ D2 -> vm E ((dom T1 ∪ D1) ∪ (dom T2 ∪ D2)) (T1 ∪ T2) s ->
  user_space (keep E (dom T2 ∪ D2) s) sp1 m1' s' -> both E sp1 m1' sp2 m2 s' /\ kept_pages E m2 s s'.
Proof.
  intros L1 L2 Hd V [_ _ (D1' & (T1' & Hsp' & Hsh' & Hfr') & HD')].
  assert (Hm : T1 ##ₘ T2) by (apply map_disjoint_dom; set_solver).
  destruct (both_space E sp1 m1 T1 D1 (dom T2 ∪ D2) (T1 ∪ T2) s) as [Hsp _]; [done|done|apply map_union_subseteq_l|done|].
  destruct (keep_back user_half _ E (D1 ∪ (dom T2 ∪ D2)) D1' (dom T2 ∪ D2) T1 T1' s s' ltac:(set_solver) Hsp Hsp') as [[V' HD1' HT' Hf'] Hkept]. split.
  2: { intros v p fl x Hv Hfl Hx. apply Hkept. rewrite Hx. apply elem_of_union_r, (op_frames _ _ (la_owned _ _ _ _ _ L2)). eauto. }
  exists T1', D1', T2, D2. assert (Hd' : dom T1' ∪ D1' ## dom T2 ∪ D2).
  { assert (forall x, x ∈ dom T1' ∪ D1' -> x ∉ dom T2 ∪ D2); [|set_solver]. intros x Hx Hx2.
    apply (o_sep _ _ _ _ _ (vm_owns _ _ _ _ (sp_vm _ _ _ _ _ _ Hsp')) x Hx). by right. }
  split_and!; [|done|done|].
  - constructor; try done; [apply L1|apply L1|]. destruct Hsp' as [_ H _ _]. done.
  - constructor; try apply V'.
    + rewrite <- union_assoc_L. apply V'.
    + intros t es [Ht|Ht]%lookup_union_Some_raw.
      * destruct (vm_tables _ _ _ _ V' t es Ht) as (H1 & H2). split; [set_solver|done].
      * destruct Ht as [_ Ht]. destruct (vm_tables _ _ _ _ V t es) as (_ & Hs & Hl & Hu & Hrow); [by apply lookup_union_Some_r|].
        assert (HtT : t ∈ dom T2) by by eapply elem_of_dom_2. split_and!; [set_solver|done|]. split_and!; [done|done|].
        intros i e Hr. rewrite <- (Hrow i e Hr). apply peek_ext. intros x Hx. apply Hkept, elem_of_union_l.
        assert (Ht1 : t ∈ (dom T1 ∪ D1) ∪ (dom T2 ∪ D2)) by set_solver. destruct (vm_frame _ _ _ _ t V Ht1) as (Hdiv & _).
        apply rd_range in Hr. rewrite (page_of_in E t x Hdiv); [done|]. unfold in_page. lia.
Qed.

Lemma keep_steps E K s0 sp ops : forall m rs m', op_steps (keep E K s0) sp ops m rs m' -> op_steps E sp ops m rs m'.
Proof.
  induction ops as [|op ops IH]; intros m [|r rs] m' H; try done. destruct H as (m1 & Hst & H). exists m1. split; [|by apply IH].
  by destruct op.
Qed.

Lemma keep_ok E K s0 sp ops : forall m, ops_ok E sp ops m -> ops_ok (keep E K s0) sp ops m.
Proof.
  induction ops as [|op ops IH]; intros m H; [done|]. destruct H as [Hop H]. split; [done|]. intros r m' Hst. apply IH, (H r).
  by destruct op.
Qed.

Lemma wp_isolated E vmm sp1 m1 sp2 m2 ops s : running E -> vmm <> 0 -> ops_ok E sp1 ops m1 -> both E sp1 m1 sp2 m2 s ->
  wp (run_ops vmm sp1 ops)
    (fun rs s' => exists m1', both E sp1 m1' sp2 m2 s' /\ op_steps E sp1 ops m1 rs m1' /\ kept_pages E m2 s s') s.
Proof.
  intros [G Hl Hi] Hvmm Hops (T1 & D1 & T2 & D2 & L1 & L2 & Hd & V).
  destruct (both_space E sp1 m1 T1 D1 (dom T2 ∪ D2) (T1 ∪ T2) s) as [_ Hus]; [done|done|apply map_union_subseteq_l|done|].
  eapply wp_mono.
  { apply (wp_run_ops (keep E (dom T2 ∪ D2) s) vmm sp1 ops); [|done|by apply keep_ok|exact Hus]. constructor; try done. by eapply keep_machine. }
  intros rs s' (m1' & Hus' & Hst). destruct (both_back E sp1 m1 T1 D1 sp2 m2 T2 D2 s s' m1') as [Hb Hk]; [done..|].
  exists m1'. split_and!; [done|by eapply keep_steps|done].
Qed.
End system.
