(* ===== verification/UserCopy.v ===== *)
(** * Copies between the kernel and user memory

    src/kernel/proc/usercopy.c, with the callbacks that src/kernel/proc/runtime.c
    installs: a copy checks the whole range before it touches a byte, so that it
    either copies all of it or fails with nothing changed. *)

From S2P Require Import Prelude Errno Bytes Pmm Frames Vmm VmmTree VmmBits VmmProps VmmWalk VmmOps VmmSpace VmmRanges VmmUser VmmCopy VmmLife VmmSystem.

(** ** Data *)

(** The memory callbacks, over the state [S] they act on; a pointer to an address
    space is an optional [Sp]. *)
Record ns_user_memory_ops (S Sp : Type) := mk_user_memory_ops {
  um_context : Z;
  range_valid : option (Z -> option Sp -> Z -> Z -> Z -> M S Z);
  copy_from_user : option (Z -> option Sp -> Z -> Z -> Z -> M S Z);
  copy_to_user : option (Z -> option Sp -> Z -> Z -> Z -> M S Z) }.
Arguments mk_user_memory_ops {S Sp}. Arguments um_context {S Sp}. Arguments range_valid {S Sp}.
Arguments copy_from_user {S Sp}. Arguments copy_to_user {S Sp}.

(** The part of a process that is used here. *)
Record ns_process (Sp : Type) := mk_user_process { address_space : option Sp }.
Arguments mk_user_process {Sp}. Arguments address_space {Sp}.

Definition bounds_overflow (address length : Z) : bool := UINT64_MAX - address <? length.

Section copy.
Context {S Sp : Type}.
Implicit Types (ops : option (ns_user_memory_ops S Sp)) (process : option (ns_process Sp)).

Definition ns_user_range_check ops process (address length write_access : Z) : M S Z :=
  match ops, process with
  | Some o, Some p =>
    match address_space p, range_valid o with
    | Some space, Some valid =>
      if bounds_overflow address length then mret (- NS_EFAULT)
      else if length =? 0 then mret 0
      else if address =? 0 then mret (- NS_EFAULT)
      else
        r ← valid (um_context o) (Some space) address length write_access;
        mret (if r =? 0 then 0 else - NS_EFAULT)
    | _, _ => mret (- NS_EFAULT)
    end
  | _, _ => mret (- NS_EFAULT)
  end.

(** After the check, [ops] and [process] are no null pointers. *)
Definition ns_copy_from_user ops process (destination source length : Z) : M S Z :=
  if negb (length =? 0) && (destination =? 0) then mret (- NS_EINVAL)
  else
    error ← ns_user_range_check ops process source length 0;
    if negb (error =? 0) || (length =? 0) then mret error
    else
      match ops, process with
      | Some o, Some p =>
        match copy_from_user o with
        | None => mret (- NS_EFAULT)
        | Some copy =>
          r ← copy (um_context o) (address_space p) destination source length;
          mret (if r =? 0 then 0 else - NS_EFAULT)
        end
      | _, _ => stuck
      end.

Definition ns_copy_to_user ops process (destination source length : Z) : M S Z :=
  if negb (length =? 0) && (source =? 0) then mret (- NS_EINVAL)
  else
    error ← ns_user_range_check ops process destination length 1;
    if negb (error =? 0) || (length =? 0) then mret error
    else
      match ops, process with
      | Some o, Some p =>
        match copy_to_user o with
        | None => mret (- NS_EFAULT)
        | Some copy =>
          r ← copy (um_context o) (address_space p) destination source length;
          mret (if r =? 0 then 0 else - NS_EFAULT)
        end
      | _, _ => stuck
      end.
End copy.

Section string.
Context {W : Type}.
Implicit Types (ops : option (ns_user_memory_ops (vstate W) ns_vmm_space)) (process : option (ns_process ns_vmm_space)).

(** [value] is the address of the local variable of that name. *)
Fixpoint string_loop (n : nat) ops process (destination capacity source offset value : Z) (out_length : option Z)
  : M (vstate W) (Z * option Z) :=
  match n with
  | O => st 1 (destination + (capacity - 1)) 0;; mret (- NS_ENAMETOOLONG, out_length)
  | Datatypes.S n' =>
    error ← ns_copy_from_user ops process value (u64 (source + offset)) 1;
    if negb (error =? 0) then mret (error, out_length)
    else
      c ← ld 1 value;
      st 1 (destination + offset) c;;
      if c =? 0 then mret (0, (fun _ => offset) <$> out_length)
      else string_loop n' ops process destination capacity source (offset + 1) value out_length
  end.

Definition ns_copy_user_string ops process (destination capacity source value : Z) (out_length : option Z)
  : M (vstate W) (Z * option Z) :=
  if (destination =? 0) || (capacity =? 0) || (source =? 0) then mret (- NS_EINVAL, out_length)
  else string_loop (Z.to_nat capacity) ops process destination capacity source 0 value out_length.

(** ** The callbacks *)

Definition user_range_valid (vmm opaque : Z) (space : option ns_vmm_space) (address length write_access : Z) : M (vstate W) Z :=
  valid ← ns_vmm_user_range_valid vmm space address length (negb (write_access =? 0));
  mret (if valid : bool then 0 else -1).

Definition user_copy_from (vmm opaque : Z) (space : option ns_vmm_space) (destination source length : Z) : M (vstate W) Z :=
  r ← ns_vmm_copy_from_space vmm destination space source length;
  mret (if r =? NS_VMM_OK then 0 else -1).

Definition user_copy_to (vmm opaque : Z) (space : option ns_vmm_space) (destination source length : Z) : M (vstate W) Z :=
  r ← ns_vmm_copy_to_space vmm space destination source length;
  mret (if r =? NS_VMM_OK then 0 else -1).

(** What [ns_proc_runtime_prepare] installs. *)
Definition user_memory (vmm runtime : Z) : ns_user_memory_ops (vstate W) ns_vmm_space :=
  mk_user_memory_ops runtime (Some (user_range_valid vmm)) (Some (user_copy_from vmm)) (Some (user_copy_to vmm)).
End string.

(** ** Correctness *)

Section correct.
Context {W : Type} (E : env W) (R : running E) (vmm runtime : Z) (Hvmm : vmm <> 0).
Context (sp : ns_vmm_space) (m : pages) (Hcover : 4096 * e_frames E <= size E).
Implicit Types (s : vstate W).
Abbreviation ops := (Some (user_memory vmm runtime)).
Abbreviation process := (Some (mk_user_process (Some sp))).

(** The bytes that user code may access, and that the checks let through. *)
Definition range_access (write : bool) (address length : Z) : Prop :=
  address <> 0 /\ address + length <= NS_VMM_USER_TOP /\ forall v, address <= v < address + length -> access m write v = true.

Lemma user_facts s : user_space E sp m s -> exists D, aspace user_half (root_phys sp) E D m s /\ owned_pages m D.
Proof. by intros [_ _ H]. Qed.

Lemma wp_range_check s address length (write : bool) : user_space E sp m s -> is_u64 address -> is_u64 length -> 0 < length ->
  wp (ns_user_range_check ops process address length (if write then 1 else 0))
    (fun r s' => s' = s /\ ((r = 0 /\ range_access write address length) \/ (r = - NS_EFAULT /\ ~ range_access write address length))) s.
Proof.
  intros Hus Ha Hl Hpos. unfold ns_user_range_check. cbn [address_space range_valid user_memory]. unfold bounds_overflow, UINT64_MAX.
  assert (Htop : NS_VMM_USER_TOP = 2 ^ 47) by done.
  destruct (Z.ltb_spec (2 ^ 64 - 1 - address) length) as [Hov|Hov].
  { apply wp_ret. split; [done|right; split; [done|]]. unfold range_access. rewrite Htop. lia. }
  rewrite (proj2 (Z.eqb_neq length 0)) by lia. destruct (Z.eqb_spec address 0) as [->|Ha0].
  { apply wp_ret. split; [done|right; split; [done|]]. by intros [? _]. }
  apply wp_bind. unfold user_range_valid. apply wp_bind. destruct (user_facts s Hus) as (D & Has & HD). eapply wp_mono.
  { apply (wp_user_range_valid user_half (root_phys sp) sp eq_refl user_half_page E D m s); [apply R|apply R|done|done|done|done]. }
  intros r s' [-> Hr]. assert (Ew : negb ((if write then 1 else 0) =? 0) = write) by by destruct write.
  rewrite Ew in Hr. apply wp_ret. destruct r; apply wp_ret; (split; [done|]).
  - left. split; [done|]. destruct (proj1 Hr eq_refl) as (_ & H1 & H2). done.
  - right. split; [done|]. intros (_ & H1 & H2). assert (false = true) by (apply Hr; done). done.
Qed.

(** The whole range is accessible: nothing stops the copy. *)
Lemma copied_all (write : bool) u length c r s : user_space E sp m s -> range_access write u length ->
  copied_bytes E m write u length c r -> r = NS_VMM_OK /\ c = length.
Proof.
  intros Hus (_ & _ & Hacc) ([Hc0 Hc] & _ & [H|[(Hlt & Hna & _)|(Hlt & _ & p & fl & Hm & Hs)]]); [done|exfalso..].
  - rewrite Hacc in Hna by lia. done.
  - destruct (user_facts s Hus) as (D & (T & _ & _ & Hfr) & _). destruct (Hfr _ _ _ Hm) as [[q ->] Hp]. lia.
Qed.

Lemma wp_copy_in_user s dst u length : user_space E sp m s -> is_u64 u -> is_u64 length -> 0 < length -> dst <> 0 ->
  out_of_map E dst length -> (forall i, 0 <= i < length -> is_Some (mem s !! (dst + i))) ->
  wp (ns_copy_from_user ops process dst u length)
    (fun r s' => (r = 0 /\ range_access false u length /\ exists mm, s' = s <| mem := mm |> /\ copied_from E m u dst length (mem s) mm /\
                    user_space (rebase E mm) sp m s') \/
       (r = - NS_EFAULT /\ ~ range_access false u length /\ s' = s)) s.
Proof.
  intros Hus Hu Hl Hpos Hd Hout Hmap. unfold ns_copy_from_user. rewrite (proj2 (Z.eqb_neq length 0)) by lia.
  rewrite (proj2 (Z.eqb_neq dst 0) Hd). cbn [negb andb]. apply wp_bind.
  eapply wp_mono; [by apply (wp_range_check s u length false)|]. intros r s' [-> [[-> Hacc]|[-> Hno]]].
  2: { change (negb (- NS_EFAULT =? 0)) with true. cbn [orb]. apply wp_ret. by right. }
  cbn [Z.eqb negb orb copy_from_user user_memory address_space]. unfold user_copy_from. apply wp_bind, wp_bind.
  destruct (user_facts s Hus) as (D & Has & HD). eapply wp_mono.
  { apply (wp_copy_from_space user_half (root_phys sp) sp eq_refl user_half_page E D m s); [apply R|apply R|done..]. }
  intros r s' [([_ [Hov|Hz]] & _)|(c & mm & Hcb & -> & Hcf & Has')].
  { destruct Hacc as (_ & Hle & _). lia. }
  { done. }
  destruct (copied_all false u length c r s Hus Hacc Hcb) as [-> ->]. apply wp_ret. cbn [NS_VMM_OK Z.eqb]. apply wp_ret. left.
  split_and!; [done|done|]. exists mm. split_and!; [done|done|]. destruct Hus. constructor; [done|done|]. by exists D.
Qed.

Lemma wp_copy_out_user s src u length : user_space E sp m s -> is_u64 u -> is_u64 length -> 0 < length -> src <> 0 ->
  (forall v p fl, m !! v = Some (p, fl) -> Z.testbit fl 1 = true -> Z.testbit fl 0 = true -> Z.testbit fl 5 = true) ->
  out_of_map E src length -> (forall i, 0 <= i < length -> is_Some (mem s !! (src + i))) ->
  wp (ns_copy_to_user ops process u src length)
    (fun r s' => (r = 0 /\ range_access true u length /\ user_space E sp m s' /\ copied_to E m u src length s s') \/
       (r = - NS_EFAULT /\ ~ range_access true u length /\ s' = s)) s.
Proof.
  intros Hus Hu Hl Hpos Hs Hwr Hout Hmap. unfold ns_copy_to_user. rewrite (proj2 (Z.eqb_neq length 0)) by lia.
  rewrite (proj2 (Z.eqb_neq src 0) Hs). cbn [negb andb]. apply wp_bind.
  eapply wp_mono; [by apply (wp_range_check s u length true)|]. intros r s' [-> [[-> Hacc]|[-> Hno]]].
  2: { change (negb (- NS_EFAULT =? 0)) with true. cbn [orb]. apply wp_ret. by right. }
  cbn [Z.eqb negb orb copy_to_user user_memory address_space]. unfold user_copy_to. apply wp_bind, wp_bind.
  destruct (user_facts s Hus) as (D & Has & HD). eapply wp_mono.
  { apply (wp_copy_to_space user_half (root_phys sp) sp eq_refl user_half_page E D m s); [apply R|apply R|done..]. }
  intros r s' [([_ [Hov|Hz]] & _)|(c & Hcb & Has' & Hct)].
  { destruct Hacc as (_ & Hle & _). lia. }
  { done. }
  destruct (copied_all true u length c r s Hus Hacc Hcb) as [-> ->]. apply wp_ret. cbn [NS_VMM_OK Z.eqb]. apply wp_ret. left.
  split_and!; [done|done| |done]. destruct Hus. constructor; [done|done|]. by exists D.
Qed.
End correct.

(** ** Strings *)

(** Memory outside the direct map changes: the spaces do not notice. *)
Lemma rebase_user {W} (E : env W) sp m s mm : running E -> user_space E sp m s -> same_mapped (mem s) mm ->
  (forall x, base E <= x < base E + size E -> mm !! x = mem s !! x) ->
  running (rebase E mm) /\ user_space (rebase E mm) sp m (s <| mem := mm |>).
Proof.
  intros [G Hl Hi] [Hr Ho (D & Has & HD)] Hsm Hmm. pose proof Has as (T & [V _ _ _] & _). split.
  - constructor; [|done|done]. apply rebase_machine; [done|]. intros x. rewrite (Hsm x). apply V.
  - constructor; [done|done|]. exists D. split; [by apply rebase_aspace|done].
Qed.

Lemma wp_ld1 {W} (s : vstate W) a b Q : mem s !! a = Some b -> Q b s -> wp (ld 1 a) Q s.
Proof. intros Hb HQ. exists b, s. split; [|done]. unfold ld, peek. cbn. rewrite Hb. cbn. by rewrite Z.add_0_r. Qed.

Lemma wp_st1 {W} (s : vstate W) a v Q : is_Some (mem s !! a) -> 0 <= v < 256 -> Q tt (s <| mem := <[a := v]> (mem s) |>) -> wp (st 1 a v) Q s.
Proof.
  intros [b Hb] Hv HQ. exists tt, (s <| mem := <[a := v]> (mem s) |>). split; [|done]. unfold st, poke. cbn [le_encode store_bytes].
  rewrite Hb. cbn [mbind option_bind]. unfold u8. by rewrite Z.mod_small.
Qed.

Section user_string.
Context {W : Type} (E : env W) (R : running E) (vmm runtime : Z) (Hvmm : vmm <> 0).
Context (sp : ns_vmm_space) (m : pages) (Hcover : 4096 * e_frames E <= size E).
Context (s : vstate W) (Hus : user_space E sp m s).
Context (dst capacity u value : Z) (Hd : dst <> 0) (Hv : value <> 0) (Hu0 : u <> 0) (Hu : is_u64 u) (Hcap : 0 < capacity).
Context (Hdst : out_of_map E dst capacity) (Hval : out_of_map E value 1) (Hap : value < dst \/ dst + capacity <= value).
Context (Hmap : forall x, dst <= x < dst + capacity \/ x = value -> is_Some (mem s !! x)).
Context (Hbyte : forall x b, mem s !! x = Some b -> 0 <= b < 256).

(** What a user string has at [i]. *)
Definition user_byte i : option Z := if access m false (u + i) then mem s !! place E m (u + i) else None.

(** The first [k] bytes have been copied; there is no end among them. *)
Record string_copied k (mm : gmap Z Z) : Prop := {
  sc_copied : forall i, 0 <= i < k -> exists b, user_byte i = Some b /\ b <> 0 /\ mm !! (dst + i) = Some b;
  sc_rest : forall x, x <> value -> x < dst \/ dst + k <= x -> mm !! x = mem s !! x;
  sc_mapped : same_mapped (mem s) mm }.

Definition string_result (r : Z) (out : option Z) (old : option Z) s' : Prop :=
  exists n mm, 0 <= n <= capacity /\ s' = s <| mem := mm |> /\
    (forall i, 0 <= i < n -> exists b, user_byte i = Some b /\ b <> 0 /\ (i < capacity - 1 -> mm !! (dst + i) = Some b)) /\
    (forall x, x <> value -> x < dst \/ dst + capacity <= x -> mm !! x = mem s !! x) /\
    user_space (rebase E mm) sp m s' /\
    ((r = 0 /\ n < capacity /\ user_byte n = Some 0 /\ mm !! (dst + n) = Some 0 /\ out = (fun _ => n) <$> old) \/
     (r = - NS_EFAULT /\ n < capacity /\ ~ range_access m false (u + n) 1 /\ out = old) \/
     (r = - NS_ENAMETOOLONG /\ n = capacity /\ mm !! (dst + (capacity - 1)) = Some 0 /\ out = old)).

Lemma string_state k mm : k <= capacity -> string_copied k mm -> running (rebase E mm) /\ user_space (rebase E mm) sp m (s <| mem := mm |>).
Proof.
  intros Hk [_ Hr Hm]. apply rebase_user; try done. destruct Hdst as [_ H1], Hval as [_ H2]. intros x Hx. apply Hr; lia.
Qed.

Lemma insert_mapped (mm : gmap Z Z) x v : is_Some (mm !! x) -> same_mapped mm (<[x := v]> mm).
Proof.
  intros Hx y. destruct (decide (y = x)) as [->|]; [rewrite lookup_insert_eq; split; [done|by eauto]|by rewrite lookup_insert_ne].
Qed.

(** The byte that was copied to the local variable goes to the buffer. *)
Lemma string_next k mm mm' b : 0 <= k < capacity -> string_copied k mm -> user_byte k = Some b ->
  (forall x, x <> value -> mm' !! x = mm !! x) -> same_mapped (mem s) mm' -> b <> 0 -> string_copied (k + 1) (<[dst + k := b]> mm').
Proof.
  intros Hk [H1 H2 H3] Hb Hmm Hsm Hb0. constructor.
  - intros i Hi. destruct (decide (i = k)) as [->|Hne]; [exists b; by rewrite lookup_insert_eq|].
    destruct (H1 i ltac:(lia)) as (b' & E1 & E2 & E3). exists b'. rewrite lookup_insert_ne, Hmm by lia. done.
  - intros x Hx Hr. rewrite lookup_insert_ne, Hmm by lia. apply H2; lia.
  - intros x. etransitivity; [apply insert_mapped|apply Hsm]. apply Hsm, Hmap. lia.
Qed.

Lemma access_low write v : 0 <= v -> access m write v = true -> v < NS_VMM_USER_TOP.
Proof.
  intros Hv0 Ha. unfold access in Ha. destruct (m !! page_base v) as [x|] eqn:Em; [|done].
  pose proof (holding_here user_half _ E m s (page_base v) (us_holding _ _ _ _ Hus) ltac:(by rewrite Em)) as Hlow%user_half_low.
  destruct (page_base_spec v) as (Eb & [q Hq] & Hmod). unfold NS_VMM_USER_TOP in *. lia.
Qed.

(** An accessible byte is in the direct map. *)
Lemma access_place write v : access m write v = true -> base E <= place E m v < base E + size E /\ is_Some (mem s !! place E m v).
Proof.
  intros Ha. unfold access in Ha. destruct (m !! page_base v) as [[p fl]|] eqn:Em; [|done].
  destruct (us_holding _ _ _ _ Hus) as (D & (T & [V _ _ _] & _ & Hfr) & _). destruct (Hfr _ _ _ Em) as [[q ->] Hp].
  destruct (page_base_spec v) as (_ & _ & Hmod).
  assert (Hin : base E <= place E m v < base E + size E) by (unfold place, phys_of; rewrite Em; cbn; lia). split; [done|].
  apply (vm_mapped _ _ _ _ V), (g_mapped E (ru_machine _ R)). done.
Qed.

Lemma string_no_wrap k mm : 0 <= k -> string_copied k mm -> u + k < 2 ^ 64.
Proof.
  intros Hk Hsc. destruct (decide (k = 0)) as [->|]; [lia|]. destruct (sc_copied _ _ Hsc (k - 1) ltac:(lia)) as (b & Hb & _).
  unfold user_byte in Hb. destruct (access m false (u + (k - 1))) eqn:Ea; [|done]. apply access_low in Ea; [|lia]. unfold NS_VMM_USER_TOP in Ea. lia.
Qed.

(** The buffer is full: the string is cut off. *)
Lemma string_full old mm : string_copied capacity mm ->
  string_result (- NS_ENAMETOOLONG) old old (s <| mem := <[dst + (capacity - 1) := 0]> mm |>).
Proof.
  intros Hsc. assert (Hlast : is_Some (mm !! (dst + (capacity - 1)))) by (apply (sc_mapped _ _ Hsc), Hmap; lia).
  exists capacity, (<[dst + (capacity - 1) := 0]> mm). split_and!; [lia|lia|done| | | |].
  - intros i Hi. destruct (sc_copied _ _ Hsc i Hi) as (b & H1 & H2 & H3). exists b. split_and!; [done|done|].
    intros Hlt. rewrite lookup_insert_ne by lia. done.
  - intros x Hx Hr. rewrite lookup_insert_ne by lia. by apply (sc_rest _ _ Hsc).
  - destruct (string_state capacity mm ltac:(lia) Hsc) as [R' Hus'].
    apply (rebase_user (rebase E mm) sp m (s <| mem := mm |>) (<[dst + (capacity - 1) := 0]> mm) R' Hus'); [by apply insert_mapped|].
    intros x Hx. destruct Hdst as [_ H1]. change (base (rebase E mm)) with (base E) in Hx. change (size (rebase E mm)) with (size E) in Hx.
    cbn. rewrite lookup_insert_ne by lia. done.
  - right. right. rewrite lookup_insert_eq. done.
Qed.

(** The end of the string is copied. *)
Lemma string_end old k mm mm1 : 0 <= k < capacity -> string_copied k mm -> user_byte k = Some 0 ->
  (forall x, x <> value -> mm1 !! x = mm !! x) -> same_mapped (mem s) mm1 ->
  string_result 0 ((fun _ => k) <$> old) old (s <| mem := <[dst + k := 0]> mm1 |>).
Proof.
  intros Hk Hsc Hub Hmm1 Hsm1. exists k, (<[dst + k := 0]> mm1). split_and!; [lia|lia|done| | | |].
  - intros i Hi. destruct (sc_copied _ _ Hsc i Hi) as (b & H1 & H2 & H3). exists b. split_and!; [done|done|].
    intros _. rewrite lookup_insert_ne, Hmm1 by lia. done.
  - intros x Hx Hr. rewrite lookup_insert_ne, Hmm1 by lia. apply (sc_rest _ _ Hsc); [done|lia].
  - apply (rebase_user E sp m s); [done|done| |].
    + intros x. etransitivity; [apply insert_mapped|apply Hsm1]. apply Hsm1, Hmap. lia.
    + intros x Hx. destruct Hdst as [_ H1], Hval as [_ H2]. rewrite lookup_insert_ne, Hmm1 by lia. apply (sc_rest _ _ Hsc); lia.
  - left. rewrite lookup_insert_eq. split_and!; [done|lia|done|done|done].
Qed.

Lemma wp_string_loop old : forall n k mm, k + Z.of_nat n = capacity -> 0 <= k -> string_copied k mm ->
  wp (string_loop n (Some (user_memory vmm runtime)) (Some (mk_user_process (Some sp))) dst capacity u k value old)
    (fun x s' => let '(r, out) := x in string_result r out old s') (s <| mem := mm |>).
Proof.
  induction n as [|n IH]; intros k mm Hn Hk Hsc; cbn [string_loop].
  { assert (k = capacity) as -> by lia. apply wp_bind, wp_st1; [apply (sc_mapped _ _ Hsc), Hmap; lia|lia|]. apply wp_ret. by apply string_full. }
  destruct (string_state k mm ltac:(lia) Hsc) as [R' Hus']. pose proof (string_no_wrap k mm Hk Hsc). rewrite u64_small by lia.
  apply wp_bind. eapply wp_mono.
  { apply (wp_copy_in_user (rebase E mm) R' vmm runtime Hvmm sp m Hcover); try done; [lia|].
    intros i Hi. assert (i = 0) as -> by lia. rewrite Z.add_0_r. apply (sc_mapped _ _ Hsc), Hmap. by right. }
  intros r s1 [(-> & Hacc & mm1 & -> & Hcf & Hus1)|(-> & Hna & ->)].
  2: { change (negb (- NS_EFAULT =? 0)) with true. apply wp_ret. exists k, mm. split_and!; [lia|lia|done| | |done|].
       - intros i Hi. destruct (sc_copied _ _ Hsc i Hi) as (b & H1 & H2 & H3). by exists b.
       - intros x Hx Hr. apply (sc_rest _ _ Hsc); [done|lia].
       - right. left. split_and!; [done|lia|done|done]. }
  cbn [Z.eqb negb]. destruct Hcf as [Hin Hout]. cbn in Hin, Hout.
  destruct Hacc as (_ & _ & Hacc). specialize (Hacc (u + k) ltac:(lia)). destruct (access_place false _ Hacc) as [Hpl [b Hb]].
  assert (Hub : user_byte k = Some b) by (unfold user_byte; by rewrite Hacc). assert (Hb8 := Hbyte _ _ Hb).
  assert (Hvb : mm1 !! value = Some b).
  { specialize (Hin 0 ltac:(lia)). rewrite !Z.add_0_r in Hin. rewrite Hin. change (place (rebase E mm) m (u + k)) with (place E m (u + k)).
    destruct Hdst as [_ H1], Hval as [_ H2]. rewrite (sc_rest _ _ Hsc) by lia. done. }
  assert (Hmm1 : forall x, x <> value -> mm1 !! x = mm !! x) by (intros x Hx; apply Hout; lia).
  assert (Hsm1 : same_mapped (mem s) mm1).
  { intros x. destruct (decide (x = value)) as [->|]; [|rewrite Hmm1 by done; apply (sc_mapped _ _ Hsc)].
    rewrite Hvb. split; [intros _; apply Hmap; by right|done]. }
  apply wp_bind, (wp_ld1 _ value b); [done|]. apply wp_bind, wp_st1; [apply Hsm1, Hmap; lia|done|]. cbn [mem set_vmem].
  destruct (Z.eqb_spec b 0) as [->|Hb0].
  - apply wp_ret. by apply (string_end old k mm mm1); [lia|..].
  - apply (IH (k + 1) (<[dst + k := b]> mm1)); [lia|lia|]. apply (string_next k mm mm1 b); try done. lia.
Qed.

Lemma wp_copy_string old :
  wp (ns_copy_user_string (Some (user_memory vmm runtime)) (Some (mk_user_process (Some sp))) dst capacity u value old)
    (fun x s' => let '(r, out) := x in string_result r out old s') s.
Proof.
  unfold ns_copy_user_string. rewrite (proj2 (Z.eqb_neq dst 0) Hd), (proj2 (Z.eqb_neq u 0) Hu0), (proj2 (Z.eqb_neq capacity 0)) by lia. cbn [orb].
  assert (Hs : s <| mem := mem s |> = s) by by destruct s. pose proof (wp_string_loop old (Z.to_nat capacity) 0 (mem s)) as H.
  rewrite Hs in H. apply H; [lia|lia|]. constructor; [intros i Hi; lia|done|]. intros x. reflexivity.
Qed.
End user_string.
