(* ===== verification/HeapVmm.v ===== *)
(** * The page provider of the kernel heap

    [ns_kheap_vmm_map_pages] and [ns_kheap_vmm_unmap_pages] of
    src/kernel/mm/heap.c, the page callbacks with which the heap runs on the
    virtual memory manager. *)

From S2P Require Import Prelude Errno Bytes Heap.
From S2P Require Import Pmm Frames Vmm VmmTree VmmBits VmmProps VmmWalk VmmOps VmmSpace VmmRanges VmmAlloc.

Record ns_kheap_vmm_provider := mk_provider { pr_vmm : Z; pr_space : option ns_vmm_space; page_flags : Z }.

Section provider.
Context {W : Type}.
Implicit Types (provider : option ns_kheap_vmm_provider) (address page_count : Z).

(** A provider that the callbacks refuse. *)
Definition bad_provider provider page_count : bool :=
  match provider with
  | None => true
  | Some p => (pr_vmm p =? 0) || negb (bool_decide (is_Some (pr_space p))) || (page_count =? 0) || (SIZE_MAX / NS_PAGE_SIZE <? page_count)
  end.

Definition ns_kheap_vmm_map_pages provider address page_count : M (vstate W) Z :=
  if bad_provider provider page_count then mret NS_KHEAP_EINVAL
  else
    match provider with
    | None => stuck
    | Some p =>
      ns_vmm_alloc_map (pr_vmm p) (pr_space p) address (u64 (page_count * NS_PAGE_SIZE))
        (Z.land (Z.lor (Z.lor (page_flags p) NS_VMM_PAGE_WRITE) NS_VMM_PAGE_GLOBAL)
                (not64 (Z.lor NS_VMM_PAGE_USER NS_VMM_PAGE_EXEC)))
    end.

Definition ns_kheap_vmm_unmap_pages provider address page_count : M (vstate W) unit :=
  if bad_provider provider page_count then mret tt
  else
    match provider with
    | None => stuck
    | Some p => ns_vmm_unmap_range (pr_vmm p) (pr_space p) address (u64 (page_count * NS_PAGE_SIZE)) true;; mret tt
    end.
End provider.

(** The flags of heap pages: written by the kernel only, and never executed. *)
Definition heap_flags (page_flags : Z) : Z :=
  Z.land (Z.lor (Z.lor page_flags NS_VMM_PAGE_WRITE) NS_VMM_PAGE_GLOBAL) (not64 (Z.lor NS_VMM_PAGE_USER NS_VMM_PAGE_EXEC)).

Lemma heap_flags_spec pf : 0 <= pf < 64 -> 0 <= heap_flags pf < 64 /\
  Z.testbit (heap_flags pf) 0 = true /\ Z.testbit (heap_flags pf) 1 = false /\ Z.testbit (heap_flags pf) 2 = false.
Proof.
  intros Hpf. assert (H : forall n, (n < 64)%nat -> let f := heap_flags (Z.of_nat n) in
    (0 <=? f) && (f <? 64) && Z.testbit f 0 && negb (Z.testbit f 1) && negb (Z.testbit f 2) = true).
  { intros n Hn. do 64 (destruct n as [|n]; [by vm_compute|]). lia. }
  specialize (H (Z.to_nat pf) ltac:(lia)). rewrite Z2Nat.id in H by lia. cbn zeta in H. rewrite !andb_true_iff, !negb_true_iff in H.
  destruct_and! H. split_and!; [lia|lia|done..].
Qed.

Section provider_correct.
Context {W : Type} (slots : Z -> Prop) (root : Z) (E : env W) (G : machine E)
  (Hlock : lock (e_obj E) = 0) (Hinit : initialized (e_obj E) <> 0).
Context (p : ns_kheap_vmm_provider) (sp : ns_vmm_space) (Hsp : pr_space p = Some sp) (Hvmm : pr_vmm p <> 0)
  (Hroot : root_phys sp = root) (Hroot0 : root <> 0) (Hkernel : owns_root sp = 0) (Hflags : 0 <= page_flags p < 64).

Lemma good_provider n : 0 < n <= SIZE_MAX / NS_PAGE_SIZE -> bad_provider (Some p) n = false /\ u64 (n * NS_PAGE_SIZE) = n * 4096 /\ n * 4096 < 2 ^ 64.
Proof.
  intros Hn. assert (Hmax : SIZE_MAX / NS_PAGE_SIZE = 2 ^ 52 - 1) by done. unfold bad_provider.
  rewrite Hsp, (proj2 (Z.eqb_neq _ 0) Hvmm), bool_decide_true by done. cbn [orb negb].
  rewrite (proj2 (Z.eqb_neq n 0)), (proj2 (Z.ltb_ge _ _)) by lia. unfold NS_PAGE_SIZE. rewrite u64_small by lia. split_and!; [done|done|lia].
Qed.

Lemma wp_heap_map m s address n : holding slots root E m s -> is_u64 address -> 0 < n <= SIZE_MAX / NS_PAGE_SIZE ->
  (range_ok address (n * 4096) -> reach_range slots sp address (range_end address (n * 4096))) ->
  wp (ns_kheap_vmm_map_pages (Some p) address n)
    (fun r s' => (~ range_ok address (n * 4096) /\ r = NS_VMM_EINVAL /\ s' = s) \/
       (range_ok address (n * 4096) /\
        alloc_mapped slots root E m address (heap_flags (page_flags p)) (page_count (n * 4096)) r s s')) s.
Proof.
  intros Hh Ha Hn Hre. destruct (good_provider n Hn) as (Eb & El & Hl). unfold ns_kheap_vmm_map_pages. rewrite Eb, Hsp, El.
  fold (heap_flags (page_flags p)). destruct (heap_flags_spec _ Hflags) as [Hf _].
  apply (wp_alloc_map slots root E G Hlock Hinit (pr_vmm p) Hvmm sp Hroot Hroot0); try done. lia.
Qed.

(** Giving the pages back. *)
Lemma wp_heap_unmap m s address n : holding slots root E m s -> is_u64 address -> 0 < n <= SIZE_MAX / NS_PAGE_SIZE -> range_ok address (n * 4096) ->
  reach_range slots sp address (range_end address (n * 4096)) ->
  wp (ns_kheap_vmm_unmap_pages (Some p) address n)
    (fun _ s' => holding slots root E (outside address (range_end address (n * 4096)) m) s' /\
       kept_pages E (outside address (range_end address (n * 4096)) m) s s') s.
Proof.
  intros Hh Ha Hn Hok Hre. destruct (good_provider n Hn) as (Eb & El & Hl). unfold ns_kheap_vmm_unmap_pages. rewrite Eb, Hsp, El.
  apply wp_bind. eapply wp_mono.
  { apply (wp_unmap_range slots root E G Hlock Hinit (pr_vmm p) Hvmm sp Hroot Hroot0) with (m := m); try done. lia. }
  intros r s' [(H0 & _)|[(_ & Hno & _)|(_ & H1 & H2 & _)]]; [lia|done|]. by apply wp_ret.
Qed.
End provider_correct.
