(* ===== verification/VmmTheorems.v ===== *)
(** * Virtual memory: theorems

    What address spaces promise to the rest of the kernel, and a small machine on
    which the hypotheses hold. *)

From S2P Require Import Prelude Errno Bytes Heap.
From S2P Require Import Pmm Frames Vmm VmmTree VmmBits VmmProps VmmWalk VmmOps VmmSpace VmmRanges VmmAlloc VmmUser VmmCopy VmmLife VmmSystem UserCopy HeapVmm.

Section theorems.
Context {W : Type}.
Implicit Types (E : env W) (s : vstate W) (sp : ns_vmm_space) (m : pages).

(** C3. A process leaks nothing: its address space is created, a sequence of map,
    unmap, allocate and protect calls within the contract [op_ok] is run on it,
    whatever they return, and the space is destroyed.  Then the manager is as
    before: the allocator has exactly the frames of others in use, and their
    memory has not changed.  The contract: the caller does not hand a frame over
    with [NS_VMM_PAGE_OWNED], does not keep the frame of an owned page by
    unmapping it without releasing it, and does not protect across the hole
    between the halves. *)
Theorem vmm_life_leaks_nothing E kes vmm sp0 ops s : running E -> kernel_table E kes -> e_others E 0 ->
  e_others E (active_root_phys (e_obj E)) -> vmm <> 0 -> (forall t, ops_ok E (mk_space t 1) ops ∅) -> vm E ∅ ∅ s ->
  wp (life vmm sp0 ops) (fun r s' => (r = NS_VMM_OK \/ r = NS_VMM_ENOMEM \/ r = NS_VMM_ECORRUPT) /\ vm E ∅ ∅ s') s.
Proof. apply wp_life. Qed.

(** C4. Every sequence of calls on an address space, each within the contract
    [op_ok], does to the page tables what the abstract map of pages says, call by
    call and on every error: pages mapped and refused, ranges mapped in full or
    not at all, fresh frames, pages taken away with and without their frames,
    protection. *)
Theorem vmm_ops_refine E vmm sp ops m s : running E -> vmm <> 0 -> ops_ok E sp ops m -> user_space E sp m s ->
  wp (run_ops vmm sp ops) (fun rs s' => exists m', user_space E sp m' s' /\ op_steps E sp ops m rs m') s.
Proof. intros R Hvmm Hops. by apply wp_run_ops. Qed.

(** C5. Two address spaces are isolated: whatever calls within the contract [op_ok]
    are made on one of them, the other keeps its pages and the bytes in the
    frames it owns. *)
Theorem vmm_isolated E vmm sp1 m1 sp2 m2 ops s : running E -> vmm <> 0 -> ops_ok E sp1 ops m1 -> both E sp1 m1 sp2 m2 s ->
  wp (run_ops vmm sp1 ops)
    (fun rs s' => exists m1', both E sp1 m1' sp2 m2 s' /\ op_steps E sp1 ops m1 rs m1' /\ kept_pages E m2 s s') s.
Proof. apply wp_isolated. Qed.

(** C39. The page tables of the users' half stay well formed: after any sequence of
    calls within the contract [op_ok] the tables are whole frames of the direct
    map with 512 entries of 64 bits each, every one of them reached by exactly
    one path from the root. *)
Theorem vmm_tables_typed E vmm sp ops m s : running E -> vmm <> 0 -> ops_ok E sp ops m -> user_space E sp m s ->
  wp (run_ops vmm sp ops)
    (fun _ s' => exists T, tree user_half (root_phys sp) T /\ forall t es, T !! t = Some es ->
       (4096 | t) /\ 0 <= t /\ t + 4096 <= size E /\ length es = 512%nat /\ Forall (fun e => is_u64 e) es /\
       forall i e, rd es i = Some e -> peek 8 (mem s') (base E + t + 8 * i) = Some e) s.
Proof.
  intros R Hvmm Hops Hus. eapply wp_mono; [by apply (wp_run_ops E vmm sp ops R Hvmm m)|].
  intros rs s' (m' & [_ _ (D & (T & [V _ HT _] & _) & _)] & _). exists T. split; [done|]. intros t es Ht.
  destruct (table_place E _ _ _ _ _ (ru_machine _ R) V Ht) as (_ & Hd & [H0 _] & Hs & _ & Hl & Hu).
  destruct (vm_tables _ _ _ _ V t es Ht) as (_ & _ & _ & _ & Hrow). done.
Qed.

(** Why the contract speaks of the hole between the halves: a range is checked at
    its two ends only.  The page range from the last page of the users' half to
    the first one of the kernel's is accepted, and the address after its first
    page, which is not canonical, selects at every level the table entries of
    the first page of the kernel's half.  Mapping and unmapping refuse such an
    address, [vprotect_loop] does not. *)
Theorem vmm_range_spans_hole :
  let virt := NS_VMM_USER_TOP - 4096 in
  validate_page_range virt (NS_VMM_KERNEL_HALF_BASE + 4096 - virt) = (NS_VMM_OK, NS_VMM_KERNEL_HALF_BASE + 4096) /\
  canonical_address (virt + 4096) = false /\
  forall level, 1 <= level <= 4 -> table_index (virt + 4096) level = table_index NS_VMM_KERNEL_HALF_BASE level.
Proof.
  split_and!; [by vm_compute..|]. intros level Hl.
  assert (level = 1 \/ level = 2 \/ level = 3 \/ level = 4) as [-> | [-> | [-> | ->]]] by lia; by vm_compute.
Qed.

(** Allocating pages gives every page of the range a frame that nobody had,
    cleared, and marked as owned; or the call fails and the space is as before.
    The bytes of the pages that were there do not change. *)
Theorem vmm_alloc_fresh E vmm sp m s virt length flags : running E -> vmm <> 0 -> user_space E sp m s -> is_u64 virt -> is_u64 length ->
  0 <= flags < 64 ->
  wp (ns_vmm_alloc_map vmm (Some sp) virt length flags)
    (fun r s' => (~ range_ok virt length /\ r = NS_VMM_EINVAL /\ s' = s) \/
       (range_ok virt length /\ alloc_mapped user_half (root_phys sp) E m virt flags (page_count length) r s s')) s.
Proof.
  intros [G Hl Hi] Hvmm [Hr0 Ho Hh] Hv Hlen Hf.
  apply (wp_alloc_map user_half (root_phys sp) E G Hl Hi vmm Hvmm sp eq_refl Hr0); try done; [intros _; exact user_half_base|].
  intros Hok. by apply user_range.
Qed.

(** The check of a user range says yes exactly when every byte of it lies in a
    page that user code may read, or write; nothing changes. *)
Theorem vmm_range_check_exact E vmm sp m s address length (write : bool) : running E -> vmm <> 0 -> user_space E sp m s ->
  is_u64 address -> is_u64 length ->
  wp (ns_vmm_user_range_valid vmm (Some sp) address length write)
    (fun r s' => s' = s /\ (r = true <-> 0 < length /\ address + length <= NS_VMM_USER_TOP /\
       forall v, address <= v < address + length -> access m write v = true)) s.
Proof.
  intros R Hvmm Hus Ha Hl. destruct (user_facts E sp m s Hus) as (D & Has & _).
  by apply (wp_user_range_valid user_half (root_phys sp) sp eq_refl user_half_page E D); [apply R|apply R|..].
Qed.

(** Translation finds the frame, the offset and the flags of every page, and
    reports the others as absent. *)
Theorem vmm_translate_exact E vmm sp m s virt old oldf : running E -> vmm <> 0 -> user_space E sp m s -> is_u64 virt ->
  virt < NS_VMM_USER_TOP ->
  wp (ns_vmm_translate vmm (Some sp) virt (Some old) oldf)
    (fun x s' => s' = s /\ match m !! page_base virt with
       | Some (p, fl) => x = (NS_VMM_OK, (Some (p + virt mod 4096), (fun _ => fl) <$> oldf))
       | None => x = (NS_VMM_ENOENT, (Some old, oldf)) end) s.
Proof. apply wp_ns_translate. Qed.

(** A page-table entry keeps the flags it was made from, and the frame. *)
Theorem entry_flags_roundtrip phys flags : (4096 | phys) -> 0 <= phys < 2 ^ 52 -> 0 <= flags < 64 ->
  flags_from_entry (entry_from_flags phys flags) = flags /\ Z.land (entry_from_flags phys flags) X86_PTE_ADDR = phys.
Proof. intros Hd Hp Hf. split; [by apply flags_entry|by apply entry_addr]. Qed.

(** A new address space has no pages in the users' half, holds one frame that
    was free, and has the kernel's entries in the other half. *)
Theorem vmm_create_fresh E kes vmm old s : running E -> kernel_table E kes -> vmm <> 0 -> vm E ∅ ∅ s ->
  wp (ns_vmm_create_space vmm (Some old))
    (fun x s' => let '(r, out) := x in
       (r = NS_VMM_OK /\ exists t, out = Some (mk_space t 1) /\ holding user_half t E ∅ s' /\
          forall k, 256 <= k < 512 -> peek 8 (mem s') (base E + t + 8 * k) = rd kes k) \/
       ((r = NS_VMM_ENOMEM \/ r = NS_VMM_ECORRUPT) /\ out = Some old /\ vm E ∅ ∅ s')) s.
Proof. intros [G Hl Hi] K Hvmm V. by apply (wp_create_space E G kes). Qed.

(** Destroying an address space frees its tables and owned pages, all of them
    and nothing else, and leaves it when it was the active one. *)
Theorem vmm_destroy_frees_all E vmm sp m s : running E -> vmm <> 0 -> user_space E sp m s ->
  wp (ns_vmm_destroy_space vmm (Some sp))
    (fun r s' => r = Some (mk_space 0 0) /\ vm (with_object E (retired (root_phys sp) E)) ∅ ∅ s') s.
Proof. intros [G Hl Hi] Hvmm [Hr0 Ho Hh]. by apply (wp_destroy_space (root_phys sp) E G vmm sp m). Qed.

(** C15. Copying from user memory is all or nothing: the bytes arrive when user
    code may read all of them, otherwise the call fails and nothing changes. *)
Theorem copy_from_user_exact E vmm runtime sp m s dst u length : running E -> vmm <> 0 -> 4096 * e_frames E <= size E ->
  user_space E sp m s -> is_u64 u -> is_u64 length -> 0 < length -> dst <> 0 ->
  out_of_map E dst length -> (forall i, 0 <= i < length -> is_Some (mem s !! (dst + i))) ->
  wp (ns_copy_from_user (Some (user_memory vmm runtime)) (Some (mk_user_process (Some sp))) dst u length)
    (fun r s' => (r = 0 /\ range_access m false u length /\ exists mm, s' = s <| mem := mm |> /\ copied_from E m u dst length (mem s) mm /\
                    user_space (rebase E mm) sp m s') \/
       (r = - NS_EFAULT /\ ~ range_access m false u length /\ s' = s)) s.
Proof. intros R Hvmm Hc. by apply wp_copy_in_user. Qed.

(** C16. Copying to user memory is all or nothing: it writes the bytes that user
    code may write and no others, or fails and nothing changes.  The pages that
    user code may write own their frames, so that no two of them share one. *)
Theorem copy_to_user_exact E vmm runtime sp m s src u length : running E -> vmm <> 0 -> 4096 * e_frames E <= size E ->
  user_space E sp m s -> is_u64 u -> is_u64 length -> 0 < length -> src <> 0 ->
  (forall v p fl, m !! v = Some (p, fl) -> Z.testbit fl 1 = true -> Z.testbit fl 0 = true -> Z.testbit fl 5 = true) ->
  out_of_map E src length -> (forall i, 0 <= i < length -> is_Some (mem s !! (src + i))) ->
  wp (ns_copy_to_user (Some (user_memory vmm runtime)) (Some (mk_user_process (Some sp))) u src length)
    (fun r s' => (r = 0 /\ range_access m true u length /\ user_space E sp m s' /\ copied_to E m u src length s s') \/
       (r = - NS_EFAULT /\ ~ range_access m true u length /\ s' = s)) s.
Proof. intros R Hvmm Hc. by apply wp_copy_out_user. Qed.


(** The pages the kernel heap grows by are fresh and cleared; the kernel may
    write them, user code may not access them, and nobody executes them.  When the
    call fails the kernel's space is as before. *)
Theorem heap_pages_protected E slots p sp m s address n : running E -> pr_space p = Some sp -> pr_vmm p <> 0 -> root_phys sp <> 0 ->
  owns_root sp = 0 -> 0 <= page_flags p < 64 -> holding slots (root_phys sp) E m s -> is_u64 address -> 0 < n <= SIZE_MAX / NS_PAGE_SIZE ->
  range_ok address (n * 4096) -> reach_range slots sp address (range_end address (n * 4096)) ->
  wp (ns_kheap_vmm_map_pages (Some p) address n)
    (fun r s' => kept_pages E m s s' /\
       ((r <> NS_VMM_OK /\ holding slots (root_phys sp) E m s') \/
        (r = NS_VMM_OK /\ exists m', holding slots (root_phys sp) E m' s' /\
          (forall v, ~ address <= v < range_end address (n * 4096) -> m' !! v = m !! v) /\
          forall i, (i < page_count (n * 4096))%nat -> m !! (address + 4096 * Z.of_nat i) = None /\
            exists f fl, m' !! (address + 4096 * Z.of_nat i) = Some (f, fl) /\ zeroed E f s' /\
              Z.testbit fl 0 = true /\ Z.testbit fl 1 = false /\ Z.testbit fl 2 = false /\ Z.testbit fl 5 = true))) s.
Proof.
  intros [G Hl Hi] Hsp Hvmm Hr0 Ho Hpf Hh Ha Hn Hok Hre. eapply wp_mono.
  { by apply (wp_heap_map slots (root_phys sp) E G Hl Hi p sp Hsp Hvmm eq_refl Hr0 Ho Hpf m). }
  intros r s' [(Hno & _)|(_ & Hres & Hk)]; [done|]. split; [done|].
  destruct Hres as [(-> & mk & Hh' & Hc & Hout & Hin)|[Hr Hh']]; [right|by left]. split; [done|]. exists mk.
  rewrite (page_count_end _ _ Hok). split_and!; [done|done|]. intros i Hi'. split; [by apply Hc|].
  destruct (Hin i Hi') as (_ & f & Ef & Hz). exists f, (Z.lor (heap_flags (page_flags p)) NS_VMM_PAGE_OWNED).
  destruct (heap_flags_spec _ Hpf) as (_ & H0 & H1 & H2). rewrite !Z.lor_spec, H0, H1, H2. split_and!; try done. apply orb_true_r.
Qed.
End theorems.

(** ** A small machine *)

Module VmmToy.

(** Eight frames, all in the direct map; frame 0 is reserved and frame 1 has the
    kernel's root table.  A page of kernel memory outside the direct map follows
    it in the model's memory. *)
Definition B : Z := NS_VMM_KERNEL_HALF_BASE.
Definition N : Z := 32768.
Definition KBUF : Z := 0xffffffff90000000.

Definition toy_config : ns_vmm_config unit := mk_vmm_config 1 B N 4096 None None None 0.
Definition toy_vmm : ns_vmm unit := mk_vmm toy_config 0 4096 1.
Definition toy_mem : gmap Z Z := map_bytes (Z.to_nat N) B (map_bytes 4096 KBUF ∅).
Definition toy_others (t : Z) : Prop := t = 0 \/ t = 4096.
Definition toy_env : env unit := mk_env toy_vmm toy_others toy_mem 8 [0x01].

(** The allocator when the frames of [l] are taken, too. *)
Definition toy_pmm (bits free : Z) : ns_pmm := mk_pmm [bits] [0x01] 1 8 7 free 2 N 0 1.
Definition toy_state (bits free : Z) : vstate unit := mk_vstate toy_vmm (toy_pmm bits free) toy_mem tt.

Lemma toy_map x : B <= x < B + N -> toy_mem !! x = Some 0.
Proof. intros Hx. unfold toy_mem. rewrite map_bytes_lookup, decide_True; [done|]. rewrite Z2Nat.id; [done|]. by vm_compute. Qed.

Lemma toy_buffer x : KBUF <= x < KBUF + 4096 -> toy_mem !! x = Some 0.
Proof.
  intros Hx. unfold toy_mem. rewrite map_bytes_lookup. destruct (decide _); [done|]. rewrite map_bytes_lookup, decide_True; [done|]. lia.
Qed.

#[local] Opaque toy_mem.

Lemma toy_running : running toy_env.
Proof.
  constructor; [|done|done]. constructor; [done| | | | |done|done|done].
  - split; [done|]. by exists (B / 4096).
  - done.
  - by exists 8.
  - intros x Hx. change (is_Some (toy_mem !! x)). by rewrite (toy_map x Hx).
Qed.

Lemma toy_owns bits free (l : list Z) : pmm_wfb (toy_pmm bits free) = true ->
  forallb (fun f => Bool.eqb (bit [bits] f) ((f <? 2) || existsb (Z.eqb (4096 * f)) l)) (seqZ 0 8) = true ->
  forallb (fun t => existsb (fun f => t =? 4096 * f) (seqZ 2 6)) l = true ->
  owns 8 [0x01] toy_others (list_to_set l) (toy_pmm bits free).
Proof.
  intros Hwf Hbits Hl. rewrite forallb_forall in Hbits, Hl.
  assert (Hin : forall t, t ∈ (list_to_set l : gset Z) -> exists f, t = 4096 * f /\ 2 <= f < 8).
  { intros t Ht%elem_of_list_to_set%list_elem_of_In. apply Hl in Ht. apply existsb_exists in Ht as (f & Hf & ->%Z.eqb_eq).
    apply list_elem_of_In, elem_of_seqZ in Hf. exists f. lia. }
  constructor; try done.
  - by apply pmm_wfb_ok.
  - intros f Hf. specialize (Hbits f). change (allocated_bitmap (toy_pmm bits free)) with [bits].
    assert (Hs : List.In f (seqZ 0 8)) by (apply list_elem_of_In, elem_of_seqZ; lia). apply Hbits, eqb_prop in Hs. rewrite Hs.
    rewrite orb_true_iff, Z.ltb_lt, existsb_exists, elem_of_list_to_set. unfold toy_others. split.
    + intros [Hlt|(t & Ht & <-%Z.eqb_eq)]; [right; lia|left; by apply list_elem_of_In].
    + intros [Ht|[Ht|Ht]]; [right; exists (4096 * f); split; [by apply list_elem_of_In|by apply Z.eqb_refl]|left; lia|left; lia].
  - intros t (f & -> & Hf)%Hin [H|H]; lia.
  - intros t (f & -> & Hf)%Hin. exists f. split_and!; [done|lia|lia|]. clear -Hf.
    assert (H : forallb (fun g => negb (bit [0x01] g)) (seqZ 2 6) = true) by by vm_compute.
    rewrite forallb_forall in H. specialize (H f). apply negb_true_iff, H, list_elem_of_In, elem_of_seqZ. lia.
Qed.

Lemma toy_zero t : 0 <= t -> t + 4096 <= N -> row_at toy_env toy_mem t (replicate 512 0).
Proof.
  intros H0 Ht. apply (zero_row toy_env toy_mem t). intros x Hx. apply toy_map. unfold in_page in Hx.
  change (base toy_env) with B in Hx. lia.
Qed.

Lemma toy_vm bits free l (T : gmap Z (list Z)) : owns 8 [0x01] toy_others (list_to_set l) (toy_pmm bits free) ->
  (forall t es, T !! t = Some es -> t ∈ l /\ es = replicate 512 0) -> vm toy_env (list_to_set l) T (toy_state bits free).
Proof.
  intros Ho HT. constructor; [reflexivity|exact Ho|intros x _; reflexivity|intros x; reflexivity|]. intros t es Ht. destruct (HT t es Ht) as [Hl ->].
  assert (Hin : t ∈ (list_to_set l : gset Z)) by by apply elem_of_list_to_set.
  destruct (o_held _ _ _ _ _ Ho t Hin) as (f & -> & Hf & _). split_and!; [done| |].
  - change (size toy_env) with 32768. lia.
  - apply toy_zero; unfold N; lia.
Qed.

(** *** Hypotheses that hold there *)

Lemma toy_start : vm toy_env ∅ ∅ (toy_state 0x03 6).
Proof. apply (toy_vm 0x03 6 []); [|done]. apply toy_owns; by vm_compute. Qed.

Lemma toy_kernel : kernel_table toy_env (replicate 512 0).
Proof.
  constructor; [|by right|apply toy_zero; [done|by vm_compute]]. change (kernel_root toy_env) with 4096. change (size toy_env) with 32768.
  split_and!; [by exists 1|lia|lia].
Qed.

(** A space with its root in frame 2. *)
Definition toy_space : ns_vmm_space := mk_space 0x2000 1.

Lemma toy_user : user_space toy_env toy_space ∅ (toy_state 0x07 5).
Proof.
  constructor; [done|done|]. apply (bare_holding toy_env 0x2000 (replicate 512 0)).
  - rewrite <- (union_empty_r_L {[0x2000]}). apply (toy_vm 0x07 5 [0x2000]); [apply toy_owns; by vm_compute|].
    intros t es [<- <-]%lookup_singleton_Some. split; [by apply list_elem_of_singleton|done].
  - by rewrite length_replicate.
  - intros k e Hk (_ & [-> _]%lookup_replicate)%rd_lookup. done.
Qed.

(** The space after a page was allocated at 0x400000, by running the code. *)
Definition toy_alloc : option (Z * vstate unit) := run_op 1 toy_space (OpAllocMap 0x400000 4096 3) (toy_state 0x07 5).
Definition toy_mapped : vstate unit := default (toy_state 0x07 5) (snd <$> toy_alloc).

Lemma toy_alloc_ok : fst <$> toy_alloc = Some NS_VMM_OK.
Proof. by vm_compute. Qed.

(** The page is the only one; user code may write it. *)
Definition toy_page (m : pages) : Prop :=
  (exists f, m !! 0x400000 = Some (f, 35)) /\ forall v, v <> 0x400000 -> m !! v = None.

Lemma toy_op_ok : op_ok ∅ (OpAllocMap 0x400000 4096 3).
Proof. cbn. lia. Qed.

Lemma toy_user_mapped : exists m, user_space toy_env toy_space m toy_mapped /\ toy_page m.
Proof.
  destruct (wp_run_op toy_env 1 toy_space ∅ _ _ toy_running ltac:(done) toy_user toy_op_ok) as (r & s' & E & m & Hus & Hst).
  pose proof toy_alloc_ok as Hok. unfold toy_mapped. unfold toy_alloc in *. rewrite E in Hok |- *. cbn in Hok. injection Hok as ->.
  exists m. cbn [default snd fmap option_fmap option_map]. split; [exact Hus|]. destruct Hst as [(_ & Hr & _ & Hout & Hin)|[Hne _]]; [|exfalso; exact (Hne eq_refl)].
  change (page_count 4096) with 1%nat in Hin. change (range_end 0x400000 4096) with 0x401000 in Hout.
  destruct (Hin 0%nat ltac:(lia)) as [f Hf]. split; [exists f; exact Hf|]. clear E. intros v Hv.
  destruct (decide (0x400000 <= v < 0x401000)) as [Hin'|Hout']; [|rewrite Hout by exact Hout'; reflexivity].
  destruct (m !! v) as [x|] eqn:Ev; [|reflexivity]. exfalso.
  destruct (holding_here user_half _ _ m _ v (us_holding _ _ _ _ Hus)) as [(_ & [q Hq] & _) _]; [rewrite Ev; eexists; reflexivity|].
  clear Hus Hout Hin. lia.
Qed.

(** Two spaces, with their roots in frames 2 and 3. *)
Definition toy_space2 : ns_vmm_space := mk_space 0x3000 1.

Lemma toy_layout t : t <> 0 -> layout toy_env (mk_space t 1) ∅ {[t := replicate 512 0]} ∅.
Proof.
  intros Ht. destruct (bare_tree t (replicate 512 0)) as [HT Hm]; [by rewrite length_replicate| |].
  { intros k e Hk (_ & [-> _]%lookup_replicate)%rd_lookup. done. }
  constructor; [done|done|set_solver|done| | |by intros v p fl|].
  - by intros u us [<- _]%lookup_singleton_Some Hne.
  - split; [by intros v [? ?]|]. intros v Hv. cbn [root_phys]. by rewrite Hm.
  - constructor; [|done]. intros d. split; [set_solver|by intros (v & fl & ? & _)].
Qed.

Lemma toy_both : both toy_env toy_space ∅ toy_space2 ∅ (toy_state 0x0f 4).
Proof.
  exists {[0x2000 := replicate 512 0]}, ∅, {[0x3000 := replicate 512 0]}, ∅.
  split_and!; [by apply toy_layout|by apply toy_layout|rewrite !dom_singleton_L; set_solver|].
  rewrite !dom_singleton_L, !union_empty_r_L. replace ({[0x2000]} ∪ {[0x3000]} : gset Z) with (list_to_set [0x2000; 0x3000] : gset Z) by set_solver.
  apply toy_vm; [apply toy_owns; by vm_compute|].
  intros t es [[<- <-]%lookup_singleton_Some|[_ [<- <-]%lookup_singleton_Some]]%lookup_union_Some_raw; (split; [set_solver|done]).
Qed.

(** A program: a page is allocated, protected and unmapped again. *)
Definition toy_ops : list vmm_op := [OpAllocMap 0x400000 4096 3; OpProtect 0x400000 4096 2; OpUnmap 0x400000 true].

Lemma toy_ops_ok sp m : ops_ok toy_env sp toy_ops m.
Proof.
  apply ops_plain. repeat apply Forall_cons_2; [intros m'; cbn [op_ok]..|apply Forall_nil_2].
  - lia.
  - do 3 (split; [lia|]). split; [by intros H|]. intros _. right. by vm_compute.
  - split; [lia|]. by intros p fl _ H.
Qed.

(** *** Witnesses *)

Lemma vmm_life_witness : vm toy_env ∅ ∅ (toy_state 0x03 6) /\
  wp (life 1 toy_space toy_ops)
    (fun r s' => (r = NS_VMM_OK \/ r = NS_VMM_ENOMEM \/ r = NS_VMM_ECORRUPT) /\ vm toy_env ∅ ∅ s') (toy_state 0x03 6).
Proof.
  split; [exact toy_start|].
  apply (vmm_life_leaks_nothing toy_env (replicate 512 0)); [exact toy_running|exact toy_kernel|by left|by right|done|intros t; apply toy_ops_ok|exact toy_start].
Defined.

Lemma vmm_ops_witness : exists m, toy_page m /\
  wp (run_ops 1 toy_space toy_ops)
    (fun rs s' => exists m', user_space toy_env toy_space m' s' /\ op_steps toy_env toy_space toy_ops m rs m') toy_mapped.
Proof.
  destruct toy_user_mapped as (m & Hus & Hp). exists m. split; [exact Hp|].
  apply vmm_ops_refine; [exact toy_running|done|apply toy_ops_ok|exact Hus].
Defined.

Lemma vmm_isolated_witness :
  wp (run_ops 1 toy_space toy_ops)
    (fun rs s' => exists m1', both toy_env toy_space m1' toy_space2 ∅ s' /\ op_steps toy_env toy_space toy_ops ∅ rs m1' /\
       kept_pages toy_env ∅ (toy_state 0x0f 4) s') (toy_state 0x0f 4).
Proof. apply vmm_isolated; [exact toy_running|done|apply toy_ops_ok|exact toy_both]. Defined.

Lemma vmm_tables_witness : exists m, toy_page m /\
  wp (run_ops 1 toy_space toy_ops)
    (fun _ s' => exists T, tree user_half 0x2000 T /\ forall t es, T !! t = Some es ->
       (4096 | t) /\ 0 <= t /\ t + 4096 <= size toy_env /\ length es = 512%nat /\ Forall (fun e => is_u64 e) es /\
       forall i e, rd es i = Some e -> peek 8 (mem s') (base toy_env + t + 8 * i) = Some e) toy_mapped.
Proof.
  destruct toy_user_mapped as (m & Hus & Hp). exists m. split; [exact Hp|].
  apply (vmm_tables_typed toy_env 1 toy_space toy_ops m); [exact toy_running|done|apply toy_ops_ok|exact Hus].
Defined.

Lemma vmm_alloc_witness : exists m, toy_page m /\
  wp (ns_vmm_alloc_map 1 (Some toy_space) 0x600000 0x2000 3)
    (fun r s' => (~ range_ok 0x600000 0x2000 /\ r = NS_VMM_EINVAL /\ s' = toy_mapped) \/
       (range_ok 0x600000 0x2000 /\ alloc_mapped user_half 0x2000 toy_env m 0x600000 3 (page_count 0x2000) r toy_mapped s')) toy_mapped.
Proof.
  destruct toy_user_mapped as (m & Hus & Hp). exists m. split; [exact Hp|].
  apply (vmm_alloc_fresh toy_env 1 toy_space m); [exact toy_running|done|exact Hus|lia|lia|lia].
Defined.

Lemma vmm_range_check_witness : exists m, toy_page m /\
  wp (ns_vmm_user_range_valid 1 (Some toy_space) 0x400010 16 true)
    (fun r s' => s' = toy_mapped /\ (r = true <-> 0 < 16 /\ 0x400010 + 16 <= NS_VMM_USER_TOP /\
       forall v, 0x400010 <= v < 0x400010 + 16 -> access m true v = true)) toy_mapped.
Proof.
  destruct toy_user_mapped as (m & Hus & Hp). exists m. split; [exact Hp|].
  apply (vmm_range_check_exact toy_env 1 toy_space m); [exact toy_running|done|exact Hus|lia|lia].
Defined.

Lemma vmm_translate_witness : exists m, toy_page m /\
  wp (ns_vmm_translate 1 (Some toy_space) 0x400010 (Some 0) (Some 0))
    (fun x s' => s' = toy_mapped /\ match m !! page_base 0x400010 with
       | Some (p, fl) => x = (NS_VMM_OK, (Some (p + 0x400010 mod 4096), (fun _ => fl) <$> Some 0))
       | None => x = (NS_VMM_ENOENT, (Some 0, Some 0)) end) toy_mapped.
Proof.
  destruct toy_user_mapped as (m & Hus & Hp). exists m. split; [exact Hp|].
  apply (vmm_translate_exact toy_env 1 toy_space m); [exact toy_running|done|exact Hus|lia|by vm_compute].
Defined.

Lemma entry_flags_witness : flags_from_entry (entry_from_flags 0x5000 19) = 19 /\ Z.land (entry_from_flags 0x5000 19) X86_PTE_ADDR = 0x5000.
Proof. apply entry_flags_roundtrip; [by exists 5|lia|lia]. Defined.

Lemma vmm_create_witness :
  wp (ns_vmm_create_space 1 (Some (mk_space 0 0)))
    (fun x s' => let '(r, out) := x in
       (r = NS_VMM_OK /\ exists t, out = Some (mk_space t 1) /\ holding user_half t toy_env ∅ s' /\
          forall k, 256 <= k < 512 -> peek 8 (mem s') (base toy_env + t + 8 * k) = rd (replicate 512 0) k) \/
       ((r = NS_VMM_ENOMEM \/ r = NS_VMM_ECORRUPT) /\ out = Some (mk_space 0 0) /\ vm toy_env ∅ ∅ s')) (toy_state 0x03 6).
Proof. apply vmm_create_fresh; [exact toy_running|exact toy_kernel|done|exact toy_start]. Defined.

Lemma vmm_destroy_witness : exists m, toy_page m /\
  wp (ns_vmm_destroy_space 1 (Some toy_space))
    (fun r s' => r = Some (mk_space 0 0) /\ vm (with_object toy_env (retired 0x2000 toy_env)) ∅ ∅ s') toy_mapped.
Proof.
  destruct toy_user_mapped as (m & Hus & Hp). exists m. split; [exact Hp|].
  apply (vmm_destroy_frees_all toy_env 1 toy_space m); [exact toy_running|done|exact Hus].
Defined.

(** The kernel buffer is mapped, and apart from the direct map. *)
Lemma toy_kbuf m x : user_space toy_env toy_space m toy_mapped -> KBUF <= x < KBUF + 4096 -> is_Some (mem toy_mapped !! x).
Proof.
  intros [_ _ (D & (T & [V _ _ _] & _) & _)] Hx. apply (vm_mapped _ _ _ _ V). change (is_Some (toy_mem !! x)). rewrite (toy_buffer x Hx). by eexists.
Qed.

Lemma toy_apart x n : KBUF <= x -> out_of_map toy_env x n.
Proof. intros Hx. unfold KBUF in Hx. split; [lia|right]. change (base toy_env) with B. change (size toy_env) with N. unfold B, N, NS_VMM_KERNEL_HALF_BASE. lia. Qed.

Lemma toy_writable m : toy_page m -> forall v p fl, m !! v = Some (p, fl) -> Z.testbit fl 1 = true -> Z.testbit fl 0 = true -> Z.testbit fl 5 = true.
Proof.
  intros [(f & Hf) Hn] v p fl Hv _ _. destruct (decide (v = 0x400000)) as [->|Hne]; [|by rewrite Hn in Hv]. rewrite Hf in Hv. by injection Hv as _ <-.
Qed.

Lemma toy_cover : 4096 * e_frames toy_env <= size toy_env.
Proof. by vm_compute. Qed.

Lemma copy_from_user_witness : exists m, toy_page m /\
  wp (ns_copy_from_user (Some (user_memory 1 1)) (Some (mk_user_process (Some toy_space))) KBUF 0x400010 16)
    (fun r s' => (r = 0 /\ range_access m false 0x400010 16 /\
                    exists mm, s' = toy_mapped <| mem := mm |> /\ copied_from toy_env m 0x400010 KBUF 16 (mem toy_mapped) mm /\
                    user_space (rebase toy_env mm) toy_space m s') \/
       (r = - NS_EFAULT /\ ~ range_access m false 0x400010 16 /\ s' = toy_mapped)) toy_mapped.
Proof.
  destruct toy_user_mapped as (m & Hus & Hp). exists m. split; [exact Hp|].
  apply (copy_from_user_exact toy_env 1 1 toy_space m);
    [exact toy_running|done|exact toy_cover|exact Hus|lia|lia|lia|done|apply toy_apart; lia|].
  intros i Hi. apply (toy_kbuf m); [exact Hus|lia].
Defined.

Lemma copy_to_user_witness : exists m, toy_page m /\
  wp (ns_copy_to_user (Some (user_memory 1 1)) (Some (mk_user_process (Some toy_space))) 0x400010 KBUF 16)
    (fun r s' => (r = 0 /\ range_access m true 0x400010 16 /\ user_space toy_env toy_space m s' /\
                    copied_to toy_env m 0x400010 KBUF 16 toy_mapped s') \/
       (r = - NS_EFAULT /\ ~ range_access m true 0x400010 16 /\ s' = toy_mapped)) toy_mapped.
Proof.
  destruct toy_user_mapped as (m & Hus & Hp). exists m. split; [exact Hp|].
  apply (copy_to_user_exact toy_env 1 1 toy_space m);
    [exact toy_running|done|exact toy_cover|exact Hus|lia|lia|lia|done|exact (toy_writable m Hp)|apply toy_apart; lia|].
  intros i Hi. apply (toy_kbuf m); [exact Hus|lia].
Defined.



(** The kernel's space, which does not own its root. *)
Definition toy_provider : ns_kheap_vmm_provider := mk_provider 1 (Some (mk_space 0x2000 0)) 0.

Lemma toy_heap_range : range_ok 0x600000 (2 * 4096).
Proof. constructor; [split_and!; [lia|lia|by exists 0x600|done]|lia|by vm_compute|by vm_compute]. Qed.

Lemma heap_pages_witness :
  wp (ns_kheap_vmm_map_pages (Some toy_provider) 0x600000 2)
    (fun r s' => kept_pages toy_env ∅ (toy_state 0x07 5) s' /\
       ((r <> NS_VMM_OK /\ holding user_half 0x2000 toy_env ∅ s') \/
        (r = NS_VMM_OK /\ exists m', holding user_half 0x2000 toy_env m' s' /\
          (forall v, ~ 0x600000 <= v < range_end 0x600000 (2 * 4096) -> m' !! v = (∅ : pages) !! v) /\
          forall i, (i < page_count (2 * 4096))%nat -> (∅ : pages) !! (0x600000 + 4096 * Z.of_nat i) = None /\
            exists f fl, m' !! (0x600000 + 4096 * Z.of_nat i) = Some (f, fl) /\ zeroed toy_env f s' /\
              Z.testbit fl 0 = true /\ Z.testbit fl 1 = false /\ Z.testbit fl 2 = false /\ Z.testbit fl 5 = true))) (toy_state 0x07 5).
Proof.
  apply (heap_pages_protected toy_env user_half toy_provider (mk_space 0x2000 0));
    [exact toy_running|done|done|done|done|cbn; lia|apply (us_holding _ _ _ _ toy_user)|lia|split; [lia|by vm_compute]|exact toy_heap_range|].
  intros v Hd Hv. split; [change (range_end 0x600000 (2 * 4096)) with 0x602000 in Hv; lia|]. intros _. left.
  by apply (user_pages 0x600000 0x602000).
Defined.

(** *** What the code does beyond its comments *)

(** The allocator with frame 5, too, which belongs to somebody else. *)
Definition toy_borrowed : M (vstate unit) unit :=
  ns_vmm_map 1 (Some toy_space) 0x400000 0x5000 2;;
  ns_vmm_protect 1 (Some toy_space) 0x400000 4096 (2 + 32);;
  ns_vmm_destroy_space 1 (Some toy_space);;
  mret tt.

(** Protecting a borrowed page with flags that contain the ownership bit makes
    the space its owner: destroying the space then frees a frame that was only
    lent to it (the comment in the code says that protection cannot change
    ownership). *)
Theorem vmm_protect_takes_ownership :
  bit (allocated_bitmap (toy_pmm 0x27 4)) 5 = true /\
  exists s', toy_borrowed (toy_state 0x27 4) = Some (tt, s') /\ bit (allocated_bitmap (pmm s')) 5 = false.
Proof.
  split; [by vm_compute|]. assert (H : exists s', (fun s => bit (allocated_bitmap (pmm s)) 5) <$> (snd <$> toy_borrowed (toy_state 0x27 4)) = Some false
    /\ s' = snd <$> toy_borrowed (toy_state 0x27 4)) by (eexists; split; [by vm_compute|reflexivity]).
  destruct H as (o & H & ->). destruct (toy_borrowed (toy_state 0x27 4)) as [[[] s']|]; [|done]. exists s'. split; [done|]. by injection H.
Qed.



End VmmToy.
