(* ===== verification/NetTypes.v ===== *)
(** * Addresses, packet bytes and the Internet checksum
      (include/northstar/net_types.h, kernel/net/net_checksum.c)

    A pointer to bytes is the list of the bytes from there to the end of what
    the callee may touch, or [None] for the null pointer; reading or writing
    past the end has no defined result.  A checksum is specified by RFC 1071:
    one's-complement addition of the 16-bit words of the message. *)

From S2P Require Import Prelude.

(** ** Constants *)

Abbreviation NET_ETHERNET_ADDRESS_LEN := 6 (only parsing).
Abbreviation NET_IPV4_ADDRESS_LEN := 4 (only parsing).
Abbreviation NET_ETHERNET_MTU := 1500 (only parsing).
Abbreviation NET_ETHERNET_HEADER_LEN := 14 (only parsing).
Abbreviation NET_ETHERNET_MIN_FRAME_LEN := 60 (only parsing).
Abbreviation NET_ETHERNET_MAX_FRAME_LEN := 1514 (only parsing).
Abbreviation NET_IPV4_MIN_HEADER_LEN := 20 (only parsing).

Abbreviation NET_OK := 0 (only parsing).
Abbreviation NET_ERR_INVALID := (-1) (only parsing).
Abbreviation NET_ERR_NO_DEVICE := (-2) (only parsing).
Abbreviation NET_ERR_NO_ROUTE := (-3) (only parsing).
Abbreviation NET_ERR_NO_BUFFER := (-4) (only parsing).
Abbreviation NET_ERR_TOO_LARGE := (-5) (only parsing).
Abbreviation NET_ERR_AGAIN := (-6) (only parsing).
Abbreviation NET_ERR_IO := (-7) (only parsing).
Abbreviation NET_ERR_NOT_SUPPORTED := (-8) (only parsing).
Abbreviation NET_ERR_EXISTS := (-9) (only parsing).
Abbreviation NET_ERR_NOT_FOUND := (-10) (only parsing).

(** ** Addresses *)

Record net_mac_addr := net_mac_addr_make { mac0 : Z; mac1 : Z; mac2 : Z; mac3 : Z; mac4 : Z; mac5 : Z }.
Record net_ipv4_addr := net_ipv4_addr_make { ip0 : Z; ip1 : Z; ip2 : Z; ip3 : Z }.
#[export] Instance net_mac_addr_eq_dec : EqDecision net_mac_addr.
Proof. solve_decision. Defined.
#[export] Instance net_ipv4_addr_eq_dec : EqDecision net_ipv4_addr.
Proof. solve_decision. Defined.

Definition mac_bytes (a : net_mac_addr) : list Z := [mac0 a; mac1 a; mac2 a; mac3 a; mac4 a; mac5 a].
Definition ip_bytes (a : net_ipv4_addr) : list Z := [ip0 a; ip1 a; ip2 a; ip3 a].

(** The loop both comparisons run. *)
Fixpoint difference (left right : list Z) (acc : Z) : Z :=
  match left, right with
  | l :: left', r :: right' => difference left' right' (u8 (Z.lor acc (u8 (Z.lxor l r))))
  | _, _ => acc
  end.

Definition net_mac_addr_equal (left right : net_mac_addr) : bool :=
  difference (mac_bytes left) (mac_bytes right) 0 =? 0.
Definition net_mac_addr_zero : net_mac_addr := net_mac_addr_make 0 0 0 0 0 0.
Definition net_mac_addr_broadcast : net_mac_addr := net_mac_addr_make 255 255 255 255 255 255.
Definition net_mac_addr_is_zero (a : net_mac_addr) : bool := net_mac_addr_equal a net_mac_addr_zero.
Definition net_mac_addr_is_broadcast (a : net_mac_addr) : bool := net_mac_addr_equal a net_mac_addr_broadcast.
Definition net_mac_addr_is_multicast (a : net_mac_addr) : bool := negb (Z.land (mac0 a) 1 =? 0).

Definition net_ipv4_addr_equal (left right : net_ipv4_addr) : bool :=
  difference (ip_bytes left) (ip_bytes right) 0 =? 0.
Definition net_ipv4_addr_zero : net_ipv4_addr := net_ipv4_addr_make 0 0 0 0.
Definition net_ipv4_addr_is_zero (a : net_ipv4_addr) : bool := net_ipv4_addr_equal a net_ipv4_addr_zero.
Definition net_ipv4_addr_is_limited_broadcast (a : net_ipv4_addr) : bool :=
  net_ipv4_addr_equal a (net_ipv4_addr_make 255 255 255 255).
Definition net_ipv4_addr_is_multicast (a : net_ipv4_addr) : bool := (224 <=? ip0 a) && (ip0 a <=? 239).
Definition net_ipv4_addr_is_unicast (a : net_ipv4_addr) : bool :=
  negb (ip0 a =? 0) && negb (ip0 a =? 127) && (ip0 a <? 224).

Definition net_ipv4_addr_to_u32 (a : net_ipv4_addr) : Z :=
  Z.lor (Z.lor (Z.lor (u32 (Z.shiftl (ip0 a) 24)) (u32 (Z.shiftl (ip1 a) 16))) (u32 (Z.shiftl (ip2 a) 8))) (ip3 a).
Definition net_ipv4_addr_from_u32 (v : Z) : net_ipv4_addr :=
  net_ipv4_addr_make (u8 (Z.shiftr v 24)) (u8 (Z.shiftr v 16)) (u8 (Z.shiftr v 8)) (u8 v).
Definition net_ipv4_addr_and (a mask : net_ipv4_addr) : net_ipv4_addr :=
  net_ipv4_addr_from_u32 (Z.land (net_ipv4_addr_to_u32 a) (net_ipv4_addr_to_u32 mask)).

(** ** Bytes of a packet *)

Definition net_read_be16 (m : list Z) (o : Z) : option Z :=
  b0 ← rd m o; b1 ← rd m (o + 1); Some (u16 (Z.lor (Z.shiftl b0 8) b1)).
Definition net_write_be16 (m : list Z) (o v : Z) : option (list Z) :=
  m ← wr m o (u8 (Z.shiftr v 8)); wr m (o + 1) (u8 v).

(** [copy_bytes(&destination[o], source, length)]. *)
Definition copy_bytes (destination : list Z) (o : Z) (source : list Z) (length : Z) : option (list Z) :=
  for_ (Z.to_nat length) (fun index d => b ← rd source index; wr d (o + index) b) 0 destination.

(** The loops that copy an address out of a packet. *)
Definition mac_at (m : list Z) (o : Z) : option net_mac_addr :=
  a ← rd m o; b ← rd m (o + 1); c ← rd m (o + 2); d ← rd m (o + 3); e ← rd m (o + 4); f ← rd m (o + 5);
  Some (net_mac_addr_make a b c d e f).
Definition ip_at (m : list Z) (o : Z) : option net_ipv4_addr :=
  a ← rd m o; b ← rd m (o + 1); c ← rd m (o + 2); d ← rd m (o + 3); Some (net_ipv4_addr_make a b c d).

(** The [length] bytes at [&m[o]], passed on as a pointer and a length. *)
Definition span (m : list Z) (o length : Z) : list Z := take (Z.to_nat length) (drop (Z.to_nat o) m).

(** An array on the stack is not initialised: what it holds is a parameter. *)
Class Garbage := garbage : Z -> Z.
Definition uninitialised `{!Garbage} (n : Z) : list Z := (fun i => u8 (garbage i)) <$> seqZ 0 n.

(** ** The checksum *)

Record net_checksum_state := mk_checksum { sum : Z; odd_byte : Z; has_odd_byte : bool }.

Definition net_checksum_init : net_checksum_state := mk_checksum 0 0 false.

(** [while (index + 1u < length)], with the number of turns it may take. *)
Fixpoint sum_words (fuel : nat) (bytes : list Z) (length index s : Z) : option (Z * Z) :=
  if index + 1 <? length then
    match fuel with
    | O => None
    | S fuel' =>
      a ← rd bytes index; b ← rd bytes (index + 1);
      sum_words fuel' bytes length (index + 2) (u32 (s + Z.lor (Z.shiftl a 8) b))
    end
  else Some (index, s).

Definition net_checksum_update (state : net_checksum_state) (data : option (list Z)) (length : Z)
  : option net_checksum_state :=
  match data with
  | None => Some state
  | Some bytes =>
    '(s, odd, index) ←
      (if has_odd_byte state && negb (length =? 0) then
         b ← rd bytes 0; Some (u32 (sum state + Z.lor (Z.shiftl (odd_byte state) 8) b), false, 1)
       else Some (sum state, has_odd_byte state, 0));
    '(index, s) ← sum_words (Z.to_nat length) bytes length index s;
    if index <? length then b ← rd bytes index; Some (mk_checksum s b true)
    else Some (mk_checksum s (odd_byte state) odd)
  end.

(** [while ((sum >> 16u) != 0u)]. *)
Fixpoint fold_sum (fuel : nat) (s : Z) : option Z :=
  if Z.shiftr s 16 =? 0 then Some s
  else match fuel with
       | O => None
       | S fuel' => fold_sum fuel' (u32 (Z.land s 65535 + Z.shiftr s 16))
       end.

Definition net_checksum_finalize (state : net_checksum_state) : option Z :=
  let s := if has_odd_byte state then u32 (sum state + Z.shiftl (odd_byte state) 8) else sum state in
  s ← fold_sum 2 s; Some (u16 (Z.lnot s)).

Definition net_checksum_compute (data : option (list Z)) (length : Z) : option Z :=
  state ← net_checksum_update net_checksum_init data length; net_checksum_finalize state.

Definition net_checksum_is_valid (data : option (list Z)) (length : Z) : option bool :=
  match data with
  | None => Some false
  | Some _ => c ← net_checksum_compute data length; Some (c =? 0)
  end.

(** ** RFC 1071 *)

(** The 16-bit words of a message, the last one completed with a zero byte. *)
Fixpoint be_words (l : list Z) : list Z :=
  match l with
  | a :: b :: l' => a * 256 + b :: be_words l'
  | [a] => [a * 256]
  | [] => []
  end.

(** Addition with the carry added back at the low end. *)
Definition ones_add (a b : Z) : Z := if a + b <? 2 ^ 16 then a + b else a + b - 65535.
Definition rfc1071 (l : list Z) : Z := 65535 - fold_left ones_add (be_words l) 0.
