(* ===== verification/NetSum.v ===== *)
(** * The Internet checksum

    The streaming checksum of kernel/net/net_checksum.c computes the checksum of
    RFC 1071, however the message is cut into pieces; a message that carries its
    checksum is accepted, and one with a single wrong byte is not. *)

From S2P Require Import Prelude NetTypes.

(** ** One's-complement sums

    [norm s] is the 16-bit one's-complement value of a sum of words: [0] only for
    an empty sum, and otherwise the representative of [s] between 1 and 65535. *)
Definition norm (s : Z) : Z := if s =? 0 then 0 else (s - 1) mod 65535 + 1.

Lemma norm_range s : 0 <= s -> 0 <= norm s <= 65535.
Proof.
  intros Hs. unfold norm. destruct (Z.eqb_spec s 0); [lia|].
  pose proof (Z.mod_pos_bound (s - 1) 65535 ltac:(lia)). lia.
Qed.

Lemma norm_small s : 0 <= s <= 65535 -> norm s = s.
Proof. intros Hs. unfold norm. destruct (Z.eqb_spec s 0); [lia|]. rewrite Z.mod_small; lia. Qed.

Lemma norm_congr s t : 0 < s -> 0 < t -> s mod 65535 = t mod 65535 -> norm s = norm t.
Proof.
  intros Hs Ht E. unfold norm. rewrite (proj2 (Z.eqb_neq s 0)), (proj2 (Z.eqb_neq t 0)) by lia.
  rewrite (Zminus_mod s), (Zminus_mod t), E. done.
Qed.

Lemma norm_mod s : 0 <= s -> norm s mod 65535 = s mod 65535.
Proof.
  intros Hs. unfold norm. destruct (Z.eqb_spec s 0) as [->|]; [done|].
  rewrite Z.add_mod_idemp_l by lia. f_equal. lia.
Qed.

Lemma norm_pos s : 0 < s -> 0 < norm s.
Proof.
  intros Hs. unfold norm. rewrite (proj2 (Z.eqb_neq s 0)) by lia.
  pose proof (Z.mod_pos_bound (s - 1) 65535 ltac:(lia)). lia.
Qed.

Lemma norm_add s t : 0 <= s -> 0 <= t -> norm (norm s + t) = norm (s + t).
Proof.
  intros Hs Ht. destruct (Z.eq_dec s 0) as [->|]; [done|].
  pose proof (norm_pos s ltac:(lia)).
  apply norm_congr; [lia..|]. by rewrite Z.add_mod, norm_mod, <- Z.add_mod by lia.
Qed.

Lemma norm_full s : 0 < s -> norm s = 65535 <-> s mod 65535 = 0.
Proof.
  intros Hs. pose proof (norm_pos s Hs). pose proof (norm_range s ltac:(lia)).
  pose proof (norm_mod s ltac:(lia)) as E. split; intros H1.
  - by rewrite <- E, H1.
  - rewrite H1 in E. apply Z.mod_divide in E as [q Hq]; [|lia]. lia.
Qed.

(** Folding the carries computes it, in two turns. *)
Lemma fold_sum_step s : 2 ^ 16 <= s < 2 ^ 32 ->
  u32 (Z.land s 65535 + Z.shiftr s 16) = s mod 2 ^ 16 + s / 2 ^ 16 /\
  0 < s mod 2 ^ 16 + s / 2 ^ 16 < 2 ^ 17 - 1 /\
  norm (s mod 2 ^ 16 + s / 2 ^ 16) = norm s /\
  (s < 2 ^ 17 - 1 -> s mod 2 ^ 16 + s / 2 ^ 16 < 2 ^ 16).
Proof.
  intros Hs. change 65535 with (2 ^ 16 - 1) at 1. rewrite land_mask, Z.shiftr_div_pow2 by lia.
  assert (0 < s mod 2 ^ 16 + s / 2 ^ 16 < 2 ^ 17 - 1) as Hb by zdiv.
  split_and!; [apply u32_small; lia|lia|lia| |intros; clear Hb; zdiv].
  apply norm_congr; [lia..|]. rewrite (Z.div_mod s (2 ^ 16)) at 3 by lia.
  replace (2 ^ 16 * (s / 2 ^ 16) + s mod 2 ^ 16)
    with (s mod 2 ^ 16 + s / 2 ^ 16 + s / 2 ^ 16 * 65535) by lia.
  by rewrite Z.mod_add by lia.
Qed.

Lemma fold_sum_spec s : is_u32 s -> fold_sum 2 s = Some (norm s).
Proof.
  assert (Hsmall : forall n t, is_u16 t -> fold_sum n t = Some (norm t)).
  { intros n t Ht. destruct n; cbn [fold_sum]; rewrite Z.shiftr_div_pow2, Z.div_small by lia;
      by rewrite norm_small by lia. }
  intros Hs. destruct (Z.lt_ge_cases s (2 ^ 16)); [apply Hsmall; lia|].
  assert (Hbig : forall t, 2 ^ 16 <= t < 2 ^ 32 -> (Z.shiftr t 16 =? 0) = false).
  { intros t Ht. rewrite Z.shiftr_div_pow2 by lia. apply Z.eqb_neq. zdiv. }
  destruct (fold_sum_step s ltac:(lia)) as (E & Hb & En & _).
  cbn [fold_sum]. rewrite Hbig, E, <- En by lia.
  set (t := s mod 2 ^ 16 + s / 2 ^ 16) in *.
  destruct (Z.lt_ge_cases t (2 ^ 16)); [apply (Hsmall 1%nat); lia|].
  destruct (fold_sum_step t ltac:(lia)) as (E' & Hb' & En' & Hlt).
  rewrite Hbig, E', <- En' by lia. apply (Hsmall 0%nat). lia.
Qed.

(** So does adding the words with end-around carry. *)
Definition wsum (l : list Z) : Z := foldr Z.add 0 (be_words l).

Lemma ones_add_norm a b : 0 <= a <= 65535 -> 0 <= b <= 65535 -> ones_add a b = norm (a + b).
Proof.
  intros Ha Hb. unfold ones_add. destruct (Z.ltb_spec (a + b) (2 ^ 16)); [by rewrite norm_small by lia|].
  rewrite <- (norm_small (a + b - 65535)) by lia. apply norm_congr; [lia..|].
  replace (a + b) with (a + b - 65535 + 1 * 65535) at 2 by lia. by rewrite Z.mod_add by lia.
Qed.

Lemma ones_sum ws a :
  0 <= a <= 65535 -> Forall (fun w => 0 <= w <= 65535) ws ->
  fold_left ones_add ws a = norm (a + foldr Z.add 0 ws) /\ 0 <= foldr Z.add 0 ws.
Proof.
  intros Ha Hws. revert a Ha. induction Hws as [|w ws Hw Hws IH]; intros a Ha; cbn.
  - by rewrite Z.add_0_r, norm_small by lia.
  - destruct (IH (ones_add a w)) as [E Hp].
    { rewrite ones_add_norm by lia. apply norm_range. lia. }
    split; [|lia]. rewrite E, ones_add_norm, norm_add, Z.add_assoc by lia. done.
Qed.

(** ** Words and pieces of a message *)

(** Induction by pairs. *)
Lemma list_pair_ind {A} (P : list A -> Prop) :
  P [] -> (forall a, P [a]) -> (forall a b l, P l -> P (a :: b :: l)) -> forall l, P l.
Proof.
  intros H0 H1 H2. fix rec 1. intros [|a [|b l]]; [done|apply H1|]. apply H2, rec.
Qed.

(** The sum of the complete words, and the byte left over. *)
Fixpoint pair_sum (l : list Z) : Z :=
  match l with a :: b :: l' => a * 256 + b + pair_sum l' | _ => 0 end.
Fixpoint odd_tail (l : list Z) : option Z :=
  match l with _ :: _ :: l' => odd_tail l' | [a] => Some a | [] => None end.

Lemma wsum_pairs l : wsum l = pair_sum l + from_option (fun a => a * 256) 0 (odd_tail l).
Proof.
  unfold wsum. induction l as [|a|a b l IH] using list_pair_ind; cbn; [done|lia|]. rewrite IH. lia.
Qed.

Lemma pairs_even l d : odd_tail l = None ->
  pair_sum (l ++ d) = pair_sum l + pair_sum d /\ odd_tail (l ++ d) = odd_tail d.
Proof.
  induction l as [|a|a b l IH] using list_pair_ind; cbn [app pair_sum odd_tail]; intros H; [done..|].
  destruct (IH H) as [-> ->]. split; [lia|done].
Qed.
Lemma pairs_odd l a b d : odd_tail l = Some a ->
  pair_sum (l ++ b :: d) = pair_sum l + (a * 256 + b) + pair_sum d /\ odd_tail (l ++ b :: d) = odd_tail d.
Proof.
  induction l as [|x|x y l IH] using list_pair_ind; cbn [app pair_sum odd_tail]; intros H; [done|..].
  - simplify_eq. cbn. split; [lia|done].
  - destruct (IH H) as [-> ->]. split; [lia|done].
Qed.

Lemma odd_tail_length l : odd_tail l = None <-> Z.of_nat (length l) mod 2 = 0.
Proof.
  induction l as [|a|a b l IH] using list_pair_ind; cbn [odd_tail length]; [done..|].
  rewrite IH. split; intros; zdiv.
Qed.

Lemma be_word a b : is_u8 a -> is_u8 b -> Z.lor (Z.shiftl a 8) b = a * 256 + b.
Proof. intros Ha Hb. rewrite Z.shiftl_mul_pow2 by lia. by apply lor_bytes. Qed.

Lemma be_words_range l : Forall (fun b => is_u8 b) l -> Forall (fun w => 0 <= w <= 65535) (be_words l).
Proof.
  induction l as [|a|a b l IH] using list_pair_ind; cbn; intros Hl; [done|..].
  - inversion Hl; subst. repeat constructor; lia.
  - apply Forall_cons_1 in Hl as [Ha Hl]. apply Forall_cons_1 in Hl as [Hb Hl]. constructor; [lia|auto].
Qed.

Lemma wsum_bound l : Forall (fun b => is_u8 b) l -> 0 <= wsum l <= 65535 * ((Z.of_nat (length l) + 1) / 2).
Proof.
  unfold wsum. induction l as [|a|a b l IH] using list_pair_ind; cbn [be_words foldr length]; intros Hl; [done|..].
  - inversion Hl; subst. change ((Z.of_nat 1 + 1) / 2) with 1. lia.
  - apply Forall_cons_1 in Hl as [Ha Hl]. apply Forall_cons_1 in Hl as [Hb Hl]. specialize (IH Hl).
    replace (Z.of_nat (S (S (length l))) + 1) with (Z.of_nat (length l) + 1 + 1 * 2) by lia.
    rewrite Z.div_add by lia. lia.
Qed.

(** ** The code *)

Abbreviation bytes_ok l := (Forall (fun b => is_u8 b) l) (only parsing).
Abbreviation zlen l := (Z.of_nat (length l)) (only parsing).

Lemma rd_app_r {A} (pre rest : list A) i :
  0 <= i -> rd (pre ++ rest) (zlen pre + i) = rd rest i.
Proof.
  intros Hi. unfold rd. rewrite (proj2 (Z.leb_le 0 i)), (proj2 (Z.leb_le 0 (zlen pre + i))) by lia.
  rewrite lookup_app_r by lia. f_equal. lia.
Qed.

Lemma sum_words_spec rest fuel pre s :
  (length rest <= fuel)%nat -> bytes_ok rest -> is_u32 s ->
  sum_words fuel (pre ++ rest) (zlen (pre ++ rest)) (zlen pre) s =
  Some (zlen (pre ++ rest) - (if odd_tail rest is Some _ then 1 else 0), u32 (s + pair_sum rest)).
Proof.
  revert fuel pre s. induction rest as [|a|a b l IH] using list_pair_ind; intros fuel pre s Hf Hr Hs;
    rewrite length_app; cbn [length odd_tail pair_sum].
  1,2: destruct fuel; cbn [sum_words]; rewrite (proj2 (Z.ltb_ge _ _)) by lia; rewrite Z.add_0_r, u32_small by done;
    f_equal; f_equal; lia.
  cbn in Hf. destruct fuel as [|fuel]; [lia|]. cbn [sum_words]. rewrite (proj2 (Z.ltb_lt _ _)) by lia.
  apply Forall_cons_1 in Hr as [Ha Hr]. apply Forall_cons_1 in Hr as [Hb Hr].
  pose proof (rd_app_r pre (a :: b :: l) 0 ltac:(lia)) as E0. rewrite Z.add_0_r in E0. rewrite E0.
  rewrite (rd_app_r pre (a :: b :: l) 1) by lia. cbn [rd Z.leb Z.to_nat lookup list_lookup mbind option_bind].
  change (rd (a :: b :: l) 0) with (Some a). change (rd (a :: b :: l) 1) with (Some b). cbn [mbind option_bind].
  rewrite be_word by done.
  specialize (IH fuel (pre ++ [a; b]) (u32 (s + (a * 256 + b))) ltac:(lia) Hr (u32_range _)).
  rewrite <- app_assoc in IH. cbn [app] in IH. rewrite !length_app in IH. cbn [length] in IH.
  replace (zlen pre + 2) with (Z.of_nat (length pre + 2)) by lia. rewrite IH.
  rewrite u32_add_l. f_equal. f_equal. f_equal. lia.
Qed.

(** The state of the checksum after the bytes [l]. *)
Definition summed (st : net_checksum_state) (l : list Z) : Prop :=
  sum st = u32 (pair_sum l) /\
  match odd_tail l with Some a => has_odd_byte st = true /\ odd_byte st = a | None => has_odd_byte st = false end.

Lemma summed_init : summed net_checksum_init [].
Proof. done. Qed.

(** The last byte of a message, when it is odd. *)
Lemma odd_tail_last l a : odd_tail l = Some a -> rd l (zlen l - 1) = Some a.
Proof.
  induction l as [|x|x y l IH] using list_pair_ind; cbn [odd_tail]; intros H; [done|by simplify_eq|].
  pose proof (IH H) as E. assert (l <> []) by (by intros ->). destruct l as [|z l]; [done|].
  replace (zlen (x :: y :: z :: l) - 1) with (zlen [x; y] + (zlen (z :: l) - 1)) by (cbn; lia).
  change (x :: y :: z :: l) with ([x; y] ++ z :: l). rewrite rd_app_r; [done|cbn; lia].
Qed.

(** The loop and what follows it, from an even position. *)
Lemma update_rest pre rest s odd b0 :
  bytes_ok rest -> is_u32 s ->
  ('(index, s) ← sum_words (length (pre ++ rest)) (pre ++ rest) (zlen (pre ++ rest)) (zlen pre) s;
   if index <? zlen (pre ++ rest) then b ← rd (pre ++ rest) index; Some (mk_checksum s b true)
   else Some (mk_checksum s b0 odd)) =
  Some (match odd_tail rest with
        | Some a => mk_checksum (u32 (s + pair_sum rest)) a true
        | None => mk_checksum (u32 (s + pair_sum rest)) b0 odd
        end).
Proof.
  intros Hr Hs. rewrite sum_words_spec by (done || rewrite length_app; lia). cbn [mbind option_bind].
  destruct (odd_tail rest) as [a|] eqn:E.
  - rewrite (proj2 (Z.ltb_lt _ _)) by lia. apply odd_tail_last in E as E'.
    assert (rest <> []) by (by intros ->). assert (0 < zlen rest) by (destruct rest; cbn; [done|lia]).
    replace (zlen (pre ++ rest) - 1) with (zlen pre + (zlen rest - 1)) by (rewrite length_app; lia).
    rewrite rd_app_r, E' by lia. done.
  - by rewrite (proj2 (Z.ltb_ge _ _)) by lia.
Qed.

Lemma checksum_update_spec st l d :
  summed st l -> bytes_ok l -> bytes_ok d ->
  exists st', net_checksum_update st (Some d) (zlen d) = Some st' /\ summed st' (l ++ d).
Proof.
  intros [Hs Ho] Hl Hd. unfold net_checksum_update. rewrite Nat2Z.id.
  destruct (odd_tail l) as [a|] eqn:E; [destruct Ho as [Ho <-]|]; rewrite Ho.
  - destruct d as [|b d].
    + exists st. rewrite app_nil_r. split; [destruct st; cbn in *; by rewrite Ho|]. by split; rewrite ?E.
    + apply Forall_cons_1 in Hd as [Hb Hd]. cbn [length].
      rewrite (proj2 (Z.eqb_neq _ 0)) by lia. cbn [andb negb].
      change (rd (b :: d) 0) with (Some b). cbn [mbind option_bind].
      destruct (pairs_odd l (odd_byte st) b d E) as [Ep Et].
      pose proof (update_rest [b] d (u32 (sum st + Z.lor (Z.shiftl (odd_byte st) 8) b)) false (odd_byte st) Hd (u32_range _)) as Eu.
      cbn [app length] in Eu. change (Z.of_nat 1) with 1 in Eu. rewrite Eu.
      eexists. split; [done|].
      assert (is_u8 (odd_byte st)) by (apply odd_tail_last in E; apply rd_lookup in E as [_ E]; exact (Forall_lookup_1 _ _ _ _ Hl E)).
      unfold summed. rewrite Ep, Et, Hs, be_word by done.
      destruct (odd_tail d); cbn [sum odd_byte has_odd_byte]; rewrite u32_add_l, <- Z.add_assoc, u32_add_l, Z.add_assoc; done.
  - cbn [andb mbind option_bind]. destruct (pairs_even l d E) as [Ep Et].
    pose proof (update_rest [] d (sum st) false (odd_byte st) Hd ltac:(rewrite Hs; apply u32_range)) as Eu.
    cbn [app] in Eu. change (zlen []) with 0 in Eu. rewrite Eu. eexists. split; [done|].
    unfold summed. rewrite Ep, Et, Hs. destruct (odd_tail d); cbn [sum odd_byte has_odd_byte]; by rewrite u32_add_l.
Qed.

Lemma rfc1071_norm l : bytes_ok l -> rfc1071 l = 65535 - norm (wsum l).
Proof.
  intros Hl. unfold rfc1071. by destruct (ones_sum (be_words l) 0 ltac:(lia) (be_words_range l Hl)) as [-> _].
Qed.

(** The sum is kept in 32 bits. *)
Lemma finalize_wraps st l : summed st l -> bytes_ok l -> net_checksum_finalize st = Some (65535 - norm (u32 (wsum l))).
Proof.
  intros [Hs Ho] Hl. pose proof (u32_range (wsum l)) as Hb.
  assert (E : (if has_odd_byte st then u32 (sum st + Z.shiftl (odd_byte st) 8) else sum st) = u32 (wsum l)).
  { rewrite wsum_pairs. destruct (odd_tail l) as [a|].
    - destruct Ho as [-> ->]. by rewrite Hs, u32_add_l, Z.shiftl_mul_pow2 by lia.
    - by rewrite Ho, Hs, Z.add_0_r. }
  unfold net_checksum_finalize. rewrite E, fold_sum_spec by lia. cbn [mbind option_bind]. f_equal.
  pose proof (norm_range (u32 (wsum l)) ltac:(lia)). unfold u16. rewrite <- (Z.mod_small (65535 - norm _) (2 ^ 16)) by lia.
  replace (Z.lnot (norm (u32 (wsum l)))) with (65535 - norm (u32 (wsum l)) + (-1) * 2 ^ 16) by (unfold Z.lnot; lia).
  by rewrite Z.mod_add by lia.
Qed.

Lemma finalize_spec st l :
  summed st l -> bytes_ok l -> zlen l <= 2 ^ 17 -> net_checksum_finalize st = Some (rfc1071 l).
Proof.
  intros Hst Hl Hn. pose proof (wsum_bound l Hl) as Hb. rewrite (finalize_wraps st l Hst Hl), rfc1071_norm by done.
  rewrite u32_small; [done|]. assert ((zlen l + 1) / 2 <= 2 ^ 16); [|lia]. zdiv.
Qed.

Lemma rfc1071_range l : bytes_ok l -> is_u16 (rfc1071 l).
Proof.
  intros Hl. rewrite rfc1071_norm by done. pose proof (wsum_bound l Hl).
  pose proof (norm_range (wsum l) ltac:(lia)). lia.
Qed.

Lemma compute_spec l : bytes_ok l -> zlen l <= 2 ^ 17 -> net_checksum_compute (Some l) (zlen l) = Some (rfc1071 l).
Proof.
  intros Hl Hn. unfold net_checksum_compute. destruct (checksum_update_spec _ [] l summed_init) as (st & -> & Hst); [done..|].
  cbn [mbind option_bind]. by apply finalize_spec.
Qed.

(** The bound is sharp up to one word: on a message of 2^17 + 4 bytes the sum can
    wrap, and the result is not the RFC 1071 checksum. *)
Theorem net_checksum_overflows :
  let l := replicate (Z.to_nat (2 ^ 17 + 4)) 255 in
  net_checksum_compute (Some l) (zlen l) = Some 1 /\ rfc1071 l = 0.
Proof.
  intros l. assert (Hl : bytes_ok l) by (apply Forall_replicate; lia).
  assert (Ew : wsum l = 65535 * (2 ^ 16 + 2)).
  { assert (H : forall n, wsum (replicate (2 * n) 255) = 65535 * Z.of_nat n).
    { induction n as [|n IH]; [done|]. replace (2 * S n)%nat with (S (S (2 * n))) by lia. cbn [replicate].
      unfold wsum in *. cbn [be_words foldr]. rewrite IH. lia. }
    subst l. replace (Z.to_nat (2 ^ 17 + 4)) with (2 * Z.to_nat (2 ^ 16 + 2))%nat by lia. rewrite H. lia. }
  rewrite rfc1071_norm, Ew by done. split; [|by vm_compute]. unfold net_checksum_compute.
  destruct (checksum_update_spec _ [] l summed_init) as (st & -> & Hst); [done..|].
  cbn [mbind option_bind]. rewrite (finalize_wraps st l Hst Hl), Ew. by vm_compute.
Qed.

(** The receiver accepts a message exactly when its words add up to a multiple of
    65535 that is not zero. *)
Lemma valid_spec l : bytes_ok l -> zlen l <= 2 ^ 17 ->
  net_checksum_is_valid (Some l) (zlen l) = Some (bool_decide (0 < wsum l /\ wsum l mod 65535 = 0)).
Proof.
  intros Hl Hn. unfold net_checksum_is_valid. rewrite compute_spec by done. cbn [mbind option_bind].
  f_equal. apply eq_bool_prop_intro. rewrite Is_true_true, Z.eqb_eq, bool_decide_spec, rfc1071_norm by done.
  pose proof (wsum_bound l Hl). pose proof (norm_range (wsum l) ltac:(lia)).
  destruct (Z.eq_dec (wsum l) 0) as [E|E].
  - rewrite E. cbn. split; lia.
  - rewrite <- norm_full by lia. split; [|lia]. split; lia.
Qed.

(** Big-endian words in a message. *)
Definition be16 (v : Z) : list Z := [u8 (Z.shiftr v 8); u8 v].

Lemma be16_bytes v : bytes_ok (be16 v).
Proof. repeat constructor; apply u8_range. Qed.

Lemma wsum_even l d : odd_tail l = None -> wsum (l ++ d) = wsum l + wsum d.
Proof. intros E. rewrite !wsum_pairs. destruct (pairs_even l d E) as [-> ->]. rewrite E. cbn. lia. Qed.

Lemma wsum_be16 v post : is_u16 v -> wsum (be16 v ++ post) = v + wsum post.
Proof.
  intros Hv. unfold wsum. cbn [be16 app be_words foldr]. unfold u8. rewrite Z.shiftr_div_pow2 by lia.
  f_equal. zdiv.
Qed.

(** A message with its checksum in place of a zero word is accepted. *)
Lemma stored_valid pre post :
  odd_tail pre = None -> bytes_ok (pre ++ [0; 0] ++ post) -> zlen (pre ++ [0; 0] ++ post) <= 2 ^ 17 ->
  net_checksum_is_valid (Some (pre ++ be16 (rfc1071 (pre ++ [0; 0] ++ post)) ++ post))
    (zlen (pre ++ [0; 0] ++ post)) = Some true.
Proof.
  intros Hp Hl Hn. pose proof (rfc1071_range _ Hl) as Hc. set (c := rfc1071 _) in *.
  replace (zlen (pre ++ [0; 0] ++ post)) with (zlen (pre ++ be16 c ++ post)) in * by (rewrite !length_app; cbn; lia).
  apply Forall_app in Hl as H'. destruct H' as [Hpre [_ Hpost]%Forall_app].
  rewrite valid_spec; [|by repeat (apply Forall_app_2 || apply be16_bytes)|done].
  f_equal. apply bool_decide_eq_true_2. rewrite wsum_even, wsum_be16 by done.
  assert (Es : wsum (pre ++ [0; 0] ++ post) = wsum pre + wsum post) by (rewrite wsum_even by done; done).
  assert (Ec : c = 65535 - norm (wsum pre + wsum post)) by (unfold c; by rewrite rfc1071_norm, Es).
  pose proof (wsum_bound _ Hpre). pose proof (wsum_bound _ Hpost).
  set (t := wsum pre + wsum post) in *. assert (0 <= t) by lia.
  pose proof (norm_range t ltac:(lia)). pose proof (norm_mod t ltac:(lia)) as Em.
  replace (wsum pre + (c + wsum post)) with (t + c) by lia. split.
  - destruct (Z.eq_dec t 0) as [E|]; [|lia]. rewrite E in *. cbn in Ec. lia.
  - rewrite Ec. replace (t + (65535 - norm t)) with (t - norm t + 1 * 65535) by lia.
    rewrite Z.mod_add, Zminus_mod, Em, Z.sub_diag by lia. done.
Qed.

(** Changing one byte changes the sum by at most 255 words. *)
Lemma wsum_insert l i a b : l !! i = Some a ->
  wsum (<[i := b]> l) = wsum l + (b - a) * (if Nat.even i then 256 else 1).
Proof.
  unfold wsum. revert i. induction l as [|x|x y l IH] using list_pair_ind; intros [|[|i]] H; cbn in H; simplify_eq; cbn.
  1-3: lia. etransitivity; [apply (f_equal (Z.add (x * 256 + y))), (IH i H)|lia].
Qed.

(** C21. However a message of at most 128 KiB is cut into pieces, the streaming
    checksum of the pieces is the RFC 1071 checksum of the whole message: the
    one's-complement sum of its 16-bit words, an odd byte at the end of a piece
    joined with the next piece. *)
Theorem net_checksum_streaming (pieces : list (list Z)) :
  bytes_ok (concat pieces) -> zlen (concat pieces) <= 2 ^ 17 ->
  foldl (fun st d => st ← st; net_checksum_update st (Some d) (zlen d)) (Some net_checksum_init) pieces
    ≫= net_checksum_finalize = Some (rfc1071 (concat pieces)).
Proof.
  assert (Hfeed : forall ps st l, summed st l -> bytes_ok l -> bytes_ok (concat ps) ->
    exists st', foldl (fun st d => st ← st; net_checksum_update st (Some d) (zlen d)) (Some st) ps = Some st' /\
      summed st' (l ++ concat ps)).
  { induction ps as [|d ps IH]; intros st l Hst Hl Hd; cbn; [exists st; by rewrite app_nil_r|].
    cbn in Hd. apply Forall_app in Hd as [Hd Hps]. destruct (checksum_update_spec st l d Hst Hl Hd) as (st' & E & Hst').
    cbn in E. rewrite E. rewrite app_assoc. apply IH; [done|by apply Forall_app|done]. }
  intros Hb Hn. destruct (Hfeed pieces _ [] summed_init) as (st & -> & Hst); [done..|].
  by apply finalize_spec.
Qed.

Lemma net_checksum_streaming_witness :
  foldl (fun st d => st ← st; net_checksum_update st (Some d) (zlen d)) (Some net_checksum_init)
    [[69; 0; 1]; []; [255; 255; 255; 3]; [7]] ≫= net_checksum_finalize = Some (rfc1071 [69; 0; 1; 255; 255; 255; 3; 7]).
Proof. apply (net_checksum_streaming [[69; 0; 1]; []; [255; 255; 255; 3]; [7]]); [|cbn; lia]. repeat constructor; lia. Defined.

(** A message that carries its checksum at an even position is accepted by
    the receiver, and no longer when any one of its bytes has another value. *)
Theorem net_checksum_protects (pre post : list Z) (i : nat) (a b : Z) :
  let zeroed := pre ++ [0; 0] ++ post in
  let sent := pre ++ be16 (rfc1071 zeroed) ++ post in
  Z.of_nat (length pre) mod 2 = 0 -> bytes_ok zeroed -> zlen zeroed <= 2 ^ 17 ->
  sent !! i = Some a -> is_u8 b -> a <> b ->
  net_checksum_compute (Some zeroed) (zlen zeroed) = Some (rfc1071 zeroed) /\
  net_checksum_is_valid (Some sent) (zlen sent) = Some true /\
  net_checksum_is_valid (Some (<[i := b]> sent)) (zlen sent) = Some false.
Proof.
  intros zeroed sent Hp Hz Hn Hi Hb Hab. apply odd_tail_length in Hp.
  assert (El : zlen sent = zlen zeroed) by (unfold sent, zeroed; rewrite !length_app; cbn; lia).
  pose proof (stored_valid pre post Hp Hz Hn) as Hv. fold zeroed in Hv. fold sent in Hv.
  assert (Hs : bytes_ok sent).
  { apply Forall_app in Hz as [Hpre [_ Hpost]%Forall_app]. by repeat (apply Forall_app_2 || apply be16_bytes). }
  split; [by apply compute_spec|]. rewrite El. split; [done|].
  rewrite <- El in Hv, Hn |- *. rewrite valid_spec in Hv by done. injection Hv as Hv. apply bool_decide_eq_true_1 in Hv as [_ Hv].
  pose proof (Forall_lookup_1 _ _ _ _ Hs Hi) as Ha. cbv beta in Ha.
  rewrite <- (length_insert sent i b). rewrite valid_spec; [|by apply Forall_insert|by rewrite length_insert].
  f_equal. apply bool_decide_eq_false_2. intros [_ Hv']. rewrite (wsum_insert sent i a b Hi) in Hv'.
  apply Z.mod_divide in Hv as [q Hq]; [|lia]. apply Z.mod_divide in Hv' as [q' Hq']; [|lia].
  destruct (Nat.even i); lia.
Qed.

Lemma net_checksum_protects_witness :
  let zeroed := [8; 0] ++ [0; 0] ++ [1; 2; 3] in
  let sent := [8; 0] ++ be16 (rfc1071 zeroed) ++ [1; 2; 3] in
  net_checksum_compute (Some zeroed) (zlen zeroed) = Some (rfc1071 zeroed) /\
  net_checksum_is_valid (Some sent) (zlen sent) = Some true /\
  net_checksum_is_valid (Some (<[4%nat := 9]> sent)) (zlen sent) = Some false.
Proof.
  apply (net_checksum_protects [8; 0] [1; 2; 3] 4 1 9); [done| |cbn; lia|done|lia|lia].
  repeat constructor; lia.
Defined.
