(* ===== verification/Net.v ===== *)
(** * Network devices, Ethernet, ARP, IPv4 and ICMP
      (kernel/net/net_device.c, net_ethernet.c, net_arp.c, net_ipv4.c, net_icmp.c)

    The static tables of the five files are one state.  Devices live in a map
    from addresses; entries of a table are named by their index.  The driver's
    transmit callback acts on a world [W]; protocol handlers and the echo
    callback are named by a number, and what they do is a parameter: they may
    call back into the stack, so they act on the whole state. *)

From S2P Require Import Prelude Errno NetTypes.

(** ** Data *)

Abbreviation NET_DEVICE_MAX_COUNT := 4 (only parsing).
Abbreviation NET_DEVICE_NAME_MAX := 15 (only parsing).
Abbreviation NET_ETHERTYPE_IPV4 := 2048 (only parsing).
Abbreviation NET_ETHERTYPE_ARP := 2054 (only parsing).
Abbreviation NET_ARP_CACHE_CAPACITY := 16 (only parsing).
Abbreviation NET_ARP_CACHE_TTL_TICKS := 300 (only parsing).
Abbreviation NET_ARP_REQUEST_RETRY_TICKS := 1 (only parsing).
Abbreviation NET_ARP_PENDING_TTL_TICKS := 5 (only parsing).
Abbreviation NET_ARP_PACKET_LEN := 28 (only parsing).
Abbreviation NET_ARP_HARDWARE_ETHERNET := 1 (only parsing).
Abbreviation NET_ARP_OPERATION_REQUEST := 1 (only parsing).
Abbreviation NET_ARP_OPERATION_REPLY := 2 (only parsing).
Abbreviation NET_IPV4_PROTOCOL_ICMP := 1 (only parsing).
Abbreviation NET_IPV4_DEFAULT_TTL := 64 (only parsing).
Abbreviation NET_IPV4_MAX_ROUTES := 8 (only parsing).
Abbreviation NET_IPV4_MAX_PROTOCOL_HANDLERS := 8 (only parsing).
Abbreviation NET_IPV4_PENDING_CAPACITY := 4 (only parsing).
Abbreviation NET_IPV4_PENDING_TTL_TICKS := 5 (only parsing).
Abbreviation NET_ICMP_ECHO_REPLY := 0 (only parsing).
Abbreviation NET_ICMP_ECHO_REQUEST := 8 (only parsing).
Abbreviation NET_ICMP_ECHO_HEADER_LEN := 8 (only parsing).
Abbreviation NET_ICMP_MAX_PACKET_LEN := 1480 (only parsing).
Abbreviation UINT16_MAX := 65535 (only parsing).

Record net_device_stats := mk_nstats {
  rx_packets : Z; rx_bytes : Z; rx_dropped : Z; rx_errors : Z;
  tx_packets : Z; tx_bytes : Z; tx_errors : Z }.
Definition eta_nstats (s : net_device_stats) : net_device_stats :=
  mk_nstats (rx_packets s) (rx_bytes s) (rx_dropped s) (rx_errors s)
    (tx_packets s) (tx_bytes s) (tx_errors s).
#[export] Instance set_rx_packets : Setter rx_packets.
Proof. mk_setter eta_nstats rx_packets. Defined.
#[export] Instance set_rx_bytes : Setter rx_bytes.
Proof. mk_setter eta_nstats rx_bytes. Defined.
#[export] Instance set_rx_dropped : Setter rx_dropped.
Proof. mk_setter eta_nstats rx_dropped. Defined.
#[export] Instance set_rx_errors : Setter rx_errors.
Proof. mk_setter eta_nstats rx_errors. Defined.
#[export] Instance set_tx_packets : Setter tx_packets.
Proof. mk_setter eta_nstats tx_packets. Defined.
#[export] Instance set_tx_bytes : Setter tx_bytes.
Proof. mk_setter eta_nstats tx_bytes. Defined.
#[export] Instance set_tx_errors : Setter tx_errors.
Proof. mk_setter eta_nstats tx_errors. Defined.

Record net_ipv4_config := mk_config {
  address : net_ipv4_addr; netmask : net_ipv4_addr; gateway : net_ipv4_addr; configured : bool }.
Definition no_config : net_ipv4_config :=
  mk_config net_ipv4_addr_zero net_ipv4_addr_zero net_ipv4_addr_zero false.

(** A transmit callback gets the device, its driver context and the frame. *)
Record net_device (W : Type) := mk_net_device {
  dev_name : list Z; mac_address : net_mac_addr; mtu : Z;
  transmit : option (Z -> Z -> list Z -> M W Z); driver_context : Z;
  ipv4 : net_ipv4_config; dev_stats : net_device_stats; registered : bool }.
Arguments mk_net_device {W}. Arguments dev_name {W}. Arguments mac_address {W}. Arguments mtu {W}.
Arguments transmit {W}. Arguments driver_context {W}. Arguments ipv4 {W}. Arguments dev_stats {W}.
Arguments registered {W}.
Definition eta_net_device {W} (d : net_device W) : net_device W :=
  mk_net_device (dev_name d) (mac_address d) (mtu d) (transmit d) (driver_context d) (ipv4 d)
    (dev_stats d) (registered d).
#[export] Instance set_dev_name {W} : Setter (@dev_name W).
Proof. mk_setter1 (@eta_net_device) (@dev_name W). Defined.
#[export] Instance set_mac_address {W} : Setter (@mac_address W).
Proof. mk_setter1 (@eta_net_device) (@mac_address W). Defined.
#[export] Instance set_mtu {W} : Setter (@mtu W).
Proof. mk_setter1 (@eta_net_device) (@mtu W). Defined.
#[export] Instance set_transmit {W} : Setter (@transmit W).
Proof. mk_setter1 (@eta_net_device) (@transmit W). Defined.
#[export] Instance set_driver_context {W} : Setter (@driver_context W).
Proof. mk_setter1 (@eta_net_device) (@driver_context W). Defined.
#[export] Instance set_ipv4 {W} : Setter (@ipv4 W).
Proof. mk_setter1 (@eta_net_device) (@ipv4 W). Defined.
#[export] Instance set_dev_stats {W} : Setter (@dev_stats W).
Proof. mk_setter1 (@eta_net_device) (@dev_stats W). Defined.
#[export] Instance set_registered {W} : Setter (@registered W).
Proof. mk_setter1 (@eta_net_device) (@registered W). Defined.

Inductive net_arp_entry_state := NET_ARP_ENTRY_EMPTY | NET_ARP_ENTRY_PENDING | NET_ARP_ENTRY_VALID.
#[export] Instance net_arp_entry_state_eq_dec : EqDecision net_arp_entry_state.
Proof. solve_decision. Defined.

Record net_arp_entry := mk_entry {
  e_state : net_arp_entry_state; e_device : Z; protocol_address : net_ipv4_addr;
  hardware_address : net_mac_addr; e_age : Z; last_request_age : Z }.
Definition eta_entry (e : net_arp_entry) : net_arp_entry :=
  mk_entry (e_state e) (e_device e) (protocol_address e) (hardware_address e) (e_age e) (last_request_age e).
#[export] Instance set_e_state : Setter e_state.
Proof. mk_setter eta_entry e_state. Defined.
#[export] Instance set_e_device : Setter e_device.
Proof. mk_setter eta_entry e_device. Defined.
#[export] Instance set_protocol_address : Setter protocol_address.
Proof. mk_setter eta_entry protocol_address. Defined.
#[export] Instance set_hardware_address : Setter hardware_address.
Proof. mk_setter eta_entry hardware_address. Defined.
#[export] Instance set_e_age : Setter e_age.
Proof. mk_setter eta_entry e_age. Defined.
#[export] Instance set_last_request_age : Setter last_request_age.
Proof. mk_setter eta_entry last_request_age. Defined.

Record net_ipv4_route := mk_route {
  network : net_ipv4_addr; r_netmask : net_ipv4_addr; r_gateway : net_ipv4_addr; r_device : Z; metric : Z }.
Record net_ipv4_route_slot := mk_slot { route : net_ipv4_route; r_used : bool }.
Definition eta_slot (r : net_ipv4_route_slot) : net_ipv4_route_slot := mk_slot (route r) (r_used r).
#[export] Instance set_r_used : Setter r_used.
Proof. mk_setter eta_slot r_used. Defined.

(** Protocol handlers: ICMP's, and those of other components by number. *)
Inductive net_ipv4_protocol_fn := net_icmp_input_fn | protocol_fn (f : Z).

Record net_ipv4_handler_slot := mk_handler {
  protocol : Z; handler : net_ipv4_protocol_fn; h_context : Z; h_used : bool }.
Definition eta_handler (h : net_ipv4_handler_slot) : net_ipv4_handler_slot :=
  mk_handler (protocol h) (handler h) (h_context h) (h_used h).
#[export] Instance set_h_used : Setter h_used.
Proof. mk_setter eta_handler h_used. Defined.

Record net_ipv4_pending_packet := mk_pending {
  p_device : Z; next_hop : net_ipv4_addr; packet : list Z; p_length : Z; p_age : Z; p_used : bool }.
Definition eta_pending (p : net_ipv4_pending_packet) : net_ipv4_pending_packet :=
  mk_pending (p_device p) (next_hop p) (packet p) (p_length p) (p_age p) (p_used p).
#[export] Instance set_packet : Setter packet.
Proof. mk_setter eta_pending packet. Defined.
#[export] Instance set_p_age : Setter p_age.
Proof. mk_setter eta_pending p_age. Defined.
#[export] Instance set_p_used : Setter p_used.
Proof. mk_setter eta_pending p_used. Defined.

(** The static variables of the five files, the devices and the world. *)
Record net (W : Type) := mk_net {
  devs : gmap Z (net_device W); net_devices : list Z; net_devices_count : Z; net_default_device : Z;
  net_arp_cache : list net_arp_entry; net_ipv4_routes : list net_ipv4_route_slot;
  net_ipv4_handlers : list net_ipv4_handler_slot; net_ipv4_pending : list net_ipv4_pending_packet;
  net_ipv4_identification : Z; net_icmp_reply_handler : option Z; net_icmp_reply_context : Z;
  wire : W }.
Arguments mk_net {W}. Arguments devs {W}. Arguments net_devices {W}. Arguments net_devices_count {W}.
Arguments net_default_device {W}. Arguments net_arp_cache {W}. Arguments net_ipv4_routes {W}.
Arguments net_ipv4_handlers {W}. Arguments net_ipv4_pending {W}. Arguments net_ipv4_identification {W}.
Arguments net_icmp_reply_handler {W}. Arguments net_icmp_reply_context {W}. Arguments wire {W}.
Definition eta_net {W} (s : net W) : net W :=
  mk_net (devs s) (net_devices s) (net_devices_count s) (net_default_device s) (net_arp_cache s)
    (net_ipv4_routes s) (net_ipv4_handlers s) (net_ipv4_pending s) (net_ipv4_identification s)
    (net_icmp_reply_handler s) (net_icmp_reply_context s) (wire s).
#[export] Instance set_devs {W} : Setter (@devs W).
Proof. mk_setter1 (@eta_net) (@devs W). Defined.
#[export] Instance set_net_devices {W} : Setter (@net_devices W).
Proof. mk_setter1 (@eta_net) (@net_devices W). Defined.
#[export] Instance set_net_devices_count {W} : Setter (@net_devices_count W).
Proof. mk_setter1 (@eta_net) (@net_devices_count W). Defined.
#[export] Instance set_net_default_device {W} : Setter (@net_default_device W).
Proof. mk_setter1 (@eta_net) (@net_default_device W). Defined.
#[export] Instance set_net_arp_cache {W} : Setter (@net_arp_cache W).
Proof. mk_setter1 (@eta_net) (@net_arp_cache W). Defined.
#[export] Instance set_net_ipv4_routes {W} : Setter (@net_ipv4_routes W).
Proof. mk_setter1 (@eta_net) (@net_ipv4_routes W). Defined.
#[export] Instance set_net_ipv4_handlers {W} : Setter (@net_ipv4_handlers W).
Proof. mk_setter1 (@eta_net) (@net_ipv4_handlers W). Defined.
#[export] Instance set_net_ipv4_pending {W} : Setter (@net_ipv4_pending W).
Proof. mk_setter1 (@eta_net) (@net_ipv4_pending W). Defined.
#[export] Instance set_net_ipv4_identification {W} : Setter (@net_ipv4_identification W).
Proof. mk_setter1 (@eta_net) (@net_ipv4_identification W). Defined.
#[export] Instance set_net_icmp_reply_handler {W} : Setter (@net_icmp_reply_handler W).
Proof. mk_setter1 (@eta_net) (@net_icmp_reply_handler W). Defined.
#[export] Instance set_net_icmp_reply_context {W} : Setter (@net_icmp_reply_context W).
Proof. mk_setter1 (@eta_net) (@net_icmp_reply_context W). Defined.
#[export] Instance set_wire {W} : Setter (@wire W).
Proof. mk_setter1 (@eta_net) (@wire W). Defined.

(** ** What the stack is used with

    The protocol handlers other than ICMP's, and the callback for echo replies.  A handler gets the receiving
    device, source, destination, the payload and its context. *)
Class NetEnv (W : Type) := {
  protocol_call : Z -> Z -> net_ipv4_addr -> net_ipv4_addr -> list Z -> Z -> M (net W) Z;
  echo_reply_call : Z -> Z -> net_ipv4_addr -> Z -> Z -> list Z -> Z -> M (net W) unit }.
#[export] Hint Mode NetEnv ! : typeclass_instances.

Section Operations.
Context `{!Garbage} {W : Type} `{!NetEnv W}.
Abbreviation N := (M (net W)).
Implicit Types (device index : Z).

Definition is_null {A} (p : option A) : bool := match p with None => true | _ => false end.

(** The device a pointer names, and its statistics. *)
Definition dev device : N (net_device W) := load devs device id.
Definition stat device (f : net_device_stats -> Z) `{!Setter f} (n : Z) : N unit :=
  st ← load devs device dev_stats; store devs device dev_stats (st <| f := u64 (f st + n) |>).

(** ** net_device.c *)

Fixpoint contiguous_loop (n : nat) (value bit : Z) (saw_zero : bool) : bool :=
  match n with
  | O => true
  | S n' =>
    let set := negb (Z.land value (Z.shiftl 1 (31 - bit)) =? 0) in
    if negb set then contiguous_loop n' value (bit + 1) true
    else if saw_zero then false
    else contiguous_loop n' value (bit + 1) saw_zero
  end.
Definition netmask_is_contiguous (mask : net_ipv4_addr) : bool :=
  contiguous_loop 32 (net_ipv4_addr_to_u32 mask) 0 false.

Fixpoint registry_loop (n : nat) index device : N bool :=
  match n with
  | O => mret false
  | S n' => d ← elem net_devices index; if d =? device then mret true else registry_loop n' (index + 1) device
  end.
Definition device_is_in_registry device : N bool :=
  count ← gets net_devices_count; registry_loop (Z.to_nat count) 0 device.

Definition net_device_registry_reset : N unit :=
  count ← gets net_devices_count;
  for_m (Z.to_nat count) (fun index _ =>
    d ← elem net_devices index;
    when (negb (d =? NULL)) (store devs d registered false);;
    update net_devices index (fun _ => NULL)) 0 tt;;
  modify (fun s => s <| net_devices_count := 0 |>);;
  modify (fun s => s <| net_default_device := NULL |>).

(** [while (name_length <= NET_DEVICE_NAME_MAX && name[name_length] != '\0')]. *)
Fixpoint name_loop (fuel : nat) (name : list Z) (name_length : Z) : option Z :=
  if name_length <=? NET_DEVICE_NAME_MAX then
    match fuel with
    | O => None
    | S fuel' => c ← rd name name_length; if c =? 0 then Some name_length else name_loop fuel' name (name_length + 1)
    end
  else Some name_length.

Definition net_device_register device (name : option (list Z)) (mac : net_mac_addr) (mtu_ : Z)
  (transmit_ : option (Z -> Z -> list Z -> M W Z)) (context : Z) : N Z :=
  match name with
  | None => mret NET_ERR_INVALID
  | Some name =>
    if (device =? NULL) || is_null transmit_ || net_mac_addr_is_zero mac || net_mac_addr_is_multicast mac
       || (mtu_ <? 576) || (NET_ETHERNET_MTU <? mtu_)
    then mret NET_ERR_INVALID
    else
      present ← device_is_in_registry device;
      if (present : bool) then mret NET_ERR_EXISTS
      else
        count ← gets net_devices_count;
        if NET_DEVICE_MAX_COUNT <=? count then mret NET_ERR_NO_BUFFER
        else
          name_length ← of_option (name_loop 16 name 0);
          if (name_length =? 0) || (NET_DEVICE_NAME_MAX <? name_length) then mret NET_ERR_INVALID
          else
            old ← load devs device dev_name;
            copied ← of_option (copy_bytes old 0 name name_length);
            copied ← of_option (wr copied name_length 0);
            store devs device dev_name copied;;
            store devs device mac_address mac;;
            store devs device mtu mtu_;;
            store devs device transmit transmit_;;
            store devs device driver_context context;;
            store devs device ipv4 no_config;;
            store devs device dev_stats (mk_nstats 0 0 0 0 0 0 0);;
            store devs device registered true;;
            update net_devices count (fun _ => device);;
            modify (fun s => s <| net_devices_count := count + 1 |>);;
            default ← gets net_default_device;
            when (default =? NULL) (modify (fun s => s <| net_default_device := device |>));;
            mret NET_OK
  end.

Fixpoint unregister_loop (n : nat) index device : N Z :=
  match n with
  | O => mret NET_ERR_NOT_FOUND
  | S n' =>
    d ← elem net_devices index;
    if d =? device then
      count ← gets net_devices_count;
      for_m (Z.to_nat (count - 1 - index)) (fun move_index _ =>
        next ← elem net_devices (move_index + 1); update net_devices move_index (fun _ => next)) index tt;;
      modify (fun s => s <| net_devices_count := count - 1 |>);;
      update net_devices (count - 1) (fun _ => NULL);;
      store devs device registered false;;
      default ← gets net_default_device;
      when (default =? device)
        (first ← (if negb (count - 1 =? 0) then elem net_devices 0 else mret NULL);
         modify (fun s => s <| net_default_device := first |>));;
      mret NET_OK
    else unregister_loop n' (index + 1) device
  end.
Definition net_device_unregister device : N Z :=
  if device =? NULL then mret NET_ERR_INVALID
  else count ← gets net_devices_count; unregister_loop (Z.to_nat count) 0 device.

Definition net_device_count : N Z := gets net_devices_count.
Definition net_device_at index : N Z :=
  count ← gets net_devices_count; if index <? count then elem net_devices index else mret NULL.
Definition net_device_default : N Z := gets net_default_device.
Definition net_device_set_default device : N Z :=
  if device =? NULL then mret NET_ERR_NO_DEVICE
  else
    present ← device_is_in_registry device;
    if negb present then mret NET_ERR_NO_DEVICE
    else modify (fun s => s <| net_default_device := device |>);; mret NET_OK.

Definition net_device_configure_ipv4 device (address_ netmask_ gateway_ : net_ipv4_addr) : N Z :=
  if device =? NULL then mret NET_ERR_INVALID
  else
    present ← device_is_in_registry device;
    if negb present || negb (net_ipv4_addr_is_unicast address_) || negb (netmask_is_contiguous netmask_)
       || net_ipv4_addr_is_zero netmask_
    then mret NET_ERR_INVALID
    else
      let mask_value := net_ipv4_addr_to_u32 netmask_ in
      let address_value := net_ipv4_addr_to_u32 address_ in
      let host_mask := u32 (Z.lnot mask_value) in
      if (1 <? host_mask) && ((Z.land address_value host_mask =? 0) || (Z.land address_value host_mask =? host_mask))
      then mret NET_ERR_INVALID
      else
        let gateway_value := net_ipv4_addr_to_u32 gateway_ in
        if negb (net_ipv4_addr_is_zero gateway_) &&
           (negb (net_ipv4_addr_is_unicast gateway_) || net_ipv4_addr_equal gateway_ address_
            || negb (net_ipv4_addr_equal (net_ipv4_addr_and address_ netmask_) (net_ipv4_addr_and gateway_ netmask_))
            || ((1 <? host_mask) && ((Z.land gateway_value host_mask =? 0)
                                     || (Z.land gateway_value host_mask =? host_mask))))
        then mret NET_ERR_INVALID
        else store devs device ipv4 (mk_config address_ netmask_ gateway_ true);; mret NET_OK.

Definition net_device_clear_ipv4 device : N unit :=
  if device =? NULL then mret tt else store devs device ipv4 no_config.

Definition net_device_transmit device (frame : option (list Z)) (length : Z) : N Z :=
  if device =? NULL then mret NET_ERR_NO_DEVICE
  else
    d ← dev device;
    match registered d, transmit d with
    | true, Some send =>
      match frame with
      | None => mret NET_ERR_INVALID
      | Some frame =>
        if (length <? NET_ETHERNET_HEADER_LEN) || (NET_ETHERNET_HEADER_LEN + mtu d <? length) then mret NET_ERR_INVALID
        else
          result ← zoom wire (send device (driver_context d) (span frame 0 length));
          if negb (result =? NET_OK) then
            stat device tx_errors 1;; mret (if result <? 0 then result else NET_ERR_IO)
          else stat device tx_packets 1;; stat device tx_bytes length;; mret NET_OK
      end
    | _, _ => mret NET_ERR_NO_DEVICE
    end.

(** ** net_ethernet.c: sending *)

(** The frame and its length, padded with zeros to the least a frame may have. *)
Definition ethernet_frame (destination source : net_mac_addr) (ethertype : Z) (payload : option (list Z))
  (payload_length : Z) : option (list Z * Z) :=
  frame ← copy_bytes (uninitialised NET_ETHERNET_MAX_FRAME_LEN) 0 (mac_bytes destination) NET_ETHERNET_ADDRESS_LEN;
  frame ← copy_bytes frame 6 (mac_bytes source) NET_ETHERNET_ADDRESS_LEN;
  frame ← net_write_be16 frame 12 ethertype;
  frame ← (if negb (payload_length =? 0)
           then p ← payload; copy_bytes frame NET_ETHERNET_HEADER_LEN p payload_length else Some frame);
  let frame_length := NET_ETHERNET_HEADER_LEN + payload_length in
  if frame_length <? NET_ETHERNET_MIN_FRAME_LEN then
    frame ← for_ (Z.to_nat (NET_ETHERNET_MIN_FRAME_LEN - frame_length)) (fun index f => wr f index 0) frame_length frame;
    Some (frame, NET_ETHERNET_MIN_FRAME_LEN)
  else Some (frame, frame_length).

Definition net_ethernet_send device (destination : net_mac_addr) (ethertype : Z) (payload : option (list Z))
  (payload_length : Z) : N Z :=
  if device =? NULL then mret NET_ERR_INVALID
  else
    d ← dev device;
    if negb (registered d) || net_mac_addr_is_zero destination || (ethertype <? 0x600)
       || (is_null payload && negb (payload_length =? 0))
    then mret NET_ERR_INVALID
    else if mtu d <? payload_length then mret NET_ERR_TOO_LARGE
    else
      '(frame, frame_length) ← of_option (ethernet_frame destination (mac_address d) ethertype payload payload_length);
      net_device_transmit device (Some frame) frame_length.

(** ** net_arp.c and net_ipv4.c: the tables *)

Definition saturating_add (value increment : Z) : Z :=
  if UINT32_MAX - value <? increment then UINT32_MAX else value + increment.

Definition entry_is device (a : net_ipv4_addr) (e : net_arp_entry) : bool :=
  negb (bool_decide (e_state e = NET_ARP_ENTRY_EMPTY)) && (e_device e =? device)
  && net_ipv4_addr_equal (protocol_address e) a.

Fixpoint find_from (cache : list net_arp_entry) index device (a : net_ipv4_addr) : option Z :=
  match cache with
  | [] => None
  | e :: cache' => if entry_is device a e then Some index else find_from cache' (index + 1) device a
  end.
Definition find_entry device (a : net_ipv4_addr) : N (option Z) :=
  gets (fun s => find_from (net_arp_cache s) 0 device a).

Fixpoint allocate_from (cache : list net_arp_entry) index (oldest oldest_age : Z) : Z :=
  match cache with
  | [] => oldest
  | e :: cache' =>
    if bool_decide (e_state e = NET_ARP_ENTRY_EMPTY) then index
    else if oldest_age <? e_age e then allocate_from cache' (index + 1) index (e_age e)
    else allocate_from cache' (index + 1) oldest oldest_age
  end.
Definition allocate_entry : N Z :=
  first ← elem net_arp_cache 0;
  gets (fun s => allocate_from (net_arp_cache s) 0 0 (e_age first)).

Definition ipv4_multicast_mac (a : net_ipv4_addr) : net_mac_addr :=
  net_mac_addr_make 1 0 94 (u8 (Z.land (ip1 a) 127)) (ip2 a) (ip3 a).

Definition is_directed_broadcast (d : net_device W) (a : net_ipv4_addr) : bool :=
  if negb (configured (ipv4 d)) then false
  else
    let mask := net_ipv4_addr_to_u32 (netmask (ipv4 d)) in
    if u32 (Z.lnot mask) <=? 1 then false
    else
      let network_ := Z.land (net_ipv4_addr_to_u32 (address (ipv4 d))) mask in
      net_ipv4_addr_to_u32 a =? Z.lor network_ (u32 (Z.lnot mask)).

Definition net_arp_reset : N unit :=
  for_m 16 (fun index _ =>
    update net_arp_cache index (fun e =>
      e <| e_state := NET_ARP_ENTRY_EMPTY |> <| e_device := NULL |> <| e_age := 0 |> <| last_request_age := 0 |>)) 0 tt.

(** [Some] address when the code returns true. *)
Definition net_arp_lookup device (a : net_ipv4_addr) : N (option net_mac_addr) :=
  if device =? NULL then mret None
  else
    d ← dev device;
    if negb (registered d) then mret None
    else if net_ipv4_addr_is_limited_broadcast a || is_directed_broadcast d a
    then mret (Some net_mac_addr_broadcast)
    else if net_ipv4_addr_is_multicast a then mret (Some (ipv4_multicast_mac a))
    else if configured (ipv4 d) && net_ipv4_addr_equal a (address (ipv4 d)) then mret (Some (mac_address d))
    else
      entry ← find_entry device a;
      match entry with
      | None => mret None
      | Some i =>
        e ← elem net_arp_cache i;
        if negb (bool_decide (e_state e = NET_ARP_ENTRY_VALID)) then mret None
        else mret (Some (hardware_address e))
      end.

(** The packet of a request (whose target hardware address is zero) and of a
    reply. *)
Definition arp_packet (operation : Z) (sender : net_mac_addr) (sender_ip : net_ipv4_addr) (target : net_mac_addr)
  (target_ip : net_ipv4_addr) : option (list Z) :=
  p ← net_write_be16 (uninitialised NET_ARP_PACKET_LEN) 0 NET_ARP_HARDWARE_ETHERNET;
  p ← net_write_be16 p 2 NET_ETHERTYPE_IPV4;
  p ← wr p 4 NET_ETHERNET_ADDRESS_LEN;
  p ← wr p 5 NET_IPV4_ADDRESS_LEN;
  p ← net_write_be16 p 6 operation;
  p ← copy_bytes p 8 (mac_bytes sender) NET_ETHERNET_ADDRESS_LEN;
  p ← copy_bytes p 14 (ip_bytes sender_ip) NET_IPV4_ADDRESS_LEN;
  p ← copy_bytes p 18 (mac_bytes target) NET_ETHERNET_ADDRESS_LEN;
  copy_bytes p 24 (ip_bytes target_ip) NET_IPV4_ADDRESS_LEN.

Definition net_arp_request device (a : net_ipv4_addr) : N Z :=
  if device =? NULL then mret NET_ERR_INVALID
  else
    d ← dev device;
    if negb (registered d) || negb (configured (ipv4 d)) || negb (net_ipv4_addr_is_unicast a)
       || is_directed_broadcast d a
    then mret NET_ERR_INVALID
    else
      p ← of_option (arp_packet NET_ARP_OPERATION_REQUEST (mac_address d) (address (ipv4 d)) net_mac_addr_zero a);
      net_ethernet_send device net_mac_addr_broadcast NET_ETHERTYPE_ARP (Some p) NET_ARP_PACKET_LEN.

Definition net_arp_tick (elapsed_ticks : Z) : N unit :=
  for_m 16 (fun index _ =>
    e ← elem net_arp_cache index;
    if bool_decide (e_state e = NET_ARP_ENTRY_EMPTY) then mret tt
    else
      let age := saturating_add (e_age e) elapsed_ticks in
      update net_arp_cache index (fun e => e <| e_age := age |>);;
      if (bool_decide (e_state e = NET_ARP_ENTRY_VALID) && (NET_ARP_CACHE_TTL_TICKS <=? age))
         || (bool_decide (e_state e = NET_ARP_ENTRY_PENDING) && (NET_ARP_PENDING_TTL_TICKS <=? age))
      then update net_arp_cache index (fun e => e <| e_state := NET_ARP_ENTRY_EMPTY |> <| e_device := NULL |>)
      else if bool_decide (e_state e = NET_ARP_ENTRY_PENDING)
              && (NET_ARP_REQUEST_RETRY_TICKS <=? u32 (age - last_request_age e))
      then
        result ← net_arp_request (e_device e) (protocol_address e);
        when ((result =? NET_OK) || (result =? NET_ERR_AGAIN))
          (update net_arp_cache index (fun e => e <| last_request_age := e_age e |>))
      else mret tt) 0 tt.

(** The result and, with [NET_OK], the address. *)
Definition net_arp_resolve device (a : net_ipv4_addr) : N (Z * option net_mac_addr) :=
  if device =? NULL then mret (NET_ERR_INVALID, None)
  else
    d ← dev device;
    if negb (registered d) then mret (NET_ERR_INVALID, None)
    else
      found ← net_arp_lookup device a;
      match found with
      | Some mac => mret (NET_OK, Some mac)
      | None =>
        if negb (configured (ipv4 d)) || net_ipv4_addr_is_zero a then mret (NET_ERR_INVALID, None)
        else
          entry ← find_entry device a;
          recent ← match entry with
                   | None => mret false
                   | Some i =>
                     e ← elem net_arp_cache i;
                     mret (bool_decide (e_state e = NET_ARP_ENTRY_PENDING)
                           && (u32 (e_age e - last_request_age e) <? NET_ARP_REQUEST_RETRY_TICKS))
                   end;
          if (recent : bool) then mret (NET_ERR_AGAIN, None)
          else
            i ← match entry with None => allocate_entry | Some i => mret i end;
            update net_arp_cache i (fun e =>
              e <| e_state := NET_ARP_ENTRY_PENDING |> <| e_device := device |> <| protocol_address := a |>
                <| e_age := 0 |> <| last_request_age := 0 |>);;
            result ← net_arp_request device a;
            if negb (result =? NET_OK) then
              if result =? NET_ERR_AGAIN then mret (NET_ERR_AGAIN, None)
              else
                update net_arp_cache i (fun e => e <| e_state := NET_ARP_ENTRY_EMPTY |> <| e_device := NULL |>);;
                mret (result, None)
            else mret (NET_ERR_AGAIN, None)
      end.

(** Sends what waits for the address. *)
Definition net_ipv4_notify_arp_resolved device (a : net_ipv4_addr) : N unit :=
  if device =? NULL then mret tt
  else
    found ← net_arp_lookup device a;
    match found with
    | None => mret tt
    | Some destination =>
      for_m 4 (fun index _ =>
        p ← elem net_ipv4_pending index;
        when (p_used p && (p_device p =? device) && net_ipv4_addr_equal (next_hop p) a)
          (net_ethernet_send device destination NET_ETHERTYPE_IPV4 (Some (packet p)) (p_length p);;
           update net_ipv4_pending index (fun p => p <| p_used := false |>))) 0 tt
    end.

Definition cache_protocol_address device (a : net_ipv4_addr) (mac : net_mac_addr) : N unit :=
  if negb (net_ipv4_addr_is_unicast a) || net_mac_addr_is_zero mac || net_mac_addr_is_multicast mac then mret tt
  else
    entry ← find_entry device a;
    i ← match entry with None => allocate_entry | Some i => mret i end;
    update net_arp_cache i (fun _ => mk_entry NET_ARP_ENTRY_VALID device a mac 0 0);;
    net_ipv4_notify_arp_resolved device a.

Definition net_arp_input device (ethernet_source : net_mac_addr) (packet_ : option (list Z)) (packet_length : Z) : N Z :=
  match packet_ with
  | None => mret NET_ERR_INVALID
  | Some p =>
    if (device =? NULL) || (packet_length <? NET_ARP_PACKET_LEN) then mret NET_ERR_INVALID
    else
      d ← dev device;
      if negb (registered d) || negb (configured (ipv4 d)) then mret NET_ERR_INVALID
      else
        hardware ← of_option (net_read_be16 p 0);
        proto ← of_option (net_read_be16 p 2);
        hlen ← of_option (rd p 4);
        plen ← of_option (rd p 5);
        if negb (hardware =? NET_ARP_HARDWARE_ETHERNET) || negb (proto =? NET_ETHERTYPE_IPV4)
           || negb (hlen =? NET_ETHERNET_ADDRESS_LEN) || negb (plen =? NET_IPV4_ADDRESS_LEN)
        then mret NET_ERR_NOT_SUPPORTED
        else
          operation ← of_option (net_read_be16 p 6);
          if negb (operation =? NET_ARP_OPERATION_REQUEST) && negb (operation =? NET_ARP_OPERATION_REPLY)
          then mret NET_ERR_NOT_SUPPORTED
          else
            sender_hardware ← of_option (mac_at p 8);
            target_hardware ← of_option (mac_at p 18);
            sender_protocol ← of_option (ip_at p 14);
            target_protocol ← of_option (ip_at p 24);
            if negb (net_mac_addr_equal sender_hardware ethernet_source)
               || net_mac_addr_is_zero sender_hardware || net_mac_addr_is_multicast sender_hardware
               || (negb (net_ipv4_addr_is_zero sender_protocol) && negb (net_ipv4_addr_is_unicast sender_protocol))
               || net_ipv4_addr_equal sender_protocol (address (ipv4 d))
               || negb (net_ipv4_addr_equal target_protocol (address (ipv4 d)))
            then mret NET_ERR_INVALID
            else if operation =? NET_ARP_OPERATION_REPLY then
              known ← find_entry device sender_protocol;
              if negb (net_mac_addr_equal target_hardware (mac_address d)) || net_ipv4_addr_is_zero sender_protocol
                 || is_null known
              then mret NET_ERR_INVALID
              else cache_protocol_address device sender_protocol sender_hardware;; mret NET_OK
            else
              when (negb (net_ipv4_addr_is_zero sender_protocol))
                (cache_protocol_address device sender_protocol sender_hardware);;
              reply ← of_option (arp_packet NET_ARP_OPERATION_REPLY (mac_address d) (address (ipv4 d))
                                   sender_hardware sender_protocol);
              net_ethernet_send device sender_hardware NET_ETHERTYPE_ARP (Some reply) NET_ARP_PACKET_LEN
  end.

(** ** net_ipv4.c: routes *)

(** [None] for a mask that is not contiguous. *)
Fixpoint prefix_loop (n : nat) (mask bit : Z) (saw_zero : bool) (prefix : Z) : option Z :=
  match n with
  | O => Some prefix
  | S n' =>
    let set := negb (Z.land mask (Z.shiftl 1 (31 - bit)) =? 0) in
    if set then if saw_zero then None else prefix_loop n' mask (bit + 1) saw_zero (u8 (prefix + 1))
    else prefix_loop n' mask (bit + 1) true prefix
  end.
Definition netmask_prefix_length (mask : net_ipv4_addr) : option Z :=
  prefix_loop 32 (net_ipv4_addr_to_u32 mask) 0 false 0.

Definition route_matches (r : net_ipv4_route) (destination : net_ipv4_addr) : bool :=
  net_ipv4_addr_equal (net_ipv4_addr_and destination (r_netmask r)) (network r).

Definition address_is_directed_broadcast (d : net_device W) (a : net_ipv4_addr) : bool :=
  if negb (configured (ipv4 d)) then false
  else
    let mask := net_ipv4_addr_to_u32 (netmask (ipv4 d)) in
    if u32 (Z.lnot mask) <=? 1 then false
    else
      let network_ := Z.land (net_ipv4_addr_to_u32 (address (ipv4 d))) mask in
      let broadcast := Z.lor network_ (u32 (Z.lnot mask)) in
      net_ipv4_addr_to_u32 a =? broadcast.

(** The loop of [next_hop_for_device] over the routes of the device [d] at
    [device]; a route of another device is not looked at. *)
Fixpoint next_hop_loop device (d : net_device W) (destination : net_ipv4_addr) (slots : list net_ipv4_route_slot)
  (best : option net_ipv4_route) (best_prefix : Z) (directly_connected : bool)
  : option net_ipv4_route * bool :=
  match slots with
  | [] => (best, directly_connected)
  | slot :: slots' =>
    let r := route slot in
    match netmask_prefix_length (r_netmask r) with
    | Some prefix =>
      if negb (r_used slot) || negb (r_device r =? device) || negb (registered d) || negb (route_matches r destination)
      then next_hop_loop device d destination slots' best best_prefix directly_connected
      else if (negb directly_connected && is_null best) || (best_prefix <? prefix)
              || (negb directly_connected && (prefix =? best_prefix)
                  && match best with Some b => metric r <? metric b | None => false end)
      then next_hop_loop device d destination slots' (Some r) prefix false
      else next_hop_loop device d destination slots' best best_prefix directly_connected
    | None => next_hop_loop device d destination slots' best best_prefix directly_connected
    end
  end.

(** Whether the destination is on the network the device is configured for. *)
Definition on_link (d : net_device W) (destination : net_ipv4_addr) : bool :=
  configured (ipv4 d) &&
  net_ipv4_addr_equal (net_ipv4_addr_and destination (netmask (ipv4 d)))
    (net_ipv4_addr_and (address (ipv4 d)) (netmask (ipv4 d))).

Definition next_hop_for_device device (destination : net_ipv4_addr) : N (Z * option net_ipv4_addr) :=
  if device =? NULL then mret (NET_ERR_INVALID, None)
  else if net_ipv4_addr_is_limited_broadcast destination || net_ipv4_addr_is_multicast destination
  then mret (NET_OK, Some destination)
  else
    d ← dev device;
    let connected := on_link d destination in
    let best_prefix := if connected then default 0 (netmask_prefix_length (netmask (ipv4 d))) else 0 in
    slots ← gets net_ipv4_routes;
    match next_hop_loop device d destination slots None best_prefix connected with
    | (_, true) => mret (NET_OK, Some destination)
    | (Some best, false) =>
      mret (NET_OK, Some (if net_ipv4_addr_is_zero (r_gateway best) then destination else r_gateway best))
    | (None, false) =>
      if negb (configured (ipv4 d)) then mret (NET_ERR_NO_ROUTE, None)
      else if negb (net_ipv4_addr_is_zero (gateway (ipv4 d))) then mret (NET_OK, Some (gateway (ipv4 d)))
      else mret (NET_ERR_NO_ROUTE, None)
    end.

Definition slot_is device (network_ netmask_ : net_ipv4_addr) (slot : net_ipv4_route_slot) : bool :=
  r_used slot && (r_device (route slot) =? device) && net_ipv4_addr_equal (network (route slot)) network_
  && net_ipv4_addr_equal (r_netmask (route slot)) netmask_.

(** The first position at which a scan of a table stops. *)
Fixpoint scan {A} (p : A -> bool) (l : list A) index : option Z :=
  match l with
  | [] => None
  | x :: l' => if p x then Some index else scan p l' (index + 1)
  end.

Definition net_ipv4_route_add (network_ netmask_ gateway_ : net_ipv4_addr) device (metric_ : Z) : N Z :=
  if device =? NULL then mret NET_ERR_INVALID
  else
    d ← dev device;
    if negb (registered d) || is_null (netmask_prefix_length netmask_)
       || (negb (net_ipv4_addr_is_zero gateway_) && negb (net_ipv4_addr_is_unicast gateway_))
    then mret NET_ERR_INVALID
    else if negb (net_ipv4_addr_is_zero gateway_) && negb (on_link d gateway_) then mret NET_ERR_NO_ROUTE
    else
      let canonical_network := net_ipv4_addr_and network_ netmask_ in
      slots ← gets net_ipv4_routes;
      if is_null (scan (slot_is device canonical_network netmask_) slots 0) then
        match scan (fun slot => negb (r_used slot)) slots 0 with
        | Some index =>
          update net_ipv4_routes index (fun _ =>
            mk_slot (mk_route canonical_network netmask_ gateway_ device metric_) true);;
          mret NET_OK
        | None => mret NET_ERR_NO_BUFFER
        end
      else mret NET_ERR_EXISTS.

Definition net_ipv4_route_remove (network_ netmask_ : net_ipv4_addr) device : N Z :=
  let canonical_network := net_ipv4_addr_and network_ netmask_ in
  if (device =? NULL) || is_null (netmask_prefix_length netmask_) then mret NET_ERR_INVALID
  else
    slots ← gets net_ipv4_routes;
    match scan (slot_is device canonical_network netmask_) slots 0 with
    | Some index => update net_ipv4_routes index (fun slot => slot <| r_used := false |>);; mret NET_OK
    | None => mret NET_ERR_NOT_FOUND
    end.

(** The loop over the table of routes; [best] with its prefix length. *)
Fixpoint route_loop (slots : list net_ipv4_route_slot) (destination : net_ipv4_addr)
  (best : option (net_ipv4_route * Z)) : N (option (net_ipv4_route * Z)) :=
  match slots with
  | [] => mret best
  | slot :: slots' =>
    let candidate := route slot in
    if negb (r_used slot) || (r_device candidate =? NULL) then route_loop slots' destination best
    else
      d ← dev (r_device candidate);
      match netmask_prefix_length (r_netmask candidate) with
      | Some prefix =>
        if negb (registered d) || negb (route_matches candidate destination) then route_loop slots' destination best
        else if match best with
                | None => true
                | Some (b, best_prefix) => (best_prefix <? prefix) || ((prefix =? best_prefix) && (metric candidate <? metric b))
                end
        then route_loop slots' destination (Some (candidate, prefix))
        else route_loop slots' destination best
      | None => route_loop slots' destination best
      end
  end.

(** The result and, with [NET_OK], the route. *)
Definition net_ipv4_route_lookup (destination : net_ipv4_addr) : N (Z * option net_ipv4_route) :=
  if negb (net_ipv4_addr_is_unicast destination) && negb (net_ipv4_addr_is_multicast destination)
     && negb (net_ipv4_addr_is_limited_broadcast destination)
  then mret (NET_ERR_INVALID, None)
  else if net_ipv4_addr_is_limited_broadcast destination || net_ipv4_addr_is_multicast destination then
    device ← net_device_default;
    if device =? NULL then mret (NET_ERR_NO_DEVICE, None)
    else mret (NET_OK, Some (mk_route net_ipv4_addr_zero net_ipv4_addr_zero net_ipv4_addr_zero device 0))
  else
    slots ← gets net_ipv4_routes;
    best ← route_loop slots destination None;
    count ← net_device_count;
    best ← for_m (Z.to_nat count) (fun index best =>
      device ← net_device_at index;
      if device =? NULL then mret best
      else
        d ← dev device;
        if on_link d destination then
          let prefix := default 0 (netmask_prefix_length (netmask (ipv4 d))) in
          if match best with None => true | Some (_, best_prefix) => best_prefix <=? prefix end
          then mret (Some (mk_route (net_ipv4_addr_and (address (ipv4 d)) (netmask (ipv4 d))) (netmask (ipv4 d))
                             net_ipv4_addr_zero device 0, prefix))
          else mret best
        else mret best) 0 best;
    match best with
    | Some (b, _) => mret (NET_OK, Some b)
    | None =>
      device ← net_device_default;
      if device =? NULL then mret (NET_ERR_NO_ROUTE, None)
      else
        d ← dev device;
        if configured (ipv4 d) && negb (net_ipv4_addr_is_zero (gateway (ipv4 d)))
        then mret (NET_OK, Some (mk_route net_ipv4_addr_zero net_ipv4_addr_zero (gateway (ipv4 d)) device UINT16_MAX))
        else mret (NET_ERR_NO_ROUTE, None)
    end.

(** ** net_ipv4.c: handlers, sending and waiting packets *)

Definition net_ipv4_register_protocol (protocol_ : Z) (handler_ : option net_ipv4_protocol_fn) (context : Z) : N Z :=
  match handler_ with
  | None => mret NET_ERR_INVALID
  | Some handler_ =>
    if protocol_ =? 0 then mret NET_ERR_INVALID
    else
      slots ← gets net_ipv4_handlers;
      if is_null (scan (fun h => h_used h && (protocol h =? protocol_)) slots 0) then
        match scan (fun h => negb (h_used h)) slots 0 with
        | Some index => update net_ipv4_handlers index (fun _ => mk_handler protocol_ handler_ context true);; mret NET_OK
        | None => mret NET_ERR_NO_BUFFER
        end
      else mret NET_ERR_EXISTS
  end.

Definition net_ipv4_unregister_protocol (protocol_ : Z) : N Z :=
  slots ← gets net_ipv4_handlers;
  match scan (fun h => h_used h && (protocol h =? protocol_)) slots 0 with
  | Some index => update net_ipv4_handlers index (fun h => h <| h_used := false |>);; mret NET_OK
  | None => mret NET_ERR_NOT_FOUND
  end.

Definition queue_pending_packet device (next_hop_ : net_ipv4_addr) (packet_ : list Z) (length : Z) : N Z :=
  slots ← gets net_ipv4_pending;
  match scan (fun p => negb (p_used p)) slots 0 with
  | Some index =>
    old ← elem net_ipv4_pending index;
    copied ← of_option (copy_bytes (packet old) 0 packet_ length);
    update net_ipv4_pending index (fun _ => mk_pending device next_hop_ copied length 0 true);;
    mret NET_OK
  | None => mret NET_ERR_NO_BUFFER
  end.

Definition net_ipv4_reset : N unit :=
  for_m 8 (fun index _ => update net_ipv4_routes index (fun r => r <| r_used := false |>)) 0 tt;;
  for_m 8 (fun index _ => update net_ipv4_handlers index (fun h => h <| h_used := false |>)) 0 tt;;
  for_m 4 (fun index _ => update net_ipv4_pending index (fun p => p <| p_used := false |>)) 0 tt;;
  modify (fun s => s <| net_ipv4_identification := 1 |>).

Definition net_ipv4_tick (elapsed_ticks : Z) : N unit :=
  for_m 4 (fun index _ =>
    p ← elem net_ipv4_pending index;
    if negb (p_used p) then mret tt
    else
      found ← net_arp_lookup (p_device p) (next_hop p);
      match found with
      | Some destination =>
        net_ethernet_send (p_device p) destination NET_ETHERTYPE_IPV4 (Some (packet p)) (p_length p);;
        update net_ipv4_pending index (fun p => p <| p_used := false |>)
      | None =>
        let age := saturating_add (p_age p) elapsed_ticks in
        update net_ipv4_pending index (fun p => p <| p_age := age |>);;
        when (NET_IPV4_PENDING_TTL_TICKS <=? age) (update net_ipv4_pending index (fun p => p <| p_used := false |>))
      end) 0 tt.

(** The header without its checksum. *)
Definition ipv4_header (p : list Z) (total_length identification protocol_ : Z) (source destination : net_ipv4_addr)
  : option (list Z) :=
  p ← wr p 0 0x45;
  p ← wr p 1 0;
  p ← net_write_be16 p 2 total_length;
  p ← net_write_be16 p 4 identification;
  p ← net_write_be16 p 6 0x4000;
  p ← wr p 8 NET_IPV4_DEFAULT_TTL;
  p ← wr p 9 protocol_;
  p ← net_write_be16 p 10 0;
  p ← copy_bytes p 12 (ip_bytes source) NET_IPV4_ADDRESS_LEN;
  copy_bytes p 16 (ip_bytes destination) NET_IPV4_ADDRESS_LEN.

(** The datagram in its array of [NET_ETHERNET_MTU] bytes. *)
Definition ipv4_packet (identification protocol_ : Z) (source destination : net_ipv4_addr) (payload : option (list Z))
  (payload_length : Z) : option (list Z) :=
  p ← ipv4_header (uninitialised NET_ETHERNET_MTU) (u16 (NET_IPV4_MIN_HEADER_LEN + payload_length)) identification
        protocol_ source destination;
  checksum ← net_checksum_compute (Some (span p 0 NET_IPV4_MIN_HEADER_LEN)) NET_IPV4_MIN_HEADER_LEN;
  p ← net_write_be16 p 10 checksum;
  if negb (payload_length =? 0)
  then d ← payload; copy_bytes p NET_IPV4_MIN_HEADER_LEN d payload_length else Some p.

(** The source address to use, or the error. *)
Definition source_for (d : net_device W) (source destination : net_ipv4_addr) : Z + net_ipv4_addr :=
  if configured (ipv4 d) then
    if net_ipv4_addr_is_zero source then inr (address (ipv4 d))
    else if negb (net_ipv4_addr_equal source (address (ipv4 d))) then inl NET_ERR_INVALID else inr source
  else if negb (net_ipv4_addr_is_zero source) || negb (net_ipv4_addr_is_limited_broadcast destination)
  then inl NET_ERR_NO_ROUTE else inr source.

Definition net_ipv4_send_on device (source destination : net_ipv4_addr) (protocol_ : Z) (payload : option (list Z))
  (payload_length : Z) : N Z :=
  if device =? NULL then mret NET_ERR_INVALID
  else
    d ← dev device;
    if negb (registered d) || (protocol_ =? 0) || (is_null payload && negb (payload_length =? 0))
       || (negb (net_ipv4_addr_is_unicast destination) && negb (net_ipv4_addr_is_multicast destination)
           && negb (net_ipv4_addr_is_limited_broadcast destination))
    then mret NET_ERR_INVALID
    else if (UINT16_MAX - NET_IPV4_MIN_HEADER_LEN <? payload_length)
            || (mtu d <? payload_length + NET_IPV4_MIN_HEADER_LEN)
    then mret NET_ERR_TOO_LARGE
    else
      match source_for d source destination with
      | inl error => mret error
      | inr source =>
        if negb (net_ipv4_addr_is_zero source) && negb (net_ipv4_addr_is_unicast source) then mret NET_ERR_INVALID
        else
          '(result, hop) ← next_hop_for_device device destination;
          match hop with
          | None => mret result
          | Some hop =>
            identification ← gets net_ipv4_identification;
            modify (fun s => s <| net_ipv4_identification := u16 (identification + 1) |>);;
            p ← of_option (ipv4_packet identification protocol_ source destination payload payload_length);
            '(result, mac) ← net_arp_resolve device hop;
            match mac with
            | Some mac =>
              net_ethernet_send device mac NET_ETHERTYPE_IPV4 (Some p) (NET_IPV4_MIN_HEADER_LEN + payload_length)
            | None =>
              if result =? NET_ERR_AGAIN
              then queue_pending_packet device hop p (NET_IPV4_MIN_HEADER_LEN + payload_length)
              else mret result
            end
          end
      end.

Definition net_ipv4_send (source destination : net_ipv4_addr) (protocol_ : Z) (payload : option (list Z))
  (payload_length : Z) : N Z :=
  '(result, r) ← net_ipv4_route_lookup destination;
  match r with
  | None => mret result
  | Some r =>
    d ← dev (r_device r);
    let source := if net_ipv4_addr_is_zero source && configured (ipv4 d) then address (ipv4 d) else source in
    net_ipv4_send_on (r_device r) source destination protocol_ payload payload_length
  end.

(** ** net_icmp.c *)

Definition net_icmp_init : N Z :=
  unregister_result ← net_ipv4_unregister_protocol NET_IPV4_PROTOCOL_ICMP;
  if negb (unregister_result =? NET_OK) && negb (unregister_result =? NET_ERR_NOT_FOUND) then mret unregister_result
  else
    modify (fun s => s <| net_icmp_reply_handler := None |>);;
    modify (fun s => s <| net_icmp_reply_context := NULL |>);;
    net_ipv4_register_protocol NET_IPV4_PROTOCOL_ICMP (Some net_icmp_input_fn) NULL.

Definition net_icmp_set_echo_reply_handler (handler_ : option Z) (context : Z) : N unit :=
  modify (fun s => s <| net_icmp_reply_handler := handler_ |>);;
  modify (fun s => s <| net_icmp_reply_context := context |>).

(** The header without its checksum. *)
Definition echo_header (p : list Z) (identifier sequence : Z) : option (list Z) :=
  p ← wr p 0 NET_ICMP_ECHO_REQUEST;
  p ← wr p 1 0;
  p ← net_write_be16 p 2 0;
  p ← net_write_be16 p 4 identifier;
  net_write_be16 p 6 sequence.

Definition echo_packet (identifier sequence : Z) (payload : option (list Z)) (payload_length : Z) : option (list Z) :=
  p ← echo_header (uninitialised NET_ICMP_MAX_PACKET_LEN) identifier sequence;
  p ← (if negb (payload_length =? 0)
       then d ← payload; copy_bytes p NET_ICMP_ECHO_HEADER_LEN d payload_length else Some p);
  checksum ← net_checksum_compute (Some (span p 0 (NET_ICMP_ECHO_HEADER_LEN + payload_length)))
               (NET_ICMP_ECHO_HEADER_LEN + payload_length);
  net_write_be16 p 2 checksum.

Definition net_icmp_send_echo_request (source destination : net_ipv4_addr) (identifier sequence : Z)
  (payload : option (list Z)) (payload_length : Z) : N Z :=
  if (is_null payload && negb (payload_length =? 0)) || net_ipv4_addr_is_zero destination
     || net_ipv4_addr_is_multicast destination || net_ipv4_addr_is_limited_broadcast destination
  then mret NET_ERR_INVALID
  else if NET_ICMP_MAX_PACKET_LEN - NET_ICMP_ECHO_HEADER_LEN <? payload_length then mret NET_ERR_TOO_LARGE
  else
    p ← of_option (echo_packet identifier sequence payload payload_length);
    net_ipv4_send source destination NET_IPV4_PROTOCOL_ICMP (Some p) (NET_ICMP_ECHO_HEADER_LEN + payload_length).

Definition echo_reply (packet_ : list Z) (packet_length : Z) : option (list Z) :=
  r ← copy_bytes (uninitialised NET_ICMP_MAX_PACKET_LEN) 0 packet_ packet_length;
  r ← wr r 0 NET_ICMP_ECHO_REPLY;
  r ← net_write_be16 r 2 0;
  checksum ← net_checksum_compute (Some (span r 0 packet_length)) packet_length;
  net_write_be16 r 2 checksum.

Definition net_icmp_input device (source destination : net_ipv4_addr) (packet_ : option (list Z)) (packet_length : Z)
  : N Z :=
  match packet_ with
  | None => mret NET_ERR_INVALID
  | Some p =>
    if (device =? NULL) || (packet_length <? 4) || (NET_ICMP_MAX_PACKET_LEN <? packet_length) then mret NET_ERR_INVALID
    else
      valid ← of_option (net_checksum_is_valid (Some p) packet_length);
      if negb valid then mret NET_ERR_INVALID
      else
        type ← of_option (rd p 0);
        if negb (type =? NET_ICMP_ECHO_REQUEST) && negb (type =? NET_ICMP_ECHO_REPLY) then mret NET_OK
        else
          code ← of_option (rd p 1);
          if negb (code =? 0) || (packet_length <? NET_ICMP_ECHO_HEADER_LEN) then mret NET_ERR_INVALID
          else
            identifier ← of_option (net_read_be16 p 4);
            sequence ← of_option (net_read_be16 p 6);
            d ← dev device;
            if negb (configured (ipv4 d)) || negb (net_ipv4_addr_equal destination (address (ipv4 d))) then mret NET_OK
            else if type =? NET_ICMP_ECHO_REPLY then
              h ← gets net_icmp_reply_handler;
              context ← gets net_icmp_reply_context;
              match h with
              | Some h => echo_reply_call h device source identifier sequence
                            (span p NET_ICMP_ECHO_HEADER_LEN (packet_length - NET_ICMP_ECHO_HEADER_LEN)) context
              | None => mret tt
              end;;
              mret NET_OK
            else
              reply ← of_option (echo_reply p packet_length);
              net_ipv4_send_on device destination source NET_IPV4_PROTOCOL_ICMP (Some reply) packet_length
  end.

(** ** Receiving *)

Definition call_handler (h : net_ipv4_handler_slot) device (source destination : net_ipv4_addr) (payload : list Z)
  (payload_length : Z) : N Z :=
  match handler h with
  | net_icmp_input_fn => net_icmp_input device source destination (Some payload) payload_length
  | protocol_fn f => protocol_call f device source destination payload (h_context h)
  end.

Definition net_ipv4_input device (ethernet_source : net_mac_addr) (packet_ : option (list Z)) (packet_length : Z) : N Z :=
  match packet_ with
  | None => mret NET_ERR_INVALID
  | Some p =>
    if device =? NULL then mret NET_ERR_INVALID
    else
      d ← dev device;
      if negb (registered d) || (packet_length <? NET_IPV4_MIN_HEADER_LEN) || (mtu d <? packet_length)
         || net_mac_addr_is_zero ethernet_source || net_mac_addr_is_multicast ethernet_source
      then mret NET_ERR_INVALID
      else
        version ← of_option (rd p 0);
        if negb (Z.shiftr version 4 =? 4) || (Z.land version 15 <? 5) then mret NET_ERR_INVALID
        else
          let header_length := Z.land version 15 * 4 in
          if packet_length <? header_length then mret NET_ERR_INVALID
          else if negb (header_length =? NET_IPV4_MIN_HEADER_LEN) then mret NET_ERR_NOT_SUPPORTED
          else
            total_length ← of_option (net_read_be16 p 2);
            ttl ← of_option (rd p 8);
            proto ← of_option (rd p 9);
            if (total_length <? header_length) || (packet_length <? total_length) || (ttl =? 0) || (proto =? 0)
            then mret NET_ERR_INVALID
            else
              valid ← of_option (net_checksum_is_valid (Some (span p 0 header_length)) header_length);
              if negb valid then mret NET_ERR_INVALID
              else
                fragment ← of_option (net_read_be16 p 6);
                if negb (Z.land fragment 0xbfff =? 0) then mret NET_ERR_NOT_SUPPORTED
                else
                  source ← of_option (ip_at p 12);
                  destination ← of_option (ip_at p 16);
                  if negb (net_ipv4_addr_is_unicast source) then mret NET_ERR_INVALID
                  else if
                    (if configured (ipv4 d) then
                       negb (net_ipv4_addr_equal destination (address (ipv4 d)))
                       && negb (net_ipv4_addr_is_limited_broadcast destination)
                       && negb (address_is_directed_broadcast d destination)
                     else negb (net_ipv4_addr_is_limited_broadcast destination))
                  then mret NET_ERR_NOT_FOUND
                  else
                    slots ← gets net_ipv4_handlers;
                    match scan (fun h => h_used h && (protocol h =? proto)) slots 0 with
                    | Some index =>
                      h ← elem net_ipv4_handlers index;
                      call_handler h device source destination
                        (span p header_length (total_length - header_length)) (total_length - header_length)
                    | None => mret NET_ERR_NOT_SUPPORTED
                    end
  end.

Definition net_ethernet_input device (frame : option (list Z)) (frame_length : Z) : N Z :=
  match frame with
  | None => mret NET_ERR_INVALID
  | Some f =>
    if device =? NULL then mret NET_ERR_INVALID
    else
      d ← dev device;
      if (frame_length <? NET_ETHERNET_HEADER_LEN) || (NET_ETHERNET_HEADER_LEN + mtu d <? frame_length)
      then mret NET_ERR_INVALID
      else
        destination ← of_option (mac_at f 0);
        source ← of_option (mac_at f NET_ETHERNET_ADDRESS_LEN);
        if net_mac_addr_is_zero source || net_mac_addr_is_multicast source then mret NET_ERR_INVALID
        else if negb (net_mac_addr_equal destination (mac_address d)) && negb (net_mac_addr_is_broadcast destination)
                && negb (net_mac_addr_is_multicast destination)
        then mret NET_ERR_NOT_FOUND
        else
          ethertype ← of_option (net_read_be16 f 12);
          let payload := span f NET_ETHERNET_HEADER_LEN (frame_length - NET_ETHERNET_HEADER_LEN) in
          if ethertype =? NET_ETHERTYPE_ARP
          then net_arp_input device source (Some payload) (frame_length - NET_ETHERNET_HEADER_LEN)
          else if ethertype =? NET_ETHERTYPE_IPV4
          then net_ipv4_input device source (Some payload) (frame_length - NET_ETHERNET_HEADER_LEN)
          else mret NET_ERR_NOT_SUPPORTED
  end.

Definition net_device_receive device (frame : option (list Z)) (length : Z) : N Z :=
  if device =? NULL then mret NET_ERR_NO_DEVICE
  else
    d ← dev device;
    if negb (registered d) then mret NET_ERR_NO_DEVICE
    else if is_null frame || (length <? NET_ETHERNET_HEADER_LEN) || (NET_ETHERNET_HEADER_LEN + mtu d <? length)
    then stat device rx_errors 1;; mret NET_ERR_INVALID
    else
      result ← net_ethernet_input device frame length;
      if negb (result =? NET_OK) then stat device rx_dropped 1;; mret result
      else stat device rx_packets 1;; stat device rx_bytes length;; mret NET_OK.

End Operations.
