(* ===== verification/NetBytes.v ===== *)
(** * Packets as bytes

    What the code that fills packets and frames leaves in them, as lists of
    bytes, and what the code that takes them apart reads back. *)

From S2P Require Import Prelude NetTypes NetSum Net.

Lemma some_bind {A B} (x : A) (f : A -> option B) : Some x ≫= f = f x.
Proof. done. Qed.

(** ** Writing into an array *)

(** What is written inside the front of an array leaves the back alone. *)
Lemma wr_frame {A} (m m' rest : list A) i v : wr m i v = Some m' -> wr (m ++ rest) i v = Some (m' ++ rest).
Proof.
  unfold wr. destruct (Z.leb_spec 0 i), (Z.ltb_spec i (zlen m)); cbn [andb]; [|done..].
  intros [= <-]. rewrite (proj2 (Z.ltb_lt _ _)) by (rewrite length_app; lia).
  by rewrite insert_app_l by lia.
Qed.

Lemma write_be16_frame m m' rest o v :
  net_write_be16 m o v = Some m' -> net_write_be16 (m ++ rest) o v = Some (m' ++ rest).
Proof.
  unfold net_write_be16. destruct (wr m o _) as [m1|] eqn:E1; [|done]. cbn [mbind option_bind]. intros E2.
  rewrite (wr_frame _ _ _ _ _ E1). cbn [mbind option_bind]. by apply wr_frame.
Qed.

Lemma for_wr_frame (f : Z -> list Z -> option (list Z)) n i m m' rest :
  (forall j a b, f j a = Some b -> f j (a ++ rest) = Some (b ++ rest)) ->
  for_ n f i m = Some m' -> for_ n f i (m ++ rest) = Some (m' ++ rest).
Proof.
  intros Hf. revert i m. induction n as [|n IH]; intros i m E; cbn [for_] in *; [by simplify_eq|].
  destruct (f i m) as [m1|] eqn:E1; [|done]. rewrite (Hf _ _ _ E1). by apply IH.
Qed.

Lemma copy_frame m m' rest o source n :
  copy_bytes m o source n = Some m' -> copy_bytes (m ++ rest) o source n = Some (m' ++ rest).
Proof.
  apply for_wr_frame. intros j a b. destruct (rd source j) as [c|]; [|done]. apply wr_frame.
Qed.

(** Writing at the end of the front part. *)
Lemma wr_at {A} (pre post : list A) x v : wr (pre ++ x :: post) (zlen pre) v = Some (pre ++ v :: post).
Proof.
  rewrite wr_Some by (rewrite length_app; cbn; lia). by rewrite Nat2Z.id, insert_app_r_alt, Nat.sub_diag by lia.
Qed.

Lemma for_fill_at (f : Z -> Z) (body : Z -> list Z -> option (list Z)) pre old post i :
  (forall j a, i <= j -> body j a = wr a (zlen pre - i + j) (f j)) -> 
  for_ (length old) body i (pre ++ old ++ post) = Some (pre ++ (f <$> seqZ i (zlen old)) ++ post).
Proof.
  intros Hb. revert pre i Hb. induction old as [|x old IH]; intros pre i Hb; [done|].
  cbn [length for_]. rewrite Hb by lia. replace (zlen pre - i + i) with (zlen pre) by lia.
  cbn [app]. rewrite wr_at. cbn [mbind option_bind].
  change (pre ++ f i :: old ++ post) with (pre ++ [f i] ++ (old ++ post)). rewrite app_assoc.
  rewrite (IH (pre ++ [f i]) (i + 1)).
  - rewrite <- app_assoc. cbn [app]. f_equal. f_equal.
    rewrite (seqZ_cons i) by lia. rewrite fmap_cons. cbn [app]. f_equal. f_equal. f_equal. f_equal; lia.
  - intros j a Hj. rewrite Hb by lia. f_equal. rewrite length_app. cbn. lia.
Qed.

Lemma take_seqZ (l : list Z) n : n <= zlen l -> (fun j => default 0 (rd l j)) <$> seqZ 0 n = take (Z.to_nat n) l.
Proof.
  intros Hn. apply list_eq. intros i. rewrite list_lookup_fmap.
  destruct (decide (Z.of_nat i < n)) as [Hi|Hi].
  - rewrite lookup_seqZ_lt by lia. rewrite lookup_take_lt by lia. cbn. unfold rd.
    rewrite (proj2 (Z.leb_le 0 _)) by lia. rewrite Z.add_0_l, Nat2Z.id.
    destruct (lookup_lt_is_Some_2 l i ltac:(lia)) as [x ->]. done.
  - rewrite lookup_seqZ_ge by lia. by rewrite lookup_take_ge by lia.
Qed.

(** A copy to the end of the front part. *)
Lemma copy_at pre old post source :
  zlen old <= zlen source ->
  copy_bytes (pre ++ old ++ post) (zlen pre) source (zlen old) = Some (pre ++ take (length old) source ++ post).
Proof.
  intros Hn. unfold copy_bytes. rewrite Nat2Z.id.
  rewrite (for_ext _ (fun j a => wr a (zlen pre + j) (default 0 (rd source j)))).
  - rewrite (for_fill_at (fun j => default 0 (rd source j)) _ pre old post 0).
    + rewrite take_seqZ, Nat2Z.id by lia. done.
    + intros j a Hj. f_equal. lia.
  - intros j t Hj. by destruct (rd_Some source j ltac:(lia)) as [v ->].
Qed.

(** Zeros to the end of the front part. *)
Lemma zeros_at pre old post :
  for_ (length old) (fun i f => wr f i 0) (zlen pre) (pre ++ old ++ post) =
  Some (pre ++ replicate (length old) 0 ++ post).
Proof.
  rewrite (for_fill_at (fun _ => 0)) by (intros; f_equal; lia). do 3 f_equal.
  apply list_eq. intros i. rewrite list_lookup_fmap. destruct (decide (i < length old)%nat).
  - rewrite lookup_seqZ_lt, lookup_replicate_2 by lia. done.
  - rewrite lookup_seqZ_ge by lia. symmetry. apply lookup_replicate_None. lia.
Qed.

Lemma span_front (front rest : list Z) n : zlen front = n -> span (front ++ rest) 0 n = front.
Proof. intros <-. unfold span. rewrite Nat2Z.id. apply take_app_length. Qed.
Lemma span_back (front rest : list Z) o n : zlen front = o -> zlen rest = n -> span (front ++ rest) o n = rest.
Proof. intros <- <-. unfold span. rewrite !Nat2Z.id, drop_app_length. apply take_ge. lia. Qed.
Lemma length_span m o n : 0 <= o -> 0 <= n -> o + n <= zlen m -> zlen (span m o n) = n.
Proof. intros. unfold span. rewrite length_take, length_drop. lia. Qed.
Lemma span_bytes m o n : bytes_ok m -> bytes_ok (span m o n).
Proof. intros. by apply Forall_take, Forall_drop. Qed.

Section Bytes.
Context `{!Garbage}.

Lemma length_uninitialised n : 0 <= n -> zlen (uninitialised n) = n.
Proof. intros Hn. unfold uninitialised. rewrite length_fmap, length_seqZ. lia. Qed.
Lemma uninitialised_bytes n : bytes_ok (uninitialised n).
Proof. apply Forall_fmap, Forall_true. intros x. apply u8_range. Qed.
Lemma uninitialised_split (k : nat) n : Z.of_nat k <= n ->
  exists rest, uninitialised n = uninitialised (Z.of_nat k) ++ rest /\ zlen rest = n - Z.of_nat k /\ bytes_ok rest.
Proof.
  intros Hk. exists ((fun i => u8 (garbage i)) <$> seqZ (Z.of_nat k) (n - Z.of_nat k)). unfold uninitialised. split_and!.
  - rewrite <- fmap_app. f_equal. rewrite <- (Z.add_0_l (Z.of_nat k)) at 2.
    rewrite <- seqZ_app by lia. f_equal. lia.
  - rewrite length_fmap, length_seqZ. lia.
  - apply Forall_fmap, Forall_true. intros x. apply u8_range.
Qed.
End Bytes.

(** ** Addresses *)

Abbreviation ip_ok a := (bytes_ok (ip_bytes a)) (only parsing).
Abbreviation mac_ok a := (bytes_ok (mac_bytes a)) (only parsing).

Lemma difference_zero l r acc :
  length l = length r -> bytes_ok l -> bytes_ok r -> is_u8 acc -> difference l r acc = 0 <-> acc = 0 /\ l = r.
Proof.
  intros Hlen Hl. revert r acc Hlen. induction Hl as [|a l Ha Hl IH]; intros [|b r] acc Hlen Hr Hacc; cbn in Hlen;
    [cbn; naive_solver|done..|]. cbn [difference]. apply Forall_cons_1 in Hr as [Hb Hr].
  pose proof (lxor_range a b 8 ltac:(lia) Ha Hb) as Hx. rewrite (u8_small (Z.lxor a b)) by done.
  pose proof (lor_bound acc (Z.lxor a b) 8 ltac:(lia) Hacc Hx) as Ho. rewrite (u8_small (Z.lor _ _)) by done.
  rewrite IH by (done || lia). rewrite Z.lor_eq_0_iff, Z.lxor_eq_0_iff. naive_solver.
Qed.

Lemma mac_bytes_inj a b : mac_bytes a = mac_bytes b -> a = b.
Proof. destruct a, b. by intros [= -> -> -> -> -> ->]. Qed.
Lemma ip_bytes_inj a b : ip_bytes a = ip_bytes b -> a = b.
Proof. destruct a, b. by intros [= -> -> -> ->]. Qed.

Lemma mac_equal_spec a b : mac_ok a -> mac_ok b -> net_mac_addr_equal a b = bool_decide (a = b).
Proof.
  intros Ha Hb. apply eq_bool_prop_intro. unfold net_mac_addr_equal.
  rewrite Is_true_true, Z.eqb_eq, bool_decide_spec, difference_zero by done.
  split; [intros [_ E]; by apply mac_bytes_inj|by intros ->].
Qed.
Lemma ip_equal_spec a b : ip_ok a -> ip_ok b -> net_ipv4_addr_equal a b = bool_decide (a = b).
Proof.
  intros Ha Hb. apply eq_bool_prop_intro. unfold net_ipv4_addr_equal.
  rewrite Is_true_true, Z.eqb_eq, bool_decide_spec, difference_zero by done.
  split; [intros [_ E]; by apply ip_bytes_inj|by intros ->].
Qed.
Lemma ip_equal_refl a : ip_ok a -> net_ipv4_addr_equal a a = true.
Proof. intros Ha. rewrite ip_equal_spec by done. by apply bool_decide_eq_true_2. Qed.
Lemma mac_equal_refl a : mac_ok a -> net_mac_addr_equal a a = true.
Proof. intros Ha. rewrite mac_equal_spec by done. by apply bool_decide_eq_true_2. Qed.
Lemma ip_zero_ok : ip_ok net_ipv4_addr_zero.
Proof. by apply (bool_decide_unpack _). Qed.
Lemma mac_zero_ok : mac_ok net_mac_addr_zero.
Proof. by apply (bool_decide_unpack _). Qed.
Lemma mac_broadcast_ok : mac_ok net_mac_addr_broadcast.
Proof. by apply (bool_decide_unpack _). Qed.
Lemma ip_is_zero_spec a : ip_ok a -> net_ipv4_addr_is_zero a = bool_decide (a = net_ipv4_addr_zero).
Proof. intros Ha. apply ip_equal_spec; [done|apply ip_zero_ok]. Qed.
Lemma ip_is_limited_spec a : ip_ok a ->
  net_ipv4_addr_is_limited_broadcast a = bool_decide (a = net_ipv4_addr_make 255 255 255 255).
Proof. intros Ha. apply ip_equal_spec; [done|]. by apply (bool_decide_unpack _). Qed.

(** The classes of addresses do not overlap. *)
Lemma unicast_classes a : ip_ok a -> net_ipv4_addr_is_unicast a = true ->
  net_ipv4_addr_is_zero a = false /\ net_ipv4_addr_is_limited_broadcast a = false /\
  net_ipv4_addr_is_multicast a = false.
Proof.
  intros Ha Hu. rewrite ip_is_zero_spec, ip_is_limited_spec by done.
  unfold net_ipv4_addr_is_unicast, net_ipv4_addr_is_multicast in *. destruct a as [a b c d]; cbn in *.
  apply andb_prop in Hu as [[Hz _]%andb_prop Hl]. apply negb_true_iff, Z.eqb_neq in Hz. apply Z.ltb_lt in Hl.
  split_and!; [apply bool_decide_eq_false_2; intros [=]; lia..|]. by rewrite (proj2 (Z.leb_gt _ _)) by lia.
Qed.

(** ** Addresses as 32-bit numbers *)

Lemma ip_ok_inv a : ip_ok a -> is_u8 (ip0 a) /\ is_u8 (ip1 a) /\ is_u8 (ip2 a) /\ is_u8 (ip3 a).
Proof. destruct a. intros H. by repeat (apply Forall_cons_1 in H as [? H]). Qed.

Lemma to_u32_value a : ip_ok a ->
  net_ipv4_addr_to_u32 a = ip0 a * 2 ^ 24 + ip1 a * 2 ^ 16 + ip2 a * 2 ^ 8 + ip3 a.
Proof.
  intros (H0 & H1 & H2 & H3)%ip_ok_inv. unfold net_ipv4_addr_to_u32.
  rewrite !Z.shiftl_mul_pow2, !u32_small by lia.
  rewrite lor_bytes by lia. replace (ip0 a * 2 ^ 24 + ip1 a * 2 ^ 16) with ((ip0 a * 2 ^ 8 + ip1 a) * 2 ^ 16) by lia.
  rewrite lor_bytes by lia.
  replace ((ip0 a * 2 ^ 8 + ip1 a) * 2 ^ 16 + ip2 a * 2 ^ 8) with ((ip0 a * 2 ^ 16 + ip1 a * 2 ^ 8 + ip2 a) * 2 ^ 8) by lia.
  rewrite lor_bytes by lia. lia.
Qed.

Lemma to_u32_range a : ip_ok a -> is_u32 (net_ipv4_addr_to_u32 a).
Proof. intros Ha. rewrite to_u32_value by done. apply ip_ok_inv in Ha. lia. Qed.

Lemma from_u32_ok v : ip_ok (net_ipv4_addr_from_u32 v).
Proof. repeat (apply Forall_cons_2; [apply u8_range|]). apply Forall_nil_2. Qed.

Lemma from_to_u32 a : ip_ok a -> net_ipv4_addr_from_u32 (net_ipv4_addr_to_u32 a) = a.
Proof.
  intros Ha. rewrite to_u32_value by done. apply ip_ok_inv in Ha. unfold net_ipv4_addr_from_u32, u8. destruct a; cbn in *.
  rewrite !Z.shiftr_div_pow2 by lia. f_equal; zdiv.
Qed.

Lemma to_from_u32 v : is_u32 v -> net_ipv4_addr_to_u32 (net_ipv4_addr_from_u32 v) = v.
Proof.
  intros Hv. rewrite to_u32_value by apply from_u32_ok. unfold net_ipv4_addr_from_u32, u8. cbn [ip0 ip1 ip2 ip3].
  rewrite !Z.shiftr_div_pow2 by lia. zdiv.
Qed.

Lemma to_u32_inj a b : ip_ok a -> ip_ok b -> net_ipv4_addr_to_u32 a = net_ipv4_addr_to_u32 b -> a = b.
Proof. intros Ha Hb E. by rewrite <- (from_to_u32 a), <- (from_to_u32 b), E. Qed.

Lemma addr_and_ok a m : ip_ok (net_ipv4_addr_and a m).
Proof. apply from_u32_ok. Qed.

(** ** What packets look like *)

Definition eth_frame (destination source : net_mac_addr) (ethertype : Z) (data : list Z) : list Z :=
  mac_bytes destination ++ mac_bytes source ++ be16 ethertype ++ data ++ replicate (46 - length data) 0.
Definition arp_bytes (operation : Z) (sender : net_mac_addr) (sender_ip : net_ipv4_addr) (target : net_mac_addr)
  (target_ip : net_ipv4_addr) : list Z :=
  [0; 1; 8; 0; 6; 4] ++ be16 operation ++ mac_bytes sender ++ ip_bytes sender_ip ++ mac_bytes target ++ ip_bytes target_ip.
Definition ip_header (total identification protocol_ checksum : Z) (source destination : net_ipv4_addr) : list Z :=
  [69; 0] ++ be16 total ++ be16 identification ++ [64; 0; 64; protocol_] ++ be16 checksum
    ++ ip_bytes source ++ ip_bytes destination.
(** A datagram with its header checksum. *)
Definition datagram (identification protocol_ : Z) (source destination : net_ipv4_addr) (data : list Z) : list Z :=
  let total := NET_IPV4_MIN_HEADER_LEN + zlen data in
  ip_header total identification protocol_
    (rfc1071 (ip_header total identification protocol_ 0 source destination)) source destination ++ data.
(** An ICMP echo message with its checksum. *)
Definition icmp_echo (type checksum identifier sequence : Z) (data : list Z) : list Z :=
  [type; 0] ++ be16 checksum ++ be16 identifier ++ be16 sequence ++ data.
Definition echo (type identifier sequence : Z) (data : list Z) : list Z :=
  icmp_echo type (rfc1071 (icmp_echo type 0 identifier sequence data)) identifier sequence data.

(** The bytes a pointer and a length stand for. *)
Definition data_of (p : option (list Z)) (n : Z) : list Z := take (Z.to_nat n) (default [] p).
Definition buffer_ok (p : option (list Z)) (n : Z) : Prop :=
  0 <= n /\ match p with Some l => n <= zlen l /\ bytes_ok l | None => n = 0 end.

Lemma length_data_of p n : buffer_ok p n -> zlen (data_of p n) = n.
Proof. intros [Hn Hp]. unfold data_of. destruct p; cbn; rewrite length_take; cbn; lia. Qed.
Lemma data_of_bytes p n : buffer_ok p n -> bytes_ok (data_of p n).
Proof. intros [Hn Hp]. unfold data_of. destruct p as [l|]; cbn; [apply Forall_take, Hp|]. by rewrite take_nil. Qed.

Lemma length_eth_frame d s t data : zlen data <= 1500 ->
  zlen (eth_frame d s t data) = Z.max 60 (14 + zlen data).
Proof. intros Hd. unfold eth_frame. rewrite !length_app, length_replicate. cbn. lia. Qed.

Section Packets.
Context `{!Garbage}.

(** Copying the caller's bytes behind a header, when there are any. *)
Lemma copy_data header rest p n :
  buffer_ok p n -> n <= zlen rest -> bytes_ok rest ->
  exists rest', zlen rest' = zlen rest - n /\ bytes_ok rest' /\
    (if negb (n =? 0) then l ← p; copy_bytes (header ++ rest) (zlen header) l n else Some (header ++ rest)) =
    Some (header ++ data_of p n ++ rest').
Proof.
  intros [Hn Hp] Hr Hb. exists (drop (Z.to_nat n) rest). rewrite length_drop. split; [lia|].
  split; [by apply Forall_drop|]. unfold data_of.
  destruct (Z.eqb_spec n 0) as [->|]; [by rewrite take_0|]. destruct p as [l|]; [|lia]. cbn [negb mbind option_bind default].
  rewrite <- (take_drop (Z.to_nat n) rest) at 1.
  assert (El : n = zlen (take (Z.to_nat n) rest)) by (rewrite length_take; lia).
  rewrite El at 3. rewrite copy_at by lia. by rewrite <- (Nat2Z.id (length _)), <- El.
Qed.

Lemma ethernet_frame_spec destination source ethertype p n :
  buffer_ok p n -> n <= 1500 ->
  exists rest, ethernet_frame destination source ethertype p n =
    Some (eth_frame destination source ethertype (data_of p n) ++ rest,
          zlen (eth_frame destination source ethertype (data_of p n))).
Proof.
  intros Hp Hn. pose proof (length_data_of p n Hp) as Hl. rewrite length_eth_frame by lia. rewrite Hl.
  unfold ethernet_frame. destruct (uninitialised_split 14 1514 ltac:(lia)) as (rest & -> & Hrest & Hb).
  set (h := mac_bytes destination ++ mac_bytes source ++ be16 ethertype).
  erewrite copy_frame by reflexivity. cbn [mbind option_bind].
  erewrite copy_frame by reflexivity. cbn [mbind option_bind].
  erewrite write_be16_frame by reflexivity. cbn [mbind option_bind].
  match goal with |- context [?m ++ rest] => replace m with h by (destruct destination, source; reflexivity) end.
  change NET_ETHERNET_HEADER_LEN with (zlen h). destruct (copy_data h rest p n Hp ltac:(lia) Hb) as (rest' & Hr' & _ & ->).
  cbn [mbind option_bind]. change (zlen h) with 14. destruct (Z.ltb_spec (14 + n) 60).
  - rewrite Z.max_l by lia. set (k := Z.to_nat (46 - n)).
    exists (drop k rest'). rewrite <- (take_drop k rest') at 1.
    replace (Z.to_nat (60 - (14 + n))) with (length (take k rest')) by (rewrite length_take; lia).
    replace (14 + n) with (zlen (h ++ data_of p n)) by (rewrite length_app; cbn; lia).
    rewrite (app_assoc h), zeros_at. cbn [mbind option_bind]. f_equal. f_equal. unfold eth_frame, h.
    rewrite <- !app_assoc. do 5 f_equal. rewrite length_take. f_equal. lia.
  - rewrite Z.max_r by lia. exists rest'. f_equal. f_equal. unfold eth_frame, h.
    replace (46 - length (data_of p n))%nat with 0%nat by lia. cbn [replicate]. by rewrite app_nil_r, <- !app_assoc.
Qed.

Lemma arp_packet_spec operation sender sender_ip target target_ip :
  arp_packet operation sender sender_ip target target_ip = Some (arp_bytes operation sender sender_ip target target_ip).
Proof. destruct sender, sender_ip, target, target_ip. reflexivity. Qed.

Lemma ipv4_header_spec (m rest : list Z) total identification protocol_ source destination :
  zlen m = 20 ->
  ipv4_header (m ++ rest) total identification protocol_ source destination =
  Some (ip_header total identification protocol_ 0 source destination ++ rest).
Proof.
  intros Hm. do 20 (destruct m as [|? m]; [done|]). destruct m; [|cbn in Hm; lia]. unfold ipv4_header.
  do 8 (first [erewrite wr_frame by reflexivity|erewrite write_be16_frame by reflexivity]; cbn [mbind option_bind]).
  do 2 (erewrite copy_frame by reflexivity; cbn [mbind option_bind]).
  destruct source, destination. reflexivity.
Qed.

Lemma ip_header_checksum rest total identification protocol_ c source destination :
  net_write_be16 (ip_header total identification protocol_ 0 source destination ++ rest) 10 c =
  Some (ip_header total identification protocol_ c source destination ++ rest).
Proof. apply write_be16_frame. destruct source, destination. reflexivity. Qed.

Lemma ip_header_bytes total identification protocol_ c source destination :
  is_u8 protocol_ -> ip_ok source -> ip_ok destination ->
  bytes_ok (ip_header total identification protocol_ c source destination).
Proof.
  intros Hp Hs Hd. unfold ip_header. repeat (apply Forall_app_2 || apply be16_bytes || done).
  - by apply (bool_decide_unpack _).
  - repeat (apply Forall_cons_2; [lia|]). apply Forall_nil_2.
Qed.

Lemma ip_header_sum total identification protocol_ source destination :
  is_u8 protocol_ -> ip_ok source -> ip_ok destination ->
  net_checksum_compute (Some (ip_header total identification protocol_ 0 source destination)) 20 =
  Some (rfc1071 (ip_header total identification protocol_ 0 source destination)).
Proof.
  intros Hp Hs Hd. apply (compute_spec (ip_header total identification protocol_ 0 source destination)).
  - by apply ip_header_bytes.
  - cbn. lia.
Qed.

Lemma ip_header_data total identification protocol_ c source destination rest p n :
  buffer_ok p n -> n <= zlen rest -> bytes_ok rest ->
  let h := ip_header total identification protocol_ c source destination in
  exists rest', zlen rest' = zlen rest - n /\ bytes_ok rest' /\
    (if negb (n =? 0) then l ← p; copy_bytes (h ++ rest) 20 l n else Some (h ++ rest)) = Some (h ++ data_of p n ++ rest').
Proof. intros Hp Hn Hb h. exact (copy_data h rest p n Hp Hn Hb). Qed.

Lemma ipv4_packet_spec identification protocol_ source destination p n :
  is_u8 protocol_ -> ip_ok source -> ip_ok destination -> buffer_ok p n -> n <= 1480 ->
  exists rest, zlen rest = 1480 - n /\ bytes_ok rest /\ ipv4_packet identification protocol_ source destination p n =
    Some (datagram identification protocol_ source destination (data_of p n) ++ rest).
Proof.
  intros Hpr Hs Hd Hp Hn. unfold ipv4_packet. destruct (uninitialised_split 20 1500 ltac:(lia)) as (rest & -> & Hrest & Hb).
  rewrite ipv4_header_spec, some_bind by (apply length_uninitialised; lia).
  rewrite span_front by reflexivity. rewrite (u16_small (20 + n)) by (destruct Hp; lia).
  rewrite ip_header_sum, some_bind, ip_header_checksum, some_bind by done.
  match goal with |- context [copy_bytes (ip_header ?t ?i ?q ?c ?s ?d ++ rest)] =>
    destruct (ip_header_data t i q c s d rest p n Hp ltac:(lia) Hb) as (rest' & Hr' & Hb' & E) end.
  rewrite E. exists rest'. split; [lia|]. split; [done|].
  unfold datagram. rewrite length_data_of by done. by rewrite <- app_assoc.
Qed.

Lemma echo_header_spec (m rest : list Z) identifier sequence :
  zlen m = 8 ->
  echo_header (m ++ rest) identifier sequence = Some (icmp_echo 8 0 identifier sequence [] ++ rest).
Proof.
  intros Hm. do 8 (destruct m as [|? m]; [done|]). destruct m; [|cbn in Hm; lia]. unfold echo_header.
  do 5 (first [erewrite wr_frame by reflexivity|erewrite write_be16_frame by reflexivity]; cbn [mbind option_bind]).
  reflexivity.
Qed.

Lemma icmp_echo_app type c identifier sequence data rest :
  icmp_echo type c identifier sequence data ++ rest = icmp_echo type c identifier sequence (data ++ rest).
Proof. unfold icmp_echo. by rewrite <- !app_assoc. Qed.

Lemma icmp_echo_bytes type c identifier sequence data :
  is_u8 type -> bytes_ok data -> bytes_ok (icmp_echo type c identifier sequence data).
Proof.
  intros Ht Hd. unfold icmp_echo. repeat (apply Forall_app_2 || apply be16_bytes || done).
  repeat (apply Forall_cons_2; [lia|]). apply Forall_nil_2.
Qed.

(** Storing the checksum behind type and code. *)
Lemma icmp_checksum a b x y c tail :
  net_write_be16 ([a; b; x; y] ++ tail) 2 c = Some ([a; b] ++ be16 c ++ tail).
Proof. erewrite (write_be16_frame [a; b; x; y]) by reflexivity. reflexivity. Qed.

Lemma echo_packet_spec identifier sequence p n :
  buffer_ok p n -> n <= 1472 ->
  exists rest, zlen rest = 1472 - n /\ bytes_ok rest /\
    echo_packet identifier sequence p n = Some (echo 8 identifier sequence (data_of p n) ++ rest).
Proof.
  intros Hp Hn. unfold echo_packet. destruct (uninitialised_split 8 1480 ltac:(lia)) as (rest & -> & Hrest & Hb).
  rewrite echo_header_spec, some_bind by (apply length_uninitialised; lia).
  destruct (copy_data (icmp_echo 8 0 identifier sequence []) rest p n Hp ltac:(lia) Hb) as (rest' & Hr' & Hb' & E).
  change (zlen (icmp_echo 8 0 identifier sequence [])) with 8 in E. rewrite E, some_bind. clear E.
  rewrite app_assoc, icmp_echo_app. cbn [app]. pose proof (length_data_of p n Hp) as Hl.
  assert (El : zlen (icmp_echo 8 0 identifier sequence (data_of p n)) = 8 + n) by (cbn; lia).
  rewrite span_front by done. rewrite <- El, compute_spec, some_bind.
  - exists rest'. split; [lia|]. split; [done|]. unfold icmp_echo at 1. rewrite <- !app_assoc.
    etransitivity; [apply (icmp_checksum 8 0)|]. unfold echo. rewrite icmp_echo_app. done.
  - apply icmp_echo_bytes; [lia|by apply data_of_bytes].
  - lia.
Qed.

Lemma echo_reply_spec a b x y tail n :
  bytes_ok (a :: b :: x :: y :: tail) -> zlen (a :: b :: x :: y :: tail) = n -> n <= 1480 ->
  exists rest, zlen rest = 1480 - n /\ bytes_ok rest /\ echo_reply (a :: b :: x :: y :: tail) n =
    Some ([0; b] ++ be16 (rfc1071 ([0; b; 0; 0] ++ tail)) ++ tail ++ rest).
Proof.
  intros Hb Hl Hn. unfold echo_reply.
  destruct (uninitialised_split (length (a :: b :: x :: y :: tail)) 1480 ltac:(lia)) as (rest & -> & Hrest & Hbr).
  rewrite Hl. pose proof (length_uninitialised n ltac:(lia)) as Hu.
  pose proof (copy_at [] (uninitialised n) rest (a :: b :: x :: y :: tail)) as E.
  specialize (E ltac:(lia)). rewrite Hu in E. cbn [app] in E. change (zlen []) with 0 in E. rewrite E, some_bind. clear E.
  rewrite take_ge by lia.
  rewrite (wr_frame (a :: b :: x :: y :: tail) (0 :: b :: x :: y :: tail)), some_bind by (apply (wr_at [])).
  change (0 :: b :: x :: y :: tail) with ([0; b; x; y] ++ tail). rewrite <- app_assoc, icmp_checksum, some_bind.
  change (be16 0) with [0; 0].
  assert (El : zlen ([0; b; 0; 0] ++ tail) = n) by (rewrite <- Hl; done).
  rewrite (app_assoc [0; 0]), (app_assoc [0; b]). rewrite span_front by done.
  change ([0; b] ++ [0; 0] ++ tail) with ([0; b; 0; 0] ++ tail).
  assert (Hz : bytes_ok ([0; b; 0; 0] ++ tail)).
  { do 4 (apply Forall_cons_1 in Hb as [? Hb]). apply Forall_app_2; [|done].
    repeat (apply Forall_cons_2; [lia|]). apply Forall_nil_2. }
  pose proof (compute_spec _ Hz ltac:(lia)) as Ec. rewrite El in Ec. rewrite Ec, some_bind.
  exists rest. split; [lia|]. split; [done|]. rewrite <- app_assoc. apply icmp_checksum.
Qed.
End Packets.

(** ** Taking packets apart *)

Lemma be16_value v : is_u16 v -> u16 (Z.lor (Z.shiftl (u8 (Z.shiftr v 8)) 8) (u8 v)) = v.
Proof.
  intros Hv. rewrite be_word by apply u8_range. unfold u8, u16. rewrite Z.shiftr_div_pow2 by lia. zdiv.
Qed.

Lemma read_be16_cons a b rest : is_u8 a -> is_u8 b -> net_read_be16 (a :: b :: rest) 0 = Some (a * 256 + b).
Proof.
  intros Ha Hb. change (Some (u16 (Z.lor (Z.shiftl a 8) b)) = Some (a * 256 + b)).
  by rewrite be_word, u16_small by lia.
Qed.

Lemma rd_u8 p o : bytes_ok p -> 0 <= o < zlen p -> exists b, rd p o = Some b /\ is_u8 b.
Proof.
  intros Hb Ho. destruct (rd_Some p o ltac:(lia)) as [b Hr]. exists b. split; [done|].
  apply rd_lookup in Hr as [_ Hr]. exact (Forall_lookup_1 _ _ _ _ Hb Hr).
Qed.

Ltac read_bytes Hb o :=
  repeat match goal with
  | |- context [rd ?p (o + ?k)] =>
    let b := fresh "b" in let H := fresh "Hb" in
    destruct (rd_u8 p (o + k) Hb ltac:(lia)) as (b & -> & H); cbn [mbind option_bind]
  | |- context [rd ?p o] =>
    let b := fresh "b" in let H := fresh "Hb" in
    destruct (rd_u8 p o Hb ltac:(lia)) as (b & -> & H); cbn [mbind option_bind]
  end.

(** Inside a packet, fields can be read and hold bytes. *)
Lemma read_be16_ok p o : bytes_ok p -> 0 <= o -> o + 2 <= zlen p -> exists v, net_read_be16 p o = Some v /\ is_u16 v.
Proof. intros Hb Ho Hl. unfold net_read_be16. read_bytes Hb o. eexists. split; [done|apply u16_range]. Qed.
Lemma mac_at_ok p o : bytes_ok p -> 0 <= o -> o + 6 <= zlen p -> exists a, mac_at p o = Some a /\ mac_ok a.
Proof. intros Hb Ho Hl. unfold mac_at. read_bytes Hb o. eexists. split; [done|]. by repeat apply Forall_cons_2. Qed.
Lemma ip_at_ok p o : bytes_ok p -> 0 <= o -> o + 4 <= zlen p -> exists a, ip_at p o = Some a /\ ip_ok a.
Proof. intros Hb Ho Hl. unfold ip_at. read_bytes Hb o. eexists. split; [done|]. by repeat apply Forall_cons_2. Qed.

(** What a receiver may be given: a null pointer, or at least as many bytes as
    it is told. *)
Definition input_ok (p : option (list Z)) (n : Z) : Prop :=
  0 <= n /\ match p with Some l => n <= zlen l /\ bytes_ok l | None => True end.

Lemma checksum_total p n : bytes_ok p -> zlen p = n -> n <= 2 ^ 17 ->
  exists b, net_checksum_is_valid (Some p) n = Some b.
Proof. intros Hb <- Hn. eexists. by apply valid_spec. Qed.

Section Parse.
Context (destination source : net_mac_addr) (ethertype : Z) (data : list Z).
Context (Ht : is_u16 ethertype).
Let f := eth_frame destination source ethertype data.

Lemma frame_destination : mac_at f 0 = Some destination.
Proof. destruct destination. reflexivity. Qed.
Lemma frame_source : mac_at f 6 = Some source.
Proof. destruct destination, source. reflexivity. Qed.
Lemma frame_type : net_read_be16 f 12 = Some ethertype.
Proof using Ht. rewrite <- (be16_value ethertype Ht) at 1. destruct destination, source. reflexivity. Qed.
Lemma frame_payload : span f 14 (zlen f - 14) = data ++ replicate (46 - length data) 0.
Proof.
  unfold f, eth_frame. rewrite (app_assoc (mac_bytes _)), (app_assoc (_ ++ _)).
  apply span_back; [done|]. rewrite !length_app. cbn. lia.
Qed.
Lemma frame_bytes : mac_ok destination -> mac_ok source -> bytes_ok data -> bytes_ok f.
Proof.
  intros. unfold f, eth_frame. repeat (apply Forall_app_2 || apply be16_bytes || done).
  apply Forall_replicate. lia.
Qed.
End Parse.

Lemma arp_bytes_ok operation sender sender_ip target target_ip :
  mac_ok sender -> ip_ok sender_ip -> mac_ok target -> ip_ok target_ip ->
  bytes_ok (arp_bytes operation sender sender_ip target target_ip).
Proof.
  intros. unfold arp_bytes. repeat (apply Forall_app_2 || apply be16_bytes || done).
  by apply (bool_decide_unpack _).
Qed.

Lemma datagram_bytes identification protocol_ source destination data :
  is_u8 protocol_ -> ip_ok source -> ip_ok destination -> bytes_ok data ->
  bytes_ok (datagram identification protocol_ source destination data).
Proof. intros. apply Forall_app_2; [by apply ip_header_bytes|done]. Qed.

Lemma length_datagram identification protocol_ source destination data :
  zlen (datagram identification protocol_ source destination data) = 20 + zlen data.
Proof. unfold datagram. rewrite length_app. cbn. lia. Qed.

(** The receiver finds the header checksum of a datagram right. *)
Lemma ip_header_valid total identification protocol_ source destination :
  is_u8 protocol_ -> ip_ok source -> ip_ok destination ->
  net_checksum_is_valid (Some (ip_header total identification protocol_
    (rfc1071 (ip_header total identification protocol_ 0 source destination)) source destination)) 20 = Some true.
Proof.
  intros Hp Hs Hd.
  pose proof (ip_header_bytes total identification protocol_ 0 source destination Hp Hs Hd) as Hb.
  set (pre := [69; 0] ++ be16 total ++ be16 identification ++ [64; 0; 64; protocol_]).
  set (post := ip_bytes source ++ ip_bytes destination).
  assert (E : forall c, ip_header total identification protocol_ c source destination = pre ++ be16 c ++ post)
    by (intros c; unfold ip_header, pre, post; by rewrite <- !app_assoc).
  rewrite !E in *. change (be16 0) with [0; 0] in *.
  apply (stored_valid pre post); [done|done|cbn; lia].
Qed.
