(* ===== verification/NetProps.v ===== *)
(** * The invariant of the network stack

    What holds of the tables between two calls, that sending a frame changes
    only statistics and the world, and that every operation returns and keeps
    the invariant. *)

From S2P Require Import Prelude Errno NetTypes NetSum Net NetBytes.

(** No two positions of a table hold related elements. *)
Definition unique {A} (R : A -> A -> Prop) (l : list A) : Prop :=
  forall i j x y, l !! i = Some x -> l !! j = Some y -> R x y -> i = j.

Lemma unique_insert {A} (R : A -> A -> Prop) `{!Symmetric R} l i x :
  unique R l -> (forall j y, l !! j = Some y -> j <> i -> R y x -> False) -> unique R (<[i := x]> l).
Proof.
  intros Hu Hne j k y z Hj Hk Hyz. destruct (decide (i < length l)%nat) as [Hi|].
  2:{ rewrite list_insert_ge in Hj, Hk by lia. by eapply Hu. }
  destruct (decide (j = i)) as [->|Hji], (decide (k = i)) as [->|Hki]; [done|..].
  - rewrite list_lookup_insert_eq in Hj by done. rewrite list_lookup_insert_ne in Hk by done. simplify_eq.
    exfalso. by eapply Hne.
  - rewrite list_lookup_insert_eq in Hk by done. rewrite list_lookup_insert_ne in Hj by done. simplify_eq.
    exfalso. by eapply Hne.
  - rewrite list_lookup_insert_ne in Hj, Hk by done. by eapply Hu.
Qed.

(** Entries, routes and handlers in use for the same thing. *)
Definition same_entry (e e' : net_arp_entry) : Prop :=
  e_state e <> NET_ARP_ENTRY_EMPTY /\ e_state e' <> NET_ARP_ENTRY_EMPTY /\
  e_device e = e_device e' /\ protocol_address e = protocol_address e'.
Definition same_route (x y : net_ipv4_route_slot) : Prop :=
  r_used x = true /\ r_used y = true /\ r_device (route x) = r_device (route y) /\
  network (route x) = network (route y) /\ r_netmask (route x) = r_netmask (route y).
Definition same_handler (x y : net_ipv4_handler_slot) : Prop :=
  h_used x = true /\ h_used y = true /\ protocol x = protocol y.
#[export] Instance same_entry_sym : Symmetric same_entry.
Proof. intros x y (? & ? & ? & ?). by split_and!. Qed.
#[export] Instance same_route_sym : Symmetric same_route.
Proof. intros x y (? & ? & ? & ? & ?). by split_and!. Qed.
#[export] Instance same_handler_sym : Symmetric same_handler.
Proof. intros x y (? & ? & ?). by split_and!. Qed.

Section Invariant.
Context {G : Garbage} {W : Type} {E : NetEnv W}.
Implicit Types (s : net W) (d : net_device W) (device : Z).

(** ** The invariant *)

Definition mac_unicast (a : net_mac_addr) : Prop :=
  mac_ok a /\ net_mac_addr_is_zero a = false /\ net_mac_addr_is_multicast a = false.
Definition ip_unicast (a : net_ipv4_addr) : Prop := ip_ok a /\ net_ipv4_addr_is_unicast a = true.

Definition config_ok (c : net_ipv4_config) : Prop :=
  ip_ok (address c) /\ ip_ok (netmask c) /\ ip_ok (gateway c) /\
  (configured c = true ->
   net_ipv4_addr_is_unicast (address c) = true /\ netmask_is_contiguous (netmask c) = true /\
   netmask c <> net_ipv4_addr_zero /\
   (gateway c <> net_ipv4_addr_zero -> net_ipv4_addr_is_unicast (gateway c) = true)).

(** The contract of a driver: its transmit function returns. *)
Definition driver_ok (send : Z -> Z -> list Z -> M W Z) : Prop :=
  forall device context frame w, exists r w', send device context frame w = Some (r, w').

Definition device_ok d : Prop :=
  length (dev_name d) = 16%nat /\ config_ok (ipv4 d) /\
  (registered d = true ->
   mac_unicast (mac_address d) /\ 576 <= mtu d <= 1500 /\ exists send, transmit d = Some send /\ driver_ok send).

(** The device of an entry, route or packet exists. *)
Definition known (m : gmap Z (net_device W)) device : Prop := device <> NULL /\ is_Some (m !! device).

Definition entry_ok (m : gmap Z (net_device W)) (e : net_arp_entry) : Prop :=
  ip_ok (protocol_address e) /\ mac_ok (hardware_address e) /\
  0 <= last_request_age e <= e_age e /\ e_age e < 2 ^ 32 /\
  (e_state e <> NET_ARP_ENTRY_EMPTY -> known m (e_device e) /\ net_ipv4_addr_is_unicast (protocol_address e) = true) /\
  (e_state e = NET_ARP_ENTRY_VALID -> mac_unicast (hardware_address e)).

Definition cache_ok (m : gmap Z (net_device W)) (cache : list net_arp_entry) : Prop :=
  length cache = 16%nat /\ Forall (entry_ok m) cache /\ unique same_entry cache.

Definition route_ok (m : gmap Z (net_device W)) (r : net_ipv4_route) : Prop :=
  known m (r_device r) /\ ip_ok (network r) /\ ip_ok (r_netmask r) /\ ip_ok (r_gateway r) /\
  is_Some (netmask_prefix_length (r_netmask r)) /\ network r = net_ipv4_addr_and (network r) (r_netmask r) /\
  (r_gateway r = net_ipv4_addr_zero \/ net_ipv4_addr_is_unicast (r_gateway r) = true).

Definition routes_ok (m : gmap Z (net_device W)) (slots : list net_ipv4_route_slot) : Prop :=
  length slots = 8%nat /\ Forall (fun x => r_used x = true -> route_ok m (route x)) slots /\ unique same_route slots.

Definition handlers_ok (slots : list net_ipv4_handler_slot) : Prop :=
  length slots = 8%nat /\ unique same_handler slots.

Definition packet_ok (m : gmap Z (net_device W)) (p : net_ipv4_pending_packet) : Prop :=
  length (packet p) = 1500%nat /\ bytes_ok (packet p) /\
  (p_used p = true -> known m (p_device p) /\ ip_ok (next_hop p) /\ 0 <= p_length p <= 1500 /\ is_u32 (p_age p)).
Definition pending_ok (m : gmap Z (net_device W)) (l : list net_ipv4_pending_packet) : Prop :=
  length l = 4%nat /\ Forall (packet_ok m) l.

(** The registry: the registered devices, without gaps, and the default. *)
Definition registry_ok (m : gmap Z (net_device W)) (table : list Z) (count default_ : Z) : Prop :=
  length table = 4%nat /\ 0 <= count <= 4 /\ NoDup (take (Z.to_nat count) table) /\
  (forall device, device ∈ take (Z.to_nat count) table <->
     device <> NULL /\ exists d, m !! device = Some d /\ registered d = true) /\
  (if count =? 0 then default_ = NULL else default_ ∈ take (Z.to_nat count) table).

Record net_ok s : Prop := {
  ok_devices : map_Forall (fun _ d => device_ok d) (devs s);
  ok_null : devs s !! NULL = None;
  ok_registry : registry_ok (devs s) (net_devices s) (net_devices_count s) (net_default_device s);
  ok_cache : cache_ok (devs s) (net_arp_cache s);
  ok_routes : routes_ok (devs s) (net_ipv4_routes s);
  ok_handlers : handlers_ok (net_ipv4_handlers s);
  ok_pending : pending_ok (devs s) (net_ipv4_pending s);
  ok_identification : is_u16 (net_ipv4_identification s) }.

Lemma ok_device s device d : net_ok s -> devs s !! device = Some d -> device_ok d.
Proof. intros H Hd. exact (ok_devices s H device d Hd). Qed.

(** ** Devices that differ in their statistics only *)

Definition same_devices (m m' : gmap Z (net_device W)) : Prop :=
  forall device, match m !! device, m' !! device with
                 | Some d, Some d' => exists st, d' = d <| dev_stats := st |>
                 | None, None => True
                 | _, _ => False
                 end.

Lemma same_devices_refl m : same_devices m m.
Proof. intros device. destruct (m !! device) as [d|]; [|done]. exists (dev_stats d). by destruct d. Qed.
Lemma same_devices_trans m1 m2 m3 : same_devices m1 m2 -> same_devices m2 m3 -> same_devices m1 m3.
Proof.
  intros H1 H2 device. specialize (H1 device). specialize (H2 device).
  destruct (m1 !! device), (m2 !! device), (m3 !! device); try done.
  destruct H1 as [st ->], H2 as [st' ->]. by exists st'.
Qed.
Lemma same_devices_stats m device d st : m !! device = Some d ->
  same_devices m (<[device := d <| dev_stats := st |>]> m).
Proof.
  intros Hd x. destruct (decide (x = device)) as [->|Hne].
  - rewrite lookup_insert_eq, Hd. by exists st.
  - rewrite lookup_insert_ne by done. apply same_devices_refl.
Qed.
Lemma same_devices_known m m' device : same_devices m m' -> known m device -> known m' device.
Proof.
  intros H [Hn [d Hd]]. split; [done|]. specialize (H device). rewrite Hd in H. by destruct (m' !! device).
Qed.
Lemma same_devices_lookup m m' device d : same_devices m m' -> m !! device = Some d ->
  exists st, m' !! device = Some (d <| dev_stats := st |>).
Proof.
  intros H Hd. specialize (H device). rewrite Hd in H. destruct (m' !! device); [|done]. destruct H as [st ->]. by exists st.
Qed.
Lemma same_devices_back m m' device d' : same_devices m m' -> m' !! device = Some d' ->
  exists d st, m !! device = Some d /\ d' = d <| dev_stats := st |>.
Proof.
  intros H Hd. specialize (H device). rewrite Hd in H. destruct (m !! device) as [d|]; [|done].
  destruct H as [st ->]. by exists d, st.
Qed.

(** Only statistics and the world have changed. *)
Definition sent s s' : Prop :=
  exists m w, s' = s <| devs := m |> <| wire := w |> /\ same_devices (devs s) m.

Lemma sent_refl s : sent s s.
Proof. exists (devs s), (wire s). destruct s. split; [done|apply same_devices_refl]. Qed.
Lemma sent_trans s1 s2 s3 : sent s1 s2 -> sent s2 s3 -> sent s1 s3.
Proof.
  intros (m & w & -> & H1) (m' & w' & -> & H2). exists m', w'. split; [done|]. cbn in *. by eapply same_devices_trans.
Qed.

(** ** What the tables need from the devices *)

Definition extends (m m' : gmap Z (net_device W)) : Prop := forall device, known m device -> known m' device.

Lemma cache_extends m m' cache : extends m m' -> cache_ok m cache -> cache_ok m' cache.
Proof.
  intros Hx (Hl & He & Hu). split_and!; [done| |done]. eapply Forall_impl; [exact He|].
  intros e (H1 & H2 & H3 & H4 & H5 & H6). split_and!; try done; try lia. intros Hs. destruct (H5 Hs). split; [by apply Hx|done].
Qed.
Lemma routes_extends m m' slots : extends m m' -> routes_ok m slots -> routes_ok m' slots.
Proof.
  intros Hx (Hl & Hr & Hu). split_and!; [done| |done]. eapply Forall_impl; [exact Hr|].
  intros x H Hus. destruct (H Hus) as (H1 & H2). split; [by apply Hx|done].
Qed.
Lemma pending_extends m m' l : extends m m' -> pending_ok m l -> pending_ok m' l.
Proof.
  intros Hx (Hl & Hp). split; [done|]. eapply Forall_impl; [exact Hp|].
  intros p (H1 & H2 & H3). split_and!; [done..|]. intros Hus. destruct (H3 Hus) as (H4 & H5). split; [by apply Hx|done].
Qed.

Lemma same_devices_extends m m' : same_devices m m' -> extends m m'.
Proof. intros H device. by apply same_devices_known. Qed.

Lemma same_devices_registry m m' table count default_ :
  same_devices m m' -> registry_ok m table count default_ -> registry_ok m' table count default_.
Proof.
  intros H (H1 & H2 & H3 & H4 & H5). split_and!; [done|lia|lia|done| |done].
  intros device. rewrite H4. apply and_iff_compat_l. split.
  - intros (d & Hd & Hr). destruct (same_devices_lookup _ _ _ _ H Hd) as [st Hd']. eexists. split; [exact Hd'|done].
  - intros (d' & Hd & Hr). destruct (same_devices_back _ _ _ _ H Hd) as (d & st & Hd' & ->). by exists d.
Qed.

Lemma same_devices_ok m m' : same_devices m m' ->
  map_Forall (fun _ d => device_ok d) m -> map_Forall (fun _ d => device_ok d) m'.
Proof.
  intros H Hm device d' Hd. destruct (same_devices_back _ _ _ _ H Hd) as (d & st & Hd' & ->). exact (Hm device d Hd').
Qed.

Lemma sent_ok s s' : sent s s' -> net_ok s -> net_ok s'.
Proof.
  intros (m & w & -> & H) [H1 H2 H3 H4 H5 H6 H7 H8]. split; cbn; try done.
  - by eapply same_devices_ok.
  - specialize (H NULL). rewrite H2 in H. by destruct (m !! NULL).
  - by eapply same_devices_registry.
  - eapply cache_extends; [by apply same_devices_extends|done].
  - eapply routes_extends; [by apply same_devices_extends|done].
  - eapply pending_extends; [by apply same_devices_extends|done].
Qed.

(** ** Sending a frame *)

Lemma wp_dev s device d (Q : net_device W -> net W -> Prop) :
  devs s !! device = Some d -> Q d s -> wp (dev device) Q s.
Proof. intros Hd HQ. unfold dev. by eapply wp_load. Qed.

Lemma wp_stat s device d f {Hf : Setter f} n (Q : unit -> net W -> Prop) :
  devs s !! device = Some d ->
  (forall st, Q tt (s <| devs := <[device := d <| dev_stats := st |>]> (devs s) |>)) -> wp (stat device f n) Q s.
Proof.
  intros Hd HQ. unfold stat. apply wp_bind. eapply wp_load; [exact Hd|]. eapply wp_store; [exact Hd|]. apply HQ.
Qed.

(** Statistics of the device, whatever they are now. *)
Lemma wp_stat_sent s0 s device f {Hf : Setter f} n (Q : unit -> net W -> Prop) :
  sent s0 s -> is_Some (devs s !! device) -> (forall s', sent s0 s' -> wire s' = wire s -> is_Some (devs s' !! device) -> Q tt s') ->
  wp (stat device f n) Q s.
Proof.
  intros Hs [d Hd] HQ. eapply wp_stat; [exact Hd|]. intros st. apply HQ; [|done|cbn; rewrite lookup_insert_eq; by eexists].
  eapply sent_trans; [exact Hs|]. exists (<[device := d <| dev_stats := st |>]> (devs s)), (wire s).
  split; [by destruct s|]. by apply same_devices_stats.
Qed.

(** What the driver is given and what comes back. *)
Definition driver_result (r : Z) : Z := if r =? NET_OK then NET_OK else if r <? 0 then r else NET_ERR_IO.

Lemma wp_transmit s device d send frame rest n r w (Q : Z -> net W -> Prop) :
  device <> NULL -> devs s !! device = Some d -> registered d = true -> transmit d = Some send ->
  zlen frame = n -> 14 <= n <= 14 + mtu d ->
  send device (driver_context d) frame (wire s) = Some (r, w) ->
  (forall s', sent s s' -> wire s' = w -> Q (driver_result r) s') ->
  wp (net_device_transmit device (Some (frame ++ rest)) n) Q s.
Proof.
  intros Hn Hd Hr Ht Hl Hm Hsend HQ. unfold net_device_transmit. rewrite (proj2 (Z.eqb_neq device NULL)) by done.
  apply wp_bind. eapply wp_dev; [exact Hd|]. rewrite Hr, Ht.
  rewrite (proj2 (Z.ltb_ge n 14)), (proj2 (Z.ltb_ge _ n)) by lia. cbn [orb]. rewrite span_front by done.
  apply wp_bind, wp_zoom. eexists r, w. split; [exact Hsend|]. set (s1 := s <| wire := w |>).
  assert (H1 : sent s s1) by (exists (devs s), w; split; [by destruct s|apply same_devices_refl]).
  assert (Hd1 : is_Some (devs s1 !! device)) by (by exists d).
  unfold driver_result in HQ. destruct (r =? 0); cbn [negb].
  - apply wp_bind. eapply wp_stat_sent; [exact H1|exact Hd1|]. intros s2 H2 Ew2 Hd2.
    apply wp_bind. eapply wp_stat_sent; [exact H2|exact Hd2|]. intros s3 H3 Ew3 Hd3. apply wp_ret, HQ; [done|].
    by rewrite Ew3, Ew2.
  - apply wp_bind. eapply wp_stat_sent; [exact H1|exact Hd1|]. intros s2 H2 Ew2 Hd2. apply wp_ret, HQ; [done|]. by rewrite Ew2.
Qed.

Lemma wp_ethernet_exact s device d send destination ethertype p n r w (Q : Z -> net W -> Prop) :
  device <> NULL -> devs s !! device = Some d -> registered d = true -> transmit d = Some send ->
  46 <= mtu d <= 1500 -> net_mac_addr_is_zero destination = false -> 0x600 <= ethertype ->
  buffer_ok p n -> n <= mtu d ->
  send device (driver_context d) (eth_frame destination (mac_address d) ethertype (data_of p n)) (wire s) = Some (r, w) ->
  (forall s', sent s s' -> wire s' = w -> Q (driver_result r) s') ->
  wp (net_ethernet_send device destination ethertype p n) Q s.
Proof.
  intros Hn Hd Hr Ht Hm Hz He Hp Hl Hsend HQ. unfold net_ethernet_send.
  rewrite (proj2 (Z.eqb_neq device NULL)) by done. apply wp_bind. eapply wp_dev; [exact Hd|].
  rewrite Hr, Hz, (proj2 (Z.ltb_ge ethertype 0x600)) by lia. cbn [negb orb].
  assert (is_null p && negb (n =? 0) = false) as ->.
  { destruct p; [done|]. destruct Hp as [_ ->]. done. }
  rewrite (proj2 (Z.ltb_ge _ n)) by lia. apply wp_bind.
  destruct (ethernet_frame_spec destination (mac_address d) ethertype p n Hp ltac:(lia)) as [rest E'].
  eapply wp_of_option; [exact E'|]. pose proof (length_data_of p n Hp) as Hlen.
  eapply wp_transmit; [exact Hn|exact Hd|exact Hr|exact Ht|reflexivity| |exact Hsend|exact HQ].
  rewrite length_eth_frame by lia. lia.
Qed.

(** In a good state sending returns, whatever the arguments. *)
Lemma wp_ethernet s device destination ethertype p n (Q : Z -> net W -> Prop) :
  net_ok s -> is_Some (devs s !! device) -> buffer_ok p n ->
  (forall r s', sent s s' -> Q r s') -> wp (net_ethernet_send device destination ethertype p n) Q s.
Proof.
  intros Hok [d Hd] Hp HQ. destruct (decide (device = NULL)) as [->|Hn]; [by rewrite (ok_null s Hok) in Hd|].
  destruct (decide (registered d = true /\ net_mac_addr_is_zero destination = false /\ 0x600 <= ethertype /\ n <= mtu d))
    as [(Hr & Hz & He & Hm)|Hbad].
  - destruct (ok_device s device d Hok Hd) as (_ & _ & Hd').
    destruct (Hd' Hr) as (_ & Hmtu & send & Ht & Hsend).
    destruct (Hsend device (driver_context d) (eth_frame destination (mac_address d) ethertype (data_of p n)) (wire s)) as (r & w & E').
    eapply wp_ethernet_exact; try done; [lia|]. intros. by apply HQ.
  - unfold net_ethernet_send. rewrite (proj2 (Z.eqb_neq device NULL)) by done. apply wp_bind. eapply wp_dev; [exact Hd|].
    assert (is_null p && negb (n =? 0) = false) as -> by (destruct p; [done|]; destruct Hp as [_ ->]; done).
    destruct (registered d); cbn [negb orb]; [|apply wp_ret, HQ, sent_refl].
    destruct (net_mac_addr_is_zero destination); cbn [orb]; [apply wp_ret, HQ, sent_refl|].
    destruct (Z.ltb_spec ethertype 0x600); cbn [orb]; [apply wp_ret, HQ, sent_refl|].
    destruct (Z.ltb_spec (mtu d) n); [apply wp_ret, HQ, sent_refl|]. exfalso. apply Hbad. split_and!; try done; lia.
Qed.
End Invariant.
