(* ===== verification/NetSafe.v ===== *)
(** * Every operation of the network stack keeps the invariant

    Each call returns in a state that satisfies the invariant, whatever its
    arguments and the bytes of a packet: no access goes outside an array or
    through a pointer to no device. *)

From S2P Require Import Prelude Errno NetTypes NetSum Net NetBytes NetProps.

(** A branch of the code; a field of a packet. *)
Ltac split_if := match goal with |- wp (if ?b then _ else _) _ _ => destruct b eqn:? end.

Ltac read_field L := apply wp_bind; let v := fresh "v" in let H := fresh "Hv" in
  destruct L as (v & H & ?); [done || lia..|]; eapply wp_of_option; [exact H|]; clear H.

(** An entry that is given up, and one that waits for an answer. *)
Abbreviation cleared e := (e <| e_state := NET_ARP_ENTRY_EMPTY |> <| e_device := NULL |>) (only parsing).
Abbreviation asking e device a :=
  (e <| e_state := NET_ARP_ENTRY_PENDING |> <| e_device := device |> <| protocol_address := a |>
     <| e_age := 0 |> <| last_request_age := 0 |>) (only parsing).

Section Safe.
Context {G : Garbage} {W : Type} {E : NetEnv W}.
Implicit Types (s t : net W) (d : net_device W) (device : Z).

(** From one good state to another, in which the devices still exist. *)
Definition stepped s t : Prop := net_ok t /\ extends (devs s) (devs t).

Lemma stepped_refl s : net_ok s -> stepped s s.
Proof. intros H. split; [done|]. by intros device. Qed.
Lemma stepped_trans s1 s2 s3 : stepped s1 s2 -> stepped s2 s3 -> stepped s1 s3.
Proof. intros [_ H1] [H2 H3]. split; [done|]. intros device Hd. by apply H3, H1. Qed.
Lemma sent_stepped s t : net_ok s -> sent s t -> stepped s t.
Proof.
  intros Hok Hs. split; [by eapply sent_ok|]. destruct Hs as (m & w & -> & Hm). by apply same_devices_extends.
Qed.

(** ** The table of addresses *)

Lemma find_from_spec cache k device a :
  match find_from cache k device a with
  | Some i => k <= i /\ exists e, rd cache (i - k) = Some e /\ entry_is device a e = true
  | None => Forall (fun e => entry_is device a e = false) cache
  end.
Proof.
  revert k. induction cache as [|e cache IH]; intros k; cbn [find_from]; [done|].
  destruct (entry_is device a e) eqn:He.
  - split; [lia|]. exists e. by rewrite Z.sub_diag.
  - specialize (IH (k + 1)). destruct (find_from cache (k + 1) device a) as [i|]; [|by constructor].
    destruct IH as (Hi & e' & Hr & He'). split; [lia|]. exists e'. split; [|done].
    change (e :: cache) with ([e] ++ cache). replace (i - k) with (zlen [e] + (i - (k + 1))) by (cbn; lia).
    by rewrite rd_app_r by lia.
Qed.

Lemma find_some cache device a i :
  find_from cache 0 device a = Some i -> exists e, rd cache i = Some e /\ entry_is device a e = true.
Proof. intros H. pose proof (find_from_spec cache 0 device a) as Hs. rewrite H in Hs. rewrite Z.sub_0_r in Hs. apply Hs. Qed.
Lemma find_none cache device a j e :
  find_from cache 0 device a = None -> cache !! j = Some e -> entry_is device a e = false.
Proof.
  intros H Hj. pose proof (find_from_spec cache 0 device a) as Hs. rewrite H in Hs. exact (Forall_lookup_1 _ _ _ _ Hs Hj).
Qed.

Lemma entry_is_spec (m : gmap Z (net_device W)) device a e : entry_ok m e -> ip_ok a ->
  entry_is device a e = true <-> e_state e <> NET_ARP_ENTRY_EMPTY /\ e_device e = device /\ protocol_address e = a.
Proof.
  intros (Hip & _) Ha. unfold entry_is. rewrite ip_equal_spec by done.
  rewrite !andb_true_iff, negb_true_iff, Z.eqb_eq, bool_decide_eq_false, bool_decide_eq_true. naive_solver.
Qed.

Lemma allocate_from_range cache k oldest age :
  0 <= k -> 0 <= oldest < k + zlen cache -> 0 <= allocate_from cache k oldest age < k + zlen cache.
Proof.
  revert k oldest age. induction cache as [|e cache IH]; intros k oldest age Hk Ho; cbn [allocate_from length] in *; [lia|].
  destruct (bool_decide _); [lia|]. destruct (age <? e_age e).
  - specialize (IH (k + 1) k (e_age e)). lia.
  - specialize (IH (k + 1) oldest age). lia.
Qed.

Lemma wp_allocate_entry s (Q : Z -> net W -> Prop) :
  net_ok s -> (forall i, 0 <= i < 16 -> Q i s) -> wp allocate_entry Q s.
Proof.
  intros Hok HQ. destruct (ok_cache s Hok) as (Hl & _). unfold allocate_entry.
  destruct (rd_Some (net_arp_cache s) 0 ltac:(lia)) as [e He].
  apply wp_bind. eapply wp_elem; [exact He|]. apply wp_gets, HQ.
  pose proof (allocate_from_range (net_arp_cache s) 0 0 (e_age e)). lia.
Qed.

(** Overwriting an entry. *)
Lemma cache_insert (m : gmap Z (net_device W)) cache i e :
  cache_ok m cache -> entry_ok m e ->
  (forall j e', cache !! j = Some e' -> j <> i -> same_entry e' e -> False) -> cache_ok m (<[i := e]> cache).
Proof.
  intros (Hl & He & Hu) Hok Hne. split_and!; [by rewrite length_insert|by apply Forall_insert|].
  by apply (unique_insert _).
Qed.

(** The entry of an address, or a slot for a new one. *)
Definition slot_for s device (a : net_ipv4_addr) (i : Z) : Prop :=
  0 <= i < 16 /\
  forall j e, net_arp_cache s !! j = Some e -> j <> Z.to_nat i -> entry_is device a e = false.

Lemma found_slot s device a i :
  net_ok s -> ip_ok a -> find_from (net_arp_cache s) 0 device a = Some i -> slot_for s device a i.
Proof.
  intros Hok Ha Hi. destruct (ok_cache s Hok) as (Hl & He & Hu). destruct (find_some _ _ _ _ Hi) as (e & Hr & Hm).
  apply rd_range in Hr as Hr'. apply rd_lookup in Hr as [_ Hr]. split; [lia|]. intros j e' Hj Hne.
  apply not_true_is_false. intros Hm'. apply Hne.
  pose proof (Forall_lookup_1 _ _ _ _ He Hr) as H1. pose proof (Forall_lookup_1 _ _ _ _ He Hj) as H2.
  apply (entry_is_spec _ _ _ _ H1 Ha) in Hm as (? & ? & ?). apply (entry_is_spec _ _ _ _ H2 Ha) in Hm' as (? & ? & ?).
  eapply Hu; [exact Hj|exact Hr|]. split_and!; congruence.
Qed.

Lemma slot_insert s device a i e :
  net_ok s -> ip_ok a -> slot_for s device a i -> entry_ok (devs s) e ->
  e_device e = device -> protocol_address e = a -> cache_ok (devs s) (<[Z.to_nat i := e]> (net_arp_cache s)).
Proof.
  intros Hok Ha [Hi Hs] He Hd Hp. apply cache_insert; [apply Hok|done|]. intros j e' Hj Hne (H1 & H2 & H3 & H4).
  specialize (Hs j e' Hj Hne). apply not_true_iff_false in Hs. apply Hs. destruct (ok_cache s Hok) as (_ & Hf & _).
  apply (entry_is_spec (devs s)); [exact (Forall_lookup_1 _ _ _ _ Hf Hj)|done|]. split_and!; [done|congruence..].
Qed.

Lemma slot_rd s device a i : net_ok s -> slot_for s device a i ->
  exists e, rd (net_arp_cache s) i = Some e /\ entry_ok (devs s) e.
Proof.
  intros Hok [Hi _]. destruct (ok_cache s Hok) as (Hl & He & _).
  destruct (rd_Some (net_arp_cache s) i ltac:(lia)) as [e Hr]. exists e. split; [done|].
  apply rd_lookup in Hr as [_ Hr]. exact (Forall_lookup_1 _ _ _ _ He Hr).
Qed.

Lemma wp_slot s device a (Q : Z -> net W -> Prop) :
  net_ok s -> ip_ok a -> (forall i, slot_for s device a i -> Q i s) ->
  wp (match find_from (net_arp_cache s) 0 device a with None => allocate_entry | Some i => mret i end) Q s.
Proof.
  intros Hok Ha HQ. destruct (find_from _ _ _ _) as [i|] eqn:Hf.
  - apply wp_ret, HQ. by apply found_slot.
  - apply wp_allocate_entry; [done|]. intros i Hi. apply HQ. split; [done|]. intros j e Hj _. by eapply find_none.
Qed.

(** A state in which only the cache has changed. *)
Lemma ok_with_cache s cache : net_ok s -> cache_ok (devs s) cache -> net_ok (s <| net_arp_cache := cache |>).
Proof. intros [H1 H2 H3 H4 H5 H6 H7 H8] Hc. by split. Qed.
Lemma stepped_cache s cache : net_ok s -> cache_ok (devs s) cache -> stepped s (s <| net_arp_cache := cache |>).
Proof. intros Hok Hc. split; [by apply ok_with_cache|]. by intros device. Qed.

(** ** Looking up an address *)

Definition lookup_result s device d (a : net_ipv4_addr) : option net_mac_addr :=
  if negb (registered d) then None
  else if net_ipv4_addr_is_limited_broadcast a || is_directed_broadcast d a then Some net_mac_addr_broadcast
  else if net_ipv4_addr_is_multicast a then Some (ipv4_multicast_mac a)
  else if configured (ipv4 d) && net_ipv4_addr_equal a (address (ipv4 d)) then Some (mac_address d)
  else i ← find_from (net_arp_cache s) 0 device a; e ← rd (net_arp_cache s) i;
       if bool_decide (e_state e = NET_ARP_ENTRY_VALID) then Some (hardware_address e) else None.

Lemma wp_lookup s device d a (Q : option net_mac_addr -> net W -> Prop) :
  device <> NULL -> devs s !! device = Some d -> Q (lookup_result s device d a) s -> wp (net_arp_lookup device a) Q s.
Proof.
  intros Hn Hd HQ. unfold net_arp_lookup, lookup_result in *. rewrite (proj2 (Z.eqb_neq device NULL)) by done.
  apply wp_bind. eapply wp_dev; [exact Hd|]. do 4 (split_if; [by apply wp_ret|]).
  apply wp_bind. unfold find_entry. apply wp_gets. destruct (find_from _ _ _ _) as [i|] eqn:Hf; [|by apply wp_ret].
  destruct (find_some _ _ _ _ Hf) as (e & Hr & _). cbn [mbind option_bind] in HQ. rewrite Hr in HQ. cbn [mbind option_bind] in HQ.
  apply wp_bind. eapply wp_elem; [exact Hr|]. destruct (bool_decide _); by apply wp_ret.
Qed.

(** ** Requests *)

Definition request_refused d (a : net_ipv4_addr) : bool :=
  negb (registered d) || negb (configured (ipv4 d)) || negb (net_ipv4_addr_is_unicast a) || is_directed_broadcast d a.

Lemma wp_request_refused s device d a (Q : Z -> net W -> Prop) :
  device <> NULL -> devs s !! device = Some d -> request_refused d a = true -> Q NET_ERR_INVALID s ->
  wp (net_arp_request device a) Q s.
Proof.
  intros Hn Hd Hr HQ. unfold net_arp_request. rewrite (proj2 (Z.eqb_neq device NULL)) by done.
  apply wp_bind. eapply wp_dev; [exact Hd|]. unfold request_refused in Hr. rewrite Hr. by apply wp_ret.
Qed.

Lemma arp_buffer operation sender sender_ip target target_ip :
  mac_ok sender -> ip_ok sender_ip -> mac_ok target -> ip_ok target_ip ->
  buffer_ok (Some (arp_bytes operation sender sender_ip target target_ip)) 28 /\
  data_of (Some (arp_bytes operation sender sender_ip target target_ip)) 28 = arp_bytes operation sender sender_ip target target_ip.
Proof. intros. split; [|done]. split; [lia|]. split; [cbn; lia|by apply arp_bytes_ok]. Qed.

Lemma wp_request s device a (Q : Z -> net W -> Prop) :
  net_ok s -> known (devs s) device -> ip_ok a -> (forall r t, sent s t -> Q r t) -> wp (net_arp_request device a) Q s.
Proof.
  intros Hok [Hn [d Hd]] Ha HQ. destruct (request_refused d a) eqn:Hr.
  - eapply wp_request_refused; [done..|]. apply HQ, sent_refl.
  - unfold net_arp_request. rewrite (proj2 (Z.eqb_neq device NULL)) by done.
    apply wp_bind. eapply wp_dev; [exact Hd|]. unfold request_refused in Hr. rewrite Hr.
    destruct (ok_device s device d Hok Hd) as (_ & (Hc1 & _) & Hd').
    assert (registered d = true) as Hreg by (by destruct (registered d)). destruct (Hd' Hreg) as ((Hmac & _) & _).
    apply wp_bind. eapply wp_of_option; [apply arp_packet_spec|].
    apply wp_ethernet; [done|by exists d| |done]. by apply arp_buffer; [..|apply mac_zero_ok|].
Qed.

(** ** Waiting packets *)

Lemma pending_insert (m : gmap Z (net_device W)) l i p : pending_ok m l -> packet_ok m p -> pending_ok m (<[i := p]> l).
Proof. intros [Hl Hp] H. split; [by rewrite length_insert|by apply Forall_insert]. Qed.
Lemma ok_with_pending s l : net_ok s -> pending_ok (devs s) l -> net_ok (s <| net_ipv4_pending := l |>).
Proof. intros [H1 H2 H3 H4 H5 H6 H7 H8] Hc. by split. Qed.
Lemma stepped_pending s l : net_ok s -> pending_ok (devs s) l -> stepped s (s <| net_ipv4_pending := l |>).
Proof. intros Hok Hc. split; [by apply ok_with_pending|]. by intros device. Qed.
Lemma pending_rd s i : net_ok s -> 0 <= i < 4 -> exists p, rd (net_ipv4_pending s) i = Some p /\ packet_ok (devs s) p.
Proof.
  intros Hok Hi. destruct (ok_pending s Hok) as [Hl Hp]. destruct (rd_Some (net_ipv4_pending s) i ltac:(lia)) as [p Hr].
  exists p. split; [done|]. apply rd_lookup in Hr as [_ Hr]. exact (Forall_lookup_1 _ _ _ _ Hp Hr).
Qed.

(** A packet that waits can be sent, and is then gone. *)
Lemma waiting_buffer (m : gmap Z (net_device W)) p : packet_ok m p -> p_used p = true -> buffer_ok (Some (packet p)) (p_length p).
Proof. intros (Hl & Hb & Hu) Hused. destruct (Hu Hused) as (_ & _ & Hn & _). split; [lia|]. split; [lia|done]. Qed.

Lemma wp_send_waiting s i p device destination (Q : unit -> net W -> Prop) :
  net_ok s -> 0 <= i < 4 -> rd (net_ipv4_pending s) i = Some p -> packet_ok (devs s) p -> p_used p = true ->
  known (devs s) device -> (forall t, stepped s t -> net_arp_cache t = net_arp_cache s -> Q tt t) ->
  wp (net_ethernet_send device destination NET_ETHERTYPE_IPV4 (Some (packet p)) (p_length p);;
      update net_ipv4_pending i (fun p => p <| p_used := false |>)) Q s.
Proof.
  intros Hok Hi Hr Hp Hu [_ Hd] HQ. apply wp_bind. apply wp_ethernet; [done|done|by eapply waiting_buffer|]. intros r t Ht.
  pose proof (sent_stepped s t Hok Ht) as Hst. assert (Er : rd (net_ipv4_pending t) i = Some p) by (by destruct Ht as (m & w & -> & _)).
  eapply wp_update; [exact Er|]. apply HQ; [|by destruct Ht as (m & w & -> & _)].
  eapply stepped_trans; [exact Hst|]. apply stepped_pending; [apply Hst|].
  destruct Hst as [Hokt _]. destruct (pending_rd t i Hokt Hi) as (p' & Er' & Hp'). simplify_eq.
  apply pending_insert; [apply Hokt|]. destruct Hp' as (H1 & H2 & _). split_and!; done.
Qed.

Lemma stepped_known s t device : stepped s t -> known (devs s) device -> known (devs t) device.
Proof. intros [_ H]. apply H. Qed.

Lemma wp_notify s device a (Q : unit -> net W -> Prop) :
  net_ok s -> known (devs s) device -> ip_ok a -> (forall t, stepped s t -> net_arp_cache t = net_arp_cache s -> Q tt t) ->
  wp (net_ipv4_notify_arp_resolved device a) Q s.
Proof.
  intros Hok Hk Ha HQ. destruct Hk as [Hn [d Hd]]. unfold net_ipv4_notify_arp_resolved.
  rewrite (proj2 (Z.eqb_neq device NULL)) by done. apply wp_bind. eapply wp_lookup; [done|exact Hd|].
  destruct (lookup_result s device d a) as [mac|]; [|by apply wp_ret, HQ; [apply stepped_refl|]].
  eapply wp_mono; [apply (wp_for_m (fun _ _ t => stepped s t /\ net_arp_cache t = net_arp_cache s))|];
    [|by split; [apply stepped_refl|]|by intros [] t [? ?]; apply HQ].
  intros j [] t Hj [Ht Hct]. destruct (pending_rd t j ltac:(apply Ht) ltac:(lia)) as (p & Hr & Hp).
  apply wp_bind. eapply wp_elem; [exact Hr|]. apply wp_when; [|done]. intros Hc.
  apply andb_prop in Hc as [[Hu _]%andb_prop _].
  apply (wp_send_waiting t j p); [apply Ht|lia|done|done|done| |].
  { apply (stepped_known s t); [done|]. split; [done|by exists d]. }
  intros t' Ht' Hct'. split; [by eapply stepped_trans|congruence].
Qed.

(** ** Learning an address *)

Lemma wp_learn s device a mac (Q : unit -> net W -> Prop) :
  net_ok s -> known (devs s) device -> ip_ok a -> mac_ok mac ->
  (forall t, stepped s t -> net_arp_cache t = net_arp_cache s \/ (net_ipv4_addr_is_unicast a = true /\ mac_unicast mac /\
     exists i, slot_for s device a i /\
       net_arp_cache t = <[Z.to_nat i := mk_entry NET_ARP_ENTRY_VALID device a mac 0 0]> (net_arp_cache s)) -> Q tt t) ->
  wp (cache_protocol_address device a mac) Q s.
Proof.
  intros Hok Hk Ha Hm HQ. unfold cache_protocol_address. split_if; [by apply wp_ret, HQ; [apply stepped_refl|left]|].
  apply orb_false_iff in Heqb as [[Hu Hz]%orb_false_iff Hmc]. apply negb_false_iff in Hu.
  apply wp_bind. unfold find_entry. apply wp_gets. apply wp_bind, wp_slot; [done..|]. intros i Hi.
  destruct (slot_rd s device a i Hok Hi) as (e & Hr & He). apply wp_bind. eapply wp_update; [exact Hr|].
  assert (Hst : stepped s (s <| net_arp_cache := <[Z.to_nat i := mk_entry NET_ARP_ENTRY_VALID device a mac 0 0]> (net_arp_cache s) |>)).
  { apply stepped_cache; [done|]. eapply slot_insert; [done|exact Ha|exact Hi| |done..].
    split_and!; cbn; done. }
  apply wp_notify; [apply Hst|by eapply stepped_known|done|]. intros t Ht Hct. apply HQ; [exact (stepped_trans _ _ _ Hst Ht)|].
  right. split; [done|]. split; [done|]. by exists i.
Qed.

(** ** Resolving an address *)

Lemma cleared_ok s i e : net_ok s -> entry_ok (devs s) e -> cache_ok (devs s) (<[i := cleared e]> (net_arp_cache s)).
Proof.
  intros Hok (H1 & H2 & H3 & H4 & H5 & H6). apply cache_insert; [apply Hok| |].
  - split_and!; cbn; try done; lia.
  - intros j e' _ _ (_ & He & _). done.
Qed.

Lemma wp_clear s i e (Q : unit -> net W -> Prop) :
  net_ok s -> rd (net_arp_cache s) i = Some e -> (forall t, stepped s t -> Q tt t) ->
  wp (update net_arp_cache i (fun e => cleared e)) Q s.
Proof.
  intros Hok Hr HQ. eapply wp_update; [exact Hr|]. apply HQ, stepped_cache; [done|]. apply cleared_ok; [done|].
  apply rd_lookup in Hr as [_ Hr]. destruct (ok_cache s Hok) as (_ & He & _). exact (Forall_lookup_1 _ _ _ _ He Hr).
Qed.

Lemma asking_ok s device a e : known (devs s) device -> ip_ok a -> net_ipv4_addr_is_unicast a = true ->
  entry_ok (devs s) e -> entry_ok (devs s) (asking e device a).
Proof. intros Hk Ha Hu (H1 & H2 & H3 & H4 & H5 & H6). split_and!; cbn; try done; lia. Qed.

(** Asking for an address, once a slot for it is found. *)
Lemma wp_ask s device a i (Q : Z * option net_mac_addr -> net W -> Prop) :
  net_ok s -> known (devs s) device -> ip_ok a -> slot_for s device a i -> (forall r t, stepped s t -> Q (r, None) t) ->
  wp (update net_arp_cache i (fun e => asking e device a);;
      result ← net_arp_request device a;
      if negb (result =? NET_OK) then
        if result =? NET_ERR_AGAIN then mret (NET_ERR_AGAIN, None)
        else update net_arp_cache i (fun e => cleared e);; mret (result, None)
      else mret (NET_ERR_AGAIN, None)) Q s.
Proof.
  intros Hok Hk Ha Hi HQ. destruct (slot_rd s device a i Hok Hi) as (e & Hr & He). pose proof (proj1 Hi) as Hi16.
  destruct (ok_cache s Hok) as (Hl & _).
  apply wp_bind. eapply wp_update; [exact Hr|].
  set (s1 := s <| net_arp_cache := <[Z.to_nat i := asking e device a]> (net_arp_cache s) |>).
  assert (Hr1 : rd (net_arp_cache s1) i = Some (asking e device a)) by (apply rd_insert_eq; lia).
  destruct Hk as [Hn [d Hd]]. destruct (request_refused d a) eqn:Href.
  - apply wp_bind. eapply wp_request_refused; [done|exact Hd|done|]. cbn [Z.eqb negb].
    apply wp_bind. eapply wp_update; [exact Hr1|]. apply wp_ret, HQ.
    set (e2 := cleared (asking e device a)). change (net_arp_cache s1) with (<[Z.to_nat i := asking e device a]> (net_arp_cache s)).
    rewrite list_insert_insert_eq. apply (stepped_cache s); [done|].
    apply cache_insert; [apply Hok| |by intros j e' _ _ (_ & He' & _)].
    destruct He as (H1 & H2 & H3 & H4 & H5 & H6). split_and!; cbn; try done; lia.
  - unfold request_refused in Href. apply orb_false_iff in Href as [[[_ _]%orb_false_iff Hu%negb_false_iff]%orb_false_iff _].
    assert (Hs1 : stepped s s1).
    { apply stepped_cache; [done|]. eapply slot_insert; [done|exact Ha|exact Hi| |done..]. by apply asking_ok. }
    apply wp_bind. apply wp_request; [apply Hs1|split; [done|by exists d]|done|]. intros r t Ht.
    pose proof (stepped_trans _ _ _ Hs1 (sent_stepped _ _ (proj1 Hs1) Ht)) as Hst.
    split_if; [|by apply wp_ret, HQ]. split_if; [by apply wp_ret, HQ|].
    assert (Hrt : rd (net_arp_cache t) i = Some (asking e device a)) by (by destruct Ht as (m & w & -> & _)).
    apply wp_bind. eapply wp_clear; [apply Hst|exact Hrt|]. intros t' Ht'. apply wp_ret, HQ. exact (stepped_trans _ _ _ Hst Ht').
Qed.

Lemma wp_resolve s device a (Q : Z * option net_mac_addr -> net W -> Prop) :
  net_ok s -> known (devs s) device -> ip_ok a -> (forall r t, stepped s t -> Q r t) ->
  wp (net_arp_resolve device a) Q s.
Proof.
  intros Hok Hk Ha HQ. pose proof Hk as [Hn [d Hd]]. pose proof (stepped_refl s Hok) as Hs. unfold net_arp_resolve.
  rewrite (proj2 (Z.eqb_neq device NULL)) by done. apply wp_bind. eapply wp_dev; [exact Hd|].
  split_if; [by apply wp_ret, HQ|]. apply wp_bind. eapply wp_lookup; [done|exact Hd|].
  destruct (lookup_result s device d a); [by apply wp_ret, HQ|]. split_if; [by apply wp_ret, HQ|].
  apply wp_bind. unfold find_entry. apply wp_gets. apply wp_bind.
  assert (Hrest : forall b : bool, wp (if b then mret (NET_ERR_AGAIN, None)
    else i ← match find_from (net_arp_cache s) 0 device a with None => allocate_entry | Some i => mret i end;
      update net_arp_cache i (fun e => asking e device a);;
      result ← net_arp_request device a;
      if negb (result =? NET_OK) then
        if result =? NET_ERR_AGAIN then mret (NET_ERR_AGAIN, None)
        else update net_arp_cache i (fun e => cleared e);; mret (result, None)
      else mret (NET_ERR_AGAIN, None)) Q s).
  { intros []; [by apply wp_ret, HQ|]. apply wp_bind, wp_slot; [done..|]. intros i Hi. apply wp_ask; try done.
    intros r t Ht. by apply HQ. }
  destruct (find_from (net_arp_cache s) 0 device a) as [i|] eqn:Hf; [|apply wp_ret; exact (Hrest false)].
  destruct (find_some _ _ _ _ Hf) as (e & Hr & _). apply wp_bind. eapply wp_elem; [exact Hr|]. apply wp_ret. exact (Hrest _).
Qed.

(** ** Receiving an ARP packet *)

Lemma wp_arp_reply s device sender sender_ip mac a (Q : Z -> net W -> Prop) :
  net_ok s -> known (devs s) device -> mac_ok sender -> ip_ok sender_ip -> mac_ok mac -> ip_ok a ->
  (forall r t, stepped s t -> net_arp_cache t = net_arp_cache s -> Q r t) ->
  wp (reply ← of_option (arp_packet NET_ARP_OPERATION_REPLY sender sender_ip mac a);
      net_ethernet_send device mac NET_ETHERTYPE_ARP (Some reply) NET_ARP_PACKET_LEN) Q s.
Proof.
  intros Hok Hk Hs Hi Hm Ha HQ. apply wp_bind. eapply wp_of_option; [apply arp_packet_spec|].
  apply wp_ethernet; [done|apply Hk|by apply arp_buffer|]. intros r t Ht. apply HQ; [by apply sent_stepped|].
  by destruct Ht as (m & w & -> & _).
Qed.

(** What a packet may teach: the address of its sender, when it is for this host
    and, if it is an answer, when the host has asked. *)
Definition taught s device d (source : net_mac_addr) (p : list Z) t : Prop :=
  net_arp_cache t = net_arp_cache s \/
  exists i a, slot_for s device a i /\ net_arp_cache t = <[Z.to_nat i := mk_entry NET_ARP_ENTRY_VALID device a source 0 0]> (net_arp_cache s) /\
    ip_unicast a /\ mac_unicast source /\ a <> address (ipv4 d) /\
    mac_at p 8 = Some source /\ ip_at p 14 = Some a /\ ip_at p 24 = Some (address (ipv4 d)) /\
    (net_read_be16 p 6 = Some NET_ARP_OPERATION_REQUEST \/
     net_read_be16 p 6 = Some NET_ARP_OPERATION_REPLY /\ mac_at p 18 = Some (mac_address d) /\
     is_Some (find_from (net_arp_cache s) 0 device a)).

Lemma taught_learned s device d source p t a op :
  ip_ok a -> a <> address (ipv4 d) -> mac_at p 8 = Some source -> ip_at p 14 = Some a -> ip_at p 24 = Some (address (ipv4 d)) ->
  net_read_be16 p 6 = Some op ->
  op = NET_ARP_OPERATION_REQUEST \/
    op = NET_ARP_OPERATION_REPLY /\ mac_at p 18 = Some (mac_address d) /\ is_Some (find_from (net_arp_cache s) 0 device a) ->
  net_arp_cache t = net_arp_cache s \/ (net_ipv4_addr_is_unicast a = true /\ mac_unicast source /\ exists i, slot_for s device a i /\
    net_arp_cache t = <[Z.to_nat i := mk_entry NET_ARP_ENTRY_VALID device a source 0 0]> (net_arp_cache s)) ->
  taught s device d source p t.
Proof.
  intros Ha Hne Hm Hi Ht Hop Hwhy [Hct|(Hu & Hs & i & Hslot & Hct)]; [by left|]. right. exists i, a.
  split_and!; try done; try apply Hs. destruct Hwhy as [->|(-> & Hth & Hf)]; [by left|by right].
Qed.

Lemma wp_arp_input_teaches s device d source p n (Q : Z -> net W -> Prop) :
  net_ok s -> device <> NULL -> devs s !! device = Some d -> mac_ok source -> input_ok (Some p) n ->
  (forall r t, stepped s t -> taught s device d source p t -> Q r t) -> wp (net_arp_input device source (Some p) n) Q s.
Proof.
  intros Hok Hn Hd Hsrc [Hn0 [Hl Hb]] HQ. assert (Hk : known (devs s) device) by (split; [done|by exists d]).
  assert (HQ0 : forall r, Q r s) by (intros r; apply HQ; [by apply stepped_refl|by left]). unfold net_arp_input.
  rewrite (proj2 (Z.eqb_neq device NULL)) by done. cbn [orb].
  destruct (Z.ltb_spec n 28); [by apply wp_ret|]. apply wp_bind. eapply wp_dev; [exact Hd|].
  destruct (registered d) eqn:Hreg; cbn [negb orb]; [|by apply wp_ret]. split_if; [by apply wp_ret|].
  destruct (ok_device s device d Hok Hd) as (_ & (Hc & _) & Hd'). destruct (Hd' Hreg) as ((Hmac & _) & _).
  read_field (read_be16_ok p 0). read_field (read_be16_ok p 2). read_field (rd_u8 p 4). read_field (rd_u8 p 5).
  split_if; [by apply wp_ret|]. destruct (read_be16_ok p 6) as (op & Hop & _); [done|lia|lia|].
  apply wp_bind. eapply wp_of_option; [exact Hop|]. split_if; [by apply wp_ret|].
  destruct (mac_at_ok p 8) as (sh & Hsh & Hshok); [done|lia|lia|]. destruct (mac_at_ok p 18) as (th & Hth & Hthok); [done|lia|lia|].
  destruct (ip_at_ok p 14) as (sp & Hsp & Hspok); [done|lia|lia|]. destruct (ip_at_ok p 24) as (tp & Htp & Htpok); [done|lia|lia|].
  apply wp_bind. eapply wp_of_option; [exact Hsh|]. apply wp_bind. eapply wp_of_option; [exact Hth|].
  apply wp_bind. eapply wp_of_option; [exact Hsp|]. apply wp_bind. eapply wp_of_option; [exact Htp|].
  split_if; [by apply wp_ret|].
  apply orb_false_iff in Heqb2 as [[[[[Hsrc' _]%orb_false_iff _]%orb_false_iff _]%orb_false_iff Hne]%orb_false_iff Htar].
  apply negb_false_iff in Hsrc', Htar. rewrite mac_equal_spec in Hsrc' by done. rewrite !ip_equal_spec in Hne, Htar by done.
  apply bool_decide_eq_true_1 in Hsrc' as ->. apply bool_decide_eq_true_1 in Htar as ->. apply bool_decide_eq_false_1 in Hne.
  split_if.
  - apply Z.eqb_eq in Heqb2 as ->. apply wp_bind. unfold find_entry. apply wp_gets. split_if; [by apply wp_ret|].
    apply orb_false_iff in Heqb2 as [[Hthm _]%orb_false_iff Hf]. apply negb_false_iff in Hthm.
    rewrite mac_equal_spec in Hthm by done. apply bool_decide_eq_true_1 in Hthm as ->.
    apply wp_bind, wp_learn; try done. intros t Ht Hct. apply wp_ret, HQ; [done|].
    eapply (taught_learned _ _ _ _ _ _ sp); [done..| |done]. right. destruct (find_from _ _ _ _); [|done]. by split_and!.
  - assert (op = 1) as -> by lia. apply wp_bind. apply wp_when.
    + intros _. apply wp_learn; try done. intros t Ht Hct. apply wp_arp_reply; try done; [apply Ht|by eapply stepped_known|].
      intros r t' Ht' Hct'. apply HQ; [exact (stepped_trans _ _ _ Ht Ht')|].
      eapply (taught_learned _ _ _ _ _ _ sp); [done..|by left|by rewrite Hct'].
    + intros _. apply wp_arp_reply; try done. intros r t Ht Hct. apply HQ; [done|]. by left.
Qed.

Lemma wp_arp_input s device source p n (Q : Z -> net W -> Prop) :
  net_ok s -> known (devs s) device -> mac_ok source -> input_ok p n -> (forall r t, stepped s t -> Q r t) ->
  wp (net_arp_input device source p n) Q s.
Proof.
  intros Hok [Hn [d Hd]] Hsrc Hp HQ. destruct p as [p|]; [|by apply wp_ret, HQ, stepped_refl].
  eapply wp_arp_input_teaches; [done|done|exact Hd|done|done|]. intros r t Ht _. by apply HQ.
Qed.

(** ** Time *)

Lemma saturating_add_spec a n : is_u32 a -> 0 <= n -> a <= saturating_add a n < 2 ^ 32.
Proof. intros Ha Hn. unfold saturating_add, UINT32_MAX. destruct (Z.ltb_spec (2 ^ 32 - 1 - a) n); lia. Qed.

Lemma cache_rd s i : net_ok s -> 0 <= i < 16 -> exists e, rd (net_arp_cache s) i = Some e /\ entry_ok (devs s) e.
Proof.
  intros Hok Hi. destruct (ok_cache s Hok) as (Hl & He & _). destruct (rd_Some (net_arp_cache s) i ltac:(lia)) as [e Hr].
  exists e. split; [done|]. apply rd_lookup in Hr as [_ Hr]. exact (Forall_lookup_1 _ _ _ _ He Hr).
Qed.

(** An entry that keeps its state, device and address. *)
Lemma entry_aged s i e e' :
  net_ok s -> rd (net_arp_cache s) i = Some e -> entry_ok (devs s) e' ->
  e_state e' = e_state e -> e_device e' = e_device e -> protocol_address e' = protocol_address e ->
  cache_ok (devs s) (<[Z.to_nat i := e']> (net_arp_cache s)).
Proof.
  intros Hok Hr He' H1 H2 H3. apply cache_insert; [apply Hok|done|]. intros j x Hj Hne Hs.
  apply rd_lookup in Hr as [_ Hr]. destruct (ok_cache s Hok) as (_ & _ & Hu). apply Hne, (Hu j (Z.to_nat i) x e Hj Hr).
  destruct Hs as (? & ? & ? & ?). split_and!; congruence.
Qed.

Lemma wp_arp_tick s n (Q : unit -> net W -> Prop) :
  net_ok s -> 0 <= n -> (forall t, stepped s t -> Q tt t) -> wp (net_arp_tick n) Q s.
Proof.
  intros Hok Hn HQ. unfold net_arp_tick.
  eapply wp_mono; [apply (wp_for_m (fun _ _ t => stepped s t))|]; [|by apply stepped_refl|intros [] t; apply HQ].
  intros j [] t Hj Ht. pose proof (proj1 Ht) as Hokt. destruct (cache_rd t j Hokt ltac:(lia)) as (e & Hr & He).
  apply wp_bind. eapply wp_elem; [exact Hr|]. split_if; [by apply wp_ret|].
  pose proof He as (H1 & H2 & H3 & H4 & H5 & H6). pose proof (saturating_add_spec (e_age e) n ltac:(lia) Hn) as Hsat.
  set (age := saturating_add (e_age e) n) in *. apply wp_bind. eapply wp_update; [exact Hr|].
  set (t1 := t <| net_arp_cache := _ |>).
  assert (Ht1 : stepped s t1).
  { eapply stepped_trans; [exact Ht|]. apply stepped_cache; [done|]. eapply entry_aged; [done|exact Hr| |done..].
    split_and!; cbn; try done; lia. }
  assert (Hr1 : rd (net_arp_cache t1) j = Some (e <| e_age := age |>)) by (apply rd_insert_eq; apply rd_range in Hr; lia).
  split_if.
  { eapply wp_clear; [apply Ht1|exact Hr1|]. intros t2 Ht2. exact (stepped_trans _ _ _ Ht1 Ht2). }
  split_if; [|by apply wp_ret]. apply bool_decide_eq_false_1 in Heqb. destruct (H5 Heqb) as [Hk Hu].
  apply wp_bind. apply wp_request; [apply Ht1|exact Hk|done|]. intros r t2 Ht2.
  pose proof (stepped_trans _ _ _ Ht1 (sent_stepped _ _ (proj1 Ht1) Ht2)) as Hst2.
  apply wp_when; [|done]. intros _.
  assert (Hr2 : rd (net_arp_cache t2) j = Some (e <| e_age := age |>)) by (by destruct Ht2 as (m & w & -> & _)).
  eapply wp_update; [exact Hr2|]. eapply stepped_trans; [exact Hst2|]. apply stepped_cache; [apply Hst2|].
  destruct (cache_rd t2 j (proj1 Hst2) ltac:(lia)) as (e2 & Hr2' & He2). simplify_eq.
  eapply entry_aged; [apply Hst2|exact Hr2| |done..]. destruct He2 as (? & ? & ? & ? & ? & ?). split_and!; cbn in *; try done; lia.
Qed.

Lemma wp_arp_reset s (Q : unit -> net W -> Prop) :
  net_ok s -> (forall t, stepped s t -> Q tt t) -> wp net_arp_reset Q s.
Proof.
  intros Hok HQ. unfold net_arp_reset.
  eapply wp_mono; [apply (wp_for_m (fun _ _ t => stepped s t))|]; [|by apply stepped_refl|intros [] t; apply HQ].
  intros j [] t Hj Ht. destruct (cache_rd t j (proj1 Ht) ltac:(lia)) as (e & Hr & H1 & H2 & _).
  eapply wp_update; [exact Hr|]. eapply stepped_trans; [exact Ht|]. apply stepped_cache; [apply Ht|].
  apply cache_insert; [apply Ht|split_and!; cbn; done|]. by intros k e' _ _ (_ & He' & _).
Qed.
End Safe.
