(* ===== verification/NetSafeIp.v ===== *)
(** * IPv4 and ICMP keep the invariant

    Routing, sending, handlers, waiting packets, and everything that happens when
    a frame arrives. *)

From S2P Require Import Prelude Errno NetTypes NetSum Net NetBytes NetProps NetSafe.

Section SafeIp.
Context {G : Garbage} {W : Type} {E : NetEnv W}.
Implicit Types (s t : net W) (d : net_device W) (device : Z).

(** ** Scanning a table *)

Lemma scan_spec {A} (p : A -> bool) l k :
  match scan p l k with
  | Some i => k <= i /\ exists x, rd l (i - k) = Some x /\ p x = true
  | None => Forall (fun x => p x = false) l
  end.
Proof.
  revert k. induction l as [|x l IH]; intros k; cbn [scan]; [done|]. destruct (p x) eqn:Hx.
  - split; [lia|]. exists x. by rewrite Z.sub_diag.
  - specialize (IH (k + 1)). destruct (scan p l (k + 1)) as [i|]; [|by constructor].
    destruct IH as (Hi & y & Hr & Hy). split; [lia|]. exists y. split; [|done].
    change (x :: l) with ([x] ++ l). replace (i - k) with (zlen [x] + (i - (k + 1))) by (cbn; lia).
    by rewrite rd_app_r by lia.
Qed.
Lemma scan_some {A} (p : A -> bool) l i : scan p l 0 = Some i -> exists x, rd l i = Some x /\ p x = true.
Proof. intros H. pose proof (scan_spec p l 0) as Hs. rewrite H in Hs. rewrite Z.sub_0_r in Hs. apply Hs. Qed.
Lemma scan_none {A} (p : A -> bool) l j x : scan p l 0 = None -> l !! j = Some x -> p x = false.
Proof. intros H Hj. pose proof (scan_spec p l 0) as Hs. rewrite H in Hs. exact (Forall_lookup_1 _ _ _ _ Hs Hj). Qed.

(** ** Routes *)

Lemma ok_with_routes s l : net_ok s -> routes_ok (devs s) l -> stepped s (s <| net_ipv4_routes := l |>).
Proof. intros [H1 H2 H3 H4 H5 H6 H7 H8] Hc. split; [by split|]. by intros device. Qed.
Lemma ok_with_handlers s l : net_ok s -> handlers_ok l -> stepped s (s <| net_ipv4_handlers := l |>).
Proof. intros [H1 H2 H3 H4 H5 H6 H7 H8] Hc. split; [by split|]. by intros device. Qed.

(** The best route a scan of the table finds is a route of the table. *)
Lemma next_hop_loop_in device d destination slots best prefix connected :
  match next_hop_loop device d destination slots best prefix connected with
  | (Some r, _) => best = Some r \/ exists x, x ∈ slots /\ r_used x = true /\ r = route x
  | (None, _) => best = None
  end.
Proof.
  revert best prefix connected. induction slots as [|x slots IH]; intros best prefix connected; cbn [next_hop_loop].
  - destruct best; [by left|done].
  - assert (Hskip : forall b p c, b = best \/ (b = Some (route x) /\ r_used x = true) ->
      match next_hop_loop device d destination slots b p c with
      | (Some r, _) => best = Some r \/ exists y, y ∈ x :: slots /\ r_used y = true /\ r = route y
      | (None, _) => best = None
      end).
    { intros b p c Hb. specialize (IH b p c). destruct (next_hop_loop _ _ _ _ b p c) as [[r|] c'].
      - destruct IH as [->|(y & Hy & Hu & ->)].
        + destruct Hb as [<-|[[= ->] Hu]]; [by left|]. right. exists x. split_and!; [apply list_elem_of_here|done..].
        + right. exists y. split_and!; [by apply list_elem_of_further|done..].
      - destruct Hb as [->|[-> _]]; done. }
    destruct (netmask_prefix_length _); [|apply Hskip; by left]. destruct (r_used x) eqn:Hu; cbn [negb orb]; [|apply Hskip; by left].
    destruct (_ || _); [apply Hskip; by left|]. destruct (_ || _); apply Hskip; [by right|by left].
Qed.

Lemma route_of s x : net_ok s -> x ∈ net_ipv4_routes s -> r_used x = true -> route_ok (devs s) (route x).
Proof.
  intros Hok Hx Hu. destruct (ok_routes s Hok) as (_ & Hf & _). rewrite Forall_forall in Hf. by apply Hf.
Qed.

Lemma wp_next_hop s device destination (Q : Z * option net_ipv4_addr -> net W -> Prop) :
  net_ok s -> known (devs s) device -> ip_ok destination ->
  (forall r hop, (forall h, hop = Some h -> ip_ok h) -> Q (r, hop) s) -> wp (next_hop_for_device device destination) Q s.
Proof.
  intros Hok [Hn [d Hd]] Hip HQ. unfold next_hop_for_device. rewrite (proj2 (Z.eqb_neq device NULL)) by done.
  split_if; [by apply wp_ret, HQ; intros h [= <-]|]. apply wp_bind. eapply wp_dev; [exact Hd|]. apply wp_bind, wp_gets.
  destruct (ok_device s device d Hok Hd) as (_ & (_ & _ & Hg & _) & _).
  pose proof (next_hop_loop_in device d destination (net_ipv4_routes s) None
    (if on_link d destination then default 0 (netmask_prefix_length (netmask (ipv4 d))) else 0) (on_link d destination)) as Hin.
  destruct (next_hop_loop _ _ _ _ _ _ _) as [best [|]]; [by destruct best; apply wp_ret, HQ; intros h [= <-]|].
  destruct best as [r|].
  - destruct Hin as [|(x & Hx & Hu & ->)]; [done|]. destruct (route_of s x Hok Hx Hu) as (_ & _ & _ & Hgw & _).
    apply wp_ret, HQ. intros h [= <-]. by destruct (net_ipv4_addr_is_zero _).
  - split_if; [by apply wp_ret, HQ|]. split_if; apply wp_ret, HQ; [by intros h [= <-]|done].
Qed.

Lemma routes_rd s i : net_ok s -> forall x, rd (net_ipv4_routes s) i = Some x -> 0 <= i < 8.
Proof. intros Hok x Hr. apply rd_range in Hr. destruct (ok_routes s Hok) as (Hl & _). lia. Qed.

Lemma routes_insert (m : gmap Z (net_device W)) l i x :
  routes_ok m l -> (r_used x = true -> route_ok m (route x)) ->
  (forall j y, l !! j = Some y -> j <> i -> same_route y x -> False) -> routes_ok m (<[i := x]> l).
Proof.
  intros (Hl & Hf & Hu) Hr Hne. split_and!; [by rewrite length_insert|by apply Forall_insert|by apply (unique_insert _)].
Qed.

Lemma addr_and_value a m : ip_ok a -> ip_ok m ->
  net_ipv4_addr_to_u32 (net_ipv4_addr_and a m) = Z.land (net_ipv4_addr_to_u32 a) (net_ipv4_addr_to_u32 m).
Proof.
  intros Ha Hm. apply to_from_u32. pose proof (to_u32_range a Ha) as Hr.
  rewrite <- (Z.mod_small (net_ipv4_addr_to_u32 a) (2 ^ 32)) by done.
  rewrite <- Z.land_ones, <- Z.land_assoc, (Z.land_comm (Z.ones 32)), Z.land_assoc, Z.land_ones by lia.
  apply Z.mod_pos_bound. lia.
Qed.
Lemma addr_and_idem a m : ip_ok a -> ip_ok m -> net_ipv4_addr_and (net_ipv4_addr_and a m) m = net_ipv4_addr_and a m.
Proof.
  intros Ha Hm. unfold net_ipv4_addr_and at 1. rewrite addr_and_value by done.
  by rewrite <- Z.land_assoc, Z.land_diag.
Qed.

Lemma slot_is_spec s x device network_ netmask_ :
  net_ok s -> x ∈ net_ipv4_routes s -> ip_ok network_ -> ip_ok netmask_ ->
  slot_is device network_ netmask_ x = true <->
  r_used x = true /\ r_device (route x) = device /\ network (route x) = network_ /\ r_netmask (route x) = netmask_.
Proof.
  intros Hok Hx Hn Hm. unfold slot_is. destruct (r_used x) eqn:Hu; [|naive_solver].
  destruct (route_of s x Hok Hx Hu) as (_ & H1 & H2 & _). rewrite !ip_equal_spec by done.
  rewrite !andb_true_iff, Z.eqb_eq, !bool_decide_eq_true. naive_solver.
Qed.

Lemma wp_route_add s network_ netmask_ gateway_ device metric_ (Q : Z -> net W -> Prop) :
  net_ok s -> known (devs s) device -> ip_ok network_ -> ip_ok netmask_ -> ip_ok gateway_ ->
  (forall r t, stepped s t -> Q r t) -> wp (net_ipv4_route_add network_ netmask_ gateway_ device metric_) Q s.
Proof.
  intros Hok Hk Hnet Hmask Hgw HQ. pose proof Hk as [Hn [d Hd]]. pose proof (stepped_refl s Hok) as Hs. unfold net_ipv4_route_add.
  rewrite (proj2 (Z.eqb_neq device NULL)) by done. apply wp_bind. eapply wp_dev; [exact Hd|].
  split_if; [by apply wp_ret, HQ|]. split_if; [by apply wp_ret, HQ|]. apply wp_bind, wp_gets.
  apply orb_false_iff in Heqb as [[_ Hp]%orb_false_iff Hg].
  destruct (scan (slot_is _ _ _) _ _) as [|] eqn:Hold; cbn [is_null]; [by apply wp_ret, HQ|].
  destruct (scan (fun slot => negb (r_used slot)) _ _) as [i|] eqn:Hfree; [|by apply wp_ret, HQ].
  destruct (scan_some _ _ _ Hfree) as (x & Hr & _). apply wp_bind. eapply wp_update; [exact Hr|]. apply wp_ret, HQ.
  apply ok_with_routes; [done|]. apply routes_insert; [apply Hok|intros _|].
  - split_and!; cbn [route r_device network r_netmask r_gateway metric]; try done; [apply addr_and_ok| |by rewrite addr_and_idem|].
    + destruct (netmask_prefix_length netmask_) as [z|]; [by exists z|done].
    + rewrite ip_is_zero_spec in Hg by done. destruct (bool_decide_reflect (gateway_ = net_ipv4_addr_zero)); [by left|].
      right. cbn in Hg. by apply negb_false_iff in Hg.
  - intros j y Hj _ (Hu & _ & H1 & H2 & H3). pose proof (scan_none _ _ j y Hold Hj) as Hf. apply not_true_iff_false in Hf.
    apply Hf, (slot_is_spec s); [done|by eapply list_elem_of_lookup_2|apply addr_and_ok|done|done].
Qed.

Lemma wp_route_remove s network_ netmask_ device (Q : Z -> net W -> Prop) :
  net_ok s -> (forall r t, stepped s t -> Q r t) -> wp (net_ipv4_route_remove network_ netmask_ device) Q s.
Proof.
  intros Hok HQ. pose proof (stepped_refl s Hok) as Hs. unfold net_ipv4_route_remove. split_if; [by apply wp_ret, HQ|].
  apply wp_bind, wp_gets. destruct (scan _ _ _) as [i|] eqn:Hi; [|by apply wp_ret, HQ].
  destruct (scan_some _ _ _ Hi) as (x & Hr & _). apply wp_bind. eapply wp_update; [exact Hr|]. apply wp_ret, HQ.
  apply ok_with_routes; [done|]. by apply routes_insert; [apply Hok|..|intros j y _ _ (_ & Hu & _)].
Qed.

(** Looking up a route changes nothing, and its device exists. *)
Lemma wp_route_loop s slots destination best (Q : option (net_ipv4_route * Z) -> net W -> Prop) :
  net_ok s -> (forall x, x ∈ slots -> x ∈ net_ipv4_routes s) ->
  (forall r, fst <$> best = Some r -> known (devs s) (r_device r)) ->
  (forall b, (forall r, fst <$> b = Some r -> known (devs s) (r_device r)) -> Q b s) ->
  wp (route_loop slots destination best) Q s.
Proof.
  intros Hok Hin Hbest HQ. revert best Hbest. induction slots as [|x slots IH]; intros best Hbest; cbn [route_loop].
  - by apply wp_ret, HQ.
  - assert (Hin' : forall y, y ∈ slots -> y ∈ net_ipv4_routes s) by (intros y Hy; by apply Hin, list_elem_of_further).
    specialize (IH Hin'). split_if; [by apply IH|]. apply orb_false_iff in Heqb as [Hu Hnull]. apply negb_false_iff in Hu.
    destruct (route_of s x Hok (Hin x (list_elem_of_here x slots)) Hu) as ([Hn [d Hd]] & _).
    apply wp_bind. eapply wp_dev; [exact Hd|]. destruct (netmask_prefix_length _); [|by apply IH].
    split_if; [by apply IH|]. destruct (match best with None => true | Some _ => _ end); [|by apply IH].
    apply IH. intros r [= <-]. split; [done|by exists d].
Qed.

Lemma registry_rd s i : net_ok s -> 0 <= i < net_devices_count s ->
  exists device, rd (net_devices s) i = Some device /\ device ∈ take (Z.to_nat (net_devices_count s)) (net_devices s).
Proof.
  intros Hok Hi. destruct (ok_registry s Hok) as (Hl & Hc & _). destruct (rd_Some (net_devices s) i ltac:(lia)) as [x Hr].
  exists x. split; [done|]. apply rd_lookup in Hr as [_ Hr]. apply list_elem_of_lookup_2 with (Z.to_nat i).
  rewrite lookup_take_lt by lia. done.
Qed.

Lemma registered_known s device : net_ok s -> device ∈ take (Z.to_nat (net_devices_count s)) (net_devices s) ->
  known (devs s) device.
Proof.
  intros Hok Hin. destruct (ok_registry s Hok) as (_ & _ & _ & Hr & _). apply Hr in Hin as (Hn & d & Hd & _).
  split; [done|by exists d].
Qed.

Lemma default_known s : net_ok s -> net_default_device s <> NULL -> known (devs s) (net_default_device s).
Proof.
  intros Hok Hn. destruct (ok_registry s Hok) as (_ & _ & _ & _ & Hd). destruct (_ =? 0); [done|]. by apply registered_known.
Qed.

Lemma wp_connected s destination best (Q : option (net_ipv4_route * Z) -> net W -> Prop) :
  net_ok s -> (forall r, fst <$> best = Some r -> known (devs s) (r_device r)) ->
  (forall b, (forall r, fst <$> b = Some r -> known (devs s) (r_device r)) -> Q b s) ->
  wp (for_m (Z.to_nat (net_devices_count s)) (fun index best =>
      device ← net_device_at index;
      if device =? NULL then mret best
      else
        d ← dev device;
        if on_link d destination then
          let prefix := default 0 (netmask_prefix_length (netmask (ipv4 d))) in
          if match best with None => true | Some (_, best_prefix) => best_prefix <=? prefix end
          then mret (Some (mk_route (net_ipv4_addr_and (address (ipv4 d)) (netmask (ipv4 d))) (netmask (ipv4 d))
                             net_ipv4_addr_zero device 0, prefix))
          else mret best
        else mret best) 0 best) Q s.
Proof.
  intros Hok Hbest HQ.
  eapply wp_mono; [apply (wp_for_m (fun _ b t => t = s /\ forall r, fst <$> b = Some r -> known (devs s) (r_device r)))|].
  - intros j b t Hj [-> Hb]. destruct (registry_rd s j Hok ltac:(lia)) as (device & Hr & Hin).
    apply wp_bind. unfold net_device_at. apply wp_bind, wp_gets. rewrite (proj2 (Z.ltb_lt j _)) by lia.
    eapply wp_elem; [exact Hr|]. destruct (registered_known s device Hok Hin) as [Hn [d Hd]].
    rewrite (proj2 (Z.eqb_neq device NULL)) by done. apply wp_bind. eapply wp_dev; [exact Hd|].
    split_if; [|by apply wp_ret]. destruct (match b with None => true | Some _ => _ end); apply wp_ret; [|done].
    split; [done|]. intros r [= <-]. split; [done|by exists d].
  - done.
  - intros b t [-> Hb]. by apply HQ.
Qed.

Lemma wp_route_lookup s destination (Q : Z * option net_ipv4_route -> net W -> Prop) :
  net_ok s -> (forall r x, (forall y, x = Some y -> known (devs s) (r_device y)) -> Q (r, x) s) ->
  wp (net_ipv4_route_lookup destination) Q s.
Proof.
  intros Hok HQ. unfold net_ipv4_route_lookup. split_if; [by apply wp_ret, HQ|].
  pose proof (default_known s Hok) as Hdef. split_if.
  { apply wp_bind, wp_gets. destruct (Z.eqb_spec (net_default_device s) NULL); apply wp_ret, HQ; [done|]. intros y [= <-].
    by apply Hdef. }
  apply wp_bind, wp_gets, wp_bind. apply wp_route_loop; [done|done|done|]. intros b Hb.
  apply wp_bind, wp_gets, wp_bind. apply wp_connected; [done..|]. intros b' Hb'.
  destruct b' as [[x pre]|]; [apply wp_ret, HQ; intros y [= <-]; by apply Hb'|].
  apply wp_bind, wp_gets. destruct (Z.eqb_spec (net_default_device s) NULL); [by apply wp_ret, HQ|].
  destruct (Hdef ltac:(done)) as [Hn [d Hd]]. apply wp_bind. eapply wp_dev; [exact Hd|].
  split_if; apply wp_ret, HQ; [|done]. intros y [= <-]. by apply Hdef.
Qed.

(** ** Protocol handlers *)

Lemma handlers_insert l i h : handlers_ok l ->
  (forall j y, l !! j = Some y -> j <> i -> same_handler y h -> False) -> handlers_ok (<[i := h]> l).
Proof. intros (Hl & Hu) Hne. split; [by rewrite length_insert|by apply (unique_insert _)]. Qed.

Lemma wp_register_protocol s protocol_ handler_ context (Q : Z -> net W -> Prop) :
  net_ok s -> (forall r t, stepped s t -> Q r t) -> wp (net_ipv4_register_protocol protocol_ handler_ context) Q s.
Proof.
  intros Hok HQ. pose proof (stepped_refl s Hok) as Hs. unfold net_ipv4_register_protocol.
  destruct handler_ as [h|]; [|by apply wp_ret, HQ]. split_if; [by apply wp_ret, HQ|]. apply wp_bind, wp_gets.
  destruct (scan (fun h => h_used h && _) _ _) as [|] eqn:Hold; cbn [is_null]; [by apply wp_ret, HQ|].
  destruct (scan (fun h => negb (h_used h)) _ _) as [i|] eqn:Hfree; [|by apply wp_ret, HQ].
  destruct (scan_some _ _ _ Hfree) as (x & Hr & _). apply wp_bind. eapply wp_update; [exact Hr|]. apply wp_ret, HQ.
  apply ok_with_handlers; [done|]. apply handlers_insert; [apply Hok|]. intros j y Hj _ (Hu & _ & Hy).
  pose proof (scan_none _ _ j y Hold Hj) as Hf. cbn in Hf, Hy. by rewrite Hu, Hy, Z.eqb_refl in Hf.
Qed.

Lemma wp_unregister_protocol s protocol_ (Q : Z -> net W -> Prop) :
  net_ok s -> (forall r t, stepped s t -> Q r t) -> wp (net_ipv4_unregister_protocol protocol_) Q s.
Proof.
  intros Hok HQ. pose proof (stepped_refl s Hok) as Hs. unfold net_ipv4_unregister_protocol.
  apply wp_bind, wp_gets. destruct (scan _ _ _) as [i|] eqn:Hi; [|by apply wp_ret, HQ].
  destruct (scan_some _ _ _ Hi) as (x & Hr & _). apply wp_bind. eapply wp_update; [exact Hr|]. apply wp_ret, HQ.
  apply ok_with_handlers; [done|]. by apply handlers_insert; [apply Hok|intros j y _ _ (_ & Hu & _)].
Qed.

(** ** Sending datagrams *)

Lemma copy_front old p n :
  0 <= n -> n <= zlen p -> n <= zlen old -> bytes_ok old -> bytes_ok p ->
  exists l, copy_bytes old 0 p n = Some l /\ length l = length old /\ bytes_ok l /\ take (Z.to_nat n) l = take (Z.to_nat n) p.
Proof.
  intros H0 Hp Ho Hbo Hbp. pose proof (copy_at [] (take (Z.to_nat n) old) (drop (Z.to_nat n) old) p) as Ec.
  cbn [app] in Ec. rewrite take_drop in Ec. change (zlen []) with 0 in Ec.
  assert (El : length (take (Z.to_nat n) old) = Z.to_nat n) by (rewrite length_take; lia).
  rewrite El, Z2Nat.id in Ec by lia. rewrite Ec by lia. eexists. split; [done|]. split_and!.
  - rewrite length_app, length_take, length_drop. lia.
  - apply Forall_app_2; [by apply Forall_take|by apply Forall_drop].
  - rewrite take_app_le by (rewrite length_take; lia). rewrite take_take. f_equal. lia.
Qed.

Lemma wp_queue s device hop p n (Q : Z -> net W -> Prop) :
  net_ok s -> known (devs s) device -> ip_ok hop -> bytes_ok p -> 0 <= n -> n <= zlen p -> n <= 1500 ->
  (forall r t, stepped s t -> Q r t) -> wp (queue_pending_packet device hop p n) Q s.
Proof.
  intros Hok Hk Hh Hb H0 Hl Hn HQ. unfold queue_pending_packet. apply wp_bind, wp_gets.
  destruct (scan _ _ _) as [i|] eqn:Hi; [|by apply wp_ret, HQ, stepped_refl].
  destruct (scan_some _ _ _ Hi) as (x & Hr & _). apply wp_bind. eapply wp_elem; [exact Hr|].
  destruct (ok_pending s Hok) as [Hlen Hf]. pose proof Hr as [_ Hr']%rd_lookup.
  pose proof (Forall_lookup_1 _ _ _ _ Hf Hr') as (Hx1 & Hx2 & _).
  destruct (copy_front (packet x) p n) as (l & El & Hl1 & Hl2 & _); [done|done|lia|done|done|].
  apply wp_bind. eapply wp_of_option; [exact El|]. apply wp_bind. eapply wp_update; [exact Hr|]. apply wp_ret, HQ.
  apply stepped_pending; [done|]. apply pending_insert; [done|]. split_and!; cbn; [lia|done|]. intros _. split_and!; try done; lia.
Qed.

Lemma ok_with_identification s v : net_ok s -> is_u16 v -> stepped s (s <| net_ipv4_identification := v |>).
Proof. intros [H1 H2 H3 H4 H5 H6 H7 H8] Hv. split; [by split|]. by intros device. Qed.

Lemma source_for_ok d source destination :
  ip_ok source -> ip_ok (address (ipv4 d)) ->
  match source_for d source destination with inl _ => True | inr a => ip_ok a end.
Proof.
  intros Hs Ha. unfold source_for. destruct (configured _).
  - destruct (net_ipv4_addr_is_zero source); [done|]. by destruct (net_ipv4_addr_equal _ _).
  - by destruct (_ || _).
Qed.

Lemma wp_send_on s device source destination protocol_ p n (Q : Z -> net W -> Prop) :
  net_ok s -> known (devs s) device -> ip_ok source -> ip_ok destination -> is_u8 protocol_ -> input_ok p n ->
  (forall r t, stepped s t -> Q r t) -> wp (net_ipv4_send_on device source destination protocol_ p n) Q s.
Proof.
  intros Hok Hk Hs Hd Hp [H0 Hin] HQ. pose proof Hk as [Hn [d Hdev]]. pose proof (stepped_refl s Hok) as Hst.
  unfold net_ipv4_send_on. rewrite (proj2 (Z.eqb_neq device NULL)) by done. apply wp_bind. eapply wp_dev; [exact Hdev|].
  split_if; [by apply wp_ret, HQ|]. apply orb_false_iff in Heqb as [[[Hreg _]%orb_false_iff Hnull]%orb_false_iff _].
  apply negb_false_iff in Hreg. destruct (ok_device s device d Hok Hdev) as (_ & (Hc & _) & Hd').
  destruct (Hd' Hreg) as (_ & Hmtu & _).
  destruct (Z.ltb_spec (65535 - 20) n); cbn [orb]; [by apply wp_ret, HQ|].
  destruct (Z.ltb_spec (mtu d) (n + 20)); [by apply wp_ret, HQ|].
  assert (Hbuf : buffer_ok p n).
  { split; [done|]. destruct p; [done|]. cbn in Hnull. by destruct (Z.eqb_spec n 0). }
  pose proof (source_for_ok d source destination Hs Hc) as Hck.
  destruct (source_for d source destination) as [error|source']; [by apply wp_ret, HQ|].
  split_if; [by apply wp_ret, HQ|]. apply wp_bind. apply wp_next_hop; [done..|]. intros r hop Hhop.
  destruct hop as [hop|]; [|by apply wp_ret, HQ]. specialize (Hhop hop eq_refl).
  apply wp_bind, wp_gets, wp_bind, wp_modify. set (s1 := s <| net_ipv4_identification := _ |>).
  assert (Hs1 : stepped s s1) by (apply ok_with_identification; [done|apply u16_range]).
  destruct (ipv4_packet_spec (net_ipv4_identification s) protocol_ source' destination p n) as (rest & Hrest & Hbr & Epk); [done..|lia|].
  apply wp_bind. eapply wp_of_option; [exact Epk|].
  apply wp_bind. apply wp_resolve; [apply Hs1|by apply (stepped_known s)|done|]. intros [r' mac] t Ht.
  pose proof (stepped_trans _ _ _ Hs1 Ht) as Hst'. pose proof (length_data_of p n Hbuf) as Hlen.
  set (pk := datagram _ _ _ _ _ ++ rest).
  assert (Hpk : zlen pk = 1500) by (unfold pk; rewrite length_app, Nat2Z.inj_add, length_datagram; lia).
  assert (Hpb : bytes_ok pk).
  { apply Forall_app_2; [|done]. apply datagram_bytes; [exact Hp|exact Hck|exact Hd|by apply data_of_bytes]. }
  destruct mac as [mac|].
  - apply wp_ethernet; [apply Hst'|by apply (stepped_known s t)|split; [lia|split; [lia|done]]|].
    intros r2 t2 Ht2. apply HQ. eapply stepped_trans; [exact Hst'|]. apply sent_stepped; [apply Hst'|done].
  - split_if; [|by apply wp_ret, HQ]. apply wp_queue; [apply Hst'|by apply (stepped_known s t)|done|done|lia|lia|lia|].
    intros r2 t2 Ht2. apply HQ. exact (stepped_trans _ _ _ Hst' Ht2).
Qed.

Lemma wp_send s source destination protocol_ p n (Q : Z -> net W -> Prop) :
  net_ok s -> ip_ok source -> ip_ok destination -> is_u8 protocol_ -> input_ok p n ->
  (forall r t, stepped s t -> Q r t) -> wp (net_ipv4_send source destination protocol_ p n) Q s.
Proof.
  intros Hok Hs Hd Hp Hin HQ. unfold net_ipv4_send. apply wp_bind. apply wp_route_lookup; [done|]. intros r x Hx.
  destruct x as [x|]; [|by apply wp_ret, HQ, stepped_refl]. destruct (Hx x eq_refl) as [Hn [d Hdev]].
  apply wp_bind. eapply wp_dev; [exact Hdev|]. destruct (ok_device s _ d Hok Hdev) as (_ & (Hc & _) & _).
  apply wp_send_on; try done. by destruct (_ && _).
Qed.

Lemma wp_ipv4_tick s n (Q : unit -> net W -> Prop) :
  net_ok s -> 0 <= n -> (forall t, stepped s t -> Q tt t) -> wp (net_ipv4_tick n) Q s.
Proof.
  intros Hok Hn HQ. unfold net_ipv4_tick.
  eapply wp_mono; [apply (wp_for_m (fun _ _ t => stepped s t))|]; [|by apply stepped_refl|intros [] t; apply HQ].
  intros j [] t Hj Ht. pose proof (proj1 Ht) as Hokt. destruct (pending_rd t j Hokt ltac:(lia)) as (p & Hr & Hp).
  apply wp_bind. eapply wp_elem; [exact Hr|]. split_if; [by apply wp_ret|]. apply negb_false_iff in Heqb.
  pose proof Hp as (H1 & H2 & H3). destruct (H3 Heqb) as (Hk & Hh & Hlen & Hage). pose proof Hk as [Hnd [d Hd]].
  apply wp_bind. eapply wp_lookup; [done|exact Hd|]. destruct (lookup_result t (p_device p) d (next_hop p)) as [mac|].
  - eapply wp_send_waiting; try done. intros t' Ht' _. exact (stepped_trans _ _ _ Ht Ht').
  - pose proof (saturating_add_spec (p_age p) n Hage Hn) as Hsat. set (age := saturating_add (p_age p) n) in *.
    apply wp_bind. eapply wp_update; [exact Hr|]. set (t1 := t <| net_ipv4_pending := _ |>).
    assert (Ht1 : stepped t t1).
    { apply stepped_pending; [done|]. apply pending_insert; [apply Hokt|]. split_and!; cbn; try done. intros _. split_and!; try done; lia. }
    apply wp_when; [intros _|by intros _; eapply stepped_trans].
    assert (Hr1 : rd (net_ipv4_pending t1) j = Some (p <| p_age := age |>)) by (apply rd_insert_eq; apply rd_range in Hr; lia).
    eapply wp_update; [exact Hr1|]. eapply stepped_trans; [exact (stepped_trans _ _ _ Ht Ht1)|].
    apply stepped_pending; [apply Ht1|]. by apply pending_insert; [apply Ht1|].
Qed.

Lemma wp_ipv4_reset s (Q : unit -> net W -> Prop) :
  net_ok s -> (forall t, stepped s t -> Q tt t) -> wp net_ipv4_reset Q s.
Proof.
  intros Hok HQ. unfold net_ipv4_reset. apply wp_bind.
  eapply wp_mono; [apply (wp_for_m (fun _ _ t => stepped s t))|]; [|by apply stepped_refl|intros [] s1 H1].
  { intros j [] t Hj Ht. destruct (ok_routes t (proj1 Ht)) as (Hl & Hf & Hu).
    destruct (rd_Some (net_ipv4_routes t) j ltac:(lia)) as [x Hr]. eapply wp_update; [exact Hr|].
    eapply stepped_trans; [exact Ht|]. apply ok_with_routes; [apply Ht|].
    by apply routes_insert; [apply Ht|..|intros k y _ _ (_ & Hus & _)]. }
  apply wp_bind.
  eapply wp_mono; [apply (wp_for_m (fun _ _ t => stepped s t))|]; [|done|intros [] s2 H2].
  { intros j [] t Hj Ht. destruct (ok_handlers t (proj1 Ht)) as (Hl & Hu).
    destruct (rd_Some (net_ipv4_handlers t) j ltac:(lia)) as [x Hr]. eapply wp_update; [exact Hr|].
    eapply stepped_trans; [exact Ht|]. apply ok_with_handlers; [apply Ht|].
    by apply handlers_insert; [apply Ht|intros k y _ _ (_ & Hus & _)]. }
  apply wp_bind.
  eapply wp_mono; [apply (wp_for_m (fun _ _ t => stepped s t))|]; [|done|intros [] s3 H3].
  { intros j [] t Hj Ht. destruct (pending_rd t j (proj1 Ht) ltac:(lia)) as (p & Hr & Hp1 & Hp2 & _).
    eapply wp_update; [exact Hr|]. eapply stepped_trans; [exact Ht|]. apply stepped_pending; [apply Ht|].
    by apply pending_insert; [apply Ht|]. }
  apply wp_modify, HQ. eapply stepped_trans; [exact H3|]. apply ok_with_identification; [apply H3|lia].
Qed.

(** ** ICMP *)

Lemma ok_with_echo s h c : net_ok s ->
  stepped s (s <| net_icmp_reply_handler := h |> <| net_icmp_reply_context := c |>).
Proof. intros [H1 H2 H3 H4 H5 H6 H7 H8]. split; [by split|]. by intros device. Qed.

Lemma wp_icmp_init s (Q : Z -> net W -> Prop) :
  net_ok s -> (forall r t, stepped s t -> Q r t) -> wp net_icmp_init Q s.
Proof.
  intros Hok HQ. unfold net_icmp_init. apply wp_bind, wp_unregister_protocol; [done|]. intros r t Ht.
  split_if; [by apply wp_ret, HQ|]. apply wp_bind, wp_modify, wp_bind, wp_modify.
  pose proof (ok_with_echo t None NULL (proj1 Ht)) as Ht1. apply wp_register_protocol; [apply Ht1|]. intros r' t' Ht'.
  apply HQ. exact (stepped_trans _ _ _ Ht (stepped_trans _ _ _ Ht1 Ht')).
Qed.

Lemma wp_set_echo_handler s h c (Q : unit -> net W -> Prop) :
  net_ok s -> (forall t, stepped s t -> Q tt t) -> wp (net_icmp_set_echo_reply_handler h c) Q s.
Proof.
  intros Hok HQ. unfold net_icmp_set_echo_reply_handler. apply wp_bind, wp_modify, wp_modify, HQ. by apply ok_with_echo.
Qed.

Lemma echo_length type identifier sequence data : zlen (echo type identifier sequence data) = 8 + zlen data.
Proof. unfold echo, icmp_echo. cbn. lia. Qed.

Lemma wp_echo_request s source destination identifier sequence p n (Q : Z -> net W -> Prop) :
  net_ok s -> ip_ok source -> ip_ok destination -> input_ok p n -> (forall r t, stepped s t -> Q r t) ->
  wp (net_icmp_send_echo_request source destination identifier sequence p n) Q s.
Proof.
  intros Hok Hs Hd [H0 Hin] HQ. unfold net_icmp_send_echo_request. pose proof (stepped_refl s Hok) as Hst.
  split_if; [by apply wp_ret, HQ|]. apply orb_false_iff in Heqb as [[[Hnull _]%orb_false_iff _]%orb_false_iff _].
  destruct (Z.ltb_spec (1480 - 8) n); [by apply wp_ret, HQ|].
  assert (Hbuf : buffer_ok p n).
  { split; [done|]. destruct p; [done|]. cbn in Hnull. by destruct (Z.eqb_spec n 0). }
  destruct (echo_packet_spec identifier sequence p n Hbuf ltac:(lia)) as (rest & Hrest & Hbr & Ee).
  apply wp_bind. eapply wp_of_option; [exact Ee|]. pose proof (length_data_of p n Hbuf) as Hl.
  apply wp_send; [exact Hok|exact Hs|exact Hd|lia| |exact HQ]. split; [lia|]. split; [rewrite length_app, Nat2Z.inj_add, echo_length; lia|].
  apply Forall_app_2; [|done]. apply icmp_echo_bytes; [lia|by apply data_of_bytes].
Qed.
End SafeIp.
