(* ===== verification/NetReceive.v ===== *)
(** * Receiving frames

    Whatever bytes a frame has, receiving it returns and keeps the invariant, as
    long as the protocol handlers do their part. *)

From S2P Require Import Prelude Errno NetTypes NetSum Net NetBytes NetProps NetSafe NetSafeIp.

Section Receive.
Context {G : Garbage} {W : Type} {E : NetEnv W}.
Implicit Types (s t : net W) (d : net_device W) (device : Z).

(** What the stack relies on from handlers and the echo callback: called in a
    good state they return in one. *)
Definition callbacks_ok : Prop :=
  (forall f device source destination payload context s,
     net_ok s -> known (devs s) device -> ip_ok source -> ip_ok destination -> bytes_ok payload ->
     wp (protocol_call f device source destination payload context) (fun _ t => stepped s t) s) /\
  (forall f device source identifier sequence payload context s,
     net_ok s -> known (devs s) device -> ip_ok source -> bytes_ok payload ->
     wp (echo_reply_call f device source identifier sequence payload context) (fun _ t => stepped s t) s).

Context (Hcall : callbacks_ok).

Lemma wp_icmp_input s device source destination p n (Q : Z -> net W -> Prop) :
  net_ok s -> known (devs s) device -> ip_ok source -> ip_ok destination -> bytes_ok p -> zlen p = n ->
  (forall r t, stepped s t -> Q r t) -> wp (net_icmp_input device source destination (Some p) n) Q s.
Proof using Hcall.
  intros Hok Hk Hs Hd Hb Hl HQ. pose proof Hk as [Hn [d Hdev]]. pose proof (stepped_refl s Hok) as Hst. unfold net_icmp_input.
  rewrite (proj2 (Z.eqb_neq device NULL)) by done. cbn [orb].
  destruct (Z.ltb_spec n 4); cbn [orb]; [by apply wp_ret, HQ|]. destruct (Z.ltb_spec 1480 n); [by apply wp_ret, HQ|].
  destruct (checksum_total p n Hb Hl ltac:(lia)) as [valid Hv]. apply wp_bind. eapply wp_of_option; [exact Hv|].
  split_if; [by apply wp_ret, HQ|]. read_field (rd_u8 p 0). split_if; [by apply wp_ret, HQ|].
  read_field (rd_u8 p 1). destruct (negb (v0 =? 0)); cbn [orb]; [by apply wp_ret, HQ|].
  destruct (Z.ltb_spec n 8); [by apply wp_ret, HQ|].
  read_field (read_be16_ok p 4). read_field (read_be16_ok p 6). apply wp_bind. eapply wp_dev; [exact Hdev|].
  split_if; [by apply wp_ret, HQ|]. split_if.
  - apply wp_bind, wp_gets, wp_bind, wp_gets, wp_bind.
    destruct (net_icmp_reply_handler s) as [h|]; [|by apply wp_ret, wp_ret, HQ].
    eapply wp_mono; [apply Hcall; [done..|by apply span_bytes]|]. intros [] t Ht. by apply wp_ret, HQ.
  - destruct p as [|a [|b [|x [|y tail]]]]; try (cbn in Hl; lia).
    destruct (echo_reply_spec a b x y tail n Hb Hl ltac:(lia)) as (rest & Hrest & Hbr & Er).
    apply wp_bind. eapply wp_of_option; [exact Er|]. apply wp_send_on; [exact Hok|exact Hk|exact Hd|exact Hs|lia| |exact HQ].
    split; [lia|]. split; [rewrite !length_app; cbn in *; lia|].
    do 4 (apply Forall_cons_1 in Hb as [? Hb]). apply Forall_app_2.
    + apply Forall_cons_2; [lia|]. apply Forall_cons_2; [done|apply Forall_nil_2].
    + apply Forall_app_2; [apply be16_bytes|]. by apply Forall_app_2.
Qed.

Lemma wp_call_handler s h device source destination p n (Q : Z -> net W -> Prop) :
  net_ok s -> known (devs s) device -> ip_ok source -> ip_ok destination -> bytes_ok p -> zlen p = n ->
  (forall r t, stepped s t -> Q r t) -> wp (call_handler h device source destination p n) Q s.
Proof using Hcall.
  intros Hok Hk Hs Hd Hb Hl HQ. unfold call_handler. destruct (handler h) as [|f].
  - by apply wp_icmp_input.
  - eapply wp_mono; [by apply Hcall|]. intros r t Ht. by apply HQ.
Qed.

Lemma wp_ipv4_input s device source p n (Q : Z -> net W -> Prop) :
  net_ok s -> known (devs s) device -> mac_ok source -> input_ok p n -> (forall r t, stepped s t -> Q r t) ->
  wp (net_ipv4_input device source p n) Q s.
Proof using Hcall.
  intros Hok Hk Hsrc [H0 Hin] HQ. pose proof Hk as [Hn [d Hdev]]. pose proof (stepped_refl s Hok) as Hst. unfold net_ipv4_input.
  destruct p as [p|]; [|by apply wp_ret, HQ]. destruct Hin as [Hl Hb]. rewrite (proj2 (Z.eqb_neq device NULL)) by done.
  apply wp_bind. eapply wp_dev; [exact Hdev|]. split_if; [by apply wp_ret, HQ|].
  apply orb_false_iff in Heqb as [[[[_ Hn20]%orb_false_iff _]%orb_false_iff _]%orb_false_iff _]. apply Z.ltb_ge in Hn20.
  read_field (rd_u8 p 0). split_if; [by apply wp_ret, HQ|]. split_if; [by apply wp_ret, HQ|].
  destruct (Z.eqb_spec (Z.land v 15 * 4) 20) as [->|]; cbn [negb]; [|by apply wp_ret, HQ].
  read_field (read_be16_ok p 2). read_field (rd_u8 p 8). read_field (rd_u8 p 9).
  destruct (Z.ltb_spec v0 20); cbn [orb]; [by apply wp_ret, HQ|]. destruct (Z.ltb_spec n v0); cbn [orb]; [by apply wp_ret, HQ|].
  split_if; [by apply wp_ret, HQ|].
  destruct (checksum_total (span p 0 20) 20) as [valid Hv]; [by apply span_bytes|apply length_span; lia|lia|].
  apply wp_bind. eapply wp_of_option; [exact Hv|]. split_if; [by apply wp_ret, HQ|].
  read_field (read_be16_ok p 6). split_if; [by apply wp_ret, HQ|].
  read_field (ip_at_ok p 12). read_field (ip_at_ok p 16). split_if; [by apply wp_ret, HQ|]. split_if; [by apply wp_ret, HQ|].
  apply wp_bind, wp_gets. destruct (scan _ _ _) as [i|] eqn:Hi; [|by apply wp_ret, HQ].
  destruct (scan_some _ _ _ Hi) as (h & Hr & _). apply wp_bind. eapply wp_elem; [exact Hr|].
  apply wp_call_handler; [exact Hok|exact Hk|done|done|by apply span_bytes|apply length_span; lia|exact HQ].
Qed.

Lemma wp_ethernet_input s device p n (Q : Z -> net W -> Prop) :
  net_ok s -> known (devs s) device -> input_ok p n -> (forall r t, stepped s t -> Q r t) ->
  wp (net_ethernet_input device p n) Q s.
Proof using Hcall.
  intros Hok Hk [H0 Hin] HQ. pose proof Hk as [Hn [d Hdev]]. pose proof (stepped_refl s Hok) as Hst. unfold net_ethernet_input.
  destruct p as [p|]; [|by apply wp_ret, HQ]. destruct Hin as [Hl Hb]. rewrite (proj2 (Z.eqb_neq device NULL)) by done.
  apply wp_bind. eapply wp_dev; [exact Hdev|]. destruct (Z.ltb_spec n 14); cbn [orb]; [by apply wp_ret, HQ|].
  split_if; [by apply wp_ret, HQ|]. read_field (mac_at_ok p 0). read_field (mac_at_ok p 6).
  split_if; [by apply wp_ret, HQ|]. split_if; [by apply wp_ret, HQ|]. read_field (read_be16_ok p 12).
  assert (Hspan : input_ok (Some (span p 14 (n - 14))) (n - 14)).
  { split; [lia|]. split; [rewrite length_span; lia|by apply span_bytes]. }
  split_if; [by apply wp_arp_input|]. split_if; [by apply wp_ipv4_input|by apply wp_ret, HQ].
Qed.

Lemma stat_stepped s device f {Hf : Setter f} n (Q : unit -> net W -> Prop) :
  net_ok s -> known (devs s) device -> (forall t, stepped s t -> Q tt t) -> wp (stat device f n) Q s.
Proof.
  intros Hok [_ Hk] HQ. eapply wp_stat_sent; [apply sent_refl|exact Hk|]. intros t Ht _ _. apply HQ. by apply sent_stepped.
Qed.

Lemma wp_receive s device p n (Q : Z -> net W -> Prop) :
  net_ok s -> known (devs s) device -> input_ok p n -> (forall r t, stepped s t -> Q r t) ->
  wp (net_device_receive device p n) Q s.
Proof using Hcall.
  intros Hok Hk Hin HQ. pose proof Hk as [Hn [d Hdev]]. pose proof (stepped_refl s Hok) as Hst. unfold net_device_receive.
  rewrite (proj2 (Z.eqb_neq device NULL)) by done. apply wp_bind. eapply wp_dev; [exact Hdev|].
  split_if; [by apply wp_ret, HQ|]. split_if.
  { apply wp_bind. apply stat_stepped; [done..|]. intros t Ht. by apply wp_ret, HQ. }
  apply wp_bind. apply wp_ethernet_input; [done..|]. intros r t Ht. pose proof (stepped_known _ _ _ Ht Hk) as Hkt. split_if.
  - apply wp_bind. apply stat_stepped; [apply Ht|done|]. intros t1 Ht1. apply wp_ret, HQ. exact (stepped_trans _ _ _ Ht Ht1).
  - apply wp_bind. apply stat_stepped; [apply Ht|done|]. intros t1 Ht1. pose proof (stepped_trans _ _ _ Ht Ht1) as Hs1.
    apply wp_bind. apply stat_stepped; [apply Ht1|by eapply stepped_known|]. intros t2 Ht2.
    apply wp_ret, HQ. exact (stepped_trans _ _ _ Hs1 Ht2).
Qed.
End Receive.
