(* ===== verification/NetRegistry.v ===== *)
(** * The registry of devices

    Registering, unregistering and configuring devices keeps the invariant: the
    table has no gaps and no device twice, a device is marked as registered
    exactly while it is in the table, and the default device is one of them. *)

From S2P Require Import Prelude Errno NetTypes NetSum Net NetBytes NetProps NetSafe NetSafeIp.

Section Registry.
Context {G : Garbage} {W : Type} {E : NetEnv W}.
Implicit Types (s t : net W) (d : net_device W) (device : Z).

Abbreviation table_of s := (take (Z.to_nat (net_devices_count s)) (net_devices s)) (only parsing).

(** ** Looking for a device *)

Lemma wp_registry_loop s n i device (Q : bool -> net W -> Prop) :
  0 <= i -> i + Z.of_nat n <= zlen (net_devices s) ->
  (forall b, (b = true <-> device ∈ take n (drop (Z.to_nat i) (net_devices s))) -> Q b s) ->
  wp (registry_loop n i device) Q s.
Proof.
  revert i. induction n as [|n IH]; intros i Hi Hn HQ; cbn [registry_loop].
  - apply wp_ret, HQ. split; [done|]. rewrite take_0. by intros ?%elem_of_nil.
  - destruct (rd_Some (net_devices s) i ltac:(lia)) as [x Hr]. apply wp_bind. eapply wp_elem; [exact Hr|].
    apply rd_lookup in Hr as [_ Hr]. rewrite (drop_S _ _ _ Hr) in HQ. cbn [take] in HQ.
    destruct (Z.eqb_spec x device) as [->|Hne].
    + apply wp_ret, HQ. split; [|done]. intros _. apply list_elem_of_here.
    + apply IH; [lia|lia|]. intros b Hb. apply HQ. rewrite Hb, elem_of_cons.
      replace (Z.to_nat (i + 1)) with (S (Z.to_nat i)) by lia. naive_solver.
Qed.

Lemma wp_in_registry s device (Q : bool -> net W -> Prop) :
  net_ok s -> Q (bool_decide (device ∈ table_of s)) s -> wp (device_is_in_registry device) Q s.
Proof.
  intros Hok HQ. destruct (ok_registry s Hok) as (Hl & Hc & _). unfold device_is_in_registry. apply wp_bind, wp_gets.
  apply wp_registry_loop; [lia|lia|]. cbn [Z.to_nat drop]. intros b Hb.
  assert (b = bool_decide (device ∈ table_of s)) as ->; [|done].
  apply eq_bool_prop_intro. rewrite Is_true_true, bool_decide_spec. exact Hb.
Qed.

(** ** Changing a device *)

Lemma extends_insert (m : gmap Z (net_device W)) device d : extends m (<[device := d]> m).
Proof.
  intros x [Hn Hx]. split; [done|]. destruct (decide (x = device)) as [->|].
  - rewrite lookup_insert_eq. by eexists.
  - by rewrite lookup_insert_ne by done.
Qed.

(** The registry when a device changes its mark. *)
Lemma registry_insert (m : gmap Z (net_device W)) device d d' table count default_ :
  registry_ok m table count default_ -> m !! device = Some d -> registered d' = registered d ->
  registry_ok (<[device := d']> m) table count default_.
Proof.
  intros (H1 & H2 & H3 & H4 & H5) Hd Hr. split_and!; [done|lia|lia|done| |done]. intros x. rewrite H4.
  apply and_iff_compat_l. destruct (decide (x = device)) as [->|].
  - rewrite lookup_insert_eq, Hd. split; intros (y & [= <-] & Hy); eexists; (split; [done|]); congruence.
  - by rewrite lookup_insert_ne by done.
Qed.

Lemma ok_with_device s device d d' :
  net_ok s -> devs s !! device = Some d -> device_ok d' -> registered d' = registered d ->
  stepped s (s <| devs := <[device := d']> (devs s) |>).
Proof.
  intros Hok Hd Hd' Hr. pose proof (extends_insert (devs s) device d') as Hx. split; [|done].
  destruct Hok as [H1 H2 H3 H4 H5 H6 H7 H8]. split; cbn; try done.
  - by apply map_Forall_insert_2.
  - rewrite lookup_insert_ne; [done|]. intros ->. congruence.
  - by eapply registry_insert.
  - by eapply cache_extends.
  - by eapply routes_extends.
  - by eapply pending_extends.
Qed.

Lemma no_config_ok : config_ok no_config.
Proof. repeat split; try apply ip_zero_ok; done. Qed.

Lemma wp_clear_ipv4 s device (Q : unit -> net W -> Prop) :
  net_ok s -> (device = NULL \/ known (devs s) device) -> (forall t, stepped s t -> Q tt t) -> wp (net_device_clear_ipv4 device) Q s.
Proof.
  intros Hok Hk HQ. unfold net_device_clear_ipv4. destruct (Z.eqb_spec device NULL) as [|Hn].
  - by apply wp_ret, HQ, stepped_refl.
  - destruct Hk as [|[_ [d Hd]]]; [done|]. eapply wp_store; [exact Hd|]. apply HQ.
    destruct (ok_device s device d Hok Hd) as (H1 & H2 & H3). eapply ok_with_device; [done|exact Hd| |done].
    split; [done|]. split; [apply no_config_ok|done].
Qed.

Lemma wp_configure s device a m g (Q : Z -> net W -> Prop) :
  net_ok s -> known (devs s) device -> ip_ok a -> ip_ok m -> ip_ok g -> (forall r t, stepped s t -> Q r t) ->
  wp (net_device_configure_ipv4 device a m g) Q s.
Proof.
  intros Hok [Hn [d Hd]] Ha Hm Hg HQ. pose proof (stepped_refl s Hok) as Hs. unfold net_device_configure_ipv4.
  rewrite (proj2 (Z.eqb_neq device NULL)) by done. apply wp_bind. apply wp_in_registry; [done|].
  split_if; [by apply wp_ret, HQ|]. apply orb_false_iff in Heqb as [[[_ Hu]%orb_false_iff Hc]%orb_false_iff Hz].
  split_if; [by apply wp_ret, HQ|]. split_if; [by apply wp_ret, HQ|].
  apply wp_bind. eapply wp_store; [exact Hd|]. apply wp_ret, HQ. destruct (ok_device s device d Hok Hd) as (H1 & H2 & H3).
  eapply ok_with_device; [done|exact Hd| |done]. split; [done|]. split; [|done]. cbn [ipv4 set_ipv4 set_field].
  apply negb_false_iff in Hu, Hc. rewrite ip_is_zero_spec in Hz by done. apply bool_decide_eq_false_1 in Hz.
  split_and!; [done..|]. intros _. split_and!; [done..|]. intros Hgz.
  rewrite ip_is_zero_spec, bool_decide_eq_false_2 in Heqb0 by done. cbn [negb andb] in Heqb0.
  by apply orb_false_iff in Heqb0 as [[[Hgu%negb_false_iff _]%orb_false_iff _]%orb_false_iff _].
Qed.

Lemma wp_set_default s device (Q : Z -> net W -> Prop) :
  net_ok s -> (forall r t, stepped s t -> Q r t) -> wp (net_device_set_default device) Q s.
Proof.
  intros Hok HQ. pose proof (stepped_refl s Hok) as Hs. unfold net_device_set_default. split_if; [by apply wp_ret, HQ|].
  apply wp_bind. apply wp_in_registry; [done|]. destruct (bool_decide_reflect (device ∈ table_of s)) as [Hin|]; cbn [negb];
    [|by apply wp_ret, HQ]. apply wp_bind, wp_modify, wp_ret, HQ. split; [|by intros x].
  destruct Hok as [H1 H2 H3 H4 H5 H6 H7 H8]. split; cbn; try done. destruct H3 as (Ha & Hb & Hc & Hd & He).
  split_and!; [done|lia|lia|done|done|]. destruct (Z.eqb_spec (net_devices_count s) 0) as [E0|]; [|done].
  rewrite E0 in Hin. by apply elem_of_nil in Hin.
Qed.

(** ** Registering *)

Lemma name_loop_ok name fuel k j :
  name !! j = Some 0 -> 0 <= k <= Z.of_nat j -> Z.of_nat fuel + k = 16 ->
  exists n, name_loop fuel name k = Some n /\ k <= n <= 16 /\ n <= zlen name.
Proof.
  intros Hj. revert k. induction fuel as [|fuel IH]; intros k Hk Hf; cbn [name_loop];
    pose proof (lookup_lt_Some _ _ _ Hj) as Hlt.
  - rewrite (proj2 (Z.leb_gt _ _)) by lia. exists k. split; [done|lia].
  - rewrite (proj2 (Z.leb_le _ _)) by lia. destruct (rd_Some name k ltac:(lia)) as [c Hc]. rewrite Hc. cbn [mbind option_bind].
    destruct (Z.eqb_spec c 0) as [->|Hne]; [exists k; split; [done|lia]|].
    destruct (decide (k = Z.of_nat j)) as [->|].
    + apply rd_lookup in Hc as [_ Hc]. rewrite Nat2Z.id in Hc. congruence.
    + destruct (IH (k + 1)) as (len & -> & Hlen); [lia|lia|]. exists len. split; [done|lia].
Qed.

(** The table with one more device. *)
Lemma registry_add (m : gmap Z (net_device W)) device d d' table count default_ :
  registry_ok m table count default_ -> count < 4 -> device <> NULL -> m !! device = Some d ->
  device ∉ take (Z.to_nat count) table -> registered d' = true ->
  registry_ok (<[device := d']> m) (<[Z.to_nat count := device]> table) (count + 1)
    (if default_ =? NULL then device else default_).
Proof.
  intros (H1 & H2 & H3 & H4 & H5) Hc Hn Hd Hni Hr.
  assert (Et : take (Z.to_nat (count + 1)) (<[Z.to_nat count := device]> table) = take (Z.to_nat count) table ++ [device]).
  { replace (Z.to_nat (count + 1)) with (S (Z.to_nat count)) by lia.
    rewrite (take_S_r _ _ device) by (apply list_lookup_insert_eq; lia). by rewrite take_insert_ge by lia. }
  split; [by rewrite length_insert|]. split; [lia|]. rewrite Et. split_and!.
  - apply NoDup_app. split_and!; [done| |apply NoDup_singleton]. intros x Hx ->%list_elem_of_singleton. done.
  - intros x. rewrite elem_of_app, H4, list_elem_of_singleton. destruct (decide (x = device)) as [->|Hx].
    + rewrite lookup_insert_eq. naive_solver.
    + rewrite lookup_insert_ne by done. naive_solver.
  - rewrite (proj2 (Z.eqb_neq _ 0)) by lia. apply elem_of_app. destruct (Z.eqb_spec default_ NULL) as [|Hne].
    + right. by apply list_elem_of_singleton.
    + left. by destruct (count =? 0).
Qed.

Lemma ok_added s device d d' :
  net_ok s -> net_devices_count s < 4 -> device <> NULL -> devs s !! device = Some d -> device ∉ table_of s ->
  registered d' = true -> device_ok d' ->
  stepped s (s <| devs := <[device := d']> (devs s) |>
    <| net_devices := <[Z.to_nat (net_devices_count s) := device]> (net_devices s) |>
    <| net_devices_count := net_devices_count s + 1 |>
    <| net_default_device := if net_default_device s =? NULL then device else net_default_device s |>).
Proof.
  intros Hok Hcount Hn Hd Hni Hr Hd'. pose proof (extends_insert (devs s) device d') as Hx. split; [|done].
  destruct Hok as [O1 O2 O3 O4 O5 O6 O7 O8]. split; cbn; try done.
  - by apply map_Forall_insert_2.
  - by rewrite lookup_insert_ne.
  - by eapply registry_add.
  - by eapply cache_extends.
  - by eapply routes_extends.
  - by eapply pending_extends.
Qed.

(** What a driver registers. *)
Definition driver_arguments (name : option (list Z)) (mac : net_mac_addr)
  (send : option (Z -> Z -> list Z -> M W Z)) : Prop :=
  match name with Some l => 0 ∈ l | None => True end /\ mac_ok mac /\
  match send with Some f => driver_ok f | None => True end.

Lemma wp_register s device name mac mtu_ send context (Q : Z -> net W -> Prop) :
  net_ok s -> (device = NULL \/ known (devs s) device) -> driver_arguments name mac send -> (forall r t, stepped s t -> Q r t) ->
  wp (net_device_register device name mac mtu_ send context) Q s.
Proof.
  intros Hok Hk (Hname & Hmac & Hsend) HQ. pose proof (stepped_refl s Hok) as Hs. unfold net_device_register.
  destruct name as [name|]; [|by apply wp_ret, HQ]. split_if; [by apply wp_ret, HQ|].
  apply orb_false_iff in Heqb as [[[[[Hn Hsn]%orb_false_iff Hz]%orb_false_iff Hmc]%orb_false_iff Hlo]%orb_false_iff Hhi].
  apply Z.eqb_neq in Hn. apply Z.ltb_ge in Hlo, Hhi. destruct Hk as [|[_ [d Hd]]]; [done|]. destruct send as [send|]; [|done].
  apply wp_bind. apply wp_in_registry; [done|]. destruct (bool_decide_reflect (device ∈ table_of s)) as [|Hni]; [by apply wp_ret, HQ|].
  apply wp_bind, wp_gets. destruct (Z.leb_spec 4 (net_devices_count s)) as [|Hcount]; [by apply wp_ret, HQ|].
  apply list_elem_of_lookup_1 in Hname as [j Hj].
  destruct (name_loop_ok name 16 0 j Hj ltac:(lia) ltac:(lia)) as (n & En & Hn16 & Hnl).
  apply wp_bind. eapply wp_of_option; [exact En|]. destruct (Z.eqb_spec n 0); cbn [orb]; [by apply wp_ret, HQ|].
  destruct (Z.ltb_spec 15 n); [by apply wp_ret, HQ|].
  destruct (ok_device s device d Hok Hd) as (Hname16 & Hcfg & _). destruct (ok_registry s Hok) as (Htl & _).
  apply wp_bind. eapply wp_load; [exact Hd|].
  pose proof (copy_at [] (take (Z.to_nat n) (dev_name d)) (drop (Z.to_nat n) (dev_name d)) name) as Ec.
  cbn [app] in Ec. rewrite take_drop in Ec. change (zlen []) with 0 in Ec.
  assert (El : length (take (Z.to_nat n) (dev_name d)) = Z.to_nat n) by (rewrite length_take; lia).
  rewrite El, Z2Nat.id in Ec by lia. specialize (Ec ltac:(lia)).
  set (copied := take (Z.to_nat n) name ++ drop (Z.to_nat n) (dev_name d)) in Ec.
  assert (Hcl : length copied = 16%nat) by (unfold copied; rewrite length_app, length_take, length_drop; lia).
  apply wp_bind. eapply wp_of_option; [exact Ec|]. apply wp_bind. eapply wp_of_option; [apply wr_Some; lia|].
  do 8 (apply wp_bind; eapply wp_store; [cbn; rewrite ?lookup_insert_eq; first [exact Hd|reflexivity]|]; cbn [devs set_devs set_field];
        rewrite ?insert_insert_eq).
  destruct (rd_Some (net_devices s) (net_devices_count s)) as [old Hold]; [destruct (ok_registry s Hok) as (_ & ? & _); lia|].
  apply wp_bind. eapply wp_update; [exact Hold|]. apply wp_bind, wp_modify, wp_bind, wp_gets, wp_bind. cbn.
  set (d' := mk_net_device (<[Z.to_nat n := 0]> copied) mac mtu_ (Some send) context no_config (mk_nstats 0 0 0 0 0 0 0) true).
  assert (Hd' : device_ok d').
  { split; [cbn; rewrite length_insert; lia|]. split; [apply no_config_ok|]. intros _. split_and!; try done. by exists send. }
  pose proof (ok_added s device d d' Hok Hcount Hn Hd Hni eq_refl Hd') as Hfin.
  apply wp_when; intros Hdef.
  - apply wp_modify, wp_ret, HQ. by rewrite Hdef in Hfin.
  - apply wp_ret, HQ. rewrite Hdef in Hfin. by destruct s.
Qed.

(** ** Unregistering *)

(** The loop that closes the gap. *)
Lemma wp_shift s a x b c n i (Q : unit -> net W -> Prop) :
  net_devices s = a ++ x :: b ++ c -> n = length b -> i = zlen a ->
  (forall y, Q tt (s <| net_devices := a ++ b ++ y :: c |>)) ->
  wp (for_m n (fun move_index _ =>
        next ← elem net_devices (move_index + 1); update net_devices move_index (fun _ => next)) i tt) Q s.
Proof.
  revert s a x n i. induction b as [|z b IH]; intros s a x n i Ht -> -> HQ; cbn [length for_m app] in *.
  - apply wp_ret. specialize (HQ x). rewrite <- Ht in HQ. by destruct s.
  - apply wp_bind, wp_bind. eapply (wp_elem _ _ _ _ z).
    { apply rd_lookup. split; [lia|]. rewrite Ht. replace (Z.to_nat (zlen a + 1)) with (length a + 1)%nat by lia.
      by rewrite lookup_app_r, Nat.add_comm, Nat.add_sub by lia. }
    eapply (wp_update _ _ _ _ _ x).
    { apply rd_lookup. split; [lia|]. by rewrite Ht, Nat2Z.id, list_lookup_middle. }
    apply (IH _ (a ++ [z]) z).
    + cbn. rewrite Ht, Nat2Z.id, insert_app_r_alt, Nat.sub_diag by lia. cbn. by rewrite <- app_assoc.
    + done.
    + rewrite length_app. cbn. lia.
    + intros y. specialize (HQ y). by rewrite <- app_assoc.
Qed.

(** The table with a device less. *)
Lemma registry_remove (m : gmap Z (net_device W)) device d a b c count default_ :
  registry_ok m (a ++ device :: b ++ c) count default_ -> count = zlen a + 1 + zlen b -> m !! device = Some d ->
  registry_ok (<[device := d <| registered := false |>]> m) (a ++ b ++ NULL :: c) (count - 1)
    (if default_ =? device then (if count - 1 =? 0 then NULL else List.hd NULL (a ++ b)) else default_).
Proof.
  intros (H1 & H2 & H3 & H4 & H5) Hc Hd.
  assert (Et : take (Z.to_nat count) (a ++ device :: b ++ c) = a ++ device :: b).
  { rewrite app_comm_cons, app_assoc. apply take_app_length'. rewrite length_app. cbn. lia. }
  assert (Et' : take (Z.to_nat (count - 1)) (a ++ b ++ NULL :: c) = a ++ b).
  { rewrite app_assoc. apply take_app_length'. rewrite length_app. lia. }
  rewrite Et in H3, H4, H5. rewrite <- (Permutation_middle a b device) in H3. apply NoDup_cons in H3 as [Hni Hnd].
  split; [rewrite !length_app in *; cbn in *; rewrite ?length_app in *; cbn in *; lia|]. split; [lia|]. rewrite Et'. split; [done|].
  split.
  - intros x. destruct (decide (x = device)) as [->|Hx].
    + rewrite lookup_insert_eq. split; [done|]. intros (_ & y & [= <-] & Hy). done.
    + rewrite lookup_insert_ne by done. rewrite <- H4, <- (Permutation_middle a b device), elem_of_cons. naive_solver.
  - rewrite (proj2 (Z.eqb_neq count 0)) in H5 by lia. destruct (Z.eqb_spec default_ device) as [->|Hne].
    + destruct (Z.eqb_spec (count - 1) 0); [done|]. destruct (a ++ b) eqn:Eab; [|apply list_elem_of_here].
      apply app_eq_nil in Eab as [-> ->]. cbn in *. lia.
    + rewrite <- (Permutation_middle a b device), elem_of_cons in H5. destruct H5 as [|H5]; [done|].
      destruct (Z.eqb_spec (count - 1) 0); [|done]. destruct a; [|cbn in *; lia]. destruct b; [|cbn in *; lia].
      by apply elem_of_nil in H5.
Qed.

Lemma ok_removed s device d a b c :
  net_ok s -> devs s !! device = Some d -> net_devices s = a ++ device :: b ++ c ->
  net_devices_count s = zlen a + 1 + zlen b ->
  stepped s (s <| net_devices := a ++ b ++ NULL :: c |> <| net_devices_count := net_devices_count s - 1 |>
    <| devs := <[device := d <| registered := false |>]> (devs s) |>
    <| net_default_device := if net_default_device s =? device
         then (if net_devices_count s - 1 =? 0 then NULL else List.hd NULL (a ++ b)) else net_default_device s |>).
Proof.
  intros Hok Hd Ht Hc. pose proof (extends_insert (devs s) device (d <| registered := false |>)) as Hx. split; [|done].
  destruct (ok_device s device d Hok Hd) as (D1 & D2 & D3). destruct Hok as [O1 O2 O3 O4 O5 O6 O7 O8]. split; cbn; try done.
  - by apply map_Forall_insert_2.
  - rewrite lookup_insert_ne; [done|]. congruence.
  - rewrite Ht in O3. by apply registry_remove.
  - by eapply cache_extends.
  - by eapply routes_extends.
  - by eapply pending_extends.
Qed.

Lemma wp_unregister_at s device d a b c n (Q : Z -> net W -> Prop) :
  net_ok s -> devs s !! device = Some d -> net_devices s = a ++ device :: b ++ c ->
  net_devices_count s = zlen a + 1 + zlen b -> (forall r t, stepped s t -> Q r t) ->
  wp (unregister_loop (S n) (zlen a) device) Q s.
Proof.
  intros Hok Hd Ht Hc HQ. pose proof (ok_removed s device d a b c Hok Hd Ht Hc) as Hfin. cbn [unregister_loop].
  apply wp_bind. eapply (wp_elem _ _ _ _ device).
  { apply rd_lookup. split; [lia|]. by rewrite Ht, Nat2Z.id, list_lookup_middle. }
  rewrite Z.eqb_refl. apply wp_bind, wp_gets, wp_bind. apply (wp_shift s a device b c); [done|lia|done|]. intros y.
  apply wp_bind, wp_modify, wp_bind. eapply (wp_update _ _ _ _ _ y).
  { apply rd_lookup. split; [cbn; lia|]. cbn. rewrite app_assoc, lookup_app_r by (rewrite length_app; lia).
    rewrite length_app. replace (_ - _)%nat with 0%nat by lia. done. }
  cbn [net_devices set_net_devices set_net_devices_count set_field].
  assert (Eu : <[Z.to_nat (net_devices_count s - 1) := NULL]> (a ++ b ++ y :: c) = a ++ b ++ NULL :: c).
  { rewrite !app_assoc, insert_app_r_alt by (rewrite length_app; lia). rewrite length_app.
    replace (_ - _)%nat with 0%nat by lia. done. }
  apply wp_bind. eapply wp_store; [exact Hd|]. apply wp_bind, wp_gets, wp_bind. cbn in *. rewrite Eu.
  apply wp_when; intros Hdef; rewrite Hdef in Hfin.
  - destruct (Z.eqb_spec (net_devices_count s - 1) 0) as [E0|E0]; cbn [negb].
    + apply wp_bind, wp_ret, wp_modify, wp_ret, HQ, Hfin.
    + destruct (a ++ b) as [|z l] eqn:Eab; [apply app_eq_nil in Eab as [-> ->]; cbn in *; lia|].
      apply wp_bind. eapply (wp_elem _ _ _ _ z).
      { cbn. rewrite app_assoc, Eab. by apply rd_lookup. }
      apply wp_modify, wp_ret, HQ, Hfin.
  - apply wp_ret, HQ. by destruct s.
Qed.

Lemma wp_unregister_loop s device a r c (Q : Z -> net W -> Prop) :
  net_ok s -> net_devices s = a ++ r ++ c -> net_devices_count s = zlen a + zlen r -> (forall r t, stepped s t -> Q r t) ->
  wp (unregister_loop (length r) (zlen a) device) Q s.
Proof.
  intros Hok. revert a. induction r as [|x r IH]; intros a Ht Hc HQ; cbn [length app] in *.
  - by apply wp_ret, HQ, stepped_refl.
  - destruct (decide (x = device)) as [->|Hx].
    + destruct (ok_registry s Hok) as (_ & _ & _ & Hin & _). destruct (proj1 (Hin device)) as (_ & d & Hd & _).
      { rewrite Ht, app_comm_cons, app_assoc, take_app_length' by (rewrite length_app; cbn; lia).
        apply elem_of_app. right. apply list_elem_of_here. }
      eapply wp_unregister_at; [done|exact Hd|exact Ht|lia|exact HQ].
    + cbn [unregister_loop]. apply wp_bind. eapply (wp_elem _ _ _ _ x).
      { apply rd_lookup. split; [lia|]. by rewrite Ht, Nat2Z.id, list_lookup_middle. }
      rewrite (proj2 (Z.eqb_neq x device)) by done. replace (zlen a + 1) with (zlen (a ++ [x])) by (rewrite length_app; cbn; lia).
      apply IH; [by rewrite <- app_assoc|rewrite length_app; cbn; lia|done].
Qed.

Lemma wp_unregister s device (Q : Z -> net W -> Prop) :
  net_ok s -> (forall r t, stepped s t -> Q r t) -> wp (net_device_unregister device) Q s.
Proof.
  intros Hok HQ. unfold net_device_unregister. destruct (device =? NULL); [by apply wp_ret, HQ, stepped_refl|].
  apply wp_bind, wp_gets. destruct (ok_registry s Hok) as (Hl & Hc & _).
  assert (El : length (table_of s) = Z.to_nat (net_devices_count s)) by (rewrite length_take; lia).
  rewrite <- El. apply (wp_unregister_loop s device [] _ (drop (Z.to_nat (net_devices_count s)) (net_devices s))); [done| | |done].
  - cbn. by rewrite take_drop.
  - cbn. lia.
Qed.

(** ** Emptying the registry *)

(** The registry while it is emptied: the first [j] devices have lost their mark. *)
Definition emptied s j (m : gmap Z (net_device W)) : Prop :=
  extends (devs s) m /\ map_Forall (fun _ d => device_ok d) m /\ m !! NULL = None /\
  forall device d, m !! device = Some d -> registered d = true -> device ∈ drop (Z.to_nat j) (table_of s).

Lemma emptied_start s : net_ok s -> emptied s 0 (devs s).
Proof.
  intros Hok. destruct (ok_registry s Hok) as (_ & _ & _ & Hin & _). destruct Hok as [O1 O2 _ _ _ _ _ _].
  split_and!; [by intros x|done|done|]. intros device d Hd Hr. apply Hin. split; [congruence|by exists d].
Qed.

Lemma emptied_step s j m device d :
  emptied s j m -> 0 <= j -> table_of s !! Z.to_nat j = Some device -> m !! device = Some d ->
  emptied s (j + 1) (<[device := d <| registered := false |>]> m).
Proof.
  intros (H1 & H2 & H3 & H4) Hj Ht Hd. pose proof (extends_insert m device (d <| registered := false |>)) as Hx.
  destruct (H2 _ _ Hd) as (D1 & D2 & D3). split_and!.
  - intros x Hkx. by apply Hx, H1.
  - by apply map_Forall_insert_2.
  - rewrite lookup_insert_ne; [done|congruence].
  - intros x dx. destruct (decide (x = device)) as [->|Hne].
    + rewrite lookup_insert_eq. by intros [= <-].
    + rewrite lookup_insert_ne by done. intros Hdx Hr. specialize (H4 x dx Hdx Hr).
      rewrite (drop_S _ _ _ Ht) in H4. replace (Z.to_nat (j + 1)) with (S (Z.to_nat j)) by lia.
      apply elem_of_cons in H4 as [|]; done.
Qed.

Lemma wp_registry_reset s (Q : unit -> net W -> Prop) :
  net_ok s -> (forall t, stepped s t -> Q tt t) -> wp net_device_registry_reset Q s.
Proof.
  intros Hok HQ. unfold net_device_registry_reset. apply wp_bind, wp_gets, wp_bind.
  destruct (ok_registry s Hok) as (Hl & Hc & Hnd & Hin & _).
  eapply wp_mono; [eapply (wp_for_m (fun j _ t => exists m table, emptied s j m /\ t = s <| devs := m |> <| net_devices := table |>
    /\ length table = 4%nat /\ drop (Z.to_nat j) table = drop (Z.to_nat j) (net_devices s)))|].
  - intros j [] t Hj (m & table & Hm & -> & Hlt & Hdrop).
    destruct (lookup_lt_is_Some_2 (net_devices s) (Z.to_nat j) ltac:(lia)) as [device Hdev].
    assert (Htab : table !! Z.to_nat j = Some device).
    { rewrite <- Hdev, <- (Nat.add_0_r (Z.to_nat j)), <- !lookup_drop. by rewrite Hdrop. }
    assert (Hto : table_of s !! Z.to_nat j = Some device) by (rewrite lookup_take_lt by lia; done).
    destruct (proj1 (Hin device)) as (Hn & d0 & Hd0 & _); [by eapply list_elem_of_lookup_2|].
    destruct (proj1 Hm device) as [_ [d Hd]]; [split; [done|by exists d0]|].
    apply wp_bind. eapply wp_elem; [apply rd_lookup; split; [lia|exact Htab]|]. apply wp_bind. apply wp_when; intros Hb.
    2: { apply negb_false_iff, Z.eqb_eq in Hb. done. }
    eapply wp_store; [exact Hd|]. eapply wp_update; [apply rd_lookup; split; [lia|exact Htab]|].
    eexists (<[device := d <| registered := false |>]> m), _. split_and!; [apply emptied_step; [done|lia|done|done]|reflexivity|by rewrite length_insert|].
    rewrite drop_insert_lt by lia. replace (Z.to_nat (j + 1)) with (Z.to_nat j + 1)%nat by lia. by rewrite <- (drop_drop table), <- (drop_drop (net_devices s)), Hdrop.
  - exists (devs s), (net_devices s). split_and!; [by apply emptied_start|by destruct s|done|done].
  - intros [] t (m & table & (H1 & H2 & H3 & H4) & -> & Hlt & _). apply wp_bind, wp_modify, wp_modify, HQ.
    rewrite Z.add_0_l, Z2Nat.id, drop_ge in H4 by (rewrite ?length_take; lia). split; [|exact H1].
    destruct Hok as [O1 O2 O3 O4 O5 O6 O7 O8]. split; cbn; try done.
    + split_and!; [done|lia|lia|apply NoDup_nil_2| |done]. intros x. split; [by intros ?%elem_of_nil|].
      intros (_ & d & Hd & Hr). exact (H4 x d Hd Hr).
    + by eapply cache_extends.
    + by eapply routes_extends.
    + by eapply pending_extends.
Qed.
End Registry.
