(* ===== verification/NetLink.v ===== *)
(** * What hosts say to each other

    The frames the stack hands to a driver, byte by byte, and what it does with
    those frames when it gets them: resolving a neighbour's address, releasing the
    datagrams that waited for it, and giving a datagram to its protocol. *)

From S2P Require Import Prelude Errno NetTypes NetSum Net NetBytes NetProps NetSafe NetSafeIp NetReceive.

Section Link.
Context {G : Garbage} {W : Type} {E : NetEnv W}.
Implicit Types (s t : net W) (d : net_device W) (device : Z).

(** The frames the world has taken, and a driver that hands every frame over. *)
Context (frames : W -> list (list Z)).
Definition carries (send : Z -> Z -> list Z -> M W Z) : Prop :=
  forall device context frame w, exists w', send device context frame w = Some (NET_OK, w') /\ frames w' = frames w ++ [frame].

(** A configured device with such a driver. *)
Definition up s device d : Prop :=
  net_ok s /\ device <> NULL /\ devs s !! device = Some d /\ registered d = true /\ configured (ipv4 d) = true /\
  exists send, transmit d = Some send /\ carries send.

(** What the invariant says of such a device. *)
Lemma up_facts s device d : up s device d ->
  mac_unicast (mac_address d) /\ 576 <= mtu d <= 1500 /\ ip_unicast (address (ipv4 d)).
Proof.
  intros (Hok & _ & Hd & Hr & Hc & _). destruct (ok_device s device d Hok Hd) as (_ & (Ha & _ & _ & Hc') & Hd').
  destruct (Hd' Hr) as (Hm & Hmtu & _). split; [done|]. split; [lia|]. split; [done|]. by apply Hc'.
Qed.

Lemma up_known s device d : up s device d -> known (devs s) device.
Proof. intros (_ & Hn & Hd & _). split; [done|by exists d]. Qed.

Lemma up_sent s t device d : sent s t -> up s device d -> exists st, up t device (d <| dev_stats := st |>).
Proof.
  intros Hs (Hok & Hn & Hd & H). pose proof (sent_ok s t Hs Hok) as Hokt. destruct Hs as (m & w & -> & Hm).
  destruct (same_devices_lookup _ _ _ _ Hm Hd) as [st Hd']. exists st. split_and!; try done; apply H.
Qed.

(** ** Sending a frame *)

Lemma wp_send_frame s device d destination ethertype p n (Q : Z -> net W -> Prop) :
  up s device d -> net_mac_addr_is_zero destination = false -> 0x600 <= ethertype -> buffer_ok p n -> n <= mtu d ->
  (forall t, sent s t -> frames (wire t) = frames (wire s) ++ [eth_frame destination (mac_address d) ethertype (data_of p n)] ->
     Q NET_OK t) ->
  wp (net_ethernet_send device destination ethertype p n) Q s.
Proof.
  intros Hup Hz He Hp Hn HQ. destruct (up_facts s device d Hup) as (_ & Hm & _).
  destruct Hup as (Hok & Hnull & Hd & Hr & Hc & send & Hs & Hcar).
  destruct (Hcar device (driver_context d) (eth_frame destination (mac_address d) ethertype (data_of p n)) (wire s)) as (w & Hw & Hf).
  eapply wp_ethernet_exact; try done; [lia|]. intros t Ht Ew. apply HQ; [done|]. by rewrite Ew.
Qed.

(** ** Receiving a frame *)

Lemma wp_counted s device f {Hf : Setter f} n (Q : unit -> net W -> Prop) :
  is_Some (devs s !! device) -> (forall t, sent s t -> wire t = wire s -> is_Some (devs t !! device) -> Q tt t) ->
  wp (stat device f n) Q s.
Proof. intros Hd HQ. eapply wp_stat_sent; [apply sent_refl|done|done]. Qed.

Lemma wp_receive_frame s device d destination source ethertype data (Q : Z -> net W -> Prop) :
  device <> NULL -> devs s !! device = Some d -> registered d = true -> 576 <= mtu d <= 1500 -> zlen data <= mtu d ->
  mac_ok destination -> mac_ok (mac_address d) -> (destination = mac_address d \/ net_mac_addr_is_broadcast destination = true) ->
  mac_unicast source -> ethertype = NET_ETHERTYPE_ARP \/ ethertype = NET_ETHERTYPE_IPV4 ->
  let payload := data ++ replicate (46 - length data) 0 in
  wp ((if ethertype =? NET_ETHERTYPE_ARP then net_arp_input else net_ipv4_input) device source (Some payload) (zlen payload))
    (fun r t => is_Some (devs t !! device) /\ forall t', sent t t' -> wire t' = wire t -> Q r t') s ->
  wp (net_device_receive device (Some (eth_frame destination source ethertype data))
        (zlen (eth_frame destination source ethertype data))) Q s.
Proof.
  intros Hn Hd Hr Hm Hl Hdok Hmok Hdest (Hsok & Hsz & Hsm) Het payload HQ. unfold net_device_receive.
  rewrite (proj2 (Z.eqb_neq device NULL)) by done. apply wp_bind. eapply wp_dev; [exact Hd|]. rewrite Hr. cbn [negb is_null orb].
  set (f := eth_frame destination source ethertype data).
  assert (Hlen : zlen f = 14 + zlen payload).
  { unfold f, payload. rewrite length_eth_frame by lia. rewrite length_app, length_replicate. lia. }
  assert (Hpl : zlen payload <= mtu d) by (unfold payload; rewrite length_app, length_replicate; lia).
  assert (Ht : is_u16 ethertype) by (destruct Het as [-> | ->]; done).
  rewrite (proj2 (Z.ltb_ge (zlen f) 14)), (proj2 (Z.ltb_ge _ (zlen f))) by lia. cbn [orb].
  apply wp_bind. eapply (wp_mono _ (fun r t => is_Some (devs t !! device) /\ forall t', sent t t' -> wire t' = wire t -> Q r t')).
  - unfold net_ethernet_input. rewrite (proj2 (Z.eqb_neq device NULL)) by done. apply wp_bind. eapply wp_dev; [exact Hd|].
    rewrite (proj2 (Z.ltb_ge (zlen f) 14)), (proj2 (Z.ltb_ge _ (zlen f))) by lia. cbn [orb].
    apply wp_bind. eapply wp_of_option; [apply frame_destination|]. apply wp_bind. eapply wp_of_option; [apply frame_source|].
    rewrite Hsz, Hsm. cbn [orb].
    assert (negb (net_mac_addr_equal destination (mac_address d)) && negb (net_mac_addr_is_broadcast destination)
            && negb (net_mac_addr_is_multicast destination) = false) as ->.
    { destruct Hdest as [-> | ->]; [by rewrite mac_equal_refl|]. cbn. by rewrite andb_false_r. }
    apply wp_bind. eapply wp_of_option; [by apply frame_type|]. 
    assert (span f 14 (zlen f - 14) = payload) as -> by apply frame_payload. replace (zlen f - 14) with (zlen payload) by lia. destruct Het as [-> | ->]; exact HQ.
  - intros r t [Hdt HQt]. destruct (Z.eqb_spec r 0) as [->|]; cbn [negb].
    + apply wp_bind. apply wp_counted; [done|]. intros t1 H1 E1 Hd1. apply wp_bind. apply wp_counted; [done|].
      intros t2 H2 E2 _. apply wp_ret, HQt; [by eapply sent_trans|congruence].
    + apply wp_bind. apply wp_counted; [done|]. intros t1 H1 E1 _. by apply wp_ret, HQt.
Qed.

(** ** Releasing what waits for an address *)

Definition waits device (a : net_ipv4_addr) (p : net_ipv4_pending_packet) : bool :=
  p_used p && (p_device p =? device) && net_ipv4_addr_equal (next_hop p) a.
Definition release device a p : net_ipv4_pending_packet := if waits device a p then p <| p_used := false |> else p.
(** The frames that carry the waiting packets, in the order of the table; a
    packet that no longer fits the device is dropped. *)
Definition released device d a mac (l : list net_ipv4_pending_packet) : list (list Z) :=
  (fun p => eth_frame mac (mac_address d) NET_ETHERTYPE_IPV4 (data_of (Some (packet p)) (p_length p))) <$>
  filter (fun p => waits device a p = true /\ p_length p <= mtu d) l.

Lemma released_app device d a mac l l' :
  released device d a mac (l ++ l') = released device d a mac l ++ released device d a mac l'.
Proof. unfold released. by rewrite filter_app, fmap_app. Qed.

Lemma wp_too_large s device d destination p n (Q : Z -> net W -> Prop) :
  up s device d -> net_mac_addr_is_zero destination = false -> buffer_ok p n -> mtu d < n -> Q NET_ERR_TOO_LARGE s ->
  wp (net_ethernet_send device destination NET_ETHERTYPE_IPV4 p n) Q s.
Proof.
  intros (_ & Hn & Hd & Hr & _) Hz Hp Hl HQ. unfold net_ethernet_send. rewrite (proj2 (Z.eqb_neq device NULL)) by done.
  apply wp_bind. eapply wp_dev; [exact Hd|]. rewrite Hr, Hz. cbn [negb orb].
  assert (is_null p && negb (n =? 0) = false) as -> by (destruct p; [done|]; destruct Hp as [_ ->]; done).
  cbn [orb]. rewrite (proj2 (Z.ltb_lt _ n)) by lia. by apply wp_ret.
Qed.

(** One waiting packet, after those before it. *)
Lemma wp_release_one s device d a mac pre p post (Q : unit -> net W -> Prop) :
  up s device d -> net_mac_addr_is_zero mac = false -> net_ipv4_pending s = pre ++ p :: post ->
  (forall t, sent (s <| net_ipv4_pending := pre ++ release device a p :: post |>) t ->
     frames (wire t) = frames (wire s) ++ released device d a mac [p] -> Q tt t) ->
  wp (q ← elem net_ipv4_pending (zlen pre);
      when (p_used q && (p_device q =? device) && net_ipv4_addr_equal (next_hop q) a)
        (net_ethernet_send device mac NET_ETHERTYPE_IPV4 (Some (packet q)) (p_length q);;
         update net_ipv4_pending (zlen pre) (fun q => q <| p_used := false |>))) Q s.
Proof.
  intros Hup Hz El HQ.
  assert (Hrd : rd (net_ipv4_pending s) (zlen pre) = Some p).
  { apply rd_lookup. split; [lia|]. by rewrite El, Nat2Z.id, list_lookup_middle. }
  assert (Hins : forall q, <[Z.to_nat (zlen pre) := q]> (net_ipv4_pending s) = pre ++ q :: post).
  { intros q. by rewrite El, Nat2Z.id, insert_app_r_alt, Nat.sub_diag by lia. }
  apply wp_bind. eapply wp_elem; [exact Hrd|]. unfold release, released in HQ. cbn [filter list_filter] in HQ.
  change (p_used p && (p_device p =? device) && net_ipv4_addr_equal (next_hop p) a) with (waits device a p).
  apply wp_when; intros Hw; rewrite Hw in HQ.
  - pose proof (proj1 Hup) as Hok. assert (Hp : packet_ok (devs s) p).
    { destruct (ok_pending s Hok) as [_ Hf]. apply rd_lookup in Hrd as [_ Hrd]. exact (Forall_lookup_1 _ _ _ _ Hf Hrd). }
    assert (Hused : p_used p = true) by (unfold waits in Hw; by destruct (p_used p)).
    pose proof (waiting_buffer _ _ Hp Hused) as Hb. apply wp_bind. destruct (decide (p_length p <= mtu d)) as [Hl|Hl].
    + apply (wp_send_frame s device d); [done|done|lia|done|done|]. intros t Ht Ef.
      assert (Hrt : rd (net_ipv4_pending t) (zlen pre) = Some p) by (by destruct Ht as (m & w & -> & _)).
      eapply wp_update; [exact Hrt|]. rewrite decide_True in HQ by done. apply HQ; [|exact Ef].
      destruct Ht as (m & w & -> & Hm). exists m, w. cbn. by rewrite Hins.
    + apply (wp_too_large s device d); [done|done|done|lia|]. eapply wp_update; [exact Hrd|].
      rewrite decide_False in HQ by naive_solver. apply HQ; [rewrite Hins; apply sent_refl|]. by rewrite app_nil_r.
  - rewrite decide_False in HQ by naive_solver. apply HQ; [|by rewrite app_nil_r]. rewrite <- El. destruct s. apply sent_refl.
Qed.

Lemma up_release s device d device' a pre p post :
  up s device d -> net_ipv4_pending s = pre ++ p :: post ->
  up (s <| net_ipv4_pending := pre ++ release device' a p :: post |>) device d.
Proof.
  intros (Hok & Hn & Hd & H) El. split; [|done]. apply ok_with_pending; [done|].
  destruct (ok_pending s Hok) as [Hl Hf]. rewrite El in Hl, Hf. rewrite length_app in Hl. cbn in Hl.
  apply Forall_app in Hf as [Hf1 Hf2]. apply Forall_cons_1 in Hf2 as [Hp Hf2].
  split; [rewrite length_app; cbn; lia|]. apply Forall_app_2; [done|]. apply Forall_cons_2; [|done].
  unfold release. destruct (waits device' a p); [|done]. destruct Hp as (H1 & H2 & _). by split_and!.
Qed.

Lemma wp_release_all s device d a mac pre l (Q : unit -> net W -> Prop) :
  up s device d -> net_mac_addr_is_zero mac = false -> net_ipv4_pending s = pre ++ l ->
  (forall t, sent (s <| net_ipv4_pending := pre ++ (release device a <$> l) |>) t ->
     frames (wire t) = frames (wire s) ++ released device d a mac l -> Q tt t) ->
  wp (for_m (length l) (fun index _ =>
        q ← elem net_ipv4_pending index;
        when (p_used q && (p_device q =? device) && net_ipv4_addr_equal (next_hop q) a)
          (net_ethernet_send device mac NET_ETHERTYPE_IPV4 (Some (packet q)) (p_length q);;
           update net_ipv4_pending index (fun q => q <| p_used := false |>))) (zlen pre) tt) Q s.
Proof.
  revert s d pre Q. induction l as [|p l IH]; intros s d pre Q Hup Hz El HQ; cbn [length for_m].
  - apply wp_ret, HQ; [|by rewrite app_nil_r]. cbn. rewrite <- El. destruct s. apply sent_refl.
  - apply wp_bind. eapply (wp_release_one s device d a mac pre p l); [done..|]. intros t Ht Ef.
    destruct (up_sent _ t device d Ht (up_release s device d device a pre p l Hup El)) as [st Hupt].
    replace (zlen pre + 1) with (zlen (pre ++ [release device a p])) by (rewrite length_app; cbn; lia).
    apply (IH t (d <| dev_stats := st |>)); [done|done| |].
    { destruct Ht as (m & w & -> & _). cbn. by rewrite <- app_assoc. }
    intros t' Ht' Ef'. apply HQ.
    + destruct Ht as (m & w & -> & Hm), Ht' as (m' & w' & -> & Hm'). exists m', w'. cbn in *. rewrite <- app_assoc.
      split; [done|]. by eapply same_devices_trans.
    + rewrite Ef', Ef, <- app_assoc. f_equal. symmetry. exact (released_app device d a mac [p] l).
Qed.

(** Once an address is known, what waits for it is sent and no longer waits. *)
Lemma wp_notify_exact s device d a mac (Q : unit -> net W -> Prop) :
  up s device d -> lookup_result s device d a = Some mac -> net_mac_addr_is_zero mac = false ->
  (forall t, sent (s <| net_ipv4_pending := release device a <$> net_ipv4_pending s |>) t ->
     frames (wire t) = frames (wire s) ++ released device d a mac (net_ipv4_pending s) -> Q tt t) ->
  wp (net_ipv4_notify_arp_resolved device a) Q s.
Proof.
  intros Hup Hl Hz HQ. pose proof Hup as (Hok & Hn & Hd & _). unfold net_ipv4_notify_arp_resolved.
  rewrite (proj2 (Z.eqb_neq device NULL)) by done. apply wp_bind. eapply wp_lookup; [done|exact Hd|]. rewrite Hl.
  pose proof (wp_release_all s device d a mac [] (net_ipv4_pending s) Q Hup Hz eq_refl HQ) as H.
  by rewrite (proj1 (ok_pending s Hok)) in H.
Qed.

(** ** Learning an address *)

Lemma find_only cache k device a i e :
  cache !! i = Some e -> entry_is device a e = true ->
  (forall j e', cache !! j = Some e' -> j <> i -> entry_is device a e' = false) ->
  find_from cache k device a = Some (k + Z.of_nat i).
Proof.
  revert k i. induction cache as [|x cache IH]; intros k i Hi He Hne; [done|]. cbn [find_from].
  destruct i as [|i].
  - injection Hi as ->. rewrite He. f_equal. lia.
  - rewrite (Hne 0%nat x) by done. rewrite (IH (k + 1) i); [f_equal; lia|done|done|].
    intros j e' Hj Hji. apply (Hne (S j)); [done|lia].
Qed.

(** An address another host may have on the network of the device. *)
Definition neighbour d (a : net_ipv4_addr) : Prop :=
  ip_unicast a /\ is_directed_broadcast d a = false /\ a <> address (ipv4 d).

Lemma neighbour_lookup s device d a :
  up s device d -> neighbour d a -> lookup_result s device d a =
  (i ← find_from (net_arp_cache s) 0 device a; e ← rd (net_arp_cache s) i;
   if bool_decide (e_state e = NET_ARP_ENTRY_VALID) then Some (hardware_address e) else None).
Proof.
  intros Hup ((Hok & Hu) & Hb & Hne). destruct (up_facts s device d Hup) as (_ & _ & Ha & _).
  destruct Hup as (_ & _ & _ & Hr & Hc & _). destruct (unicast_classes a Hok Hu) as (_ & Hl & Hm). unfold lookup_result.
  rewrite Hr, Hl, Hb, Hm, Hc, ip_equal_spec, bool_decide_eq_false_2 by done. done.
Qed.

Abbreviation learned device a mac := (mk_entry NET_ARP_ENTRY_VALID device a mac 0 0) (only parsing).

Lemma slot_lookup s device d a mac i :
  let s1 := s <| net_arp_cache := <[Z.to_nat i := learned device a mac]> (net_arp_cache s) |> in
  up s1 device d -> neighbour d a -> slot_for s device a i -> lookup_result s1 device d a = Some mac.
Proof.
  intros s1 Hup Hnb [Hi Hs]. pose proof Hup as (Hok & _). destruct (ok_cache s1 Hok) as (Hl & _). pose proof Hnb as ((Ha & _) & _).
  rewrite (neighbour_lookup s1) by done. unfold s1 in *. cbn [net_arp_cache set_net_arp_cache set_field] in *. clear s1 Hok Hup.
  set (cache := <[Z.to_nat i := learned device a mac]> (net_arp_cache s)) in *.
  assert (Hi' : cache !! Z.to_nat i = Some (learned device a mac)).
  { apply list_lookup_insert_eq. unfold cache in Hl. rewrite length_insert in Hl. lia. }
  rewrite (find_only cache 0 device a (Z.to_nat i) (learned device a mac)), some_bind, Z.add_0_l, Z2Nat.id; [|lia|done| |].
  - by rewrite (proj2 (rd_lookup cache i _) (conj (proj1 Hi) Hi')).
  - unfold entry_is. cbn. by rewrite Z.eqb_refl, ip_equal_refl.
  - intros j e Hj Hne. apply (Hs j); [|done]. unfold cache in Hj. by rewrite list_lookup_insert_ne in Hj.
Qed.

(** Learning sends what waits for the address. *)
Lemma wp_learn_exact s device d a mac (Q : unit -> net W -> Prop) :
  up s device d -> neighbour d a -> mac_unicast mac ->
  (forall i t, slot_for s device a i ->
     sent (s <| net_arp_cache := <[Z.to_nat i := learned device a mac]> (net_arp_cache s) |>
             <| net_ipv4_pending := release device a <$> net_ipv4_pending s |>) t ->
     frames (wire t) = frames (wire s) ++ released device d a mac (net_ipv4_pending s) -> Q tt t) ->
  wp (cache_protocol_address device a mac) Q s.
Proof.
  intros Hup Hnb (Hm & Hz & Hmc) HQ. pose proof Hup as (Hok & _). pose proof Hnb as ((Ha & Hu) & _).
  unfold cache_protocol_address. rewrite Hu, Hz, Hmc. cbn [negb orb].
  apply wp_bind. unfold find_entry. apply wp_gets. apply wp_bind, wp_slot; [done..|]. intros i Hi.
  destruct (slot_rd s device a i Hok Hi) as (e & Hr & He). apply wp_bind. eapply wp_update; [exact Hr|].
  set (s1 := s <| net_arp_cache := _ |>).
  assert (Hup1 : up s1 device d).
  { split; [|apply Hup]. apply ok_with_cache; [done|]. eapply slot_insert; [done|exact Ha|exact Hi| |done..].
    split_and!; cbn; try done. intros _. split; [by eapply up_known|done]. }
  eapply (wp_notify_exact s1 device d a mac); [done|by apply slot_lookup|done|]. intros t Ht Ef. by eapply HQ.
Qed.

(** ** Asking for an address *)

(** The frames of a request and of the answer to it. *)
Definition arp_request d (a : net_ipv4_addr) : list Z :=
  eth_frame net_mac_addr_broadcast (mac_address d) NET_ETHERTYPE_ARP
    (arp_bytes NET_ARP_OPERATION_REQUEST (mac_address d) (address (ipv4 d)) net_mac_addr_zero a).
Definition arp_answer d (mac : net_mac_addr) (a : net_ipv4_addr) : list Z :=
  eth_frame mac (mac_address d) NET_ETHERTYPE_ARP
    (arp_bytes NET_ARP_OPERATION_REPLY (mac_address d) (address (ipv4 d)) mac a).

Lemma wp_request_exact s device d a (Q : Z -> net W -> Prop) :
  up s device d -> neighbour d a ->
  (forall t, sent s t -> frames (wire t) = frames (wire s) ++ [arp_request d a] -> Q NET_OK t) -> wp (net_arp_request device a) Q s.
Proof.
  intros Hup ((Ha & Hu) & Hb & _) HQ. destruct (up_facts s device d Hup) as ((Hm & _) & Hmtu & (Hip & _)).
  pose proof Hup as (Hok & Hn & Hd & Hr & Hc & _). unfold net_arp_request.
  rewrite (proj2 (Z.eqb_neq device NULL)) by done. apply wp_bind. eapply wp_dev; [exact Hd|]. rewrite Hr, Hc, Hu, Hb. cbn [negb orb].
  apply wp_bind. eapply wp_of_option; [apply arp_packet_spec|].
  destruct (arp_buffer NET_ARP_OPERATION_REQUEST (mac_address d) (address (ipv4 d)) net_mac_addr_zero a) as [Hbuf Hdata];
    [done|done|apply mac_zero_ok|done|].
  apply (wp_send_frame s device d); [done|done|lia|done|lia|]. rewrite Hdata. exact HQ.
Qed.

(** An address with no entry: the entry now waits for an answer. *)
Lemma wp_resolve_asks s device d a (Q : Z * option net_mac_addr -> net W -> Prop) :
  up s device d -> neighbour d a -> find_from (net_arp_cache s) 0 device a = None ->
  (forall i e t, slot_for s device a i -> rd (net_arp_cache s) i = Some e ->
     sent (s <| net_arp_cache := <[Z.to_nat i := asking e device a]> (net_arp_cache s) |>) t ->
     frames (wire t) = frames (wire s) ++ [arp_request d a] -> Q (NET_ERR_AGAIN, None) t) ->
  wp (net_arp_resolve device a) Q s.
Proof.
  intros Hup Hnb Hf HQ. pose proof Hup as (Hok & Hn & Hd & Hr & Hc & _). pose proof Hnb as ((Ha & Hu) & _).
  destruct (unicast_classes a Ha Hu) as (Hz & _ & _). unfold net_arp_resolve. rewrite (proj2 (Z.eqb_neq device NULL)) by done.
  apply wp_bind. eapply wp_dev; [exact Hd|]. rewrite Hr. cbn [negb]. apply wp_bind. eapply wp_lookup; [done|exact Hd|].
  rewrite neighbour_lookup, Hf by done. cbn [mbind option_bind]. rewrite Hc, Hz. cbn [negb orb].
  apply wp_bind. unfold find_entry. apply wp_gets. rewrite Hf. apply wp_bind, wp_ret, wp_bind, wp_allocate_entry; [done|]. intros i Hi.
  assert (Hslot : slot_for s device a i) by (split; [done|]; intros j e Hj _; by eapply find_none).
  destruct (slot_rd s device a i Hok Hslot) as (e & Hre & He). apply wp_bind. eapply wp_update; [exact Hre|].
  apply wp_bind. eapply (wp_request_exact _ device d); [|done|].
  { split; [|apply Hup]. apply ok_with_cache; [done|]. eapply slot_insert; [done|exact Ha|exact Hslot| |done..].
    apply asking_ok; [by eapply up_known|done|done|done]. }
  intros t Ht Ef. cbn [Z.eqb negb]. apply wp_ret. by eapply HQ.
Qed.

Lemma wp_resolve_known s device d a mac (Q : Z * option net_mac_addr -> net W -> Prop) :
  up s device d -> lookup_result s device d a = Some mac -> Q (NET_OK, Some mac) s -> wp (net_arp_resolve device a) Q s.
Proof.
  intros (_ & Hn & Hd & Hr & _) Hl HQ. unfold net_arp_resolve. rewrite (proj2 (Z.eqb_neq device NULL)) by done.
  apply wp_bind. eapply wp_dev; [exact Hd|]. rewrite Hr. cbn [negb]. apply wp_bind. eapply wp_lookup; [done|exact Hd|]. rewrite Hl.
  by apply wp_ret.
Qed.

(** ** Requests and answers that arrive *)

Section Arp.
Context (operation : Z) (sender : net_mac_addr) (sender_ip : net_ipv4_addr) (target : net_mac_addr)
  (target_ip : net_ipv4_addr) (pad : list Z).
Let p := arp_bytes operation sender sender_ip target target_ip ++ pad.
Lemma arp_sender : mac_at p 8 = Some sender.
Proof. destruct sender. reflexivity. Qed.
Lemma arp_sender_ip : ip_at p 14 = Some sender_ip.
Proof. destruct sender, sender_ip. reflexivity. Qed.
Lemma arp_target : mac_at p 18 = Some target.
Proof. destruct sender, sender_ip, target. reflexivity. Qed.
Lemma arp_target_ip : ip_at p 24 = Some target_ip.
Proof. destruct sender, sender_ip, target, target_ip. reflexivity. Qed.

(** What is left to do once the packet is read and found to be for this host. *)
Lemma wp_arp_read s device d n (Q : Z -> net W -> Prop) :
  up s device d -> 28 <= n -> operation = NET_ARP_OPERATION_REQUEST \/ operation = NET_ARP_OPERATION_REPLY ->
  mac_unicast sender -> ip_unicast sender_ip -> sender_ip <> address (ipv4 d) -> target_ip = address (ipv4 d) ->
  (operation = NET_ARP_OPERATION_REPLY -> target = mac_address d /\ is_Some (find_from (net_arp_cache s) 0 device sender_ip) /\
     wp (cache_protocol_address device sender_ip sender) (fun _ => Q NET_OK) s) ->
  (operation = NET_ARP_OPERATION_REQUEST -> wp (cache_protocol_address device sender_ip sender)
     (fun _ => wp (net_ethernet_send device sender NET_ETHERTYPE_ARP
        (Some (arp_bytes NET_ARP_OPERATION_REPLY (mac_address d) (address (ipv4 d)) sender sender_ip)) NET_ARP_PACKET_LEN) Q) s) ->
  wp (net_arp_input device sender (Some p) n) Q s.
Proof.
  intros Hup Hn28 Hop (Hs & Hsz & Hsm) (Hi & Hiu) Hne Htip HQ1 HQ2.
  destruct (up_facts s device d Hup) as ((Hmac & _) & _ & (Hip & _)).
  pose proof Hup as (Hok & Hn & Hd & Hr & Hc & _). unfold net_arp_input. rewrite (proj2 (Z.eqb_neq device NULL)) by done.
  rewrite (proj2 (Z.ltb_ge n 28)) by lia. cbn [orb]. apply wp_bind. eapply wp_dev; [exact Hd|]. rewrite Hr, Hc. cbn [negb orb].
  do 4 (apply wp_bind; eapply wp_of_option; [reflexivity|]). cbn [Z.eqb Pos.eqb negb orb].
  apply wp_bind. eapply (wp_of_option _ _ _ operation); [destruct Hop as [-> | ->]; reflexivity|].
  assert (negb (operation =? 1) && negb (operation =? 2) = false) as -> by (destruct Hop as [-> | ->]; done).
  apply wp_bind. eapply wp_of_option; [apply arp_sender|]. apply wp_bind. eapply wp_of_option; [apply arp_target|].
  apply wp_bind. eapply wp_of_option; [apply arp_sender_ip|]. apply wp_bind. eapply wp_of_option; [apply arp_target_ip|].
  destruct (unicast_classes sender_ip Hi Hiu) as (Hz & _ & _).
  rewrite Htip, mac_equal_refl, Hsz, Hsm, Hz, Hiu, ip_equal_refl, ip_equal_spec, bool_decide_eq_false_2 by done. cbn [negb andb orb].
  destruct Hop as [Hop|Hop]; rewrite Hop; cbn [Z.eqb Pos.eqb].
  - apply wp_bind, wp_when; [|done]. intros _. eapply wp_mono; [by apply HQ2|]. intros [] t Ht.
    apply wp_bind. eapply wp_of_option; [apply arp_packet_spec|done].
  - destruct (HQ1 Hop) as (Htg & [i Hf] & HQ). apply wp_bind. unfold find_entry. apply wp_gets.
    rewrite Htg, mac_equal_refl, Hf by done. cbn [negb orb is_null]. apply wp_bind. eapply wp_mono; [exact HQ|].
    intros [] t Ht. by apply wp_ret.
Qed.
End Arp.
End Link.
