(* ===== verification/NetDeliver.v ===== *)
(** * Datagrams and echo messages between hosts

    What an IPv4 send puts on the wire or into the table of waiting packets, and
    what the receiver of a datagram or of an echo message does with it. *)

From S2P Require Import Prelude Errno NetTypes NetSum Net NetBytes NetProps NetSafe NetSafeIp NetReceive NetLink.

Section Deliver.
Context {G : Garbage} {W : Type} {E : NetEnv W} (frames : W -> list (list Z)).
Implicit Types (s t : net W) (d : net_device W) (device : Z).
Abbreviation up := (up frames).

(** ** Sending a datagram *)

(** A datagram the device may send, and the neighbour it goes to. *)
Definition sendable s device d (source destination : net_ipv4_addr) (protocol_ : Z) (p : option (list Z)) (n : Z)
  (hop : net_ipv4_addr) : Prop :=
  up s device d /\ (source = net_ipv4_addr_zero \/ source = address (ipv4 d)) /\ ip_unicast destination /\
  0 < protocol_ < 256 /\ buffer_ok p n /\ 20 + n <= mtu d /\
  next_hop_for_device device destination s = Some ((NET_OK, Some hop), s).

(** The datagram it is. *)
Abbreviation sent_datagram s d destination protocol_ p n :=
  (datagram (net_ipv4_identification s) protocol_ (address (ipv4 d)) destination (data_of p n)) (only parsing).

Lemma sendable_source d source destination :
  ip_unicast (address (ipv4 d)) -> configured (ipv4 d) = true ->
  source = net_ipv4_addr_zero \/ source = address (ipv4 d) -> source_for d source destination = inr (address (ipv4 d)).
Proof.
  intros [Ha Hu] Hc Hs. unfold source_for. rewrite Hc. destruct Hs as [-> | ->].
  - rewrite ip_is_zero_spec, bool_decide_eq_true_2 by (done || apply ip_zero_ok). done.
  - destruct (unicast_classes _ Ha Hu) as (-> & _ & _). by rewrite ip_equal_refl.
Qed.

(** Everything up to the resolution of the next hop. *)
Lemma wp_send_datagram s device d source destination protocol_ p n hop (Q : Z -> net W -> Prop) :
  sendable s device d source destination protocol_ p n hop ->
  (forall pk, zlen pk = 1500 -> bytes_ok pk -> data_of (Some pk) (20 + n) = sent_datagram s d destination protocol_ p n ->
   wp ('(result, mac) ← net_arp_resolve device hop;
       match mac with
       | Some mac => net_ethernet_send device mac NET_ETHERTYPE_IPV4 (Some pk) (NET_IPV4_MIN_HEADER_LEN + n)
       | None => if result =? NET_ERR_AGAIN then queue_pending_packet device hop pk (NET_IPV4_MIN_HEADER_LEN + n) else mret result
       end) Q (s <| net_ipv4_identification := u16 (net_ipv4_identification s + 1) |>)) ->
  wp (net_ipv4_send_on device source destination protocol_ p n) Q s.
Proof.
  intros (Hup & Hs & (Hd & Hdu) & Hp & Hbuf & Hn & Hhop) HQ. destruct (up_facts frames s device d Hup) as (_ & Hmtu & (Ha & Hu)).
  pose proof Hup as (Hok & Hnull & Hdev & Hr & Hc & _). unfold net_ipv4_send_on.
  rewrite (proj2 (Z.eqb_neq device NULL)) by done. apply wp_bind. eapply wp_dev; [exact Hdev|].
  rewrite Hr, (proj2 (Z.eqb_neq protocol_ 0)), Hdu by lia. cbn [negb andb orb]. rewrite orb_false_r.
  assert (is_null p && negb (n =? 0) = false) as -> by (destruct p; [done|]; destruct Hbuf as [_ ->]; done).
  rewrite (proj2 (Z.ltb_ge (65535 - 20) n)), (proj2 (Z.ltb_ge (mtu d) (n + 20))) by lia. cbn [orb].
  rewrite sendable_source by done. destruct (unicast_classes _ Ha Hu) as (Hz & _ & _). rewrite Hz, Hu. cbn [negb andb].
  apply wp_bind. eexists _, _. split; [exact Hhop|]. apply wp_bind, wp_gets, wp_bind, wp_modify.
  destruct (ipv4_packet_spec (net_ipv4_identification s) protocol_ (address (ipv4 d)) destination p n) as (rest & Hrest & Hbr & Epk);
    [lia|done|done|done|lia|].
  pose proof (length_data_of p n Hbuf) as Hlen. apply wp_bind. eapply wp_of_option; [exact Epk|]. apply HQ.
  - rewrite length_app, Nat2Z.inj_add, length_datagram. lia.
  - apply Forall_app_2; [|done]. apply datagram_bytes; [lia|done|done|by apply data_of_bytes].
  - unfold data_of at 1. cbn [default]. apply take_app_length'. pose proof (length_datagram (net_ipv4_identification s) protocol_
      (address (ipv4 d)) destination (data_of p n)). lia.
Qed.

(** The state after: the identification moves on. *)
Abbreviation identified s := (s <| net_ipv4_identification := u16 (net_ipv4_identification s + 1) |>) (only parsing).

Lemma up_identified s device d : up s device d -> up (identified s) device d.
Proof. intros (Hok & H). split; [|done]. apply ok_with_identification; [done|apply u16_range]. Qed.

(** To a neighbour whose address is known. *)
Lemma wp_send_known s device d source destination protocol_ p n hop mac (Q : Z -> net W -> Prop) :
  sendable s device d source destination protocol_ p n hop ->
  lookup_result s device d hop = Some mac -> net_mac_addr_is_zero mac = false ->
  (forall t, sent (identified s) t -> frames (wire t) = frames (wire s) ++
     [eth_frame mac (mac_address d) NET_ETHERTYPE_IPV4 (sent_datagram s d destination protocol_ p n)] -> Q NET_OK t) ->
  wp (net_ipv4_send_on device source destination protocol_ p n) Q s.
Proof.
  intros Hs Hl Hz HQ. eapply wp_send_datagram; [exact Hs|]. intros pk Hpl Hpb Hpd.
  destruct Hs as (Hup & _ & _ & _ & (Hn0 & _) & Hn & _). apply up_identified in Hup. destruct (up_facts frames _ device d Hup) as (_ & Hmtu & _).
  apply wp_bind. eapply (wp_resolve_known frames); [exact Hup|exact Hl|].
  eapply (wp_send_frame frames _ device d); [done|done|lia|split; [lia|split; [lia|done]]|lia|]. rewrite Hpd. exact HQ.
Qed.

(** To a neighbour whose address is asked for: the datagram waits. *)
Definition queued s device (hop : net_ipv4_addr) (data : list Z) t : Prop :=
  exists k q, net_ipv4_pending s !! k = Some q /\ p_used q = false /\ exists q',
    net_ipv4_pending t = <[k := q']> (net_ipv4_pending s) /\ waits device hop q' = true /\
    p_length q' = zlen data /\ data_of (Some (packet q')) (p_length q') = data.

Lemma wp_queue_exact s device hop p n (Q : Z -> net W -> Prop) :
  net_ok s -> known (devs s) device -> ip_ok hop -> bytes_ok p -> 0 <= n -> n <= zlen p -> n <= 1500 ->
  (exists k q, net_ipv4_pending s !! k = Some q /\ p_used q = false) ->
  (forall l, queued s device hop (data_of (Some p) n) (s <| net_ipv4_pending := l |>) ->
     net_ok (s <| net_ipv4_pending := l |>) -> Q NET_OK (s <| net_ipv4_pending := l |>)) ->
  wp (queue_pending_packet device hop p n) Q s.
Proof.
  intros Hok Hk Hh Hb H0 Hl Hn (k & q & Hq & Hqu) HQ. unfold queue_pending_packet. apply wp_bind, wp_gets.
  destruct (scan _ _ _) as [i|] eqn:Hi.
  2: { exfalso. pose proof (scan_none _ _ k q Hi Hq) as Hx. cbn in Hx. by rewrite Hqu in Hx. }
  destruct (scan_some _ _ _ Hi) as (x & Hr & Hxu). apply wp_bind. eapply wp_elem; [exact Hr|].
  destruct (ok_pending s Hok) as [Hlen Hf]. pose proof Hr as [_ Hr']%rd_lookup.
  pose proof (Forall_lookup_1 _ _ _ _ Hf Hr') as (Hx1 & Hx2 & _).
  destruct (copy_front (packet x) p n) as (l & El & Hl1 & Hl2 & Hl3); [done|done|lia|done|done|].
  apply wp_bind. eapply wp_of_option; [exact El|]. apply wp_bind. eapply wp_update; [exact Hr|]. apply wp_ret, HQ.
  - exists (Z.to_nat i), x. split_and!; [done|by apply negb_true_iff|]. eexists. split; [reflexivity|]. unfold waits, data_of. cbn.
    rewrite Z.eqb_refl, ip_equal_refl, Hl3, length_take by done. split_and!; [done|lia|done].
  - apply ok_with_pending; [done|]. apply pending_insert; [apply Hok|]. split_and!; cbn; [lia|done|]. intros _. split_and!; try done; lia.
Qed.

Lemma asked_found s device a i e :
  net_ok s -> ip_ok a -> slot_for s device a i -> rd (net_arp_cache s) i = Some e ->
  find_from (<[Z.to_nat i := asking e device a]> (net_arp_cache s)) 0 device a = Some i.
Proof.
  intros Hok Ha [Hi Hs] Hr. apply rd_range in Hr.
  rewrite (find_only _ 0 device a (Z.to_nat i) (asking e device a)); [f_equal; lia|apply list_lookup_insert_eq; lia| |].
  - unfold entry_is. cbn. by rewrite Z.eqb_refl, ip_equal_refl.
  - intros j x Hj Hne. apply (Hs j); [|done]. by rewrite list_lookup_insert_ne in Hj.
Qed.

Lemma wp_send_asks s device d source destination protocol_ p n hop (Q : Z -> net W -> Prop) :
  sendable s device d source destination protocol_ p n hop -> neighbour d hop ->
  find_from (net_arp_cache s) 0 device hop = None -> (exists k q, net_ipv4_pending s !! k = Some q /\ p_used q = false) ->
  (forall t st, up t device (d <| dev_stats := st |>) -> is_Some (find_from (net_arp_cache t) 0 device hop) ->
     frames (wire t) = frames (wire s) ++ [arp_request d hop] ->
     queued s device hop (sent_datagram s d destination protocol_ p n) t -> Q NET_OK t) ->
  wp (net_ipv4_send_on device source destination protocol_ p n) Q s.
Proof.
  intros Hs Hnb Hf Hfree HQ. eapply wp_send_datagram; [exact Hs|]. intros pk Hpl Hpb Hpd.
  destruct Hs as (Hup0 & _ & _ & _ & (Hn0 & _) & Hn & _). pose proof (up_identified s device d Hup0) as Hup.
  destruct (up_facts frames _ device d Hup) as (_ & Hmtu & _). pose proof Hnb as ((Ha & _) & _).
  apply wp_bind. eapply (wp_resolve_asks frames); [exact Hup|exact Hnb|exact Hf|]. intros i e t Hslot Hr Ht Ef. cbn [Z.eqb Pos.eqb].
  assert (Hup1 : up ((identified s) <| net_arp_cache := <[Z.to_nat i := asking e device hop]> (net_arp_cache s) |>) device d).
  { split; [|apply Hup]. pose proof (proj1 Hup) as Hok. apply ok_with_cache; [done|]. destruct (slot_rd _ device hop i Hok Hslot) as (e' & Hr' & He').
    simplify_eq. refine (slot_insert (identified s) device hop i (asking e device hop) Hok Ha Hslot _ eq_refl eq_refl).
    apply asking_ok; [by eapply up_known|done|apply Hnb|done]. }
  pose proof (asked_found (identified s) device hop i e (proj1 Hup) Ha Hslot Hr) as Hfound.
  destruct (up_sent frames _ t device d Ht Hup1) as [st Hupt].
  assert (Hpend : net_ipv4_pending t = net_ipv4_pending s) by (by destruct Ht as (m & w & -> & _)).
  assert (Hcache : net_arp_cache t = <[Z.to_nat i := asking e device hop]> (net_arp_cache s)) by (by destruct Ht as (m & w & -> & _)).
  apply wp_queue_exact; [apply Hupt|by eapply up_known|done|done|lia|lia|lia|by rewrite Hpend|]. intros l Hl Hokl.
  apply (HQ _ st).
  - split; [done|apply Hupt].
  - cbn. rewrite Hcache. exists i. exact Hfound.
  - exact Ef.
  - rewrite Hpd in Hl. unfold queued in *. by rewrite Hpend in Hl.
Qed.

(** ** Receiving a datagram *)

Section Datagram.
Context (identification protocol_ : Z) (source destination : net_ipv4_addr) (data pad : list Z).
Context (Hp : 0 < protocol_ < 256) (Hsrc : ip_unicast source) (Hdst : ip_ok destination) (Hlen : 20 + zlen data < 2 ^ 16).
Let p := datagram identification protocol_ source destination data ++ pad.
Lemma datagram_total : net_read_be16 p 2 = Some (20 + zlen data).
Proof using Hlen. rewrite <- (be16_value (20 + zlen data)) by lia. reflexivity. Qed.
Lemma datagram_source : ip_at p 12 = Some source.
Proof. destruct source. reflexivity. Qed.
Lemma datagram_destination : ip_at p 16 = Some destination.
Proof. destruct source, destination. reflexivity. Qed.
Lemma datagram_header : span p 0 20 = ip_header (20 + zlen data) identification protocol_
  (rfc1071 (ip_header (20 + zlen data) identification protocol_ 0 source destination)) source destination.
Proof. unfold p, datagram. rewrite <- app_assoc. by apply span_front. Qed.
Lemma datagram_data : span p 20 (zlen data) = data.
Proof.
  unfold p, datagram. unfold span. rewrite <- app_assoc, drop_app_length' by done. rewrite Nat2Z.id. apply take_app_length.
Qed.

(** The handler of the protocol gets the source, the destination and the data. *)
Lemma wp_ipv4_datagram s device d mac n h (Q : Z -> net W -> Prop) :
  up s device d -> mac_unicast mac -> n = zlen p -> n <= mtu d -> destination = address (ipv4 d) ->
  (i ← scan (fun h => h_used h && (protocol h =? protocol_)) (net_ipv4_handlers s) 0; rd (net_ipv4_handlers s) i) = Some h ->
  wp (call_handler h device source destination data (zlen data)) Q s ->
  wp (net_ipv4_input device mac (Some p) n) Q s.
Proof using Hp Hsrc Hdst Hlen.
  intros Hup (_ & Hmz & Hmm) Hn Hm Hd Hh HQ. pose proof Hup as (Hok & Hnull & Hdev & Hr & Hc & _). destruct Hsrc as [Hs Hsu].
  unfold net_ipv4_input. rewrite (proj2 (Z.eqb_neq device NULL)) by done. apply wp_bind. eapply wp_dev; [exact Hdev|].
  assert (Hl : n = 20 + zlen data + zlen pad) by (rewrite Hn; unfold p; rewrite length_app, Nat2Z.inj_add, length_datagram; lia).
  rewrite Hr, Hmz, Hmm, (proj2 (Z.ltb_ge n 20)), (proj2 (Z.ltb_ge (mtu d) n)) by lia. cbn [negb orb].
  apply wp_bind. eapply (wp_of_option _ _ _ 69); [reflexivity|]. change (negb (Z.shiftr 69 4 =? 4) || (Z.land 69 15 <? 5)) with false.
  change (Z.land 69 15 * 4) with 20. cbv iota. rewrite (proj2 (Z.ltb_ge n 20)) by lia. change (negb (20 =? 20)) with false. cbv iota.
  apply wp_bind. eapply wp_of_option; [apply datagram_total|]. apply wp_bind. eapply (wp_of_option _ _ _ 64); [reflexivity|].
  apply wp_bind. eapply (wp_of_option _ _ _ protocol_); [reflexivity|].
  rewrite (proj2 (Z.ltb_ge (20 + zlen data) 20)), (proj2 (Z.ltb_ge n (20 + zlen data))), (proj2 (Z.eqb_neq protocol_ 0)) by lia. cbn [Z.eqb orb].
  rewrite datagram_header. apply wp_bind. eapply wp_of_option; [apply ip_header_valid; [lia|done|done]|]. cbn [negb].
  apply wp_bind. eapply (wp_of_option _ _ _ 0x4000); [reflexivity|]. change (negb (Z.land 0x4000 0xbfff =? 0)) with false. cbv iota.
  apply wp_bind. eapply wp_of_option; [apply datagram_source|]. apply wp_bind. eapply wp_of_option; [apply datagram_destination|].
  rewrite Hsu, Hc. cbn [negb]. rewrite Hd, ip_equal_refl by (by rewrite <- Hd). cbn [negb andb].
  apply wp_bind, wp_gets. destruct (scan _ _ _) as [i|]; [|done]. cbn [mbind option_bind] in Hh.
  apply wp_bind. eapply wp_elem; [exact Hh|]. replace (20 + zlen data - 20) with (zlen data) by lia. rewrite datagram_data.
  by rewrite <- Hd.
Qed.
End Datagram.

(** ** Echo messages *)

Section Echo.
Context (type identifier sequence : Z) (data : list Z).
Context (Ht : is_u8 type) (Hi : is_u16 identifier) (Hs : is_u16 sequence) (Hb : bytes_ok data) (Hl : zlen data <= 1472).
Let p := echo type identifier sequence data.
Lemma length_echo : zlen p = 8 + zlen data.
Proof. unfold p, echo, icmp_echo. rewrite !length_app. cbn. lia. Qed.
Lemma echo_identifier : net_read_be16 p 4 = Some identifier.
Proof using Hi. rewrite <- (be16_value identifier Hi) at 1. reflexivity. Qed.
Lemma echo_sequence : net_read_be16 p 6 = Some sequence.
Proof using Hs. rewrite <- (be16_value sequence Hs) at 1. reflexivity. Qed.
Lemma echo_data : span p 8 (8 + zlen data - 8) = data.
Proof.
  change p with ([type; 0] ++ be16 (rfc1071 (icmp_echo type 0 identifier sequence data)) ++ be16 identifier ++ be16 sequence ++ data).
  rewrite !app_assoc. apply span_back; [done|lia].
Qed.
Lemma echo_bytes : bytes_ok p.
Proof using Ht Hb. by apply icmp_echo_bytes. Qed.
Lemma echo_valid : net_checksum_is_valid (Some p) (zlen p) = Some true.
Proof using Ht Hb Hl.
  pose proof length_echo as He. unfold p, echo in *. set (post := be16 identifier ++ be16 sequence ++ data).
  assert (Ei : forall c, icmp_echo type c identifier sequence data = [type; 0] ++ be16 c ++ post) by done.
  pose proof (icmp_echo_bytes type 0 identifier sequence data Ht Hb) as Hb0. rewrite !Ei in *. change (be16 0) with [0; 0] in *.
  apply (stored_valid [type; 0] post); [done|done|]. etransitivity; [exact (Z.eq_le_incl _ _ He)|lia].
Qed.

(** Reading an echo message that is for this host. *)
Lemma wp_icmp_echo s device d source (Q : Z -> net W -> Prop) :
  up s device d -> type = NET_ICMP_ECHO_REQUEST \/ type = NET_ICMP_ECHO_REPLY ->
  (type = NET_ICMP_ECHO_REPLY ->
   wp (match net_icmp_reply_handler s with
       | Some h => echo_reply_call h device source identifier sequence data (net_icmp_reply_context s)
       | None => mret tt
       end) (fun _ => Q NET_OK) s) ->
  (type = NET_ICMP_ECHO_REQUEST -> forall reply, buffer_ok (Some reply) (zlen p) ->
   data_of (Some reply) (zlen p) = echo NET_ICMP_ECHO_REPLY identifier sequence data ->
   wp (net_ipv4_send_on device (address (ipv4 d)) source NET_IPV4_PROTOCOL_ICMP (Some reply) (zlen p)) Q s) ->
  wp (net_icmp_input device source (address (ipv4 d)) (Some p) (zlen p)) Q s.
Proof using Ht Hi Hs Hb Hl.
  intros Hup Htype Hrep Hreq. pose proof Hup as (Hok & Hn & Hd & Hr & Hc & _). pose proof length_echo as Hlp.
  destruct (up_facts frames s device d Hup) as (_ & _ & (Ha & _)). unfold net_icmp_input.
  rewrite (proj2 (Z.eqb_neq device NULL)) by done. rewrite (proj2 (Z.ltb_ge (zlen p) 4)), (proj2 (Z.ltb_ge 1480 (zlen p))) by lia. cbn [orb].
  apply wp_bind. eapply wp_of_option; [apply echo_valid|]. cbn [negb]. apply wp_bind. eapply (wp_of_option _ _ _ type); [reflexivity|].
  assert (negb (type =? 8) && negb (type =? 0) = false) as -> by (destruct Htype as [-> | ->]; done).
  apply wp_bind. eapply (wp_of_option _ _ _ 0); [reflexivity|]. rewrite (proj2 (Z.ltb_ge (zlen p) 8)) by lia. cbn [Z.eqb negb orb].
  apply wp_bind. eapply wp_of_option; [apply echo_identifier|]. apply wp_bind. eapply wp_of_option; [apply echo_sequence|].
  apply wp_bind. eapply wp_dev; [exact Hd|]. rewrite Hc, ip_equal_refl by done. cbn [negb orb].
  destruct Htype as [Htype|Htype]; rewrite Htype; cbn [Z.eqb].
  - set (tail := be16 identifier ++ be16 sequence ++ data). set (c := rfc1071 (icmp_echo type 0 identifier sequence data)).
    assert (Ep : p = type :: 0 :: u8 (Z.shiftr c 8) :: u8 c :: tail) by done. pose proof echo_bytes as Hbp.
    destruct (echo_reply_spec type 0 (u8 (Z.shiftr c 8)) (u8 c) tail (zlen p)) as (rest & Hrest & Hbr & Er); [by rewrite <- Ep|by rewrite <- Ep|lia|].
    rewrite <- Ep in Er. apply wp_bind. eapply wp_of_option; [exact Er|].
    assert (Ee : [0; 0] ++ be16 (rfc1071 ([0; 0; 0; 0] ++ tail)) ++ tail ++ rest = echo 0 identifier sequence data ++ rest).
    { unfold echo, icmp_echo, tail. by rewrite <- !app_assoc. }
    rewrite Ee. assert (Hlr : zlen (echo 0 identifier sequence data) = zlen p) by (rewrite Hlp; unfold echo, icmp_echo; rewrite !length_app; cbn; lia).
    apply Hreq; [done| |].
    + split; [lia|]. split; [rewrite length_app; lia|]. apply Forall_app_2; [|done]. by apply icmp_echo_bytes.
    + unfold data_of. cbn [default]. apply take_app_length'. lia.
  - rewrite Hlp, echo_data. apply wp_bind, wp_gets, wp_bind, wp_gets, wp_bind. eapply wp_mono; [by apply Hrep|]. intros [] t Ht'. by apply wp_ret.
Qed.
End Echo.

(** ** Frames that arrive *)

Lemma broadcast_frame d : mac_ok net_mac_addr_broadcast /\ (net_mac_addr_broadcast = mac_address d \/ net_mac_addr_is_broadcast net_mac_addr_broadcast = true).
Proof. split; [apply mac_broadcast_ok|by right]. Qed.

(** After the two tables have changed, up to statistics: the device is up and
    knows the address. *)
Lemma learned_known s device d a mac i t :
  up s device d -> neighbour d a -> mac_unicast mac -> slot_for s device a i ->
  sent (s <| net_arp_cache := <[Z.to_nat i := mk_entry NET_ARP_ENTRY_VALID device a mac 0 0]> (net_arp_cache s) |>
          <| net_ipv4_pending := release device a <$> net_ipv4_pending s |>) t ->
  exists st, up t device (d <| dev_stats := st |>) /\ lookup_result t device (d <| dev_stats := st |>) a = Some mac.
Proof.
  intros Hup Hnb Hm Hslot Ht. pose proof Hup as (Hok & _). pose proof Hnb as ((Ha & Hu) & _).
  set (s1 := s <| net_arp_cache := <[Z.to_nat i := mk_entry NET_ARP_ENTRY_VALID device a mac 0 0]> (net_arp_cache s) |>).
  assert (Hup1 : up s1 device d).
  { split; [|apply Hup]. apply ok_with_cache; [done|]. eapply slot_insert; [done|exact Ha|exact Hslot| |done..].
    split_and!; cbn; try done; try apply Hm. intros _. split; [by eapply up_known|done]. }
  pose proof (slot_lookup frames s device d a mac i Hup1 Hnb Hslot) as Hl.
  assert (Hup2 : up (s1 <| net_ipv4_pending := release device a <$> net_ipv4_pending s |>) device d).
  { split; [|apply Hup]. apply ok_with_pending; [apply Hup1|]. destruct (ok_pending s Hok) as [Hlen Hf].
    split; [by rewrite length_fmap|]. apply Forall_fmap. eapply Forall_impl; [exact Hf|]. intros p (H1 & H2 & H3). unfold compose, release.
    destruct (waits device a p); [by split_and!|]. by split_and!. }
  destruct (up_sent frames _ t device d Ht Hup2) as [st Hupt]. exists st. split; [done|].
  destruct Ht as (m & w & -> & _). exact Hl.
Qed.

(** A request for the address of this host: the sender is learned and answered. *)
Lemma wp_answer s device d d' (Q : Z -> net W -> Prop) :
  up s device d -> neighbour d (address (ipv4 d')) -> mac_unicast (mac_address d') ->
  (forall t st l, up t device (d <| dev_stats := st |>) -> net_ipv4_handlers t = net_ipv4_handlers s ->
     lookup_result t device (d <| dev_stats := st |>) (address (ipv4 d')) = Some (mac_address d') ->
     frames (wire t) = frames (wire s) ++ l ++ [arp_answer d (mac_address d') (address (ipv4 d'))] -> Q NET_OK t) ->
  wp (net_device_receive device (Some (arp_request d' (address (ipv4 d)))) (zlen (arp_request d' (address (ipv4 d))))) Q s.
Proof.
  intros Hup Hnb Hm HQ. destruct (up_facts frames s device d Hup) as ((Hmac & _) & Hmtu & (Hip & _)).
  pose proof Hup as (Hok & Hn & Hd & Hr & _). destruct (broadcast_frame d) as [Hbok Hb]. pose proof Hnb as (Hip' & _ & Hne).
  apply (wp_receive_frame s device d); try done; [cbn; lia|by left|]. change (NET_ETHERTYPE_ARP =? NET_ETHERTYPE_ARP) with true. cbv iota zeta.
  eapply (wp_arp_read frames); [exact Hup|rewrite length_app; cbn; lia|by left|done|done|done|done|done|]. intros _.
  apply (wp_learn_exact frames s device d); [done..|]. intros i t Hslot Ht Ef.
  destruct (learned_known s device d _ _ i t Hup Hnb Hm Hslot Ht) as (st & Hupt & Hlook).
  destruct (arp_buffer NET_ARP_OPERATION_REPLY (mac_address d) (address (ipv4 d)) (mac_address d') (address (ipv4 d'))) as [Hbuf Hdata];
    [done|done|apply Hm|apply Hip'|].
  apply (wp_send_frame frames t device (d <| dev_stats := st |>)); [done|apply Hm|lia|done|cbn; lia|]. intros t' Ht' Ef'.
  rewrite Hdata in Ef'. destruct (up_sent frames t t' device _ Ht' Hupt) as [st' Hupt'].
  split; [apply up_known in Hupt' as [_ ?]; done|]. intros t2 Ht2 Ew.
  destruct (up_sent frames t' t2 device _ Ht2 Hupt') as [st2 Hupt2].
  apply (HQ t2 st2 (released device d (address (ipv4 d')) (mac_address d') (net_ipv4_pending s))).
  - exact Hupt2.
  - by destruct Ht as (? & ? & -> & _), Ht' as (? & ? & -> & _), Ht2 as (? & ? & -> & _).
  - by destruct Ht' as (? & ? & -> & _), Ht2 as (? & ? & -> & _).
  - rewrite Ew, Ef', Ef. by rewrite <- app_assoc.
Qed.

(** The answer to a request: what waits for the address is sent. *)
Lemma wp_answered s device d d' (Q : Z -> net W -> Prop) :
  up s device d -> neighbour d (address (ipv4 d')) -> mac_unicast (mac_address d') ->
  is_Some (find_from (net_arp_cache s) 0 device (address (ipv4 d'))) ->
  (forall t st, up t device (d <| dev_stats := st |>) ->
     lookup_result t device (d <| dev_stats := st |>) (address (ipv4 d')) = Some (mac_address d') ->
     frames (wire t) = frames (wire s) ++ released device d (address (ipv4 d')) (mac_address d') (net_ipv4_pending s) -> Q NET_OK t) ->
  let answer := arp_answer d' (mac_address d) (address (ipv4 d)) in
  wp (net_device_receive device (Some answer) (zlen answer)) Q s.
Proof.
  intros Hup Hnb Hm Hf HQ answer. destruct (up_facts frames s device d Hup) as ((Hmac & _) & Hmtu & (Hip & _)).
  pose proof Hup as (Hok & Hn & Hd & Hr & _). pose proof Hnb as (Hip' & _ & Hne).
  apply (wp_receive_frame s device d); try done; [cbn; lia|by left|by left|]. change (NET_ETHERTYPE_ARP =? NET_ETHERTYPE_ARP) with true. cbv iota zeta.
  eapply (wp_arp_read frames); [exact Hup|rewrite length_app; cbn; lia|by right|done|done|done|done| |done]. intros _.
  split; [done|]. split; [done|]. apply (wp_learn_exact frames s device d); [done..|]. intros i t Hslot Ht Ef.
  destruct (learned_known s device d _ _ i t Hup Hnb Hm Hslot Ht) as (st & Hupt & Hlook).
  split; [apply up_known in Hupt as [_ ?]; done|]. intros t' Ht' Ew. destruct (up_sent frames t t' device _ Ht' Hupt) as [st' Hupt'].
  apply (HQ t' st'); [done| |by rewrite Ew, Ef]. by destruct Ht' as (? & ? & -> & _).
Qed.

(** The handler of a protocol. *)
Definition handler_of s (protocol_ : Z) : option net_ipv4_handler_slot :=
  i ← scan (fun h => h_used h && (protocol h =? protocol_)) (net_ipv4_handlers s) 0; rd (net_ipv4_handlers s) i.

(** A datagram for this host: the result is that of the handler. *)
Lemma wp_handed s device d mac identification protocol_ source data h (Q : Z -> net W -> Prop) :
  up s device d -> mac_unicast mac -> ip_unicast source -> 0 < protocol_ < 256 -> 20 + zlen data <= mtu d ->
  handler_of s protocol_ = Some h ->
  let frame := eth_frame (mac_address d) mac NET_ETHERTYPE_IPV4 (datagram identification protocol_ source (address (ipv4 d)) data) in
  wp (call_handler h device source (address (ipv4 d)) data (zlen data))
    (fun r t => is_Some (devs t !! device) /\ forall t', sent t t' -> wire t' = wire t -> Q r t') s ->
  wp (net_device_receive device (Some frame) (zlen frame)) Q s.
Proof.
  intros Hup Hm Hs Hp Hl Hh frame HQ. destruct (up_facts frames s device d Hup) as ((Hmac & _) & Hmtu & (Hip & _)).
  pose proof Hup as (Hok & Hn & Hd & Hr & _). pose proof (length_datagram identification protocol_ source (address (ipv4 d)) data) as Hlen.
  apply (wp_receive_frame s device d); try done; [lia|by left|by right|].
  change (NET_ETHERTYPE_IPV4 =? NET_ETHERTYPE_ARP) with false. cbv iota zeta.
  eapply (wp_ipv4_datagram identification protocol_ source (address (ipv4 d)) data _ Hp Hs Hip ltac:(lia) s device d mac);
    [exact Hup|exact Hm|reflexivity| |done|exact Hh|exact HQ].
  rewrite length_app, length_replicate. lia.
Qed.

(** ** Echo request and reply *)

Abbreviation ip_frame mac d identification protocol_ destination data :=
  (eth_frame mac (mac_address d) NET_ETHERTYPE_IPV4 (datagram identification protocol_ (address (ipv4 d)) destination data)) (only parsing).

(** The route of a destination and the hardware address the frames go to. *)
Definition reaches s device d (destination : net_ipv4_addr) (mac : net_mac_addr) : Prop :=
  exists hop, next_hop_for_device device destination s = Some ((NET_OK, Some hop), s) /\ lookup_result s device d hop = Some mac.

(** A datagram along its route. *)
Lemma wp_send_routed s device d source destination protocol_ p n x mac (Q : Z -> net W -> Prop) :
  up s device d -> (source = net_ipv4_addr_zero \/ source = address (ipv4 d)) -> ip_unicast destination ->
  0 < protocol_ < 256 -> buffer_ok p n -> 20 + n <= mtu d ->
  net_ipv4_route_lookup destination s = Some ((NET_OK, Some x), s) -> r_device x = device ->
  reaches s device d destination mac -> net_mac_addr_is_zero mac = false ->
  (forall t, sent (identified s) t -> frames (wire t) = frames (wire s) ++
     [ip_frame mac d (net_ipv4_identification s) protocol_ destination (data_of p n)] -> Q NET_OK t) ->
  wp (net_ipv4_send source destination protocol_ p n) Q s.
Proof.
  intros Hup Hsrc Hd Hp Hbuf Hn Hroute Hx (hop & Hhop & Hl) Hz HQ. unfold net_ipv4_send. apply wp_bind. eexists _, _. split; [exact Hroute|].
  cbv beta iota. rewrite Hx. pose proof Hup as (_ & _ & Hdev & _ & Hc & _). apply wp_bind. eapply wp_dev; [exact Hdev|].
  rewrite Hc. eapply (wp_send_known s device d); [|exact Hl|exact Hz|exact HQ].
  split; [done|]. split; [|done]. right. destruct Hsrc as [-> | ->]; [by rewrite ip_is_zero_spec, bool_decide_eq_true_2 by (done || apply ip_zero_ok)|].
  by destruct (net_ipv4_addr_is_zero _ && true).
Qed.

Lemma wp_send_echo s device d source destination identifier sequence p n x mac (Q : Z -> net W -> Prop) :
  up s device d -> (source = net_ipv4_addr_zero \/ source = address (ipv4 d)) -> ip_unicast destination ->
  buffer_ok p n -> 28 + n <= mtu d ->
  net_ipv4_route_lookup destination s = Some ((NET_OK, Some x), s) -> r_device x = device ->
  reaches s device d destination mac -> net_mac_addr_is_zero mac = false ->
  (forall t, sent (identified s) t -> frames (wire t) = frames (wire s) ++
     [ip_frame mac d (net_ipv4_identification s) NET_IPV4_PROTOCOL_ICMP destination (echo NET_ICMP_ECHO_REQUEST identifier sequence (data_of p n))] ->
     Q NET_OK t) ->
  wp (net_icmp_send_echo_request source destination identifier sequence p n) Q s.
Proof.
  intros Hup Hsrc (Hd & Hdu) Hbuf Hn Hroute Hx Hreach Hz HQ. destruct (up_facts frames s device d Hup) as (_ & Hmtu & _).
  destruct (unicast_classes destination Hd Hdu) as (Hdz & Hdl & Hdm). unfold net_icmp_send_echo_request.
  assert (is_null p && negb (n =? 0) = false) as -> by (destruct p; [done|]; destruct Hbuf as [_ ->]; done).
  rewrite Hdz, Hdl, Hdm. cbn [orb]. rewrite (proj2 (Z.ltb_ge _ n)) by lia.
  destruct (echo_packet_spec identifier sequence p n Hbuf ltac:(lia)) as (rest & Hrest & Hbr & Epk).
  apply wp_bind. eapply wp_of_option; [exact Epk|].
  pose proof (length_data_of p n Hbuf) as Hlen. pose proof (length_echo 8 identifier sequence (data_of p n)) as Hle.
  assert (Hdata : data_of (Some (echo 8 identifier sequence (data_of p n) ++ rest)) (8 + n) = echo 8 identifier sequence (data_of p n)).
  { unfold data_of at 1. cbn [default]. apply take_app_length'. lia. }
  eapply (wp_send_routed s device d); [done|done|done|lia| |lia|exact Hroute|exact Hx|exact Hreach|exact Hz|rewrite Hdata; exact HQ].
  pose proof Hbuf as [H0 _]. split; [lia|]. split; [rewrite length_app; lia|]. apply Forall_app_2; [|done].
  apply icmp_echo_bytes; [lia|by apply data_of_bytes].
Qed.

(** A request is answered with the same identifier, sequence number and data. *)
Lemma wp_echoed s device d mac identification source identifier sequence data h (Q : Z -> net W -> Prop) :
  up s device d -> mac_unicast mac -> ip_unicast source -> is_u16 identifier -> is_u16 sequence -> bytes_ok data -> 28 + zlen data <= mtu d ->
  handler_of s NET_IPV4_PROTOCOL_ICMP = Some h -> handler h = net_icmp_input_fn ->
  reaches s device d source mac ->
  (forall t, sent (identified s) t -> frames (wire t) = frames (wire s) ++
     [ip_frame mac d (net_ipv4_identification s) NET_IPV4_PROTOCOL_ICMP source (echo NET_ICMP_ECHO_REPLY identifier sequence data)] -> Q NET_OK t) ->
  let frame := eth_frame (mac_address d) mac NET_ETHERTYPE_IPV4
    (datagram identification NET_IPV4_PROTOCOL_ICMP source (address (ipv4 d)) (echo NET_ICMP_ECHO_REQUEST identifier sequence data)) in
  wp (net_device_receive device (Some frame) (zlen frame)) Q s.
Proof.
  intros Hup Hm Hs Hi Hsq Hb Hl Hh Hfn (hop & Hhop & Hlook) HQ frame. destruct (up_facts frames s device d Hup) as (_ & Hmtu & _).
  pose proof (length_echo 8 identifier sequence data) as Hle. eapply wp_handed; [exact Hup|exact Hm|exact Hs|lia|lia|exact Hh|].
  unfold call_handler. rewrite Hfn. apply (wp_icmp_echo 8); try done; [lia|by left|]. intros _ reply Hbuf Hdata.
  eapply (wp_send_known s device d); [|exact Hlook|apply Hm|].
  - split; [done|]. split; [by right|]. split; [done|]. split; [lia|]. split; [done|]. split; [lia|done].
  - rewrite Hdata. intros t Ht Ef. destruct (up_sent frames _ t device d Ht (up_identified s device d Hup)) as [st Hupt].
    split; [by destruct (up_known frames _ _ _ Hupt)|]. intros t' Ht' Ew. apply HQ; [by eapply sent_trans|by rewrite Ew].
Qed.

(** A reply is given to the handler of replies. *)
Lemma wp_reply_handed s device d mac identification source identifier sequence data h f (Q : Z -> net W -> Prop) :
  up s device d -> mac_unicast mac -> ip_unicast source -> is_u16 identifier -> is_u16 sequence -> bytes_ok data -> 28 + zlen data <= mtu d ->
  handler_of s NET_IPV4_PROTOCOL_ICMP = Some h -> handler h = net_icmp_input_fn -> net_icmp_reply_handler s = Some f ->
  wp (echo_reply_call f device source identifier sequence data (net_icmp_reply_context s))
    (fun _ t => is_Some (devs t !! device) /\ forall t', sent t t' -> wire t' = wire t -> Q NET_OK t') s ->
  let frame := eth_frame (mac_address d) mac NET_ETHERTYPE_IPV4
    (datagram identification NET_IPV4_PROTOCOL_ICMP source (address (ipv4 d)) (echo NET_ICMP_ECHO_REPLY identifier sequence data)) in
  wp (net_device_receive device (Some frame) (zlen frame)) Q s.
Proof.
  intros Hup Hm Hs Hi Hsq Hb Hl Hh Hfn Hf HQ frame. destruct (up_facts frames s device d Hup) as (_ & Hmtu & _).
  pose proof (length_echo 0 identifier sequence data) as Hle. eapply wp_handed; [exact Hup|exact Hm|exact Hs|lia|lia|exact Hh|].
  unfold call_handler. rewrite Hfn. apply (wp_icmp_echo 0); try done; [lia|by right|]. intros _. rewrite Hf. exact HQ.
Qed.
End Deliver.
