(* ===== verification/NetCalls.v ===== *)
(** * Any sequence of calls into the network stack

    The calls a driver, a timer or a protocol makes, in any order and with any
    frames, starting with the tables as the kernel image has them. *)

From S2P Require Import Prelude Errno NetTypes NetSum Net NetBytes NetProps NetSafe NetSafeIp NetReceive NetRegistry.

Section Calls.
Context {G : Garbage} {W : Type} {E : NetEnv W}.
Implicit Types (s t : net W) (d : net_device W) (device : Z).

Inductive call :=
| Register device (name : option (list Z)) (mac : net_mac_addr) (mtu_ : Z) (send : option (Z -> Z -> list Z -> M W Z)) (context : Z)
| Unregister device | RegistryReset | SetDefault device
| Configure device (a m g : net_ipv4_addr) | ClearIpv4 device
| Transmit device (frame : option (list Z)) (n : Z)
| EthernetSend device (destination : net_mac_addr) (ethertype : Z) (p : option (list Z)) (n : Z)
| ArpReset | ArpTick (n : Z) | ArpRequest device (a : net_ipv4_addr) | ArpResolve device (a : net_ipv4_addr)
| Ipv4Reset | Ipv4Tick (n : Z)
| RouteAdd (network_ netmask_ gateway_ : net_ipv4_addr) device (metric_ : Z)
| RouteRemove (network_ netmask_ : net_ipv4_addr) device
| RegisterProtocol (protocol_ : Z) (handler_ : option net_ipv4_protocol_fn) (context : Z) | UnregisterProtocol (protocol_ : Z)
| SendOn device (source destination : net_ipv4_addr) (protocol_ : Z) (p : option (list Z)) (n : Z)
| Send (source destination : net_ipv4_addr) (protocol_ : Z) (p : option (list Z)) (n : Z)
| IcmpInit | SetEchoHandler (h : option Z) (context : Z)
| EchoRequest (source destination : net_ipv4_addr) (identifier sequence : Z) (p : option (list Z)) (n : Z)
| Receive device (frame : option (list Z)) (n : Z).

Definition run_call (c : call) : M (net W) unit :=
  match c with
  | Register device name mac mtu_ send context => net_device_register device name mac mtu_ send context;; mret tt
  | Unregister device => net_device_unregister device;; mret tt
  | RegistryReset => net_device_registry_reset
  | SetDefault device => net_device_set_default device;; mret tt
  | Configure device a m g => net_device_configure_ipv4 device a m g;; mret tt
  | ClearIpv4 device => net_device_clear_ipv4 device
  | Transmit device frame n => net_device_transmit device frame n;; mret tt
  | EthernetSend device destination ethertype p n => net_ethernet_send device destination ethertype p n;; mret tt
  | ArpReset => net_arp_reset
  | ArpTick n => net_arp_tick n
  | ArpRequest device a => net_arp_request device a;; mret tt
  | ArpResolve device a => net_arp_resolve device a;; mret tt
  | Ipv4Reset => net_ipv4_reset
  | Ipv4Tick n => net_ipv4_tick n
  | RouteAdd network_ netmask_ gateway_ device metric_ => net_ipv4_route_add network_ netmask_ gateway_ device metric_;; mret tt
  | RouteRemove network_ netmask_ device => net_ipv4_route_remove network_ netmask_ device;; mret tt
  | RegisterProtocol protocol_ handler_ context => net_ipv4_register_protocol protocol_ handler_ context;; mret tt
  | UnregisterProtocol protocol_ => net_ipv4_unregister_protocol protocol_;; mret tt
  | SendOn device source destination protocol_ p n => net_ipv4_send_on device source destination protocol_ p n;; mret tt
  | Send source destination protocol_ p n => net_ipv4_send source destination protocol_ p n;; mret tt
  | IcmpInit => net_icmp_init;; mret tt
  | SetEchoHandler h context => net_icmp_set_echo_reply_handler h context
  | EchoRequest source destination identifier sequence p n =>
    net_icmp_send_echo_request source destination identifier sequence p n;; mret tt
  | Receive device frame n => net_device_receive device frame n;; mret tt
  end.

Fixpoint run_calls (l : list call) : M (net W) unit :=
  match l with [] => mret tt | c :: l' => run_call c;; run_calls l' end.

(** What C's types and the callers give: bytes are bytes, buffers are as long as
    claimed, a pointer to a device points to one. *)
Definition call_ok (m : gmap Z (net_device W)) (c : call) : Prop :=
  match c with
  | Register device name mac mtu_ send context => (device = NULL \/ known m device) /\ driver_arguments name mac send
  | Configure device a mask g => known m device /\ ip_ok a /\ ip_ok mask /\ ip_ok g
  | ClearIpv4 device => device = NULL \/ known m device
  | Transmit device p n | EthernetSend device _ _ p n => (device = NULL \/ known m device) /\ input_ok p n
  | ArpTick n | Ipv4Tick n => 0 <= n
  | ArpRequest device a | ArpResolve device a => known m device /\ ip_ok a
  | RouteAdd network_ netmask_ gateway_ device _ => known m device /\ ip_ok network_ /\ ip_ok netmask_ /\ ip_ok gateway_
  | SendOn device source destination protocol_ p n =>
    known m device /\ ip_ok source /\ ip_ok destination /\ is_u8 protocol_ /\ input_ok p n
  | Send source destination protocol_ p n => ip_ok source /\ ip_ok destination /\ is_u8 protocol_ /\ input_ok p n
  | EchoRequest source destination _ _ p n => ip_ok source /\ ip_ok destination /\ input_ok p n
  | Receive device p n => known m device /\ input_ok p n
  | _ => True
  end.

Lemma call_ok_extends m m' c : extends m m' -> call_ok m c -> call_ok m' c.
Proof. intros Hx. destruct c; cbn; try done; naive_solver. Qed.

Lemma wp_transmit_any s device p n (Q : Z -> net W -> Prop) :
  net_ok s -> device = NULL \/ known (devs s) device -> input_ok p n -> (forall r t, stepped s t -> Q r t) ->
  wp (net_device_transmit device p n) Q s.
Proof.
  intros Hok Hk [H0 Hp] HQ. pose proof (stepped_refl s Hok) as Hst. unfold net_device_transmit.
  destruct (Z.eqb_spec device NULL) as [|Hn]; [by apply wp_ret, HQ|]. destruct Hk as [|[_ [d Hd]]]; [done|].
  destruct (registered d) eqn:Hr.
  2: { apply wp_bind. eapply wp_dev; [exact Hd|]. rewrite Hr. by apply wp_ret, HQ. }
  destruct (ok_device s device d Hok Hd) as (_ & _ & Hd'). destruct (Hd' Hr) as (_ & Hmtu & send & Ht & Hsend).
  destruct p as [p|]; [|apply wp_bind; eapply wp_dev; [exact Hd|]; rewrite Hr, Ht; by apply wp_ret, HQ]. destruct Hp as [Hl Hb].
  destruct (decide (14 <= n <= 14 + mtu d)) as [Hn14|Hn14].
  - destruct (Hsend device (driver_context d) (take (Z.to_nat n) p) (wire s)) as (r & w & Es).
    pose proof (wp_transmit s device d send (take (Z.to_nat n) p) (drop (Z.to_nat n) p) n r w Q) as Hw.
    rewrite take_drop in Hw. unfold net_device_transmit in Hw. rewrite (proj2 (Z.eqb_neq device NULL)) in Hw by done.
    apply Hw; [done|done|done|done|rewrite length_take; lia|done|done|]. intros t Hsent _. by apply HQ, sent_stepped.
  - apply wp_bind. eapply wp_dev; [exact Hd|]. rewrite Hr, Ht.
    assert ((n <? 14) || (14 + mtu d <? n) = true) as -> by lia. by apply wp_ret, HQ.
Qed.

Lemma wp_ethernet_any s device destination ethertype p n (Q : Z -> net W -> Prop) :
  net_ok s -> device = NULL \/ known (devs s) device -> input_ok p n -> (forall r t, stepped s t -> Q r t) ->
  wp (net_ethernet_send device destination ethertype p n) Q s.
Proof.
  intros Hok Hk [H0 Hp] HQ. destruct Hk as [->|[Hn Hd]]; [by apply wp_ret, HQ, stepped_refl|].
  destruct (decide (p = None /\ n <> 0)) as [[-> Hnz]|Hb].
  - destruct Hd as [d Hd]. unfold net_ethernet_send. rewrite (proj2 (Z.eqb_neq device NULL)) by done.
    apply wp_bind. eapply wp_dev; [exact Hd|]. cbn [is_null andb]. rewrite (proj2 (Z.eqb_neq n 0)) by done. cbn [negb].
    rewrite orb_true_r. by apply wp_ret, HQ, stepped_refl.
  - apply wp_ethernet; [done|done| |intros r t Ht; by apply HQ, sent_stepped]. split; [done|]. destruct p; [done|].
    destruct (decide (n = 0)); [done|]. exfalso. by apply Hb.
Qed.

(** ** The tables before any call

    The statics of the kernel image are zero, and so are the devices of the
    drivers. *)
Definition blank_device : net_device W :=
  mk_net_device (replicate 16 0) net_mac_addr_zero 0 None NULL no_config (mk_nstats 0 0 0 0 0 0 0) false.
Definition net_boot (devices : gset Z) (w : W) : net W :=
  mk_net (gset_to_gmap blank_device devices) (replicate 4 NULL) 0 NULL
    (replicate 16 (mk_entry NET_ARP_ENTRY_EMPTY NULL net_ipv4_addr_zero net_mac_addr_zero 0 0))
    (replicate 8 (mk_slot (mk_route net_ipv4_addr_zero net_ipv4_addr_zero net_ipv4_addr_zero NULL 0) false))
    (replicate 8 (mk_handler 0 (protocol_fn NULL) NULL false))
    (replicate 4 (mk_pending NULL net_ipv4_addr_zero (replicate 1500 0) 0 0 false)) 0 None NULL w.

Lemma unique_replicate {A} (R : A -> A -> Prop) n x : ~ R x x -> unique R (replicate n x).
Proof. intros Hn i j y z [-> _]%lookup_replicate_1 [-> _]%lookup_replicate_1 Hr. done. Qed.

Lemma boot_ok devices w : NULL ∉ devices -> net_ok (net_boot devices w).
Proof.
  intros Hn. split; unfold net_boot; cbn [devs net_devices net_devices_count net_default_device net_arp_cache net_ipv4_routes
    net_ipv4_handlers net_ipv4_pending net_ipv4_identification].
  - intros x d [_ <-]%lookup_gset_to_gmap_Some. split; [done|]. split; [apply no_config_ok|done].
  - by apply lookup_gset_to_gmap_None.
  - split_and!; [done|lia|lia|apply NoDup_nil_2| |done]. intros x. split; [by intros ?%elem_of_nil|].
    intros (_ & d & [_ <-]%lookup_gset_to_gmap_Some & Hr). done.
  - split_and!; [done| |by apply unique_replicate; intros (_ & ? & _)]. apply Forall_replicate.
    split_and!; try done; [apply ip_zero_ok|apply mac_zero_ok].
  - split_and!; [done|by apply Forall_replicate|by apply unique_replicate; intros (? & _)].
  - split; [done|by apply unique_replicate; intros (? & _)].
  - split; [done|]. apply Forall_replicate. split; [apply length_replicate|]. split; [by apply Forall_replicate|done].
  - lia.
Qed.

Context (Hcall : callbacks_ok (W := W)).

Lemma wp_call s c (Q : unit -> net W -> Prop) :
  net_ok s -> call_ok (devs s) c -> (forall t, stepped s t -> Q tt t) -> wp (run_call c) Q s.
Proof using Hcall.
  intros Hok Hc HQ. assert (HQ' : forall t, stepped s t -> wp (mret tt) Q t) by (intros; by apply wp_ret, HQ).
  destruct c; cbn in *.
  all: first [ apply wp_registry_reset | apply wp_clear_ipv4 | apply wp_arp_reset | apply wp_arp_tick | apply wp_ipv4_reset
             | apply wp_ipv4_tick | apply wp_set_echo_handler | apply wp_bind ].
  all: try lazymatch goal with |- wp _ _ _ =>
    first [ apply wp_register | apply wp_unregister | apply wp_set_default | apply wp_configure | apply wp_transmit_any
          | apply wp_ethernet_any | apply wp_request | apply wp_resolve | apply wp_route_add | apply wp_route_remove
          | apply wp_register_protocol | apply wp_unregister_protocol | apply wp_send_on | apply wp_send | apply wp_icmp_init
          | apply wp_echo_request | apply (wp_receive Hcall) ] end.
  all: try first [exact Hok | exact HQ | apply Hc | exact Hc].
  all: intros r t Ht; apply HQ'; first [exact Ht | by apply sent_stepped].
Qed.

Lemma wp_calls s l :
  net_ok s -> Forall (call_ok (devs s)) l -> wp (run_calls l) (fun _ t => net_ok t) s.
Proof using Hcall.
  revert s. induction l as [|c l IH]; intros s Hok Hl; cbn [run_calls]; [by apply wp_ret|].
  apply Forall_cons_1 in Hl as [Hc Hl]. apply wp_bind, wp_call; [done..|]. intros t [Hokt Hx]. apply IH; [done|].
  eapply Forall_impl; [exact Hl|]. intros c'. by apply call_ok_extends.
Qed.
End Calls.
Arguments call : clear implicits.
