(* ===== verification/NetRoutes.v ===== *)
(** * The choice of a route

    The longest prefix wins; among equal prefixes a directly connected network
    wins over the table, and in the table the least metric; without any match
    the gateway of the default device is used. *)

From S2P Require Import Prelude Errno NetTypes NetSum Net NetBytes NetProps NetSafe NetSafeIp.

Section Routes.
Context {G : Garbage} {W : Type} {E : NetEnv W}.
Implicit Types (s : net W) (d : net_device W) (x y : net_ipv4_route) (p q : Z).

(** A route of the table that applies to the destination, with its prefix
    length. *)
Definition table_route s (slots : list net_ipv4_route_slot) (destination : net_ipv4_addr) x p : Prop :=
  exists slot d, slot ∈ slots /\ r_used slot = true /\ route slot = x /\ devs s !! r_device x = Some d /\ registered d = true /\
    netmask_prefix_length (r_netmask x) = Some p /\ route_matches x destination = true.

(** The network of a registered device. *)
Definition link_route d device : net_ipv4_route :=
  mk_route (net_ipv4_addr_and (address (ipv4 d)) (netmask (ipv4 d))) (netmask (ipv4 d)) net_ipv4_addr_zero device 0.
Definition connected_route s (devices : list Z) (destination : net_ipv4_addr) x p : Prop :=
  exists device d, device ∈ devices /\ devs s !! device = Some d /\ on_link d destination = true /\
    x = link_route d device /\ p = default 0 (netmask_prefix_length (netmask (ipv4 d))).

Abbreviation registry s := (take (Z.to_nat (net_devices_count s)) (net_devices s)) (only parsing).

(** ** The best of the table *)

Definition table_best s slots destination (best : option (net_ipv4_route * Z)) : Prop :=
  match best with
  | None => forall y q, ~ table_route s slots destination y q
  | Some (x, p) => table_route s slots destination x p /\
    forall y q, table_route s slots destination y q -> q < p \/ q = p /\ metric x <= metric y
  end.

Lemma table_route_snoc s slots slot destination y q :
  table_route s (slots ++ [slot]) destination y q <->
  table_route s slots destination y q \/ table_route s [slot] destination y q.
Proof.
  split.
  - intros (sl & d & Hin & H). apply elem_of_app in Hin as [Hin|Hin]; [left|right]; by exists sl, d.
  - intros [(sl & d & Hin & H)|(sl & d & Hin & H)]; exists sl, d; (split; [|done]); apply elem_of_app; first [by left|by right].
Qed.

Lemma table_best_skip s slots slot destination best :
  table_best s slots destination best -> (forall y q, ~ table_route s [slot] destination y q) ->
  table_best s (slots ++ [slot]) destination best.
Proof.
  intros Hb Hno. destruct best as [[x p]|]; cbn in *.
  - destruct Hb as [Hx Hb]. split; [apply table_route_snoc; by left|]. intros y q [H|H]%table_route_snoc; [by apply Hb|].
    by apply Hno in H.
  - intros y q [H|H]%table_route_snoc; [by eapply Hb|by eapply Hno].
Qed.

Lemma wp_route_best s slots done_ destination best (Q : option (net_ipv4_route * Z) -> net W -> Prop) :
  net_ok s -> (forall sl, sl ∈ slots -> sl ∈ net_ipv4_routes s) -> table_best s done_ destination best ->
  (forall b, table_best s (done_ ++ slots) destination b -> Q b s) -> wp (route_loop slots destination best) Q s.
Proof.
  intros Hok. revert done_ best. induction slots as [|slot slots IH]; intros done_ best Hin Hbest HQ; cbn [route_loop].
  { apply wp_ret, HQ. by rewrite app_nil_r. }
  assert (Hnext : forall b, table_best s (done_ ++ [slot]) destination b -> wp (route_loop slots destination b) Q s).
  { intros b Hb. apply (IH (done_ ++ [slot])); [intros sl Hsl; by apply Hin, list_elem_of_further|done|].
    intros b'. rewrite <- app_assoc. apply HQ. }
  assert (Hone : forall y q, table_route s [slot] destination y q -> r_used slot = true /\ route slot = y /\
    exists d, devs s !! r_device y = Some d /\ registered d = true /\ netmask_prefix_length (r_netmask y) = Some q /\
    route_matches y destination = true).
  { intros y q (sl & d & ->%list_elem_of_singleton & ? & ? & ?). split_and!; try done. by exists d. }
  destruct (r_used slot) eqn:Hu; cbn [negb orb].
  2: { apply Hnext, table_best_skip; [done|]. intros y q (? & _)%Hone. done. }
  destruct (route_of s slot Hok (Hin slot (list_elem_of_here slot slots)) Hu) as ([Hn [d Hd]] & _).
  rewrite (proj2 (Z.eqb_neq _ NULL)) by done. apply wp_bind. eapply wp_dev; [exact Hd|].
  destruct (netmask_prefix_length (r_netmask (route slot))) as [p|] eqn:Hp.
  2: { apply Hnext, table_best_skip; [done|]. intros y q (_ & <- & d' & _ & _ & Hq & _)%Hone. congruence. }
  destruct (registered d) eqn:Hr; cbn [negb orb].
  2: { apply Hnext, table_best_skip; [done|]. intros y q (_ & <- & d' & Hd' & Hr' & _)%Hone. congruence. }
  destruct (route_matches (route slot) destination) eqn:Hm; cbn [negb].
  2: { apply Hnext, table_best_skip; [done|]. intros y q (_ & <- & d' & _ & _ & _ & Hm')%Hone. congruence. }
  assert (Hcand : table_route s [slot] destination (route slot) p) by (exists slot, d; split_and!; try done; by apply list_elem_of_singleton).
  destruct best as [[b bp]|]; cbn in Hbest.
  - destruct Hbest as [Hb1 Hb2]. destruct ((bp <? p) || ((p =? bp) && (metric (route slot) <? metric b))) eqn:Hcmp; apply Hnext.
    + split; [apply table_route_snoc; by right|]. intros y q [H|H]%table_route_snoc.
      * destruct (Hb2 y q H); lia.
      * apply Hone in H as (_ & <- & d' & _ & _ & Hq & _). simplify_eq. lia.
    + split; [apply table_route_snoc; by left|]. intros y q [H|H]%table_route_snoc; [by apply Hb2|].
      apply Hone in H as (_ & <- & d' & _ & _ & Hq & _). simplify_eq. lia.
  - apply Hnext. split; [apply table_route_snoc; by right|]. intros y q [H|H]%table_route_snoc; [by apply Hbest in H|].
    apply Hone in H as (_ & <- & d' & _ & _ & Hq & _). simplify_eq. lia.
Qed.

(** ** Connected networks *)

Definition link_best s devices destination (tb best : option (net_ipv4_route * Z)) : Prop :=
  match best with
  | None => tb = None /\ forall y q, ~ connected_route s devices destination y q
  | Some (x, p) =>
    (connected_route s devices destination x p \/ tb = Some (x, p) /\ forall y q, connected_route s devices destination y q -> q < p) /\
    (forall y q, connected_route s devices destination y q -> q <= p) /\ (forall y q, tb = Some (y, q) -> q <= p)
  end.

Lemma connected_snoc s devices device d destination y q : devs s !! device = Some d ->
  connected_route s (devices ++ [device]) destination y q <->
  connected_route s devices destination y q \/
  on_link d destination = true /\ y = link_route d device /\ q = default 0 (netmask_prefix_length (netmask (ipv4 d))).
Proof.
  intros Hd. split.
  - intros (x & d' & Hin & Hd' & H). apply elem_of_app in Hin as [Hin| ->%list_elem_of_singleton]; [left; by exists x, d'|].
    right. by simplify_eq.
  - intros [(x & d' & Hin & H)|H].
    + exists x, d'. split; [|done]. apply elem_of_app. by left.
    + exists device, d. split; [apply elem_of_app; right; by apply list_elem_of_singleton|done].
Qed.

Lemma link_best_step s devices device d destination tb best :
  devs s !! device = Some d -> link_best s devices destination tb best ->
  let p := default 0 (netmask_prefix_length (netmask (ipv4 d))) in
  link_best s (devices ++ [device]) destination tb
    (if on_link d destination
     then if match best with None => true | Some (_, bp) => bp <=? p end then Some (link_route d device, p) else best
     else best).
Proof.
  intros Hd Hb p. pose proof (fun y q => connected_snoc s devices device d destination y q Hd) as Hsn.
  destruct (on_link d destination).
  - destruct best as [[b bp]|]; cbn [link_best] in Hb.
    + destruct Hb as (H1 & H2 & H3). destruct (Z.leb_spec bp p) as [Hle|Hlt]; cbn [link_best].
      * split; [left; apply Hsn; by right|]. split; [|intros y q H; specialize (H3 y q H); lia].
        intros y q [H|(_ & _ & ->)]%Hsn; [|done]. specialize (H2 y q H). lia.
      * split; [|split; [|done]].
        -- destruct H1 as [H1|[H1 H4]]; [left; apply Hsn; by left|]. right. split; [done|].
           intros y q [H|(_ & _ & ->)]%Hsn; [by apply (H4 y)|done].
        -- intros y q [H|(_ & _ & ->)]%Hsn; [by apply (H2 y)|]. fold p. lia.
    + destruct Hb as [-> Hb]. split; [left; apply Hsn; by right|]. split; [|done].
      intros y q [H|(_ & _ & ->)]%Hsn; [by apply Hb in H|done].
  - destruct best as [[b bp]|]; cbn [link_best] in *.
    + destruct Hb as (H1 & H2 & H3). split; [|split; [|done]].
      * destruct H1 as [H1|[H1 H4]]; [left; apply Hsn; by left|]. right. split; [done|].
        intros y q [H|(? & _)]%Hsn; [by apply (H4 y)|done].
      * intros y q [H|(? & _)]%Hsn; [by apply (H2 y)|done].
    + destruct Hb as [-> Hb]. split; [done|]. intros y q [H|(? & _)]%Hsn; [by apply Hb in H|done].
Qed.

Lemma wp_connected_best s destination tb (Q : option (net_ipv4_route * Z) -> net W -> Prop) :
  net_ok s -> (forall b, link_best s (registry s) destination tb b -> Q b s) ->
  wp (for_m (Z.to_nat (net_devices_count s)) (fun index best =>
      device ← net_device_at index;
      if device =? NULL then mret best
      else
        d ← dev device;
        if on_link d destination then
          let prefix := default 0 (netmask_prefix_length (netmask (ipv4 d))) in
          if match best with None => true | Some (_, best_prefix) => best_prefix <=? prefix end
          then mret (Some (mk_route (net_ipv4_addr_and (address (ipv4 d)) (netmask (ipv4 d))) (netmask (ipv4 d))
                             net_ipv4_addr_zero device 0, prefix))
          else mret best
        else mret best) 0 tb) Q s.
Proof.
  intros Hok HQ. destruct (ok_registry s Hok) as (Hl & Hc & _).
  eapply wp_mono; [apply (wp_for_m (fun j b t => t = s /\ link_best s (take (Z.to_nat j) (net_devices s)) destination tb b))|].
  - intros j b t Hj [-> Hb]. destruct (registry_rd s j Hok ltac:(lia)) as (device & Hr & Hin).
    apply wp_bind. unfold net_device_at. apply wp_bind, wp_gets. rewrite (proj2 (Z.ltb_lt j _)) by lia.
    eapply wp_elem; [exact Hr|]. destruct (registered_known s device Hok Hin) as [Hn [d Hd]].
    rewrite (proj2 (Z.eqb_neq device NULL)) by done. apply wp_bind. eapply wp_dev; [exact Hd|].
    apply rd_lookup in Hr as [_ Hr]. replace (Z.to_nat (j + 1)) with (S (Z.to_nat j)) by lia. rewrite (take_S_r _ _ _ Hr).
    pose proof (link_best_step s _ device d destination tb b Hd Hb) as Hstep. cbv zeta in Hstep.
    destruct (on_link d destination); [|by apply wp_ret]. cbv zeta.
    destruct (match b with None => true | Some _ => _ end); by apply wp_ret.
  - split; [done|]. rewrite take_0. destruct tb as [[x p]|]; cbn.
    + split_and!; [right; split; [done|]|..]; try (by intros y q [= <- <-]); intros y q (? & ? & ?%elem_of_nil & _); done.
    + split; [done|]. intros y q (? & ? & ?%elem_of_nil & _). done.
  - intros b t [-> Hb]. apply HQ. by rewrite Z.add_0_l, Z2Nat.id in Hb by lia.
Qed.

(** ** The route of a unicast destination *)

(** A best route among the candidates. *)
Definition best_route s destination x : Prop :=
  exists p,
    (connected_route s (registry s) destination x p \/
     table_route s (net_ipv4_routes s) destination x p /\
     (forall y q, connected_route s (registry s) destination y q -> q < p) /\
     (forall y, table_route s (net_ipv4_routes s) destination y p -> metric x <= metric y)) /\
    (forall y q, connected_route s (registry s) destination y q \/ table_route s (net_ipv4_routes s) destination y q -> q <= p).
Definition no_candidate s destination : Prop :=
  forall y q, ~ connected_route s (registry s) destination y q /\ ~ table_route s (net_ipv4_routes s) destination y q.
(** The route through the gateway of the default device, if it has one. *)
Definition gateway_route s : option net_ipv4_route :=
  d ← devs s !! net_default_device s;
  if configured (ipv4 d) && negb (net_ipv4_addr_is_zero (gateway (ipv4 d)))
  then Some (mk_route net_ipv4_addr_zero net_ipv4_addr_zero (gateway (ipv4 d)) (net_default_device s) UINT16_MAX) else None.

Lemma wp_route_lookup_best s destination :
  net_ok s -> ip_unicast destination ->
  wp (net_ipv4_route_lookup destination) (fun result t => t = s /\
    match result with
    | (r, Some x) => r = NET_OK /\ (best_route s destination x \/ no_candidate s destination /\ gateway_route s = Some x)
    | (r, None) => r = NET_ERR_NO_ROUTE /\ no_candidate s destination /\ gateway_route s = None
    end) s.
Proof.
  intros Hok [Hd Hu]. destruct (unicast_classes destination Hd Hu) as (_ & Hl & Hm). unfold net_ipv4_route_lookup.
  rewrite Hu, Hl, Hm. cbn [negb andb orb]. apply wp_bind, wp_gets, wp_bind.
  apply (wp_route_best s _ []); [done|done|intros y q (? & ? & ?%elem_of_nil & _); done|]. cbn [app]. intros tb Htb.
  apply wp_bind, wp_gets, wp_bind. apply wp_connected_best; [done|]. intros b Hb. destruct b as [[x p]|]; cbn in Hb.
  - apply wp_ret. split; [done|]. split; [done|]. left. destruct Hb as (H1 & H2 & H3).
    assert (Ht : forall y q, table_route s (net_ipv4_routes s) destination y q -> q <= p).
    { intros y q H. destruct tb as [[tx tp]|]; cbn in Htb; [|by apply Htb in H].
      specialize (H3 tx tp eq_refl). destruct (proj2 Htb y q H); lia. }
    exists p. split.
    + destruct H1 as [H1|[-> H1]]; [by left|]. right. destruct Htb as [Htb1 Htb2]. split_and!; [done|done|].
      intros y H. destruct (Htb2 y p H); lia.
    + intros y q [H|H]; [by apply (H2 y)|by apply (Ht y)].
  - destruct Hb as [-> Hb]. assert (Hno : no_candidate s destination) by (intros y q; split; [apply Hb|apply Htb]).
    apply wp_bind, wp_gets. pose proof (default_known s Hok) as Hdef. unfold gateway_route.
    destruct (Z.eqb_spec (net_default_device s) NULL) as [E0|Hn].
    { apply wp_ret. rewrite E0, (ok_null s Hok). done. }
    destruct (Hdef Hn) as [_ [d Hdev]]. apply wp_bind. eapply wp_dev; [exact Hdev|]. rewrite Hdev. cbn [mbind option_bind].
    destruct (configured (ipv4 d) && _); apply wp_ret; split_and!; try done. by right.
Qed.
End Routes.
