(* ===== verification/NetTheorems.v ===== *)
(** * What the network layers guarantee

    Safety for any sequence of calls, what the address table may learn, the choice
    of routes, and what two hosts achieve with each other: a datagram is delivered
    after its receiver's address was asked for, and an echo request is answered. *)

From S2P Require Import Prelude Errno NetTypes NetSum Net NetBytes NetProps NetSafe NetSafeIp NetReceive NetRegistry NetLink NetDeliver.
From S2P Require Import NetCalls NetRoutes.

Section Theorems.
Context {G : Garbage} {W : Type} {E : NetEnv W}.
Implicit Types (s t : net W) (d : net_device W) (device : Z).

(** C7: from the zeroed tables of the kernel image, any sequence of calls into
    the network layers (registering and configuring devices, sending, timers,
    routes, handlers, and receiving frames with any bytes) runs to the end: no
    call reads or writes outside an array or follows a pointer to no device, and
    at the end the registry, the address table, the routes, the handlers and the
    waiting packets are well formed.  The handlers of other protocols are assumed
    to return in a well-formed state. *)
Theorem net_stack_safe (devices : gset Z) w (calls : list (call W)) :
  callbacks_ok (W := W) -> NULL ∉ devices -> Forall (call_ok (devs (net_boot devices w))) calls ->
  wp (run_calls calls) (fun _ t => net_ok t) (net_boot devices w).
Proof. intros Hcall Hn Hc. apply wp_calls; [done|by apply boot_ok|done]. Qed.

(** C19: an ARP packet with any bytes changes at most one entry of the address
    table, and only to the sender's own hardware address, which must be the
    source of the Ethernet frame; the packet must ask for or answer to this host's
    address, and an answer is believed only when the host has an entry for that
    address, that is, when it has asked. *)
Theorem arp_learns_only_solicited s device d source p n :
  net_ok s -> device <> NULL -> devs s !! device = Some d -> mac_ok source -> input_ok (Some p) n ->
  wp (net_arp_input device source (Some p) n) (fun _ t => net_ok t /\ taught s device d source p t) s.
Proof. intros Hok Hn Hd Hs Hp. eapply wp_arp_input_teaches; [done|done|exact Hd|done|done|]. by intros r t [Ht _]. Qed.

(** C20: looking up a unicast destination changes nothing and gives a route with
    the longest prefix among the matching routes of the table and the networks of
    the registered devices; a connected network wins a tie, then the least metric;
    with no match it is the gateway of the default device, else "no route". *)
Theorem route_longest_prefix s destination :
  net_ok s -> ip_unicast destination ->
  wp (net_ipv4_route_lookup destination) (fun result t => t = s /\
    match result with
    | (r, Some x) => r = NET_OK /\ (best_route s destination x \/ no_candidate s destination /\ gateway_route s = Some x)
    | (r, None) => r = NET_ERR_NO_ROUTE /\ no_candidate s destination /\ gateway_route s = None
    end) s.
Proof. intros Hok Hd. by apply wp_route_lookup_best. Qed.

(** ** Two hosts *)

Context (frames : W -> list (list Z)).

Lemma queued_released s device d hop mac data t :
  queued s device hop data t -> zlen data <= mtu d ->
  eth_frame mac (mac_address d) NET_ETHERTYPE_IPV4 data ∈ released device d hop mac (net_ipv4_pending t).
Proof.
  intros (k & q & Hk & _ & q' & -> & Hw & Hl & Hd) Hm. unfold released. apply list_elem_of_fmap. exists q'. split; [by rewrite Hd|].
  apply list_elem_of_filter. split; [split; [done|lia]|]. apply list_elem_of_lookup_2 with k.
  apply list_lookup_insert_eq. by eapply lookup_lt_Some.
Qed.

(** C6: host A sends a datagram to its neighbour B, whose hardware address it does
    not know.  A's send succeeds and broadcasts an ARP request; B, when it gets
    the request, answers it; A, when it gets the answer, puts the datagram on the
    wire; and B, when it gets that frame, calls the handler of the protocol with
    exactly A's address, its own address and the bytes A was given, and returns
    the handler's result.  The frames do not depend on uninitialised memory. *)
Theorem datagram_delivered sA sB a b dA dB source protocol_ p n h f :
  callbacks_ok (W := W) ->
  sendable frames sA a dA source (address (ipv4 dB)) protocol_ p n (address (ipv4 dB)) -> up frames sB b dB ->
  neighbour dA (address (ipv4 dB)) -> neighbour dB (address (ipv4 dA)) ->
  find_from (net_arp_cache sA) 0 a (address (ipv4 dB)) = None ->
  (exists k q, net_ipv4_pending sA !! k = Some q /\ p_used q = false) ->
  20 + n <= mtu dB -> handler_of sB protocol_ = Some h -> handler h = protocol_fn f ->
  let request := arp_request dA (address (ipv4 dB)) in
  let answer := arp_answer dB (mac_address dA) (address (ipv4 dA)) in
  let frame := eth_frame (mac_address dB) (mac_address dA) NET_ETHERTYPE_IPV4
    (datagram (net_ipv4_identification sA) protocol_ (address (ipv4 dA)) (address (ipv4 dB)) (data_of p n)) in
  wp (net_ipv4_send_on a source (address (ipv4 dB)) protocol_ p n) (fun r sA1 =>
    r = NET_OK /\ frames (wire sA1) = frames (wire sA) ++ [request] /\
    wp (net_device_receive b (Some request) (zlen request)) (fun r sB1 =>
      r = NET_OK /\ (exists l, frames (wire sB1) = frames (wire sB) ++ l ++ [answer]) /\
      wp (net_device_receive a (Some answer) (zlen answer)) (fun r sA2 =>
        r = NET_OK /\ (exists l, frames (wire sA2) = frames (wire sA1) ++ l /\ frame ∈ l) /\
        wp (protocol_call f b (address (ipv4 dA)) (address (ipv4 dB)) (data_of p n) (h_context h)) (fun r t =>
          wp (net_device_receive b (Some frame) (zlen frame)) (fun r' t' => r' = r /\ sent t t') sB1) sB1) sA1) sB) sA.
Proof.
  intros Hcall Hs HupB HnA HnB Hf Hfree HmB Hh Hfn request answer frame.
  pose proof Hs as (HupA & _ & _ & Hp & Hbuf & HnA20 & _). destruct (up_facts frames sA a dA HupA) as (HmA & _ & HipA).
  destruct (up_facts frames sB b dB HupB) as (HmacB & _ & (HipB & _)). pose proof (length_data_of p n Hbuf) as Hlen.
  eapply (wp_send_asks frames); [exact Hs|exact HnA|exact Hf|exact Hfree|]. intros sA1 stA HupA1 Hf1 EfA Hq.
  split; [done|]. split; [done|]. apply (wp_answer frames sB b dB dA); [done..|]. intros sB1 stB l HupB1 HhB1 _ EfB.
  split; [done|]. split; [by exists l|].
  pose proof (fun Q => wp_answered frames sA1 a (dA <| dev_stats := stA |>) dB Q HupA1 HnA HmacB Hf1) as Hans.
  assert (Ea : arp_answer dB (mac_address (dA <| dev_stats := stA |>)) (address (ipv4 (dA <| dev_stats := stA |>))) = answer) by done.
  rewrite Ea in Hans. apply Hans. intros sA2 stA2 _ _ EfA2.
  split; [done|]. split.
  { eexists. split; [exact EfA2|].
    assert (Hle : zlen (datagram (net_ipv4_identification sA) protocol_ (address (ipv4 dA)) (address (ipv4 dB)) (data_of p n))
      <= mtu (dA <| dev_stats := stA |>)) by (rewrite length_datagram, Hlen; exact HnA20).
    exact (queued_released sA a (dA <| dev_stats := stA |>) _ (mac_address dB) _ sA1 Hq Hle). }
  destruct (proj1 Hcall f b (address (ipv4 dA)) (address (ipv4 dB)) (data_of p n) (h_context h) sB1) as (r & t & Ec & Hst);
    [apply HupB1|by eapply up_known|apply HipA|done|by apply data_of_bytes|].
  exists r, t. split; [exact Ec|].
  pose proof (fun Q => wp_handed frames sB1 b (dB <| dev_stats := stB |>) (mac_address dA) (net_ipv4_identification sA) protocol_
    (address (ipv4 dA)) (data_of p n) h Q HupB1 HmA HipA Hp) as Hhand. rewrite Hlen in Hhand.
  assert (Ef : eth_frame (mac_address (dB <| dev_stats := stB |>)) (mac_address dA) NET_ETHERTYPE_IPV4
    (datagram (net_ipv4_identification sA) protocol_ (address (ipv4 dA)) (address (ipv4 (dB <| dev_stats := stB |>))) (data_of p n)) = frame) by done.
  cbv zeta in Hhand. rewrite Ef in Hhand. apply Hhand; [exact HmB|unfold handler_of; by rewrite HhB1|].
  unfold call_handler. rewrite Hfn. exists r, t. split; [exact Ec|]. split; [|done].
  destruct (stepped_known _ _ b Hst ltac:(by eapply up_known)) as [_ ?]. done.
Qed.

(** C10: host A, whose routes and address table reach its neighbour B, sends an
    echo request.  B, when it gets the frame, answers with the same identifier,
    sequence number and data and a right checksum; A, when it gets the answer,
    calls its handler of echo replies with exactly B's address and those values. *)
Theorem echo_round_trip sA sB a b dA dB source identifier sequence p n x hA hB f :
  callbacks_ok (W := W) -> up frames sA a dA -> up frames sB b dB ->
  (source = net_ipv4_addr_zero \/ source = address (ipv4 dA)) -> is_u16 identifier -> is_u16 sequence ->
  buffer_ok p n -> 28 + n <= mtu dA -> 28 + n <= mtu dB ->
  net_ipv4_route_lookup (address (ipv4 dB)) sA = Some ((NET_OK, Some x), sA) -> r_device x = a ->
  reaches sA a dA (address (ipv4 dB)) (mac_address dB) -> reaches sB b dB (address (ipv4 dA)) (mac_address dA) ->
  handler_of sA NET_IPV4_PROTOCOL_ICMP = Some hA -> handler hA = net_icmp_input_fn ->
  handler_of sB NET_IPV4_PROTOCOL_ICMP = Some hB -> handler hB = net_icmp_input_fn ->
  net_icmp_reply_handler sA = Some f ->
  let request := eth_frame (mac_address dB) (mac_address dA) NET_ETHERTYPE_IPV4
    (datagram (net_ipv4_identification sA) NET_IPV4_PROTOCOL_ICMP (address (ipv4 dA)) (address (ipv4 dB))
       (echo NET_ICMP_ECHO_REQUEST identifier sequence (data_of p n))) in
  let reply := eth_frame (mac_address dA) (mac_address dB) NET_ETHERTYPE_IPV4
    (datagram (net_ipv4_identification sB) NET_IPV4_PROTOCOL_ICMP (address (ipv4 dB)) (address (ipv4 dA))
       (echo NET_ICMP_ECHO_REPLY identifier sequence (data_of p n))) in
  wp (net_icmp_send_echo_request source (address (ipv4 dB)) identifier sequence p n) (fun r sA1 =>
    r = NET_OK /\ frames (wire sA1) = frames (wire sA) ++ [request] /\
    wp (net_device_receive b (Some request) (zlen request)) (fun r sB1 =>
      r = NET_OK /\ frames (wire sB1) = frames (wire sB) ++ [reply] /\
      wp (echo_reply_call f a (address (ipv4 dB)) identifier sequence (data_of p n) (net_icmp_reply_context sA)) (fun _ t =>
        wp (net_device_receive a (Some reply) (zlen reply)) (fun r t' => r = NET_OK /\ sent t t') sA1) sA1) sB) sA.
Proof.
  intros Hcall HupA HupB Hsrc Hid Hseq Hbuf HmA HmB Hroute Hx HrA HrB HhA HfnA HhB HfnB Hf request reply.
  destruct (up_facts frames sA a dA HupA) as (HmacA & HmtuA & HipA). destruct (up_facts frames sB b dB HupB) as (HmacB & HmtuB & HipB).
  pose proof (length_data_of p n Hbuf) as Hlen. pose proof (data_of_bytes p n Hbuf) as Hb.
  eapply (wp_send_echo frames); [exact HupA|exact Hsrc|exact HipB|exact Hbuf|done|exact Hroute|exact Hx|exact HrA|apply HmacB|].
  intros sA1 HsA1 EfA. split; [done|]. split; [exact EfA|].
  pose proof (fun Q => wp_echoed frames sB b dB (mac_address dA) (net_ipv4_identification sA) (address (ipv4 dA)) identifier sequence
    (data_of p n) hB Q HupB HmacA HipA Hid Hseq Hb) as Hecho. cbv zeta in Hecho. fold request in Hecho.
  apply Hecho; [lia|exact HhB|exact HfnB|exact HrB|]. intros sB1 HsB1 EfB. split; [done|]. split; [exact EfB|]. clear Hecho.
  destruct (up_sent frames _ sA1 a dA HsA1 (up_identified frames sA a dA HupA)) as [st HupA1].
  destruct (proj2 Hcall f a (address (ipv4 dB)) identifier sequence (data_of p n) (net_icmp_reply_context sA) sA1) as ([] & t & Ec & Hst);
    [apply HupA1|by eapply up_known|apply HipB|done|].
  exists tt, t. split; [exact Ec|].
  pose proof (fun Q => wp_reply_handed frames sA1 a (dA <| dev_stats := st |>) (mac_address dB) (net_ipv4_identification sB) (address (ipv4 dB))
    identifier sequence (data_of p n) hA f Q HupA1 HmacB HipB Hid Hseq Hb) as Hgot.
  assert (Er : eth_frame (mac_address (dA <| dev_stats := st |>)) (mac_address dB) NET_ETHERTYPE_IPV4
    (datagram (net_ipv4_identification sB) NET_IPV4_PROTOCOL_ICMP (address (ipv4 dB)) (address (ipv4 (dA <| dev_stats := st |>)))
       (echo NET_ICMP_ECHO_REPLY identifier sequence (data_of p n))) = reply) by done.
  cbv zeta in Hgot. rewrite Er in Hgot. destruct HsA1 as (m & w & -> & _). apply Hgot; [rewrite Hlen; exact HmA|exact HhA|exact HfnA|exact Hf|].
  exists tt, t. split; [exact Ec|]. split; [|done]. destruct (stepped_known _ _ a Hst ltac:(by eapply up_known)) as [_ ?]. done.
Qed.
End Theorems.

(** ** Two hosts on a cable

    Concrete hosts, built by the calls a driver and the stack's start make. *)
Module NetToy.

Abbreviation cable := (list (list Z)).
#[export] Instance toy_garbage : Garbage := fun i => 170 + i.
#[export] Instance toy_env : NetEnv cable :=
  {| protocol_call := fun _ _ _ _ _ _ => mret NET_OK; echo_reply_call := fun _ _ _ _ _ _ _ => mret tt |}.

Definition plug : Z -> Z -> list Z -> M cable Z := fun _ _ frame w => Some (NET_OK, w ++ [frame]).
Definition mac (k : Z) : net_mac_addr := net_mac_addr_make 2 0 0 0 0 k.
Definition ip (k : Z) : net_ipv4_addr := net_ipv4_addr_make 10 0 0 k.
Definition start (k : Z) : list (call cable) :=
  [Register 1 (Some [101; 116; 104; 48; 0]) (mac k) 1500 (Some plug) 7;
   Configure 1 (ip k) (net_ipv4_addr_make 255 255 255 0) net_ipv4_addr_zero;
   Ipv4Reset; IcmpInit; RegisterProtocol 200 (Some (protocol_fn 5)) 9; SetEchoHandler (Some 3) 4].
(** A request of host [j] for the address of host [k]. *)
Definition asks (j k : Z) : list Z :=
  eth_frame net_mac_addr_broadcast (mac j) NET_ETHERTYPE_ARP (arp_bytes NET_ARP_OPERATION_REQUEST (mac j) (ip j) net_mac_addr_zero (ip k)).
Definition boot : net cable := net_boot {[1]} [].
Definition after (l : list (call cable)) : net cable := match run_calls l boot with Some (_, t) => t | None => boot end.
Definition host (k : Z) : net cable := after (start k).
(** A host that was asked by host [j], and so knows it. *)
Definition friend (k j : Z) : net cable := after (start k ++ [Receive 1 (Some (asks j k)) 60]).
Definition device_of (s : net cable) : net_device cable := default blank_device (devs s !! 1).

Lemma toy_callbacks : callbacks_ok (W := cable).
Proof.
  split.
  - intros. cbn. apply wp_ret. by apply stepped_refl.
  - intros. cbn. apply wp_ret. by apply stepped_refl.
Qed.
Lemma plug_ok : driver_ok plug.
Proof. intros device context frame w. by eexists _, _. Qed.
Lemma plug_carries : carries (fun w : cable => w) plug.
Proof. intros device context frame w. by eexists. Qed.

Lemma mac_k_ok k : 0 < k < 255 -> mac_ok (mac k).
Proof. intros Hk. unfold mac_bytes, mac. cbn [mac0 mac1 mac2 mac3 mac4 mac5]. repeat (apply Forall_cons_2; [lia|]). apply Forall_nil_2. Qed.
Lemma ip_k_ok k : 0 < k < 255 -> ip_ok (ip k).
Proof. intros Hk. unfold ip_bytes, ip. cbn [ip0 ip1 ip2 ip3]. repeat (apply Forall_cons_2; [lia|]). apply Forall_nil_2. Qed.

Lemma start_ok k : 0 < k < 255 -> Forall (call_ok (devs boot)) (start k).
Proof.
  intros Hk. assert (Hb : known (devs boot) 1) by (split; [done|by eexists]).
  repeat apply Forall_cons_2; [..|apply Forall_nil_2]; cbn; try done.
  - split; [by right|]. split; [by apply (bool_decide_unpack _)|]. split; [|apply plug_ok].
    by apply mac_k_ok.
  - split; [done|]. split_and!; [by apply ip_k_ok|by apply (bool_decide_unpack _)|apply ip_zero_ok].
Qed.

Lemma after_ok l : Forall (call_ok (devs boot)) l -> net_ok (after l).
Proof.
  intros Hl. destruct (wp_calls toy_callbacks boot l) as (x & t & Et & Hok); [apply boot_ok; set_solver|done|].
  unfold after. by rewrite Et.
Qed.
Lemma asks_ok j k : 0 < j < 255 -> 0 < k < 255 -> input_ok (Some (asks j k)) 60.
Proof.
  intros Hj Hk. split; [lia|]. split; [done|]. apply frame_bytes; [apply mac_broadcast_ok|by apply mac_k_ok|].
  apply arp_bytes_ok; [by apply mac_k_ok|by apply ip_k_ok|apply mac_zero_ok|by apply ip_k_ok].
Qed.
Lemma friend_ok j k : 0 < j < 255 -> 0 < k < 255 -> net_ok (friend k j).
Proof.
  intros Hj Hk. apply after_ok, Forall_app_2; [by apply start_ok|]. apply Forall_cons_2; [|apply Forall_nil_2].
  split; [split; [done|by eexists]|by apply asks_ok].
Qed.

Lemma host_up s : net_ok s -> devs s !! 1 = Some (device_of s) -> registered (device_of s) = true ->
  configured (ipv4 (device_of s)) = true -> transmit (device_of s) = Some plug -> up (fun w : cable => w) s 1 (device_of s).
Proof. intros Hok Hd Hr Hc Ht. split; [done|]. split; [done|]. split_and!; try done. exists plug. split; [done|apply plug_carries]. Qed.

Lemma host1_up : up (fun w : cable => w) (host 1) 1 (device_of (host 1)).
Proof. apply host_up; [by apply after_ok, start_ok|by vm_compute..]. Qed.
Lemma host2_up : up (fun w : cable => w) (host 2) 1 (device_of (host 2)).
Proof. apply host_up; [by apply after_ok, start_ok|by vm_compute..]. Qed.
Lemma friend1_up : up (fun w : cable => w) (friend 1 2) 1 (device_of (friend 1 2)).
Proof. apply host_up; [by apply friend_ok|by vm_compute..]. Qed.
Lemma friend2_up : up (fun w : cable => w) (friend 2 1) 1 (device_of (friend 2 1)).
Proof. apply host_up; [by apply friend_ok|by vm_compute..]. Qed.

(** A run that ends with frames that make no sense. *)
Lemma net_stack_safe_witness : exists t,
  run_calls (start 1 ++ [Receive 1 (Some [1; 2; 3]) 3; Receive 1 (Some (replicate 60 255)) 60; ArpTick 100]) boot = Some (tt, t) /\ net_ok t.
Proof.
  destruct (net_stack_safe {[1]} [] (start 1 ++ [Receive 1 (Some [1; 2; 3]) 3; Receive 1 (Some (replicate 60 255)) 60; ArpTick 100]))
    as ([] & t & Et & Hok).
  - exact toy_callbacks.
  - set_solver.
  - apply Forall_app_2; [by apply start_ok|]. assert (Hk : known (devs boot) 1) by (split; [done|by eexists]).
    repeat apply Forall_cons_2; [..|apply Forall_nil_2].
    + split; [done|]. split; [lia|]. split; [done|]. by apply (bool_decide_unpack _).
    + split; [done|]. split; [lia|]. split; [done|]. by apply (bool_decide_unpack _).
    + cbn. lia.
  - exists t. split; [exact Et|exact Hok].
Defined.

Lemma arp_learns_only_solicited_witness : exists r t,
  net_arp_input 1 (mac 2) (Some (arp_bytes NET_ARP_OPERATION_REQUEST (mac 2) (ip 2) net_mac_addr_zero (ip 1))) 28 (host 1) = Some (r, t) /\
  lookup_result t 1 (device_of (host 1)) (ip 2) = Some (mac 2) /\ net_ok t.
Proof.
  destruct (arp_learns_only_solicited (host 1) 1 (device_of (host 1)) (mac 2)
    (arp_bytes NET_ARP_OPERATION_REQUEST (mac 2) (ip 2) net_mac_addr_zero (ip 1)) 28) as (r & t & Et & Hok & _).
  - exact (proj1 host1_up).
  - done.
  - by vm_compute.
  - by apply mac_k_ok.
  - split; [lia|]. split; [done|]. by apply (bool_decide_unpack _).
  - exists r, t. split; [exact Et|]. split; [|exact Hok]. vm_compute in Et. injection Et as _ <-. by vm_compute.
Defined.

Lemma route_longest_prefix_witness : exists x,
  net_ipv4_route_lookup (ip 2) (host 1) = Some ((NET_OK, Some x), host 1) /\ r_device x = 1.
Proof.
  destruct (route_longest_prefix (host 1) (ip 2)) as ([r [x|]] & t & Et & -> & Hr).
  - exact (proj1 host1_up).
  - split; [by apply ip_k_ok|done].
  - exists x. destruct Hr as [-> _]. split; [exact Et|]. vm_compute in Et. injection Et as <-. done.
  - exfalso. vm_compute in Et. done.
Defined.

Lemma datagram_delivered_witness : exists t,
  net_ipv4_send_on 1 net_ipv4_addr_zero (ip 2) 200 (Some [1; 2; 3]) 3 (host 1) = Some (NET_OK, t) /\ wire t = [asks 1 2].
Proof.
  destruct (datagram_delivered (fun w : cable => w) (host 1) (host 2) 1 1 (device_of (host 1)) (device_of (host 2))
    net_ipv4_addr_zero 200 (Some [1; 2; 3]) 3 (mk_handler 200 (protocol_fn 5) 9 true) 5) as (r & t & Et & -> & Ew & _).
  - exact toy_callbacks.
  - split; [exact host1_up|]. split; [by left|]. split; [split; [by apply (ip_k_ok 2)|done]|]. split; [done|].
    split; [split; [lia|split; [done|by apply (bool_decide_unpack _)]]|]. split; [by vm_compute|by vm_compute].
  - exact host2_up.
  - split; [split; [by apply (ip_k_ok 2)|done]|]. by split; vm_compute.
  - split; [split; [by apply (ip_k_ok 1)|done]|]. by split; vm_compute.
  - by vm_compute.
  - exists 0%nat. by eexists.
  - by vm_compute.
  - by vm_compute.
  - done.
  - exists t. split; [exact Et|]. rewrite Ew. by vm_compute.
Defined.

Lemma echo_round_trip_witness : exists t,
  net_icmp_send_echo_request net_ipv4_addr_zero (ip 2) 17 1 (Some [1; 2; 3]) 3 (friend 1 2) = Some (NET_OK, t).
Proof.
  destruct (echo_round_trip (fun w : cable => w) (friend 1 2) (friend 2 1) 1 1 (device_of (friend 1 2)) (device_of (friend 2 1))
    net_ipv4_addr_zero 17 1 (Some [1; 2; 3]) 3
    (mk_route (net_ipv4_addr_make 10 0 0 0) (net_ipv4_addr_make 255 255 255 0) net_ipv4_addr_zero 1 0)
    (mk_handler NET_IPV4_PROTOCOL_ICMP net_icmp_input_fn NULL true) (mk_handler NET_IPV4_PROTOCOL_ICMP net_icmp_input_fn NULL true) 3)
    as (r & t & Et & -> & _).
  - exact toy_callbacks.
  - exact friend1_up.
  - exact friend2_up.
  - by left.
  - lia.
  - lia.
  - split; [lia|]. split; [done|]. by apply (bool_decide_unpack _).
  - by vm_compute.
  - by vm_compute.
  - by vm_compute.
  - done.
  - exists (ip 2). by split; vm_compute.
  - exists (ip 1). by split; vm_compute.
  - by vm_compute.
  - done.
  - by vm_compute.
  - done.
  - by vm_compute.
  - exists t. exact Et.
Defined.
End NetToy.
