(* ===== verification/Udp.v ===== *)
(** * UDP

    Model of kernel/net/net_udp.c and include/northstar/net_udp.h.  The stack is
    one object in some larger state; a pointer to it is either null or names it.
    An endpoint is known by its index in the table.  The two callbacks, sending an
    IPv4 datagram and the notification of an endpoint, act on the larger state. *)

From S2P Require Import Prelude Errno NetTypes Net.

Abbreviation NET_UDP_IPV4_PROTOCOL := 17 (only parsing).
Abbreviation NET_UDP_MAX_ENDPOINTS := 16 (only parsing).
Abbreviation NET_UDP_QUEUE_DEPTH := 8 (only parsing).
Abbreviation NET_UDP_MAX_PAYLOAD := 1472 (only parsing).
Abbreviation NET_UDP_EPHEMERAL_FIRST := 49152 (only parsing).
Abbreviation NET_UDP_EPHEMERAL_LAST := 65535 (only parsing).
Abbreviation UDP_HEADER_SIZE := 8 (only parsing).
Abbreviation UDP_HANDLE_TAG := 0xd0000000 (only parsing).
Abbreviation UDP_HANDLE_TAG_MASK := 0xf0000000 (only parsing).
Abbreviation UDP_HANDLE_GENERATION_MASK := 0xfffff (only parsing).
Abbreviation UDP_HANDLE_GENERATION_SHIFT := 8 (only parsing).
Abbreviation UDP_HANDLE_SLOT_MASK := 0xff (only parsing).

Abbreviation NET_UDP_OK := 0 (only parsing).
Abbreviation NET_UDP_ERR_INVALID := (-1) (only parsing).
Abbreviation NET_UDP_ERR_NO_SLOT := (-2) (only parsing).
Abbreviation NET_UDP_ERR_BAD_HANDLE := (-3) (only parsing).
Abbreviation NET_UDP_ERR_ADDRESS_IN_USE := (-4) (only parsing).
Abbreviation NET_UDP_ERR_NOT_BOUND := (-5) (only parsing).
Abbreviation NET_UDP_ERR_MESSAGE_TOO_LARGE := (-6) (only parsing).
Abbreviation NET_UDP_ERR_BAD_CHECKSUM := (-7) (only parsing).
Abbreviation NET_UDP_ERR_BAD_LENGTH := (-8) (only parsing).
Abbreviation NET_UDP_ERR_NO_ENDPOINT := (-9) (only parsing).
Abbreviation NET_UDP_ERR_QUEUE_FULL := (-10) (only parsing).
Abbreviation NET_UDP_ERR_WOULD_BLOCK := (-11) (only parsing).
Abbreviation NET_UDP_ERR_BUFFER_TOO_SMALL := (-12) (only parsing).
Abbreviation NET_UDP_ERR_IO := (-13) (only parsing).

(** ** The stack *)

Record net_udp_address := mk_udp_address { u_address : Z; u_port : Z }.

Record net_udp_config := mk_udp_config {
  c_local_address : Z; allow_zero_checksum : bool; ipv4_send : option Z; ipv4_send_context : Z }.
Definition eta_udp_config (c : net_udp_config) : net_udp_config :=
  mk_udp_config (c_local_address c) (allow_zero_checksum c) (ipv4_send c) (ipv4_send_context c).
#[export] Instance set_c_local_address : Setter c_local_address.
Proof. mk_setter eta_udp_config c_local_address. Defined.

Record net_udp_stats := mk_udp_stats {
  received : Z; transmitted : Z; dropped_bad_length : Z; dropped_bad_checksum : Z; dropped_oversize : Z;
  dropped_no_endpoint : Z; dropped_queue_full : Z }.
Definition eta_udp_stats (s : net_udp_stats) : net_udp_stats :=
  mk_udp_stats (received s) (transmitted s) (dropped_bad_length s) (dropped_bad_checksum s) (dropped_oversize s)
    (dropped_no_endpoint s) (dropped_queue_full s).
#[export] Instance set_received : Setter received.
Proof. mk_setter eta_udp_stats received. Defined.
#[export] Instance set_transmitted : Setter transmitted.
Proof. mk_setter eta_udp_stats transmitted. Defined.
#[export] Instance set_dropped_bad_length : Setter dropped_bad_length.
Proof. mk_setter eta_udp_stats dropped_bad_length. Defined.
#[export] Instance set_dropped_bad_checksum : Setter dropped_bad_checksum.
Proof. mk_setter eta_udp_stats dropped_bad_checksum. Defined.
#[export] Instance set_dropped_oversize : Setter dropped_oversize.
Proof. mk_setter eta_udp_stats dropped_oversize. Defined.
#[export] Instance set_dropped_no_endpoint : Setter dropped_no_endpoint.
Proof. mk_setter eta_udp_stats dropped_no_endpoint. Defined.
#[export] Instance set_dropped_queue_full : Setter dropped_queue_full.
Proof. mk_setter eta_udp_stats dropped_queue_full. Defined.

Record net_udp_queued_datagram := mk_udp_datagram {
  q_source : net_udp_address; q_destination : Z; q_length : Z; q_payload : list Z }.

Record net_udp_endpoint := mk_endpoint {
  generation : Z; active : bool; bound : bool; local_address : Z; local_port : Z; queue_head : Z; queue_count : Z;
  notify : option Z; notify_context : Z; queue : list net_udp_queued_datagram }.
Definition eta_endpoint (e : net_udp_endpoint) : net_udp_endpoint :=
  mk_endpoint (generation e) (active e) (bound e) (local_address e) (local_port e) (queue_head e) (queue_count e)
    (notify e) (notify_context e) (queue e).
#[export] Instance set_generation : Setter generation.
Proof. mk_setter eta_endpoint generation. Defined.
#[export] Instance set_active : Setter active.
Proof. mk_setter eta_endpoint active. Defined.
#[export] Instance set_bound : Setter bound.
Proof. mk_setter eta_endpoint bound. Defined.
#[export] Instance set_local_address : Setter local_address.
Proof. mk_setter eta_endpoint local_address. Defined.
#[export] Instance set_local_port : Setter local_port.
Proof. mk_setter eta_endpoint local_port. Defined.
#[export] Instance set_queue_head : Setter queue_head.
Proof. mk_setter eta_endpoint queue_head. Defined.
#[export] Instance set_queue_count : Setter queue_count.
Proof. mk_setter eta_endpoint queue_count. Defined.
#[export] Instance set_notify : Setter notify.
Proof. mk_setter eta_endpoint notify. Defined.
#[export] Instance set_notify_context : Setter notify_context.
Proof. mk_setter eta_endpoint notify_context. Defined.
#[export] Instance set_queue : Setter queue.
Proof. mk_setter eta_endpoint queue. Defined.

Record net_udp_stack := mk_udp_stack {
  config : net_udp_config; stats : net_udp_stats; next_ephemeral : Z; endpoints : list net_udp_endpoint }.
Definition eta_udp_stack (s : net_udp_stack) : net_udp_stack :=
  mk_udp_stack (config s) (stats s) (next_ephemeral s) (endpoints s).
#[export] Instance set_config : Setter config.
Proof. mk_setter eta_udp_stack config. Defined.
#[export] Instance set_stats : Setter stats.
Proof. mk_setter eta_udp_stack stats. Defined.
#[export] Instance set_next_ephemeral : Setter next_ephemeral.
Proof. mk_setter eta_udp_stack next_ephemeral. Defined.
#[export] Instance set_endpoints : Setter endpoints.
Proof. mk_setter eta_udp_stack endpoints. Defined.

Abbreviation U := (M net_udp_stack).
Implicit Types (stack handle index : Z).

(** ** Handles *)

Definition next_generation (g : Z) : Z :=
  let g := Z.land (u32 (g + 1)) UDP_HANDLE_GENERATION_MASK in if g =? 0 then 1 else g.

Definition make_handle (slot g : Z) : Z :=
  Z.lor (Z.lor UDP_HANDLE_TAG (u32 (Z.shiftl (Z.land g UDP_HANDLE_GENERATION_MASK) UDP_HANDLE_GENERATION_SHIFT)))
    (u32 (slot + 1)).

(** The index of the endpoint, or none for a null pointer. *)
Definition lookup_endpoint stack handle : U (option Z) :=
  if (stack =? NULL) || negb (Z.land handle UDP_HANDLE_TAG_MASK =? UDP_HANDLE_TAG) then mret None
  else
    let encoded_slot := Z.land handle UDP_HANDLE_SLOT_MASK in
    if (encoded_slot =? 0) || (NET_UDP_MAX_ENDPOINTS <? encoded_slot) then mret None
    else
      let g := Z.land (Z.shiftr handle UDP_HANDLE_GENERATION_SHIFT) UDP_HANDLE_GENERATION_MASK in
      let slot := encoded_slot - 1 in
      e ← elem endpoints slot;
      if negb (active e) || negb (generation e =? g) then mret None else mret (Some slot).
(** The same code on a stack it may not change. *)
Definition lookup_endpoint_const stack handle : U (option Z) := lookup_endpoint stack handle.

(** ** Ports *)

Fixpoint conflict_loop (l : list net_udp_endpoint) (i candidate address port : Z) : bool :=
  match l with
  | [] => false
  | other :: l' =>
    if (i =? candidate) || negb (active other) || negb (bound other) || negb (local_port other =? port)
    then conflict_loop l' (i + 1) candidate address port
    else if (address =? 0) || (local_address other =? 0) || (address =? local_address other) then true
    else conflict_loop l' (i + 1) candidate address port
  end.
Definition binding_conflicts (candidate address port : Z) : U bool :=
  gets (fun s => conflict_loop (endpoints s) 0 candidate address port).

Definition port_after (port : Z) : Z :=
  if port =? NET_UDP_EPHEMERAL_LAST then u16 NET_UDP_EPHEMERAL_FIRST else u16 (port + 1).

(** The port, or none when the code reports that all are in use. *)
Fixpoint ephemeral_loop (n : nat) (endpoint address port : Z) : U (option Z) :=
  match n with
  | O => mret None
  | S n' =>
    conflict ← binding_conflicts endpoint address port;
    if negb conflict then modify (fun s => s <| next_ephemeral := port_after port |>);; mret (Some port)
    else ephemeral_loop n' endpoint address (port_after port)
  end.
Definition choose_ephemeral (endpoint address : Z) : U (option Z) :=
  port ← gets next_ephemeral;
  let port := if port <? NET_UDP_EPHEMERAL_FIRST then NET_UDP_EPHEMERAL_FIRST else port in
  ephemeral_loop (Z.to_nat (NET_UDP_EPHEMERAL_LAST - NET_UDP_EPHEMERAL_FIRST + 1)) endpoint address port.

(** ** Opening and closing *)

Definition blank_datagram : net_udp_queued_datagram :=
  mk_udp_datagram (mk_udp_address 0 0) 0 0 (replicate (Z.to_nat NET_UDP_MAX_PAYLOAD) 0).
(** An endpoint of zeros, with a generation. *)
Definition blank_endpoint (g : Z) : net_udp_endpoint :=
  mk_endpoint g false false 0 0 0 0 None NULL (replicate (Z.to_nat NET_UDP_QUEUE_DEPTH) blank_datagram).

Definition net_udp_init stack (config_ : option net_udp_config) : U unit :=
  if stack =? NULL then mret tt
  else
    modify (fun _ => mk_udp_stack (mk_udp_config 0 false None NULL) (mk_udp_stats 0 0 0 0 0 0 0) 0
                       (replicate (Z.to_nat NET_UDP_MAX_ENDPOINTS) (blank_endpoint 0)));;
    match config_ with Some c => modify (fun s => s <| config := c |>) | None => mret tt end;;
    modify (fun s => s <| next_ephemeral := NET_UDP_EPHEMERAL_FIRST |>);;
    for_m 16 (fun i _ => update endpoints i (fun e => e <| generation := 1 |>)) 0 tt.

Definition net_udp_set_local_address stack (address : Z) : U unit :=
  if stack =? NULL then mret tt else modify (fun s => s <| config := (config s) <| c_local_address := address |> |>).

(** The result and what is stored through [handle_out]. *)
Definition net_udp_open stack (notify_ : option Z) (context : Z) (handle_out : bool) : U (Z * option Z) :=
  if (stack =? NULL) || negb handle_out then mret (NET_UDP_ERR_INVALID, None)
  else
    l ← gets endpoints;
    match scan (fun e => negb (active e)) l 0 with
    | Some i =>
      e ← elem endpoints i;
      let g := if generation e =? 0 then 1 else generation e in
      update endpoints i (fun _ =>
        (blank_endpoint 0) <| generation := g |> <| active := true |> <| notify := notify_ |> <| notify_context := context |>);;
      mret (NET_UDP_OK, Some (make_handle i g))
    | None => mret (NET_UDP_ERR_NO_SLOT, None)
    end.

Definition net_udp_close stack handle : U Z :=
  endpoint ← lookup_endpoint stack handle;
  match endpoint with
  | None => mret NET_UDP_ERR_BAD_HANDLE
  | Some i =>
    e ← elem endpoints i;
    update endpoints i (fun _ => (blank_endpoint 0) <| generation := next_generation (generation e) |>);;
    mret NET_UDP_OK
  end.

Definition net_udp_bind stack handle (address port : Z) : U Z :=
  endpoint ← lookup_endpoint stack handle;
  match endpoint with
  | None => mret NET_UDP_ERR_BAD_HANDLE
  | Some i =>
    e ← elem endpoints i;
    if bound e then mret NET_UDP_ERR_INVALID
    else
      port ← (if port =? 0 then choose_ephemeral i address
              else conflict ← binding_conflicts i address port; mret (if conflict : bool then None else Some port));
      match port with
      | None => mret NET_UDP_ERR_ADDRESS_IN_USE
      | Some port =>
        update endpoints i (fun e => e <| local_address := address |> <| local_port := port |> <| bound := true |>);;
        mret NET_UDP_OK
      end
  end.

Definition net_udp_get_local stack handle (address_out : bool) : U (Z * option net_udp_address) :=
  endpoint ← lookup_endpoint_const stack handle;
  match endpoint with
  | None => mret (NET_UDP_ERR_BAD_HANDLE, None)
  | Some i =>
    if negb address_out then mret (NET_UDP_ERR_INVALID, None)
    else
      e ← elem endpoints i;
      if negb (bound e) then mret (NET_UDP_ERR_NOT_BOUND, None)
      else mret (NET_UDP_OK, Some (mk_udp_address (local_address e) (local_port e)))
  end.

Definition net_udp_pending stack handle (count_out : bool) : U (Z * option Z) :=
  endpoint ← lookup_endpoint_const stack handle;
  match endpoint with
  | None => mret (NET_UDP_ERR_BAD_HANDLE, None)
  | Some i =>
    if negb count_out then mret (NET_UDP_ERR_INVALID, None)
    else e ← elem endpoints i; mret (NET_UDP_OK, Some (queue_count e))
  end.

Definition net_udp_get_stats stack : U (option net_udp_stats) :=
  if stack =? NULL then mret None else s ← gets stats; mret (Some s).

(** ** Segments *)

Definition net_udp_checksum_ipv4 (source destination : Z) (segment : option (list Z)) (length : Z) : option Z :=
  if (is_null segment && negb (length =? 0)) || (65535 <? length) then Some 0xffff
  else
    let s := u32 (0 + Z.land (Z.shiftr source 16) 0xffff) in
    let s := u32 (s + Z.land source 0xffff) in
    let s := u32 (s + Z.land (Z.shiftr destination 16) 0xffff) in
    let s := u32 (s + Z.land destination 0xffff) in
    let s := u32 (s + NET_UDP_IPV4_PROTOCOL) in
    let s := u32 (s + u32 length) in
    let bytes := default [] segment in
    '(i, s) ← sum_words (Z.to_nat length) bytes length 0 s;
    s ← (if i <? length then b ← rd bytes i; Some (u32 (s + Z.shiftl b 8)) else Some s);
    s ← fold_sum 2 s;
    Some (u16 (Z.land (Z.lnot s) 0xffff)).

(** The segment in its array on the stack. *)
Definition udp_segment `{!Garbage} (source destination source_port destination_port : Z) (payload : option (list Z)) (n : Z)
  : option (list Z) :=
  p ← net_write_be16 (uninitialised (UDP_HEADER_SIZE + NET_UDP_MAX_PAYLOAD)) 0 source_port;
  p ← net_write_be16 p 2 destination_port;
  p ← net_write_be16 p 4 (u16 (UDP_HEADER_SIZE + n));
  p ← net_write_be16 p 6 0;
  p ← (if negb (n =? 0) then d ← payload; copy_bytes p UDP_HEADER_SIZE d n else Some p);
  checksum ← net_udp_checksum_ipv4 source destination (Some p) (UDP_HEADER_SIZE + n);
  net_write_be16 p 6 (if checksum =? 0 then 0xffff else checksum).

Fixpoint destination_loop (l : list net_udp_endpoint) index (address port : Z) (wildcard : option Z) : option Z :=
  match l with
  | [] => wildcard
  | e :: l' =>
    if negb (active e) || negb (bound e) || negb (local_port e =? port)
    then destination_loop l' (index + 1) address port wildcard
    else if local_address e =? address then Some index
    else destination_loop l' (index + 1) address port (if local_address e =? 0 then Some index else wildcard)
  end.
Definition find_destination (address port : Z) : U (option Z) :=
  gets (fun s => destination_loop (endpoints s) 0 address port None).

(** One of the counters. *)
Definition count_up (f : net_udp_stats -> Z) `{!Setter f} : U unit :=
  modify (fun s => s <| stats := (stats s) <| f := u64 (f (stats s) + 1) |> |>).

(** Up to the notification: the result and, when a datagram was queued, the
    index of its endpoint. *)
Definition receive_segment stack (source destination : Z) (segment : option (list Z)) (length : Z) : U (Z * option Z) :=
  match segment with
  | None => mret (NET_UDP_ERR_INVALID, None)
  | Some segment =>
    if stack =? NULL then mret (NET_UDP_ERR_INVALID, None)
    else if (length <? UDP_HEADER_SIZE) || (65535 <? length)
    then count_up dropped_bad_length;; mret (NET_UDP_ERR_BAD_LENGTH, None)
    else
      wire_length ← of_option (net_read_be16 segment 4);
      if (wire_length <? UDP_HEADER_SIZE) || negb (wire_length =? length)
      then count_up dropped_bad_length;; mret (NET_UDP_ERR_BAD_LENGTH, None)
      else
        let payload_length := length - UDP_HEADER_SIZE in
        if NET_UDP_MAX_PAYLOAD <? payload_length
        then count_up dropped_oversize;; mret (NET_UDP_ERR_MESSAGE_TOO_LARGE, None)
        else
          wire_checksum ← of_option (net_read_be16 segment 6);
          bad ← (if wire_checksum =? 0 then c ← gets config; mret (negb (allow_zero_checksum c))
                 else c ← of_option (net_udp_checksum_ipv4 source destination (Some segment) length);
                      mret (negb (c =? 0)));
          if (bad : bool) then count_up dropped_bad_checksum;; mret (NET_UDP_ERR_BAD_CHECKSUM, None)
          else
            source_port ← of_option (net_read_be16 segment 0);
            destination_port ← of_option (net_read_be16 segment 2);
            if destination_port =? 0 then count_up dropped_no_endpoint;; mret (NET_UDP_ERR_NO_ENDPOINT, None)
            else
              endpoint ← find_destination destination destination_port;
              match endpoint with
              | None => count_up dropped_no_endpoint;; mret (NET_UDP_ERR_NO_ENDPOINT, None)
              | Some i =>
                e ← elem endpoints i;
                if queue_count e =? NET_UDP_QUEUE_DEPTH
                then count_up dropped_queue_full;; mret (NET_UDP_ERR_QUEUE_FULL, None)
                else
                  let slot := (queue_head e + queue_count e) mod NET_UDP_QUEUE_DEPTH in
                  old ← of_option (rd (queue e) slot);
                  copied ← of_option (copy_bytes (q_payload old) 0 (span segment UDP_HEADER_SIZE payload_length) payload_length);
                  queue' ← of_option (wr (queue e) slot
                    (mk_udp_datagram (mk_udp_address source source_port) destination (u16 payload_length) copied));
                  update endpoints i (fun e => e <| queue := queue' |> <| queue_count := u8 (queue_count e + 1) |>);;
                  count_up received;;
                  mret (NET_UDP_OK, Some i)
              end
  end.

(** The result, and what is stored through [received_length], into the buffer
    and through [source_out]. *)
Definition net_udp_recvfrom stack handle (buffer : option (list Z)) (capacity : Z) (received_length source_out : bool)
  : U (Z * option Z * option (list Z) * option net_udp_address) :=
  endpoint ← lookup_endpoint stack handle;
  match endpoint with
  | None => mret (NET_UDP_ERR_BAD_HANDLE, None, buffer, None)
  | Some i =>
    if negb received_length || (is_null buffer && negb (capacity =? 0)) then mret (NET_UDP_ERR_INVALID, None, buffer, None)
    else
      e ← elem endpoints i;
      if queue_count e =? 0 then mret (NET_UDP_ERR_WOULD_BLOCK, Some 0, buffer, None)
      else
        d ← of_option (rd (queue e) (queue_head e));
        let length := q_length d in
        if (capacity <? length) || (is_null buffer && negb (length =? 0))
        then mret (NET_UDP_ERR_BUFFER_TOO_SMALL, Some length, buffer, None)
        else
          buffer' ← (if negb (length =? 0)
                     then b ← of_option buffer; b ← of_option (copy_bytes b 0 (q_payload d) length); mret (Some b)
                     else mret buffer);
          queue' ← of_option (wr (queue e) (queue_head e) blank_datagram);
          update endpoints i (fun e =>
            e <| queue := queue' |> <| queue_head := u8 ((queue_head e + 1) mod NET_UDP_QUEUE_DEPTH) |>
              <| queue_count := u8 (queue_count e - 1) |>);;
          mret (NET_UDP_OK, Some length, buffer', if source_out then Some (q_source d) else None)
  end.

(** ** Calls that leave the stack

    What UDP needs from its surroundings: where its stack is, the function that
    sends a datagram, and the notifications. *)
Class UdpHost (S : Type) := {
  udp_of : S -> net_udp_stack;
  udp_setter :: Setter udp_of;
  udp_get_set : forall u s, udp_of (s <| udp_of := u |>) = u;
  udp_set_get : forall s, s <| udp_of := udp_of s |> = s;
  udp_set_set : forall u v s, (s <| udp_of := u |>) <| udp_of := v |> = s <| udp_of := v |>;
  udp_send_call : Z -> Z -> Z -> Z -> Z -> list Z -> M S Z;
  udp_notify_call : Z -> Z -> Z -> Z -> M S unit }.
#[export] Hint Mode UdpHost ! : typeclass_instances.

Section Host.
Context `{!Garbage} {S : Type} `{!UdpHost S}.

(** From a bound endpoint. *)
Definition send_segment index (destination port : Z) (payload : option (list Z)) (n : Z) : M S Z :=
  c ← zoom udp_of (gets config);
  match ipv4_send c with
  | None => mret NET_UDP_ERR_IO
  | Some send =>
    e ← zoom udp_of (elem endpoints index);
    let source := if negb (local_address e =? 0) then local_address e else c_local_address c in
    segment ← of_option (udp_segment source destination (local_port e) port payload n);
    result ← udp_send_call send (ipv4_send_context c) source destination NET_UDP_IPV4_PROTOCOL
               (span segment 0 (UDP_HEADER_SIZE + n));
    if result =? NET_UDP_OK then zoom udp_of (count_up transmitted);; mret NET_UDP_OK
    else mret (if result <? 0 then result else NET_UDP_ERR_IO)
  end.

Definition net_udp_sendto stack handle (destination port : Z) (payload : option (list Z)) (n : Z) : M S Z :=
  endpoint ← zoom udp_of (lookup_endpoint stack handle);
  match endpoint with
  | None => mret NET_UDP_ERR_BAD_HANDLE
  | Some i =>
    if (destination =? 0) || (port =? 0) || (is_null payload && negb (n =? 0)) then mret NET_UDP_ERR_INVALID
    else if NET_UDP_MAX_PAYLOAD <? n then mret NET_UDP_ERR_MESSAGE_TOO_LARGE
    else
      e ← zoom udp_of (elem endpoints i);
      result ← (if negb (bound e) then zoom udp_of (net_udp_bind stack handle 0 0) else mret NET_UDP_OK);
      if negb (result =? NET_UDP_OK) then mret result else send_segment i destination port payload n
  end.

Definition net_udp_receive stack (source destination : Z) (segment : option (list Z)) (length : Z) : M S Z :=
  '(result, queued) ← zoom udp_of (receive_segment stack source destination segment length);
  match queued with
  | None => mret result
  | Some i =>
    e ← zoom udp_of (elem endpoints i);
    match notify e with
    | Some f => udp_notify_call f (notify_context e) stack (make_handle i (generation e))
    | None => mret tt
    end;;
    mret result
  end.
End Host.
