(* ===== verification/UdpProps.v ===== *)
(** * The UDP stack: handles, ports and queues

    Handles name an endpoint and its generation; bound endpoints never claim the
    same datagrams; a free port is always found; queues are rings. *)

From S2P Require Import Prelude Errno NetTypes NetSum Net NetBytes NetProps NetSafe NetSafeIp Udp.

(** ** Handles *)

Lemma shifted_mask v k m : 0 <= k -> Z.land v (Z.shiftl m k) = Z.shiftl (Z.land (Z.shiftr v k) m) k.
Proof.
  intros Hk. apply Z.bits_inj'. intros n Hn. rewrite Z.land_spec. destruct (Z.lt_ge_cases n k).
  - rewrite !Z.shiftl_spec_low by lia. by rewrite andb_false_r.
  - rewrite !Z.shiftl_spec by lia. rewrite Z.land_spec, Z.shiftr_spec by lia. do 2 f_equal. lia.
Qed.

(** A handle is the tag, 20 bits of generation and 8 bits of slot. *)
Lemma make_handle_value slot g : 0 <= slot < 255 -> 0 <= g < 2 ^ 20 ->
  make_handle slot g = 0xd0000000 + g * 256 + (slot + 1).
Proof.
  intros Hs Hg. unfold make_handle. change UDP_HANDLE_GENERATION_MASK with (2 ^ 20 - 1). rewrite land_mask, Z.mod_small, Z.shiftl_mul_pow2 by lia.
  rewrite !u32_small by lia. replace 0xd0000000 with (13 * 2 ^ 28) by lia. rewrite lor_bytes by lia.
  replace (13 * 2 ^ 28 + g * 2 ^ 8) with ((13 * 2 ^ 20 + g) * 2 ^ 8) by lia. rewrite lor_bytes by lia. lia.
Qed.

Lemma handle_fields handle : is_u32 handle ->
  (Z.land handle UDP_HANDLE_TAG_MASK =? UDP_HANDLE_TAG) = (handle / 2 ^ 28 =? 13) /\
  Z.land handle UDP_HANDLE_SLOT_MASK = handle mod 256 /\
  Z.land (Z.shiftr handle UDP_HANDLE_GENERATION_SHIFT) UDP_HANDLE_GENERATION_MASK = (handle / 256) mod 2 ^ 20.
Proof.
  intros Hh. split_and!.
  - change 0xf0000000 with (Z.shiftl (2 ^ 4 - 1) 28). rewrite shifted_mask, land_mask, Z.shiftl_mul_pow2, Z.shiftr_div_pow2 by lia.
    rewrite Z.mod_small by zdiv. apply eq_bool_prop_intro. rewrite !Is_true_true, !Z.eqb_eq. lia.
  - exact (land_mask handle 8 ltac:(lia)).
  - change UDP_HANDLE_GENERATION_MASK with (2 ^ 20 - 1). rewrite land_mask, Z.shiftr_div_pow2 by lia. done.
Qed.

Lemma make_handle_inj i g j g' : 0 <= i < 16 -> 0 <= j < 16 -> 0 <= g < 2 ^ 20 -> 0 <= g' < 2 ^ 20 ->
  make_handle i g = make_handle j g' -> i = j /\ g = g'.
Proof. intros Hi Hj Hg Hg'. rewrite !make_handle_value by lia. lia. Qed.
Lemma make_handle_range i g : 0 <= i < 16 -> 0 <= g < 2 ^ 20 -> is_u32 (make_handle i g).
Proof. intros. rewrite make_handle_value by lia. lia. Qed.

Lemma next_generation_range g : 0 <= g < 2 ^ 20 -> 1 <= next_generation g < 2 ^ 20.
Proof.
  intros Hg. unfold next_generation. change UDP_HANDLE_GENERATION_MASK with (2 ^ 20 - 1). rewrite land_mask, u32_small by lia.
  pose proof (Z.mod_pos_bound (g + 1) (2 ^ 20) ltac:(lia)). destruct (Z.eqb_spec ((g + 1) mod 2 ^ 20) 0); lia.
Qed.
Lemma next_generation_new g : 1 <= g < 2 ^ 20 -> next_generation g <> g.
Proof.
  intros Hg. unfold next_generation. change UDP_HANDLE_GENERATION_MASK with (2 ^ 20 - 1). rewrite land_mask, u32_small by lia.
  destruct (Z.eqb_spec ((g + 1) mod 2 ^ 20) 0); zdiv.
Qed.

(** ** The invariant *)

Definition queued_ok (d : net_udp_queued_datagram) : Prop :=
  is_u32 (u_address (q_source d)) /\ is_u16 (u_port (q_source d)) /\ is_u32 (q_destination d) /\
  0 <= q_length d <= 1472 /\ length (q_payload d) = 1472%nat /\ bytes_ok (q_payload d).

Definition endpoint_ok (e : net_udp_endpoint) : Prop :=
  1 <= generation e < 2 ^ 20 /\ 0 <= queue_head e < 8 /\ 0 <= queue_count e <= 8 /\
  length (queue e) = 8%nat /\ Forall queued_ok (queue e) /\ is_u32 (local_address e) /\
  (bound e = true -> 1 <= local_port e < 2 ^ 16).

(** Two endpoints that would both take a datagram. *)
Definition claims (a p : Z) (e : net_udp_endpoint) : Prop :=
  active e = true /\ bound e = true /\ local_port e = p /\ (a = 0 \/ local_address e = 0 \/ a = local_address e).
Definition rivals (e e' : net_udp_endpoint) : Prop :=
  active e = true /\ bound e = true /\ claims (local_address e) (local_port e) e'.
#[export] Instance rivals_sym : Symmetric rivals.
Proof. intros e e' (H1 & H2 & H3 & H4 & H5 & H6). split_and!; try done. split_and!; [done|done|done|]. destruct H6 as [|[|]]; auto. Qed.

Definition stack_ok (s : net_udp_stack) : Prop :=
  length (endpoints s) = 16%nat /\ Forall endpoint_ok (endpoints s) /\ unique rivals (endpoints s) /\
  49152 <= next_ephemeral s <= 65535 /\ is_u32 (c_local_address (config s)).

Implicit Types (s t : net_udp_stack) (e : net_udp_endpoint) (stack handle i : Z).

Lemma endpoint_rd s i : stack_ok s -> 0 <= i < 16 -> exists e, rd (endpoints s) i = Some e /\ endpoint_ok e.
Proof.
  intros (Hl & Hf & _) Hi. destruct (rd_Some (endpoints s) i ltac:(lia)) as [e Hr]. exists e. split; [done|].
  apply rd_lookup in Hr as [_ Hr]. exact (Forall_lookup_1 _ _ _ _ Hf Hr).
Qed.

(** The handle of an open endpoint. *)
Definition names s handle i e : Prop :=
  rd (endpoints s) i = Some e /\ active e = true /\ handle = make_handle i (generation e).

Lemma names_range s handle i e : stack_ok s -> names s handle i e -> 0 <= i < 16 /\ endpoint_ok e.
Proof.
  intros Hok (Hr & _). pose proof (rd_range _ _ _ Hr) as Hi. destruct Hok as (Hl & Hf & _). split; [lia|].
  apply rd_lookup in Hr as [_ Hr]. exact (Forall_lookup_1 _ _ _ _ Hf Hr).
Qed.

Lemma names_unique s handle i e j e' : stack_ok s -> names s handle i e -> names s handle j e' -> i = j /\ e = e'.
Proof.
  intros Hok H1 H2. destruct (names_range s handle i e Hok H1) as (Hi & (Hg & _)). destruct (names_range s handle j e' Hok H2) as (Hj & (Hg' & _)).
  destruct H1 as (Hr & _ & ->), H2 as (Hr' & _ & Hh). apply make_handle_inj in Hh as [-> _]; [|lia..]. split; [done|congruence].
Qed.

Lemma wp_lookup_endpoint s stack handle (Q : option Z -> net_udp_stack -> Prop) :
  stack_ok s -> is_u32 handle -> stack <> NULL ->
  (forall i e, names s handle i e -> Q (Some i) s) -> ((forall i e, ~ names s handle i e) -> Q None s) ->
  wp (lookup_endpoint stack handle) Q s.
Proof.
  intros Hok Hh Hn HQ1 HQ2. destruct (handle_fields handle Hh) as (Ht & Hs & Hg). unfold lookup_endpoint. rewrite Ht, Hs, Hg.
  rewrite (proj2 (Z.eqb_neq stack NULL)) by done. cbn [orb].
  assert (Hform : forall i e, names s handle i e -> 0 <= i < 16 /\ handle / 2 ^ 28 = 13 /\ handle mod 256 = i + 1 /\ (handle / 256) mod 2 ^ 20 = generation e).
  { intros i e Hne. destruct (names_range s handle i e Hok Hne) as (Hi & (Hge & _)). destruct Hne as (_ & _ & ->).
    rewrite make_handle_value by lia. split; [done|]. zdiv. }
  destruct (Z.eqb_spec (handle / 2 ^ 28) 13) as [Htag|Htag]; cbn [negb].
  2: { apply wp_ret, HQ2. by intros i e (_ & ? & _)%Hform. }
  destruct (Z.eqb_spec (handle mod 256) 0) as [Hz|Hz]; cbn [orb].
  { apply wp_ret, HQ2. intros i e (? & _ & ? & _)%Hform. lia. }
  destruct (Z.ltb_spec 16 (handle mod 256)).
  { apply wp_ret, HQ2. intros i e (? & _ & ? & _)%Hform. lia. }
  pose proof (Z.mod_pos_bound handle 256 ltac:(lia)). destruct (endpoint_rd s (handle mod 256 - 1) Hok ltac:(lia)) as (e & Hr & (Hge & _)).
  apply wp_bind. eapply wp_elem; [exact Hr|].
  assert (Honly : forall j e', names s handle j e' -> j = handle mod 256 - 1 /\ e' = e).
  { intros j e' Hne. destruct (Hform j e' Hne) as (_ & _ & Hj & _). destruct Hne as (Hr' & _). assert (j = handle mod 256 - 1) as -> by lia.
    split; [done|congruence]. }
  destruct (active e) eqn:Ha; cbn [negb orb].
  2: { apply wp_ret, HQ2. intros j e' Hne. destruct (Honly j e' Hne) as [_ ->]. destruct Hne as (_ & ? & _). congruence. }
  destruct (Z.eqb_spec (generation e) ((handle / 256) mod 2 ^ 20)) as [Hgen|Hgen]; cbn [negb]; apply wp_ret.
  - apply (HQ1 _ e). split_and!; [done|done|]. rewrite make_handle_value by lia. zdiv.
  - apply HQ2. intros j e' Hne. destruct (Honly j e' Hne) as [_ ->]. by destruct (Hform j e Hne) as (_ & _ & _ & ?).
Qed.

(** ** Ports *)

Lemma conflict_loop_spec l k candidate a p :
  conflict_loop l k candidate a p = true <-> exists j e, l !! j = Some e /\ k + Z.of_nat j <> candidate /\ claims a p e.
Proof.
  revert k. induction l as [|x l IH]; intros k; cbn [conflict_loop]; [naive_solver|].
  assert (Hrest : (exists j e, l !! j = Some e /\ k + 1 + Z.of_nat j <> candidate /\ claims a p e) <->
    exists j e, (x :: l) !! S j = Some e /\ k + Z.of_nat (S j) <> candidate /\ claims a p e).
  { split; intros (j & e & Hj & Hne & Hc); exists j, e; (split_and!; [done|lia|done]). }
  assert (Hx : forall b : bool, b = false \/ b = true) by (intros []; auto).
  destruct ((k =? candidate) || negb (active x) || negb (bound x) || negb (local_port x =? p)) eqn:Hskip.
  - rewrite IH, Hrest. split; [intros (j & e & H); by exists (S j), e|]. intros ([|j] & e & Hj & Hne & Hc); [|by exists j, e].
    exfalso. injection Hj as ->. destruct Hc as (Ha & Hb & Hp & _). rewrite Ha, Hb in Hskip. lia.
  - apply orb_false_iff in Hskip as [[[Hk Ha]%orb_false_iff Hb]%orb_false_iff Hp]. apply negb_false_iff in Ha, Hb, Hp.
    apply Z.eqb_neq in Hk. apply Z.eqb_eq in Hp.
    destruct ((a =? 0) || (local_address x =? 0) || (a =? local_address x)) eqn:Hm.
    + split; [|done]. intros _. exists 0%nat, x. split_and!; [done|lia|]. split_and!; try done. lia.
    + rewrite IH, Hrest. split; [intros (j & e & H); by exists (S j), e|]. intros ([|j] & e & Hj & Hne & Hc); [|by exists j, e].
      exfalso. injection Hj as ->. destruct Hc as (_ & _ & _ & Hc). lia.
Qed.

Lemma port_after_value p : 49152 <= p <= 65535 -> port_after p = 49152 + (p - 49152 + 1) mod 16384.
Proof.
  intros Hp. unfold port_after. destruct (Z.eqb_spec p 65535) as [->|]; [done|]. rewrite u16_small by lia. rewrite Z.mod_small by lia. lia.
Qed.

(** The ports the search visits. *)
Definition visited (p : Z) (k : nat) : Z := 49152 + (p - 49152 + Z.of_nat k) mod 16384.
Lemma visited_range p k : 49152 <= visited p k <= 65535.
Proof. unfold visited. pose proof (Z.mod_pos_bound (p - 49152 + Z.of_nat k) 16384 ltac:(lia)). lia. Qed.
Lemma visited_next p k : 49152 <= p <= 65535 -> visited (port_after p) k = visited p (S k).
Proof.
  intros Hp. unfold visited. rewrite port_after_value by done. f_equal.
  replace (49152 + (p - 49152 + 1) mod 16384 - 49152 + Z.of_nat k) with ((p - 49152 + 1) mod 16384 + Z.of_nat k) by lia.
  rewrite Z.add_mod_idemp_l by lia. f_equal. lia.
Qed.
Lemma visited_inj p (m n : nat) : Z.of_nat m < 16384 -> Z.of_nat n < 16384 -> visited p m = visited p n -> m = n.
Proof. intros Hm Hn E. unfold visited in E. apply Z.add_reg_l in E. apply Nat2Z.inj, (mod_inj 16384 (p - 49152)); [lia..|exact E]. Qed.

Lemma wp_ephemeral_loop s n i a p (Q : option Z -> net_udp_stack -> Prop) :
  49152 <= p <= 65535 ->
  (forall q, 49152 <= q <= 65535 -> conflict_loop (endpoints s) 0 i a q = false ->
     Q (Some q) (s <| next_ephemeral := port_after q |>)) ->
  ((forall k, (k < n)%nat -> conflict_loop (endpoints s) 0 i a (visited p k) = true) -> Q None s) ->
  wp (ephemeral_loop n i a p) Q s.
Proof.
  revert p. induction n as [|n IH]; intros p Hp HQ1 HQ2; cbn [ephemeral_loop].
  - apply wp_ret, HQ2. lia.
  - apply wp_bind. unfold binding_conflicts. apply wp_gets. destruct (conflict_loop _ _ _ _ p) eqn:Hc; cbn [negb].
    + apply IH; [|done|].
      * rewrite port_after_value by done. pose proof (Z.mod_pos_bound (p - 49152 + 1) 16384 ltac:(lia)). lia.
      * intros Hall. apply HQ2. intros [|k] Hk.
        -- unfold visited. rewrite Z.add_0_r, Z.mod_small by lia. by replace (49152 + (p - 49152)) with p by lia.
        -- rewrite <- visited_next by done. apply Hall. lia.
    + apply wp_bind, wp_modify, wp_ret. by apply HQ1.
Qed.

(** Sixteen endpoints cannot take all the ports: one is found. *)
Lemma wp_choose_ephemeral s i a (Q : option Z -> net_udp_stack -> Prop) :
  stack_ok s ->
  (forall q, 49152 <= q <= 65535 -> conflict_loop (endpoints s) 0 i a q = false ->
     Q (Some q) (s <| next_ephemeral := port_after q |>)) ->
  wp (choose_ephemeral i a) Q s.
Proof.
  intros (Hl & _ & _ & Hp & _) HQ. unfold choose_ephemeral. apply wp_bind, wp_gets.
  rewrite (proj2 (Z.ltb_ge (next_ephemeral s) 49152)) by lia. apply wp_ephemeral_loop; [done|done|]. intros Hall. exfalso.
  assert (Hin : forall q, q ∈ visited (next_ephemeral s) <$> seq 0 17 -> q ∈ local_port <$> endpoints s).
  { intros q (k & -> & Hk%elem_of_seq)%list_elem_of_fmap. specialize (Hall k ltac:(lia)).
    apply conflict_loop_spec in Hall as (j & e & Hj & _ & (_ & _ & <- & _)). apply list_elem_of_fmap. exists e. split; [done|].
    by eapply list_elem_of_lookup_2. }
  assert (Hnd : NoDup (visited (next_ephemeral s) <$> seq 0 17)).
  { apply NoDup_fmap_2_strong; [|apply NoDup_seq]. intros x y Hx%elem_of_seq Hy%elem_of_seq. apply visited_inj; lia. }
  pose proof (submseteq_length _ _ (NoDup_submseteq _ _ Hnd Hin)) as Hlen. rewrite !length_fmap, length_seq in Hlen. lia.
Qed.

(** ** Queues *)

(** The datagrams of the ring, the oldest first. *)
Definition ring (q : list net_udp_queued_datagram) (head count : Z) : list net_udp_queued_datagram :=
  (fun k => default blank_datagram (q !! Z.to_nat ((head + Z.of_nat k) mod 8))) <$> seq 0 (Z.to_nat count).
Definition waiting e : list net_udp_queued_datagram := ring (queue e) (queue_head e) (queue_count e).

Lemma length_ring q head count : 0 <= count -> zlen (ring q head count) = count.
Proof. intros Hc. unfold ring. rewrite length_fmap, length_seq. lia. Qed.

Lemma ring_lookup q head count (k : nat) : Z.of_nat k < count ->
  ring q head count !! k = Some (default blank_datagram (q !! Z.to_nat ((head + Z.of_nat k) mod 8))).
Proof. intros Hk. unfold ring. rewrite list_lookup_fmap, lookup_seq_lt by lia. done. Qed.

Lemma ring_slot head k : 0 <= (head + k) mod 8 < 8.
Proof. apply Z.mod_pos_bound. lia. Qed.

Lemma ring_push q head count x : length q = 8%nat -> 0 <= count < 8 ->
  ring (<[Z.to_nat ((head + count) mod 8) := x]> q) head (count + 1) = ring q head count ++ [x].
Proof.
  intros Hq Hc. apply list_eq. intros k. pose proof (length_ring q head count ltac:(lia)) as Hl.
  destruct (decide (Z.of_nat k < count)) as [Hk|Hk]; [|destruct (decide (Z.of_nat k = count)) as [He|He]].
  - rewrite lookup_app_l by lia. rewrite !ring_lookup by lia. rewrite list_lookup_insert_ne; [done|].
    intros E. pose proof (ring_slot head count). pose proof (ring_slot head (Z.of_nat k)).
    assert (count = Z.of_nat k); [|lia]. apply (mod_inj 8 head); lia.
  - rewrite ring_lookup by lia. rewrite He. pose proof (ring_slot head count). rewrite list_lookup_insert_eq by lia.
    rewrite lookup_app_r by lia. replace (k - length (ring q head count))%nat with 0%nat by lia. done.
  - rewrite !lookup_ge_None_2; [done|rewrite length_app; cbn; lia|].
    pose proof (length_ring (<[Z.to_nat ((head + count) mod 8):=x]> q) head (count + 1) ltac:(lia)). lia.
Qed.

Lemma ring_pop q head count x y : length q = 8%nat -> 0 <= head < 8 -> 0 < count <= 8 -> q !! Z.to_nat head = Some x ->
  ring q head count = x :: ring (<[Z.to_nat head := y]> q) ((head + 1) mod 8) (count - 1).
Proof.
  intros Hq Hh Hc Hx. apply list_eq. intros [|k].
  - rewrite ring_lookup by lia. rewrite Z.add_0_r, Z.mod_small, Hx by lia. done.
  - cbn [lookup list_lookup]. destruct (decide (Z.of_nat (S k) < count)) as [Hk|Hk].
    + change (ring q head count !! S k = ring (<[Z.to_nat head:=y]> q) ((head + 1) mod 8) (count - 1) !! k).
      rewrite !ring_lookup by lia. rewrite Z.add_mod_idemp_l by lia.
      replace (head + 1 + Z.of_nat k) with (head + Z.of_nat (S k)) by lia. rewrite list_lookup_insert_ne; [done|].
      intros E. pose proof (ring_slot head (Z.of_nat (S k))).
      assert (0 = Z.of_nat (S k)); [|lia]. apply (mod_inj 8 head); [lia|lia|lia|]. rewrite Z.add_0_r, Z.mod_small by lia. lia.
    + pose proof (length_ring q head count ltac:(lia)).
      pose proof (length_ring (<[Z.to_nat head:=y]> q) ((head + 1) mod 8) (count - 1) ltac:(lia)).
      change (ring q head count !! S k = ring (<[Z.to_nat head:=y]> q) ((head + 1) mod 8) (count - 1) !! k).
      rewrite !lookup_ge_None_2 by lia. done.
Qed.

(** ** The checksum *)

(** The pseudo header. *)
Definition pseudo (source destination n : Z) : list Z :=
  ip_bytes (net_ipv4_addr_from_u32 source) ++ ip_bytes (net_ipv4_addr_from_u32 destination) ++ [0; 17] ++ be16 n.

Lemma pseudo_sum source destination n : is_u32 source -> is_u32 destination -> is_u16 n ->
  wsum (pseudo source destination n) =
  Z.land (Z.shiftr source 16) 0xffff + Z.land source 0xffff + Z.land (Z.shiftr destination 16) 0xffff +
  Z.land destination 0xffff + 17 + n.
Proof.
  intros Hs Hd Hn. change 0xffff with (2 ^ 16 - 1). rewrite !land_mask, !Z.shiftr_div_pow2 by lia.
  unfold pseudo, net_ipv4_addr_from_u32, be16, u8. cbn. rewrite !Z.shiftr_div_pow2 by lia. zdiv.
Qed.

Lemma pseudo_bytes source destination n : bytes_ok (pseudo source destination n).
Proof.
  unfold pseudo. repeat (apply Forall_app_2 || apply from_u32_ok || apply be16_bytes). by apply (bool_decide_unpack _).
Qed.

Lemma pair_sum_nonneg l : bytes_ok l -> 0 <= pair_sum l.
Proof.
  induction l as [|a|a b l IH] using list_pair_ind; intros Hb; cbn; [done..|].
  apply Forall_cons_1 in Hb as [Ha [Hb Hl]%Forall_cons_1]. specialize (IH Hl). lia.
Qed.

Lemma rd_app_l {A} (l l' : list A) i : i < zlen l -> rd (l ++ l') i = rd l i.
Proof. intros Hi. unfold rd. destruct (Z.leb_spec 0 i); [|done]. rewrite lookup_app_l by lia. done. Qed.
Lemma sum_words_front l l' fuel i (x : Z) : sum_words fuel (l ++ l') (zlen l) i x = sum_words fuel l (zlen l) i x.
Proof.
  revert i x. induction fuel as [|fuel IH]; intros i x; cbn [sum_words]; [done|].
  destruct (Z.ltb_spec (i + 1) (zlen l)); [|done]. rewrite !rd_app_l by lia.
  destruct (rd l i); [|done]. destruct (rd l (i + 1)); [|done]. apply IH.
Qed.

(** The loop over the segment, and the last byte of an odd one. *)
Lemma segment_sum l l' n (x : Z) : bytes_ok l -> zlen l = n -> 0 <= x -> x + wsum l < 2 ^ 32 ->
  ('(j, y) ← sum_words (Z.to_nat n) (l ++ l') n 0 x;
   (if j <? n then b ← rd (l ++ l') j; Some (u32 (y + Z.shiftl b 8)) else Some y)) = Some (x + wsum l).
Proof.
  intros Hb <- Hs Hw. rewrite Nat2Z.id, sum_words_front. pose proof (wsum_bound l Hb) as Hwb. pose proof (wsum_pairs l) as Hp.
  pose proof (pair_sum_nonneg l Hb) as Hpos.
  assert (Htail : 0 <= from_option (fun a => a * 256) 0 (odd_tail l)).
  { destruct (odd_tail l) as [a|] eqn:Ho; cbn; [|lia]. apply odd_tail_last, rd_lookup in Ho as [_ Ho].
    pose proof (Forall_lookup_1 _ _ _ _ Hb Ho). cbn in *. lia. }
  pose proof (sum_words_spec l (length l) [] x ltac:(lia) Hb ltac:(lia)) as E. cbn [app] in E. change (zlen []) with 0 in E. rewrite E. clear E.
  cbn [mbind option_bind]. destruct (odd_tail l) as [a|] eqn:Ho; cbn in Hp, Htail.
  - rewrite (proj2 (Z.ltb_lt _ _)) by lia. rewrite rd_app_l, (odd_tail_last _ _ Ho) by lia. cbn [mbind option_bind].
    rewrite (u32_small (x + pair_sum l)) by lia.
    rewrite Z.shiftl_mul_pow2 by lia. rewrite u32_small by lia. f_equal. lia.
  - rewrite (proj2 (Z.ltb_ge _ _)) by lia. rewrite u32_small by lia. f_equal. lia.
Qed.

(** The checksum of RFC 768 is the Internet checksum over the pseudo header and
    the segment. *)
Lemma udp_checksum_spec source destination l l' n :
  is_u32 source -> is_u32 destination -> bytes_ok l -> zlen l = n -> n < 2 ^ 16 ->
  net_udp_checksum_ipv4 source destination (Some (l ++ l')) n = Some (rfc1071 (pseudo source destination n ++ l)).
Proof.
  intros Hs Hd Hb Hl Hn. unfold net_udp_checksum_ipv4. cbn [is_null andb orb]. rewrite (proj2 (Z.ltb_ge 65535 n)) by lia.
  pose proof (pseudo_sum source destination n Hs Hd ltac:(lia)) as Hps. change (default [] (Some (l ++ l'))) with (l ++ l').
  assert (Hr : forall v, is_u32 v -> 0 <= Z.land v 0xffff <= 65535).
  { intros v Hv. change 0xffff with (2 ^ 16 - 1). rewrite land_mask by lia. pose proof (Z.mod_pos_bound v (2 ^ 16) ltac:(lia)). lia. }
  assert (Hsh : forall v, is_u32 v -> is_u32 (Z.shiftr v 16)) by (intros v Hv; rewrite Z.shiftr_div_pow2 by lia; zdiv).
  pose proof (Hr source Hs). pose proof (Hr destination Hd). pose proof (Hr _ (Hsh source Hs)). pose proof (Hr _ (Hsh destination Hd)).
  rewrite Z.add_0_l.
  repeat match goal with |- context [u32 ?x] =>
    lazymatch x with context [u32 _] => fail | _ => rewrite (u32_small x) by lia end end.
  rewrite <- Hps. pose proof (wsum_bound l Hb) as Hw. pose proof (wsum_bound _ (pseudo_bytes source destination n)) as Hw'.
  assert (Hlen : zlen (pseudo source destination n) = 12) by done.
  assert (Htot : wsum (pseudo source destination n) + wsum l < 2 ^ 32) by zdiv.
  pose proof (segment_sum l l' n (wsum (pseudo source destination n)) Hb Hl ltac:(lia) Htot) as E.
  assert (Ed : odd_tail (pseudo source destination n) = None) by done.
  rewrite rfc1071_norm by (apply Forall_app_2; [apply pseudo_bytes|done]). rewrite wsum_even by done.
  destruct (sum_words (Z.to_nat n) (l ++ l') n 0 (wsum (pseudo source destination n))) as [[j y]|]; [|done].
  rewrite some_bind in E |- *. rewrite E, some_bind. set (total := wsum (pseudo source destination n) + wsum l) in *.
  rewrite fold_sum_spec, some_bind by lia. pose proof (norm_range total ltac:(lia)) as Hnorm. f_equal.
  change 0xffff with (2 ^ 16 - 1). rewrite land_mask by lia. unfold Z.lnot.
  rewrite u16_small by (apply Z.mod_pos_bound; lia). replace (Z.pred (- norm total)) with (65535 - norm total + (-1) * 2 ^ 16) by lia.
  rewrite Z.mod_add by lia. apply Z.mod_small. lia.
Qed.
