(* ===== verification/UdpSockets.v ===== *)
(** * Sockets, the contract of UDP

    What the callers of kernel/net/net_udp.c see is a set of sockets, each with
    an address it may be bound to and an inbox.  Every operation of the stack is
    a step of this machine. *)

From S2P Require Import Prelude Errno NetTypes NetSum Net NetBytes NetProps NetSafe NetSafeIp Udp UdpProps.

(** ** The abstract machine *)

Record message := mk_message { from : net_udp_address; to : Z; body : list Z }.
Record socket := mk_socket { bound_to : option net_udp_address; inbox : list message }.
Abbreviation sockets := (gmap Z socket).

(** An address and a port that no other socket's binding overlaps; an address of
    zero stands for all. *)
Definition overlaps (a a' : Z) : Prop := a = 0 \/ a' = 0 \/ a = a'.
Definition free (m : sockets) (h a p : Z) : Prop :=
  forall h' k l, m !! h' = Some k -> h' <> h -> bound_to k = Some l -> u_port l = p -> ~ overlaps a (u_address l).
(** The socket a datagram is for. *)
Definition takes (k : socket) (a p : Z) : Prop :=
  exists l, bound_to k = Some l /\ u_port l = p /\ (u_address l = 0 \/ u_address l = a).

(** What a segment carries: its ports and data, when its length field and its
    checksum are right; [lax] accepts segments without a checksum. *)
Definition udp_parse (lax : bool) (source destination : Z) (l : list Z) : option (Z * Z * list Z) :=
  match l with
  | s1 :: s0 :: d1 :: d0 :: n1 :: n0 :: c1 :: c0 :: data =>
    if (n1 * 256 + n0 =? zlen l) && (zlen data <=? 1472) &&
       (if c1 * 256 + c0 =? 0 then lax else rfc1071 (pseudo source destination (zlen l) ++ l) =? 0)
    then Some (s1 * 256 + s0, d1 * 256 + d0, data) else None
  | _ => None
  end.

Inductive event :=
| Open (notify : option Z) (context : Z) | Close (h : Z) | Bind (h a p : Z) | GetLocal (h : Z) | Pending (h : Z)
| RecvFrom (h : Z) (buffer : list Z) | SendTo (h a p : Z) (data : list Z) | Arrive (source destination : Z) (segment : list Z)
| SetLocal (a : Z).
Inductive answer :=
| Done | Code (r : Z) | Handle (h : Z) | Local (l : net_udp_address) | Count (n : Z) | Needs (n : Z) | Data (buffer : list Z) (n : Z) (l : net_udp_address).

Definition handle_of (c : event) : option Z :=
  match c with
  | Close h | Bind h _ _ | GetLocal h | Pending h | RecvFrom h _ | SendTo h _ _ _ => Some h
  | Open _ _ | Arrive _ _ _ | SetLocal _ => None
  end.

(** The socket [h], bound if it is not yet. *)
Inductive bound_socket (m : sockets) (h a p : Z) (k : socket) : socket -> Prop :=
| bound_exactly : p <> 0 -> free m h a p -> bound_socket m h a p k (mk_socket (Some (mk_udp_address a p)) (inbox k))
| bound_somewhere q : p = 0 -> 49152 <= q <= 65535 -> free m h a q ->
    bound_socket m h a p k (mk_socket (Some (mk_udp_address a q)) (inbox k)).

Inductive step (lax : bool) (m : sockets) : event -> answer -> sockets -> Prop :=
| step_refused c h : handle_of c = Some h -> m !! h = None -> step lax m c (Code NET_UDP_ERR_BAD_HANDLE) m
| step_open f x h : m !! h = None -> (size m < 16)%nat -> step lax m (Open f x) (Handle h) (<[h := mk_socket None []]> m)
| step_open_full f x : (size m = 16)%nat -> step lax m (Open f x) (Code NET_UDP_ERR_NO_SLOT) m
| step_close h k : m !! h = Some k -> step lax m (Close h) (Code NET_UDP_OK) (delete h m)
| step_bind h a p k k' : m !! h = Some k -> bound_to k = None -> bound_socket m h a p k k' ->
    step lax m (Bind h a p) (Code NET_UDP_OK) (<[h := k']> m)
| step_bind_again h a p k l : m !! h = Some k -> bound_to k = Some l -> step lax m (Bind h a p) (Code NET_UDP_ERR_INVALID) m
| step_bind_taken h a p k : m !! h = Some k -> bound_to k = None -> p <> 0 -> ~ free m h a p ->
    step lax m (Bind h a p) (Code NET_UDP_ERR_ADDRESS_IN_USE) m
| step_local h k l : m !! h = Some k -> bound_to k = Some l -> step lax m (GetLocal h) (Local l) m
| step_local_none h k : m !! h = Some k -> bound_to k = None -> step lax m (GetLocal h) (Code NET_UDP_ERR_NOT_BOUND) m
| step_pending h k : m !! h = Some k -> step lax m (Pending h) (Count (zlen (inbox k))) m
| step_receive h k x l buffer : m !! h = Some k -> inbox k = x :: l -> zlen (body x) <= zlen buffer ->
    step lax m (RecvFrom h buffer) (Data (body x ++ drop (length (body x)) buffer) (zlen (body x)) (from x))
      (<[h := mk_socket (bound_to k) l]> m)
| step_receive_empty h k buffer : m !! h = Some k -> inbox k = [] -> step lax m (RecvFrom h buffer) (Code NET_UDP_ERR_WOULD_BLOCK) m
| step_receive_small h k x l buffer : m !! h = Some k -> inbox k = x :: l -> zlen buffer < zlen (body x) ->
    step lax m (RecvFrom h buffer) (Needs (zlen (body x))) m
| step_send_invalid h a p data k : m !! h = Some k -> a = 0 \/ p = 0 -> step lax m (SendTo h a p data) (Code NET_UDP_ERR_INVALID) m
| step_send_large h a p data k : m !! h = Some k -> a <> 0 -> p <> 0 -> 1472 < zlen data ->
    step lax m (SendTo h a p data) (Code NET_UDP_ERR_MESSAGE_TOO_LARGE) m
| step_send h a p data k l r : m !! h = Some k -> bound_to k = Some l -> a <> 0 -> p <> 0 -> zlen data <= 1472 ->
    step lax m (SendTo h a p data) (Code r) m
| step_send_binds h a p data k k' r : m !! h = Some k -> bound_to k = None -> bound_socket m h 0 0 k k' ->
    a <> 0 -> p <> 0 -> zlen data <= 1472 -> step lax m (SendTo h a p data) (Code r) (<[h := k']> m)
| step_arrive a b l h k sp p data : udp_parse lax a b l = Some (sp, p, data) -> m !! h = Some k -> takes k b p ->
    (length (inbox k) < 8)%nat -> step lax m (Arrive a b l) (Code NET_UDP_OK)
      (<[h := mk_socket (bound_to k) (inbox k ++ [mk_message (mk_udp_address a sp) b data])]> m)
| step_arrive_full a b l h k sp p data : udp_parse lax a b l = Some (sp, p, data) -> m !! h = Some k -> takes k b p ->
    length (inbox k) = 8%nat -> step lax m (Arrive a b l) (Code NET_UDP_ERR_QUEUE_FULL) m
| step_arrive_nobody a b l sp p data : udp_parse lax a b l = Some (sp, p, data) -> (forall h k, m !! h = Some k -> ~ takes k b p) ->
    step lax m (Arrive a b l) (Code NET_UDP_ERR_NO_ENDPOINT) m
| step_arrive_bad a b l r : udp_parse lax a b l = None ->
    r ∈ [NET_UDP_ERR_BAD_LENGTH; NET_UDP_ERR_MESSAGE_TOO_LARGE; NET_UDP_ERR_BAD_CHECKSUM] -> step lax m (Arrive a b l) (Code r) m
| step_set_local a : step lax m (SetLocal a) Done m.

(** ** The sockets of a stack *)

Definition message_of (d : net_udp_queued_datagram) : message :=
  mk_message (q_source d) (q_destination d) (take (Z.to_nat (q_length d)) (q_payload d)).
Definition socket_of (e : net_udp_endpoint) : socket :=
  mk_socket (if bound e then Some (mk_udp_address (local_address e) (local_port e)) else None) (message_of <$> waiting e).

Implicit Types (s t : net_udp_stack) (e : net_udp_endpoint) (stack handle i : Z) (m : sockets).

Definition view s m : Prop := forall h k, m !! h = Some k <-> exists i e, names s h i e /\ k = socket_of e.

Lemma view_same s t m : endpoints t = endpoints s -> view s m -> view t m.
Proof. intros E Hv h k. unfold names. rewrite E. apply Hv. Qed.
Lemma view_named s m h i e : view s m -> names s h i e -> m !! h = Some (socket_of e).
Proof. intros Hv Hn. apply Hv. eauto. Qed.
Lemma view_none s m h : view s m -> (forall i e, ~ names s h i e) -> m !! h = None.
Proof. intros Hv Hn. destruct (m !! h) as [k|] eqn:Hk; [|done]. apply Hv in Hk as (i & e & Hne & _). by destruct (Hn i e). Qed.

(** Replacing an endpoint. *)
Definition put s i e : net_udp_stack := s <| endpoints := <[Z.to_nat i := e]> (endpoints s) |>.

Lemma names_put s i e0 e h j e' : rd (endpoints s) i = Some e0 ->
  names (put s i e) h j e' <-> (j = i /\ e' = e /\ active e = true /\ h = make_handle i (generation e)) \/ (j <> i /\ names s h j e').
Proof.
  intros Hi. pose proof (rd_range _ _ _ Hi) as Hr. unfold names. change (endpoints (put s i e)) with (<[Z.to_nat i := e]> (endpoints s)). destruct (decide (j = i)) as [->|Hne].
  - rewrite rd_insert_eq by lia. naive_solver.
  - rewrite rd_insert_ne by lia. naive_solver.
Qed.

Lemma view_put s m i e0 e : stack_ok s -> view s m -> rd (endpoints s) i = Some e0 -> 1 <= generation e < 2 ^ 20 -> active e = true ->
  (active e0 = true -> generation e = generation e0) -> view (put s i e) (<[make_handle i (generation e) := socket_of e]> m).
Proof.
  intros Hok Hv Hi Hg Ha Hsame h k. pose proof (rd_range _ _ _ Hi) as Hr. pose proof Hok as (Hl & _). rewrite lookup_insert_Some. split.
  - intros [[<- <-]|[Hne Hk]].
    + exists i, e. split; [|done]. apply (names_put s i e0 e _ _ _ Hi). by left.
    + apply Hv in Hk as (j & e' & Hn & ->). exists j, e'. split; [|done]. apply (names_put s i e0 e _ _ _ Hi). right. split; [|done].
      intros ->. destruct Hn as (Hj & Ha' & ->). simplify_eq. by rewrite Hsame in Hne.
  - intros (j & e' & Hn & ->). apply (names_put s i e0 e _ _ _ Hi) in Hn as [(-> & -> & _ & ->)|[Hne Hn]]; [by left|]. right. split.
    + destruct (names_range s h j e' Hok Hn) as (Hj & (Hg' & _)). destruct Hn as (_ & _ & ->). intros Eh.
      apply make_handle_inj in Eh as [? _]; [done|lia..].
    + by eapply view_named.
Qed.

Lemma view_remove s m i e0 e : stack_ok s -> view s m -> rd (endpoints s) i = Some e0 -> active e0 = true -> active e = false ->
  view (put s i e) (delete (make_handle i (generation e0)) m).
Proof.
  intros Hok Hv Hi Ha0 Ha h k. rewrite lookup_delete_Some.
  assert (Hn0 : names s (make_handle i (generation e0)) i e0) by done. split.
  - intros [Hne Hk]. apply Hv in Hk as (j & e' & Hn & ->). exists j, e'. split; [|done]. apply (names_put s i e0 e _ _ _ Hi). right. split; [|done].
    intros ->. destruct Hn as (Hj & _ & ->). by simplify_eq.
  - intros (j & e' & Hn & ->). apply (names_put s i e0 e _ _ _ Hi) in Hn as [(-> & -> & ? & _)|[Hne Hn]]; [congruence|]. split.
    + intros <-. by destruct (names_unique s _ _ _ _ _ Hok Hn Hn0).
    + by eapply view_named.
Qed.

Lemma put_ok s i e : stack_ok s -> endpoint_ok e ->
  (forall j e', endpoints s !! j = Some e' -> j <> Z.to_nat i -> ~ rivals e' e) -> stack_ok (put s i e).
Proof.
  intros (Hl & Hf & Hu & Hp & Ha) He Hr. split; [|split; [|split; [|done]]]; cbn.
  - by rewrite length_insert.
  - by apply Forall_insert.
  - apply unique_insert; [apply _|done|exact Hr].
Qed.
(** Any change that keeps the binding. *)
Lemma put_same s i e0 e : stack_ok s -> rd (endpoints s) i = Some e0 -> endpoint_ok e ->
  (active e = true -> bound e = true -> active e0 = true /\ bound e0 = true /\ local_address e = local_address e0 /\ local_port e = local_port e0) ->
  stack_ok (put s i e).
Proof.
  intros Hok Hi He Hs. apply put_ok; [done|done|]. intros j e' Hj Hne Hriv. apply rd_lookup in Hi as [Hi0 Hi]. destruct Hok as (_ & _ & Hu & _).
  apply Hne, (Hu j (Z.to_nat i) e' e0 Hj Hi). destruct Hriv as (H1 & H2 & H3 & H4 & H5 & H6).
  destruct (Hs H3 H4) as (? & ? & Ea & Ep). unfold rivals, claims. rewrite <- Ea, <- Ep. by split_and!.
Qed.

(** ** Opening and closing *)

Definition handles s : list Z := imap (fun k e => make_handle (Z.of_nat k) (generation e)) (endpoints s).

Lemma handles_lookup s k h : handles s !! k = Some h <-> exists e, endpoints s !! k = Some e /\ h = make_handle (Z.of_nat k) (generation e).
Proof. unfold handles. rewrite list_lookup_imap. destruct (endpoints s !! k); cbn; naive_solver. Qed.
Lemma handles_nodup s : stack_ok s -> NoDup (handles s).
Proof.
  intros (Hl & Hf & _). apply NoDup_alt. intros j k h (e & Hj & ->)%handles_lookup (e' & Hk & Eh)%handles_lookup.
  pose proof (lookup_lt_Some _ _ _ Hj). pose proof (lookup_lt_Some _ _ _ Hk).
  destruct (Forall_lookup_1 _ _ _ _ Hf Hj) as (Hg & _). destruct (Forall_lookup_1 _ _ _ _ Hf Hk) as (Hg' & _).
  apply make_handle_inj in Eh as [? _]; lia.
Qed.
Lemma names_handles s h i e : names s h i e -> h ∈ handles s.
Proof.
  intros (Hi & _ & ->). apply rd_lookup in Hi as [Hi0 Hi]. apply list_elem_of_lookup_2 with (Z.to_nat i).
  apply handles_lookup. exists e. by rewrite Z2Nat.id.
Qed.

Lemma size_handles s : stack_ok s -> size (list_to_set (C := gset Z) (handles s)) = 16%nat.
Proof. intros Hok. rewrite size_list_to_set by by apply handles_nodup. unfold handles. rewrite length_imap. apply Hok. Qed.
Lemma view_dom s m : view s m -> dom m ⊆ list_to_set (C := gset Z) (handles s).
Proof.
  intros Hv h [k Hk]%elem_of_dom. apply Hv in Hk as (i & e & Hn & _). apply elem_of_list_to_set. by eapply names_handles.
Qed.
Lemma view_size s m : stack_ok s -> view s m -> (size m <= 16)%nat.
Proof. intros Hok Hv. rewrite <- (size_handles s Hok), <- size_dom. by apply subseteq_size, view_dom. Qed.
Lemma view_full s m : stack_ok s -> view s m -> (forall k e, endpoints s !! k = Some e -> active e = true) -> size m = 16%nat.
Proof.
  intros Hok Hv Hall. rewrite <- (size_handles s Hok), <- size_dom. apply set_size_proper. intros h. split; [by apply view_dom|].
  intros (k & Hk)%elem_of_list_to_set%list_elem_of_lookup. apply handles_lookup in Hk as (e & Hk & ->).
  apply elem_of_dom. exists (socket_of e). apply Hv. exists (Z.of_nat k), e. split; [|done].
  split; [apply rd_lookup; by rewrite Nat2Z.id; split; [lia|]|]. split; [by eapply Hall|done].
Qed.

Lemma blank_waiting e : queue_count e = 0 -> waiting e = [].
Proof. intros E. unfold waiting, ring. by rewrite E. Qed.
Lemma blank_endpoint_ok g : 1 <= g < 2 ^ 20 -> endpoint_ok (blank_endpoint g).
Proof.
  intros Hg. assert (Hq : Forall queued_ok (queue (blank_endpoint g))).
  { apply Forall_replicate. do 5 (split; [done|]). by apply Forall_replicate. }
  split; [done|]. do 2 (split; [done|]). split; [done|]. split; [exact Hq|]. by split.
Qed.

Definition opened (g : Z) (f : option Z) (context : Z) : net_udp_endpoint :=
  (blank_endpoint 0) <| generation := g |> <| active := true |> <| notify := f |> <| notify_context := context |>.
Lemma opened_ok g f context : 1 <= g < 2 ^ 20 -> endpoint_ok (opened g f context).
Proof. intros Hg. exact (blank_endpoint_ok g Hg). Qed.

Lemma wp_open lax s m stack f context (Q : Z * option Z -> net_udp_stack -> Prop) :
  stack_ok s -> view s m -> stack <> NULL ->
  (forall i e g, rd (endpoints s) i = Some e -> active e = false -> g = generation e -> m !! make_handle i g = None ->
     step lax m (Open f context) (Handle (make_handle i g)) (<[make_handle i g := mk_socket None []]> m) ->
     let t := put s i (opened g f context) in stack_ok t -> view t (<[make_handle i g := mk_socket None []]> m) ->
     Q (NET_UDP_OK, Some (make_handle i g)) t) ->
  (step lax m (Open f context) (Code NET_UDP_ERR_NO_SLOT) m -> Q (NET_UDP_ERR_NO_SLOT, None) s) ->
  wp (net_udp_open stack f context true) Q s.
Proof.
  intros Hok Hv Hn HQ1 HQ2. unfold net_udp_open. rewrite (proj2 (Z.eqb_neq stack NULL)) by done. cbn [orb negb].
  apply wp_bind, wp_gets. destruct (scan _ _ _) as [i|] eqn:Hscan.
  - apply scan_some in Hscan as (e & Hi & Ha%negb_true_iff). apply wp_bind. eapply wp_elem; [exact Hi|].
    pose proof (rd_range _ _ _ Hi) as Hr. destruct (endpoint_rd s i Hok) as (e' & Hi' & (Hg & _)); [destruct Hok; lia|].
    rewrite Hi in Hi'. injection Hi' as <-.
    rewrite (proj2 (Z.eqb_neq (generation e) 0)) by lia. apply wp_bind. eapply wp_update; [exact Hi|]. apply wp_ret.
    assert (Hnone : m !! make_handle i (generation e) = None).
    { apply (view_none s m _ Hv). intros j e2 Hne. destruct (names_range s _ _ _ Hok Hne) as (Hj & (Hge & _)). destruct Hne as (Hj' & Ha' & Eh).
      apply make_handle_inj in Eh as [-> _]; [|destruct Hok; lia..]. congruence. }
    set (x := opened (generation e) f context).
    assert (Hok' : stack_ok (put s i x)) by (eapply put_same; [done|exact Hi|by apply opened_ok|by intros _ ?]).
    assert (Hv' : view (put s i x) (<[make_handle i (generation e) := mk_socket None []]> m)).
    { pose proof (view_put s m i e x Hok Hv Hi) as Hput. by apply Hput. }
    apply (HQ1 i e (generation e)); try done. apply step_open; [done|]. pose proof (view_size _ _ Hok' Hv') as Hsz.
    rewrite map_size_insert_None in Hsz by done. lia.
  - apply wp_ret, HQ2, step_open_full, (view_full s); [done|done|]. intros k e Hk.
    pose proof (scan_none _ _ _ _ Hscan Hk) as Hx. cbn in Hx. by apply negb_false_iff in Hx.
Qed.

Lemma wp_close lax s m stack handle (Q : Z -> net_udp_stack -> Prop) :
  stack_ok s -> view s m -> stack <> NULL -> is_u32 handle ->
  (forall i e, names s handle i e -> step lax m (Close handle) (Code NET_UDP_OK) (delete handle m) ->
     let t := put s i (blank_endpoint (next_generation (generation e))) in stack_ok t -> view t (delete handle m) -> Q NET_UDP_OK t) ->
  (m !! handle = None -> Q NET_UDP_ERR_BAD_HANDLE s) -> wp (net_udp_close stack handle) Q s.
Proof.
  intros Hok Hv Hn Hh HQ1 HQ2. unfold net_udp_close. apply wp_bind, wp_lookup_endpoint; [done..| |].
  - intros i e Hne. pose proof Hne as (Hi & Ha & Eh). destruct (names_range s _ _ _ Hok Hne) as (_ & (Hg & _)).
    apply wp_bind. eapply wp_elem; [exact Hi|]. apply wp_bind. eapply wp_update; [exact Hi|]. apply wp_ret.
    assert (Hb : endpoint_ok (blank_endpoint (next_generation (generation e)))) by (apply blank_endpoint_ok, next_generation_range; lia).
    apply (HQ1 i e Hne); [eapply step_close, view_named; [done|exact Hne]|by eapply put_same|].
    rewrite Eh. by eapply view_remove.
  - intros Hno. apply wp_ret, HQ2. by eapply view_none.
Qed.

(** ** Binding *)

Lemma free_port_spec s m h i e a p : stack_ok s -> view s m -> names s h i e ->
  conflict_loop (endpoints s) 0 i a p = false <-> free m h a p.
Proof.
  intros Hok Hv Hn. rewrite <- not_true_iff_false, conflict_loop_spec. split.
  - intros Hno h' k l Hk Hne Hl Hp Ho. apply Hv in Hk as (j & e' & Hn' & ->). apply Hno. pose proof Hn' as (Hj & Ha & _).
    cbn in Hl. destruct (bound e') eqn:Hb; [|done]. simplify_eq. apply rd_lookup in Hj as [Hj0 Hj].
    exists (Z.to_nat j), e'. split; [done|]. split; [|by split_and!]. intros Ei. assert (i = j) as -> by lia.
    destruct Hn as (Hi & _ & ->), Hn' as (Hi' & _ & ->). simplify_eq.
  - intros Hf (j & e' & Hj & Hne & (Ha & Hb & Hp & Ho)).
    assert (Hn' : names s (make_handle (Z.of_nat j) (generation e')) (Z.of_nat j) e').
    { split; [|done]. apply rd_lookup. by rewrite Nat2Z.id; split; [lia|]. }
    apply (Hf _ (socket_of e') (mk_udp_address (local_address e') (local_port e')) (view_named s m _ _ _ Hv Hn')); [|by cbn; rewrite Hb|done|done].
    intros Eh. apply Hne. rewrite Eh in Hn'. by destruct (names_unique s _ _ _ _ _ Hok Hn' Hn).
Qed.

Definition bound_at e (a p : Z) : net_udp_endpoint := e <| local_address := a |> <| local_port := p |> <| bound := true |>.

(** A binding that does not conflict. *)
Lemma bind_ok s m h i e a p : stack_ok s -> view s m -> names s h i e -> is_u32 a -> 1 <= p < 2 ^ 16 ->
  conflict_loop (endpoints s) 0 i a p = false ->
  stack_ok (put s i (bound_at e a p)) /\
  view (put s i (bound_at e a p)) (<[h := mk_socket (Some (mk_udp_address a p)) (inbox (socket_of e))]> m).
Proof.
  intros Hok Hv Hn Ha Hp Hc. pose proof Hn as (Hi & Hact & Eh). destruct (names_range s _ _ _ Hok Hn) as (Hr & He). split.
  - apply put_ok; [done| |].
    + destruct He as (H1 & H2 & H3 & H4 & H5 & _). exact (conj H1 (conj H2 (conj H3 (conj H4 (conj H5 (conj Ha (fun _ => Hp))))))).
    + intros j e' Hj Hne Hriv. symmetry in Hriv. destruct Hriv as (_ & _ & Hcl).
      assert (conflict_loop (endpoints s) 0 i a p = true); [|congruence].
      apply conflict_loop_spec. exists j, e'. split_and!; [done|lia|exact Hcl].
  - rewrite Eh. destruct He as (Hg & _). exact (view_put s m i e (bound_at e a p) Hok Hv Hi Hg Hact (fun _ => eq_refl)).
Qed.

Lemma socket_unbound e : bound e = false -> bound_to (socket_of e) = None.
Proof. intros Hb. cbn. by rewrite Hb. Qed.
Lemma socket_bound e : bound e = true -> bound_to (socket_of e) = Some (mk_udp_address (local_address e) (local_port e)).
Proof. intros Hb. cbn. by rewrite Hb. Qed.

Lemma wp_bind_socket s m stack handle a p (Q : Z -> net_udp_stack -> Prop) :
  stack_ok s -> view s m -> stack <> NULL -> is_u32 handle -> is_u32 a -> is_u16 p ->
  (m !! handle = None -> Q NET_UDP_ERR_BAD_HANDLE s) ->
  (forall k l, m !! handle = Some k -> bound_to k = Some l -> Q NET_UDP_ERR_INVALID s) ->
  (forall k, m !! handle = Some k -> bound_to k = None -> p <> 0 -> ~ free m handle a p -> Q NET_UDP_ERR_ADDRESS_IN_USE s) ->
  (forall i e q t, names s handle i e -> bound e = false -> 1 <= q < 2 ^ 16 ->
     bound_socket m handle a p (socket_of e) (socket_of (bound_at e a q)) -> stack_ok t ->
     config t = config s -> stats t = stats s -> endpoints t = endpoints (put s i (bound_at e a q)) ->
     view t (<[handle := socket_of (bound_at e a q)]> m) -> Q NET_UDP_OK t) ->
  wp (net_udp_bind stack handle a p) Q s.
Proof.
  intros Hok Hv Hnull Hh Ha Hp HQ1 HQ2 HQ3 HQ4. unfold net_udp_bind. apply wp_bind, wp_lookup_endpoint; [done..| |].
  2: { intros Hno. apply wp_ret, HQ1. by eapply view_none. }
  intros i e Hn. pose proof Hn as (Hi & _). pose proof (view_named s m _ _ _ Hv Hn) as Hk. apply wp_bind. eapply wp_elem; [exact Hi|].
  destruct (bound e) eqn:Hb; [apply wp_ret; by eapply HQ2, socket_bound|]. apply wp_bind.
  destruct (Z.eqb_spec p 0) as [->|Hp0].
  - apply wp_choose_ephemeral; [done|]. intros q Hq Hc. apply wp_bind. eapply wp_update; [exact Hi|]. apply wp_ret.
    destruct (bind_ok s m handle i e a q Hok Hv Hn Ha ltac:(lia) Hc) as [Hok' Hv'].
    apply (HQ4 i e q); [done|done|lia|apply bound_somewhere; [done|done|by apply (free_port_spec s m handle i e a q)]| |done|done|done|exact Hv'].
    destruct Hok' as (H1 & H2 & H3 & _ & H5). split; [done|]. split; [done|]. split; [done|]. split; [|done]. cbn.
    rewrite port_after_value by done. pose proof (Z.mod_pos_bound (q - 49152 + 1) 16384 ltac:(lia)). lia.
  - apply wp_bind. unfold binding_conflicts. apply wp_gets, wp_ret. destruct (conflict_loop _ _ _ _ p) eqn:Hc.
    + apply wp_ret. eapply HQ3; [exact Hk|by apply socket_unbound|done|]. intros Hf. apply (free_port_spec s m handle i e a p Hok Hv Hn) in Hf. congruence.
    + destruct (bind_ok s m handle i e a p Hok Hv Hn Ha ltac:(lia) Hc) as [Hok' Hv'].
      apply wp_bind. eapply wp_update; [exact Hi|]. apply wp_ret.
      apply (HQ4 i e p); [done|done|lia|apply bound_exactly; [done|by apply (free_port_spec s m handle i e a p)]|exact Hok'|done|done|done|exact Hv'].
Qed.

(** ** Asking *)

Lemma wp_get_local lax s m stack handle (Q : Z * option net_udp_address -> net_udp_stack -> Prop) :
  stack_ok s -> view s m -> stack <> NULL -> is_u32 handle ->
  (m !! handle = None -> Q (NET_UDP_ERR_BAD_HANDLE, None) s) ->
  (forall l, step lax m (GetLocal handle) (Local l) m -> Q (NET_UDP_OK, Some l) s) ->
  (step lax m (GetLocal handle) (Code NET_UDP_ERR_NOT_BOUND) m -> Q (NET_UDP_ERR_NOT_BOUND, None) s) ->
  wp (net_udp_get_local stack handle true) Q s.
Proof.
  intros Hok Hv Hnull Hh HQ1 HQ2 HQ3. unfold net_udp_get_local. apply wp_bind, wp_lookup_endpoint; [done..| |].
  2: { intros Hno. apply wp_ret, HQ1. by eapply view_none. }
  intros i e Hn. pose proof Hn as (Hi & _). pose proof (view_named s m _ _ _ Hv Hn) as Hk. cbn [negb]. apply wp_bind. eapply wp_elem; [exact Hi|].
  destruct (bound e) eqn:Hb; cbn [negb]; apply wp_ret.
  - apply HQ2. eapply step_local; [exact Hk|by apply socket_bound].
  - apply HQ3. eapply step_local_none; [exact Hk|by apply socket_unbound].
Qed.

Lemma inbox_length e : endpoint_ok e -> zlen (inbox (socket_of e)) = queue_count e.
Proof. intros (_ & _ & Hc & _). cbn. rewrite length_fmap. apply length_ring. lia. Qed.

Lemma wp_pending lax s m stack handle (Q : Z * option Z -> net_udp_stack -> Prop) :
  stack_ok s -> view s m -> stack <> NULL -> is_u32 handle ->
  (m !! handle = None -> Q (NET_UDP_ERR_BAD_HANDLE, None) s) ->
  (forall n, step lax m (Pending handle) (Count n) m -> Q (NET_UDP_OK, Some n) s) ->
  wp (net_udp_pending stack handle true) Q s.
Proof.
  intros Hok Hv Hnull Hh HQ1 HQ2. unfold net_udp_pending. apply wp_bind, wp_lookup_endpoint; [done..| |].
  2: { intros Hno. apply wp_ret, HQ1. by eapply view_none. }
  intros i e Hn. pose proof Hn as (Hi & _). destruct (names_range s _ _ _ Hok Hn) as (_ & He). cbn [negb]. apply wp_bind. eapply wp_elem; [exact Hi|].
  apply wp_ret, HQ2. rewrite <- (inbox_length e He). eapply step_pending, view_named; [exact Hv|exact Hn].
Qed.

(** ** Taking a datagram *)

Lemma message_length d : queued_ok d -> zlen (body (message_of d)) = q_length d.
Proof. intros (_ & _ & _ & Hl & Hp & _). cbn. rewrite length_take. lia. Qed.

(** Copying into the front of a buffer. *)
Lemma udp_copy_front (b l : list Z) n : 0 <= n <= zlen b -> n <= zlen l ->
  copy_bytes b 0 l n = Some (take (Z.to_nat n) l ++ drop (Z.to_nat n) b).
Proof.
  intros Hb Hl. pose proof (copy_at [] (take (Z.to_nat n) b) (drop (Z.to_nat n) b) l) as E. rewrite length_take in E. cbn [app] in E.
  rewrite take_drop in E. replace (Z.of_nat (Z.to_nat n `min` length b)) with n in E by lia.
  replace (Z.to_nat n `min` length b)%nat with (Z.to_nat n) in E by lia. apply E. lia.
Qed.

Lemma blank_queued : queued_ok blank_datagram.
Proof. do 5 (split; [done|]). by apply Forall_replicate. Qed.

Definition popped e : net_udp_endpoint :=
  e <| queue := <[Z.to_nat (queue_head e) := blank_datagram]> (queue e) |>
    <| queue_head := (queue_head e + 1) mod 8 |> <| queue_count := queue_count e - 1 |>.
Lemma popped_ok e : endpoint_ok e -> 0 < queue_count e -> endpoint_ok (popped e).
Proof.
  intros (H1 & H2 & H3 & H4 & H5 & H6) Hc. split; [exact H1|]. split; [apply Z.mod_pos_bound; lia|]. split; [cbn; lia|].
  split; [cbn; by rewrite length_insert|]. split; [|exact H6]. apply Forall_insert; [done|apply blank_queued].
Qed.
Lemma popped_socket e d : endpoint_ok e -> 0 < queue_count e -> rd (queue e) (queue_head e) = Some d ->
  inbox (socket_of e) = message_of d :: inbox (socket_of (popped e)) /\ bound_to (socket_of (popped e)) = bound_to (socket_of e).
Proof.
  intros (_ & Hh & Hc & Hq & _) Hpos [_ Hd]%rd_lookup. split; [|done]. cbn. unfold waiting.
  rewrite (ring_pop _ _ _ d blank_datagram) by (done || lia). done.
Qed.
Lemma socket_eta (k : socket) : k = mk_socket (bound_to k) (inbox k).
Proof. by destruct k. Qed.

Lemma wp_recvfrom lax s m stack handle b (Q : Z * option Z * option (list Z) * option net_udp_address -> net_udp_stack -> Prop) :
  stack_ok s -> view s m -> stack <> NULL -> is_u32 handle ->
  (m !! handle = None -> Q (NET_UDP_ERR_BAD_HANDLE, None, Some b, None) s) ->
  (step lax m (RecvFrom handle b) (Code NET_UDP_ERR_WOULD_BLOCK) m -> Q (NET_UDP_ERR_WOULD_BLOCK, Some 0, Some b, None) s) ->
  (forall n, step lax m (RecvFrom handle b) (Needs n) m -> Q (NET_UDP_ERR_BUFFER_TOO_SMALL, Some n, Some b, None) s) ->
  (forall i e d, names s handle i e -> waiting e = d :: waiting (popped e) -> q_length d = zlen (body (message_of d)) ->
     let b' := body (message_of d) ++ drop (length (body (message_of d))) b in
     step lax m (RecvFrom handle b) (Data b' (q_length d) (q_source d)) (<[handle := socket_of (popped e)]> m) ->
     stack_ok (put s i (popped e)) -> view (put s i (popped e)) (<[handle := socket_of (popped e)]> m) ->
     Q (NET_UDP_OK, Some (q_length d), Some b', Some (q_source d)) (put s i (popped e))) ->
  wp (net_udp_recvfrom stack handle (Some b) (zlen b) true true) Q s.
Proof.
  intros Hok Hv Hnull Hh HQ1 HQ2 HQ3 HQ4. unfold net_udp_recvfrom. apply wp_bind, wp_lookup_endpoint; [done..| |].
  2: { intros Hno. apply wp_ret, HQ1. by eapply view_none. }
  intros i e Hn. pose proof Hn as (Hi & Ha & Eh). pose proof (view_named s m _ _ _ Hv Hn) as Hk.
  destruct (names_range s _ _ _ Hok Hn) as (Hr & He). pose proof He as (Hg & Hqh & Hqc & Hql & Hqf & _). cbn [negb is_null andb orb].
  apply wp_bind. eapply wp_elem; [exact Hi|]. destruct (Z.eqb_spec (queue_count e) 0) as [Hz|Hz].
  { apply wp_ret, HQ2. eapply step_receive_empty; [exact Hk|]. cbn. by rewrite blank_waiting. }
  destruct (rd_Some (queue e) (queue_head e) ltac:(lia)) as [d Hd]. apply wp_bind. eapply wp_of_option; [exact Hd|].
  destruct (popped_socket e d He ltac:(lia) Hd) as [Hin Hbt]. pose proof Hd as [_ Hd']%rd_lookup. pose proof (Forall_lookup_1 _ _ _ _ Hqf Hd') as Hdok.
  pose proof (message_length d Hdok) as Hml. pose proof Hdok as (_ & _ & _ & Hdl & Hdp & _). rewrite orb_false_r.
  destruct (Z.ltb_spec (zlen b) (q_length d)) as [Hs|Hs].
  { apply wp_ret, HQ3. rewrite <- Hml. eapply step_receive_small; [exact Hk|exact Hin|lia]. }
  set (b' := body (message_of d) ++ drop (length (body (message_of d))) b).
  assert (Hcopy : copy_bytes b 0 (q_payload d) (q_length d) = Some b').
  { rewrite udp_copy_front by lia. unfold b'. replace (length (body (message_of d))) with (Z.to_nat (q_length d)) by lia. done. }
  apply wp_bind. apply (wp_mono _ (fun x t => x = Some b' /\ t = s)).
  { destruct (Z.eqb_spec (q_length d) 0) as [E0|E0]; cbn [negb].
    - apply wp_ret. split; [|done]. rewrite E0 in Hcopy. cbn in Hcopy. done.
    - apply wp_bind. eapply wp_of_option; [done|]. apply wp_bind. eapply wp_of_option; [exact Hcopy|]. by apply wp_ret. }
  intros x t [-> ->]. apply wp_bind. eapply wp_of_option; [apply wr_Some; lia|].
  apply wp_bind. eapply wp_update; [exact Hi|]. apply wp_ret. rewrite !u8_small by (pose proof (ring_slot (queue_head e) 1); lia).
  assert (Hok' : stack_ok (put s i (popped e))) by (eapply put_same; [done|exact Hi|by apply popped_ok; [|lia]|done]).
  apply (HQ4 i e d Hn); [|done|rewrite <- Hml|done|].
  - unfold waiting. apply rd_lookup in Hd as [_ Hd]. rewrite (ring_pop _ _ _ d blank_datagram) by (done || lia). done.
  - rewrite (socket_eta (socket_of (popped e))), Hbt. by eapply step_receive; [exact Hk|exact Hin|lia].
  - rewrite Eh. exact (view_put s m i e (popped e) Hok Hv Hi Hg Ha (fun _ => eq_refl)).
Qed.

(** ** A segment arrives *)

Definition hit (a p : Z) e : Prop :=
  active e = true /\ bound e = true /\ local_port e = p /\ (local_address e = 0 \/ local_address e = a).

Lemma destination_loop_spec l k a p w :
  match destination_loop l k a p w with
  | Some i => w = Some i \/ exists j e, l !! j = Some e /\ i = k + Z.of_nat j /\ hit a p e
  | None => w = None /\ forall j e, l !! j = Some e -> ~ hit a p e
  end.
Proof.
  revert k w. induction l as [|x l IH]; intros k w; cbn [destination_loop]; [destruct w; [by left|done]|].
  assert (Hlift : forall i, (exists j e, l !! j = Some e /\ i = k + 1 + Z.of_nat j /\ hit a p e) ->
    exists j e, (x :: l) !! j = Some e /\ i = k + Z.of_nat j /\ hit a p e).
  { intros i (j & e & Hj & -> & He). exists (S j), e. split_and!; [done|lia|done]. }
  destruct (negb (active x) || negb (bound x) || negb (local_port x =? p)) eqn:Hskip.
  - specialize (IH (k + 1) w). destruct (destination_loop _ _ _ _ _); [destruct IH; auto|]. destruct IH as [-> IH]. split; [done|].
    intros [|j] e Hj; [|by eapply IH]. injection Hj as ->. intros (Ha & Hb & Hp & _). rewrite Ha, Hb in Hskip. lia.
  - apply orb_false_iff in Hskip as [[Ha Hb]%orb_false_iff Hp]. apply negb_false_iff in Ha, Hb, Hp. apply Z.eqb_eq in Hp.
    assert (Hhere : local_address x = 0 \/ local_address x = a -> exists j e, (x :: l) !! j = Some e /\ k = k + Z.of_nat j /\ hit a p e).
    { intros Hx. exists 0%nat, x. split_and!; [done|lia|]. by split_and!. }
    destruct (Z.eqb_spec (local_address x) a) as [Hx|Hx]; [right; auto|].
    specialize (IH (k + 1) (if local_address x =? 0 then Some k else w)). destruct (Z.eqb_spec (local_address x) 0) as [Hz|Hz].
    + destruct (destination_loop _ _ _ _ _); [|by destruct IH]. destruct IH as [[= <-]|IH]; auto.
    + destruct (destination_loop _ _ _ _ _); [destruct IH; auto|]. destruct IH as [-> IH]. split; [done|].
      intros [|j] e Hj; [|by eapply IH]. injection Hj as ->. intros (_ & _ & _ & [?|?]); done.
Qed.

Lemma takes_spec e a p : takes (socket_of e) a p <-> bound e = true /\ local_port e = p /\ (local_address e = 0 \/ local_address e = a).
Proof. unfold takes. cbn. destruct (bound e); naive_solver. Qed.

Lemma find_destination_spec s m a p : stack_ok s -> view s m ->
  match destination_loop (endpoints s) 0 a p None with
  | Some i => exists h e, names s h i e /\ takes (socket_of e) a p
  | None => forall h k, m !! h = Some k -> ~ takes k a p
  end.
Proof.
  intros Hok Hv. pose proof (destination_loop_spec (endpoints s) 0 a p None) as H. destruct (destination_loop _ _ _ _ _) as [i|].
  - destruct H as [|(j & e & Hj & -> & (Ha & Hb & Hp & Hx))]; [done|]. exists (make_handle (Z.of_nat j) (generation e)), e.
    split; [|by apply takes_spec]. rewrite Z.add_0_l. split; [|done]. apply rd_lookup. by rewrite Nat2Z.id; split; [lia|].
  - destruct H as [_ H]. intros h k (i & e & ((Hi & Ha & _) & ->))%Hv Ht. apply rd_lookup in Hi as [_ Hi]. apply (H _ _ Hi).
    apply takes_spec in Ht as (? & ? & ?). by split_and!.
Qed.

(** There is at most one. *)
Lemma takes_unique s m h k h' k' a p : stack_ok s -> view s m -> m !! h = Some k -> m !! h' = Some k' ->
  takes k a p -> takes k' a p -> h = h'.
Proof.
  intros Hok Hv (i & e & Hn & ->)%Hv (i' & e' & Hn' & ->)%Hv (Hb & Hp & Hx)%takes_spec (Hb' & Hp' & Hx')%takes_spec.
  destruct Hn as (Hi & Ha & ->), Hn' as (Hi' & Ha' & ->). apply rd_lookup in Hi as [Hi0 Hi], Hi' as [Hi0' Hi'].
  assert (Eq : Z.to_nat i = Z.to_nat i').
  { destruct Hok as (_ & _ & Hu & _). apply (Hu _ _ e e' Hi Hi'). split_and!; try done. split_and!; try done; [congruence|].
    destruct Hx, Hx'; auto. right. right. congruence. }
  assert (i = i') as -> by lia. congruence.
Qed.
(** A segment some socket has room for. *)
Definition welcome (lax : bool) m (a b : Z) (l : list Z) : Prop := exists sp p data h k,
  udp_parse lax a b l = Some (sp, p, data) /\ m !! h = Some k /\ takes k b p /\ (length (inbox k) < 8)%nat.

(** Only the counters change. *)
Definition counted s t : Prop := exists st, t = s <| stats := st |>.
Lemma counted_ok s t : counted s t -> stack_ok s -> stack_ok t.
Proof. by intros [st ->]. Qed.
Lemma counted_view s t m : counted s t -> view s m -> view t m.
Proof. by intros [st ->]. Qed.
Lemma wp_count_up s (f : net_udp_stats -> Z) `{!Setter f} (Q : unit -> net_udp_stack -> Prop) :
  (forall t, counted s t -> Q tt t) -> wp (count_up f) Q s.
Proof. intros HQ. apply wp_modify, HQ. by eexists. Qed.

Definition pushed e (d : net_udp_queued_datagram) : net_udp_endpoint :=
  e <| queue := <[Z.to_nat ((queue_head e + queue_count e) mod 8) := d]> (queue e) |> <| queue_count := queue_count e + 1 |>.
Lemma pushed_ok e d : endpoint_ok e -> queue_count e < 8 -> queued_ok d -> endpoint_ok (pushed e d).
Proof.
  intros (H1 & H2 & H3 & H4 & H5 & H6) Hc Hd. split; [exact H1|]. split; [exact H2|]. split; [cbn; lia|].
  split; [cbn; by rewrite length_insert|]. split; [|exact H6]. by apply Forall_insert.
Qed.
Lemma pushed_socket e d : endpoint_ok e -> queue_count e < 8 ->
  socket_of (pushed e d) = mk_socket (bound_to (socket_of e)) (inbox (socket_of e) ++ [message_of d]).
Proof.
  intros (_ & Hh & Hc & Hq & _) Hlt. unfold socket_of at 1. f_equal. cbn. unfold waiting. cbn. rewrite ring_push by lia.
  by rewrite fmap_app.
Qed.

Lemma read_be16_at l (o : nat) (x y : Z) : l !! o = Some x -> l !! S o = Some y -> is_u8 x -> is_u8 y ->
  net_read_be16 l (Z.of_nat o) = Some (x * 256 + y).
Proof.
  intros Hx Hy Hbx Hby. unfold net_read_be16. rewrite (proj2 (rd_lookup l (Z.of_nat o) x)) by (rewrite Nat2Z.id; split; [lia|done]).
  rewrite (proj2 (rd_lookup l (Z.of_nat o + 1) y)).
  - cbn [mbind option_bind]. by rewrite be_word, u16_small by lia.
  - split; [lia|]. by replace (Z.to_nat (Z.of_nat o + 1)) with (S o) by lia.
Qed.

Section Arrive.
Context (s : net_udp_stack) (m : sockets) (stack a b : Z) (l : list Z).
Context (Hok : stack_ok s) (Hv : view s m) (Hnull : stack <> NULL) (Ha : is_u32 a) (Hb : is_u32 b) (Hl : bytes_ok l).
Let lax := allow_zero_checksum (config s).

(** A segment with its header. *)
Context (s1 s0 d1 d0 n1 n0 c1 c0 : Z) (data : list Z) (E : l = s1 :: s0 :: d1 :: d0 :: n1 :: n0 :: c1 :: c0 :: data).

Lemma segment_reads :
  net_read_be16 l 0 = Some (s1 * 256 + s0) /\ net_read_be16 l 2 = Some (d1 * 256 + d0) /\
  net_read_be16 l 4 = Some (n1 * 256 + n0) /\ net_read_be16 l 6 = Some (c1 * 256 + c0) /\
  is_u16 (s1 * 256 + s0) /\ is_u16 (n1 * 256 + n0) /\ bytes_ok data /\ zlen l = 8 + zlen data /\ span l 8 (zlen data) = data.
Proof using E Hl.
  subst l. repeat match goal with H : Forall _ (_ :: _) |- _ => apply Forall_cons_1 in H as [? H] end.
  split; [by apply (read_be16_at _ 0)|]. split; [by apply (read_be16_at _ 2)|]. split; [by apply (read_be16_at _ 4)|].
  split; [by apply (read_be16_at _ 6)|]. split; [lia|]. split; [lia|]. split; [done|]. split; [cbn; lia|].
  unfold span. rewrite Nat2Z.id. cbn [drop Z.to_nat Pos.to_nat Pos.iter_op Nat.add]. by rewrite take_ge.
Qed.

Lemma parse_value : udp_parse lax a b l =
  if (n1 * 256 + n0 =? zlen l) && (zlen data <=? 1472) &&
     (if c1 * 256 + c0 =? 0 then lax else rfc1071 (pseudo a b (zlen l) ++ l) =? 0)
  then Some (s1 * 256 + s0, d1 * 256 + d0, data) else None.
Proof using E. by rewrite E. Qed.

(** The datagram as it is stored over an old one. *)
Definition stored (old : net_udp_queued_datagram) : net_udp_queued_datagram :=
  mk_udp_datagram (mk_udp_address a (s1 * 256 + s0)) b (zlen data) (data ++ drop (length data) (q_payload old)).
Lemma stored_ok old : queued_ok old -> zlen data <= 1472 -> queued_ok (stored old).
Proof using Ha Hb Hl E.
  intros (_ & _ & _ & _ & Hp & Hpb) Hd. destruct segment_reads as (_ & _ & _ & _ & Hs & _ & Hdb & _).
  split; [done|]. split; [done|]. split; [done|]. split; [cbn; lia|]. split; [cbn; rewrite length_app, length_drop; lia|].
  apply Forall_app_2; [done|]. by apply Forall_drop.
Qed.
Lemma stored_message old : message_of (stored old) = mk_message (mk_udp_address a (s1 * 256 + s0)) b data.
Proof. unfold message_of. cbn. by rewrite Nat2Z.id, take_app_length. Qed.

Lemma arrive_pushed h i e old t : names s h i e -> queue_count e < 8 -> takes (socket_of e) b (d1 * 256 + d0) ->
  udp_parse lax a b l = Some (s1 * 256 + s0, d1 * 256 + d0, data) -> queued_ok old -> zlen data <= 1472 ->
  let e' := pushed e (stored old) in counted (put s i e') t ->
  step lax m (Arrive a b l) (Code NET_UDP_OK) (<[h := socket_of e']> m) /\ stack_ok t /\ view t (<[h := socket_of e']> m).
Proof using Hok Hv Ha Hb Hl E.
  intros Hn Hc Ht Hparse Hold Hd e' Hcnt. pose proof Hn as (Hi & Hact & Eh). destruct (names_range s _ _ _ Hok Hn) as (Hr & He). pose proof He as (Hg & _).
  pose proof (inbox_length e He) as Hlen. split; [|split].
  - unfold e'. rewrite pushed_socket, stored_message by done. eapply step_arrive; [exact Hparse|by eapply view_named|done|]. lia.
  - eapply counted_ok; [exact Hcnt|]. eapply put_same; [done|exact Hi|apply pushed_ok; [done|lia|by apply stored_ok]|done].
  - eapply counted_view; [exact Hcnt|]. rewrite Eh. exact (view_put s m i e e' Hok Hv Hi Hg Hact (fun _ => eq_refl)).
Qed.

Lemma wp_deliver (Q : Z * option Z -> net_udp_stack -> Prop) :
  udp_parse lax a b l = Some (s1 * 256 + s0, d1 * 256 + d0, data) -> zlen data <= 1472 ->
  (forall r t, counted s t -> ~ welcome lax m a b l -> step lax m (Arrive a b l) (Code r) m -> Q (r, None) t) ->
  (forall h i e old t, names s h i e -> takes (socket_of e) b (d1 * 256 + d0) -> queue_count e < 8 ->
     counted (put s i (pushed e (stored old))) t ->
     step lax m (Arrive a b l) (Code NET_UDP_OK) (<[h := socket_of (pushed e (stored old))]> m) -> stack_ok t ->
     view t (<[h := socket_of (pushed e (stored old))]> m) -> Q (NET_UDP_OK, Some i) t) ->
  forall i, destination_loop (endpoints s) 0 b (d1 * 256 + d0) None = Some i ->
  wp (e ← elem endpoints i;
      if queue_count e =? NET_UDP_QUEUE_DEPTH
      then count_up dropped_queue_full;; mret (NET_UDP_ERR_QUEUE_FULL, None)
      else
        let slot := (queue_head e + queue_count e) mod NET_UDP_QUEUE_DEPTH in
        old ← of_option (rd (queue e) slot);
        copied ← of_option (copy_bytes (q_payload old) 0 (span l UDP_HEADER_SIZE (zlen data)) (zlen data));
        queue' ← of_option (wr (queue e) slot
          (mk_udp_datagram (mk_udp_address a (s1 * 256 + s0)) b (u16 (zlen data)) copied));
        update endpoints i (fun e => e <| queue := queue' |> <| queue_count := u8 (queue_count e + 1) |>);;
        count_up received;;
        mret (NET_UDP_OK, Some i)) Q s.
Proof using Hok Hv Ha Hb Hl E.
  intros Hparse Hd HQ1 HQ2 i Hi. pose proof (find_destination_spec s m b (d1 * 256 + d0) Hok Hv) as Hf. rewrite Hi in Hf.
  destruct Hf as (h & e & Hn & Ht). pose proof Hn as (Hi' & _). destruct (names_range s _ _ _ Hok Hn) as (_ & He).
  pose proof He as (_ & Hqh & Hqc & Hql & Hqf & _). pose proof (inbox_length e He) as Hlen.
  apply wp_bind. eapply wp_elem; [exact Hi'|]. destruct (Z.eqb_spec (queue_count e) 8) as [H8|H8].
  { apply wp_bind, wp_count_up. intros t Hcnt. apply wp_ret, HQ1; [done| |].
    - intros (sp & p & data' & h' & k & Hp' & Hk & Ht' & Hroom). rewrite Hparse in Hp'. injection Hp' as <- <- <-.
      assert (h' = h) as -> by (eapply takes_unique; [exact Hok|exact Hv|exact Hk|by eapply view_named|exact Ht'|exact Ht]).
      rewrite (view_named s m _ _ _ Hv Hn) in Hk. injection Hk as <-. lia.
    - eapply step_arrive_full; [exact Hparse|by eapply view_named|done|]. lia. }
  pose proof (ring_slot (queue_head e) (queue_count e)) as Hslot. cbv zeta.
  destruct (rd_Some (queue e) ((queue_head e + queue_count e) mod 8) ltac:(lia)) as [old Hold]. apply wp_bind. eapply wp_of_option; [exact Hold|].
  apply rd_lookup in Hold as [_ Hold]. pose proof (Forall_lookup_1 _ _ _ _ Hqf Hold) as Hq. pose proof Hq as (_ & _ & _ & _ & Hp & _).
  destruct segment_reads as (_ & _ & _ & _ & _ & _ & _ & _ & Hspan). rewrite Hspan. apply wp_bind. eapply wp_of_option.
  { apply udp_copy_front; lia. }
  rewrite take_ge, Nat2Z.id by lia. rewrite u16_small by lia. apply wp_bind. eapply wp_of_option; [apply wr_Some; lia|].
  apply wp_bind. eapply wp_update; [exact Hi'|]. rewrite u8_small by lia. apply wp_bind, wp_count_up. intros t Hcnt. apply wp_ret.
  destruct (arrive_pushed h i e old t Hn ltac:(lia) Ht Hparse Hq Hd Hcnt) as (Hs & Hok' & Hv'). eapply HQ2; try done. lia.
Qed.
End Arrive.

(** Segments that are dropped. *)
Lemma wp_drop s lax m a b l (f : net_udp_stats -> Z) (Sf : Setter f) r (Q : Z * option Z -> net_udp_stack -> Prop) :
  (forall r t, counted s t -> ~ welcome lax m a b l -> step lax m (Arrive a b l) (Code r) m -> Q (r, None) t) ->
  udp_parse lax a b l = None -> r ∈ [NET_UDP_ERR_BAD_LENGTH; NET_UDP_ERR_MESSAGE_TOO_LARGE; NET_UDP_ERR_BAD_CHECKSUM] ->
  wp (count_up f;; mret (r, None)) Q s.
Proof.
  intros HQ Hp Hr. apply wp_bind, wp_count_up. intros t Ht. apply wp_ret, HQ; [done| |by apply step_arrive_bad].
  intros (sp & p & data & h & k & Hp' & _). congruence.
Qed.
Lemma wp_drop_nobody s lax m a b l (f : net_udp_stats -> Z) (Sf : Setter f) (Q : Z * option Z -> net_udp_stack -> Prop) :
  (forall r t, counted s t -> ~ welcome lax m a b l -> step lax m (Arrive a b l) (Code r) m -> Q (r, None) t) ->
  forall sp p data, udp_parse lax a b l = Some (sp, p, data) -> (forall h k, m !! h = Some k -> ~ takes k b p) ->
  wp (count_up f;; mret (NET_UDP_ERR_NO_ENDPOINT, None)) Q s.
Proof.
  intros HQ sp p data Hp Hno. apply wp_bind, wp_count_up. intros t Ht. apply wp_ret, HQ; [done| |by eapply step_arrive_nobody].
  intros (sp' & p' & data' & h & k & Hp' & Hk & Ht' & _). rewrite Hp in Hp'. injection Hp' as <- <- <-. by eapply Hno.
Qed.

(** A segment that is too short for its header. *)
Lemma parse_short lax a b l : zlen l < 8 -> udp_parse lax a b l = None.
Proof. intros Hs. do 8 (destruct l as [|? l]; [done|]). cbn in Hs. lia. Qed.

Lemma wp_receive_segment s m stack a b l (Q : Z * option Z -> net_udp_stack -> Prop) :
  let lax := allow_zero_checksum (config s) in
  stack_ok s -> view s m -> stack <> NULL -> is_u32 a -> is_u32 b -> bytes_ok l ->
  (forall r t, counted s t -> ~ welcome lax m a b l -> step lax m (Arrive a b l) (Code r) m -> Q (r, None) t) ->
  (forall h i e d t sp p data, names s h i e -> udp_parse lax a b l = Some (sp, p, data) -> takes (socket_of e) b p ->
     socket_of (pushed e d) = mk_socket (bound_to (socket_of e)) (inbox (socket_of e) ++ [mk_message (mk_udp_address a sp) b data]) ->
     counted (put s i (pushed e d)) t ->
     step lax m (Arrive a b l) (Code NET_UDP_OK) (<[h := socket_of (pushed e d)]> m) -> stack_ok t ->
     view t (<[h := socket_of (pushed e d)]> m) -> Q (NET_UDP_OK, Some i) t) ->
  wp (receive_segment stack a b (Some l) (zlen l)) Q s.
Proof.
  intros lax Hok Hv Hnull Ha Hb Hl HQ1 HQ2. unfold receive_segment. rewrite (proj2 (Z.eqb_neq stack NULL)) by done.
  pose proof (fun f Sf r => wp_drop s lax m a b l f Sf r Q HQ1) as Hbad. pose proof (fun f Sf => wp_drop_nobody s lax m a b l f Sf Q HQ1) as Hnone.
  destruct (Z.ltb_spec (zlen l) 8) as [Hs|Hs]; cbn [orb].
  { apply Hbad; [by apply parse_short|]. set_solver. }
  destruct l as [|s1 [|s0 [|d1 [|d0 [|n1 [|n0 [|c1 [|c0 data]]]]]]]]; try (cbn in Hs; lia).
  remember (s1 :: s0 :: d1 :: d0 :: n1 :: n0 :: c1 :: c0 :: data) as l eqn:E.
  pose proof (parse_value s a b l s1 s0 d1 d0 n1 n0 c1 c0 data E) as Hparse. fold lax in Hparse.
  destruct (segment_reads l Hl s1 s0 d1 d0 n1 n0 c1 c0 data E) as (R0 & R2 & R4 & R6 & _ & Hn & Hdb & Hlen & _).
  destruct (Z.ltb_spec 65535 (zlen l)) as [Hbig|Hbig].
  { apply Hbad; [|set_solver]. rewrite Hparse, (proj2 (Z.eqb_neq _ _)) by lia. done. }
  apply wp_bind. eapply wp_of_option; [exact R4|]. destruct (Z.eqb_spec (n1 * 256 + n0) (zlen l)) as [En|En]; cbn [negb].
  2: { rewrite orb_true_r. apply Hbad; [done|set_solver]. }
  rewrite (proj2 (Z.ltb_ge _ 8)) by lia. cbn [orb]. cbv zeta. replace (zlen l - 8) with (zlen data) by lia.
  destruct (Z.ltb_spec 1472 (zlen data)) as [Hlarge|Hlarge].
  { apply Hbad; [|set_solver]. by rewrite Hparse, (proj2 (Z.leb_gt _ 1472)) by lia. }
  rewrite (proj2 (Z.leb_le _ 1472)) in Hparse by lia. cbn [andb] in Hparse.
  apply wp_bind. eapply wp_of_option; [exact R6|]. apply wp_bind.
  set (good := if c1 * 256 + c0 =? 0 then lax else rfc1071 (pseudo a b (zlen l) ++ l) =? 0) in Hparse.
  apply (wp_mono _ (fun bad t => bad = negb good /\ t = s)).
  { unfold good. destruct (Z.eqb_spec (c1 * 256 + c0) 0).
    - apply wp_bind, wp_gets, wp_ret. done.
    - apply wp_bind. pose proof (udp_checksum_spec a b l [] (zlen l) Ha Hb Hl eq_refl ltac:(lia)) as Ec. rewrite app_nil_r in Ec.
      eapply wp_of_option; [exact Ec|]. by apply wp_ret. }
  intros bad t [-> ->]. destruct good; cbn [negb].
  2: { apply Hbad; [done|set_solver]. }
  apply wp_bind. eapply wp_of_option; [exact R0|]. apply wp_bind. eapply wp_of_option; [exact R2|].
  pose proof (find_destination_spec s m b (d1 * 256 + d0) Hok Hv) as Hf. destruct (Z.eqb_spec (d1 * 256 + d0) 0) as [Hz|Hz].
  { eapply Hnone; [exact Hparse|]. rewrite Hz. intros h k (i & e & Hne & ->)%Hv (Hbd & Hp & _)%takes_spec.
    destruct (names_range s _ _ _ Hok Hne) as (_ & (_ & _ & _ & _ & _ & _ & Hport)). specialize (Hport Hbd). lia. }
  apply wp_bind. unfold find_destination. apply wp_gets. destruct (destination_loop _ _ _ _ _) as [i|] eqn:Hd.
  - apply (wp_deliver s m a b l Hok Hv Ha Hb Hl s1 s0 d1 d0 n1 n0 c1 c0 data E); [done|lia|done| |done].
    intros h j e old t Hne Ht Hc Hcnt Hstep Hok' Hv'. destruct (names_range s _ _ _ Hok Hne) as (_ & He).
    eapply HQ2; [exact Hne|exact Hparse|exact Ht| |exact Hcnt|done|done|done]. by rewrite pushed_socket, stored_message.
  - by eapply Hnone.
Qed.
