(* ===== verification/UdpCalls.v ===== *)
(** * UDP with its surroundings

    The segment that is sent, and every call of the interface as a step of the
    socket machine, with whatever the callbacks do to the stack. *)

From S2P Require Import Prelude Errno NetTypes NetSum Net NetBytes NetProps NetSafe NetSafeIp Udp UdpProps UdpSockets.

(** ** The segment *)

Definition udp_header (source_port destination_port n checksum : Z) : list Z :=
  be16 source_port ++ be16 destination_port ++ be16 (8 + n) ++ be16 checksum.
(** A segment with its checksum; a checksum of zero is sent as all ones. *)
Definition udp_checksum (source destination sp dp : Z) (data : list Z) : Z :=
  let c := rfc1071 (pseudo source destination (8 + zlen data) ++ udp_header sp dp (zlen data) 0 ++ data) in
  if c =? 0 then 0xffff else c.
Definition udp_bytes (source destination sp dp : Z) (data : list Z) : list Z :=
  udp_header sp dp (zlen data) (udp_checksum source destination sp dp data) ++ data.

Lemma udp_header_bytes sp dp n c : bytes_ok (udp_header sp dp n c).
Proof. repeat apply Forall_app_2; apply be16_bytes. Qed.
Lemma udp_bytes_ok source destination sp dp data : bytes_ok data -> bytes_ok (udp_bytes source destination sp dp data).
Proof. intros Hd. by apply Forall_app_2; [apply udp_header_bytes|]. Qed.
Lemma length_udp_bytes source destination sp dp data : zlen (udp_bytes source destination sp dp data) = 8 + zlen data.
Proof. unfold udp_bytes. rewrite length_app. cbn. lia. Qed.

Lemma udp_segment_spec `{!Garbage} source destination sp dp p n :
  is_u32 source -> is_u32 destination -> buffer_ok p n -> n <= 1472 ->
  exists rest, udp_segment source destination sp dp p n = Some (udp_bytes source destination sp dp (data_of p n) ++ rest).
Proof.
  intros Hs Hd Hp Hn. pose proof Hp as [Hn0 _]. pose proof (length_data_of p n Hp) as Hl. unfold udp_segment.
  change (8 + 1472) with 1480.
  destruct (uninitialised_split 8 1480 ltac:(lia)) as (rest & -> & Hrest & Hb).
  pose proof (length_uninitialised (Z.of_nat 8) ltac:(lia)) as Hu. destruct (uninitialised (Z.of_nat 8)) as [|x0 m]; [done|].
  do 7 (destruct m as [|? m]; [done|]). destruct m; [|cbn in Hu; lia].
  do 4 (erewrite write_be16_frame by reflexivity; rewrite some_bind). rewrite (u16_small (8 + n)) by lia.
  change (_ ++ rest) with (udp_header sp dp n 0 ++ rest) at 1 2.
  destruct (copy_data (udp_header sp dp n 0) rest p n Hp ltac:(lia) Hb) as (rest' & _ & _ & E).
  change (zlen (udp_header sp dp n 0)) with 8 in E. rewrite E, some_bind. clear E. rewrite app_assoc.
  rewrite udp_checksum_spec, some_bind; [|done|done|apply Forall_app_2; [apply udp_header_bytes|by apply data_of_bytes]|rewrite length_app; cbn; lia|lia].
  exists rest'. unfold udp_bytes, udp_checksum. rewrite Hl. rewrite <- !app_assoc. set (c := if _ =? 0 then 65535 else _).
  erewrite (write_be16_frame (udp_header sp dp n 0)) by reflexivity. done.
Qed.

(** The receiver finds the ports and the data. *)
Lemma udp_checksum_range source destination sp dp data : bytes_ok data -> 0 < udp_checksum source destination sp dp data < 2 ^ 16.
Proof.
  intros Hd. unfold udp_checksum. pose proof (rfc1071_range (pseudo source destination (8 + zlen data) ++ udp_header sp dp (zlen data) 0 ++ data)) as Hr.
  destruct (Z.eqb_spec (rfc1071 (pseudo source destination (8 + zlen data) ++ udp_header sp dp (zlen data) 0 ++ data)) 0); [lia|].
  assert (is_u16 (rfc1071 (pseudo source destination (8 + zlen data) ++ udp_header sp dp (zlen data) 0 ++ data))); [|lia].
  apply Hr. apply Forall_app_2; [apply pseudo_bytes|]. by apply Forall_app_2; [apply udp_header_bytes|].
Qed.

Lemma udp_bytes_valid source destination sp dp data : bytes_ok data ->
  rfc1071 (pseudo source destination (8 + zlen data) ++ udp_bytes source destination sp dp data) = 0.
Proof.
  intros Hd. pose proof (udp_checksum_range source destination sp dp data Hd) as Hc.
  set (pre := pseudo source destination (8 + zlen data) ++ be16 sp ++ be16 dp ++ be16 (8 + zlen data)).
  assert (Hpre : bytes_ok pre) by (apply Forall_app_2; [apply pseudo_bytes|]; repeat apply Forall_app_2; apply be16_bytes).
  assert (Hodd : odd_tail pre = None) by done.
  assert (Eb : forall c, pseudo source destination (8 + zlen data) ++ udp_header sp dp (zlen data) c ++ data = pre ++ be16 c ++ data).
  { intros c. unfold pre, udp_header. by rewrite <- !app_assoc. }
  assert (Hby : forall c, bytes_ok (pre ++ be16 c ++ data)) by (intros c; apply Forall_app_2; [done|]; by apply Forall_app_2; [apply be16_bytes|]).
  unfold udp_bytes. rewrite Eb. rewrite rfc1071_norm by done. rewrite wsum_even, wsum_be16 by (done || lia).
  unfold udp_checksum in *. rewrite Eb in *. rewrite rfc1071_norm in * by done. rewrite wsum_even, wsum_be16 in * by (done || lia).
  pose proof (wsum_bound _ Hpre). pose proof (wsum_bound _ Hd). set (t := wsum pre + (0 + wsum data)) in *.
  pose proof (norm_range t ltac:(lia)) as Hr. pose proof (norm_mod t ltac:(lia)) as Em.
  match goal with |- 65535 - norm (_ + (?v + _)) = 0 => set (c := v) in *; replace (wsum pre + (c + wsum data)) with (t + c) by lia end.
  assert (norm (t + c) = 65535); [|lia]. apply norm_full; [lia|]. unfold c. destruct (Z.eqb_spec (65535 - norm t) 0) as [E0|E0].
  - replace (t + 65535) with (t + 1 * 65535) by lia. rewrite Z.mod_add, <- Em by lia. by replace (norm t) with 65535 by lia.
  - replace (t + (65535 - norm t)) with (t - norm t + 1 * 65535) by lia. by rewrite Z.mod_add, Zminus_mod, Em, Z.sub_diag by lia.
Qed.

Lemma udp_parse_bytes lax source destination sp dp data : is_u16 sp -> is_u16 dp -> bytes_ok data -> zlen data <= 1472 ->
  udp_parse lax source destination (udp_bytes source destination sp dp data) = Some (sp, dp, data).
Proof.
  intros Hs Hp Hd Hl. pose proof (udp_bytes_valid source destination sp dp data Hd) as Hv. pose proof (length_udp_bytes source destination sp dp data) as Hlen.
  pose proof (udp_checksum_range source destination sp dp data Hd) as Hc.
  assert (Hw : forall v, is_u16 v -> u8 (Z.shiftr v 8) * 256 + u8 v = v).
  { intros v Hv'. unfold u8. rewrite Z.shiftr_div_pow2 by lia. zdiv. }
  unfold udp_bytes, udp_header, be16 in Hlen, Hv |- *. cbn [app] in Hlen, Hv |- *. unfold udp_parse. rewrite Hlen, Hv. rewrite !Hw by lia.
  by rewrite Z.eqb_refl, (proj2 (Z.leb_le _ _)), (proj2 (Z.eqb_neq (udp_checksum _ _ _ _ _) 0)) by lia.
Qed.

(** ** Old handles

    The machine remembers the handles that were closed, the last one first.  A
    handle is not given out again before 2^20 - 2 more sockets were closed. *)

Abbreviation machine := (sockets * list Z)%type.
Abbreviation remembered := (Z.to_nat (2 ^ 20 - 2)) (only parsing).
Definition remembers (old : list Z) (c : event) (r : answer) (old' : list Z) : Prop :=
  match c, r with
  | Open _ _, Handle h => h ∉ take remembered old /\ old' = old
  | Close h, Code r => old' = if r =? NET_UDP_OK then h :: old else old
  | _, _ => old' = old
  end.
Definition machine_step (lax : bool) (a : machine) (c : event) (r : answer) (a' : machine) : Prop :=
  step lax a.1 c r a'.1 /\ remembers a.2 c r a'.2.

Inductive steps (lax : bool) : machine -> list (event * answer) -> machine -> Prop :=
| steps_nil a : steps lax a [] a
| steps_cons a c r a1 l a2 : machine_step lax a c r a1 -> steps lax a1 l a2 -> steps lax a ((c, r) :: l) a2.

Lemma steps_app lax a l a1 l' a2 : steps lax a l a1 -> steps lax a1 l' a2 -> steps lax a (l ++ l') a2.
Proof. induction 1; [done|]. cbn. intros. econstructor; eauto. Qed.

(** The generations of a slot come round after 2^20 - 1 turns. *)
Lemma next_generation_value g : 1 <= g < 2 ^ 20 -> next_generation g = 1 + (g - 1 + 1) mod (2 ^ 20 - 1).
Proof.
  intros Hg. unfold next_generation. change UDP_HANDLE_GENERATION_MASK with (2 ^ 20 - 1). rewrite land_mask, u32_small by lia.
  destruct (Z.eq_dec g (2 ^ 20 - 1)) as [->|]; [done|]. rewrite !Z.mod_small by lia. rewrite (proj2 (Z.eqb_neq _ _)) by lia. lia.
Qed.
Lemma generations_after n g : 1 <= g < 2 ^ 20 -> Nat.iter n next_generation g = 1 + (g - 1 + Z.of_nat n) mod (2 ^ 20 - 1).
Proof.
  intros Hg. induction n as [|n IH]; cbn [Nat.iter nat_rect]; [rewrite Z.mod_small; lia|]. change (nat_rect _ _ _ n) with (Nat.iter n next_generation g).
  pose proof (Z.mod_pos_bound (g - 1 + Z.of_nat n) (2 ^ 20 - 1) ltac:(lia)).
  rewrite IH, next_generation_value by lia. f_equal. rewrite Z.add_simpl_l, Z.add_mod_idemp_l by lia. f_equal. lia.
Qed.
Lemma generations_differ n g : 1 <= g < 2 ^ 20 -> 0 < Z.of_nat n < 2 ^ 20 - 1 -> Nat.iter n next_generation g <> g.
Proof.
  intros Hg Hn E. rewrite generations_after in E by done.
  assert (0 = Z.of_nat n); [|lia]. apply (mod_inj (2 ^ 20 - 1) (g - 1)); [lia..|]. rewrite Z.add_0_r, (Z.mod_small (g - 1)) by lia. lia.
Qed.

(** The closed handles of each slot and the slot's generation. *)
Definition in_slot (i : nat) (old : list (nat * Z)) : list Z := snd <$> filter (fun x => x.1 = i) old.
Definition history (gs : list Z) (old : list Z) : Prop := exists slots : list (nat * Z),
  old = (fun x => make_handle (Z.of_nat x.1) x.2) <$> slots /\
  Forall (fun x => (x.1 < 16)%nat /\ 1 <= x.2 < 2 ^ 20) slots /\
  forall i g k g', gs !! i = Some g -> in_slot i slots !! k = Some g' -> Nat.iter (Datatypes.S k) next_generation g' = g.

Lemma history_nil gs : history gs [].
Proof. exists []. split_and!; [done|by apply Forall_nil_2|by intros]. Qed.

Lemma in_slot_take i g j (slots : list (nat * Z)) : slots !! j = Some (i, g) -> exists k, (k <= j)%nat /\ in_slot i slots !! k = Some g.
Proof.
  revert j. induction slots as [|x slots IH]; intros j Hj; [done|]. unfold in_slot. rewrite filter_cons. destruct j as [|j].
  - injection Hj as ->. rewrite decide_True by done. by exists 0%nat.
  - destruct (IH j Hj) as (k & Hk & E). destruct (decide (x.1 = i)); [exists (Datatypes.S k)|exists k]; (split; [lia|done]).
Qed.

Lemma history_fresh gs old i g : history gs old -> gs !! i = Some g -> (i < 16)%nat -> 1 <= g < 2 ^ 20 ->
  make_handle (Z.of_nat i) g ∉ take remembered old.
Proof.
  intros (slots & -> & Hf & Hgen) Hi Hi16 Hg (j & Hj)%list_elem_of_lookup. apply lookup_take_Some in Hj as [Hj Hlt].
  rewrite list_lookup_fmap in Hj. destruct (slots !! j) as [[i' g']|] eqn:E; [|done]. injection Hj as Hj.
  destruct (Forall_lookup_1 _ _ _ _ Hf E) as [Hi' Hg']. cbn in Hi', Hg', Hj. apply make_handle_inj in Hj as [Ei ->]; [|lia..].
  apply Nat2Z.inj in Ei as ->. destruct (in_slot_take i g j slots E) as (k & Hk & Ek).
  specialize (Hgen i g k g Hi Ek). revert Hgen. apply generations_differ; [done|]. lia.
Qed.

Lemma history_close gs old i g : history gs old -> gs !! i = Some g -> (i < 16)%nat -> 1 <= g < 2 ^ 20 ->
  history (<[i := next_generation g]> gs) (make_handle (Z.of_nat i) g :: old).
Proof.
  intros (slots & -> & Hf & Hgen) Hi Hi16 Hg. exists ((i, g) :: slots). split; [done|]. split; [by apply Forall_cons_2|].
  intros j g1 k g' Hj Hk. unfold in_slot in Hk. rewrite filter_cons in Hk. cbn [fst] in Hk. destruct (decide (i = j)) as [->|Hne].
  - rewrite list_lookup_insert_eq in Hj by (by eapply lookup_lt_Some). injection Hj as <-. destruct k as [|k].
    + by injection Hk as <-.
    + change (Nat.iter _ _ _) with (next_generation (Nat.iter (Datatypes.S k) next_generation g')). f_equal. by eapply Hgen.
  - rewrite list_lookup_insert_ne in Hj by done. by eapply Hgen.
Qed.

(** ** Calls and callbacks *)

Definition generations (u : net_udp_stack) : list Z := generation <$> endpoints u.
Lemma generations_put u i e : generations (put u i e) = <[Z.to_nat i := generation e]> (generations u).
Proof. unfold generations, put. cbn. by rewrite list_fmap_insert. Qed.
Lemma generations_kept u i e e0 : rd (endpoints u) i = Some e0 -> generation e = generation e0 -> generations (put u i e) = generations u.
Proof.
  intros [_ Hi]%rd_lookup Hg. rewrite generations_put, Hg. apply list_insert_id. unfold generations. by rewrite list_lookup_fmap, Hi.
Qed.

Section Host.
Context {G : Garbage} {S : Type} {H : UdpHost S}.
Implicit Types (x y : S) (m : sockets) (lax : bool) (stack handle : Z).

(** The state holds a well-formed stack with these sockets. *)
Definition shows lax x (a : machine) : Prop :=
  stack_ok (udp_of x) /\ view (udp_of x) a.1 /\ history (generations (udp_of x)) a.2 /\ allow_zero_checksum (config (udp_of x)) = lax.
(** What it becomes. *)
Definition moves lax (a : machine) y : Prop := exists l a', steps lax a l a' /\ shows lax y a'.

(** The contract of the callbacks: they return, and change the stack only as
    calls of its interface do. *)
Definition host_ok : Prop := forall lax x a, shows lax x a ->
  (forall f context source destination protocol_ l,
     wp (udp_send_call f context source destination protocol_ l) (fun _ y => moves lax a y) x) /\
  (forall f context stack h, wp (udp_notify_call f context stack h) (fun _ y => moves lax a y) x).

Lemma wp_zoom_get {A} (k : M net_udp_stack A) (Q : A -> S -> Prop) x :
  wp k (fun r u => u = udp_of x /\ Q r x) (udp_of x) -> wp (zoom udp_of k) Q x.
Proof. intros (r & u & E & -> & HQ). apply wp_zoom. exists r, (udp_of x). split; [done|]. by rewrite udp_set_get. Qed.
Lemma shows_set lax x a m u : shows lax x a -> stack_ok u -> view u m -> generations u = generations (udp_of x) ->
  allow_zero_checksum (config u) = lax -> shows lax (x <| udp_of := u |>) (m, a.2).
Proof. intros (_ & _ & Hh & _) H1 H2 H3 H4. unfold shows. rewrite udp_get_set, H3. done. Qed.
Lemma shows_counted lax x a u : shows lax x a -> counted (udp_of x) u -> shows lax (x <| udp_of := u |>) a.
Proof. intros Hx [st ->]. destruct a as [m old]. pose proof Hx as (H1 & H2 & H3 & H4). by apply (shows_set lax x (m, old)). Qed.
Lemma moves_counted lax x a u : moves lax a x -> counted (udp_of x) u -> moves lax a (x <| udp_of := u |>).
Proof. intros (l & a' & Hl & Hs) Hc. exists l, a'. split; [done|]. by apply shows_counted. Qed.

(** Sending from a bound endpoint: the callback gets the segment. *)
Definition source_of (u : net_udp_stack) (e : net_udp_endpoint) : Z :=
  if negb (local_address e =? 0) then local_address e else c_local_address (config u).
Lemma wp_send_segment x i e a p payload n (Q : Z -> S -> Prop) :
  stack_ok (udp_of x) -> rd (endpoints (udp_of x)) i = Some e -> is_u32 a -> buffer_ok payload n -> n <= 1472 ->
  let c := config (udp_of x) in let source := source_of (udp_of x) e in
  (ipv4_send c = None -> Q NET_UDP_ERR_IO x) ->
  (forall f, ipv4_send c = Some f ->
     wp (udp_send_call f (ipv4_send_context c) source a 17 (udp_bytes source a (local_port e) p (data_of payload n)))
       (fun r y => (r <> 0 -> Q (if r <? 0 then r else NET_UDP_ERR_IO) y) /\
          (r = 0 -> forall u, counted (udp_of y) u -> Q NET_UDP_OK (y <| udp_of := u |>))) x) ->
  wp (send_segment i a p payload n) Q x.
Proof.
  intros Hok Hi Ha Hp Hn c source HQ1 HQ2. unfold send_segment. apply wp_bind, wp_zoom_get, wp_gets. split; [done|]. fold c.
  destruct (ipv4_send c) as [f|]; [|by apply wp_ret, HQ1]. apply wp_bind, wp_zoom_get. eapply wp_elem; [exact Hi|].
  split; [done|]. cbv zeta.
  assert (Hs : is_u32 source).
  { unfold source, source_of. destruct (Z.eqb_spec (local_address e) 0); cbn [negb]; [apply Hok|].
    pose proof (rd_lookup (endpoints (udp_of x)) i e) as [[_ Hi'] _]; [done|]. destruct Hok as (_ & Hf & _).
    destruct (Forall_lookup_1 _ _ _ _ Hf Hi') as (_ & _ & _ & _ & _ & ? & _). done. }
  destruct (udp_segment_spec source a (local_port e) p payload n Hs Ha Hp Hn) as [rest E]. apply wp_bind.
  eapply wp_of_option; [exact E|]. rewrite span_front by (rewrite length_udp_bytes, length_data_of; done).
  apply wp_bind. eapply wp_mono; [by apply HQ2|]. intros r y [HQe HQo]. destruct (Z.eqb_spec r 0) as [->|Hr]; [|by apply wp_ret, HQe].
  apply wp_bind, wp_zoom, wp_count_up. intros u Hu. apply wp_ret. by apply HQo.
Qed.

(** ** Every call is a step *)

Lemma moves_step lax a c r a1 y : machine_step lax a c r a1 -> moves lax a1 y -> exists l a', steps lax a ((c, r) :: l) a' /\ shows lax y a'.
Proof. intros Hs (l & a' & Hl & Hy). exists l, a'. split; [by econstructor|done]. Qed.
Lemma moves_shows lax a y : shows lax y a -> moves lax a y.
Proof. intros Hy. exists [], a. split; [constructor|done]. Qed.

(** The result of a call that is the step [c]. *)
Abbreviation took lax a c := (fun r y => exists l a', steps lax a ((c, r) :: l) a' /\ shows lax y a') (only parsing).

Lemma wp_sendto lax x m old stack handle a p data : host_ok -> shows lax x (m, old) -> stack <> NULL -> is_u32 handle -> is_u32 a ->
  bytes_ok data ->
  wp (net_udp_sendto stack handle a p (Some data) (zlen data)) (fun r => took lax (m, old) (SendTo handle a p data) (Code r)) x.
Proof.
  intros Hhost Hx Hnull Hh Ha Hd. pose proof Hx as (Hok & Hv & _ & Hlax). cbn [fst snd] in Hv. unfold net_udp_sendto.
  assert (Hstay : forall r, step lax m (SendTo handle a p data) (Code r) m -> took lax (m, old) (SendTo handle a p data) (Code r) x).
  { intros r Hs. eapply (moves_step lax (m, old) _ _ (m, old)); [by split|by apply moves_shows]. }
  apply wp_bind, wp_zoom_get, wp_lookup_endpoint; [done..| |].
  2: { intros Hno. split; [done|]. apply wp_ret, Hstay. eapply step_refused; [done|]. by eapply view_none. }
  intros i e Hn. split; [done|]. pose proof Hn as (Hi & Hact & Eh). pose proof (view_named _ m _ _ _ Hv Hn) as Hk. cbn [is_null andb]. rewrite orb_false_r.
  destruct (Z.eqb_spec a 0) as [Ea|Ea]; [apply wp_ret, Hstay; eapply step_send_invalid; [exact Hk|auto]|].
  destruct (Z.eqb_spec p 0) as [Ep|Ep]; [apply wp_ret, Hstay; eapply step_send_invalid; [exact Hk|auto]|]. cbn [orb].
  destruct (Z.ltb_spec 1472 (zlen data)) as [Hlen|Hlen]; [apply wp_ret, Hstay; by eapply step_send_large|].
  apply wp_bind, wp_zoom_get. eapply wp_elem; [exact Hi|]. split; [done|].
  (* what follows the binding *)
  assert (Hsend : forall y e' m1, shows lax y (m1, old) -> rd (endpoints (udp_of y)) i = Some e' ->
    (forall r, step lax m (SendTo handle a p data) (Code r) m1) ->
    wp (send_segment i a p (Some data) (zlen data)) (fun r => took lax (m, old) (SendTo handle a p data) (Code r)) y).
  { intros y e' m1 Hy He' Hs. pose proof Hy as (Hoky & _). assert (Hm : forall r, machine_step lax (m, old) (SendTo handle a p data) (Code r) (m1, old)) by done.
    apply (wp_send_segment y i e'); [done|done|done|split; [lia|by split]|done| |].
    - intros _. by eapply moves_step, moves_shows.
    - intros f _. eapply wp_mono; [by eapply Hhost|]. intros r z Hz. split; [intros _; by eapply moves_step|].
      intros -> u Hu. eapply moves_step; [done|]. by apply moves_counted. }
  apply wp_bind. destruct (bound e) eqn:Hb; cbn [negb].
  - apply wp_ret. cbn [Z.eqb negb]. apply (Hsend x e m); [done|done|]. intros r.
    by eapply step_send; [exact Hk|apply socket_bound|..].
  - apply wp_zoom, (wp_bind_socket _ m); [done|done|done|done|done|done|congruence| | |].
    + intros k l Hk' Hl. rewrite Hk in Hk'. injection Hk' as <-. by rewrite socket_unbound in Hl.
    + by intros.
    + intros j e' q u Hn' Hb' Hq Hbs Hoku Hcu _ Eu Hvu. destruct (names_unique _ _ _ _ _ _ Hok Hn Hn') as [<- <-]. cbn [Z.eqb negb].
      apply (Hsend _ (bound_at e 0 q) (<[handle := socket_of (bound_at e 0 q)]> m)).
      * apply (shows_set lax x (m, old)); [done|done|done| |by rewrite Hcu]. unfold generations. rewrite Eu. by eapply generations_kept.
      * rewrite udp_get_set, Eu. apply rd_insert_eq. by eapply rd_range.
      * intros r. by eapply step_send_binds; [exact Hk|apply socket_unbound|..].
Qed.

Lemma wp_udp_receive lax x m old stack a b l : host_ok -> shows lax x (m, old) -> stack <> NULL -> is_u32 a -> is_u32 b -> bytes_ok l ->
  wp (net_udp_receive stack a b (Some l) (zlen l)) (fun r => took lax (m, old) (Arrive a b l) (Code r)) x.
Proof.
  intros Hhost Hx Hnull Ha Hb Hl. pose proof Hx as (Hok & Hv & _ & Hlax). unfold net_udp_receive.
  apply wp_bind, wp_zoom, (wp_receive_segment _ m); [done..| |]; rewrite Hlax.
  - intros r u Hu _ Hs. apply wp_ret. eapply (moves_step lax (m, old) _ _ (m, old)); [by split|]. by apply moves_shows, shows_counted.
  - intros h i e d u sp p data Hn _ _ _ Hu Hs Hoku Hvu. pose proof Hn as (Hi & _). pose proof (rd_range _ _ _ Hi) as Hr.
    assert (Hm : machine_step lax (m, old) (Arrive a b l) (Code NET_UDP_OK) (<[h := socket_of (pushed e d)]> m, old)) by done.
    assert (Hy : shows lax (x <| udp_of := u |>) (<[h := socket_of (pushed e d)]> m, old)).
    { apply (shows_set lax x (m, old)); [done|done|done| |].
      - destruct Hu as [st ->]. by eapply (generations_kept (udp_of x)).
      - destruct Hu as [st ->]. exact Hlax. }
    assert (Hi' : rd (endpoints u) i = Some (pushed e d)) by (destruct Hu as [st ->]; by apply rd_insert_eq).
    apply wp_bind, wp_zoom_get. rewrite udp_get_set. eapply wp_elem; [exact Hi'|]. split; [done|]. apply wp_bind.
    destruct (notify (pushed e d)) as [f|].
    + eapply wp_mono; [by eapply Hhost|]. intros [] y Hym. apply wp_ret. by eapply moves_step.
    + apply wp_ret, wp_ret. eapply moves_step; [exact Hm|]. by apply moves_shows.
Qed.

(** ** Sequences of calls *)

Definition run_event stack (c : event) : M S answer :=
  match c with
  | Open f context =>
    '(r, h) ← zoom udp_of (net_udp_open stack f context true);
    mret (match h with Some h => Handle h | None => Code r end)
  | Close h => r ← zoom udp_of (net_udp_close stack h); mret (Code r)
  | Bind h a p => r ← zoom udp_of (net_udp_bind stack h a p); mret (Code r)
  | GetLocal h =>
    '(r, l) ← zoom udp_of (net_udp_get_local stack h true);
    mret (match l with Some l => Local l | None => Code r end)
  | Pending h =>
    '(r, n) ← zoom udp_of (net_udp_pending stack h true);
    mret (match n with Some n => Count n | None => Code r end)
  | RecvFrom h buffer =>
    '(r, n, b, l) ← zoom udp_of (net_udp_recvfrom stack h (Some buffer) (zlen buffer) true true);
    mret (match n, b, l with
          | Some n, Some b, Some l => Data b n l
          | Some n, _, None => if r =? NET_UDP_ERR_BUFFER_TOO_SMALL then Needs n else Code r
          | _, _, _ => Code r
          end)
  | SendTo h a p data => r ← net_udp_sendto stack h a p (Some data) (zlen data); mret (Code r)
  | Arrive a b l => r ← net_udp_receive stack a b (Some l) (zlen l); mret (Code r)
  | SetLocal a => zoom udp_of (net_udp_set_local_address stack a);; mret Done
  end.
Fixpoint run_events stack (l : list event) : M S (list answer) :=
  match l with
  | [] => mret []
  | c :: l' => r ← run_event stack c; rs ← run_events stack l'; mret (r :: rs)
  end.

(** Arguments of the types of the interface. *)
Definition event_ok (c : event) : Prop :=
  match c with
  | Open _ _ => True
  | Close h | GetLocal h | Pending h | RecvFrom h _ => is_u32 h
  | Bind h a p => is_u32 h /\ is_u32 a /\ is_u16 p
  | SendTo h a p data => is_u32 h /\ is_u32 a /\ is_u16 p /\ bytes_ok data
  | Arrive a b l => is_u32 a /\ is_u32 b /\ bytes_ok l
  | SetLocal a => is_u32 a
  end.

(** A call that is not [Open] or [Close] leaves the old handles as they are. *)
Definition plain (c : event) : bool := match c with Open _ _ | Close _ => false | _ => true end.
Lemma plain_remembers c r old : plain c = true -> remembers old c r old.
Proof. by destruct c, r. Qed.
Lemma refused_remembers c r old : r <> NET_UDP_OK -> remembers old c (Code r) old.
Proof. intros Hr. destruct c; try done. cbn. by rewrite (proj2 (Z.eqb_neq r 0)). Qed.

Lemma wp_open_event lax x m old stack f context : shows lax x (m, old) -> stack <> NULL ->
  wp (run_event stack (Open f context)) (took lax (m, old) (Open f context)) x.
Proof.
  intros Hx Hnull. pose proof Hx as (Hok & Hv & Hh & Hlax). cbn [run_event fst snd] in *. apply wp_bind, wp_zoom, (wp_open lax _ m); [done..| |].
  - intros i e g Hi Ha -> Hm Hs u Hoku Hvu. apply wp_ret. pose proof (rd_range _ _ _ Hi) as Hr. pose proof Hok as (Hl & _).
    destruct (endpoint_rd _ i Hok ltac:(lia)) as (e' & Hi' & (Hg & _)). rewrite Hi in Hi'. injection Hi' as <-.
    eapply (moves_step lax (m, old) _ _ (_, old)); [split; [exact Hs|]|apply moves_shows, (shows_set lax x (m, old)); [done|done|done| |done]].
    + cbn. split; [|done]. pose proof (history_fresh (generations (udp_of x)) old (Z.to_nat i) (generation e) Hh) as Hfr.
      rewrite Z2Nat.id in Hfr by lia. apply Hfr; [|lia|done]. unfold generations. apply rd_lookup in Hi as [_ Hi]. by rewrite list_lookup_fmap, Hi.
    + by eapply generations_kept.
  - intros Hs. rewrite udp_set_get. apply wp_ret. eapply (moves_step lax (m, old) _ _ (m, old)); [by split|]. by apply moves_shows.
Qed.

Lemma wp_close_event lax x m old stack handle : shows lax x (m, old) -> stack <> NULL -> is_u32 handle ->
  wp (run_event stack (Close handle)) (took lax (m, old) (Close handle)) x.
Proof.
  intros Hx Hnull Hu32. pose proof Hx as (Hok & Hv & Hh & Hlax). cbn [run_event fst snd] in *. apply wp_bind, wp_zoom, (wp_close lax _ m); [done..| |].
  - intros i e Hn Hs u Hoku Hvu. apply wp_ret. pose proof Hn as (Hi & _ & Eh). destruct (names_range _ _ _ _ Hok Hn) as (Hr & (Hg & _)).
    eapply (moves_step lax (m, old) _ _ (_, handle :: old)); [by split; [exact Hs|]|]. apply moves_shows. unfold shows. rewrite udp_get_set.
    split; [done|]. split; [done|]. split; [|done]. unfold u. rewrite generations_put, Eh.
    pose proof (history_close (generations (udp_of x)) old (Z.to_nat i) (generation e) Hh) as Hcl. rewrite Z2Nat.id in Hcl by lia.
    apply Hcl; [|lia|done]. unfold generations. apply rd_lookup in Hi as [_ Hi]. by rewrite list_lookup_fmap, Hi.
  - intros Hm. rewrite udp_set_get. apply wp_ret. eapply (moves_step lax (m, old) _ _ (m, old)); [|by apply moves_shows].
    split; [by eapply step_refused|done].
Qed.

Lemma wp_event lax x m old stack c : host_ok -> shows lax x (m, old) -> stack <> NULL -> event_ok c ->
  wp (run_event stack c) (took lax (m, old) c) x.
Proof.
  intros Hhost Hx Hnull Hc. destruct (plain c) eqn:Hplain; [|destruct c; [by apply wp_open_event|by apply wp_close_event|done..]].
  pose proof Hx as (Hok & Hv & Hh & Hlax). cbn [fst snd] in Hv, Hh.
  assert (Hstay : forall r, step lax m c r m -> took lax (m, old) c r x).
  { intros r Hs. eapply (moves_step lax (m, old) _ _ (m, old)); [split; [done|by apply plain_remembers]|by apply moves_shows]. }
  assert (Hbad : forall h, handle_of c = Some h -> m !! h = None -> took lax (m, old) c (Code NET_UDP_ERR_BAD_HANDLE) x).
  { intros h Hc' Hm. apply Hstay. by eapply step_refused. }
  assert (Hset : forall r u m1, step lax m c r m1 -> stack_ok u -> view u m1 -> generations u = generations (udp_of x) ->
    config u = config (udp_of x) -> took lax (m, old) c r (x <| udp_of := u |>)).
  { intros r u m1 Hs Hu Hvu Eg Ec. eapply (moves_step lax (m, old) _ _ (m1, old)); [split; [done|by apply plain_remembers]|].
    apply moves_shows, (shows_set lax x (m, old)); [done|done|done|done|by rewrite Ec]. }
  destruct c; cbn [run_event] in *; try done.
  - destruct Hc as (Hu32 & Ha & Hp). apply wp_bind, wp_zoom, (wp_bind_socket _ m); [done..| | | |]; rewrite ?udp_set_get.
    + intros Hm. by apply wp_ret, (Hbad h).
    + intros k l Hk Hl. apply wp_ret, Hstay. by eapply step_bind_again.
    + intros k Hk Hl Hp0 Hf. apply wp_ret, Hstay. by eapply step_bind_taken.
    + intros i e q t Hn Hb Hq Hbs Hokt Hct _ Et Hvt. apply wp_ret. eapply Hset; [|done|exact Hvt| |done].
      * eapply step_bind; [by eapply view_named|by apply socket_unbound|done].
      * unfold generations. rewrite Et. destruct Hn as (Hi & _). by eapply generations_kept.
  - apply wp_bind, wp_zoom_get, (wp_get_local lax _ m); [done..| | |]; intros; (split; [done|]); apply wp_ret; [by eapply Hbad|by apply Hstay..].
  - apply wp_bind, wp_zoom_get, (wp_pending lax _ m); [done..| |]; intros; (split; [done|]); apply wp_ret; [by eapply Hbad|by apply Hstay].
  - apply wp_bind, wp_zoom, (wp_recvfrom lax _ m); [done..| | | |]; rewrite ?udp_set_get.
    + intros Hm. by apply wp_ret, (Hbad h).
    + intros Hs. by apply wp_ret, Hstay.
    + intros n Hs. by apply wp_ret, Hstay.
    + intros i e d (Hi & _) _ _ b' Hs Hokt Hvt. apply wp_ret. eapply Hset; [exact Hs|done|done|by eapply generations_kept|done].
  - destruct Hc as (Hu32 & Ha & Hp & Hd). apply wp_bind. eapply wp_mono; [by apply (wp_sendto lax x m old)|]. intros r y Hy. by apply wp_ret.
  - destruct Hc as (Ha & Hb & Hl). apply wp_bind. eapply wp_mono; [by apply (wp_udp_receive lax x m old)|]. intros r y Hy. by apply wp_ret.
  - apply wp_bind, wp_zoom. unfold net_udp_set_local_address. rewrite (proj2 (Z.eqb_neq stack NULL)) by done. apply wp_modify, wp_ret.
    eapply (moves_step lax (m, old) _ _ (m, old)); [split; [apply step_set_local|done]|].
    apply moves_shows, (shows_set lax x (m, old)); [done| |done|done|done]. destruct Hok as (H1 & H2 & H3 & H4 & _).
    exact (conj H1 (conj H2 (conj H3 (conj H4 Hc)))).
Qed.

(** The calls, in order, with what the callbacks do in between. *)
Lemma wp_events lax x a stack l : host_ok -> shows lax x a -> stack <> NULL -> Forall event_ok l ->
  wp (run_events stack l) (fun rs y => length rs = length l /\
    exists tr a', zip l rs `sublist_of` tr /\ steps lax a tr a' /\ shows lax y a') x.
Proof.
  intros Hhost Hx Hnull Hl. revert x a Hx. induction Hl as [|c l Hc Hl IH]; intros x [m old] Hx; cbn [run_events].
  - apply wp_ret. split; [done|]. exists [], (m, old). split_and!; [constructor|constructor|done].
  - apply wp_bind. eapply wp_mono; [by apply (wp_event lax x m)|]. intros r y (tr & a' & Htr & Hy). apply wp_bind.
    eapply wp_mono; [by apply IH|]. intros rs z (Hlen & tr' & a'' & Hsub & Htr' & Hz). apply wp_ret. split; [cbn; lia|].
    exists ((c, r) :: tr ++ tr'), a''. split_and!; [..|done].
    + cbn. apply sublist_skip. by apply sublist_inserts_l.
    + exact (steps_app lax _ _ _ _ _ Htr Htr').
Qed.
End Host.
