(* ===== verification/UdpNet.v ===== *)
(** * UDP over IPv4

    The adapters of kernel/net/net_stack.c that join UDP to the IPv4 layer, and
    the way of a datagram from one host's socket into another's. *)

From S2P Require Import Prelude Errno NetTypes NetSum Net NetBytes NetProps NetSafe NetSafeIp NetReceive NetLink NetDeliver.
From S2P Require Import Udp UdpProps UdpSockets UdpCalls.

(** The part of the world that is the UDP stack, and what else the network layers
    call: notifications, the other protocols and echo replies. *)
Class UdpWorld (W : Type) := {
  udp_in : W -> net_udp_stack;
  udp_in_setter :: Setter udp_in;
  udp_in_get_set : forall u w, udp_in (w <| udp_in := u |>) = u;
  udp_in_set_get : forall w, w <| udp_in := udp_in w |> = w;
  udp_in_set_set : forall u v w, (w <| udp_in := u |>) <| udp_in := v |> = w <| udp_in := v |>;
  notification : Z -> Z -> Z -> Z -> M (net W) unit;
  other_protocol : Z -> Z -> net_ipv4_addr -> net_ipv4_addr -> list Z -> Z -> M (net W) Z;
  echo_callback : Z -> Z -> net_ipv4_addr -> Z -> Z -> list Z -> Z -> M (net W) unit }.
#[export] Hint Mode UdpWorld ! : typeclass_instances.

(** The function pointer of [udp_ipv4_input_adapter]. *)
Abbreviation udp_input_fn := 17 (only parsing).

Section Adapters.
Context {G : Garbage} {W : Type} {U : UdpWorld W}.

Definition udp_ipv4_send_adapter (context source_address destination_address protocol_ : Z) (packet_ : list Z) : M (net W) Z :=
  net_ipv4_send (net_ipv4_addr_from_u32 source_address) (net_ipv4_addr_from_u32 destination_address) protocol_
    (Some packet_) (zlen packet_).

#[export] Instance udp_net_setter : Setter (fun s : net W => udp_in (wire s)) :=
  fun u s => s <| wire := (wire s) <| udp_in := u |> |>.

#[export] Program Instance udp_net_host : UdpHost (net W) :=
  {| udp_of := fun s => udp_in (wire s);
     udp_send_call := fun _ => udp_ipv4_send_adapter;
     udp_notify_call := notification |}.
Next Obligation. intros u s. apply udp_in_get_set. Qed.
Next Obligation.
  intros s. change (s <| wire := (wire s) <| udp_in := udp_in (wire s) |> |> = s). rewrite udp_in_set_get. by destruct s.
Qed.
Next Obligation.
  intros u v s. change (s <| wire := ((wire s) <| udp_in := u |>) <| udp_in := v |> |> = s <| wire := (wire s) <| udp_in := v |> |>).
  by rewrite udp_in_set_set.
Qed.

Definition udp_ipv4_input_adapter (device : Z) (source destination : net_ipv4_addr) (payload : list Z) (context : Z) : M (net W) Z :=
  result ← net_udp_receive context (net_ipv4_addr_to_u32 source) (net_ipv4_addr_to_u32 destination) (Some payload) (zlen payload);
  if result =? NET_UDP_OK then mret NET_OK
  else if result =? NET_UDP_ERR_NO_ENDPOINT then mret NET_ERR_NOT_FOUND
  else if result =? NET_UDP_ERR_QUEUE_FULL then mret NET_ERR_NO_BUFFER
  else mret NET_ERR_INVALID.

#[export] Instance udp_net_env : NetEnv W :=
  {| protocol_call := fun f device source destination payload context =>
       if f =? udp_input_fn then udp_ipv4_input_adapter device source destination payload context
       else other_protocol f device source destination payload context;
     echo_reply_call := echo_callback |}.
End Adapters.

Section Deliver.
Context {G : Garbage} {W : Type} {U : UdpWorld W} (frames : W -> list (list Z)).
Context (frames_udp : forall u w, frames (w <| udp_in := u |>) = frames w).
Implicit Types (s t : net W) (d : net_device W) (device : Z).

Abbreviation udp := (udp_of (S := net W)).

(** The socket's segment goes out on the route of its destination. *)
Lemma wp_udp_sent s device d stack handle i e destination port p n x mac f (Q : Z -> net W -> Prop) :
  up frames s device d -> stack <> NULL -> is_u32 handle -> stack_ok (udp s) -> names (udp s) handle i e -> bound e = true ->
  source_of (udp s) e = net_ipv4_addr_to_u32 (address (ipv4 d)) -> ipv4_send (config (udp s)) = Some f ->
  ip_unicast destination -> 1 <= port < 2 ^ 16 -> buffer_ok p n -> n <= 1472 -> 28 + n <= mtu d ->
  net_ipv4_route_lookup destination s = Some ((NET_OK, Some x), s) -> r_device x = device ->
  reaches s device d destination mac -> net_mac_addr_is_zero mac = false ->
  let segment := udp_bytes (net_ipv4_addr_to_u32 (address (ipv4 d))) (net_ipv4_addr_to_u32 destination) (local_port e) port (data_of p n) in
  (forall t, frames (wire t) = frames (wire s) ++
     [eth_frame mac (mac_address d) NET_ETHERTYPE_IPV4
        (datagram (net_ipv4_identification s) 17 (address (ipv4 d)) destination segment)] -> Q NET_UDP_OK t) ->
  wp (net_udp_sendto stack handle (net_ipv4_addr_to_u32 destination) port p n) Q s.
Proof.
  intros Hup Hnull Hh Hok Hn Hb Hsrc Hf (Hd & Hdu) Hport Hbuf Hn1472 Hmtu Hroute Hx Hreach Hz segment HQ.
  destruct (up_facts frames s device d Hup) as (_ & _ & (Ha & Hau)). pose proof (to_u32_range _ Hd) as Hdr.
  unfold net_udp_sendto. apply wp_bind, wp_zoom_get, wp_lookup_endpoint; [done..| |]; [|intros Hno; by destruct (Hno i e)].
  intros j e' Hn'. destruct (names_unique _ _ _ _ _ _ Hok Hn Hn') as [<- <-]. split; [done|]. pose proof Hn as (Hi & _).
  assert (Hd0 : net_ipv4_addr_to_u32 destination <> 0).
  { intros E0. destruct (unicast_classes destination Hd Hdu) as (Hdz & _ & _). rewrite ip_is_zero_spec in Hdz by done. apply bool_decide_eq_false in Hdz.
    apply Hdz, to_u32_inj; [done|apply ip_zero_ok|done]. }
  rewrite (proj2 (Z.eqb_neq _ 0)), (proj2 (Z.eqb_neq port 0)) by (done || lia).
  assert (is_null p && negb (n =? 0) = false) as -> by (destruct p; [done|]; destruct Hbuf as [_ ->]; done). cbn [orb].
  rewrite (proj2 (Z.ltb_ge 1472 n)) by lia. apply wp_bind, wp_zoom_get. eapply wp_elem; [exact Hi|]. split; [done|]. rewrite Hb. cbn [negb].
  apply wp_bind, wp_ret. cbn [Z.eqb negb]. apply (wp_send_segment s i e); [done..|by rewrite Hf|]. intros f' _. rewrite Hsrc. fold segment.
  pose proof (length_data_of p n Hbuf) as Hlen. pose proof (data_of_bytes p n Hbuf) as Hdb.
  assert (Hseg : zlen segment = 8 + n) by (unfold segment; rewrite length_udp_bytes, Hlen; done).
  assert (Hdata : data_of (Some segment) (zlen segment) = segment) by (unfold data_of; cbn; rewrite Nat2Z.id; by apply take_ge).
  change (wp (net_ipv4_send (net_ipv4_addr_from_u32 (net_ipv4_addr_to_u32 (address (ipv4 d))))
    (net_ipv4_addr_from_u32 (net_ipv4_addr_to_u32 destination)) 17 (Some segment) (zlen segment)) (fun r y =>
      (r <> 0 -> Q (if r <? 0 then r else NET_UDP_ERR_IO) y) /\
      (r = 0 -> forall u, counted (udp y) u -> Q NET_UDP_OK (y <| udp_of := u |>))) s).
  rewrite !from_to_u32 by done.
  apply (wp_send_routed frames s device d _ _ _ _ _ x mac);
    [done|by right|done|lia|split; [lia|split; [done|by apply udp_bytes_ok]]|lia|done|done|done|done|].
  intros t _ Ef. split; [done|]. intros _ u _. apply HQ. change (wire (t <| udp_of := u |>)) with ((wire t) <| udp_in := u |>).
  rewrite frames_udp, Ef, Hdata. done.
Qed.

(** The handler of B puts the data into the socket's inbox. *)
Lemma wp_udp_taken s device d mac identification source sport port data h handle k m (Q : Z -> net W -> Prop) :
  up frames s device d -> mac_unicast mac -> ip_unicast source -> is_u16 sport -> is_u16 port -> bytes_ok data -> zlen data <= 1472 ->
  28 + zlen data <= mtu d ->
  handler_of s 17 = Some h -> handler h = protocol_fn udp_input_fn -> h_context h <> NULL ->
  stack_ok (udp s) -> view (udp s) m -> m !! handle = Some k -> takes k (net_ipv4_addr_to_u32 (address (ipv4 d))) port ->
  (length (inbox k) < 8)%nat -> (forall i e, names (udp s) handle i e -> notify e = None) ->
  let a := net_ipv4_addr_to_u32 source in let b := net_ipv4_addr_to_u32 (address (ipv4 d)) in
  let frame := eth_frame (mac_address d) mac NET_ETHERTYPE_IPV4
    (datagram identification 17 source (address (ipv4 d)) (udp_bytes a b sport port data)) in
  (forall t, stack_ok (udp t) ->
     view (udp t) (<[handle := mk_socket (bound_to k) (inbox k ++ [mk_message (mk_udp_address a sport) b data])]> m) -> Q NET_OK t) ->
  wp (net_device_receive device (Some frame) (zlen frame)) Q s.
Proof.
  intros Hup Hmac Hsrc Hsp Hport Hdata Hlen Hmtu Hh Hfn Hctx Hok Hv Hk Ht Hroom Hquiet a b frame HQ.
  destruct (up_facts frames s device d Hup) as (_ & _ & (Hip & _)). pose proof Hup as (_ & _ & Hd & _).
  pose proof (to_u32_range _ (proj1 Hsrc)) as Ha. pose proof (to_u32_range _ Hip) as Hb.
  pose proof (length_udp_bytes a b sport port data) as Hseg.
  apply (wp_handed frames s device d mac identification 17 source _ h); [done..|lia|lia|done|].
  unfold call_handler. rewrite Hfn. change (wp (udp_ipv4_input_adapter device source (address (ipv4 d)) (udp_bytes a b sport port data) (h_context h))
    (fun r t => is_Some (devs t !! device) /\ forall t', sent t t' -> wire t' = wire t -> Q r t') s).
  unfold udp_ipv4_input_adapter, net_udp_receive. fold a b. apply wp_bind, wp_bind, wp_zoom.
  pose proof (udp_parse_bytes (allow_zero_checksum (config (udp s))) a b sport port data Hsp Hport Hdata Hlen) as Hparse.
  apply (wp_receive_segment _ m); [done..|by apply udp_bytes_ok| |].
  { intros r u _ Hw _. exfalso. apply Hw. by exists sport, port, data, handle, k. }
  intros h' i e dg u sp p dat Hn Hp Ht' Es Hcnt _ Hoku Hvu. rewrite Hparse in Hp. injection Hp as <- <- <-.
  pose proof (view_named _ m _ _ _ Hv Hn) as Hk'. assert (h' = handle) as ->.
  { eapply takes_unique; [exact Hok|exact Hv|exact Hk'|exact Hk|exact Ht'|exact Ht]. }
  rewrite Hk in Hk'. injection Hk' as ->. rewrite Es in Hvu. pose proof Hn as (Hi & _). pose proof (rd_range _ _ _ Hi) as Hr.
  assert (Hi' : rd (endpoints u) i = Some (pushed e dg)) by (destruct Hcnt as [st ->]; by apply rd_insert_eq).
  apply wp_bind, wp_zoom_get. rewrite udp_get_set. eapply wp_elem; [exact Hi'|]. split; [done|].
  change (notify (pushed e dg)) with (notify e). rewrite (Hquiet i e Hn). apply wp_bind, wp_ret, wp_ret. cbn [Z.eqb]. apply wp_ret.
  split; [by eexists|]. intros t' _ Hw. assert (Eu : udp t' = u).
  { change (udp t') with (udp_in (wire t')). rewrite Hw. exact (udp_in_get_set u (wire s)). }
  apply HQ; by rewrite Eu.
Qed.
End Deliver.
