(* ===== verification/UdpTheorems.v ===== *)
(** * What UDP guarantees

    The stack is a set of sockets, whatever calls are made and whatever arrives,
    and a datagram sent from one host's socket can be read from another's. *)

From S2P Require Import Prelude Errno NetTypes NetSum Net NetBytes NetProps NetSafe NetSafeIp NetReceive NetRegistry NetLink NetDeliver NetCalls.
From S2P Require Import NetTheorems Udp UdpProps UdpSockets UdpCalls UdpNet.

(** ** After the initialisation there are no sockets *)

Definition fresh_stack (c : net_udp_config) : net_udp_stack :=
  mk_udp_stack c (mk_udp_stats 0 0 0 0 0 0 0) 49152 (replicate 16 (blank_endpoint 1)).
Lemma init_run stack c u : stack <> NULL -> net_udp_init stack (Some c) u = Some (tt, fresh_stack c).
Proof. intros Hn. unfold net_udp_init. rewrite (proj2 (Z.eqb_neq stack NULL)) by done. reflexivity. Qed.

Lemma fresh_inactive c i e : rd (endpoints (fresh_stack c)) i = Some e -> e = blank_endpoint 1.
Proof. intros [_ Hi]%rd_lookup. by apply lookup_replicate in Hi as [-> _]. Qed.
Lemma fresh_ok c : is_u32 (c_local_address c) -> stack_ok (fresh_stack c).
Proof.
  intros Hc. split; [done|]. split; [apply Forall_replicate, blank_endpoint_ok; lia|]. split; [|done].
  apply unique_replicate. by intros (? & _).
Qed.
Lemma fresh_view c : view (fresh_stack c) ∅.
Proof. intros h k. split; [done|]. intros (i & e & (Hi & Ha & _) & _). by apply fresh_inactive in Hi as ->. Qed.

Section Theorems.
Context {G : Garbage}.

(** C8: from the initialisation, any sequence of calls of the UDP interface
    (opening, closing, binding, sending, receiving, and segments with any bytes
    arriving from the network) returns, and its answers are those of a machine of
    sockets: a handle is refused unless it names an open socket, and a closed one
    is not given out again before 2^20 - 2 more were closed; two sockets never
    claim the same datagrams; a bind without a port always succeeds; a segment
    with a wrong length or checksum reaches nobody, and any other goes to the one
    socket that takes it, unchanged and in order, until eight are waiting.  The
    callbacks may call the interface in turn. *)
Theorem udp_refines_sockets {S} {H : UdpHost S} (x : S) stack c l :
  host_ok (S := S) -> stack <> NULL -> is_u32 (c_local_address c) -> Forall event_ok l ->
  wp (zoom udp_of (net_udp_init stack (Some c));; run_events stack l) (fun rs y =>
    length rs = length l /\
    exists trace a, zip l rs `sublist_of` trace /\ steps (allow_zero_checksum c) (∅, []) trace a /\
      shows (allow_zero_checksum c) y a) x.
Proof.
  intros Hhost Hn Hc Hl. apply wp_bind, wp_zoom. exists tt, (fresh_stack c). split; [by apply init_run|].
  apply wp_events; [done| |done|done]. unfold shows. rewrite udp_get_set.
  split; [by apply fresh_ok|]. split; [apply fresh_view|]. split; [apply history_nil|done].
Qed.

(** C9: host A, whose routes and address table reach its neighbour B, sends from
    a bound socket to a port that a socket of B takes.  One frame leaves A; when B
    gets it, the handler accepts it, and B's socket, whose inbox was empty, reads
    exactly A's bytes, their number and A's address and port. *)
Theorem udp_delivered {W} {U : UdpWorld W} (frames : W -> list (list Z)) (sA sB : net W) a b dA dB stackA stackB handleA handleB
    i e k m port p n x hB f buffer :
  (forall u w, frames (w <| udp_in := u |>) = frames w) ->
  up frames sA a dA -> up frames sB b dB -> stackA <> NULL -> stackB <> NULL -> is_u32 handleA -> is_u32 handleB ->
  stack_ok (udp_of sA) -> names (udp_of sA) handleA i e -> bound e = true ->
  source_of (udp_of sA) e = net_ipv4_addr_to_u32 (address (ipv4 dA)) -> ipv4_send (config (udp_of sA)) = Some f ->
  1 <= port < 2 ^ 16 -> buffer_ok p n -> n <= 1472 -> 28 + n <= mtu dA -> 28 + n <= mtu dB ->
  net_ipv4_route_lookup (address (ipv4 dB)) sA = Some ((NET_OK, Some x), sA) -> r_device x = a ->
  reaches sA a dA (address (ipv4 dB)) (mac_address dB) ->
  handler_of sB 17 = Some hB -> handler hB = protocol_fn udp_input_fn -> h_context hB = stackB ->
  stack_ok (udp_of sB) -> view (udp_of sB) m -> m !! handleB = Some k ->
  takes k (net_ipv4_addr_to_u32 (address (ipv4 dB))) port -> inbox k = [] ->
  (forall i e, names (udp_of sB) handleB i e -> notify e = None) -> n <= zlen buffer ->
  let from := net_ipv4_addr_to_u32 (address (ipv4 dA)) in let to := net_ipv4_addr_to_u32 (address (ipv4 dB)) in
  let frame := eth_frame (mac_address dB) (mac_address dA) NET_ETHERTYPE_IPV4
    (datagram (net_ipv4_identification sA) 17 (address (ipv4 dA)) (address (ipv4 dB))
       (udp_bytes from to (local_port e) port (data_of p n))) in
  wp (net_udp_sendto stackA handleA to port p n) (fun r sA1 =>
    r = NET_UDP_OK /\ frames (wire sA1) = frames (wire sA) ++ [frame] /\
    wp (net_device_receive b (Some frame) (zlen frame)) (fun r sB1 =>
      r = NET_OK /\
      wp (zoom udp_of (net_udp_recvfrom stackB handleB (Some buffer) (zlen buffer) true true)) (fun result _ =>
        result = (NET_UDP_OK, Some n, Some (data_of p n ++ drop (Z.to_nat n) buffer),
                  Some (mk_udp_address from (local_port e)))) sB1) sB) sA.
Proof.
  intros Hframes HupA HupB HnA HnB HhA HhB HokA Hn Hb Hsrc Hf Hport Hbuf H1472 HmA HmB Hroute Hx Hreach HhB' Hfn Hctx
    HokB Hv Hk Ht Hempty Hquiet Hcap from to frame.
  destruct (up_facts frames sA a dA HupA) as (HmacA & _ & HipA). destruct (up_facts frames sB b dB HupB) as (HmacB & _ & HipB).
  pose proof (length_data_of p n Hbuf) as Hlen. pose proof (data_of_bytes p n Hbuf) as Hdb.
  assert (Hlp : is_u16 (local_port e)).
  { destruct (names_range _ _ _ _ HokA Hn) as (_ & (_ & _ & _ & _ & _ & _ & Hp)). specialize (Hp Hb). lia. }
  eapply (wp_udp_sent frames Hframes sA a dA stackA handleA i e (address (ipv4 dB)) port p n x (mac_address dB) f);
    try done; [apply HmacB|]. intros sA1 EfA. split; [done|]. split; [exact EfA|].
  apply (wp_udp_taken frames sB b dB (mac_address dA) (net_ipv4_identification sA) (address (ipv4 dA)) (local_port e) port (data_of p n) hB
    handleB k m); try done; [lia|lia|lia|by rewrite Hctx|rewrite Hempty; cbn; lia|].
  intros sB1 HokB1 HvB1. split; [done|]. rewrite Hempty in HvB1. cbn [app] in HvB1. set (msg := mk_message _ _ _) in HvB1.
  set (m' := <[handleB:=_]> m) in HvB1. assert (Hk' : m' !! handleB = Some (mk_socket (bound_to k) [msg])) by apply lookup_insert_eq.
  apply wp_zoom, (wp_recvfrom false _ m'); [done..|congruence| | |].
  - intros Hs. exfalso. inversion Hs; simplify_eq.
  - intros n' Hs. exfalso. inversion Hs; simplify_eq. cbn in *. simplify_eq. cbn in *. lia.
  - intros j ej dg Hnj Hw Hql b' _ _ _. pose proof (view_named _ m' _ _ _ HvB1 Hnj) as Hk2. rewrite Hk' in Hk2. injection Hk2 as _ Hin.
    rewrite Hw in Hin. assert (Hmsg : message_of dg = msg) by (symmetry; exact (f_equal (hd msg) Hin)).
    unfold b'. rewrite Hql, Hmsg. unfold msg. cbn [body]. rewrite Hlen. replace (length (data_of p n)) with (Z.to_nat n) by lia.
    do 2 f_equal. exact (f_equal UdpSockets.from Hmsg).
Qed.
End Theorems.

(** ** Two hosts with a socket each *)
Module UdpToy.
Import NetTheorems.NetToy (mac, ip, asks, mac_k_ok, ip_k_ok, asks_ok).

(** The world: the cable and the UDP stack. *)
Record world := mk_world { cable : list (list Z); toy_udp : net_udp_stack }.
#[export] Instance toy_garbage : Garbage := fun i => 170 + i.
#[export] Instance set_toy_udp : Setter toy_udp := fun u w => mk_world (cable w) u.
#[export] Program Instance toy_world : UdpWorld world :=
  {| udp_in := toy_udp; notification := fun _ _ _ _ => mret tt; other_protocol := fun _ _ _ _ _ _ => mret NET_OK;
     echo_callback := fun _ _ _ _ _ _ _ => mret tt |}.
Next Obligation. done. Qed.
Next Obligation. by intros []. Qed.
Next Obligation. done. Qed.

Definition plug : Z -> Z -> list Z -> M world Z := fun _ _ frame w => Some (NET_OK, mk_world (cable w ++ [frame]) (toy_udp w)).
Definition start (k : Z) : list (call world) :=
  [Register 1 (Some [101; 116; 104; 48; 0]) (mac k) 1500 (Some plug) 7;
   Configure 1 (ip k) (net_ipv4_addr_make 255 255 255 0) net_ipv4_addr_zero;
   Ipv4Reset; IcmpInit; RegisterProtocol 17 (Some (protocol_fn udp_input_fn)) 1].
(** No datagram arrives while the hosts start. *)
Definition quiet : NetEnv world :=
  {| protocol_call := fun _ _ _ _ _ _ => mret NET_OK; echo_reply_call := fun _ _ _ _ _ _ _ => mret tt |}.
Lemma quiet_ok : callbacks_ok (E := quiet).
Proof.
  split.
  - intros. cbn. apply wp_ret. by apply stepped_refl.
  - intros. cbn. apply wp_ret. by apply stepped_refl.
Qed.
Definition boot (u : net_udp_stack) : net world := net_boot {[1]} (mk_world [] u).
Definition after (l : list (call world)) u : net world := match run_calls (E := quiet) l (boot u) with Some (_, t) => t | None => boot u end.
Definition host (k : Z) u : net world := after (start k) u.
Definition friend (k j : Z) u : net world := after (start k ++ [Receive 1 (Some (asks j k)) 60]) u.
Definition device_of (s : net world) : net_device world := default blank_device (devs s !! 1).

Lemma toy_plug_ok : driver_ok plug.
Proof. intros device context frame w. by eexists _, _. Qed.
Lemma toy_plug_carries : carries cable plug.
Proof. intros device context frame w. by eexists. Qed.
Lemma toy_start_ok k u : 0 < k < 255 -> Forall (call_ok (devs (boot u))) (start k).
Proof.
  intros Hk. assert (Hb : known (devs (boot u)) 1) by (split; [done|by eexists]).
  repeat apply Forall_cons_2; [..|apply Forall_nil_2]; cbn; try done.
  - split; [by right|]. split; [by apply (bool_decide_unpack _)|]. split; [by apply mac_k_ok|apply toy_plug_ok].
  - split; [done|]. split_and!; [by apply ip_k_ok|by apply (bool_decide_unpack _)|apply ip_zero_ok].
Qed.
Lemma toy_after_ok l u : Forall (call_ok (devs (boot u))) l -> net_ok (after l u).
Proof.
  intros Hl. destruct (wp_calls (E := quiet) quiet_ok (boot u) l) as (x & t & Et & Hok); [apply boot_ok; set_solver|done|].
  unfold after. by rewrite Et.
Qed.
Lemma toy_host_ok k u : 0 < k < 255 -> net_ok (host k u).
Proof. intros Hk. by apply toy_after_ok, toy_start_ok. Qed.
Lemma toy_friend_ok j k u : 0 < j < 255 -> 0 < k < 255 -> net_ok (friend k j u).
Proof.
  intros Hj Hk. apply toy_after_ok, Forall_app_2; [by apply toy_start_ok|]. apply Forall_cons_2; [|apply Forall_nil_2].
  split; [split; [done|by eexists]|by apply asks_ok].
Qed.
Lemma toy_host_up s : net_ok s -> devs s !! 1 = Some (device_of s) -> registered (device_of s) = true ->
  configured (ipv4 (device_of s)) = true -> transmit (device_of s) = Some plug -> up cable s 1 (device_of s).
Proof. intros Hok Hd Hr Hc Ht. split; [done|]. split; [done|]. split_and!; try done. exists plug. split; [done|apply toy_plug_carries]. Qed.
Lemma toy_host2_up u : up cable (host 2 u) 1 (device_of (host 2 u)).
Proof. apply toy_host_up; [by apply toy_host_ok|by vm_compute..]. Qed.
Lemma toy_friend1_up u : up cable (friend 1 2 u) 1 (device_of (friend 1 2 u)).
Proof. apply toy_host_up; [by apply toy_friend_ok|by vm_compute..]. Qed.

Lemma host2_udp u : udp_of (host 2 u) = u.
Proof. by vm_compute. Qed.
Lemma friend1_udp u : udp_of (friend 1 2 u) = u.
Proof. by vm_compute. Qed.

(** A stack with one socket, as the interface makes it. *)
Definition toy_config (k : Z) : net_udp_config := mk_udp_config (net_ipv4_addr_to_u32 (ip k)) false (Some 1) 1.
Definition socket_at (port : Z) : net_udp_endpoint := bound_at (opened 1 None NULL) 0 port.
Definition one_socket (k port : Z) : net_udp_stack := put (fresh_stack (toy_config k)) 0 (socket_at port).
Abbreviation first_handle := (make_handle 0 1) (only parsing).
Lemma one_socket_made k u :
  (net_udp_init 1 (Some (toy_config k));; net_udp_open 1 None NULL true;; net_udp_bind 1 first_handle 0 7) u =
  Some (NET_UDP_OK, one_socket k 7).
Proof. reflexivity. Qed.

Lemma toy_config_ok k : 0 < k < 255 -> is_u32 (c_local_address (toy_config k)).
Proof. intros Hk. by apply to_u32_range, ip_k_ok. Qed.
Lemma socket_named k port : names (one_socket k port) first_handle 0 (socket_at port).
Proof. done. Qed.
Lemma one_socket_ok k port : 0 < k < 255 -> 1 <= port < 2 ^ 16 -> stack_ok (one_socket k port).
Proof.
  intros Hk Hp. apply put_ok; [by apply fresh_ok, toy_config_ok| |].
  - destruct (opened_ok 1 None NULL ltac:(lia)) as (H1 & H2 & H3 & H4 & H5 & H6 & _). exact (conj H1 (conj H2 (conj H3 (conj H4 (conj H5 (conj H6 (fun _ => Hp))))))).
  - intros j e Hj _ (Ha & _). apply lookup_replicate in Hj as [-> _]. done.
Qed.
Lemma one_socket_view k port : 0 < k < 255 -> view (one_socket k port) {[first_handle := socket_of (socket_at port)]}.
Proof.
  intros Hk. rewrite <- insert_empty. exact (view_put (fresh_stack (toy_config k)) ∅ 0 (blank_endpoint 1) (socket_at port)
    (fresh_ok _ (toy_config_ok k Hk)) (fresh_view _) eq_refl ltac:(cbn; lia) eq_refl (fun _ => eq_refl)).
Qed.

(** Host 1 sends three bytes from port 5000 to port 7 of host 2. *)
Lemma udp_delivered_witness : exists t,
  net_udp_sendto 1 first_handle (net_ipv4_addr_to_u32 (ip 2)) 7 (Some [104; 105; 33]) 3 (friend 1 2 (one_socket 1 5000)) = Some (NET_UDP_OK, t) /\
  length (cable (wire t)) = 2%nat.
Proof.
  destruct (udp_delivered cable (friend 1 2 (one_socket 1 5000)) (host 2 (one_socket 2 7)) 1 1
    (device_of (friend 1 2 (one_socket 1 5000))) (device_of (host 2 (one_socket 2 7))) 1 1 first_handle first_handle 0 (socket_at 5000)
    (socket_of (socket_at 7)) {[first_handle := socket_of (socket_at 7)]} 7 (Some [104; 105; 33]) 3
    (mk_route (net_ipv4_addr_make 10 0 0 0) (net_ipv4_addr_make 255 255 255 0) net_ipv4_addr_zero 1 0)
    (mk_handler 17 (protocol_fn udp_input_fn) 1 true) 1 (replicate 100 0)) as (r & t & Et & -> & Ew & _).
  - done.
  - apply toy_friend1_up.
  - apply toy_host2_up.
  - done.
  - done.
  - done.
  - done.
  - rewrite friend1_udp. by apply one_socket_ok.
  - rewrite friend1_udp. apply socket_named.
  - done.
  - rewrite friend1_udp. generalize (one_socket 1 5000) at 2. intros u. by vm_compute.
  - rewrite friend1_udp. done.
  - lia.
  - split; [lia|]. split; [done|]. by apply (bool_decide_unpack _).
  - lia.
  - generalize (one_socket 1 5000). intros u. by vm_compute.
  - generalize (one_socket 2 7). intros u. by vm_compute.
  - generalize (one_socket 1 5000), (one_socket 2 7). intros u v. by vm_compute.
  - done.
  - generalize (one_socket 1 5000), (one_socket 2 7). intros u v. exists (ip 2). by split; vm_compute.
  - generalize (one_socket 2 7). intros u. by vm_compute.
  - done.
  - done.
  - rewrite host2_udp. by apply one_socket_ok.
  - rewrite host2_udp. by apply one_socket_view.
  - apply lookup_insert_eq.
  - eexists. split; [done|]. split; [done|by left].
  - done.
  - rewrite host2_udp. intros i e Hn. destruct (names_unique _ _ _ _ _ _ (one_socket_ok 2 7 ltac:(lia) ltac:(lia)) Hn (socket_named 2 7)) as [-> ->]. done.
  - cbn. lia.
  - exists t. split; [exact Et|]. rewrite Ew, length_app. done.
Defined.

(** A stack alone, whose callbacks do nothing. *)
#[export] Instance alone_setter : Setter (fun u : net_udp_stack => u) := fun u _ => u.
#[export] Program Instance alone : UdpHost net_udp_stack :=
  {| udp_of := fun u => u; udp_send_call := fun _ _ _ _ _ _ => mret NET_OK; udp_notify_call := fun _ _ _ _ => mret tt |}.
Next Obligation. done. Qed.
Next Obligation. done. Qed.
Next Obligation. done. Qed.
Lemma alone_ok : UdpCalls.host_ok (S := net_udp_stack).
Proof. intros lax x a Hx. split; intros; apply wp_ret; by apply moves_shows. Qed.

(** Two sockets that want port 7, a datagram for it, and a closed handle. *)
Definition segment : list Z := udp_bytes 5 6 9 7 [1; 2].
Definition session : list event :=
  [Open None NULL; Open None NULL; Bind 0xd0000101 0 7; Bind 0xd0000102 0 7; Bind 0xd0000102 0 0; Arrive 5 6 segment;
   RecvFrom 0xd0000101 [0; 0; 0]; Close 0xd0000101; Pending 0xd0000101; Open None NULL].
Lemma udp_refines_sockets_witness : exists rs y,
  (zoom udp_of (net_udp_init 1 (Some (toy_config 1)));; run_events 1 session) (one_socket 1 7) = Some (rs, y) /\
  rs = [Handle 0xd0000101; Handle 0xd0000102; Code NET_UDP_OK; Code NET_UDP_ERR_ADDRESS_IN_USE; Code NET_UDP_OK; Code NET_UDP_OK;
        Data [1; 2; 0] 2 (mk_udp_address 5 9); Code NET_UDP_OK; Code NET_UDP_ERR_BAD_HANDLE; Handle 0xd0000201] /\
  stack_ok y.
Proof.
  destruct (udp_refines_sockets (S := net_udp_stack) (one_socket 1 7) 1 (toy_config 1) session) as (rs & y & E & _ & (trace & a & _ & _ & Hy)).
  - exact alone_ok.
  - done.
  - exact (toy_config_ok 1 ltac:(lia)).
  - assert (Hseg : bytes_ok segment) by (apply udp_bytes_ok; by apply (bool_decide_unpack _)).
    repeat apply Forall_cons_2; [..|apply Forall_nil_2]; unfold event_ok; try done; lia.
  - exists rs, y. split; [exact E|]. split; [|apply Hy].
    apply (f_equal (fmap fst)) in E. vm_compute in E. by injection E as <-.
Defined.
End UdpToy.
